(* ===== verification/_CoqProject ===== *)
-Q . S2P
Prelude.v
Route.v
Checksum.v
Crc32c.v
Pmm.v
Klock.v
Task.v
Pmtu.v
Pledge.v
Pipe.v
Object.v
BlockCache.v
Wire.v
Ethernet.v
Arp.v
Ipv4.v
Icmp.v
NetStack.v
Dns.v
Elf64.v
Resource.v
NetBuffer.v
Ring.v
Event.v
TcpCc.v
Vm.v
VmInv.v
VmOps.v
VmUser.v
VmAccess.v
VmSpaces.v
VmDestroy.v
VmClone.v
VmMappings.v
VmRevoke.v
VmKernel.v
VmInit.v
VmWalk.v
VmCopy.v
VmSystem.v
VmTheorems.v
Ipc.v
IpcInv.v
IpcTheorems.v
IpcVm.v
AdytumFormat.v
AdytumVolume.v
AdytumDevice.v
AdytumCommit.v
AdytumSample.v
AdytumMake.v
AdytumAtomic.v
AdytumWindow.v
AdytumAlloc.v
AdytumData.v
AdytumInode.v
AdytumExtents.v
AdytumTable.v
AdytumStep.v
AdytumFiles.v
AdytumRemap.v
AdytumTouch.v
AdytumFile.v
AdytumFileTheorems.v
AdytumVerify.v
AdytumFresh.v
AdytumRoundTrip.v
AdytumCrash.v
AdytumAudit.v
