(* ===== verification/Prelude.v ===== *)
(** * A verification library for the Mich kernel

    The program under [src/] is a kernel for x86-64 written in C.  This library
    translates parts of it into Rocq functions, by hand and with the names of
    the source, and proves what makes those parts correct.

    ** The program and the files that model it

    - Memory.  [core/pmm.c] hands out physical pages (Pmm.v).
      [arch/x86_64/memory/vm.c] builds the page tables of the address spaces
      in those pages: Vm.v has its functions, on the bytes of the allocator's
      memory, and the other files whose names begin with Vm prove them
      correct, one group of functions each (VmInv.v and VmOps.v the invariant
      and the steps all of them are made of, VmUser.v pages and copy on write,
      VmAccess.v and VmCopy.v transfers, VmSpaces.v, VmDestroy.v and VmClone.v
      whole spaces, VmMappings.v and VmRevoke.v objects, VmKernel.v and
      VmInit.v the device window).  VmWalk.v is the processor's walk of the
      tables, VmSystem.v the steps of the whole system and VmTheorems.v its
      theorems.  The program loader [arch/x86_64/kernel/elf64.c] (Elf64.v)
      fills pages and maps them into an address space through the interface of
      [memory/vm64.h], the class [Vm64].
    - Concurrency.  [core/klock.c] and [core/spinlock.h] are the ticket locks
      with their global order (Klock.v): sixteen CPUs interleave atomic actions.
      The other files take critical sections as one step on the strength of
      its mutual exclusion theorem.
    - Tasks.  [process/task.c] is the task pool and the choice of the next task
      (Task.v).  [process/posix_pipe.c] and [process/posix_io.c] are pipes with
      parked readers and writers (Pipe.v), [process/posix_pledge.c] the sandbox
      of pledge and unveil (Pledge.v).
    - Messages.  [arch/x86_64/kernel/ipc64.c] passes messages between tasks,
      which it parks in the task pool (Ipc.v, with the invariant in IpcInv.v
      and the theorems in IpcTheorems.v).  It reads and writes user memory
      through the class [IpcMemory]; IpcVm.v implements the class with the
      model of [memory/vm.c].
    - Kernel objects.  [objects/object.c] is the object table with the handles
      of every task (Object.v).  [objects/event.c] builds events on objects and
      tasks (Event.v), [objects/ring.c] shared descriptor rings (Ring.v) and
      [net/net_buffer.c] pools of packet buffers (NetBuffer.v); the last two
      use page resources through the class of Resource.v.
    - Storage.  [block/cache.c] is the write-back cache in front of the block
      devices (BlockCache.v), [fs/crc32c.c] the checksum of file system blocks
      (Crc32c.v).
    - The file system AdytumFS, in the files whose names begin with Adytum.
      Its code is in AdytumFormat.v ([fs/adytumfs_format.h], superblocks and
      inodes as bytes, [fs/adytumfs_super.c]), AdytumVolume.v
      ([fs/adytumfs_volume.c]: blocks, the window of staged metadata, the
      allocator, commit and format), AdytumInode.v ([fs/adytumfs_inode.c]),
      AdytumFile.v ([fs/adytumfs_file.c]) and AdytumVerify.v
      ([fs/adytumfs_verify.c] and the opening of a volume in [fs/adytumfs.c]).
      The code is in a monad of failing actions on the staging pool, the
      superblock and the device.  The device below is the class [FsDevice];
      AdytumDevice.v states its laws, with what callers see, what is stored
      and the images a crash may leave, and AdytumSample.v is an instance that
      holds writes back until a flush.  AdytumCommit.v and AdytumAtomic.v prove
      commits and mounts, AdytumMake.v and AdytumFresh.v the format,
      AdytumWindow.v, AdytumAlloc.v, AdytumData.v, AdytumExtents.v and
      AdytumTable.v the parts a volume is made of, AdytumStep.v, AdytumFiles.v,
      AdytumRemap.v and AdytumTouch.v the independence of files, and
      AdytumFileTheorems.v, AdytumRoundTrip.v, AdytumCrash.v and AdytumAudit.v
      writes, reads, crashes in them and the audit of a mount.
    - Network.  Frames come in through [net/ethernet.c] (Ethernet.v), whose
      handlers are [net/arp.c] (Arp.v) and [net/ipv4.c] (Ipv4.v); IPv4
      dispatches to [net/icmp.c] (Icmp.v) and NetStack.v follows a packet
      through both.  [net/route.c] is the routing table (Route.v), [net/pmtu.c]
      the path MTU cache (Pmtu.v), [net/checksum.h] with [core/mem.c] the
      Internet checksum and the copy loops (Checksum.v), [net/dns_message.c]
      the DNS encoder and parser (Dns.v) and [net/tcp_cc.c] the congestion
      control of TCP (TcpCc.v).  Wire.v has the big-endian accessors they share.

    ** How code becomes definitions

    A C function is a function on the state of its module, a [Record] of the
    module's static variables, and returns its answer with the new state.  A
    [w]-bit integer is a [Z] with every wrap-around of the source written out
    ([u8] to [u64], [i32] below).  An array is a function of the index, updated
    with [upd], or a list where the code treats it as a buffer.  A pointer to
    an element of a table is its index and a null pointer is [None].  [for]
    loops are [for_range] and [scan_range] below, or structural recursion; a
    panic is [None].  Code that a module calls and this library does not model
    is a type class or an argument of the definitions, with its documented
    behaviour as laws, and every theorem with such a class has a witness with
    a concrete instance.  Ghost fields, named in the head of each file, record
    history; no definition of the code reads them.

    A module whose operations interleave (locks, objects, events, pipes, pools,
    rings, messages) has an inductive [step] relation with one constructor for each
    operation, and its safety theorems are about every state that [rtc step]
    reaches from the module's init function.

    ** What the theorems show

    - Wake-ups are not lost: [event_no_lost_wakeup], whatever tasks a stop by
      a signal takes out of their waits, and [pipe_no_lost_wakeup], when reads
      follow the check of their request as in the system call; signals and
      bytes arrive where they should: [event_signal_correct], [pipe_fifo].
    - The file system: a commit is atomic and a crash in it mounts,
      [adytum_commit_atomic], [adytum_crash_mount]; writes reach the file and
      nothing else and are read back, [adytum_file_write],
      [adytum_file_roundtrip], and a crash in one loses no committed state,
      [adytum_write_crash]; the audit of a mount is exact and what passes it is
      sound, [adytum_verify_exact], [adytum_attach_sound]; a new volume mounts,
      [adytum_format_mount]; the allocator, [adytum_alloc_first_fit], the
      extents, [adytum_reroute_map], and the bytes of an inode,
      [adytum_inode_typed].
    - Messages are delivered once, to the task they are for and under the name
      of the task they are from, [ipc_exactly_once]; parked tasks have live
      peers and no cycle, [ipc_rendezvous]; a send is refused as a deadlock
      for a cycle or when nothing else can run, [ipc_deadlock_exact].
    - References and authority: [handle_get_live], [handle_authority_confined],
      [handle_revocation_complete], [handle_stale], [packet_pool_ownership],
      [packet_pool_stale], [pledge_ratchet], [veil_check_nearest_rule].
    - Address spaces: in every state that boot and any interleaving of kernel
      calls and user stores reach, [vm_reachable_inv]; user code gets to its
      own pages and mapped objects only, [vm_user_confined]; spaces do not
      disturb each other, [vm_isolation]; a fork is a snapshot,
      [vm_fork_snapshot]; revocation takes every access, [vm_revoke_complete];
      nothing is leaked, [vm_no_leak]; transfers move the bytes they should,
      [vm_copy_roundtrip]; device windows, [vm_ioremap_first_fit].
    - Invariants of every reachable state: [pmm_reachable_inv],
      [pool_pids_unique], [packet_pools_well_formed], [ring_counters_correct],
      [ring_descriptors_safe], [klock_mutual_exclusion], [klock_deadlock_free].
    - Refinement of an abstract specification: [block_cache_refines_disk] (a
      flat disk), [route_ops_refine] and [route_lookup_longest_prefix] (a finite
      map and longest-prefix match), [packet_pool_ownership] (an ownership map).
    - Optimised code against a reference: [net_checksum_sum_reference],
      [net_checksum_copy_fused], [crc32c_paths_agree], [div64_by_32_correct].
    - Input from outside: [dns_parse_reply_safe], [skip_name_terminates],
      [elf64_load_correct], [elf64_load_in_bounds], [ipv4_receive_filter],
      [icmp_effects_confined].
    - Round trips and whole exchanges: [dns_query_roundtrip],
      [ipv4_header_roundtrip], [ethernet_parse_roundtrip], [arp_exchange],
      [ping_answered].
    - Deviations from what the code means to do, each the statement of what it
      does instead: [event_stop_loses_signal], [adytum_commit_mixes_generations],
      [adytum_failed_write_leaks], [unchecked_read_strands_writer] (no caller
      in the source), [pledge_exec_unrestricted], [pledge_unlisted_calls_pass],
      [pmm_alloc_contiguous_wide_mask], [alloc_slot_pickable],
      [pmtu_evicted_mtu], [block_cache_write_past_end], and the examples
      [nul_label_truncates], [trailing_dot_unmatched], [startup_window_wraps].

    ** Bounds and fuel

    Table sizes are those of the source.  Fuel appears where a loop has no
    structural measure: the transfer loops of BlockCache.v, the walk over a
    compressed name of Dns.v, the revocation loop of Object.v, the transfer
    loops of Vm.v and those of AdytumFile.v.  In each case running out of fuel
    is a separate outcome or a failure, and a theorem shows that it does not
    occur: [block_cache_refines_disk] gives
    the answer of every transfer, [skip_name_terminates] bounds the walk by the
    jump cap times the message size, [handle_revocation_complete] ends after as
    many passes as there are slots, and [vm_reachable_inv] gives every call of
    [vm64_copy_to] and [vm64_copy_from] an answer with one round for each page
    ([transfer_fuel_enough]), and [adytum_file_roundtrip] has the loops over a
    file end within one round for each block and three more.  Only
    [adytumfs_make] takes its fuel as an argument, for the loop that grows the
    checksum region: as many rounds as the volume has blocks are enough
    ([region_loop_total]), except on a device of one or two blocks, where the
    loop of the source does run for about 2^54 rounds.

    [block_cache_refines_disk] is for buffers of at most 4 GiB, beyond which
    the 32-bit offset of the source wraps ([buffer_sector]); the theorems about
    mounts of AdytumFS are for volumes of at most 32 GiB, beyond which the
    8-bit index of the source confuses bitmap blocks.

    ** Not modelled

    - Code whose effect is a device or a CPU register: start-up, descriptor
      tables, interrupt controllers, PCI, ACPI, IOMMU, the NVMe and serial
      drivers, and all assembly.
    - Of [memory/vm.c] the loading of CR3, CR0 and the PAT and the [invlpg]
      instructions: the walk of VmWalk.v reads memory, so a stale entry of a
      TLB, this processor's or another's, is outside the model.  Its functions
      run to completion, one at a time.
    - The resources of [objects/resource.c], which are interfaces here.
    - The directories of AdytumFS, its operations by name and its adapter to
      the VFS; the VFS; TCP (but for its congestion control), UDP, sockets,
      IPv6, network interfaces and virtual NICs; descriptor tables, process
      creation, signal delivery, terminals and polling; drivers and their
      supervisor; the entropy pool and the cryptographic code.  They are
      ordinary code that could be modelled the same way; the next candidate
      is [resource.c], which would discharge the interfaces of Resource.v and
      VmInv.v.
    - Constants of the system call numbers and of error codes are definitions
      with the values of their headers. *)

From stdpp Require Export prelude.
From Stdlib Require Export ZArith Lia Bool.

Declare Scope mich_scope.
Delimit Scope mich_scope with mich.
Global Open Scope Z_scope.
Global Open Scope mich_scope.

(** * Machine integers

    A [w]-bit C integer is a [Z] kept in range by an explicit wrap-around:
    [u32 x] is the value of the C expression [(u32)x]. *)

Definition u8 (z : Z) : Z := z mod 0x100.

Definition u16 (z : Z) : Z := z mod 0x10000.

Definition u32 (z : Z) : Z := z mod 0x100000000.

Definition u64 (z : Z) : Z := z mod 0x10000000000000000.

(** [(i32)x] of an unsigned word: the two's complement reading. *)
Definition i32 (z : Z) : Z :=
  let w := u32 z in if w <? 0x80000000 then w else w - 0x100000000.

Definition is_u8 (z : Z) : Prop := 0 <= z < 0x100.

Definition is_u16 (z : Z) : Prop := 0 <= z < 0x10000.

Definition is_u32 (z : Z) : Prop := 0 <= z < 0x100000000.

Definition is_u64 (z : Z) : Prop := 0 <= z < 0x10000000000000000.

(** C truth of an integer expression. *)
Definition nz (z : Z) : bool := negb (z =? 0).

(** [x & (1u << i)] used as a condition. *)
Definition bit_of (x i : Z) : bool := nz (Z.land x (Z.shiftl 1 i)).

(** * Bounded loops *)

Section Loops.
Context {S : Type}.

(** [for (i = 0; i < n; i++) body] *)
Definition for_n (n : nat) (body : nat -> S -> S) (s : S) : S :=
  foldl (fun s i => body i s) s (seq 0 n).

(** [for (i = from; i < to; i++) body] over machine-sized counters: the loop
    runs [to - from] times, as often as the C loop does. *)
Fixpoint for_from (n : nat) (from : Z) (body : Z -> S -> S) (s : S) : S :=
  match n with
  | O => s
  | Datatypes.S n' => for_from n' (from + 1) body (body from s)
  end.

Definition for_range (from to : Z) (body : Z -> S -> S) (s : S) : S :=
  for_from (Z.to_nat (to - from)) from body s.
End Loops.

(** First index in [from .. to) on which [f] holds: a scan loop with an early
    return. *)
Fixpoint scan_from (n : nat) (from : Z) (f : Z -> bool) : option Z :=
  match n with
  | O => None
  | S n' => if f from then Some from else scan_from n' (from + 1) f
  end.

Definition scan_range (from to : Z) (f : Z -> bool) : option Z :=
  scan_from (Z.to_nat (to - from)) from f.

(** How many indices of [from .. from + n) satisfy [f]. *)
Fixpoint count_from (n : nat) (from : Z) (f : Z -> bool) : Z :=
  match n with
  | O => 0
  | S n' => Z.b2z (f from) + count_from n' (from + 1) f
  end.

(** A pointer that is not null. *)
Definition is_some {A} (o : option A) : bool := match o with Some _ => true | None => false end.

(** [a[i] = v] for an array seen as a function of its index. *)
Definition upd {A} (a : Z -> A) (i : Z) (v : A) : Z -> A := fun j => if j =? i then v else a j.

(** * Tables

    A statically sized C array of structs is a list of its entries; a pointer
    to an entry is the entry's index and a null pointer is [None]. *)

Fixpoint find_index {A} (f : A -> bool) (l : list A) : option nat :=
  match l with
  | [] => None
  | x :: l' => if f x then Some O else S <$> find_index f l'
  end.

Fixpoint count_if {A} (f : A -> bool) (l : list A) : nat :=
  match l with
  | [] => O
  | x :: l' => ((if f x then 1 else 0) + count_if f l')%nat
  end.

(** Byte [i] of a buffer that is long enough. *)
Definition byte_at (l : list Z) (i : nat) : Z := nth i l 0.

Definition is_bytes (l : list Z) : Prop := Forall is_u8 l.

#[global] Arguments count_from : simpl never.
#[global] Arguments for_n : simpl never.
#[global] Arguments for_from : simpl never.
#[global] Arguments for_range : simpl never.
#[global] Arguments scan_range : simpl never.
#[global] Arguments u8 : simpl never.
#[global] Arguments u16 : simpl never.
#[global] Arguments u32 : simpl never.
#[global] Arguments u64 : simpl never.
#[global] Arguments Z.land : simpl never.
#[global] Arguments Z.lor : simpl never.
#[global] Arguments Z.lxor : simpl never.
#[global] Arguments Z.shiftl : simpl never.
#[global] Arguments Z.shiftr : simpl never.

(** * Tactics *)

(** Linear arithmetic with [/] and [mod] by constants. *)
Ltac dmlia := Z.to_euclidean_division_equations; lia.

Ltac unfold_words :=
  unfold is_u8, is_u16, is_u32, is_u64, u8, u16, u32, u64 in *.

(** Range side conditions on words. *)
Ltac words := unfold_words; dmlia.

(** Case analysis on the tests of a C condition. *)
Ltac case_if :=
  match goal with
  | |- context [if ?b then _ else _] => let H := fresh "Hif" in destruct b eqn:H
  | H0 : context [if ?b then _ else _] |- _ =>
      let H := fresh "Hif" in destruct b eqn:H
  end.

Ltac boolify :=
  unfold nz in * |-;
  repeat match goal with
  | H : negb _ = true |- _ => apply negb_true_iff in H
  | H : negb _ = false |- _ => apply negb_false_iff in H
  | H : _ && _ = true |- _ => apply andb_true_iff in H; destruct H
  | H : _ || _ = false |- _ => apply orb_false_iff in H; destruct H
  | H : (_ =? _) = true |- _ => apply Z.eqb_eq in H
  | H : (_ =? _) = false |- _ => apply Z.eqb_neq in H
  | H : (_ <? _) = true |- _ => apply Z.ltb_lt in H
  | H : (_ <? _) = false |- _ => apply Z.ltb_ge in H
  | H : (_ <=? _) = true |- _ => apply Z.leb_le in H
  | H : (_ <=? _) = false |- _ => apply Z.leb_gt in H
  end.

Create HintDb mich discriminated.

(** * Lemmas on words and bits *)

Lemma u8_range z : is_u8 (u8 z).
Proof. words. Qed.

Lemma u16_range z : is_u16 (u16 z).
Proof. words. Qed.

Lemma u32_range z : is_u32 (u32 z).
Proof. words. Qed.

Lemma u64_range z : is_u64 (u64 z).
Proof. words. Qed.

Lemma u8_small z : is_u8 z -> u8 z = z.
Proof. intros; words. Qed.

Lemma u16_small z : is_u16 z -> u16 z = z.
Proof. intros; words. Qed.

Lemma u32_small z : is_u32 z -> u32 z = z.
Proof. intros; words. Qed.

Lemma u64_small z : is_u64 z -> u64 z = z.
Proof. intros; words. Qed.

Lemma u32_add_l a b : u32 (u32 a + b) = u32 (a + b).
Proof. apply Zplus_mod_idemp_l. Qed.

Lemma u32_add_r a b : u32 (a + u32 b) = u32 (a + b).
Proof. apply Zplus_mod_idemp_r. Qed.

Lemma u32_sub_l a b : u32 (u32 a - b) = u32 (a - b).
Proof. apply Zminus_mod_idemp_l. Qed.

Lemma u32_sub_r a b : u32 (a - u32 b) = u32 (a - b).
Proof. apply Zminus_mod_idemp_r. Qed.

Lemma u32_mul_l a b : u32 (u32 a * b) = u32 (a * b).
Proof. apply Zmult_mod_idemp_l. Qed.

Lemma u32_idemp a : u32 (u32 a) = u32 a.
Proof. apply Zmod_mod. Qed.

Lemma u32_u64 a : u32 (u64 a) = u32 a.
Proof. unfold u32, u64. apply Z.mod_mod_divide. by exists 0x100000000. Qed.

Create Rewrite HintDb word_simpl.
#[export] Hint Rewrite u32_add_l u32_add_r u32_sub_l u32_sub_r u32_mul_l u32_idemp u32_u64
  : word_simpl.

#[export] Hint Resolve u8_range u16_range u32_range u64_range : mich.

Lemma nz_true z : nz z = true <-> z <> 0.
Proof. unfold nz. rewrite negb_true_iff, Z.eqb_neq. done. Qed.

Lemma nz_false z : nz z = false <-> z = 0.
Proof. unfold nz. rewrite negb_false_iff, Z.eqb_eq. done. Qed.

(** A single-bit mask test reads that bit. *)
Lemma bit_of_testbit x i : 0 <= i -> bit_of x i = Z.testbit x i.
Proof.
  intros Hi. unfold bit_of.
  rewrite Z.shiftl_1_l.
  destruct (Z.testbit x i) eqn:Hb.
  - apply nz_true. intros H0.
    assert (Z.testbit (Z.land x (2 ^ i)) i = true) as H1.
    { rewrite Z.land_spec, Hb, Z.pow2_bits_true by done. done. }
    by rewrite H0, Z.testbit_0_l in H1.
  - apply nz_false. apply Z.bits_inj'. intros n Hn.
    rewrite Z.land_spec, Z.testbit_0_l, Z.pow2_bits_eqb by done.
    destruct (Z.eqb_spec i n) as [->|]; [by rewrite Hb|by rewrite andb_false_r].
Qed.

Lemma shiftl1_bit i n : 0 <= i -> Z.testbit (Z.shiftl 1 i) n = (i =? n).
Proof. intros. rewrite Z.shiftl_1_l, Z.pow2_bits_eqb by done. done. Qed.

Lemma u8_testbit z n : 0 <= n < 8 -> Z.testbit (u8 z) n = Z.testbit z n.
Proof. intros. unfold u8. change 0x100 with (2 ^ 8). rewrite Z.mod_pow2_bits_low by lia. done. Qed.

Lemma mod_land_ones z k : 0 <= k -> z mod 2 ^ k = Z.land z (Z.ones k).
Proof. intros. by rewrite Z.land_ones. Qed.

(** Bitwise operations stay inside the width. *)
Lemma bits_below z k :
  0 <= k -> 0 <= z -> (forall n, k <= n -> Z.testbit z n = false) -> z < 2 ^ k.
Proof.
  intros Hk Hz Hn.
  assert (z = z mod 2 ^ k) as ->; [|apply Z.mod_pos_bound; lia].
  apply Z.bits_inj'. intros n ?.
  destruct (decide (n < k)).
  - by rewrite Z.mod_pow2_bits_low.
  - rewrite Z.mod_pow2_bits_high by lia. apply Hn. lia.
Qed.

Lemma bits_above z k n : 0 <= z < 2 ^ k -> k <= n -> Z.testbit z n = false.
Proof.
  intros Hz Hn. destruct (decide (0 <= k)).
  - rewrite <- (Z.mod_small z (2 ^ k)) by lia. apply Z.mod_pow2_bits_high. lia.
  - rewrite Z.pow_neg_r in Hz by lia. lia.
Qed.

Lemma lxor_width k x y :
  0 <= k -> 0 <= x < 2 ^ k -> 0 <= y < 2 ^ k -> 0 <= Z.lxor x y < 2 ^ k.
Proof.
  intros Hk Hx Hy. assert (0 <= Z.lxor x y) by (apply Z.lxor_nonneg; lia).
  split; [done|]. apply bits_below; [done..|]. intros n Hn.
  rewrite Z.lxor_spec, (bits_above x k), (bits_above y k) by lia. done.
Qed.

Lemma lor_width k x y :
  0 <= k -> 0 <= x < 2 ^ k -> 0 <= y < 2 ^ k -> 0 <= Z.lor x y < 2 ^ k.
Proof.
  intros Hk Hx Hy. assert (0 <= Z.lor x y) by (apply Z.lor_nonneg; lia).
  split; [done|]. apply bits_below; [done..|]. intros n Hn.
  rewrite Z.lor_spec, (bits_above x k), (bits_above y k) by lia. done.
Qed.

Lemma land_width k x y :
  0 <= k -> 0 <= x < 2 ^ k -> 0 <= Z.land x y < 2 ^ k.
Proof.
  intros Hk Hx. assert (0 <= Z.land x y) by (apply Z.land_nonneg; lia).
  split; [done|]. apply bits_below; [done..|]. intros n Hn.
  rewrite Z.land_spec, (bits_above x k) by lia. done.
Qed.

(** [(a << 8) | b] of two bytes. *)
Lemma lor_shiftl_add a b k :
  0 <= k -> 0 <= a -> 0 <= b < 2 ^ k -> Z.lor (Z.shiftl a k) b = a * 2 ^ k + b.
Proof.
  intros Hk Ha Hb. rewrite Z.shiftl_mul_pow2 by done.
  symmetry. rewrite Z.add_nocarry_lxor.
  - apply Z.bits_inj'. intros n Hn. rewrite Z.lxor_spec, Z.lor_spec.
    destruct (decide (n < k)).
    + rewrite Z.mul_pow2_bits_low by lia. by destruct (Z.testbit b n).
    + rewrite (bits_above b k) by lia. by rewrite xorb_false_r, orb_false_r.
  - apply Z.bits_inj'. intros n Hn. rewrite Z.land_spec, Z.testbit_0_l.
    destruct (decide (n < k)).
    + by rewrite Z.mul_pow2_bits_low by lia.
    + rewrite (bits_above b k) by lia. by rewrite andb_false_r.
Qed.

(** Masking off the low [k] bits of an [n]-bit word. *)
Lemma land_high_mask a k n :
  0 <= k <= n -> 0 <= a < 2 ^ n -> Z.land a (2 ^ n - 2 ^ k) = a / 2 ^ k * 2 ^ k.
Proof.
  intros Hk Ha. apply Z.bits_inj'. intros i Hi.
  replace (2 ^ n - 2 ^ k) with (Z.ones (n - k) * 2 ^ k).
  2:{ rewrite Z.ones_equiv. replace n with (n - k + k) at 2 by lia.
      rewrite Z.pow_add_r by lia. lia. }
  rewrite Z.land_spec. destruct (decide (i < k)).
  - rewrite !Z.mul_pow2_bits_low by lia. apply andb_false_r.
  - rewrite !Z.mul_pow2_bits, Z.div_pow2_bits by lia.
    replace (i - k + k) with i by lia. destruct (decide (i < n)).
    + rewrite Z.ones_spec_low by lia. apply andb_true_r.
    + by rewrite (bits_above a n i) by lia.
Qed.

(** Tick comparison [(i32)(now - deadline) < 0]: on ticks less than half the
    counter apart it is the order of the unwrapped times. *)
Lemma i32_diff a b :
  - 0x80000000 <= a - b < 0x80000000 -> i32 (u32 a - u32 b) = a - b.
Proof.
  intros H. unfold i32, u32.
  rewrite <- Zminus_mod.
  destruct (Z.ltb_spec ((a - b) mod 0x100000000) 0x80000000); dmlia.
Qed.

(** * Lemmas on loops *)

Section LoopLemmas.
Context {S : Type}.

Lemma for_n_S n (body : nat -> S -> S) s :
  for_n (Datatypes.S n) body s = body n (for_n n body s).
Proof. unfold for_n. rewrite seq_S, foldl_app. done. Qed.

(** Invariant rule for counted loops. *)
Lemma for_n_ind (P : nat -> S -> Prop) n (body : nat -> S -> S) s :
  P O s ->
  (forall i s, (i < n)%nat -> P i s -> P (Datatypes.S i) (body i s)) ->
  P n (for_n n body s).
Proof.
  intros H0 HS. induction n as [|n IH]; [done|].
  rewrite for_n_S. apply HS; [lia|]. apply IH. intros i s' ? ?. apply HS; [lia|done].
Qed.

Lemma for_from_S_r n from (body : Z -> S -> S) s :
  for_from (Datatypes.S n) from body s = body (from + Z.of_nat n) (for_from n from body s).
Proof.
  revert from s. induction n as [|n IH]; intros from s; [simpl; by rewrite Z.add_0_r|].
  change (for_from (Datatypes.S (Datatypes.S n)) from body s)
    with (for_from (Datatypes.S n) (from + 1) body (body from s)).
  rewrite IH. change (for_from (Datatypes.S n) from body s) with (for_from n (from + 1) body (body from s)).
  f_equal. lia.
Qed.

Lemma for_from_ind (P : Z -> S -> Prop) n from (body : Z -> S -> S) s :
  P from s ->
  (forall i s, from <= i < from + Z.of_nat n -> P i s -> P (i + 1) (body i s)) ->
  P (from + Z.of_nat n) (for_from n from body s).
Proof.
  revert from s. induction n as [|n IH]; intros from s H0 HS; cbn [for_from].
  - by rewrite Z.add_0_r.
  - replace (from + Z.of_nat (Datatypes.S n)) with (from + 1 + Z.of_nat n) by lia.
    apply IH; [apply HS; [lia|done]|]. intros i s' ? ?. apply HS; [lia|done].
Qed.

Lemma for_range_ind (P : Z -> S -> Prop) from to (body : Z -> S -> S) s :
  P from s ->
  (forall i s, from <= i < to -> P i s -> P (i + 1) (body i s)) ->
  P (Z.max from to) (for_range from to body s).
Proof.
  intros H0 HS. unfold for_range.
  replace (Z.max from to) with (from + Z.of_nat (Z.to_nat (to - from))) by lia.
  apply for_from_ind; [done|]. intros i s' ? ?. apply HS; [lia|done].
Qed.

Lemma for_from_S n from (body : Z -> S -> S) s :
  for_from (Datatypes.S n) from body s = for_from n (from + 1) body (body from s).
Proof. done. Qed.

Lemma for_from_app n k from (body : Z -> S -> S) s :
  for_from (n + k) from body s = for_from k (from + Z.of_nat n) body (for_from n from body s).
Proof.
  revert from s. induction n as [|n IH]; intros from s.
  - cbn. by rewrite Z.add_0_r.
  - change (Datatypes.S n + k)%nat with (Datatypes.S (n + k)). rewrite !for_from_S, IH. f_equal. lia.
Qed.

Lemma for_range_split mid from to (body : Z -> S -> S) s :
  from <= mid <= to -> for_range from to body s = for_range mid to body (for_range from mid body s).
Proof.
  intros Hm. unfold for_range.
  replace (Z.to_nat (to - from)) with (Z.to_nat (mid - from) + Z.to_nat (to - mid))%nat by lia.
  rewrite for_from_app. f_equal. lia.
Qed.

Lemma for_range_empty from to (body : Z -> S -> S) s : to <= from -> for_range from to body s = s.
Proof. intros H. unfold for_range. by replace (Z.to_nat (to - from)) with O by lia. Qed.

Lemma for_range_last from to (body : Z -> S -> S) s :
  from <= to -> for_range from (to + 1) body s = body to (for_range from to body s).
Proof.
  intros H. unfold for_range. replace (Z.to_nat (to + 1 - from)) with (Datatypes.S (Z.to_nat (to - from))) by lia.
  rewrite for_from_S_r. f_equal. lia.
Qed.

(** Loops with the same body on their range, up to a shift of the index. *)
Lemma for_range_shift d n (f g : Z -> S -> S) s :
  (forall k s, 0 <= k < n -> f k s = g (d + k) s) -> for_range 0 n f s = for_range d (d + n) g s.
Proof.
  intros H. unfold for_range. replace (d + n - d) with (n - 0) by lia.
  assert (forall c from s, from + Z.of_nat c <= n -> 0 <= from -> for_from c from f s = for_from c (d + from) g s) as Hc.
  { intros c. induction c as [|c IH]; intros from s' Hn H0; [done|].
    rewrite !for_from_S, H, IH by lia. f_equal. lia. }
  destruct (Z.le_gt_cases n 0); [by replace (Z.to_nat (n - 0)) with O by lia|]. rewrite Hc by lia. f_equal. lia.
Qed.

Lemma for_range_ext from to (f g : Z -> S -> S) s :
  (forall k s, from <= k < to -> f k s = g k s) -> for_range from to f s = for_range from to g s.
Proof.
  intros H. unfold for_range. assert (forall c k s, from <= k -> k + Z.of_nat c <= to -> for_from c k f s = for_from c k g s) as Hc.
  { intros c. induction c as [|c IH]; intros k s' Hk Hn; [done|]. by rewrite !for_from_S, H, IH by lia. }
  destruct (Z.le_gt_cases to from); [by replace (Z.to_nat (to - from)) with O by lia|]. apply Hc; lia.
Qed.
End LoopLemmas.

Lemma scan_from_Some n from f i :
  scan_from n from f = Some i <->
  from <= i < from + Z.of_nat n /\ f i = true /\
  forall j, from <= j < i -> f j = false.
Proof.
  revert from. induction n as [|n IH]; intros from; simpl.
  { split; [done|]. intros [? _]. lia. }
  destruct (f from) eqn:Hf.
  - split.
    + intros [= <-]. split; [lia|]. split; [done|]. intros. lia.
    + intros (? & Hi & Hj). f_equal.
      destruct (decide (from = i)); [done|].
      rewrite Hj in Hf by lia. done.
  - rewrite IH. split.
    + intros (? & ? & Hj). split; [lia|]. split; [done|]. intros j ?.
      destruct (decide (j = from)) as [->|]; [done|]. apply Hj. lia.
    + intros (? & Hi & Hj).
      assert (i <> from) by congruence.
      split; [lia|]. split; [done|]. intros. apply Hj. lia.
Qed.

Lemma scan_from_None n from f :
  scan_from n from f = None <->
  forall j, from <= j < from + Z.of_nat n -> f j = false.
Proof.
  revert from. induction n as [|n IH]; intros from; simpl.
  { split; [intros; lia|done]. }
  destruct (f from) eqn:Hf.
  - split; [done|]. intros H. rewrite H in Hf by lia. done.
  - rewrite IH. split; intros H j ?.
    + destruct (decide (j = from)) as [->|]; [done|]. apply H. lia.
    + apply H. lia.
Qed.

Lemma scan_range_Some from to f i :
  scan_range from to f = Some i <->
  from <= i < to /\ f i = true /\ forall j, from <= j < i -> f j = false.
Proof.
  unfold scan_range. rewrite scan_from_Some.
  split; intros (? & ? & ?); repeat split; try done; lia.
Qed.

Lemma scan_range_None from to f :
  scan_range from to f = None <-> forall j, from <= j < to -> f j = false.
Proof.
  unfold scan_range. rewrite scan_from_None.
  split; intros H j ?; apply H; lia.
Qed.

Lemma count_from_S n from f :
  count_from (S n) from f = Z.b2z (f from) + count_from n (from + 1) f.
Proof. done. Qed.

Lemma count_from_last n from f :
  count_from (S n) from f = count_from n from f + Z.b2z (f (from + Z.of_nat n)).
Proof.
  revert from. induction n as [|n IH]; intros from.
  { change (count_from 1 from f) with (Z.b2z (f from) + 0). change (count_from 0 from f) with 0. by rewrite !Z.add_0_r. }
  rewrite count_from_S, IH, (count_from_S n). replace (from + 1 + Z.of_nat n) with (from + Z.of_nat (S n)) by lia. lia.
Qed.

Lemma count_from_ext n from f g :
  (forall i, from <= i < from + Z.of_nat n -> f i = g i) -> count_from n from f = count_from n from g.
Proof.
  revert from. induction n as [|n IH]; intros from H; [done|]. rewrite !count_from_S.
  rewrite H by lia. f_equal. apply IH. intros i ?. apply H. lia.
Qed.

Lemma count_from_range n from f : 0 <= count_from n from f <= Z.of_nat n.
Proof.
  revert from. induction n as [|n IH]; intros from; [done|]. rewrite count_from_S.
  specialize (IH (from + 1)). destruct (f from); simpl Z.b2z; lia.
Qed.

Lemma count_from_none n from f :
  (forall i, from <= i < from + Z.of_nat n -> f i = false) -> count_from n from f = 0.
Proof.
  revert from. induction n as [|n IH]; intros from H; [done|].
  rewrite count_from_S, H, IH by (intros; try apply H; lia). done.
Qed.

(** Two counts over predicates that differ at one index. *)
Lemma count_from_upd n from f g p :
  from <= p < from + Z.of_nat n -> (forall q, q <> p -> g q = f q) ->
  count_from n from g = count_from n from f - Z.b2z (f p) + Z.b2z (g p).
Proof.
  revert from. induction n as [|n IH]; intros from Hp Hq; [lia|]. rewrite !count_from_S.
  destruct (decide (from = p)) as [->|Hne].
  - rewrite (count_from_ext n (p + 1) g f); [lia|]. intros i ?. apply Hq. lia.
  - rewrite IH by (done || lia). rewrite (Hq from) by done. lia.
Qed.

Lemma count_from_pos n from f p :
  from <= p < from + Z.of_nat n -> f p = true -> 0 < count_from n from f.
Proof.
  revert from. induction n as [|n IH]; intros from Hp Hf; [lia|]. rewrite count_from_S.
  pose proof (count_from_range n (from + 1) f).
  destruct (decide (from = p)) as [->|Hne]; [rewrite Hf; simpl; lia|].
  specialize (IH (from + 1) ltac:(lia) Hf). destruct (f from); simpl; lia.
Qed.

(** A window on which the predicate holds is no longer than the count. *)
Lemma count_from_window n from f a k :
  (forall q, a <= q < a + k -> f q = true) -> from <= a -> a + k <= from + Z.of_nat n ->
  k <= count_from n from f.
Proof.
  revert from a k. induction n as [|n IH]; intros from a k Hf Ha Hk; [unfold count_from; lia|].
  rewrite count_from_S. destruct (decide (from = a)) as [->|Hne].
  - pose proof (count_from_range n (a + 1) f). destruct (decide (0 < k)).
    + rewrite (Hf a) by lia. specialize (IH (a + 1) (a + 1) (k - 1)). simpl Z.b2z.
      rewrite <- (Z.sub_add 1 k) at 1.
      assert (k - 1 <= count_from n (a + 1) f); [|lia]. apply IH; [|lia..].
      intros q ?. apply Hf. lia.
    + destruct (f a); simpl; lia.
  - assert (k <= count_from n (from + 1) f) by (apply (IH _ a); [done|lia..]).
    destruct (f from); simpl; lia.
Qed.

Lemma upd_eq {A} (a : Z -> A) i v : upd a i v i = v.
Proof. unfold upd. by rewrite Z.eqb_refl. Qed.

Lemma upd_ne {A} (a : Z -> A) i j v : j <> i -> upd a i v j = a j.
Proof. intros H. unfold upd. by rewrite (proj2 (Z.eqb_neq j i) H). Qed.

(** * Lemmas on tables *)

Section Tables.
Context {A : Type}.
Implicit Types (f g : A -> bool) (l : list A).

Lemma find_index_Some f l i :
  find_index f l = Some i <->
  exists x, l !! i = Some x /\ f x = true /\
    forall j y, (j < i)%nat -> l !! j = Some y -> f y = false.
Proof.
  revert i. induction l as [|a l IH]; intros i; simpl.
  { split; [done|]. intros (x & H & _). by rewrite lookup_nil in H. }
  destruct (f a) eqn:Ha.
  - split.
    + intros [= <-]. exists a. split; [done|]. split; [done|]. intros. lia.
    + intros (x & Hx & Hfx & Hj). destruct i as [|i]; [done|].
      rewrite (Hj O a) in Ha by (lia || done). done.
  - rewrite fmap_Some. split.
    + intros (k & Hk & ->). apply IH in Hk as (x & Hx & Hfx & Hj).
      exists x. split; [done|]. split; [done|].
      intros [|j] y ? Hy; simpl in Hy; [by simplify_eq|]. eapply Hj; [|done]. lia.
    + intros (x & Hx & Hfx & Hj). destruct i as [|i]; simpl in Hx.
      { congruence. }
      exists i. split; [|done]. apply IH. exists x. split; [done|]. split; [done|].
      intros j y ? Hy. apply (Hj (S j) y); [lia|done].
Qed.

Lemma find_index_None f l :
  find_index f l = None <-> forall j y, l !! j = Some y -> f y = false.
Proof.
  induction l as [|a l IH]; simpl.
  { split; [|done]. intros _ j y H. by rewrite lookup_nil in H. }
  destruct (f a) eqn:Ha.
  - split; [done|]. intros H. by rewrite (H O a) in Ha.
  - rewrite fmap_None, IH. split.
    + intros H [|j] y Hy; simpl in Hy; [by simplify_eq|by eapply H].
    + intros H j y Hy. by apply (H (S j) y).
Qed.

Lemma find_index_lt f l i : find_index f l = Some i -> (i < length l)%nat.
Proof. intros (x & H & _)%find_index_Some. by eapply lookup_lt_Some. Qed.

Lemma count_if_app f l1 l2 :
  count_if f (l1 ++ l2) = (count_if f l1 + count_if f l2)%nat.
Proof. induction l1; simpl; lia. Qed.

Lemma count_if_length f l : (count_if f l <= length l)%nat.
Proof. induction l; simpl; [lia|]. case_if; lia. Qed.

(** Replacing one entry moves the count by the change at that entry. *)
Lemma count_if_insert f l i x y :
  l !! i = Some x ->
  Z.of_nat (count_if f (<[i := y]> l)) =
  Z.of_nat (count_if f l) - (if f x then 1 else 0) + (if f y then 1 else 0).
Proof.
  revert i. induction l as [|a l IH]; intros i H.
  { by rewrite lookup_nil in H. }
  destruct i as [|i]; simpl in *.
  - simplify_eq. repeat case_if; lia.
  - specialize (IH _ H). repeat case_if; lia.
Qed.

Lemma count_if_pos f l i x :
  l !! i = Some x -> f x = true -> (0 < count_if f l)%nat.
Proof.
  revert i. induction l as [|a l IH]; intros i H Hf; [by rewrite lookup_nil in H|].
  destruct i as [|i]; simpl in *; [simplify_eq; rewrite Hf; lia|].
  specialize (IH _ H Hf). lia.
Qed.

Lemma count_if_0 f l :
  count_if f l = O <-> forall i x, l !! i = Some x -> f x = false.
Proof.
  split.
  - intros H i x Hx. destruct (f x) eqn:Hf; [|done].
    pose proof (count_if_pos _ _ _ _ Hx Hf). lia.
  - intros H. induction l as [|a l IH]; simpl; [done|].
    rewrite (H O a) by done. rewrite IH; [done|]. intros i x Hx. by apply (H (S i)).
Qed.

Lemma count_if_ext f g l :
  (forall i x, l !! i = Some x -> f x = g x) -> count_if f l = count_if g l.
Proof.
  induction l as [|a l IH]; intros H; simpl; [done|].
  rewrite (H O a) by done. rewrite IH; [done|]. intros i x Hx. by apply (H (S i)).
Qed.

Lemma count_if_full f l :
  count_if f l = length l <-> forall i x, l !! i = Some x -> f x = true.
Proof.
  induction l as [|a l IH]; simpl.
  { split; [|done]. intros _ i x H. by rewrite lookup_nil in H. }
  pose proof (count_if_length f l). split.
  - intros Hc. destruct (f a) eqn:Ha; [|lia].
    intros [|i] x Hx; simpl in Hx; [by simplify_eq|]. eapply IH; [lia|done].
  - intros H'. rewrite (H' O a) by done. f_equal. apply IH.
    intros i x Hx. by apply (H' (S i)).
Qed.
End Tables.

Lemma byte_at_lookup l i x : l !! i = Some x -> byte_at l i = x.
Proof. intros H. unfold byte_at. by apply nth_lookup_Some. Qed.

Lemma byte_at_range l i : is_bytes l -> is_u8 (byte_at l i).
Proof.
  intros H. unfold byte_at.
  destruct (nth_in_or_default i l 0) as [Hin| ->].
  - apply list_elem_of_In in Hin. by eapply Forall_forall in H.
  - unfold is_u8. lia.
Qed.

Lemma elem_of_snoc {A} (x a : A) l : x ∈ l ++ [a] <-> x ∈ l \/ x = a.
Proof. by rewrite elem_of_app, list_elem_of_singleton. Qed.

(** An index loop over a buffer is a fold over its bytes. *)
Lemma for_n_bytes {S} (f : S -> Z -> S) data len s :
  (len <= length data)%nat ->
  for_n len (fun i s => f s (byte_at data i)) s = foldl f s (take len data).
Proof.
  intros H. induction len as [|len IH]; [done|].
  destruct (lookup_lt_is_Some_2 data len ltac:(lia)) as [x Hx].
  rewrite for_n_S, IH by lia. rewrite (take_S_r _ _ x), foldl_app by done. simpl.
  by rewrite (byte_at_lookup _ _ _ Hx).
Qed.
