(* ===== verification/Route.v ===== *)
(** IPv4 routing table: [src/net/route.c].

    The table is a fixed array of [ROUTE_MAX] entries with a cached [count].
    The file models every operation of route.c, proves that any sequence of
    them keeps the table well formed, that the table refines a finite map from
    (network, netmask, interface) to (gateway, generation, metric), and that
    [route_lookup] is longest-prefix match with the metric as tie break. *)

From stdpp Require Import gmap.
From S2P Require Import Prelude.

Module Route.

Definition ROUTE_MAX : nat := 32.

#[global] Arguments ROUTE_MAX : simpl never.

Record route_entry := RouteEntry {
  network : Z;
  netmask : Z;
  gateway : Z;
  interface_id : Z;
  interface_generation : Z;
  metric : Z;
  prefix_length : Z;
  active : bool
}.

Record route_table := RouteTable {
  entries : list route_entry;
  count : Z
}.

(** The [while (netmask & 0x80000000u)] loop; 33 rounds are enough because
    every round shifts one bit out. *)
Fixpoint count_leading (fuel : nat) (netmask count : Z) : option Z :=
  match fuel with
  | O => None
  | S fuel =>
      if nz (Z.land netmask 0x80000000)
      then count_leading fuel (u32 (Z.shiftl netmask 1)) (u32 (count + 1))
      else Some count
  end.

(** [None] is the -1 return. *)
Definition netmask_prefix (netmask : Z) : option Z :=
  let inverse := u32 (Z.lnot netmask) in
  if nz (Z.land inverse (u32 (inverse + 1))) then None
  else count_leading 33 netmask 0.

#[global] Arguments count_leading : simpl never.
#[global] Arguments netmask_prefix : simpl never.

Definition empty_entry : route_entry := RouteEntry 0 0 0 0 0 0 0 false.

Definition route_init (table : option route_table) : option route_table :=
  match table with
  | None => None
  | Some _ => Some (RouteTable (replicate ROUTE_MAX empty_entry) 0)
  end.

Definition same_route (n m i : Z) (e : route_entry) : bool :=
  active e && (network e =? n) && (netmask e =? m) && (interface_id e =? i).

Definition route_add_generation (table : option route_table)
    (network netmask gateway interface_id interface_generation metric : Z)
    : Z * option route_table :=
  match table with
  | None => (-1, None)
  | Some t =>
      if negb (nz interface_id) then (-1, Some t) else
      match netmask_prefix netmask with
      | None => (-1, Some t)
      | Some prefix =>
          if negb (network =? Z.land network netmask) then (-1, Some t) else
          match find_index (same_route network netmask interface_id) (entries t) with
          | Some _ => (-1, Some t)
          | None =>
              match find_index (fun e => negb (active e)) (entries t) with
              | None => (-1, Some t)
              | Some index =>
                  (0, Some (RouteTable
                    (<[index := RouteEntry network netmask gateway interface_id
                         interface_generation metric prefix true]> (entries t))
                    (u32 (count t + 1))))
              end
          end
      end
  end.

Definition route_add (table : option route_table)
    (network netmask gateway interface_id metric : Z) : Z * option route_table :=
  route_add_generation table network netmask gateway interface_id 0 metric.

Definition route_remove (table : option route_table)
    (network netmask interface_id : Z) : Z * option route_table :=
  match table with
  | None => (-1, None)
  | Some t =>
      if negb (nz interface_id) then (-1, Some t) else
      match find_index (same_route network netmask interface_id) (entries t) with
      | None => (-1, Some t)
      | Some index =>
          (0, Some (RouteTable (<[index := empty_entry]> (entries t))
                 (if nz (count t) then count t - 1 else count t)))
      end
  end.

Definition lookup_step (destination : Z) (best : option route_entry)
    (entry : route_entry) : option route_entry :=
  if negb (active entry) ||
     negb (Z.land destination (netmask entry) =? network entry) then best
  else match best with
       | None => Some entry
       | Some b =>
           if (prefix_length b <? prefix_length entry) ||
              ((prefix_length entry =? prefix_length b) && (metric entry <? metric b))
           then Some entry else best
       end.

Definition route_lookup (table : option route_table) (destination : Z)
    : option route_entry :=
  match table with
  | None => None
  | Some t => foldl (lookup_step destination) None (entries t)
  end.

Definition deactivate_hit (interface_id interface_generation : Z)
    (entry : route_entry) : bool :=
  active entry && (Route.interface_id entry =? interface_id) &&
  (negb (nz interface_generation) ||
   (Route.interface_generation entry =? interface_generation)).

Definition set_inactive (e : route_entry) : route_entry :=
  RouteEntry (network e) (netmask e) (gateway e) (interface_id e)
    (interface_generation e) (metric e) (prefix_length e) false.

(** One iteration of the sweep: the entry, [table->count] and [removed]. *)
Definition deactivate_step (interface_id interface_generation : Z) (index : nat)
    (s : list route_entry * Z * Z) : list route_entry * Z * Z :=
  let '(es, count, removed) := s in
  match es !! index with
  | None => s
  | Some entry =>
      if deactivate_hit interface_id interface_generation entry
      then (<[index := set_inactive entry]> es,
            (if nz count then count - 1 else count), u32 (removed + 1))
      else s
  end.

Definition route_deactivate_interface (table : option route_table)
    (interface_id interface_generation : Z) : Z * option route_table :=
  match table with
  | None => (0, None)
  | Some t =>
      if negb (nz interface_id) then (0, Some t) else
      let '(es, c, removed) :=
        for_n ROUTE_MAX (deactivate_step interface_id interface_generation)
          (entries t, count t, 0) in
      (removed, Some (RouteTable es c))
  end.

Definition route_count (table : option route_table) : Z :=
  match table with None => 0 | Some t => count t end.

Definition route_available (table : option route_table) : Z :=
  match table with
  | None => 0
  | Some t => Z.of_nat (count_if (fun e => negb (active e)) (entries t))
  end.

(** ** Specification side *)

(** The netmask of a prefix length. *)
Definition mask_of (p : Z) : Z := 0x100000000 - 2 ^ (32 - p).

Definition entry_wf (e : route_entry) : Prop :=
  0 <= prefix_length e <= 32 /\ netmask e = mask_of (prefix_length e) /\
  is_u32 (network e) /\ network e = Z.land (network e) (netmask e) /\
  interface_id e <> 0.

Definition key (e : route_entry) : Z * Z * Z :=
  (network e, netmask e, interface_id e).

Definition value (e : route_entry) : Z * Z * Z :=
  (gateway e, interface_generation e, metric e).

Definition keys_distinct (es : list route_entry) : Prop :=
  forall i j e e', es !! i = Some e -> es !! j = Some e' ->
    active e = true -> active e' = true -> key e = key e' -> i = j.

Record wf (t : route_table) : Prop := {
  wf_length : length (entries t) = ROUTE_MAX;
  wf_count : count t = Z.of_nat (count_if active (entries t));
  wf_entries : forall i e, entries t !! i = Some e -> active e = true -> entry_wf e;
  wf_keys : keys_distinct (entries t)
}.

(** The abstract routing table. *)
Definition live (e : route_entry) : option ((Z * Z * Z) * (Z * Z * Z)) :=
  if active e then Some (key e, value e) else None.

Definition routes (t : route_table) : gmap (Z * Z * Z) (Z * Z * Z) :=
  list_to_map (omap live (entries t)).

(** The route covers the destination: their first [prefix_length] bits agree. *)
Definition covers (e : route_entry) (destination : Z) : Prop :=
  active e = true /\
  destination / 2 ^ (32 - prefix_length e) = network e / 2 ^ (32 - prefix_length e).

Inductive route_op :=
| OpAdd (network netmask gateway interface_id generation metric : Z)
| OpRemove (network netmask interface_id : Z)
| OpDeactivate (interface_id generation : Z).

(** The caller passes [u32] values. *)
Definition op_ok (op : route_op) : Prop :=
  match op with
  | OpAdd n m _ _ _ _ => is_u32 n /\ is_u32 m
  | _ => True
  end.

Definition run_op (op : route_op) (table : option route_table) : Z * option route_table :=
  match op with
  | OpAdd n m g i gen metric => route_add_generation table n m g i gen metric
  | OpRemove n m i => route_remove table n m i
  | OpDeactivate i gen => route_deactivate_interface table i gen
  end.

(** What an operation means on the abstract table, when it returns [r]. *)
Definition spec_op (op : route_op) (r : Z) (m : gmap (Z * Z * Z) (Z * Z * Z))
    : gmap (Z * Z * Z) (Z * Z * Z) :=
  match op with
  | OpAdd n mk g i gen metric =>
      if r =? 0 then <[(n, mk, i) := (g, gen, metric)]> m else m
  | OpRemove n mk i => if r =? 0 then delete (n, mk, i) m else m
  | OpDeactivate i gen =>
      if i =? 0 then m else
      filter (fun kv => ~ (snd (fst kv) = i /\
                           (gen = 0 \/ snd (fst (snd kv)) = gen))) m
  end.

(** ** Netmasks *)

Lemma count_leading_masks :
  forallb (fun p => bool_decide (count_leading 33 (mask_of p) 0 = Some p)) (seqZ 0 33) = true.
Proof. vm_compute. reflexivity. Qed.

(** A number that shares no bit with its successor is one below a power of two. *)
Lemma land_succ_0 x : 0 <= x -> Z.land x (x + 1) = 0 -> exists k, 0 <= k /\ x = 2 ^ k - 1.
Proof.
  destruct x as [|p|p]; intros Hx; [by exists 0|clear Hx|lia].
  induction p as [p IH|p IH|]; intros H0.
  - replace (Zpos p~1) with (2 * Zpos p + 1) in * by lia.
    replace (2 * Zpos p + 1 + 1) with (2 * (Zpos p + 1)) in H0 by lia.
    destruct IH as (k & ? & Hk).
    + apply Z.bits_inj'. intros n Hn.
      apply (f_equal (fun z => Z.testbit z (Z.succ n))) in H0.
      rewrite Z.land_spec, Z.testbit_odd_succ, Z.testbit_even_succ in H0 by done.
      by rewrite Z.land_spec, Z.testbit_0_l in *.
    + exists (k + 1). rewrite Z.pow_add_r by lia. lia.
  - exfalso. replace (Zpos p~0 + 1) with (2 * Zpos p + 1) in H0 by lia.
    replace (Zpos p~0) with (2 * Zpos p) in H0 by lia.
    assert (Zpos p = 0); [|done].
    apply Z.bits_inj'. intros n Hn.
    apply (f_equal (fun z => Z.testbit z (Z.succ n))) in H0.
    rewrite Z.land_spec, Z.testbit_odd_succ, Z.testbit_even_succ in H0 by done.
    rewrite Z.testbit_0_l in *. by destruct (Z.testbit (Zpos p) n).
  - by exists 1.
Qed.

Lemma lnot_u32 m : is_u32 m -> u32 (Z.lnot m) = 0xFFFFFFFF - m.
Proof. intros. unfold Z.lnot. words. Qed.

(** Every contiguous mask is accepted with its prefix length, and only those. *)
Lemma netmask_prefix_iff m p :
  is_u32 m -> netmask_prefix m = Some p <-> 0 <= p <= 32 /\ m = mask_of p.
Proof.
  intros Hm. unfold netmask_prefix. rewrite lnot_u32 by done.
  assert (forall q, 0 <= q <= 32 -> count_leading 33 (mask_of q) 0 = Some q) as Hq.
  { intros q Hq. pose proof count_leading_masks as H. rewrite forallb_forall in H.
    eapply bool_decide_eq_true_1, H, list_elem_of_In, elem_of_seqZ. lia. }
  split.
  - case_if; [done|]. apply nz_false in Hif.
    assert (exists q, 0 <= q <= 32 /\ m = mask_of q) as (q & ? & ->).
    { destruct (decide (m = 0)) as [->|]; [by exists 0|].
      rewrite u32_small in Hif by words.
      destruct (land_succ_0 (0xFFFFFFFF - m)) as (k & ? & Hk); [words|done|].
      assert (k <= 32).
      { destruct (decide (k <= 32)); [done|].
        assert (2 ^ 33 <= 2 ^ k) by (apply Z.pow_le_mono_r; lia). words. }
      exists (32 - k). split; [lia|]. unfold mask_of.
      replace (32 - (32 - k)) with k by lia. words. }
    rewrite Hq by done. by intros [= <-].
  - intros [Hp ->]. rewrite Hq by done.
    replace (nz _) with false; [done|]. symmetry. apply nz_false.
    unfold mask_of.
    replace (0xFFFFFFFF - (0x100000000 - 2 ^ (32 - p))) with (Z.ones (32 - p))
      by (rewrite Z.ones_equiv; lia).
    replace (Z.ones (32 - p) + 1) with (2 ^ (32 - p)) by (rewrite Z.ones_equiv; lia).
    rewrite Z.land_comm, Z.land_ones by lia. unfold u32.
    assert (2 ^ (32 - p) = 2 ^ 32 \/ 2 ^ (32 - p) < 2 ^ 32) as [->|].
    { destruct (decide (p = 0)) as [->|]; [by left|right].
      apply Z.pow_lt_mono_r; lia. }
    + by rewrite Z.mod_same, Z.mod_0_l by lia.
    + rewrite (Z.mod_small _ 0x100000000) by (change 0x100000000 with (2^32); lia).
      apply Z.mod_same. lia.
Qed.

(** Masking keeps the leading bits. *)
Lemma land_mask_of d p :
  is_u32 d -> 0 <= p <= 32 ->
  Z.land d (mask_of p) = d / 2 ^ (32 - p) * 2 ^ (32 - p).
Proof.
  intros Hd Hp. unfold mask_of. change 0x100000000 with (2 ^ 32).
  apply land_high_mask; [lia|]. done.
Qed.

(** ** The abstract table *)

Lemma keys_distinct_cons e es :
  keys_distinct (e :: es) ->
  keys_distinct es /\
  (active e = true -> forall j e', es !! j = Some e' -> active e' = true -> key e' <> key e).
Proof.
  intros H. split.
  - intros i j a b Hi Hj ? ? ?. apply (inj S).
    by apply (H (S i) (S j) a b).
  - intros He j e' Hj He' Hk.
    specialize (H O (S j) e e'). simpl in H. by specialize (H eq_refl Hj He He' (eq_sym Hk)).
Qed.

Lemma routes_list_lookup es k v :
  keys_distinct es ->
  (list_to_map (omap live es) : gmap _ _) !! k = Some v <->
  exists i e, es !! i = Some e /\ active e = true /\ key e = k /\ value e = v.
Proof.
  induction es as [|e es IH]; intros Hd.
  { split; [done|]. intros (i & e & H & _). by rewrite lookup_nil in H. }
  apply keys_distinct_cons in Hd as [Hd Hhd]. specialize (IH Hd).
  simpl. unfold live at 1. destruct (active e) eqn:He; simpl.
  - destruct (decide (key e = k)) as [Hk|Hk].
    + rewrite Hk, lookup_insert_eq. split.
      * intros [= <-]. by exists O, e.
      * intros (i & e' & Hi & ? & Hk' & <-). destruct i as [|i]; simpl in Hi.
        { simplify_eq; congruence. }
        exfalso. eapply Hhd; [done..|]. congruence.
    + rewrite lookup_insert_ne by done. rewrite IH. split.
      * intros (i & e' & ?). by exists (S i), e'.
      * intros (i & e' & Hi & ? & Hk' & ?). destruct i as [|i]; simpl in Hi.
        { simplify_eq; congruence. }
        by exists i, e'.
  - rewrite IH. split.
    + intros (i & e' & ?). by exists (S i), e'.
    + intros (i & e' & Hi & ? & ? & ?). destruct i as [|i]; simpl in Hi.
      { simplify_eq; congruence. }
      by exists i, e'.
Qed.

Lemma routes_lookup t k v :
  wf t ->
  routes t !! k = Some v <->
  exists i e, entries t !! i = Some e /\ active e = true /\ key e = k /\ value e = v.
Proof. intros Ht. apply routes_list_lookup, wf_keys, Ht. Qed.

Lemma same_route_true n m i e :
  same_route n m i e = true <-> active e = true /\ key e = (n, m, i).
Proof.
  unfold same_route, key. rewrite !andb_true_iff, !Z.eqb_eq.
  split; [intros [[[? ?] ?] ?]; split; congruence|intros [? [= ? ? ?]]; done].
Qed.

(** ** Adding a route *)

Lemma add_wf t n m g i gen metric prefix index :
  wf t -> is_u32 n -> is_u32 m -> i <> 0 ->
  netmask_prefix m = Some prefix -> n = Z.land n m ->
  find_index (same_route n m i) (entries t) = None ->
  find_index (fun e => negb (active e)) (entries t) = Some index ->
  wf (RouteTable (<[index := RouteEntry n m g i gen metric prefix true]> (entries t))
        (u32 (count t + 1))).
Proof.
  intros Ht Hn Hm Hi Hp Hland Hfresh Hfree.
  apply find_index_Some in Hfree as (old & Hold & Hact & _).
  apply negb_true_iff in Hact.
  assert (index < length (entries t))%nat as Hlt by by eapply lookup_lt_Some.
  rewrite netmask_prefix_iff in Hp by done. destruct Hp as [Hp ->].
  rewrite find_index_None in Hfresh.
  assert (forall j e, entries t !! j = Some e -> active e = true -> key e <> (n, mask_of prefix, i))
    as Hnew.
  { intros j e Hj Ha Hk.
    assert (same_route n (mask_of prefix) i e = true) as HH by by apply same_route_true.
    by rewrite (Hfresh _ _ Hj) in HH. }
  split; simpl.
  - rewrite length_insert. apply Ht.
  - rewrite (count_if_insert _ _ _ old) by done. rewrite Hact. simpl.
    rewrite (wf_count t Ht).
    pose proof (count_if_length active (entries t)). rewrite (wf_length t Ht) in *.
    rewrite u32_small; [lia|]. unfold is_u32, ROUTE_MAX in *. lia.
  - intros j e Hj Ha. apply list_lookup_insert_Some in Hj as [(-> & <- & _)|[? Hj]].
    + unfold entry_wf; simpl. done.
    + by eapply wf_entries.
  - intros j k e e' Hj Hk Ha Ha' Heq.
    apply list_lookup_insert_Some in Hj as [(-> & <- & _)|[? Hj]],
      Hk as [(<- & <- & _)|[? Hk]]; try done.
    + symmetry in Heq. by eapply Hnew in Heq.
    + by eapply Hnew in Heq.
    + by eapply wf_keys.
Qed.

Lemma insert_inactive_routes t index old e c k0 v0 :
  key e = k0 -> value e = v0 -> wf t -> wf (RouteTable (<[index := e]> (entries t)) c) ->
  entries t !! index = Some old -> active old = false -> active e = true ->
  routes (RouteTable (<[index := e]> (entries t)) c) = <[k0 := v0]> (routes t).
Proof.
  intros <- <- Ht Ht' Hold Ho He. apply map_eq. intros k. apply option_eq. intros v.
  assert (index < length (entries t))%nat as Hlt by by eapply lookup_lt_Some.
  rewrite routes_lookup by done. simpl. destruct (decide (key e = k)) as [<-|Hk].
  - rewrite lookup_insert_eq. split.
    + intros (j & e' & Hj & Ha & Hk & <-).
      assert (j = index) as ->.
      { apply (wf_keys _ Ht' j index e' e); simpl; [done| |done..].
        by apply list_lookup_insert_eq. }
      rewrite list_lookup_insert_eq in Hj by done. by simplify_eq.
    + intros [= <-]. exists index, e. by rewrite list_lookup_insert_eq.
  - rewrite lookup_insert_ne, routes_lookup by done. split.
    + intros (j & e' & Hj & Ha & Hk' & Hv).
      apply list_lookup_insert_Some in Hj as [(-> & <- & _)|[? Hj]]; [done|].
      by exists j, e'.
    + intros (j & e' & Hj & Ha & Hk' & Hv). exists j, e'.
      rewrite list_lookup_insert_ne; [done|]. intros ->. congruence.
Qed.

(** ** Removing routes *)

(** Replacing entries by inactive ones keeps the table well formed. *)
Lemma shrink_wf t es c :
  wf t -> length es = ROUTE_MAX ->
  (forall j e, es !! j = Some e -> active e = true -> entries t !! j = Some e) ->
  c = Z.of_nat (count_if active es) -> wf (RouteTable es c).
Proof.
  intros Ht Hlen Hsub Hc. split; simpl; [done..| |].
  - intros i e Hi Ha. apply (wf_entries t Ht i e); [by apply Hsub|done].
  - intros i j e e' Hi Hj Ha Ha' Hk.
    apply (wf_keys t Ht i j e e'); [by apply Hsub|by apply Hsub|done..].
Qed.

Lemma remove_wf t index old :
  wf t -> entries t !! index = Some old -> active old = true ->
  wf (RouteTable (<[index := empty_entry]> (entries t))
        (if nz (count t) then count t - 1 else count t)).
Proof.
  intros Ht Hold Ho. eapply shrink_wf; [done|..].
  - rewrite length_insert. apply Ht.
  - intros j e Hj Ha. by apply list_lookup_insert_Some in Hj as [(-> & <- & _)|[? Hj]].
  - rewrite (count_if_insert _ _ _ old), Ho by done. simpl.
    rewrite (wf_count t Ht). pose proof (count_if_pos active _ _ _ Hold Ho).
    unfold nz. destruct (Z.eqb_spec (Z.of_nat (count_if active (entries t))) 0); simpl; lia.
Qed.

Lemma remove_routes t index old c :
  wf t -> wf (RouteTable (<[index := empty_entry]> (entries t)) c) ->
  entries t !! index = Some old -> active old = true ->
  routes (RouteTable (<[index := empty_entry]> (entries t)) c) = delete (key old) (routes t).
Proof.
  intros Ht Ht' Hold Ho. apply map_eq. intros k. apply option_eq. intros v.
  rewrite routes_lookup, lookup_delete_Some, routes_lookup by done. simpl. split.
  - intros (j & e & Hj & Ha & <- & Hv).
    apply list_lookup_insert_Some in Hj as [(-> & <- & _)|[Hne Hj]]; [done|].
    split; [|by exists j, e]. intros Hk. apply Hne. by apply (wf_keys t Ht index j old e).
  - intros [Hne (j & e & Hj & Ha & Hk & Hv)]. exists j, e.
    rewrite list_lookup_insert_ne; [done|]. intros ->. congruence.
Qed.

Definition sweep (i gen : Z) (e : route_entry) : route_entry :=
  if deactivate_hit i gen e then set_inactive e else e.

Lemma deactivate_step_at i gen pre e post c r :
  deactivate_step i gen (length pre) (pre ++ e :: post, c, r) =
  (pre ++ sweep i gen e :: post,
   if deactivate_hit i gen e then (if nz c then c - 1 else c) else c,
   if deactivate_hit i gen e then u32 (r + 1) else r).
Proof.
  unfold deactivate_step, sweep. rewrite list_lookup_middle by done.
  case_if; [|done]. do 2 f_equal.
  rewrite insert_app_r_alt, Nat.sub_diag by lia. done.
Qed.

(** The sweep deactivates exactly the hit entries and counts them. *)
Lemma deactivate_loop es c i gen :
  c = Z.of_nat (count_if active es) -> length es = ROUTE_MAX ->
  for_n ROUTE_MAX (deactivate_step i gen) (es, c, 0) =
  (sweep i gen <$> es, Z.of_nat (count_if active (sweep i gen <$> es)),
   Z.of_nat (count_if (deactivate_hit i gen) es)).
Proof.
  intros Hc Hlen.
  set (Inv := fun k (s : list route_entry * Z * Z) =>
    s = ((sweep i gen <$> take k es) ++ drop k es,
         Z.of_nat (count_if active ((sweep i gen <$> take k es) ++ drop k es)),
         Z.of_nat (count_if (deactivate_hit i gen) (take k es)))).
  assert (Inv ROUTE_MAX (for_n ROUTE_MAX (deactivate_step i gen) (es, c, 0))) as H.
  { apply (for_n_ind Inv); unfold Inv; [by rewrite Hc|]. intros k s Hk ->.
    assert (k < length es)%nat as Hk' by lia.
    apply lookup_lt_is_Some in Hk' as [e He].
    rewrite (drop_S es e k), (take_S_r es k e), fmap_app, <- app_assoc by done.
    change ((sweep i gen <$> [e]) ++ drop (S k) es) with (sweep i gen e :: drop (S k) es).
    assert (k = length (sweep i gen <$> take k es)) as Hl.
    { rewrite length_fmap, length_take. lia. }
    replace (deactivate_step i gen k) with
      (deactivate_step i gen (length (sweep i gen <$> take k es))) by by rewrite <- Hl.
    rewrite deactivate_step_at.
    pose proof (count_if_length (deactivate_hit i gen) (take k es)) as Hb.
    rewrite length_take in Hb.
    rewrite !count_if_app. simpl.
    destruct (deactivate_hit i gen e) eqn:Hhit.
    - assert (active e = true) as Ha by (unfold deactivate_hit in Hhit; boolify; done).
      assert (active (sweep i gen e) = false) as -> by (unfold sweep; by rewrite Hhit).
      f_equal; [f_equal|].
      + rewrite Ha. simpl. unfold nz. case_if; boolify; lia.
      + rewrite u32_small; [lia|]. unfold is_u32, ROUTE_MAX in *. lia.
    - assert (sweep i gen e = e) as -> by (unfold sweep; by rewrite Hhit).
      f_equal; lia. }
  unfold Inv in H. rewrite H, <- Hlen, take_ge, drop_ge, app_nil_r by lia. done.
Qed.

Lemma sweep_active i gen e : active (sweep i gen e) = true -> sweep i gen e = e.
Proof. unfold sweep. by case_if. Qed.

Lemma sweep_wf t i gen :
  wf t -> wf (RouteTable (sweep i gen <$> entries t)
                (Z.of_nat (count_if active (sweep i gen <$> entries t)))).
Proof.
  intros Ht. eapply shrink_wf; [done|..]; [|intros j e Hj Ha|done].
  - rewrite length_fmap. apply Ht.
  - rewrite list_lookup_fmap in Hj. apply fmap_Some in Hj as (e' & Hj & ->).
    by rewrite sweep_active.
Qed.

Lemma sweep_routes t i gen c :
  wf t -> wf (RouteTable (sweep i gen <$> entries t) c) ->
  routes (RouteTable (sweep i gen <$> entries t) c) =
  filter (fun kv => ~ (snd (fst kv) = i /\ (gen = 0 \/ snd (fst (snd kv)) = gen))) (routes t).
Proof.
  intros Ht Ht'. apply map_eq. intros k. apply option_eq. intros v.
  rewrite routes_lookup, map_lookup_filter_Some, routes_lookup by done. simpl.
  assert (forall e, active e = true -> deactivate_hit i gen e = true <->
            (interface_id e = i /\ (gen = 0 \/ interface_generation e = gen))) as Hhit.
  { intros e Ha. unfold deactivate_hit. rewrite Ha. simpl.
    rewrite andb_true_iff, orb_true_iff, negb_true_iff, nz_false, !Z.eqb_eq. done. }
  split.
  - intros (j & e & Hj & Ha & <- & <-). rewrite list_lookup_fmap in Hj.
    apply fmap_Some in Hj as (e' & Hj & ->).
    assert (deactivate_hit i gen e' <> true) as Hno.
    { intros Hh. unfold sweep in Ha. by rewrite Hh in Ha. }
    rewrite sweep_active in * by done.
    split; [by exists j, e'|]. simpl. by rewrite <- Hhit.
  - intros [(j & e & Hj & Ha & <- & <-) Hn]. simpl in Hn. rewrite <- Hhit in Hn by done.
    exists j, e. rewrite list_lookup_fmap, Hj. simpl. unfold sweep.
    by rewrite (not_true_is_false _ Hn).
Qed.

(** ** Lookup *)

Lemma covers_iff e d :
  entry_wf e -> is_u32 d ->
  active e = true /\ Z.land d (netmask e) = network e <-> covers e d.
Proof.
  intros (Hp & Hm & Hn & Hland & _) Hd. unfold covers.
  assert (0 < 2 ^ (32 - prefix_length e)) by (apply Z.pow_pos_nonneg; lia).
  rewrite Hm in *. rewrite land_mask_of in * by done.
  split; intros [Ha Heq]; (split; [done|]).
  - rewrite <- Heq. by rewrite Z.div_mul by lia.
  - by rewrite Heq, <- Hland.
Qed.

(** [a] is at least as good a route as [b]. *)
Definition beats (a b : route_entry) : Prop :=
  prefix_length b < prefix_length a \/
  (prefix_length b = prefix_length a /\ metric a <= metric b).

Lemma beats_trans a b c : beats a b -> beats b c -> beats a c.
Proof. unfold beats. lia. Qed.

Definition hit (d : Z) (e : route_entry) : Prop :=
  active e = true /\ Z.land d (netmask e) = network e.

Definition best_of (d : Z) (es : list route_entry) (r : option route_entry) : Prop :=
  match r with
  | Some e => e ∈ es /\ hit d e /\ forall e', e' ∈ es -> hit d e' -> beats e e'
  | None => forall e', e' ∈ es -> ~ hit d e'
  end.

Lemma lookup_step_best d es r a :
  best_of d es r -> best_of d (es ++ [a]) (lookup_step d r a).
Proof.
  intros Hr.
  assert (hit d a <-> negb (active a) || negb (Z.land d (netmask a) =? network a) = false) as Hhit.
  { unfold hit. rewrite orb_false_iff, !negb_false_iff, Z.eqb_eq. done. }
  unfold lookup_step. destruct (negb (active a) || _) eqn:Hskip.
  - assert (~ hit d a) by (rewrite Hhit; done). clear Hhit.
    destruct r as [e|]; simpl in *.
    + destruct Hr as (? & ? & Hall). rewrite elem_of_snoc. split_and!; [by left|done|].
      intros e' [?| ->]%elem_of_snoc ?; [by apply Hall|done].
    + intros e' [?| ->]%elem_of_snoc; [by apply Hr|done].
  - assert (hit d a) as Ha by (by apply Hhit). clear Hhit.
    assert (beats a a) by (unfold beats; lia).
    destruct r as [b|]; simpl in *; [destruct Hr as (Hin & Hb & Hall); case_if|].
    + assert (beats a b) as Hab.
      { unfold beats. apply orb_true_iff in Hif as [?|?]; boolify; lia. }
      simpl. rewrite elem_of_snoc. split_and!; [by right|done|].
      intros e' [?| ->]%elem_of_snoc ?; [|done].
      eapply beats_trans; [done|by apply Hall].
    + simpl. rewrite elem_of_snoc. split_and!; [by left|done|].
      intros e' [?| ->]%elem_of_snoc ?; [by apply Hall|].
      unfold beats. apply orb_false_iff in Hif as [? Hif].
      apply andb_false_iff in Hif as [?|?]; boolify; lia.
    + rewrite elem_of_snoc. split_and!; [by right|done|].
      intros e' [?| ->]%elem_of_snoc ?; [|done]. exfalso. by eapply Hr.
Qed.

Lemma lookup_best d es : best_of d es (foldl (lookup_step d) None es).
Proof.
  induction es as [|a es IH] using rev_ind; [intros e' []%not_elem_of_nil|].
  rewrite foldl_app. by apply lookup_step_best.
Qed.

(** C28: For a well-formed table, [route_lookup] is longest-prefix match: the
    entry it returns is an active route of the table whose network covers the
    destination, every other covering route has a shorter prefix, or the same
    prefix and no smaller metric, and it returns null exactly when no active
    route covers the destination. *)
Theorem route_lookup_longest_prefix t destination :
  wf t -> is_u32 destination ->
  match route_lookup (Some t) destination with
  | Some e =>
      e ∈ entries t /\ covers e destination /\
      forall e', e' ∈ entries t -> covers e' destination ->
        prefix_length e' < prefix_length e \/
        (prefix_length e' = prefix_length e /\ metric e <= metric e')
  | None => forall e', e' ∈ entries t -> ~ covers e' destination
  end.
Proof.
  intros Ht Hd. simpl. pose proof (lookup_best destination (entries t)) as Hb.
  assert (forall e, e ∈ entries t -> hit destination e <-> covers e destination) as Hhit.
  { intros e [i He]%list_elem_of_lookup.
    destruct (active e) eqn:Ha; [|unfold hit, covers; rewrite Ha; by split; intros [? ?]].
    apply covers_iff; [|done]. by apply (wf_entries t Ht i e). }
  destruct (foldl _ _ _) as [e|]; simpl in Hb.
  - destruct Hb as (Hin & He & Hall). split; [done|]. split; [by apply Hhit|].
    intros e' He' Hc. apply Hall; [done|by apply Hhit].
  - intros e' He' Hc. eapply Hb; [done|by apply Hhit].
Qed.

Lemma spec_add_fail n mk g i gen metric m : spec_op (OpAdd n mk g i gen metric) (-1) m = m.
Proof. reflexivity. Qed.

Lemma spec_remove_fail n mk i m : spec_op (OpRemove n mk i) (-1) m = m.
Proof. reflexivity. Qed.

Lemma add_refines n m g i gen metric t r t' :
  wf t -> is_u32 n -> is_u32 m ->
  route_add_generation (Some t) n m g i gen metric = (r, Some t') ->
  wf t' /\ routes t' = spec_op (OpAdd n m g i gen metric) r (routes t).
Proof.
  intros Ht Hn Hm. unfold route_add_generation.
  destruct (nz i) eqn:Hi; cbn [negb];
    [|intros [= <- <-]; split; [exact Ht|by rewrite spec_add_fail]].
  destruct (netmask_prefix m) as [prefix|] eqn:Hp;
    [|intros [= <- <-]; split; [exact Ht|by rewrite spec_add_fail]].
  destruct (Z.eqb_spec n (Z.land n m)) as [Hland|Hland]; cbn [negb];
    [|intros [= <- <-]; split; [exact Ht|by rewrite spec_add_fail]].
  destruct (find_index (same_route n m i) (entries t)) eqn:Hfresh;
    [intros [= <- <-]; split; [exact Ht|by rewrite spec_add_fail]|].
  destruct (find_index (fun e => negb (active e)) (entries t)) as [index|] eqn:Hfree;
    [|intros [= <- <-]; split; [exact Ht|by rewrite spec_add_fail]].
  intros [= <- <-]. apply nz_true in Hi.
  assert (Hwf := add_wf t n m g i gen metric prefix index Ht Hn Hm Hi Hp Hland Hfresh Hfree).
  split; [exact Hwf|]. apply find_index_Some in Hfree as (old & Hold & Ho & _).
  apply negb_true_iff in Ho. unfold spec_op. rewrite Z.eqb_refl.
  by apply (insert_inactive_routes t index old).
Qed.

Lemma remove_refines n m i t r t' :
  wf t -> route_remove (Some t) n m i = (r, Some t') ->
  wf t' /\ routes t' = spec_op (OpRemove n m i) r (routes t).
Proof.
  intros Ht. unfold route_remove.
  destruct (nz i) eqn:Hi; cbn [negb];
    [|intros [= <- <-]; split; [exact Ht|by rewrite spec_remove_fail]].
  destruct (find_index (same_route n m i) (entries t)) as [index|] eqn:Hf;
    [|intros [= <- <-]; split; [exact Ht|by rewrite spec_remove_fail]].
  intros [= <- <-]. apply find_index_Some in Hf as (old & Hold & Ho & _).
  apply same_route_true in Ho as [Ho Hk].
  assert (Hwf := remove_wf t index old Ht Hold Ho).
  split; [exact Hwf|]. unfold spec_op. rewrite Z.eqb_refl, <- Hk. by apply remove_routes.
Qed.

Lemma deactivate_refines i gen t r t' :
  wf t -> route_deactivate_interface (Some t) i gen = (r, Some t') ->
  wf t' /\ routes t' = spec_op (OpDeactivate i gen) r (routes t).
Proof.
  intros Ht. unfold route_deactivate_interface, spec_op, nz.
  destruct (i =? 0); cbn [negb]; [by intros [= <- <-]|].
  rewrite deactivate_loop by apply Ht. intros [= <- <-].
  assert (Hwf := sweep_wf t i gen Ht). split; [exact Hwf|]. by apply sweep_routes.
Qed.

(** [route_add] fails only for the documented reasons: on a well-formed
    table with [u32] arguments it returns 0 exactly when the interface is not
    0, the mask is contiguous, the network has no host bits, no such route is
    present and a slot is free. *)
Theorem route_add_succeeds_iff t n m g i gen metric :
  wf t -> is_u32 n -> is_u32 m ->
  fst (route_add_generation (Some t) n m g i gen metric) = 0 <->
  i <> 0 /\ (exists p, 0 <= p <= 32 /\ m = mask_of p) /\ n = Z.land n m /\
  routes t !! (n, m, i) = None /\ route_available (Some t) <> 0.
Proof.
  intros Ht Hn Hm. unfold route_add_generation, route_available.
  destruct (nz i) eqn:Hi; cbn [negb fst]; [apply nz_true in Hi|apply nz_false in Hi; by split; [|intros [? _]]].
  destruct (netmask_prefix m) as [p|] eqn:Hp; cbn [negb fst]; cycle 1.
  { split; [done|]. intros (_ & (p & Hmask) & _).
    apply netmask_prefix_iff in Hmask; [congruence|done]. }
  apply netmask_prefix_iff in Hp; [|done].
  destruct (Z.eqb_spec n (Z.land n m)) as [Hland|Hland]; cbn [negb fst]; [|by split; [|intros (_ & _ & ? & _)]].
  destruct (find_index (same_route n m i) (entries t)) as [k|] eqn:Hf; cbn [negb fst].
  { split; [done|]. intros (_ & _ & _ & Hnone & _). exfalso.
    apply find_index_Some in Hf as (e & He & Hs & _). apply same_route_true in Hs as [Ha Hk].
    assert (routes t !! (n, m, i) = Some (value e)) by (apply routes_lookup; [done|by exists k, e]).
    congruence. }
  assert (routes t !! (n, m, i) = None) as Hnone.
  { apply eq_None_not_Some. intros [v Hv]. apply routes_lookup in Hv as (j & e & Hj & Ha & Hk & _); [|done].
    rewrite find_index_None in Hf. specialize (Hf _ _ Hj).
    assert (same_route n m i e = true) by (by apply same_route_true). congruence. }
  destruct (find_index (fun e => negb (active e)) (entries t)) as [k|] eqn:Hfree; cbn [negb fst].
  - split; [|done]. intros _. split_and!; [done|by exists p|done|done|].
    apply find_index_Some in Hfree as (e & He & Ha & _).
    pose proof (count_if_pos (fun e => negb (active e)) _ _ _ He Ha). lia.
  - split; [done|]. intros (_ & _ & _ & _ & Hav). exfalso. apply Hav.
    rewrite find_index_None in Hfree. apply Z2Nat.inj; [lia..|].
    rewrite Nat2Z.id. by apply count_if_0.
Qed.

(** [route_remove] returns 0 exactly when it is given an interface and the
    table holds the route. *)
Lemma route_remove_succeeds_iff t n m i :
  wf t -> fst (route_remove (Some t) n m i) = 0 <-> i <> 0 /\ is_Some (routes t !! (n, m, i)).
Proof.
  intros Ht. unfold route_remove.
  destruct (nz i) eqn:Hi; cbn [negb fst]; [apply nz_true in Hi|apply nz_false in Hi; by split; [|intros [? _]]].
  destruct (find_index (same_route n m i) (entries t)) as [k|] eqn:Hf; cbn [fst].
  - split; [|done]. intros _. split; [done|]. apply find_index_Some in Hf as (e & He & Hs & _).
    apply same_route_true in Hs as [Ha Hk]. exists (value e). apply routes_lookup; [done|]. by exists k, e.
  - split; [done|]. intros [_ [v Hv]]. apply routes_lookup in Hv as (j & e & Hj & Ha & Hk & _); [|done].
    rewrite find_index_None in Hf. specialize (Hf _ _ Hj).
    assert (same_route n m i e = true) by (by apply same_route_true). congruence.
Qed.

Lemma sweep_count i gen es :
  (count_if active (sweep i gen <$> es) + count_if (deactivate_hit i gen) es = count_if active es)%nat.
Proof.
  induction es as [|e es IH]; [done|]. cbn. unfold sweep at 1. destruct (deactivate_hit i gen e) eqn:Hh.
  - unfold deactivate_hit in Hh. destruct (active e); [|done]. simpl. lia.
  - destruct (active e); simpl; lia.
Qed.

(** What an operation answers: 0 when it can be carried out, the number of
    routes a deactivation removed. *)
Definition spec_answer (op : route_op) (t t' : route_table) (r : Z) : Prop :=
  match op with
  | OpAdd n m _ i _ _ =>
      r = 0 <-> i <> 0 /\ (exists p, 0 <= p <= 32 /\ m = mask_of p) /\ n = Z.land n m /\
        routes t !! (n, m, i) = None /\ route_available (Some t) <> 0
  | OpRemove n m i => r = 0 <-> i <> 0 /\ is_Some (routes t !! (n, m, i))
  | OpDeactivate _ _ => count t = count t' + r
  end.

(** C30: Every operation keeps the table well formed (the cached count is the
    number of active entries, active entries have a contiguous mask and a
    masked network, no two active entries share network, mask and interface)
    and acts on the abstract finite map as insert, delete and filter.  An add
    succeeds exactly when the interface is not 0, the mask is contiguous, the
    network has no host bits, no such route is present and a slot is free; a
    remove exactly when the route is there; a deactivation answers the
    number of routes it removed. *)
Theorem route_ops_refine op t r t' :
  wf t -> op_ok op -> run_op op (Some t) = (r, Some t') ->
  wf t' /\ routes t' = spec_op op r (routes t) /\ spec_answer op t t' r.
Proof.
  intros Ht Hok Hrun. destruct op as [n m g i gen metric|n m i|i gen]; unfold run_op in Hrun.
  - destruct Hok as [Hn Hm]. destruct (add_refines _ _ _ _ _ _ _ _ _ Ht Hn Hm Hrun) as [Hwf Hr].
    split; [done|]. split; [done|]. cbn [spec_answer]. rewrite <- (route_add_succeeds_iff t) by done. by rewrite Hrun.
  - destruct (remove_refines _ _ _ _ _ _ Ht Hrun) as [Hwf Hr].
    split; [done|]. split; [done|]. cbn [spec_answer]. rewrite <- (route_remove_succeeds_iff t) by done. by rewrite Hrun.
  - destruct (deactivate_refines _ _ _ _ _ Ht Hrun) as [Hwf Hr]. split; [done|]. split; [done|].
    cbn [spec_answer]. unfold route_deactivate_interface in Hrun. destruct (negb _); [injection Hrun as <- <-; lia|].
    rewrite deactivate_loop in Hrun by apply Ht. injection Hrun as <- <-. cbn [count].
    pose proof (sweep_count i gen (entries t)) as Hs.
    rewrite (wf_count _ Ht). lia.
Qed.

(** ** Witnesses *)

Lemma init_wf : wf (RouteTable (replicate ROUTE_MAX empty_entry) 0).
Proof.
  split; cbn [entries count].
  - by rewrite length_replicate.
  - reflexivity.
  - intros i e [-> _]%lookup_replicate Ha. done.
  - intros i j e e' [-> _]%lookup_replicate _ Ha. done.
Qed.

(** A default route and a more specific one. *)
Definition demo_table : route_table :=
  match snd (route_add_generation
               (snd (route_add (route_init (Some (RouteTable [] 0))) 0 0 0x0A000001 1 10))
               0x0A000100 0xFFFFFF00 0 2 7 5) with
  | Some t => t
  | None => RouteTable [] 0
  end.

Lemma demo_wf : wf demo_table.
Proof.
  destruct (add_refines 0 0 0x0A000001 1 0 10 _ 0
    (RouteTable (RouteEntry 0 0 0x0A000001 1 0 10 0 true :: replicate 31 empty_entry) 1) init_wf)
    as [H1 _]; [words|words|vm_compute; reflexivity|].
  destruct (add_refines 0x0A000100 0xFFFFFF00 0 2 7 5 _ 0 demo_table H1) as [H2 _];
    [words|words|vm_compute; reflexivity|done].
Qed.

Lemma route_lookup_longest_prefix_witness :
  match route_lookup (Some demo_table) 0x0A000105 with
  | Some e => interface_id e = 2 /\ forall e', e' ∈ entries demo_table ->
        covers e' 0x0A000105 ->
        prefix_length e' < prefix_length e \/
        (prefix_length e' = prefix_length e /\ metric e <= metric e')
  | None => False
  end.
Proof.
  pose proof (route_lookup_longest_prefix demo_table 0x0A000105 demo_wf ltac:(words)) as H.
  destruct (route_lookup (Some demo_table) 0x0A000105) as [e|] eqn:He; [|vm_compute in He; done].
  split; [|apply H]. vm_compute in He. by injection He as <-.
Defined.

Lemma route_ops_refine_witness :
  exists t', wf t' /\ routes t' = delete (0, 0, 1) (routes demo_table) /\ is_Some (routes demo_table !! (0, 0, 1)).
Proof.
  exists (match snd (route_remove (Some demo_table) 0 0 1) with
          | Some t => t | None => demo_table end).
  destruct (route_ops_refine (OpRemove 0 0 1) demo_table 0
    (match snd (route_remove (Some demo_table) 0 0 1) with Some t => t | None => demo_table end)) as (Hw & Hr & Ha);
    [exact demo_wf|exact I|vm_compute; reflexivity|]. split; [exact Hw|]. split; [exact Hr|].
  by apply (proj1 Ha).
Defined.

Lemma route_add_succeeds_iff_witness :
  fst (route_add_generation (Some demo_table) 0x0A000100 0xFFFFFF00 0 2 7 5) = 0 <->
  (2 <> 0 /\ (exists p, 0 <= p <= 32 /\ 0xFFFFFF00 = mask_of p) /\
   0x0A000100 = Z.land 0x0A000100 0xFFFFFF00 /\
   routes demo_table !! (0x0A000100, 0xFFFFFF00, 2) = None /\
   route_available (Some demo_table) <> 0).
Proof. apply route_add_succeeds_iff; [exact demo_wf|words|words]. Defined.

End Route.
