(* ===== verification/Checksum.v ===== *)
(** Internet checksum and memory copy: [src/net/checksum.h], [src/core/mem.c].

    The checksum code sums big-endian byte pairs with three loops: an SSE2
    loop over 16-byte blocks that accumulates sums of absolute differences in
    two 128-bit registers, an unrolled 8-byte loop and a 2-byte loop.  Both
    the summing and the copying variant are proved equal to the one-line
    reference sum [be_sum], and the folded checksum is proved to be the one's
    complement checksum that a receiver accepts. *)

From S2P Require Import Prelude.

Module Checksum.

(** ** memcpy *)

(** One [while (length >= k)] loop of [memcpy]: copies blocks of [k] bytes.
    The state is the bytes already written, the rest of the destination, the
    rest of the source and the remaining length. *)
Fixpoint copy_blocks (fuel k : nat) (s : list Z * list Z * list Z * nat)
    : list Z * list Z * list Z * nat :=
  match fuel with
  | O => s
  | S fuel =>
      let '(out, dst, src, length) := s in
      if (k <=? length)%nat
      then copy_blocks fuel k (out ++ take k src, drop k dst, drop k src, (length - k)%nat)
      else s
  end.

(** The loops of 16, 4 and 1 bytes; the result is the destination buffer. *)
Definition memcpy (dst src : list Z) (length : nat) : list Z :=
  let s := copy_blocks length 16 ([], dst, src, length) in
  let s := copy_blocks length 4 s in
  let '(out, dst, _, _) := copy_blocks length 1 s in
  out ++ dst.

Definition net_copy (dst src : list Z) (length : nat) : list Z :=
  if (length =? 0)%nat then dst else memcpy dst src length.

(** ** SSE2 registers

    A [__m128i] accumulator is its two 64-bit lanes. *)

Definition m128 : Type := Z * Z.

Definition add_epi64 (a b : m128) : m128 :=
  (u64 (fst a + fst b), u64 (snd a + snd b)).

Definition sum_list (l : list Z) : Z := foldr Z.add 0 l.

(** [_mm_sad_epu8(v, zero)]: the sum of each half's bytes. *)
Definition sad_epu8 (v : list Z) : m128 :=
  (sum_list (take 8 v), sum_list (take 8 (drop 8 v))).

(** [_mm_and_si128(v, even_mask)]: bytes at even positions kept. *)
Fixpoint and_even (v : list Z) : list Z :=
  match v with
  | b0 :: b1 :: v' => Z.land b0 0xFF :: Z.land b1 0 :: and_even v'
  | [b0] => [Z.land b0 0xFF]
  | [] => []
  end.

Definition net_checksum_sad_add (v : list Z) (acc : m128 * m128) : m128 * m128 :=
  (add_epi64 (fst acc) (sad_epu8 v), add_epi64 (snd acc) (sad_epu8 (and_even v))).

(** The low words of both lanes, read back through [u32[4]]. *)
Definition net_checksum_sad_value (acc : m128 * m128) : Z :=
  let all := u32 (u32 (fst (fst acc)) + u32 (snd (fst acc))) in
  let ev := u32 (u32 (fst (snd acc)) + u32 (snd (snd acc))) in
  u32 (u32 (ev * 256) + u32 (all - ev)).

(** [((u32)p[i] << 8) | p[i + 1]] *)
Definition pair_at (bytes : list Z) (i : nat) : Z :=
  Z.lor (Z.shiftl (byte_at bytes i) 8) (byte_at bytes (S i)).

(** ** Summing *)

Fixpoint sum_by8 (fuel : nat) (sum : Z) (bytes : list Z) (length : nat)
    : Z * list Z * nat :=
  match fuel with
  | O => (sum, bytes, length)
  | S fuel =>
      if (8 <=? length)%nat then
        let sum := u32 (sum + pair_at bytes 0) in
        let sum := u32 (sum + pair_at bytes 2) in
        let sum := u32 (sum + pair_at bytes 4) in
        let sum := u32 (sum + pair_at bytes 6) in
        sum_by8 fuel sum (drop 8 bytes) (length - 8)
      else (sum, bytes, length)
  end.

Fixpoint sum_by2 (fuel : nat) (sum : Z) (bytes : list Z) (length : nat)
    : Z * list Z * nat :=
  match fuel with
  | O => (sum, bytes, length)
  | S fuel =>
      if (2 <=? length)%nat
      then sum_by2 fuel (u32 (sum + pair_at bytes 0)) (drop 2 bytes) (length - 2)
      else (sum, bytes, length)
  end.

Definition net_checksum_sum_tail (sum : Z) (bytes : list Z) (length : nat) : Z :=
  let '(sum, bytes, length) := sum_by8 length sum bytes length in
  let '(sum, bytes, length) := sum_by2 length sum bytes length in
  if (length =? 0)%nat then sum else u32 (sum + Z.shiftl (byte_at bytes 0) 8).

(** The SSE2 block loop. *)
Fixpoint sum_by16 (fuel : nat) (acc : m128 * m128) (bytes : list Z) (length : nat)
    : (m128 * m128) * list Z * nat :=
  match fuel with
  | O => (acc, bytes, length)
  | S fuel =>
      if (16 <=? length)%nat
      then sum_by16 fuel (net_checksum_sad_add (take 16 bytes) acc) (drop 16 bytes) (length - 16)
      else (acc, bytes, length)
  end.

Definition zero_acc : m128 * m128 := ((0, 0), (0, 0)).

Definition net_checksum_sum (sum : Z) (bytes : list Z) (length : nat) : Z :=
  if (16 <=? length)%nat then
    let '(acc, bytes, length) := sum_by16 length zero_acc bytes length in
    net_checksum_sum_tail (u32 (sum + net_checksum_sad_value acc)) bytes length
  else net_checksum_sum_tail sum bytes length.

Definition net_checksum_finish (sum : Z) : Z :=
  let sum := u32 (Z.land sum 0xFFFF + Z.shiftr sum 16) in
  let sum := u32 (sum + Z.shiftr sum 16) in
  u16 (Z.lnot sum).

(** ** Summing while copying *)

(** State of [net_checksum_copy]: bytes written, rest of the destination,
    rest of the source, remaining length, running sum. *)
Record copy_state := CopyState {
  cs_out : list Z; cs_dst : list Z; cs_src : list Z; cs_length : nat; cs_sum : Z
}.

Definition advance (k : nat) (sum : Z) (s : copy_state) : copy_state :=
  CopyState (cs_out s ++ take k (cs_src s)) (drop k (cs_dst s)) (drop k (cs_src s))
    (cs_length s - k) sum.

Fixpoint copy_by16 (fuel : nat) (acc : m128 * m128) (s : copy_state)
    : (m128 * m128) * copy_state :=
  match fuel with
  | O => (acc, s)
  | S fuel =>
      if (16 <=? cs_length s)%nat
      then copy_by16 fuel (net_checksum_sad_add (take 16 (cs_src s)) acc)
             (advance 16 (cs_sum s) s)
      else (acc, s)
  end.

Fixpoint copy_by8 (fuel : nat) (s : copy_state) : copy_state :=
  match fuel with
  | O => s
  | S fuel =>
      if (8 <=? cs_length s)%nat then
        let sum := u32 (cs_sum s + pair_at (cs_src s) 0) in
        let sum := u32 (sum + pair_at (cs_src s) 2) in
        let sum := u32 (sum + pair_at (cs_src s) 4) in
        let sum := u32 (sum + pair_at (cs_src s) 6) in
        copy_by8 fuel (advance 8 sum s)
      else s
  end.

Fixpoint copy_by2 (fuel : nat) (s : copy_state) : copy_state :=
  match fuel with
  | O => s
  | S fuel =>
      if (2 <=? cs_length s)%nat
      then copy_by2 fuel (advance 2 (u32 (cs_sum s + pair_at (cs_src s) 0)) s)
      else s
  end.

(** The scalar loops after the block loop. *)
Definition copy_tail (fuel : nat) (s : copy_state) : copy_state :=
  let s := copy_by8 fuel s in
  let s := copy_by2 fuel s in
  if (cs_length s =? 0)%nat then s
  else advance 1 (u32 (cs_sum s + Z.shiftl (byte_at (cs_src s) 0) 8)) s.

(** Returns the sum and the destination buffer. *)
Definition net_checksum_copy (sum : Z) (dst src : list Z) (length : nat) : Z * list Z :=
  let s := CopyState [] dst src length sum in
  let s :=
    if (16 <=? length)%nat then
      let '(acc, s) := copy_by16 length zero_acc s in
      CopyState (cs_out s) (cs_dst s) (cs_src s) (cs_length s)
        (u32 (cs_sum s + net_checksum_sad_value acc))
    else s in
  let s := copy_tail length s in
  (cs_sum s, cs_out s ++ cs_dst s).

(** ** Reference *)

(** The sum of the big-endian 16-bit words, an odd last byte padded with 0. *)
Fixpoint be_sum (l : list Z) : Z :=
  match l with
  | b0 :: b1 :: l' => b0 * 256 + b1 + be_sum l'
  | [b0] => b0 * 256
  | [] => 0
  end.

(** ** Arithmetic of one block *)

Lemma be_sum_app n l1 l2 :
  length l1 = (2 * n)%nat -> be_sum (l1 ++ l2) = be_sum l1 + be_sum l2.
Proof.
  revert l1. induction n as [|n IH]; intros l1 H.
  - by destruct l1.
  - destruct l1 as [|b0 [|b1 l1]]; simpl in H; [lia..|].
    simpl. rewrite IH by lia. lia.
Qed.

Lemma be_sum_block n l len :
  (2 * n <= len)%nat -> (len <= length l)%nat ->
  be_sum (take len l) =
  be_sum (take (2 * n) l) + be_sum (take (len - 2 * n) (drop (2 * n) l)).
Proof.
  intros H1 H2. rewrite <- (take_drop (2 * n) (take len l)) at 1.
  rewrite (be_sum_app n) by (rewrite !length_take; lia).
  rewrite take_take, Nat.min_l by lia. f_equal. f_equal.
  by rewrite skipn_firstn_comm.
Qed.

Lemma pair_at_sum bytes i :
  is_bytes bytes -> pair_at bytes i = byte_at bytes i * 256 + byte_at bytes (S i).
Proof.
  intros H. unfold pair_at.
  pose proof (byte_at_range bytes i H). pose proof (byte_at_range bytes (S i) H).
  rewrite lor_shiftl_add by (unfold is_u8 in *; lia). done.
Qed.

Lemma be_sum_take2 bytes :
  (2 <= length bytes)%nat -> be_sum (take 2 bytes) = byte_at bytes 0 * 256 + byte_at bytes 1.
Proof.
  destruct bytes as [|b0 [|b1 l]]; simpl; [lia..|]. intros. unfold byte_at. simpl. lia.
Qed.

Lemma is_bytes_drop k bytes : is_bytes bytes -> is_bytes (drop k bytes).
Proof. apply Forall_drop. Qed.

Lemma drop_at k bytes i : byte_at (drop k bytes) i = byte_at bytes (k + i).
Proof.
  unfold byte_at. rewrite !nth_lookup, lookup_drop. done.
Qed.

(** Four 16-bit additions are one 8-byte block. *)
Lemma sum8_block sum bytes :
  is_bytes bytes -> (8 <= length bytes)%nat ->
  u32 (u32 (u32 (u32 (sum + pair_at bytes 0) + pair_at bytes 2) + pair_at bytes 4)
       + pair_at bytes 6) = u32 (sum + be_sum (take 8 bytes)).
Proof.
  intros Hb Hl. rewrite !pair_at_sum by done.
  do 8 (destruct bytes as [|? bytes]; [simpl in Hl; lia|]).
  unfold byte_at. simpl. clear. words.
Qed.

(** What the accumulators stand for. *)
Definition acc_value (acc : m128 * m128) : Z :=
  let '((a0, a1), (e0, e1)) := acc in (e0 + e1) * 256 + (a0 + a1 - (e0 + e1)).

Lemma sad_value_acc acc : net_checksum_sad_value acc = u32 (acc_value acc).
Proof.
  destruct acc as [[a0 a1] [e0 e1]]. unfold net_checksum_sad_value, acc_value. simpl.
  words.
Qed.

Lemma land_ff b : is_u8 b -> Z.land b 0xFF = b.
Proof. intros. change 0xFF with (Z.ones 8). rewrite Z.land_ones by lia. apply Z.mod_small. unfold is_u8 in *. lia. Qed.

Lemma sad_add_block v acc :
  is_bytes v -> length v = 16%nat ->
  u32 (acc_value (net_checksum_sad_add v acc)) = u32 (acc_value acc + be_sum v).
Proof.
  intros Hb Hl. destruct acc as [[a0 a1] [e0 e1]].
  do 16 (destruct v as [|? v]; [done|]). destruct v; [|done].
  unfold is_bytes in Hb.
  repeat match goal with H : Forall _ (_ :: _) |- _ => apply Forall_cons in H as [? H] end.
  unfold net_checksum_sad_add, add_epi64, sad_epu8, acc_value. simpl.
  rewrite !land_ff, !Z.land_0_r by done. clear. words.
Qed.

(** ** The loops *)

(** Progress of a summing loop: the pending sum is preserved modulo the width,
    and fewer than [k] bytes are left. *)
Definition loop_post (k : nat) (total : Z) (sum : Z) (bytes : list Z) (len : nat) : Prop :=
  u32 (sum + be_sum (take len bytes)) = u32 total /\ (len < k)%nat /\
  (len <= length bytes)%nat /\ is_bytes bytes.

Lemma sum_by8_post fuel sum bytes len :
  (len <= fuel)%nat -> (len <= length bytes)%nat -> is_bytes bytes ->
  let '(sum', bytes', len') := sum_by8 fuel sum bytes len in
  loop_post 8 (sum + be_sum (take len bytes)) sum' bytes' len'.
Proof.
  revert sum bytes len. induction fuel as [|fuel IH]; intros sum bytes len Hf Hl Hb;
    cbn [sum_by8]; [by split_and!; [|lia|lia|]|].
  destruct (Nat.leb_spec 8 len); [|by split_and!; [|lia|lia|]].
  specialize (IH (u32 (sum + be_sum (take 8 bytes))) (drop 8 bytes) (len - 8)%nat).
  rewrite sum8_block by (done || lia).
  destruct (sum_by8 fuel _ _ _) as [[sum' bytes'] len'].
  destruct IH as (IH & ? & ? & ?); [lia|rewrite length_drop; lia|by apply is_bytes_drop|].
  split_and!; [|done..]. rewrite IH, u32_add_l.
  rewrite (be_sum_block 4 bytes len) by lia. f_equal. simpl (2 * 4)%nat. lia.
Qed.

Lemma sum_by2_post fuel sum bytes len :
  (len <= fuel)%nat -> (len <= length bytes)%nat -> is_bytes bytes ->
  let '(sum', bytes', len') := sum_by2 fuel sum bytes len in
  loop_post 2 (sum + be_sum (take len bytes)) sum' bytes' len'.
Proof.
  revert sum bytes len. induction fuel as [|fuel IH]; intros sum bytes len Hf Hl Hb;
    cbn [sum_by2]; [by split_and!; [|lia|lia|]|].
  destruct (Nat.leb_spec 2 len); [|by split_and!; [|lia|lia|]].
  specialize (IH (u32 (sum + pair_at bytes 0)) (drop 2 bytes) (len - 2)%nat).
  destruct (sum_by2 fuel _ _ _) as [[sum' bytes'] len'].
  destruct IH as (IH & ? & ? & ?); [lia|rewrite length_drop; lia|by apply is_bytes_drop|].
  split_and!; [|done..]. rewrite IH, u32_add_l.
  rewrite (be_sum_block 1 bytes len), be_sum_take2, pair_at_sum by (done || lia).
  f_equal. simpl (2 * 1)%nat. lia.
Qed.

Lemma sum_by16_post fuel acc bytes len :
  (len <= fuel)%nat -> (len <= length bytes)%nat -> is_bytes bytes ->
  let '(acc', bytes', len') := sum_by16 fuel acc bytes len in
  loop_post 16 (acc_value acc + be_sum (take len bytes)) (acc_value acc') bytes' len'.
Proof.
  revert acc bytes len. induction fuel as [|fuel IH]; intros acc bytes len Hf Hl Hb;
    cbn [sum_by16]; [by split_and!; [|lia|lia|]|].
  destruct (Nat.leb_spec 16 len); [|by split_and!; [|lia|lia|]].
  specialize (IH (net_checksum_sad_add (take 16 bytes) acc) (drop 16 bytes) (len - 16)%nat).
  destruct (sum_by16 fuel _ _ _) as [[acc' bytes'] len'].
  destruct IH as (IH & ? & ? & ?); [lia|rewrite length_drop; lia|by apply is_bytes_drop|].
  split_and!; [|done..].
  rewrite IH, <- u32_add_l, sad_add_block, u32_add_l
    by (apply Forall_take || (rewrite length_take; lia); done).
  rewrite (be_sum_block 8 bytes len) by lia. f_equal. simpl (2 * 8)%nat. lia.
Qed.

Lemma sum_by8_u32 fuel sum bytes len : is_u32 sum -> is_u32 (fst (fst (sum_by8 fuel sum bytes len))).
Proof.
  revert sum bytes len. induction fuel as [|fuel IH]; intros sum bytes len H; cbn [sum_by8]; [done|].
  case_if; [|done]. apply IH, u32_range.
Qed.

Lemma sum_by2_u32 fuel sum bytes len : is_u32 sum -> is_u32 (fst (fst (sum_by2 fuel sum bytes len))).
Proof.
  revert sum bytes len. induction fuel as [|fuel IH]; intros sum bytes len H; cbn [sum_by2]; [done|].
  case_if; [|done]. apply IH, u32_range.
Qed.

(** At most one byte is left when the 2-byte loop ends. *)
Lemma last_byte_spec total sum bytes len :
  is_u32 sum -> loop_post 2 total sum bytes len ->
  (if (len =? 0)%nat then sum else u32 (sum + Z.shiftl (byte_at bytes 0) 8)) = u32 total.
Proof.
  intros Hs (Heq & Hlt & Hl & Hb). rewrite <- Heq.
  destruct len as [|[|len]]; simpl; [|destruct bytes as [|b bytes]; [simpl in Hl; lia|]|lia].
  - rewrite Z.add_0_r, u32_small; done.
  - unfold byte_at. simpl. by rewrite Z.shiftl_mul_pow2 by lia.
Qed.

Lemma sum_tail_spec sum bytes len :
  is_u32 sum -> (len <= length bytes)%nat -> is_bytes bytes ->
  net_checksum_sum_tail sum bytes len = u32 (sum + be_sum (take len bytes)).
Proof.
  intros Hs Hl Hb. unfold net_checksum_sum_tail.
  pose proof (sum_by8_post len sum bytes len) as H8.
  pose proof (sum_by8_u32 len sum bytes len Hs) as Hs1.
  destruct (sum_by8 _ _ _ _) as [[s1 b1] l1]. simpl in Hs1.
  destruct H8 as (H8 & ? & ? & ?); [lia|done..|].
  pose proof (sum_by2_post l1 s1 b1 l1) as H2.
  pose proof (sum_by2_u32 l1 s1 b1 l1 Hs1) as Hs2.
  destruct (sum_by2 _ _ _ _) as [[s2 b2] l2]. simpl in Hs2.
  rewrite (last_byte_spec (s1 + be_sum (take l1 b1))); [done..|]. by apply H2; [lia|..].
Qed.

Lemma sum_spec sum bytes len :
  is_u32 sum -> (len <= length bytes)%nat -> is_bytes bytes ->
  net_checksum_sum sum bytes len = u32 (sum + be_sum (take len bytes)).
Proof.
  intros Hs Hl Hb. unfold net_checksum_sum. case_if; [|by apply sum_tail_spec].
  pose proof (sum_by16_post len zero_acc bytes len) as H16.
  destruct (sum_by16 _ _ _ _) as [[acc b1] l1].
  destruct H16 as (H16 & ? & ? & ?); [lia|done..|].
  rewrite sum_tail_spec by (done || apply u32_range).
  rewrite sad_value_acc, u32_add_r, u32_add_l, <- Z.add_assoc, <- u32_add_r, H16, u32_add_r.
  done.
Qed.

(** ** Copying *)

(** A copying loop keeps [out ++ rest] consistent. *)
Definition copy_inv (dst src : list Z) (len : nat) (s : copy_state) : Prop :=
  exists k, (k + cs_length s = len)%nat /\ cs_out s = take k src /\
    cs_dst s = drop k dst /\ cs_src s = drop k src.

Lemma copy_inv_advance dst src len s k sum :
  (k <= cs_length s)%nat -> copy_inv dst src len s -> copy_inv dst src len (advance k sum s).
Proof.
  intros Hk (n & Hn & Ho & Hd & Hs). exists (n + k)%nat. unfold advance; simpl.
  rewrite Ho, Hd, Hs, !drop_drop. split_and!; [lia| |done..].
  by rewrite <- take_take_drop.
Qed.

Lemma copy_by16_sum fuel acc s :
  sum_by16 fuel acc (cs_src s) (cs_length s) =
  (fst (copy_by16 fuel acc s), cs_src (snd (copy_by16 fuel acc s)),
   cs_length (snd (copy_by16 fuel acc s))).
Proof.
  revert acc s. induction fuel as [|fuel IH]; intros acc s; cbn [sum_by16 copy_by16]; [done|].
  case_if; [|done]. rewrite <- IH. done.
Qed.

Lemma copy_by16_keeps fuel acc s dst src len :
  copy_inv dst src len s ->
  copy_inv dst src len (snd (copy_by16 fuel acc s)) /\
  cs_sum (snd (copy_by16 fuel acc s)) = cs_sum s.
Proof.
  revert acc s. induction fuel as [|fuel IH]; intros acc s Hi; cbn [copy_by16]; [done|].
  destruct (Nat.leb_spec 16 (cs_length s)); [|done].
  destruct (IH (net_checksum_sad_add (take 16 (cs_src s)) acc) (advance 16 (cs_sum s) s))
    as [? ?]; [by apply copy_inv_advance|done].
Qed.

Lemma copy_by8_sum fuel s :
  sum_by8 fuel (cs_sum s) (cs_src s) (cs_length s) =
  (cs_sum (copy_by8 fuel s), cs_src (copy_by8 fuel s), cs_length (copy_by8 fuel s)).
Proof.
  revert s. induction fuel as [|fuel IH]; intros s; cbn [sum_by8 copy_by8]; [done|].
  case_if; [|done]. rewrite <- IH. done.
Qed.

Lemma copy_by8_keeps fuel s dst src len :
  copy_inv dst src len s -> copy_inv dst src len (copy_by8 fuel s).
Proof.
  revert s. induction fuel as [|fuel IH]; intros s Hi; cbn [copy_by8]; [done|].
  destruct (Nat.leb_spec 8 (cs_length s)); [|done]. by apply IH, copy_inv_advance.
Qed.

Lemma copy_by2_sum fuel s :
  sum_by2 fuel (cs_sum s) (cs_src s) (cs_length s) =
  (cs_sum (copy_by2 fuel s), cs_src (copy_by2 fuel s), cs_length (copy_by2 fuel s)).
Proof.
  revert s. induction fuel as [|fuel IH]; intros s; cbn [sum_by2 copy_by2]; [done|].
  case_if; [|done]. rewrite <- IH. done.
Qed.

Lemma copy_by2_keeps fuel s dst src len :
  copy_inv dst src len s -> copy_inv dst src len (copy_by2 fuel s).
Proof.
  revert s. induction fuel as [|fuel IH]; intros s Hi; cbn [copy_by2]; [done|].
  destruct (Nat.leb_spec 2 (cs_length s)); [|done]. by apply IH, copy_inv_advance.
Qed.

(** What is known between the loops of [net_checksum_copy]. *)
Record copy_pending (dst src : list Z) (len : nat) (total : Z) (s : copy_state) : Prop := {
  cp_inv : copy_inv dst src len s;
  cp_range : is_u32 (cs_sum s);
  cp_sum : u32 (cs_sum s + be_sum (take (cs_length s) (cs_src s))) = u32 total;
  cp_len : (cs_length s <= length (cs_src s))%nat;
  cp_bytes : is_bytes (cs_src s)
}.

Lemma copy_pending_le dst src len total s :
  copy_pending dst src len total s -> (cs_length s <= len)%nat.
Proof. intros [(k & ? & _) _ _ _ _]. lia. Qed.

Lemma copy_by8_pending dst src len total s :
  copy_pending dst src len total s -> copy_pending dst src len total (copy_by8 len s).
Proof.
  intros Hp. pose proof (copy_pending_le _ _ _ _ _ Hp). destruct Hp as [Hi Hr Hs Hl Hb].
  pose proof (sum_by8_post len (cs_sum s) (cs_src s) (cs_length s)) as Hpost.
  pose proof (sum_by8_u32 len (cs_sum s) (cs_src s) (cs_length s) Hr) as Hr'.
  rewrite copy_by8_sum in Hpost, Hr'. destruct Hpost as (Heq & ? & ? & ?); [done..|].
  split; [by apply copy_by8_keeps|done|by rewrite Heq|done..].
Qed.

Lemma copy_by2_pending dst src len total s :
  copy_pending dst src len total s ->
  copy_pending dst src len total (copy_by2 len s) /\ (cs_length (copy_by2 len s) < 2)%nat.
Proof.
  intros Hp. pose proof (copy_pending_le _ _ _ _ _ Hp). destruct Hp as [Hi Hr Hs Hl Hb].
  pose proof (sum_by2_post len (cs_sum s) (cs_src s) (cs_length s)) as Hpost.
  pose proof (sum_by2_u32 len (cs_sum s) (cs_src s) (cs_length s) Hr) as Hr'.
  rewrite copy_by2_sum in Hpost, Hr'. destruct Hpost as (Heq & ? & ? & ?); [done..|].
  split; [|done]. split; [by apply copy_by2_keeps|done|by rewrite Heq|done..].
Qed.

Lemma copy_by16_pending dst src len sum :
  is_u32 sum -> is_bytes src -> (len <= length src)%nat ->
  let '(acc, s) := copy_by16 len zero_acc (CopyState [] dst src len sum) in
  copy_pending dst src len (sum + be_sum (take len src))
    (CopyState (cs_out s) (cs_dst s) (cs_src s) (cs_length s)
       (u32 (cs_sum s + net_checksum_sad_value acc))).
Proof.
  intros Hs Hb Hl. set (s0 := CopyState [] dst src len sum).
  pose proof (sum_by16_post len zero_acc src len) as H16.
  destruct (copy_by16_keeps len zero_acc s0 dst src len) as [Hi Hk]; [by exists O|].
  pose proof (copy_by16_sum len zero_acc s0) as Hc. simpl in Hc. rewrite Hc in H16. clear Hc.
  destruct (copy_by16 len zero_acc s0) as [acc s]; simpl in *.
  destruct H16 as (Heq & ? & ? & ?); [lia|done..|].
  split; simpl; [done|apply u32_range| |done..].
  rewrite sad_value_acc, u32_add_r, u32_add_l, <- Z.add_assoc, <- u32_add_r, Heq, u32_add_r.
  by rewrite Hk.
Qed.

Lemma copy_tail_spec dst src len total s :
  copy_pending dst src len total s ->
  cs_sum (copy_tail len s) = u32 total /\
  cs_out (copy_tail len s) ++ cs_dst (copy_tail len s) = take len src ++ drop len dst.
Proof.
  intros [Hp Hlt]%copy_by8_pending%copy_by2_pending. unfold copy_tail.
  set (s3 := copy_by2 len _) in *. clearbody s3. destruct Hp as [Hi Hr Hs Hl Hb].
  pose proof (last_byte_spec total _ _ _ Hr (conj Hs (conj Hlt (conj Hl Hb)))) as Hlast.
  destruct (Nat.eqb_spec (cs_length s3) 0) as [Hz|Hz]; (split; [done|]).
  - destruct Hi as (k & Hk & -> & -> & _). f_equal; f_equal; lia.
  - apply (copy_inv_advance _ _ _ _ 1
      (u32 (cs_sum s3 + Z.shiftl (byte_at (cs_src s3) 0) 8))) in Hi; [|lia].
    destruct Hi as (k & Hk & -> & -> & _). simpl in Hk. f_equal; f_equal; lia.
Qed.

Lemma checksum_copy_spec sum dst src len :
  is_u32 sum -> is_bytes src -> (len <= length src)%nat ->
  net_checksum_copy sum dst src len =
  (u32 (sum + be_sum (take len src)), take len src ++ drop len dst).
Proof.
  intros Hs Hb Hl. unfold net_checksum_copy.
  pose proof (copy_by16_pending dst src len sum Hs Hb Hl) as H16.
  destruct (16 <=? len)%nat.
  - destruct (copy_by16 _ _ _) as [acc s].
    by destruct (copy_tail_spec _ _ _ _ _ H16) as [-> ->].
  - destruct (copy_tail_spec dst src len (sum + be_sum (take len src))
      (CopyState [] dst src len sum)) as [-> ->]; [|done].
    split; simpl; [by exists O|done..].
Qed.

(** ** memcpy *)

Definition blocks_inv (dst src : list Z) (len : nat) (s : list Z * list Z * list Z * nat) : Prop :=
  let '(out, d, r, l) := s in
  exists k, (k + l = len)%nat /\ out = take k src /\ d = drop k dst /\ r = drop k src.

Lemma copy_blocks_inv fuel k dst src len s :
  (0 < k)%nat -> blocks_inv dst src len s -> (snd s <= fuel)%nat ->
  blocks_inv dst src len (copy_blocks fuel k s) /\ (snd (copy_blocks fuel k s) < k)%nat.
Proof.
  intros Hk. revert s. induction fuel as [|fuel IH]; intros [[[out d] r] l] Hi Hf; simpl in Hf.
  - simpl. split; [done|lia].
  - cbn [copy_blocks]. destruct (Nat.leb_spec k l); [|done].
    apply IH; simpl; [|lia]. destruct Hi as (n & ? & -> & -> & ->).
    exists (n + k)%nat. rewrite !drop_drop. split_and!; [lia| |done..].
    by rewrite take_take_drop.
Qed.

Lemma memcpy_spec dst src len :
  memcpy dst src len = take len src ++ drop len dst.
Proof.
  unfold memcpy.
  assert (forall s, blocks_inv dst src len s -> (snd s <= len)%nat) as Hle.
  { intros [[[o d] r] l] (k & Hk & _). simpl. lia. }
  destruct (copy_blocks_inv len 16 dst src len ([], dst, src, len)) as [Hi1 _];
    [lia|by exists O|done|].
  destruct (copy_blocks_inv len 4 dst src len _ ltac:(lia) Hi1 (Hle _ Hi1)) as [Hi2 _].
  destruct (copy_blocks_inv len 1 dst src len _ ltac:(lia) Hi2 (Hle _ Hi2)) as [Hi3 Hlt].
  destruct (copy_blocks len 1 _) as [[[out d] r] l]. simpl in Hlt.
  destruct Hi3 as (k & Hk & -> & -> & _). f_equal; f_equal; lia.
Qed.

(** ** Folding *)

(** The folded value is the representative of the sum modulo 65535 that is 0
    only for the sum 0. *)
Lemma finish_value s :
  is_u32 s ->
  net_checksum_finish s = 0xFFFF - (if s =? 0 then 0 else (s - 1) mod 0xFFFF + 1).
Proof.
  intros Hs. unfold net_checksum_finish.
  replace (Z.land s 0xFFFF) with (s mod 65536)
    by (change 0xFFFF with (Z.ones 16); by rewrite Z.land_ones by lia).
  rewrite !Z.shiftr_div_pow2 by lia.
  unfold Z.lnot, u16, u32, is_u32 in *. change (2 ^ 16) with 65536.
  pose proof (Z.div_mod s 65536 ltac:(lia)) as Hdm.
  pose proof (Z.mod_pos_bound s 65536 ltac:(lia)) as Ha.
  assert (0 <= s / 65536 <= 65535) as Hb by dmlia.
  set (a := s mod 65536) in *. set (b := s / 65536) in *. clearbody a b.
  rewrite (Z.mod_small (a + b)) by lia.
  assert ((a + b) / 65536 = if a + b <? 65536 then 0 else 1) as ->.
  { destruct (Z.ltb_spec (a + b) 65536); dmlia. }
  rewrite (Z.mod_small (a + b + _)) by (destruct (a + b <? 65536); lia).
  destruct (Z.ltb_spec (a + b) 65536), (Z.eqb_spec s 0); try lia; dmlia.
Qed.

Lemma be_sum_bound n l :
  is_bytes l -> (length l <= 2 * n)%nat -> 0 <= be_sum l <= 65535 * Z.of_nat n.
Proof.
  revert l. induction n as [|n IH]; intros l Hb Hl.
  - destruct l; simpl in *; lia.
  - destruct l as [|b0 [|b1 l]]; simpl in *; [lia| |].
    + apply Forall_cons in Hb as [H0 _]. unfold is_u8 in H0. lia.
    + apply Forall_cons in Hb as [H0 Hb]. apply Forall_cons in Hb as [H1 Hb].
      specialize (IH l Hb ltac:(lia)). unfold is_u8 in *. lia.
Qed.

(** [net_checksum_sum] over [length] bytes, by whichever of its loops
    (SSE2 blocks, 8 bytes, 2 bytes, last byte), returns the accumulator plus
    the sum of the big-endian 16-bit words, modulo the 32-bit width; it always
    returns. *)
Theorem net_checksum_sum_reference sum bytes length :
  is_u32 sum -> is_bytes bytes -> (length <= List.length bytes)%nat ->
  net_checksum_sum sum bytes length = u32 (sum + be_sum (take length bytes)).
Proof. intros. by apply sum_spec. Qed.

(** [net_checksum_copy] returns the same sum as [net_checksum_sum] and
    leaves in the destination what [net_copy] would: the first [length] source
    bytes, the rest untouched. *)
Theorem net_checksum_copy_fused sum dst src length :
  is_u32 sum -> is_bytes src -> (length <= List.length src)%nat ->
  net_checksum_copy sum dst src length =
    (net_checksum_sum sum src length, net_copy dst src length) /\
  net_copy dst src length = take length src ++ drop length dst.
Proof.
  intros Hs Hb Hl.
  assert (net_copy dst src length = take length src ++ drop length dst) as Hc.
  { unfold net_copy. destruct (Nat.eqb_spec length 0) as [->|]; [done|apply memcpy_spec]. }
  rewrite checksum_copy_spec, sum_spec, Hc by done. done.
Qed.

(** A filled checksum field makes the sum come out right. *)
Lemma filled_checksum_verifies pre post c :
  is_bytes pre -> is_bytes post -> Nat.even (length pre) = true ->
  Z.of_nat (length pre + 2 + length post) <= 65535 ->
  c = net_checksum_finish
        (net_checksum_sum 0 (pre ++ 0 :: 0 :: post) (length pre + 2 + length post)) ->
  net_checksum_finish
    (net_checksum_sum 0 (pre ++ c / 256 :: c mod 256 :: post)
       (length pre + 2 + length post)) = 0 /\ is_u16 c.
Proof.
  intros Hp Hq Hev Hlen Hc.
  apply Nat.even_spec in Hev as [n Hn].
  set (S := be_sum pre + be_sum post).
  assert (forall x y, be_sum (pre ++ x :: y :: post) = x * 256 + y + S) as Hsum.
  { intros x y. unfold S. rewrite (be_sum_app n) by done. simpl. lia. }
  assert (0 <= S <= 65535 * 65533) as HS.
  { unfold S. pose proof (be_sum_bound (length pre) pre Hp ltac:(lia)).
    pose proof (be_sum_bound (length post) post Hq ltac:(lia)). lia. }
  assert (is_u8 0) as H0 by (unfold is_u8; lia).
  rewrite sum_spec in Hc by
    (first [words | rewrite length_app; simpl; lia | apply Forall_app; split; [done|by repeat constructor]]).
  rewrite take_ge, Hsum in Hc by (rewrite length_app; simpl; lia).
  replace (0 + (0 * 256 + 0 + S)) with S in Hc by lia. rewrite u32_small in Hc by words.
  rewrite finish_value in Hc by words.
  assert (0 <= c <= 65535) by (destruct (S =? 0); dmlia). split; [|unfold is_u16; lia].
  assert (is_bytes (pre ++ c / 256 :: c mod 256 :: post)).
  { apply Forall_app; split; [done|]. repeat constructor; [unfold is_u8; dmlia..|done]. }
  rewrite sum_spec by (first [done | words | rewrite length_app; simpl; lia]).
  rewrite take_ge, Hsum by (rewrite length_app; simpl; lia).
  rewrite u32_small by words. rewrite finish_value by words.
  destruct (Z.eqb_spec S 0); destruct (Z.eqb_spec (0 + (c / 256 * 256 + c mod 256 + S)) 0); dmlia.
Qed.

(** A packet of at most 65535 bytes whose checksum field (at an even
    offset, zero while summing) is filled with [net_checksum_finish] of its sum
    verifies: the receiver's checksum over the filled packet is 0. *)
Theorem checksum_roundtrip pre post c :
  is_bytes pre -> is_bytes post -> Nat.even (length pre) = true ->
  Z.of_nat (length pre + 2 + length post) <= 65535 ->
  c = net_checksum_finish
        (net_checksum_sum 0 (pre ++ 0 :: 0 :: post) (length pre + 2 + length post)) ->
  net_checksum_finish
    (net_checksum_sum 0 (pre ++ c / 256 :: c mod 256 :: post)
       (length pre + 2 + length post)) = 0.
Proof. intros. by eapply filled_checksum_verifies. Qed.

Lemma net_checksum_sum_reference_witness :
  net_checksum_sum 7 (replicate 37 0xC3) 37 = u32 (7 + be_sum (take 37 (replicate 37 0xC3))).
Proof.
  apply net_checksum_sum_reference; [words|apply Forall_replicate; words|].
  rewrite length_replicate. lia.
Defined.

Lemma net_checksum_copy_fused_witness :
  net_checksum_copy 1 (replicate 40 0) (replicate 37 0xC3) 37 =
    (net_checksum_sum 1 (replicate 37 0xC3) 37,
     net_copy (replicate 40 0) (replicate 37 0xC3) 37) /\
  net_copy (replicate 40 0) (replicate 37 0xC3) 37 =
    take 37 (replicate 37 0xC3) ++ drop 37 (replicate 40 0).
Proof.
  apply net_checksum_copy_fused; [words|apply Forall_replicate; words|].
  rewrite length_replicate. lia.
Defined.

Lemma checksum_roundtrip_witness :
  net_checksum_finish
    (net_checksum_sum 0 ([0x45; 0; 0; 0x1C; 0; 0; 0; 0; 0x40; 0x11] ++
       0x3A / 256 :: 0x3A mod 256 :: [1; 2; 3]) 15) <> 0 /\
  let c := net_checksum_finish (net_checksum_sum 0
             ([0x45; 0; 0; 0x1C; 0; 0; 0; 0; 0x40; 0x11] ++ 0 :: 0 :: [1; 2; 3]) 15) in
  net_checksum_finish
    (net_checksum_sum 0 ([0x45; 0; 0; 0x1C; 0; 0; 0; 0; 0x40; 0x11] ++
       c / 256 :: c mod 256 :: [1; 2; 3]) 15) = 0.
Proof.
  split; [vm_compute; done|]. cbv zeta.
  apply (checksum_roundtrip [0x45; 0; 0; 0x1C; 0; 0; 0; 0; 0x40; 0x11] [1; 2; 3]).
  - repeat constructor; unfold is_u8; lia.
  - repeat constructor; unfold is_u8; lia.
  - reflexivity.
  - simpl. lia.
  - reflexivity.
Defined.

End Checksum.
