(* ===== verification/Crc32c.v ===== *)
(** CRC32C: [src/fs/crc32c.c], the checksum of every adytumfs block.

    The bitwise fallback and the path through the SSE4.2 [crc32b] instruction
    are modelled with the cached CPU feature test that chooses between them.
    The instruction is a parameter with its documented operation (reflect,
    polynomial division by 0x11EDC6F41, reflect) as the hypothesis; the file
    proves that both paths compute the same function, and that the checksum
    detects every corruption confined to four consecutive bytes. *)

From S2P Require Import Prelude.

Module Crc32c.

Definition CPUID_ECX_SSE42 : Z := Z.shiftl 1 20.

(** The feature test with its [static int cached]; [ecx] is what cpuid leaf 1
    returns.  The result is the answer and the new cache. *)
Definition crc32c_hardware_available (ecx cached : Z) : Z * Z :=
  let cached :=
    if cached <? 0 then (if nz (Z.land ecx CPUID_ECX_SSE42) then 1 else 0) else cached in
  (cached, cached).

(** One bit of the reflected division. *)
Definition crc_bit (crc : Z) : Z :=
  if nz (Z.land crc 1) then Z.lxor (Z.shiftr crc 1) 0x82F63B78 else Z.shiftr crc 1.

(** One byte: [crc ^= data[index]] and the inner loop. *)
Definition crc_byte (crc byte : Z) : Z := Nat.iter 8 crc_bit (Z.lxor crc byte).

Definition crc32c_software (data : list Z) (length : nat) : Z :=
  Z.lxor (for_n length (fun index crc => crc_byte crc (byte_at data index)) 0xFFFFFFFF)
    0xFFFFFFFF.

Section Hardware.
(** The [crc32b] instruction: destination register and source byte. *)
Variable crc32b : Z -> Z -> Z.

Definition crc32c_hardware (data : list Z) (length : nat) : Z :=
  Z.lxor (for_n length (fun index crc => crc32b crc (byte_at data index)) 0xFFFFFFFF)
    0xFFFFFFFF.

Definition crc32c (ecx cached : Z) (data : option (list Z)) (length : nat) : Z :=
  match data with
  | None => 0
  | Some bytes =>
      if nz (fst (crc32c_hardware_available ecx cached))
      then crc32c_hardware bytes length
      else crc32c_software bytes length
  end.
End Hardware.

(** ** The instruction as documented *)

(** Reverse the low [n] bits. *)
Fixpoint reflect (n : nat) (x : Z) : Z :=
  match n with
  | O => 0
  | S n' => Z.lxor (if Z.testbit x 0 then 2 ^ Z.of_nat n' else 0) (reflect n' (Z.shiftr x 1))
  end.

(** Remainder of a polynomial over GF(2) of degree below [32 + n] by the
    polynomial 0x11EDC6F41 of degree 32. *)
Fixpoint mod2 (n : nat) (x : Z) : Z :=
  match n with
  | O => x
  | S n' =>
      mod2 n' (Z.lxor x (if Z.testbit x (32 + Z.of_nat n')
                         then Z.shiftl 0x11EDC6F41 (Z.of_nat n') else 0))
  end.

(** CRC32 r32, r/m8 in the Intel manual. *)
Definition sdm_crc32b (dest src : Z) : Z :=
  let temp3 := Z.shiftl (reflect 8 src) 32 in
  let temp4 := Z.shiftl (reflect 32 dest) 8 in
  reflect 32 (mod2 8 (Z.lxor temp3 temp4)).

(** ** Maps that are linear over GF(2) *)

Class Linear (f : Z -> Z) : Prop := linear x y : f (Z.lxor x y) = Z.lxor (f x) (f y).

#[export] Instance linear_id : Linear (fun x => x).
Proof. done. Qed.

#[export] Instance linear_shiftl f k : Linear f -> Linear (fun x => Z.shiftl (f x) k).
Proof. intros H x y. by rewrite H, Z.shiftl_lxor. Qed.

#[export] Instance linear_shiftr f k : Linear f -> Linear (fun x => Z.shiftr (f x) k).
Proof. intros H x y. by rewrite H, Z.shiftr_lxor. Qed.

#[export] Instance linear_lxor f g : Linear f -> Linear g -> Linear (fun x => Z.lxor (f x) (g x)).
Proof.
  intros Hf Hg x y. rewrite Hf, Hg. rewrite <- !Z.lxor_assoc. f_equal.
  rewrite !Z.lxor_assoc. f_equal. apply Z.lxor_comm.
Qed.

#[export] Instance linear_testbit k c : Linear (fun x => if Z.testbit x k then c else 0).
Proof.
  intros x y. rewrite Z.lxor_spec.
  destruct (Z.testbit x k), (Z.testbit y k); simpl;
    by rewrite ?Z.lxor_0_l, ?Z.lxor_0_r, ?Z.lxor_nilpotent.
Qed.

Lemma linear_compose f g : Linear f -> Linear g -> Linear (fun x => g (f x)).
Proof. intros Hf Hg x y. by rewrite Hf, Hg. Qed.

Lemma linear_0 f : Linear f -> f 0 = 0.
Proof. intros H. specialize (H 0 0). by rewrite !Z.lxor_nilpotent in H. Qed.

(** Linear maps that agree on the powers of two below [2 ^ n] agree below it. *)
Lemma linear_basis f g n :
  Linear f -> Linear g ->
  (forall i, 0 <= i < Z.of_nat n -> f (2 ^ i) = g (2 ^ i)) ->
  forall x, 0 <= x < 2 ^ Z.of_nat n -> f x = g x.
Proof.
  intros Hf Hg. induction n as [|n IH]; intros Hb x Hx.
  - replace x with 0 by (simpl in Hx; lia). by rewrite !linear_0.
  - set (hi := if Z.testbit x (Z.of_nat n) then 2 ^ Z.of_nat n else 0).
    assert (x = Z.lxor hi (x mod 2 ^ Z.of_nat n)) as ->.
    { apply Z.bits_inj'. intros k Hk. rewrite Z.lxor_spec. unfold hi.
      destruct (Z.lt_trichotomy k (Z.of_nat n)) as [|[->|]].
      - rewrite Z.mod_pow2_bits_low by lia.
        case_if; rewrite ?Z.pow2_bits_false, ?Z.testbit_0_l by lia; by destruct (Z.testbit x k).
      - rewrite Z.mod_pow2_bits_high by lia.
        case_if; rewrite ?Z.pow2_bits_true, ?Z.testbit_0_l by lia; done.
      - rewrite Z.mod_pow2_bits_high, (bits_above x (Z.of_nat (S n))) by lia.
        case_if; rewrite ?Z.pow2_bits_false, ?Z.testbit_0_l by lia; done. }
    rewrite Hf, Hg. f_equal.
    + unfold hi. case_if; [apply Hb; lia|by rewrite !linear_0].
    + apply IH; [|apply Z.mod_pos_bound; lia]. intros i Hi. apply Hb. lia.
Qed.

#[export] Instance linear_iter f n : Linear f -> Linear (Nat.iter n f).
Proof. intros H x y. induction n as [|n IH]; simpl; [done|]. by rewrite IH, H. Qed.

#[export] Instance linear_reflect n : Linear (reflect n).
Proof.
  induction n as [|n IH]; [done|].
  apply (linear_lxor (fun x => if Z.testbit x 0 then 2 ^ Z.of_nat n else 0)
           (fun x => reflect n (Z.shiftr x 1))); [apply _|].
  apply (linear_compose (fun x => Z.shiftr x 1)); apply _.
Qed.

#[export] Instance linear_mod2 n : Linear (mod2 n).
Proof.
  induction n as [|n IH]; [by intros x y|].
  apply (linear_compose (fun x => Z.lxor x (if Z.testbit x (32 + Z.of_nat n)
    then Z.shiftl 0x11EDC6F41 (Z.of_nat n) else 0))); apply _.
Qed.

Lemma crc_bit_testbit crc :
  crc_bit crc = Z.lxor (Z.shiftr crc 1) (if Z.testbit crc 0 then 0x82F63B78 else 0).
Proof.
  unfold crc_bit. change (Z.land crc 1) with (Z.land crc (Z.shiftl 1 0)).
  change (nz (Z.land crc (Z.shiftl 1 0))) with (bit_of crc 0).
  rewrite bit_of_testbit by lia. destruct (Z.testbit crc 0); [done|by rewrite Z.lxor_0_r].
Qed.

#[export] Instance linear_crc_bit : Linear crc_bit.
Proof.
  intros x y. rewrite !crc_bit_testbit.
  exact (linear_lxor (fun x => Z.shiftr x 1)
    (fun x => if Z.testbit x 0 then 0x82F63B78 else 0) _ _ x y).
Qed.

(** ** The two paths agree *)

Lemma sdm_split dest src :
  sdm_crc32b dest src = Z.lxor (sdm_crc32b dest 0) (sdm_crc32b 0 src).
Proof.
  unfold sdm_crc32b. rewrite !(linear_0 (reflect _)) by apply _.
  rewrite !Z.shiftl_0_l, Z.lxor_0_l, Z.lxor_0_r.
  rewrite (linear_mod2 8), (linear_reflect 32). apply Z.lxor_comm.
Qed.

Lemma crc_byte_split crc byte :
  crc_byte crc byte = Z.lxor (crc_byte crc 0) (crc_byte 0 byte).
Proof.
  unfold crc_byte. rewrite Z.lxor_0_l, Z.lxor_0_r. apply linear_iter, _.
Qed.

Lemma sdm_dest_basis :
  forallb (fun i => sdm_crc32b (2 ^ i) 0 =? crc_byte (2 ^ i) 0) (seqZ 0 32) = true.
Proof. vm_compute. reflexivity. Qed.

Lemma sdm_src_basis :
  forallb (fun i => sdm_crc32b 0 (2 ^ i) =? crc_byte 0 (2 ^ i)) (seqZ 0 8) = true.
Proof. vm_compute. reflexivity. Qed.

(** The documented instruction is eight steps of the bitwise loop. *)
Lemma sdm_crc_byte dest src : is_u32 dest -> is_u8 src -> sdm_crc32b dest src = crc_byte dest src.
Proof.
  intros Hd Hs. rewrite sdm_split, crc_byte_split. f_equal.
  - apply (linear_basis (fun x => sdm_crc32b x 0) (fun x => crc_byte x 0) 32); [..|done].
    + intros x y. unfold sdm_crc32b. rewrite (linear_0 (reflect 8)), Z.shiftl_0_l, !Z.lxor_0_l by apply _.
      rewrite (linear_reflect 32 x y), Z.shiftl_lxor, linear_mod2. apply linear_reflect.
    + intros x y. unfold crc_byte. rewrite !Z.lxor_0_r. apply linear_iter, _.
    + intros i Hi. pose proof sdm_dest_basis as H. rewrite forallb_forall in H.
      apply Z.eqb_eq, H, list_elem_of_In, elem_of_seqZ. lia.
  - apply (linear_basis (sdm_crc32b 0) (crc_byte 0) 8); [..|done].
    + intros x y. unfold sdm_crc32b. rewrite (linear_0 (reflect 32)), Z.shiftl_0_l, !Z.lxor_0_r by apply _.
      rewrite (linear_reflect 8 x y), Z.shiftl_lxor, linear_mod2. apply linear_reflect.
    + intros x y. unfold crc_byte. rewrite !Z.lxor_0_l. apply linear_iter, _.
    + intros i Hi. pose proof sdm_src_basis as H. rewrite forallb_forall in H.
      apply Z.eqb_eq, H, list_elem_of_In, elem_of_seqZ. lia.
Qed.

Lemma crc_bit_range crc : is_u32 crc -> is_u32 (crc_bit crc).
Proof.
  intros H. rewrite crc_bit_testbit.
  apply (lxor_width 32); [lia| |case_if; lia].
  rewrite Z.shiftr_div_pow2 by lia. unfold is_u32 in H. dmlia.
Qed.

Lemma crc_iter_range n crc : is_u32 crc -> is_u32 (Nat.iter n crc_bit crc).
Proof. intros H. induction n; simpl; [done|by apply crc_bit_range]. Qed.

Lemma crc_byte_range crc byte : is_u32 crc -> is_u8 byte -> is_u32 (crc_byte crc byte).
Proof.
  intros. apply crc_iter_range. apply (lxor_width 32); [lia|done|unfold is_u8 in *; lia].
Qed.

(** ** Injectivity *)

Lemma linear_inj f x y : Linear f ->
  (forall z, is_u32 z -> f z = 0 -> z = 0) -> is_u32 x -> is_u32 y -> f x = f y -> x = y.
Proof.
  intros Hf Hk Hx Hy Heq. apply Z.lxor_eq, Hk; [by apply (lxor_width 32)|].
  by rewrite Hf, Heq, Z.lxor_nilpotent.
Qed.

Lemma crc_bit_inj x y : is_u32 x -> is_u32 y -> crc_bit x = crc_bit y -> x = y.
Proof.
  apply linear_inj; [apply _|]. intros z Hz. rewrite crc_bit_testbit.
  intros H0%Z.lxor_eq. rewrite Z.shiftr_div_pow2 in H0 by lia. unfold is_u32 in Hz.
  rewrite Z.bit0_odd in H0. destruct (Z.odd z) eqn:Hodd; [exfalso; dmlia|].
  assert (Z.even z = true) as He by (rewrite <- Z.negb_odd, Hodd; done).
  apply Z.even_spec in He as [k ->]. dmlia.
Qed.

Lemma crc_iter_inj n x y :
  is_u32 x -> is_u32 y -> Nat.iter n crc_bit x = Nat.iter n crc_bit y -> x = y.
Proof.
  intros Hx Hy. induction n as [|n IH]; simpl; [done|].
  intros H. apply IH, crc_bit_inj; [by apply crc_iter_range..|done].
Qed.

(** Shifted-in zero bits come out unchanged. *)
Lemma crc_bit_double x : crc_bit (2 * x) = x.
Proof.
  rewrite crc_bit_testbit, Z.bit0_odd, Z.odd_mul. simpl.
  rewrite Z.lxor_0_r, Z.shiftr_div_pow2 by lia. change (2 ^ 1) with 2. dmlia.
Qed.

Lemma crc_iter_shift n x : Nat.iter n crc_bit (Z.shiftl x (Z.of_nat n)) = x.
Proof.
  revert x. induction n as [|n IH]; intros x; [by rewrite Z.shiftl_0_r|].
  rewrite Nat.iter_succ_r. rewrite Nat2Z.inj_succ, <- Z.add_1_r.
  replace (Z.shiftl x (Z.of_nat n + 1)) with (2 * Z.shiftl x (Z.of_nat n)); [by rewrite crc_bit_double|].
  rewrite !Z.shiftl_mul_pow2, Z.pow_add_r by lia. lia.
Qed.

(** ** Whole messages *)

Definition crc_fold : Z -> list Z -> Z := foldl crc_byte.

Lemma software_fold data len :
  (len <= length data)%nat ->
  crc32c_software data len = Z.lxor (crc_fold 0xFFFFFFFF (take len data)) 0xFFFFFFFF.
Proof. intros. unfold crc32c_software. by rewrite (for_n_bytes crc_byte). Qed.

Lemma crc_fold_range c data : is_u32 c -> is_bytes data -> is_u32 (crc_fold c data).
Proof.
  revert c. induction data as [|b data IH]; intros c Hc Hd; [done|].
  apply Forall_cons in Hd as [Hb Hd]. by apply IH; [apply crc_byte_range|].
Qed.

Lemma crc_fold_inj_state c d data :
  is_u32 c -> is_u32 d -> is_bytes data -> crc_fold c data = crc_fold d data -> c = d.
Proof.
  revert c d. induction data as [|b data IH]; intros c d Hc Hd Hb; [done|].
  apply Forall_cons in Hb as [Hb Hdata]. intros H.
  apply IH in H; [|by apply crc_byte_range..|done].
  assert (forall x, is_u32 x -> is_u32 (Z.lxor x b)).
  { intros x Hx. apply (lxor_width 32); [lia|done|unfold is_u8 in Hb; lia]. }
  apply crc_iter_inj in H; [|auto..].
  rewrite <- (Z.lxor_0_r c), <- (Z.lxor_0_r d), <- (Z.lxor_nilpotent b), <- !Z.lxor_assoc.
  by rewrite H.
Qed.

(** The little-endian word of up to four bytes. *)
Fixpoint word_of (l : list Z) : Z :=
  match l with
  | [] => 0
  | b :: l' => Z.lxor b (Z.shiftl (word_of l') 8)
  end.

Lemma word_of_range l : is_bytes l -> 0 <= word_of l < 2 ^ (8 * Z.of_nat (length l)).
Proof.
  induction l as [|b l IH]; intros Hb; [simpl; lia|].
  apply Forall_cons in Hb as [Hb Hl]. specialize (IH Hl). simpl length.
  replace (8 * Z.of_nat (S (length l))) with (8 + 8 * Z.of_nat (length l)) by lia.
  set (n := 8 * Z.of_nat (length l)) in *. assert (0 <= n) by lia.
  cbn [word_of]. apply lxor_width; [lia|..].
  - unfold is_u8 in Hb. assert (2 ^ 8 <= 2 ^ (8 + n)) by (apply Z.pow_le_mono_r; lia). lia.
  - rewrite Z.shiftl_mul_pow2, Z.pow_add_r by lia. lia.
Qed.

Lemma word_of_inj l1 l2 :
  is_bytes l1 -> is_bytes l2 -> length l1 = length l2 -> word_of l1 = word_of l2 -> l1 = l2.
Proof.
  revert l2. induction l1 as [|a l1 IH]; intros [|b l2] H1 H2 Hl; [done..|].
  apply Forall_cons in H1 as [Ha H1]. apply Forall_cons in H2 as [Hb H2].
  simpl in Hl. intros H. cbn [word_of] in H. unfold is_u8 in *.
  assert (a = b) as ->.
  { apply Z.bits_inj'. intros n Hn. apply (f_equal (fun z => Z.testbit z n)) in H.
    rewrite !Z.lxor_spec in H. destruct (decide (n < 8)).
    - rewrite !Z.shiftl_spec_low in H by lia. by rewrite !xorb_false_r in H.
    - by rewrite (bits_above a 8), (bits_above b 8) by lia. }
  f_equal. apply IH; [done..|lia|].
  apply (f_equal (Z.lxor b)) in H. rewrite <- !Z.lxor_assoc, !Z.lxor_nilpotent, !Z.lxor_0_l in H.
  apply (f_equal (fun z => Z.shiftr z 8)) in H. by rewrite !Z.shiftr_shiftl_l, !Z.shiftl_0_r in H by lia.
Qed.

(** Up to four bytes are absorbed as one word. *)
Lemma crc_fold_word c l :
  is_bytes l -> (length l <= 4)%nat ->
  crc_fold c l = Nat.iter (8 * length l) crc_bit (Z.lxor c (word_of l)).
Proof.
  revert c. induction l as [|b l IH]; intros c Hb Hl.
  { simpl. by rewrite Z.lxor_0_r. }
  apply Forall_cons in Hb as [Hb Hd]. simpl in Hl.
  change (crc_fold c (b :: l)) with (crc_fold (crc_byte c b) l).
  rewrite IH by (done || lia). simpl length.
  replace (8 * S (length l))%nat with (8 * length l + 8)%nat by lia.
  rewrite Nat.iter_add. f_equal. unfold crc_byte. cbn [word_of].
  rewrite <- (crc_iter_shift 8 (word_of l)) at 1.
  rewrite <- (linear_iter crc_bit 8 _). change (Z.of_nat 8) with 8.
  by rewrite Z.lxor_assoc.
Qed.

(** The hardware path and the bitwise fallback return the same checksum:
    whatever the CPU reports and the cache holds, [crc32c] of a buffer is
    [crc32c_software], when the [crc32b] instruction does what its manual says. *)
Theorem crc32c_paths_agree crc32b ecx cached data length :
  (forall dest src, is_u32 dest -> is_u8 src -> crc32b dest src = sdm_crc32b dest src) ->
  is_bytes data -> (length <= List.length data)%nat ->
  crc32c crc32b ecx cached (Some data) length = crc32c_software data length.
Proof.
  intros Hsdm Hb Hl. unfold crc32c. case_if; [|done].
  unfold crc32c_hardware, crc32c_software.
  rewrite (for_n_bytes crc32b), (for_n_bytes crc_byte) by done. f_equal.
  assert (is_bytes (take length data)) as Ht by by apply Forall_take.
  assert (is_u32 0xFFFFFFFF) as Hc by (unfold is_u32; lia). clear Hb Hl Hif.
  revert Ht Hc. generalize 0xFFFFFFFF. generalize (take length data). clear data length.
  intros data. induction data as [|b data IH]; intros c Ht Hc; [done|].
  apply Forall_cons in Ht as [Hb Ht]. simpl. rewrite Hsdm, sdm_crc_byte by done.
  by apply IH; [|apply crc_byte_range].
Qed.

(** CRC32C detects every corruption confined to four consecutive bytes:
    two buffers of equal length that differ only inside such a window never
    have the same checksum. *)
Theorem crc32c_detects_burst pre w1 w2 post :
  is_bytes pre -> is_bytes w1 -> is_bytes w2 -> is_bytes post ->
  length w1 = length w2 -> (length w1 <= 4)%nat -> w1 <> w2 ->
  crc32c_software (pre ++ w1 ++ post) (length (pre ++ w1 ++ post)) <>
  crc32c_software (pre ++ w2 ++ post) (length (pre ++ w2 ++ post)).
Proof.
  intros Hp H1 H2 Hq Hlen Hle Hne H. apply Hne.
  rewrite !software_fold, !take_ge in H by done.
  apply (f_equal (fun z => Z.lxor z 0xFFFFFFFF)) in H.
  rewrite !Z.lxor_assoc, !Z.lxor_nilpotent, !Z.lxor_0_r in H.
  unfold crc_fold in H. rewrite !foldl_app in H.
  set (c := foldl crc_byte 0xFFFFFFFF pre) in *.
  assert (is_u32 c) as Hc by (apply crc_fold_range; [words|done]).
  apply crc_fold_inj_state in H; [|by apply crc_fold_range..|done].
  change (crc_fold c w1 = crc_fold c w2) in H.
  rewrite !crc_fold_word in H by (done || lia). rewrite Hlen in H.
  assert (forall w, is_bytes w -> (length w <= 4)%nat -> is_u32 (Z.lxor c (word_of w))) as Hw.
  { intros w Hb Hl. apply (lxor_width 32); [lia|done|].
    pose proof (word_of_range w Hb).
    assert (2 ^ (8 * Z.of_nat (length w)) <= 2 ^ 32) by (apply Z.pow_le_mono_r; lia). lia. }
  apply crc_iter_inj in H; [|apply Hw; (done || lia)..].
  apply (f_equal (Z.lxor c)) in H. rewrite <- !Z.lxor_assoc, Z.lxor_nilpotent, !Z.lxor_0_l in H.
  by apply word_of_inj.
Qed.

(** The standard check vector, the ASCII digits 1 to 9. *)
Example crc32c_check_vector :
  crc32c_software [0x31; 0x32; 0x33; 0x34; 0x35; 0x36; 0x37; 0x38; 0x39] 9 = 0xE3069283.
Proof. vm_compute. reflexivity. Qed.

Lemma crc32c_paths_agree_witness :
  crc32c sdm_crc32b CPUID_ECX_SSE42 (-1) (Some [1; 2; 3]) 3 = crc32c_software [1; 2; 3] 3.
Proof.
  apply crc32c_paths_agree; [done| |simpl; lia].
  repeat constructor; unfold is_u8; lia.
Defined.

Lemma crc32c_detects_burst_witness :
  crc32c_software ([7] ++ [1; 2] ++ [9]) (length ([7] ++ [1; 2] ++ [9])) <>
  crc32c_software ([7] ++ [1; 3] ++ [9]) (length ([7] ++ [1; 3] ++ [9])).
Proof.
  apply crc32c_detects_burst; try done; try (simpl; lia);
    repeat constructor; unfold is_u8; lia.
Defined.

End Crc32c.
