(* ===== verification/Pmm.v ===== *)
(** Physical memory manager: [src/core/pmm.c].

    The state is the allocation bitmap, the RAM bitmap, the 16-bit page
    reference counts, the free count and the two limits, together with the
    physical memory that [pmm_take_page] clears.  Arrays are total functions
    from indices, since the loops that fill them fill all of them.  Each
    function is one step: the critical sections under [pmm_klock] are atomic
    by the mutual exclusion proved in [Klock].  A panic is [None].  Warnings
    printed to the serial port are not modelled. *)

From S2P Require Import Prelude.

Module Pmm.

Definition PAGE_SIZE : Z := 4096.

Definition BITMAP_SIZE : Z := 0x20000.

Definition BITMAP_BITS : Z := BITMAP_SIZE * 8.

Definition E820_USABLE : Z := 1.

Definition U64_MAX : Z := 0xFFFFFFFFFFFFFFFF.

Record e820_entry := E820Entry { addr : Z; len : Z; type : Z }.

Record pmm := Pmm {
  bitmap : Z -> Z;
  ram_bitmap : Z -> Z;
  page_refs : Z -> Z;
  free_pages : Z;
  max_page : Z;
  alloc_page_limit : Z;
  memory : Z -> Z
}.

Definition set_bitmap (b : Z -> Z) (free : Z) (s : pmm) : pmm :=
  Pmm b (ram_bitmap s) (page_refs s) free (max_page s) (alloc_page_limit s) (memory s).

Definition set_refs (r : Z -> Z) (s : pmm) : pmm :=
  Pmm (bitmap s) (ram_bitmap s) r (free_pages s) (max_page s) (alloc_page_limit s) (memory s).

(** [bitmap[page / 8] & (1u << (page % 8))] *)
Definition bit_at (b : Z -> Z) (page : Z) : bool := bit_of (b (page / 8)) (page mod 8).

(** [bitmap[page / 8] |= mask] *)
Definition bit_set (b : Z -> Z) (page : Z) : Z -> Z :=
  upd b (page / 8) (u8 (Z.lor (b (page / 8)) (u8 (Z.shiftl 1 (page mod 8))))).

(** [bitmap[page / 8] &= (u8)~mask] *)
Definition bit_clear (b : Z -> Z) (page : Z) : Z -> Z :=
  upd b (page / 8) (u8 (Z.land (b (page / 8)) (u8 (Z.lnot (u8 (Z.shiftl 1 (page mod 8))))))).

(** [for (a = first; a < end; a += PAGE_SIZE)] over a page-aligned [first];
    the body sees the page number. *)
Definition for_pages {S} (first end_ : Z) (body : Z -> S -> S) (s : S) : S :=
  for_from (Z.to_nat ((end_ - first + (PAGE_SIZE - 1)) / PAGE_SIZE)) (first / PAGE_SIZE) body s.

Definition align_down (a : Z) : Z := Z.land a (U64_MAX - (PAGE_SIZE - 1)).

(** The body shared by [pmm_reserve] and [pmm_set_alloc_limit]. *)
Definition reserve_page (page : Z) (s : pmm) : pmm :=
  if negb (bit_at (bitmap s) page)
  then set_bitmap (bit_set (bitmap s) page) (u32 (free_pages s - 1)) s
  else s.

Definition pmm_reserve (a l : Z) (s : pmm) : pmm :=
  if negb (nz l) then s else
  let managed_end := BITMAP_BITS * PAGE_SIZE in
  let first := align_down a in
  let end_ := u64 (a + l) in
  let end_ :=
    if U64_MAX - (PAGE_SIZE - 1) <? end_ then U64_MAX
    else align_down (u64 (end_ + PAGE_SIZE - 1)) in
  if managed_end <=? first then s else
  let end_ := if managed_end <? end_ then managed_end else end_ in
  for_pages first end_ reserve_page s.

(** The page of one usable range. *)
Definition init_page (page : Z) (s : pmm) : pmm :=
  if page <? BITMAP_BITS then
    let s := Pmm (bitmap s) (bit_set (ram_bitmap s) page) (page_refs s) (free_pages s)
               (max_page s) (alloc_page_limit s) (memory s) in
    let s :=
      if bit_at (bitmap s) page
      then set_bitmap (bit_clear (bitmap s) page) (u32 (free_pages s + 1)) s
      else s in
    if max_page s <? u32 page
    then Pmm (bitmap s) (ram_bitmap s) (page_refs s) (free_pages s) (u32 page)
           (alloc_page_limit s) (memory s)
    else s
  else s.

Definition init_usable (entry : e820_entry) (s : pmm) : pmm :=
  if negb (type entry =? E820_USABLE) then s else
  let region_end := u64 (addr entry + len entry) in
  let region_end := if region_end <? addr entry then U64_MAX else region_end in
  let start := align_down (u64 (addr entry + PAGE_SIZE - 1)) in
  let end_ := align_down region_end in
  let start := if start <? addr entry then U64_MAX else start in
  for_pages start end_ init_page s.

Definition init_reserved (entry : e820_entry) (s : pmm) : pmm :=
  let managed_end := BITMAP_BITS * PAGE_SIZE in
  if (type entry =? E820_USABLE) || (managed_end <=? addr entry) then s else
  let length :=
    if managed_end - addr entry <? len entry then managed_end - addr entry else len entry in
  pmm_reserve (addr entry) length s.

(** [map] reads the entry at [mmap_addr + index * entry_size]. *)
Definition pmm_init (map : nat -> e820_entry) (mmap_length entry_size kernel_end : Z)
    (mem : Z -> Z) : option pmm :=
  if (entry_size <? 20) || negb (nz mmap_length) || nz (mmap_length mod entry_size)
  then None else
  let s := Pmm (fun _ => 0xFF) (fun _ => 0) (fun _ => 0) 0 0 BITMAP_BITS mem in
  let count := Z.to_nat (mmap_length / entry_size) in
  let s := for_n count (fun index s => init_usable (map index) s) s in
  let s := for_n count (fun index s => init_reserved (map index) s) s in
  let s := pmm_reserve 0 0x100000 s in
  Some (pmm_reserve 0x100000 (u64 (kernel_end - 0x100000)) s).

Definition pmm_set_alloc_limit (end_ : Z) (s : pmm) : pmm :=
  let pages := end_ / PAGE_SIZE in
  let pages := if BITMAP_BITS <? pages then BITMAP_BITS else pages in
  let s := Pmm (bitmap s) (ram_bitmap s) (page_refs s) (free_pages s) (max_page s)
             (u32 pages) (memory s) in
  for_range (alloc_page_limit s) BITMAP_BITS reserve_page s.

(** Claims the page and clears its 4096 bytes. *)
Definition pmm_take_page (page : Z) (s : pmm) : Z * pmm :=
  let phys := page * PAGE_SIZE in
  (phys,
   Pmm (bit_set (bitmap s) page) (ram_bitmap s) (upd (page_refs s) page 1)
     (u32 (free_pages s - 1)) (max_page s) (alloc_page_limit s)
     (fun a => if (phys <=? a) && (a <? phys + PAGE_SIZE) then 0 else memory s a)).

Definition page_free (s : pmm) (page : Z) : bool := negb (bit_at (bitmap s) page).

(** The scan loops: take the first free page of the range. *)
Definition take_first (from to : Z) (s : pmm) : option (Z * pmm) :=
  match scan_range from to (page_free s) with
  | Some page => Some (pmm_take_page page s)
  | None => None
  end.

Definition pmm_alloc_page_range (start end_ : Z) (s : pmm) : Z * pmm :=
  if end_ <=? start then (0, s) else
  if U64_MAX - (PAGE_SIZE - 1) <? start then (0, s) else
  let first64 := (start + PAGE_SIZE - 1) / PAGE_SIZE in
  let limit64 := end_ / PAGE_SIZE in
  if BITMAP_BITS <=? first64 then (0, s) else
  let limit64 := if alloc_page_limit s <? limit64 then alloc_page_limit s else limit64 in
  let limit64 := if max_page s + 1 <? limit64 then max_page s + 1 else limit64 in
  let first64 := if first64 <? 1 then 1 else first64 in
  match take_first (u32 first64) (u32 limit64) s with
  | Some r => r
  | None => (0, s)
  end.

Definition pmm_alloc_page (s : pmm) : Z * pmm :=
  let high_start := 0x1000000 / PAGE_SIZE in
  let limit := u32 (max_page s + 1) in
  let limit := if alloc_page_limit s <? limit then alloc_page_limit s else limit in
  match take_first high_start limit s with
  | Some r => r
  | None =>
      match take_first 1 (Z.min high_start limit) s with
      | Some r => r
      | None => (0, s)
      end
  end.

Definition pmm_alloc_page_low (s : pmm) : Z * pmm :=
  let limit := 0x1000000 / PAGE_SIZE in
  let limit := if alloc_page_limit s <? limit then alloc_page_limit s else limit in
  let limit := if u32 (max_page s + 1) <? limit then u32 (max_page s + 1) else limit in
  match take_first 1 limit s with
  | Some r => r
  | None => (0, s)
  end.

(** The run scan of [pmm_alloc_contiguous]; [n] pages remain from [page]. *)
Fixpoint find_run (n : nat) (free : Z -> bool) (pages page run run_start : Z) : option Z :=
  match n with
  | O => None
  | S n =>
      if free page then
        let run_start := if run =? 0 then page else run_start in
        let run := run + 1 in
        if run =? pages then Some run_start
        else find_run n free pages (page + 1) run run_start
      else find_run n free pages (page + 1) 0 run_start
  end.

(** Marks one page of the run. *)
Definition claim_page (page : Z) (s : pmm) : pmm :=
  Pmm (bit_set (bitmap s) page) (ram_bitmap s) (upd (page_refs s) page 1)
    (free_pages s) (max_page s) (alloc_page_limit s) (memory s).

Definition pmm_alloc_contiguous (pages max_addr : Z) (s : pmm) : Z * pmm :=
  if negb (nz pages) || (free_pages s <? pages) then (0, s) else
  let address_limit := u64 (max_addr + 1) in
  let page_limit :=
    if nz address_limit then u32 (address_limit / PAGE_SIZE) else alloc_page_limit s in
  let page_limit := if alloc_page_limit s <? page_limit then alloc_page_limit s else page_limit in
  let page_limit :=
    if u32 (max_page s + 1) <? page_limit then u32 (max_page s + 1) else page_limit in
  if page_limit <? pages then (0, s) else
  match find_run (Z.to_nat (page_limit - 1)) (page_free s) pages 1 0 0 with
  | None => (0, s)
  | Some run_start =>
      let s := for_range run_start (run_start + pages) claim_page s in
      (u32 (run_start * PAGE_SIZE),
       set_bitmap (bitmap s) (u32 (free_pages s - pages)) s)
  end.

(** The three panics are [None]. *)
Definition pmm_free_page (a : Z) (s : pmm) : option pmm :=
  if nz (Z.land a (PAGE_SIZE - 1)) then None else
  let page := a / PAGE_SIZE in
  if negb (nz page) || (BITMAP_BITS <=? page) then None else
  if negb (nz (page_refs s page)) then None else
  let refs := u16 (page_refs s page - 1) in
  let s := set_refs (upd (page_refs s) page refs) s in
  if negb (nz refs)
  then Some (set_bitmap (bit_clear (bitmap s) page) (u32 (free_pages s + 1)) s)
  else Some s.

Definition pmm_retain_page (a : Z) (s : pmm) : Z * pmm :=
  if nz (Z.land a (PAGE_SIZE - 1)) then (-1, s) else
  let page := a / PAGE_SIZE in
  if BITMAP_BITS <=? page then (-1, s) else
  if negb (nz (page_refs s page)) || (page_refs s page =? 0xFFFF) then (-1, s)
  else (0, set_refs (upd (page_refs s) page (u16 (page_refs s page + 1))) s).

Definition pmm_page_refs (a : Z) (s : pmm) : Z :=
  if BITMAP_BITS <=? a / PAGE_SIZE then 0 else page_refs s (a / PAGE_SIZE).

Definition pmm_free_pages (s : pmm) : Z := free_pages s.

Definition pmm_range_is_ram (a l : Z) (s : pmm) : bool :=
  if negb (nz l) then false else
  let start := align_down a in
  let end_ := if U64_MAX - a <? l then U64_MAX else a + l in
  let end_ := if 0x100000000 <? end_ then 0x100000000 else end_ in
  let end_ := if end_ <? 0x100000000 then align_down (u64 (end_ + PAGE_SIZE - 1)) else end_ in
  match scan_from (Z.to_nat ((end_ - start + (PAGE_SIZE - 1)) / PAGE_SIZE)) (start / PAGE_SIZE)
          (fun page => (page <? BITMAP_BITS) && bit_at (ram_bitmap s) page) with
  | Some _ => true
  | None => false
  end.

#[global] Arguments BITMAP_BITS : simpl never.

Lemma BITMAP_BITS_val : BITMAP_BITS = 0x100000.
Proof. reflexivity. Qed.

(** ** Bitmaps *)

Lemma page_index_inj p q : p / 8 = q / 8 -> p mod 8 = q mod 8 -> p = q.
Proof. intros. dmlia. Qed.

Lemma bit_at_set b p q : bit_at (bit_set b p) q = (q =? p) || bit_at b q.
Proof.
  unfold bit_at, bit_set, upd.
  assert (0 <= q mod 8 < 8) by dmlia. assert (0 <= p mod 8 < 8) by dmlia.
  rewrite !bit_of_testbit by lia.
  destruct (Z.eqb_spec (q / 8) (p / 8)) as [Hd|Hd].
  - rewrite u8_testbit, Z.lor_spec, u8_testbit, shiftl1_bit, Hd by lia.
    rewrite orb_comm. f_equal.
    destruct (Z.eqb_spec (p mod 8) (q mod 8)), (Z.eqb_spec q p); subst; try done.
    exfalso. by eauto using page_index_inj.
  - destruct (Z.eqb_spec q p); subst; done.
Qed.

Lemma bit_at_clear b p q : bit_at (bit_clear b p) q = negb (q =? p) && bit_at b q.
Proof.
  unfold bit_at, bit_clear, upd.
  assert (0 <= q mod 8 < 8) by dmlia. assert (0 <= p mod 8 < 8) by dmlia.
  rewrite !bit_of_testbit by lia.
  destruct (Z.eqb_spec (q / 8) (p / 8)) as [Hd|Hd].
  - rewrite u8_testbit, Z.land_spec, u8_testbit, Z.lnot_spec, u8_testbit, shiftl1_bit, Hd by lia.
    rewrite andb_comm. f_equal. f_equal.
    destruct (Z.eqb_spec (p mod 8) (q mod 8)), (Z.eqb_spec q p); subst; try done.
    exfalso. by eauto using page_index_inj.
  - destruct (Z.eqb_spec q p); subst; done.
Qed.

(** ** Invariant *)

Definition page_in (p : Z) : Prop := 0 <= p < BITMAP_BITS.

Definition used (s : pmm) (p : Z) : Prop := bit_at (bitmap s) p = true.

Definition is_ram (s : pmm) (p : Z) : Prop := bit_at (ram_bitmap s) p = true.

(** The number of clear bits of the allocation bitmap. *)
Definition count_free (b : Z -> Z) : Z :=
  count_from (Z.to_nat BITMAP_BITS) 0 (fun p => negb (bit_at b p)).

Record base (s : pmm) : Prop := {
  base_free : free_pages s = count_free (bitmap s);
  base_refs : forall p, 0 <= page_refs s p <= 0xFFFF;
  base_used : forall p, page_in p -> page_refs s p <> 0 -> used s p;
  base_ram : forall p, page_in p -> ~ used s p \/ page_refs s p <> 0 -> is_ram s p;
  base_max : forall p, page_in p -> is_ram s p -> p <= max_page s;
  base_max_range : 0 <= max_page s < BITMAP_BITS;
  base_limit : 0 <= alloc_page_limit s <= BITMAP_BITS
}.

(** Page 0 is never handed out. *)
Record inv (s : pmm) : Prop := {
  inv_base : base s;
  inv_zero : used s 0 /\ page_refs s 0 = 0
}.

Lemma count_free_bounds b : 0 <= count_free b <= BITMAP_BITS.
Proof.
  unfold count_free.
  pose proof (count_from_range (Z.to_nat BITMAP_BITS) 0 (fun p => negb (bit_at b p))).
  rewrite BITMAP_BITS_val in *. lia.
Qed.

Lemma count_free_set b p :
  page_in p -> bit_at b p = false -> count_free (bit_set b p) = count_free b - 1.
Proof.
  intros Hp Hb. unfold count_free.
  rewrite (count_from_upd _ _ (fun p => negb (bit_at b p)) _ p).
  - rewrite bit_at_set, Z.eqb_refl, Hb. simpl. lia.
  - unfold page_in in Hp. lia.
  - intros q Hq. rewrite bit_at_set. by rewrite (proj2 (Z.eqb_neq q p) Hq).
Qed.

Lemma count_free_clear b p :
  page_in p -> bit_at b p = true -> count_free (bit_clear b p) = count_free b + 1.
Proof.
  intros Hp Hb. unfold count_free.
  rewrite (count_from_upd _ _ (fun p => negb (bit_at b p)) _ p).
  - rewrite bit_at_clear, Z.eqb_refl, Hb. simpl. lia.
  - unfold page_in in Hp. lia.
  - intros q Hq. rewrite bit_at_clear. by rewrite (proj2 (Z.eqb_neq q p) Hq).
Qed.

Lemma not_used s p : ~ used s p <-> bit_at (bitmap s) p = false.
Proof. unfold used. by rewrite not_true_iff_false. Qed.

Lemma page_free_iff s p : page_free s p = true <-> ~ used s p.
Proof. unfold page_free. by rewrite negb_true_iff, not_used. Qed.

Lemma base_free_pos s p : base s -> page_in p -> ~ used s p -> 0 < free_pages s.
Proof.
  intros Hb Hp Hu. rewrite (base_free s Hb). unfold count_free.
  apply (count_from_pos _ _ _ p); [unfold page_in in Hp; lia|].
  by rewrite negb_true_iff, <- not_used.
Qed.

Lemma base_free_u32 s : base s -> is_u32 (free_pages s).
Proof.
  intros Hb. rewrite (base_free s Hb). pose proof (count_free_bounds (bitmap s)) as Hc.
  rewrite BITMAP_BITS_val in Hc. unfold is_u32. lia.
Qed.

(** A free page becomes used, with any reference count. *)
Lemma base_mark s p r' mem' :
  base s -> page_in p -> ~ used s p ->
  (forall q, q <> p -> r' q = page_refs s q) -> 0 <= r' p <= 0xFFFF ->
  base (Pmm (bit_set (bitmap s) p) (ram_bitmap s) r' (u32 (free_pages s - 1)) (max_page s)
          (alloc_page_limit s) mem').
Proof.
  intros Hb Hp Hu Hr Hrp. pose proof (base_free_pos s p Hb Hp Hu).
  pose proof (base_free_u32 s Hb). split; unfold used, is_ram; simpl.
  - rewrite count_free_set, <- (base_free s Hb) by (done || by apply not_used).
    apply u32_small. unfold is_u32 in *. lia.
  - intros q. destruct (decide (q = p)) as [->|Hq]; [done|]. rewrite Hr by done. by apply base_refs.
  - intros q Hq Hrq. rewrite bit_at_set. destruct (Z.eqb_spec q p) as [->|Hne]; [done|].
    rewrite Hr in Hrq by done. by apply (base_used s Hb).
  - intros q Hq Hor. destruct (decide (q = p)) as [->|Hne]; [apply (base_ram s Hb); auto|].
    rewrite bit_at_set, (proj2 (Z.eqb_neq q p) Hne), Hr in Hor by done.
    by apply (base_ram s Hb).
  - by apply base_max.
  - by apply base_max_range.
  - by apply base_limit.
Qed.

(** A used page of RAM becomes free. *)
Lemma base_release s p r' mem' :
  base s -> page_in p -> used s p -> is_ram s p ->
  (forall q, q <> p -> r' q = page_refs s q) -> r' p = 0 ->
  base (Pmm (bit_clear (bitmap s) p) (ram_bitmap s) r' (u32 (free_pages s + 1)) (max_page s)
          (alloc_page_limit s) mem').
Proof.
  intros Hb Hp Hu Hram Hr Hz.
  pose proof (count_free_bounds (bit_clear (bitmap s) p)) as Hc.
  rewrite count_free_clear, BITMAP_BITS_val in Hc by done. split; unfold used, is_ram; simpl.
  - rewrite count_free_clear, <- (base_free s Hb) in * by done.
    apply u32_small. unfold is_u32. lia.
  - intros q. destruct (decide (q = p)) as [->|Hq]; [lia|]. rewrite Hr by done. by apply base_refs.
  - intros q Hq Hrq. rewrite bit_at_clear. destruct (Z.eqb_spec q p) as [->|Hne]; [done|].
    rewrite Hr in Hrq by done. by apply (base_used s Hb).
  - intros q Hq Hor. destruct (decide (q = p)) as [->|Hne]; [done|].
    rewrite bit_at_clear, (proj2 (Z.eqb_neq q p) Hne), Hr in Hor by done.
    by apply (base_ram s Hb).
  - by apply base_max.
  - by apply base_max_range.
  - by apply base_limit.
Qed.

Lemma base_set_refs s p v :
  base s -> page_in p -> page_refs s p <> 0 -> 0 < v <= 0xFFFF ->
  base (set_refs (upd (page_refs s) p v) s).
Proof.
  intros Hb Hp Hr Hv. split; unfold used, is_ram; simpl; try apply Hb.
  - intros q. destruct (decide (q = p)) as [->|Hq]; [rewrite upd_eq; lia|].
    rewrite upd_ne by done. by apply base_refs.
  - intros q Hq Hrq. destruct (decide (q = p)) as [->|Hne]; [by apply (base_used s Hb)|].
    rewrite upd_ne in Hrq by done. by apply (base_used s Hb).
  - intros q Hq Hor. apply (base_ram s Hb q Hq).
    destruct (decide (q = p)) as [->|Hne]; [by right|]. by rewrite upd_ne in Hor by done.
Qed.

Lemma inv_page_pos s p : inv s -> page_in p -> ~ used s p -> 0 < p.
Proof.
  intros [_ [Hz _]] Hp Hu. destruct (decide (p = 0)) as [->|]; [done|]. unfold page_in in Hp. lia.
Qed.

(** ** Reservations *)

Lemma reserve_page_base p s : page_in p -> base s -> base (reserve_page p s).
Proof.
  intros Hp Hb. unfold reserve_page. case_if; [|done].
  apply base_mark; try done; [|by apply base_refs]. apply negb_true_iff in Hif. by apply not_used.
Qed.

Lemma reserve_page_used p q s : used (reserve_page p s) q <-> q = p \/ used s q.
Proof.
  unfold reserve_page, used. destruct (bit_at (bitmap s) p) eqn:Hb; simpl.
  - split; [auto|]. by intros [->|?].
  - by rewrite bit_at_set, orb_true_iff, Z.eqb_eq.
Qed.

Lemma reserve_page_refs p s : page_refs (reserve_page p s) = page_refs s.
Proof. unfold reserve_page. by case_if. Qed.

(** A reservation loop over [from .. from + n) only adds used pages. *)
Lemma reserve_loop n from s :
  0 <= from -> from + Z.of_nat n <= BITMAP_BITS -> base s ->
  base (for_from n from reserve_page s) /\
  page_refs (for_from n from reserve_page s) = page_refs s /\
  forall q, used (for_from n from reserve_page s) q <->
            from <= q < from + Z.of_nat n \/ used s q.
Proof.
  intros Hf Hn Hb.
  apply (for_from_ind (fun i s' => base s' /\ page_refs s' = page_refs s /\
    forall q, used s' q <-> from <= q < i \/ used s q)).
  - split_and!; [done..|]. intros q. split; [auto|]. intros [?|?]; [lia|done].
  - intros i s' Hi (Hb' & Hr & Hu). split_and!.
    + apply reserve_page_base; [unfold page_in; lia|done].
    + by rewrite reserve_page_refs.
    + intros q. rewrite reserve_page_used, Hu.
      split; [intros [->|[?|?]]|intros [?|?]]; [left; lia|left; lia|auto| |auto].
      destruct (decide (q = i)); [auto|]. right. left. lia.
Qed.

Lemma align_down_value a : is_u64 a -> align_down a = a / 4096 * 4096.
Proof.
  intros Ha. unfold align_down. change (U64_MAX - (PAGE_SIZE - 1)) with (2 ^ 64 - 2 ^ 12).
  by apply land_high_mask.
Qed.

(** [pmm_reserve] only adds used pages, and every managed page that the byte
    range touches is used afterwards. *)
Lemma pmm_reserve_spec a l s :
  is_u64 a -> is_u64 l -> base s ->
  base (pmm_reserve a l s) /\ page_refs (pmm_reserve a l s) = page_refs s /\
  (forall q, used s q -> used (pmm_reserve a l s) q) /\
  (is_u64 (a + l) -> 0 < l -> forall q, page_in q -> a / 4096 <= q <= (a + l - 1) / 4096 ->
   used (pmm_reserve a l s) q).
Proof.
  intros Ha Hl Hb. unfold pmm_reserve.
  destruct (nz l) eqn:Hz; cbn [negb]; [|apply nz_false in Hz; split_and!; auto; lia].
  rewrite (align_down_value a) by done. unfold PAGE_SIZE.
  destruct (Z.leb_spec (BITMAP_BITS * 4096) (a / 4096 * 4096)) as [Hm|Hm].
  { split_and!; auto. intros _ _ q Hq ?. unfold page_in in Hq. lia. }
  set (e := if U64_MAX - (4096 - 1) <? u64 (a + l) then _ else _).
  set (E := if BITMAP_BITS * 4096 <? e then _ else e).
  assert (E <= BITMAP_BITS * 4096) as HE by (unfold E; case_if; boolify; lia).
  unfold for_pages, PAGE_SIZE. rewrite Z.div_mul by lia.
  set (n := Z.to_nat ((E - a / 4096 * 4096 + (4096 - 1)) / 4096)).
  assert (a / 4096 + Z.of_nat n <= BITMAP_BITS) as Hn.
  { unfold n. rewrite BITMAP_BITS_val in *. dmlia. }
  destruct (reserve_loop n (a / 4096) s) as (Hb' & Hr & Hu); [|done|done|].
  { unfold is_u64 in Ha. dmlia. }
  split_and!; [done..| |].
  - intros q Hq. apply Hu. by right.
  - intros Hal Hpos q Hq Hr'. apply Hu. left. split; [lia|].
    cut (q * 4096 < E); [unfold n; intros; dmlia|].
    unfold E, e. rewrite u64_small by done. unfold U64_MAX. unfold page_in in Hq.
    destruct (Z.ltb_spec (0xFFFFFFFFFFFFFFFF - (4096 - 1)) (a + l)).
    + rewrite BITMAP_BITS_val in *. destruct (Z.ltb_spec (0x100000 * 4096) 0xFFFFFFFFFFFFFFFF); lia.
    + rewrite u64_small by (unfold is_u64 in *; lia).
      rewrite align_down_value by (unfold is_u64 in *; lia).
      case_if; [lia|]. dmlia.
Qed.

Lemma set_alloc_limit_spec e s :
  is_u64 e -> base s ->
  base (pmm_set_alloc_limit e s) /\ page_refs (pmm_set_alloc_limit e s) = page_refs s /\
  (forall q, used s q -> used (pmm_set_alloc_limit e s) q).
Proof.
  intros He Hb. unfold pmm_set_alloc_limit.
  set (pages := if BITMAP_BITS <? e / PAGE_SIZE then _ else _).
  assert (0 <= pages <= BITMAP_BITS) as Hp.
  { unfold pages, PAGE_SIZE, is_u64 in *. rewrite BITMAP_BITS_val. case_if; boolify; [lia|dmlia]. }
  rewrite u32_small by (rewrite BITMAP_BITS_val in Hp; unfold is_u32; lia).
  unfold for_range. cbn [alloc_page_limit]. edestruct reserve_loop as (Hb' & Hr & Hu).
  4: { split_and!; [exact Hb'|rewrite Hr; reflexivity|]. intros q Hq. apply Hu. by right. }
  - lia.
  - lia.
  - split; try apply Hb. simpl. lia.
Qed.

(** ** Initialisation *)

(** During [pmm_init] no page is referenced yet. *)
Definition init_inv (s : pmm) : Prop := base s /\ forall p, page_refs s p = 0.

Lemma base_add_ram s p :
  base s -> page_in p ->
  base (Pmm (bitmap s) (bit_set (ram_bitmap s) p) (page_refs s) (free_pages s)
          (Z.max (max_page s) p) (alloc_page_limit s) (memory s)).
Proof.
  intros Hb Hp. pose proof (base_max_range s Hb) as Hm. unfold page_in in Hp.
  split; unfold used, is_ram; simpl; try apply Hb; try lia.
  - intros q Hq Hor. rewrite bit_at_set. rewrite (base_ram s Hb q Hq Hor). apply orb_true_r.
  - intros q Hq. rewrite bit_at_set, orb_true_iff, Z.eqb_eq. intros [->|Hr]; [lia|].
    pose proof (base_max s Hb q Hq Hr). lia.
Qed.

Lemma init_page_eq p s :
  page_in p ->
  init_page p s =
  Pmm (if bit_at (bitmap s) p then bit_clear (bitmap s) p else bitmap s)
    (bit_set (ram_bitmap s) p) (page_refs s)
    (if bit_at (bitmap s) p then u32 (free_pages s + 1) else free_pages s)
    (Z.max (max_page s) p) (alloc_page_limit s) (memory s).
Proof.
  intros Hp. unfold init_page, page_in in *.
  destruct (Z.ltb_spec p BITMAP_BITS); [|lia].
  rewrite (u32_small p) by (rewrite BITMAP_BITS_val in Hp; unfold is_u32; lia). simpl.
  destruct (bit_at (bitmap s) p); simpl; destruct (Z.ltb_spec (max_page s) p); unfold set_bitmap;
    simpl; f_equal; lia.
Qed.

Lemma init_page_inv p s : 0 <= p -> init_inv s -> init_inv (init_page p s).
Proof.
  intros Hp [Hb Hr]. destruct (decide (p < BITMAP_BITS)) as [Hlt|Hge].
  - rewrite init_page_eq by done. split; [|done].
    pose proof (base_add_ram s p Hb ltac:(done)) as Hram. case_if; [|done].
    apply (base_release _ p (page_refs s) (memory s) Hram); try done.
    unfold is_ram. simpl. by rewrite bit_at_set, Z.eqb_refl.
  - unfold init_page. destruct (Z.ltb_spec p BITMAP_BITS); [lia|done].
Qed.

Lemma init_pages_inv n from s :
  0 <= from -> init_inv s -> init_inv (for_from n from init_page s).
Proof.
  intros Hf Hs. apply (for_from_ind (fun _ => init_inv)); [done|].
  intros i s' Hi. apply init_page_inv. lia.
Qed.

Definition entry_ok (e : e820_entry) : Prop := is_u64 (addr e) /\ is_u64 (len e).

Lemma init_usable_inv e s : init_inv s -> init_inv (init_usable e s).
Proof.
  intros Hs. unfold init_usable. case_if; [done|].
  apply init_pages_inv; [|done]. unfold PAGE_SIZE.
  apply Z.div_pos; [|lia]. case_if; [unfold U64_MAX; lia|].
  unfold align_down. apply Z.land_nonneg. left. unfold u64. dmlia.
Qed.

Lemma init_reserved_inv e s : entry_ok e -> init_inv s -> init_inv (init_reserved e s).
Proof.
  intros [Ha Hl] [Hb Hr]. unfold init_reserved.
  destruct ((type e =? E820_USABLE) || _) eqn:Hc; [done|].
  apply orb_false_iff in Hc as [_ Hm%Z.leb_gt].
  set (l := if _ <? len e then _ else len e).
  assert (is_u64 l) as Hl'.
  { unfold l, is_u64, PAGE_SIZE in *. rewrite BITMAP_BITS_val in *. case_if; boolify; lia. }
  destruct (pmm_reserve_spec (addr e) l s Ha Hl' Hb) as (Hb' & Hr' & _).
  split; [done|]. intros p. by rewrite Hr'.
Qed.

Lemma count_free_full : count_free (fun _ => 0xFF) = 0.
Proof.
  apply count_from_none.
  intros i _. rewrite negb_false_iff. unfold bit_at. rewrite bit_of_testbit by dmlia.
  change 0xFF with (Z.ones 8). apply Z.ones_spec_low. dmlia.
Qed.

Lemma init_start mem :
  init_inv (Pmm (fun _ => 0xFF) (fun _ => 0) (fun _ => 0) 0 0 BITMAP_BITS mem).
Proof.
  split; [|done].
  assert (forall p, bit_at (fun _ => 0xFF) p = true) as Hones.
  { intros p. unfold bit_at. rewrite bit_of_testbit by dmlia.
    change 0xFF with (Z.ones 8). apply Z.ones_spec_low. dmlia. }
  split; unfold used, is_ram; simpl; try lia.
  - by rewrite count_free_full.
  - intros p _ []; [by rewrite Hones in *|done].
  - intros p _. unfold bit_at. by rewrite bit_of_testbit, Z.testbit_0_l by dmlia.
  - rewrite BITMAP_BITS_val. lia.
  - rewrite BITMAP_BITS_val. lia.
Qed.

Lemma pmm_init_inv map mmap_length entry_size kernel_end mem s :
  (forall i, entry_ok (map i)) -> is_u64 kernel_end ->
  pmm_init map mmap_length entry_size kernel_end mem = Some s ->
  inv s /\ forall p, page_refs s p = 0.
Proof.
  intros Hmap Hk. unfold pmm_init. case_if; [done|].
  set (count := Z.to_nat _). set (s0 := Pmm _ _ _ _ _ _ _).
  set (s1 := for_n count (fun index s => init_usable (map index) s) s0).
  set (s2 := for_n count (fun index s => init_reserved (map index) s) s1).
  intros [= <-].
  assert (init_inv s1) as H1.
  { apply (for_n_ind (fun _ => init_inv)); [apply init_start|].
    intros i s' _. apply init_usable_inv. }
  assert (init_inv s2) as [Hb2 Hr2].
  { apply (for_n_ind (fun _ => init_inv)); [done|].
    intros i s' _. by apply init_reserved_inv. }
  clearbody s2. clear s1 H1 s0.
  destruct (pmm_reserve_spec 0 0x100000 s2) as (Hb3 & Hr3 & _ & Hu3); [words..|done|].
  destruct (pmm_reserve_spec 0x100000 (u64 (kernel_end - 0x100000)) (pmm_reserve 0 0x100000 s2))
    as (Hb4 & Hr4 & Hu4 & _); [words|apply u64_range|done|].
  assert (forall p, page_refs (pmm_reserve 0x100000 (u64 (kernel_end - 0x100000))
            (pmm_reserve 0 0x100000 s2)) p = 0) as Hr by (intros; by rewrite Hr4, Hr3).
  split; [|done]. split; [done|]. split; [|done].
  apply Hu4, Hu3; [words|lia| |dmlia]. unfold page_in. rewrite BITMAP_BITS_val. lia.
Qed.

(** ** Allocation *)

(** [s'] is [s] with the free page [p] handed out: one reference, cleared
    contents, everything else unchanged. *)
Record taken (s : pmm) (p : Z) (s' : pmm) : Prop := {
  taken_in : page_in p;
  taken_free : ~ used s p;
  taken_ram : is_ram s p;
  taken_used : forall q, used s' q <-> q = p \/ used s q;
  taken_refs : page_refs s' p = 1 /\ forall q, q <> p -> page_refs s' q = page_refs s q;
  taken_count : free_pages s' = free_pages s - 1;
  taken_zero : forall a, p * PAGE_SIZE <= a < (p + 1) * PAGE_SIZE -> memory s' a = 0;
  taken_memory : forall a, ~ (p * PAGE_SIZE <= a < (p + 1) * PAGE_SIZE) ->
    memory s' a = memory s a;
  taken_rest : ram_bitmap s' = ram_bitmap s /\ max_page s' = max_page s /\
    alloc_page_limit s' = alloc_page_limit s
}.

Lemma take_page_spec s p :
  inv s -> page_in p -> ~ used s p ->
  inv (snd (pmm_take_page p s)) /\ taken s p (snd (pmm_take_page p s)).
Proof.
  intros Hi Hp Hu. pose proof (inv_page_pos s p Hi Hp Hu) as Hpos.
  destruct Hi as [Hb [Hz0 Hr0]].
  pose proof (base_free_pos s p Hb Hp Hu). pose proof (base_free_u32 s Hb).
  split.
  - split.
    + apply base_mark; try done; [intros q Hq; by apply upd_ne|rewrite upd_eq; lia].
    + unfold used. simpl. rewrite bit_at_set, upd_ne by lia. rewrite Hz0. by rewrite orb_true_r.
  - split; simpl; try done.
    + apply (base_ram s Hb); auto.
    + intros q. unfold used. simpl. by rewrite bit_at_set, orb_true_iff, Z.eqb_eq.
    + split; [apply upd_eq|]. intros q Hq. by apply upd_ne.
    + apply u32_small. unfold is_u32 in *. lia.
    + intros a Ha. unfold PAGE_SIZE in *.
      destruct (Z.leb_spec (p * 4096) a), (Z.ltb_spec a (p * 4096 + 4096)); simpl; lia.
    + intros a Ha. unfold PAGE_SIZE in *.
      destruct (Z.leb_spec (p * 4096) a), (Z.ltb_spec a (p * 4096 + 4096)); simpl; [|done..].
      exfalso. apply Ha. lia.
Qed.

Lemma take_first_spec s from to :
  inv s -> 0 <= from -> to <= BITMAP_BITS ->
  match take_first from to s with
  | Some (a, s') => exists p, a = p * PAGE_SIZE /\ from <= p < to /\ inv s' /\ taken s p s' /\
      forall q, from <= q < p -> used s q
  | None => forall q, from <= q < to -> used s q
  end.
Proof.
  intros Hi Hf Ht. unfold take_first.
  assert (forall q, page_free s q = false -> used s q) as Hused.
  { intros q Hq. unfold page_free in Hq. by apply negb_false_iff in Hq. }
  destruct (scan_range from to (page_free s)) as [p|] eqn:Hs.
  - apply scan_range_Some in Hs as (Hr & Hfree & Hlt). apply page_free_iff in Hfree.
    destruct (take_page_spec s p Hi ltac:(unfold page_in; lia) Hfree) as [Hi' Ht'].
    exists p. split_and!; [done|lia|lia|exact Hi'|exact Ht'|]. intros q Hq. by apply Hused, Hlt.
  - intros q Hq. rewrite scan_range_None in Hs. by apply Hused, Hs.
Qed.

(** No free page lies above [max_page]. *)
Lemma above_max_used s q : base s -> page_in q -> max_page s < q -> used s q.
Proof.
  intros Hb Hq Hm. destruct (bit_at (bitmap s) q) eqn:Hbit; [done|]. exfalso.
  assert (is_ram s q) as Hr by (apply (base_ram s Hb q Hq); left; by apply not_used).
  pose proof (base_max s Hb q Hq Hr). lia.
Qed.

Lemma max_page_u32 s : base s -> u32 (max_page s + 1) = max_page s + 1.
Proof.
  intros Hb. apply u32_small. pose proof (base_max_range s Hb) as Hm.
  rewrite BITMAP_BITS_val in Hm. unfold is_u32. lia.
Qed.

Lemma if_ltb_min a b : (if a <? b then a else b) = Z.min a b.
Proof. destruct (Z.ltb_spec a b); lia. Qed.

Lemma alloc_page_spec s :
  inv s ->
  let '(a, s') := pmm_alloc_page s in
  inv s' /\
  ((a = 0 /\ s' = s /\ forall q, page_in q -> q < alloc_page_limit s -> used s q) \/
   (exists p, a = p * PAGE_SIZE /\ 0 < p < alloc_page_limit s /\ taken s p s' /\
      (p < 4096 -> forall q, 4096 <= q < alloc_page_limit s -> used s q))).
Proof.
  intros Hi. pose proof (inv_base s Hi) as Hb.
  pose proof (base_limit s Hb) as Hl. pose proof (base_max_range s Hb) as Hm.
  unfold pmm_alloc_page. rewrite max_page_u32, if_ltb_min by done.
  change (0x1000000 / PAGE_SIZE) with 4096.
  set (limit := Z.min (alloc_page_limit s) (max_page s + 1)).
  pose proof (take_first_spec s 4096 limit Hi ltac:(lia) ltac:(lia)) as H1.
  destruct (take_first 4096 limit s) as [[a s']|].
  { destruct H1 as (p & -> & Hr & Hi' & Ht & _). split; [done|]. right. exists p.
    split_and!; [done|lia|lia|done|lia]. }
  pose proof (take_first_spec s 1 (Z.min 4096 limit) Hi ltac:(lia) ltac:(lia)) as H2.
  assert (forall q, 4096 <= q < alloc_page_limit s -> used s q) as Hhigh.
  { intros q Hq. destruct (decide (q <= max_page s)); [apply H1; lia|].
    apply above_max_used; [done|unfold page_in; lia|lia]. }
  destruct (take_first 1 (Z.min 4096 limit) s) as [[a s']|].
  - destruct H2 as (p & -> & Hr & Hi' & Ht & _). split; [done|]. right. exists p.
    split_and!; [done|lia|lia|done|done].
  - split; [done|]. left. split_and!; [done..|]. intros q Hq Hql.
    destruct (decide (q = 0)) as [->|]; [apply (inv_zero s Hi)|]. unfold page_in in Hq.
    destruct (decide (4096 <= q)); [apply Hhigh; lia|].
    destruct (decide (q <= max_page s)); [apply H2; lia|].
    apply above_max_used; [done|done|lia].
Qed.

Lemma alloc_range_spec s start end_ :
  inv s -> is_u64 start -> is_u64 end_ ->
  let '(a, s') := pmm_alloc_page_range start end_ s in
  inv s' /\
  ((a = 0 /\ s' = s /\ forall q, page_in q -> q < alloc_page_limit s ->
      start <= q * PAGE_SIZE -> (q + 1) * PAGE_SIZE <= end_ -> used s q) \/
   (exists p, a = p * PAGE_SIZE /\ 0 < p < alloc_page_limit s /\ taken s p s' /\
      start <= p * PAGE_SIZE /\ (p + 1) * PAGE_SIZE <= end_)).
Proof.
  intros Hi Hs He. pose proof (inv_base s Hi) as Hb.
  pose proof (base_limit s Hb) as Hl. pose proof (base_max_range s Hb) as Hm.
  unfold is_u64 in *. rewrite BITMAP_BITS_val in *.
  unfold pmm_alloc_page_range, U64_MAX, PAGE_SIZE in *. rewrite BITMAP_BITS_val.
  destruct (Z.leb_spec end_ start).
  { split; [done|]. left. split_and!; [done..|]. intros; lia. }
  destruct (Z.ltb_spec (0xFFFFFFFFFFFFFFFF - (4096 - 1)) start).
  { split; [done|]. left. split_and!; [done..|]. intros; lia. }
  set (f := (start + 4096 - 1) / 4096).
  destruct (Z.leb_spec 0x100000 f) as [Hf|Hf].
  { split; [done|]. left. split_and!; [done..|]. intros q Hq ? ? ?.
    unfold page_in in Hq. rewrite BITMAP_BITS_val in Hq. unfold f in Hf. dmlia. }
  rewrite !if_ltb_min.
  set (limit := Z.min (max_page s + 1) (Z.min (alloc_page_limit s) (end_ / 4096))).
  assert (0 <= f) by (unfold f; dmlia).
  assert (0 <= end_ / 4096) by dmlia.
  assert (0 <= limit <= 0x100000) by (unfold limit; lia).
  rewrite (u32_small limit) by (unfold is_u32; lia).
  set (f' := if f <? 1 then 1 else f).
  assert (f' = Z.max f 1) as Hf' by (unfold f'; destruct (Z.ltb_spec f 1); lia).
  rewrite (u32_small f') by (unfold is_u32; lia).
  pose proof (take_first_spec s f' limit Hi ltac:(lia) ltac:(rewrite BITMAP_BITS_val; lia)) as Hscan.
  destruct (take_first f' limit s) as [[a s']|].
  - destruct Hscan as (p & -> & Hr & Hi' & Ht & _). split; [done|]. right. exists p.
    unfold PAGE_SIZE. unfold limit in Hr.
    split_and!; [done|lia|lia|done|unfold f in *; dmlia|dmlia].
  - split; [done|]. left. split_and!; [done..|]. intros q Hq Hql Hqs Hqe.
    unfold page_in in Hq. rewrite BITMAP_BITS_val in Hq.
    destruct (decide (q = 0)) as [->|]; [apply (inv_zero s Hi)|].
    destruct (decide (q <= max_page s)).
    + apply Hscan. unfold limit. split; [|dmlia]. unfold f in *. dmlia.
    + apply above_max_used; [done|unfold page_in; rewrite BITMAP_BITS_val; lia|lia].
Qed.

Lemma alloc_low_spec s :
  inv s ->
  let '(a, s') := pmm_alloc_page_low s in
  inv s' /\
  ((a = 0 /\ s' = s /\ forall q, 0 <= q < 4096 -> q < alloc_page_limit s -> used s q) \/
   (exists p, a = p * PAGE_SIZE /\ 0 < p < Z.min 4096 (alloc_page_limit s) /\ taken s p s')).
Proof.
  intros Hi. pose proof (inv_base s Hi) as Hb.
  pose proof (base_limit s Hb) as Hl. pose proof (base_max_range s Hb) as Hm.
  unfold pmm_alloc_page_low. rewrite max_page_u32, !if_ltb_min by done.
  change (0x1000000 / PAGE_SIZE) with 4096.
  set (limit := Z.min _ _).
  pose proof (take_first_spec s 1 limit Hi ltac:(lia) ltac:(lia)) as H1.
  destruct (take_first 1 limit s) as [[a s']|].
  - destruct H1 as (p & -> & Hr & Hi' & Ht & _). split; [done|]. right. exists p.
    split_and!; [done|lia|lia|done].
  - split; [done|]. left. split_and!; [done..|]. intros q Hq Hql.
    destruct (decide (q = 0)) as [->|]; [apply (inv_zero s Hi)|].
    destruct (decide (q <= max_page s)); [apply H1; lia|].
    apply above_max_used; [done|unfold page_in; lia|lia].
Qed.

(** ** Contiguous allocation *)

Definition window_free (free : Z -> bool) (r n : Z) : Prop :=
  forall q, r <= q < r + n -> free q = true.

(** The run scan is first fit over the pages from [lo] on. *)
Lemma find_run_spec n free pages page run run_start lo :
  0 <= run < pages -> lo <= page - run -> (0 < run -> run_start = page - run) ->
  window_free free (page - run) run ->
  (forall r, lo <= r < page - run -> exists q, r <= q < r + pages /\ free q = false) ->
  match find_run n free pages page run run_start with
  | Some r => lo <= r /\ r + pages <= page + Z.of_nat n /\ window_free free r pages /\
      forall r', lo <= r' < r -> exists q, r' <= q < r' + pages /\ free q = false
  | None => forall r, lo <= r -> r + pages <= page + Z.of_nat n ->
      exists q, r <= q < r + pages /\ free q = false
  end.
Proof.
  revert page run run_start. induction n as [|n IH]; intros page run rs Hrun Hlo Hrs Hw Hno;
    cbn [find_run].
  { intros r Hr Hle. apply Hno. lia. }
  replace (page + Z.of_nat (S n)) with (page + 1 + Z.of_nat n) by lia.
  destruct (free page) eqn:Hf.
  - set (rs' := if run =? 0 then page else rs).
    assert (rs' = page - run) as Hrs' by (unfold rs'; destruct (Z.eqb_spec run 0); lia).
    assert (window_free free (page - run) (run + 1)) as Hw'.
    { intros q Hq. destruct (decide (q = page)) as [->|]; [done|]. apply Hw. lia. }
    destruct (Z.eqb_spec (run + 1) pages) as [Hp|Hp].
    + rewrite Hrs', <- Hp. split_and!; [lia|lia|done|]. rewrite Hp. exact Hno.
    + apply IH; try lia; replace (page + 1 - (run + 1)) with (page - run) by lia; done.
  - apply IH; try lia.
    + intros q Hq. lia.
    + intros r Hr. destruct (decide (r < page - run)); [apply Hno; lia|].
      exists page. split; [lia|done].
Qed.

Lemma claim_loop s r n :
  inv s -> 1 <= r -> 0 <= n -> r + n <= BITMAP_BITS -> window_free (page_free s) r n ->
  let s' := for_range r (r + n) claim_page s in
  inv (set_bitmap (bitmap s') (free_pages s - n) s') /\
  (forall q, used s' q <-> r <= q < r + n \/ used s q) /\
  (forall q, page_refs s' q = if (r <=? q) && (q <? r + n) then 1 else page_refs s q) /\
  free_pages s' = free_pages s /\ ram_bitmap s' = ram_bitmap s /\ max_page s' = max_page s /\
  alloc_page_limit s' = alloc_page_limit s /\ memory s' = memory s.
Proof.
  intros [Hb [Hz0 Hz1]] Hr Hn Hin Hw s'.
  set (P := fun i t => base (set_bitmap (bitmap t) (free_pages s - (i - r)) t) /\
    (forall q, used t q <-> r <= q < i \/ used s q) /\
    (forall q, page_refs t q = if (r <=? q) && (q <? i) then 1 else page_refs s q) /\
    free_pages t = free_pages s /\ ram_bitmap t = ram_bitmap s /\ max_page t = max_page s /\
    alloc_page_limit t = alloc_page_limit s /\ memory t = memory s).
  assert (P (Z.max r (r + n)) s') as HP.
  { unfold s'. apply for_range_ind; unfold P.
    - split_and!; try done; [|intros q; split; [auto|intros [?|?]; [lia|done]]|].
      + destruct s. unfold set_bitmap. simpl in *. by rewrite Z.sub_diag, Z.sub_0_r.
      + intros q. destruct (Z.leb_spec r q), (Z.ltb_spec q r); done || lia.
    - intros i t Hi (Hbt & Hu & Hrf & Hfp & Hram & Hmx & Hlim & Hmem).
      assert (~ used t i) as Hnu.
      { rewrite Hu. intros [?|?]; [lia|]. by apply (proj1 (page_free_iff s i)); [apply Hw; lia|]. }
      split_and!; try done.
      + pose proof (base_free_pos _ i Hbt ltac:(unfold page_in; lia) Hnu) as Hpos.
        pose proof (base_free_u32 s Hb) as Hfu. simpl in Hpos. unfold is_u32 in Hfu.
        pose proof (base_mark _ i (upd (page_refs t) i 1) (memory t) Hbt
          ltac:(unfold page_in; lia) Hnu (fun q => upd_ne _ i q 1) ltac:(rewrite upd_eq; lia)) as Hm.
        simpl in Hm. unfold set_bitmap, claim_page. simpl.
        replace (free_pages s - (i + 1 - r)) with (u32 (free_pages s - (i - r) - 1)); [done|].
        rewrite u32_small by (unfold is_u32; lia). lia.
      + intros q. unfold used in *. simpl. rewrite bit_at_set, orb_true_iff, Z.eqb_eq, Hu.
        split; [intros [->|[?|?]]|intros [?|?]]; [left; lia|left; lia|auto| |auto].
        destruct (decide (q = i)); [auto|]. right. left. lia.
      + intros q. simpl. destruct (decide (q = i)) as [->|Hq].
        * rewrite upd_eq. destruct (Z.leb_spec r i), (Z.ltb_spec i (i + 1)); done || lia.
        * rewrite upd_ne, Hrf by done.
          destruct (Z.leb_spec r q), (Z.ltb_spec q (i + 1)), (Z.ltb_spec q i); done || lia. }
  replace (Z.max r (r + n)) with (r + n) in HP by lia. destruct HP as (Hb' & Hu & Hrf & Hrest).
  replace (r + n - r) with n in Hb' by lia. split_and!; try apply Hrest; try done.
  split; [done|]. split; [apply Hu; by right|]. simpl. rewrite Hrf.
  destruct (Z.leb_spec r 0); [lia|done].
Qed.

(** [s'] is [s] with the free pages [r .. r + n) handed out. *)
Record run_taken (s : pmm) (r n : Z) (s' : pmm) : Prop := {
  run_free : forall q, r <= q < r + n -> ~ used s q /\ is_ram s q;
  run_used : forall q, used s' q <-> r <= q < r + n \/ used s q;
  run_refs : forall q, page_refs s' q = if (r <=? q) && (q <? r + n) then 1 else page_refs s q;
  run_count : free_pages s' = free_pages s - n;
  run_rest : ram_bitmap s' = ram_bitmap s /\ max_page s' = max_page s /\
    alloc_page_limit s' = alloc_page_limit s /\ memory s' = memory s
}.

(** The exclusive page bound that [pmm_alloc_contiguous] derives. *)
Definition contiguous_limit (max_addr : Z) (s : pmm) : Z :=
  Z.min (max_page s + 1) (Z.min (alloc_page_limit s)
    (if nz (u64 (max_addr + 1)) then u32 (u64 (max_addr + 1) / PAGE_SIZE)
     else alloc_page_limit s)).

Lemma window_le_free s r n :
  base s -> 0 <= r -> r + n <= BITMAP_BITS -> window_free (page_free s) r n ->
  n <= free_pages s.
Proof.
  intros Hb Hr Hn Hw. rewrite (base_free s Hb). unfold count_free.
  apply (count_from_window _ _ _ r); [exact Hw|done|rewrite BITMAP_BITS_val in *; lia].
Qed.

Lemma contiguous_limit_range max_addr s :
  base s -> 0 <= contiguous_limit max_addr s <= BITMAP_BITS.
Proof.
  intros Hb. pose proof (base_limit s Hb). pose proof (base_max_range s Hb).
  unfold contiguous_limit. case_if; [|lia].
  pose proof (u32_range (u64 (max_addr + 1) / PAGE_SIZE)). unfold is_u32 in *. lia.
Qed.

Lemma contiguous_spec s pages max_addr :
  inv s -> is_u32 pages ->
  let '(a, s') := pmm_alloc_contiguous pages max_addr s in
  inv s' /\
  ((a = 0 /\ s' = s /\ (0 < pages -> forall r, 1 <= r ->
      r + pages <= contiguous_limit max_addr s -> ~ window_free (page_free s) r pages)) \/
   (exists r, a = r * PAGE_SIZE /\ 1 <= r /\ 0 < pages /\
      r + pages <= contiguous_limit max_addr s /\ run_taken s r pages s' /\
      (forall r', 1 <= r' < r -> ~ window_free (page_free s) r' pages))).
Proof.
  intros Hi Hp. pose proof (inv_base s Hi) as Hb.
  pose proof (contiguous_limit_range max_addr s Hb) as HL.
  unfold pmm_alloc_contiguous. rewrite max_page_u32, !if_ltb_min by done.
  fold (contiguous_limit max_addr s). unfold is_u32 in Hp.
  destruct (nz pages) eqn:Hz; cbn [negb orb].
  2: { apply nz_false in Hz. split; [done|]. left. split_and!; [done..|]. lia. }
  apply nz_true in Hz.
  destruct (Z.ltb_spec (free_pages s) pages).
  { split; [done|]. left. split_and!; [done..|]. intros _ r Hr1 Hr2 Hw.
    pose proof (window_le_free s r pages Hb ltac:(lia) ltac:(lia) Hw). lia. }
  destruct (Z.ltb_spec (contiguous_limit max_addr s) pages).
  { split; [done|]. left. split_and!; [done..|]. intros; lia. }
  pose proof (find_run_spec (Z.to_nat (contiguous_limit max_addr s - 1)) (page_free s) pages
    1 0 0 1 ltac:(lia) ltac:(lia) ltac:(lia)) as Hfr.
  destruct (find_run _ _ _ _ _ _) as [r|].
  - destruct Hfr as (Hr1 & Hr2 & Hw & Hfirst); [intros q ?; lia|intros q ?; lia|].
    destruct (claim_loop s r pages Hi) as (Hi' & Hu & Hrf & Hfp & Hrest); [lia..|done|].
    pose proof (base_free_u32 s Hb) as Hfu. unfold is_u32 in Hfu.
    rewrite BITMAP_BITS_val in HL.
    rewrite Hfp, !u32_small by (unfold is_u32, PAGE_SIZE; lia).
    split; [exact Hi'|]. right. exists r. split_and!; [done|lia|lia|lia| |].
    + split; [|exact Hu|exact Hrf|reflexivity|exact Hrest].
      intros q Hq. assert (~ used s q) as Hnu by (apply page_free_iff, Hw; lia).
      split; [done|]. apply (base_ram s Hb); [unfold page_in; rewrite BITMAP_BITS_val; lia|auto].
    + intros r' Hr' Hw'. destruct (Hfirst r' Hr') as (q & Hq & Hf). rewrite Hw' in Hf; done.
  - split; [done|]. left. split_and!; [done..|]. intros _ r Hr1 Hr2 Hw'.
    destruct (Hfr ltac:(intros q ?; lia) ltac:(intros q ?; lia) r) as (q & Hq & Hf); [lia..|].
    rewrite Hw' in Hf; done.
Qed.

(** ** References *)

Lemma page_mask a : is_u64 a -> Z.land a (PAGE_SIZE - 1) = a mod PAGE_SIZE.
Proof. intros Ha. unfold PAGE_SIZE. change (4096 - 1) with (Z.ones 12). by rewrite Z.land_ones. Qed.

Lemma free_page_spec s a :
  inv s -> is_u64 a ->
  match pmm_free_page a s with
  | None => a mod PAGE_SIZE <> 0 \/ ~ 0 < a / PAGE_SIZE < BITMAP_BITS \/
      page_refs s (a / PAGE_SIZE) = 0
  | Some s' => inv s' /\ a mod PAGE_SIZE = 0 /\ 0 < a / PAGE_SIZE < BITMAP_BITS /\
      0 < page_refs s (a / PAGE_SIZE) /\
      page_refs s' = upd (page_refs s) (a / PAGE_SIZE) (page_refs s (a / PAGE_SIZE) - 1) /\
      (forall q, used s' q <->
         used s q /\ ~ (q = a / PAGE_SIZE /\ page_refs s (a / PAGE_SIZE) = 1)) /\
      free_pages s' = free_pages s + Z.b2z (page_refs s (a / PAGE_SIZE) =? 1) /\
      memory s' = memory s
  end.
Proof.
  intros Hi Ha. pose proof (inv_base s Hi) as Hb. unfold pmm_free_page. rewrite page_mask by done.
  destruct (nz (a mod PAGE_SIZE)) eqn:Hal; [left; by apply nz_true|]. apply nz_false in Hal.
  set (p := a / PAGE_SIZE).
  destruct (nz p) eqn:Hp0; cbn [negb orb]; [|apply nz_false in Hp0; right; left; lia].
  apply nz_true in Hp0.
  destruct (Z.leb_spec BITMAP_BITS p); [right; left; lia|].
  destruct (nz (page_refs s p)) eqn:Hr; cbn [negb]; [|right; right; by apply nz_false].
  apply nz_true in Hr. pose proof (base_refs s Hb p) as Hrr.
  assert (0 <= p) by (unfold p, PAGE_SIZE, is_u64 in *; dmlia).
  assert (page_in p) as Hin by (unfold page_in; lia).
  rewrite u16_small by (unfold is_u16; lia).
  destruct (nz (page_refs s p - 1)) eqn:Hlast; cbn [negb].
  - apply nz_true in Hlast. rewrite (proj2 (Z.eqb_neq _ 1)) by lia.
    split_and!; try lia; try done; simpl.
    + split; [apply base_set_refs; done || lia|]. split; [apply (inv_zero s Hi)|]. simpl.
      rewrite upd_ne by lia. apply (inv_zero s Hi).
    + intros q. unfold used. simpl. split; [intros ?; split; [done|lia]|by intros [? _]].
    + lia.
  - apply nz_false in Hlast. assert (page_refs s p = 1) as Hone by lia.
    rewrite (proj2 (Z.eqb_eq _ 1)) by lia.
    assert (used s p) as Hu by (apply (base_used s Hb); done).
    assert (is_ram s p) as Hram by (apply (base_ram s Hb); auto).
    pose proof (count_free_bounds (bit_clear (bitmap s) p)) as Hc.
    rewrite count_free_clear, <- (base_free s Hb), BITMAP_BITS_val in Hc by done.
    split_and!; try lia; try done; simpl.
    + split; [by apply (base_release s); try done; simpl; [intros q Hq; by apply upd_ne|rewrite upd_eq]|].
      split; [|simpl; rewrite upd_ne by lia; apply Hi]. unfold used. simpl.
      rewrite bit_at_clear. destruct (Z.eqb_spec 0 p); [lia|]. simpl. apply (inv_zero s Hi).
    + intros q. unfold used. simpl. rewrite bit_at_clear, andb_true_iff, negb_true_iff, Z.eqb_neq.
      split; [intros [? ?]; split; [done|tauto]|intros [? ?]; split; [tauto|done]].
    + apply u32_small. unfold is_u32. lia.
Qed.

Lemma retain_page_spec s a :
  inv s -> is_u64 a ->
  let '(r, s') := pmm_retain_page a s in
  inv s' /\
  ((r = -1 /\ s' = s /\ (a mod PAGE_SIZE <> 0 \/ BITMAP_BITS <= a / PAGE_SIZE \/
      page_refs s (a / PAGE_SIZE) = 0 \/ page_refs s (a / PAGE_SIZE) = 0xFFFF)) \/
   (r = 0 /\ a mod PAGE_SIZE = 0 /\ 0 < page_refs s (a / PAGE_SIZE) < 0xFFFF /\
      s' = set_refs (upd (page_refs s) (a / PAGE_SIZE) (page_refs s (a / PAGE_SIZE) + 1)) s)).
Proof.
  intros Hi Ha. pose proof (inv_base s Hi) as Hb. unfold pmm_retain_page. rewrite page_mask by done.
  destruct (nz (a mod PAGE_SIZE)) eqn:Hal; [apply nz_true in Hal; auto 10|]. apply nz_false in Hal.
  set (p := a / PAGE_SIZE).
  destruct (Z.leb_spec BITMAP_BITS p); [auto 10|].
  destruct (nz (page_refs s p)) eqn:Hr; cbn [negb orb];
    [apply nz_true in Hr|apply nz_false in Hr; auto 10].
  destruct (Z.eqb_spec (page_refs s p) 0xFFFF); [auto 10|].
  pose proof (base_refs s Hb p) as Hrr. rewrite u16_small by (unfold is_u16; lia).
  assert (p <> 0) by (intros Hp; apply Hr; rewrite Hp; apply (inv_zero s Hi)).
  assert (0 <= p) by (unfold p, PAGE_SIZE, is_u64 in *; dmlia).
  split; [|right; split_and!; done || lia].
  split; [apply base_set_refs; try done; unfold page_in; lia|]. split; [apply (inv_zero s Hi)|]. simpl.
  rewrite upd_ne by lia. apply (inv_zero s Hi).
Qed.

(** ** The allocator as a transition system *)

Inductive step : pmm -> pmm -> Prop :=
  | step_reserve s a l : is_u64 a -> is_u64 l -> step s (pmm_reserve a l s)
  | step_set_alloc_limit s e : is_u64 e -> step s (pmm_set_alloc_limit e s)
  | step_alloc_page s : step s (snd (pmm_alloc_page s))
  | step_alloc_page_range s a e : is_u64 a -> is_u64 e -> step s (snd (pmm_alloc_page_range a e s))
  | step_alloc_page_low s : step s (snd (pmm_alloc_page_low s))
  | step_alloc_contiguous s n m : is_u32 n -> is_u64 m -> step s (snd (pmm_alloc_contiguous n m s))
  | step_free_page s a s' : is_u64 a -> pmm_free_page a s = Some s' -> step s s'
  | step_retain_page s a : is_u64 a -> step s (snd (pmm_retain_page a s)).

Lemma inv_keep s s' :
  inv s -> base s' -> page_refs s' = page_refs s -> (forall q, used s q -> used s' q) -> inv s'.
Proof.
  intros [Hb [Hu Hr]] Hb' Hrf Huse. split; [done|]. rewrite Hrf. auto.
Qed.

Lemma pmm_step_inv s s' : inv s -> step s s' -> inv s'.
Proof.
  intros Hi Hs. pose proof (inv_base s Hi) as Hb. inversion Hs; subst; clear Hs.
  - edestruct (pmm_reserve_spec a l s) as (? & ? & ? & _); eauto using inv_keep.
  - edestruct (set_alloc_limit_spec e s) as (? & ? & ?); eauto using inv_keep.
  - pose proof (alloc_page_spec s Hi) as H. destruct (pmm_alloc_page s). apply H.
  - pose proof (alloc_range_spec s a e Hi ltac:(done) ltac:(done)) as Hsp.
    destruct (pmm_alloc_page_range a e s). apply Hsp.
  - pose proof (alloc_low_spec s Hi) as H. destruct (pmm_alloc_page_low s). apply H.
  - pose proof (contiguous_spec s n m Hi ltac:(done)) as Hsp.
    destruct (pmm_alloc_contiguous n m s). apply Hsp.
  - pose proof (free_page_spec s a Hi ltac:(done)) as Hsp. rewrite H0 in Hsp. apply Hsp.
  - pose proof (retain_page_spec s a Hi ltac:(done)) as Hsp.
    destruct (pmm_retain_page a s). apply Hsp.
Qed.

(** ** Properties *)

(** One usable range of four pages at 16 MiB. *)
Definition example_map (i : nat) : e820_entry := E820Entry 0x1000000 0x4000 E820_USABLE.

Definition example_boot : option pmm := pmm_init example_map 24 24 0x101000 (fun _ => 7).

Definition example_state : pmm :=
  match example_boot with
  | Some s => s
  | None => Pmm (fun _ => 0) (fun _ => 0) (fun _ => 0) 0 0 0 (fun _ => 0)
  end.

Lemma example_map_ok i : entry_ok (example_map i).
Proof. unfold entry_ok, is_u64. simpl. lia. Qed.

Lemma example_boot_state : example_boot = Some example_state.
Proof. vm_compute. reflexivity. Qed.

Lemma example_inv : inv example_state.
Proof.
  apply (pmm_init_inv example_map 24 24 0x101000 (fun _ => 7) example_state).
  - apply example_map_ok.
  - unfold is_u64. lia.
  - exact example_boot_state.
Qed.

(** C18: In every state reached from a successful [pmm_init] by any sequence of
    reservations, allocations, retains and frees, the free count is exactly
    the number of clear bitmap bits, a referenced page is marked used and is
    RAM, a free page is RAM at or below [max_page] and has no references, and
    page 0 is never free or referenced. *)
Theorem pmm_reachable_inv map mmap_length entry_size kernel_end mem s0 s :
  (forall i, entry_ok (map i)) -> is_u64 kernel_end ->
  pmm_init map mmap_length entry_size kernel_end mem = Some s0 ->
  rtc step s0 s -> inv s.
Proof.
  intros Hmap Hk Hinit Hst. apply pmm_init_inv in Hinit as [Hi _]; [|done..].
  induction Hst as [|s1 s2 s3 Hs _ IH]; [done|]. by eapply IH, pmm_step_inv.
Qed.

Lemma pmm_reachable_inv_witness : inv (snd (pmm_alloc_page (snd (pmm_alloc_page example_state)))).
Proof.
  apply (pmm_reachable_inv example_map 24 24 0x101000 (fun _ => 7) example_state).
  - apply example_map_ok.
  - unfold is_u64. lia.
  - exact example_boot_state.
  - eapply rtc_l; [apply step_alloc_page|]. eapply rtc_l; [apply step_alloc_page|]. apply rtc_refl.
Defined.

(** [pmm_alloc_page] fails only when no page below the allocation limit
    is free; otherwise it returns the address of a page that was free RAM,
    gives it one reference, clears its 4096 bytes and changes no other page,
    and it takes a page below 16 MiB only when none above is free. *)
Theorem pmm_alloc_page_correct s :
  inv s ->
  let '(a, s') := pmm_alloc_page s in
  (a = 0 /\ s' = s /\ forall q, page_in q -> q < alloc_page_limit s -> used s q) \/
  (exists p, a = p * PAGE_SIZE /\ 0 < p < alloc_page_limit s /\ taken s p s' /\
     (p < 4096 -> forall q, 4096 <= q < alloc_page_limit s -> used s q)).
Proof.
  intros Hi. pose proof (alloc_page_spec s Hi) as H. destruct (pmm_alloc_page s). apply H.
Qed.

Lemma pmm_alloc_page_correct_witness :
  fst (pmm_alloc_page example_state) = 0x1000000 /\
  exists p, p * PAGE_SIZE = 0x1000000 /\ taken example_state p (snd (pmm_alloc_page example_state)).
Proof.
  assert (fst (pmm_alloc_page example_state) = 0x1000000) as Ha by (vm_compute; reflexivity).
  split; [exact Ha|].
  pose proof (pmm_alloc_page_correct example_state example_inv) as H.
  destruct (pmm_alloc_page example_state) as [a s']. simpl in Ha. simpl snd.
  destruct H as [(H0 & _)|(p & Hp & _ & Ht & _)]; [congruence|].
  exists p. split; [congruence|exact Ht].
Defined.

(** For an address bound below 2^44 - 1, or the all-ones bound, the
    contiguous allocator is first fit and complete: it fails only when no run
    of that many free pages lies below both the allocation limit and the
    bound, and otherwise claims the first such run with one reference per
    page. *)
Theorem pmm_alloc_contiguous_first_fit s pages max_addr :
  inv s -> is_u32 pages -> 0 < pages ->
  0 <= max_addr < 2 ^ 44 - 1 \/ max_addr = 2 ^ 64 - 1 ->
  let fits r := 1 <= r /\ r + pages <= alloc_page_limit s /\
    (r + pages) * PAGE_SIZE <= max_addr + 1 /\ window_free (page_free s) r pages in
  let '(a, s') := pmm_alloc_contiguous pages max_addr s in
  (a = 0 /\ s' = s /\ forall r, ~ fits r) \/
  (exists r, a = r * PAGE_SIZE /\ fits r /\ run_taken s r pages s' /\
     forall r', r' < r -> ~ fits r').
Proof.
  intros Hi Hp Hpos Hm fits. pose proof (inv_base s Hi) as Hb.
  pose proof (base_limit s Hb) as Hl. pose proof (base_max_range s Hb) as Hmx.
  rewrite BITMAP_BITS_val in *.
  assert (forall r, fits r -> r + pages <= contiguous_limit max_addr s) as Hle.
  { intros r (Hr1 & Hr2 & Hr3 & Hw). unfold contiguous_limit, PAGE_SIZE in *.
    assert (r + pages - 1 <= max_page s).
    { destruct (decide (r + pages - 1 <= max_page s)); [done|]. exfalso.
      apply (page_free_iff s (r + pages - 1)); [apply Hw; lia|].
      apply above_max_used; [done|unfold page_in; rewrite BITMAP_BITS_val; lia|lia]. }
    destruct Hm as [Hm| ->]; [|change (nz (u64 (2 ^ 64 - 1 + 1))) with false; simpl; lia].
    rewrite (u64_small (max_addr + 1)) by (unfold is_u64; lia).
    rewrite (u32_small ((max_addr + 1) / 4096)) by (unfold is_u32; dmlia).
    case_if; [|lia]. assert (r + pages <= (max_addr + 1) / 4096) by dmlia. lia. }
  assert (forall r, 1 <= r -> r + pages <= contiguous_limit max_addr s ->
    window_free (page_free s) r pages -> fits r) as Hfits.
  { intros r Hr1 Hr2 Hw. unfold contiguous_limit in Hr2. unfold fits, PAGE_SIZE in *.
    split_and!; [lia|lia| |done].
    destruct Hm as [Hm| ->]; [|lia].
    rewrite (u64_small (max_addr + 1)) in Hr2 by (unfold is_u64; lia).
    rewrite (u32_small ((max_addr + 1) / 4096)) in Hr2 by (unfold is_u32; dmlia).
    rewrite (proj2 (nz_true (max_addr + 1))) in Hr2 by lia.
    assert (r + pages <= (max_addr + 1) / 4096) by lia. dmlia. }
  pose proof (contiguous_spec s pages max_addr Hi Hp) as Hsp.
  destruct (pmm_alloc_contiguous pages max_addr s) as [a s'].
  destruct Hsp as (_ & [(-> & -> & Hno)|(r & -> & Hr1 & _ & Hr2 & Hrt & Hfirst)]).
  - left. split_and!; [done..|]. intros r Hr. apply (Hno Hpos r); [apply Hr|by apply Hle|apply Hr].
  - right. exists r. split_and!; [done| |done|].
    + apply Hfits; [done|done|]. intros q Hq. apply page_free_iff, (run_free _ _ _ _ Hrt). lia.
    + intros r' Hlt Hf. apply (Hfirst r'); [split; [apply Hf|done]|apply Hf].
Qed.

Lemma pmm_alloc_contiguous_first_fit_witness :
  fst (pmm_alloc_contiguous 3 0xFFFFFFFF example_state) = 0x1000000 /\
  exists r, r * PAGE_SIZE = 0x1000000 /\
    run_taken example_state r 3 (snd (pmm_alloc_contiguous 3 0xFFFFFFFF example_state)).
Proof.
  assert (fst (pmm_alloc_contiguous 3 0xFFFFFFFF example_state) = 0x1000000) as Ha
    by (vm_compute; reflexivity).
  split; [exact Ha|].
  pose proof (pmm_alloc_contiguous_first_fit example_state 3 0xFFFFFFFF example_inv
    ltac:(unfold is_u32; lia) ltac:(lia) ltac:(lia)) as H.
  destruct (pmm_alloc_contiguous 3 0xFFFFFFFF example_state) as [a s']. simpl in Ha. simpl snd.
  destruct H as [(H0 & _)|(r & Hr & _ & Ht & _)]; [congruence|].
  exists r. split; [congruence|exact Ht].
Defined.

(** An address bound whose successor is a non-zero multiple of 2^44, such as
    a 48-bit device mask, truncates to page limit 0, so the contiguous
    allocator refuses every request, whatever memory is free. *)
Theorem pmm_alloc_contiguous_wide_mask s pages k :
  is_u32 pages -> 0 < k < 2 ^ 20 -> pmm_alloc_contiguous pages (k * 2 ^ 44 - 1) s = (0, s).
Proof.
  intros Hpages Hk. unfold pmm_alloc_contiguous.
  replace (k * 2 ^ 44 - 1 + 1) with (k * 2 ^ 44) by lia.
  rewrite (u64_small (k * 2 ^ 44)) by (unfold is_u64; lia).
  rewrite (proj2 (nz_true (k * 2 ^ 44))) by lia.
  replace (u32 (k * 2 ^ 44 / PAGE_SIZE)) with 0 by (unfold u32, PAGE_SIZE; dmlia).
  destruct (nz pages) eqn:Hp; cbn [negb orb]; [apply nz_true in Hp|done].
  case_if; [done|]. rewrite !if_ltb_min. unfold is_u32 in Hpages.
  destruct (Z.ltb_spec (u32 (max_page s + 1) `min` (alloc_page_limit s `min` 0)) pages);
    [done|lia].
Qed.

Lemma pmm_alloc_contiguous_wide_mask_witness :
  pmm_alloc_contiguous 1 (2 ^ 48 - 1) example_state = (0, example_state) /\
  free_pages example_state = 4.
Proof.
  split; [|vm_compute; reflexivity].
  apply (pmm_alloc_contiguous_wide_mask example_state 1 16); [unfold is_u32; lia|lia].
Defined.

(** [pmm_free_page] panics exactly on an unaligned address, on page 0 or a
    page beyond the bitmap, and on a page without references; otherwise it
    drops one reference and the page becomes free exactly when that was the
    last one. *)
Theorem pmm_free_page_correct s a :
  inv s -> is_u64 a ->
  let p := a / PAGE_SIZE in
  match pmm_free_page a s with
  | None => a mod PAGE_SIZE <> 0 \/ ~ 0 < p < BITMAP_BITS \/ page_refs s p = 0
  | Some s' => a mod PAGE_SIZE = 0 /\ 0 < p < BITMAP_BITS /\ 0 < page_refs s p /\
      page_refs s' = upd (page_refs s) p (page_refs s p - 1) /\
      (forall q, used s' q <-> used s q /\ ~ (q = p /\ page_refs s p = 1)) /\
      free_pages s' = free_pages s + Z.b2z (page_refs s p =? 1) /\
      memory s' = memory s
  end.
Proof.
  intros Hi Ha p. pose proof (free_page_spec s a Hi Ha) as H.
  destruct (pmm_free_page a s); [apply H|exact H].
Qed.

Lemma pmm_free_page_correct_witness :
  pmm_free_page 0x1000000 example_state = None /\
  page_refs example_state (0x1000000 / PAGE_SIZE) = 0.
Proof.
  assert (pmm_free_page 0x1000000 example_state = None) as Hn by (vm_compute; reflexivity).
  split; [exact Hn|].
  pose proof (pmm_free_page_correct example_state 0x1000000 example_inv
    ltac:(unfold is_u64; lia)) as H.
  rewrite Hn in H. destruct H as [H|[H|H]]; [|exfalso; apply H|exact H].
  - exfalso. apply H. reflexivity.
  - rewrite BITMAP_BITS_val. unfold PAGE_SIZE. split; reflexivity.
Defined.

(** A successful retain followed by a free of the same page restores the
    reference counts and the bitmap: the retained page survives the first of
    the two frees. *)
Theorem pmm_retain_free_roundtrip s a s' :
  inv s -> is_u64 a -> pmm_retain_page a s = (0, s') ->
  exists s'', pmm_free_page a s' = Some s'' /\ inv s'' /\
    (forall p, page_refs s'' p = page_refs s p) /\ bitmap s'' = bitmap s /\
    free_pages s'' = free_pages s.
Proof.
  intros Hi Ha Hr. pose proof (retain_page_spec s a Hi Ha) as Hsp. rewrite Hr in Hsp.
  destruct Hsp as [Hi' [(Hbad & _)|(_ & Hal & Hrf & ->)]]; [lia|].
  set (p := a / PAGE_SIZE) in *. set (s1 := set_refs _ s) in *.
  assert (page_refs s1 p = page_refs s p + 1) as H1 by apply upd_eq.
  assert (0 < p < BITMAP_BITS) as Hp.
  { unfold pmm_retain_page in Hr. rewrite page_mask, Hal in Hr by done. fold p in Hr. cbn in Hr.
    destruct (Z.leb_spec BITMAP_BITS p); [done|].
    assert (0 <= p) by (unfold p, PAGE_SIZE, is_u64 in *; dmlia).
    assert (p <> 0); [|lia]. intros Hz. rewrite Hz, (proj2 (inv_zero s Hi)) in Hrf. lia. }
  pose proof (free_page_spec s1 a Hi' Ha) as Hf. fold p in Hf. rewrite H1 in Hf.
  unfold pmm_free_page in *. rewrite page_mask, Hal in * by done. fold p in Hf. fold p.
  change (nz 0) with false in *. cbn [negb] in *.
  rewrite (proj2 (nz_true p)) in * by lia. cbn [negb orb] in *.
  destruct (Z.leb_spec BITMAP_BITS p); [lia|].
  rewrite H1 in *. rewrite (proj2 (nz_true (page_refs s p + 1))) in * by lia. cbn [negb] in *.
  rewrite Z.add_simpl_r, u16_small in * by (unfold is_u16; lia).
  rewrite (proj2 (nz_true (page_refs s p))) in * by lia. cbn [negb] in *.
  eexists. split; [reflexivity|]. split_and!; try done; [apply Hf|].
  intros q. simpl. destruct (decide (q = p)) as [->|Hq]; [apply upd_eq|].
  by rewrite !upd_ne by done.
Qed.

Lemma pmm_retain_free_roundtrip_witness :
  let s := snd (pmm_alloc_page example_state) in
  exists s'', pmm_free_page 0x1000000 (snd (pmm_retain_page 0x1000000 s)) = Some s'' /\
    page_refs s'' 0x1000 = 1.
Proof.
  intros s. assert (inv s) as Hi.
  { apply (pmm_step_inv example_state); [exact example_inv|apply step_alloc_page]. }
  assert (fst (pmm_retain_page 0x1000000 s) = 0) as Hr by (vm_compute; reflexivity).
  assert (page_refs s 0x1000 = 1) as H1 by (vm_compute; reflexivity).
  destruct (pmm_retain_page 0x1000000 s) as [r s'] eqn:He. simpl in Hr. subst r. simpl snd.
  destruct (pmm_retain_free_roundtrip s 0x1000000 s' Hi ltac:(unfold is_u64; lia) He)
    as (s'' & Hs & _ & Hrf & _).
  exists s''. split; [exact Hs|]. rewrite Hrf. exact H1.
Defined.

End Pmm.
