(* ===== verification/Klock.v ===== *)
(** Kernel locks: [src/core/klock.c], [src/core/klock.h], [src/core/spinlock.h].

    Sixteen CPUs interleave the atomic actions of [klock_acquire] and
    [klock_release].  Each action is an executable function on the shared
    state; [step] lets any CPU take its next action.  The per-CPU records are
    the code's arrays.  A lock is an index into the statically declared
    [struct klock]s, whose levels are a parameter.  [held] is a ghost field:
    the locks whose critical section the CPU is in, innermost first. *)

From Stdlib Require Import Sorting.Sorted.

From S2P Require Import Prelude.

Module Klock.

Definition KLOCK_DEPTH_MAX : Z := 14.

Definition KLOCK_LEVEL_PMM : Z := 14.

Definition KLOCK_MAX_CPUS : Z := 16.

Record spinlock := Spinlock { ticket : Z; served : Z }.

Definition SPINLOCK_INIT : spinlock := Spinlock 0 0.

(** Where a CPU is inside [klock_acquire] or [klock_release]; [flags] is the
    local of [klock_acquire] and [mine] the local of [spin_lock]. *)
Inductive pc :=
  | Running
  | Counted (k : Z) (flags : bool)
  | Observed (k : Z) (flags : bool)
  | Spinning (k mine : Z) (flags : bool)
  | Unlocked.

Record record := Record_ {
  depth : Z;
  levels : Z -> Z;
  flags : Z -> bool;
  irq_on : bool;
  at_ : pc;
  held : list Z
}.

Record state := State {
  locks : Z -> spinlock;
  records : Z -> record;
  acquires : Z -> Z;
  contended : Z -> Z
}.

Definition klock_stats_read (level : Z) (s : state) : Z * Z :=
  if nz level && (level <=? KLOCK_LEVEL_PMM)
  then (acquires s (level - 1), contended s (level - 1))
  else (0, 0).

Definition klock_order_ok (held wanted : Z) : bool := held <? wanted.

(** [cpu] is the answer of [scheduler_cpu_id]. *)
Definition klock_cpu (cpu : Z) : Z :=
  if (0 <? cpu) && (cpu <? KLOCK_MAX_CPUS) then cpu else 0.

Definition record_level (r : record) : Z :=
  if nz (depth r) then levels r (depth r - 1) else 0.

Definition klock_held_level (cpu : Z) (s : state) : Z :=
  record_level (records s (klock_cpu cpu)).

Definition set_record (cpu : Z) (r : record) (s : state) : state :=
  State (locks s) (upd (records s) cpu r) (acquires s) (contended s).

Definition goto (p : pc) (r : record) : record :=
  Record_ (depth r) (levels r) (flags r) (irq_on r) p (held r).

Section Actions.
(** The [level] field of each lock. *)
Context (level : Z -> Z).

(** Interrupts go off, the order is checked and the acquire is counted.
    [None] is [klock_violation]. *)
Definition klock_enter (cpu k : Z) (s : state) : option state :=
  let c := klock_cpu cpu in
  let r := records s c in
  let flags := irq_on r in
  let held_level := if nz (depth r) then levels r (depth r - 1) else 0 in
  if (KLOCK_DEPTH_MAX <=? depth r) || negb (klock_order_ok held_level (level k)) then None
  else
    let r := Record_ (depth r) (levels r) (Klock.flags r) false (Counted k flags) (held r) in
    Some (State (locks s) (upd (records s) c r)
            (upd (acquires s) (level k - 1) (u64 (acquires s (level k - 1) + 1))) (contended s)).

(** The contention counter. *)
Definition klock_observe (cpu k : Z) (flags : bool) (s : state) : state :=
  let c := klock_cpu cpu in
  let waits := negb (ticket (locks s k) =? served (locks s k)) in
  State (locks s) (upd (records s) c (goto (Observed k flags) (records s c))) (acquires s)
    (if waits then upd (contended s) (level k - 1) (u64 (contended s (level k - 1) + 1))
     else contended s).

(** [spin_lock]: the atomic increment of [ticket] ... *)
Definition spin_ticket (cpu k : Z) (flags : bool) (s : state) : state :=
  let c := klock_cpu cpu in
  let l := locks s k in
  State (upd (locks s) k (Spinlock (u32 (ticket l + 1)) (served l)))
    (upd (records s) c (goto (Spinning k (ticket l) flags) (records s c)))
    (acquires s) (contended s).

(** ... and one iteration of its loop, with the rest of [klock_acquire] when
    the loop ends. *)
Definition spin_check (cpu k mine : Z) (flags : bool) (s : state) : state :=
  let c := klock_cpu cpu in
  let r := records s c in
  if served (locks s k) =? mine then
    set_record c (Record_ (depth r + 1) (upd (levels r) (depth r) (level k))
                    (upd (Klock.flags r) (depth r) flags) (irq_on r) Running (k :: held r)) s
  else s.

(** [klock_release] up to [spin_unlock].  [None] is the panic. *)
Definition klock_unlock (cpu k : Z) (s : state) : option state :=
  let c := klock_cpu cpu in
  let r := records s c in
  if negb (nz (depth r)) || negb (levels r (depth r - 1) =? level k) then None
  else
    let l := locks s k in
    Some (State (upd (locks s) k (Spinlock (ticket l) (u32 (served l + 1))))
            (upd (records s) c
               (Record_ (depth r) (levels r) (Klock.flags r) (irq_on r) Unlocked
                  (filter (fun j => j <> k) (held r))))
            (acquires s) (contended s)).

(** The rest of [klock_release]. *)
Definition klock_pop (cpu : Z) (s : state) : state :=
  let c := klock_cpu cpu in
  let r := records s c in
  set_record c (Record_ (depth r - 1) (levels r) (Klock.flags r) (Klock.flags r (depth r - 1))
                  Running (held r)) s.

(** The CPU masks or unmasks interrupts outside critical sections. *)
Definition set_irq (cpu : Z) (b : bool) (s : state) : state :=
  let c := klock_cpu cpu in
  let r := records s c in
  set_record c (Record_ (depth r) (levels r) (Klock.flags r) b Running (held r)) s.

Definition cpu_ok (cpu : Z) : Prop := 0 <= cpu < KLOCK_MAX_CPUS.

Definition pc_of (s : state) (cpu : Z) : pc := at_ (records s cpu).

(** One action of one CPU.  The callers' discipline is that a lock is
    released by a CPU that holds it and that interrupts are only unmasked
    outside critical sections. *)
Inductive step : state -> state -> Prop :=
  | step_enter s cpu k s' : cpu_ok cpu -> pc_of s cpu = Running ->
      klock_enter cpu k s = Some s' -> step s s'
  | step_observe s cpu k f : cpu_ok cpu -> pc_of s cpu = Counted k f ->
      step s (klock_observe cpu k f s)
  | step_ticket s cpu k f : cpu_ok cpu -> pc_of s cpu = Observed k f ->
      step s (spin_ticket cpu k f s)
  | step_spin s cpu k m f : cpu_ok cpu -> pc_of s cpu = Spinning k m f ->
      step s (spin_check cpu k m f s)
  | step_unlock s cpu k s' : cpu_ok cpu -> pc_of s cpu = Running ->
      k ∈ held (records s cpu) -> klock_unlock cpu k s = Some s' -> step s s'
  | step_pop s cpu : cpu_ok cpu -> pc_of s cpu = Unlocked -> step s (klock_pop cpu s)
  | step_irq s cpu b : cpu_ok cpu -> pc_of s cpu = Running -> depth (records s cpu) = 0 ->
      step s (set_irq cpu b s).

(** Boot: every lock is free and every record is empty. *)
Definition boot : state :=
  State (fun _ => SPINLOCK_INIT)
    (fun _ => Record_ 0 (fun _ => 0) (fun _ => false) true Running [])
    (fun _ => 0) (fun _ => 0).

Definition reachable (s : state) : Prop := rtc step boot s.

End Actions.

(** ** Invariant *)

Section Invariant.
Context (level : Z -> Z).
Hypothesis level_range : forall k, 1 <= level k <= KLOCK_LEVEL_PMM.

Definition unlocked (p : pc) : Z := match p with Unlocked => 1 | _ => 0 end.

(** The lock order: [j] was taken before [k]. *)
Definition below (k j : Z) : Prop := level j < level k.

(** What a CPU inside [klock_acquire] of [k] knows. *)
Definition acquiring (r : record) (k : Z) (f : bool) : Prop :=
  Forall (below k) (held r) /\ (f = true -> held r = []).

Record rec_ok (r : record) : Prop := {
  ro_depth : depth r = Z.of_nat (length (held r)) + unlocked (at_ r);
  ro_levels : forall i k, held r !! i = Some k ->
    levels r (Z.of_nat (length (held r)) - 1 - Z.of_nat i) = level k;
  ro_sorted : StronglySorted below (held r);
  ro_irq : at_ r <> Running \/ held r <> [] -> irq_on r = false;
  ro_flags : forall i, 1 <= i < depth r -> flags r i = false;
  ro_pc : match at_ r with
          | Counted k f | Observed k f | Spinning k _ f => acquiring r k f
          | _ => True
          end;
  ro_unlocked : at_ r = Unlocked -> Z.of_nat (length (held r)) < KLOCK_LEVEL_PMM
}.

Definition waits (s : state) (c k : Z) : Prop := exists m f, pc_of s c = Spinning k m f.

Definition holds (s : state) (c k : Z) : Prop := k ∈ held (records s c).

(** The CPUs that drew a ticket of [k] and have not released it, in ticket
    order. *)
Record queued (s : state) (k : Z) (q : list Z) : Prop := {
  q_nodup : NoDup q;
  q_elem : forall c, c ∈ q <-> cpu_ok c /\ (waits s c k \/ holds s c k);
  q_ticket : ticket (locks s k) = u32 (served (locks s k) + Z.of_nat (length q));
  q_served : is_u32 (served (locks s k));
  q_pos : forall i c, q !! i = Some c ->
    (exists f, pc_of s c = Spinning k (u32 (served (locks s k) + Z.of_nat i)) f) \/
    (i = O /\ holds s c k)
}.

Record inv (s : state) : Prop := {
  inv_rec : forall c, cpu_ok c -> rec_ok (records s c);
  inv_queue : forall k, exists q, queued s k q
}.

Lemma klock_cpu_id c : cpu_ok c -> klock_cpu c = c.
Proof.
  unfold cpu_ok, klock_cpu. intros H.
  destruct (Z.ltb_spec 0 c), (Z.ltb_spec c KLOCK_MAX_CPUS); simpl; lia.
Qed.

(** A stack of locks in strictly decreasing level is no longer than the
    level of its top. *)
Lemma sorted_length l k :
  StronglySorted below l -> Forall (below k) l -> Z.of_nat (length l) < level k.
Proof.
  revert k. induction l as [|j l IH]; intros k Hs Hf; simpl.
  - pose proof (level_range k). lia.
  - inversion Hs; subst. inversion Hf; subst. unfold below in *.
    specialize (IH j ltac:(done) ltac:(done)). lia.
Qed.

Lemma sorted_depth l : StronglySorted below l -> Z.of_nat (length l) <= KLOCK_LEVEL_PMM.
Proof.
  destruct l as [|j l]; intros Hs; [done|]. inversion Hs; subst.
  pose proof (sorted_length l j ltac:(done) ltac:(done)). pose proof (level_range j). simpl length. lia.
Qed.

Lemma below_not_elem k l : Forall (below k) l -> k ∉ l.
Proof. intros Hf Hk. rewrite Forall_forall in Hf. specialize (Hf k Hk). unfold below in Hf. lia. Qed.

Lemma filter_ne_notin k (l : list Z) : k ∉ l -> filter (fun j => j <> k) l = l.
Proof.
  induction l as [|j l IH]; intros Hk; [done|]. apply not_elem_of_cons in Hk as [Hj Hl].
  rewrite filter_cons_True by done. by rewrite IH.
Qed.

Lemma record_level_top r :
  rec_ok r -> unlocked (at_ r) = 0 ->
  record_level r = match held r with [] => 0 | k :: _ => level k end.
Proof.
  intros Hr Hu. unfold record_level. rewrite (ro_depth r Hr), Hu, Z.add_0_r.
  pose proof (ro_levels r Hr O) as Hl. destruct (held r) as [|k l]; [done|].
  rewrite (proj2 (nz_true _)) by (simpl length; lia).
  rewrite <- (Hl k) by done. f_equal. lia.
Qed.

Lemma sorted_below_all r k :
  rec_ok r -> unlocked (at_ r) = 0 -> record_level r < level k -> Forall (below k) (held r).
Proof.
  intros Hr Hu. rewrite record_level_top by done. pose proof (ro_sorted r Hr) as Hs.
  destruct (held r) as [|j l]; [constructor|]. intros Hlt. inversion Hs as [|? ? Hs' Hf]; subst.
  constructor; [exact Hlt|]. eapply Forall_impl; [exact Hf|]. unfold below. intros; lia.
Qed.

(** The lock that [klock_release] accepts is the innermost one. *)
Lemma held_top r k :
  rec_ok r -> unlocked (at_ r) = 0 -> k ∈ held r -> record_level r = level k ->
  exists l, held r = k :: l /\ filter (fun j => j <> k) (held r) = l.
Proof.
  intros Hr Hu Hk. rewrite record_level_top by done. pose proof (ro_sorted r Hr) as Hs.
  destruct (held r) as [|j l]; [by apply elem_of_nil in Hk|]. intros Hl.
  inversion Hs as [|? ? Hs' Hf]; subst. apply elem_of_cons in Hk as [<-|Hk].
  - exists l. split; [done|]. rewrite filter_cons_False by tauto.
    apply filter_ne_notin, (below_not_elem k l Hf).
  - exfalso. rewrite Forall_forall in Hf. specialize (Hf k Hk). unfold below in Hf. lia.
Qed.

(** ** Preservation: one CPU's record *)

Lemma rec_ok_boot : rec_ok (records boot 0).
Proof.
  split; simpl; try done; [constructor|by intros [?|?]].
Qed.

Lemma rec_ok_enter r k n :
  rec_ok r -> at_ r = Running -> record_level r < level k -> n = depth r ->
  rec_ok (Record_ n (levels r) (flags r) false (Counted k (irq_on r)) (held r)).
Proof.
  intros Hr Hpc Hl ->. split; simpl; try apply Hr.
  - rewrite (ro_depth r Hr), Hpc. done.
  - done.
  - split; [by apply (sorted_below_all r); [|rewrite Hpc|]|]. simpl.
    intros Hf. destruct (held r) as [|j l] eqn:Hh; [done|].
    rewrite (ro_irq r Hr) in Hf; [done|]. right. by rewrite Hh.
  - done.
Qed.

Lemma rec_ok_goto r p :
  rec_ok r -> at_ r <> Running -> unlocked p = unlocked (at_ r) ->
  match p with
  | Counted k f | Observed k f | Spinning k _ f => acquiring r k f
  | _ => True
  end -> rec_ok (goto p r).
Proof.
  intros Hr Hpc Hu Hp. split; simpl; try apply Hr.
  - by rewrite Hu, (ro_depth r Hr).
  - intros _. apply (ro_irq r Hr). by left.
  - done.
  - intros ->. apply (ro_unlocked r Hr). destruct (at_ r); done.
Qed.

Lemma rec_ok_push r k m f :
  rec_ok r -> at_ r = Spinning k m f ->
  rec_ok (Record_ (depth r + 1) (upd (levels r) (depth r) (level k))
            (upd (flags r) (depth r) f) (irq_on r) Running (k :: held r)).
Proof.
  intros Hr Hpc. pose proof (ro_pc r Hr) as Hp. rewrite Hpc in Hp. destruct Hp as [Hf Hflag].
  pose proof (ro_depth r Hr) as Hd. rewrite Hpc in Hd. simpl in Hd. rewrite Z.add_0_r in Hd.
  split; simpl.
  - lia.
  - intros [|i] j Hj; simpl in Hj.
    + injection Hj as ->. replace (Z.of_nat (S (length (held r))) - 1 - Z.of_nat 0) with (depth r) by lia.
      apply upd_eq.
    + pose proof (lookup_lt_Some _ _ _ Hj) as Hlt. rewrite upd_ne by lia.
      rewrite <- (ro_levels r Hr i j Hj). f_equal. lia.
  - constructor; [apply Hr|exact Hf].
  - intros _. apply (ro_irq r Hr). left. by rewrite Hpc.
  - intros i Hi. destruct (decide (i = depth r)) as [->|Hne].
    + rewrite upd_eq. destruct f; [|done]. rewrite Hflag in Hd by done. simpl in Hd. lia.
    + rewrite upd_ne by done. apply (ro_flags r Hr). lia.
  - done.
  - done.
Qed.

Lemma rec_ok_unlock r k l :
  rec_ok r -> at_ r = Running -> held r = k :: l ->
  rec_ok (Record_ (depth r) (levels r) (flags r) (irq_on r) Unlocked l).
Proof.
  intros Hr Hpc Hh. pose proof (ro_depth r Hr) as Hd. pose proof (ro_sorted r Hr) as Hs.
  rewrite Hpc, Hh in Hd. rewrite Hh in Hs. simpl in Hd. split; simpl.
  - lia.
  - intros i j Hj. rewrite <- (ro_levels r Hr (S i) j) by (rewrite Hh; done).
    rewrite Hh. simpl length. f_equal. lia.
  - by inversion Hs.
  - intros _. apply (ro_irq r Hr). right. by rewrite Hh.
  - apply Hr.
  - done.
  - intros _. inversion Hs as [|? ? Hs' Hf]; subst. pose proof (level_range k).
    pose proof (sorted_length l k Hs' Hf). lia.
Qed.

Lemma rec_ok_pop r :
  rec_ok r -> at_ r = Unlocked ->
  rec_ok (Record_ (depth r - 1) (levels r) (flags r) (flags r (depth r - 1)) Running (held r)).
Proof.
  intros Hr Hpc. pose proof (ro_depth r Hr) as Hd. rewrite Hpc in Hd. simpl in Hd.
  split; simpl; try apply Hr.
  - lia.
  - intros [?|Hh]; [done|]. apply (ro_flags r Hr). destruct (held r); [done|]. simpl in Hd. lia.
  - intros i Hi. apply (ro_flags r Hr). lia.
  - done.
  - done.
Qed.

Lemma rec_ok_irq r b :
  rec_ok r -> at_ r = Running -> depth r = 0 ->
  rec_ok (Record_ (depth r) (levels r) (flags r) b Running (held r)).
Proof.
  intros Hr Hpc Hz. pose proof (ro_depth r Hr) as Hd. rewrite Hpc in Hd. simpl in Hd.
  split; simpl; try apply Hr; try done.
  intros [?|Hh]; [done|]. destruct (held r); [done|]. simpl in Hd. lia.
Qed.

(** ** Preservation: the queues *)

Lemma queue_length s k q : queued s k q -> Z.of_nat (length q) <= KLOCK_MAX_CPUS.
Proof.
  intros Hq. assert (length q <= length (seqZ 0 KLOCK_MAX_CPUS))%nat as Hle.
  { apply submseteq_length, NoDup_submseteq; [apply Hq|]. intros c Hc.
    apply (q_elem s k q Hq) in Hc as [Hok _]. apply elem_of_seqZ. exact Hok. }
  rewrite length_seqZ in Hle. unfold KLOCK_MAX_CPUS in *. lia.
Qed.

Lemma waits_not_holds s c k : rec_ok (records s c) -> waits s c k -> ~ holds s c k.
Proof.
  intros Hr (m & f & Hpc). pose proof (ro_pc _ Hr) as Hp. unfold pc_of in Hpc.
  rewrite Hpc in Hp. apply below_not_elem, Hp.
Qed.

(** The holder is at the head of the queue. *)
Lemma holder_head s k q c :
  queued s k q -> cpu_ok c -> rec_ok (records s c) -> holds s c k -> exists l, q = c :: l.
Proof.
  intros Hq Hc Hr Hh. assert (c ∈ q) as Hin by (apply (q_elem s k q Hq); auto).
  apply list_elem_of_lookup in Hin as [i Hi].
  destruct (q_pos s k q Hq i c Hi) as [[f Hf]|[-> _]].
  - exfalso. apply (waits_not_holds s c k Hr); [by eexists _, _|done].
  - destruct q as [|c' l]; [done|]. injection Hi as ->. by exists l.
Qed.

(** A change of one record that keeps the CPU's relation to [k]. *)
Lemma queue_frame s s' k q c r' :
  records s' = upd (records s) c r' -> locks s' k = locks s k ->
  (forall m f, at_ r' = Spinning k m f <-> pc_of s c = Spinning k m f) ->
  (k ∈ held r' <-> holds s c k) ->
  queued s k q -> queued s' k q.
Proof.
  intros Hrec Hlk Hpc Hh Hq.
  assert (forall c' m f, pc_of s' c' = Spinning k m f <-> pc_of s c' = Spinning k m f) as Hpc'.
  { intros c' m f. unfold pc_of. rewrite Hrec. destruct (decide (c' = c)) as [->|Hne].
    - rewrite upd_eq. apply Hpc.
    - by rewrite upd_ne. }
  assert (forall c', holds s' c' k <-> holds s c' k) as Hh'.
  { intros c'. unfold holds at 1. rewrite Hrec. destruct (decide (c' = c)) as [->|Hne].
    - rewrite upd_eq. apply Hh.
    - by rewrite upd_ne. }
  split; rewrite ?Hlk; try apply Hq.
  - intros c'. rewrite (q_elem s k q Hq c'), Hh'. unfold waits. by setoid_rewrite Hpc'.
  - intros i c' Hi. rewrite Hh'. setoid_rewrite Hpc'. by apply (q_pos s k q Hq).
Qed.

Lemma queue_ticket s c k f q :
  queued s k q -> cpu_ok c -> rec_ok (records s c) -> pc_of s c = Observed k f ->
  queued (spin_ticket c k f s) k (q ++ [c]).
Proof.
  intros Hq Hc Hr Hpc. pose proof (queue_length s k q Hq) as Hlen.
  assert (~ holds s c k) as Hnh.
  { pose proof (ro_pc _ Hr) as Hp. unfold pc_of in Hpc. rewrite Hpc in Hp.
    apply below_not_elem, Hp. }
  assert (c ∉ q) as Hnq.
  { rewrite (q_elem s k q Hq). intros [_ [(m & f' & Hw)|Hh]]; [congruence|done]. }
  assert (forall c', c' <> c -> records (spin_ticket c k f s) c' = records s c') as Hoth.
  { intros c' Hne. simpl. rewrite klock_cpu_id by done. by apply upd_ne. }
  assert (records (spin_ticket c k f s) c =
    goto (Spinning k (ticket (locks s k)) f) (records s c)) as Hme.
  { simpl. rewrite klock_cpu_id by done. apply upd_eq. }
  split; simpl; rewrite ?upd_eq; simpl.
  - apply NoDup_app. split_and!; [apply Hq| |apply NoDup_singleton].
    intros x Hx Hx'. apply list_elem_of_singleton in Hx' as ->. done.
  - intros c'. rewrite elem_of_app, list_elem_of_singleton, (q_elem s k q Hq).
    unfold waits, holds, pc_of. destruct (decide (c' = c)) as [->|Hne].
    + rewrite Hme. simpl. split; [|auto]. intros _. split; [done|]. left. by eexists _, _.
    + rewrite Hoth by done. tauto.
  - rewrite (q_ticket s k q Hq), length_app, u32_add_l. f_equal. simpl. lia.
  - apply Hq.
  - intros i c' Hi. apply lookup_app_Some in Hi as [Hi|[Hlt Hi]].
    + assert (c' <> c) as Hne.
      { intros ->. apply Hnq. by eapply list_elem_of_lookup_2. }
      unfold pc_of, holds. rewrite Hoth by done. by apply (q_pos s k q Hq).
    + apply list_lookup_singleton_Some in Hi as [Hi <-]. left. exists f. unfold pc_of.
      rewrite Hme. simpl. f_equal. rewrite (q_ticket s k q Hq). f_equal. lia.
Qed.

(** The CPU whose ticket is served moves from waiting to holding. *)
Lemma queue_acquire s c k m f q :
  queued s k q -> cpu_ok c -> pc_of s c = Spinning k m f -> served (locks s k) = m ->
  queued (spin_check level c k m f s) k q.
Proof.
  intros Hq Hc Hpc Hm. pose proof (queue_length s k q Hq) as Hlen.
  pose proof (q_served s k q Hq) as Hsv.
  unfold spin_check. rewrite (proj2 (Z.eqb_eq _ _) Hm), klock_cpu_id by done.
  split; simpl; try apply Hq.
  - intros c'. rewrite (q_elem s k q Hq). unfold waits, holds, pc_of. simpl.
    destruct (decide (c' = c)) as [->|Hne]; [rewrite upd_eq|by rewrite upd_ne].
    simpl. split; intros [? _]; (split; [done|]); [right; left|left; by eexists _, _].
  - intros i c' Hi. destruct (q_pos s k q Hq i c' Hi) as [[f' Hf]|[-> Hh]].
    + destruct (decide (c' = c)) as [->|Hne]; [|left; exists f'; unfold pc_of; simpl; by rewrite upd_ne].
      right. unfold holds. simpl. rewrite upd_eq. split; [|left].
      rewrite Hpc in Hf. injection Hf as Hm' _. rewrite Hm' in Hm.
      apply lookup_lt_Some in Hi. unfold KLOCK_MAX_CPUS in Hlen. unfold is_u32, u32 in *. dmlia.
    + right. split; [done|]. unfold holds in *. simpl.
      destruct (decide (c' = c)) as [->|Hne]; [rewrite upd_eq; by right|by rewrite upd_ne].
Qed.

(** The release removes the head and serves the next ticket. *)
Lemma queue_unlock s s' c k q :
  queued s k (c :: q) -> cpu_ok c -> pc_of s c = Running ->
  k ∉ filter (fun j => j <> k) (held (records s c)) ->
  klock_unlock level c k s = Some s' -> queued s' k q.
Proof.
  intros Hq Hc Hpc Hnk Hs. pose proof (queue_length s k _ Hq) as Hlen. simpl length in Hlen.
  unfold klock_unlock in Hs. rewrite klock_cpu_id in Hs by done. case_if; [done|].
  injection Hs as <-. pose proof (q_nodup s k _ Hq) as Hnd. apply NoDup_cons in Hnd as [Hnq Hnd].
  split; simpl; rewrite ?upd_eq; simpl.
  - done.
  - intros c'. unfold waits, holds, pc_of. simpl. pose proof (q_elem s k _ Hq c') as He.
    destruct (decide (c' = c)) as [->|Hne].
    + rewrite upd_eq. simpl. split; [done|]. intros [_ [(m & f & Hw)|Hh]]; done.
    + rewrite upd_ne by done. rewrite elem_of_cons in He. unfold waits, holds, pc_of in He. tauto.
  - rewrite (q_ticket s k _ Hq), u32_add_l. f_equal. simpl length. lia.
  - apply u32_range.
  - intros i c' Hi. assert (c' <> c) as Hne.
    { intros ->. apply Hnq. by eapply list_elem_of_lookup_2. }
    unfold pc_of, holds. simpl. rewrite upd_ne by done.
    destruct (q_pos s k _ Hq (S i) c' Hi) as [[f Hf]|[? _]]; [|done].
    left. exists f. unfold pc_of in Hf. rewrite Hf. f_equal. rewrite u32_add_l. f_equal. lia.
Qed.

(** A step that only changes the record of [c], to one that waits for and
    holds the same locks. *)
Lemma inv_local s s' c r' :
  inv s -> records s' = upd (records s) c r' -> (forall k, locks s' k = locks s k) ->
  rec_ok r' -> (forall k m f, at_ r' = Spinning k m f <-> pc_of s c = Spinning k m f) ->
  held r' = held (records s c) -> inv s'.
Proof.
  intros Hi Hrec Hlk Hr Hpc Hh. split.
  - intros c' Hc'. rewrite Hrec. destruct (decide (c' = c)) as [->|Hne]; [by rewrite upd_eq|].
    rewrite upd_ne by done. by apply (inv_rec s Hi).
  - intros k. destruct (inv_queue s Hi k) as [q Hq]. exists q.
    eapply (queue_frame s s' k q c r'); try done. unfold holds. by rewrite Hh.
Qed.

Lemma klock_inv_boot : inv boot.
Proof.
  split.
  - intros c _. exact rec_ok_boot.
  - intros k. exists []. split; simpl; try done.
    + constructor.
    + intros c. split; [by intros ?%elem_of_nil|].
      intros [_ [(m & f & Hw)|Hh]]; [done|]. by apply elem_of_nil in Hh.
Qed.

Lemma step_inv_enter s c k s' :
  inv s -> cpu_ok c -> pc_of s c = Running -> klock_enter level c k s = Some s' -> inv s'.
Proof.
  intros Hi Hc Hpc Hs. pose proof (inv_rec s Hi c Hc) as Hr. unfold klock_enter in Hs.
  rewrite klock_cpu_id in Hs by done. case_if; [done|]. boolify. injection Hs as <-.
  eapply inv_local; [done|reflexivity|done| | |done].
  - apply rec_ok_enter; try done. fold (record_level (records s c)) in *.
    unfold klock_order_ok in *. boolify. done.
  - intros j m f. by rewrite Hpc.
Qed.

Lemma step_inv_ticket s c k f :
  inv s -> cpu_ok c -> pc_of s c = Observed k f -> inv (spin_ticket c k f s).
Proof.
  intros Hi Hc Hpc. pose proof (inv_rec s Hi c Hc) as Hr. split.
  - intros c' Hc'. simpl. rewrite klock_cpu_id by done.
    destruct (decide (c' = c)) as [->|Hne]; [|rewrite upd_ne by done; by apply (inv_rec s Hi)].
    pose proof (ro_pc _ Hr) as Hp. unfold pc_of in Hpc. rewrite Hpc in Hp.
    rewrite upd_eq. apply rec_ok_goto; [done|by rewrite Hpc|by rewrite Hpc|done].
  - intros j. destruct (inv_queue s Hi j) as [q Hq].
    destruct (decide (j = k)) as [->|Hne]; [eexists; by apply queue_ticket|]. exists q.
    eapply (queue_frame s _ j q c); simpl; [by rewrite klock_cpu_id|by rewrite upd_ne| |done|done].
    intros m f'. rewrite Hpc. simpl. split; congruence.
Qed.

Lemma step_inv_spin s c k m f :
  inv s -> cpu_ok c -> pc_of s c = Spinning k m f -> inv (spin_check level c k m f s).
Proof.
  intros Hi Hc Hpc. pose proof (inv_rec s Hi c Hc) as Hr.
  destruct (decide (served (locks s k) = m)) as [Hm|Hm].
  2: { unfold spin_check. by rewrite (proj2 (Z.eqb_neq _ _) Hm). }
  split.
  - intros c' Hc'. unfold spin_check. rewrite (proj2 (Z.eqb_eq _ _) Hm), klock_cpu_id by done.
    simpl. destruct (decide (c' = c)) as [->|Hne]; [|rewrite upd_ne by done; by apply (inv_rec s Hi)].
    rewrite upd_eq. by apply (rec_ok_push _ k m f).
  - intros j. destruct (inv_queue s Hi j) as [q Hq]. exists q.
    destruct (decide (j = k)) as [->|Hne]; [by apply queue_acquire|].
    unfold spin_check. rewrite (proj2 (Z.eqb_eq _ _) Hm), klock_cpu_id by done.
    eapply (queue_frame s _ j q c); simpl; [reflexivity|done| | |done].
    + intros m' f'. rewrite Hpc. simpl. split; congruence.
    + unfold holds. simpl. rewrite elem_of_cons. tauto.
Qed.

Lemma step_inv_unlock s c k s' :
  inv s -> cpu_ok c -> pc_of s c = Running -> holds s c k ->
  klock_unlock level c k s = Some s' -> inv s'.
Proof.
  intros Hi Hc Hpc Hh Hs. pose proof (inv_rec s Hi c Hc) as Hr. pose proof Hs as Hs0.
  unfold klock_unlock in Hs. rewrite klock_cpu_id in Hs by done. case_if; [done|]. boolify.
  assert (record_level (records s c) = level k) as Hlev.
  { unfold record_level. by rewrite (proj2 (nz_true _)). }
  destruct (held_top _ k Hr) as (l & Hl & Hfil); [by unfold pc_of in Hpc; rewrite Hpc|done|done|].
  injection Hs as <-. split.
  - intros c' Hc'. simpl.
    destruct (decide (c' = c)) as [->|Hne]; [|rewrite upd_ne by done; by apply (inv_rec s Hi)].
    rewrite upd_eq, Hfil. by apply (rec_ok_unlock _ k).
  - intros j. destruct (inv_queue s Hi j) as [q Hq].
    destruct (decide (j = k)) as [->|Hne].
    + destruct (holder_head s k q c Hq Hc Hr Hh) as [q' ->]. exists q'.
      eapply queue_unlock; try done. rewrite list_elem_of_filter. tauto.
    + exists q. eapply (queue_frame s _ j q c); simpl; [reflexivity|by rewrite upd_ne| | |done].
      * intros m' f'. rewrite Hpc. done.
      * unfold holds. simpl. rewrite list_elem_of_filter. tauto.
Qed.

Lemma klock_step_inv s s' : inv s -> step level s s' -> inv s'.
Proof.
  intros Hi Hs. inversion Hs as [? c k ? Hc Hpc|? c k f Hc Hpc|? c k f Hc Hpc|? c k m f Hc Hpc
    |? c k ? Hc Hpc|? c Hc Hpc|? c b Hc Hpc Hz]; subst; pose proof (inv_rec s Hi c Hc) as Hr.
  - by eapply step_inv_enter.
  - eapply (inv_local s _ c); simpl; [done|by rewrite klock_cpu_id|done| | |].
    + pose proof (ro_pc _ Hr) as Hp. unfold pc_of in Hpc.
      rewrite Hpc in Hp. apply rec_ok_goto; [done|by rewrite Hpc|by rewrite Hpc|exact Hp].
    + intros j m' f'. by rewrite Hpc.
    + done.
  - by apply step_inv_ticket.
  - by apply step_inv_spin.
  - by eapply step_inv_unlock.
  - eapply (inv_local s _ c); simpl; [done|by rewrite klock_cpu_id|done| | |].
    + by apply rec_ok_pop.
    + intros j m' f'. by rewrite Hpc.
    + done.
  - eapply (inv_local s _ c); simpl; [done|by rewrite klock_cpu_id|done| | |].
    + by apply rec_ok_irq.
    + intros j m' f'. by rewrite Hpc.
    + done.
Qed.

Lemma klock_reachable_inv s : reachable level s -> inv s.
Proof.
  unfold reachable. intros Hs. assert (inv boot) as Hb by exact klock_inv_boot. revert Hb.
  induction Hs as [|s1 s2 s3 H1 _ IH]; [done|]. intros Hb. by eapply IH, klock_step_inv.
Qed.

(** ** Consequences *)

Lemma mutual_exclusion s c c' k :
  inv s -> cpu_ok c -> cpu_ok c' -> holds s c k -> holds s c' k -> c = c'.
Proof.
  intros Hi Hc Hc' Hh Hh'. destruct (inv_queue s Hi k) as [q Hq].
  destruct (holder_head s k q c Hq Hc (inv_rec s Hi c Hc) Hh) as [l ->].
  destruct (holder_head s k _ c' Hq Hc' (inv_rec s Hi c' Hc') Hh') as [l' Hl]. congruence.
Qed.

(** The CPU can take its next lock action, or is running inside a critical
    section. *)
Definition can_move (s : state) (c : Z) : Prop :=
  match pc_of s c with
  | Running => held (records s c) <> []
  | Spinning k m _ => served (locks s k) = m
  | _ => True
  end.

(** Follows the lock order upwards from a waiting CPU to one that can move. *)
Lemma progress n s c k :
  inv s -> cpu_ok c -> waits s c k -> KLOCK_LEVEL_PMM - level k < Z.of_nat n ->
  exists c', cpu_ok c' /\ can_move s c'.
Proof.
  revert c k. induction n as [|n IH]; intros c k Hi Hc Hw Hn.
  { pose proof (level_range k). lia. }
  destruct (inv_queue s Hi k) as [q Hq].
  assert (c ∈ q) as Hin by (apply (q_elem s k q Hq); auto).
  destruct q as [|c0 q]; [by apply elem_of_nil in Hin|].
  assert (cpu_ok c0) as Hc0 by (apply (q_elem s k _ Hq); left).
  destruct (q_pos s k _ Hq O c0 eq_refl) as [[f Hf]|[_ Hh]].
  - exists c0. split; [done|]. unfold can_move. rewrite Hf. rewrite Z.add_0_r.
    symmetry. apply u32_small, Hq.
  - pose proof (inv_rec s Hi c0 Hc0) as Hr. pose proof (ro_pc _ Hr) as Hp.
    destruct (pc_of s c0) as [|j f|j f|j m f|] eqn:Hpc.
    4: { apply (IH c0 j Hi Hc0); [by eexists _, _|]. unfold pc_of in Hpc. rewrite Hpc in Hp.
         destruct Hp as [Hp _]. rewrite Forall_forall in Hp. specialize (Hp k Hh).
         unfold below in Hp. lia. }
    all: exists c0; split; [done|]; unfold can_move; rewrite Hpc; try done.
    intros He. unfold holds in Hh. rewrite He in Hh. by apply elem_of_nil in Hh.
Qed.

(** The number of CPUs ahead of a waiting one. *)
Definition ahead (s : state) (k m : Z) : Z := u32 (m - served (locks s k)).

Lemma ahead_index s k q c m f :
  inv s -> cpu_ok c -> queued s k q -> pc_of s c = Spinning k m f ->
  exists i, q !! i = Some c /\ ahead s k m = Z.of_nat i /\ Z.of_nat i < KLOCK_MAX_CPUS.
Proof.
  intros Hi Hc Hq Hpc. assert (c ∈ q) as Hin.
  { apply (q_elem s k q Hq). split; [done|]. left. by eexists _, _. }
  apply list_elem_of_lookup in Hin as [i Hi']. exists i.
  pose proof (lookup_lt_Some _ _ _ Hi') as Hlt. pose proof (queue_length s k q Hq) as Hlen.
  split_and!; [done| |lia]. destruct (q_pos s k q Hq i c Hi') as [[f' Hf]|[_ Hh]].
  - rewrite Hpc in Hf. injection Hf as -> _. unfold ahead. rewrite u32_sub_l.
    replace (served (locks s k) + Z.of_nat i - served (locks s k)) with (Z.of_nat i) by lia.
    apply u32_small. unfold is_u32, KLOCK_MAX_CPUS in *. lia.
  - exfalso. apply (waits_not_holds s c k (inv_rec s Hi c Hc)); [by eexists _, _|done].
Qed.

(** No step of any CPU moves a waiting one backwards. *)
Lemma fifo_step s s' c k m f :
  inv s -> step level s s' -> cpu_ok c -> pc_of s c = Spinning k m f ->
  (pc_of s' c = Spinning k m f /\ ahead s' k m <= ahead s k m) \/
  (ahead s k m = 0 /\ holds s' c k).
Proof.
  intros Hi Hs Hc Hpc. destruct (inv_queue s Hi k) as [q Hq].
  destruct (ahead_index s k q c m f Hi Hc Hq Hpc) as (i & Hq' & Ha & Hlt).
  assert (forall c0 r', c0 <> c -> at_ (upd (records s) c0 r' c) = Spinning k m f) as Hother.
  { intros c0 r' Hne. by rewrite upd_ne by done. }
  inversion Hs as [? c0 k0 ? Hc0 Hpc0 He|? c0 k0 f0 Hc0 Hpc0|? c0 k0 f0 Hc0 Hpc0
    |? c0 k0 m0 f0 Hc0 Hpc0|? c0 k0 ? Hc0 Hpc0 Hh He|? c0 Hc0 Hpc0|? c0 b Hc0 Hpc0 Hz]; subst.
  - assert (c0 <> c) by congruence. unfold klock_enter in He. rewrite klock_cpu_id in He by done.
    case_if; [done|]. injection He as <-. left. split; [by apply Hother|done].
  - assert (c0 <> c) by congruence. left. unfold pc_of. simpl. rewrite klock_cpu_id by done.
    split; [by apply Hother|done].
  - assert (c0 <> c) by congruence. left. unfold pc_of, ahead. simpl. rewrite klock_cpu_id by done.
    split; [by apply Hother|].
    destruct (decide (k = k0)) as [->|Hne]; [by rewrite upd_eq|by rewrite upd_ne].
  - unfold spin_check. rewrite klock_cpu_id by done.
    destruct (Z.eqb_spec (served (locks s k0)) m0) as [Hm|Hm]; [|by left].
    destruct (decide (c0 = c)) as [->|Hne]; [|left; split; [by apply Hother|done]].
    right. rewrite Hpc in Hpc0. injection Hpc0 as <- <- <-. split.
    + unfold ahead. by rewrite Hm, Z.sub_diag.
    + unfold holds. simpl. rewrite upd_eq. simpl. left.
  - assert (c0 <> c) as Hne by congruence. pose proof He as He'. unfold klock_unlock in He.
    rewrite klock_cpu_id in He by done. case_if; [done|]. injection He as <-. left.
    split; [by apply Hother|]. unfold ahead in *. simpl.
    destruct (decide (k = k0)) as [->|Hk]; [|by rewrite upd_ne].
    rewrite upd_eq. simpl. destruct (holder_head s k0 q c0 Hq Hc0 (inv_rec s Hi c0 Hc0) Hh) as [l ->].
    destruct i as [|i]; [simpl in Hq'; congruence|].
    rewrite u32_sub_r. replace (m - (served (locks s k0) + 1)) with (m - served (locks s k0) - 1) by lia.
    rewrite <- u32_sub_l, Ha, u32_small by (unfold is_u32, KLOCK_MAX_CPUS in *; lia). lia.
  - assert (c0 <> c) by congruence. left. unfold pc_of. simpl. rewrite klock_cpu_id by done.
    split; [by apply Hother|done].
  - assert (c0 <> c) by congruence. left. unfold pc_of. simpl. rewrite klock_cpu_id by done.
    split; [by apply Hother|done].
Qed.

(** With the order respected the depth bound is never reached. *)
Lemma enter_panics s c k :
  inv s -> cpu_ok c -> pc_of s c = Running ->
  (klock_enter level c k s = None <-> level k <= klock_held_level c s).
Proof.
  intros Hi Hc Hpc. pose proof (inv_rec s Hi c Hc) as Hr. unfold klock_enter, klock_held_level.
  rewrite klock_cpu_id by done. fold (record_level (records s c)). unfold klock_order_ok.
  unfold pc_of in Hpc. destruct (Z.ltb_spec (record_level (records s c)) (level k)) as [Hl|Hl].
  - pose proof (sorted_below_all _ k Hr ltac:(by rewrite Hpc) Hl) as Hf.
    pose proof (sorted_length _ k (ro_sorted _ Hr) Hf) as Hlen. pose proof (level_range k) as Hlr.
    pose proof (ro_depth _ Hr) as Hd. rewrite Hpc in Hd. simpl in Hd.
    unfold KLOCK_DEPTH_MAX, KLOCK_LEVEL_PMM in *.
    destruct (Z.leb_spec 14 (depth (records s c))); [lia|]. simpl. split; [done|lia].
  - rewrite orb_true_r. split; [lia|done].
Qed.

End Invariant.

(** ** Properties *)

(** The levels of the locks the kernel declares, one index per lock; the tty
    and poll wait locks share level 4. *)
Definition klock_levels : list Z := [1; 2; 3; 4; 4; 5; 6; 7; 8; 9; 10; 11; 12; 13; 14].

Definition kernel_level (k : Z) : Z := default 1 (klock_levels !! Z.to_nat k).

Lemma kernel_level_range k : 1 <= kernel_level k <= KLOCK_LEVEL_PMM.
Proof.
  unfold kernel_level. destruct (klock_levels !! Z.to_nat k) as [l|] eqn:Hl; simpl;
    [|unfold KLOCK_LEVEL_PMM; lia].
  assert (Forall (fun l => 1 <= l <= KLOCK_LEVEL_PMM) klock_levels) as Hf
    by (unfold KLOCK_LEVEL_PMM; repeat constructor; lia).
  rewrite Forall_lookup in Hf. by apply Hf in Hl.
Qed.

(** CPU 0 holds lock 14 (the page allocator's) ... *)
Definition example_held : state :=
  let s := default boot (klock_enter kernel_level 0 14 boot) in
  let s := klock_observe kernel_level 0 14 true s in
  let s := spin_ticket 0 14 true s in
  spin_check kernel_level 0 14 0 true s.

(** ... and CPU 1 waits for it. *)
Definition example_wait : state :=
  let s := default boot (klock_enter kernel_level 1 14 example_held) in
  let s := klock_observe kernel_level 1 14 true s in
  spin_ticket 1 14 true s.

Lemma example_held_reachable : reachable kernel_level example_held.
Proof.
  eapply rtc_l; [apply (step_enter _ _ 0 14); [unfold cpu_ok, KLOCK_MAX_CPUS; lia|reflexivity..]|].
  eapply rtc_l; [apply (step_observe _ _ 0 14 true); [unfold cpu_ok, KLOCK_MAX_CPUS; lia|reflexivity]|].
  eapply rtc_l; [apply (step_ticket _ _ 0 14 true); [unfold cpu_ok, KLOCK_MAX_CPUS; lia|reflexivity]|].
  eapply rtc_l; [apply (step_spin _ _ 0 14 0 true); [unfold cpu_ok, KLOCK_MAX_CPUS; lia|reflexivity]|].
  apply rtc_refl.
Qed.

Lemma example_wait_reachable : reachable kernel_level example_wait.
Proof.
  unfold reachable. etrans; [exact example_held_reachable|].
  eapply rtc_l; [apply (step_enter _ _ 1 14); [unfold cpu_ok, KLOCK_MAX_CPUS; lia|reflexivity..]|].
  eapply rtc_l; [apply (step_observe _ _ 1 14 true); [unfold cpu_ok, KLOCK_MAX_CPUS; lia|reflexivity]|].
  eapply rtc_l; [apply (step_ticket _ _ 1 14 true); [unfold cpu_ok, KLOCK_MAX_CPUS; lia|reflexivity]|].
  apply rtc_refl.
Qed.

(** C17: Mutual exclusion: in every interleaving of the sixteen CPUs, at most
    one CPU is inside the critical section of a lock, wrap-around of the
    32-bit ticket counters included. *)
Theorem klock_mutual_exclusion level s c c' k :
  (forall k, 1 <= level k <= KLOCK_LEVEL_PMM) -> reachable level s ->
  cpu_ok c -> cpu_ok c' -> holds s c k -> holds s c' k -> c = c'.
Proof.
  intros Hl Hs. apply mutual_exclusion with (level := level). by apply klock_reachable_inv.
Qed.

Lemma klock_mutual_exclusion_witness :
  holds example_held 0 14 /\ forall c, cpu_ok c -> holds example_held c 14 -> 0 = c.
Proof.
  assert (holds example_held 0 14) as H0 by (vm_compute; constructor).
  split; [exact H0|]. intros c Hc Hh.
  apply (klock_mutual_exclusion kernel_level example_held 0 c 14 kernel_level_range
    example_held_reachable ltac:(unfold cpu_ok, KLOCK_MAX_CPUS; lia) Hc H0 Hh).
Defined.

(** C40: Deadlock freedom: whenever a CPU spins on a lock, some CPU is inside a
    critical section and running, or its next lock action succeeds; the
    strict level order rules out a cycle of waiting holders. *)
Theorem klock_deadlock_free level s c k m f :
  (forall k, 1 <= level k <= KLOCK_LEVEL_PMM) -> reachable level s ->
  cpu_ok c -> pc_of s c = Spinning k m f ->
  exists c', cpu_ok c' /\ can_move s c'.
Proof.
  intros Hl Hs Hc Hpc. apply (progress level Hl 14 s c k).
  - by apply klock_reachable_inv.
  - done.
  - by eexists _, _.
  - pose proof (Hl k). unfold KLOCK_LEVEL_PMM in *. lia.
Qed.

Lemma klock_deadlock_free_witness : exists c', cpu_ok c' /\ can_move example_wait c'.
Proof.
  apply (klock_deadlock_free kernel_level example_wait 1 14 1 true kernel_level_range
    example_wait_reachable).
  - unfold cpu_ok, KLOCK_MAX_CPUS. lia.
  - vm_compute. reflexivity.
Defined.

(** Bounded waiting: fewer than sixteen CPUs are ahead of a spinning one,
    and no step of any CPU increases that number; the CPU keeps its ticket
    until it is at the head and enters. *)
Theorem klock_bounded_waiting level s s' c k m f :
  (forall k, 1 <= level k <= KLOCK_LEVEL_PMM) -> reachable level s -> step level s s' ->
  cpu_ok c -> pc_of s c = Spinning k m f ->
  0 <= ahead s k m < KLOCK_MAX_CPUS /\
  ((pc_of s' c = Spinning k m f /\ ahead s' k m <= ahead s k m) \/
   (ahead s k m = 0 /\ holds s' c k)).
Proof.
  intros Hl Hs Hst Hc Hpc. assert (inv level s) as Hi by (by apply klock_reachable_inv). split.
  - destruct (inv_queue level s Hi k) as [q Hq].
    destruct (ahead_index level s k q c m f Hi Hc Hq Hpc) as (i & _ & -> & ?). lia.
  - by eapply fifo_step.
Qed.

Lemma klock_bounded_waiting_witness :
  ahead example_wait 14 1 = 1 /\
  ahead (default boot (klock_unlock kernel_level 0 14 example_wait)) 14 1 <= 1.
Proof.
  assert (ahead example_wait 14 1 = 1) as H1 by (vm_compute; reflexivity).
  split; [exact H1|].
  destruct (klock_bounded_waiting kernel_level example_wait
    (default boot (klock_unlock kernel_level 0 14 example_wait)) 1 14 1 true kernel_level_range
    example_wait_reachable) as [_ [[_ H]|[H _]]].
  - apply (step_unlock _ _ 0 14); [unfold cpu_ok, KLOCK_MAX_CPUS; lia|reflexivity| |reflexivity].
    vm_compute. constructor.
  - unfold cpu_ok, KLOCK_MAX_CPUS. lia.
  - reflexivity.
  - rewrite H1 in H. exact H.
  - rewrite H1 in H. lia.
Defined.

(** While a CPU holds a lock its interrupts stay masked and its record
    holds at most fourteen levels; [klock_acquire] panics exactly when the
    wanted level is not above the held one, so the depth check alone never
    fires. *)
Theorem klock_record_bounds level s c :
  (forall k, 1 <= level k <= KLOCK_LEVEL_PMM) -> reachable level s -> cpu_ok c ->
  let r := records s c in
  (held r <> [] -> irq_on r = false) /\
  Z.of_nat (length (held r)) <= depth r <= KLOCK_DEPTH_MAX /\
  (pc_of s c = Running -> forall k,
     klock_enter level c k s = None <-> level k <= klock_held_level c s).
Proof.
  intros Hl Hs Hc r. assert (inv level s) as Hi by (by apply klock_reachable_inv).
  pose proof (inv_rec level s Hi c Hc) as Hr. fold r in Hr. split_and!.
  - intros Hh. apply (ro_irq level r Hr). by right.
  - rewrite (ro_depth level r Hr). destruct (at_ r); simpl; lia.
  - rewrite (ro_depth level r Hr). pose proof (sorted_depth level Hl _ (ro_sorted level r Hr)) as Hd.
    unfold KLOCK_DEPTH_MAX, KLOCK_LEVEL_PMM in *. destruct (at_ r) eqn:Hpc; simpl; try lia.
    pose proof (ro_unlocked level r Hr Hpc) as Hu. unfold KLOCK_LEVEL_PMM in Hu. lia.
  - intros Hpc k. by apply enter_panics.
Qed.

Lemma klock_record_bounds_witness :
  irq_on (records example_held 0) = false /\ klock_enter kernel_level 0 13 example_held = None.
Proof.
  destruct (klock_record_bounds kernel_level example_held 0 kernel_level_range
    example_held_reachable ltac:(unfold cpu_ok, KLOCK_MAX_CPUS; lia)) as (Hirq & _ & Hp).
  split.
  - apply Hirq. vm_compute. discriminate.
  - apply Hp; [reflexivity|]. vm_compute. discriminate.
Defined.

End Klock.
