(* ===== verification/Task.v ===== *)
(** The task pool: [src/process/task.c], [src/process/task.h].

    [struct task] is a store from field names to values, so that a sequence
    of assignments reads like the code and "every other field is unchanged"
    is one statement.  A [struct task *] is the slot index in [task_pool], a
    null pointer is [None].  Each critical section under the pool lock is one
    step, by the mutual exclusion proved in [Klock].  The teardown that
    [task_free_slot] and [task_mark_zombie] call in other modules is the
    interface [TaskModules]. *)

From S2P Require Import Prelude.

Module Task.

Definition MAX_TASKS : Z := 32.

Definition MAX_MMIO_GRANTS : Z := 4.

Definition TASK_RUNNING : Z := 0.

Definition TASK_BLOCKED_SEND : Z := 1.

Definition TASK_BLOCKED_RECV : Z := 2.

Definition TASK_ZOMBIE : Z := 3.

Definition TASK_FREE : Z := 4.

Definition TASK_BLOCKED_WAIT : Z := 5.

Definition TASK_BLOCKED_EVENT : Z := 6.

Definition TASK_SUSPENDED : Z := 7.

Definition TASK_BLOCKED_SLEEP : Z := 8.

Definition TASK_BLOCKED_PIPE : Z := 9.

Definition TASK_BLOCKED_SOCKET : Z := 10.

Definition TASK_BLOCKED_POLL : Z := 11.

Definition TASK_STOPPED : Z := 12.

Definition TASK_BLOCKED_TTY : Z := 13.

Definition TASK_CPU_NONE : Z := -1.

Definition USER_CS : Z := 0x1B.

Definition USER_SS : Z := 0x23.

Definition USER_EFLAGS : Z := 0x202.

(** [PID_SLOT(pid)] *)
Definition PID_SLOT (pid : Z) : Z := Z.land (u32 pid) 0xFFFF.

(** [PID_GEN(pid)] *)
Definition PID_GEN (pid : Z) : Z := Z.shiftr (u32 pid) 16.

(** [PID_MAKE(gen, slot)] *)
Definition PID_MAKE (gen slot : Z) : Z := Z.lor (u32 (Z.shiftl (u32 gen) 16)) (Z.land (u32 slot) 0xFFFF).

(** The members of [struct task]. *)
Inductive field :=
  | f_esp | f_eip | f_page_dir | f_stack | f_kernel_stack | f_id | f_ring | f_state
  | f_recv_buf | f_pending_msg | f_iomap | f_name (i : Z) | f_next | f_wq_head | f_wq_tail
  | f_parent_id | f_exit_code | f_exit_signal | f_wait_pid | f_wait_posix
  | f_wait_status_address | f_wait_options | f_stop_report | f_continued_report
  | f_stop_answer | f_stop_answer_set | f_kstack_phys | f_exec_gate | f_recv_expect | f_gen
  | f_send_result | f_send_to | f_send_deadline | f_sleep_deadline | f_sleep_request
  | f_poll_deadline | f_capabilities | f_irq_rights | f_uid | f_gid | f_umask
  | f_mmio_phys (i : Z) | f_mmio_length (i : Z) | f_mmio_mapped_va (i : Z)
  | f_dma_page_limit | f_dma_pages_used | f_dma_max_addr | f_on_cpu | f_is_idle.

#[global] Instance field_eq_dec : EqDecision field.
Proof. solve_decision. Defined.

Definition task : Type := field -> Z.

Definition set (f : field) (v : Z) (t : task) : task := fun g => if decide (g = f) then v else t g.

(** A sequence of assignments [t->f = v]. *)
Definition assign (l : list (field * Z)) (t : task) : task :=
  fold_left (fun t fv => set (fst fv) (snd fv) t) l t.

Record pool := Pool { tasks : Z -> task; task_pool_count : Z }.

(** The statically zeroed pool. *)
Definition pool_boot : pool := Pool (fun _ _ => 0) 0.

Definition write (slot : Z) (l : list (field * Z)) (p : pool) : pool :=
  Pool (upd (tasks p) slot (assign l (tasks p slot))) (task_pool_count p).

Definition task_full_pid (slot : Z) (p : pool) : Z := PID_MAKE (tasks p slot f_gen) slot.

Definition clear_dynamic : list (field * Z) :=
  [(f_page_dir, 0); (f_recv_buf, 0); (f_pending_msg, 0); (f_iomap, 0); (f_next, 0);
   (f_wq_head, 0); (f_wq_tail, 0); (f_parent_id, -1); (f_exit_code, 0); (f_exit_signal, 0);
   (f_wait_pid, -1); (f_wait_posix, 0); (f_wait_status_address, 0); (f_kstack_phys, 0);
   (f_exec_gate, 0); (f_recv_expect, 0); (f_send_result, 0); (f_send_to, 0);
   (f_send_deadline, 0); (f_sleep_deadline, 0); (f_sleep_request, 0); (f_capabilities, 0);
   (f_irq_rights, 0)] ++
  (i ← seqZ 0 MAX_MMIO_GRANTS;
   [(f_mmio_phys i, 0); (f_mmio_length i, 0); (f_mmio_mapped_va i, 0)]) ++
  [(f_dma_page_limit, 0); (f_dma_pages_used, 0); (f_dma_max_addr, 0);
   (f_on_cpu, TASK_CPU_NONE); (f_is_idle, 0); (f_name 0, 0)].

Definition task_clear_dynamic (slot : Z) (p : pool) : pool := write slot clear_dynamic p.

Definition task_state_wake_locked (slot from_state : Z) (p : pool) : bool * pool :=
  if negb (tasks p slot f_state =? from_state) then (false, p)
  else (true, write slot [(f_state, TASK_RUNNING)] p).

Definition task_state_wake (t : option Z) (from_state : Z) (p : pool) : bool * pool :=
  match t with
  | None => (false, p)
  | Some slot => task_state_wake_locked slot from_state p
  end.

Definition task_state_set_locked (slot state : Z) (p : pool) : pool :=
  write slot [(f_state, state)] p.

Definition task_state_set (t : option Z) (state : Z) (p : pool) : pool :=
  match t with
  | None => p
  | Some slot => task_state_set_locked slot state p
  end.

Definition task_sleep_block_locked (slot deadline : Z) (p : pool) : pool :=
  write slot [(f_sleep_deadline, deadline); (f_state, TASK_BLOCKED_SLEEP)] p.

Definition task_sleep_block (t : option Z) (deadline : Z) (p : pool) : pool :=
  match t with
  | None => p
  | Some slot => task_sleep_block_locked slot deadline p
  end.

Definition task_sleep_expire_locked (slot : Z) (p : pool) : pool :=
  write slot [(f_sleep_deadline, 0); (f_state, TASK_RUNNING)] p.

(** The claim returns what the sleep owed: the deadline and the request. *)
Definition task_sleep_wake_claim (slot : Z) (p : pool) : option (Z * Z) * pool :=
  if tasks p slot f_state =? TASK_BLOCKED_SLEEP then
    (Some (tasks p slot f_sleep_deadline, tasks p slot f_sleep_request),
     write slot [(f_sleep_deadline, 0); (f_sleep_request, 0); (f_state, TASK_RUNNING)] p)
  else (None, p).

Definition task_exit_signal_set (t : option Z) (signo : Z) (p : pool) : pool :=
  match t with
  | None => p
  | Some slot => write slot [(f_exit_signal, signo)] p
  end.

Definition task_wait_park (t : option Z) (pid posix options status_address : Z) (p : pool) : pool :=
  match t with
  | None => p
  | Some slot =>
      write slot [(f_wait_pid, pid); (f_wait_posix, posix); (f_wait_options, options);
                  (f_wait_status_address, status_address); (f_state, TASK_BLOCKED_WAIT)] p
  end.

(** The wait matches the child. *)
Definition wait_matches (slot child_id : Z) (p : pool) : bool :=
  let t := tasks p slot in
  (t f_state =? TASK_BLOCKED_WAIT) && ((t f_wait_pid =? -1) || (t f_wait_pid =? child_id)).

Definition task_wait_wake (t : option Z) (child_id : Z) (p : pool) : bool * pool :=
  match t with
  | None => (false, p)
  | Some slot =>
      if wait_matches slot child_id p
      then (true, write slot [(f_wait_pid, -1); (f_state, TASK_RUNNING)] p)
      else (false, p)
  end.

Definition wait_clear : list (field * Z) :=
  [(f_wait_pid, -1); (f_wait_posix, 0); (f_wait_options, 0); (f_wait_status_address, 0);
   (f_state, TASK_RUNNING)].

Definition task_wait_cancel (t : option Z) (child_id : Z) (p : pool) : bool * pool :=
  match t with
  | None => (false, p)
  | Some slot =>
      if wait_matches slot child_id p then (true, write slot wait_clear p) else (false, p)
  end.

Definition task_wait_clear (t : option Z) (p : pool) : pool :=
  match t with
  | None => p
  | Some slot => write slot wait_clear p
  end.

Definition task_cpu_claim (t : option Z) (cpu : Z) (p : pool) : pool :=
  match t with
  | None => p
  | Some slot => write slot [(f_on_cpu, cpu)] p
  end.

Definition task_cpu_release (t : option Z) (p : pool) : pool := task_cpu_claim t TASK_CPU_NONE p.

Definition task_alloc_slot (p : pool) : option Z * pool :=
  let t := scan_range 1 MAX_TASKS (fun i => tasks p i f_state =? TASK_FREE) in
  let '(t, p) :=
    match t with
    | Some i => (Some i, p)
    | None =>
        if task_pool_count p <? MAX_TASKS
        then (Some (task_pool_count p), Pool (tasks p) (task_pool_count p + 1))
        else (None, p)
    end in
  match t with
  | None => (None, p)
  | Some i =>
      let gen := tasks p i f_gen in
      (Some i, write i [(f_state, TASK_RUNNING); (f_on_cpu, TASK_CPU_NONE);
                        (f_id, if nz gen then i32 (PID_MAKE gen i) else i)] p)
  end.

(** The other modules' per-task teardown.  [W] is their state; closing
    descriptors may wake tasks blocked on the other end. *)
Class TaskModules (W : Type) := {
  posix_fd_close_all : Z -> pool * W -> pool * W;
  posix_profile_release : Z -> pool * W -> pool * W;
  posix_signal_reset : Z -> W -> W;
  posix_pgroup_reset : Z -> W -> W;
  posix_pledge_reset : Z -> W -> W;
  arch_task_release : Z -> W -> W
}.

Section Teardown.
Context {W : Type} `{TaskModules W}.

Definition task_free_slot (slot : Z) (pw : pool * W) : pool * W :=
  let g := tasks (fst pw) slot f_gen in
  let pw := (write slot [(f_exit_signal, 0)] (fst pw), snd pw) in
  let '(p, w) := posix_profile_release slot (posix_fd_close_all slot pw) in
  let w := arch_task_release slot
             (posix_pledge_reset slot (posix_pgroup_reset slot (posix_signal_reset slot w))) in
  let g := Z.land (u32 (g + 1)) 0x7FFF in
  let g := if negb (nz g) then 1 else g in
  let p := task_clear_dynamic slot p in
  (write slot [(f_esp, 0); (f_eip, 0); (f_stack, 0); (f_kernel_stack, 0); (f_gen, g);
               (f_state, TASK_FREE)] p, w).

Definition task_mark_zombie (slot code : Z) (pw : pool * W) : pool * W :=
  let '(p, w) := posix_profile_release slot (posix_fd_close_all slot pw) in
  let w := posix_pledge_reset slot (posix_pgroup_reset slot (posix_signal_reset slot w)) in
  (write slot [(f_exit_code, code); (f_on_cpu, TASK_CPU_NONE); (f_state, TASK_ZOMBIE);
               (f_recv_buf, 0); (f_recv_expect, 0); (f_pending_msg, 0); (f_send_to, 0);
               (f_send_deadline, 0); (f_sleep_deadline, 0); (f_sleep_request, 0); (f_next, 0);
               (f_wait_pid, -1); (f_wait_posix, 0); (f_wait_status_address, 0);
               (f_capabilities, 0); (f_irq_rights, 0)] p, w).

(** The exit code on success, [None] for -1. *)
Definition task_reap_zombie (parent : option Z) (pid : Z) (pw : pool * W) : option Z * (pool * W) :=
  let p := fst pw in
  let slot := PID_SLOT pid in
  match parent with
  | None => (None, pw)
  | Some parent =>
      if (slot =? 0) || (u32 (task_pool_count p) <=? slot) then (None, pw) else
      if (tasks p slot f_state =? TASK_ZOMBIE) && (tasks p slot f_id =? pid) &&
         (tasks p slot f_parent_id =? tasks p parent f_id)
      then (Some (tasks p slot f_exit_code), task_free_slot slot pw)
      else (None, pw)
  end.

End Teardown.

(** The scan shared by the two pick loops: [n] offsets remain.  Returns
    [pick] and [idle]. *)
Fixpoint pick_scan (n : nat) (p : pool) (owner_ok : Z -> bool) (current offset idle : Z) : Z * Z :=
  match n with
  | O => (-1, idle)
  | S n =>
      let candidate := Z.rem (current + offset) (task_pool_count p) in
      let t := tasks p candidate in
      if negb (t f_state =? TASK_RUNNING) then pick_scan n p owner_ok current (offset + 1) idle
      else if negb (owner_ok (t f_on_cpu)) then pick_scan n p owner_ok current (offset + 1) idle
      else if nz (t f_is_idle) then
        pick_scan n p owner_ok current (offset + 1) (if idle <? 0 then candidate else idle)
      else (candidate, idle)
  end.

Definition task_pick_locked (current cpu : Z) (claim : bool) (p : pool) : Z * pool :=
  if task_pool_count p <=? 0 then (-1, p) else
  let '(pick, idle) :=
    pick_scan (Z.to_nat (task_pool_count p)) p
      (fun owner => (owner =? TASK_CPU_NONE) || (owner =? cpu)) current 1 (-1) in
  let pick := if pick <? 0 then idle else pick in
  (pick, if claim && (0 <=? pick) then write pick [(f_on_cpu, cpu)] p else p).

Definition task_pick_next (current cpu : Z) (p : pool) : Z :=
  fst (task_pick_locked current cpu false p).

Definition task_pick_and_claim (current cpu : Z) (p : pool) : Z * pool :=
  task_pick_locked current cpu true p.

Definition task_pick_pinned (cpu current : Z) (p : pool) : Z :=
  let '(pick, idle) :=
    pick_scan (Z.to_nat (task_pool_count p)) p (fun owner => owner =? cpu) current 1 (-1) in
  if 0 <=? pick then pick else idle.

(** The part of a path after its last slash. *)
Fixpoint basename (path base : list Z) : list Z :=
  match path with
  | [] => base
  | c :: path' => basename path' (if c =? 0x2F then path' else base)
  end.

(** The copy loop: [n] characters may still be written from index [j]. *)
Fixpoint copy_name (n : nat) (j : Z) (base : list Z) (t : task) : task :=
  match n, base with
  | S n, c :: base' =>
      if c =? 0x2E then set (f_name j) 0 t
      else copy_name n (j + 1) base' (set (f_name j) c t)
  | _, _ => set (f_name j) 0 t
  end.

(** [path] is the C string without its terminator; ["elf"] is the default. *)
Definition task_set_name (slot : Z) (path : option (list Z)) (p : pool) : pool :=
  let base := match path with Some (c :: l) => c :: l | _ => [0x65; 0x6C; 0x66] end in
  Pool (upd (tasks p) slot (copy_name 15 0 (basename base base) (tasks p slot)))
    (task_pool_count p).

(** Memory words are addressed by the byte address of an eight-byte slot. *)
Definition push_frame (sp : Z) (words : list Z) (mem : Z -> Z) : Z * (Z -> Z) :=
  fold_left (fun '(sp, mem) w => let sp := u64 (sp - 8) in (sp, upd mem sp w)) words (sp, mem).

Definition create_task (entry stack_top kernel_stack_top ring : Z) (p : pool) (mem : Z -> Z) :
    option Z * pool * (Z -> Z) :=
  match task_alloc_slot p with
  | (None, p) => (None, p, mem)
  | (Some i, p) =>
      let kernel_stack := if ring =? 3 then kernel_stack_top else stack_top in
      let p := write i [(f_stack, stack_top); (f_kernel_stack, kernel_stack); (f_eip, entry);
                        (f_ring, ring)] p in
      let p := task_clear_dynamic i p in
      let '(sp, mem) :=
        push_frame kernel_stack
          [USER_SS; stack_top; USER_EFLAGS; USER_CS; entry; 0; 0; 0; 0; 0; 0; 0; 0] mem in
      (Some i, write i [(f_esp, sp)] p, mem)
  end.

#[global] Arguments set : simpl never.

(** ** Fields *)

Lemma set_eq f v t : set f v t f = v.
Proof. unfold set. by rewrite decide_True. Qed.

Lemma set_ne f v t g : g <> f -> set f v t g = t g.
Proof. intros Hne. unfold set. by rewrite decide_False. Qed.

Lemma assign_other l t g : g ∉ (l.*1) -> assign l t g = t g.
Proof.
  unfold assign. revert t. induction l as [|[f v] l IH]; intros t Hg; [done|].
  simpl in *. apply not_elem_of_cons in Hg as [Hf Hl]. rewrite IH by done. by apply set_ne.
Qed.

Lemma write_same slot l p : tasks (write slot l p) slot = assign l (tasks p slot).
Proof. simpl. apply upd_eq. Qed.

Lemma write_other slot l p i : i <> slot -> tasks (write slot l p) i = tasks p i.
Proof. intros. simpl. by apply upd_ne. Qed.

(** Evaluates a field of a slot after assignments to named fields. *)
Ltac fields :=
  unfold write, assign; cbn [tasks task_pool_count fold_left fst snd];
  rewrite ?upd_eq; repeat first [rewrite set_eq | rewrite set_ne by discriminate].

(** ** Process identifiers *)

Lemma land_ffff a : 0 <= a -> Z.land a 0xFFFF = a mod 2 ^ 16.
Proof. intros. change 0xFFFF with (Z.ones 16). by rewrite Z.land_ones. Qed.

Lemma PID_MAKE_value gen slot :
  0 <= gen <= 0x7FFF -> 0 <= slot < MAX_TASKS -> PID_MAKE gen slot = gen * 65536 + slot.
Proof.
  unfold MAX_TASKS. intros Hg Hs. unfold PID_MAKE.
  rewrite (u32_small gen) by (unfold is_u32; lia). rewrite (u32_small slot) by (unfold is_u32; lia).
  rewrite land_ffff, (Z.mod_small slot) by lia. rewrite Z.shiftl_mul_pow2 by lia.
  change (2 ^ 16) with 65536. rewrite (u32_small (gen * 65536)) by (unfold is_u32; lia).
  change 65536 with (2 ^ 16). rewrite <- Z.shiftl_mul_pow2 by lia.
  rewrite lor_shiftl_add by lia. by rewrite Z.shiftl_mul_pow2.
Qed.

(** The identifier of the slot's current generation. *)
Definition pid_of (gen slot : Z) : Z := if nz gen then i32 (PID_MAKE gen slot) else slot.

Lemma pid_of_value gen slot :
  0 <= gen <= 0x7FFF -> 0 <= slot < MAX_TASKS -> pid_of gen slot = gen * 65536 + slot.
Proof.
  intros Hg Hs. unfold pid_of. destruct (nz gen) eqn:Hz.
  - rewrite PID_MAKE_value by done. unfold MAX_TASKS in *. unfold i32.
    rewrite u32_small by (unfold is_u32; lia). case_if; boolify; lia.
  - apply nz_false in Hz. lia.
Qed.

Lemma PID_SLOT_value gen slot :
  0 <= gen <= 0x7FFF -> 0 <= slot < MAX_TASKS -> PID_SLOT (pid_of gen slot) = slot.
Proof.
  intros Hg Hs. rewrite pid_of_value by done. unfold PID_SLOT, MAX_TASKS in *.
  rewrite u32_small by (unfold is_u32; lia). rewrite land_ffff by lia. dmlia.
Qed.

Lemma pid_of_inj g g' slot slot' :
  0 <= g <= 0x7FFF -> 0 <= g' <= 0x7FFF -> 0 <= slot < MAX_TASKS -> 0 <= slot' < MAX_TASKS ->
  pid_of g slot = pid_of g' slot' -> g = g' /\ slot = slot'.
Proof. intros. rewrite !pid_of_value in * by done. unfold MAX_TASKS in *. lia. Qed.

(** The generation after a free: 0 once, then 1 .. 0x7FFF round and round. *)
Definition next_gen (g : Z) : Z :=
  let g := Z.land (u32 (g + 1)) 0x7FFF in if negb (nz g) then 1 else g.

Lemma next_gen_value g : 0 <= g <= 0x7FFF -> next_gen g = g mod 0x7FFF + 1.
Proof.
  intros Hg. unfold next_gen. rewrite u32_small by (unfold is_u32; lia).
  change 0x7FFF with (Z.ones 15) at 1 2. rewrite Z.land_ones by lia. change (2 ^ 15) with 32768.
  destruct (decide (g = 0x7FFF)) as [->|Hne]; [done|].
  rewrite (Z.mod_small (g + 1)) by lia. rewrite (proj2 (nz_true (g + 1))) by lia. simpl. dmlia.
Qed.

Lemma next_gen_iter n g :
  0 <= g <= 0x7FFF -> (0 < n)%nat -> Nat.iter n next_gen g = (g + Z.of_nat n - 1) mod 0x7FFF + 1.
Proof.
  intros Hg. induction n as [|n IH]; [lia|]. intros _. simpl Nat.iter.
  destruct n as [|n]; [simpl; rewrite next_gen_value by done; f_equal; f_equal; lia|].
  rewrite IH by lia. rewrite next_gen_value by dmlia.
  rewrite Zplus_mod_idemp_l. f_equal. f_equal. lia.
Qed.

(** ** The scheduler's choice *)

(** The task at [c] is runnable and its owner is acceptable. *)
Definition eligible (p : pool) (owner_ok : Z -> bool) (c : Z) : bool :=
  (tasks p c f_state =? TASK_RUNNING) && owner_ok (tasks p c f_on_cpu).

Definition is_idle (p : pool) (c : Z) : bool := nz (tasks p c f_is_idle).

(** The candidate at an offset, and the offset (from 0) of a candidate. *)
Definition candidate (p : pool) (current o : Z) : Z := (current + o) mod task_pool_count p.

Definition turn (p : pool) (current c : Z) : Z := (c - current - 1) mod task_pool_count p.

Section Pick.
Context (p : pool) (ok : Z -> bool) (current : Z).
Hypothesis Hcount : 0 < task_pool_count p.
Hypothesis Hcurrent : -1 <= current.

Abbreviation cand := (candidate p current).

Abbreviation elig o := (eligible p ok (cand o)).

(** What a scan of the offsets [lo .. hi) returns. *)
Definition scanned (lo hi idle : Z) (r : Z * Z) : Prop :=
  (exists o, lo <= o < hi /\ fst r = cand o /\ elig o = true /\ is_idle p (cand o) = false /\
     forall o', lo <= o' < o -> elig o' = true -> is_idle p (cand o') = true) \/
  (fst r = -1 /\
   (forall o', lo <= o' < hi -> elig o' = true -> is_idle p (cand o') = true) /\
   (0 <= idle -> snd r = idle) /\
   (idle < 0 ->
      (snd r = idle /\ forall o', lo <= o' < hi -> elig o' = false) \/
      (exists o, lo <= o < hi /\ snd r = cand o /\ elig o = true /\
         forall o', lo <= o' < o -> elig o' = false))).

Lemma scanned_skip lo hi idle r :
  lo < hi -> elig lo = false -> scanned (lo + 1) hi idle r -> scanned lo hi idle r.
Proof.
  intros Hlt Hel [(o & Hr & Hp & He & Hid & Hb)|(Hp & Hall & Hk & Hn)].
  - left. exists o. split; [lia|]. split_and!; [done..|]. intros o' Hr' Hel'.
    destruct (decide (o' = lo)) as [->|]; [congruence|]. apply Hb; [lia|done].
  - right. split_and!; [done| |done|].
    + intros o' Hr' Hel'. destruct (decide (o' = lo)) as [->|]; [congruence|]. apply Hall; [lia|done].
    + intros Hneg. destruct (Hn Hneg) as [[Hi Hno]|(o & Hr & Hi & He & Hb)].
      * left. split; [done|]. intros o' Hr'. destruct (decide (o' = lo)) as [->|]; [done|].
        apply Hno. lia.
      * right. exists o. split; [lia|]. split_and!; [done..|]. intros o' Hr'.
        destruct (decide (o' = lo)) as [->|]; [done|]. apply Hb. lia.
Qed.

Lemma scanned_idle lo hi idle r :
  lo < hi -> elig lo = true -> is_idle p (cand lo) = true ->
  scanned (lo + 1) hi (if idle <? 0 then cand lo else idle) r -> scanned lo hi idle r.
Proof.
  intros Hlt Hel Hidle [(o & Hr & Hp & He & Hid & Hb)|(Hp & Hall & Hk & Hn)].
  - left. exists o. split; [lia|]. split_and!; [done..|]. intros o' Hr' Hel'.
    destruct (decide (o' = lo)) as [->|]; [done|]. apply Hb; [lia|done].
  - right. assert (0 <= cand lo) by (unfold candidate; dmlia). split_and!; [done| | |].
    + intros o' Hr' Hel'. destruct (decide (o' = lo)) as [->|]; [done|]. apply Hall; [lia|done].
    + intros Hpos. destruct (Z.ltb_spec idle 0); [lia|]. by apply Hk.
    + intros Hneg. destruct (Z.ltb_spec idle 0); [|lia]. right. exists lo.
      split; [lia|]. split_and!; [by apply Hk|done|]. intros; lia.
Qed.

Lemma pick_scan_spec n lo idle :
  1 <= lo -> scanned lo (lo + Z.of_nat n) idle (pick_scan n p ok current lo idle).
Proof.
  revert lo idle. induction n as [|n IH]; intros lo idle Ho; cbn [pick_scan].
  { right. split_and!; [done|intros; lia|done|]. intros _. left. split; [done|intros; lia]. }
  rewrite Z.rem_mod_nonneg by lia. fold (cand lo).
  replace (lo + Z.of_nat (S n)) with (lo + 1 + Z.of_nat n) by lia.
  assert (elig lo = (tasks p (cand lo) f_state =? TASK_RUNNING) && ok (tasks p (cand lo) f_on_cpu))
    as Hel by done.
  destruct (tasks p (cand lo) f_state =? TASK_RUNNING); cbn [negb andb] in *;
    [|apply scanned_skip; [lia|done|apply IH; lia]].
  destruct (ok (tasks p (cand lo) f_on_cpu)); cbn [negb] in *;
    [|apply scanned_skip; [lia|done|apply IH; lia]].
  fold (is_idle p (cand lo)). destruct (is_idle p (cand lo)) eqn:Hidle.
  - apply scanned_idle; [lia|done|done|apply IH; lia].
  - left. exists lo. split; [lia|]. split_and!; [done..|]. intros; lia.
Qed.

(** Each candidate is tried once in a scan, at its turn. *)
Lemma candidate_turn c :
  0 <= c < task_pool_count p ->
  candidate p current (turn p current c + 1) = c /\ 0 <= turn p current c < task_pool_count p.
Proof.
  intros Hc. unfold candidate, turn. split; [|dmlia].
  replace (current + ((c - current - 1) mod task_pool_count p + 1))
    with ((c - current - 1) mod task_pool_count p + (current + 1)) by lia.
  rewrite Zplus_mod_idemp_l. replace (c - current - 1 + (current + 1)) with c by lia.
  by apply Z.mod_small.
Qed.

Lemma turn_candidate o :
  1 <= o <= task_pool_count p -> turn p current (candidate p current o) = o - 1.
Proof.
  intros Hr. unfold candidate, turn.
  replace ((current + o) mod task_pool_count p - current - 1)
    with ((current + o) mod task_pool_count p - (current + 1)) by lia.
  rewrite Zminus_mod_idemp_l. replace (current + o - (current + 1)) with (o - 1) by lia.
  apply Z.mod_small. lia.
Qed.

(** The result of a scan over the whole pool. *)
Definition chosen (n : Z) : Prop :=
  (n = -1 /\ forall c, 0 <= c < task_pool_count p -> eligible p ok c = false) \/
  (0 <= n < task_pool_count p /\ eligible p ok n = true /\
   (is_idle p n = true ->
      forall c, 0 <= c < task_pool_count p -> eligible p ok c = true -> is_idle p c = true) /\
   (forall c, 0 <= c < task_pool_count p -> eligible p ok c = true -> is_idle p c = is_idle p n ->
      turn p current n <= turn p current c)).

Lemma pick_scan_chosen :
  let '(pick, idle) := pick_scan (Z.to_nat (task_pool_count p)) p ok current 1 (-1) in
  chosen (if pick <? 0 then idle else pick).
Proof.
  pose proof (pick_scan_spec (Z.to_nat (task_pool_count p)) 1 (-1) ltac:(lia)) as Hs.
  rewrite Z2Nat.id in Hs by lia. unfold scanned in Hs.
  destruct (pick_scan _ _ _ _ _ _) as [pick idle]. cbn [fst snd] in Hs.
  assert (forall o, 0 <= candidate p current o < task_pool_count p) as Hcr
    by (intros o; unfold candidate; dmlia).
  destruct Hs as [(o & Hr & -> & He & Hid & Hb)|(-> & Hall & _ & Hn)].
  - destruct (Z.ltb_spec (candidate p current o) 0); [specialize (Hcr o); lia|].
    right. split; [apply Hcr|]. split_and!; [done|congruence|].
    intros c Hc Hel Heq. rewrite turn_candidate by lia.
    destruct (candidate_turn c Hc) as [Hcand Ht].
    destruct (decide (o - 1 <= turn p current c)) as [|Hlt]; [done|]. exfalso.
    specialize (Hb (turn p current c + 1) ltac:(lia)). rewrite Hcand in Hb.
    rewrite Hb in Heq by done. congruence.
  - simpl. destruct (Hn ltac:(lia)) as [[-> Hno]|(o & Hr & -> & He & Hb)].
    + left. split; [done|]. intros c Hc. destruct (candidate_turn c Hc) as [Hcand Ht].
      rewrite <- Hcand. apply Hno. lia.
    + right. split; [apply Hcr|]. split_and!; [done| |].
      * intros _ c Hc Hel. destruct (candidate_turn c Hc) as [Hcand Ht].
        rewrite <- Hcand in Hel |- *. apply Hall; [lia|done].
      * intros c Hc Hel _. rewrite turn_candidate by lia.
        destruct (candidate_turn c Hc) as [Hcand Ht].
        destruct (decide (o - 1 <= turn p current c)) as [|Hlt]; [done|]. exfalso.
        specialize (Hb (turn p current c + 1) ltac:(lia)). congruence.
Qed.

End Pick.

(** ** The pool invariant *)

Definition slot_in (i : Z) : Prop := 0 <= i < MAX_TASKS.

Definition live (p : pool) (i : Z) : Prop :=
  0 <= i < task_pool_count p /\ tasks p i f_state <> TASK_FREE.

Record inv (p : pool) : Prop := {
  inv_count : 0 <= task_pool_count p <= MAX_TASKS;
  inv_gen : forall i, slot_in i -> 0 <= tasks p i f_gen <= 0x7FFF;
  inv_id : forall i, live p i -> tasks p i f_id = pid_of (tasks p i f_gen) i;
  inv_fresh : forall i, task_pool_count p <= i < MAX_TASKS -> tasks p i f_state <> TASK_FREE
}.

Lemma live_slot p i : inv p -> live p i -> slot_in i.
Proof. intros Hi [Hr _]. pose proof (inv_count p Hi). unfold slot_in. lia. Qed.

Lemma pool_inv_boot : inv pool_boot.
Proof. split; simpl; unfold MAX_TASKS, TASK_FREE; intros; try lia. by destruct H; simpl in *; lia. Qed.

(** An update of a live slot that keeps its identity. *)
Lemma update_inv slot t p :
  inv p -> live p slot -> t f_id = tasks p slot f_id -> t f_gen = tasks p slot f_gen ->
  t f_state <> TASK_FREE -> inv (Pool (upd (tasks p) slot t) (task_pool_count p)).
Proof.
  intros Hi Hl Hid Hgen Hst. pose proof (inv_count p Hi) as Hc. split; simpl.
  - done.
  - intros i Hin. destruct (decide (i = slot)) as [->|Hne].
    + rewrite upd_eq, Hgen. by apply (inv_gen p Hi).
    + rewrite upd_ne by done. by apply (inv_gen p Hi).
  - intros i [Hr Hf]. simpl in *. destruct (decide (i = slot)) as [->|Hne].
    + rewrite upd_eq, Hid, Hgen. by apply (inv_id p Hi).
    + rewrite upd_ne in * by done. by apply (inv_id p Hi).
  - intros i Hr. destruct (decide (i = slot)) as [->|Hne]; [destruct Hl; lia|].
    rewrite upd_ne by done. by apply (inv_fresh p Hi).
Qed.

Lemma write_inv slot l p :
  inv p -> live p slot ->
  let t := assign l (tasks p slot) in
  t f_id = tasks p slot f_id -> t f_gen = tasks p slot f_gen -> t f_state <> TASK_FREE ->
  inv (write slot l p).
Proof. intros Hi Hl t. by apply update_inv. Qed.

(** Assignments to a live slot that leave its identity and do not free it. *)
Ltac live_write := apply write_inv; [done|done|by fields..|cbv zeta; by fields].

(** Slot [i] was not live in [p]; in [p'] it is a runnable task on no CPU
    with the identifier of its generation, and nothing else changed. *)
Record allocated (p : pool) (i : Z) (p' : pool) : Prop := {
  al_slot : slot_in i;
  al_free : ~ live p i;
  al_live : live p' i;
  al_inv : inv p';
  al_state : tasks p' i f_state = TASK_RUNNING;
  al_cpu : tasks p' i f_on_cpu = TASK_CPU_NONE;
  al_id : tasks p' i f_id = pid_of (tasks p i f_gen) i;
  al_fields : forall f, f ∉ [f_state; f_on_cpu; f_id] -> tasks p' i f = tasks p i f;
  al_others : forall j, j <> i -> tasks p' j = tasks p j;
  al_count : task_pool_count p <= task_pool_count p' <= MAX_TASKS
}.

Definition claim_writes (p : pool) (i : Z) : list (field * Z) :=
  let gen := tasks p i f_gen in
  [(f_state, TASK_RUNNING); (f_on_cpu, TASK_CPU_NONE);
   (f_id, if nz gen then i32 (PID_MAKE gen i) else i)].

Lemma claim_slot p i c :
  inv p -> slot_in i -> ~ live p i -> i < c -> task_pool_count p <= c <= MAX_TASKS ->
  (forall j, task_pool_count p <= j < c -> j = i) ->
  allocated p i (write i (claim_writes p i) (Pool (tasks p) c)).
Proof.
  intros Hi Hin Hnl Hlt Hcr Hgap. pose proof (inv_count p Hi) as Hc. set (p' := write _ _ _).
  assert (task_pool_count p' = c) as Hcnt by done.
  assert (tasks p' i f_state = TASK_RUNNING) as Hst by (unfold p', claim_writes; by fields).
  assert (tasks p' i f_gen = tasks p i f_gen) as Hg by (unfold p', claim_writes; by fields).
  assert (tasks p' i f_id = pid_of (tasks p i f_gen) i) as Hid by (unfold p', claim_writes; by fields).
  assert (forall j, j <> i -> tasks p' j = tasks p j) as Hoth
    by (intros j Hj; unfold p'; by rewrite write_other).
  split; rewrite ?Hcnt; try done.
  - split; [unfold slot_in in *; lia|]. by rewrite Hst.
  - split; rewrite ?Hcnt.
    + lia.
    + intros j Hj. destruct (decide (j = i)) as [->|Hne].
      * rewrite Hg. by apply (inv_gen p Hi).
      * rewrite Hoth by done. by apply (inv_gen p Hi).
    + intros j [Hjr Hjf]. rewrite Hcnt in Hjr.
      destruct (decide (j = i)) as [->|Hne]; [by rewrite Hid, Hg|].
      rewrite Hoth in * by done. apply (inv_id p Hi). split; [|done].
      destruct (decide (j < task_pool_count p)); [lia|]. exfalso. apply Hne, Hgap. lia.
    + intros j Hj. rewrite Hoth by lia. apply (inv_fresh p Hi). lia.
  - unfold p', claim_writes. by fields.
  - intros f Hf. rewrite !not_elem_of_cons in Hf. destruct Hf as (H1 & H2 & H3 & _).
    unfold p', claim_writes, write, assign. cbn [tasks fold_left fst snd]. rewrite upd_eq.
    by rewrite !set_ne by done.
Qed.

Lemma alloc_slot_spec p :
  inv p ->
  match task_alloc_slot p with
  | (None, p') => p' = p /\ task_pool_count p = MAX_TASKS /\
      forall i, 1 <= i < MAX_TASKS -> live p i
  | (Some i, p') => allocated p i p'
  end.
Proof.
  intros Hi. pose proof (inv_count p Hi) as Hc. unfold task_alloc_slot.
  destruct (scan_range 1 MAX_TASKS _) as [i|] eqn:Hs.
  - apply scan_range_Some in Hs as (Hr & Hf & _). apply Z.eqb_eq in Hf.
    assert (i < task_pool_count p) as Hlt.
    { destruct (decide (i < task_pool_count p)); [done|].
      exfalso. by apply (inv_fresh p Hi i); [lia|]. }
    destruct p as [ts c]. apply (claim_slot (Pool ts c) i c); simpl in *; try lia;
      [done|unfold slot_in; lia|by intros [_ ?]].
  - rewrite scan_range_None in Hs. destruct (Z.ltb_spec (task_pool_count p) MAX_TASKS).
    + apply (claim_slot p); try lia; [done|unfold slot_in; lia|]. intros [Hr _]. lia.
    + split_and!; [done|lia|]. intros i Hr. split; [lia|]. by apply Z.eqb_neq, Hs.
Qed.

(** ** Teardown *)

(** The states a task can be blocked in. *)
Definition blocked (state : Z) : Prop :=
  state ∉ [TASK_RUNNING; TASK_ZOMBIE; TASK_FREE; TASK_SUSPENDED; TASK_STOPPED].

(** [p'] is [p] with some blocked tasks woken. *)
Definition wakes (p p' : pool) : Prop :=
  task_pool_count p' = task_pool_count p /\
  forall i, (forall f, f <> f_state -> tasks p' i f = tasks p i f) /\
    (tasks p' i f_state = tasks p i f_state \/
     blocked (tasks p i f_state) /\ tasks p' i f_state = TASK_RUNNING).

(** Closing descriptors and dropping the working directory touch the pool
    only by waking tasks that are blocked on the closed objects. *)
Class TaskModulesLaws (W : Type) `{TaskModules W} := {
  close_all_wakes : forall slot p w, wakes p (fst (posix_fd_close_all slot (p, w)));
  profile_release_wakes : forall slot p w, wakes p (fst (posix_profile_release slot (p, w)))
}.

Lemma wakes_trans p p' p'' : wakes p p' -> wakes p' p'' -> wakes p p''.
Proof.
  intros [Hc H1] [Hc' H2]. split; [congruence|]. intros i. destruct (H1 i) as [Hf1 Hs1].
  destruct (H2 i) as [Hf2 Hs2]. split; [intros f Hf; rewrite Hf2, Hf1; done|].
  destruct Hs1 as [Hs1|[Hb Hs1]], Hs2 as [Hs2|[Hb' Hs2]]; rewrite ?Hs1 in *; auto.
Qed.

Lemma wakes_inv p p' : inv p -> wakes p p' -> inv p'.
Proof.
  intros Hi [Hc Hw].
  assert (forall i, tasks p' i f_state = TASK_FREE <-> tasks p i f_state = TASK_FREE) as Hfree.
  { intros i. destruct (Hw i) as [_ [->|[Hb Hs]]]; [done|]. rewrite Hs. split; [done|].
    intros Hf. exfalso. apply Hb. rewrite Hf. do 2 right. left. }
  split; rewrite ?Hc.
  - apply Hi.
  - intros i Hin. rewrite (proj1 (Hw i)) by done. by apply (inv_gen p Hi).
  - intros i [Hr Hf]. rewrite Hfree, Hc in *. rewrite !(proj1 (Hw i)) by done. by apply (inv_id p Hi).
  - intros i Hr. rewrite Hfree. by apply (inv_fresh p Hi).
Qed.

Section TeardownLemmas.
Context {W : Type} `{TaskModulesLaws W}.

(** The teardown of the other modules, as [task_free_slot] and
    [task_mark_zombie] call it. *)
Lemma modules_wake slot p (w : W) :
  wakes p (fst (posix_profile_release slot (posix_fd_close_all slot (p, w)))).
Proof.
  pose proof (close_all_wakes slot p w) as H1.
  destruct (posix_fd_close_all slot (p, w)) as [p1 w1].
  eapply wakes_trans; [exact H1|apply profile_release_wakes].
Qed.

(** Other slots see the teardown only as wakes. *)
Definition others_wake (slot : Z) (p p' : pool) : Prop :=
  task_pool_count p' = task_pool_count p /\
  forall i, i <> slot -> (forall f, f <> f_state -> tasks p' i f = tasks p i f) /\
    (tasks p' i f_state = tasks p i f_state \/
     blocked (tasks p i f_state) /\ tasks p' i f_state = TASK_RUNNING).

Lemma free_slot_spec slot p (w : W) :
  inv p -> live p slot ->
  let p' := fst (task_free_slot slot (p, w)) in
  inv p' /\ tasks p' slot f_state = TASK_FREE /\
  tasks p' slot f_gen = next_gen (tasks p slot f_gen) /\ others_wake slot p p'.
Proof.
  intros Hi Hl p'. set (p0 := write slot [(f_exit_signal, 0)] p).
  assert (inv p0) as Hi0.
  { apply write_inv; [done|done|by fields..|]. cbv zeta. fields. apply Hl. }
  pose proof (modules_wake slot p0 w) as Hw. unfold p', task_free_slot. cbn [fst snd].
  fold p0. destruct (posix_profile_release slot (posix_fd_close_all slot (p0, w))) as [p1 w1].
  cbn [fst] in Hw. pose proof (wakes_inv _ _ Hi0 Hw) as Hi1. clear p'.
  fold (next_gen (tasks p slot f_gen)). cbn [fst]. set (p' := write slot _ _).
  assert (task_pool_count p' = task_pool_count p) as Hcnt by (apply Hw).
  assert (tasks p' slot f_state = TASK_FREE) as Hst by (unfold p'; by fields).
  assert (tasks p' slot f_gen = next_gen (tasks p slot f_gen)) as Hg by (unfold p'; by fields).
  assert (forall i, i <> slot -> tasks p' i = tasks p1 i) as Hoth.
  { intros i Hne. unfold p', task_clear_dynamic. by rewrite !write_other. }
  assert (slot_in slot) as Hin by (by apply (live_slot p)).
  split_and!; [|done|done|].
  - split; rewrite ?Hcnt.
    + apply Hi.
    + intros i Hr. destruct (decide (i = slot)) as [->|Hne]; [|rewrite Hoth by done; by apply Hi1].
      rewrite Hg. pose proof (inv_gen p Hi slot Hin). rewrite next_gen_value by done. dmlia.
    + intros i [Hr Hf]. destruct (decide (i = slot)) as [->|Hne]; [done|].
      rewrite Hoth in * by done. apply (inv_id p1 Hi1). split; [|done].
      rewrite Hcnt in Hr. destruct Hw as [-> _]. exact Hr.
    + intros i Hr. destruct Hl as [Hlr _]. rewrite Hoth by lia. apply (inv_fresh p1 Hi1).
      destruct Hw as [-> _]. exact Hr.
  - split; [done|]. intros i Hne. rewrite Hoth by done. destruct Hw as [_ Hw].
    specialize (Hw i). unfold p0 in Hw. by rewrite write_other in Hw by done.
Qed.

Lemma mark_zombie_spec slot code p (w : W) :
  inv p -> live p slot ->
  let p' := fst (task_mark_zombie slot code (p, w)) in
  inv p' /\ tasks p' slot f_state = TASK_ZOMBIE /\ tasks p' slot f_exit_code = code /\
  tasks p' slot f_id = tasks p slot f_id /\ tasks p' slot f_parent_id = tasks p slot f_parent_id /\
  tasks p' slot f_on_cpu = TASK_CPU_NONE /\ tasks p' slot f_capabilities = 0 /\
  others_wake slot p p'.
Proof.
  intros Hi Hl p'. pose proof (modules_wake slot p w) as Hw. unfold p', task_mark_zombie.
  destruct (posix_profile_release slot (posix_fd_close_all slot (p, w))) as [p1 w1].
  cbn [fst] in Hw. pose proof (wakes_inv _ _ Hi Hw) as Hi1. clear p'. cbn [fst].
  assert (live p1 slot) as Hl1.
  { destruct Hl as [Hr Hf], Hw as [Hc Hw]. split; [by rewrite Hc|].
    destruct (Hw slot) as [_ [->|[_ ->]]]; done. }
  set (p' := write slot _ p1). split_and!; try (unfold p'; by fields).
  - apply write_inv; [done|done|by fields|by fields|]. by fields.
  - unfold p'. fields. by apply Hw.
  - unfold p'. fields. by apply Hw.
  - destruct Hw as [Hc Hw]. split; [exact Hc|]. intros i Hne. unfold p'.
    rewrite write_other by done. apply Hw.
Qed.

Lemma reap_zombie_spec parent pid p (w : W) :
  inv p ->
  match task_reap_zombie (Some parent) pid (p, w) with
  | (None, (p', w')) => p' = p /\ w' = w /\
      forall slot, 0 < slot -> live p slot -> tasks p slot f_id = pid ->
        ~ (tasks p slot f_state = TASK_ZOMBIE /\ tasks p slot f_parent_id = tasks p parent f_id)
  | (Some code, (p', w')) => exists slot, 0 < slot /\ live p slot /\ tasks p slot f_id = pid /\
      tasks p slot f_state = TASK_ZOMBIE /\ tasks p slot f_parent_id = tasks p parent f_id /\
      code = tasks p slot f_exit_code /\ inv p' /\ ~ live p' slot /\
      tasks p' slot f_gen = next_gen (tasks p slot f_gen) /\ others_wake slot p p'
  end.
Proof.
  intros Hi. pose proof (inv_count p Hi) as Hc. unfold MAX_TASKS in Hc. unfold task_reap_zombie.
  simpl fst.
  rewrite (u32_small (task_pool_count p)) by (unfold is_u32; lia).
  assert (forall slot, live p slot -> tasks p slot f_id = pid -> PID_SLOT pid = slot) as Hslot.
  { intros slot Hl <-. rewrite (inv_id p Hi) by done. apply PID_SLOT_value; [|by apply (live_slot p)].
    apply (inv_gen p Hi). by apply (live_slot p). }
  assert (0 <= PID_SLOT pid) as Hpos by (unfold PID_SLOT; apply Z.land_nonneg; lia).
  case_if.
  { split_and!; [done..|]. intros slot Hpos' Hl Hid _. apply Hslot in Hid; [|done].
    destruct Hl as [Hr _]. boolify. lia. }
  boolify. destruct (Z.eqb_spec (tasks p (PID_SLOT pid) f_state) TASK_ZOMBIE) as [Hz|Hz];
    destruct (Z.eqb_spec (tasks p (PID_SLOT pid) f_id) pid) as [Hd|Hd];
    destruct (Z.eqb_spec (tasks p (PID_SLOT pid) f_parent_id) (tasks p parent f_id)) as [Hp|Hp];
    cbn [andb];
    try (split_and!; [done..|]; intros slot Hs Hl Hid [Hz' Hp'];
         pose proof (Hslot slot Hl Hid); subst slot; done).
  assert (live p (PID_SLOT pid)) as Hl by (split; [lia|by rewrite Hz]).
  destruct (free_slot_spec (PID_SLOT pid) p w Hi Hl) as (Hi' & Hst & Hg & Ho).
  destruct (task_free_slot (PID_SLOT pid) (p, w)) as [p' w']. simpl in *.
  exists (PID_SLOT pid). split_and!; try done; [lia|]. by intros [_ ?].
Qed.

End TeardownLemmas.

(** ** The pool as a transition system *)

Lemma copy_name_other n j base t f : (forall i, f <> f_name i) -> copy_name n j base t f = t f.
Proof.
  intros Hf. revert j base t. induction n as [|n IH]; intros j base t; simpl.
  - by apply set_ne.
  - destruct base as [|c base]; [by apply set_ne|]. case_if; [by apply set_ne|].
    rewrite IH. by apply set_ne.
Qed.

Section Steps.
Context {W : Type} `{TaskModulesLaws W}.

Inductive step : pool * W -> pool * W -> Prop :=
  | step_alloc p w : step (p, w) (snd (task_alloc_slot p), w)
  | step_create e st ks r p w mem :
      step (p, w) (snd (fst (create_task e st ks r p mem)), w)
  | step_free slot p w : live p slot -> step (p, w) (task_free_slot slot (p, w))
  | step_zombie slot code p w : live p slot -> step (p, w) (task_mark_zombie slot code (p, w))
  | step_reap parent pid p w : step (p, w) (snd (task_reap_zombie parent pid (p, w)))
  | step_state_set slot state p w : live p slot -> state <> TASK_FREE ->
      step (p, w) (task_state_set (Some slot) state p, w)
  | step_wake slot from p w : live p slot ->
      step (p, w) (snd (task_state_wake (Some slot) from p), w)
  | step_sleep_block slot d p w : live p slot -> step (p, w) (task_sleep_block (Some slot) d p, w)
  | step_sleep_expire slot p w : live p slot -> step (p, w) (task_sleep_expire_locked slot p, w)
  | step_sleep_claim slot p w : live p slot -> step (p, w) (snd (task_sleep_wake_claim slot p), w)
  | step_exit_signal slot n p w : live p slot -> step (p, w) (task_exit_signal_set (Some slot) n p, w)
  | step_wait_park slot pid px o a p w : live p slot ->
      step (p, w) (task_wait_park (Some slot) pid px o a p, w)
  | step_wait_wake slot c p w : live p slot -> step (p, w) (snd (task_wait_wake (Some slot) c p), w)
  | step_wait_cancel slot c p w : live p slot ->
      step (p, w) (snd (task_wait_cancel (Some slot) c p), w)
  | step_wait_clear slot p w : live p slot -> step (p, w) (task_wait_clear (Some slot) p, w)
  | step_cpu_claim slot cpu p w : live p slot -> step (p, w) (task_cpu_claim (Some slot) cpu p, w)
  | step_pick current cpu p w : -1 <= current ->
      step (p, w) (snd (task_pick_and_claim current cpu p), w)
  | step_name slot path p w : live p slot -> step (p, w) (task_set_name slot path p, w).

Lemma pick_inv current cpu p : inv p -> -1 <= current -> inv (snd (task_pick_and_claim current cpu p)).
Proof.
  intros Hi Hcur. unfold task_pick_and_claim, task_pick_locked.
  destruct (Z.leb_spec (task_pool_count p) 0); [done|].
  set (ok := fun owner => _). pose proof (pick_scan_chosen p ok current ltac:(lia) Hcur) as Hch.
  destruct (pick_scan _ p ok current 1 (-1)) as [pick idle].
  set (n := if pick <? 0 then idle else pick) in *. cbn [snd andb].
  destruct Hch as [[-> _]|(Hr & Hel & _)]; [done|].
  destruct (Z.leb_spec 0 n); [|lia]. unfold eligible in Hel. boolify.
  apply write_inv; [done| |by fields..|].
  - split; [done|]. unfold TASK_FREE, TASK_RUNNING in *. congruence.
  - cbv zeta. fields. unfold TASK_FREE, TASK_RUNNING in *. congruence.
Qed.

Lemma create_inv e st ks r p mem : inv p -> inv (snd (fst (create_task e st ks r p mem))).
Proof.
  intros Hi. unfold create_task. pose proof (alloc_slot_spec p Hi) as Ha.
  destruct (task_alloc_slot p) as [[i|] p1]; [|simpl; by destruct Ha as [-> _]].
  destruct (push_frame _ _ _) as [sp mem']. cbn [fst snd].
  assert (inv p1) as Hi1 by apply Ha. assert (live p1 i) as Hl1 by apply Ha.
  assert (tasks p1 i f_state <> TASK_FREE) as Hs1 by apply Hl1.
  unfold task_clear_dynamic.
  set (p2 := write i [(f_stack, st); _; _; _] p1).
  assert (inv p2) as Hi2 by (apply write_inv; [done|done|by fields..|cbv zeta; by fields]).
  assert (live p2 i) as Hl2 by (split; [apply Hl1|unfold p2; by fields]).
  set (p3 := write i clear_dynamic p2).
  assert (inv p3) as Hi3 by (apply write_inv; [done|done|by fields..|cbv zeta; unfold p2; by fields]).
  assert (live p3 i) as Hl3 by (split; [apply Hl2|unfold p3, p2; by fields]).
  apply write_inv; [done|done|by fields..|]. cbv zeta. fields. apply Hl3.
Qed.

Lemma pool_step_inv p w p' w' : inv p -> step (p, w) (p', w') -> inv p'.
Proof.
  intros Hi Hs. inversion Hs; subst; clear Hs;
    try (match goal with Hl : live _ _ |- _ => pose proof (proj2 Hl) as Hne end).
  - pose proof (alloc_slot_spec p Hi) as Ha. destruct (task_alloc_slot p) as [[i|] p1]; simpl;
      [apply Ha|by destruct Ha as [-> _]].
  - by apply create_inv.
  - pose proof (free_slot_spec slot p w Hi ltac:(done)) as Hf. rewrite H4 in Hf. apply Hf.
  - pose proof (mark_zombie_spec slot code p w Hi ltac:(done)) as Hf. rewrite H4 in Hf. apply Hf.
  - destruct parent as [parent|]; [|simpl in *; by injection H4 as -> _].
    pose proof (reap_zombie_spec parent pid p w Hi) as Hf.
    destruct (task_reap_zombie (Some parent) pid (p, w)) as [[code|] [p1 w1]]; simpl in H4;
      injection H4 as -> ->; [destruct Hf as (? & Hf); apply Hf|destruct Hf as [-> _]; done].
  - live_write.
  - simpl. unfold task_state_wake_locked. case_if; [done|]. simpl. live_write.
  - live_write.
  - live_write.
  - unfold task_sleep_wake_claim. case_if; [|done]. simpl. live_write.
  - live_write.
  - live_write.
  - simpl. case_if; [|done]. simpl. live_write.
  - simpl. case_if; [|done]. simpl. live_write.
  - live_write.
  - live_write.
  - by apply pick_inv.
  - apply update_inv; [done|done|by apply copy_name_other..|]. by rewrite copy_name_other.
Qed.

Lemma pool_reachable_inv w0 p w : rtc step (pool_boot, w0) (p, w) -> inv p.
Proof.
  intros Hs. remember (pool_boot, w0) as a eqn:Ha. remember (p, w) as b eqn:Hb.
  assert (inv (fst a)) as Hi by (subst; apply pool_inv_boot). clear Ha. revert Hi.
  replace p with (fst b) by (by subst). clear Hb.
  induction Hs as [|[p1 w1] [p2 w2] c H1 _ IH]; [done|]. intros Hi. apply IH. simpl.
  by eapply pool_step_inv.
Qed.

End Steps.

(** ** Properties *)

(** A world without other modules, and a pool of two tasks. *)
#[local] Instance no_task_modules : TaskModules unit := {
  posix_fd_close_all := fun _ pw => pw;
  posix_profile_release := fun _ pw => pw;
  posix_signal_reset := fun _ w => w;
  posix_pgroup_reset := fun _ w => w;
  posix_pledge_reset := fun _ w => w;
  arch_task_release := fun _ w => w
}.

Lemma wakes_refl p : wakes p p.
Proof. split; [done|]. intros i. split; [done|]. by left. Qed.

#[local] Instance no_task_modules_laws : TaskModulesLaws unit.
Proof. split; intros; apply wakes_refl. Qed.

Definition example_two : pool := snd (task_alloc_slot (snd (task_alloc_slot pool_boot))).

Lemma example_two_reachable : rtc step (pool_boot, tt) (example_two, tt).
Proof.
  eapply rtc_l; [apply step_alloc|]. eapply rtc_l; [apply step_alloc|]. apply rtc_refl.
Qed.

(** C38: In every reachable pool each live slot carries the identifier of its
    generation: identifiers are non-negative, name their slot, and no two
    live tasks share one. *)
Theorem pool_pids_unique {W} `{TaskModulesLaws W} (w0 : W) p w :
  rtc step (pool_boot, w0) (p, w) ->
  forall i, live p i ->
    0 <= tasks p i f_id /\ PID_SLOT (tasks p i f_id) = i /\
    forall j, live p j -> tasks p j f_id = tasks p i f_id -> j = i.
Proof.
  intros Hr i Hl. assert (inv p) as Hi by (by eapply pool_reachable_inv).
  pose proof (live_slot p i Hi Hl) as Hs. pose proof (inv_gen p Hi i Hs) as Hg.
  rewrite (inv_id p Hi i Hl). split_and!.
  - rewrite pid_of_value by done. unfold slot_in in Hs. lia.
  - by apply PID_SLOT_value.
  - intros j Hj. rewrite (inv_id p Hi j Hj). intros He. pose proof (live_slot p j Hi Hj) as Hs'.
    apply (pid_of_inj _ _ _ _ (inv_gen p Hi j Hs') Hg Hs' Hs He).
Qed.

Lemma pool_pids_unique_witness : PID_SLOT (tasks example_two 1 f_id) = 1.
Proof.
  destruct (pool_pids_unique tt example_two tt example_two_reachable 1) as (_ & H & _).
  - split; [vm_compute; split; congruence|vm_compute; discriminate].
  - exact H.
Defined.

(** A process identifier stays dead after its slot is freed: for the next
    32766 generations of the slot (for ever, for a first-generation
    identifier) no live task answers to it and reaping it fails. *)
Theorem stale_pid_not_reaped {W} `{TaskModulesLaws W} p (w : W) slot g n parent :
  inv p -> 0 < slot < MAX_TASKS -> 0 <= g <= 0x7FFF ->
  (0 < n)%nat -> g = 0 \/ Z.of_nat n < 0x7FFF ->
  tasks p slot f_gen = Nat.iter n next_gen g ->
  (forall i, live p i -> tasks p i f_id <> pid_of g slot) /\
  task_reap_zombie (Some parent) (pid_of g slot) (p, w) = (None, (p, w)).
Proof.
  intros Hi Hs Hg Hn Hlt Hgen.
  assert (forall i, live p i -> tasks p i f_id <> pid_of g slot) as Hno.
  { intros i Hl He. rewrite (inv_id p Hi i Hl) in He. pose proof (live_slot p i Hi Hl) as Hin.
    apply pid_of_inj in He as [He ->]; [|by apply (inv_gen p Hi)|done|done|lia].
    rewrite Hgen, next_gen_iter in He by done. destruct Hlt as [->|Hlt]; dmlia. }
  split; [done|]. pose proof (reap_zombie_spec parent (pid_of g slot) p w Hi) as Hr.
  destruct (task_reap_zombie (Some parent) (pid_of g slot) (p, w)) as [[code|] [p' w']].
  - destruct Hr as (i & _ & Hl & Hid & _). by destruct (Hno i Hl).
  - by destruct Hr as (-> & -> & _).
Qed.

Definition example_reused : pool :=
  snd (task_alloc_slot (fst (task_free_slot 1 (example_two, tt)))).

Lemma stale_pid_not_reaped_witness :
  tasks example_reused 1 f_id = 65537 /\
  task_reap_zombie (Some 0) 1 (example_reused, tt) = (None, (example_reused, tt)).
Proof.
  split; [vm_compute; reflexivity|].
  change 1 with (pid_of 0 1) at 1.
  apply (stale_pid_not_reaped example_reused tt 1 0 1 0).
  - eapply (pool_reachable_inv tt). etrans; [exact example_two_reachable|].
    eapply rtc_l; [apply (step_free 1)|eapply rtc_l; [apply step_alloc|apply rtc_refl]].
    split; [vm_compute; split; congruence|vm_compute; discriminate].
  - unfold MAX_TASKS. lia.
  - lia.
  - lia.
  - by left.
  - vm_compute. reflexivity.
Defined.

(** [task_alloc_slot] fails only when all 32 slots are in use; otherwise
    the slot it returns was not live and comes back runnable, on no CPU, with
    a fresh identifier, and no other task changes. *)
Theorem task_alloc_slot_correct p :
  inv p ->
  match task_alloc_slot p with
  | (None, p') => p' = p /\ task_pool_count p = MAX_TASKS /\
      forall i, 1 <= i < MAX_TASKS -> live p i
  | (Some i, p') => allocated p i p'
  end.
Proof. exact (alloc_slot_spec p). Qed.

Lemma task_alloc_slot_correct_witness :
  allocated pool_boot 0 (snd (task_alloc_slot pool_boot)).
Proof.
  pose proof (task_alloc_slot_correct pool_boot pool_inv_boot) as H.
  exact H.
Defined.

(** C39: [task_pick_next] returns -1 only when no task is runnable for the CPU.
    Otherwise it returns a runnable task that no other CPU owns, an idle task
    only if nothing else is runnable, and among those of its kind the first
    in round-robin order after the current one. *)
Theorem task_pick_next_correct current cpu p :
  0 < task_pool_count p -> -1 <= current ->
  chosen p (fun owner => (owner =? TASK_CPU_NONE) || (owner =? cpu)) current
    (task_pick_next current cpu p).
Proof.
  intros Hc Hcur. unfold task_pick_next, task_pick_locked.
  destruct (Z.leb_spec (task_pool_count p) 0); [lia|].
  set (ok := fun owner => _). pose proof (pick_scan_chosen p ok current Hc Hcur) as Hch.
  destruct (pick_scan _ p ok current 1 (-1)) as [pick idle]. exact Hch.
Qed.

Lemma task_pick_next_correct_witness :
  chosen example_two (fun owner => (owner =? TASK_CPU_NONE) || (owner =? 0)) 0 1.
Proof.
  change 1 with (task_pick_next 0 0 example_two) at 1.
  apply (task_pick_next_correct 0 0 example_two); [vm_compute; reflexivity|lia].
Defined.

(** The next task's turn after another one ran. *)
Lemma turn_after p current y x :
  0 < task_pool_count p -> 0 <= x < task_pool_count p -> 0 <= y < task_pool_count p ->
  turn p current y < turn p current x ->
  turn p y x = turn p current x - turn p current y - 1.
Proof.
  intros Hn Hx Hy Hlt. unfold turn in *. set (n := task_pool_count p) in *.
  pose proof (Z.mod_pos_bound (x - current - 1) n Hn).
  pose proof (Z.mod_pos_bound (y - current - 1) n Hn).
  rewrite <- (Z.mod_small ((x - current - 1) mod n - (y - current - 1) mod n - 1) n) by lia.
  replace ((x - current - 1) mod n - (y - current - 1) mod n - 1)
    with ((x - current - 1) mod n - ((y - current - 1) mod n + 1)) by lia.
  rewrite Zminus_mod_idemp_l.
  rewrite <- (Zminus_mod_idemp_r (x - current - 1)), Zplus_mod_idemp_l, Zminus_mod_idemp_r.
  f_equal. lia.
Qed.

(** Round robin: while a task that is not idle stays runnable, every choice
    of another task brings its turn strictly closer, so it runs after at most
    31 choices. *)
Theorem task_pick_fair current cpu p x :
  0 < task_pool_count p -> -1 <= current -> 0 <= x < task_pool_count p ->
  eligible p (fun owner => (owner =? TASK_CPU_NONE) || (owner =? cpu)) x = true ->
  is_idle p x = false ->
  let y := task_pick_next current cpu p in
  y = x \/ (0 <= turn p y x < turn p current x).
Proof.
  intros Hc Hcur Hx Hel Hid y. unfold y, task_pick_next, task_pick_locked.
  destruct (Z.leb_spec (task_pool_count p) 0); [lia|].
  set (ok := fun owner => _). pose proof (pick_scan_chosen p ok current Hc Hcur) as Hch.
  destruct (pick_scan _ p ok current 1 (-1)) as [pick idle]. cbn [fst].
  set (n := if pick <? 0 then idle else pick) in *. clear y.
  destruct Hch as [[-> Hno]|(Hr & He & Hi & Ht)]; [specialize (Hno x Hx); unfold ok in Hno; congruence|].
  assert (is_idle p n = false) as Hin.
  { destruct (is_idle p n) eqn:Hin; [|done]. rewrite (Hi eq_refl x Hx Hel) in Hid. done. }
  specialize (Ht x Hx Hel ltac:(congruence)).
  destruct (decide (n = x)) as [|Hne]; [by left|]. right.
  assert (turn p current n <> turn p current x) as Htne.
  { intros He'. apply Hne. destruct (candidate_turn p ok current Hc n Hr) as [<- _].
    destruct (candidate_turn p ok current Hc x Hx) as [<- _]. by rewrite He'. }
  rewrite (turn_after p current n x) by lia. unfold turn in *.
  pose proof (Z.mod_pos_bound (n - current - 1) (task_pool_count p) Hc). lia.
Qed.

Definition example_three : pool := snd (task_alloc_slot example_two).

Lemma task_pick_fair_witness :
  task_pick_next 0 0 example_three = 1 /\ turn example_three 1 2 < turn example_three 0 2.
Proof.
  split; [vm_compute; reflexivity|].
  destruct (task_pick_fair 0 0 example_three 2) as [H|H].
  - vm_compute. reflexivity.
  - lia.
  - vm_compute. split; congruence.
  - vm_compute. reflexivity.
  - vm_compute. reflexivity.
  - exfalso. vm_compute in H. discriminate.
  - exact (proj2 H).
Defined.

(** A task that one CPU has claimed is not given to another: whatever
    other slots do in between, a pick by a second CPU does not return it
    until its owner mark changes. *)
Theorem task_claim_exclusive current cpu p current' cpu' p' :
  0 < task_pool_count p -> -1 <= current -> -1 <= current' -> 0 <= cpu -> cpu' <> cpu ->
  0 < task_pool_count p' ->
  let '(n, p1) := task_pick_and_claim current cpu p in
  0 <= n -> tasks p' n = tasks p1 n ->
  tasks p1 n f_on_cpu = cpu /\ fst (task_pick_and_claim current' cpu' p') <> n.
Proof.
  intros Hc Hcur Hcur' Hcpu Hne Hc'. unfold task_pick_and_claim, task_pick_locked.
  destruct (Z.leb_spec (task_pool_count p) 0); [lia|].
  destruct (pick_scan _ p _ current 1 (-1)) as [pick idle].
  set (n := if pick <? 0 then idle else pick). cbn [andb]. intros Hn Hsame.
  destruct (Z.leb_spec 0 n); [|lia].
  assert (tasks (write n [(f_on_cpu, cpu)] p) n f_on_cpu = cpu) as Hown by (by fields).
  split; [done|]. destruct (Z.leb_spec (task_pool_count p') 0); [lia|].
  set (ok := fun owner => (owner =? TASK_CPU_NONE) || (owner =? cpu')).
  pose proof (pick_scan_chosen p' ok current' Hc' Hcur') as Hch.
  destruct (pick_scan _ p' ok current' 1 (-1)) as [pick' idle']. cbn [fst].
  intros Heq. rewrite Heq in Hch. destruct Hch as [[Hm _]|(_ & He & _)]; [lia|].
  unfold eligible, ok in He. rewrite Hsame, Hown in He. unfold TASK_CPU_NONE in He. boolify. lia.
Qed.

Lemma task_claim_exclusive_witness :
  let p1 := snd (task_pick_and_claim 0 0 example_two) in
  fst (task_pick_and_claim 0 0 example_two) = 1 /\ fst (task_pick_and_claim 0 1 p1) <> 1.
Proof.
  intros p1. assert (fst (task_pick_and_claim 0 0 example_two) = 1) as Hn by (vm_compute; reflexivity).
  split; [exact Hn|].
  pose proof (task_claim_exclusive 0 0 example_two 0 1 p1 ltac:(vm_compute; reflexivity)
    ltac:(lia) ltac:(lia) ltac:(lia) ltac:(lia) ltac:(vm_compute; reflexivity)) as H.
  unfold p1 in *. destruct (task_pick_and_claim 0 0 example_two) as [n q]. simpl in Hn, H |- *.
  subst n. apply H; [lia|reflexivity].
Defined.

(** A parked task is woken once: of two claims of the same sleep or the
    same wait, by the timer, a child or a signal, only the first succeeds, and
    it leaves the task runnable. *)
Theorem wake_claimed_once p slot child child' :
  (forall r p1, task_sleep_wake_claim slot p = (Some r, p1) ->
     tasks p1 slot f_state = TASK_RUNNING /\ task_sleep_wake_claim slot p1 = (None, p1)) /\
  (forall p1, task_wait_wake (Some slot) child p = (true, p1) \/
              task_wait_cancel (Some slot) child p = (true, p1) ->
     tasks p1 slot f_state = TASK_RUNNING /\
     task_wait_wake (Some slot) child' p1 = (false, p1) /\
     task_wait_cancel (Some slot) child' p1 = (false, p1)).
Proof.
  split.
  - intros r p1. unfold task_sleep_wake_claim at 1. case_if; [|done]. intros [= _ <-].
    set (p1 := write _ _ _). assert (tasks p1 slot f_state = TASK_RUNNING) as Hs by (unfold p1; by fields).
    split; [done|]. unfold task_sleep_wake_claim. by rewrite Hs.
  - intros p1 Hp. assert (tasks p1 slot f_state = TASK_RUNNING) as Hs.
    { destruct Hp as [Hp|Hp]; simpl in Hp; case_if; try done; injection Hp as <-; by fields. }
    split; [done|]. simpl. unfold wait_matches. by rewrite Hs.
Qed.

(** A slot is published before it is set up: the pool that
    [task_alloc_slot] leaves already offers the new task to every CPU, so a
    pick on another CPU can choose it before its creator fills it in. *)
Theorem alloc_slot_pickable p i p' cpu :
  inv p -> task_alloc_slot p = (Some i, p') -> tasks p i f_is_idle = 0 ->
  task_pick_next (i - 1) cpu p' = i.
Proof.
  intros Hi Ha Hidle. pose proof (alloc_slot_spec p Hi) as Hs. rewrite Ha in Hs.
  pose proof (al_slot _ _ _ Hs) as Hin. pose proof (proj1 (al_live _ _ _ Hs)) as Hr.
  unfold slot_in in Hin. unfold task_pick_next, task_pick_locked.
  destruct (Z.leb_spec (task_pool_count p') 0); [lia|].
  destruct (Z.to_nat (task_pool_count p')) eqn:Hn; [lia|]. cbn [pick_scan].
  replace (i - 1 + 1) with i by lia. rewrite Z.rem_small by lia.
  rewrite (al_state _ _ _ Hs), (al_cpu _ _ _ Hs), (al_fields _ _ _ Hs f_is_idle), Hidle
    by (rewrite !not_elem_of_cons; split_and!; [done..|apply not_elem_of_nil]).
  cbn. destruct (Z.ltb_spec i 0); [lia|done].
Qed.

Lemma alloc_slot_pickable_witness : task_pick_next 1 5 (snd (task_alloc_slot example_two)) = 2.
Proof.
  apply (alloc_slot_pickable example_two 2 (snd (task_alloc_slot example_two)) 5).
  - exact (pool_reachable_inv tt example_two tt example_two_reachable).
  - vm_compute. reflexivity.
  - vm_compute. reflexivity.
Defined.

End Task.
