(* ===== verification/Pmtu.v ===== *)
(** Path MTU cache: [src/net/pmtu.c], [src/net/pmtu.h].

    A fixed table of sixteen entries keyed by an IPv4 or IPv6 destination.
    Entry pointers are indices; the cache pointer of every call is non-null. *)

From S2P Require Import Prelude.

Module Pmtu.

Definition PMTU_ENTRY_MAX : nat := 16.

Definition PMTU_IPV4_MIN : Z := 576.

Definition PMTU_IPV6_MIN : Z := 1280.

Record pmtu_entry := PmtuEntry {
  family : Z;
  address4 : Z;
  address6 : list Z;
  mtu : Z;
  expires : Z;
  active : bool
}.

Record pmtu_cache := PmtuCache {
  entries : list pmtu_entry;
  now : Z;
  ttl : Z;
  updates : Z;
  hits : Z;
  expired : Z
}.

Definition zero6 : list Z := replicate 16 0.

Definition address6_equal (left right : list Z) : bool := bool_decide (left = right).

(** [None] is the null pointer. *)
Definition address6_unspecified (address : option (list Z)) : bool :=
  match address with
  | None => true
  | Some a => forallb (fun b => b =? 0) a
  end.

Definition clamp_mtu (mtu ceiling minimum : Z) : Z :=
  let mtu := if negb (nz mtu) then minimum else mtu in
  let mtu := if ceiling <? mtu then ceiling else mtu in
  let mtu := if mtu <? minimum then minimum else mtu in
  if ceiling <? mtu then ceiling else mtu.

Definition empty_entry : pmtu_entry := PmtuEntry 0 0 zero6 0 0 false.

Definition pmtu_init (ttl : Z) (cache : pmtu_cache) : pmtu_cache :=
  if negb (nz ttl) then cache
  else PmtuCache (replicate PMTU_ENTRY_MAX empty_entry) 0 ttl 0 0 0.

Definition set_active (b : bool) (e : pmtu_entry) : pmtu_entry :=
  PmtuEntry (family e) (address4 e) (address6 e) (mtu e) (expires e) b.

(** [(i32)(now - entry->expires) < 0] *)
Definition fresh (now : Z) (e : pmtu_entry) : bool := i32 (u32 (now - expires e)) <? 0.

Definition tick_entry (now : Z) (i : nat) (c : pmtu_cache) : pmtu_cache :=
  match entries c !! i with
  | Some e =>
      if negb (active e) || fresh now e then c
      else PmtuCache (<[i:=set_active false e]> (entries c)) (Pmtu.now c) (ttl c) (updates c)
             (hits c) (u64 (expired c + 1))
  | None => c
  end.

Definition pmtu_tick (now : Z) (c : pmtu_cache) : pmtu_cache :=
  for_n PMTU_ENTRY_MAX (tick_entry now)
    (PmtuCache (entries c) now (ttl c) (updates c) (hits c) (expired c)).

Definition matches4 (destination : Z) (e : pmtu_entry) : bool :=
  active e && (family e =? 4) && (address4 e =? destination).

Definition matches6 (destination : list Z) (e : pmtu_entry) : bool :=
  active e && (family e =? 6) && address6_equal (address6 e) destination.

Definition find4 (destination : Z) (c : pmtu_cache) : option nat :=
  find_index (matches4 destination) (entries c).

Definition find6 (destination : list Z) (c : pmtu_cache) : option nat :=
  find_index (matches6 destination) (entries c).

(** The allocation scan over the entries from index [i] on. *)
Fixpoint allocate_scan (l : list pmtu_entry) (i : nat) (oldest : option (nat * pmtu_entry)) :
    option nat :=
  match l with
  | [] => fst <$> oldest
  | e :: l' =>
      if negb (active e) then Some i
      else allocate_scan l' (S i)
             match oldest with
             | None => Some (i, e)
             | Some (j, o) => if i32 (u32 (expires e - expires o)) <? 0 then Some (i, e) else oldest
             end
  end.

Definition allocate_entry (c : pmtu_cache) : option nat := allocate_scan (entries c) 0 None.

Definition set_entries (l : list pmtu_entry) (c : pmtu_cache) : pmtu_cache :=
  PmtuCache l (now c) (ttl c) (updates c) (hits c) (expired c).

Definition store (i : nat) (new_mtu : Z) (c : pmtu_cache) : Z * pmtu_cache :=
  match entries c !! i with
  | None => (-1, c)
  | Some e =>
      let e' m := PmtuEntry (family e) (address4 e) (address6 e) m (u32 (now c + ttl c)) true in
      if active e && (mtu e <=? new_mtu)
      then (1, set_entries (<[i:=e' (mtu e)]> (entries c)) c)
      else (0, PmtuCache (<[i:=e' new_mtu]> (entries c)) (now c) (ttl c) (u64 (updates c + 1))
                 (hits c) (expired c))
  end.

(** [entry->family], [address4] and [address6] of a newly allocated entry. *)
Definition rekey (i : nat) (fam a4 : Z) (a6 : list Z) (c : pmtu_cache) : pmtu_cache :=
  set_entries (alter (fun e => PmtuEntry fam a4 a6 (mtu e) (expires e) (active e)) i (entries c)) c.

Definition pmtu_update4 (destination mtu ceiling : Z) (c : pmtu_cache) : Z * pmtu_cache :=
  if negb (nz destination) || negb (nz ceiling) then (-1, c) else
  let mtu := clamp_mtu mtu ceiling PMTU_IPV4_MIN in
  match find4 destination c with
  | Some i => store i mtu c
  | None =>
      match allocate_entry c with
      | None => (-1, c)
      | Some i => store i mtu (rekey i 4 destination zero6 c)
      end
  end.

Definition pmtu_update6 (destination : option (list Z)) (mtu ceiling : Z) (c : pmtu_cache) :
    Z * pmtu_cache :=
  match destination with
  | None => (-1, c)
  | Some a =>
      if address6_unspecified (Some a) || (byte_at a 0 =? 0xFF) || negb (nz ceiling) then (-1, c) else
      let mtu := clamp_mtu mtu ceiling PMTU_IPV6_MIN in
      match find6 a c with
      | Some i => store i mtu c
      | None =>
          match allocate_entry c with
          | None => (-1, c)
          | Some i => store i mtu (rekey i 6 0 a c)
          end
      end
  end.

(** The tail shared by the two lookups: the entry [i] is found. *)
Definition lookup_entry (i : nat) (ceiling : Z) (c : pmtu_cache) : Z * pmtu_cache :=
  match entries c !! i with
  | None => (ceiling, c)
  | Some e =>
      if 0 <=? i32 (u32 (now c - expires e))
      then (ceiling, PmtuCache (<[i:=set_active false e]> (entries c)) (now c) (ttl c) (updates c)
                       (hits c) (u64 (expired c + 1)))
      else (if mtu e <? ceiling then mtu e else ceiling,
            PmtuCache (entries c) (now c) (ttl c) (updates c) (u64 (hits c + 1)) (expired c))
  end.

Definition pmtu_lookup4 (destination ceiling : Z) (c : pmtu_cache) : Z * pmtu_cache :=
  if negb (nz destination) || negb (nz ceiling) then (ceiling, c) else
  match find4 destination c with
  | None => (ceiling, c)
  | Some i => lookup_entry i ceiling c
  end.

Definition pmtu_lookup6 (destination : option (list Z)) (ceiling : Z) (c : pmtu_cache) :
    Z * pmtu_cache :=
  match destination with
  | None => (ceiling, c)
  | Some a =>
      if address6_unspecified (Some a) || negb (nz ceiling) then (ceiling, c) else
      match find6 a c with
      | None => (ceiling, c)
      | Some i => lookup_entry i ceiling c
      end
  end.

(** ** The two families at once *)

Inductive destination := D4 (a : Z) | D6 (a : list Z).

#[global] Instance destination_eq_dec : EqDecision destination.
Proof. solve_decision. Defined.

Definition matches (d : destination) (e : pmtu_entry) : bool :=
  match d with D4 a => matches4 a e | D6 a => matches6 a e end.

(** A destination the update accepts. *)
Definition valid (d : destination) : Prop :=
  match d with
  | D4 a => a <> 0
  | D6 a => address6_unspecified (Some a) = false /\ byte_at a 0 <> 0xFF
  end.

Definition minimum (d : destination) : Z :=
  match d with D4 _ => PMTU_IPV4_MIN | D6 _ => PMTU_IPV6_MIN end.

Definition pmtu_update (d : destination) (mtu ceiling : Z) (c : pmtu_cache) : Z * pmtu_cache :=
  match d with
  | D4 a => pmtu_update4 a mtu ceiling c
  | D6 a => pmtu_update6 (Some a) mtu ceiling c
  end.

Definition pmtu_lookup (d : destination) (ceiling : Z) (c : pmtu_cache) : Z * pmtu_cache :=
  match d with
  | D4 a => pmtu_lookup4 a ceiling c
  | D6 a => pmtu_lookup6 (Some a) ceiling c
  end.

Definition find (d : destination) (c : pmtu_cache) : option nat := find_index (matches d) (entries c).

Definition rekey_to (d : destination) (i : nat) (c : pmtu_cache) : pmtu_cache :=
  match d with D4 a => rekey i 4 a zero6 c | D6 a => rekey i 6 0 a c end.

Lemma update_eq d m ceiling c :
  valid d -> ceiling <> 0 ->
  pmtu_update d m ceiling c =
  let m := clamp_mtu m ceiling (minimum d) in
  match find d c with
  | Some i => store i m c
  | None => match allocate_entry c with
            | None => (-1, c)
            | Some i => store i m (rekey_to d i c)
            end
  end.
Proof.
  intros Hv Hc. destruct d as [a|a]; simpl in *.
  - unfold pmtu_update4. by rewrite (proj2 (nz_true a)), (proj2 (nz_true ceiling)) by done.
  - destruct Hv as [Hu Hm]. simpl in Hu. rewrite Hu, (proj2 (Z.eqb_neq _ _) Hm).
    by rewrite (proj2 (nz_true ceiling)) by done.
Qed.

Lemma lookup_eq d ceiling c :
  valid d -> ceiling <> 0 ->
  pmtu_lookup d ceiling c =
  match find d c with None => (ceiling, c) | Some i => lookup_entry i ceiling c end.
Proof.
  intros Hv Hc. destruct d as [a|a]; simpl in *.
  - unfold pmtu_lookup4. by rewrite (proj2 (nz_true a)), (proj2 (nz_true ceiling)) by done.
  - destruct Hv as [Hu _]. simpl in Hu. rewrite Hu. by rewrite (proj2 (nz_true ceiling)) by done.
Qed.

(** A matching entry of [d] carries the key of [d] only. *)
Lemma matches_inj d d' e : matches d e = true -> matches d' e = true -> d = d'.
Proof.
  destruct d, d'; simpl; unfold matches4, matches6, address6_equal; intros H1 H2;
    boolify; try congruence.
  - apply bool_decide_eq_true in H3, H0. congruence.
Qed.

Lemma matches_active d e : matches d e = true -> active e = true.
Proof. destruct d; simpl; unfold matches4, matches6; intros H; by boolify. Qed.

(** What a destination maps to: the MTU and the expiry of its entry. *)
Definition view (d : destination) (c : pmtu_cache) : option (Z * Z) :=
  i ← find d c; e ← entries c !! i; Some (mtu e, expires e).

(** Timestamps are words, the lifetime is shorter than half the range, and
    no destination has two entries. *)
Record wf (c : pmtu_cache) : Prop := {
  wf_length : length (entries c) = PMTU_ENTRY_MAX;
  wf_now : is_u32 (now c);
  wf_ttl : 0 < ttl c < 0x80000000;
  wf_unique : forall d i j e f, entries c !! i = Some e -> entries c !! j = Some f ->
    matches d e = true -> matches d f = true -> i = j
}.

Lemma allocate_scan_spec l i oldest r :
  allocate_scan l i oldest = Some r ->
  (forall j o, oldest = Some (j, o) -> (j < i)%nat) ->
  (exists k e, r = (i + k)%nat /\ l !! k = Some e /\ active e = false) \/
  (Forall (fun e => active e = true) l /\
   ((exists o, oldest = Some (r, o)) \/ (exists k e, r = (i + k)%nat /\ l !! k = Some e))).
Proof.
  revert i oldest. induction l as [|e l IH]; intros i oldest; simpl.
  { destruct oldest as [[j o]|]; [|done]. intros [= ->] _. right. split; [constructor|].
    left. by exists o. }
  destruct (active e) eqn:Ha; simpl.
  2: { intros [= <-] _. left. exists O, e. split_and!; [lia|done|done]. }
  intros Hs Hlt. apply IH in Hs.
  - destruct Hs as [(k & e' & -> & Hk & Hn)|[Hall Hor]].
    + left. exists (S k), e'. split_and!; [lia|done|done].
    + right. split; [by constructor|]. destruct Hor as [[o Ho]|(k & e' & -> & Hk)].
      * destruct oldest as [[j o']|]; [case_if; simplify_eq/=; [|left; by eexists]|simplify_eq/=];
          right; exists O, o; (split; [lia|done]).
      * right. exists (S k), e'. split; [lia|done].
  - intros j o Ho. destruct oldest as [[j' o']|]; [case_if; simplify_eq/=|simplify_eq/=]; try lia.
    specialize (Hlt j o eq_refl). lia.
Qed.

(** An inactive entry is taken before any active one. *)
Lemma allocate_entry_spec c i :
  allocate_entry c = Some i ->
  exists e, entries c !! i = Some e /\
    (active e = true -> Forall (fun e => active e = true) (entries c)).
Proof.
  intros Ha. apply allocate_scan_spec in Ha as [(k & e & -> & Hk & Hn)|[Hall Hor]]; [| |done].
  - exists e. split; [done|congruence].
  - destruct Hor as [[o ?]|(k & e & -> & Hk)]; [done|]. by exists e.
Qed.

Lemma allocate_entry_total c : length (entries c) = PMTU_ENTRY_MAX -> allocate_entry c <> None.
Proof.
  unfold allocate_entry. intros Hl. destruct (entries c) as [|e l]; [done|]. clear Hl. simpl.
  destruct (active e); simpl; [|done]. generalize 1%nat (O, e). clear e.
  induction l as [|e l IH]; intros n [j o]; simpl; [done|]. destruct (active e); simpl; [|done].
  case_if; apply IH.
Qed.

(** One update rewrites one entry: the destination's own, or a freshly
    allocated one. *)
Record updated (d : destination) (m : Z) (c c' : pmtu_cache) (i : nat) (e e' : pmtu_entry) : Prop := {
  up_at : entries c !! i = Some e;
  up_entries : entries c' = <[i:=e']> (entries c);
  up_matches : matches d e' = true;
  up_mtu : mtu e' = if active e && (mtu e <=? m) then mtu e else m;
  up_expires : expires e' = u32 (now c + ttl c);
  up_clock : now c' = now c /\ ttl c' = ttl c;
  up_slot : matches d e = true \/
    find d c = None /\ (active e = true -> Forall (fun e => active e = true) (entries c))
}.

Lemma store_effect d i m c0 c e0 e :
  entries c0 !! i = Some e0 -> matches d (set_active true e0) = true ->
  entries c = <[i:=e]> (entries c0) -> entries c !! i = Some e ->
  active e = active e0 -> mtu e = mtu e0 -> now c0 = now c -> ttl c0 = ttl c ->
  (matches d e = true \/
   find d c = None /\ (active e = true -> Forall (fun e => active e = true) (entries c))) ->
  exists r c' e', store i m c0 = (r, c') /\ 0 <= r /\ updated d m c c' i e e'.
Proof.
  intros Hi Hm Hc He Ha Hmtu Hn Ht Hslot. unfold store. rewrite Hi, <- Ha, <- Hmtu.
  assert (forall v, matches d (PmtuEntry (family e0) (address4 e0) (address6 e0) v
    (u32 (now c0 + ttl c0)) true) = true) as Hmv by (intros v; by destruct d).
  assert (forall x, <[i:=x]> (entries c0) = <[i:=x]> (entries c)) as Hins
    by (intros x; by rewrite Hc, list_insert_insert_eq).
  destruct (active e && (mtu e <=? m)) eqn:Hcase; eexists _, _, _; (split; [done|]); (split; [lia|]);
    (split; simpl; [done|by rewrite Hins|by apply Hmv|by rewrite Hcase|by rewrite Hn, Ht|done|done]).
Qed.

Lemma update_effect d m ceiling c :
  wf c -> valid d -> ceiling <> 0 ->
  exists r c' i e e', pmtu_update d m ceiling c = (r, c') /\ 0 <= r /\
    updated d (clamp_mtu m ceiling (minimum d)) c c' i e e'.
Proof.
  intros Hwf Hv Hc. rewrite update_eq by done. cbv zeta. set (m' := clamp_mtu _ _ _).
  destruct (find d c) as [i|] eqn:Hf.
  - pose proof Hf as Hf'. apply find_index_Some in Hf' as (e & Hi & Hm & _).
    destruct (store_effect d i m' c c e e) as (r & c' & e' & Hs & Hr & Hu); try done.
    + destruct e; destruct d; simpl in *; unfold matches4, matches6 in *; simpl in *;
        by destruct (active0).
    + by rewrite list_insert_id.
    + by left.
    + by eexists r, c', i, e, e'.
  - destruct (allocate_entry c) as [i|] eqn:Ha;
      [|by destruct (allocate_entry_total c (wf_length c Hwf))].
    apply allocate_entry_spec in Ha as (e & Hi & Hall).
    set (e0 := match d with D4 a => PmtuEntry 4 a zero6 (mtu e) (expires e) (active e)
                          | D6 a => PmtuEntry 6 0 a (mtu e) (expires e) (active e) end).
    assert (entries (rekey_to d i c) = <[i:=e0]> (entries c)) as He0.
    { apply list_eq. intros j. destruct d; simpl; (destruct (decide (j = i)) as [->|Hne];
        [rewrite list_lookup_alter_eq, Hi, list_lookup_insert_eq; [done|by eapply lookup_lt_Some]
        |by rewrite list_lookup_alter_ne, list_lookup_insert_ne]). }
    destruct (store_effect d i m' (rekey_to d i c) c e0 e) as (r & c' & e' & Hs & Hr & Hu); try done.
    + rewrite He0, list_lookup_insert_eq; [done|by eapply lookup_lt_Some].
    + destruct d; simpl; unfold matches4, matches6, address6_equal; simpl;
        [by rewrite Z.eqb_refl|by rewrite bool_decide_true].
    + by rewrite He0, list_insert_insert_eq, list_insert_id.
    + by destruct d.
    + by destruct d.
    + by destruct d.
    + by destruct d.
    + by right.
    + by eexists r, c', i, e, e'.
Qed.

Section Updated.
Context (d : destination) (m : Z) (c c' : pmtu_cache) (i : nat) (e e' : pmtu_entry).
Hypothesis Hwf : wf c.
Hypothesis Hu : updated d m c c' i e e'.

Lemma updated_lookup j :
  entries c' !! j = if decide (j = i) then Some e' else entries c !! j.
Proof.
  pose proof (up_at _ _ _ _ _ _ _ Hu) as Hi. rewrite (up_entries _ _ _ _ _ _ _ Hu).
  destruct (decide (j = i)) as [->|Hne]; [|by rewrite list_lookup_insert_ne].
  apply list_lookup_insert_eq. by eapply lookup_lt_Some.
Qed.

(** No other entry matches the updated destination. *)
Lemma updated_other j f : j <> i -> entries c !! j = Some f -> matches d f = false.
Proof.
  intros Hne Hj. destruct (matches d f) eqn:Hm; [exfalso|done].
  destruct (up_slot _ _ _ _ _ _ _ Hu) as [He|[Hnone _]].
  - apply Hne. by apply (wf_unique c Hwf d j i f e Hj (up_at _ _ _ _ _ _ _ Hu)).
  - unfold find in Hnone. rewrite find_index_None in Hnone.
    rewrite (Hnone j f Hj) in Hm. done.
Qed.

Lemma updated_find : find d c' = Some i.
Proof.
  apply find_index_Some. exists e'. split_and!.
  - rewrite updated_lookup. by rewrite decide_True.
  - apply Hu.
  - intros j f Hlt Hj. rewrite updated_lookup, decide_False in Hj by lia.
    by apply (updated_other j f); [lia|].
Qed.

Lemma updated_wf : wf c'.
Proof.
  destruct (up_clock _ _ _ _ _ _ _ Hu) as [Hn Ht].
  assert (forall d' j k f g, entries c' !! j = Some f -> entries c' !! k = Some g ->
    matches d' f = true -> matches d' g = true -> k = i -> j = i) as Haux.
  { intros d' j k f g Hj Hk Hf Hg ->. destruct (decide (j = i)) as [|Hne]; [done|exfalso].
    rewrite updated_lookup, decide_True in Hk by done. injection Hk as <-.
    rewrite updated_lookup, decide_False in Hj by done.
    assert (d' = d) as -> by (eapply matches_inj; [exact Hg|apply Hu]).
    rewrite (updated_other j f Hne Hj) in Hf. done. }
  split; rewrite ?Hn, ?Ht; try apply Hwf.
  - rewrite (up_entries _ _ _ _ _ _ _ Hu), length_insert. apply Hwf.
  - intros d' j k f g Hj Hk Hf Hg.
    destruct (decide (k = i)) as [->|Hk']; [by eapply Haux|].
    destruct (decide (j = i)) as [->|Hj']; [symmetry; by eapply (Haux d' k i)|].
    rewrite updated_lookup, decide_False in Hj by done.
    rewrite updated_lookup, decide_False in Hk by done. by apply (wf_unique c Hwf d' j k f g).
Qed.

(** The other destinations keep their entry, unless it was the one evicted
    from a full table. *)
Lemma updated_view d' :
  d' <> d ->
  view d' c' = view d' c \/
  view d' c' = None /\ matches d' e = true /\ Forall (fun e => active e = true) (entries c).
Proof.
  intros Hne. assert (matches d' e' = false) as Hm'.
  { destruct (matches d' e') eqn:Hm; [|done]. exfalso. apply Hne.
    eapply matches_inj; [exact Hm|apply Hu]. }
  pose proof (up_at _ _ _ _ _ _ _ Hu) as Hi. unfold view.
  destruct (matches d' e) eqn:Hme.
  - right. assert (find d' c' = None) as Hn.
    { apply find_index_None. intros j f Hj. rewrite updated_lookup in Hj.
      destruct (decide (j = i)) as [|Hji]; [by simplify_eq|].
      destruct (matches d' f) eqn:Hf; [|done]. exfalso. apply Hji.
      by apply (wf_unique c Hwf d' j i f e). }
    rewrite Hn. split_and!; [done..|]. destruct (up_slot _ _ _ _ _ _ _ Hu) as [He|[_ Hall]].
    + exfalso. apply Hne. by eapply matches_inj.
    + apply Hall. by eapply matches_active.
  - left. assert (find d' c' = find d' c) as ->.
    { unfold find. destruct (find_index (matches d') (entries c)) as [j|] eqn:Hf.
      - apply find_index_Some in Hf as (f & Hj & Hfm & Hlt). apply find_index_Some.
        exists f. assert (j <> i) by (intros ->; congruence). split_and!; [|done|].
        + rewrite updated_lookup. by rewrite decide_False.
        + intros k g Hk Hg. rewrite updated_lookup in Hg.
          destruct (decide (k = i)); [by simplify_eq|]. by eapply Hlt.
      - rewrite find_index_None in Hf |- *. intros j f Hj. rewrite updated_lookup in Hj.
        destruct (decide (j = i)); [by simplify_eq|]. by eapply Hf. }
    destruct (find d' c) as [j|] eqn:Hf; simpl; [|done].
    apply find_index_Some in Hf as (f & Hj & Hfm & _).
    rewrite updated_lookup, decide_False; [done|]. intros ->. congruence.
Qed.

End Updated.

(** ** Properties *)

(** A lookup of the destination just updated finds the entry fresh. *)
Lemma updated_lookup_mtu d m c c' i e e' ceiling :
  wf c -> valid d -> ceiling <> 0 -> updated d m c c' i e e' ->
  fst (pmtu_lookup d ceiling c') = Z.min (mtu e') ceiling.
Proof.
  intros Hwf Hv Hc Hu. rewrite lookup_eq by done. rewrite (updated_find d m c c' i e e' Hwf Hu).
  unfold lookup_entry. rewrite (updated_lookup d m c c' i e e' Hu), decide_True by done.
  destruct (up_clock _ _ _ _ _ _ _ Hu) as [Hn Ht]. rewrite Hn, (up_expires _ _ _ _ _ _ _ Hu).
  pose proof (wf_ttl c Hwf) as Httl. rewrite u32_sub_r.
  replace (now c - (now c + ttl c)) with (- ttl c) by lia.
  assert (i32 (u32 (- ttl c)) < 0) as Hneg.
  { unfold i32. rewrite u32_idemp. unfold u32.
    destruct (Z.ltb_spec (- ttl c mod 0x100000000) 0x80000000); dmlia. }
  destruct (Z.leb_spec 0 (i32 (u32 (- ttl c)))); [lia|]. simpl.
  destruct (Z.ltb_spec (mtu e') ceiling); lia.
Qed.

Lemma clamp_mtu_range mtu ceiling minimum :
  0 < ceiling -> 0 < minimum ->
  Z.min minimum ceiling <= clamp_mtu mtu ceiling minimum <= ceiling.
Proof.
  intros Hc Hm. unfold clamp_mtu. set (x := if negb (nz mtu) then minimum else mtu).
  destruct (Z.ltb_spec ceiling x); [destruct (Z.ltb_spec ceiling minimum)|destruct (Z.ltb_spec x minimum)];
    case_if; boolify; lia.
Qed.

(** A learned path MTU holds at once and never exceeds the report: after an
    update, the lookup of that destination returns at most the reported value
    clamped to the protocol minimum and the interface, and exactly it when a
    free entry was available and the destination was new.  Every other
    destination keeps its entry, unless the table was full and its entry was
    the one evicted. *)
Theorem pmtu_learned d m ceiling ceiling' c r c' :
  wf c -> valid d -> 0 < ceiling -> 0 < ceiling' -> pmtu_update d m ceiling c = (r, c') ->
  let m' := clamp_mtu m ceiling (minimum d) in
  0 <= r /\ wf c' /\
  Z.min (minimum d) ceiling <= m' <= ceiling /\
  fst (pmtu_lookup d ceiling' c') <= Z.min m' ceiling' /\
  (view d c = None -> ~ Forall (fun e => active e = true) (entries c) ->
     fst (pmtu_lookup d ceiling' c') = Z.min m' ceiling') /\
  (forall d', d' <> d -> view d' c' = view d' c \/
     view d' c' = None /\ Forall (fun e => active e = true) (entries c)).
Proof.
  intros Hwf Hv Hc Hc' Hup m'.
  destruct (update_effect d m ceiling c Hwf Hv ltac:(lia)) as (r0 & c0 & i & e & e' & Heq & Hr & Hu).
  rewrite Hup in Heq. injection Heq as <- <-.
  assert (0 < minimum d) by (destruct d; simpl; unfold PMTU_IPV4_MIN, PMTU_IPV6_MIN; lia).
  rewrite (updated_lookup_mtu d m' c c' i e e') by (done || lia).
  pose proof (up_mtu _ _ _ _ _ _ _ Hu) as Hm. fold m' in Hm.
  split_and!; [done|by eapply updated_wf|by apply clamp_mtu_range..| | |].
  - rewrite Hm. destruct (active e); simpl; [destruct (Z.leb_spec (mtu e) m'); lia|lia].
  - intros Hview Hfull. assert (active e = false) as Ha.
    { destruct (active e) eqn:Ha; [|done]. exfalso.
      destruct (up_slot _ _ _ _ _ _ _ Hu) as [He|[_ Hall]]; [|by apply Hfull, Hall].
      unfold view in Hview. destruct (find d c) as [j|] eqn:Hf.
      - apply find_index_Some in Hf as (f & Hj & _). simpl in Hview. by rewrite Hj in Hview.
      - unfold find in Hf. rewrite find_index_None in Hf.
        rewrite (Hf i e (up_at _ _ _ _ _ _ _ Hu)) in He. done. }
    by rewrite Hm, Ha.
  - intros d' Hne. destruct (updated_view d m' c c' i e e' Hwf Hu d' Hne) as [?|(? & _ & ?)]; auto.
Qed.

(** An empty cache, and one filled with sixteen IPv4 destinations. *)
Definition example_cache : pmtu_cache :=
  pmtu_init 600 (PmtuCache [] 0 0 0 0 0).

Definition example_full : pmtu_cache :=
  for_n 16 (fun i c => snd (pmtu_update4 (Z.of_nat i + 1) 600 1500 c)) example_cache.

Lemma example_cache_wf : wf example_cache.
Proof.
  split; [reflexivity|unfold is_u32; simpl; lia|simpl; lia|].
  intros d i j e f Hi Hj He. exfalso. apply matches_active in He.
  change (entries example_cache) with (replicate 16 empty_entry) in Hi.
  apply lookup_replicate in Hi as [-> _]. done.
Qed.

Lemma example_full_wf : wf example_full.
Proof.
  unfold example_full. apply (for_n_ind (fun _ => wf)); [exact example_cache_wf|].
  intros i c _ Hwf. destruct (update_effect (D4 (Z.of_nat i + 1)) 600 1500 c Hwf)
    as (r & c' & j & e & e' & Heq & _ & Hu); [simpl; lia|lia|].
  simpl in Heq. rewrite Heq. simpl. by eapply updated_wf.
Qed.

Lemma pmtu_learned_witness :
  fst (pmtu_lookup4 7 1500 (snd (pmtu_update4 7 900 1500 example_cache))) = 900.
Proof.
  destruct (pmtu_learned (D4 7) 900 1500 1500 example_cache 0
    (snd (pmtu_update4 7 900 1500 example_cache)) example_cache_wf ltac:(discriminate) ltac:(lia)
    ltac:(lia) ltac:(vm_compute; reflexivity)) as (_ & _ & _ & _ & H & _).
  apply H.
  - vm_compute. reflexivity.
  - intros Hf. apply Forall_inv in Hf. vm_compute in Hf. discriminate.
Defined.

(** An evicted entry leaks its MTU: when the table is full and the evicted
    entry's MTU is not above the new report, the new destination keeps the
    victim's MTU instead of its own. *)
Theorem pmtu_evicted_mtu d m ceiling c i e :
  wf c -> valid d -> 0 < ceiling -> find d c = None -> allocate_entry c = Some i ->
  entries c !! i = Some e -> active e = true -> mtu e <= clamp_mtu m ceiling (minimum d) ->
  fst (pmtu_lookup d ceiling (snd (pmtu_update d m ceiling c))) = Z.min (mtu e) ceiling.
Proof.
  intros Hwf Hv Hc Hf Ha Hi Hact Hle.
  destruct (update_effect d m ceiling c Hwf Hv ltac:(lia)) as (r & c' & j & f & f' & Heq & _ & Hu).
  rewrite Heq. simpl snd. rewrite (updated_lookup_mtu d _ c c' j f f') by (done || lia).
  pose proof (updated_find d _ c c' j f f' Hwf Hu) as Hfj.
  assert (j = i) as ->.
  { destruct (decide (j = i)) as [|Hne]; [done|]. exfalso.
    rewrite update_eq, Hf, Ha in Heq by (done || lia).
    assert (entries c' !! j = entries c !! j) as Hsame.
    { unfold store in Heq. destruct (entries (rekey_to d i c) !! i) eqn:Hi'.
      - destruct d; simpl in Heq; case_if; injection Heq as _ <-; simpl;
          by rewrite list_lookup_insert_ne, list_lookup_alter_ne by done.
      - injection Heq as _ <-. destruct d; simpl; by rewrite list_lookup_alter_ne by done. }
    apply find_index_Some in Hfj as (g & Hg & Hgm & _). rewrite Hsame in Hg.
    unfold find in Hf. rewrite find_index_None in Hf. rewrite (Hf j g Hg) in Hgm. done. }
  pose proof (up_at _ _ _ _ _ _ _ Hu) as Hi'. simplify_eq.
  rewrite (up_mtu _ _ _ _ _ _ _ Hu), Hact. simpl. destruct (Z.leb_spec (mtu e) (clamp_mtu m ceiling (minimum d))); lia.
Qed.

Lemma pmtu_evicted_mtu_witness :
  fst (pmtu_lookup4 99 1500 (snd (pmtu_update4 99 1400 1500 example_full))) = 600.
Proof.
  apply (pmtu_evicted_mtu (D4 99) 1400 1500 example_full 0
    (PmtuEntry 4 1 zero6 600 600 true) example_full_wf).
  - discriminate.
  - lia.
  - vm_compute. reflexivity.
  - vm_compute. reflexivity.
  - vm_compute. reflexivity.
  - reflexivity.
  - vm_compute. discriminate.
Defined.

End Pmtu.
