(* ===== verification/Pledge.v ===== *)
(** Process sandbox: [src/process/posix_pledge.c], [src/process/posix_pledge.h].

    The per-slot pledge states and the operations of pledge(2) and unveil(2).
    C strings are lists of characters without the terminator and a null
    pointer is [None].  The name space below the veil (node identities, parent
    links, path resolution) is a parameter; the references that resolution and
    [vfs_node_parent] take are counted in a ledger, so that every path through
    the code is shown to return them. *)

From Stdlib Require Import String Ascii.
From S2P Require Import Prelude.

Module Pledge.

Definition MAX_TASKS : Z := 32.

Definition POSIX_PLEDGE_EPERM : Z := -1.

Definition POSIX_PLEDGE_ENOENT : Z := -2.

Definition POSIX_PLEDGE_E2BIG : Z := -7.

Definition POSIX_PLEDGE_EACCES : Z := -13.

Definition POSIX_PLEDGE_EINVAL : Z := -22.

Definition POSIX_PLEDGE_ENOSYS : Z := -38.

Definition POSIX_PLEDGE_STDIO : Z := 1.

Definition POSIX_PLEDGE_RPATH : Z := 2.

Definition POSIX_PLEDGE_WPATH : Z := 4.

Definition POSIX_PLEDGE_CPATH : Z := 8.

Definition POSIX_PLEDGE_FATTR : Z := 16.

Definition POSIX_PLEDGE_PROC : Z := 32.

Definition POSIX_PLEDGE_EXEC : Z := 64.

Definition POSIX_PLEDGE_UNVEIL : Z := 128.

Definition POSIX_PLEDGE_ERROR : Z := 256.

Definition POSIX_PLEDGE_NET : Z := 512.

Definition POSIX_VEIL_READ : Z := 1.

Definition POSIX_VEIL_WRITE : Z := 2.

Definition POSIX_VEIL_EXECUTE : Z := 4.

Definition POSIX_VEIL_CREATE : Z := 8.

Definition POSIX_PLEDGE_UNVEIL_MAX : Z := 12.

Definition VFS_PATH_COMPONENT_MAX : nat := 32.

Definition VFS_NODE_DIRECTORY : Z := 2.

Record posix_veil_entry := VeilEntry {
  slot : Z;
  generation : Z;
  parent : Z;
  parent_generation : Z;
  name : list Z;
  permissions : Z;
  is_directory : bool;
  used : bool
}.

(** [entries] holds the first [entry_count] elements of the array. *)
Record posix_pledge_state := PledgeState {
  promises : Z;
  exec_promises : Z;
  promised : bool;
  has_exec_promises : bool;
  veiled : bool;
  locked : bool;
  entries : list posix_veil_entry
}.

Definition unrestricted : posix_pledge_state := PledgeState 0 0 false false false false [].

(** [static struct posix_pledge_state states[MAX_TASKS]] *)
Definition states : Type := Z -> posix_pledge_state.

Definition state_for (task : Z) (s : states) : option posix_pledge_state :=
  if MAX_TASKS <=? u32 task then None else Some (s (u32 task)).

Definition set_state (task : Z) (st : posix_pledge_state) (s : states) : states :=
  upd s (u32 task) st.

Definition posix_pledge_reset (task : Z) (s : states) : states :=
  match state_for task s with
  | None => s
  | Some _ => set_state task unrestricted s
  end.

Definition posix_pledge_fork (parent child : Z) (s : states) : states :=
  match state_for parent s, state_for child s with
  | Some from, Some _ => set_state child from s
  | _, _ => s
  end.

Definition exec_state (st : posix_pledge_state) : posix_pledge_state :=
  PledgeState (if has_exec_promises st then exec_promises st else promises st) 0 (promised st)
    false (veiled st) (locked st) (entries st).

Definition posix_pledge_exec (task : Z) (s : states) : states :=
  match state_for task s with
  | None => s
  | Some st => set_state task (exec_state st) s
  end.

Fixpoint str (s : string) : list Z :=
  match s with
  | EmptyString => []
  | String a s => Z.of_nat (nat_of_ascii a) :: str s
  end.

Definition promise_table : list (list Z * Z) :=
  [(str "stdio", POSIX_PLEDGE_STDIO); (str "rpath", POSIX_PLEDGE_RPATH);
   (str "wpath", POSIX_PLEDGE_WPATH); (str "cpath", POSIX_PLEDGE_CPATH);
   (str "fattr", POSIX_PLEDGE_FATTR); (str "proc", POSIX_PLEDGE_PROC);
   (str "exec", POSIX_PLEDGE_EXEC); (str "unveil", POSIX_PLEDGE_UNVEIL);
   (str "error", POSIX_PLEDGE_ERROR); (str "net", POSIX_PLEDGE_NET)].

(** The first row of the table with that name; [None] is -1. *)
Fixpoint token_in (table : list (list Z * Z)) (token : list Z) : option Z :=
  match table with
  | [] => None
  | (name, value) :: table =>
      if bool_decide (name = token) then Some value else token_in table token
  end.

Definition promise_token (token : list Z) : option Z := token_in promise_table token.

Definition SPACE : Z := 32.

Fixpoint skip_spaces (s : list Z) : list Z :=
  match s with
  | c :: s' => if c =? SPACE then skip_spaces s' else s
  | [] => []
  end.

(** The characters up to the next space, and the rest. *)
Fixpoint take_word (s : list Z) : list Z * list Z :=
  match s with
  | [] => ([], [])
  | c :: s' => if c =? SPACE then ([], s) else let '(w, r) := take_word s' in (c :: w, r)
  end.

(** The endless loop of [parse_promises]; each turn consumes a word. *)
Fixpoint parse_loop (fuel : nat) (string : list Z) (mask : Z) : option Z :=
  match fuel with
  | O => None
  | S fuel =>
      match skip_spaces string with
      | [] => Some mask
      | s =>
          let '(word, rest) := take_word s in
          match promise_token word with
          | None => None
          | Some bit => parse_loop fuel rest (Z.lor mask bit)
          end
      end
  end.

Definition parse_promises (string : option (list Z)) : option Z :=
  match string with
  | None => Some 0
  | Some s => parse_loop (S (length s)) s 0
  end.

(** [a & ~b] on 32-bit words. *)
Definition andnot (a b : Z) : Z := Z.land a (u32 (Z.lnot b)).

(** The two halves of [posix_pledge_promise]; [inl] is an early return. *)
Definition promise_half (string : option (list Z)) (st : posix_pledge_state) :
    Z + posix_pledge_state :=
  match string with
  | None => inr st
  | Some _ =>
      match parse_promises string with
      | None => inl POSIX_PLEDGE_EINVAL
      | Some next =>
          if promised st && nz (andnot next (promises st)) then inl POSIX_PLEDGE_EPERM
          else inr (PledgeState next (exec_promises st) true (has_exec_promises st) (veiled st)
                      (if negb (nz (Z.land next POSIX_PLEDGE_UNVEIL)) then true else locked st)
                      (entries st))
      end
  end.

Definition exec_half (string : option (list Z)) (st : posix_pledge_state) :
    Z + posix_pledge_state :=
  match string with
  | None => inr st
  | Some _ =>
      match parse_promises string with
      | None => inl POSIX_PLEDGE_EINVAL
      | Some next =>
          if has_exec_promises st && nz (andnot next (exec_promises st)) then inl POSIX_PLEDGE_EPERM
          else inr (PledgeState (promises st) next (promised st) true (veiled st) (locked st)
                      (entries st))
      end
  end.

(** The state the first half leaves is kept when the second half fails. *)
Definition promise_state (promises execpromises : option (list Z)) (st : posix_pledge_state) :
    Z * posix_pledge_state :=
  match promise_half promises st with
  | inl e => (e, st)
  | inr st =>
      match exec_half execpromises st with
      | inl e => (e, st)
      | inr st => (0, st)
      end
  end.

Definition posix_pledge_promise (task : Z) (promises execpromises : option (list Z)) (s : states) :
    Z * states :=
  match state_for task s with
  | None => (POSIX_PLEDGE_EPERM, s)
  | Some st => let '(r, st) := promise_state promises execpromises st in (r, set_state task st s)
  end.

Definition permission_bit (c : Z) : option Z :=
  if c =? 114 then Some POSIX_VEIL_READ else
  if c =? 119 then Some POSIX_VEIL_WRITE else
  if c =? 120 then Some POSIX_VEIL_EXECUTE else
  if c =? 99 then Some POSIX_VEIL_CREATE else None.

Fixpoint permission_loop (s : list Z) (bits : Z) : option Z :=
  match s with
  | [] => Some bits
  | c :: s => match permission_bit c with
              | None => None
              | Some b => permission_loop s (Z.lor bits b)
              end
  end.

Definition parse_permissions (string : option (list Z)) : option Z :=
  match string with
  | None => None
  | Some s => permission_loop s 0
  end.

(** [struct vfs_node_identity] *)
Record identity := Identity {
  id_slot : Z;
  id_generation : Z;
  id_parent : Z;
  id_parent_generation : Z;
  id_type : Z;
  id_name : list Z
}.

(** References taken and returned, by node. *)
Definition ledger : Type := Z -> Z.

Definition retain (n : Z) (refs : ledger) : ledger := upd refs n (refs n + 1).

Definition object_release (n : Z) (refs : ledger) : ledger := upd refs n (refs n - 1).

Section NameSpace.
(** The identity of a node, [None] when the object is not a node; its parent
    directory or mountpoint; and the two path lookups, which return a status
    and the node they retained. *)
Context (node_identity : Z -> option identity).
Context (node_parent : Z -> option Z).
Context (profile_resolve : Z -> list Z -> Z * option Z).
Context (profile_parent : Z -> list Z -> Z * option Z).

Definition vfs_node_parent (n : Z) (refs : ledger) : option Z * ledger :=
  match node_parent n with
  | None => (None, refs)
  | Some p => (Some p, retain p refs)
  end.

Definition retained (r : Z * option Z) (refs : ledger) : Z * option Z * ledger :=
  match snd r with
  | None => (r, refs)
  | Some n => (r, retain n refs)
  end.

Definition posix_profile_resolve (task : Z) (path : list Z) (refs : ledger) : Z * option Z * ledger :=
  retained (profile_resolve task path) refs.

Definition posix_profile_parent (task : Z) (path : list Z) (refs : ledger) : Z * option Z * ledger :=
  retained (profile_parent task path) refs.

(** The walk to the root: the identities, the node the loop stopped at. *)
Fixpoint veil_chain (n : nat) (node : Z) (walk : option Z) (refs : ledger) :
    list identity * option Z * ledger :=
  match n, walk with
  | S n, Some w =>
      match node_identity w with
      | None => ([], walk, refs)
      | Some id =>
          let '(up, refs) := vfs_node_parent w refs in
          let refs := if w =? node then refs else object_release w refs in
          let '(chain, last, refs) := veil_chain n node up refs in
          (id :: chain, last, refs)
      end
  | _, _ => ([], walk, refs)
  end.

(** A file rule covers the node, by identity or by name in its parent. *)
Definition file_rule (id : identity) (e : posix_veil_entry) : bool :=
  used e && negb (is_directory e) &&
  (((slot e =? id_slot id) && (generation e =? id_generation id)) ||
   ((parent e =? id_parent id) && (parent_generation e =? id_parent_generation id) &&
    bool_decide (name e = id_name id))).

Definition directory_rule (id : identity) (e : posix_veil_entry) : bool :=
  used e && is_directory e && (slot e =? id_slot id) && (generation e =? id_generation id).

Definition first_rule (f : posix_veil_entry -> bool) (l : list posix_veil_entry) : option Z :=
  match find_index f l with
  | Some i => permissions <$> l !! i
  | None => None
  end.

(** The deepest directory rule: the levels from the node upwards. *)
Fixpoint directory_scan (chain : list identity) (l : list posix_veil_entry) : option Z :=
  match chain with
  | [] => None
  | id :: chain =>
      match first_rule (directory_rule id) l with
      | Some p => Some p
      | None => directory_scan chain l
      end
  end.

Definition veil_permissions (st : posix_pledge_state) (node : Z) (refs : ledger) :
    option Z * ledger :=
  let '(chain, last, refs) := veil_chain (VFS_PATH_COMPONENT_MAX + 2) node (Some node) refs in
  let refs := match last with
              | Some w => if w =? node then refs else object_release w refs
              | None => refs
              end in
  match chain with
  | [] => (None, refs)
  | id :: _ =>
      match first_rule (file_rule id) (entries st) with
      | Some p => (Some p, refs)
      | None => (directory_scan chain (entries st), refs)
      end
  end.

(** The rule a repeated [unveil] of the node addresses. *)
Definition same_rule (id : identity) (dir : bool) (e : posix_veil_entry) : bool :=
  used e && eqb (is_directory e) dir &&
  (((slot e =? id_slot id) && (generation e =? id_generation id)) ||
   (negb dir && (parent e =? id_parent id) && (parent_generation e =? id_parent_generation id) &&
    bool_decide (name e = id_name id))).

Definition set_permissions (bits : Z) (e : posix_veil_entry) : posix_veil_entry :=
  VeilEntry (slot e) (generation e) (parent e) (parent_generation e) (name e) (u8 bits)
    (is_directory e) (used e).

Definition with_rules (l : list posix_veil_entry) (st : posix_pledge_state) : posix_pledge_state :=
  PledgeState (promises st) (exec_promises st) (promised st) (has_exec_promises st) true (locked st) l.

Definition lock (st : posix_pledge_state) : posix_pledge_state :=
  PledgeState (promises st) (exec_promises st) (promised st) (has_exec_promises st) (veiled st) true
    (entries st).

(** The rule for a resolved node. *)
Definition add_rule (id : identity) (bits : Z) (st : posix_pledge_state) : Z * posix_pledge_state :=
  let dir := id_type id =? VFS_NODE_DIRECTORY in
  match find_index (same_rule id dir) (entries st) with
  | Some i =>
      match entries st !! i with
      | None => (0, st)
      | Some e =>
          if nz (andnot bits (permissions e)) then (POSIX_PLEDGE_EPERM, st)
          else (0, with_rules (<[i:=set_permissions bits e]> (entries st)) st)
      end
  | None =>
      if POSIX_PLEDGE_UNVEIL_MAX <=? Z.of_nat (length (entries st)) then (POSIX_PLEDGE_E2BIG, st)
      else (0, with_rules (entries st ++
                 [VeilEntry (id_slot id) (id_generation id) (id_parent id) (id_parent_generation id)
                    (id_name id) (u8 bits) dir true]) st)
  end.

Definition unveil_state (task : Z) (path perms : option (list Z)) (st : posix_pledge_state)
    (refs : ledger) : Z * posix_pledge_state * ledger :=
  match path, perms with
  | None, None => if locked st then (POSIX_PLEDGE_EPERM, st, refs) else (0, lock st, refs)
  | Some path, Some perms =>
      if locked st then (POSIX_PLEDGE_EPERM, st, refs) else
      if promised st && negb (nz (Z.land (promises st) POSIX_PLEDGE_UNVEIL))
      then (POSIX_PLEDGE_EPERM, st, refs) else
      match parse_permissions (Some perms) with
      | None => (POSIX_PLEDGE_EINVAL, st, refs)
      | Some bits =>
          let '(status, node, refs) := posix_profile_resolve task path refs in
          if nz status then (POSIX_PLEDGE_ENOENT, st, refs) else
          match node with
          | None => (POSIX_PLEDGE_ENOENT, st, refs)
          | Some n =>
              match node_identity n with
              | None => (POSIX_PLEDGE_ENOENT, st, object_release n refs)
              | Some id => let '(r, st) := add_rule id bits st in (r, st, object_release n refs)
              end
          end
      end
  | _, _ => (POSIX_PLEDGE_EINVAL, st, refs)
  end.

Definition posix_pledge_unveil (task : Z) (path perms : option (list Z)) (s : states)
    (refs : ledger) : Z * states * ledger :=
  match state_for task s with
  | None => (POSIX_PLEDGE_EPERM, s, refs)
  | Some st =>
      let '(r, st, refs) := unveil_state task path perms st refs in (r, set_state task st s, refs)
  end.

(** [(permissions & need) != need] *)
Definition lacks (perms need : Z) : bool := negb (Z.land perms need =? need).

(** The rule of one retained node against the needed permissions. *)
Definition node_check (st : posix_pledge_state) (n need : Z) (refs : ledger) : Z * ledger :=
  let '(p, refs) := veil_permissions st n refs in
  let refs := object_release n refs in
  match p with
  | None => (POSIX_PLEDGE_ENOENT, refs)
  | Some p => (if lacks p need then POSIX_PLEDGE_EACCES else 0, refs)
  end.

(** The fall back to the parent directory's rule. *)
Definition create_check (st : posix_pledge_state) (task : Z) (path : list Z) (need : Z)
    (refs : ledger) : Z * ledger :=
  if negb (nz need) then (POSIX_PLEDGE_ENOENT, refs) else
  let '(status, node, refs) := posix_profile_parent task path refs in
  match nz status, node with
  | false, Some n => node_check st n need refs
  | _, _ => (POSIX_PLEDGE_ENOENT, refs)
  end.

Definition posix_pledge_veil_check (task : Z) (path : list Z) (leaf_need create_need : Z)
    (s : states) (refs : ledger) : Z * ledger :=
  match state_for task s with
  | None => (0, refs)
  | Some st =>
      if negb (veiled st) then (0, refs) else
      let '(status, node, refs) := posix_profile_resolve task path refs in
      match nz status, node with
      | false, Some n => node_check st n leaf_need refs
      | _, _ =>
          create_check st task path create_need
            match node with Some n => object_release n refs | None => refs end
      end
  end.

End NameSpace.

Definition POSIX_SYSCALL_OPEN : Z := 186.

Definition POSIX_SYSCALL_CLOSE : Z := 187.

Definition POSIX_SYSCALL_READ : Z := 188.

Definition POSIX_SYSCALL_WRITE : Z := 189.

Definition POSIX_SYSCALL_LSEEK : Z := 190.

Definition POSIX_SYSCALL_DUP : Z := 191.

Definition POSIX_SYSCALL_DUP2 : Z := 192.

Definition POSIX_SYSCALL_FCNTL : Z := 193.

Definition POSIX_SYSCALL_STAT : Z := 194.

Definition POSIX_SYSCALL_FSTAT : Z := 195.

Definition POSIX_SYSCALL_MKDIR : Z := 196.

Definition POSIX_SYSCALL_RMDIR : Z := 197.

Definition POSIX_SYSCALL_UNLINK : Z := 198.

Definition POSIX_SYSCALL_CHDIR : Z := 199.

Definition POSIX_SYSCALL_GETCWD : Z := 200.

Definition POSIX_SYSCALL_TRUNCATE : Z := 201.

Definition POSIX_SYSCALL_FORK : Z := 202.

Definition POSIX_SYSCALL_EXECVE : Z := 203.

Definition POSIX_SYSCALL_EXIT : Z := 204.

Definition POSIX_SYSCALL_WAITPID : Z := 205.

Definition POSIX_SYSCALL_GETPID : Z := 206.

Definition POSIX_SYSCALL_GETPPID : Z := 207.

Definition POSIX_SYSCALL_BRK : Z := 208.

Definition POSIX_SYSCALL_GETRANDOM : Z := 209.

Definition POSIX_SYSCALL_GETDENTS : Z := 217.

Definition POSIX_SYSCALL_CHMOD : Z := 218.

Definition POSIX_SYSCALL_FCHMOD : Z := 219.

Definition POSIX_SYSCALL_CHOWN : Z := 220.

Definition POSIX_SYSCALL_UMASK : Z := 221.

Definition POSIX_SYSCALL_LINK : Z := 222.

Definition POSIX_SYSCALL_RENAME : Z := 223.

Definition POSIX_SYSCALL_SYMLINK : Z := 224.

Definition POSIX_SYSCALL_READLINK : Z := 225.

Definition POSIX_SYSCALL_LSTAT : Z := 226.

Definition POSIX_SYSCALL_FTRUNCATE : Z := 227.

Definition POSIX_SYSCALL_PREAD : Z := 228.

Definition POSIX_SYSCALL_PWRITE : Z := 229.

Definition POSIX_SYSCALL_FSYNC : Z := 230.

Definition POSIX_SYSCALL_FDATASYNC : Z := 231.

Definition POSIX_SYSCALL_ACCESS : Z := 232.

Definition POSIX_SYSCALL_UTIMENSAT : Z := 233.

Definition POSIX_SYSCALL_FUTIMENS : Z := 234.

Definition POSIX_SYSCALL_CLOCK_GETTIME : Z := 235.

Definition POSIX_SYSCALL_CLOCK_GETRES : Z := 236.

Definition POSIX_SYSCALL_NANOSLEEP : Z := 237.

Definition POSIX_SYSCALL_KILL : Z := 238.

Definition POSIX_SYSCALL_SIGACTION : Z := 239.

Definition POSIX_SYSCALL_SIGPROCMASK : Z := 240.

Definition POSIX_SYSCALL_SIGRETURN : Z := 241.

Definition POSIX_SYSCALL_SIGPENDING : Z := 242.

Definition POSIX_SYSCALL_PLEDGE : Z := 243.

Definition POSIX_SYSCALL_UNVEIL : Z := 244.

Definition POSIX_SYSCALL_PIPE : Z := 245.

Definition POSIX_SYSCALL_SOCKET : Z := 246.

Definition POSIX_SYSCALL_BIND : Z := 247.

Definition POSIX_SYSCALL_LISTEN : Z := 248.

Definition POSIX_SYSCALL_ACCEPT : Z := 249.

Definition POSIX_SYSCALL_CONNECT : Z := 250.

Definition POSIX_SYSCALL_SEND : Z := 251.

Definition POSIX_SYSCALL_RECV : Z := 252.

Definition POSIX_SYSCALL_SENDTO : Z := 253.

Definition POSIX_SYSCALL_RECVFROM : Z := 254.

Definition POSIX_SYSCALL_SENDMSG : Z := 255.

Definition POSIX_SYSCALL_RECVMSG : Z := 256.

Definition POSIX_SYSCALL_SHUTDOWN : Z := 257.

Definition POSIX_SYSCALL_GETSOCKOPT : Z := 258.

Definition POSIX_SYSCALL_SETSOCKOPT : Z := 259.

Definition POSIX_SYSCALL_GETSOCKNAME : Z := 260.

Definition POSIX_SYSCALL_GETPEERNAME : Z := 261.

Definition POSIX_SYSCALL_POLL : Z := 262.

Definition POSIX_SYSCALL_IOCTL : Z := 263.

Definition POSIX_SYSCALL_GETPGRP : Z := 264.

Definition POSIX_SYSCALL_SETPGID : Z := 265.

Definition POSIX_SYSCALL_TCGETPGRP : Z := 266.

Definition POSIX_SYSCALL_TCSETPGRP : Z := 267.

Definition stdio_calls : list Z :=
  [POSIX_SYSCALL_READ; POSIX_SYSCALL_WRITE; POSIX_SYSCALL_CLOSE; POSIX_SYSCALL_LSEEK;
   POSIX_SYSCALL_DUP; POSIX_SYSCALL_DUP2; POSIX_SYSCALL_FCNTL; POSIX_SYSCALL_FSTAT;
   POSIX_SYSCALL_PREAD; POSIX_SYSCALL_PWRITE; POSIX_SYSCALL_FSYNC; POSIX_SYSCALL_FDATASYNC;
   POSIX_SYSCALL_BRK; POSIX_SYSCALL_GETRANDOM; POSIX_SYSCALL_GETCWD;
   POSIX_SYSCALL_CLOCK_GETTIME; POSIX_SYSCALL_CLOCK_GETRES; POSIX_SYSCALL_NANOSLEEP;
   POSIX_SYSCALL_SIGACTION; POSIX_SYSCALL_SIGPROCMASK; POSIX_SYSCALL_SIGRETURN;
   POSIX_SYSCALL_SIGPENDING; POSIX_SYSCALL_PIPE; POSIX_SYSCALL_POLL; POSIX_SYSCALL_IOCTL].

Definition rpath_calls : list Z :=
  [POSIX_SYSCALL_STAT; POSIX_SYSCALL_LSTAT; POSIX_SYSCALL_ACCESS; POSIX_SYSCALL_READLINK;
   POSIX_SYSCALL_CHDIR; POSIX_SYSCALL_GETDENTS].

Definition wpath_calls : list Z :=
  [POSIX_SYSCALL_TRUNCATE; POSIX_SYSCALL_FTRUNCATE].

Definition cpath_calls : list Z :=
  [POSIX_SYSCALL_MKDIR; POSIX_SYSCALL_RMDIR; POSIX_SYSCALL_UNLINK; POSIX_SYSCALL_LINK;
   POSIX_SYSCALL_RENAME; POSIX_SYSCALL_SYMLINK].

Definition fattr_calls : list Z :=
  [POSIX_SYSCALL_CHMOD; POSIX_SYSCALL_FCHMOD; POSIX_SYSCALL_CHOWN; POSIX_SYSCALL_UMASK;
   POSIX_SYSCALL_UTIMENSAT; POSIX_SYSCALL_FUTIMENS].

Definition proc_calls : list Z :=
  [POSIX_SYSCALL_FORK; POSIX_SYSCALL_WAITPID; POSIX_SYSCALL_KILL].

Definition exec_calls : list Z :=
  [POSIX_SYSCALL_EXECVE].

Definition net_calls : list Z :=
  [POSIX_SYSCALL_SOCKET; POSIX_SYSCALL_BIND; POSIX_SYSCALL_LISTEN; POSIX_SYSCALL_ACCEPT;
   POSIX_SYSCALL_CONNECT].

(** The cases of the switch, in order. *)
Definition required_promises (number : Z) : Z :=
  if bool_decide (number ∈ stdio_calls) then POSIX_PLEDGE_STDIO else
  if bool_decide (number ∈ rpath_calls) then POSIX_PLEDGE_RPATH else
  if bool_decide (number ∈ wpath_calls) then POSIX_PLEDGE_WPATH else
  if bool_decide (number ∈ cpath_calls) then POSIX_PLEDGE_CPATH else
  if bool_decide (number ∈ fattr_calls) then POSIX_PLEDGE_FATTR else
  if bool_decide (number ∈ proc_calls) then POSIX_PLEDGE_PROC else
  if bool_decide (number ∈ exec_calls) then POSIX_PLEDGE_EXEC else
  if bool_decide (number ∈ net_calls) then POSIX_PLEDGE_NET else
  0.

Definition gate_mask (st : posix_pledge_state) (need : Z) : Z :=
  if negb (promised st) || negb (nz need) then 0 else
  if Z.land (promises st) need =? need then 0 else
  if nz (Z.land (promises st) POSIX_PLEDGE_ERROR) then POSIX_PLEDGE_ENOSYS else 1.

Definition posix_pledge_gate (task number : Z) (s : states) : Z :=
  match state_for task s with
  | None => 0
  | Some st => gate_mask st (required_promises number)
  end.

Definition POSIX_OPEN_ACCMODE : Z := 3.

Definition POSIX_OPEN_RDONLY : Z := 0.

Definition POSIX_OPEN_RDWR : Z := 2.

Definition POSIX_OPEN_CREAT : Z := 0x40.

Definition open_need (flags : Z) : Z :=
  let mode := Z.land flags POSIX_OPEN_ACCMODE in
  let need := if mode =? POSIX_OPEN_RDONLY then POSIX_PLEDGE_RPATH else POSIX_PLEDGE_WPATH in
  let need := if mode =? POSIX_OPEN_RDWR then Z.lor need POSIX_PLEDGE_RPATH else need in
  if nz (Z.land flags POSIX_OPEN_CREAT) then Z.lor need POSIX_PLEDGE_CPATH else need.

Definition posix_pledge_gate_open (task flags : Z) (s : states) : Z :=
  match state_for task s with
  | None => 0
  | Some st => gate_mask st (open_need flags)
  end.

(** ** Masks *)

Definition subset (a b : Z) : Prop := forall i, 0 <= i -> Z.testbit a i = true -> Z.testbit b i = true.

Lemma subset_refl a : subset a a.
Proof. by unfold subset. Qed.

Lemma subset_trans a b c : subset a b -> subset b c -> subset a c.
Proof. intros H1 H2 i Hi Ha. auto. Qed.

Lemma andnot_subset a b : is_u32 a -> andnot a b = 0 -> subset a b.
Proof.
  intros Ha Hz i Hi Hb. destruct (decide (i < 32)) as [Hlt|Hge].
  - assert (Z.testbit (andnot a b) i = false) as Hf by (rewrite Hz; apply Z.bits_0).
    unfold andnot in Hf. rewrite Z.land_spec, Hb in Hf. simpl in Hf. unfold u32 in Hf.
    change 0x100000000 with (2 ^ 32) in Hf. rewrite Z.mod_pow2_bits_low, Z.lnot_spec in Hf by lia.
    by apply negb_false_iff in Hf.
  - rewrite (bits_above a 32) in Hb; [done|unfold is_u32 in Ha; lia|lia].
Qed.

Lemma land_need p need : Z.land p need = need <-> subset need p.
Proof.
  split.
  - intros He i Hi Hn. rewrite <- He, Z.land_spec in Hn. by apply andb_true_iff in Hn as [? _].
  - intros Hs. apply Z.bits_inj'. intros i Hi. rewrite Z.land_spec.
    destruct (Z.testbit need i) eqn:Hn; [by rewrite (Hs i Hi Hn)|apply andb_false_r].
Qed.

(** ** Parsing *)

(** The reference tokeniser: the maximal runs without spaces. *)
Fixpoint words_of (s cur : list Z) : list (list Z) :=
  match s with
  | [] => match cur with [] => [] | _ => [cur] end
  | c :: s =>
      if c =? SPACE then match cur with [] => words_of s [] | _ => cur :: words_of s [] end
      else words_of s (cur ++ [c])
  end.

Fixpoint mask_of (ws : list (list Z)) (mask : Z) : option Z :=
  match ws with
  | [] => Some mask
  | w :: ws => match promise_token w with
               | None => None
               | Some b => mask_of ws (Z.lor mask b)
               end
  end.

Lemma words_skip s : words_of (skip_spaces s) [] = words_of s [].
Proof. induction s as [|c s IH]; simpl; [done|]. destruct (c =? SPACE) eqn:Hc; [done|]. simpl. by rewrite Hc. Qed.

Lemma words_take s cur :
  let '(w, r) := take_word s in
  words_of s cur = match cur ++ w with [] => words_of r [] | v => v :: words_of r [] end /\
  (length r <= length s)%nat /\ (w = [] -> s = r).
Proof.
  revert cur. induction s as [|c s IH]; intros cur; simpl.
  { rewrite app_nil_r. split_and!; [by destruct cur|lia|done]. }
  destruct (c =? SPACE) eqn:Hc.
  - rewrite app_nil_r. split_and!; [|simpl; lia|done]. simpl. rewrite Hc. by destruct cur.
  - specialize (IH (cur ++ [c])). destruct (take_word s) as [w r]. destruct IH as (IH & Hl & _).
    split_and!; [|lia|done]. rewrite IH, <- app_assoc. done.
Qed.

Lemma skip_spaces_head s : match skip_spaces s with [] => True | c :: _ => (c =? SPACE) = false end.
Proof. induction s as [|c s IH]; simpl; [done|]. by destruct (c =? SPACE) eqn:Hc. Qed.

Lemma skip_spaces_length s : (length (skip_spaces s) <= length s)%nat.
Proof. induction s as [|c s IH]; simpl; [done|]. destruct (c =? SPACE); simpl; lia. Qed.

(** The loop has enough turns for the whole string. *)
Lemma parse_loop_spec fuel s mask :
  (length s < fuel)%nat -> parse_loop fuel s mask = mask_of (words_of s []) mask.
Proof.
  revert s mask. induction fuel as [|fuel IH]; intros s mask Hf; [lia|]. cbn [parse_loop].
  rewrite <- words_skip. pose proof (skip_spaces_head s) as Hh. pose proof (skip_spaces_length s).
  destruct (skip_spaces s) as [|c s']; [done|].
  pose proof (words_take (c :: s') []) as Hw. cbn [take_word] in *. rewrite Hh in *.
  destruct (take_word s') as [w r] eqn:Ht. destruct Hw as (Hw & _ & _).
  pose proof (words_take s' []) as Hl. rewrite Ht in Hl. destruct Hl as (_ & Hl & _).
  rewrite Hw. cbn [app mask_of]. destruct (promise_token (c :: w)); [|done]. apply IH. simpl in *. lia.
Qed.

Lemma parse_promises_spec s : parse_promises (Some s) = mask_of (words_of s []) 0.
Proof. apply parse_loop_spec. lia. Qed.

Lemma token_in_elem table w b : token_in table w = Some b -> b ∈ table.*2.
Proof.
  induction table as [|[n v] table IH]; simpl; [done|]. case_bool_decide; [|right; auto].
  intros [= ->]. left.
Qed.

Lemma promise_token_range w b : promise_token w = Some b -> 0 <= b < 2 ^ 32.
Proof.
  intros Hb. apply token_in_elem in Hb.
  change (promise_table.*2) with [1; 2; 4; 8; 16; 32; 64; 128; 256; 512] in Hb.
  rewrite !elem_of_cons, elem_of_nil in Hb. lia.
Qed.

Lemma mask_of_range ws mask next :
  0 <= mask < 2 ^ 32 -> mask_of ws mask = Some next -> is_u32 next.
Proof.
  revert mask. induction ws as [|w ws IH]; intros mask Hm; simpl; [by intros [= <-]|].
  destruct (promise_token w) as [b|] eqn:Hb; [|done]. apply IH. apply lor_width; [lia|done|].
  by apply (promise_token_range w).
Qed.

Lemma parse_range s next : parse_promises (Some s) = Some next -> is_u32 next.
Proof. rewrite parse_promises_spec. apply mask_of_range. lia. Qed.

Lemma permission_loop_range s bits next :
  0 <= bits < 16 -> permission_loop s bits = Some next -> 0 <= next < 16.
Proof.
  revert bits. induction s as [|c s IH]; intros bits Hb; simpl; [by intros [= <-]|].
  destruct (permission_bit c) as [b|] eqn:Hc; [|done]. apply IH.
  change 16 with (2 ^ 4) in *. apply lor_width; [lia|done|].
  unfold permission_bit in Hc. repeat (case_if; [injection Hc as <-; vm_compute; split; congruence|]).
  done.
Qed.

(** ** The ratchet *)

(** [e'] is the rule [e] with at most its permissions. *)
Definition narrowed (e e' : posix_veil_entry) : Prop :=
  e' = VeilEntry (slot e) (generation e) (parent e) (parent_generation e) (name e) (permissions e')
         (is_directory e) (used e) /\ subset (permissions e') (permissions e).

(** No rule can be added or changed any more: the veil is locked, or unveil
    is not among the promises. *)
Definition sealed (st : posix_pledge_state) : bool :=
  locked st || promised st && negb (nz (Z.land (promises st) POSIX_PLEDGE_UNVEIL)).

(** What the calls of a task do to its sandbox.  Promises are only dropped; a
    rule keeps its place and target and only loses permissions; behind the
    rules there are new ones only if the veil was not sealed, and a sealed veil
    stays as it is. *)
Record ratchet (st st' : posix_pledge_state) : Prop := {
  nr_promises : promised st = true -> promised st' = true /\ subset (promises st') (promises st);
  nr_locked : locked st = true -> locked st' = true;
  nr_sealed : sealed st = true -> sealed st' = true /\ entries st' = entries st /\ veiled st' = veiled st;
  nr_veiled : veiled st = true -> veiled st' = true;
  nr_rules : forall i e, entries st !! i = Some e ->
    exists e', entries st' !! i = Some e' /\ narrowed e e';
  nr_count : Z.of_nat (length (entries st)) <= POSIX_PLEDGE_UNVEIL_MAX ->
    Z.of_nat (length (entries st')) <= POSIX_PLEDGE_UNVEIL_MAX
}.

Lemma narrowed_refl e : narrowed e e.
Proof. split; [by destruct e|apply subset_refl]. Qed.

Lemma narrowed_trans e e' e'' : narrowed e e' -> narrowed e' e'' -> narrowed e e''.
Proof.
  intros [H1 S1] [H2 S2]. split; [|by eapply subset_trans]. rewrite H2, H1. done.
Qed.

#[global] Instance ratchet_refl : Reflexive ratchet.
Proof.
  intros st. split; auto using subset_refl.
  intros i e Hi. exists e. split; [done|apply narrowed_refl].
Qed.

#[global] Instance ratchet_trans : Transitive ratchet.
Proof.
  intros a b c Hab Hbc. split.
  - intros Hp. destruct (nr_promises _ _ Hab Hp) as [Hp' H1].
    destruct (nr_promises _ _ Hbc Hp') as [Hp'' H2]. split; [done|by eapply subset_trans].
  - intros Hl. apply (nr_locked _ _ Hbc), (nr_locked _ _ Hab), Hl.
  - intros Hs. destruct (nr_sealed _ _ Hab Hs) as (Hs' & He & Hv).
    destruct (nr_sealed _ _ Hbc Hs') as (Hs'' & He' & Hv'). split_and!; [done|congruence..].
  - intros Hv. apply (nr_veiled _ _ Hbc), (nr_veiled _ _ Hab), Hv.
  - intros i e Hi. destruct (nr_rules _ _ Hab i e Hi) as (e' & Hi' & Hn).
    destruct (nr_rules _ _ Hbc i e' Hi') as (e'' & Hi'' & Hn'). exists e''.
    split; [done|by eapply narrowed_trans].
  - intros Hc. apply (nr_count _ _ Hbc), (nr_count _ _ Hab), Hc.
Qed.

Lemma sealed_kept st st' :
  (promised st = true -> promised st' = true /\ subset (promises st') (promises st)) ->
  (locked st = true -> locked st' = true) -> sealed st = true -> sealed st' = true.
Proof.
  unfold sealed. intros Hp Hl [Hk|[Hpr Hu]%andb_true_iff]%orb_true_iff; [by rewrite Hl|].
  destruct (Hp Hpr) as [-> Hs]. apply orb_true_iff. right. cbn [andb].
  apply negb_true_iff, nz_false in Hu. apply negb_true_iff, nz_false, Z.bits_inj'. intros i Hi.
  assert (Z.testbit (Z.land (promises st) POSIX_PLEDGE_UNVEIL) i = false) as Hb by (rewrite Hu; apply Z.bits_0).
  rewrite Z.bits_0, Z.land_spec in *. destruct (Z.testbit (promises st') i) eqn:He; [|done].
  by rewrite (Hs i Hi He) in Hb.
Qed.

(** A change that leaves the rules alone. *)
Lemma ratchet_same_rules st st' :
  (promised st = true -> promised st' = true /\ subset (promises st') (promises st)) ->
  (locked st = true -> locked st' = true) -> veiled st' = veiled st -> entries st' = entries st ->
  ratchet st st'.
Proof.
  intros Hp Hl Hv He. split; rewrite ?He, ?Hv; auto.
  { intros Hs. split; [by apply (sealed_kept st)|done]. }
  intros i e Hi. exists e. split; [done|apply narrowed_refl].
Qed.

Lemma promise_half_ratchet s st st' : promise_half s st = inr st' -> ratchet st st'.
Proof.
  unfold promise_half. destruct s as [s|]; [|by intros [= ->]].
  destruct (parse_promises (Some s)) as [next|] eqn:Hp; [|done].
  destruct (promised st && nz (andnot next (promises st))) eqn:Hc; [done|]. intros [= <-].
  apply ratchet_same_rules; simpl; try done.
  - intros Hpr. split; [done|]. rewrite Hpr in Hc. simpl in Hc. apply nz_false in Hc.
    by apply andnot_subset; [apply (parse_range s)|].
  - intros ->. by case_if.
Qed.

Lemma exec_half_ratchet s st st' : exec_half s st = inr st' -> ratchet st st'.
Proof.
  unfold exec_half. destruct s as [s|]; [|by intros [= ->]].
  destruct (parse_promises (Some s)) as [next|]; [|done]. case_if; [done|]. intros [= <-].
  apply ratchet_same_rules; simpl; auto using subset_refl.
Qed.

Lemma promise_state_ratchet a b st r st' : promise_state a b st = (r, st') -> ratchet st st'.
Proof.
  unfold promise_state. destruct (promise_half a st) as [e|st1] eqn:Ha; [by intros [= _ <-]|].
  apply promise_half_ratchet in Ha. destruct (exec_half b st1) as [e|st2] eqn:Hb.
  - intros [= _ <-]. done.
  - intros [= _ <-]. apply exec_half_ratchet in Hb. by etrans.
Qed.

Lemma add_rule_ratchet id bits st r st' :
  sealed st = false -> 0 <= bits < 16 -> add_rule id bits st = (r, st') -> ratchet st st'.
Proof.
  intros Hl Hb. unfold add_rule. set (dir := id_type id =? VFS_NODE_DIRECTORY).
  destruct (find_index (same_rule id dir) (entries st)) as [i|] eqn:Hf.
  - destruct (entries st !! i) as [e|] eqn:Hi; [|by intros [= _ <-]].
    destruct (nz (andnot bits (permissions e))) eqn:Hn; [by intros [= _ <-]|]. intros [= _ <-].
    apply nz_false in Hn. assert (subset bits (permissions e)) as Hsub
      by (apply andnot_subset; [unfold is_u32; lia|done]).
    split; simpl; auto using subset_refl; [congruence| |by rewrite length_insert].
    intros j f Hj. destruct (decide (j = i)) as [->|Hne].
    + assert (f = e) as -> by congruence. exists (set_permissions bits e).
      rewrite list_lookup_insert_eq by (by eapply lookup_lt_Some). split; [done|].
      split; simpl; [done|]. by rewrite u8_small by (unfold is_u8; lia).
    + exists f. rewrite list_lookup_insert_ne by done. split; [done|apply narrowed_refl].
  - destruct (Z.leb_spec POSIX_PLEDGE_UNVEIL_MAX (Z.of_nat (length (entries st)))); [by intros [= _ <-]|].
    intros [= _ <-]. split; simpl; auto using subset_refl; [congruence| |].
    + intros j f Hj. exists f. split; [by apply lookup_app_l_Some|apply narrowed_refl].
    + intros _. rewrite length_app. simpl. lia.
Qed.

Lemma unveil_state_ratchet ident res task path perms st refs r st' refs' :
  unveil_state ident res task path perms st refs = (r, st', refs') -> ratchet st st'.
Proof.
  unfold unveil_state. destruct path as [path|], perms as [perms|]; try (by intros [= _ <- _]).
  - destruct (locked st) eqn:Hl; [by intros [= _ <- _]|].
    destruct (promised st && _) eqn:Hu; [by intros [= _ <- _]|].
    destruct (parse_permissions (Some perms)) as [bits|] eqn:Hp; [|by intros [= _ <- _]].
    destruct (posix_profile_resolve res task path refs) as [[status node] refs1].
    case_if; [by intros [= _ <- _]|]. destruct node as [n|]; [|by intros [= _ <- _]].
    destruct (ident n) as [id|]; [|by intros [= _ <- _]].
    destruct (add_rule id bits st) as [r1 st1] eqn:Ha. intros [= _ <- _].
    eapply add_rule_ratchet; [unfold sealed; by rewrite Hl| |done]. eapply (permission_loop_range perms 0); [lia|done].
  - case_if; [by intros [= _ <- _]|]. intros [= _ <- _].
    apply ratchet_same_rules; simpl; auto using subset_refl.
Qed.

(** A denied mask stays denied. *)
Lemma gate_mask_ratchet st st' need :
  ratchet st st' -> gate_mask st need <> 0 -> gate_mask st' need <> 0.
Proof.
  intros Hn. unfold gate_mask. destruct (promised st) eqn:Hp; simpl; [|done].
  destruct (nr_promises _ _ Hn Hp) as [Hp' Hs]. rewrite Hp'. simpl.
  destruct (nz need); simpl; [|done].
  destruct (Z.eqb_spec (Z.land (promises st) need) need) as [|Hd]; [done|]. intros _.
  destruct (Z.eqb_spec (Z.land (promises st') need) need) as [Hd'|_].
  - exfalso. apply Hd, land_need. apply land_need in Hd'. by eapply subset_trans.
  - by case_if.
Qed.

(** ** The ledger *)

Lemma retain_release n refs k : object_release n (retain n refs) k = refs k.
Proof.
  unfold object_release, retain. destruct (decide (k = n)) as [->|Hne].
  - rewrite !upd_eq. lia.
  - by rewrite !upd_ne.
Qed.

Lemma release_ext n refs refs' k :
  (forall j, refs j = refs' j) -> object_release n refs k = object_release n refs' k.
Proof. intros H. unfold object_release, upd. by rewrite !H. Qed.

Section NameSpaceLemmas.
Context (node_identity : Z -> option identity) (node_parent : Z -> option Z).
Context (profile_resolve profile_parent : Z -> list Z -> Z * option Z).

(** The k-th ancestor. *)
Fixpoint climb (k : nat) (n : Z) : option Z :=
  match k with
  | O => Some n
  | S k => climb k n ≫= node_parent
  end.

(** The parent links are a forest, and a failed lookup returns no node. *)
Record name_space_ok : Prop := {
  acyclic : forall n k, climb (S k) n <> Some n;
  resolve_fails : forall t p, fst (profile_resolve t p) <> 0 -> snd (profile_resolve t p) = None;
  parent_fails : forall t p, fst (profile_parent t p) <> 0 -> snd (profile_parent t p) = None
}.

Hypothesis Hns : name_space_ok.

(** The reference the walk holds on the node it stands at. *)
Definition hold (node : Z) (walk : option Z) (k : Z) : Z :=
  match walk with
  | Some w => if w =? node then 0 else Z.b2z (k =? w)
  | None => 0
  end.

Lemma release_hold node w refs k :
  (if w =? node then refs else object_release w refs) k = refs k - hold node (Some w) k.
Proof.
  simpl. destruct (w =? node); [lia|]. unfold object_release, upd.
  destruct (Z.eqb_spec k w) as [->|]; simpl; lia.
Qed.

Lemma veil_chain_ledger n node walk refs :
  (forall w, walk = Some w -> exists j, climb j node = Some w) ->
  let '(_, last, refs') := veil_chain node_identity node_parent n node walk refs in
  forall k, refs' k - hold node last k = refs k - hold node walk k.
Proof.
  revert walk refs. induction n as [|n IH]; intros walk refs Hw; [done|].
  destruct walk as [w|]; [|done]. cbn [veil_chain]. destruct (node_identity w) as [id|]; [|done].
  destruct (Hw w eq_refl) as [j Hj]. unfold vfs_node_parent.
  destruct (node_parent w) as [up|] eqn:Hup.
  - specialize (IH (Some up) (if w =? node then retain up refs else object_release w (retain up refs))).
    destruct (veil_chain _ _ n node (Some up) _) as [[chain last] refs'].
    intros k. rewrite IH.
    + assert (up <> node) as Hne.
      { intros ->. apply (acyclic Hns node j). simpl. by rewrite Hj. }
      rewrite release_hold. unfold retain, hold, upd at 1.
      rewrite (proj2 (Z.eqb_neq up node) Hne). destruct (Z.eqb_spec k up) as [->|]; simpl; lia.
    + intros w' [= <-]. exists (S j). simpl. by rewrite Hj.
  - specialize (IH None (if w =? node then refs else object_release w refs) ltac:(done)).
    destruct (veil_chain _ _ n node None _) as [[chain last] refs'].
    intros k. rewrite IH, release_hold. simpl. lia.
Qed.

Lemma veil_permissions_ledger st node refs p refs' :
  veil_permissions node_identity node_parent st node refs = (p, refs') ->
  forall k, refs' k = refs k.
Proof.
  unfold veil_permissions.
  pose proof (veil_chain_ledger (VFS_PATH_COMPONENT_MAX + 2) node (Some node) refs
    ltac:(intros w [= <-]; by exists O)) as Hl.
  destruct (veil_chain _ _ (VFS_PATH_COMPONENT_MAX + 2) node (Some node) refs) as [[chain last] refs1].
  set (refs2 := match last with Some w => _ | None => refs1 end).
  assert (forall k, refs2 k = refs k) as H2.
  { intros k. specialize (Hl k). unfold hold at 2 in Hl. rewrite Z.eqb_refl in Hl. unfold refs2.
    destruct last as [w|]; [rewrite release_hold|simpl in Hl]; lia. }
  destruct chain; [by intros [= _ <-]|].
  destruct (first_rule _ _); by intros [= _ <-].
Qed.

(** The identities of a node and its ancestors. *)
Fixpoint ancestors (n : nat) (walk : option Z) : list identity :=
  match n, walk with
  | S n, Some w =>
      match node_identity w with
      | None => []
      | Some id => id :: ancestors n (node_parent w)
      end
  | _, _ => []
  end.

Lemma veil_chain_ancestors n node walk refs :
  fst (fst (veil_chain node_identity node_parent n node walk refs)) = ancestors n walk.
Proof.
  revert walk refs. induction n as [|n IH]; intros walk refs; [done|].
  destruct walk as [w|]; [|done]. simpl. destruct (node_identity w) as [id|]; [|done].
  unfold vfs_node_parent. destruct (node_parent w) as [up|]; simpl.
  - set (r := if w =? node then _ else _). specialize (IH (Some up) r).
    destruct (veil_chain _ _ n node (Some up) r) as [[c l] r']. simpl in *. by rewrite IH.
  - set (r := if w =? node then _ else _). specialize (IH None r).
    destruct (veil_chain _ _ n node None r) as [[c l] r']. simpl in *. by rewrite IH.
Qed.

(** The rule that decides for a node: its own file rule, else the directory
    rule of the nearest ancestor that has one. *)
Definition decides (st : posix_pledge_state) (node : Z) (p : Z) : Prop :=
  let chain := ancestors (VFS_PATH_COMPONENT_MAX + 2) (Some node) in
  exists id0, chain !! O = Some id0 /\
  (first_rule (file_rule id0) (entries st) = Some p \/
   first_rule (file_rule id0) (entries st) = None /\
   exists k id, chain !! k = Some id /\ first_rule (directory_rule id) (entries st) = Some p /\
     forall j idj, (j < k)%nat -> chain !! j = Some idj ->
       first_rule (directory_rule idj) (entries st) = None).

Lemma directory_scan_spec chain l p :
  directory_scan chain l = Some p <->
  exists k id, chain !! k = Some id /\ first_rule (directory_rule id) l = Some p /\
    forall j idj, (j < k)%nat -> chain !! j = Some idj -> first_rule (directory_rule idj) l = None.
Proof.
  induction chain as [|id chain IH]; simpl.
  { split; [done|]. intros (k & id & Hk & _). by rewrite lookup_nil in Hk. }
  destruct (first_rule (directory_rule id) l) as [q|] eqn:Hq.
  - split.
    + intros [= ->]. exists O, id. split_and!; [done..|]. intros; lia.
    + intros ([|k] & id' & Hk & Hp & Hlt); [by simplify_eq/=|].
      rewrite (Hlt O id) in Hq by (lia || done). done.
  - rewrite IH. split.
    + intros (k & id' & Hk & Hp & Hlt). exists (S k), id'. split_and!; [done..|].
      intros [|j] idj Hj Hidj; [by simplify_eq/=|]. apply (Hlt j); [lia|done].
    + intros ([|k] & id' & Hk & Hp & Hlt); [by simplify_eq/=|]. exists k, id'. split_and!; [done..|].
      intros j idj Hj Hidj. apply (Hlt (S j)); [lia|done].
Qed.

Lemma veil_permissions_decides st node refs p :
  fst (veil_permissions node_identity node_parent st node refs) = Some p <-> decides st node p.
Proof.
  unfold veil_permissions, decides.
  pose proof (veil_chain_ancestors (VFS_PATH_COMPONENT_MAX + 2) node (Some node) refs) as Hc.
  destruct (veil_chain _ _ (VFS_PATH_COMPONENT_MAX + 2) node (Some node) refs) as [[chain last] refs1].
  simpl fst in Hc. rewrite <- Hc. destruct chain as [|id0 chain].
  { split; [done|]. by intros (id0 & Hid & _). }
  destruct (first_rule (file_rule id0) (entries st)) as [q|] eqn:Hq.
  - split.
    + intros [= ->]. exists id0. split; [done|]. by left.
    + intros (id & [= <-] & [Hf|[Hf _]]); simpl; congruence.
  - cbn [fst]. rewrite directory_scan_spec. split.
    + intros Hd. exists id0. split; [done|]. right. by split.
    + intros (id & [= <-] & [Hf|[_ Hd]]); [congruence|done].
Qed.

End NameSpaceLemmas.

(** ** Properties *)

Definition task_ok (task : Z) : Prop := 0 <= task < MAX_TASKS.

Lemma state_for_ok task s : task_ok task -> state_for task s = Some (s task).
Proof.
  unfold task_ok, MAX_TASKS, state_for. intros Ht. rewrite u32_small by (unfold is_u32; lia).
  destruct (Z.leb_spec MAX_TASKS task); [unfold MAX_TASKS in *; lia|done].
Qed.

Lemma set_state_ok task st s : task_ok task -> set_state task st s = upd s task st.
Proof.
  unfold task_ok, MAX_TASKS, set_state. intros Ht. by rewrite u32_small by (unfold is_u32; lia).
Qed.

(** The check depends on the rules alone. *)
Lemma veil_check_rules ident par res parres task path leaf create s s' refs :
  task_ok task -> entries (s' task) = entries (s task) /\ veiled (s' task) = veiled (s task) ->
  posix_pledge_veil_check ident par res parres task path leaf create s' refs =
  posix_pledge_veil_check ident par res parres task path leaf create s refs.
Proof.
  intros Ht [He Hv]. unfold posix_pledge_veil_check. rewrite !state_for_ok, Hv by done.
  assert (forall n need rf, node_check ident par (s' task) n need rf = node_check ident par (s task) n need rf) as Hn
    by (intros n need rf; unfold node_check, veil_permissions; by rewrite He).
  unfold create_check. destruct (negb (veiled (s task))); [done|].
  destruct (posix_profile_resolve res task path refs) as [[status node] rf].
  destruct (nz status), node; try apply Hn; destruct (negb (nz create)); try done;
    destruct (posix_profile_parent parres task path _) as [[st nd] rf']; destruct (nz st), nd; done || apply Hn.
Qed.

(** One sandbox call of the task, in any name space. *)
Inductive call (task : Z) : states -> states -> Prop :=
  | call_promise a b s r s' : posix_pledge_promise task a b s = (r, s') -> call task s s'
  | call_unveil ident res path perms s refs r s' refs' :
      posix_pledge_unveil ident res task path perms s refs = (r, s', refs') -> call task s s'.

Lemma call_ratchet task s s' :
  task_ok task -> call task s s' ->
  ratchet (s task) (s' task) /\ forall t, t <> task -> s' t = s t.
Proof.
  intros Ht Hc. inversion Hc as [a b ? r ? Hp|ident res path perms ? refs r ? refs' Hp]; subst.
  - unfold posix_pledge_promise in Hp. rewrite state_for_ok in Hp by done.
    destruct (promise_state a b (s task)) as [r0 st] eqn:Hst. injection Hp as _ <-.
    rewrite set_state_ok by done. split; [rewrite upd_eq; by eapply promise_state_ratchet|].
    intros t Hne. by apply upd_ne.
  - unfold posix_pledge_unveil in Hp. rewrite state_for_ok in Hp by done.
    destruct (unveil_state ident res task path perms (s task) refs) as [[r0 st] rf] eqn:Hst.
    injection Hp as _ <- _. rewrite set_state_ok by done.
    split; [rewrite upd_eq; by eapply unveil_state_ratchet|]. intros t Hne. by apply upd_ne.
Qed.

(** C34: The sandbox is a ratchet.  Over any sequence of pledge and unveil
    calls of a task, in any name spaces: promises are only dropped, so every
    system call and open mode that was denied stays denied; a rule of the veil
    keeps its target and only loses permissions, and there are never more than
    twelve rules.  Unveil may add rules, and so reveal more, only while the
    veil is not sealed, that is neither locked nor cut off by promises without
    unveil; once it is sealed it stays sealed and every check of every path
    answers as before.  No other task's sandbox changes. *)
Theorem pledge_ratchet task s s' :
  task_ok task -> rtc (call task) s s' ->
  ratchet (s task) (s' task) /\ (forall t, t <> task -> s' t = s t) /\
  (forall number, posix_pledge_gate task number s <> 0 -> posix_pledge_gate task number s' <> 0) /\
  (forall flags, posix_pledge_gate_open task flags s <> 0 ->
     posix_pledge_gate_open task flags s' <> 0) /\
  (sealed (s task) = true -> forall ident par res parres path leaf create refs,
     posix_pledge_veil_check ident par res parres task path leaf create s' refs =
     posix_pledge_veil_check ident par res parres task path leaf create s refs).
Proof.
  intros Ht Hc.
  assert (ratchet (s task) (s' task) /\ forall t, t <> task -> s' t = s t) as [Hn Ho].
  { induction Hc as [|s1 s2 s3 H1 _ [IHn IHo]]; [done|].
    destruct (call_ratchet task s1 s2 Ht H1) as [Hn Ho]. split; [by etrans|].
    intros t Hne. by rewrite IHo, Ho. }
  unfold posix_pledge_gate, posix_pledge_gate_open. rewrite !state_for_ok by done.
  split_and!; [done..| | |]; [intros ?; by apply gate_mask_ratchet..|].
  intros Hs ident par res parres path leaf create refs. by apply veil_check_rules, (nr_sealed _ _ Hn).
Qed.

Definition boot_states : states := fun _ => unrestricted.

Section Veil.
Context (node_identity : Z -> option identity) (node_parent : Z -> option Z).
Context (profile_resolve profile_parent : Z -> list Z -> Z * option Z).

(** The node whose rule decides and the permissions it must grant: the node
    the path names, or its parent directory when the path may be created. *)
Definition found (r : Z * option Z) : option Z := if nz (fst r) then None else snd r.

Definition veil_target (task : Z) (path : list Z) (leaf_need create_need : Z) : option (Z * Z) :=
  match found (profile_resolve task path) with
  | Some n => Some (n, leaf_need)
  | None => if nz create_need
            then (fun n => (n, create_need)) <$> found (profile_parent task path)
            else None
  end.

(** What the answer [r] of the check says about the deciding rule. *)
Definition answers (st : posix_pledge_state) (target : option (Z * Z)) (r : Z) : Prop :=
  match target with
  | Some (n, need) =>
      (r = 0 <-> exists p, decides node_identity node_parent st n p /\ subset need p) /\
      (r = POSIX_PLEDGE_EACCES <->
         exists p, decides node_identity node_parent st n p /\ ~ subset need p) /\
      (r = POSIX_PLEDGE_ENOENT <-> forall p, ~ decides node_identity node_parent st n p)
  | None => r = POSIX_PLEDGE_ENOENT
  end.

(** The answer of the veil for one node. *)
Lemma node_check_answers st n need refs :
  answers st (Some (n, need)) (fst (node_check node_identity node_parent st n need refs)).
Proof.
  pose proof (veil_permissions_decides node_identity node_parent st n refs) as Hd.
  unfold node_check. destruct (veil_permissions node_identity node_parent st n refs) as [p refs1]. simpl in Hd.
  destruct p as [p|]; simpl.
  - assert (forall q, decides node_identity node_parent st n q <-> q = p) as Hq.
    { intros q. rewrite <- Hd. split; congruence. }
    unfold lacks. destruct (Z.eqb_spec (Z.land p need) need) as [Hl|Hl]; rewrite land_need in Hl;
      cbn [negb].
    2: { split_and!; split.
      * done.
      * intros (q & Hdq & Hs). apply Hq in Hdq as ->. done.
      * intros _. exists p. split; [by apply Hq|done].
      * done.
      * done.
      * intros Hno. exfalso. apply (Hno p). by apply Hq. }
    split_and!; split; try done.
    + intros _. exists p. split; [by apply Hq|done].
    + intros (q & Hdq & Hn). apply Hq in Hdq as ->. done.
    + intros Hno. exfalso. apply (Hno p). by apply Hq.
  - assert (forall q, ~ decides node_identity node_parent st n q) as Hno
      by (intros q Hq; by apply Hd in Hq).
    split_and!; split; try done.
    + intros (q & Hq & _). by destruct (Hno q).
    + intros (q & Hq & _). by destruct (Hno q).
Qed.

Lemma create_check_answers st task path need refs :
  answers st (if nz need then (fun n => (n, need)) <$> found (profile_parent task path) else None)
    (fst (create_check node_identity node_parent profile_parent st task path need refs)).
Proof.
  unfold create_check. destruct (nz need); [|done]. cbn [negb].
  unfold posix_profile_parent, retained, found. destruct (profile_parent task path) as [status node].
  cbn [fst snd]. destruct node as [n|]; destruct (nz status); try done. apply node_check_answers.
Qed.

End Veil.

(** C35: The veil hides and grants by the nearest rule: for a veiled task the
    check succeeds exactly when the rule deciding for the named node, or for
    the parent directory of a path to be created, grants what is needed; it
    answers EACCES when that rule lacks a permission and ENOENT when no rule
    covers the node or the path leads nowhere. *)
Theorem veil_check_nearest_rule ident par res parres task path leaf create s refs :
  task_ok task -> veiled (s task) = true ->
  answers ident par (s task) (veil_target res parres task path leaf create)
    (fst (posix_pledge_veil_check ident par res parres task path leaf create s refs)).
Proof.
  intros Ht Hv. unfold posix_pledge_veil_check, veil_target. rewrite state_for_ok, Hv by done.
  cbn [negb]. unfold posix_profile_resolve, retained, found at 1.
  destruct (res task path) as [status node]. cbn [fst snd].
  destruct node as [n|]; destruct (nz status); try apply create_check_answers.
  apply node_check_answers.
Qed.

(** A directory (node 1) with a file (node 2); the path names the file. *)
Definition example_identity (n : Z) : option identity :=
  if n =? 1 then Some (Identity 10 1 64 0 VFS_NODE_DIRECTORY [])
  else if n =? 2 then Some (Identity 11 1 10 1 1 (str "log"))
  else None.

Definition example_parent (n : Z) : option Z := if n =? 2 then Some 1 else None.

Definition example_path : list Z := str "/var/log".

Definition example_resolve (task : Z) (path : list Z) : Z * option Z :=
  if bool_decide (path = example_path) then (0, Some 2)
  else if bool_decide (path = str "/var") then (0, Some 1) else (-1, None).

Definition example_up (task : Z) (path : list Z) : Z * option Z := (-1, None).

Definition example_veiled : states :=
  snd (fst (posix_pledge_unveil example_identity example_resolve 1 (Some (str "/var"))
              (Some (str "r")) boot_states (fun _ => 0))).

Lemma example_name_space_ok : name_space_ok example_parent example_resolve example_up.
Proof.
  split.
  - intros n k. destruct k as [|k]; simpl.
    + unfold example_parent. case_if; boolify; subst; [congruence|done].
    + assert (climb example_parent (S (S k)) n = None) as Hn.
      { clear. induction k as [|k IH].
        - simpl. unfold example_parent. destruct (n =? 2); done.
        - cbn [climb] in *. by rewrite IH. }
      cbn [climb] in Hn. by rewrite Hn.
  - intros t p. unfold example_resolve. repeat case_bool_decide; simpl; lia || done.
  - done.
Qed.

(** Task 1 pledges, unveils a directory, locks the veil and tries to unveil
    more. *)
Definition example_pledged : states :=
  snd (posix_pledge_promise 1 (Some (str "stdio rpath unveil")) None boot_states).

Definition example_unveil (path perms : option (list Z)) (s : states) : states :=
  snd (fst (posix_pledge_unveil example_identity example_resolve 1 path perms s (fun _ => 0))).

Lemma example_unveil_call path perms s : call 1 s (example_unveil path perms s).
Proof.
  unfold example_unveil. destruct (posix_pledge_unveil _ _ _ _ _ _ _) as [[r s'] refs] eqn:Hu.
  by eapply call_unveil.
Qed.

Definition example_locked : states :=
  example_unveil None None (example_unveil (Some (str "/var")) (Some (str "r")) example_pledged).

Definition example_after : states := example_unveil (Some example_path) (Some (str "rw")) example_locked.

(** The answer of the veil to a write of the file. *)
Definition example_write (s : states) : Z :=
  fst (posix_pledge_veil_check example_identity example_parent example_resolve example_up 1
         example_path POSIX_VEIL_WRITE 0 s (fun _ => 0)).

Lemma pledge_ratchet_witness :
  posix_pledge_gate 1 POSIX_SYSCALL_FORK example_after <> 0 /\
  example_write example_locked = POSIX_PLEDGE_EACCES /\ example_write example_after = POSIX_PLEDGE_EACCES.
Proof.
  assert (task_ok 1) as Ht by (unfold task_ok, MAX_TASKS; lia).
  assert (rtc (call 1) example_pledged example_after) as Hall by (repeat (eapply rtc_r; [|apply example_unveil_call]); done).
  assert (rtc (call 1) example_locked example_after) as Hlast by (apply rtc_once, example_unveil_call).
  assert (example_write example_locked = POSIX_PLEDGE_EACCES) as Hw by (vm_compute; reflexivity).
  split; [|split; [exact Hw|]].
  - destruct (pledge_ratchet 1 example_pledged example_after Ht Hall) as (_ & _ & Hg & _).
    apply (Hg POSIX_SYSCALL_FORK). vm_compute. discriminate.
  - destruct (pledge_ratchet 1 example_locked example_after Ht Hlast) as (_ & _ & _ & _ & Hv).
    etrans; [|exact Hw]. exact (f_equal fst (Hv eq_refl example_identity example_parent example_resolve example_up
      example_path POSIX_VEIL_WRITE 0 (fun _ => 0))).
Defined.

Lemma veil_check_nearest_rule_witness :
  fst (posix_pledge_veil_check example_identity example_parent example_resolve example_up 1
         example_path POSIX_VEIL_READ 0 example_veiled (fun _ => 0)) = 0 /\
  exists p, decides example_identity example_parent (example_veiled 1) 2 p /\
    subset POSIX_VEIL_READ p.
Proof.
  assert (fst (posix_pledge_veil_check example_identity example_parent example_resolve example_up 1
    example_path POSIX_VEIL_READ 0 example_veiled (fun _ => 0)) = 0) as H0 by (vm_compute; reflexivity).
  split; [exact H0|].
  pose proof (veil_check_nearest_rule example_identity example_parent example_resolve example_up 1
    example_path POSIX_VEIL_READ 0 example_veiled (fun _ => 0) ltac:(unfold task_ok, MAX_TASKS; lia)
    ltac:(vm_compute; reflexivity)) as H.
  change (veil_target example_resolve example_up 1 example_path POSIX_VEIL_READ 0)
    with (Some (2, POSIX_VEIL_READ)) in H.
  apply (proj1 H). exact H0.
Defined.

(** No path leaks a node reference: in a name space without cycles, every
    [unveil] and every veil check, on every error path, returns exactly the
    references it took. *)
Theorem pledge_references_balanced ident par res parres task path perms path' leaf create s refs :
  name_space_ok par res parres ->
  (forall k, snd (posix_pledge_unveil ident res task path perms s refs) k = refs k) /\
  (forall k, snd (posix_pledge_veil_check ident par res parres task path' leaf create s refs) k
             = refs k).
Proof.
  intros Hns.
  assert (forall st n need rf rf', (forall k, rf k = retain n rf' k) ->
    forall k, snd (node_check ident par st n need rf) k = rf' k) as Hnode.
  { intros st n need rf rf' Hrf k. unfold node_check.
    pose proof (veil_permissions_ledger ident par res parres Hns st n rf) as Hl.
    destruct (veil_permissions ident par st n rf) as [q rf1]. specialize (Hl q rf1 eq_refl).
    transitivity (object_release n rf1 k); [by destruct q|].
    rewrite <- (retain_release n rf' k). apply release_ext. intros j. by rewrite Hl, Hrf. }
  assert (forall st need rf k, snd (create_check ident par parres st task path' need rf) k = rf k)
    as Hcreate.
  { intros st need rf k. unfold create_check. case_if; [done|].
    unfold posix_profile_parent, retained. pose proof (parent_fails _ _ _ Hns task path') as Hf.
    destruct (parres task path') as [status node]. cbn [fst snd] in *.
    destruct node as [n|]; [|by destruct (nz status)].
    destruct (nz status) eqn:Hz; [apply nz_true in Hz; by specialize (Hf Hz)|]. by apply Hnode. }
  split; intros k.
  - unfold posix_pledge_unveil. destruct (state_for task s) as [st|]; [|done].
    enough (snd (unveil_state ident res task path perms st refs) k = refs k) as Hu
      by (by destruct (unveil_state ident res task path perms st refs) as [[r st'] rf]).
    unfold unveil_state. destruct path as [path|], perms as [perms|]; try done; [|by case_if].
    case_if; [done|]. case_if; [done|]. destruct (parse_permissions _) as [bits|]; [|done].
    unfold posix_profile_resolve, retained. pose proof (resolve_fails _ _ _ Hns task path) as Hf.
    destruct (res task path) as [status node]. cbn [fst snd] in *.
    destruct node as [n|]; [|by destruct (nz status)].
    destruct (nz status) eqn:Hz; [apply nz_true in Hz; by specialize (Hf Hz)|].
    destruct (ident n) as [id|]; [|apply retain_release].
    destruct (add_rule id bits st) as [r st']. apply retain_release.
  - unfold posix_pledge_veil_check. destruct (state_for task s) as [st|]; [|done]. case_if; [done|].
    unfold posix_profile_resolve, retained. pose proof (resolve_fails _ _ _ Hns task path') as Hf.
    destruct (res task path') as [status node]. cbn [fst snd] in *.
    destruct node as [n|]; [|by destruct (nz status); apply Hcreate].
    destruct (nz status) eqn:Hz; [apply nz_true in Hz; by specialize (Hf Hz)|]. by apply Hnode.
Qed.

Lemma pledge_references_balanced_witness :
  snd (posix_pledge_veil_check example_identity example_parent example_resolve example_up 1
         example_path POSIX_VEIL_WRITE 0 example_veiled (fun _ => 5)) 1 = 5.
Proof.
  apply (pledge_references_balanced example_identity example_parent example_resolve example_up 1
    None None example_path POSIX_VEIL_WRITE 0 example_veiled (fun _ => 5) example_name_space_ok).
Defined.

(** Exec promises alone do not take effect: a task that only named exec
    promises is unrestricted after execve, every system call passes the
    gate. *)
Theorem pledge_exec_unrestricted task e s r s1 number :
  task_ok task -> promised (s task) = false ->
  posix_pledge_promise task None (Some e) s = (r, s1) ->
  posix_pledge_gate task number (posix_pledge_exec task s1) = 0.
Proof.
  intros Ht Hp Hs. unfold posix_pledge_promise in Hs. rewrite state_for_ok in Hs by done.
  destruct (promise_state None (Some e) (s task)) as [r0 st] eqn:Hst. injection Hs as _ <-.
  assert (promised st = false) as Hst'.
  { unfold promise_state, promise_half, exec_half in Hst.
    destruct (parse_promises (Some e)); [case_if|]; injection Hst as _ <-; done. }
  unfold posix_pledge_gate, posix_pledge_exec. rewrite set_state_ok by done.
  rewrite (state_for_ok task (upd s task st)) by done. rewrite set_state_ok, upd_eq by done.
  rewrite state_for_ok, upd_eq by done. unfold gate_mask. simpl. by rewrite Hst'.
Qed.

Lemma pledge_exec_unrestricted_witness :
  posix_pledge_gate 1 POSIX_SYSCALL_KILL
    (posix_pledge_exec 1 (snd (posix_pledge_promise 1 None (Some (str "stdio")) boot_states))) = 0.
Proof.
  apply (pledge_exec_unrestricted 1 (str "stdio") boot_states 0
    (snd (posix_pledge_promise 1 None (Some (str "stdio")) boot_states)) POSIX_SYSCALL_KILL).
  - unfold task_ok, MAX_TASKS. lia.
  - reflexivity.
  - vm_compute. reflexivity.
Defined.

(** The socket data calls and the process group calls. *)
Definition unlisted_calls : list Z :=
  [POSIX_SYSCALL_SEND; POSIX_SYSCALL_RECV; POSIX_SYSCALL_SENDTO; POSIX_SYSCALL_RECVFROM;
   POSIX_SYSCALL_SENDMSG; POSIX_SYSCALL_RECVMSG; POSIX_SYSCALL_SHUTDOWN; POSIX_SYSCALL_GETSOCKOPT;
   POSIX_SYSCALL_SETSOCKOPT; POSIX_SYSCALL_GETSOCKNAME; POSIX_SYSCALL_GETPEERNAME;
   POSIX_SYSCALL_GETPGRP; POSIX_SYSCALL_SETPGID; POSIX_SYSCALL_TCGETPGRP; POSIX_SYSCALL_TCSETPGRP].

(** The gate never denies the socket data calls or the process group
    calls, whatever was promised. *)
Theorem pledge_unlisted_calls_pass task s :
  Forall (fun number => posix_pledge_gate task number s = 0) unlisted_calls.
Proof.
  unfold posix_pledge_gate. destruct (state_for task s) as [st|];
    [|by apply Forall_forall].
  apply (Forall_impl (fun number => required_promises number = 0)).
  - unfold unlisted_calls. repeat (constructor; [reflexivity|]). constructor.
  - intros number ->. unfold gate_mask. simpl. by rewrite orb_true_r.
Qed.

End Pledge.
