(* ===== verification/Pipe.v ===== *)
(** Pipes: [src/process/posix_pipe.c], [src/process/posix_io.c].

    The pipe pool, the wait records and the parked tasks of the task pool
    ([Task]).  Each entry point is one step: it runs under the pipe lock.  The
    user memory that requests live in is the interface [UserMemory]; the
    context switch that follows a park is the [Parked] answer.  The two ghost
    fields of a pipe record the bytes that ever entered and left its ring. *)

From S2P Require Import Prelude Task.

Module Pipe.

Import Task.

Definition POSIX_PIPE_MAX : Z := 32.

Definition POSIX_PIPE_BUF : Z := 4096.

Definition POSIX_IO_MAX : Z := 512.

Definition POSIX_IO_TRANSFERRED_OFFSET : Z := 8.

Definition POSIX_IO_DATA_OFFSET : Z := 12.

(** [sizeof(struct posix_io_request)]. *)
Definition POSIX_IO_REQUEST_SIZE : Z := POSIX_IO_DATA_OFFSET + POSIX_IO_MAX.

Definition POSIX_PIPE_END_READ : Z := 1.

Definition POSIX_PIPE_END_WRITE : Z := 2.

Definition POSIX_VFS_EIO : Z := -5.

Definition POSIX_VFS_EINVAL : Z := -22.

Definition POSIX_VFS_ENFILE : Z := -23.

Definition POSIX_VFS_EPIPE : Z := -32.

Definition POSIX_VFS_EDEADLK : Z := -35.

Definition POSIX_SIGNAL_EINTR : Z := -4.

Definition POSIX_POLLIN : Z := 1.

Definition POSIX_POLLOUT : Z := 4.

Definition POSIX_POLLERR : Z := 8.

Definition POSIX_POLLHUP : Z := 16.

Definition POSIX_POLLNVAL : Z := 32.

Record posix_pipe_state := PipeState {
  ring : Z -> Z;
  tail : Z;
  count : Z;
  readers : Z;
  writers : Z;
  active : bool;
  written : list Z;
  taken : list Z
}.

Record pipe_wait := PipeWait { pipe : Z; end_ : Z; request : Z; length_ : Z }.

(** User memory: a copy fails when the range is not mapped for it;
    [vm64_user_access] tells whether a range is mapped, for stores if asked. *)
Class UserMemory (M : Type) := {
  vm64_user_access : Z -> Z -> Z -> bool -> M -> bool;
  vm64_copy_to : Z -> Z -> list Z -> M -> option M;
  vm64_copy_from : Z -> Z -> Z -> M -> option (list Z)
}.

(** A copy in returns as many bytes as were asked for; a copy out into a range
    that is mapped for stores succeeds and leaves it mapped. *)
Class UserMemoryLaws (M : Type) `{UserMemory M} := {
  access_copy : forall root a n m k l,
    vm64_user_access root a n true m = true -> 0 <= k -> k + Z.of_nat (length l) <= n ->
    exists m', vm64_copy_to root (a + k) l m = Some m' /\ vm64_user_access root a n true m' = true;
  copy_from_length : forall root a n m l,
    0 <= n -> vm64_copy_from root a n m = Some l -> Z.of_nat (length l) = n
}.

Definition ring_free (p : posix_pipe_state) : Z := u32 (POSIX_PIPE_BUF - count p).

(** The copy loop of [ring_put]. *)
Fixpoint put_loop (source : list Z) (head : Z) (ring : Z -> Z) : Z -> Z :=
  match source with
  | [] => ring
  | b :: source => put_loop source ((head + 1) mod POSIX_PIPE_BUF) (upd ring head b)
  end.

Definition ring_put (source : list Z) (p : posix_pipe_state) : posix_pipe_state :=
  let head := (tail p + count p) mod POSIX_PIPE_BUF in
  PipeState (put_loop source head (ring p)) (tail p) (u32 (count p + Z.of_nat (length source)))
    (readers p) (writers p) (active p) (written p ++ source) (taken p).

(** The copy loop of [ring_take]: the bytes and the new tail. *)
Fixpoint take_loop (n : nat) (ring : Z -> Z) (tail : Z) : list Z * Z :=
  match n with
  | O => ([], tail)
  | S n => let '(l, t) := take_loop n ring ((tail + 1) mod POSIX_PIPE_BUF) in (ring tail :: l, t)
  end.

Definition ring_take (length : Z) (p : posix_pipe_state) : list Z * posix_pipe_state :=
  let '(bytes, t) := take_loop (Z.to_nat length) (ring p) (tail p) in
  (bytes, PipeState (ring p) t (u32 (count p - length)) (readers p) (writers p) (active p)
            (written p) (taken p ++ bytes)).

(** The answer of an operation: a value, or the task was parked. *)
Inductive outcome := Answer (r : Z) | Parked.

Section Pipes.
Context {M : Type} `{UserMemory M}.

Record world := World {
  pipes : Z -> posix_pipe_state;
  waits : Z -> pipe_wait;
  tasks_ : pool;
  memory : M;
  results : Z -> Z
}.

Definition set_pipe (i : Z) (p : posix_pipe_state) (w : world) : world :=
  World (upd (pipes w) i p) (waits w) (tasks_ w) (memory w) (results w).

Definition set_memory (m : M) (w : world) : world :=
  World (pipes w) (waits w) (tasks_ w) m (results w).

Definition posix_io_patch_result (slot req transferred : Z) (w : world) : option M :=
  let bytes := (fun k => Z.land (Z.shiftr transferred (8 * k)) 0xFF) <$> seqZ 0 4 in
  vm64_copy_to (tasks (tasks_ w) slot f_page_dir) (req + POSIX_IO_TRANSFERRED_OFFSET) bytes (memory w).

(** [posix_io_patch_result] with its answer ignored. *)
Definition patch (slot req transferred : Z) (w : world) : world :=
  match posix_io_patch_result slot req transferred w with
  | Some m => set_memory m w
  | None => w
  end.

(** Copies data to the caller's request and publishes the count. *)
Definition deliver (slot req : Z) (data : list Z) (w : world) : bool * world :=
  match vm64_copy_to (tasks (tasks_ w) slot f_page_dir) (req + POSIX_IO_DATA_OFFSET) data (memory w) with
  | None => (false, w)
  | Some m =>
      let w := set_memory m w in
      match posix_io_patch_result slot req (Z.of_nat (length data)) w with
      | None => (false, w)
      | Some m => (true, set_memory m w)
      end
  end.

(** Clears the wait record. *)
Definition clear_wait (slot : Z) (w : world) : world :=
  World (pipes w) (upd (waits w) slot (PipeWait 0 (end_ (waits w slot)) 0 0)) (tasks_ w) (memory w)
    (results w).

(** Ends a park: the record is cleared, the task runs and its answer is set. *)
Definition complete (slot answer : Z) (w : world) : world :=
  let w := clear_wait slot w in
  World (pipes w) (waits w) (task_state_set (Some slot) TASK_RUNNING (tasks_ w)) (memory w)
    (upd (results w) slot answer).

(** The slot is parked on that end of the pipe. *)
Definition parked_on (index e slot : Z) (w : world) : bool :=
  (tasks (tasks_ w) slot f_state =? TASK_BLOCKED_PIPE) && (pipe (waits w slot) =? index + 1) &&
  (end_ (waits w slot) =? e).

(** One parked reader takes what is there up to what it asked for. *)
Definition wake_reader (index slot : Z) (w : world) : world :=
  let p := pipes w index in
  let wt := waits w slot in
  let take := if count p <? length_ wt then count p else length_ wt in
  let '(staging, p) := ring_take take p in
  let '(ok, w) := deliver slot (request wt) staging (set_pipe index p w) in
  complete slot (if ok then take else POSIX_VFS_EIO) w.

Fixpoint wake_readers_from (n : nat) (slot index : Z) (w : world) : world :=
  match n with
  | O => w
  | S n =>
      if negb (parked_on index POSIX_PIPE_END_READ slot w) then wake_readers_from n (slot + 1) index w
      else if negb (nz (count (pipes w index))) then w
      else wake_readers_from n (slot + 1) index (wake_reader index slot w)
  end.

Definition wake_readers (index : Z) (w : world) : world :=
  wake_readers_from (Z.to_nat (task_pool_count (tasks_ w))) 0 index w.

(** One parked writer's whole request enters the ring. *)
Definition wake_writer (index slot : Z) (w : world) : world :=
  let wt := waits w slot in
  match vm64_copy_from (tasks (tasks_ w) slot f_page_dir) (request wt + POSIX_IO_DATA_OFFSET)
          (length_ wt) (memory w) with
  | None => complete slot POSIX_VFS_EIO w
  | Some staging =>
      let w := set_pipe index (ring_put staging (pipes w index)) w in
      complete slot (length_ wt) (patch slot (request wt) (length_ wt) w)
  end.

Fixpoint wake_writers_from (n : nat) (slot index : Z) (w : world) : world :=
  match n with
  | O => w
  | S n =>
      if negb (parked_on index POSIX_PIPE_END_WRITE slot w) then wake_writers_from n (slot + 1) index w
      else if ring_free (pipes w index) <? length_ (waits w slot) then w
      else wake_writers_from n (slot + 1) index (wake_writer index slot w)
  end.

Definition wake_writers (index : Z) (w : world) : world :=
  wake_writers_from (Z.to_nat (task_pool_count (tasks_ w))) 0 index w.

(** The loop shared by [wake_writers_broken] and the end of file: every task
    parked on that end answers [answer]. *)
Definition wake_all (index e answer : Z) (w : world) : world :=
  for_range 0 (task_pool_count (tasks_ w)) (fun slot w =>
    if negb (parked_on index e slot w) then w
    else complete slot answer (patch slot (request (waits w slot)) 0 w)) w.

Definition wake_writers_broken (index : Z) (w : world) : world :=
  wake_all index POSIX_PIPE_END_WRITE POSIX_VFS_EPIPE w.

Definition posix_pipe_create (w : world) : Z * world :=
  match scan_range 0 POSIX_PIPE_MAX (fun i => negb (active (pipes w i))) with
  | Some i => (i, set_pipe i (PipeState (ring (pipes w i)) 0 0 0 0 true [] []) w)
  | None => (POSIX_VFS_ENFILE, w)
  end.

Definition set_ends (r wr : Z) (a : bool) (p : posix_pipe_state) : posix_pipe_state :=
  PipeState (ring p) (tail p) (count p) r wr a (written p) (taken p).

Definition posix_pipe_retain (index e : Z) (w : world) : world :=
  let p := pipes w index in
  if (POSIX_PIPE_MAX <=? index) || negb (active p) then w else
  if e =? POSIX_PIPE_END_READ then
    set_pipe index (set_ends (u32 (readers p + 1)) (writers p) (active p) p) w
  else if e =? POSIX_PIPE_END_WRITE then
    set_pipe index (set_ends (readers p) (u32 (writers p + 1)) (active p) p) w
  else w.

(** The last lines of [pipe_release_locked]. *)
Definition deactivate (index : Z) (w : world) : world :=
  let p := pipes w index in
  if negb (nz (readers p)) && negb (nz (writers p))
  then set_pipe index (set_ends (readers p) (writers p) false p) w
  else w.

Definition posix_pipe_release (index e : Z) (w : world) : world :=
  let p := pipes w index in
  if (POSIX_PIPE_MAX <=? index) || negb (active p) then w else
  if e =? POSIX_PIPE_END_READ then
    if negb (nz (readers p)) then w else
    let w := set_pipe index (set_ends (readers p - 1) (writers p) (active p) p) w in
    if nz (readers p - 1) then w else deactivate index (wake_writers_broken index w)
  else if e =? POSIX_PIPE_END_WRITE then
    if negb (nz (writers p)) then w else
    let w := set_pipe index (set_ends (readers p) (writers p - 1) (active p) p) w in
    if nz (writers p - 1) then w
    else deactivate index (wake_all index POSIX_PIPE_END_READ 0 (wake_readers index w))
  else w.

(** The park, taken back when nothing else can run. *)
Definition park (index e req len slot cpu : Z) (w : world) : outcome * world :=
  let w' := World (pipes w) (upd (waits w) slot (PipeWait (index + 1) e req len))
              (task_state_set (Some slot) TASK_BLOCKED_PIPE (tasks_ w)) (memory w) (results w) in
  if task_pick_next slot cpu (tasks_ w') <? 0 then
    let w'' := clear_wait slot w' in
    (Answer POSIX_VFS_EDEADLK,
     World (pipes w'') (waits w'') (task_state_set (Some slot) TASK_RUNNING (tasks_ w''))
       (memory w'') (results w''))
  else (Parked, w').

(** [current] is [scheduler_current] and [cpu] the asking CPU; the flag asks
    for a poll notification. *)
Definition pipe_io_locked (task index e req len current cpu : Z) (w : world) :
    outcome * bool * world :=
  let p := pipes w index in
  if (POSIX_PIPE_MAX <=? index) || negb (active p) || negb (nz len) || (POSIX_IO_MAX <? len)
  then (Answer POSIX_VFS_EINVAL, false, w) else
  if (current <? 0) || negb (current =? task) then (Answer POSIX_VFS_EIO, false, w) else
  if e =? POSIX_PIPE_END_READ then
    if nz (count p) then
      let take := if count p <? len then count p else len in
      let '(staging, p) := ring_take take p in
      let '(ok, w) := deliver task req staging (set_pipe index p w) in
      if ok then (Answer take, true, wake_writers index w) else (Answer POSIX_VFS_EIO, false, w)
    else if negb (nz (writers p)) then (Answer 0, false, patch task req 0 w)
    else let '(o, w) := park index e req len task cpu w in (o, false, w)
  else if negb (e =? POSIX_PIPE_END_WRITE) then (Answer POSIX_VFS_EINVAL, false, w)
  else if negb (nz (readers p)) then (Answer POSIX_VFS_EPIPE, false, w)
  else if ring_free p <? len then
    let '(o, w) := park index e req len task cpu w in (o, false, w)
  else
    match vm64_copy_from (tasks (tasks_ w) task f_page_dir) (req + POSIX_IO_DATA_OFFSET) len (memory w) with
    | None => (Answer POSIX_VFS_EIO, false, w)
    | Some staging =>
        let w := set_pipe index (ring_put staging p) w in
        (Answer len, true, wake_readers index (patch task req len w))
    end.

Definition posix_pipe_signal (target : Z) (w : world) : Z * world :=
  if (target <? MAX_TASKS) && (tasks (tasks_ w) target f_state =? TASK_BLOCKED_PIPE)
  then (POSIX_SIGNAL_EINTR, clear_wait target w)
  else (0, w).

Definition posix_pipe_poll (index e : Z) (w : world) : Z :=
  let p := pipes w index in
  if (POSIX_PIPE_MAX <=? index) || negb (active p) then POSIX_POLLNVAL else
  if e =? POSIX_PIPE_END_READ then
    let ready := if nz (count p) then POSIX_POLLIN else 0 in
    if negb (nz (writers p)) then Z.lor ready POSIX_POLLHUP else ready
  else if negb (e =? POSIX_PIPE_END_WRITE) then POSIX_POLLNVAL
  else if negb (nz (readers p)) then POSIX_POLLERR
  else if nz (ring_free p) then POSIX_POLLOUT else 0.

Definition posix_pipe_active_count (w : world) : Z :=
  count_from (Z.to_nat POSIX_PIPE_MAX) 0 (fun i => active (pipes w i)).

End Pipes.

Arguments world : clear implicits.

#[global] Arguments POSIX_PIPE_BUF : simpl never.

(** ** The ring is a queue *)

Definition content (p : posix_pipe_state) : list Z :=
  (fun i => ring p ((tail p + i) mod POSIX_PIPE_BUF)) <$> seqZ 0 (count p).

Record ring_ok (p : posix_pipe_state) : Prop := {
  rk_tail : 0 <= tail p < POSIX_PIPE_BUF;
  rk_count : 0 <= count p <= POSIX_PIPE_BUF;
  rk_log : written p = taken p ++ content p
}.

Lemma BUF_val : POSIX_PIPE_BUF = 4096.
Proof. reflexivity. Qed.

Lemma content_length p : ring_ok p -> Z.of_nat (length (content p)) = count p.
Proof.
  intros Hr. unfold content. rewrite length_fmap, length_seqZ. pose proof (rk_count p Hr). lia.
Qed.

Lemma content_lookup p i :
  content p !! i = if decide (Z.of_nat i < count p)
                   then Some (ring p ((tail p + Z.of_nat i) mod POSIX_PIPE_BUF)) else None.
Proof.
  unfold content. rewrite list_lookup_fmap. destruct (decide (Z.of_nat i < count p)).
  - rewrite lookup_seqZ_lt by lia. simpl. by rewrite Z.add_0_l.
  - rewrite lookup_seqZ_ge by lia. done.
Qed.

Lemma put_loop_lookup src head ring q :
  0 <= head < POSIX_PIPE_BUF -> 0 <= q < POSIX_PIPE_BUF ->
  Z.of_nat (length src) <= POSIX_PIPE_BUF ->
  put_loop src head ring q =
  match src !! Z.to_nat ((q - head) mod POSIX_PIPE_BUF) with Some b => b | None => ring q end.
Proof.
  rewrite BUF_val. revert head ring. induction src as [|b src IH]; intros head ring Hh Hq Hl; [done|].
  cbn [put_loop]. rewrite BUF_val. simpl length in Hl.
  rewrite IH; [|dmlia|done|lia].
  destruct (decide (q = head)) as [->|Hne].
  - rewrite Z.sub_diag. change (Z.to_nat (0 mod 4096)) with O. cbn [lookup list_lookup].
    rewrite lookup_ge_None_2, upd_eq; [done|]. dmlia.
  - replace (Z.to_nat ((q - head) mod 4096)) with (S (Z.to_nat ((q - (head + 1) mod 4096) mod 4096)))
      by dmlia. cbn [lookup list_lookup]. by rewrite upd_ne.
Qed.

Lemma ring_free_value p : ring_ok p -> ring_free p = POSIX_PIPE_BUF - count p.
Proof.
  intros Hr. unfold ring_free. apply u32_small. pose proof (rk_count p Hr). rewrite BUF_val in *.
  unfold is_u32. lia.
Qed.

Lemma ring_put_spec src p :
  ring_ok p -> Z.of_nat (length src) <= ring_free p ->
  ring_ok (ring_put src p) /\ content (ring_put src p) = content p ++ src /\
  count (ring_put src p) = count p + Z.of_nat (length src).
Proof.
  intros Hr Hl. rewrite ring_free_value in Hl by done. destruct Hr as [Ht Hc Hlog].
  rewrite BUF_val in *.
  assert (count (ring_put src p) = count p + Z.of_nat (length src)) as Hcnt.
  { simpl. apply u32_small. unfold is_u32. lia. }
  assert (content (ring_put src p) = content p ++ src) as Hcont.
  { apply list_eq. intros i. rewrite content_lookup, Hcnt.
    change (tail (ring_put src p)) with (tail p).
    change (ring (ring_put src p)) with (put_loop src ((tail p + count p) mod POSIX_PIPE_BUF) (ring p)).
    assert (length (content p) = Z.to_nat (count p)) as Hlen
      by (unfold content; rewrite length_fmap, length_seqZ; done).
    destruct (decide (Z.of_nat i < count p + Z.of_nat (length src))) as [Hi|Hi].
    - rewrite put_loop_lookup by (rewrite BUF_val; dmlia). rewrite BUF_val.
      destruct (decide (Z.of_nat i < count p)) as [Hlt|Hge].
      + rewrite lookup_app_l by lia. rewrite content_lookup, decide_True by done. rewrite BUF_val.
        rewrite lookup_ge_None_2; [done|]. dmlia.
      + rewrite lookup_app_r by lia. rewrite Hlen.
        replace (Z.to_nat _) with (i - Z.to_nat (count p))%nat by dmlia.
        destruct (lookup_lt_is_Some_2 src (i - Z.to_nat (count p))) as [b Hb]; [lia|]. by rewrite Hb.
    - rewrite lookup_ge_None_2; [done|]. rewrite length_app. lia. }
  split_and!; [|done|done]. split; [by rewrite BUF_val|rewrite Hcnt, BUF_val; lia|].
  rewrite Hcont. simpl. by rewrite Hlog, app_assoc.
Qed.

Lemma take_loop_spec n ring t :
  0 <= t < POSIX_PIPE_BUF ->
  take_loop n ring t =
  ((fun i => ring ((t + i) mod POSIX_PIPE_BUF)) <$> seqZ 0 (Z.of_nat n),
   (t + Z.of_nat n) mod POSIX_PIPE_BUF).
Proof.
  rewrite BUF_val. revert t. induction n as [|n IH]; intros t Ht; cbn [take_loop].
  - f_equal. rewrite Z.mod_small; lia.
  - rewrite BUF_val, IH by dmlia. rewrite Nat2Z.inj_succ. f_equal; [|dmlia].
    rewrite (seqZ_cons 0 (Z.succ (Z.of_nat n))) by lia. rewrite fmap_cons. f_equal; [f_equal; dmlia|].
    apply list_eq. intros i. rewrite !list_lookup_fmap.
    replace (Z.pred (Z.succ (Z.of_nat n))) with (Z.of_nat n) by lia.
    destruct (decide (Z.of_nat i < Z.of_nat n)).
    + rewrite !lookup_seqZ_lt by lia. simpl. f_equal. f_equal. dmlia.
    + by rewrite !lookup_seqZ_ge by lia.
Qed.

Lemma ring_take_spec n p :
  ring_ok p -> 0 <= n <= count p ->
  let '(bytes, p') := ring_take n p in
  ring_ok p' /\ bytes = take (Z.to_nat n) (content p) /\
  content p' = drop (Z.to_nat n) (content p) /\ count p' = count p - n /\
  Z.of_nat (length bytes) = n.
Proof.
  intros [Ht Hc Hlog] Hn. unfold ring_take. rewrite take_loop_spec by done.
  rewrite BUF_val in *. rewrite Z2Nat.id by lia.
  set (bytes := _ <$> seqZ 0 n). set (p' := PipeState _ _ _ _ _ _ _ _).
  assert (count p' = count p - n) as Hcnt.
  { simpl. apply u32_small. unfold is_u32. lia. }
  assert (bytes = take (Z.to_nat n) (content p)) as Hb.
  { apply list_eq. intros i. unfold bytes. rewrite list_lookup_fmap.
    destruct (decide (Z.of_nat i < n)).
    - rewrite lookup_seqZ_lt, lookup_take_lt, content_lookup, decide_True by lia. rewrite BUF_val.
      simpl. by rewrite Z.add_0_l.
    - rewrite lookup_seqZ_ge, lookup_take_ge by lia. done. }
  assert (content p' = drop (Z.to_nat n) (content p)) as Hd.
  { apply list_eq. intros i. rewrite lookup_drop, !content_lookup, Hcnt.
    change (ring p') with (ring p). change (tail p') with ((tail p + n) mod 4096). rewrite BUF_val.
    destruct (decide (Z.of_nat i < count p - n)).
    - rewrite decide_True by lia. f_equal. f_equal. dmlia.
    - by rewrite decide_False by lia. }
  split_and!; [|done|done|done|unfold bytes; rewrite length_fmap, length_seqZ; lia].
  split; [simpl; rewrite BUF_val; dmlia|rewrite Hcnt, BUF_val; lia|].
  rewrite Hd. cbn [taken written p']. rewrite Hlog, <- app_assoc, Hb, take_drop. done.
Qed.

(** ** Wakes *)

Section Wakes.
Context {M : Type} `{UserMemoryLaws M}.
Implicit Types w : world M.

(** Whether the request of every read was checked, as the system call does. *)
Context (checked : bool).

(** [w'] differs from [w] in pipe [index]'s ring and by parks that ended. *)
Record shrinks (index : Z) (w w' : world M) : Prop := {
  sh_count : task_pool_count (tasks_ w') = task_pool_count (tasks_ w);
  sh_states : forall s, tasks (tasks_ w') s f_state = TASK_BLOCKED_PIPE ->
    tasks (tasks_ w) s f_state = TASK_BLOCKED_PIPE /\ waits w' s = waits w s;
  sh_others : forall i, i <> index -> pipes w' i = pipes w i;
  sh_ends : readers (pipes w' index) = readers (pipes w index) /\
    writers (pipes w' index) = writers (pipes w index) /\
    active (pipes w' index) = active (pipes w index);
  sh_ring : ring_ok (pipes w index) -> ring_ok (pipes w' index)
}.

Lemma shrinks_refl index w : shrinks index w w.
Proof. by split. Qed.

Lemma shrinks_trans index w w' w'' :
  shrinks index w w' -> shrinks index w' w'' -> shrinks index w w''.
Proof.
  intros [Hc Hs Ho He Hr] [Hc' Hs' Ho' He' Hr']. split.
  - congruence.
  - intros s Hst. destruct (Hs' s Hst) as [Hst' Hw']. destruct (Hs s Hst') as [Hst'' Hw].
    split; [done|congruence].
  - intros i Hi. rewrite Ho', Ho; done.
  - destruct He as (? & ? & ?), He' as (? & ? & ?). split_and!; congruence.
  - auto.
Qed.

Lemma shrinks_parked index w w' i e s :
  shrinks index w w' -> parked_on i e s w' = true ->
  parked_on i e s w = true /\ waits w' s = waits w s.
Proof.
  intros Hsh. unfold parked_on. intros Hp. boolify.
  destruct (sh_states _ _ _ Hsh s) as [Hst Hw]; [done|]. rewrite Hst, <- Hw.
  split; [|done]. rewrite Z.eqb_refl. simpl. apply andb_true_iff. by rewrite !Z.eqb_eq.
Qed.

Lemma shrinks_complete index slot a w : shrinks index w (complete slot a w).
Proof.
  split; simpl; try done. intros s. destruct (decide (s = slot)) as [->|Hne].
  - unfold task_state_set_locked. fields. done.
  - rewrite !upd_ne by done. done.
Qed.

Lemma complete_not_parked i e slot a w : parked_on i e slot (complete slot a w) = false.
Proof. unfold parked_on, complete, clear_wait. simpl. unfold task_state_set_locked. by fields. Qed.

Lemma complete_other i e s slot a w :
  s <> slot -> parked_on i e s (complete slot a w) = parked_on i e s w.
Proof. intros Hne. unfold parked_on, complete. simpl. by rewrite !upd_ne by done. Qed.

Lemma patch_frame slot r n w :
  exists m, patch slot r n w = set_memory m w.
Proof.
  unfold patch. destruct (posix_io_patch_result slot r n w) as [m|]; [by exists m|].
  exists (memory w). by destruct w.
Qed.

Lemma deliver_frame slot r l w b w' :
  deliver slot r l w = (b, w') -> exists m, w' = set_memory m w.
Proof.
  unfold deliver. destruct (vm64_copy_to _ _ _ _) as [m|]; [|intros [= _ <-]; exists (memory w); by destruct w].
  destruct (posix_io_patch_result _ _ _ _) as [m'|]; intros [= _ <-]; [by exists m'|by exists m].
Qed.

Lemma shrinks_memory index m w : shrinks index w (set_memory m w).
Proof. by split. Qed.

Lemma shrinks_set_pipe index p w :
  readers p = readers (pipes w index) -> writers p = writers (pipes w index) ->
  active p = active (pipes w index) -> (ring_ok (pipes w index) -> ring_ok p) ->
  shrinks index w (set_pipe index p w).
Proof.
  intros. split; simpl; rewrite ?upd_eq; try done. intros i Hi. by apply upd_ne.
Qed.

Lemma wake_reader_spec index slot w :
  ring_ok (pipes w index) -> 0 <= length_ (waits w slot) ->
  shrinks index w (wake_reader index slot w) /\
  (forall i e, parked_on i e slot (wake_reader index slot w) = false) /\
  (forall i e s, s <> slot ->
     parked_on i e s (wake_reader index slot w) = parked_on i e s w).
Proof.
  intros Hr Hl. unfold wake_reader. set (take := if _ <? _ then _ else _).
  assert (0 <= take <= count (pipes w index)) as Ht.
  { pose proof (rk_count _ Hr). unfold take. case_if; boolify; lia. }
  pose proof (ring_take_spec take (pipes w index) Hr Ht) as Hs.
  assert (forall l q, ring_take take (pipes w index) = (l, q) ->
    readers q = readers (pipes w index) /\ writers q = writers (pipes w index) /\
    active q = active (pipes w index)) as He.
  { unfold ring_take. intros l q. destruct (take_loop _ _ _). by intros [= _ <-]. }
  destruct (ring_take take (pipes w index)) as [staging q]. destruct Hs as (Hq & _).
  destruct (He staging q eq_refl) as (He1 & He2 & He3).
  destruct (deliver _ _ _ _) as [ok w1] eqn:Hd. apply deliver_frame in Hd as [m ->].
  split_and!.
  - eapply shrinks_trans; [|apply shrinks_complete].
    eapply shrinks_trans; [|apply shrinks_memory]. by apply shrinks_set_pipe.
  - intros i e. apply complete_not_parked.
  - intros i e s Hne. by rewrite complete_other.
Qed.

Lemma wake_writer_spec index slot w :
  ring_ok (pipes w index) -> 0 <= length_ (waits w slot) <= ring_free (pipes w index) ->
  shrinks index w (wake_writer index slot w) /\
  (forall i e, parked_on i e slot (wake_writer index slot w) = false) /\
  (forall i e s, s <> slot ->
     parked_on i e s (wake_writer index slot w) = parked_on i e s w).
Proof.
  intros Hr Hl. unfold wake_writer.
  destruct (vm64_copy_from _ _ _ _) as [staging|] eqn:Hc.
  - apply copy_from_length in Hc; [|lia].
    destruct (ring_put_spec staging (pipes w index) Hr ltac:(lia)) as (Hq & _).
    destruct (patch_frame slot (request (waits w slot)) (length_ (waits w slot))
      (set_pipe index (ring_put staging (pipes w index)) w)) as [m ->].
    split_and!.
    + eapply shrinks_trans; [|apply shrinks_complete].
      eapply shrinks_trans; [|apply shrinks_memory]. by apply shrinks_set_pipe.
    + intros i e. apply complete_not_parked.
    + intros i e s Hne. by rewrite complete_other.
  - split_and!; [apply shrinks_complete|intros; apply complete_not_parked|].
    intros i e s Hne. by rewrite complete_other.
Qed.

(** The requests of parked tasks are within bounds. *)
Definition lengths_ok w : Prop :=
  forall s, tasks (tasks_ w) s f_state = TASK_BLOCKED_PIPE -> pipe (waits w s) <> 0 ->
    0 < length_ (waits w s) <= POSIX_IO_MAX.

Lemma shrinks_lengths index w w' : shrinks index w w' -> lengths_ok w -> lengths_ok w'.
Proof.
  intros Hsh Hl s Hs. destruct (sh_states _ _ _ Hsh s Hs) as [Hst ->]. by apply Hl.
Qed.

Lemma parked_length i e s w :
  lengths_ok w -> 0 <= i -> parked_on i e s w = true -> 0 < length_ (waits w s) <= POSIX_IO_MAX.
Proof. intros Hl Hi Hp. unfold parked_on in Hp. boolify. apply Hl; [done|lia]. Qed.

Lemma wake_readers_from_spec n slot index w :
  0 <= index -> ring_ok (pipes w index) -> lengths_ok w ->
  let w' := wake_readers_from n slot index w in
  shrinks index w w' /\
  (count (pipes w' index) = 0 \/
   forall s, slot <= s < slot + Z.of_nat n -> parked_on index POSIX_PIPE_END_READ s w' = false).
Proof.
  intros Hidx. revert slot w. induction n as [|n IH]; intros slot w Hr Hl; cbn [wake_readers_from].
  { split; [apply shrinks_refl|]. right. intros; lia. }
  destruct (parked_on index POSIX_PIPE_END_READ slot w) eqn:Hp; cbn [negb].
  2: { destruct (IH (slot + 1) w Hr Hl) as [Hsh Hpost]. split; [done|].
       destruct Hpost as [?|Hno]; [by left|]. right. intros s Hs.
       destruct (decide (s = slot)) as [->|]; [|apply Hno; lia].
       destruct (parked_on index POSIX_PIPE_END_READ slot
         (wake_readers_from n (slot + 1) index w)) eqn:Hp'; [|done].
       apply (shrinks_parked index w _ _ _ _ Hsh) in Hp' as [Hp' _]. congruence. }
  destruct (nz (count (pipes w index))) eqn:Hc; cbn [negb].
  2: { apply nz_false in Hc. split; [apply shrinks_refl|by left]. }
  pose proof (parked_length _ _ _ _ Hl Hidx Hp) as Hlen.
  destruct (wake_reader_spec index slot w Hr ltac:(lia)) as (Hsh1 & Hnp & _).
  destruct (IH (slot + 1) (wake_reader index slot w)) as [Hsh Hpost];
    [by apply (sh_ring _ _ _ Hsh1)|by eapply shrinks_lengths|].
  split; [by eapply shrinks_trans|]. destruct Hpost as [?|Hno]; [by left|]. right. intros s Hs.
  destruct (decide (s = slot)) as [->|]; [|apply Hno; lia].
  destruct (parked_on index POSIX_PIPE_END_READ slot (wake_readers_from _ _ _ _)) eqn:Hp'; [|done].
  apply (shrinks_parked index (wake_reader index slot w) _ _ _ _ Hsh) in Hp' as [Hp' _].
  by rewrite Hnp in Hp'.
Qed.

(** With no parked reader the scan does nothing. *)
Lemma wake_readers_from_none n slot index w :
  (forall s, slot <= s < slot + Z.of_nat n -> parked_on index POSIX_PIPE_END_READ s w = false) ->
  wake_readers_from n slot index w = w.
Proof.
  revert slot. induction n as [|n IH]; intros slot Hno; cbn [wake_readers_from]; [done|].
  rewrite Hno by lia. cbn [negb]. apply IH. intros s Hs. apply Hno. lia.
Qed.

Lemma wake_writers_from_spec n slot index w :
  0 <= index -> ring_ok (pipes w index) -> lengths_ok w ->
  let w' := wake_writers_from n slot index w in
  shrinks index w w' /\
  (0 < count (pipes w' index) \/
   forall s, slot <= s < slot + Z.of_nat n -> parked_on index POSIX_PIPE_END_WRITE s w' = false).
Proof.
  intros Hidx. revert slot w. induction n as [|n IH]; intros slot w Hr Hl; cbn [wake_writers_from].
  { split; [apply shrinks_refl|]. right. intros; lia. }
  destruct (parked_on index POSIX_PIPE_END_WRITE slot w) eqn:Hp; cbn [negb].
  2: { destruct (IH (slot + 1) w Hr Hl) as [Hsh Hpost]. split; [done|].
       destruct Hpost as [?|Hno]; [by left|]. right. intros s Hs.
       destruct (decide (s = slot)) as [->|]; [|apply Hno; lia].
       destruct (parked_on index POSIX_PIPE_END_WRITE slot
         (wake_writers_from n (slot + 1) index w)) eqn:Hp'; [|done].
       apply (shrinks_parked index w _ _ _ _ Hsh) in Hp' as [Hp' _]. congruence. }
  pose proof (parked_length _ _ _ _ Hl Hidx Hp) as Hlen.
  destruct (Z.ltb_spec (ring_free (pipes w index)) (length_ (waits w slot))) as [Hf|Hf].
  { split; [apply shrinks_refl|left]. rewrite ring_free_value, BUF_val in Hf by done.
    unfold POSIX_IO_MAX in Hlen. lia. }
  destruct (wake_writer_spec index slot w Hr ltac:(lia)) as (Hsh1 & Hnp & _).
  destruct (IH (slot + 1) (wake_writer index slot w)) as [Hsh Hpost];
    [by apply (sh_ring _ _ _ Hsh1)|by eapply shrinks_lengths|].
  split; [by eapply shrinks_trans|]. destruct Hpost as [?|Hno]; [by left|]. right. intros s Hs.
  destruct (decide (s = slot)) as [->|]; [|apply Hno; lia].
  destruct (parked_on index POSIX_PIPE_END_WRITE slot (wake_writers_from _ _ _ _)) eqn:Hp'; [|done].
  apply (shrinks_parked index (wake_writer index slot w) _ _ _ _ Hsh) in Hp' as [Hp' _].
  by rewrite Hnp in Hp'.
Qed.

Lemma wake_all_spec index e a w :
  0 <= task_pool_count (tasks_ w) ->
  let w' := wake_all index e a w in
  shrinks index w w' /\ pipes w' = pipes w /\
  forall s, 0 <= s < task_pool_count (tasks_ w) -> parked_on index e s w' = false.
Proof.
  intros Hc w'. unfold w', wake_all. set (body := fun slot w => _).
  set (P := fun i v => shrinks index w v /\ pipes v = pipes w /\
    forall s, 0 <= s < i -> parked_on index e s v = false).
  assert (P (Z.max 0 (task_pool_count (tasks_ w)))
            (for_range 0 (task_pool_count (tasks_ w)) body w)) as HP.
  { apply for_range_ind; unfold P.
    - split_and!; [apply shrinks_refl|done|intros; lia].
    - intros i v Hi (Hsh & Hp & Hno). unfold body.
      destruct (parked_on index e i v) eqn:Hpk; cbn [negb].
      + destruct (patch_frame i (request (waits v i)) 0 v) as [m ->].
        split_and!; [|done|].
        * eapply shrinks_trans; [exact Hsh|]. eapply shrinks_trans; [apply shrinks_memory|].
          apply shrinks_complete.
        * intros s Hs. destruct (decide (s = i)) as [->|]; [apply complete_not_parked|].
          rewrite complete_other by done. apply Hno. lia.
      + split_and!; [done..|]. intros s Hs. destruct (decide (s = i)) as [->|]; [done|]. apply Hno. lia. }
  replace (Z.max 0 (task_pool_count (tasks_ w))) with (task_pool_count (tasks_ w)) in HP by lia.
  exact HP.
Qed.

(** ** The invariant *)

Definition pipe_in (i : Z) : Prop := 0 <= i < POSIX_PIPE_MAX.

Lemma pipe_in_pos i : pipe_in i -> 0 <= i.
Proof. by intros [? _]. Qed.

Definition reader_ok (p : posix_pipe_state) : Prop :=
  active p = true /\ count p = 0 /\ writers p <> 0.

Definition writer_ok (p : posix_pipe_state) : Prop :=
  active p = true /\ (checked = true -> 0 < count p) /\ readers p <> 0.

Record inv w : Prop := {
  iv_count : 0 <= task_pool_count (tasks_ w) <= MAX_TASKS;
  iv_slots : forall s, tasks (tasks_ w) s f_state = TASK_BLOCKED_PIPE ->
    0 <= s < task_pool_count (tasks_ w);
  iv_lengths : lengths_ok w;
  iv_ring : forall i, pipe_in i -> active (pipes w i) = true -> ring_ok (pipes w i);
  iv_ends : forall i, is_u32 (readers (pipes w i)) /\ is_u32 (writers (pipes w i));
  iv_reader : forall i s, 0 <= i -> parked_on i POSIX_PIPE_END_READ s w = true ->
    pipe_in i /\ reader_ok (pipes w i);
  iv_writer : forall i s, 0 <= i -> parked_on i POSIX_PIPE_END_WRITE s w = true ->
    pipe_in i /\ writer_ok (pipes w i)
}.

(** A change of one pipe that ends parks and adds none. *)
Lemma inv_update index w w' :
  inv w -> pipe_in index ->
  task_pool_count (tasks_ w') = task_pool_count (tasks_ w) ->
  (forall s, tasks (tasks_ w') s f_state = TASK_BLOCKED_PIPE ->
     tasks (tasks_ w) s f_state = TASK_BLOCKED_PIPE /\ waits w' s = waits w s) ->
  (forall i, i <> index -> pipes w' i = pipes w i) ->
  (active (pipes w' index) = true -> ring_ok (pipes w' index)) ->
  is_u32 (readers (pipes w' index)) /\ is_u32 (writers (pipes w' index)) ->
  (forall s, parked_on index POSIX_PIPE_END_READ s w' = true -> reader_ok (pipes w' index)) ->
  (forall s, parked_on index POSIX_PIPE_END_WRITE s w' = true -> writer_ok (pipes w' index)) ->
  inv w'.
Proof.
  intros Hi Hin Hc Hs Ho Hr He Hrd Hwr.
  assert (forall i e s, parked_on i e s w' = true -> parked_on i e s w = true) as Hpk.
  { intros i e s. unfold parked_on. intros Hp. boolify. destruct (Hs s) as [Hst Hw]; [done|].
    rewrite Hst, <- Hw, Z.eqb_refl. simpl. apply andb_true_iff. by rewrite !Z.eqb_eq. }
  split.
  - rewrite Hc. apply Hi.
  - intros s Hst. rewrite Hc. apply (iv_slots w Hi). by apply Hs.
  - intros s Hst. destruct (Hs s Hst) as [Hst' ->]. by apply (iv_lengths w Hi).
  - intros i Hii. destruct (decide (i = index)) as [->|Hne]; [done|]. rewrite Ho by done.
    by apply (iv_ring w Hi).
  - intros i. destruct (decide (i = index)) as [->|Hne]; [done|]. rewrite Ho by done.
    by apply (iv_ends w Hi).
  - intros i s Hi0 Hp. destruct (decide (i = index)) as [->|Hne]; [split; [done|by eapply Hrd]|].
    rewrite Ho by done. by apply (iv_reader w Hi i s Hi0), Hpk.
  - intros i s Hi0 Hp. destruct (decide (i = index)) as [->|Hne]; [split; [done|by eapply Hwr]|].
    rewrite Ho by done. by apply (iv_writer w Hi i s Hi0), Hpk.
Qed.

(** The same for [shrinks]. *)
Lemma inv_shrinks index w w' :
  inv w -> pipe_in index -> active (pipes w index) = true -> shrinks index w w' ->
  (forall s, parked_on index POSIX_PIPE_END_READ s w' = true -> count (pipes w' index) = 0) ->
  (checked = true -> forall s, parked_on index POSIX_PIPE_END_WRITE s w' = true -> 0 < count (pipes w' index)) ->
  inv w'.
Proof.
  intros Hi Hin Ha Hsh Hrd Hwr. destruct (sh_ends _ _ _ Hsh) as (E1 & E2 & E3).
  apply (inv_update index w w'); try done; try apply Hsh.
  - intros _. apply (sh_ring _ _ _ Hsh). by apply (iv_ring w Hi).
  - rewrite E1, E2. apply (iv_ends w Hi).
  - intros s Hp. destruct (shrinks_parked _ _ _ _ _ _ Hsh Hp) as [Hp' _].
    destruct (iv_reader w Hi _ _ (pipe_in_pos _ Hin) Hp') as [_ (_ & _ & Hw)].
    split_and!; [by rewrite E3|by eapply Hrd|by rewrite E2].
  - intros s Hp. destruct (shrinks_parked _ _ _ _ _ _ Hsh Hp) as [Hp' _].
    destruct (iv_writer w Hi _ _ (pipe_in_pos _ Hin) Hp') as [_ (_ & _ & Hr)].
    split_and!; [by rewrite E3|intros Hck; by eapply Hwr|by rewrite E1].
Qed.

Lemma no_parked_reader index w s :
  inv w -> 0 <= index -> count (pipes w index) <> 0 -> parked_on index POSIX_PIPE_END_READ s w = false.
Proof.
  intros Hi Hidx Hc. destruct (parked_on _ _ _ _) eqn:Hp; [|done].
  destruct (iv_reader w Hi _ _ Hidx Hp) as [_ (_ & ? & _)]. done.
Qed.

Lemma parked_in_range i e s w : inv w -> parked_on i e s w = true -> 0 <= s < task_pool_count (tasks_ w).
Proof. intros Hi Hp. unfold parked_on in Hp. boolify. by apply (iv_slots w Hi). Qed.

(** A write into the ring, then the readers' wake. *)
Lemma write_inv_step index w w1 :
  inv w -> pipe_in index -> active (pipes w index) = true -> shrinks index w w1 ->
  (forall i e s, parked_on i e s w1 = parked_on i e s w) ->
  count (pipes w index) < count (pipes w1 index) ->
  inv (wake_readers index w1).
Proof.
  intros Hi Hin Ha Hsh Hpk Hc. pose proof (iv_ring w Hi index Hin Ha) as Hr.
  pose proof (sh_ring _ _ _ Hsh Hr) as Hr1. pose proof (rk_count _ Hr) as Hrc.
  pose proof (shrinks_lengths _ _ _ Hsh (iv_lengths w Hi)) as Hl1.
  unfold wake_readers. rewrite (sh_count _ _ _ Hsh).
  pose proof (iv_count w Hi) as Hcount.
  destruct (wake_readers_from_spec (Z.to_nat (task_pool_count (tasks_ w))) 0 index w1 (pipe_in_pos _ Hin) Hr1 Hl1)
    as [Hsh2 Hpost].
  assert (shrinks index w (wake_readers_from (Z.to_nat (task_pool_count (tasks_ w))) 0 index w1))
    as Hsh' by (by eapply shrinks_trans).
  apply (inv_shrinks index w); try done.
  - intros s Hp. destruct Hpost as [?|Hno]; [done|]. exfalso.
    destruct (shrinks_parked _ _ _ _ _ _ Hsh' Hp) as [Hp' _].
    pose proof (parked_in_range _ _ _ _ Hi Hp'). rewrite Hno in Hp by lia. done.
  - intros Hck s Hp. destruct (shrinks_parked _ _ _ _ _ _ Hsh' Hp) as [Hp' _].
    destruct (iv_writer w Hi _ _ (pipe_in_pos _ Hin) Hp') as [_ (_ & Hpos & _)]. specialize (Hpos Hck).
    rewrite wake_readers_from_none; [lia|]. intros s' Hs'. rewrite Hpk.
    apply no_parked_reader; [done|apply Hin|lia].
Qed.

(** Bytes leave the ring, then the writers' wake. *)
Lemma read_inv_step index w w1 :
  inv w -> pipe_in index -> active (pipes w index) = true -> shrinks index w w1 ->
  count (pipes w index) <> 0 -> inv (wake_writers index w1).
Proof.
  intros Hi Hin Ha Hsh Hc. pose proof (iv_ring w Hi index Hin Ha) as Hr.
  pose proof (sh_ring _ _ _ Hsh Hr) as Hr1.
  pose proof (shrinks_lengths _ _ _ Hsh (iv_lengths w Hi)) as Hl1.
  unfold wake_writers. rewrite (sh_count _ _ _ Hsh). pose proof (iv_count w Hi) as Hcount.
  destruct (wake_writers_from_spec (Z.to_nat (task_pool_count (tasks_ w))) 0 index w1 (pipe_in_pos _ Hin) Hr1 Hl1)
    as [Hsh2 Hpost].
  assert (shrinks index w (wake_writers_from (Z.to_nat (task_pool_count (tasks_ w))) 0 index w1))
    as Hsh' by (by eapply shrinks_trans).
  apply (inv_shrinks index w); try done.
  - intros s Hp. destruct (shrinks_parked _ _ _ _ _ _ Hsh' Hp) as [Hp' _].
    rewrite no_parked_reader in Hp' by (done || apply Hin). done.
  - intros _ s Hp. destruct Hpost as [?|Hno]; [done|]. exfalso.
    destruct (shrinks_parked _ _ _ _ _ _ Hsh' Hp) as [Hp' _].
    pose proof (parked_in_range _ _ _ _ Hi Hp'). rewrite Hno in Hp by lia. done.
Qed.

(** Bytes leave the ring and nobody is woken. *)
Lemma lost_inv_step index w w1 :
  checked = false -> inv w -> pipe_in index -> active (pipes w index) = true -> shrinks index w w1 ->
  count (pipes w index) <> 0 -> inv w1.
Proof.
  intros Hck Hi Hin Ha Hsh Hc. apply (inv_shrinks index w); try done; [|congruence].
  intros s Hp. destruct (shrinks_parked _ _ _ _ _ _ Hsh Hp) as [Hp' _].
  rewrite no_parked_reader in Hp' by (done || apply Hin). done.
Qed.

(** ** Preservation *)

Lemma park_inv index e req len slot cpu w :
  inv w -> pipe_in index -> 0 <= slot < task_pool_count (tasks_ w) -> 0 < len <= POSIX_IO_MAX ->
  (e = POSIX_PIPE_END_READ /\ reader_ok (pipes w index) \/
   e = POSIX_PIPE_END_WRITE /\ writer_ok (pipes w index)) ->
  inv (snd (park index e req len slot cpu w)).
Proof.
  intros Hi Hin Hslot Hlen Hok. unfold park. set (w' := World _ _ _ _ _).
  assert (forall s, s <> slot -> tasks (tasks_ w') s = tasks (tasks_ w) s /\ waits w' s = waits w s)
    as Hoth by (intros s Hne; simpl; by rewrite !upd_ne).
  assert (tasks (tasks_ w') slot f_state = TASK_BLOCKED_PIPE) as Hst
    by (simpl; unfold task_state_set_locked; by fields).
  assert (waits w' slot = PipeWait (index + 1) e req len) as Hwt by (simpl; apply upd_eq).
  assert (forall i f s, parked_on i f s w' = true ->
    parked_on i f s w = true \/ s = slot /\ i = index /\ f = e) as Hpk.
  { intros i f s Hp. destruct (decide (s = slot)) as [->|Hne].
    - right. unfold parked_on in Hp. rewrite Hwt in Hp. simpl in Hp. boolify. split_and!; [done|lia|done].
    - left. unfold parked_on in *. by destruct (Hoth s Hne) as [<- <-]. }
  assert (inv w') as Hi'.
  { split; try apply Hi.
    - intros s Hs. destruct (decide (s = slot)) as [->|Hne]; [done|].
      apply (iv_slots w Hi). by rewrite <- (proj1 (Hoth s Hne)).
    - intros s Hs. destruct (decide (s = slot)) as [->|Hne]; [by rewrite Hwt|].
      rewrite (proj2 (Hoth s Hne)). apply (iv_lengths w Hi). by rewrite <- (proj1 (Hoth s Hne)).
    - intros i s Hi0 Hp. destruct (Hpk _ _ _ Hp) as [Hp'|(-> & -> & <-)]; [by eapply (iv_reader w Hi)|].
      destruct Hok as [[_ ?]|[? _]]; done.
    - intros i s Hi0 Hp. destruct (Hpk _ _ _ Hp) as [Hp'|(-> & -> & <-)]; [by eapply (iv_writer w Hi)|].
      destruct Hok as [[? _]|[_ ?]]; done. }
  case_if; cbn [snd]; [|done].
  apply (inv_update index w'); try done.
  - intros s. simpl. destruct (decide (s = slot)) as [->|Hne].
    + unfold task_state_set_locked. fields. done.
    + by rewrite !upd_ne.
  - apply (iv_ring w' Hi' index Hin).
  - apply (iv_ends w' Hi').
  - intros s Hp. apply (iv_reader w' Hi' index s (pipe_in_pos _ Hin)). revert Hp. unfold parked_on. simpl.
    destruct (decide (s = slot)) as [->|Hne]; [unfold task_state_set_locked; by fields|by rewrite !upd_ne].
  - intros s Hp. apply (iv_writer w' Hi' index s (pipe_in_pos _ Hin)). revert Hp. unfold parked_on. simpl.
    destruct (decide (s = slot)) as [->|Hne]; [unfold task_state_set_locked; by fields|by rewrite !upd_ne].
Qed.

Lemma patch_inv slot r n w : inv w -> inv (patch slot r n w).
Proof. intros [? ? ? ? ? ? ?]. destruct (patch_frame slot r n w) as [m ->]. by split. Qed.

(** The dispatcher has checked the request of a read. *)
Definition request_checked (task e req : Z) w : Prop :=
  e = POSIX_PIPE_END_READ ->
  vm64_user_access (tasks (tasks_ w) task f_page_dir) req POSIX_IO_REQUEST_SIZE true (memory w) = true.

Lemma deliver_checked task req data w :
  request_checked task POSIX_PIPE_END_READ req w -> Z.of_nat (length data) <= POSIX_IO_MAX -> fst (deliver task req data w) = true.
Proof.
  intros Hacc Hl. unfold request_checked in Hacc. unfold deliver, posix_io_patch_result. unfold POSIX_IO_REQUEST_SIZE, POSIX_IO_DATA_OFFSET, POSIX_IO_TRANSFERRED_OFFSET, POSIX_IO_MAX in *.
  destruct (access_copy _ _ _ _ 12 data (Hacc eq_refl)) as (m & -> & Hm); [lia|lia|]. cbn [tasks_ set_memory memory].
  destruct (access_copy _ _ _ _ 8 ((fun k => Z.land (Z.shiftr (Z.of_nat (length data)) (8 * k)) 255) <$> seqZ 0 4) Hm) as (m' & -> & _); [lia|rewrite length_fmap, length_seqZ; lia|].
  reflexivity.
Qed.

Lemma io_inv task index e req len current cpu w :
  inv w -> 0 <= index -> 0 <= len -> current < task_pool_count (tasks_ w) ->
  (checked = true -> request_checked task e req w) ->
  inv (snd (pipe_io_locked task index e req len current cpu w)).
Proof.
  intros Hi Hidx Hlen Hcur Hacc. unfold pipe_io_locked. case_if; [done|]. case_if; [done|]. boolify.
  assert (pipe_in index) as Hin by (unfold pipe_in; lia).
  assert (active (pipes w index) = true) as Ha by done.
  assert (0 < len <= POSIX_IO_MAX) as Hl by lia. subst task.
  pose proof (iv_ring w Hi index Hin Ha) as Hr. pose proof (rk_count _ Hr) as Hrc.
  destruct (Z.eqb_spec e POSIX_PIPE_END_READ) as [->|Hne].
  - destruct (nz (count (pipes w index))) eqn:Hc; [apply nz_true in Hc|apply nz_false in Hc].
    + set (take := if _ <? _ then _ else _).
      pose proof (ring_take_spec take (pipes w index) Hr ltac:(unfold take; case_if; boolify; lia)) as Hs.
      assert (forall l q, ring_take take (pipes w index) = (l, q) ->
        readers q = readers (pipes w index) /\ writers q = writers (pipes w index) /\
        active q = active (pipes w index)) as He.
      { unfold ring_take. intros l q. destruct (take_loop _ _ _). by intros [= _ <-]. }
      destruct (ring_take take (pipes w index)) as [staging q]. destruct Hs as (Hq & _ & _ & _ & Hst).
      destruct (He staging q eq_refl) as (He1 & He2 & He3).
      pose proof (fun Hck => deliver_checked current req staging (set_pipe index q w) (Hacc Hck)) as Hok.
      destruct (deliver _ _ _ _) as [ok w1] eqn:Hd. cbn [fst] in Hok. apply deliver_frame in Hd as [m ->].
      assert (shrinks index w (set_memory m (set_pipe index q w))) as Hsh
        by (eapply shrinks_trans; [by apply (shrinks_set_pipe index q)|apply shrinks_memory]).
      destruct ok; cbn [snd]; [by apply (read_inv_step index w)|]. apply (lost_inv_step index w); try done.
      destruct checked; [|done]. discriminate (Hok eq_refl ltac:(unfold take in Hst; case_if; boolify; lia)).
    + destruct (nz (writers (pipes w index))) eqn:Hw; cbn [negb]; [|by apply patch_inv].
      apply nz_true in Hw. pose proof (park_inv index POSIX_PIPE_END_READ req len current cpu w) as Hp.
      destruct (park _ _ _ _ _ _ _) as [o w']. cbn [snd] in *. apply Hp; try done. by left.
  - case_if; [done|]. boolify. destruct (nz (readers (pipes w index))) eqn:Hrd; cbn [negb]; [|done].
    apply nz_true in Hrd. rewrite ring_free_value, BUF_val by done.
    destruct (Z.ltb_spec (4096 - count (pipes w index)) len) as [Hf|Hf].
    + pose proof (park_inv index e req len current cpu w) as Hp.
      destruct (park _ _ _ _ _ _ _) as [o w']. cbn [snd] in *. apply Hp; try done.
      right. unfold POSIX_IO_MAX in Hl. split; [done|]. split_and!; [done|lia|done].
    + destruct (vm64_copy_from _ _ _ _) as [staging|] eqn:Hcp; [|done].
      apply copy_from_length in Hcp; [|lia].
      destruct (ring_put_spec staging (pipes w index) Hr) as (Hq & _ & Hcnt).
      { rewrite ring_free_value, BUF_val by done. lia. }
      destruct (patch_frame current req len (set_pipe index (ring_put staging (pipes w index)) w))
        as [m ->].
      apply (write_inv_step index w); try done.
      * eapply shrinks_trans; [by apply (shrinks_set_pipe index (ring_put staging (pipes w index)))|].
        apply shrinks_memory.
      * change (pipes (set_memory m ?x)) with (pipes x). simpl. rewrite upd_eq.
        change (u32 (count (pipes w index) + Z.of_nat (length staging)))
          with (count (ring_put staging (pipes w index))). lia.
Qed.

Lemma deactivate_inv index w :
  inv w -> pipe_in index -> inv (deactivate index w).
Proof.
  intros Hi Hin. unfold deactivate. case_if; [|done]. boolify.
  repeat match goal with H : nz _ = false |- _ => apply nz_false in H end.
  apply (inv_update index w); try done; simpl; rewrite ?upd_eq; try done.
  - intros i Hne. by rewrite upd_ne.
  - apply (iv_ends w Hi).
  - intros s Hp. destruct (iv_reader w Hi index s (pipe_in_pos _ Hin) Hp) as [_ (_ & _ & ?)]. done.
  - intros s Hp. destruct (iv_writer w Hi index s (pipe_in_pos _ Hin) Hp) as [_ (_ & _ & ?)]. done.
Qed.

(** The end counts change and some parks end. *)
Lemma ends_inv index r v w w' :
  inv w -> pipe_in index -> active (pipes w index) = true -> is_u32 r -> is_u32 v ->
  task_pool_count (tasks_ w') = task_pool_count (tasks_ w) ->
  (forall s, tasks (tasks_ w') s f_state = TASK_BLOCKED_PIPE ->
     tasks (tasks_ w) s f_state = TASK_BLOCKED_PIPE /\ waits w' s = waits w s) ->
  pipes w' = upd (pipes w) index (set_ends r v true (pipes w index)) ->
  (r = 0 -> forall s, parked_on index POSIX_PIPE_END_WRITE s w' = false) ->
  (v = 0 -> forall s, parked_on index POSIX_PIPE_END_READ s w' = false) ->
  inv w'.
Proof.
  intros Hi Hin Ha Hr Hv Hc Hs Hp Hnw Hnr.
  assert (forall e s, parked_on index e s w' = true -> parked_on index e s w = true) as Hpk.
  { intros e s. unfold parked_on. intros Hb. boolify. destruct (Hs s) as [Hst Hw]; [done|].
    rewrite Hst, <- Hw, Z.eqb_refl. simpl. apply andb_true_iff. by rewrite !Z.eqb_eq. }
  apply (inv_update index w); rewrite ?Hp, ?upd_eq; try done.
  - intros i Hne. by rewrite upd_ne.
  - intros _. destruct (iv_ring w Hi index Hin Ha) as [? ? ?]. by split.
  - intros s Hps. destruct (iv_reader w Hi index s (pipe_in_pos _ Hin) (Hpk _ _ Hps)) as [_ (_ & Hz & _)].
    split_and!; [done|done|]. simpl. intros Hv0. by rewrite (Hnr Hv0) in Hps.
  - intros s Hps. destruct (iv_writer w Hi index s (pipe_in_pos _ Hin) (Hpk _ _ Hps)) as [_ (_ & Hz & _)].
    split_and!; [done|done|]. simpl. intros Hr0. by rewrite (Hnw Hr0) in Hps.
Qed.

(** The last write end closes on a ring its parked readers have drained. *)
Lemma wake_readers_noop index w :
  (forall s, parked_on index POSIX_PIPE_END_READ s w = true -> count (pipes w index) = 0) ->
  wake_readers index w = w.
Proof.
  intros Hz. unfold wake_readers. generalize (Z.to_nat (task_pool_count (tasks_ w))).
  intros n. generalize 0 at 1. induction n as [|n IH]; intros slot; cbn [wake_readers_from]; [done|].
  destruct (parked_on index POSIX_PIPE_END_READ slot w) eqn:Hp; cbn [negb]; [|apply IH].
  by rewrite (Hz slot Hp).
Qed.

(** Waking every task parked on an end after its peer end went away. *)
Lemma wake_all_ends_inv index e a r v w :
  inv w -> pipe_in index -> active (pipes w index) = true -> is_u32 r -> is_u32 v ->
  (r = 0 -> e = POSIX_PIPE_END_WRITE \/ readers (pipes w index) = 0) ->
  (v = 0 -> e = POSIX_PIPE_END_READ \/ writers (pipes w index) = 0) ->
  inv (wake_all index e a (set_pipe index (set_ends r v true (pipes w index)) w)).
Proof.
  intros Hi Hin Ha Hr Hv Hre Hve. pose proof (iv_count w Hi) as Hcount.
  set (w1 := set_pipe index _ w).
  destruct (wake_all_spec index e a w1 ltac:(simpl; lia)) as (Hsh & Hpp & Hno).
  assert (forall s, parked_on index e s (wake_all index e a w1) = false) as Hno'.
  { intros s. destruct (parked_on _ _ _ _) eqn:Hp; [|done].
    destruct (shrinks_parked _ _ _ _ _ _ Hsh Hp) as [Hp' _].
    rewrite Hno in Hp; [done|]. by apply (parked_in_range index e s w). }
  apply (ends_inv index r v w); try done.
  - apply (sh_count _ _ _ Hsh).
  - apply (sh_states _ _ _ Hsh).
  - intros Hz s. destruct (Hre Hz) as [<-|Hr0]; [done|].
    destruct (parked_on _ _ _ _) eqn:Hp; [|done].
    destruct (shrinks_parked _ _ _ _ _ _ Hsh Hp) as [Hp' _].
    destruct (iv_writer w Hi index s (pipe_in_pos _ Hin) Hp') as [_ (_ & _ & ?)]. done.
  - intros Hz s. destruct (Hve Hz) as [<-|Hv0]; [done|].
    destruct (parked_on _ _ _ _) eqn:Hp; [|done].
    destruct (shrinks_parked _ _ _ _ _ _ Hsh Hp) as [Hp' _].
    destruct (iv_reader w Hi index s (pipe_in_pos _ Hin) Hp') as [_ (_ & _ & ?)]. done.
Qed.

Lemma release_inv index e w : inv w -> 0 <= index -> inv (posix_pipe_release index e w).
Proof.
  intros Hi Hidx. unfold posix_pipe_release.
  destruct (Z.leb_spec POSIX_PIPE_MAX index); [done|].
  destruct (active (pipes w index)) eqn:Ha; [|done]. cbn [orb negb].
  assert (pipe_in index) as Hin by (unfold pipe_in; lia).
  pose proof (iv_ends w Hi index) as [Hr32 Hw32]. unfold is_u32 in Hr32, Hw32.
  destruct (e =? POSIX_PIPE_END_READ).
  - destruct (nz (readers (pipes w index))) eqn:Hnz; [apply nz_true in Hnz|done]. cbn [negb].
    destruct (nz (readers (pipes w index) - 1)) eqn:Hlast; [apply nz_true in Hlast|].
    + apply (ends_inv index (readers (pipes w index) - 1) (writers (pipes w index)) w); try done.
      * unfold is_u32. lia.
      * intros Hz s. destruct (parked_on _ _ _ _) eqn:Hp; [|done].
        destruct (iv_reader w Hi index s (pipe_in_pos _ Hin) Hp) as [_ (_ & _ & ?)]. done.
    + apply nz_false in Hlast. apply deactivate_inv; [|done].
      apply wake_all_ends_inv; try done; [unfold is_u32; lia|by left|by right].
  - destruct (e =? POSIX_PIPE_END_WRITE); [|done].
    destruct (nz (writers (pipes w index))) eqn:Hnz; [apply nz_true in Hnz|done]. cbn [negb].
    destruct (nz (writers (pipes w index) - 1)) eqn:Hlast; [apply nz_true in Hlast|].
    + apply (ends_inv index (readers (pipes w index)) (writers (pipes w index) - 1) w); try done.
      * unfold is_u32. lia.
      * intros Hz s. destruct (parked_on _ _ _ _) eqn:Hp; [|done].
        destruct (iv_writer w Hi index s (pipe_in_pos _ Hin) Hp) as [_ (_ & _ & ?)]. done.
    + apply nz_false in Hlast. apply deactivate_inv; [|done].
      rewrite wake_readers_noop.
      * apply wake_all_ends_inv; try done; [unfold is_u32; lia|by right|by left].
      * intros s Hp. simpl. rewrite upd_eq. simpl. by apply (iv_reader w Hi index s (pipe_in_pos _ Hin)).
Qed.

Lemma create_pipe_inv w : inv w -> inv (snd (posix_pipe_create w)).
Proof.
  intros Hi. unfold posix_pipe_create. destruct (scan_range _ _ _) as [i|] eqn:Hs; [|done].
  apply scan_range_Some in Hs as (Hr & Ha & _). apply negb_true_iff in Ha.
  assert (pipe_in i) as Hin by done. simpl snd.
  apply (inv_update i w); simpl; rewrite ?upd_eq; try done.
  - intros j Hne. by rewrite upd_ne.
  - intros s Hp. destruct (iv_reader w Hi i s (pipe_in_pos _ Hin) Hp) as [_ (? & _)]. congruence.
  - intros s Hp. destruct (iv_writer w Hi i s (pipe_in_pos _ Hin) Hp) as [_ (? & _)]. congruence.
Qed.

Lemma retain_pipe_inv index e w :
  inv w -> 0 <= index ->
  readers (pipes w index) + 1 < 0x100000000 -> writers (pipes w index) + 1 < 0x100000000 ->
  inv (posix_pipe_retain index e w).
Proof.
  intros Hi Hidx Hrl Hwl. unfold posix_pipe_retain.
  destruct (Z.leb_spec POSIX_PIPE_MAX index); [done|].
  destruct (active (pipes w index)) eqn:Ha; [|done]. cbn [orb negb].
  assert (pipe_in index) as Hin by (unfold pipe_in; lia).
  pose proof (iv_ends w Hi index) as [Hr32 Hw32]. unfold is_u32 in Hr32, Hw32.
  assert (forall r v, is_u32 r -> is_u32 v -> (r = 0 -> readers (pipes w index) = 0) ->
    (v = 0 -> writers (pipes w index) = 0) ->
    inv (set_pipe index (set_ends r v true (pipes w index)) w)) as Hgo.
  { intros r v Hr Hv Hr0 Hv0. apply (ends_inv index r v w); try done.
    - intros Hz s. destruct (parked_on _ _ _ _) eqn:Hp; [|done].
      destruct (iv_writer w Hi index s (pipe_in_pos _ Hin) Hp) as [_ (_ & _ & Hn)]. by destruct Hn; apply Hr0.
    - intros Hz s. destruct (parked_on _ _ _ _) eqn:Hp; [|done].
      destruct (iv_reader w Hi index s (pipe_in_pos _ Hin) Hp) as [_ (_ & _ & Hn)]. by destruct Hn; apply Hv0. }
  rewrite !u32_small by (unfold is_u32; lia).
  case_if; [apply Hgo; unfold is_u32; lia|]. case_if; [apply Hgo; unfold is_u32; lia|done].
Qed.

(** Outside the pipe code tasks may wake, be created or exit, and user
    memory changes; only the pipe code parks a task on a pipe. *)
Record environment w w' : Prop := {
  env_pipes : pipes w' = pipes w;
  env_waits : waits w' = waits w;
  env_count : task_pool_count (tasks_ w) <= task_pool_count (tasks_ w') <= MAX_TASKS;
  env_states : forall s, tasks (tasks_ w') s f_state = TASK_BLOCKED_PIPE ->
    tasks (tasks_ w) s f_state = TASK_BLOCKED_PIPE
}.

Lemma environment_inv w w' : inv w -> environment w w' -> inv w'.
Proof.
  intros Hi [Hp Hw Hc Hs].
  assert (forall i e s, parked_on i e s w' = true -> parked_on i e s w = true) as Hpk.
  { intros i e s. unfold parked_on. rewrite Hw. intros Hb. boolify.
    rewrite (Hs s) by done. rewrite Z.eqb_refl. simpl. apply andb_true_iff. by rewrite !Z.eqb_eq. }
  pose proof (iv_count w Hi). split; rewrite ?Hp; try apply Hi.
  - lia.
  - intros s Hst. pose proof (iv_slots w Hi s (Hs s Hst)). lia.
  - intros s Hst. rewrite Hw. apply (iv_lengths w Hi), Hs, Hst.
  - intros i s Hi0 Hps. by apply (iv_reader w Hi i s Hi0), Hpk.
  - intros i s Hi0 Hps. by apply (iv_writer w Hi i s Hi0), Hpk.
Qed.

Lemma signal_inv target w : inv w -> inv (snd (posix_pipe_signal target w)).
Proof.
  intros Hi. unfold posix_pipe_signal. case_if; [|done]. boolify. simpl.
  assert (forall i e s, 0 <= i -> parked_on i e s (clear_wait target w) = true ->
    parked_on i e s w = true) as Hpk.
  { intros i e s Hi0. unfold parked_on. simpl. destruct (decide (s = target)) as [->|Hne].
    - rewrite upd_eq. cbn [pipe]. intros Hb. rewrite (proj2 (Z.eqb_neq 0 (i + 1))), andb_false_r in Hb by lia. done.
    - by rewrite upd_ne. }
  split; try apply Hi.
  - intros s Hs. simpl. destruct (decide (s = target)) as [->|Hne]; [by rewrite upd_eq|].
    rewrite upd_ne by done. by apply (iv_lengths w Hi).
  - intros i s Hi0 Hps. by apply (iv_reader w Hi i s Hi0), Hpk.
  - intros i s Hi0 Hps. by apply (iv_writer w Hi i s Hi0), Hpk.
Qed.

(** ** The pipes as a transition system *)

(** With [checked], a read is called as the system call does, right after the
    check of its request. *)
Inductive step : world M -> world M -> Prop :=
  | step_create w : step w (snd (posix_pipe_create w))
  | step_retain index e w : 0 <= index ->
      readers (pipes w index) + 1 < 0x100000000 -> writers (pipes w index) + 1 < 0x100000000 ->
      step w (posix_pipe_retain index e w)
  | step_release index e w : 0 <= index -> step w (posix_pipe_release index e w)
  | step_io task index e req len current cpu w o b w' :
      0 <= index -> 0 <= len -> current < task_pool_count (tasks_ w) ->
      (checked = true -> request_checked task e req w) ->
      pipe_io_locked task index e req len current cpu w = (o, b, w') -> step w w'
  | step_signal target w : step w (snd (posix_pipe_signal target w))
  | step_environment w w' : environment w w' -> step w w'.

Lemma pipe_step_inv w w' : inv w -> step w w' -> inv w'.
Proof.
  intros Hi Hs. inversion Hs as [|index e ? Hidx Hr Hw|index e ? Hidx
    |task index e req len current cpu ? o b ? Hidx Hlen Hcur Hacc Hio|target|? ? He]; subst.
  - by apply create_pipe_inv.
  - by apply retain_pipe_inv.
  - by apply release_inv.
  - pose proof (io_inv task index e req len current cpu w Hi Hidx Hlen Hcur Hacc) as Hinv.
    by rewrite Hio in Hinv.
  - by apply signal_inv.
  - by eapply environment_inv.
Qed.

(** No pipe in use, nobody parked. *)
Definition boot (p : pool) (m : M) : world M :=
  World (fun _ => PipeState (fun _ => 0) 0 0 0 0 false [] []) (fun _ => PipeWait 0 0 0 0) p m
    (fun _ => 0).

Lemma pipe_boot_inv p m :
  0 <= task_pool_count p <= MAX_TASKS ->
  (forall s, tasks p s f_state <> TASK_BLOCKED_PIPE) -> inv (boot p m).
Proof.
  intros Hc Hs. split; simpl; try done.
  - intros s Hst. by destruct (Hs s).
  - intros i s Hi0 Hp. unfold parked_on in Hp. boolify. by destruct (Hs s).
  - intros i s Hi0 Hp. unfold parked_on in Hp. boolify. by destruct (Hs s).
Qed.

Lemma pipe_reachable_inv p m w :
  0 <= task_pool_count p <= MAX_TASKS ->
  (forall s, tasks p s f_state <> TASK_BLOCKED_PIPE) -> rtc step (boot p m) w -> inv w.
Proof.
  intros Hc Hs Hst. pose proof (pipe_boot_inv p m Hc Hs) as Hi. revert Hi.
  induction Hst as [|w1 w2 w3 H1 _ IH]; [done|]. intros Hi. by eapply IH, pipe_step_inv.
Qed.

End Wakes.

(** ** Properties *)

(** User memory where one address space refuses stores. *)
Definition toy_memory : Type := Z -> Z -> Z.

#[global] Instance toy_user_memory : UserMemory toy_memory := {
  vm64_user_access root a n writable m := negb writable || negb (root =? 0);
  vm64_copy_to root a l m :=
    if root =? 0 then None
    else Some (fun r x => if (r =? root) && (a <=? x) && (x <? a + Z.of_nat (length l))
                          then nth (Z.to_nat (x - a)) l 0 else m r x);
  vm64_copy_from root a n m := Some ((fun i => m root (a + i)) <$> seqZ 0 n)
}.

#[global] Instance toy_user_memory_laws : UserMemoryLaws toy_memory.
Proof.
  split.
  - intros root a n m k l Hacc _ _. simpl in *. destruct (root =? 0); [done|]. by eexists.
  - intros root a n m l Hn [= <-]. rewrite length_fmap, length_seqZ. lia.
Qed.

(** Three tasks; task 1 runs in address space 1, the others in space 0. *)
Definition example_pool : pool :=
  Pool (fun s f => if decide (s = 1 /\ f = f_page_dir) then 1 else 0) 3.

Definition example_boot_world : world toy_memory := boot example_pool (fun _ _ => 9).

Definition example_open : world toy_memory :=
  let w := snd (posix_pipe_create example_boot_world) in
  posix_pipe_retain 0 POSIX_PIPE_END_WRITE (posix_pipe_retain 0 POSIX_PIPE_END_READ w).

Lemma example_pool_states s : tasks example_pool s f_state <> TASK_BLOCKED_PIPE.
Proof. simpl. rewrite decide_False by (by intros [_ ?]). done. Qed.

Lemma example_open_reachable checked : rtc (step checked) example_boot_world example_open.
Proof.
  eapply rtc_l; [apply step_create|].
  eapply rtc_l; [apply (step_retain _ 0 POSIX_PIPE_END_READ); vm_compute; reflexivity || congruence|].
  eapply rtc_l; [apply (step_retain _ 0 POSIX_PIPE_END_WRITE); vm_compute; reflexivity || congruence|].
  apply rtc_refl.
Qed.

(** C33: A pipe loses, invents and reorders nothing: in every reachable state,
    reads that fault included, the bytes that entered an open pipe are exactly
    the bytes that left it followed by the ring's content, which never exceeds
    PIPE_BUF. *)
Theorem pipe_fifo {M} `{UserMemoryLaws M} p m (w : world M) i :
  0 <= task_pool_count p <= MAX_TASKS ->
  (forall s, tasks p s f_state <> TASK_BLOCKED_PIPE) -> rtc (step false) (boot p m) w ->
  pipe_in i -> active (pipes w i) = true ->
  written (pipes w i) = taken (pipes w i) ++ content (pipes w i) /\
  Z.of_nat (length (content (pipes w i))) = count (pipes w i) /\ count (pipes w i) <= POSIX_PIPE_BUF.
Proof.
  intros Hc Hs Hst Hin Ha. pose proof (pipe_reachable_inv false p m w Hc Hs Hst) as Hi.
  pose proof (iv_ring _ w Hi i Hin Ha) as Hr.
  split; [apply Hr|]. rewrite content_length by done. split; [done|apply (rk_count _ Hr)].
Qed.

Definition example_wrote : world toy_memory :=
  snd (pipe_io_locked 1 0 POSIX_PIPE_END_WRITE 100 3 1 0 example_open).

Lemma example_wrote_reachable : rtc (step false) example_boot_world example_wrote.
Proof.
  etrans; [apply example_open_reachable|]. eapply rtc_l; [|apply rtc_refl].
  eapply (step_io _ 1 0 POSIX_PIPE_END_WRITE 100 3 1 0 example_open (Answer 3) true);
    [lia|lia|vm_compute; reflexivity|discriminate|].
  assert (fst (pipe_io_locked 1 0 POSIX_PIPE_END_WRITE 100 3 1 0 example_open) = (Answer 3, true)) as Hf
    by (vm_compute; reflexivity).
  unfold example_wrote. destruct (pipe_io_locked _ _ _ _ _ _ _ _) as [ob w]. simpl in *. by rewrite Hf.
Qed.

Lemma pipe_fifo_witness :
  written (pipes example_wrote 0) = [9; 9; 9] /\
  written (pipes example_wrote 0) = taken (pipes example_wrote 0) ++ content (pipes example_wrote 0).
Proof.
  split; [vm_compute; reflexivity|].
  apply (pipe_fifo example_pool (fun _ _ => 9) example_wrote 0).
  - vm_compute. split; congruence.
  - exact example_pool_states.
  - exact example_wrote_reachable.
  - unfold pipe_in, POSIX_PIPE_MAX. lia.
  - vm_compute. reflexivity.
Defined.

(** C16: No wakeup is lost.  In every state that calls lead to, a reader is
    parked only on an empty ring of an open pipe with a writer left, and a
    writer only on an open pipe with a reader left.  When every read was called
    right after the check of its request, as the system call does, a writer is
    parked only on a ring with bytes in it: a reader and a writer are never
    parked together and the peer's next call can complete the parked one. *)
Theorem pipe_no_lost_wakeup {M} `{UserMemoryLaws M} checked p m (w : world M) i s s' :
  0 <= task_pool_count p <= MAX_TASKS ->
  (forall s, tasks p s f_state <> TASK_BLOCKED_PIPE) -> rtc (step checked) (boot p m) w -> 0 <= i ->
  (parked_on i POSIX_PIPE_END_READ s w = true ->
     active (pipes w i) = true /\ count (pipes w i) = 0 /\ writers (pipes w i) <> 0) /\
  (parked_on i POSIX_PIPE_END_WRITE s' w = true ->
     active (pipes w i) = true /\ readers (pipes w i) <> 0 /\ (checked = true -> 0 < count (pipes w i))) /\
  (checked = true -> ~ (parked_on i POSIX_PIPE_END_READ s w = true /\ parked_on i POSIX_PIPE_END_WRITE s' w = true)).
Proof.
  intros Hc Hs Hst Hi0. pose proof (pipe_reachable_inv checked p m w Hc Hs Hst) as Hi. split_and!.
  - intros Hp. by apply (iv_reader _ w Hi i s).
  - intros Hp. destruct (iv_writer _ w Hi i s' Hi0 Hp) as [_ (Ha & Hck & Hr)]. done.
  - intros Hck [Hp Hp']. destruct (iv_reader _ w Hi i s Hi0 Hp) as [_ (_ & Hz & _)].
    destruct (iv_writer _ w Hi i s' Hi0 Hp') as [_ (_ & Hz' & _)]. specialize (Hz' Hck). lia.
Qed.

Definition example_parked : world toy_memory :=
  snd (pipe_io_locked 1 0 POSIX_PIPE_END_READ 100 3 1 0 example_open).

Lemma example_parked_reachable : rtc (step true) example_boot_world example_parked.
Proof.
  etrans; [apply example_open_reachable|]. eapply rtc_l; [|apply rtc_refl].
  eapply (step_io _ 1 0 POSIX_PIPE_END_READ 100 3 1 0 example_open Parked false);
    [lia|lia|vm_compute; reflexivity|intros _ _; vm_compute; reflexivity|].
  assert (fst (pipe_io_locked 1 0 POSIX_PIPE_END_READ 100 3 1 0 example_open) = (Parked, false)) as Hf
    by (vm_compute; reflexivity).
  unfold example_parked. destruct (pipe_io_locked _ _ _ _ _ _ _ _) as [ob w]. simpl in *. by rewrite Hf.
Qed.

Lemma pipe_no_lost_wakeup_witness :
  parked_on 0 POSIX_PIPE_END_READ 1 example_parked = true /\
  parked_on 0 POSIX_PIPE_END_WRITE 2 example_parked = false.
Proof.
  assert (parked_on 0 POSIX_PIPE_END_READ 1 example_parked = true) as Hp by (vm_compute; reflexivity).
  split; [exact Hp|].
  destruct (pipe_no_lost_wakeup true example_pool (fun _ _ => 9) example_parked 0 1 2) as (_ & _ & Hno).
  - vm_compute. split; congruence.
  - exact example_pool_states.
  - exact example_parked_reachable.
  - lia.
  - destruct (parked_on 0 POSIX_PIPE_END_WRITE 2 example_parked) eqn:Hw; [|reflexivity].
    exfalso. apply (Hno eq_refl). split; [exact Hp|exact Hw].
Defined.

(** Why the check matters: a read whose copy to user memory fails answers EIO
    after the bytes have left the ring: they are lost, no writer is woken and no
    poll is notified, so a writer that now fits stays parked. *)
Lemma unchecked_read_strands_writer {M} `{UserMemoryLaws M} task index req len cpu s (w : world M) :
  pipe_in index -> active (pipes w index) = true -> ring_ok (pipes w index) ->
  0 < count (pipes w index) -> 0 < len <= POSIX_IO_MAX -> 0 <= task ->
  vm64_copy_to (tasks (tasks_ w) task f_page_dir) (req + POSIX_IO_DATA_OFFSET) (take (Z.to_nat len) (content (pipes w index))) (memory w) = None ->
  parked_on index POSIX_PIPE_END_WRITE s w = true ->
  exists w', pipe_io_locked task index POSIX_PIPE_END_READ req len task cpu w =
      (Answer POSIX_VFS_EIO, false, w') /\
    content (pipes w' index) = drop (Z.to_nat len) (content (pipes w index)) /\
    memory w' = memory w /\ parked_on index POSIX_PIPE_END_WRITE s w' = true.
Proof.
  intros Hin Ha Hr Hc Hl Ht Hf Hp. unfold pipe_io_locked.
  rewrite Ha, (proj2 (Z.leb_gt _ _)) by apply Hin.
  rewrite (proj2 (Z.ltb_ge POSIX_IO_MAX len)), (proj2 (Z.ltb_ge task 0)), Z.eqb_refl by lia.
  rewrite !(proj2 (nz_true _)) by lia. cbn [orb negb]. rewrite Z.eqb_refl.
  set (n := if _ <? _ then _ else _).
  assert (0 <= n <= count (pipes w index)) as Hn by (unfold n; case_if; boolify; lia).
  pose proof (ring_take_spec n _ Hr Hn) as Hs. destruct (ring_take _ _) as [staging q].
  destruct Hs as (_ & Hst & Hq & _). pose proof (content_length _ Hr) as Hlen.
  assert (staging = take (Z.to_nat len) (content (pipes w index))) as ->.
  { rewrite Hst. unfold n. case_if; boolify; [|done]. rewrite !take_ge by lia. done. }
  unfold deliver. cbn [tasks_ set_pipe memory]. rewrite Hf.
  eexists. split; [done|]. simpl. rewrite upd_eq. split; [|done]. rewrite Hq.
  unfold n. case_if; boolify; [|done]. rewrite !drop_ge by lia. done.
Qed.

End Pipe.
