(* ===== verification/Object.v ===== *)
(** Kernel objects and handles: [src/objects/object.c].

    The object table, the per-task handle tables and the reference counts.
    The critical sections of the object lock are the atomic steps; the two of
    [object_release], before and after the destroy callback, are separate.  The
    row-major array [handles[owner][index]] is a function of
    [owner * KHANDLE_MAX + index].  Ghost data: [held] counts the references
    that kernel code holds outside the handle tables and [closes] how often a
    slot has been closed. *)

From S2P Require Import Prelude Task.

Module Object.

Import Task.

Definition KOBJECT_MAX : Z := 128.

Definition KHANDLE_MAX : Z := 32.

Definition KOBJECT_NONE : Z := 0.

Definition KRIGHT_TRANSFER : Z := Z.shiftl 1 6.

Definition KRIGHT_ALL : Z := 0x7F.

(** A destroy callback is a number, the null pointer 0. *)
Record kernel_object := KernelObject {
  type : Z;
  references : Z;
  value : Z;
  destroy : Z;
  active : bool
}.

Record handle_slot := HandleSlot {
  object : option Z;
  rights : Z;
  generation : Z;
  closes : nat
}.

Record table := Table {
  objects : Z -> kernel_object;
  handles : Z -> handle_slot;
  held : Z -> Z
}.

Definition set_object (o : Z) (v : kernel_object) (t : table) : table :=
  Table (upd (objects t) o v) (handles t) (held t).

Definition set_slot (k : Z) (v : handle_slot) (t : table) : table :=
  Table (objects t) (upd (handles t) k v) (held t).

Definition set_held (o n : Z) (t : table) : table :=
  Table (objects t) (handles t) (upd (held t) o n).

Definition set_references (n : Z) (v : kernel_object) : kernel_object :=
  KernelObject (type v) n (value v) (destroy v) (active v).

(** A pointer into the task pool is its index; every other pointer, null
    included, is [None]. *)
Definition task_index (p : pool) (task : option Z) : Z :=
  match task with
  | None => -1
  | Some index =>
      if (index <? 0) || (MAX_TASKS <=? index) then -1 else
      if (tasks p index f_state =? TASK_FREE) || (tasks p index f_state =? TASK_ZOMBIE) then -1
      else index
  end.

Definition handle_value (slot : handle_slot) (index : Z) : Z :=
  Z.lor (u32 (Z.shiftl (generation slot) 8)) (u32 (index + 1)).

Definition handle_slot_for (p : pool) (task : option Z) (handle : Z) (t : table) : option Z :=
  let owner := task_index p task in
  let low := Z.land handle 0xFF in
  if (owner <? 0) || negb (nz low) || (KHANDLE_MAX <? low) then None else
  let k := owner * KHANDLE_MAX + (low - 1) in
  let slot := handles t k in
  if negb (is_some (object slot)) || negb (generation slot =? Z.shiftr handle 8) then None
  else Some k.

Definition object_init : table :=
  Table (fun _ => KernelObject KOBJECT_NONE 0 0 0 false) (fun _ => HandleSlot None 0 1 0) (fun _ => 0).

Definition object_create (ty v d : Z) (t : table) : option Z * table :=
  if ty =? KOBJECT_NONE then (None, t) else
  match scan_range 0 KOBJECT_MAX (fun index => negb (active (objects t index))) with
  | None => (None, t)
  | Some index => (Some index, set_held index 1 (set_object index (KernelObject ty 1 v d true) t))
  end.

Definition object_retain_locked (o : Z) (t : table) : Z * table :=
  let v := objects t o in
  if negb (active v) || negb (nz (references v)) || (references v =? 0xFFFFFFFF) then (-1, t)
  else (0, set_object o (set_references (u32 (references v + 1)) v) t).

Definition object_retain (o : option Z) (t : table) : Z * table :=
  match o with
  | None => (-1, t)
  | Some o =>
      let '(answer, t) := object_retain_locked o t in
      (answer, if answer =? 0 then set_held o (held t o + 1) t else t)
  end.

(** The first critical section of [object_release]: [Some d] when the last
    reference went and the callback [d] is to run. *)
Definition release_drop (o : Z) (t : table) : option Z * table :=
  let v := objects t o in
  if negb (active v) || negb (nz (references v)) then (None, t) else
  let n := u32 (references v - 1) in
  let t := set_held o (held t o - 1) t in
  if nz n then (None, set_object o (set_references n v) t)
  else (Some (destroy v), set_object o (KernelObject (type v) n (value v) 0 (active v)) t).

(** The second one. *)
Definition release_finish (o : Z) (t : table) : table :=
  let v := objects t o in
  set_object o (KernelObject KOBJECT_NONE (references v) 0 (destroy v) false) t.

Definition handle_open_locked (owner o r : Z) (t : table) : Z * table :=
  match scan_range 0 KHANDLE_MAX (fun index =>
          negb (is_some (object (handles t (owner * KHANDLE_MAX + index))))) with
  | None => (0, t)
  | Some index =>
      let k := owner * KHANDLE_MAX + index in
      let '(answer, t') := object_retain_locked o t in
      if nz answer then (0, t) else
      let slot := handles t k in
      let slot := HandleSlot (Some o) r (generation slot) (closes slot) in
      (handle_value slot index, set_slot k slot t')
  end.

Definition handle_open (p : pool) (task : option Z) (o : option Z) (r : Z) (t : table) : Z * table :=
  let owner := task_index p task in
  match o with
  | None => (0, t)
  | Some o =>
      if (owner <? 0) || negb (nz r) || nz (Z.land r (Z.lnot KRIGHT_ALL)) then (0, t) else
      if negb (active (objects t o)) then (0, t) else handle_open_locked owner o r t
  end.

Definition handle_get (p : pool) (task : option Z) (handle required_rights required_type : Z)
    (t : table) : option Z :=
  match handle_slot_for p task handle t with
  | None => None
  | Some k =>
      let slot := handles t k in
      match object slot with
      | None => None
      | Some o =>
          if nz (Z.land required_rights (Z.lnot (rights slot))) ||
             (negb (required_type =? KOBJECT_NONE) && negb (type (objects t o) =? required_type))
          then None else Some o
      end
  end.

Definition next_generation (g : Z) : Z :=
  let g := Z.land (u32 (g + 1)) 0xFFFFFF in
  if nz g then g else 1.

(** Empties a slot; its reference passes to the running code. *)
Definition clear_slot (k : Z) (t : table) : option Z * table :=
  let slot := handles t k in
  match object slot with
  | None => (None, t)
  | Some o =>
      (Some o, set_held o (held t o + 1)
        (set_slot k (HandleSlot None 0 (next_generation (generation slot)) (S (closes slot))) t))
  end.

(** The critical section of [handle_close]: the object to release. *)
Definition close_locked (p : pool) (task : option Z) (handle : Z) (t : table) : option Z * table :=
  match handle_slot_for p task handle t with
  | None => (None, t)
  | Some k => clear_slot k t
  end.

Definition handle_duplicate (p : pool) (source target : option Z) (handle r : Z) (t : table) :
    Z * table :=
  let owner := task_index p target in
  if owner <? 0 then (0, t) else
  match handle_slot_for p source handle t with
  | None => (0, t)
  | Some k =>
      let slot := handles t k in
      match object slot with
      | None => (0, t)
      | Some o =>
          if negb (nz (Z.land (rights slot) KRIGHT_TRANSFER)) || negb (nz r) ||
             nz (Z.land r (Z.lnot (rights slot)))
          then (0, t) else handle_open_locked owner o r t
      end
  end.

(** One pass of [handle_revoke_object]'s loop. *)
Definition revoke_pass (o : Z) (t : table) : option Z * table :=
  match scan_range 0 (MAX_TASKS * KHANDLE_MAX) (fun k => bool_decide (object (handles t k) = Some o)) with
  | None => (None, t)
  | Some k => clear_slot k t
  end.

Definition object_active_count (t : table) : Z :=
  count_from (Z.to_nat KOBJECT_MAX) 0 (fun o => active (objects t o)).

Definition handle_active_count (t : table) : Z :=
  count_from (Z.to_nat (MAX_TASKS * KHANDLE_MAX)) 0 (fun k => is_some (object (handles t k))).

Definition handle_task_count (p : pool) (task : option Z) (t : table) : Z :=
  let owner := task_index p task in
  if owner <? 0 then 0 else
  count_from (Z.to_nat KHANDLE_MAX) (owner * KHANDLE_MAX) (fun k => is_some (object (handles t k))).

(** ** Steps

    One critical section of one of the entry points, run by any CPU.  A CPU
    releases only a reference it holds, and finishes a release only when the
    count has reached zero. *)
Inductive call_step : table -> table -> Prop :=
  | step_create ty v d t : call_step t (snd (object_create ty v d t))
  | step_retain o t : call_step t (snd (object_retain o t))
  | step_drop o t : 0 < held t o -> call_step t (snd (release_drop o t))
  | step_finish o t :
      active (objects t o) = true -> references (objects t o) = 0 -> call_step t (release_finish o t)
  | step_close p task handle t : call_step t (snd (close_locked p task handle t))
  | step_duplicate p source target handle r t :
      call_step t (snd (handle_duplicate p source target handle r t))
  | step_revoke o t : call_step t (snd (revoke_pass o t)).

(** Opening a handle is the only step that creates authority. *)
Inductive step : table -> table -> Prop :=
  | step_call t t' : call_step t t' -> step t t'
  | step_open p task o r t : step t (snd (handle_open p task o r t)).

(** ** Whole calls

    What other modules do inside a call: the destroy callbacks and the
    descriptor revocation of [src/process/posix_fd.c]. *)
Class ObjectModules := {
  run_destroy : Z -> Z -> table -> table;
  posix_fd_revoke_object : Z -> table -> table
}.

Definition opens_none (t t' : table) : Prop :=
  forall k o, object (handles t' k) = Some o -> object (handles t k) = Some o.

(** They act on the table through its entry points, open no handle, and a
    callback leaves the finish of its object to [object_release]. *)
Class ObjectModulesLaws `{ObjectModules} := {
  destroy_steps d o t : rtc step t (run_destroy d o t);
  destroy_opens d o t : opens_none t (run_destroy d o t);
  destroy_dying d o t : active (objects t o) = true -> references (objects t o) = 0 ->
    active (objects (run_destroy d o t) o) = true /\ references (objects (run_destroy d o t) o) = 0;
  fd_revoke_steps o t : rtc step t (posix_fd_revoke_object o t);
  fd_revoke_opens o t : opens_none t (posix_fd_revoke_object o t)
}.

Section Calls.

Context `{ObjectModules}.

Definition object_release (o : option Z) (t : table) : table :=
  match o with
  | None => t
  | Some o =>
      match release_drop o t with
      | (None, t) => t
      | (Some d, t) => release_finish o (if nz d then run_destroy d o t else t)
      end
  end.

Definition handle_close (p : pool) (task : option Z) (handle : Z) (t : table) : Z * table :=
  match close_locked p task handle t with
  | (None, t) => (-1, t)
  | (Some o, t) => (0, object_release (Some o) t)
  end.

(** The [for (;;)] loop; [None] when [fuel] passes were not enough. *)
Fixpoint revoke_loop (fuel : nat) (o revoked : Z) (t : table) : option (Z * table) :=
  match fuel with
  | O => None
  | S fuel =>
      match revoke_pass o t with
      | (None, t) => Some (revoked, t)
      | (Some _, t) => revoke_loop fuel o (u32 (revoked + 1)) (object_release (Some o) t)
      end
  end.

Definition handle_revoke_object (fuel : nat) (o : option Z) (t : table) : option (Z * table) :=
  match o with
  | None => Some (0, t)
  | Some o =>
      if negb (active (objects t o)) then Some (0, t)
      else revoke_loop fuel o 0 (posix_fd_revoke_object o t)
  end.

Definition handle_close_all (p : pool) (task : option Z) (t : table) : table :=
  let owner := task_index p task in
  if owner <? 0 then t else
  for_range 0 KHANDLE_MAX (fun index t =>
    let slot := handles t (owner * KHANDLE_MAX + index) in
    if negb (is_some (object slot)) then t
    else snd (handle_close p task (handle_value slot index) t)) t.

End Calls.

(** ** Invariant *)

Definition SLOTS : Z := MAX_TASKS * KHANDLE_MAX.

Definition nhandles (o : Z) (t : table) : Z :=
  count_from (Z.to_nat SLOTS) 0 (fun k => bool_decide (object (handles t k) = Some o)).

Definition object_in (o : Z) : Prop := 0 <= o < KOBJECT_MAX.

Definition rights_ok (r : Z) : Prop := r <> 0 /\ Z.land r (Z.lnot KRIGHT_ALL) = 0.

Definition generation_after (n : nat) : Z := 1 + Z.of_nat n mod 0xFFFFFF.

Record slot_ok (k : Z) (s : handle_slot) : Prop := {
  sk_object : forall o, object s = Some o -> 0 <= k < SLOTS /\ rights_ok (rights s);
  sk_generation : generation s = generation_after (closes s)
}.

Record object_ok (o : Z) (t : table) : Prop := {
  ok_held : 0 <= held t o;
  ok_width : is_u32 (references (objects t o));
  ok_references : references (objects t o) = held t o + nhandles o t;
  ok_active : active (objects t o) = true -> object_in o;
  ok_free : active (objects t o) = false -> references (objects t o) = 0
}.

Record inv (t : table) : Prop := {
  iv_slots : forall k, slot_ok k (handles t k);
  iv_objects : forall o, object_ok o t
}.

Lemma nhandles_ext o t t' :
  (forall k, object (handles t' k) = object (handles t k)) -> nhandles o t' = nhandles o t.
Proof. intros He. apply count_from_ext. intros k _. by rewrite He. Qed.

Lemma nhandles_slot k s o t :
  0 <= k < SLOTS ->
  nhandles o (set_slot k s t) = nhandles o t - Z.b2z (bool_decide (object (handles t k) = Some o)) +
    Z.b2z (bool_decide (object s = Some o)).
Proof.
  intros Hk. unfold nhandles.
  rewrite (count_from_upd _ 0 (fun k => bool_decide (object (handles t k) = Some o)) _ k).
  - simpl. by rewrite upd_eq.
  - unfold SLOTS, MAX_TASKS, KHANDLE_MAX in *. lia.
  - intros q Hq. simpl. by rewrite upd_ne.
Qed.

Lemma nhandles_range o t : 0 <= nhandles o t <= SLOTS.
Proof.
  pose proof (count_from_range (Z.to_nat SLOTS) 0 (fun k => bool_decide (object (handles t k) = Some o))).
  unfold nhandles, SLOTS, MAX_TASKS, KHANDLE_MAX in *. lia.
Qed.

(** A change around one object. *)
Lemma inv_change o t t' :
  inv t -> (forall k, handles t' k = handles t k \/ slot_ok k (handles t' k)) ->
  (forall x, x <> o -> objects t' x = objects t x /\ held t' x = held t x /\
     nhandles x t' = nhandles x t) ->
  object_ok o t' -> inv t'.
Proof.
  intros Hi Hs Hx Ho. split.
  - intros k. destruct (Hs k) as [->|Hk]; [apply (iv_slots t Hi)|done].
  - intros x. destruct (decide (x = o)) as [->|Hne]; [done|]. destruct (Hx x Hne) as (He & Hh & Hn).
    destruct (iv_objects t Hi x) as [? ? ? ? ?]. split; rewrite ?He, ?Hh, ?Hn; done.
Qed.

(** The object and held fields of one object change. *)
Lemma inv_object o v n t :
  inv t -> 0 <= n -> is_u32 (references v) -> references v = n + nhandles o t ->
  (active v = true -> object_in o) -> (active v = false -> references v = 0) ->
  inv (Table (upd (objects t) o v) (handles t) (upd (held t) o n)).
Proof.
  intros Hi Hn Hw Hr Ha Hf. apply (inv_change o t).
  - done.
  - intros k. by left.
  - intros x Hx. simpl. rewrite !upd_ne by done. split_and!; [done|done|].
    by apply nhandles_ext.
  - split; simpl; rewrite !upd_eq; try done.
Qed.

(** ** Every step keeps the invariant *)

Lemma create_object_inv ty v d t : inv t -> inv (snd (object_create ty v d t)).
Proof.
  intros Hi. unfold object_create. case_if; [done|].
  destruct (scan_range _ _ _) as [o|] eqn:Hs; [|done]. apply scan_range_Some in Hs as (Hr & Ha & _).
  boolify. pose proof (iv_objects t Hi o) as Ho. pose proof (ok_free _ _ Ho Ha) as Hz.
  rewrite (ok_references _ _ Ho) in Hz. pose proof (ok_held _ _ Ho). pose proof (nhandles_range o t).
  apply (inv_object o (KernelObject ty 1 v d true) 1 t); simpl; try done; lia.
Qed.

Lemma retain_locked_spec o t :
  inv t -> let '(answer, t') := object_retain_locked o t in
  (answer = -1 /\ t' = t) \/
  (answer = 0 /\ active (objects t o) = true /\ 0 < references (objects t o) < 0xFFFFFFFF /\
   t' = set_object o (set_references (references (objects t o) + 1) (objects t o)) t).
Proof.
  intros Hi. unfold object_retain_locked. case_if; [by left|]. boolify. right.
  pose proof (ok_width _ _ (iv_objects t Hi o)) as Hw. unfold is_u32 in Hw.
  rewrite u32_small by (unfold is_u32; lia). split_and!; try done; lia.
Qed.

Lemma retain_object_inv o t : inv t -> inv (snd (object_retain o t)).
Proof.
  intros Hi. destruct o as [o|]; [|done]. unfold object_retain.
  pose proof (retain_locked_spec o t Hi) as Hs. destruct (object_retain_locked o t) as [a t'].
  destruct Hs as [[-> ->]|(-> & Ha & Hr & ->)]; [done|]. simpl.
  pose proof (iv_objects t Hi o) as [Hh Hw He Hin _]. unfold is_u32 in Hw.
  apply (inv_object o (set_references (references (objects t o) + 1) (objects t o)) (held t o + 1) t);
    simpl; try done; try (unfold is_u32; lia). congruence.
Qed.

Lemma drop_spec o t :
  inv t -> 0 < held t o ->
  active (objects t o) = true /\ 0 < references (objects t o) /\
  exists d, release_drop o t =
    (if decide (references (objects t o) = 1) then Some (destroy (objects t o)) else None,
     set_object o (KernelObject (type (objects t o)) (references (objects t o) - 1) (value (objects t o))
       d true) (set_held o (held t o - 1) t)).
Proof.
  intros Hi Hh. pose proof (iv_objects t Hi o) as [_ Hw He _ Hf]. pose proof (nhandles_range o t).
  unfold is_u32 in Hw. assert (0 < references (objects t o)) by lia.
  destruct (active (objects t o)) eqn:Ha; [|lia]. split_and!; [done..|].
  unfold release_drop. rewrite Ha, (proj2 (nz_true (references (objects t o)))) by lia. simpl negb.
  cbn [orb]. rewrite u32_small by (unfold is_u32; lia). unfold set_references. rewrite Ha.
  destruct (decide _) as [H1|H1].
  - exists 0. by rewrite H1.
  - exists (destroy (objects t o)). rewrite (proj2 (nz_true _)) by lia. done.
Qed.

Lemma drop_inv o t : inv t -> 0 < held t o -> inv (snd (release_drop o t)).
Proof.
  intros Hi Hh. destruct (drop_spec o t Hi Hh) as (Ha & Hr & d & ->).
  pose proof (iv_objects t Hi o) as [_ Hw He Hin _]. unfold is_u32 in Hw.
  apply (inv_object o (KernelObject (type (objects t o)) (references (objects t o) - 1) (value (objects t o)) d true)
    (held t o - 1) t); simpl; try done; try (unfold is_u32; lia). intros _. by apply Hin.
Qed.

Lemma finish_inv o t :
  inv t -> references (objects t o) = 0 -> inv (release_finish o t).
Proof.
  intros Hi Hz. pose proof (iv_objects t Hi o) as [Hh Hw He Hin _]. apply (inv_change o t).
  - done.
  - intros k. by left.
  - intros x Hx. unfold release_finish. simpl. rewrite upd_ne by done. done.
  - split; simpl; rewrite ?upd_eq; try done.
Qed.

Lemma task_index_range p task : task_index p task = -1 \/ 0 <= task_index p task < MAX_TASKS.
Proof.
  destruct task as [i|]; simpl; [|by left]. case_if; [by left|]. boolify. case_if; [by left|]. right. lia.
Qed.

Lemma generation_after_range n : 1 <= generation_after n <= 0xFFFFFF.
Proof. unfold generation_after. dmlia. Qed.

Lemma generation_after_S n : next_generation (generation_after n) = generation_after (S n).
Proof.
  unfold next_generation. pose proof (generation_after_range n) as Hr.
  rewrite u32_small by (unfold is_u32; lia).
  change 0xFFFFFF with (Z.ones 24). rewrite Z.land_ones by lia.
  destruct (nz _) eqn:Hz; boolify; unfold generation_after in *; rewrite Nat2Z.inj_succ in *; dmlia.
Qed.

(** A slot of the owner's table is replaced; only [o] is involved. *)
Lemma inv_slot k s o v n t :
  inv t -> 0 <= k < SLOTS -> slot_ok k s ->
  (forall x, x <> o -> object (handles t k) <> Some x /\ object s <> Some x) ->
  object_ok o (Table (upd (objects t) o v) (upd (handles t) k s) (upd (held t) o n)) ->
  inv (Table (upd (objects t) o v) (upd (handles t) k s) (upd (held t) o n)).
Proof.
  intros Hi Hk Hs Hx Ho. apply (inv_change o t); [done| | |done].
  - intros q. simpl. destruct (decide (q = k)) as [->|Hne]; [right; by rewrite upd_eq|left; by rewrite upd_ne].
  - intros x Hne. simpl. rewrite !upd_ne by done. split_and!; [done|done|].
    destruct (Hx x Hne) as [H1 H2].
    rewrite (nhandles_ext x (set_slot k s t)) by done. rewrite nhandles_slot by done.
    rewrite !bool_decide_eq_false_2 by done. simpl. lia.
Qed.

Lemma upd_id {A} (a : Z -> A) i j : upd a i (a i) j = a j.
Proof. destruct (decide (j = i)) as [->|Hne]; [by rewrite upd_eq|by rewrite upd_ne]. Qed.

Lemma inv_ext t t' :
  inv t -> (forall o, objects t' o = objects t o) -> (forall k, handles t' k = handles t k) ->
  (forall o, held t' o = held t o) -> inv t'.
Proof.
  intros Hi Ho Hh Hd. apply (inv_change 0 t); [done|by left; rewrite Hh| |].
  - intros x _. split_and!; [done..|]. apply nhandles_ext. intros k. by rewrite Hh.
  - destruct (iv_objects t Hi 0) as [? ? ? ? ?]. split; rewrite ?Ho, ?Hd; try done.
    rewrite (nhandles_ext 0 t t') by (intros k; by rewrite Hh). done.
Qed.

(** What [handle_open_locked] does. *)
Lemma open_locked_spec owner o r t :
  inv t -> let '(handle, t') := handle_open_locked owner o r t in
  (handle = 0 /\ t' = t) \/
  exists index, 0 <= index < KHANDLE_MAX /\
    (forall j, 0 <= j < index -> object (handles t (owner * KHANDLE_MAX + j)) <> None) /\
    object (handles t (owner * KHANDLE_MAX + index)) = None /\
    active (objects t o) = true /\ 0 < references (objects t o) < 0xFFFFFFFF /\
    let k := owner * KHANDLE_MAX + index in
    let slot := HandleSlot (Some o) r (generation (handles t k)) (closes (handles t k)) in
    handle = handle_value slot index /\
    t' = set_slot k slot (set_object o (set_references (references (objects t o) + 1) (objects t o)) t).
Proof.
  intros Hi. unfold handle_open_locked. destruct (scan_range _ _ _) as [i|] eqn:Hs; [|by left].
  apply scan_range_Some in Hs as (Hr & Hn & Hb).
  pose proof (retain_locked_spec o t Hi) as Hret. destruct (object_retain_locked o t) as [a t'].
  destruct Hret as [[-> ->]|(-> & Ha & Href & ->)]; [by left|]. right. exists i.
  split_and!; try done; try lia.
  - intros j Hj Hnone. specialize (Hb j Hj). by rewrite Hnone in Hb.
  - by destruct (object _).
Qed.

Lemma open_locked_inv owner o r t :
  inv t -> 0 <= owner < MAX_TASKS -> rights_ok r -> inv (snd (handle_open_locked owner o r t)).
Proof.
  intros Hi How Hr. pose proof (open_locked_spec owner o r t Hi) as Hs.
  destruct (handle_open_locked owner o r t) as [h t'].
  destruct Hs as [[_ ->]|(index & Hidx & _ & Hnone & Ha & Href & -> & ->)]; [done|]. cbn [snd].
  set (k := owner * KHANDLE_MAX + index) in *.
  assert (0 <= k < SLOTS) as Hk by (unfold k, SLOTS, KHANDLE_MAX, MAX_TASKS in *; lia).
  set (s := HandleSlot _ _ _ _). set (v := set_references _ _).
  apply (inv_ext (Table (upd (objects t) o v) (upd (handles t) k s) (upd (held t) o (held t o))));
    [|done|done|intros x; simpl; by rewrite upd_id].
  pose proof (iv_objects t Hi o) as [Hh Hw He Hin Hf].
  apply inv_slot; try done.
  - split; [by intros ? _|apply (iv_slots t Hi k)].
  - intros x Hx. rewrite Hnone. split; [done|]. simpl. congruence.
  - split; simpl; rewrite ?upd_eq; simpl; try done; try congruence.
    + unfold is_u32. lia.
    + rewrite (nhandles_ext o (set_slot k s t)) by done. rewrite nhandles_slot by done.
      rewrite Hnone. simpl. rewrite bool_decide_eq_true_2 by done. simpl. lia.
Qed.

Lemma clear_slot_inv k t : inv t -> inv (snd (clear_slot k t)).
Proof.
  intros Hi. unfold clear_slot. destruct (object (handles t k)) as [o|] eqn:Ho; [|done]. cbn [snd].
  pose proof (iv_slots t Hi k) as [Hso Hg]. destruct (Hso o Ho) as [Hk _].
  set (s := HandleSlot _ _ _ _).
  apply (inv_ext (Table (upd (objects t) o (objects t o)) (upd (handles t) k s) (upd (held t) o (held t o + 1))));
    [|intros x; simpl; by rewrite upd_id|done|done].
  pose proof (iv_objects t Hi o) as [Hh Hw He Hin Hf].
  apply inv_slot; try done.
  - split; [done|]. simpl. by rewrite Hg, generation_after_S.
  - intros x Hx. rewrite Ho. split; [congruence|done].
  - split; simpl; rewrite ?upd_eq; try done; [lia|].
    rewrite (nhandles_ext o (set_slot k s t)) by done. rewrite nhandles_slot by done.
    rewrite Ho, bool_decide_eq_true_2 by done. simpl. lia.
Qed.

Lemma slot_for_spec p task handle t k :
  handle_slot_for p task handle t = Some k ->
  exists index o, k = task_index p task * KHANDLE_MAX + index /\ 0 <= task_index p task < MAX_TASKS /\
    0 <= index < KHANDLE_MAX /\ Z.land handle 0xFF = index + 1 /\
    object (handles t k) = Some o /\ generation (handles t k) = Z.shiftr handle 8.
Proof.
  unfold handle_slot_for. case_if; [done|]. boolify. case_if; [done|]. boolify. intros [= <-].
  destruct (object _) as [o|] eqn:Ho; [|done].
  exists (Z.land handle 0xFF - 1), o. pose proof (task_index_range p task).
  assert (0 <= Z.land handle 0xFF) by (apply Z.land_nonneg; by right).
  split_and!; try done; lia.
Qed.

Lemma subset_rights_ok r r' :
  rights_ok r' -> r <> 0 -> Z.land r (Z.lnot r') = 0 -> rights_ok r.
Proof.
  intros [_ Ha] Hn Hs. split; [done|]. apply Z.bits_inj'. intros i Hi.
  apply (f_equal (fun z => Z.testbit z i)) in Ha, Hs.
  rewrite Z.land_spec, Z.lnot_spec, Z.bits_0 in * by done.
  destruct (Z.testbit r i), (Z.testbit r' i), (Z.testbit KRIGHT_ALL i); done.
Qed.

Lemma open_inv p task o r t : inv t -> inv (snd (handle_open p task o r t)).
Proof.
  intros Hi. unfold handle_open. destruct o as [o|]; [|done]. case_if; [done|]. boolify.
  case_if; [done|]. boolify. pose proof (task_index_range p task).
  apply open_locked_inv; [done|lia|]. by split.
Qed.

Lemma duplicate_inv p source target handle r t :
  inv t -> inv (snd (handle_duplicate p source target handle r t)).
Proof.
  intros Hi. unfold handle_duplicate. case_if; [done|]. boolify.
  destruct (handle_slot_for _ _ _ _) as [k|] eqn:Hk; [|done].
  destruct (object (handles t k)) as [o|] eqn:Ho; [|done]. case_if; [done|]. boolify.
  pose proof (task_index_range p target). apply open_locked_inv; [done|lia|].
  destruct (sk_object _ _ (iv_slots t Hi k) o Ho) as [_ Hr]. by apply (subset_rights_ok r (rights (handles t k))).
Qed.

Lemma close_inv p task handle t : inv t -> inv (snd (close_locked p task handle t)).
Proof.
  intros Hi. unfold close_locked. destruct (handle_slot_for _ _ _ _); [|done]. by apply clear_slot_inv.
Qed.

Lemma revoke_inv o t : inv t -> inv (snd (revoke_pass o t)).
Proof. intros Hi. unfold revoke_pass. destruct (scan_range _ _ _); [|done]. by apply clear_slot_inv. Qed.

Lemma object_step_inv t t' : inv t -> step t t' -> inv t'.
Proof.
  intros Hi Hs. destruct Hs as [t t' Hc|]; [|by apply open_inv].
  destruct Hc; auto using create_object_inv, retain_object_inv, drop_inv, finish_inv, close_inv,
    duplicate_inv, revoke_inv.
Qed.

Lemma object_steps_inv t t' : inv t -> rtc step t t' -> inv t'.
Proof. intros Hi Hs. induction Hs; eauto using object_step_inv. Qed.

Lemma object_init_inv : inv object_init.
Proof.
  split.
  - intros k. split; [done|]. reflexivity.
  - intros o. by split.
Qed.

Lemma object_reachable_inv t : rtc step object_init t -> inv t.
Proof. intros Hs. by apply (object_steps_inv object_init), Hs; apply object_init_inv. Qed.

(** ** Handle values *)

Lemma handle_value_parts slot index :
  1 <= generation slot <= 0xFFFFFF -> 0 <= index < KHANDLE_MAX ->
  handle_value slot index <> 0 /\ Z.land (handle_value slot index) 0xFF = index + 1 /\
  Z.shiftr (handle_value slot index) 8 = generation slot.
Proof.
  intros Hg Hi. unfold KHANDLE_MAX in Hi. unfold handle_value.
  rewrite !u32_small.
  - rewrite lor_shiftl_add by lia. change 0xFF with (Z.ones 8).
    rewrite Z.land_ones, Z.shiftr_div_pow2 by lia. change (2 ^ 8) with 256. dmlia.
  - unfold is_u32. lia.
  - unfold is_u32. rewrite Z.shiftl_mul_pow2 by lia. change (2 ^ 8) with 256. lia.
Qed.

Lemma slot_for_value p task index t :
  let k := task_index p task * KHANDLE_MAX + index in
  inv t -> 0 <= task_index p task -> 0 <= index < KHANDLE_MAX -> object (handles t k) <> None ->
  handle_slot_for p task (handle_value (handles t k) index) t = Some k.
Proof.
  intros k Hi Ho Hx Hob. pose proof (generation_after_range (closes (handles t k))) as Hr.
  rewrite <- (sk_generation _ _ (iv_slots t Hi k)) in Hr.
  destruct (handle_value_parts (handles t k) index Hr Hx) as (_ & Hl & Hg).
  unfold handle_slot_for. rewrite Hl, Hg.
  rewrite (proj2 (Z.ltb_ge _ 0)), (proj2 (nz_true _)), (proj2 (Z.ltb_ge KHANDLE_MAX _)) by lia.
  cbn [orb negb]. replace (index + 1 - 1) with index by lia. fold k.
  destruct (object (handles t k)); [|done]. by rewrite Z.eqb_refl.
Qed.

(** ** Whole calls are sequences of steps *)

Section CallLemmas.

Context `{ObjectModulesLaws}.

Lemma opens_none_trans t1 t2 t3 : opens_none t1 t2 -> opens_none t2 t3 -> opens_none t1 t3.
Proof. intros H1 H2 k o Hk. by apply H1, H2. Qed.

Lemma release_steps o t :
  inv t -> 0 < held t o ->
  rtc step t (object_release (Some o) t) /\ opens_none t (object_release (Some o) t).
Proof.
  intros Hi Hh. unfold object_release.
  pose proof (step_call _ _ (step_drop o t Hh)) as Hs.
  destruct (drop_spec o t Hi Hh) as (_ & _ & d & He). rewrite He in Hs |- *. cbn [snd] in Hs.
  destruct (decide _) as [H1|]; [|split; [by apply rtc_once|intros k x Hk; exact Hk]].
  set (t1 := set_object _ _ _) in *.
  set (t2 := if nz _ then _ else _).
  assert (rtc step t1 t2 /\ opens_none t1 t2 /\
    active (objects t2 o) = true /\ references (objects t2 o) = 0) as (Hr & Hop & Ha & Hz).
  { assert (active (objects t1 o) = true /\ references (objects t1 o) = 0) as [Ha Hz]
      by (unfold t1; simpl; rewrite upd_eq; simpl; split; [done|lia]).
    unfold t2. case_if.
    - split_and!; [apply destroy_steps|apply destroy_opens|by apply destroy_dying..].
    - split_and!; [apply rtc_refl|by intros ? ? ?|done..]. }
  split.
  - eapply rtc_l; [exact Hs|]. etrans; [exact Hr|]. by apply rtc_once, step_call, step_finish.
  - intros k x Hk. apply (Hop k x). exact Hk.
Qed.

(** A clear hands the slot's reference to the caller. *)
Lemma clear_slot_spec k t t' o :
  clear_slot k t = (Some o, t') -> inv t ->
  object (handles t k) = Some o /\ object (handles t' k) = None /\ opens_none t t' /\ 0 < held t' o /\
  nhandles o t' = nhandles o t - 1.
Proof.
  unfold clear_slot. destruct (object (handles t k)) as [x|] eqn:Ho; [|done]. intros [= -> <-] Hi.
  pose proof (ok_held _ _ (iv_objects t Hi o)). simpl. rewrite !upd_eq.
  destruct (sk_object _ _ (iv_slots t Hi k) o Ho) as [Hk _]. split_and!; try done; [|lia|].
  - intros q x. simpl. destruct (decide (q = k)) as [->|Hne]; [by rewrite upd_eq|by rewrite upd_ne].
  - set (s := HandleSlot _ _ _ _). rewrite (nhandles_ext o (set_slot k s t)) by done.
    rewrite nhandles_slot by done. rewrite Ho, bool_decide_eq_true_2 by done. simpl. lia.
Qed.

Lemma opens_none_nhandles o t t' : opens_none t t' -> nhandles o t = 0 -> nhandles o t' = 0.
Proof.
  intros Hop Hz. unfold nhandles. apply count_from_none. intros k Hk.
  apply bool_decide_eq_false_2. intros Ho. apply Hop in Ho.
  pose proof (count_from_pos (Z.to_nat SLOTS) 0 (fun k => bool_decide (object (handles t k) = Some o)) k Hk) as Hp.
  cbv beta in Hp. rewrite bool_decide_eq_true_2 in Hp by done. specialize (Hp eq_refl).
  unfold nhandles in Hz. lia.
Qed.

(** Until the last one goes, a release leaves the handles alone. *)
Lemma release_nhandles o t :
  inv t -> 0 < held t o -> nhandles o (object_release (Some o) t) = nhandles o t.
Proof.
  intros Hi Hh. pose proof (proj2 (release_steps o t Hi Hh)) as Hop.
  destruct (decide (nhandles o t = 0)) as [Hz|Hz].
  - rewrite Hz. by apply (opens_none_nhandles o t).
  - unfold object_release. destruct (drop_spec o t Hi Hh) as (_ & _ & d & ->).
    pose proof (ok_references _ _ (iv_objects t Hi o)). pose proof (nhandles_range o t).
    rewrite decide_False by lia. by apply nhandles_ext.
Qed.

Lemma revoke_loop_spec fuel o revoked t :
  inv t -> nhandles o t < Z.of_nat fuel -> 0 <= revoked -> revoked + nhandles o t < 0x100000000 ->
  exists t', revoke_loop fuel o revoked t = Some (revoked + nhandles o t, t') /\
    nhandles o t' = 0 /\ rtc step t t' /\ opens_none t t'.
Proof.
  revert revoked t. induction fuel as [|fuel IH]; intros revoked t Hi Hf Hr Hb;
    pose proof (nhandles_range o t); [lia|]. cbn [revoke_loop].
  pose proof (step_call _ _ (step_revoke o t)) as Hs. unfold revoke_pass in *.
  destruct (scan_range _ _ _) as [k|] eqn:Hk.
  - apply scan_range_Some in Hk as (_ & Ho & _). apply bool_decide_eq_true in Ho.
    destruct (clear_slot k t) as [x t1] eqn:Hc.
    assert (x = Some o) as -> by (unfold clear_slot in Hc; rewrite Ho in Hc; congruence).
    destruct (clear_slot_spec k t t1 o Hc Hi) as (_ & _ & Hop & Hh & Hn). cbn [snd] in Hs.
    pose proof (object_step_inv _ _ Hi Hs) as Hi1.
    destruct (release_steps o t1 Hi1 Hh) as [Hrs Hop1].
    pose proof (release_nhandles o t1 Hi1 Hh) as Hn1. pose proof (nhandles_range o t1).
    rewrite u32_small by (unfold is_u32; lia).
    destruct (IH (revoked + 1) (object_release (Some o) t1)) as (t' & He & Hz & Hst & Hop2);
      [by eapply object_steps_inv|lia..|].
    exists t'. rewrite He. split_and!; [f_equal; f_equal; lia|done| |].
    + eapply rtc_l; [exact Hs|]. by etrans.
    + eapply opens_none_trans; [exact Hop|]. by eapply opens_none_trans.
  - exists t. assert (nhandles o t = 0) as Hz.
    { apply count_from_none. intros k Hx. apply (proj1 (scan_range_None _ _ _) Hk).
      unfold SLOTS, MAX_TASKS, KHANDLE_MAX in *. lia. }
    rewrite Hz, Z.add_0_r. split_and!; [done|done|apply rtc_refl|by intros ? ? ?].
Qed.

Lemma close_steps p task handle t :
  inv t -> rtc step t (snd (handle_close p task handle t)) /\
  opens_none t (snd (handle_close p task handle t)) /\
  (forall k, handle_slot_for p task handle t = Some k ->
     fst (handle_close p task handle t) = 0 /\
     object (handles (snd (handle_close p task handle t)) k) = None).
Proof.
  intros Hi. unfold handle_close.
  pose proof (step_call _ _ (step_close p task handle t)) as Hs. unfold close_locked in *.
  destruct (handle_slot_for p task handle t) as [k|] eqn:Hk; [|split_and!; [apply rtc_refl|by intros ? ? ?|done]].
  destruct (slot_for_spec _ _ _ _ _ Hk) as (index & o & _ & _ & _ & _ & Ho & _).
  destruct (clear_slot k t) as [x t1] eqn:Hc.
  assert (x = Some o) as -> by (unfold clear_slot in Hc; rewrite Ho in Hc; congruence).
  destruct (clear_slot_spec k t t1 o Hc Hi) as (_ & He & Hop & Hh & _). cbn [snd fst] in *.
  pose proof (object_step_inv _ _ Hi Hs) as Hi1. destruct (release_steps o t1 Hi1 Hh) as [Hrs Hop1].
  split_and!.
  - by eapply rtc_l.
  - by eapply opens_none_trans.
  - intros k' [= <-]. split; [done|].
    destruct (object (handles (object_release (Some o) t1) k)) as [y|] eqn:Hy; [|done].
    apply Hop1 in Hy. congruence.
Qed.

Lemma close_all_spec p task t :
  inv t -> rtc step t (handle_close_all p task t) /\ opens_none t (handle_close_all p task t) /\
  (0 <= task_index p task -> forall index, 0 <= index < KHANDLE_MAX ->
     object (handles (handle_close_all p task t) (task_index p task * KHANDLE_MAX + index)) = None).
Proof.
  intros Hi. unfold handle_close_all. case_if; boolify;
    [split_and!; [apply rtc_refl|by intros ? ? ?|lia]|].
  match goal with |- context [for_range _ _ ?b _] => set (body := b) end.
  pose proof (for_range_ind (fun i t' => rtc step t t' /\ opens_none t t' /\
    forall index, 0 <= index < i ->
      object (handles t' (task_index p task * KHANDLE_MAX + index)) = None) 0 KHANDLE_MAX body t) as Hind.
  destruct Hind as (H1 & H2 & H3).
  - split_and!; [apply rtc_refl|by intros ? ? ?|lia].
  - intros i t' Hr (Hst & Hop & He). unfold body.
    pose proof (object_steps_inv t t' Hi Hst) as Hi'.
    destruct (object (handles t' _)) as [o|] eqn:Ho; cbn [is_some negb].
    + pose proof (slot_for_value p task i t' Hi' Hif Hr) as Hv. cbv zeta in Hv.
      specialize (Hv ltac:(by rewrite Ho)).
      destruct (close_steps p task (handle_value (handles t' (task_index p task * KHANDLE_MAX + i)) i) t' Hi') as (Hs' & Hop' & Hc). destruct (Hc _ Hv) as [_ Hn].
      split_and!; [by etrans|by eapply opens_none_trans|].
      intros index Hx. destruct (decide (index = i)) as [->|Hne]; [exact Hn|].
      match goal with |- ?x = None => destruct x as [y|] eqn:Hy; [|done] end. apply Hop' in Hy.
      rewrite He in Hy by lia. done.
    + split_and!; [done|done|]. intros index Hx. destruct (decide (index = i)) as [->|Hne]; [done|].
      apply He. lia.
  - split_and!; done.
Qed.

End CallLemmas.

(** ** Properties *)

Definition subset (a b : Z) : Prop := Z.land a (Z.lnot b) = 0.

Lemma get_spec p task handle rr rt t o :
  handle_get p task handle rr rt t = Some o ->
  exists k, handle_slot_for p task handle t = Some k /\ object (handles t k) = Some o /\
    subset rr (rights (handles t k)) /\ (rt <> KOBJECT_NONE -> type (objects t o) = rt).
Proof.
  unfold handle_get. destruct (handle_slot_for _ _ _ _) as [k|]; [|done].
  destruct (object (handles t k)) as [x|] eqn:Hx; [|done]. case_if; [done|]. intros [= ->].
  apply orb_false_iff in Hif as [H1 H2]. apply nz_false in H1. exists k. split_and!; try done.
  intros Hrt. destruct (Z.eqb_spec rt KOBJECT_NONE); [done|]. simpl in H2. boolify. done.
Qed.

Lemma handle_names_active k o t :
  inv t -> object (handles t k) = Some o ->
  object_in o /\ active (objects t o) = true /\ 0 < references (objects t o).
Proof.
  intros Hi Hk. destruct (sk_object _ _ (iv_slots t Hi k) o Hk) as [Hr _].
  destruct (iv_objects t Hi o) as [Hh Hw He Ha Hf].
  assert (0 < nhandles o t) as Hn.
  { apply (count_from_pos _ 0 _ k); [unfold SLOTS, MAX_TASKS, KHANDLE_MAX in *; lia|].
    by apply bool_decide_eq_true_2. }
  assert (active (objects t o) = true) as Hac by (destruct (active (objects t o)); [done|lia]).
  split_and!; [by apply Ha|done|lia].
Qed.

(** A small instance: callbacks and descriptors touch nothing. *)
#[local] Instance no_object_modules : ObjectModules := {
  run_destroy _ _ t := t;
  posix_fd_revoke_object _ t := t
}.

#[local] Instance no_object_modules_laws : ObjectModulesLaws.
Proof.
  split; intros; simpl; try apply rtc_refl; try done; intros k o' Hk; exact Hk.
Qed.

Definition example_tasks : pool := Pool (fun _ _ => 0) 2.

(** Task 0 holds a read and transfer handle on object 0. *)
Definition example_opened : table :=
  snd (handle_open example_tasks (Some 0) (Some 0) 0x41 (snd (object_create 1 7 0 object_init))).

Definition example_handle : Z := 0x101.

Lemma example_opened_reachable : rtc step object_init example_opened.
Proof.
  eapply rtc_l; [apply step_call, (step_create 1 7 0)|].
  eapply rtc_l; [apply (step_open example_tasks (Some 0) (Some 0) 0x41)|]. apply rtc_refl.
Qed.

(** C4: In every interleaving of the object calls the reference count of an
    object is the number of handles that name it plus the references kernel
    code holds; so whatever [handle_get] answers is a live object, of the type
    asked for, reached through a slot whose rights cover the request. *)
Theorem handle_get_live p task handle rr rt t o :
  rtc step object_init t ->
  (forall x, references (objects t x) = held t x + nhandles x t) /\
  (handle_get p task handle rr rt t = Some o ->
   object_in o /\ active (objects t o) = true /\ 0 < references (objects t o) /\
   (rt <> KOBJECT_NONE -> type (objects t o) = rt) /\
   exists k, handle_slot_for p task handle t = Some k /\ object (handles t k) = Some o /\
     subset rr (rights (handles t k))).
Proof.
  intros Hs. pose proof (object_reachable_inv t Hs) as Hi. split.
  - intros x. apply (ok_references _ _ (iv_objects t Hi x)).
  - intros Hg. destruct (get_spec _ _ _ _ _ _ _ Hg) as (k & Hk & Ho & Hr & Ht).
    destruct (handle_names_active k o t Hi Ho) as (? & ? & ?). eauto 10.
Qed.

Lemma handle_get_live_witness :
  handle_get example_tasks (Some 0) example_handle 1 1 example_opened = Some 0 /\
  0 < references (objects example_opened 0).
Proof.
  assert (handle_get example_tasks (Some 0) example_handle 1 1 example_opened = Some 0) as Hg
    by (vm_compute; reflexivity).
  split; [exact Hg|].
  apply (proj2 (handle_get_live example_tasks (Some 0) example_handle 1 1 example_opened 0
    example_opened_reachable) Hg).
Defined.

(** A handle answers null once its slot has been closed, whoever uses the
    slot next, until the 24-bit generation has gone round. *)
Theorem handle_stale p p' task handle rr rt t t' k :
  rtc step object_init t -> rtc step t t' -> handle_slot_for p task handle t = Some k ->
  (closes (handles t k) < closes (handles t' k))%nat ->
  Z.of_nat (closes (handles t' k)) < Z.of_nat (closes (handles t k)) + 0xFFFFFF ->
  handle_get p' task handle rr rt t' = None.
Proof.
  intros Hs Hst Hk Hlt Hb. pose proof (object_reachable_inv t Hs) as Hi.
  pose proof (object_steps_inv t t' Hi Hst) as Hi'.
  destruct (handle_get p' task handle rr rt t') as [o|] eqn:Hg; [|done]. exfalso.
  destruct (get_spec _ _ _ _ _ _ _ Hg) as (k' & Hk' & _).
  destruct (slot_for_spec _ _ _ _ _ Hk) as (i & o1 & Ek & Hr & Hx & Hl & _ & Hgen).
  destruct (slot_for_spec _ _ _ _ _ Hk') as (i' & o2 & Ek' & Hr' & Hx' & Hl' & _ & Hgen').
  assert (task_index p task = task_index p' task) as Ht.
  { destruct task as [z|]; [|done]. simpl in Hr, Hr' |- *. repeat case_if; lia. }
  assert (k' = k) as -> by (rewrite Ek, Ek', Ht; lia).
  rewrite (sk_generation _ _ (iv_slots t Hi k)) in Hgen.
  rewrite (sk_generation _ _ (iv_slots t' Hi' k)) in Hgen'.
  rewrite <- Hgen' in Hgen. unfold generation_after in Hgen. dmlia.
Qed.

Definition example_reused : table :=
  snd (handle_open example_tasks (Some 0) (Some 0) 0x7F
    (snd (close_locked example_tasks (Some 0) example_handle example_opened))).

Lemma handle_stale_witness :
  object (handles example_reused 0) = Some 0 /\
  handle_get example_tasks (Some 0) example_handle 1 0 example_reused = None.
Proof.
  split; [vm_compute; reflexivity|].
  apply (handle_stale example_tasks example_tasks (Some 0) example_handle 1 0 example_opened example_reused 0).
  - exact example_opened_reachable.
  - eapply rtc_l; [apply step_call, (step_close example_tasks (Some 0) example_handle)|].
    eapply rtc_l; [apply (step_open example_tasks (Some 0) (Some 0) 0x7F)|]. apply rtc_refl.
  - vm_compute. reflexivity.
  - vm_compute. lia.
  - vm_compute. reflexivity.
Defined.

(** Any step but a [handle_open] of [o] itself. *)
Inductive quiet (o : Z) : table -> table -> Prop :=
  | quiet_call t t' : call_step t t' -> quiet o t t'
  | quiet_open p task x r t : x <> Some o -> quiet o t (snd (handle_open p task x r t)).

(** Where the rights of a slot on [o] come from. *)
Definition derived (o k : Z) (t t' : table) : Prop :=
  exists k0, object (handles t k0) = Some o /\ subset (rights (handles t' k)) (rights (handles t k0)) /\
    (k0 = k \/ Z.land (rights (handles t k0)) KRIGHT_TRANSFER <> 0).

Lemma subset_rights_refl r : subset r r.
Proof. apply Z.land_lnot_diag. Qed.

Lemma subset_rights_trans a b c : subset a b -> subset b c -> subset a c.
Proof.
  intros H1 H2. apply Z.bits_inj'. intros i Hi.
  apply (f_equal (fun z => Z.testbit z i)) in H1, H2.
  rewrite !Z.land_spec, !Z.lnot_spec, !Z.bits_0 in * by done.
  destruct (Z.testbit a i), (Z.testbit b i), (Z.testbit c i); done.
Qed.

Lemma subset_land a b m : subset a b -> Z.land a m <> 0 -> Z.land b m <> 0.
Proof.
  intros Hs Ha Hb. apply Ha. apply Z.bits_inj'. intros i Hi.
  apply (f_equal (fun z => Z.testbit z i)) in Hs, Hb.
  rewrite !Z.land_spec, !Z.lnot_spec, !Z.bits_0 in * by done.
  destruct (Z.testbit a i), (Z.testbit b i), (Z.testbit m i); done.
Qed.

Lemma derived_same o k t t' :
  object (handles t' k) = Some o -> handles t' k = handles t k -> derived o k t t'.
Proof.
  intros Ho He. exists k. rewrite <- He. split_and!; [done|apply subset_rights_refl|by left].
Qed.

Lemma open_locked_slots owner x r t k :
  inv t -> let t' := snd (handle_open_locked owner x r t) in
  handles t' k = handles t k \/ (object (handles t' k) = Some x /\ rights (handles t' k) = r).
Proof.
  intros Hi. pose proof (open_locked_spec owner x r t Hi) as Hs.
  destruct (handle_open_locked owner x r t) as [h t'].
  destruct Hs as [[_ ->]|(i & _ & _ & _ & _ & _ & _ & ->)]; [by left|]. simpl.
  destruct (decide (k = owner * KHANDLE_MAX + i)) as [->|Hne]; [right; by rewrite upd_eq|left; by rewrite upd_ne].
Qed.

Lemma clear_slot_slots k0 t k :
  let t' := snd (clear_slot k0 t) in handles t' k = handles t k \/ object (handles t' k) = None.
Proof.
  unfold clear_slot. destruct (object (handles t k0)); [|by left]. simpl.
  destruct (decide (k = k0)) as [->|Hne]; [right; by rewrite upd_eq|left; by rewrite upd_ne].
Qed.

Lemma quiet_derived o t t' k :
  inv t -> quiet o t t' -> object (handles t' k) = Some o -> derived o k t t'.
Proof.
  intros Hi Hq Ho.
  assert (handles t' k = handles t k \/ object (handles t' k) = None -> derived o k t t') as Hsame
    by (intros [?|?]; [by apply derived_same|congruence]).
  destruct Hq as [t t' Hc|p task x r t Hx].
  - destruct Hc as [ty v d t|x t|x t Hh|x t _ _|p task handle t|p source target handle r t|x t].
    + apply Hsame. left. unfold object_create. case_if; [done|]. by destruct (scan_range _ _ _).
    + apply Hsame. left. destruct x as [x|]; [|done]. unfold object_retain, object_retain_locked.
      case_if; done.
    + apply Hsame. left. unfold release_drop. case_if; [done|]. by case_if.
    + by apply Hsame; left.
    + apply Hsame. unfold close_locked. destruct (handle_slot_for _ _ _ _) as [k0|]; [|by left].
      apply clear_slot_slots.
    + revert Ho Hsame. unfold handle_duplicate. case_if; [intros _ Hs; apply Hs; by left|].
      destruct (handle_slot_for _ _ _ _) as [k0|]; [|intros _ Hs; apply Hs; by left].
      destruct (object (handles t k0)) as [x|] eqn:Hx; [|intros _ Hs; apply Hs; by left].
      case_if; [intros _ Hs; apply Hs; by left|]. boolify. intros Ho Hsame.
      destruct (open_locked_slots (task_index p target) x r t k Hi) as [He|[He Hr]]; [by apply Hsame; left|].
      exists k0. rewrite Hr. split_and!; [congruence|done|by right].
    + apply Hsame. unfold revoke_pass. destruct (scan_range _ _ _); [|by left]. apply clear_slot_slots.
  - apply Hsame. left. revert Ho. unfold handle_open. destruct x as [x|]; [|done]. case_if; [done|]. case_if; [done|].
    destruct (open_locked_slots (task_index p task) x r t k Hi) as [He|[He Hr]]; [done|]. congruence.
Qed.

Lemma quiet_step o t t' : quiet o t t' -> step t t'.
Proof. intros [? ? Hc|]; [by apply step_call|apply step_open]. Qed.

(** C31: Authority is confined: as long as the kernel opens no new handle on
    an object, every handle on it carries a subset of the rights of a handle
    that existed before, and if that is another slot it had the transfer
    right. *)
Theorem handle_authority_confined o t t' k :
  rtc step object_init t -> rtc (quiet o) t t' -> object (handles t' k) = Some o -> derived o k t t'.
Proof.
  intros Hs Hq. pose proof (object_reachable_inv t Hs) as Hi. clear Hs. revert k.
  induction Hq as [t|t t1 t' H1 _ IH]; intros k Ho; [by apply derived_same|].
  destruct (IH (object_step_inv _ _ Hi (quiet_step _ _ _ H1)) k Ho) as (k1 & Ho1 & Hs1 & Hk1).
  destruct (quiet_derived o t t1 k1 Hi H1 Ho1) as (k0 & Ho0 & Hs0 & Hk0).
  exists k0. split_and!; [done|by eapply subset_rights_trans|].
  destruct Hk0 as [->|Ht]; [|by right]. destruct Hk1 as [->|Ht]; [by left|].
  right. by eapply subset_land.
Qed.

(** Task 0 delegates its read right to task 1. *)
Definition example_delegated : table :=
  snd (handle_duplicate example_tasks (Some 0) (Some 1) example_handle 1 example_opened).

Lemma handle_authority_confined_witness :
  object (handles example_delegated 32) = Some 0 /\ derived 0 32 example_opened example_delegated.
Proof.
  assert (object (handles example_delegated 32) = Some 0) as Ho by (vm_compute; reflexivity).
  split; [exact Ho|]. apply (handle_authority_confined 0 example_opened example_delegated 32).
  - exact example_opened_reachable.
  - eapply rtc_l; [apply quiet_call, (step_duplicate example_tasks (Some 0) (Some 1) example_handle 1)|].
    apply rtc_refl.
  - exact Ho.
Defined.

(** C32: [handle_revoke_object] ends within one pass more than there are slots,
    leaves no handle on the object in any task, whether or not its last
    reference went on the way, and answers how many it closed;
    [handle_close_all] empties a task's table.  Neither opens a handle. *)
Theorem handle_revocation_complete `{ObjectModulesLaws} p task o t :
  rtc step object_init t -> active (objects t o) = true ->
  (exists t', handle_revoke_object (S (Z.to_nat SLOTS)) (Some o) t =
      Some (nhandles o (posix_fd_revoke_object o t), t') /\
    nhandles o t' = 0 /\ rtc step t t' /\ opens_none t t') /\
  (rtc step t (handle_close_all p task t) /\ opens_none t (handle_close_all p task t) /\
   handle_task_count p task (handle_close_all p task t) = 0).
Proof.
  intros Hs Ha. pose proof (object_reachable_inv t Hs) as Hi. split.
  - unfold handle_revoke_object. rewrite Ha. cbn [negb].
    pose proof (object_steps_inv t (posix_fd_revoke_object o t) Hi (fd_revoke_steps o t)) as Hi1.
    pose proof (nhandles_range o (posix_fd_revoke_object o t)).
    destruct (revoke_loop_spec (S (Z.to_nat SLOTS)) o 0 (posix_fd_revoke_object o t) Hi1) as (t' & He & Hz & Hr & Hop);
      [unfold SLOTS, MAX_TASKS, KHANDLE_MAX in *; lia..|].
    exists t'. split_and!; [exact He|done| |].
    + etrans; [apply fd_revoke_steps|done].
    + eapply opens_none_trans; [apply fd_revoke_opens|done].
  - destruct (close_all_spec p task t Hi) as (Hst & Hop & He). split_and!; [done|done|].
    unfold handle_task_count. case_if; [done|]. boolify. apply count_from_none. intros k Hk.
    replace k with (task_index p task * KHANDLE_MAX + (k - task_index p task * KHANDLE_MAX)) by lia.
    rewrite He; [done|lia|unfold KHANDLE_MAX in *; lia].
Qed.

Lemma handle_revocation_complete_witness :
  nhandles 0 example_delegated = 2 /\
  exists t', handle_revoke_object (S (Z.to_nat SLOTS)) (Some 0) example_delegated = Some (2, t') /\
    nhandles 0 t' = 0.
Proof.
  assert (nhandles 0 example_delegated = 2) as Hn by (vm_compute; reflexivity). split; [exact Hn|].
  destruct (handle_revocation_complete example_tasks (Some 0) 0 example_delegated) as [(t' & He & Hz & _) _].
  - etrans; [exact example_opened_reachable|].
    eapply rtc_l; [apply step_call, (step_duplicate example_tasks (Some 0) (Some 1) example_handle 1)|].
    apply rtc_refl.
  - vm_compute. reflexivity.
  - exists t'. split; [|exact Hz]. rewrite He. simpl posix_fd_revoke_object. rewrite Hn. reflexivity.
Defined.

End Object.
