(* ===== verification/BlockCache.v ===== *)
(** The block cache: [src/block/cache.c].

    Sixteen pages of eight sectors in front of the block devices.  The block
    layer that the cache calls ([src/block/block.c]) is the interface
    [BlockLayer]; its laws say what a completed and a failed transfer do to
    the medium.  Every offset of the code is a multiple of the sector size, so
    a page and a caller's buffer, which is not null, are sequences of sectors. *)

From S2P Require Import Prelude.

Module BlockCache.

Definition BLOCK_CACHE_MAX : Z := 16.

Definition BLOCK_CACHE_SECTORS : Z := 8.

Definition BLOCK_SECTOR_SIZE : Z := 512.

Definition CACHE_EMPTY : Z := 0.

Definition CACHE_CLEAN : Z := 1.

Definition CACHE_DIRTY : Z := 2.

(** The content of one sector. *)
Definition sector_data : Type := list Z.

Record cache_entry := CacheEntry {
  device : option Z;
  device_id : Z;
  lba : Z;
  sectors : Z;
  state : Z;
  data : Z -> sector_data
}.

(** [device_value] is the [value] field of a device object; [block_info]
    answers the sector count; a transfer answers whether it failed. *)
Class BlockLayer (D : Type) := {
  device_value : Z -> Z;
  block_info : Z -> D -> option Z;
  block_read : Z -> Z -> D -> option sector_data * D;
  block_write : Z -> Z -> sector_data -> D -> bool * D
}.

(** The media behind the layer: what each sector holds and how many there
    are.  A failed write may leave anything in the sector it was aimed at. *)
Class BlockLayerLaws (D : Type) `{BlockLayer D} := {
  sector : D -> Z -> Z -> sector_data;
  capacity : D -> Z -> Z;
  capacity_range d id : is_u32 (capacity d id);
  device_value_range dev : is_u32 (device_value dev);
  block_info_capacity dev d n : block_info dev d = Some n -> n = capacity d (device_value dev);
  block_read_keeps dev x d id y :
    sector (snd (block_read dev x d)) id y = sector d id y /\
    capacity (snd (block_read dev x d)) id = capacity d id;
  block_read_data dev x d v :
    fst (block_read dev x d) = Some v -> v = sector d (device_value dev) x;
  block_write_keeps dev x v d id y :
    (id <> device_value dev \/ y <> x) -> sector (snd (block_write dev x v d)) id y = sector d id y;
  block_write_capacity dev x v d id : capacity (snd (block_write dev x v d)) id = capacity d id;
  block_write_data dev x v d :
    fst (block_write dev x v d) = false ->
    sector (snd (block_write dev x v d)) (device_value dev) x = v
}.

Section Cache.

Context {D : Type} `{BlockLayer D}.

Record world := World {
  entries : Z -> cache_entry;
  clock : Z;
  disk : D
}.

Definition set_entry (i : Z) (e : cache_entry) (w : world) : world :=
  World (upd (entries w) i e) (clock w) (disk w).

Definition set_clock (c : Z) (w : world) : world := World (entries w) c (disk w).

Definition set_disk (d : D) (w : world) : world := World (entries w) (clock w) d.

Definition set_state (s : Z) (e : cache_entry) : cache_entry :=
  CacheEntry (device e) (device_id e) (lba e) (sectors e) s (data e).

Definition set_device (dev : option Z) (e : cache_entry) : cache_entry :=
  CacheEntry dev (device_id e) (lba e) (sectors e) (state e) (data e).

Definition set_data (f : Z -> sector_data) (e : cache_entry) : cache_entry :=
  CacheEntry (device e) (device_id e) (lba e) (sectors e) (state e) f.

Definition page_lba (x : Z) : Z := u32 (x - x mod BLOCK_CACHE_SECTORS).

Definition lookup (id x : Z) (w : world) : option Z :=
  let page := page_lba x in
  scan_range 0 BLOCK_CACHE_MAX (fun i =>
    negb (state (entries w i) =? CACHE_EMPTY) && (device_id (entries w i) =? id) &&
    (lba (entries w i) =? page)).

(** The loop of [writeback] from sector [s]: [false] when a transfer failed. *)
Fixpoint writeback_sectors (n : nat) (s dev : Z) (e : cache_entry) (d : D) : bool * D :=
  match n with
  | O => (true, d)
  | S n =>
      let '(failed, d) := block_write dev (u32 (lba e + s)) (data e s) d in
      if failed then (false, d) else writeback_sectors n (s + 1) dev e d
  end.

Definition writeback (i : Z) (w : world) : Z * world :=
  let e := entries w i in
  if negb (state e =? CACHE_DIRTY) then (0, w) else
  match device e with
  | None => (-1, w)
  | Some dev =>
      let '(ok, d) := writeback_sectors (Z.to_nat (sectors e)) 0 dev e (disk w) in
      if ok then (0, set_entry i (set_state CACHE_CLEAN e) (set_disk d w)) else (-1, set_disk d w)
  end.

Definition emptied (e : cache_entry) : cache_entry := set_device None (set_state CACHE_EMPTY e).

(** The clock hand, at most [n] more entries. *)
Fixpoint evict_loop (n : nat) (w : world) : option Z * world :=
  match n with
  | O => (None, w)
  | S n =>
      let i := clock w in
      let w := set_clock (if BLOCK_CACHE_MAX <=? clock w + 1 then 0 else clock w + 1) w in
      let e := entries w i in
      if state e =? CACHE_EMPTY then (Some i, w) else
      if state e =? CACHE_CLEAN then (Some i, set_entry i (emptied e) w) else
      if state e =? CACHE_DIRTY then
        let '(r, w) := writeback i w in
        if r =? 0 then (Some i, set_entry i (emptied (entries w i)) w) else evict_loop n w
      else evict_loop n w
  end.

Definition evict (w : world) : option Z * world := evict_loop (Z.to_nat (BLOCK_CACHE_MAX * 2)) w.

(** The read loop of [fill] into the page buffer. *)
Fixpoint read_sectors (n : nat) (s dev page : Z) (f : Z -> sector_data) (d : D) :
    bool * (Z -> sector_data) * D :=
  match n with
  | O => (true, f, d)
  | S n =>
      let '(r, d) := block_read dev (u32 (page + s)) d in
      match r with
      | None => (false, f, d)
      | Some v => read_sectors n (s + 1) dev page (upd f s v) d
      end
  end.

Definition zero_sector : sector_data := replicate 512 0.

Definition fill (dev x : Z) (w : world) : option Z * world :=
  let id := device_value dev in
  let page := page_lba x in
  match lookup id page w with
  | Some i => (Some i, set_entry i (set_device (Some dev) (entries w i)) w)
  | None =>
      match evict w with
      | (None, w) => (None, w)
      | (Some i, w) =>
          match block_info dev (disk w) with
          | None => (None, w)
          | Some sector_count =>
              if sector_count <=? page then (None, w) else
              let n := if sector_count - page <? BLOCK_CACHE_SECTORS
                       then sector_count - page else BLOCK_CACHE_SECTORS in
              let '(ok, f, d) := read_sectors (Z.to_nat n) 0 dev page (fun _ => zero_sector) (disk w) in
              let w := set_disk d w in
              if ok then (Some i, set_entry i (CacheEntry (Some dev) id page n CACHE_CLEAN f) w)
              else (None, set_entry i (set_data f (entries w i)) w)
          end
      end
  end.

Definition block_cache_init (w : world) : world :=
  World (fun i => CacheEntry None 0 0 0 CACHE_EMPTY (data (entries w i))) 0 (disk w).

(** [n] sectors copied from [src] at [from] to [dst] at [to]. *)
Definition copy_sectors (dst : Z -> sector_data) (to : Z) (src : Z -> sector_data) (from n : Z) :
    Z -> sector_data :=
  fun j => if (to <=? j) && (j <? to + n) then src (from + (j - to)) else dst j.

(** How many sectors of the entry the next round moves. *)
Definition chunk (off total done : Z) : Z :=
  let n := u32 (BLOCK_CACHE_SECTORS - off) in
  if u32 (total - done) <? n then u32 (total - done) else n.

(** The sector of the caller's buffer that a round starts at: the byte offset
    [done * BLOCK_SECTOR_SIZE] wraps at 32 bits. *)
Definition buffer_sector (done : Z) : Z := u32 (done * BLOCK_SECTOR_SIZE) / BLOCK_SECTOR_SIZE.

(** The [while] loops; [None] when the fuel ran out. *)
Fixpoint read_loop (fuel : nat) (dev x total done : Z) (buffer : Z -> sector_data) (w : world) :
    option (Z * (Z -> sector_data) * world) :=
  if negb (done <? total) then Some (0, buffer, w) else
  match fuel with
  | O => None
  | S fuel =>
      match fill dev (u32 (x + done)) w with
      | (None, w) => Some (-1, buffer, w)
      | (Some i, w) =>
          let off := u32 (u32 (x + done) - lba (entries w i)) in
          let n := chunk off total done in
          read_loop fuel dev x total (u32 (done + n))
            (copy_sectors buffer (buffer_sector done) (data (entries w i)) off n) w
      end
  end.

Definition block_cache_read (dev : option Z) (x : Z) (buffer : Z -> sector_data) (total : Z) (w : world) :
    option (Z * (Z -> sector_data) * world) :=
  match dev with
  | None => Some (-1, buffer, w)
  | Some dev =>
      if negb (nz total) then Some (-1, buffer, w)
      else read_loop (Z.to_nat total) dev x total 0 buffer w
  end.

Fixpoint write_loop (fuel : nat) (dev x total done : Z) (buffer : Z -> sector_data) (w : world) :
    option (Z * world) :=
  if negb (done <? total) then Some (0, w) else
  match fuel with
  | O => None
  | S fuel =>
      match fill dev (u32 (x + done)) w with
      | (None, w) => Some (-1, w)
      | (Some i, w) =>
          let e := entries w i in
          let off := u32 (u32 (x + done) - lba e) in
          let n := chunk off total done in
          write_loop fuel dev x total (u32 (done + n)) buffer
            (set_entry i (set_state CACHE_DIRTY (set_data (copy_sectors (data e) off buffer (buffer_sector done) n) e)) w)
      end
  end.

Definition block_cache_write (dev : option Z) (x : Z) (buffer : Z -> sector_data) (total : Z) (w : world) :
    option (Z * world) :=
  match dev with
  | None => Some (-1, w)
  | Some dev =>
      if negb (nz total) then Some (-1, w)
      else write_loop (Z.to_nat total) dev x total 0 buffer w
  end.

Fixpoint flush_loop (n : nat) (i dev : Z) (w : world) : Z * world :=
  match n with
  | O => (0, w)
  | S n =>
      if negb (device_id (entries w i) =? device_value dev) then flush_loop n (i + 1) dev w else
      let '(r, w) := writeback i (set_entry i (set_device (Some dev) (entries w i)) w) in
      if nz r then (-1, w) else flush_loop n (i + 1) dev w
  end.

Definition block_cache_flush (dev : option Z) (w : world) : Z * world :=
  match dev with
  | None => (-1, w)
  | Some dev => flush_loop (Z.to_nat BLOCK_CACHE_MAX) 0 dev w
  end.

Definition dropped (e : cache_entry) : cache_entry := CacheEntry None 0 0 0 CACHE_EMPTY (data e).

Definition block_cache_drop_device (id : Z) (w : world) : world :=
  for_range 0 BLOCK_CACHE_MAX (fun i w =>
    if negb (device_id (entries w i) =? id) then w else set_entry i (dropped (entries w i)) w) w.

(** The inner loop of [block_cache_invalidate]. *)
Definition invalidate_page (id page : Z) (w : world) : world :=
  for_range 0 BLOCK_CACHE_MAX (fun i w =>
    let e := entries w i in
    if (state e =? CACHE_EMPTY) || negb (device_id e =? id) then w else
    if negb (lba e =? page) then w else set_entry i (dropped e) w) w.

(** The outer loop; [None] when the fuel ran out. *)
Fixpoint invalidate_loop (fuel : nat) (id page last : Z) (w : world) : option world :=
  if negb (page <=? last) then Some w else
  match fuel with
  | O => None
  | S fuel => invalidate_loop fuel id (u32 (page + BLOCK_CACHE_SECTORS)) last (invalidate_page id page w)
  end.

Definition block_cache_invalidate (fuel : nat) (dev : option Z) (x total : Z) (w : world) : option world :=
  match dev with
  | None => Some w
  | Some dev =>
      if negb (nz total) then Some w
      else invalidate_loop fuel (device_value dev) (page_lba x) (page_lba (u32 (x + total - 1))) w
  end.

Definition block_cache_dirty_count (w : world) : Z :=
  count_from (Z.to_nat BLOCK_CACHE_MAX) 0 (fun i => state (entries w i) =? CACHE_DIRTY).

End Cache.

Arguments world : clear implicits.

(** ** The disk that callers see *)

Section View.

Context {D : Type} `{BlockLayerLaws D}.

Definition index_in (i : Z) : Prop := 0 <= i < BLOCK_CACHE_MAX.

(** Entry [i] caches the page of sector [x] of device [id]. *)
Definition caches (w : world D) (i id x : Z) : Prop :=
  index_in i /\ state (entries w i) <> CACHE_EMPTY /\ device_id (entries w i) = id /\
  lba (entries w i) = page_lba x.

Definition view (w : world D) (id x : Z) : sector_data :=
  match lookup id x w with
  | Some i => data (entries w i) (x - page_lba x)
  | None => sector (disk w) id x
  end.

Record entry_ok (e : cache_entry) (d : D) : Prop := {
  eo_state : state e = CACHE_CLEAN \/ state e = CACHE_DIRTY;
  eo_aligned : lba e mod BLOCK_CACHE_SECTORS = 0;
  eo_lba : 0 <= lba e < capacity d (device_id e);
  eo_sectors : sectors e = Z.min BLOCK_CACHE_SECTORS (capacity d (device_id e) - lba e);
  eo_device : exists dev, device e = Some dev /\ device_value dev = device_id e;
  eo_clean : state e = CACHE_CLEAN ->
    forall s, 0 <= s < sectors e -> data e s = sector d (device_id e) (lba e + s)
}.

Record inv (w : world D) : Prop := {
  iv_clock : index_in (clock w);
  iv_entry : forall i, index_in i -> state (entries w i) <> CACHE_EMPTY -> entry_ok (entries w i) (disk w);
  iv_unique : forall i j, index_in i -> index_in j -> state (entries w i) <> CACHE_EMPTY ->
    state (entries w j) <> CACHE_EMPTY -> device_id (entries w i) = device_id (entries w j) ->
    lba (entries w i) = lba (entries w j) -> i = j
}.

(** Same sizes, and on every sector of a device the same content. *)
Record same_view (w w' : world D) : Prop := {
  sv_capacity : forall id, capacity (disk w') id = capacity (disk w) id;
  sv_view : forall id x, 0 <= x < capacity (disk w) id -> view w' id x = view w id x
}.

Lemma same_view_refl w : same_view w w.
Proof. by split. Qed.

Lemma same_view_trans w1 w2 w3 : same_view w1 w2 -> same_view w2 w3 -> same_view w1 w3.
Proof.
  intros [Hc1 Hv1] [Hc2 Hv2]. split.
  - intros id. by rewrite Hc2.
  - intros id x Hx. rewrite Hv2 by (by rewrite Hc1). by apply Hv1.
Qed.

Lemma page_lba_value x : is_u32 x -> page_lba x = x - x mod BLOCK_CACHE_SECTORS.
Proof. intros Hx. unfold page_lba, BLOCK_CACHE_SECTORS in *. words. Qed.

Lemma page_lba_page x : is_u32 x -> page_lba (page_lba x) = page_lba x.
Proof.
  intros Hx. rewrite (page_lba_value x Hx). unfold page_lba, BLOCK_CACHE_SECTORS in *. words.
Qed.

Lemma lookup_caches id x w i : lookup id x w = Some i -> caches w i id x.
Proof.
  unfold lookup. intros Hs. apply scan_range_Some in Hs as (Hi & Hb & _). boolify. by split_and!.
Qed.

Lemma lookup_none id x w i : lookup id x w = None -> ~ caches w i id x.
Proof.
  unfold lookup. intros Hs (Hi & Hst & Hid & Hl).
  pose proof (proj1 (scan_range_None _ _ _) Hs i Hi) as Hb. cbv beta in Hb.
  rewrite (proj2 (Z.eqb_neq _ _) Hst), Hid, Hl, !Z.eqb_refl in Hb. done.
Qed.

Lemma view_cached w i id x : inv w -> caches w i id x -> view w id x = data (entries w i) (x - page_lba x).
Proof.
  intros Hi Hc. unfold view. destruct (lookup id x w) as [j|] eqn:Hl; [|by destruct (lookup_none id x w i Hl)].
  apply lookup_caches in Hl as (Hj & Hsj & Hdj & Hlj). destruct Hc as (Hi' & Hsi & Hdi & Hli).
  by rewrite (iv_unique w Hi j i) by congruence.
Qed.

Lemma view_uncached w id x : (forall i, ~ caches w i id x) -> view w id x = sector (disk w) id x.
Proof.
  intros Hn. unfold view. destruct (lookup id x w) as [j|] eqn:Hl; [|done].
  by destruct (Hn j (lookup_caches _ _ _ _ Hl)).
Qed.

(** Which entry caches a sector is decidable. *)
Lemma caches_dec w id x : (exists i, caches w i id x) \/ (forall i, ~ caches w i id x).
Proof.
  destruct (lookup id x w) as [i|] eqn:Hl.
  - left. exists i. by apply lookup_caches.
  - right. intros i. by apply lookup_none.
Qed.

(** The sectors of a device that an entry caches, by their offset. *)
Lemma caches_offset w i id x :
  inv w -> caches w i id x -> 0 <= x < capacity (disk w) id ->
  x = lba (entries w i) + (x - page_lba x) /\ 0 <= x - page_lba x < sectors (entries w i).
Proof.
  intros Hi (Hx & Hst & Hid & Hl) Hr. pose proof (iv_entry w Hi i Hx Hst) as He.
  pose proof (eo_sectors _ _ He) as Hs. rewrite Hid, Hl in Hs.
  pose proof (capacity_range (disk w) id) as Hcap. unfold is_u32 in Hcap.
  rewrite Hl, Hs. rewrite (page_lba_value x) by (unfold is_u32; lia).
  unfold BLOCK_CACHE_SECTORS. dmlia.
Qed.

(** ** Write-back *)

Lemma writeback_sectors_spec n s dev e d :
  let '(ok, d') := writeback_sectors n s dev e d in
  (forall id, capacity d' id = capacity d id) /\
  (forall id y, (id <> device_value dev \/ forall k, s <= k < s + Z.of_nat n -> y <> u32 (lba e + k)) ->
     sector d' id y = sector d id y) /\
  (0 <= lba e -> 0 <= s -> lba e + s + Z.of_nat n <= 0x100000000 -> ok = true ->
   forall k, s <= k < s + Z.of_nat n -> sector d' (device_value dev) (lba e + k) = data e k).
Proof.
  revert s d. induction n as [|n IH]; intros s d; cbn [writeback_sectors]; [split_and!; [done..|lia]|].
  pose proof (block_write_keeps dev (u32 (lba e + s)) (data e s) d) as Hk.
  pose proof (block_write_capacity dev (u32 (lba e + s)) (data e s) d) as Hc.
  pose proof (block_write_data dev (u32 (lba e + s)) (data e s) d) as Hd.
  destruct (block_write dev (u32 (lba e + s)) (data e s) d) as [failed d1]. cbn [fst snd] in *.
  destruct failed.
  - split_and!; [done| |done]. intros id y Hy. apply Hk. destruct Hy as [Hy|Hy]; [by left|right; apply Hy; lia].
  - specialize (IH (s + 1) d1). destruct (writeback_sectors n (s + 1) dev e d1) as [ok d2].
    destruct IH as (Hc2 & Hk2 & Hd2). split_and!.
    + intros id. by rewrite Hc2.
    + intros id y Hy. rewrite Hk2, Hk; [done| |].
      * destruct Hy as [Hy|Hy]; [by left|right; apply Hy; lia].
      * destruct Hy as [Hy|Hy]; [by left|right; intros k Hk'; apply Hy; lia].
    + intros Hl Hs Hb Hok k Hk'. destruct (decide (k = s)) as [->|Hne]; [|apply Hd2; [lia..|done|lia]].
      rewrite Hk2; [|right; intros j Hj; rewrite u32_small by (unfold is_u32; lia); lia].
      specialize (Hd eq_refl). by rewrite u32_small in Hd by (unfold is_u32; lia).
Qed.

Lemma entry_page e d s :
  entry_ok e d -> 0 <= s < sectors e ->
  page_lba (lba e + s) = lba e /\ 0 <= lba e + s < capacity d (device_id e).
Proof.
  intros He Hs. pose proof (eo_sectors _ _ He) as Hn. pose proof (eo_lba _ _ He).
  pose proof (eo_aligned _ _ He) as Ha. pose proof (capacity_range d (device_id e)) as Hc.
  unfold is_u32 in Hc. split; [|lia]. rewrite page_lba_value by (unfold is_u32; lia).
  unfold BLOCK_CACHE_SECTORS in *. dmlia.
Qed.

(** How a new state is seen to show the old content. *)
Lemma same_view_intro w w' :
  inv w' -> (forall id, capacity (disk w') id = capacity (disk w) id) ->
  (forall i id x, 0 <= x < capacity (disk w) id -> caches w' i id x ->
     data (entries w' i) (x - page_lba x) = view w id x) ->
  (forall id x, 0 <= x < capacity (disk w) id -> (forall i, ~ caches w' i id x) ->
     sector (disk w') id x = view w id x) ->
  same_view w w'.
Proof.
  intros Hi Hc H1 H2. split; [done|]. intros id x Hx. destruct (caches_dec w' id x) as [[i Hca]|Hn].
  - rewrite (view_cached w' i) by done. by apply H1.
  - rewrite view_uncached by done. by apply H2.
Qed.

(** The entries keep their pages and data; the disk changes only under entry
    [i], which still holds the truth. *)
Lemma disk_change i w w' :
  inv w -> index_in i -> state (entries w i) <> CACHE_EMPTY -> clock w' = clock w ->
  (forall j, j <> i -> entries w' j = entries w j) ->
  (exists st, (st = CACHE_CLEAN \/ st = CACHE_DIRTY) /\ entries w' i = set_state st (entries w i)) ->
  (forall id, capacity (disk w') id = capacity (disk w) id) ->
  (forall id y, (id <> device_id (entries w i) \/
     forall k, 0 <= k < sectors (entries w i) -> y <> lba (entries w i) + k) ->
     sector (disk w') id y = sector (disk w) id y) ->
  (state (entries w' i) = CACHE_CLEAN -> forall k, 0 <= k < sectors (entries w i) ->
     data (entries w i) k = sector (disk w') (device_id (entries w i)) (lba (entries w i) + k)) ->
  inv w' /\ same_view w w'.
Proof.
  intros Hi Hx Hst Hck Hoth (st & Hst' & Hei) Hcap Hsec Hcl.
  assert (forall j, state (entries w' j) <> CACHE_EMPTY -> state (entries w j) <> CACHE_EMPTY) as Hne.
  { intros j. destruct (decide (j = i)) as [->|Hj]; [done|by rewrite Hoth]. }
  assert (forall j, device_id (entries w' j) = device_id (entries w j) /\
    lba (entries w' j) = lba (entries w j) /\ data (entries w' j) = data (entries w j)) as Hkey.
  { intros j. destruct (decide (j = i)) as [->|Hj]; [by rewrite Hei|by rewrite Hoth]. }
  assert (inv w') as Hi'.
  { split.
    - rewrite Hck. apply (iv_clock w Hi).
    - intros j Hj Hsj. pose proof (iv_entry w Hi j Hj (Hne j Hsj)) as He.
      destruct (decide (j = i)) as [->|Hji].
      + destruct He as [? ? ? ? ? ?]. rewrite Hei in *. split; simpl; rewrite ?Hcap; try done.
      + rewrite Hoth in * by done. destruct He as [E1 E2 E3 E4 E5 E6].
        split; rewrite ?Hcap; try done. intros Hc s Hs. rewrite E6 by done. symmetry. apply Hsec.
        destruct (decide (device_id (entries w j) = device_id (entries w i))) as [Hd|]; [right|by left].
        intros k Hk Heq. apply Hji. apply (iv_unique w Hi); try done.
        pose proof (iv_entry w Hi i Hx Hst) as Hei'.
        destruct (entry_page _ _ k Hei' Hk) as [Hp _].
        destruct (entry_page (entries w j) (disk w) s (iv_entry w Hi j Hj Hsj) Hs) as [Hp' _].
        by rewrite <- Hp, <- Hp', Heq.
    - intros j k Hj Hk Hsj Hsk. destruct (Hkey j) as (-> & -> & _), (Hkey k) as (-> & -> & _).
      apply (iv_unique w Hi); auto. }
  split; [done|]. apply same_view_intro; [done|done| |].
  - intros j id x Hr (Hj & Hsj & Hid & Hl). destruct (Hkey j) as (Ek & El & Ed). rewrite Ed.
    symmetry. apply view_cached; [done|]. rewrite Ek in Hid. rewrite El in Hl. split_and!; auto.
  - intros id x Hr Hn. assert (forall j, ~ caches w j id x) as Hn'.
    { intros j (Hj & Hsj & Hid & Hl). apply (Hn j). destruct (Hkey j) as (Ek & El & _).
      split; [done|]. split; [|split; congruence]. destruct (decide (j = i)) as [->|Hji];
        [rewrite Hei; simpl; by destruct Hst' as [-> | ->]|by rewrite Hoth]. }
    rewrite view_uncached by done. apply Hsec.
    destruct (decide (id = device_id (entries w i))) as [->|]; [right|by left].
    intros k Hk ->. apply (Hn' i). split; [done|]. split; [done|]. split; [done|].
    by destruct (entry_page _ _ k (iv_entry w Hi i Hx Hst) Hk).
Qed.

Lemma writeback_spec i w :
  inv w -> index_in i -> state (entries w i) <> CACHE_EMPTY ->
  let '(r, w') := writeback i w in
  inv w' /\ same_view w w' /\ clock w' = clock w /\
  (forall j, j <> i -> entries w' j = entries w j) /\
  (exists st, (st = CACHE_CLEAN \/ st = CACHE_DIRTY) /\ entries w' i = set_state st (entries w i)) /\
  (r = 0 -> state (entries w' i) = CACHE_CLEAN) /\ (r = 0 \/ r = -1).
Proof.
  intros Hi Hx Hst. pose proof (iv_entry w Hi i Hx Hst) as He.
  assert (forall st, st = state (entries w i) -> entries w i = set_state st (entries w i)) as Hself
    by (intros st ->; by destruct (entries w i)).
  unfold writeback. case_if.
  { boolify. destruct (eo_state _ _ He) as [Hs|Hs]; [|done].
    split_and!; try done; [exists CACHE_CLEAN; auto|by left]. }
  boolify. destruct (eo_device _ _ He) as (dev & Hdev & Hval). rewrite Hdev.
  pose proof (writeback_sectors_spec (Z.to_nat (sectors (entries w i))) 0 dev (entries w i) (disk w)) as Hw.
  pose proof (capacity_range (disk w) (device_id (entries w i))) as Hcap. unfold is_u32 in Hcap.
  pose proof (eo_lba _ _ He). pose proof (eo_sectors _ _ He) as Hn. unfold BLOCK_CACHE_SECTORS in Hn.
  destruct (writeback_sectors _ _ _ _ _) as [ok d]. destruct Hw as (Hc & Hk & Hd).
  assert (forall id y, (id <> device_id (entries w i) \/
     forall k, 0 <= k < sectors (entries w i) -> y <> lba (entries w i) + k) ->
     sector d id y = sector (disk w) id y) as Hsec.
  { intros id y Hy. apply Hk. rewrite Hval. destruct Hy as [Hy|Hy]; [by left|right].
    intros k Hk'. rewrite u32_small by (unfold is_u32; lia). apply Hy. lia. }
  destruct ok.
  - set (w' := set_entry _ _ _).
    assert (entries w' i = set_state CACHE_CLEAN (entries w i)) as Hei by apply upd_eq.
    assert (forall j, j <> i -> entries w' j = entries w j) as Hoth by (intros j Hj; by apply upd_ne).
    destruct (disk_change i w w') as [Hi' Hv]; try done; [by exists CACHE_CLEAN; auto| |].
    + intros _ k Hk'. rewrite <- Hval. symmetry. apply Hd; [lia..|done|lia].
    + split_and!; try done; [by exists CACHE_CLEAN; auto|by rewrite Hei|by left].
  - destruct (disk_change i w (set_disk d w)) as [Hi' Hv]; try done.
    + exists CACHE_DIRTY. auto.
    + simpl. rewrite Hif. done.
    + split_and!; try done; [|by right]. exists CACHE_DIRTY. auto.
Qed.

(** ** Eviction and fill *)

(** Entries may be emptied. *)
Lemma inv_emptied w w' :
  inv w -> clock w' = clock w -> disk w' = disk w ->
  (forall j, state (entries w' j) <> CACHE_EMPTY -> entries w' j = entries w j) -> inv w'.
Proof.
  intros Hi Hc Hd Hne. split.
  - rewrite Hc. apply (iv_clock w Hi).
  - intros j Hj Hs. pose proof (Hne j Hs) as Ej. rewrite Ej, Hd in *. by apply (iv_entry w Hi).
  - intros j k Hj Hk Hsj Hsk. pose proof (Hne j Hsj) as Ej. pose proof (Hne k Hsk) as Ek.
    rewrite Ej, Ek in *. by apply (iv_unique w Hi).
Qed.

(** When the content is on the disk, nobody sees it. *)
Lemma empty_entry_spec i e w :
  inv w -> index_in i -> state (entries w i) <> CACHE_DIRTY -> state e = CACHE_EMPTY ->
  inv (set_entry i e w) /\ same_view w (set_entry i e w).
Proof.
  intros Hi Hx Hnd He. set (w' := set_entry i e w).
  assert (forall j, state (entries w' j) <> CACHE_EMPTY -> j <> i /\ entries w' j = entries w j) as Hne.
  { intros j Hj. destruct (decide (j = i)) as [->|Hji]; [|split; [done|by apply upd_ne]].
    unfold w' in Hj. simpl in Hj. by rewrite upd_eq in Hj. }
  assert (inv w') as Hi' by (apply (inv_emptied w); try done; intros j Hj; by apply Hne).
  split; [done|]. apply same_view_intro; [done|done| |].
  - intros j id x Hr (Hj & Hs & Hid & Hl). destruct (Hne j Hs) as [_ Ej]. rewrite Ej in *.
    symmetry. by apply view_cached.
  - intros id x Hr Hn. destruct (caches_dec w id x) as [[j Hc]|Hu]; [|by rewrite view_uncached].
    destruct (decide (j = i)) as [->|Hji].
    + rewrite (view_cached w i) by done. destruct (caches_offset w i id x Hi Hc Hr) as [Ex Ho].
      destruct Hc as (_ & Hs & Hid & _). pose proof (iv_entry w Hi i Hx Hs) as Hok.
      destruct (eo_state _ _ Hok) as [Hcl|]; [|done].
      rewrite (eo_clean _ _ Hok Hcl _ Ho), <- Ex, Hid. done.
    + destruct (Hn j). unfold caches, w'. simpl. by rewrite upd_ne.
Qed.

(** No page enters the cache. *)
Definition no_new (w w' : world D) : Prop :=
  forall j, index_in j -> state (entries w' j) <> CACHE_EMPTY ->
    state (entries w j) <> CACHE_EMPTY /\ device_id (entries w' j) = device_id (entries w j) /\
    lba (entries w' j) = lba (entries w j).

Lemma no_new_trans w1 w2 w3 : no_new w1 w2 -> no_new w2 w3 -> no_new w1 w3.
Proof.
  intros H1 H2 j Hj Hs. destruct (H2 j Hj Hs) as (Hs2 & -> & ->). by apply H1.
Qed.

Lemma no_new_caches w w' i id x : no_new w w' -> caches w' i id x -> caches w i id x.
Proof. intros Hn (Hi & Hs & Hid & Hl). destruct (Hn i Hi Hs) as (? & Ed & El). split_and!; congruence || apply Hi. Qed.

Lemma no_new_empty i e w : state e = CACHE_EMPTY -> no_new w (set_entry i e w).
Proof.
  intros He j Hj. simpl. destruct (decide (j = i)) as [->|Hji]; [by rewrite upd_eq|by rewrite upd_ne].
Qed.

Lemma evict_loop_spec n w :
  inv w -> let '(r, w') := evict_loop n w in
  inv w' /\ same_view w w' /\ no_new w w' /\
  (forall i, r = Some i -> index_in i /\ state (entries w' i) = CACHE_EMPTY).
Proof.
  revert w. induction n as [|n IH]; intros w Hi; cbn [evict_loop];
    [split_and!; [done|apply same_view_refl|by intros ? ? ?|done]|].
  pose proof (iv_clock w Hi) as Hx. set (i := clock w) in *. set (w1 := set_clock _ w).
  assert (inv w1 /\ same_view w w1 /\ no_new w w1) as (Hi1 & Hv1 & Hn1).
  { split_and!; [|by split|by intros ? ? ?]. destruct Hi as [_ H1 H2]. split; try done.
    unfold w1, index_in, BLOCK_CACHE_MAX in *. simpl. case_if; boolify; lia. }
  assert (forall w2, inv w2 -> same_view w1 w2 -> no_new w1 w2 ->
    let '(r, w') := evict_loop n w2 in
    inv w' /\ same_view w w' /\ no_new w w' /\
    (forall i, r = Some i -> index_in i /\ state (entries w' i) = CACHE_EMPTY)) as Hrec.
  { intros w2 Hi2 Hv2 Hn2. specialize (IH w2 Hi2). destruct (evict_loop n w2) as [r w'].
    destruct IH as (? & ? & ? & ?). split_and!; try done.
    - apply (same_view_trans w w1); [done|]. by apply (same_view_trans w1 w2).
    - apply (no_new_trans w w1); [done|]. by apply (no_new_trans w1 w2). }
  assert (forall w2, inv w2 -> same_view w1 w2 -> no_new w1 w2 -> state (entries w2 i) <> CACHE_DIRTY ->
    let w' := set_entry i (emptied (entries w2 i)) w2 in
    inv w' /\ same_view w w' /\ no_new w w' /\
    (forall j, Some i = Some j -> index_in j /\ state (entries w' j) = CACHE_EMPTY)) as Hgive.
  { intros w2 Hi2 Hv2 Hn2 Hd. destruct (empty_entry_spec i (emptied (entries w2 i)) w2) as [Hi3 Hv3]; try done.
    split_and!; [done| | |].
    - apply (same_view_trans w w1); [done|]. by apply (same_view_trans w1 w2).
    - apply (no_new_trans w w1); [done|]. apply (no_new_trans w1 w2); [done|]. by apply no_new_empty.
    - intros j [= <-]. split; [done|]. simpl. by rewrite upd_eq. }
  case_if; [boolify; split_and!; try done; by intros j [= <-]|].
  case_if; [boolify; apply Hgive; [done|apply same_view_refl|by intros ? ? ?|by rewrite Hif0]|].
  case_if; [|apply Hrec; [done|apply same_view_refl|by intros ? ? ?]].
  boolify. pose proof (writeback_spec i w1 Hi1 Hx Hif) as Hw. destruct (writeback i w1) as [r w2].
  destruct Hw as (Hi2 & Hv2 & _ & Hoth & (st & Hst & Hei) & Hr & _).
  assert (no_new w1 w2) as Hn2.
  { intros j Hj Hs. destruct (decide (j = i)) as [->|Hji]; [by rewrite Hei|rewrite (Hoth j Hji) in Hs |- *; done]. }
  case_if; [|by apply Hrec]. boolify. apply Hgive; try done. by rewrite Hr.
Qed.

Lemma evict_spec w :
  inv w -> let '(r, w') := evict w in
  inv w' /\ same_view w w' /\ no_new w w' /\
  (forall i, r = Some i -> index_in i /\ state (entries w' i) = CACHE_EMPTY).
Proof. apply evict_loop_spec. Qed.

Lemma read_sectors_spec n s dev page f d :
  let '(ok, f', d') := read_sectors n s dev page f d in
  (forall id y, sector d' id y = sector d id y) /\ (forall id, capacity d' id = capacity d id) /\
  (forall k, k < s -> f' k = f k) /\
  (ok = true -> 0 <= page + s -> page + s + Z.of_nat n <= 0x100000000 ->
   forall k, s <= k < s + Z.of_nat n -> f' k = sector d (device_value dev) (page + k)).
Proof.
  revert s f d. induction n as [|n IH]; intros s f d; cbn [read_sectors]; [split_and!; [done..|lia]|].
  pose proof (block_read_keeps dev (u32 (page + s)) d) as Hk.
  pose proof (block_read_data dev (u32 (page + s)) d) as Hd.
  destruct (block_read dev (u32 (page + s)) d) as [r d1]. cbn [fst snd] in *.
  destruct r as [v|]; [|split_and!; try done; intros id; apply Hk; exact 0].
  specialize (IH (s + 1) (upd f s v) d1). destruct (read_sectors _ _ _ _ _ _) as [[ok f'] d2].
  destruct IH as (H1 & H2 & H3 & H4). split_and!.
  - intros id y. rewrite H1. apply Hk.
  - intros id. rewrite H2. apply Hk. exact 0.
  - intros k Hks. rewrite H3 by lia. apply upd_ne. lia.
  - intros Hok Hp Hb k Hks. destruct (decide (k = s)) as [->|Hne].
    + rewrite H3, upd_eq by lia. rewrite (Hd v) by done. by rewrite u32_small by (unfold is_u32; lia).
    + rewrite H4 by (done || lia). apply Hk.
Qed.

(** An entry is written over an empty one or over one of the same page. *)
Record put_ok (i : Z) (e : cache_entry) (w : world D) : Prop := {
  po_index : index_in i;
  po_entry : entry_ok e (disk w);
  po_page : forall j, index_in j -> j <> i -> state (entries w j) <> CACHE_EMPTY ->
    device_id (entries w j) = device_id e -> lba (entries w j) = lba e -> False;
  po_over : state (entries w i) = CACHE_EMPTY \/
    (device_id (entries w i) = device_id e /\ lba (entries w i) = lba e)
}.

Lemma entry_ok_present e d : entry_ok e d -> state e <> CACHE_EMPTY.
Proof. intros He. by destruct (eo_state _ _ He) as [-> | ->]. Qed.

Lemma put_inv i e w : inv w -> put_ok i e w -> inv (set_entry i e w).
Proof.
  intros Hi [Hx He Hp _]. split; [apply (iv_clock w Hi)| |]; simpl.
  - intros j Hj. destruct (decide (j = i)) as [->|Hne]; [by rewrite upd_eq|rewrite upd_ne by done].
    by apply (iv_entry w Hi).
  - intros j k Hj Hk. destruct (decide (j = i)) as [->|Hji], (decide (k = i)) as [->|Hki];
      rewrite ?upd_eq, ?upd_ne by done; try done.
    + intros _ Hsk Hd Hl. by destruct (Hp k).
    + intros Hsj _ Hd Hl. by destruct (Hp j).
    + by apply (iv_unique w Hi).
Qed.

Lemma put_view i e w id x :
  inv w -> put_ok i e w ->
  view (set_entry i e w) id x =
  if decide (id = device_id e /\ page_lba x = lba e) then data e (x - page_lba x) else view w id x.
Proof.
  intros Hi Hpo. pose proof (put_inv i e w Hi Hpo) as Hi'. destruct Hpo as [Hx He Hp Ho].
  pose proof (entry_ok_present _ _ He). destruct (decide _) as [[-> Hl]|Hn].
  - rewrite (view_cached _ i); [simpl; by rewrite upd_eq|done|].
    unfold caches. simpl. rewrite upd_eq. done.
  - destruct (caches_dec w id x) as [[j Hc]|Hu].
    + destruct (decide (j = i)) as [->|Hji].
      { destruct Hc as (_ & Hs & Hid & Hl), Ho as [Ho|[Ho1 Ho2]]; [done|]. destruct Hn. split; congruence. }
      rewrite (view_cached w j), (view_cached (set_entry i e w) j) by (try done; unfold caches; simpl; by rewrite upd_ne).
      simpl. by rewrite upd_ne.
    + rewrite !view_uncached; [done|done|]. intros j (Hj & Hs & Hid & Hl). simpl in *.
      destruct (decide (j = i)) as [->|Hji].
      * rewrite upd_eq in *. by destruct Hn.
      * rewrite upd_ne in * by done. by destruct (Hu j).
Qed.

Lemma put_same_view i e w :
  inv w -> put_ok i e w ->
  (forall s, 0 <= s < sectors e -> data e s = view w (device_id e) (lba e + s)) ->
  same_view w (set_entry i e w).
Proof.
  intros Hi Hpo Hd. split; [done|]. intros id x Hx. rewrite put_view by done.
  destruct (decide _) as [[-> Hl]|]; [|done].
  pose proof (put_inv i e w Hi Hpo) as Hi'. pose proof (po_index _ _ _ Hpo) as Hin.
  assert (caches (set_entry i e w) i (device_id e) x) as Hc.
  { unfold caches. simpl. rewrite upd_eq. split_and!; try done; [apply Hin..|].
    by eapply entry_ok_present, (po_entry _ _ _ Hpo). }
  destruct (caches_offset _ _ _ _ Hi' Hc Hx) as [Ex Hs]. simpl in Ex, Hs. rewrite upd_eq in Ex, Hs.
  rewrite Hd by done. by rewrite <- Ex.
Qed.

(** Setting the device of a cached page. *)
Lemma put_device i dev w :
  inv w -> index_in i -> state (entries w i) <> CACHE_EMPTY -> device_value dev = device_id (entries w i) ->
  let w' := set_entry i (set_device (Some dev) (entries w i)) w in inv w' /\ same_view w w'.
Proof.
  intros Hi Hx Hs Hv w'. pose proof (iv_entry w Hi i Hx Hs) as He.
  assert (put_ok i (set_device (Some dev) (entries w i)) w) as Hpo.
  { split; [done| | |by right].
    - destruct He as [? ? ? ? ? ?]. split; simpl; try done. by exists dev.
    - simpl. intros j Hj Hne Hsj Hd Hl. apply Hne. by apply (iv_unique w Hi). }
  split; [by apply put_inv|]. apply put_same_view; [done|done|]. simpl. intros s Hr.
  destruct (entry_page _ _ s He Hr) as [Hp _].
  rewrite (view_cached w i) by (done || unfold caches; auto). rewrite Hp. f_equal. lia.
Qed.

Lemma fill_spec dev x w :
  inv w -> is_u32 x -> let '(r, w') := fill dev x w in
  inv w' /\ same_view w w' /\ (forall i, r = Some i -> caches w' i (device_value dev) x).
Proof.
  intros Hi Hx. unfold fill. destruct (lookup _ _ w) as [i|] eqn:Hl.
  { apply lookup_caches in Hl as (Hin & Hs & Hid & Hlb). rewrite page_lba_page in Hlb by done.
    destruct (put_device i dev w) as [Hi' Hv']; try done. split_and!; [done|done|].
    intros j [= <-]. unfold caches. simpl. by rewrite upd_eq. }
  pose proof (evict_spec w Hi) as He.
  destruct (evict w) as [[i|] w1]; destruct He as (Hi1 & Hv1 & Hn1 & Hr); [|done].
  destruct (Hr i eq_refl) as [Hin Hst]. destruct (block_info dev (disk w1)) as [n|] eqn:Hb; [|done].
  apply block_info_capacity in Hb as ->. pose proof (capacity_range (disk w1) (device_value dev)) as Hcap.
  unfold is_u32 in Hcap. case_if; [done|]. boolify. set (n := if _ <? _ then _ else _).
  pose proof (read_sectors_spec (Z.to_nat n) 0 dev (page_lba x) (fun _ => zero_sector) (disk w1)) as Hrd.
  destruct (read_sectors _ _ _ _ _ _) as [[ok f] d]. destruct Hrd as (Hs & Hc & _ & Hd).
  assert (inv (set_disk d w1) /\ same_view w1 (set_disk d w1)) as [Hi2 Hv2].
  { split.
    - destruct Hi1 as [? He ?]. split; try done. intros j Hj Hsj. destruct (He j Hj Hsj).
      split; simpl; rewrite ?Hc; try done. intros Hcl s Hsr. rewrite Hs. auto.
    - split; [done|]. intros id y _. unfold view. simpl. by rewrite Hs. }
  assert (n = Z.min BLOCK_CACHE_SECTORS (capacity d (device_value dev) - page_lba x)) as Hn
    by (unfold n; rewrite Hc; case_if; boolify; lia).
  pose proof (page_lba_value x Hx) as Hp. unfold is_u32 in Hx.
  assert (0 <= page_lba x /\ page_lba x mod BLOCK_CACHE_SECTORS = 0) as [Hp0 Hpa]
    by (rewrite Hp; unfold BLOCK_CACHE_SECTORS; dmlia).
  destruct ok.
  - set (e := CacheEntry _ _ _ _ _ _).
    assert (put_ok i e (set_disk d w1)) as Hpo.
    { split; [done| | |by left].
      - split; simpl; try done; [by left|rewrite Hc; lia|by exists dev|].
        intros _ s Hsr. rewrite Hs. apply Hd; [done|lia| |]; rewrite Hc in Hn; lia.
      - simpl. intros j Hj Hne Hsj Hdj Hlj. destruct (Hn1 j Hj Hsj) as (Hsw & Ed & El).
        destruct (lookup_none _ _ _ j Hl). split; [done|]. split; [done|]. rewrite page_lba_page by done.
        split; congruence. }
    split_and!; [by apply put_inv| |].
    + apply (same_view_trans w w1); [done|]. apply (same_view_trans w1 (set_disk d w1)); [done|].
      apply put_same_view; [done|done|]. intros s Hsr. rewrite (eo_clean _ _ (po_entry _ _ _ Hpo) eq_refl s Hsr).
      rewrite view_uncached; [done|]. intros j Hca.
      assert (page_lba (lba e + s) = page_lba x) as Hpp
        by (destruct (entry_page e d s (po_entry _ _ _ Hpo) Hsr) as [-> _]; done).
      destruct Hca as (Hj & Hsj & Hdj & Hlj). rewrite Hpp in Hlj.
      destruct (decide (j = i)) as [->|Hne]; [done|].
      by apply (po_page _ _ _ Hpo j).
    + intros j [= <-]. unfold caches. simpl. by rewrite upd_eq.
  - destruct (empty_entry_spec i (set_data f (entries (set_disk d w1) i)) (set_disk d w1)) as [Hi3 Hv3];
      try done; [simpl; by rewrite Hst|]. split_and!; [done| |done].
    apply (same_view_trans w w1); [done|]. by apply (same_view_trans w1 (set_disk d w1)).
Qed.

(** ** The entry points *)

Lemma chunk_value x done total page :
  page = page_lba (x + done) -> 0 <= x -> 0 <= done < total -> x + total < 0x100000000 ->
  let off := u32 (u32 (x + done) - page) in
  off = x + done - page /\ 0 <= off < BLOCK_CACHE_SECTORS /\
  chunk off total done = Z.min (BLOCK_CACHE_SECTORS - off) (total - done).
Proof.
  intros -> Hx Hd Ht. rewrite (page_lba_value (x + done)) by (unfold is_u32; lia). intros off.
  assert (off = (x + done) mod BLOCK_CACHE_SECTORS) as ->.
  { unfold off. rewrite (u32_small (x + done)) by (unfold is_u32; lia).
    unfold BLOCK_CACHE_SECTORS in *. rewrite u32_small; [lia|]. unfold is_u32. dmlia. }
  unfold chunk. rewrite (u32_small (total - done)) by (unfold is_u32; lia).
  unfold BLOCK_CACHE_SECTORS in *. rewrite u32_small by (unfold is_u32; dmlia).
  split; [lia|]. split; [dmlia|]. case_if; boolify; lia.
Qed.

(** A buffer of at most 4 GiB. *)
Definition buffer_max : Z := 2 ^ 32 / BLOCK_SECTOR_SIZE.

Lemma buffer_sector_small done : 0 <= done < buffer_max -> buffer_sector done = done.
Proof.
  unfold buffer_max, buffer_sector, BLOCK_SECTOR_SIZE. change (2 ^ 32 / 512) with 8388608. intros Hd.
  rewrite u32_small by (unfold is_u32; lia). apply Z.div_mul. lia.
Qed.

Lemma read_loop_spec fuel dev x total done buffer w :
  inv w -> 0 <= x -> x + total <= capacity (disk w) (device_value dev) -> 0 <= done <= total ->
  total - done <= Z.of_nat fuel ->
  exists r buffer' w', read_loop fuel dev x total done buffer w = Some (r, buffer', w') /\
    inv w' /\ same_view w w' /\
    (total <= buffer_max ->
     (r = 0 -> forall j, done <= j < total -> buffer' j = view w (device_value dev) (x + j)) /\
     (forall j, j < done \/ total <= j -> buffer' j = buffer j)).
Proof.
  revert done buffer w. induction fuel as [|fuel IH]; intros done buffer w Hi Hx Hc Hd Hf; cbn [read_loop];
    destruct (Z.ltb_spec done total) as [Hlt|]; cbn [negb]; try lia.
  1, 3: exists 0, buffer, w; split_and!; try done; intros _; split; [intros _ j Hj; lia|done].
  pose proof (capacity_range (disk w) (device_value dev)) as Hcr. unfold is_u32 in Hcr.
  pose proof (u32_small (x + done) ltac:(unfold is_u32; lia)) as Hu.
  pose proof (fill_spec dev (u32 (x + done)) w Hi (u32_range _)) as Hfl.
  destruct (fill dev (u32 (x + done)) w) as [[i|] w1]; destruct Hfl as (Hi1 & Hv1 & Hca).
  2: { exists (-1), buffer, w1. by split_and!. }
  specialize (Hca i eq_refl). rewrite Hu in Hca.
  destruct (chunk_value x done total (lba (entries w1 i))) as (Eo & Ho & En); [apply Hca|lia..|].
  set (off := u32 (u32 (x + done) - lba (entries w1 i))) in *. set (n := chunk off total done) in *. unfold BLOCK_CACHE_SECTORS in *.
  rewrite (u32_small (done + n)) by (unfold is_u32; lia).
  destruct (IH (done + n) (copy_sectors buffer (buffer_sector done) (data (entries w1 i)) off n) w1)
    as (r & b' & w' & -> & Hi' & Hv' & Hb); [done|done|by rewrite (sv_capacity _ _ Hv1)|lia..|].
  exists r, b', w'. split_and!; [done|done|by apply (same_view_trans w w1)|].
  intros Hm. destruct (Hb Hm) as [Hr Hb']. clear Hb. rename Hb' into Hb. rewrite buffer_sector_small in Hb by lia. split.
  - intros Hr0 j Hj. destruct (decide (j < done + n)) as [Hjn|Hjn].
    + rewrite Hb by lia. unfold copy_sectors. rewrite (proj2 (Z.leb_le done j)), (proj2 (Z.ltb_lt j (done + n))) by lia.
      cbn [andb]. rewrite <- (sv_view _ _ Hv1) by lia.
      assert (page_lba (x + j) = page_lba (x + done)) as Hp.
      { destruct Hca as (_ & _ & _ & Hl). rewrite Hl in Eo. revert Eo Ho.
        rewrite !page_lba_value by (unfold is_u32; lia). unfold BLOCK_CACHE_SECTORS. intros. dmlia. }
      rewrite (view_cached w1 i); [|done|unfold caches in *; by rewrite Hp].
      f_equal. destruct Hca as (_ & _ & _ & Hl). rewrite Hp, <- Hl. lia.
    + rewrite (Hr Hr0) by lia. apply (sv_view _ _ Hv1). lia.
  - intros j Hj. rewrite Hb by lia. unfold copy_sectors.
    destruct (Z.leb_spec done j), (Z.ltb_spec j (done + n)); cbn [andb]; done || lia.
Qed.

(** The sectors [x + lo, x + hi) of a device replaced by a buffer's. *)
Definition overwritten (w : world D) (id0 x lo hi : Z) (buffer : Z -> sector_data) (id y : Z) : sector_data :=
  if decide (id = id0 /\ x + lo <= y < x + hi) then buffer (y - x) else view w id y.

(** An entry whose data are replaced. *)
Lemma dirty_put i id y f w :
  inv w -> caches w i id y -> put_ok i (set_state CACHE_DIRTY (set_data f (entries w i))) w.
Proof.
  intros Hi (Hx & Hst & _ & _). pose proof (iv_entry w Hi i Hx Hst) as He. split; [done| | |by right].
  - destruct He as [? ? ? ? ? ?]. split; simpl; try done. by right.
  - simpl. intros j Hj Hne Hsj Hd Hlj. apply Hne. by apply (iv_unique w Hi).
Qed.

(** One round of a write. *)
Lemma write_chunk dev x done from n i buffer w :
  inv w -> caches w i (device_value dev) (x + done) -> is_u32 (x + done) ->
  let off := x + done - lba (entries w i) in
  0 <= n <= BLOCK_CACHE_SECTORS - off ->
  let e := entries w i in
  let w' := set_entry i (set_state CACHE_DIRTY (set_data (copy_sectors (data e) off buffer from n) e)) w in
  inv w' /\ (forall id, capacity (disk w') id = capacity (disk w) id) /\
  (from = done -> forall id y, 0 <= y < capacity (disk w) id ->
    view w' id y = overwritten w (device_value dev) x done (done + n) buffer id y).
Proof.
  intros Hi Hca Hxd off Hn e w'. pose proof Hca as (Hx & Hst & Hid & Hl).
  pose proof (iv_entry w Hi i Hx Hst) as He.
  pose proof (dirty_put i _ _ (copy_sectors (data e) off buffer from n) w Hi Hca) as Hpo. fold e in Hpo.
  split; [by apply put_inv|]. split; [done|]. intros -> id y Hy. unfold w'. rewrite put_view by done. simpl.
  unfold overwritten. fold e in Hid, Hl. rewrite Hid. fold e in off.
  pose proof (capacity_range (disk w) id) as Hcr. unfold is_u32 in Hcr.
  assert (page_lba y = lba e -> y - page_lba y = y - lba e /\ 0 <= y - lba e < BLOCK_CACHE_SECTORS) as Hpg.
  { intros Hp. rewrite <- Hp. rewrite page_lba_value by (unfold is_u32; lia).
    unfold BLOCK_CACHE_SECTORS. dmlia. }
  assert (x + done <= y < x + (done + n) -> page_lba y = lba e) as Hin.
  { intros Hr. assert (n <= BLOCK_CACHE_SECTORS - (x + done - page_lba (x + done))) as Hn'
      by (rewrite <- Hl; exact (proj2 Hn)).
    rewrite Hl. revert Hn'. rewrite !page_lba_value by (done || unfold is_u32; lia).
    unfold BLOCK_CACHE_SECTORS. intros Hn'. clear -Hr Hn'. dmlia. }
  destruct (decide (id = device_value dev /\ page_lba y = lba e)) as [[-> Hp]|Hnp].
  - destruct (Hpg Hp) as [-> Hr]. unfold copy_sectors.
    destruct (decide _) as [[_ Hrange]|Hout].
    + rewrite (proj2 (Z.leb_le off (y - lba e))), (proj2 (Z.ltb_lt (y - lba e) (off + n))) by (unfold off; lia).
      cbn [andb]. f_equal. unfold off. lia.
    + rewrite (view_cached w i) by (done || unfold caches; by rewrite Hp).
      destruct (Z.leb_spec off (y - lba e)), (Z.ltb_spec (y - lba e) (off + n)); cbn [andb];
        try (fold e; f_equal; by destruct (Hpg Hp)).
      destruct Hout. split; [done|]. unfold off in *. lia.
  - rewrite decide_False; [done|]. intros [-> Hr]. by destruct Hnp; auto.
Qed.

Lemma write_loop_spec fuel dev x total done buffer w :
  inv w -> 0 <= x -> x + total <= capacity (disk w) (device_value dev) -> 0 <= done <= total ->
  total - done <= Z.of_nat fuel ->
  exists r w' hi, write_loop fuel dev x total done buffer w = Some (r, w') /\
    inv w' /\ (forall id, capacity (disk w') id = capacity (disk w) id) /\
    done <= hi <= total /\ (r = 0 -> hi = total) /\
    (total <= buffer_max -> forall id y, 0 <= y < capacity (disk w) id ->
      view w' id y = overwritten w (device_value dev) x done hi buffer id y).
Proof.
  revert done w. induction fuel as [|fuel IH]; intros done w Hi Hx Hc Hd Hf; cbn [write_loop];
    destruct (Z.ltb_spec done total) as [Hlt|]; cbn [negb]; try lia.
  1, 3: exists 0, w, done; split_and!; try done; try lia; intros _ id y _; unfold overwritten;
    rewrite decide_False; [done|lia].
  pose proof (capacity_range (disk w) (device_value dev)) as Hcr. unfold is_u32 in Hcr.
  pose proof (u32_small (x + done) ltac:(unfold is_u32; lia)) as Hu.
  pose proof (fill_spec dev (u32 (x + done)) w Hi (u32_range _)) as Hfl.
  destruct (fill dev (u32 (x + done)) w) as [[i|] w1]; destruct Hfl as (Hi1 & Hv1 & Hca).
  2: { exists (-1), w1, done. split_and!; try done; try lia; [apply Hv1|]. intros _ id y Hy. unfold overwritten.
    rewrite decide_False by lia. by apply (sv_view _ _ Hv1). }
  specialize (Hca i eq_refl). rewrite Hu in Hca.
  destruct (chunk_value x done total (lba (entries w1 i))) as (Eo & Ho & En); [apply Hca|lia..|].
  set (n := chunk _ total done) in *. rewrite Eo in *. unfold BLOCK_CACHE_SECTORS in *.
  rewrite (u32_small (done + n)) by (unfold is_u32; lia).
  destruct (write_chunk dev x done (buffer_sector done) n i buffer w1 Hi1 Hca) as (Hi2 & Hc2 & Hv2);
    [unfold is_u32; lia|unfold BLOCK_CACHE_SECTORS; lia|].
  set (w2 := set_entry _ _ _) in *.
  destruct (IH (done + n) w2) as (r & w' & hi & -> & Hi' & Hc' & Hhi & Hr & Hv');
    [done|done|by rewrite Hc2, (sv_capacity _ _ Hv1)|lia..|].
  exists r, w', hi. split_and!; try done; try lia.
  - intros id. by rewrite Hc', Hc2, (sv_capacity _ _ Hv1).
  - intros Hm id y Hy. rewrite (Hv' Hm) by (by rewrite Hc2, (sv_capacity _ _ Hv1)). unfold overwritten.
    rewrite (Hv2 (buffer_sector_small done ltac:(lia))) by (by rewrite (sv_capacity _ _ Hv1)). unfold overwritten.
    rewrite (sv_view _ _ Hv1) by done.
    repeat destruct (decide _); try done; lia || (exfalso; lia).
Qed.

Lemma flush_loop_spec n i dev w :
  inv w -> 0 <= i -> i + Z.of_nat n = BLOCK_CACHE_MAX -> let '(r, w') := flush_loop n i dev w in
  inv w' /\ same_view w w' /\ (forall j, j < i -> entries w' j = entries w j) /\
  (r = 0 -> forall j, i <= j < BLOCK_CACHE_MAX -> device_id (entries w' j) = device_value dev ->
     state (entries w' j) <> CACHE_DIRTY).
Proof.
  revert i w. induction n as [|n IH]; intros i w Hi Hi0 Hn; cbn [flush_loop];
    [split_and!; [done|apply same_view_refl|done|lia]|].
  assert (index_in i) as Hx by (unfold index_in; lia).
  assert (forall w1, inv w1 -> same_view w w1 -> (forall j, j <> i -> entries w1 j = entries w j) ->
    (device_id (entries w1 i) = device_value dev -> state (entries w1 i) <> CACHE_DIRTY) ->
    let '(r, w') := flush_loop n (i + 1) dev w1 in
    inv w' /\ same_view w w' /\ (forall j, j < i -> entries w' j = entries w j) /\
    (r = 0 -> forall j, i <= j < BLOCK_CACHE_MAX -> device_id (entries w' j) = device_value dev ->
       state (entries w' j) <> CACHE_DIRTY)) as Hrec.
  { intros w1 Hi1 Hv1 Hoth Hcl. specialize (IH (i + 1) w1 Hi1). destruct (flush_loop n (i + 1) dev w1) as [r w'].
    destruct IH as (Hi' & Hv' & Hlow & Hr); [lia..|]. split_and!; [done|by apply (same_view_trans w w1)| |].
    - intros j Hj. rewrite Hlow by lia. apply Hoth. lia.
    - intros Hr0 j Hj. destruct (decide (j = i)) as [->|Hji]; [rewrite Hlow by lia; done|apply Hr; [done|lia]]. }
  case_if; boolify; [apply Hrec; try done; apply same_view_refl|].
  set (w1 := set_entry _ _ _).
  assert (forall j, j <> i -> entries w1 j = entries w j) as Hoth1 by (intros j Hj; by apply upd_ne).
  assert (entries w1 i = set_device (Some dev) (entries w i)) as Hei by apply upd_eq.
  destruct (decide (state (entries w i) = CACHE_EMPTY)) as [Hemp|Hne].
  - destruct (empty_entry_spec i (set_device (Some dev) (entries w i)) w) as [Hi1 Hv1]; try done;
      [by rewrite Hemp|]. fold w1 in Hi1, Hv1.
    unfold writeback. rewrite Hei. simpl state. rewrite Hemp. cbn [negb Z.eqb CACHE_EMPTY CACHE_DIRTY nz].
    apply Hrec; try done. intros _. rewrite Hei. simpl. by rewrite Hemp.
  - destruct (put_device i dev w) as [Hi1 Hv1]; try done. fold w1 in Hi1, Hv1.
    pose proof (writeback_spec i w1 Hi1 Hx) as Hw. rewrite Hei in Hw. specialize (Hw Hne).
    destruct (writeback i w1) as [r w2]. destruct Hw as (Hi2 & Hv2 & _ & Hoth & _ & Hr & Hr').
    assert (forall j, j <> i -> entries w2 j = entries w j) as Hoth2 by (intros j Hj; by rewrite Hoth, Hoth1).
    assert (same_view w w2) as Hv by by apply (same_view_trans w w1).
    case_if.
    + split_and!; [done|done|intros j Hj; apply Hoth2; lia|done].
    + apply nz_false in Hif0. apply Hrec; try done. intros _. by rewrite Hr.
Qed.

Definition page_dropped (id page : Z) (e : cache_entry) : cache_entry :=
  if (state e =? CACHE_EMPTY) || negb (device_id e =? id) || negb (lba e =? page) then e else dropped e.

Lemma invalidate_page_spec id page (w : world D) :
  let w' := invalidate_page id page w in
  clock w' = clock w /\ disk w' = disk w /\
  forall j, entries w' j = if decide (index_in j) then page_dropped id page (entries w j) else entries w j.
Proof.
  unfold invalidate_page. match goal with |- context [for_range _ _ ?b _] => set (body := b) end.
  pose proof (for_range_ind (fun i w' => clock w' = clock w /\ disk w' = disk w /\
    forall j, entries w' j = if decide (0 <= j < i) then page_dropped id page (entries w j) else entries w j)
    0 BLOCK_CACHE_MAX body w) as Hind.
  destruct Hind as (H1 & H2 & H3).
  - split_and!; [done|done|]. intros j. rewrite decide_False by lia. done.
  - intros i w' Hr (Hc & Hd & He). unfold body.
    assert (entries w' i = entries w i) as Ei by (rewrite He, decide_False by lia; done).
    assert (forall j, j <> i -> entries w' j =
      if decide (0 <= j < i + 1) then page_dropped id page (entries w j) else entries w j) as Hoth.
    { intros j Hj. rewrite He. repeat destruct (decide _); done || lia. }
    rewrite Ei. assert (page_dropped id page (entries w i) =
      if (state (entries w i) =? CACHE_EMPTY) || negb (device_id (entries w i) =? id) then entries w i else
      if negb (lba (entries w i) =? page) then entries w i else dropped (entries w i)) as Hpd.
    { unfold page_dropped.
      by destruct (state _ =? _), (device_id _ =? _), (lba _ =? _). }
    revert Hpd. repeat case_if; intros Hpd; (split_and!; [done|done|]); intros j;
      (destruct (decide (j = i)) as [->|Hji]; [rewrite decide_True by lia|]).
    all: simpl; rewrite ?upd_eq, ?upd_ne, ?Ei by done; auto; try congruence.
  - unfold index_in. by split_and!.
Qed.

Lemma page_dropped_spec id page e :
  (state (page_dropped id page e) <> CACHE_EMPTY -> page_dropped id page e = e) /\
  (page_dropped id page e <> e -> device_id e = id /\ lba e = page) /\
  (state e <> CACHE_EMPTY -> device_id e = id -> lba e = page -> state (page_dropped id page e) = CACHE_EMPTY).
Proof.
  unfold page_dropped. destruct (_ || _) eqn:Hb.
  - split_and!; try done. intros Hs Hd Hl. rewrite Hd, Hl, !Z.eqb_refl in Hb. cbn [negb] in Hb.
    rewrite !orb_false_r in Hb. by boolify.
  - boolify. by split_and!.
Qed.

Lemma invalidate_page_view id page w :
  inv w -> let w' := invalidate_page id page w in
  inv w' /\ disk w' = disk w /\
  forall id' y, view w' id' y =
    if decide (id' = id /\ page_lba y = page) then sector (disk w) id' y else view w id' y.
Proof.
  intros Hi w'. destruct (invalidate_page_spec id page w) as (Hc & Hd & He). fold w' in Hc, Hd, He.
  assert (forall j, state (entries w' j) <> CACHE_EMPTY -> entries w' j = entries w j) as Hne.
  { intros j. rewrite He. destruct (decide _); [apply page_dropped_spec|done]. }
  assert (inv w') as Hi' by by apply (inv_emptied w).
  split_and!; [done|done|]. intros id' y.
  destruct (caches_dec w' id' y) as [[j (Hj & Hs & Hid & Hl)]|Hu].
  - pose proof (Hne j Hs) as Ej. rewrite (view_cached w' j), Ej by done. rewrite Ej in *.
    rewrite decide_False; [symmetry; by apply view_cached|].
    intros [-> Hp]. pose proof (He j) as Hej. rewrite decide_True in Hej by done.
    destruct (page_dropped_spec id page (entries w j)) as (_ & _ & Hem). rewrite <- Hej, Ej in Hem.
    apply Hs, Hem; congruence.
  - rewrite view_uncached, Hd by done. destruct (decide _) as [|Hn]; [done|].
    symmetry. apply view_uncached. intros j (Hj & Hs & Hid & Hl). apply (Hu j).
    assert (entries w' j = entries w j) as Ej.
    { rewrite He, decide_True by done. unfold page_dropped. destruct (_ || _) eqn:Hb; [done|].
      boolify. destruct Hn. split; congruence. }
    unfold caches. by rewrite Ej.
Qed.

Lemma invalidate_loop_spec fuel id page last w :
  inv w -> 0 <= page -> page mod 8 = 0 -> last mod 8 = 0 -> last < 0xFFFFFFF8 ->
  last - page < 8 * Z.of_nat fuel ->
  exists w', invalidate_loop fuel id page last w = Some w' /\ inv w' /\ disk w' = disk w /\
    forall id' y, is_u32 y -> view w' id' y =
      if decide (id' = id /\ page <= page_lba y <= last) then sector (disk w) id' y else view w id' y.
Proof.
  revert page w. induction fuel as [|fuel IH]; intros page w Hi Hp Hpm Hlm Hl Hf; cbn [invalidate_loop];
    destruct (Z.leb_spec page last) as [Hle|Hgt]; cbn [negb]; try lia.
  1, 3: exists w; split_and!; try done; intros id' y _; rewrite decide_False; [done|lia].
  destruct (invalidate_page_view id page w Hi) as (Hi1 & Hd1 & Hv1).
  set (w1 := invalidate_page id page w) in *. unfold BLOCK_CACHE_SECTORS.
  rewrite u32_small by (unfold is_u32; lia).
  destruct (IH (page + 8) w1) as (w' & -> & Hi' & Hd' & Hv'); [done|lia|dmlia|done|done|lia|].
  exists w'. split_and!; [done|done|by rewrite Hd'|]. intros id' y Hy. rewrite Hv', Hv1, Hd1 by done.
  assert (page_lba y mod 8 = 0) as Hym.
  { rewrite page_lba_value by done. unfold BLOCK_CACHE_SECTORS. dmlia. }
  destruct (decide (id' = id)) as [->|Hid].
  - destruct (decide (page_lba y = page)) as [->|Hne].
    + repeat destruct (decide _); done || lia.
    + assert (page + 8 <= page_lba y <= last <-> page <= page_lba y <= last) as Hiff by dmlia.
      repeat destruct (decide _); done || (exfalso; tauto).
  - repeat destruct (decide _); done || (exfalso; tauto).
Qed.

Lemma drop_device_inv id w : inv w -> inv (block_cache_drop_device id w).
Proof.
  intros Hi. unfold block_cache_drop_device.
  match goal with |- context [for_range _ _ ?b _] => set (body := b) end.
  apply (for_range_ind (fun _ w' => inv w') 0 BLOCK_CACHE_MAX body w); [done|].
  intros i w' _ Hi'. unfold body. case_if; [done|]. apply (inv_emptied w'); try done.
  intros j. simpl. destruct (decide (j = i)) as [->|Hne]; [by rewrite upd_eq|by rewrite upd_ne].
Qed.

(** ** The cache as a transition system *)

(** Every call that comes back, wherever its request lies. *)
Inductive step : world D -> world D -> Prop :=
  | step_read dev x buffer total w r buffer' w' :
      block_cache_read dev x buffer total w = Some (r, buffer', w') -> step w w'
  | step_write dev x buffer total w r w' :
      block_cache_write dev x buffer total w = Some (r, w') -> step w w'
  | step_flush dev w : step w (snd (block_cache_flush dev w))
  | step_drop id w : step w (block_cache_drop_device id w)
  | step_invalidate fuel dev x total w w' :
      block_cache_invalidate fuel dev x total w = Some w' -> step w w'.

Lemma read_loop_inv fuel dev x total done buffer w r buffer' w' :
  inv w -> read_loop fuel dev x total done buffer w = Some (r, buffer', w') -> inv w'.
Proof.
  revert done buffer w. induction fuel as [|fuel IH]; intros done buffer w Hi; cbn [read_loop]; (destruct (negb _); [by intros [= _ _ <-]|]); [discriminate|].
  pose proof (fill_spec dev (u32 (x + done)) w Hi (u32_range _)) as Hfl. destruct (fill dev (u32 (x + done)) w) as [[i|] w1].
  - cbv zeta. apply IH, Hfl.
  - intros [= _ _ <-]. apply Hfl.
Qed.

Lemma write_loop_inv fuel dev x total done buffer w r w' :
  inv w -> write_loop fuel dev x total done buffer w = Some (r, w') -> inv w'.
Proof.
  revert done w. induction fuel as [|fuel IH]; intros done w Hi; cbn [write_loop]; (destruct (negb _); [by intros [= _ <-]|]); [discriminate|].
  pose proof (fill_spec dev (u32 (x + done)) w Hi (u32_range _)) as Hfl. destruct (fill dev (u32 (x + done)) w) as [[i|] w1]; destruct Hfl as (Hi1 & _ & Hca).
  - cbv zeta. apply IH. by eapply put_inv, dirty_put, Hca.
  - by intros [= _ <-].
Qed.

Lemma invalidate_loop_inv fuel id page last w w' :
  inv w -> invalidate_loop fuel id page last w = Some w' -> inv w'.
Proof.
  revert page w. induction fuel as [|fuel IH]; intros page w Hi; cbn [invalidate_loop]; (destruct (negb _); [by intros [= <-]|]); [done|].
  apply IH. by apply invalidate_page_view.
Qed.

Lemma cache_init_inv w : inv (block_cache_init w).
Proof. by split. Qed.

Lemma read_spec dev x buffer total w :
  inv w -> 0 <= x -> 0 < total -> x + total <= capacity (disk w) (device_value dev) ->
  exists r buffer' w', block_cache_read (Some dev) x buffer total w = Some (r, buffer', w') /\
    inv w' /\ same_view w w' /\
    (total <= buffer_max ->
     (r = 0 -> forall j, 0 <= j < total -> buffer' j = view w (device_value dev) (x + j)) /\
     (forall j, j < 0 \/ total <= j -> buffer' j = buffer j)).
Proof.
  intros Hi Hx Ht Hc. unfold block_cache_read. rewrite (proj2 (nz_true total)) by lia. cbn [negb].
  apply read_loop_spec; done || lia.
Qed.

Lemma write_spec dev x buffer total w :
  inv w -> 0 <= x -> 0 < total -> x + total <= capacity (disk w) (device_value dev) ->
  exists r w' hi, block_cache_write (Some dev) x buffer total w = Some (r, w') /\
    inv w' /\ (forall id, capacity (disk w') id = capacity (disk w) id) /\
    0 <= hi <= total /\ (r = 0 -> hi = total) /\
    (total <= buffer_max -> forall id y, 0 <= y < capacity (disk w) id ->
      view w' id y = overwritten w (device_value dev) x 0 hi buffer id y).
Proof.
  intros Hi Hx Ht Hc. unfold block_cache_write. rewrite (proj2 (nz_true total)) by lia. cbn [negb].
  apply write_loop_spec; done || lia.
Qed.

Lemma flush_spec dev w :
  inv w -> let '(r, w') := block_cache_flush (Some dev) w in
  inv w' /\ same_view w w' /\
  (r = 0 -> forall x, 0 <= x < capacity (disk w) (device_value dev) ->
     sector (disk w') (device_value dev) x = view w (device_value dev) x).
Proof.
  intros Hi. pose proof (flush_loop_spec (Z.to_nat BLOCK_CACHE_MAX) 0 dev w Hi) as Hf. unfold block_cache_flush.
  destruct (flush_loop _ _ _ _) as [r w']. destruct Hf as (Hi' & Hv & _ & Hr); [done|done|].
  split_and!; [done|done|]. intros Hr0 x Hx. rewrite <- (sv_view _ _ Hv) by done.
  rewrite <- (sv_capacity _ _ Hv) in Hx.
  destruct (caches_dec w' (device_value dev) x) as [[j Hca]|Hu]; [|by rewrite view_uncached].
  rewrite (view_cached w' j) by done. destruct (caches_offset w' j _ x Hi' Hca Hx) as [Ex Hs].
  destruct Hca as (Hj & Hst & Hid & _). pose proof (iv_entry w' Hi' j Hj Hst) as He.
  destruct (eo_state _ _ He) as [Hcl|Hd]; [|by destruct (Hr Hr0 j)].
  by rewrite (eo_clean _ _ He Hcl _ Hs), <- Ex, Hid.
Qed.

Lemma invalidate_spec fuel dev x total w :
  inv w -> 0 <= x -> 0 < total -> x + total < 0xFFFFFFF8 -> total <= Z.of_nat fuel ->
  exists w', block_cache_invalidate fuel (Some dev) x total w = Some w' /\ inv w' /\ disk w' = disk w /\
    forall id y, is_u32 y -> view w' id y =
      if decide (id = device_value dev /\ page_lba x <= page_lba y <= page_lba (x + total - 1))
      then sector (disk w) id y else view w id y.
Proof.
  intros Hi Hx Ht Hb Hf. unfold block_cache_invalidate. rewrite (proj2 (nz_true total)) by lia. cbn [negb].
  rewrite (u32_small (x + total - 1)) by (unfold is_u32; lia).
  rewrite !(page_lba_value x), !(page_lba_value (x + total - 1)) by (unfold is_u32; lia).
  unfold BLOCK_CACHE_SECTORS. apply invalidate_loop_spec; [done|dmlia..].
Qed.

Lemma cache_step_inv w w' : inv w -> step w w' -> inv w'.
Proof.
  intros Hi Hs. destruct Hs as [dev x buffer total w r buffer' w' He|dev x buffer total w r w' He|dev w|id w|fuel dev x total w w' He];
    try (destruct dev as [dev|]; [|simpl in *; by simplify_eq]).
  - unfold block_cache_read in He. destruct (negb _); [by simplify_eq|]. by eapply read_loop_inv.
  - unfold block_cache_write in He. destruct (negb _); [by simplify_eq|]. by eapply write_loop_inv.
  - pose proof (flush_spec dev w Hi) as Hf. destruct (block_cache_flush (Some dev) w) as [r w']. apply Hf.
  - by apply drop_device_inv.
  - unfold block_cache_invalidate in He. destruct (negb _); [by simplify_eq|]. by eapply invalidate_loop_inv.
Qed.

Lemma cache_reachable_inv w0 w : rtc step (block_cache_init w0) w -> inv w.
Proof.
  intros Hs. pose proof (cache_init_inv w0) as Hi. revert Hi.
  induction Hs as [|w1 w2 w3 H1 _ IH]; [done|]. intros Hi. by eapply IH, cache_step_inv.
Qed.

End View.

(** ** Properties *)

(** A device of twelve sectors that never fails. *)
Definition toy_disk : Type := Z -> Z -> sector_data.

#[global] Instance toy_layer : BlockLayer toy_disk := {
  device_value dev := u32 dev;
  block_info _ _ := Some 12;
  block_read dev x d := (Some (d (u32 dev) x), d);
  block_write dev x v d :=
    (false, fun id y => if (id =? u32 dev) && (y =? x) then v else d id y)
}.

#[global] Instance toy_layer_laws : BlockLayerLaws toy_disk.
Proof.
  refine {| sector (d : toy_disk) := d; capacity := fun _ _ => 12 |}; simpl.
  - intros _ _. unfold is_u32. lia.
  - intros dev. apply u32_range.
  - by intros dev d n [= <-].
  - done.
  - by intros dev x d v [= <-].
  - intros dev x v d id y Hn. destruct (Z.eqb_spec id (u32 dev)), (Z.eqb_spec y x); cbn [andb]; tauto || done.
  - done.
  - intros dev x v d _. by rewrite !Z.eqb_refl.
Defined.

Definition toy_boot : world toy_disk :=
  block_cache_init (World (fun _ => CacheEntry None 0 0 0 0 (fun _ => [])) 0 (fun _ _ => [7])).

(** C6: The cache refines a flat disk.  In every state that any calls lead to,
    for a request inside the device with a buffer of at most 4 GiB: a read ends
    and, when it answers 0, delivers the sectors callers see; a write replaces
    exactly the sectors of its request, or a prefix of them when it fails;
    transfers, evictions and failing write-backs change nothing else that
    callers see; and after a flush that answers 0 the device holds it all. *)
Theorem block_cache_refines_disk {D} `{BlockLayerLaws D} w0 (w : world D) dev x buffer total :
  rtc step (block_cache_init w0) w -> 0 <= x -> 0 < total -> total <= buffer_max ->
  x + total <= capacity (disk w) (device_value dev) ->
  (exists r buffer' w', block_cache_read (Some dev) x buffer total w = Some (r, buffer', w') /\
     same_view w w' /\
     (r = 0 -> forall j, 0 <= j < total -> buffer' j = view w (device_value dev) (x + j)) /\
     (forall j, j < 0 \/ total <= j -> buffer' j = buffer j)) /\
  (exists r w' hi, block_cache_write (Some dev) x buffer total w = Some (r, w') /\
     0 <= hi <= total /\ (r = 0 -> hi = total) /\
     forall id y, 0 <= y < capacity (disk w) id ->
       view w' id y = overwritten w (device_value dev) x 0 hi buffer id y) /\
  (let '(r, w') := block_cache_flush (Some dev) w in
   same_view w w' /\
   (r = 0 -> forall y, 0 <= y < capacity (disk w) (device_value dev) ->
      sector (disk w') (device_value dev) y = view w (device_value dev) y)).
Proof.
  intros Hs Hx Ht Hm Hc. pose proof (cache_reachable_inv w0 w Hs) as Hi. split_and!.
  - destruct (read_spec dev x buffer total w Hi Hx Ht Hc) as (r & b & w' & ? & ? & ? & Hb). destruct (Hb Hm). eauto 10.
  - destruct (write_spec dev x buffer total w Hi Hx Ht Hc) as (r & w' & hi & ? & ? & ? & ? & ? & Hv).
    exists r, w', hi. auto.
  - pose proof (flush_spec dev w Hi) as Hf. destruct (block_cache_flush (Some dev) w). apply Hf.
Qed.

Lemma block_cache_refines_disk_witness :
  fst <$> block_cache_write (Some 3) 6 (fun _ => [9]) 4 toy_boot = Some 0 /\
  exists r buffer' w', block_cache_read (Some 3) 6 (fun _ => []) 4 toy_boot = Some (r, buffer', w') /\
    same_view toy_boot w'.
Proof.
  split; [vm_compute; reflexivity|].
  destruct (block_cache_refines_disk
    (World (fun _ => CacheEntry None 0 0 0 0 (fun _ => [])) 0 (fun _ _ => [7])) toy_boot 3 6 (fun _ => []) 4)
    as ((r & b & w' & He & Hv & _) & _).
  - apply rtc_refl.
  - lia.
  - lia.
  - vm_compute. discriminate.
  - simpl. lia.
  - exists r, b, w'. split; [exact He|exact Hv].
Defined.

(** Invalidation ends and leaves exactly the pages that overlap the range
    uncached: their sectors read as the device holds them, whatever was cached,
    and every other sector reads as before. *)
Theorem block_cache_invalidate_correct {D} `{BlockLayerLaws D} w0 (w : world D) dev x total :
  rtc step (block_cache_init w0) w -> 0 <= x -> 0 < total -> x + total < 0xFFFFFFF8 ->
  exists w', block_cache_invalidate (Z.to_nat total) (Some dev) x total w = Some w' /\ disk w' = disk w /\
    forall id y, is_u32 y -> view w' id y =
      if decide (id = device_value dev /\ page_lba x <= page_lba y <= page_lba (x + total - 1))
      then sector (disk w) id y else view w id y.
Proof.
  intros Hs Hx Ht Hb. pose proof (cache_reachable_inv w0 w Hs) as Hi.
  destruct (invalidate_spec (Z.to_nat total) dev x total w Hi Hx Ht Hb) as (w' & ? & ? & ? & ?); [lia|].
  exists w'. auto.
Qed.

Lemma block_cache_invalidate_correct_witness :
  exists w', block_cache_invalidate (Z.to_nat 3) (Some 3) 6 3 toy_boot = Some w' /\ view w' 3 7 = [7].
Proof.
  destruct (block_cache_invalidate_correct
    (World (fun _ => CacheEntry None 0 0 0 0 (fun _ => [])) 0 (fun _ _ => [7])) toy_boot 3 6 3) as (w' & He & _ & Hv).
  - apply rtc_refl.
  - lia.
  - lia.
  - lia.
  - exists w'. split; [exact He|]. rewrite Hv by (unfold is_u32; lia). vm_compute. reflexivity.
Defined.

(** The rest of the page behind the last sector of a device. *)
Definition past_end_write : option (Z * Z * sector_data) :=
  match block_cache_write (Some 3) 13 (fun _ => [9]) 1 toy_boot with
  | Some (r, w) =>
      let '(f, w) := block_cache_flush (Some 3) w in
      match block_cache_read (Some 3) 13 (fun _ => []) 1 (block_cache_drop_device 3 w) with
      | Some (_, buffer, _) => Some (r, f, buffer 0)
      | None => None
      end
  | None => None
  end.

(** A write behind the end of a device whose last page is partial is
    accepted and lost: sector 13 of a twelve-sector device answers 0 to the
    write and to the flush, and reads back as zeros once the page has left the
    cache. *)
Theorem block_cache_write_past_end : past_end_write = Some (0, 0, zero_sector).
Proof. vm_compute. reflexivity. Qed.

End BlockCache.
