(* ===== verification/Wire.v ===== *)
(** Big-endian fields of packets: the static [read_be16], [read_be32],
    [write_be16] and [write_be32] that every protocol module of [src/net]
    carries a copy of. *)

From S2P Require Import Prelude.

Module Wire.

(** Byte [i] of a buffer, the C expression [bytes[i]]. *)
Definition at_ (l : list Z) (i : Z) : Z := byte_at l (Z.to_nat i).

Definition read_be16 (l : list Z) (i : Z) : Z :=
  Z.lor (u16 (Z.shiftl (at_ l i) 8)) (at_ l (i + 1)).

Definition read_be32 (l : list Z) (i : Z) : Z :=
  Z.lor (Z.lor (Z.lor (u32 (Z.shiftl (at_ l i) 24)) (u32 (Z.shiftl (at_ l (i + 1)) 16)))
    (u32 (Z.shiftl (at_ l (i + 2)) 8))) (at_ l (i + 3)).

Definition write_be16 (v : Z) : list Z := [u8 (Z.shiftr v 8); u8 v].

Definition write_be32 (v : Z) : list Z :=
  [u8 (Z.shiftr v 24); u8 (Z.shiftr v 16); u8 (Z.shiftr v 8); u8 v].

Lemma at_app_l l1 l2 i : 0 <= i < Z.of_nat (length l1) -> at_ (l1 ++ l2) i = at_ l1 i.
Proof. intros Hi. unfold at_, byte_at. apply app_nth1. lia. Qed.

Lemma at_app_r l1 l2 i : Z.of_nat (length l1) <= i -> at_ (l1 ++ l2) i = at_ l2 (i - Z.of_nat (length l1)).
Proof.
  intros Hi. unfold at_, byte_at. rewrite app_nth2 by lia. f_equal. lia.
Qed.

Lemma be16_read ty : is_u16 ty -> Z.lor (u16 (Z.shiftl (Z.shiftr ty 8) 8)) (Z.land ty 0xFF) = ty.
Proof.
  intros Ht. unfold is_u16 in Ht. change 0xFF with (Z.ones 8).
  rewrite Z.land_ones by lia. rewrite u16_small.
  - rewrite Z.shiftr_div_pow2 by lia. rewrite lor_shiftl_add by (change (2 ^ 8) with 256; dmlia).
    change (2 ^ 8) with 256. dmlia.
  - unfold is_u16. rewrite Z.shiftl_mul_pow2, Z.shiftr_div_pow2 by lia. change (2 ^ 8) with 256. dmlia.
Qed.

Lemma read_be16_cons a b l : read_be16 (a :: b :: l) 0 = Z.lor (u16 (Z.shiftl a 8)) b.
Proof. reflexivity. Qed.

Lemma read_be16_skip a b l i : 0 <= i -> read_be16 (a :: b :: l) (i + 2) = read_be16 l i.
Proof.
  intros Hi. unfold read_be16, at_, byte_at.
  replace (Z.to_nat (i + 2)) with (S (S (Z.to_nat i))) by lia.
  replace (Z.to_nat (i + 2 + 1)) with (S (S (Z.to_nat (i + 1)))) by lia. done.
Qed.

Lemma read_write_be32 v : is_u32 v -> read_be32 (write_be32 v) 0 = v.
Proof.
  intros Hv. unfold is_u32 in Hv. unfold read_be32.
  change (at_ (write_be32 v) 0) with (u8 (Z.shiftr v 24)).
  change (at_ (write_be32 v) (0 + 1)) with (u8 (Z.shiftr v 16)).
  change (at_ (write_be32 v) (0 + 2)) with (u8 (Z.shiftr v 8)).
  change (at_ (write_be32 v) (0 + 3)) with (u8 v).
  rewrite !Z.shiftr_div_pow2 by lia. change (2 ^ 24) with 0x1000000. change (2 ^ 16) with 0x10000.
  change (2 ^ 8) with 0x100.
  rewrite !u32_small by (unfold is_u32; rewrite Z.shiftl_mul_pow2 by lia; words).
  rewrite <- !Z.lor_assoc. unfold u8.
  rewrite (lor_shiftl_add _ _ 8) by (change (2 ^ 8) with 0x100; dmlia).
  rewrite (lor_shiftl_add _ _ 16) by (change (2 ^ 16) with 0x10000; change (2 ^ 8) with 0x100; dmlia).
  rewrite (lor_shiftl_add _ _ 24) by
    (change (2 ^ 24) with 0x1000000; change (2 ^ 16) with 0x10000; change (2 ^ 8) with 0x100; dmlia).
  change (2 ^ 24) with 0x1000000. change (2 ^ 16) with 0x10000. change (2 ^ 8) with 0x100. dmlia.
Qed.

Lemma read_be32_shift l1 l2 i : Z.of_nat (length l1) = i -> read_be32 (l1 ++ l2) i = read_be32 l2 0.
Proof.
  intros Hi. unfold read_be32. rewrite !at_app_r by lia.
  replace (i - Z.of_nat (length l1)) with 0 by lia.
  replace (i + 1 - Z.of_nat (length l1)) with (0 + 1) by lia.
  replace (i + 2 - Z.of_nat (length l1)) with (0 + 2) by lia.
  by replace (i + 3 - Z.of_nat (length l1)) with (0 + 3) by lia.
Qed.


Lemma read_be16_shift l1 l2 i : Z.of_nat (length l1) = i -> read_be16 (l1 ++ l2) i = read_be16 l2 0.
Proof.
  intros Hi. unfold read_be16. rewrite !at_app_r by lia.
  replace (i - Z.of_nat (length l1)) with 0 by lia.
  by replace (i + 1 - Z.of_nat (length l1)) with (0 + 1) by lia.
Qed.

Lemma read_write_be16 v l : is_u16 v -> read_be16 (write_be16 v ++ l) 0 = v.
Proof.
  intros Hv. rewrite <- (be16_read v Hv) at 2. unfold is_u16 in Hv.
  change (read_be16 (write_be16 v ++ l) 0) with (Z.lor (u16 (Z.shiftl (u8 (Z.shiftr v 8)) 8)) (u8 v)).
  rewrite (u8_small (Z.shiftr v 8)) by (unfold is_u8; rewrite Z.shiftr_div_pow2 by lia; change (2 ^ 8) with 256; dmlia).
  change 0xFF with (Z.ones 8). rewrite Z.land_ones by lia. done.
Qed.

End Wire.
