(* ===== verification/Ethernet.v ===== *)
(** Ethernet framing and dispatch: [src/net/ethernet.c].

    A frame is the list of its bytes, so its length is the list's and a null
    pointer is [None].  A registered handler is a value of the type [H]; the
    code it stands for is the argument [run] of [ethernet_receive].  The two
    loops over a virtual NIC are not modelled here. *)

From S2P Require Import Prelude Wire.

Module Ethernet.

Import Wire.

Definition ETHERNET_ADDRESS_SIZE : Z := 6.

Definition ETHERNET_HEADER_SIZE : Z := 14.

Definition ETHERNET_VLAN_HEADER_SIZE : Z := 18.

Definition ETHERNET_FRAME_MAX_UNTAGGED : Z := 1518.

Definition ETHERNET_FRAME_MAX : Z := 1522.

Definition ETHERNET_HANDLER_MAX : Z := 8.

Definition ETHERNET_FLAG_BROADCAST : Z := Z.shiftl 1 0.

Definition ETHERNET_FLAG_MULTICAST : Z := Z.shiftl 1 1.

Definition ETHERNET_FLAG_VLAN : Z := Z.shiftl 1 2.

Record ethernet_frame_view := FrameView {
  frame : list Z;
  payload : list Z;
  frame_length : Z;
  payload_length : Z;
  ether_type : Z;
  vlan_tci : Z;
  flags : Z
}.

Inductive ethernet_stat :=
  | frames | bytes | unicast | broadcast | multicast | vlan
  | drops_length | drops_source | drops_filter | drops_protocol.

#[global] Instance ethernet_stat_eq : EqDecision ethernet_stat.
Proof. solve_decision. Defined.

Definition bump (n : Z) (c : ethernet_stat) (s : ethernet_stat -> Z) : ethernet_stat -> Z :=
  fun c' => if decide (c' = c) then u64 (s c + n) else s c'.

Record ethernet_handler {H : Type} := Handler {
  handler_type : Z;
  handler_function : H
}.

Arguments ethernet_handler : clear implicits.

Arguments Handler {H} _ _.

Record ethernet_port {H : Type} := Port {
  address : list Z;
  promiscuous : bool;
  accept_multicast : bool;
  handlers : list (ethernet_handler H);
  stats : ethernet_stat -> Z
}.

Arguments ethernet_port : clear implicits.

Arguments Port {H} _ _ _ _ _.

(** [bytes + i] as an address of six bytes. *)
Definition address_at (l : list Z) (i : Z) : list Z := (fun k => at_ l (i + k)) <$> seqZ 0 6.

Definition address_equal (left right : list Z) : bool :=
  forallb (fun k => at_ left k =? at_ right k) (seqZ 0 ETHERNET_ADDRESS_SIZE).

Definition address_broadcast (a : list Z) : bool :=
  forallb (fun k => at_ a k =? 0xFF) (seqZ 0 ETHERNET_ADDRESS_SIZE).

Definition address_zero (a : list Z) : bool :=
  forallb (fun k => at_ a k =? 0) (seqZ 0 ETHERNET_ADDRESS_SIZE).

Section Port.

Context {H W : Type}.

Definition set_stats (s : ethernet_stat -> Z) (p : ethernet_port H) : ethernet_port H :=
  Port (address p) (promiscuous p) (accept_multicast p) (handlers p) s.

Definition count (n : Z) (c : ethernet_stat) (p : ethernet_port H) : ethernet_port H :=
  set_stats (bump n c (stats p)) p.

(** [None] is the error answer; the previous content of the port is not read. *)
Definition ethernet_port_init (a : option (list Z)) : option (ethernet_port H) :=
  match a with
  | None => None
  | Some a =>
      if nz (Z.land (at_ a 0) 1) || address_zero a then None
      else Some (Port (address_at a 0) false false [] (fun _ => 0))
  end.

Definition ethernet_port_set_filter (prom multi : bool) (p : ethernet_port H) : ethernet_port H :=
  Port (address p) prom multi (handlers p) (stats p).

Definition ethernet_register_handler (ty : Z) (function : H) (p : ethernet_port H) : Z * ethernet_port H :=
  if (ty <? 0x0600) || (ETHERNET_HANDLER_MAX <=? Z.of_nat (length (handlers p))) then (-1, p) else
  if existsb (fun h => handler_type h =? ty) (handlers p) then (-1, p)
  else (0, Port (address p) (promiscuous p) (accept_multicast p)
             (handlers p ++ [Handler ty function]) (stats p)).

Definition ethernet_parse (data : option (list Z)) : Z + ethernet_frame_view :=
  match data with
  | None => inl (-1)
  | Some l =>
      let len := Z.of_nat (length l) in
      if (len <? ETHERNET_HEADER_SIZE) || (ETHERNET_FRAME_MAX <? len) then inl (-1) else
      let source := address_at l ETHERNET_ADDRESS_SIZE in
      if nz (Z.land (at_ source 0) 1) || address_zero source then inl (-2) else
      let ty := read_be16 l 12 in
      let fl := if address_broadcast l then ETHERNET_FLAG_BROADCAST
                else if nz (Z.land (at_ l 0) 1) then ETHERNET_FLAG_MULTICAST else 0 in
      let tagged := (ty =? 0x8100) || (ty =? 0x88A8) in
      if tagged && (len <? ETHERNET_VLAN_HEADER_SIZE) then inl (-1) else
      let tci := if tagged then read_be16 l 14 else 0 in
      let inner := if tagged then read_be16 l 16 else ty in
      let header := if tagged then ETHERNET_VLAN_HEADER_SIZE else ETHERNET_HEADER_SIZE in
      let fl := if tagged then Z.lor fl ETHERNET_FLAG_VLAN else fl in
      if tagged && ((inner =? 0x8100) || (inner =? 0x88A8)) then inl (-3) else
      if inner <? 0x0600 then inl (-3) else
      if negb (nz (Z.land fl ETHERNET_FLAG_VLAN)) && (ETHERNET_FRAME_MAX_UNTAGGED <? len) then inl (-1)
      else inr (FrameView l (drop (Z.to_nat header) l) len (u32 (len - header)) inner tci fl)
  end.

Definition destination_allowed (p : ethernet_port H) (f : ethernet_frame_view) : bool :=
  if promiscuous p || address_equal (frame f) (address p) || nz (Z.land (flags f) ETHERNET_FLAG_BROADCAST)
  then true
  else nz (Z.land (flags f) ETHERNET_FLAG_MULTICAST) && accept_multicast p.

Definition ethernet_receive (run : H -> ethernet_frame_view -> W -> Z * W) (data : option (list Z))
    (p : ethernet_port H) (w : W) : Z * ethernet_port H * W :=
  match ethernet_parse data with
  | inl parsed =>
      (-1, count 1 (if parsed =? -1 then drops_length
                    else if parsed =? -2 then drops_source else drops_protocol) p, w)
  | inr f =>
      if negb (destination_allowed p f) then (-1, count 1 drops_filter p, w) else
      let p := count 1 frames p in
      let p := count (frame_length f) bytes p in
      let p := count 1 (if nz (Z.land (flags f) ETHERNET_FLAG_BROADCAST) then broadcast
                        else if nz (Z.land (flags f) ETHERNET_FLAG_MULTICAST) then multicast
                        else unicast) p in
      let p := if nz (Z.land (flags f) ETHERNET_FLAG_VLAN) then count 1 vlan p else p in
      match List.find (fun h => handler_type h =? ether_type f) (handlers p) with
      | None => (-1, count 1 drops_protocol p, w)
      | Some h =>
          let '(r, w) := run (handler_function h) f w in
          if nz r then (-1, count 1 drops_protocol p, w) else (0, p, w)
      end
  end.

End Port.

(** ** Framing *)

Definition is_address (a : list Z) : Prop := length a = 6%nat /\ is_bytes a.

(** A source address that receivers accept. *)
Definition is_source (a : list Z) : Prop :=
  is_address a /\ Z.land (at_ a 0) 1 = 0 /\ exists k, 0 <= k < 6 /\ at_ a k <> 0.

Lemma address_six (a : list Z) : length a = 6%nat -> exists b0 b1 b2 b3 b4 b5, a = [b0; b1; b2; b3; b4; b5].
Proof. intros Hl. do 7 (destruct a as [|? a]; try done). eauto 10. Qed.

Lemma address_equal_spec a b :
  length a = 6%nat -> length b = 6%nat -> address_equal a b = true <-> a = b.
Proof.
  intros Ha Hb. destruct (address_six a Ha) as (? & ? & ? & ? & ? & ? & ->).
  destruct (address_six b Hb) as (? & ? & ? & ? & ? & ? & ->).
  unfold address_equal, ETHERNET_ADDRESS_SIZE. change (seqZ 0 6) with [0; 1; 2; 3; 4; 5]. cbn [forallb].
  unfold at_, byte_at. simpl. rewrite !andb_true_iff, !Z.eqb_eq.
  split; [by intros (-> & -> & -> & -> & -> & -> & _)|by intros [= -> -> -> -> -> ->]].
Qed.

Lemma address_zero_spec a : address_zero a = false <-> exists k, 0 <= k < 6 /\ at_ a k <> 0.
Proof.
  unfold address_zero, ETHERNET_ADDRESS_SIZE. rewrite <- not_true_iff_false, forallb_forall. split.
  - intros Hn. destruct (decide (Exists (fun k => at_ a k <> 0) (seqZ 0 6))) as [He|He].
    + apply Exists_exists in He as (k & Hk & Hz). apply elem_of_seqZ in Hk. exists k. split; [lia|done].
    + destruct Hn. intros k Hk. apply Z.eqb_eq. apply not_Exists_Forall in He; [|apply _].
      rewrite Forall_forall in He. specialize (He k). apply dec_stable. apply He. by apply list_elem_of_In.
  - intros (k & Hk & Hz) Hall. apply Hz, Z.eqb_eq, Hall, list_elem_of_In, elem_of_seqZ. lia.
Qed.

(** An optional 802.1Q tag before the type. *)
Definition tag_of (tag : option Z) : list Z :=
  match tag with
  | None => []
  | Some tci => [0x81; 0x00; Z.shiftr tci 8; Z.land tci 0xFF]
  end.

(** The frame a sender puts on the wire. *)
Definition tagged_frame (destination source : list Z) (tag : option Z) (ty : Z) (body : list Z) : list Z :=
  destination ++ source ++ tag_of tag ++ [Z.shiftr ty 8; Z.land ty 0xFF] ++ body.

Definition flags_of (destination : list Z) (tag : option Z) : Z :=
  let fl := if address_broadcast destination then ETHERNET_FLAG_BROADCAST
            else if nz (Z.land (at_ destination 0) 1) then ETHERNET_FLAG_MULTICAST else 0 in
  match tag with Some _ => Z.lor fl ETHERNET_FLAG_VLAN | None => fl end.

(** A type field that names a protocol. *)
Definition protocol_type (ty : Z) : Prop :=
  0x0600 <= ty < 0x10000 /\ ty <> 0x8100 /\ ty <> 0x88A8.

Lemma flags_vlan destination tag :
  nz (Z.land (flags_of destination tag) ETHERNET_FLAG_VLAN) = bool_decide (is_Some tag).
Proof.
  unfold flags_of. destruct tag; simpl;
    destruct (address_broadcast destination), (nz (Z.land (at_ destination 0) 1)); reflexivity.
Qed.

Lemma source_six a : is_source a -> exists b0 b1 b2 b3 b4 b5, a = [b0; b1; b2; b3; b4; b5] /\
  nz (Z.land b0 1) = false /\ address_zero [b0; b1; b2; b3; b4; b5] = false.
Proof.
  intros ([Hl _] & Hb & Hz). apply address_zero_spec in Hz.
  destruct (address_six a Hl) as (b0 & b1 & b2 & b3 & b4 & b5 & ->).
  exists b0, b1, b2, b3, b4, b5. split_and!; [done| |done]. by apply nz_false.
Qed.

Lemma address_at_cons d0 d1 d2 d3 d4 d5 s0 s1 s2 s3 s4 s5 l :
  address_at (d0 :: d1 :: d2 :: d3 :: d4 :: d5 :: s0 :: s1 :: s2 :: s3 :: s4 :: s5 :: l) 6 =
  [s0; s1; s2; s3; s4; s5].
Proof. reflexivity. Qed.

Lemma address_broadcast_cons d0 d1 d2 d3 d4 d5 l :
  address_broadcast (d0 :: d1 :: d2 :: d3 :: d4 :: d5 :: l) = address_broadcast [d0; d1; d2; d3; d4; d5].
Proof. reflexivity. Qed.

(** The reading of a frame that starts with two addresses. *)
Lemma parse_addresses destination source rest :
  is_address destination -> is_source source ->
  2 <= Z.of_nat (length rest) <= 1510 ->
  let l := destination ++ source ++ rest in
  let ty := read_be16 rest 0 in
  let tagged := (ty =? 0x8100) || (ty =? 0x88A8) in
  let inner := if tagged then read_be16 rest 4 else ty in
  let header := if tagged then 6 else 2 in
  let tag := if tagged then Some (read_be16 rest 2) else None in
  ethernet_parse (Some l) =
  if tagged && (Z.of_nat (length rest) <? 6) then inl (-1) else
  if tagged && ((inner =? 0x8100) || (inner =? 0x88A8)) then inl (-3) else
  if inner <? 0x0600 then inl (-3) else
  if negb tagged && (1506 <? Z.of_nat (length rest)) then inl (-1) else
  inr (FrameView l (drop (Z.to_nat header) rest) (Z.of_nat (length l)) (Z.of_nat (length rest) - header)
         inner (default 0 tag) (flags_of destination tag)).
Proof.
  intros [Hd _] Hs Hlen.
  destruct (address_six _ Hd) as (d0 & d1 & d2 & d3 & d4 & d5 & ->).
  destruct (source_six _ Hs) as (s0 & s1 & s2 & s3 & s4 & s5 & -> & Hm & Hz). cbv zeta.
  assert (forall i, 0 <= i -> at_ ([d0; d1; d2; d3; d4; d5] ++ [s0; s1; s2; s3; s4; s5] ++ rest) (12 + i) = at_ rest i) as Hat.
  { intros i Hi. rewrite app_assoc, at_app_r by (simpl; lia). f_equal. simpl. lia. }
  unfold ethernet_parse.
  assert (forall i, 0 <= i -> read_be16 ([d0; d1; d2; d3; d4; d5] ++ [s0; s1; s2; s3; s4; s5] ++ rest) (12 + i) =
    read_be16 rest i) as Hrd.
  { intros i Hi. unfold read_be16. rewrite <- Z.add_assoc, !Hat by lia. done. }
  pose proof (Hrd 0 ltac:(lia)) as H0. pose proof (Hrd 2 ltac:(lia)) as H2. pose proof (Hrd 4 ltac:(lia)) as H4.
  change (12 + 0) with 12 in H0. change (12 + 2) with 14 in H2. change (12 + 4) with 16 in H4.
  rewrite H0, H2, H4. clear H0 H2 H4 Hat Hrd.
  rewrite !length_app. change (length [d0; d1; d2; d3; d4; d5]) with 6%nat.
  change (length [s0; s1; s2; s3; s4; s5]) with 6%nat.
  set (n := Z.of_nat (length rest)) in *. replace (Z.of_nat (6 + (6 + length rest))) with (12 + n) by lia.
  unfold ETHERNET_HEADER_SIZE, ETHERNET_FRAME_MAX, ETHERNET_VLAN_HEADER_SIZE, ETHERNET_FRAME_MAX_UNTAGGED,
    ETHERNET_ADDRESS_SIZE.
  rewrite (proj2 (Z.ltb_ge (12 + n) 14)), (proj2 (Z.ltb_ge 1522 (12 + n))) by lia. cbn [orb].
  cbn [app]. rewrite address_at_cons, address_broadcast_cons.
  change (at_ [s0; s1; s2; s3; s4; s5] 0) with s0. rewrite Hm, Hz. cbn [orb].
  change (at_ (d0 :: _) 0) with d0.
  destruct ((read_be16 rest 0 =? 0x8100) || (read_be16 rest 0 =? 0x88A8)) eqn:Ht.
  - replace (12 + n <? 18) with (n <? 6) by (destruct (Z.ltb_spec n 6), (Z.ltb_spec (12 + n) 18); done || lia).
    cbn [andb negb]. case_if; [done|]. boolify. case_if; [done|]. case_if; [done|].
    pose proof (flags_vlan [d0; d1; d2; d3; d4; d5] (Some 0)) as Hfl. unfold flags_of in Hfl.
    change (at_ [d0; d1; d2; d3; d4; d5] 0) with d0 in Hfl. rewrite Hfl. cbn [negb andb].
    rewrite u32_small by (unfold is_u32; lia). replace (12 + n - 18) with (n - 6) by lia. done.
  - cbn [andb negb]. case_if; [done|].
    pose proof (flags_vlan [d0; d1; d2; d3; d4; d5] None) as Hfl. unfold flags_of in Hfl.
    change (at_ [d0; d1; d2; d3; d4; d5] 0) with d0 in Hfl. rewrite Hfl. cbn [negb andb].
    replace (1518 <? 12 + n) with (1506 <? n) by (destruct (Z.ltb_spec 1506 n), (Z.ltb_spec 1518 (12 + n)); done || lia).
    change (negb (bool_decide (is_Some None))) with true. cbn [andb].
    rewrite u32_small by (unfold is_u32; lia). replace (12 + n - 14) with (n - 2) by lia. done.
Qed.

Lemma parse_tagged destination source tag ty body :
  is_address destination -> is_source source -> protocol_type ty ->
  (forall tci, tag = Some tci -> is_u16 tci) -> Z.of_nat (length body) <= 1500 ->
  let l := tagged_frame destination source tag ty body in
  ethernet_parse (Some l) =
  inr (FrameView l body (Z.of_nat (length l)) (Z.of_nat (length body)) ty (default 0 tag)
         (flags_of destination tag)).
Proof.
  intros Hd Hs (Hty & H1 & H2) Htag Hlen. unfold tagged_frame.
  pose proof (be16_read ty ltac:(unfold is_u16; lia)) as Hr.
  destruct tag as [tci|]; cbn [tag_of app]; cbv zeta; rewrite parse_addresses by (done || (simpl; lia)); cbv zeta.
  - rewrite read_be16_cons. change ((Z.lor (u16 (Z.shiftl 129 8)) 0 =? 33024) || _) with true. cbn iota.
    rewrite (read_be16_skip _ _ _ 2), (read_be16_skip _ _ _ 0), (read_be16_skip _ _ _ 0), !read_be16_cons by lia.
    rewrite Hr, be16_read by (by apply Htag). cbn [andb negb].
    rewrite !(proj2 (Z.eqb_neq ty _)), (proj2 (Z.ltb_ge ty _)), (proj2 (Z.ltb_ge _ 6)) by (done || (simpl; lia)).
    cbn [orb]. f_equal. f_equal. simpl. lia.
  - rewrite read_be16_cons, Hr, !(proj2 (Z.eqb_neq ty _)), (proj2 (Z.ltb_ge ty _)) by (done || lia). cbn [orb andb negb].
    rewrite (proj2 (Z.ltb_ge 1506 _)) by (simpl; lia). f_equal. f_equal. simpl. lia.
Qed.

(** What a sender frames is what a receiver parses, with and without an
    802.1Q tag: addresses, type, tag and payload survive, and the flags say
    whether the destination is the broadcast or a group address. *)
Theorem ethernet_parse_roundtrip destination source tag ty body :
  is_address destination -> is_source source -> protocol_type ty ->
  (forall tci, tag = Some tci -> is_u16 tci) -> Z.of_nat (length body) <= 1500 ->
  let l := tagged_frame destination source tag ty body in
  ethernet_parse (Some l) =
  inr (FrameView l body (Z.of_nat (length l)) (Z.of_nat (length body)) ty (default 0 tag)
         (flags_of destination tag)).
Proof. apply parse_tagged. Qed.

Definition example_address : list Z := [0x52; 0x54; 0; 0x12; 0x34; 0x56].

Lemma example_address_source : is_source example_address.
Proof.
  split; [split; [reflexivity|]|split; [reflexivity|exists 0; split; [lia|discriminate]]].
  repeat constructor; discriminate.
Qed.

Lemma ethernet_parse_roundtrip_witness :
  exists f, ethernet_parse (Some (tagged_frame example_address example_address (Some 5) 0x0806 [1; 2; 3])) = inr f /\
    payload f = [1; 2; 3] /\ vlan_tci f = 5.
Proof.
  eexists. split; [|split].
  - apply (ethernet_parse_roundtrip example_address example_address (Some 5) 0x0806 [1; 2; 3]).
    + apply example_address_source.
    + apply example_address_source.
    + split; [lia|split; discriminate].
    + intros tci E. injection E as <-. split; [lia|reflexivity].
    + simpl. lia.
  - reflexivity.
  - reflexivity.
Defined.

End Ethernet.
