(* ===== verification/Arp.v ===== *)
(** Address resolution: [src/net/arp.c].

    The cache, the packet format, the receive handler with its reply budget,
    lookup, resolution and expiry.  The transmit function and the neighbour
    callback that a context is initialised with are the interface [ArpHost];
    a context pointer is not null.  The ghost field [sent] records every call
    of the transmit function with the time of the call. *)

From S2P Require Import Prelude Wire Ethernet.

Module Arp.

Import Wire Ethernet.

Definition ARP_CACHE_MAX : Z := 32.

Definition ARP_PACKET_SIZE : Z := 28.

Definition ARP_REPLY_WINDOW : Z := 100.

Definition ARP_REPLY_MAX : Z := 32.

Definition ARP_CACHE_EMPTY : Z := 0.

Definition ARP_CACHE_PENDING : Z := 1.

Definition ARP_CACHE_REACHABLE : Z := 2.

Record arp_cache_entry := ArpEntry {
  protocol_address : Z;
  hardware_address : list Z;
  updated : Z;
  expires : Z;
  last_request : Z;
  state : Z
}.

Inductive arp_stat :=
  | requests_received | replies_received | requests_sent | replies_sent | cache_updates
  | cache_expired | malformed | conflicts | rate_limited.

#[global] Instance arp_stat_eq : EqDecision arp_stat.
Proof. solve_decision. Defined.

(** One call of the transmit function. *)
Record transmission := Transmission {
  at_time : Z;
  to_address : list Z;
  packet : list Z
}.

Record arp_context := ArpContext {
  port : Z;
  local_address : Z;
  cache_ttl : Z;
  request_interval : Z;
  now : Z;
  reply_window_start : Z;
  replies_in_window : Z;
  cache : Z -> arp_cache_entry;
  stats : arp_stat -> Z;
  update : bool;
  sent : list transmission
}.

(** [port_address] is the [address] field of a port; [transmit] answers 0 on
    success. *)
Class ArpHost (W : Type) := {
  port_address : Z -> list Z;
  transmit : list Z -> Z -> list Z -> W -> Z * W;
  neighbor_update : Z -> list Z -> W -> W
}.

Section Context.

Definition set_cache (c : Z -> arp_cache_entry) (a : arp_context) : arp_context :=
  ArpContext (port a) (local_address a) (cache_ttl a) (request_interval a) (now a)
    (reply_window_start a) (replies_in_window a) c (stats a) (update a) (sent a).

Definition set_entry (i : Z) (e : arp_cache_entry) (a : arp_context) : arp_context :=
  set_cache (upd (cache a) i e) a.

Definition set_now (t : Z) (a : arp_context) : arp_context :=
  ArpContext (port a) (local_address a) (cache_ttl a) (request_interval a) t
    (reply_window_start a) (replies_in_window a) (cache a) (stats a) (update a) (sent a).

Definition set_window (start n : Z) (a : arp_context) : arp_context :=
  ArpContext (port a) (local_address a) (cache_ttl a) (request_interval a) (now a)
    start n (cache a) (stats a) (update a) (sent a).

Definition count (c : arp_stat) (a : arp_context) : arp_context :=
  ArpContext (port a) (local_address a) (cache_ttl a) (request_interval a) (now a)
    (reply_window_start a) (replies_in_window a) (cache a)
    (fun c' => if decide (c' = c) then u64 (stats a c + 1) else stats a c') (update a) (sent a).

Definition log (destination body : list Z) (a : arp_context) : arp_context :=
  ArpContext (port a) (local_address a) (cache_ttl a) (request_interval a) (now a)
    (reply_window_start a) (replies_in_window a) (cache a) (stats a) (update a)
    (sent a ++ [Transmission (now a) destination body]).

End Context.

Definition hardware_valid (a : list Z) : bool :=
  if nz (Z.land (at_ a 0) 1) then false
  else existsb (fun k => nz (at_ a k)) (seqZ 0 6).

Definition protocol_valid (a : Z) : bool :=
  let first := u8 (Z.shiftr a 24) in
  nz a && negb (a =? 0xFFFFFFFF) && negb (first =? 0) && negb (first =? 127) && (first <? 224).

Definition find_entry (a : arp_context) (address : Z) : option Z :=
  scan_range 0 ARP_CACHE_MAX (fun i =>
    negb (state (cache a i) =? ARP_CACHE_EMPTY) && (protocol_address (cache a i) =? address)).

(** The scan of [allocate_entry] from [i]. *)
Fixpoint allocate_loop (n : nat) (i : Z) (oldest : option Z) (c : Z -> arp_cache_entry) : option Z :=
  match n with
  | O => oldest
  | S n =>
      if state (c i) =? ARP_CACHE_EMPTY then Some i
      else allocate_loop n (i + 1)
        (match oldest with
         | None => Some i
         | Some o => if i32 (u32 (updated (c i) - updated (c o))) <? 0 then Some i else oldest
         end) c
  end.

Definition zero_address : list Z := [0; 0; 0; 0; 0; 0].

Definition allocate_entry (address t : Z) (a : arp_context) : option Z * arp_context :=
  match allocate_loop (Z.to_nat ARP_CACHE_MAX) 0 None (cache a) with
  | None => (None, a)
  | Some i =>
      (Some i, set_entry i (ArpEntry address zero_address t (u32 (t + cache_ttl a))
        (u32 (t - request_interval a)) ARP_CACHE_PENDING) a)
  end.

Definition build_packet (operation : Z) (sender_hardware : list Z) (sender_protocol : Z)
    (target_hardware : list Z) (target_protocol : Z) : list Z :=
  write_be16 1 ++ write_be16 0x0800 ++ [6; 4] ++ write_be16 operation ++
  address_at sender_hardware 0 ++ write_be32 sender_protocol ++
  address_at target_hardware 0 ++ write_be32 target_protocol.

Definition broadcast_address : list Z := [0xFF; 0xFF; 0xFF; 0xFF; 0xFF; 0xFF].

Section Host.

Context {W : Type} `{ArpHost W}.

Definition learn (address : Z) (hardware : list Z) (t : Z) (a : arp_context) (w : W) : arp_context * W :=
  let '(found, a) := match find_entry a address with
                     | Some i => (Some i, a)
                     | None => allocate_entry address t a
                     end in
  match found with
  | None => (a, w)
  | Some i =>
      let a := set_entry i (ArpEntry address (address_at hardware 0) t (u32 (t + cache_ttl a))
        (last_request (cache a i)) ARP_CACHE_REACHABLE) a in
      let a := count cache_updates a in
      (a, if update a then neighbor_update address hardware w else w)
  end.

(** The context after [arp_init], and whether its arguments are accepted; the
    answer is then that of the handler registration. *)
Definition init_ok (local ttl interval : Z) : bool :=
  protocol_valid local && nz ttl && (ttl <=? 0x7FFFFFFF) && nz interval && (interval <=? ttl).

Definition init_context (p local ttl interval : Z) : arp_context :=
  ArpContext p local ttl interval 0 0 0
    (fun _ => ArpEntry 0 zero_address 0 0 0 ARP_CACHE_EMPTY) (fun _ => 0) false [].

Definition arp_init {H : Type} (handler : H) (p : Z) (ethernet : ethernet_port H) (local ttl interval : Z)
    (a : arp_context) : Z * arp_context * ethernet_port H :=
  if negb (init_ok local ttl interval) then (-1, a, ethernet) else
  let '(r, ethernet) := ethernet_register_handler 0x0806 handler ethernet in
  (r, init_context p local ttl interval, ethernet).

Definition arp_set_update_callback (a : arp_context) : arp_context :=
  ArpContext (port a) (local_address a) (cache_ttl a) (request_interval a) (now a)
    (reply_window_start a) (replies_in_window a) (cache a) (stats a) true (sent a).

Definition arp_set_local_address (local : Z) (a : arp_context) : Z * arp_context :=
  if negb (protocol_valid local) then (-1, a) else
  (0, ArpContext (port a) local (cache_ttl a) (request_interval a) (now a)
        (reply_window_start a) (replies_in_window a)
        (fun i => let e := cache a i in
          if (0 <=? i) && (i <? ARP_CACHE_MAX)
          then ArpEntry (protocol_address e) (hardware_address e) (updated e) (expires e)
                 (last_request e) ARP_CACHE_EMPTY
          else e) (stats a) (update a) (sent a)).

(** The packet tests of the handler. *)
Definition packet_ok (f : ethernet_frame_view) : bool :=
  let l := payload f in
  (read_be16 l 0 =? 1) && (read_be16 l 2 =? 0x0800) && (at_ l 4 =? 6) && (at_ l 5 =? 4) &&
  ((read_be16 l 6 =? 1) || (read_be16 l 6 =? 2)) && hardware_valid (address_at l 8) &&
  address_equal (address_at l 8) (address_at (frame f) 6) &&
  protocol_valid (read_be32 l 14) && protocol_valid (read_be32 l 24).

(** A request for the local address that passed every test. *)
Definition answer_request (sender_hardware : list Z) (sender_protocol : Z) (a : arp_context) (w : W) :
    Z * arp_context * W :=
  let a := if ARP_REPLY_WINDOW <=? i32 (u32 (now a - reply_window_start a))
           then set_window (now a) 0 a else a in
  if ARP_REPLY_MAX <=? replies_in_window a then (0, count rate_limited a, w) else
  let a := set_window (reply_window_start a) (u32 (replies_in_window a + 1)) a in
  let reply := build_packet 2 (port_address (port a)) (local_address a) sender_hardware sender_protocol in
  let '(r, w) := transmit sender_hardware 0x0806 reply w in
  let a := log sender_hardware reply a in
  if nz r then (-1, a, w) else (0, count replies_sent a, w).

Definition arp_ethernet_handler (p : option Z) (f : option ethernet_frame_view) (a : arp_context) (w : W) :
    Z * arp_context * W :=
  match p, f with
  | Some p, Some f =>
      if negb (port a =? p) || negb (ether_type f =? 0x0806) || (payload_length f <? ARP_PACKET_SIZE)
      then (-1, count malformed a, w) else
      let l := payload f in
      let operation := read_be16 l 6 in
      let sender_hardware := address_at l 8 in
      let sender_protocol := read_be32 l 14 in
      let target_hardware := address_at l 18 in
      let target_protocol := read_be32 l 24 in
      if negb (packet_ok f) then (-1, count malformed a, w) else
      if (sender_protocol =? local_address a) && negb (address_equal sender_hardware (port_address p))
      then (-1, count conflicts a, w) else
      if operation =? 1 then
        let a := count requests_received a in
        if negb (target_protocol =? local_address a) then (0, a, w) else
        let '(a, w) := learn sender_protocol sender_hardware (now a) a w in
        answer_request sender_hardware sender_protocol a w
      else
        let a := count replies_received a in
        if negb (target_protocol =? local_address a) || negb (address_equal target_hardware (port_address p))
        then (-1, count malformed a, w) else
        let '(a, w) := learn sender_protocol sender_hardware (now a) a w in (0, a, w)
  | _, _ => (-1, count malformed a, w)
  end.

(** The answer 0 comes with the hardware address. *)
Definition arp_lookup (address t : Z) (a : arp_context) : option (list Z) * arp_context :=
  if negb (protocol_valid address) then (None, a) else
  let a := set_now t a in
  match find_entry a address with
  | None => (None, a)
  | Some i =>
      let e := cache a i in
      if negb (state e =? ARP_CACHE_REACHABLE) then (None, a) else
      if 0 <=? i32 (u32 (t - expires e)) then
        (None, count cache_expired (set_entry i (ArpEntry (protocol_address e) (hardware_address e)
          (updated e) (expires e) (last_request e) ARP_CACHE_EMPTY) a))
      else (Some (address_at (hardware_address e) 0), a)
  end.

Definition arp_resolve (address t : Z) (a : arp_context) (w : W) : Z * arp_context * W :=
  if negb (protocol_valid address) || (address =? local_address a) then (-1, a, w) else
  let a := set_now t a in
  let found := find_entry a address in
  let fresh := match found with
               | Some i => (state (cache a i) =? ARP_CACHE_REACHABLE) &&
                           (i32 (u32 (t - expires (cache a i))) <? 0)
               | None => false
               end in
  if fresh then (0, a, w) else
  let '(found, a) := match found with Some i => (Some i, a) | None => allocate_entry address t a end in
  match found with
  | None => (-1, a, w)
  | Some i =>
      if i32 (u32 (t - last_request (cache a i))) <? i32 (request_interval a)
      then (1, count rate_limited a, w) else
      let request := build_packet 1 (port_address (port a)) (local_address a) zero_address address in
      let '(r, w) := transmit broadcast_address 0x0806 request w in
      let a := log broadcast_address request a in
      if nz r then (-1, a, w) else
      let e := cache a i in
      let a := set_entry i (ArpEntry (protocol_address e) (hardware_address e) t (u32 (t + cache_ttl a)) t
        ARP_CACHE_PENDING) a in
      (1, count requests_sent a, w)
  end.

Definition arp_tick (t : Z) (a : arp_context) : arp_context :=
  for_range 0 ARP_CACHE_MAX (fun i a =>
    let e := cache a i in
    if (state e =? ARP_CACHE_EMPTY) || (i32 (u32 (t - expires e)) <? 0) then a else
    count cache_expired (set_entry i (ArpEntry 0 (hardware_address e) (updated e) (expires e)
      (last_request e) ARP_CACHE_EMPTY) a)) (set_now t a).

Definition arp_cache_count (s : Z) (a : arp_context) : Z :=
  count_from (Z.to_nat ARP_CACHE_MAX) 0 (fun i => state (cache a i) =? s).

End Host.

(** ** The packet format *)

Lemma address_at_six a : length a = 6%nat -> address_at a 0 = a.
Proof. intros Ha. by destruct (address_six a Ha) as (? & ? & ? & ? & ? & ? & ->). Qed.

Lemma packet_length op sh sp th tp : length (build_packet op sh sp th tp) = 28%nat.
Proof. reflexivity. Qed.

(** The fields a receiver reads are those the sender wrote. *)
Lemma packet_fields op sh sp th tp :
  let l := build_packet op sh sp th tp in
  length sh = 6%nat -> length th = 6%nat -> is_u16 op -> is_u32 sp -> is_u32 tp ->
  read_be16 l 0 = 1 /\ read_be16 l 2 = 0x0800 /\ at_ l 4 = 6 /\ at_ l 5 = 4 /\ read_be16 l 6 = op /\
  address_at l 8 = sh /\ read_be32 l 14 = sp /\ address_at l 18 = th /\ read_be32 l 24 = tp.
Proof.
  intros l Hs Ht Ho Hsp Htp.
  destruct (address_six sh Hs) as (s0 & s1 & s2 & s3 & s4 & s5 & ->).
  destruct (address_six th Ht) as (t0 & t1 & t2 & t3 & t4 & t5 & ->).
  split_and!; try reflexivity.
  - change (read_be16 l 6) with (read_be16 (write_be16 op ++ []) 0). by apply read_write_be16.
  - change (read_be32 l 14) with (read_be32 (write_be32 sp) 0). by apply read_write_be32.
  - change (read_be32 l 24) with (read_be32 (write_be32 tp) 0). by apply read_write_be32.
Qed.

(** ** The cache *)

Definition in_cache (i : Z) : Prop := 0 <= i < ARP_CACHE_MAX.

Definition holds (a : arp_context) (i address : Z) : Prop :=
  in_cache i /\ state (cache a i) <> ARP_CACHE_EMPTY /\ protocol_address (cache a i) = address.

(** At most one entry per address. *)
Definition inv (a : arp_context) : Prop :=
  forall i j address, holds a i address -> holds a j address -> i = j.

Lemma find_entry_spec a address :
  match find_entry a address with
  | Some i => holds a i address
  | None => forall i, ~ holds a i address
  end.
Proof.
  unfold find_entry. destruct (scan_range _ _ _) as [i|] eqn:Hs.
  - apply scan_range_Some in Hs as (Hi & Hb & _). boolify. by split_and!.
  - intros i (Hi & Hst & Hp). pose proof (proj1 (scan_range_None _ _ _) Hs i Hi) as Hb. cbv beta in Hb.
    rewrite (proj2 (Z.eqb_neq _ _) Hst), Hp, Z.eqb_refl in Hb. done.
Qed.

Lemma find_entry_holds a i address : inv a -> holds a i address -> find_entry a address = Some i.
Proof.
  intros Hi Hh. pose proof (find_entry_spec a address) as Hf. destruct (find_entry a address) as [j|].
  - f_equal. by apply (Hi j i address).
  - by destruct (Hf i).
Qed.

Lemma allocate_loop_in n i oldest c :
  (oldest <> None \/ n <> O) -> (forall o, oldest = Some o -> 0 <= o < i) -> 0 <= i ->
  exists r, allocate_loop n i oldest c = Some r /\ 0 <= r < i + Z.of_nat n.
Proof.
  revert i oldest. induction n as [|n IH]; intros i oldest Hne Ho Hi; cbn [allocate_loop].
  - destruct oldest as [o|]; [|by destruct Hne]. exists o. split; [done|]. specialize (Ho o eq_refl). lia.
  - case_if; [exists i; split; [done|lia]|].
    edestruct (IH (i + 1)) as (r & -> & Hr); [| |lia|exists r; split; [done|lia]].
    + left. destruct oldest; [case_if|]; done.
    + intros o. destruct oldest as [o'|]; [specialize (Ho o' eq_refl); case_if|]; intros [= <-]; lia.
Qed.

(** What operations never touch. *)
Record same_config (a a' : arp_context) : Prop := {
  sc_port : port a' = port a;
  sc_local : local_address a' = local_address a;
  sc_ttl : cache_ttl a' = cache_ttl a;
  sc_interval : request_interval a' = request_interval a;
  sc_now : now a' = now a
}.

(** One entry is replaced, and no other entry is for its address. *)
Lemma put_entry_spec i e a :
  inv a -> in_cache i -> state e <> ARP_CACHE_EMPTY ->
  (forall j, j <> i -> ~ holds a j (protocol_address e)) ->
  inv (set_entry i e a) /\ find_entry (set_entry i e a) (protocol_address e) = Some i.
Proof.
  intros Hi Hin Hs Hno.
  assert (forall j address, holds (set_entry i e a) j address ->
    (j = i /\ address = protocol_address e) \/ (j <> i /\ holds a j address)) as Hh.
  { intros j address (Hj & Hst & Hp). unfold holds. simpl in *.
    destruct (decide (j = i)) as [->|Hne]; [left; rewrite upd_eq in *; done|right].
    rewrite upd_ne in * by done. done. }
  assert (inv (set_entry i e a)) as Hi'.
  { intros j k address H1 H2. destruct (Hh j _ H1) as [[Ej E1]|[Hj H1']], (Hh k _ H2) as [[Ek E2]|[Hk H2']].
    - congruence.
    - subst address. by destruct (Hno k Hk).
    - subst address. by destruct (Hno j Hj).
    - by apply (Hi j k address). }
  split; [done|]. apply find_entry_holds; [done|]. unfold holds. simpl. by rewrite upd_eq.
Qed.

Lemma allocate_spec address t a :
  inv a -> (forall i, ~ holds a i address) -> exists i,
  allocate_entry address t a = (Some i, set_entry i (ArpEntry address zero_address t (u32 (t + cache_ttl a))
    (u32 (t - request_interval a)) ARP_CACHE_PENDING) a) /\ in_cache i /\
  inv (snd (allocate_entry address t a)) /\ find_entry (snd (allocate_entry address t a)) address = Some i.
Proof.
  intros Hi Hno. unfold allocate_entry.
  destruct (allocate_loop_in (Z.to_nat ARP_CACHE_MAX) 0 None (cache a)) as (i & He & Hr);
    [by right|done|done|]. rewrite He. exists i. unfold ARP_CACHE_MAX in Hr.
  assert (in_cache i) as Hin by (unfold in_cache, ARP_CACHE_MAX; lia). split; [done|]. split; [done|].
  apply (put_entry_spec i (ArpEntry address zero_address t (u32 (t + cache_ttl a)) (u32 (t - request_interval a))
    ARP_CACHE_PENDING)); done.
Qed.

Section Learning.

Context {W : Type} `{ArpHost W}.

(** [learn] always finds an entry, the address's own if it has one. *)
Lemma learn_spec address hardware t a w :
  inv a -> let '(a', w') := learn address hardware t a w in
  exists i lr, inv a' /\ same_config a a' /\ find_entry a' address = Some i /\ in_cache i /\
    (forall j, cache a' j = upd (cache a) i (ArpEntry address (address_at hardware 0) t
      (u32 (t + cache_ttl a)) lr ARP_CACHE_REACHABLE) j) /\
    sent a' = sent a /\ reply_window_start a' = reply_window_start a /\
    replies_in_window a' = replies_in_window a.
Proof.
  intros Hi. unfold learn. pose proof (find_entry_spec a address) as Hf.
  destruct (find_entry a address) as [i|].
  - set (e := ArpEntry _ _ _ _ _ _).
    destruct (put_entry_spec i e a) as [Hi' Hf']; [done|apply Hf|done| |].
    { intros j Hne Hj. apply Hne. by apply (Hi j i address). }
    exists i, (last_request (cache a i)). split_and!; try done; apply Hf.
  - destruct (allocate_spec address t a Hi Hf) as (i & He & Hin & Hi1 & Hf1). rewrite He in *. cbn [snd] in *.
    set (a1 := set_entry i _ a) in *. set (e := ArpEntry _ _ _ _ _ _).
    destruct (put_entry_spec i e a1) as [Hi' Hf']; [done|done|done| |].
    { intros j Hne Hj. apply Hne. apply (Hi1 j i address); [done|].
      pose proof (find_entry_spec a1 address) as Hs. by rewrite Hf1 in Hs. }
    exists i, (last_request (cache a1 i)). split_and!; try done; try apply Hin.
    intros j. simpl. unfold upd. by destruct (j =? i).
Qed.

(** The cache keeps what a packet taught until its time is over. *)
Lemma lookup_fresh address i e t a :
  find_entry a address = Some i -> cache a i = e -> state e = ARP_CACHE_REACHABLE ->
  protocol_valid address = true -> length (hardware_address e) = 6%nat ->
  0 < cache_ttl a <= 0x7FFFFFFF -> expires e = u32 (now a + cache_ttl a) ->
  u32 (t - now a) < cache_ttl a ->
  arp_lookup address t a = (Some (hardware_address e), set_now t a).
Proof.
  intros Hf He Hs Hp Hl Httl Hx Ht. unfold arp_lookup. rewrite Hp. cbn [negb].
  change (find_entry (set_now t a) address) with (find_entry a address). rewrite Hf.
  change (cache (set_now t a) i) with (cache a i). rewrite He, Hs. cbn [negb Z.eqb ARP_CACHE_REACHABLE].
  rewrite Hx, address_at_six by done.
  assert (i32 (u32 (t - u32 (now a + cache_ttl a))) < 0) as Hneg.
  { rewrite u32_sub_r. unfold i32. rewrite u32_idemp. unfold u32 in *. case_if; boolify; dmlia. }
  by rewrite (proj2 (Z.leb_gt _ _) Hneg).
Qed.

(** ** The handler *)

(** A packet the handler learns from. *)
Definition accepted (p : Z) (f : ethernet_frame_view) (a : arp_context) : bool :=
  let l := payload f in
  (port a =? p) && (ether_type f =? 0x0806) && (ARP_PACKET_SIZE <=? payload_length f) && packet_ok f &&
  negb ((read_be32 l 14 =? local_address a) && negb (address_equal (address_at l 8) (port_address p))) &&
  (read_be32 l 24 =? local_address a) &&
  ((read_be16 l 6 =? 1) || address_equal (address_at l 18) (port_address p)).

Lemma answer_request_spec hardware address a w :
  let '(r, a', w') := answer_request hardware address a w in
  cache a' = cache a /\ same_config a a'.
Proof.
  unfold answer_request. set (a1 := if (_ <=? _) then set_window _ _ a else a).
  assert (cache a1 = cache a /\ same_config a a1) as [Hc Hs] by (unfold a1; case_if; done).
  case_if; [by destruct Hs; split|]. destruct (transmit _ _ _ _) as [r w']. case_if; by destruct Hs; split.
Qed.

Lemma handler_cases p f a w :
  let l := payload f in
  let '(r, a', w') := arp_ethernet_handler (Some p) (Some f) a w in
  if accepted p f a then
    exists c, let '(a1, w1) := learn (read_be32 l 14) (address_at l 8) (now a) (count c a) w in
    (if read_be16 l 6 =? 1 then answer_request (address_at l 8) (read_be32 l 14) a1 w1 else (0, a1, w1)) = (r, a', w')
  else cache a' = cache a /\ sent a' = sent a /\ same_config a a' /\ w' = w /\
    reply_window_start a' = reply_window_start a /\ replies_in_window a' = replies_in_window a.
Proof.
  cbv zeta. unfold arp_ethernet_handler, accepted. set (l := payload f).
  destruct (port a =? p); cbn [negb orb andb]; [|done].
  destruct (ether_type f =? 0x0806); cbn [negb orb andb]; [|done].
  rewrite Z.leb_antisym. destruct (payload_length f <? ARP_PACKET_SIZE); cbn [negb andb]; [done|].
  destruct (packet_ok f) eqn:Hok; cbn [negb andb]; [|done].
  destruct ((read_be32 l 14 =? local_address a) && _); cbn [negb andb]; [done|].
  destruct (read_be16 l 6 =? 1); cbn [orb].
  - change (local_address (count requests_received a)) with (local_address a).
    destruct (read_be32 l 24 =? local_address a); cbn [negb andb]; [|done].
    change (now (count requests_received a)) with (now a).
    destruct (learn _ _ _ (count requests_received a) w) as [a1 w1] eqn:Hl.
    destruct (answer_request _ _ _ _) as [[r a'] w'] eqn:Ha. exists requests_received. by rewrite Hl.
  - change (local_address (count replies_received a)) with (local_address a).
    destruct (read_be32 l 24 =? local_address a); cbn [negb andb orb]; [|done].
    destruct (address_equal (address_at l 18) (port_address p)); cbn [negb]; [|done].
    change (now (count replies_received a)) with (now a).
    destruct (learn _ _ _ (count replies_received a) w) as [a1 w1] eqn:Hl.
    exists replies_received. by rewrite Hl.
Qed.

(** ** Reachable contexts *)

Record ok (a : arp_context) : Prop := {
  ok_inv : inv a;
  ok_ttl : 0 < cache_ttl a <= 0x7FFFFFFF;
  ok_window : 0 <= replies_in_window a <= ARP_REPLY_MAX
}.

Inductive step : arp_context -> arp_context -> Prop :=
  | step_handler p f a (w : W) : step a (snd (fst (arp_ethernet_handler p f a w)))
  | step_lookup address t a : step a (snd (arp_lookup address t a))
  | step_resolve address t a (w : W) : step a (snd (fst (arp_resolve address t a w)))
  | step_tick t a : step a (arp_tick t a)
  | step_local local a : step a (snd (arp_set_local_address local a))
  | step_callback a : step a (arp_set_update_callback a).

Lemma inv_cache a a' : cache a' = cache a -> inv a -> inv a'.
Proof. intros Hc Hi i j address. unfold holds. rewrite Hc. apply Hi. Qed.

(** Entries may be emptied, whatever else changes in them. *)
Lemma arp_inv_emptied a a' :
  (forall i, cache a' i = cache a i \/ state (cache a' i) = ARP_CACHE_EMPTY) -> inv a -> inv a'.
Proof.
  intros Hc Hi i j address (Hin & Hs & Hp) (Hin' & Hs' & Hp').
  apply (Hi i j address); [destruct (Hc i) as [E|E]|destruct (Hc j) as [E|E]]; try done;
    rewrite E in *; by split_and!.
Qed.

(** Every answered request spends one reply of the window. *)
Lemma answer_request_window hardware address a (w : W) :
  0 <= replies_in_window a <= ARP_REPLY_MAX ->
  let '(r, a', w') := answer_request hardware address a w in
  0 <= replies_in_window a' <= ARP_REPLY_MAX /\
  (i32 (u32 (now a - reply_window_start a)) < ARP_REPLY_WINDOW ->
   reply_window_start a' = reply_window_start a /\
   Z.of_nat (length (sent a')) - replies_in_window a' = Z.of_nat (length (sent a)) - replies_in_window a).
Proof.
  intros Hr. unfold answer_request. destruct (Z.leb_spec ARP_REPLY_WINDOW (i32 (u32 (now a - reply_window_start a)))).
  - cbn [replies_in_window set_window]. change (ARP_REPLY_MAX <=? 0) with false. cbn iota.
    destruct (transmit _ _ _ _) as [r w']. unfold ARP_REPLY_MAX in *. case_if; simpl; split; (done || lia).
  - destruct (Z.leb_spec ARP_REPLY_MAX (replies_in_window a)); [done|]. unfold ARP_REPLY_MAX in *.
    destruct (transmit _ _ _ _) as [r w'].
    case_if; simpl; rewrite u32_small by (unfold is_u32; lia); rewrite length_app; simpl; (split; [lia|]);
      intros _; (split; [done|lia]).
Qed.

Lemma handler_ok p f a (w : W) :
  ok a -> let '(r, a', w') := arp_ethernet_handler p f a w in
  ok a' /\ same_config a a' /\
  (i32 (u32 (now a - reply_window_start a)) < ARP_REPLY_WINDOW ->
   reply_window_start a' = reply_window_start a /\
   Z.of_nat (length (sent a')) - replies_in_window a' = Z.of_nat (length (sent a)) - replies_in_window a).
Proof.
  intros [Hi Ht Hw]. destruct p as [p|]; [|done]. destruct f as [f|]; [|done].
  pose proof (handler_cases p f a w) as Hc. cbv zeta in Hc.
  destruct (arp_ethernet_handler (Some p) (Some f) a w) as [[r a'] w']. destruct (accepted p f a).
  - destruct Hc as [c Hc]. pose proof (learn_spec (read_be32 (payload f) 14) (address_at (payload f) 8) (now a) (count c a) w) as Hl.
    destruct (learn _ _ _ _ _) as [a1 w1]. destruct Hl as (i & lr & Hi1 & Hs1 & _ & _ & _ & Hse & Hst & Hrw);
      [by apply (inv_cache a)|]. destruct Hs1 as [S1 S2 S3 S4 S5]. cbn in S1, S2, S3, S4, S5, Hse, Hst, Hrw.
    case_if.
    + pose proof (answer_request_window (address_at (payload f) 8) (read_be32 (payload f) 14) a1 w1) as Hwin.
      pose proof (answer_request_spec (address_at (payload f) 8) (read_be32 (payload f) 14) a1 w1) as Hspec.
      rewrite Hc in Hwin, Hspec. destruct Hspec as [Hca [S1' S2' S3' S4' S5']].
      rewrite S5, Hst, Hse, Hrw in Hwin. destruct (Hwin Hw) as [Hw1 Hw2].
      split_and!; [|split; congruence|done]. split; [by apply (inv_cache a1)|congruence|done].
    + injection Hc as <- <- <-. rewrite Hst, Hse, Hrw. split_and!; [|done|done]. split; [done|congruence|by rewrite Hrw].
  - destruct Hc as (Hca & Hse & Hs & _ & Hst & Hrw). rewrite Hst, Hse, Hrw. split_and!; [|done|done].
    destruct Hs as [_ _ S3 _ _]. split; [by apply (inv_cache a)|congruence|by rewrite Hrw].
Qed.

Lemma lookup_ok address t a : ok a -> ok (snd (arp_lookup address t a)).
Proof.
  intros [Hi Ht Hw]. unfold arp_lookup. case_if; [done|]. pose proof (inv_cache a (set_now t a) eq_refl Hi).
  destruct (find_entry _ _) as [i|]; [|done]. case_if; [done|]. case_if; [|done]. split; try done.
  apply (arp_inv_emptied (set_now t a)); [|done]. intros j. simpl.
  destruct (decide (j = i)) as [->|Hne]; [right; by rewrite upd_eq|left; by rewrite upd_ne].
Qed.

Lemma resolve_ok address t a (w : W) : ok a -> ok (snd (fst (arp_resolve address t a w))).
Proof.
  intros [Hi Ht Hw]. unfold arp_resolve. case_if; [done|]. pose proof (inv_cache a (set_now t a) eq_refl Hi) as Hi1.
  pose proof (find_entry_spec (set_now t a) address) as Hf.
  set (fresh := match find_entry _ _ with Some _ => _ | None => _ end). clearbody fresh.
  destruct fresh; [done|].
  assert (exists i a1, (match find_entry (set_now t a) address with Some i => (Some i, set_now t a) | None =>
    allocate_entry address t (set_now t a) end) = (Some i, a1) /\ inv a1 /\ holds a1 i address /\
    cache_ttl a1 = cache_ttl a /\ replies_in_window a1 = replies_in_window a) as (i & a1 & -> & Hi2 & Hh & Htt & Hrr).
  { destruct (find_entry (set_now t a) address) as [i|].
    - by exists i, (set_now t a).
    - destruct (allocate_spec address t (set_now t a) Hi1 Hf) as (i & He & Hin & Hi2 & Hf2).
      exists i. eexists. rewrite He in *. split_and!; try done.
      cbn [snd] in Hf2. pose proof (find_entry_spec (set_entry i (ArpEntry address zero_address t
        (u32 (t + cache_ttl (set_now t a))) (u32 (t - request_interval (set_now t a))) ARP_CACHE_PENDING) (set_now t a)) address) as Hs.
      by rewrite Hf2 in Hs. }
  case_if; [by split; cbn; rewrite ?Htt, ?Hrr|]. destruct (transmit _ _ _ _) as [r w'].
  case_if; [by split; cbn; rewrite ?Htt, ?Hrr|]. split; [|cbn; by rewrite Htt|cbn; by rewrite Hrr].
  set (a2 := log _ _ a1). set (e := ArpEntry _ _ _ _ _ _).
  apply (inv_cache (set_entry i e a2)); [done|]. apply (put_entry_spec i e a2).
  - by apply (inv_cache a1).
  - apply Hh.
  - done.
  - intros j Hne Hj. apply Hne. simpl in Hj. destruct Hh as (? & ? & Hp). rewrite Hp in Hj.
    apply (Hi2 j i address); [done|by split_and!].
Qed.

Lemma tick_ok t a : ok a -> ok (arp_tick t a).
Proof.
  intros [Hi Ht Hw]. unfold arp_tick. match goal with |- context [for_range _ _ ?b _] => set (body := b) end.
  apply (for_range_ind (fun _ a' => ok a') 0 ARP_CACHE_MAX body (set_now t a)); [by split; [apply (inv_cache a)| |]|].
  intros i a1 _ [Hi1 Ht1 Hw1]. unfold body. case_if; [done|]. split; try done.
  apply (arp_inv_emptied a1); [|done]. intros j. simpl.
  destruct (decide (j = i)) as [->|Hne]; [right; by rewrite upd_eq|left; by rewrite upd_ne].
Qed.

Lemma arp_step_ok a a' : ok a -> step a a' -> ok a'.
Proof.
  intros Hok Hs. destruct Hs as [p f a w|address t a|address t a w|t a|local a|a].
  - pose proof (handler_ok p f a w Hok) as Hh. destruct (arp_ethernet_handler p f a w) as [[r a'] w']. apply Hh.
  - by apply lookup_ok.
  - by apply resolve_ok.
  - by apply tick_ok.
  - unfold arp_set_local_address. case_if; [done|]. destruct Hok as [Hi Ht Hw]. split; try done.
    apply (arp_inv_emptied a); [|done]. intros i. simpl. case_if; [by right|by left].
  - destruct Hok as [Hi Ht Hw]. by split.
Qed.

Lemma arp_reachable_ok p local ttl interval a :
  is_u32 ttl -> init_ok local ttl interval = true -> rtc step (init_context p local ttl interval) a -> ok a.
Proof.
  intros Hu Hinit Hs. unfold is_u32 in Hu. assert (ok (init_context p local ttl interval)) as Hok.
  { unfold init_ok in Hinit. boolify. split; simpl.
    - intros i j address (_ & Hst & _). done.
    - lia.
    - unfold ARP_REPLY_MAX. lia. }
  revert Hok. induction Hs as [|a1 a2 a3 H1 _ IH]; [done|]. intros Hok. by eapply IH, arp_step_ok.
Qed.

End Learning.

Section Exchange.

Context {W : Type} `{ArpHost W}.

Lemma handler_lookup p f t a (w : W) :
  ok a -> let '(r, a', w') := arp_ethernet_handler (Some p) (Some f) a w in
  accepted p f a = true -> u32 (t - now a) < cache_ttl a ->
  fst (arp_lookup (read_be32 (payload f) 14) t a') = Some (address_at (payload f) 8).
Proof.
  intros [Hi Ht Hw]. pose proof (handler_cases p f a w) as Hc. cbv zeta in Hc.
  destruct (arp_ethernet_handler (Some p) (Some f) a w) as [[r a'] w']. intros Hacc Hfresh. rewrite Hacc in Hc.
  destruct Hc as [c Hc].
  pose proof (learn_spec (read_be32 (payload f) 14) (address_at (payload f) 8) (now a) (count c a) w) as Hl.
  destruct (learn _ _ _ _ _) as [a1 w1]. destruct Hl as (i & lr & Hi1 & Hs1 & Hf1 & _ & Hca & _);
    [by apply (inv_cache a)|]. destruct Hs1 as [S1 S2 S3 S4 S5]. cbn in S3, S5.
  assert (cache a' = cache a1 /\ cache_ttl a' = cache_ttl a /\ now a' = now a) as (Hc' & Ht' & Hn').
  { case_if; [|injection Hc as <- <- <-; done].
    pose proof (answer_request_spec (address_at (payload f) 8) (read_be32 (payload f) 14) a1 w1) as Hsp.
    rewrite Hc in Hsp. destruct Hsp as [? [? ? ? ? ?]]. split_and!; congruence. }
  erewrite (lookup_fresh _ i); [| |reflexivity| | | | | |].
  all: rewrite ?Hc', ?Hca, ?upd_eq, ?Ht', ?Hn'; try done.
  - unfold find_entry. rewrite Hc'. exact Hf1.
  - unfold accepted, packet_ok in Hacc. boolify. done.
Qed.

Lemma hardware_valid_source a : is_source a -> hardware_valid a = true.
Proof.
  intros (_ & Hb & k & Hk & Hz). unfold hardware_valid. rewrite (proj2 (nz_false _) Hb).
  apply existsb_exists. exists k. split; [apply list_elem_of_In, elem_of_seqZ; lia|by apply nz_true].
Qed.

(** The view of a framed ARP packet. *)
Definition view_of (destination source body : list Z) : ethernet_frame_view :=
  let l := tagged_frame destination source None 0x0806 body in
  FrameView l body (Z.of_nat (length l)) (Z.of_nat (length body)) 0x0806 0 (flags_of destination None).

Lemma framed_packet_ok destination source op sp th tp :
  length destination = 6%nat -> is_source source -> length th = 6%nat -> op = 1 \/ op = 2 ->
  is_u32 sp -> is_u32 tp -> protocol_valid sp = true -> protocol_valid tp = true ->
  packet_ok (view_of destination source (build_packet op source sp th tp)) = true.
Proof.
  intros Hd Hs Hth Hop Hsp Htp Hvs Hvt. pose proof Hs as ([Hl _] & _).
  destruct (packet_fields op source sp th tp Hl Hth) as (E0 & E2 & E4 & E5 & E6 & E8 & E14 & E18 & E24);
    [unfold is_u16; lia|done|done|].
  unfold packet_ok, view_of. cbn [payload frame]. rewrite E0, E2, E4, E5, E6, E8, E14, E24, Hvs, Hvt.
  rewrite (hardware_valid_source source Hs).
  assert (address_at (tagged_frame destination source None 2054 (build_packet op source sp th tp)) 6 = source) as ->.
  { destruct (address_six _ Hd) as (? & ? & ? & ? & ? & ? & ->), (address_six _ Hl) as (? & ? & ? & ? & ? & ? & ->).
    apply address_at_cons. }
  rewrite (proj2 (address_equal_spec source source Hl Hl) eq_refl).
  by destruct Hop as [-> | ->].
Qed.

(** A framed packet for the local address is accepted. *)
Lemma framed_accepted destination source op sp th a :
  length destination = 6%nat -> is_source source -> length th = 6%nat -> is_u32 sp -> is_u32 (local_address a) ->
  protocol_valid sp = true -> protocol_valid (local_address a) = true -> sp <> local_address a ->
  op = 1 \/ (op = 2 /\ th = port_address (port a)) ->
  accepted (port a) (view_of destination source (build_packet op source sp th (local_address a))) a = true.
Proof.
  intros Hd Hs Hth Hsp Htp Hvs Hvt Hne Hop. pose proof Hs as ([Hl _] & _).
  destruct (packet_fields op source sp th (local_address a) Hl Hth) as (_ & _ & _ & _ & E6 & E8 & E14 & E18 & E24);
    [unfold is_u16; lia|done|done|].
  unfold accepted. rewrite framed_packet_ok by (done || tauto). unfold view_of. cbn [payload ether_type payload_length].
  rewrite E6, E8, E14, E18, E24, !Z.eqb_refl, (proj2 (Z.eqb_neq _ _) Hne), packet_length. cbn [andb negb].
  destruct Hop as [->|[-> ->]]; [done|]. change (2 =? 1) with false. cbn [orb].
  by rewrite (proj2 (address_equal_spec _ _ Hth Hth) eq_refl).
Qed.

Lemma view_of_parse destination source body :
  is_address destination -> is_source source -> Z.of_nat (length body) <= 1500 ->
  ethernet_parse (Some (tagged_frame destination source None 0x0806 body)) =
  inr (view_of destination source body).
Proof. intros Hd Hs Hl. by apply parse_tagged. Qed.

End Exchange.

(** ** Properties *)

(** A host whose frames always leave; ports 1 and 2. *)
#[global] Instance toy_host : ArpHost (list (list Z)) := {
  port_address p := if p =? 1 then example_address else [0x52; 0x54; 0; 0x12; 0x34; 0x57];
  transmit _ _ l w := (0, w ++ [l]);
  neighbor_update _ _ w := w
}.

(** 10.0.0.1 on port 1 and 10.0.0.2 on port 2. *)
Definition example_a : arp_context := init_context 1 0x0A000001 6000 100.

Definition example_b : arp_context := init_context 2 0x0A000002 6000 100.

Definition example_request : ethernet_frame_view :=
  FrameView (tagged_frame broadcast_address example_address None 0x0806
      (build_packet 1 example_address 0x0A000001 zero_address 0x0A000002))
    (build_packet 1 example_address 0x0A000001 zero_address 0x0A000002) 42 28 0x0806 0 1.

Section Properties.

Context {W : Type} `{ArpHost W}.

(** The cache learns exactly from the packets that pass every test of the
    handler: well formed, for this port, from the station that framed it, with
    valid addresses, no claim on the local address, and aimed at the local
    address.  After such a packet a lookup answers the sender's hardware
    address until the entry's time is over; every other packet leaves the
    cache and the wire alone. *)
Theorem arp_handler_learns p0 local ttl interval p f t a (w : W) :
  is_u32 ttl -> init_ok local ttl interval = true -> rtc (step (W:=W)) (init_context p0 local ttl interval) a ->
  let '(r, a', w') := arp_ethernet_handler (Some p) (Some f) a w in
  if accepted p f a
  then u32 (t - now a) < cache_ttl a ->
       fst (arp_lookup (read_be32 (payload f) 14) t a') = Some (address_at (payload f) 8)
  else cache a' = cache a /\ sent a' = sent a /\ w' = w.
Proof.
  intros Hu Hinit Hs. pose proof (arp_reachable_ok p0 local ttl interval a Hu Hinit Hs) as Hok.
  pose proof (handler_cases p f a w) as Hc. pose proof (handler_lookup p f t a w Hok) as Hl. cbv zeta in Hc.
  destruct (arp_ethernet_handler (Some p) (Some f) a w) as [[r a'] w'].
  destruct (accepted p f a); [by apply Hl|]. by destruct Hc as (? & ? & _ & ? & _).
Qed.

(** The handler at given times. *)
Definition receive_at (ev : Z * option Z * option ethernet_frame_view) (s : arp_context * W) : arp_context * W :=
  let '(t, p, f) := ev in
  let '(_, a, w) := arp_ethernet_handler p f (set_now t (fst s)) (snd s) in (a, w).

Definition in_window (start : Z) (ev : Z * option Z * option ethernet_frame_view) : Prop :=
  i32 (u32 (fst (fst ev) - start)) < ARP_REPLY_WINDOW.

Lemma receive_at_budget evs a (w : W) :
  ok a -> Forall (in_window (reply_window_start a)) evs ->
  let a' := fst (fold_left (fun s ev => receive_at ev s) evs (a, w)) in
  ok a' /\ Z.of_nat (length (sent a')) - replies_in_window a' = Z.of_nat (length (sent a)) - replies_in_window a.
Proof.
  revert a w. induction evs as [|[[t p] f] evs IH]; intros a w Hok Hall; cbn [fold_left]; [done|].
  apply Forall_cons in Hall as [Ht Hall]. unfold in_window in Ht. simpl in Ht.
  assert (ok (set_now t a)) as Hok1 by (destruct Hok as [? ? ?]; by split).
  pose proof (handler_ok p f (set_now t a) w Hok1) as Hh.
  destruct (arp_ethernet_handler p f (set_now t a) w) as [[r a1] w1] eqn:He.
  assert (receive_at (t, p, f) (a, w) = (a1, w1)) as -> by (unfold receive_at; cbn [fst snd]; by rewrite He).
  destruct Hh as (Hok2 & _ & Hb). cbn in Hb. destruct (Hb Ht) as [Hst Hcount].
  destruct (IH a1 w1 Hok2) as [Hok' Hc']; [by rewrite Hst|]. split; [exact Hok'|]. etrans; [exact Hc'|exact Hcount].
Qed.

(** Replies are rationed: whatever requests arrive while the current
    window of 100 ticks lasts, the handler transmits at most the replies that
    are left of the window's 32. *)
Theorem arp_reply_budget p0 local ttl interval evs a (w : W) :
  is_u32 ttl -> init_ok local ttl interval = true -> rtc (step (W:=W)) (init_context p0 local ttl interval) a ->
  Forall (in_window (reply_window_start a)) evs ->
  let a' := fst (fold_left (fun s ev => receive_at ev s) evs (a, w)) in
  Z.of_nat (length (sent a')) <= Z.of_nat (length (sent a)) + (ARP_REPLY_MAX - replies_in_window a).
Proof.
  intros Hu Hinit Hs Hall. pose proof (arp_reachable_ok p0 local ttl interval a Hu Hinit Hs) as Hok.
  destruct (receive_at_budget evs a w Hok Hall) as [[_ _ Hw] Hc]. cbv zeta in *. lia.
Qed.

Lemma resolve_miss address t a (w : W) :
  ok a -> protocol_valid address = true -> address <> local_address a -> find_entry a address = None ->
  (forall d ty l w, fst (transmit d ty l w) = 0) ->
  let request := build_packet 1 (port_address (port a)) (local_address a) zero_address address in
  exists a' w', arp_resolve address t a w = (1, a', w') /\ ok a' /\
    sent a' = sent a ++ [Transmission t broadcast_address request] /\
    port a' = port a /\ local_address a' = local_address a /\ now a' = t /\ cache_ttl a' = cache_ttl a.
Proof.
  intros Hok Hp Hne Hf Htx request. pose proof (resolve_ok address t a w Hok) as Hok'. revert Hok'.
  unfold arp_resolve. rewrite Hp, (proj2 (Z.eqb_neq _ _) Hne). cbn [negb orb].
  change (find_entry (set_now t a) address) with (find_entry a address). rewrite Hf. cbn iota.
  pose proof (find_entry_spec a address) as Hno. rewrite Hf in Hno.
  destruct (allocate_spec address t (set_now t a) (ok_inv a Hok) Hno) as (i & -> & _ & _ & _).
  cbn [cache set_entry set_cache]. rewrite upd_eq. cbn [last_request].
  assert (i32 (u32 (t - u32 (t - request_interval (set_now t a)))) = i32 (request_interval a)) as ->.
  { rewrite u32_sub_r. simpl. replace (t - (t - request_interval a)) with (request_interval a) by lia.
    unfold i32. by rewrite u32_idemp. }
  cbn [request_interval set_now]. rewrite Z.ltb_irrefl. cbn [port local_address set_entry set_cache set_now].
  pose proof (Htx broadcast_address 0x0806 request w) as Hr. fold request.
  destruct (transmit broadcast_address 0x0806 request w) as [r w']. cbn [fst] in Hr. rewrite Hr.
  change (nz 0) with false. cbn iota. intros Hok'. eexists _, w'. split; [reflexivity|]. by split_and!.
Qed.

(** The request is answered when the window has a reply left. *)
Lemma handler_request source sp a (w : W) :
  ok a -> is_source source -> is_source (port_address (port a)) -> is_u32 sp -> is_u32 (local_address a) ->
  protocol_valid sp = true -> protocol_valid (local_address a) = true -> sp <> local_address a ->
  replies_in_window a < ARP_REPLY_MAX -> (forall d ty l w, fst (transmit d ty l w) = 0) ->
  let v := view_of broadcast_address source (build_packet 1 source sp zero_address (local_address a)) in
  exists a' w', arp_ethernet_handler (Some (port a)) (Some v) a w = (0, a', w') /\
    sent a' = sent a ++ [Transmission (now a) source
      (build_packet 2 (port_address (port a)) (local_address a) source sp)].
Proof.
  intros Hok Hs Hown Hsp Hl Hv1 Hv2 Hne Hwin Htx v. pose proof Hs as ([Hlen _] & _).
  assert (accepted (port a) v a = true) as Hacc by (apply framed_accepted; try done; by left).
  pose proof (handler_cases (port a) v a w) as Hc. cbv zeta in Hc. rewrite Hacc in Hc.
  destruct (arp_ethernet_handler (Some (port a)) (Some v) a w) as [[r a'] w']. destruct Hc as [c Hc].
  destruct (packet_fields 1 source sp zero_address (local_address a) Hlen eq_refl) as
    (_ & _ & _ & _ & E6 & E8 & E14 & _ & _); [unfold is_u16; lia|done|done|].
  change (payload v) with (build_packet 1 source sp zero_address (local_address a)) in Hc.
  rewrite E6, E8, E14 in Hc. change (1 =? 1) with true in Hc. cbn iota in Hc.
  pose proof (learn_spec sp source (now a) (count c a) w (ok_inv a Hok)) as Hls.
  destruct (learn sp source (now a) (count c a) w) as [a1 w1].
  destruct Hls as (i & lr & _ & [S1 S2 S3 S4 S5] & _ & _ & _ & Hse & Hst & Hrw).
  cbn in S1, S2, S5, Hse, Hst, Hrw. revert Hc. unfold answer_request.
  set (a2 := if _ <=? _ then set_window (now a1) 0 a1 else a1).
  assert (replies_in_window a2 < ARP_REPLY_MAX /\ port a2 = port a /\ local_address a2 = local_address a /\
    sent a2 = sent a /\ now a2 = now a) as (Hr2 & Hp2 & Hl2 & Hs2 & Hn2).
  { unfold a2. case_if; simpl; rewrite ?S1, ?S2, ?S5, ?Hse, ?Hrw; done. }
  rewrite (proj2 (Z.leb_gt _ _) Hr2). cbn [port local_address set_window]. rewrite Hp2, Hl2.
  set (reply := build_packet 2 _ _ _ _). pose proof (Htx source 0x0806 reply w1) as Hr.
  destruct (transmit source 0x0806 reply w1) as [r2 w2]. cbn [fst] in Hr. rewrite Hr. change (nz 0) with false.
  cbn iota. intros [= <- <- <-]. eexists _, w2. split; [reflexivity|]. simpl. by rewrite Hs2, Hn2.
Qed.

(** The reply is taken. *)
Lemma handler_reply source sp a (w : W) :
  ok a -> is_source source -> is_source (port_address (port a)) -> is_u32 sp -> is_u32 (local_address a) ->
  protocol_valid sp = true -> protocol_valid (local_address a) = true -> sp <> local_address a ->
  let v := view_of (port_address (port a)) source
    (build_packet 2 source sp (port_address (port a)) (local_address a)) in
  accepted (port a) v a = true /\
  exists a' w', arp_ethernet_handler (Some (port a)) (Some v) a w = (0, a', w').
Proof.
  intros Hok Hs Hown Hsp Hl Hv1 Hv2 Hne v. pose proof Hs as ([Hlen _] & _). pose proof Hown as ([Hlo _] & _).
  assert (accepted (port a) v a = true) as Hacc by (apply framed_accepted; try done; by right).
  split; [done|].
  pose proof (handler_cases (port a) v a w) as Hc. cbv zeta in Hc. rewrite Hacc in Hc.
  destruct (arp_ethernet_handler (Some (port a)) (Some v) a w) as [[r a'] w']. destruct Hc as [c Hc].
  destruct (packet_fields 2 source sp (port_address (port a)) (local_address a) Hlen Hlo) as
    (_ & _ & _ & _ & E6 & _); [unfold is_u16; lia|done|done|].
  change (payload v) with (build_packet 2 source sp (port_address (port a)) (local_address a)) in Hc.
  rewrite E6 in Hc. change (2 =? 1) with false in Hc. destruct (learn _ _ _ _ _) as [a1 w1].
  injection Hc as <- <- <-. by exists a1, w1.
Qed.

(** Two hosts on one wire resolve each other: the request that the first
    sends, framed and parsed, makes the second learn the first's address and
    send a reply which, framed and parsed, makes the first learn the second's
    address; both lookups then answer. *)
Theorem arp_exchange p1 l1 t1 i1 p2 l2 t2 i2 a b t (w : W) :
  let ha := port_address (port a) in
  let hb := port_address (port b) in
  is_u32 t1 -> is_u32 t2 -> init_ok l1 t1 i1 = true -> init_ok l2 t2 i2 = true ->
  rtc (step (W:=W)) (init_context p1 l1 t1 i1) a -> rtc (step (W:=W)) (init_context p2 l2 t2 i2) b ->
  is_source ha -> is_source hb -> is_u32 (local_address a) -> is_u32 (local_address b) ->
  protocol_valid (local_address a) = true -> protocol_valid (local_address b) = true ->
  local_address a <> local_address b -> find_entry a (local_address b) = None ->
  replies_in_window b < ARP_REPLY_MAX -> (forall d ty l w, fst (transmit d ty l w) = 0) ->
  exists a1 w1 request b1 w2 reply a2 w3 v1 v2,
    arp_resolve (local_address b) t a w = (1, a1, w1) /\
    sent a1 = sent a ++ [Transmission t broadcast_address request] /\
    ethernet_parse (Some (tagged_frame broadcast_address ha None 0x0806 request)) = inr v1 /\
    arp_ethernet_handler (Some (port b)) (Some v1) b w1 = (0, b1, w2) /\
    sent b1 = sent b ++ [Transmission (now b) ha reply] /\
    ethernet_parse (Some (tagged_frame ha hb None 0x0806 reply)) = inr v2 /\
    arp_ethernet_handler (Some (port a)) (Some v2) a1 w2 = (0, a2, w3) /\
    fst (arp_lookup (local_address b) t a2) = Some hb /\
    fst (arp_lookup (local_address a) (now b) b1) = Some ha.
Proof.
  intros ha hb Hu1 Hu2 Hin1 Hin2 Hs1 Hs2 Hha Hhb Hla Hlb Hva Hvb Hne Hf Hwin Htx.
  pose proof (arp_reachable_ok p1 l1 t1 i1 a Hu1 Hin1 Hs1) as Hoka.
  pose proof (arp_reachable_ok p2 l2 t2 i2 b Hu2 Hin2 Hs2) as Hokb.
  destruct (resolve_miss (local_address b) t a w Hoka Hvb (not_eq_sym Hne) Hf Htx)
    as (a1 & w1 & Hres & Hok1 & Hsent & Hp & Hl & Hn & Htt).
  destruct (handler_request ha (local_address a) b w1 Hokb Hha Hhb Hla Hlb Hva Hvb Hne Hwin Htx)
    as (b1 & w2 & Hreq & Hsb).
  destruct (handler_reply hb (local_address b) a1 w2) as (Hacc & a2 & w3 & Hrep);
    rewrite ?Hp, ?Hl; try done. rewrite Hp, Hl in Hrep, Hacc. fold ha in Hrep, Hacc.
  pose proof (handler_lookup (port a) (view_of ha hb (build_packet 2 hb (local_address b) ha (local_address a)))
    t a1 w2 Hok1) as Hla2. rewrite Hrep in Hla2.
  pose proof (handler_lookup (port b) (view_of broadcast_address ha (build_packet 1 ha (local_address a) zero_address
    (local_address b))) (now b) b w1 Hokb) as Hlb1. rewrite Hreq in Hlb1.
  pose proof Hha as ([Hlha _] & _). pose proof Hhb as ([Hlhb _] & _).
  exists a1, w1. eexists. exists b1, w2. eexists. exists a2, w3. do 2 eexists.
  split_and!; [exact Hres|exact Hsent| |exact Hreq|exact Hsb| |exact Hrep| |].
  - apply view_of_parse; [|done|rewrite packet_length; lia]. split; [done|]. by repeat constructor.
  - apply view_of_parse; [apply Hha|done|rewrite packet_length; lia].
  - destruct (packet_fields 2 hb (local_address b) ha (local_address a) Hlhb Hlha) as
      (_ & _ & _ & _ & _ & E8 & E14 & _); [unfold is_u16; lia|done|done|].
    change (payload _) with (build_packet 2 hb (local_address b) ha (local_address a)) in Hla2.
    rewrite E8, E14 in Hla2. apply Hla2; [exact Hacc|]. rewrite Hn, Z.sub_diag. apply (ok_ttl a1 Hok1).
  - destruct (packet_fields 1 ha (local_address a) zero_address (local_address b) Hlha eq_refl) as
      (_ & _ & _ & _ & _ & E8 & E14 & _); [unfold is_u16; lia|done|done|].
    change (payload _) with (build_packet 1 ha (local_address a) zero_address (local_address b)) in Hlb1.
    rewrite E8, E14 in Hlb1. apply Hlb1; [|rewrite Z.sub_diag; apply (ok_ttl b Hokb)].
    apply framed_accepted; try done. by left.
Qed.

End Properties.

Lemma arp_handler_learns_witness :
  accepted 2 example_request example_b = true /\
  fst (arp_lookup 0x0A000001 50 (snd (fst (arp_ethernet_handler (Some 2) (Some example_request) example_b [])))) =
    Some example_address.
Proof.
  assert (accepted 2 example_request example_b = true) as Ha by (vm_compute; reflexivity). split; [exact Ha|].
  pose proof (arp_handler_learns 2 0x0A000002 6000 100 2 example_request 50 example_b []) as Ht.
  destruct (arp_ethernet_handler (Some 2) (Some example_request) example_b []) as [[r a'] w'].
  rewrite Ha in Ht. apply Ht.
  - unfold is_u32. lia.
  - vm_compute. reflexivity.
  - apply rtc_refl.
  - vm_compute. reflexivity.
Defined.

Lemma arp_exchange_witness :
  exists a1 w1, arp_resolve 0x0A000002 7 example_a [] = (1, a1, w1).
Proof.
  destruct (arp_exchange 1 0x0A000001 6000 100 2 0x0A000002 6000 100 example_a example_b 7 [])
    as (a1 & w1 & _ & _ & _ & _ & _ & _ & _ & _ & He & _).
  - unfold is_u32. lia.
  - unfold is_u32. lia.
  - vm_compute. reflexivity.
  - vm_compute. reflexivity.
  - apply rtc_refl.
  - apply rtc_refl.
  - exact example_address_source.
  - split; [split; [reflexivity|repeat constructor; discriminate]|].
    split; [reflexivity|exists 0; split; [lia|discriminate]].
  - unfold is_u32. simpl. lia.
  - unfold is_u32. simpl. lia.
  - vm_compute. reflexivity.
  - vm_compute. reflexivity.
  - discriminate.
  - vm_compute. reflexivity.
  - vm_compute. reflexivity.
  - reflexivity.
  - exists a1, w1. exact He.
Defined.

Lemma arp_reply_budget_witness :
  Z.of_nat (length (sent (fst (fold_left (fun s ev => receive_at ev s)
    (replicate 40 (3, Some 2, Some example_request)) (example_b, []))))) <= 32.
Proof.
  apply (arp_reply_budget 2 0x0A000002 6000 100 (replicate 40 (3, Some 2, Some example_request)) example_b []).
  - unfold is_u32. lia.
  - vm_compute. reflexivity.
  - apply rtc_refl.
  - apply Forall_replicate. vm_compute. reflexivity.
Defined.

End Arp.
