(* ===== verification/Ipv4.v ===== *)
(** IPv4: [src/net/ipv4.c].

    Header parsing and building, the receive filter and the protocol dispatch.
    A packet is the list of its bytes and a pointer into it the list from
    there on.  A registered protocol handler is a value of the type [H]; the
    code it stands for is the argument [run] of [dispatch_packet].  What
    [packet_pool_data] answers is an argument of [ipv4_receive_buffer]. *)

From S2P Require Import Prelude Wire Checksum Ethernet.

Module Ipv4.

Import Wire Checksum.

Definition IPV4_HEADER_MIN : Z := 20.

Definition IPV4_PROTOCOL_HANDLER_MAX : Z := 8.

Definition NET_PACKET_DATA_MAX : Z := 4096.

Record ipv4_packet_view := PacketView {
  packet : list Z;
  payload : list Z;
  packet_pool : option Z;
  buffer_id : Z;
  packet_offset : Z;
  packet_length : Z;
  header_length : Z;
  payload_length : Z;
  source : Z;
  destination : Z;
  identification : Z;
  fragment : Z;
  ttl : Z;
  protocol : Z;
  dscp_ecn : Z
}.

Inductive ipv4_stat :=
  | packets | bytes | unicast | broadcast | drops_length | drops_version | drops_checksum | drops_ttl
  | drops_source | drops_destination | drops_fragment | drops_protocol | drops_land | drops_spoof.

#[global] Instance ipv4_stat_eq : EqDecision ipv4_stat.
Proof. solve_decision. Defined.

Record ipv4_protocol_handler {H : Type} := ProtocolHandler {
  handler_protocol : Z;
  handler_function : H
}.

Arguments ipv4_protocol_handler : clear implicits.

Arguments ProtocolHandler {H} _ _.

(** [transmit] is the installed function with its context, [T] their type. *)
Record ipv4_context {H T : Type} := Ipv4Context {
  port : Z;
  local_address : Z;
  netmask : Z;
  subnet_broadcast : Z;
  accept_broadcast : bool;
  transmit : option T;
  handlers : list (ipv4_protocol_handler H);
  stats : ipv4_stat -> Z
}.

Arguments ipv4_context : clear implicits.

Arguments Ipv4Context {H T} _ _ _ _ _ _ _ _.

Definition unicast_address (a : Z) : bool :=
  let first := u8 (Z.shiftr a 24) in
  nz a && negb (a =? 0xFFFFFFFF) && negb (first =? 0) && (first <? 224).

Definition netmask_valid (m : Z) : bool :=
  if negb (nz m) then false else
  let inverse := u32 (Z.lnot m) in
  negb (nz (Z.land inverse (u32 (inverse + 1)))).

Definition ipv4_checksum (data : list Z) (length : Z) : Z :=
  if negb (nz length) then 0xFFFF
  else net_checksum_finish (net_checksum_sum 0 data (Z.to_nat length)).

Definition ipv4_parse (data : option (list Z)) (length : Z) : Z + ipv4_packet_view :=
  match data with
  | None => inl (-1)
  | Some b =>
      if length <? IPV4_HEADER_MIN then inl (-1) else
      let version := Z.shiftr (at_ b 0) 4 in
      let header := Z.land (at_ b 0) 0x0F * 4 in
      if negb (version =? 4) || (header <? IPV4_HEADER_MIN) then inl (-2) else
      if length <? header then inl (-1) else
      let total := read_be16 b 2 in
      if (total <? header) || (length <? total) then inl (-1) else
      if nz (ipv4_checksum b header) then inl (-3) else
      if negb (nz (at_ b 8)) then inl (-4) else
      let src := read_be32 b 12 in
      if negb (unicast_address src) then inl (-5) else
      let frag := read_be16 b 6 in
      if nz (Z.land frag 0x8000) || nz (Z.land frag 0x3FFF) then inl (-6) else
      inr (PacketView b (drop (Z.to_nat header) b) None 0 0 total header (total - header) src
             (read_be32 b 16) (read_be16 b 4) frag (at_ b 8) (at_ b 9) (at_ b 1))
  end.

Section Context.

Context {H T W : Type}.

Definition set_stats (s : ipv4_stat -> Z) (c : ipv4_context H T) : ipv4_context H T :=
  Ipv4Context (port c) (local_address c) (netmask c) (subnet_broadcast c) (accept_broadcast c) (transmit c)
    (handlers c) s.

Definition count (n : Z) (k : ipv4_stat) (c : ipv4_context H T) : ipv4_context H T :=
  set_stats (fun k' => if decide (k' = k) then u64 (stats c k + n) else stats c k') c.

(** The context after [ipv4_init] and the answer of the handler registration. *)
Definition ipv4_init {E : Type} (handler : E) (p : Z) (ethernet : Ethernet.ethernet_port E)
    (local mask : Z) (accept : bool) (c : ipv4_context H T) :
    Z * ipv4_context H T * Ethernet.ethernet_port E :=
  if negb (unicast_address local) || negb (netmask_valid mask) then (-1, c, ethernet) else
  let '(r, ethernet) := Ethernet.ethernet_register_handler 0x0800 handler ethernet in
  (r, Ipv4Context p local mask (Z.lor (Z.land local mask) (u32 (Z.lnot mask))) accept None [] (fun _ => 0),
   ethernet).

Definition ipv4_set_transmit `{EqDecision T} (f : T) (c : ipv4_context H T) : Z * ipv4_context H T :=
  if match transmit c with Some g => negb (bool_decide (g = f)) | None => false end then (-1, c)
  else (0, Ipv4Context (port c) (local_address c) (netmask c) (subnet_broadcast c) (accept_broadcast c)
             (Some f) (handlers c) (stats c)).

(** [send] is the code of the installed transmit function. *)
Definition ipv4_send (send : T -> Z -> Z -> list Z -> W -> Z * W) (dst proto : Z) (body : list Z)
    (c : ipv4_context H T) (w : W) : Z * W :=
  match transmit c with
  | None => (-1, w)
  | Some f =>
      if negb (nz dst) || negb (nz proto) || (0xFFFF - IPV4_HEADER_MIN <? Z.of_nat (length body)) then (-1, w)
      else send f dst proto body w
  end.

Definition ipv4_register_protocol (proto : Z) (function : H) (c : ipv4_context H T) : Z * ipv4_context H T :=
  if negb (nz proto) || (IPV4_PROTOCOL_HANDLER_MAX <=? Z.of_nat (length (handlers c))) then (-1, c) else
  if existsb (fun h => handler_protocol h =? proto) (handlers c) then (-1, c)
  else (0, Ipv4Context (port c) (local_address c) (netmask c) (subnet_broadcast c) (accept_broadcast c)
             (transmit c) (handlers c ++ [ProtocolHandler proto function]) (stats c)).

Definition is_broadcast (c : ipv4_context H T) (a : Z) : bool :=
  (a =? 0xFFFFFFFF) || (a =? subnet_broadcast c).

Definition dispatch_packet (run : H -> ipv4_packet_view -> W -> Z * W) (v : ipv4_packet_view)
    (c : ipv4_context H T) (w : W) : Z * ipv4_context H T * W :=
  let source_loopback := Z.shiftr (source v) 24 =? 127 in
  let local_loopback := Z.shiftr (local_address c) 24 =? 127 in
  if negb (Bool.eqb source_loopback local_loopback) then (-1, count 1 drops_source c, w) else
  if negb local_loopback && (source v =? destination v) then (-1, count 1 drops_land c, w) else
  if negb local_loopback && (source v =? local_address c) then (-1, count 1 drops_spoof c, w) else
  let bcast := is_broadcast c (destination v) in
  if negb (destination v =? local_address c) && negb (bcast && accept_broadcast c)
  then (-1, count 1 drops_destination c, w) else
  let c := count 1 packets c in
  let c := count (packet_length v) bytes c in
  let c := count 1 (if bcast then broadcast else unicast) c in
  match List.find (fun h => handler_protocol h =? protocol v) (handlers c) with
  | None => (-1, count 1 drops_protocol c, w)
  | Some h =>
      let '(r, w) := run (handler_function h) v w in
      if r <? 0 then (-1, count 1 drops_protocol c, w) else (r, c, w)
  end.

Definition parse_and_count (data : option (list Z)) (length : Z) (c : ipv4_context H T) :
    ipv4_context H T + ipv4_packet_view :=
  match ipv4_parse data length with
  | inr v => inr v
  | inl parsed =>
      inl (count 1 (if parsed =? -1 then drops_length
                    else if parsed =? -2 then drops_version
                    else if parsed =? -3 then drops_checksum
                    else if parsed =? -4 then drops_ttl
                    else if parsed =? -5 then drops_source
                    else drops_fragment) c)
  end.

Definition ipv4_receive (run : H -> ipv4_packet_view -> W -> Z * W) (data : option (list Z)) (length : Z)
    (c : ipv4_context H T) (w : W) : Z * ipv4_context H T * W :=
  match parse_and_count data length c with
  | inl c => (-1, c, w)
  | inr v => dispatch_packet run v c w
  end.

(** [data] is what the answer of [packet_pool_data] points at. *)
Definition ipv4_receive_buffer (run : H -> ipv4_packet_view -> W -> Z * W) (pool : option Z) (id : Z)
    (data : option (list Z)) (offset length : Z) (c : ipv4_context H T) (w : W) :
    Z * ipv4_context H T * W :=
  match pool, data with
  | Some pool, Some data =>
      if (NET_PACKET_DATA_MAX <=? offset) || negb (nz length) || (NET_PACKET_DATA_MAX - offset <? length)
      then (-1, c, w) else
      match parse_and_count (Some (drop (Z.to_nat offset) data)) length c with
      | inl c => (-1, c, w)
      | inr v =>
          dispatch_packet run
            (PacketView (packet v) (payload v) (Some pool) id offset (packet_length v) (header_length v)
               (payload_length v) (source v) (destination v) (identification v) (fragment v) (ttl v)
               (protocol v) (dscp_ecn v)) c w
      end
  | _, _ => (-1, c, w)
  end.

Definition ipv4_ethernet_handler (run : H -> ipv4_packet_view -> W -> Z * W) (p : option Z)
    (f : option Ethernet.ethernet_frame_view) (c : ipv4_context H T) (w : W) : Z * ipv4_context H T * W :=
  match p, f with
  | Some p, Some f =>
      if negb (port c =? p) || negb (Ethernet.ether_type f =? 0x0800) then (-1, c, w)
      else ipv4_receive run (Some (Ethernet.payload f)) (Ethernet.payload_length f) c w
  | _, _ => (-1, c, w)
  end.

End Context.

(** The twenty header bytes with [sum] in the checksum field. *)
Definition header_bytes (total ident frag time proto src dst sum : Z) : list Z :=
  [0x45; 0] ++ write_be16 (u16 total) ++ write_be16 ident ++ write_be16 frag ++ [time; proto] ++
  write_be16 sum ++ write_be32 src ++ write_be32 dst.

(** [None] is the error answer; the buffer is overwritten from its start. *)
Definition ipv4_build_header (buffer : list Z) (body_length src dst proto time ident : Z)
    (dont_fragment : bool) : option (list Z) :=
  if (Z.of_nat (length buffer) <? IPV4_HEADER_MIN) || (0xFFFF - IPV4_HEADER_MIN <? body_length) ||
     negb (unicast_address src) || negb (nz dst) || negb (nz proto) || negb (nz time)
  then None else
  let frag := if dont_fragment then 0x4000 else 0 in
  let blank := header_bytes (IPV4_HEADER_MIN + body_length) ident frag time proto src dst 0 in
  Some (header_bytes (IPV4_HEADER_MIN + body_length) ident frag time proto src dst
          (ipv4_checksum blank IPV4_HEADER_MIN) ++ drop 20 buffer).

(** ** Headers *)

Definition ok_fields (src dst proto time ident : Z) : Prop :=
  is_u32 src /\ is_u32 dst /\ is_u8 proto /\ is_u8 time /\ is_u16 ident.

Lemma write_be16_bytes v : is_bytes (write_be16 v).
Proof. repeat constructor; apply u8_range. Qed.

Lemma write_be32_bytes v : is_bytes (write_be32 v).
Proof. repeat constructor; apply u8_range. Qed.

Lemma write_be16_parts c : is_u16 c -> write_be16 c = [c / 256; c mod 256].
Proof.
  intros Hc. unfold write_be16, is_u16 in *. rewrite Z.shiftr_div_pow2 by lia. change (2 ^ 8) with 256.
  rewrite u8_small by (unfold is_u8; dmlia). done.
Qed.

Lemma header_bytes_length total ident frag time proto src dst sum :
  length (header_bytes total ident frag time proto src dst sum) = 20%nat.
Proof. reflexivity. Qed.

Lemma header_bytes_ok total ident frag time proto src dst sum :
  is_u8 time -> is_u8 proto -> is_bytes (header_bytes total ident frag time proto src dst sum).
Proof.
  intros Ht Hp. unfold header_bytes, is_bytes. rewrite !Forall_app, !Forall_cons, !Forall_nil.
  pose proof (write_be16_bytes : forall v, Forall is_u8 _).
  pose proof (write_be32_bytes : forall v, Forall is_u8 _). split_and!; try done; auto; unfold is_u8; lia.
Qed.

(** The checksum of a header does not read behind it. *)
Lemma checksum_header h body :
  is_bytes h -> is_bytes body -> length h = 20%nat ->
  ipv4_checksum (h ++ body) IPV4_HEADER_MIN = ipv4_checksum h IPV4_HEADER_MIN.
Proof.
  intros Hh Hb Hl. unfold ipv4_checksum. change (negb (nz IPV4_HEADER_MIN)) with false. cbn iota.
  change (Z.to_nat IPV4_HEADER_MIN) with 20%nat.
  assert (is_bytes (h ++ body)) by (by apply Forall_app).
  rewrite !sum_spec by (done || (rewrite ?length_app; lia) || (unfold is_u32; lia)).
  by rewrite <- Hl, take_app_length, firstn_all.
Qed.

Lemma filled_header total ident frag time proto src dst :
  is_u8 time -> is_u8 proto ->
  let c := ipv4_checksum (header_bytes total ident frag time proto src dst 0) IPV4_HEADER_MIN in
  ipv4_checksum (header_bytes total ident frag time proto src dst c) IPV4_HEADER_MIN = 0.
Proof.
  intros Ht Hp c.
  set (pre := [0x45; 0] ++ write_be16 (u16 total) ++ write_be16 ident ++ write_be16 frag ++ [time; proto]).
  set (post := write_be32 src ++ write_be32 dst).
  destruct (filled_checksum_verifies pre post c) as [Hv Hc].
  - pose proof (header_bytes_ok total ident frag time proto src dst 0 Ht Hp) as Hok.
    apply (Forall_app _ pre (0 :: 0 :: post)) in Hok. apply Hok.
  - unfold post, is_bytes. apply Forall_app; split; apply write_be32_bytes.
  - reflexivity.
  - simpl. lia.
  - reflexivity.
  - unfold ipv4_checksum. change (negb (nz IPV4_HEADER_MIN)) with false. cbn iota.
    etrans; [|exact Hv]. unfold header_bytes. rewrite (write_be16_parts c Hc). reflexivity.
Qed.

(** ** The receive filter *)

Section Filter.

Context {H T W : Type}.
Implicit Types (c : ipv4_context H T) (v : ipv4_packet_view) (w : W).

Definition loopback (a : Z) : Prop := Z.shiftr a 24 = 127.

(** What a packet must be for the host to take it: loopback sources only on a
    loopback context, no packet that claims to come from the host or to be its
    own destination, and a destination that is the host or a broadcast it
    accepts. *)
Definition acceptable c v : Prop :=
  (loopback (source v) <-> loopback (local_address c)) /\
  (~ loopback (local_address c) -> source v <> destination v /\ source v <> local_address c) /\
  (destination v = local_address c \/
   accept_broadcast c = true /\ (destination v = 0xFFFFFFFF \/ destination v = subnet_broadcast c)).

Definition deliverable c (data : option (list Z)) (length : Z) v (h : ipv4_protocol_handler H) : Prop :=
  ipv4_parse data length = inr v /\ acceptable c v /\
  List.find (fun h => handler_protocol h =? protocol v) (handlers c) = Some h.

(** The drop counters of the parser and of the address filter. *)
Definition is_filter_drop (k : ipv4_stat) : bool :=
  match k with packets | bytes | unicast | broadcast | drops_protocol => false | _ => true end.

(** The context moved its counters by [d], at their width, and nothing else. *)
Definition counted c c' (d : ipv4_stat -> Z) : Prop :=
  set_stats (stats c) c' = c /\ forall k, stats c' k = u64 (stats c k + d k).

Definition counters_ok c : Prop := forall k, is_u64 (stats c k).

(** A drop counter's tick. *)
Definition one (k k' : ipv4_stat) : Z := if decide (k' = k) then 1 else 0.

(** What a packet the filter lets through adds, whether or not a handler
    takes it. *)
Definition passed c v (k : ipv4_stat) : Z :=
  match k with
  | packets => 1
  | bytes => packet_length v
  | broadcast => if is_broadcast c (destination v) then 1 else 0
  | unicast => if is_broadcast c (destination v) then 0 else 1
  | _ => 0
  end.

Lemma counted_count c k : counters_ok c -> counted c (count 1 k c) (one k).
Proof.
  intros Hc. split; [by destruct c|]. intros k'. unfold one. simpl. case_decide; [by subst|].
  rewrite Z.add_0_r. symmetry. apply u64_small, Hc.
Qed.

Lemma count_other n k c k' : k' <> k -> stats (count n k c) k' = stats c k'.
Proof. intros Hne. simpl. by rewrite decide_False. Qed.

Definition acceptableb c v : bool :=
  let local_loopback := Z.shiftr (local_address c) 24 =? 127 in
  Bool.eqb (Z.shiftr (source v) 24 =? 127) local_loopback &&
  (local_loopback || negb (source v =? destination v) && negb (source v =? local_address c)) &&
  ((destination v =? local_address c) || is_broadcast c (destination v) && accept_broadcast c).

Lemma acceptableb_spec c v : acceptableb c v = true <-> acceptable c v.
Proof.
  unfold acceptableb, acceptable, is_broadcast, loopback.
  rewrite !andb_true_iff, !orb_true_iff, eqb_true_iff, !andb_true_iff, !negb_true_iff, !orb_true_iff, !Z.eqb_eq,
    !Z.eqb_neq.
  assert ((Z.shiftr (source v) 24 =? 127) = (Z.shiftr (local_address c) 24 =? 127) <->
          (Z.shiftr (source v) 24 = 127 <-> Z.shiftr (local_address c) 24 = 127)) as ->.
  { destruct (Z.eqb_spec (Z.shiftr (source v) 24) 127), (Z.eqb_spec (Z.shiftr (local_address c) 24) 127);
      intuition congruence. }
  destruct (Z.eq_dec (Z.shiftr (local_address c) 24) 127); intuition.
Qed.

(** The counters of a packet the filter accepts. *)
Definition accepted c v : ipv4_context H T :=
  count 1 (if is_broadcast c (destination v) then broadcast else unicast)
    (count (packet_length v) bytes (count 1 packets c)).

Lemma accepted_counted c v : counters_ok c -> counted c (accepted c v) (passed c v).
Proof.
  intros Hc. split; [by destruct c|]. intros k. unfold accepted, passed, is_broadcast. simpl.
  destruct (_ || _), k; simpl; try done; rewrite Z.add_0_r; symmetry; apply u64_small, Hc.
Qed.

Lemma unhandled_counted c v :
  counters_ok c ->
  counted c (count 1 drops_protocol (accepted c v)) (fun k => passed c v k + one drops_protocol k).
Proof.
  intros Hc. destruct (accepted_counted c v Hc) as [Hs Hk]. split; [by destruct c|]. intros k.
  unfold one. change (stats (count 1 drops_protocol (accepted c v)) k) with
    (if decide (k = drops_protocol) then u64 (stats (accepted c v) drops_protocol + 1) else stats (accepted c v) k).
  case_decide as Hd; [|by rewrite Hk, Z.add_0_r]. subst k. rewrite Hk. simpl. f_equal.
  rewrite Z.add_0_r. by rewrite u64_small by apply Hc.
Qed.

Lemma dispatch_accepted run v c w :
  acceptable c v ->
  dispatch_packet run v c w =
  match List.find (fun h => handler_protocol h =? protocol v) (handlers c) with
  | None => (-1, count 1 drops_protocol (accepted c v), w)
  | Some h =>
      let '(r, w) := run (handler_function h) v w in
      if r <? 0 then (-1, count 1 drops_protocol (accepted c v), w) else (r, accepted c v, w)
  end.
Proof.
  intros Ha%acceptableb_spec. unfold acceptableb in Ha. unfold dispatch_packet.
  apply andb_true_iff in Ha as [[Hl Hs]%andb_true_iff Hd]. rewrite Hl. cbn [negb].
  destruct (Z.shiftr (local_address c) 24 =? 127); cbn [negb andb orb] in *.
  all: repeat match goal with
       | Hx : negb ?a && negb ?b = true |- _ => apply andb_true_iff in Hx as [?%negb_true_iff ?%negb_true_iff]
       | Hx : ?a = false |- context [?a] => rewrite Hx; cbn iota
       end.
  all: destruct (destination v =? local_address c); cbn [negb orb andb] in *; [|rewrite Hd]; done.
Qed.

Lemma dispatch_rejected run v c w :
  counters_ok c -> ~ acceptable c v ->
  exists k c', dispatch_packet run v c w = (-1, c', w) /\ is_filter_drop k = true /\ counted c c' (one k).
Proof.
  intros Hc. rewrite <- acceptableb_spec, not_true_iff_false. unfold acceptableb, dispatch_packet. intros Ha.
  assert (forall k, is_filter_drop k = true ->
    exists k0 c', (-1, count 1 k c, w) = (-1, c', w) /\ is_filter_drop k0 = true /\ counted c c' (one k0)) as Hout
    by (intros k Hk; exists k, (count 1 k c); auto using counted_count).
  destruct (Bool.eqb _ _); cbn [negb andb] in *; [|by apply Hout].
  destruct (Z.shiftr (local_address c) 24 =? 127); cbn [negb andb orb] in *.
  2: destruct (source v =? destination v); cbn [negb andb] in *; [by apply Hout|].
  2: destruct (source v =? local_address c); cbn [negb andb] in *; [by apply Hout|].
  all: apply orb_false_iff in Ha as [-> ->]; cbn [negb andb]; by apply Hout.
Qed.

(** ** Properties *)

(** C36: The receive path delivers exactly what it should, and its counters
    say so.  A packet that parses, that the address filter accepts and whose
    protocol is registered is given to that handler, whose answer is the
    caller's (-1 for any negative one); the counters of received packets move,
    and the protocol drops when the handler refused.  An accepted packet of an
    unregistered protocol moves the same counters and the protocol drops, answers -1
    and reaches nothing.  Any other packet answers -1, reaches nothing and
    moves exactly one counter, one of the drops other than the protocol's, by one.  Nothing
    else of the context changes. *)
Theorem ipv4_receive_filter run data length c w :
  counters_ok c ->
  (forall v h r w', deliverable c data length v h -> run (handler_function h) v w = (r, w') ->
     exists c', ipv4_receive run data length c w = (Z.max (-1) r, c', w') /\
       counted c c' (fun k => passed c v k + if r <? 0 then one drops_protocol k else 0)) /\
  (forall v, ipv4_parse data length = inr v -> acceptable c v -> (forall h, ~ deliverable c data length v h) ->
     exists c', ipv4_receive run data length c w = (-1, c', w) /\
       counted c c' (fun k => passed c v k + one drops_protocol k)) /\
  ((forall v, ipv4_parse data length = inr v -> ~ acceptable c v) ->
     exists k c', ipv4_receive run data length c w = (-1, c', w) /\ is_filter_drop k = true /\
       counted c c' (one k)).
Proof.
  intros Hc. unfold ipv4_receive, parse_and_count, deliverable. split_and!.
  - intros v h r w' (-> & Ha & Hf) Hr. rewrite dispatch_accepted, Hf, Hr by done.
    destruct (Z.ltb_spec r 0).
    + eexists. split; [by replace (Z.max (-1) r) with (-1) by lia|by apply unhandled_counted].
    + eexists. split; [by replace (Z.max (-1) r) with r by lia|].
      destruct (accepted_counted c v Hc) as [Hs Hk]. split; [done|]. intros k. by rewrite Hk, Z.add_0_r.
  - intros v -> Ha Hn. rewrite dispatch_accepted by done.
    destruct (List.find _ _) as [h|] eqn:Hf; [by destruct (Hn h)|].
    eexists. split; [done|by apply unhandled_counted].
  - intros Hn. destruct (ipv4_parse data length) as [e|v] eqn:Hp; [|by apply dispatch_rejected, Hn].
    do 2 eexists. split; [reflexivity|]. split; [|by apply counted_count]. by repeat case_if.
Qed.

End Filter.

(** A packet of a built header and its payload. *)
Lemma built_packet_parses buffer body src dst proto time ident df header :
  ok_fields src dst proto time ident -> is_bytes body ->
  ipv4_build_header buffer (Z.of_nat (length body)) src dst proto time ident df = Some header ->
  let data := take 20 header ++ body in
  ipv4_parse (Some data) (20 + Z.of_nat (length body)) =
  inr (PacketView data body None 0 0 (20 + Z.of_nat (length body)) 20 (Z.of_nat (length body)) src dst ident
         (if df then 0x4000 else 0) time proto 0).
Proof.
  intros (Hs & Hd & Hp & Ht & Hi) Hb He data. unfold ipv4_build_header in He.
  destruct (_ || _) eqn:Hg in He; [done|]. boolify. injection He as <-. unfold IPV4_HEADER_MIN in *.
  set (n := Z.of_nat (length body)) in *. set (frag := if df then 0x4000 else 0) in *.
  set (c := ipv4_checksum _ _) in *.
  assert (is_u16 frag /\ nz (Z.land frag 0x8000) || nz (Z.land frag 0x3FFF) = false) as [Hf Hfr]
    by (unfold frag; destruct df; (split; [unfold is_u16; lia|reflexivity])).
  assert (data = header_bytes (20 + n) ident frag time proto src dst c ++ body) as Hdata by reflexivity.
  unfold ipv4_parse. unfold IPV4_HEADER_MIN. rewrite (proj2 (Z.ltb_ge (20 + n) 20)) by lia.
  assert (at_ data 0 = 0x45) as -> by reflexivity.
  change (Z.land 0x45 0x0F * 4) with 20. change (Z.shiftr 0x45 4 =? 4) with true.
  change (20 <? 20) with false. cbn [negb orb]. rewrite (proj2 (Z.ltb_ge (20 + n) 20)) by lia.
  assert (read_be16 data 2 = 20 + n) as ->.
  { etrans; [|apply (u16_small (20 + n)); unfold is_u16; lia].
    etrans; [|apply (read_write_be16 (u16 (20 + n)) []), u16_range]. reflexivity. }
  rewrite (proj2 (Z.ltb_ge (20 + n) 20)), (proj2 (Z.ltb_ge (20 + n) (20 + n))) by lia. cbn [orb].
  assert (ipv4_checksum data 20 = 0) as ->.
  { rewrite Hdata. change 20 with IPV4_HEADER_MIN at 2.
    rewrite checksum_header by (done || by apply header_bytes_ok). by apply filled_header. }
  change (nz 0) with false. cbn iota. assert (at_ data 8 = time) as -> by reflexivity.
  rewrite (proj2 (nz_true time)) by done. cbn [negb].
  assert (read_be32 data 12 = src) as -> by (etrans; [|by apply (read_write_be32 src)]; reflexivity).
  assert (read_be32 data 16 = dst) as -> by (etrans; [|by apply (read_write_be32 dst)]; reflexivity).
  assert (read_be16 data 6 = frag) as -> by (etrans; [|by apply (read_write_be16 frag [])]; reflexivity).
  assert (read_be16 data 4 = ident) as -> by (etrans; [|by apply (read_write_be16 ident [])]; reflexivity).
  match goal with Hu : unicast_address src = true |- _ => rewrite Hu end.
  rewrite Hfr. cbn [negb]. f_equal. f_equal. lia.
Qed.

(** A built header parses back: the packet made of a header from
    [ipv4_build_header] and its payload passes every test of [ipv4_parse],
    checksum included, with the addresses, protocol, time to live,
    identification and lengths it was built from. *)
Theorem ipv4_header_roundtrip buffer body src dst proto time ident df header :
  ok_fields src dst proto time ident -> is_bytes body ->
  ipv4_build_header buffer (Z.of_nat (length body)) src dst proto time ident df = Some header ->
  let data := take 20 header ++ body in
  ipv4_parse (Some data) (20 + Z.of_nat (length body)) =
  inr (PacketView data body None 0 0 (20 + Z.of_nat (length body)) 20 (Z.of_nat (length body)) src dst ident
         (if df then 0x4000 else 0) time proto 0).
Proof. apply built_packet_parses. Qed.

Lemma ipv4_header_roundtrip_witness :
  exists header, ipv4_build_header (replicate 20 0) 3 0x0A000001 0x0A000002 17 64 7 true = Some header /\
    ipv4_parse (Some (take 20 header ++ [1; 2; 3])) 23 =
    inr (PacketView (take 20 header ++ [1; 2; 3]) [1; 2; 3] None 0 0 23 20 3 0x0A000001 0x0A000002 7 0x4000 64 17 0).
Proof.
  eexists. split; [vm_compute; reflexivity|].
  apply (ipv4_header_roundtrip (replicate 20 0) [1; 2; 3] 0x0A000001 0x0A000002 17 64 7 true).
  - unfold ok_fields, is_u32, is_u8, is_u16. lia.
  - repeat constructor; discriminate.
  - vm_compute. reflexivity.
Defined.

(** A host with one registered protocol, and the packets of a protocol that
    reach it from an address. *)
Definition example_context : ipv4_context unit unit :=
  Ipv4Context 0 0x0A000002 0xFFFFFF00 0x0A0000FF false None [ProtocolHandler 17 tt] (fun _ => 0).

Definition example_packet (src proto : Z) : list Z :=
  default [] (ipv4_build_header (replicate 20 0) 0 src 0x0A000002 proto 64 7 true).

Definition example_run (_ : unit) (v : ipv4_packet_view) (seen : list Z) : Z * list Z := (3, source v :: seen).

Lemma example_counters_ok : counters_ok example_context.
Proof. intros k. unfold is_u64. simpl. lia. Qed.

(** A packet delivered, one of an unregistered protocol and one that claims
    the host's own address. *)
Lemma ipv4_receive_filter_witness :
  (exists c', ipv4_receive example_run (Some (example_packet 0x0A000001 17)) 20 example_context [] =
     (3, c', [0x0A000001]) /\ stats c' packets = 1 /\ stats c' bytes = 20 /\ stats c' drops_protocol = 0) /\
  (exists c', ipv4_receive example_run (Some (example_packet 0x0A000001 6)) 20 example_context [] =
     (-1, c', []) /\ stats c' packets = 1 /\ stats c' unicast = 1 /\ stats c' drops_protocol = 1) /\
  (exists k c', ipv4_receive example_run (Some (example_packet 0x0A000002 17)) 20 example_context [] =
     (-1, c', []) /\ is_filter_drop k = true /\ counted example_context c' (one k)).
Proof.
  split; [|split].
  - destruct (ipv4_receive_filter example_run (Some (example_packet 0x0A000001 17)) 20 example_context []
      example_counters_ok) as (Hd & _ & _).
    edestruct Hd as (c' & Hr & _ & Hk);
      [split; [vm_compute; reflexivity|split; [by apply acceptableb_spec|reflexivity]]|reflexivity|].
    exists c'. split; [exact Hr|]. rewrite !Hk. vm_compute. auto.
  - destruct (ipv4_receive_filter example_run (Some (example_packet 0x0A000001 6)) 20 example_context []
      example_counters_ok) as (_ & Hd & _).
    edestruct Hd as (c' & Hr & _ & Hk);
      [vm_compute; reflexivity| | |exists c'; split; [exact Hr|rewrite !Hk; vm_compute; auto]].
    + by apply acceptableb_spec.
    + intros h (_ & _ & Hf). discriminate Hf.
  - apply ipv4_receive_filter; [exact example_counters_ok|]. intros v Hp Ha. vm_compute in Hp. injection Hp as <-.
    apply acceptableb_spec in Ha. discriminate.
Defined.

End Ipv4.
