(* ===== verification/Icmp.v ===== *)
(** ICMP: [src/net/icmp.c].

    The message handler with its echo replies, the path MTU notification, the
    port unreachable message and the reply budget, above [ipv4_send] of
    Ipv4.v.  The IPv4 context a message arrives on is its identity, which the
    handler compares, and its value.  What [ipv4_send]'s transmit function and
    the installed path MTU callback do is an argument of the handler; both act
    on the rest of the system, a value of the type [W]. *)

From S2P Require Import Prelude Wire Checksum Ipv4.

Module Icmp.

Import Wire Checksum.
Import (notations) Ipv4.

Definition ICMP_HEADER_SIZE : Z := 8.

Definition ICMP_ECHO_REPLY : Z := 0.

Definition ICMP_DESTINATION_UNREACHABLE : Z := 3.

Definition ICMP_FRAG_NEEDED : Z := 4.

Definition ICMP_ECHO_REQUEST : Z := 8.

Definition ICMP_TIME_EXCEEDED : Z := 11.

Definition ICMP_MESSAGE_MAX : Z := 1480.

Inductive icmp_stat :=
  | echo_requests | echo_replies | replies_sent | destination_unreachable | fragmentation_needed
  | time_exceeded | malformed | checksum_errors | rate_limited | broadcast_suppressed | transmit_errors
  | port_unreachable_sent.

#[global] Instance icmp_stat_eq : EqDecision icmp_stat.
Proof. solve_decision. Defined.

(** [pmtu] is the callback with its context, [P] their type. *)
Record icmp_context {P : Type} := IcmpContext {
  ipv4 : Z;
  pmtu : option P;
  now : Z;
  window_start : Z;
  window_ticks : Z;
  replies_in_window : Z;
  max_replies_per_window : Z;
  stats : icmp_stat -> Z
}.

Arguments icmp_context : clear implicits.

Arguments IcmpContext {P} _ _ _ _ _ _ _ _.

Definition icmp_checksum (data : list Z) (length : Z) : Z :=
  if negb (nz length) then 0xFFFF
  else net_checksum_finish (net_checksum_sum 0 data (Z.to_nat length)).

Section Context.

Context {P H T W : Type}.
Context (send : T -> Z -> Z -> list Z -> W -> Z * W) (notify : P -> Z -> Z -> W -> W).
Implicit Types (c : icmp_context P) (ip : Ipv4.ipv4_context H T) (v : Ipv4.ipv4_packet_view) (w : W).

Definition count (k : icmp_stat) c : icmp_context P :=
  IcmpContext (ipv4 c) (pmtu c) (now c) (window_start c) (window_ticks c) (replies_in_window c)
    (max_replies_per_window c) (fun k' => if decide (k' = k) then u64 (stats c k + 1) else stats c k').

Definition set_window (now start replies : Z) c : icmp_context P :=
  IcmpContext (ipv4 c) (pmtu c) now start (window_ticks c) replies (max_replies_per_window c) (stats c).

(** [handler] is the registered [icmp_ipv4_handler] with this context. *)
Definition icmp_init (handler : H) (ip_id : Z) ip (ticks max_replies : Z) c :
    Z * icmp_context P * Ipv4.ipv4_context H T :=
  if negb (nz ticks) || (0x7FFFFFFF <? ticks) || negb (nz max_replies) then (-1, c, ip) else
  let '(r, ip) := Ipv4.ipv4_register_protocol 1 handler ip in
  (r, IcmpContext ip_id None 0 0 ticks 0 max_replies (fun _ => 0), ip).

Definition icmp_tick (time : Z) c : icmp_context P :=
  if i32 (window_ticks c) <=? i32 (time - window_start c) then set_window time time 0 c
  else set_window time (window_start c) (replies_in_window c) c.

Definition reply_allowed c : bool * icmp_context P :=
  let c := icmp_tick (now c) c in
  if max_replies_per_window c <=? replies_in_window c then (false, count rate_limited c)
  else (true, set_window (now c) (window_start c) (u32 (replies_in_window c + 1)) c).

(** A message with its checksum field set to [sum]. *)
Definition with_checksum (sum : Z) (message : list Z) : list Z :=
  <[3%nat := u8 sum]> (<[2%nat := u8 (Z.shiftr sum 8)]> message).

(** The reply [icmp_ipv4_handler] builds on its stack. *)
Definition echo_reply (message : list Z) (length : Z) : list Z :=
  let reply := take (Z.to_nat length) message in
  let reply := <[0%nat := ICMP_ECHO_REPLY]> reply in
  let reply := <[3%nat := 0]> (<[2%nat := 0]> reply) in
  with_checksum (icmp_checksum reply length) reply.

(** The datagram a fragmentation needed message quotes: its destination, when
    the quoted header is well formed and names this host as its source. *)
Definition quoted_datagram ip (message : list Z) (length : Z) : option Z :=
  if (ICMP_HEADER_SIZE + Ipv4.IPV4_HEADER_MIN <=? length) then
    let quoted := drop (Z.to_nat ICMP_HEADER_SIZE) message in
    let header_length := Z.land (at_ quoted 0) 0x0F * 4 in
    if (Z.shiftr (at_ quoted 0) 4 =? 4) && (Ipv4.IPV4_HEADER_MIN <=? header_length) &&
       (ICMP_HEADER_SIZE + header_length <=? length)
    then
      if (read_be32 quoted 12 =? Ipv4.local_address ip) && nz (read_be32 quoted 16)
      then Some (read_be32 quoted 16) else None
    else None
  else None.

Definition icmp_ipv4_handler (ip_id : Z) ip v c w : Z * icmp_context P * W :=
  let length := Ipv4.payload_length v in
  let message := Ipv4.payload v in
  if negb (ipv4 c =? ip_id) || negb (Ipv4.protocol v =? 1) || (length <? ICMP_HEADER_SIZE) ||
     (ICMP_MESSAGE_MAX <? length)
  then (-1, count malformed c, w) else
  if nz (icmp_checksum message length) then (-1, count checksum_errors c, w) else
  let type := at_ message 0 in
  let code := at_ message 1 in
  if type =? ICMP_ECHO_REQUEST then
    if nz code then (-1, count malformed c, w) else
    let c := count echo_requests c in
    if (Ipv4.destination v =? 0xFFFFFFFF) || (Ipv4.destination v =? Ipv4.subnet_broadcast ip)
    then (0, count broadcast_suppressed c, w) else
    let '(allowed, c) := reply_allowed c in
    if negb allowed then (0, c, w) else
    let '(r, w) := Ipv4.ipv4_send send (Ipv4.source v) 1 (echo_reply message length) ip w in
    if nz r then (-1, count transmit_errors c, w) else (0, count replies_sent c, w)
  else if type =? ICMP_ECHO_REPLY then
    if nz code then (-1, count malformed c, w) else (0, count echo_replies c, w)
  else if type =? ICMP_DESTINATION_UNREACHABLE then
    if 15 <? code then (-1, count malformed c, w) else
    let c := count destination_unreachable c in
    if code =? ICMP_FRAG_NEEDED then
      match quoted_datagram ip message length with
      | Some dst =>
          let c := count fragmentation_needed c in
          match pmtu c with
          | Some f => (0, c, notify f dst (read_be16 message 6) w)
          | None => (0, c, w)
          end
      | None => (0, c, w)
      end
    else (0, c, w)
  else if type =? ICMP_TIME_EXCEEDED then
    if 1 <? code then (-1, count malformed c, w) else (0, count time_exceeded c, w)
  else (-1, count malformed c, w).

(** The message [icmp_send_port_unreachable] builds. *)
Definition unreachable_message (packet : list Z) (quoted : Z) : list Z :=
  let message := ICMP_DESTINATION_UNREACHABLE :: 3 :: replicate 6 0 ++ take (Z.to_nat quoted) packet in
  with_checksum (icmp_checksum message (8 + quoted)) message.

(** [ip] is what the context's [ipv4] points at. *)
Definition icmp_send_port_unreachable ip v c w : Z * icmp_context P * W :=
  if negb (Ipv4.protocol v =? 17) || (Ipv4.destination v =? 0xFFFFFFFF) ||
     (Ipv4.destination v =? Ipv4.subnet_broadcast ip)
  then (-1, c, w) else
  let '(allowed, c) := reply_allowed c in
  if negb allowed then (-1, c, w) else
  let quoted_payload := if Ipv4.payload_length v <? 8 then Ipv4.payload_length v else 8 in
  let quoted := u32 (Ipv4.header_length v + quoted_payload) in
  if 68 <? quoted then (-1, c, w) else
  let '(r, w) :=
    Ipv4.ipv4_send send (Ipv4.source v) 1 (unreachable_message (Ipv4.packet v) quoted) ip w in
  if nz r then (-1, count transmit_errors c, w) else (0, count port_unreachable_sent c, w).

Definition icmp_set_pmtu_callback (function : option P) c : Z * icmp_context P :=
  (0, IcmpContext (ipv4 c) function (now c) (window_start c) (window_ticks c) (replies_in_window c)
        (max_replies_per_window c) (stats c)).

End Context.

(** ** Checksums of built messages *)

Lemma with_checksum_cons sum a b x y rest :
  with_checksum sum (a :: b :: x :: y :: rest) = a :: b :: u8 (Z.shiftr sum 8) :: u8 sum :: rest.
Proof. reflexivity. Qed.

Lemma with_checksum_verifies a b rest n :
  is_u8 a -> is_u8 b -> is_bytes rest -> n = 4 + Z.of_nat (length rest) -> n <= 0xFFFF ->
  let message := a :: b :: 0 :: 0 :: rest in
  icmp_checksum (with_checksum (icmp_checksum message n) message) n = 0.
Proof.
  intros Ha Hb Hr Hn Hmax message. set (c := icmp_checksum message n).
  assert (c = net_checksum_finish (net_checksum_sum 0 ([a; b] ++ 0 :: 0 :: rest) (2 + 2 + length rest))) as Hc.
  { unfold c, icmp_checksum. rewrite (proj2 (nz_true n)) by lia. cbn [negb].
    by replace (Z.to_nat n) with (2 + 2 + length rest)%nat by lia. }
  destruct (filled_checksum_verifies [a; b] rest c) as [Hv Hu]; [do 2 (constructor; [done|]); constructor|done|done|simpl; lia|done|].
  unfold message. rewrite with_checksum_cons. unfold icmp_checksum.
  rewrite (proj2 (nz_true n)) by lia. cbn [negb].
  replace (Z.to_nat n) with (length [a; b] + 2 + length rest)%nat by (simpl; lia).
  etrans; [|exact Hv]. pose proof (Ipv4.write_be16_parts c Hu) as Hp. unfold write_be16 in Hp.
  injection Hp as Hp1. by rewrite Hp1.
Qed.

(** ** Echo *)

Section Echo.

Context {P H T W : Type}.
Context (send : T -> Z -> Z -> list Z -> W -> Z * W) (notify : P -> Z -> Z -> W -> W).
Implicit Types (c : icmp_context P) (ip : Ipv4.ipv4_context H T) (v : Ipv4.ipv4_packet_view) (w : W).

(** A message the handler takes for what it is. *)
Definition well_formed (ip_id : Z) v c : Prop :=
  ipv4 c = ip_id /\ Ipv4.protocol v = 1 /\ ICMP_HEADER_SIZE <= Ipv4.payload_length v <= ICMP_MESSAGE_MAX /\
  icmp_checksum (Ipv4.payload v) (Ipv4.payload_length v) = 0.

Definition type_code v : Z * Z := (at_ (Ipv4.payload v) 0, at_ (Ipv4.payload v) 1).

Definition to_broadcast ip v : Prop :=
  Ipv4.destination v = 0xFFFFFFFF \/ Ipv4.destination v = Ipv4.subnet_broadcast ip.

(** A reply answers a request: its checksum verifies, its type is a reply's
    and everything behind the checksum is the request's. *)
Definition answers (request reply : list Z) : Prop :=
  icmp_checksum reply (Z.of_nat (length reply)) = 0 /\
  at_ reply 0 = ICMP_ECHO_REPLY /\ at_ reply 1 = at_ request 1 /\
  length reply = length request /\ drop 4 reply = drop 4 request.

Lemma echo_reply_answers message n :
  is_bytes message -> 8 <= n <= Z.of_nat (length message) -> n <= ICMP_MESSAGE_MAX ->
  answers (take (Z.to_nat n) message) (echo_reply message n).
Proof.
  intros Hb Hn Hmax. unfold ICMP_MESSAGE_MAX in Hmax. unfold echo_reply.
  assert (is_bytes (take (Z.to_nat n) message)) as Hbt by by apply Forall_take.
  assert (Z.of_nat (length (take (Z.to_nat n) message)) = n) as Hlen by (rewrite length_take; lia).
  destruct (take (Z.to_nat n) message) as [|a [|b [|x [|y rest]]]]; simpl in Hlen; try lia.
  cbn [insert list_insert]. unfold is_bytes in Hbt.
  apply Forall_cons in Hbt as [_ [Hb1 [_ [_ Hr]%Forall_cons]%Forall_cons]%Forall_cons].
  unfold answers. rewrite with_checksum_cons.
  replace (Z.of_nat (length _)) with n by (simpl; lia). split_and!; try done.
  rewrite <- with_checksum_cons with (x := 0) (y := 0).
  apply with_checksum_verifies; (done || (unfold is_u8; lia) || lia).
Qed.

Lemma handler_well_formed ip_id v c :
  well_formed ip_id v c ->
  negb (ipv4 c =? ip_id) || negb (Ipv4.protocol v =? 1) || (Ipv4.payload_length v <? ICMP_HEADER_SIZE) ||
    (ICMP_MESSAGE_MAX <? Ipv4.payload_length v) = false /\
  nz (icmp_checksum (Ipv4.payload v) (Ipv4.payload_length v)) = false.
Proof.
  intros (He & Hp & Hl & Hc). rewrite Hc. split; [|done].
  rewrite (proj2 (Z.eqb_eq _ _) He), (proj2 (Z.eqb_eq _ _) Hp). cbn [negb orb].
  rewrite (proj2 (Z.ltb_ge _ _)), (proj2 (Z.ltb_ge _ _)) by lia. done.
Qed.

(** ** Properties *)

(** An echo request for the host. *)
Lemma handler_echo ip_id ip v c w allowed c1 :
  well_formed ip_id v c -> type_code v = (ICMP_ECHO_REQUEST, 0) -> ~ to_broadcast ip v ->
  is_bytes (Ipv4.payload v) -> Ipv4.payload_length v <= Z.of_nat (length (Ipv4.payload v)) ->
  reply_allowed (count echo_requests c) = (allowed, c1) ->
  exists reply,
    answers (take (Z.to_nat (Ipv4.payload_length v)) (Ipv4.payload v)) reply /\
    icmp_ipv4_handler send notify ip_id ip v c w =
      if allowed then
        let '(r, w') := Ipv4.ipv4_send send (Ipv4.source v) 1 reply ip w in
        (if nz r then -1 else 0, count (if nz r then transmit_errors else replies_sent) c1, w')
      else (0, c1, w).
Proof.
  intros Hwf Ht Hbc Hb Hlen Hal. destruct (handler_well_formed _ _ _ Hwf) as [Hg Hc].
  exists (echo_reply (Ipv4.payload v) (Ipv4.payload_length v)). split.
  { destruct Hwf as (_ & _ & Hl & _). apply echo_reply_answers; [done| |]; unfold ICMP_HEADER_SIZE in *; lia. }
  unfold icmp_ipv4_handler. rewrite Hg, Hc. injection Ht as -> ->. cbn [Z.eqb].
  change (ICMP_ECHO_REQUEST =? ICMP_ECHO_REQUEST) with true. change (nz 0) with false. cbn iota.
  assert ((Ipv4.destination v =? 0xFFFFFFFF) || (Ipv4.destination v =? Ipv4.subnet_broadcast ip) = false) as ->.
  { apply orb_false_iff. rewrite !Z.eqb_neq. unfold to_broadcast in Hbc. tauto. }
  rewrite Hal. destruct allowed; [|done]. cbn [negb].
  destruct (Ipv4.ipv4_send _ _ _ _ _ _) as [r w']. by destruct (nz r).
Qed.

(** An echo request is answered: on a well-formed request for the host's
    own address, with reply budget left, the handler sends its sender one
    ICMP message of the request's length whose checksum verifies, whose type
    is echo reply and whose identifier, sequence number and data are the
    request's, and reports the failure of that send. *)
Theorem icmp_echo_answered ip_id ip v c w allowed c1 :
  well_formed ip_id v c -> type_code v = (ICMP_ECHO_REQUEST, 0) -> ~ to_broadcast ip v ->
  is_bytes (Ipv4.payload v) -> Ipv4.payload_length v <= Z.of_nat (length (Ipv4.payload v)) ->
  reply_allowed (count echo_requests c) = (allowed, c1) ->
  exists reply,
    answers (take (Z.to_nat (Ipv4.payload_length v)) (Ipv4.payload v)) reply /\
    icmp_ipv4_handler send notify ip_id ip v c w =
      if allowed then
        let '(r, w') := Ipv4.ipv4_send send (Ipv4.source v) 1 reply ip w in
        (if nz r then -1 else 0, count (if nz r then transmit_errors else replies_sent) c1, w')
      else (0, c1, w).
Proof. apply handler_echo. Qed.

(** Received messages have no other effect: what the handler changes
    outside its own context is either an echo reply, sent to the source of a
    well-formed echo request that was not broadcast and within the reply
    budget, or a path MTU notification for a well-formed fragmentation needed
    message that quotes a datagram this host sent to that destination. *)
Theorem icmp_effects_confined ip_id ip v c w r c' w' :
  icmp_ipv4_handler send notify ip_id ip v c w = (r, c', w') ->
  w' = w \/
  (well_formed ip_id v c /\ type_code v = (ICMP_ECHO_REQUEST, 0) /\ ~ to_broadcast ip v /\
   fst (reply_allowed (count echo_requests c)) = true /\
   w' = snd (Ipv4.ipv4_send send (Ipv4.source v) 1
               (echo_reply (Ipv4.payload v) (Ipv4.payload_length v)) ip w)) \/
  (exists f dst, well_formed ip_id v c /\
     type_code v = (ICMP_DESTINATION_UNREACHABLE, ICMP_FRAG_NEEDED) /\ pmtu c = Some f /\
     read_be32 (drop 8 (Ipv4.payload v)) 12 = Ipv4.local_address ip /\
     read_be32 (drop 8 (Ipv4.payload v)) 16 = dst /\ dst <> 0 /\
     w' = notify f dst (read_be16 (Ipv4.payload v) 6) w).
Proof.
  unfold icmp_ipv4_handler. intros He.
  destruct (_ || _ || _ || _) eqn:Hg in He; [left; congruence|].
  destruct (nz _) eqn:Hc in He; [left; congruence|].
  assert (well_formed ip_id v c) as Hwf by (apply nz_false in Hc; boolify; unfold well_formed; lia).
  destruct (_ =? ICMP_ECHO_REQUEST) eqn:H8 in He.
  { destruct (nz _) eqn:Hcode in He; [left; congruence|]. apply nz_false in Hcode.
    destruct (_ || _) eqn:Hb in He; [left; congruence|].
    destruct (reply_allowed _) as [al c1] eqn:Hal. destruct al; cbn [negb] in He; [|left; congruence].
    right; left. split; [done|]. unfold type_code, to_broadcast. boolify. split; [congruence|].
    split; [tauto|]. split; [done|].
    destruct (Ipv4.ipv4_send _ _ _ _ _ _) as [r0 w0]. destruct (r0 =? 0); simpl in He |- *; congruence. }
  destruct (_ =? ICMP_ECHO_REPLY) eqn:H0 in He; [destruct (nz _) in He; left; congruence|].
  destruct (_ =? ICMP_DESTINATION_UNREACHABLE) eqn:H3 in He.
  2: destruct (_ =? ICMP_TIME_EXCEEDED) in He; [destruct (1 <? _) in He|]; left; congruence.
  destruct (15 <? _) eqn:H15 in He; [left; congruence|].
  destruct (_ =? ICMP_FRAG_NEEDED) eqn:H4 in He; [|left; congruence].
  destruct (quoted_datagram _ _ _) as [dst|] eqn:Hq in He; [|left; congruence].
  destruct (pmtu _) as [f|] eqn:Hf in He; [|left; congruence]. right; right. exists f, dst.
  split; [done|]. unfold type_code. boolify. split; [congruence|]. split; [done|].
  unfold quoted_datagram in Hq. repeat (destruct (_ && _) eqn:? in Hq || destruct (_ <=? _) in Hq; try done).
  boolify. injection Hq as <-. split_and!; try done. congruence.
Qed.

End Echo.

(** ** Instances *)

(** A host at 10.0.0.2, its transmit function logging what it sends and its
    callback logging the destinations it is told about. *)
Definition example_ip : Ipv4.ipv4_context unit unit :=
  Ipv4.Ipv4Context 0 0x0A000002 0xFFFFFF00 0x0A0000FF false (Some tt) [] (fun _ => 0).

Definition example_icmp : icmp_context unit := IcmpContext 1 (Some tt) 5 0 100 0 2 (fun _ => 0).

Definition example_send (_ : unit) (dst proto : Z) (body : list Z) (w : list (Z * list Z)) :
    Z * list (Z * list Z) := (0, (dst, body) :: w).

Definition example_notify (_ : unit) (dst mtu : Z) (w : list (Z * list Z)) : list (Z * list Z) :=
  (dst, [mtu]) :: w.

Definition example_view (message : list Z) : Ipv4.ipv4_packet_view :=
  Ipv4.PacketView [] message None 0 0 0 20 (Z.of_nat (length message)) 0x0A000001 0x0A000002 0 0 64 1 0.

Definition example_request : list Z := [8; 0; 0xF4; 0xF5; 1; 2; 2; 8].

Lemma icmp_echo_answered_witness :
  exists reply, answers example_request reply /\
    icmp_ipv4_handler example_send example_notify 1 example_ip (example_view example_request) example_icmp [] =
    (0, count replies_sent (snd (reply_allowed (count echo_requests example_icmp))), [(0x0A000001, reply)]).
Proof.
  destruct (icmp_echo_answered example_send example_notify 1 example_ip (example_view example_request)
           example_icmp [] true (snd (reply_allowed (count echo_requests example_icmp)))) as (reply & Ha & He).
  - unfold well_formed, ICMP_HEADER_SIZE, ICMP_MESSAGE_MAX. simpl. split_and!; try lia. vm_compute. reflexivity.
  - reflexivity.
  - unfold to_broadcast. simpl. lia.
  - unfold is_bytes, is_u8. simpl. repeat (apply Forall_cons; split; [lia|]). constructor.
  - simpl. lia.
  - reflexivity.
  - exists reply. split; [exact Ha|]. destruct Ha as (_ & _ & _ & Hl & _).
    rewrite He. unfold Ipv4.ipv4_send. rewrite Hl. reflexivity.
Defined.

(** A fragmentation needed message quoting a datagram to 10.9.0.1. *)
Definition example_too_big : list Z :=
  [3; 4; 0x1E; 0xCA; 0; 0; 5; 0] ++
  [0x45; 0; 0; 20; 0; 0; 0x40; 0; 64; 17; 0; 0; 10; 0; 0; 2; 10; 9; 0; 1].

Lemma icmp_effects_confined_witness :
  exists c', icmp_ipv4_handler example_send example_notify 1 example_ip (example_view example_too_big)
               example_icmp [] = (0, c', [(0x0A090001, [1280])]) /\
    read_be32 (drop 8 example_too_big) 12 = Ipv4.local_address example_ip.
Proof.
  destruct (icmp_ipv4_handler example_send example_notify 1 example_ip (example_view example_too_big)
              example_icmp []) as [[r c'] w'] eqn:He.
  exists c'. pose proof (icmp_effects_confined _ _ _ _ _ _ _ _ _ _ He) as Hcases.
  assert (r = 0 /\ w' = [(0x0A090001, [1280])]) as [-> ->].
  { apply (f_equal (fun x => (x.1.1, x.2))) in He. vm_compute in He. by injection He as <- <-. }
  split; [done|]. destruct Hcases as [Hw|[(_ & Ht & _)|(f & dst & _ & _ & _ & Hsrc & _)]]; [done|done|exact Hsrc].
Defined.

End Icmp.
