(* ===== verification/NetStack.v ===== *)
(** The receive path from IPv4 to ICMP: the composition of Ipv4.v and Icmp.v.

    [icmp_init] registers [icmp_ipv4_handler] for protocol 1 with the IPv4
    context; the handler's own context is part of the state the dispatch runs
    on.  The theorem follows a packet through [ipv4_receive], the dispatch, the
    handler and [ipv4_send]. *)

From S2P Require Import Prelude Wire Ipv4 Icmp.

Module NetStack.

Import Wire.

Section Stack.

Context {P H T W : Type}.
Context (send : T -> Z -> Z -> list Z -> W -> Z * W) (notify : P -> Z -> Z -> W -> W).
Implicit Types (ip : Ipv4.ipv4_context H T) (icmp : Icmp.icmp_context P).

(** The registered handler: the ICMP context and the rest of the system are
    the state it runs on.  The counters are all that a receive changes of the
    IPv4 context, and the handler does not read them. *)
Definition icmp_run (ip_id : Z) ip (_ : H) (v : Ipv4.ipv4_packet_view) (s : Icmp.icmp_context P * W) :
    Z * (Icmp.icmp_context P * W) :=
  let '(r, icmp, w) := Icmp.icmp_ipv4_handler send notify ip_id ip v (fst s) (snd s) in (r, (icmp, w)).

(** [icmp_run] as the dispatch of a received packet. *)
Definition receive (ip_id : Z) ip (data : list Z) (s : Icmp.icmp_context P * W) :
    Z * Ipv4.ipv4_context H T * (Icmp.icmp_context P * W) :=
  Ipv4.ipv4_receive (icmp_run ip_id ip) (Some data) (Z.of_nat (length data)) ip s.

(** A host that is not on the loopback network, with ICMP registered. *)
Definition host_ok ip (h : Ipv4.ipv4_protocol_handler H) : Prop :=
  List.find (fun h => Ipv4.handler_protocol h =? 1) (Ipv4.handlers ip) = Some h /\
  Z.shiftr (Ipv4.local_address ip) 24 <> 127 /\ Ipv4.local_address ip <> 0xFFFFFFFF /\
  Ipv4.local_address ip <> Ipv4.subnet_broadcast ip.

Definition echo_request (message : list Z) : Prop :=
  is_bytes message /\ 8 <= Z.of_nat (length message) <= Icmp.ICMP_MESSAGE_MAX /\
  at_ message 0 = Icmp.ICMP_ECHO_REQUEST /\ at_ message 1 = 0 /\
  Icmp.icmp_checksum message (Z.of_nat (length message)) = 0.

(** The outcome of a request the rate limiter has passed on: without an
    installed transmit function the reply is counted as failed, with one it
    is called once, with the reply for [src], and its failure is reported. *)
Definition replied ip ip' (src : Z) (reply : list Z) icmp (w : W) :
    Z * Ipv4.ipv4_context H T * (Icmp.icmp_context P * W) :=
  match Ipv4.transmit ip with
  | None => (-1, ip', (Icmp.count Icmp.transmit_errors icmp, w))
  | Some f =>
      let '(r, w) := send f src 1 reply w in
      if nz r then (-1, ip', (Icmp.count Icmp.transmit_errors icmp, w))
      else (0, ip', (Icmp.count Icmp.replies_sent icmp, w))
  end.

(** C21: A ping is answered within the reply budget.  Take a host off the
    loopback network with ICMP registered, and a packet of a built header for
    the host's address and a valid echo request, from a source that is neither
    the host itself nor a loopback address.  While the rate limiter allows a
    reply and a transmit function is installed, the host calls it exactly
    once, with a message for the packet's source that has a valid checksum,
    is an echo reply and carries the request's data.  Without a transmit
    function the failed reply is counted; over the budget nothing is sent and
    only the limiter's counter tells.  In every case the rest of the IPv4
    context but its counters, and the rest of the system, stay as they were. *)
Theorem ping_answered ip_id ip icmp w h buffer message src ttl ident df header :
  host_ok ip h -> echo_request message -> Ipv4.ok_fields src (Ipv4.local_address ip) 1 ttl ident ->
  Ipv4.ipv4_build_header buffer (Z.of_nat (length message)) src (Ipv4.local_address ip) 1 ttl ident df = Some header ->
  src <> Ipv4.local_address ip -> Z.shiftr src 24 <> 127 -> Icmp.ipv4 icmp = ip_id ->
  let '(allowed, icmp1) := Icmp.reply_allowed (Icmp.count Icmp.echo_requests icmp) in
  exists reply ip',
    Icmp.answers message reply /\ Ipv4.set_stats (Ipv4.stats ip) ip' = ip /\
    receive ip_id ip (take 20 header ++ message) (icmp, w) =
      if allowed then replied ip ip' src reply icmp1 w else (0, ip', (icmp1, w)).
Proof.
  intros (Hf & Hl1 & Hl2 & Hl3) (Hb & Hlen & Ht & Hc & Hsum) Hok Hh Hne Hlo Hid.
  destruct (Icmp.reply_allowed _) as [allowed icmp1] eqn:Hal.
  pose proof (Ipv4.built_packet_parses _ _ _ _ _ _ _ _ _ Hok Hb Hh) as Hparse. cbv zeta in Hparse.
  assert (Z.of_nat (length (take 20 header ++ message)) = 20 + Z.of_nat (length message)) as Hn.
  { unfold Ipv4.ipv4_build_header in Hh. destruct (_ || _) in Hh; [done|]. injection Hh as <-.
    rewrite length_app. simpl length. lia. }
  set (v := Ipv4.PacketView _ _ _ _ _ _ _ _ _ _ _ _ _ _ _) in Hparse.
  assert (Ipv4.acceptable ip v) as Hacc.
  { unfold Ipv4.acceptable, Ipv4.loopback, v. simpl. split; [tauto|]. split; [done|]. by left. }
  destruct (Icmp.handler_echo send notify ip_id ip v icmp w allowed icmp1) as (reply & Hans & Hrun).
  - unfold Icmp.well_formed, v, Icmp.ICMP_HEADER_SIZE. simpl. done.
  - unfold Icmp.type_code, v. simpl. by rewrite Ht, Hc.
  - unfold Icmp.to_broadcast, v. simpl. tauto.
  - done.
  - unfold v. simpl. lia.
  - done.
  - assert (nz src = true) as Hsrc.
    { destruct (nz src) eqn:Hz; [done|]. unfold Ipv4.ipv4_build_header, Ipv4.unicast_address in Hh.
      rewrite Hz in Hh. cbn [andb negb] in Hh. by rewrite orb_true_r in Hh. }
    exists reply. unfold receive, Ipv4.ipv4_receive, Ipv4.parse_and_count. rewrite Hn, Hparse.
    rewrite Ipv4.dispatch_accepted by done. unfold v at 1. cbn [Ipv4.protocol]. rewrite Hf.
    unfold icmp_run. cbn [fst snd]. rewrite Hrun. unfold v in Hans. cbn [Ipv4.payload Ipv4.payload_length] in Hans.
    rewrite Nat2Z.id, firstn_all in Hans. unfold v at 1. cbn [Ipv4.source].
    assert (Ipv4.ipv4_send send src 1 reply ip w =
      match Ipv4.transmit ip with None => (-1, w) | Some f => send f src 1 reply w end) as Hsend.
    { unfold Ipv4.ipv4_send. destruct (Ipv4.transmit ip); [|done]. rewrite Hsrc.
      destruct Hans as (_ & _ & _ & -> & _). unfold Icmp.ICMP_MESSAGE_MAX in Hlen. unfold Ipv4.IPV4_HEADER_MIN.
      by rewrite (proj2 (Z.ltb_ge _ _)) by lia. }
    rewrite Hsend. unfold replied. destruct allowed.
    + destruct (Ipv4.transmit ip) as [f|]; [destruct (send f src 1 reply w) as [r w']; destruct (nz r)|];
        eexists; (split; [done|]); (split; [|reflexivity]); by destruct ip.
    + eexists. split; [done|]. split; [|reflexivity]. by destruct ip.
Qed.

End Stack.

(** A host, and its state once the limiter has granted the reply. *)
Definition example_ip : Ipv4.ipv4_context unit unit :=
  Ipv4.Ipv4Context 0 0x0A000002 0xFFFFFF00 0x0A0000FF false (Some tt) [Ipv4.ProtocolHandler 1 tt] (fun _ => 0).

Definition granted : Icmp.icmp_context unit :=
  snd (Icmp.reply_allowed (Icmp.count Icmp.echo_requests Icmp.example_icmp)).

Lemma ping_answered_witness :
  exists header reply ip',
    Ipv4.ipv4_build_header (replicate 20 0) 8 0x0A000001 0x0A000002 1 64 7 true = Some header /\
    Icmp.answers Icmp.example_request reply /\
    receive Icmp.example_send Icmp.example_notify 1 example_ip (take 20 header ++ Icmp.example_request)
      (Icmp.example_icmp, []) =
    (0, ip', (Icmp.count Icmp.replies_sent granted, [(0x0A000001, reply)])).
Proof.
  eexists.
  destruct (ping_answered Icmp.example_send Icmp.example_notify 1 example_ip Icmp.example_icmp []
    (Ipv4.ProtocolHandler 1 tt) (replicate 20 0) Icmp.example_request 0x0A000001 64 7 true
    (default [] (Ipv4.ipv4_build_header (replicate 20 0) 8 0x0A000001 0x0A000002 1 64 7 true)))
    as (reply & ip' & Ha & _ & He).
  - split; [reflexivity|]. vm_compute. repeat split; discriminate.
  - split; [|vm_compute; repeat split; (discriminate || reflexivity)].
    unfold is_bytes, is_u8. simpl. repeat (apply Forall_cons; split; [lia|]). constructor.
  - unfold Ipv4.ok_fields, is_u32, is_u8, is_u16. simpl. lia.
  - vm_compute. reflexivity.
  - discriminate.
  - vm_compute. discriminate.
  - reflexivity.
  - exists reply, ip'. split; [vm_compute; reflexivity|]. split; [exact Ha|exact He].
Defined.

End NetStack.
