(* ===== verification/Dns.v ===== *)
(** DNS messages: [src/net/dns_message.c].

    Every buffer is the list of its bytes, a C string being a buffer that holds
    a NUL.  A read or a write outside a buffer is the outcome [Fault] and a
    loop that does not end within its fuel the outcome [Timeout], so that the
    theorems on [dns_parse_reply] say that neither can happen.  The arrays the
    code leaves uninitialised on its stack are the argument [stack]. *)

From S2P Require Import Prelude.

Module Dns.

Definition DNS_NAME_MAX : Z := 255.

Definition DNS_LABEL_MAX : Z := 63.

Definition DNS_ADDRESS_MAX : Z := 4.

Definition DNS_CNAME_MAX : Z := 8.

Definition DNS_JUMP_MAX : Z := 16.

Definition DNS_TYPE_A : Z := 1.

Definition DNS_TYPE_CNAME : Z := 5.

Definition DNS_TYPE_AAAA : Z := 28.

Record dns_result := DnsResult {
  ipv4 : list Z;
  ipv6 : list (list Z);
  ttl : Z
}.

Inductive outcome (A : Type) :=
  | Ret (a : A)
  | Fault
  | Timeout.

Arguments Ret {A} _.

Arguments Fault {A}.

Arguments Timeout {A}.

Definition bind {A B} (m : outcome A) (f : A -> outcome B) : outcome B :=
  match m with
  | Ret a => f a
  | Fault => Fault
  | Timeout => Timeout
  end.

Notation "'let*' x := m 'in' e" := (bind m (fun x => e)) (at level 10, x pattern, m at level 200, e at level 200) :
  mich_scope.

Definition get (buffer : list Z) (i : Z) : outcome Z :=
  match buffer !! Z.to_nat i with
  | Some b => Ret b
  | None => Fault
  end.

Definition put (buffer : list Z) (i v : Z) : outcome (list Z) :=
  if i <? Z.of_nat (length buffer) then Ret (<[Z.to_nat i := v]> buffer) else Fault.

Definition read_be16 (buffer : list Z) (i : Z) : outcome Z :=
  let* a := get buffer i in let* b := get buffer (i + 1) in
  Ret (Z.lor (Z.shiftl a 8) b).

Definition read_be32 (buffer : list Z) (i : Z) : outcome Z :=
  let* a := get buffer i in let* b := get buffer (i + 1) in let* c := get buffer (i + 2) in let* d := get buffer (i + 3) in
  Ret (Z.lor (Z.lor (Z.lor (Z.shiftl a 24) (Z.shiftl b 16)) (Z.shiftl c 8)) d).

Definition write_be16 (value : Z) : list Z := [Z.land (Z.shiftr value 8) 0xFF; Z.land value 0xFF].

(** ** Names *)

Fixpoint name_length_loop (fuel : nat) (name : list Z) (length : Z) : outcome Z :=
  match fuel with
  | O => Timeout
  | S fuel =>
      let* c := get name length in
      if nz c && (length <=? DNS_NAME_MAX) then name_length_loop fuel name (length + 1) else Ret length
  end.

Definition name_length (name : list Z) : outcome Z :=
  name_length_loop (Z.to_nat (DNS_NAME_MAX + 2)) name 0.

Definition lower (c : Z) : Z := if (65 <=? c) && (c <=? 90) then c + 32 else c.

(** [n] is how many of the 256 indices are left. *)
Fixpoint names_equal_loop (n : nat) (left right : list Z) (index : Z) : outcome bool :=
  match n with
  | O => Ret false
  | S n =>
      let* a := get left index in let* b := get right index in
      if negb (lower a =? lower b) then Ret false else
      if negb (nz (lower a)) then Ret true else
      names_equal_loop n left right (index + 1)
  end.

Definition names_equal (left right : list Z) : outcome bool :=
  names_equal_loop (Z.to_nat (DNS_NAME_MAX + 1)) left right 0.

(** The inner loop of [encode_name]: the length of the label at [index]. *)
Fixpoint label_length (fuel : nat) (name : list Z) (index label : Z) : outcome Z :=
  match fuel with
  | O => Timeout
  | S fuel =>
      let* c := get name (index + label) in
      if nz c && negb (c =? 46) then label_length fuel name index (label + 1) else Ret label
  end.

(** [out] is what has been written, [None] the answer 0. *)
Fixpoint encode_loop (fuel : nat) (limit : Z) (name : list Z) (index : Z) (out : list Z) :
    outcome (option (list Z)) :=
  match fuel with
  | O => Timeout
  | S fuel =>
      let* c := get name index in
      if nz c then
        let* label := label_length (length name) name index 0 in
        if negb (nz label) || (DNS_LABEL_MAX <? label) then Ret None else
        if limit <=? Z.of_nat (length out) + label + 1 then Ret None else
        let out := out ++ u8 label :: take (Z.to_nat label) (drop (Z.to_nat index) name) in
        let* dot := get name (index + label) in
        encode_loop fuel limit name (if dot =? 46 then index + label + 1 else index + label) out
      else
        if negb (nz (Z.of_nat (length out))) || (limit <? Z.of_nat (length out) + 1) then Ret None
        else Ret (Some (out ++ [0]))
  end.

Definition encode_name (limit : Z) (name : list Z) : outcome (option (list Z)) :=
  encode_loop (length name) limit name 0 [].

Record walk := Walk {
  jumps : Z;
  cursor : Z;
  written : Z;
  followed : bool;
  next : option Z;
  text : option (list Z)
}.

Definition set_next (v : Z) (next : option Z) : option Z :=
  match next with
  | Some _ => Some v
  | None => None
  end.

(** The copy of one label into [text]. *)
Fixpoint copy_label (n : nat) (message : list Z) (from : Z) (t : list Z) (at_ : Z) : outcome (list Z) :=
  match n with
  | O => Ret t
  | S n =>
      let* b := get message from in
      let* t := put t at_ b in
      copy_label n message (from + 1) t (at_ + 1)
  end.

(** One label into the text, or the length check of a walk without one;
    [None] is the answer -1. *)
Definition take_label (message : list Z) (marker : Z) (s : walk) : outcome (option walk) :=
  match text s with
  | Some t =>
      let limit := Z.of_nat (length t) in
      let* (t, written) :=
        (if nz (written s) && (written s + 1 <? limit)
         then let* t := put t (written s) 46 in Ret (t, written s + 1) else Ret (t, written s)) in
      if limit <=? written + marker then Ret None else
      let* t := copy_label (Z.to_nat marker) message (cursor s + 1) t written in
      Ret (Some (Walk (jumps s) (cursor s + (1 + marker)) (written + marker) (followed s) (next s) (Some t)))
  | None =>
      if DNS_NAME_MAX <? written s + marker + 1 then Ret None
      else Ret (Some (Walk (jumps s) (cursor s + (1 + marker)) (written s + (marker + 1)) (followed s) (next s)
                        None))
  end.

Fixpoint skip_loop (fuel : nat) (message : list Z) (s : walk) : outcome (Z * option Z * option (list Z)) :=
  match fuel with
  | O => Timeout
  | S fuel =>
      let length := Z.of_nat (length message) in
      if cursor s <? length then
        let* marker := get message (cursor s) in
        if Z.land marker 0xC0 =? 0xC0 then
          if length <=? cursor s + 1 then Ret (-1, next s, text s) else
          let* low := get message (cursor s + 1) in
          let target := Z.lor (Z.shiftl (Z.land marker 0x3F) 8) low in
          if cursor s <=? target then Ret (-1, next s, text s) else
          if DNS_JUMP_MAX <? jumps s + 1 then Ret (-1, next s, text s) else
          skip_loop fuel message
            (Walk (jumps s + 1) target (written s) true
               (if followed s then next s else set_next (cursor s + 2) (next s)) (text s))
        else if nz (Z.land marker 0xC0) then Ret (-1, next s, text s)
        else if negb (nz marker) then
          let next := if followed s then next s else set_next (cursor s + 1) (next s) in
          match text s with
          | Some t =>
              if written s <? Z.of_nat (List.length t)
              then let* t := put t (written s) 0 in Ret (0, next, Some t)
              else Ret (0, next, Some t)
          | None => Ret (0, next, None)
          end
        else if DNS_LABEL_MAX <? marker then Ret (-1, next s, text s)
        else if length <? u32 (cursor s + 1 + marker) then Ret (-1, next s, text s)
        else
          let* s' := take_label message marker s in
          match s' with
          | None => Ret (-1, next s, text s)
          | Some s' => skip_loop fuel message s'
          end
      else Ret (-1, next s, text s)
  end.

(** At most [DNS_JUMP_MAX] jumps, between which the cursor only moves forward. *)
Definition skip_fuel (message : list Z) : nat := (18 * (length message + 1))%nat.

Definition skip_name (message : list Z) (offset : Z) (next : option Z) (text : option (list Z)) :
    outcome (Z * option Z * option (list Z)) :=
  skip_loop (skip_fuel message) message (Walk 0 offset 0 false next text).

(** ** Queries *)

(** The bytes of the query; [None] is the answer 0. *)
Definition dns_build_query (limit : Z) (name : list Z) (type transaction : Z) : outcome (option (list Z)) :=
  if limit <? 12 + 5 then Ret None else
  let* length := name_length name in
  if negb (nz length) || (DNS_NAME_MAX <? length) then Ret None else
  let* encoded := encode_name (limit - 12 - 4) name in
  match encoded with
  | None => Ret None
  | Some encoded =>
      Ret (Some (write_be16 (Z.land transaction 0xFFFF) ++ write_be16 0x0100 ++ write_be16 1 ++ replicate 6 0 ++
                 encoded ++ write_be16 type ++ write_be16 1))
  end.

(** ** Replies *)

(** The answer offset, or [None] for the answer 0. *)
Definition question_matches (stack message name : list Z) (type : Z) : outcome (option Z) :=
  let* (code, next, parsed) := skip_name message 12 (Some 0) (Some stack) in
  if nz code then Ret None else
  match next, parsed with
  | Some next, Some parsed =>
      if Z.of_nat (length message) <? u32 (next + 4) then Ret None else
      let* t := read_be16 message next in
      if negb (t =? type) then Ret None else
      let* k := read_be16 message (next + 2) in
      if negb (k =? 1) then Ret None else
      let* same := names_equal parsed name in
      if negb same then Ret None else Ret (Some (next + 4))
  | _, _ => Ret None
  end.

(** The copy of the name into [wanted]: [n] indices are left. *)
Fixpoint copy_name (n : nat) (name wanted : list Z) (index : Z) : outcome (list Z) :=
  match n with
  | O => Ret wanted
  | S n =>
      let* c := get name index in
      let* wanted := put wanted index c in
      if nz c then copy_name n name wanted (index + 1) else Ret wanted
  end.

(** The bytes of one address: [n] are left. *)
Fixpoint read_bytes (n : nat) (message : list Z) (i : Z) : outcome (list Z) :=
  match n with
  | O => Ret []
  | S n => let* b := get message i in let* rest := read_bytes n message (i + 1) in Ret (b :: rest)
  end.

(** [if (!result->ttl || ttl < result->ttl) result->ttl = ttl] *)
Definition shorten (time : Z) (r : dns_result) : dns_result :=
  DnsResult (ipv4 r) (ipv6 r) (if negb (nz (ttl r)) || (time <? ttl r) then time else ttl r).

(** The loop over the answer records: [n] are left; [None] is the answer -1. *)
Fixpoint answers_loop (n : nat) (stack message : list Z) (type cursor aliases : Z) (wanted : list Z)
    (r : dns_result) : outcome (option dns_result) :=
  match n with
  | O => Ret (Some r)
  | S n =>
      let length := Z.of_nat (length message) in
      let* (code, next, owner) := skip_name message cursor (Some 0) (Some stack) in
      if nz code then Ret None else
      match next, owner with
      | Some next, Some owner =>
          if length <? u32 (next + 10) then Ret None else
          let* record := read_be16 message next in
          let* klass := read_be16 message (next + 2) in
          let* time := read_be32 message (next + 4) in
          let* size := read_be16 message (next + 8) in
          let data := next + 10 in
          if length <? u32 (data + size) then Ret None else
          let cursor := data + size in
          let* same := (if negb (klass =? 1) then Ret false else names_equal owner wanted) in
          if negb same then answers_loop n stack message type cursor aliases wanted r else
          if record =? DNS_TYPE_CNAME then
            if DNS_CNAME_MAX <? aliases + 1 then Ret None else
            let* (code, _, w) := skip_name message data None (Some wanted) in
            if nz code then Ret None else
            answers_loop n stack message type cursor (aliases + 1) (default wanted w) (shorten time r)
          else if (record =? DNS_TYPE_A) && (type =? DNS_TYPE_A) then
            if negb (size =? 4) then Ret None else
            if Z.of_nat (List.length (ipv4 r)) <? DNS_ADDRESS_MAX then
              let* a := read_be32 message data in
              answers_loop n stack message type cursor aliases wanted
                (shorten time (DnsResult (ipv4 r ++ [a]) (ipv6 r) (ttl r)))
            else answers_loop n stack message type cursor aliases wanted (shorten time r)
          else if (record =? DNS_TYPE_AAAA) && (type =? DNS_TYPE_AAAA) then
            if negb (size =? 16) then Ret None else
            if Z.of_nat (List.length (ipv6 r)) <? DNS_ADDRESS_MAX then
              let* a := read_bytes 16 message data in
              answers_loop n stack message type cursor aliases wanted
                (shorten time (DnsResult (ipv4 r) (ipv6 r ++ [a]) (ttl r)))
            else answers_loop n stack message type cursor aliases wanted (shorten time r)
          else answers_loop n stack message type cursor aliases wanted r
      | _, _ => Ret None
      end
  end.

Inductive dns_reply :=
  | Discarded
  | Truncated
  | Resolved (r : dns_result).

Definition dns_parse_reply (stack message name : list Z) (type transaction : Z) : outcome dns_reply :=
  if Z.of_nat (length message) <? 12 then Ret Discarded else
  let* id := read_be16 message 0 in
  if negb (id =? Z.land transaction 0xFFFF) then Ret Discarded else
  let* flags := read_be16 message 2 in
  if negb (nz (Z.land flags 0x8000)) then Ret Discarded else
  if nz (Z.land flags 0x0200) then Ret Truncated else
  if nz (Z.land flags 0x000F) then Ret Discarded else
  let* questions := read_be16 message 4 in
  if negb (questions =? 1) then Ret Discarded else
  let* answers := read_be16 message 6 in
  let* question := question_matches stack message name type in
  match question with
  | None => Ret Discarded
  | Some cursor =>
      let* wanted := copy_name (Z.to_nat (DNS_NAME_MAX + 1)) name stack 0 in
      let* wanted := put wanted DNS_NAME_MAX 0 in
      let* r := answers_loop (Z.to_nat answers) stack message type cursor 0 wanted (DnsResult [] [] 0) in
      match r with
      | None => Ret Discarded
      | Some r => if (0 <? Z.of_nat (length (ipv4 r))) || (0 <? Z.of_nat (length (ipv6 r)))
                  then Ret (Resolved r) else Ret Discarded
      end
  end.

(** ** Outcomes *)

(** The code returns, and what it returns satisfies [Q]. *)
Definition returns {A} (m : outcome A) (Q : A -> Prop) : Prop :=
  exists a, m = Ret a /\ Q a.

Lemma returns_ret {A} (a : A) (Q : A -> Prop) : Q a -> returns (Ret a) Q.
Proof. by exists a. Qed.

Lemma returns_bind {A B} (m : outcome A) (f : A -> outcome B) P Q :
  returns m P -> (forall a, P a -> returns (f a) Q) -> returns (bind m f) Q.
Proof. intros (a & -> & Ha) Hf. by apply Hf. Qed.

Lemma returns_weaken {A} (m : outcome A) (P Q : A -> Prop) :
  returns m P -> (forall a, P a -> Q a) -> returns m Q.
Proof. intros (a & -> & Ha) Hi. exists a. auto. Qed.

(** A message whose length leaves room for the code's 32-bit sums. *)
Definition small (message : list Z) : Prop := Z.of_nat (length message) < 0xFFFF0000.

Lemma get_returns buffer i :
  is_bytes buffer -> 0 <= i < Z.of_nat (length buffer) -> returns (get buffer i) is_u8.
Proof.
  intros Hb Hi. unfold get. destruct (lookup_lt_is_Some_2 buffer (Z.to_nat i)) as [b Hl]; [lia|].
  rewrite Hl. apply returns_ret. by eapply Forall_lookup_1 in Hb.
Qed.

Lemma get_in buffer i : 0 <= i < Z.of_nat (length buffer) -> returns (get buffer i) (fun _ => True).
Proof.
  intros Hi. unfold get. destruct (lookup_lt_is_Some_2 buffer (Z.to_nat i)) as [b Hl]; [lia|].
  rewrite Hl. by apply returns_ret.
Qed.

Lemma put_returns buffer i v :
  i < Z.of_nat (length buffer) -> returns (put buffer i v) (fun t => length t = length buffer).
Proof.
  intros Hi. unfold put. rewrite (proj2 (Z.ltb_lt _ _)) by lia. apply returns_ret, length_insert.
Qed.

Lemma read_be16_returns buffer i :
  is_bytes buffer -> 0 <= i -> i + 1 < Z.of_nat (length buffer) -> returns (read_be16 buffer i) is_u16.
Proof.
  intros Hb Hi Hl. eapply returns_bind; [apply get_returns; [done|lia]|]. intros a Ha.
  eapply returns_bind; [apply get_returns; [done|lia]|]. intros b Hb'. apply returns_ret.
  apply (lor_width 16); [lia| |unfold is_u8 in *; lia].
  rewrite Z.shiftl_mul_pow2 by lia. unfold is_u8 in *. lia.
Qed.

Lemma read_be32_returns buffer i :
  is_bytes buffer -> 0 <= i -> i + 3 < Z.of_nat (length buffer) -> returns (read_be32 buffer i) is_u32.
Proof.
  intros Hb Hi Hl. do 4 (eapply returns_bind; [apply get_returns; [done|lia]|]; intros ? ?). apply returns_ret.
  unfold is_u8 in *. repeat apply (lor_width 32); try lia; rewrite Z.shiftl_mul_pow2 by lia; lia.
Qed.

(** ** Walking a name *)

Lemma copy_label_returns n message from t i :
  is_bytes message -> 0 <= from -> from + Z.of_nat n <= Z.of_nat (length message) ->
  i + Z.of_nat n <= Z.of_nat (length t) ->
  returns (copy_label n message from t i) (fun t' => length t' = length t).
Proof.
  revert from t i. induction n as [|n IH]; intros from t i Hb Hf Hm Ht; [by apply returns_ret|].
  cbn [copy_label]. eapply returns_bind; [apply get_returns; [done|lia]|cbv beta]. intros b _.
  eapply returns_bind; [apply put_returns; lia|cbv beta]. intros t' Ht'.
  eapply returns_weaken; [apply IH; [done|lia..]|cbv beta]. intros t'' ?. congruence.
Qed.

(** [next], if asked for, is within the message. *)
Definition next_ok (message : list Z) (want : bool) (next : option Z) : Prop :=
  match next with
  | Some n => want = true /\ 0 <= n <= Z.of_nat (length message)
  | None => want = false
  end.

Lemma next_ok_set message want v (f : bool) n :
  next_ok message want n -> 0 <= v <= Z.of_nat (length message) ->
  next_ok message want (if f then n else set_next v n).
Proof. intros Hn Hv. destruct f; [done|]. destruct n; [|done]. split; [apply Hn|done]. Qed.

(** The walk invariant: [limit] is the size of the text buffer. *)
Record walk_ok (message : list Z) (want : bool) (limit : option nat) (s : walk) : Prop := {
  walk_cursor : 0 <= cursor s;
  walk_jumps : 0 <= jumps s <= DNS_JUMP_MAX;
  walk_written : 0 <= written s;
  walk_next : next_ok message want (next s);
  walk_text : length <$> text s = limit
}.

(** What a walk answers: [next], if asked for, is within the message, and
    the text buffer, if there is one, keeps its size. *)
Definition walked (message : list Z) (want : bool) (limit : option nat) (r : Z * option Z * option (list Z)) : Prop :=
  let '(code, next, text) := r in
  (code = 0 \/ code = -1) /\
  next_ok message want next /\
  length <$> text = limit.

Lemma walk_ok_walked message want limit s code :
  walk_ok message want limit s -> code = 0 \/ code = -1 -> walked message want limit (code, next s, text s).
Proof. intros [] ?. by split_and!. Qed.

Lemma take_label_returns message want limit marker s :
  is_bytes message -> walk_ok message want limit s -> 0 < marker <= DNS_LABEL_MAX ->
  cursor s + 1 + marker <= Z.of_nat (length message) ->
  returns (take_label message marker s)
    (fun r => match r with
              | Some s' => walk_ok message want limit s' /\ jumps s' = jumps s /\ cursor s' = cursor s + 1 + marker
              | None => True
              end).
Proof.
  intros Hb [Hc Hj Hw Hn Ht] Hm Hl. unfold take_label. destruct (text s) as [t|].
  2: { case_if; apply returns_ret; [done|]. split_and!; simpl; try lia. constructor; simpl; try done; lia. }
  eapply returns_bind
    with (P := fun p => length (fst p) = length t /\ 0 <= snd p /\ (snd p = written s \/ snd p = written s + 1)).
  { case_if; [|apply returns_ret; simpl; auto]. apply andb_true_iff in Hif as [_ Hlt%Z.ltb_lt].
    eapply returns_bind; [apply put_returns; lia|cbv beta]. intros t' Ht'. apply returns_ret. simpl. lia. }
  intros [t1 w1] (Hl1 & Hw1 & _). simpl in Hl1, Hw1. destruct (Z.leb_spec (Z.of_nat (length t)) (w1 + marker));
    [by apply returns_ret|].
  eapply returns_bind; [apply copy_label_returns; [done|lia..]|cbv beta]. intros t2 Ht2. apply returns_ret.
  split_and!; simpl; try lia. constructor; simpl in *; try done; try lia. by rewrite Ht2, Hl1.
Qed.

(** How many iterations a walk can still make. *)
Definition walk_measure (message : list Z) (s : walk) : Z :=
  let len := Z.of_nat (length message) in
  (1 + DNS_JUMP_MAX - jumps s) * (len + 1) + Z.max 0 (len - cursor s).

Lemma marker_bits marker : is_u8 marker -> 0 <= Z.land marker 0x3F < 64.
Proof. intros [Hm _]. change 0x3F with (Z.ones 6). rewrite Z.land_ones by lia. apply Z.mod_pos_bound. lia. Qed.

Lemma skip_loop_returns fuel message want limit s :
  is_bytes message -> small message -> walk_ok message want limit s ->
  walk_measure message s < Z.of_nat fuel ->
  returns (skip_loop fuel message s) (walked message want limit).
Proof.
  revert s. induction fuel as [|fuel IH]; intros s Hb Hsm Hok Hf; pose proof Hok as [Hc Hj Hw Hn Ht].
  { unfold walk_measure, DNS_JUMP_MAX in *. nia. }
  assert (forall code, code = 0 \/ code = -1 -> returns (Ret (code, next s, text s)) (walked message want limit))
    as Hret by (intros; by apply returns_ret, walk_ok_walked).
  cbn [skip_loop]. destruct (Z.ltb_spec (cursor s) (Z.of_nat (length message))) as [Hlt|]; [|auto].
  eapply returns_bind; [apply get_returns; [done|lia]|cbv beta]. intros marker Hmk. case_if; [case_if; [by auto|]|].
  - apply Z.leb_gt in Hif0. eapply returns_bind; [apply get_returns; [done|lia]|cbv beta]. intros low Hlow.
    assert (0 <= Z.lor (Z.shiftl (Z.land marker 0x3F) 8) low) as Htg.
    { apply Z.lor_nonneg. pose proof (marker_bits marker Hmk). rewrite Z.shiftl_nonneg. unfold is_u8 in *. lia. }
    revert Htg. generalize (Z.lor (Z.shiftl (Z.land marker 0x3F) 8) low). intros target Htg.
    destruct (Z.leb_spec (cursor s) target); [by auto|]. destruct (Z.ltb_spec DNS_JUMP_MAX (jumps s + 1)); [by auto|].
    apply IH; [done|done| |unfold walk_measure, DNS_JUMP_MAX in *; simpl; nia].
    constructor; simpl; try done; try lia. apply next_ok_set; [done|lia].
  - case_if; [by auto|]. case_if.
    + assert (next_ok message want (if followed s then next s else set_next (cursor s + 1) (next s))) as Hn'
        by (apply next_ok_set; [done|lia]).
      destruct (text s) as [t|]; [destruct (Z.ltb_spec (written s) (Z.of_nat (length t)))|].
      1: eapply returns_bind; [apply put_returns; lia|cbv beta]; intros t' Ht'.
      all: apply returns_ret; split_and!; [by left|exact Hn'|simpl in *; congruence].
    + boolify. destruct (Z.ltb_spec DNS_LABEL_MAX marker); [by auto|].
      unfold is_u8, small in *. destruct (Z.ltb_spec (Z.of_nat (length message)) (u32 (cursor s + 1 + marker))) as [|Hle];
        [by auto|]. unfold DNS_LABEL_MAX in *.
      rewrite u32_small in Hle by (unfold is_u32; lia).
      eapply returns_bind; [apply take_label_returns; try done; unfold DNS_LABEL_MAX; lia|].
      intros [s'|]; [|by auto]. intros (Hok' & Hj' & Hc'). apply IH; try done.
      unfold walk_measure, DNS_JUMP_MAX in *. rewrite Hj', Hc'. lia.
Qed.

Lemma skip_name_returns message offset next text :
  is_bytes message -> small message -> 0 <= offset -> next = None \/ next = Some 0 ->
  returns (skip_name message offset next text)
    (walked message (bool_decide (is_Some next)) (length <$> text)).
Proof.
  intros Hb Hs Ho Hn. apply skip_loop_returns; try done.
  - constructor; simpl; try done; destruct Hn as [->| ->]; simpl; try done. split; [done|lia].
  - unfold walk_measure, skip_fuel, DNS_JUMP_MAX. simpl. lia.
Qed.

(** ** Strings *)

(** The [n] indices from [i] on are in the buffer, or a NUL is. *)
Definition readable (buffer : list Z) (n : nat) (i : Z) : Prop :=
  i + Z.of_nat n <= Z.of_nat (length buffer) \/ exists k, i <= k /\ buffer !! Z.to_nat k = Some 0.

Lemma readable_get buffer n i :
  0 <= i -> readable buffer (S n) i ->
  returns (get buffer i) (fun c => c <> 0 -> readable buffer n (i + 1)).
Proof.
  intros Hi [Hl|(k & Hk & Hz)].
  - eapply returns_weaken; [apply get_in; lia|]. intros ? _ _. left. lia.
  - assert (k < Z.of_nat (length buffer)) by (apply lookup_lt_Some in Hz; lia).
    unfold get. destruct (lookup_lt_is_Some_2 buffer (Z.to_nat i)) as [b Hl]; [lia|]. rewrite Hl.
    apply returns_ret. intros Hb. right. exists k. split; [|done].
    destruct (Z.eq_dec k i) as [->|]; [congruence|lia].
Qed.

Lemma lower_zero c : lower c = 0 -> c = 0.
Proof. unfold lower. case_if; boolify; lia. Qed.

Lemma names_equal_loop_returns n left right i :
  0 <= i -> readable left n i -> readable right n i ->
  returns (names_equal_loop n left right i) (fun _ => True).
Proof.
  revert i. induction n as [|n IH]; intros i Hi Hl Hr; [by apply returns_ret|]. cbn [names_equal_loop].
  eapply returns_bind; [by apply readable_get|cbv beta]. intros a Ha.
  eapply returns_bind; [by apply readable_get|cbv beta]. intros b Hb.
  destruct (Z.eqb_spec (lower a) (lower b)) as [He|]; [|by apply returns_ret].
  destruct (nz (lower a)) eqn:Hz; [|by apply returns_ret]. apply nz_true in Hz. cbn [negb].
  apply IH; [lia|apply Ha|apply Hb]; intros ->; apply Hz; [|rewrite He]; done.
Qed.

Lemma names_equal_returns left right :
  readable left 256 0 -> readable right 256 0 -> returns (names_equal left right) (fun _ => True).
Proof. intros Hl Hr. by apply names_equal_loop_returns. Qed.

Lemma copy_name_returns n name wanted i :
  0 <= i -> readable name n i -> i + Z.of_nat n <= Z.of_nat (length wanted) ->
  returns (copy_name n name wanted i) (fun w => length w = length wanted).
Proof.
  revert i wanted. induction n as [|n IH]; intros i wanted Hi Hr Hw; [by apply returns_ret|]. cbn [copy_name].
  eapply returns_bind; [by apply readable_get|cbv beta]. intros c Hc.
  eapply returns_bind; [apply put_returns; lia|cbv beta]. intros w Hlw.
  destruct (nz c) eqn:Hz; [|by apply returns_ret]. apply nz_true in Hz.
  eapply returns_weaken; [apply IH; [lia|auto|lia]|cbv beta]. intros; congruence.
Qed.

Lemma read_bytes_returns n message i :
  is_bytes message -> 0 <= i -> i + Z.of_nat n <= Z.of_nat (length message) ->
  returns (read_bytes n message i) (fun l => length l = n /\ is_bytes l).
Proof.
  revert i. induction n as [|n IH]; intros i Hb Hi Hl; [apply returns_ret; split; [done|constructor]|]. cbn [read_bytes].
  eapply returns_bind; [apply get_returns; [done|lia]|cbv beta]. intros b Hb'.
  eapply returns_bind; [apply IH; [done|lia..]|cbv beta]. intros l [Hn Hl']. apply returns_ret.
  split; [simpl; lia|by constructor].
Qed.

(** A C string. *)
Definition c_string (name : list Z) : Prop := 0 ∈ name.

Lemma c_string_readable name n : c_string name -> readable name n 0.
Proof.
  intros [k Hk]%list_elem_of_lookup. right. exists (Z.of_nat k). rewrite Nat2Z.id. split; [lia|done].
Qed.

Lemma question_matches_returns stack message name type :
  is_bytes message -> small message -> length stack = 256%nat -> c_string name ->
  returns (question_matches stack message name type)
    (fun r => match r with Some o => 0 <= o <= Z.of_nat (length message) | None => True end).
Proof.
  intros Hb Hs Hst Hn. unfold question_matches.
  eapply returns_bind; [apply skip_name_returns; [done|done|lia|by right]|].
  intros [[code nx] parsed] (_ & Hnx & Hp). destruct (nz code); [by apply returns_ret|].
  destruct nx as [nx|], parsed as [parsed|]; try by apply returns_ret. destruct Hnx as [_ Hnx].
  simpl in Hp. injection Hp as Hp. unfold small in Hs.
  rewrite u32_small by (unfold is_u32; lia). case_if; [by apply returns_ret|]. boolify.
  eapply returns_bind; [apply read_be16_returns; [done|lia..]|]. intros t _. case_if; [by apply returns_ret|].
  eapply returns_bind; [apply read_be16_returns; [done|lia..]|]. intros k _. case_if; [by apply returns_ret|].
  eapply returns_bind; [apply names_equal_returns; [left; lia|by apply c_string_readable]|].
  intros same _. case_if; apply returns_ret; [done|lia].
Qed.

(** ** The answer records *)

Definition result_ok (r : dns_result) : Prop :=
  Z.of_nat (length (ipv4 r)) <= DNS_ADDRESS_MAX /\ Forall is_u32 (ipv4 r) /\
  Z.of_nat (length (ipv6 r)) <= DNS_ADDRESS_MAX /\ Forall (fun a => length a = 16%nat /\ is_bytes a) (ipv6 r).

Lemma shorten_ok time r : result_ok r -> result_ok (shorten time r).
Proof. done. Qed.

Lemma answers_loop_returns n stack message type cursor aliases wanted r :
  is_bytes message -> small message -> length stack = 256%nat -> length wanted = 256%nat ->
  0 <= cursor -> result_ok r ->
  returns (answers_loop n stack message type cursor aliases wanted r)
    (fun r => match r with Some r => result_ok r | None => True end).
Proof.
  revert cursor aliases wanted r. induction n as [|n IH]; intros cursor aliases wanted r Hb Hs Hst Hw Hc Hr;
    [by apply returns_ret|]. cbn [answers_loop].
  eapply returns_bind; [apply skip_name_returns; [done|done|lia|by right]|].
  intros [[code nx] owner] (_ & Hnx & Ho). destruct (nz code); [by apply returns_ret|].
  destruct nx as [nx|], owner as [owner|]; try by apply returns_ret. destruct Hnx as [_ Hnx].
  simpl in Ho. injection Ho as Ho. pose proof Hs as Hsm. unfold small in Hsm.
  rewrite (u32_small (nx + 10)) by (unfold is_u32; lia). case_if; [by apply returns_ret|]. boolify.
  eapply returns_bind; [apply read_be16_returns; [done|lia..]|]. intros record _.
  eapply returns_bind; [apply read_be16_returns; [done|lia..]|]. intros klass _.
  eapply returns_bind; [apply read_be32_returns; [done|lia..]|]. intros time _.
  eapply returns_bind; [apply read_be16_returns; [done|lia..]|]. intros size Hsz. unfold is_u16 in Hsz.
  rewrite u32_small by (unfold is_u32; lia). case_if; [by apply returns_ret|]. boolify.
  eapply returns_bind with (P := fun _ => True).
  { case_if; [by apply returns_ret|]. apply names_equal_returns; left; lia. }
  intros same _. case_if; [apply IH; (done || lia)|]. case_if.
  - case_if; [by apply returns_ret|].
    eapply returns_bind; [apply skip_name_returns; [done|done|lia|by left]|].
    intros [[code' nx'] w] (_ & _ & Hw'). destruct (nz code'); [by apply returns_ret|].
    apply IH; try done; [|lia]. destruct w as [w|]; simpl in *; [congruence|done].
  - destruct Hr as (H4 & Hr4 & H6 & Hr6).
    case_if; [|case_if; [|apply IH; [done..|lia|done]]]; (case_if; [by apply returns_ret|]); boolify;
      (case_if; [|apply IH; [done..|lia|done]]); boolify.
    + eapply returns_bind; [apply read_be32_returns; [done|lia..]|]. intros a Ha.
      apply IH; try done; [lia|]. apply shorten_ok. unfold result_ok. simpl. rewrite length_app. simpl.
      split_and!; try done; [unfold DNS_ADDRESS_MAX in *; lia|]. apply Forall_app. split; [done|by constructor].
    + eapply returns_bind; [apply read_bytes_returns; [done|lia..]|cbv beta]. intros a Ha.
      apply IH; try done; [lia|]. apply shorten_ok. unfold result_ok. simpl. rewrite length_app. simpl.
      split_and!; try done; [unfold DNS_ADDRESS_MAX in *; lia|]. apply Forall_app. split; [done|by constructor].
Qed.

(** ** Well-formed names *)

(** The text and the wire form of a list of labels. *)
Fixpoint dotted (ls : list (list Z)) : list Z :=
  match ls with
  | [] => []
  | [l] => l
  | l :: ls => l ++ 46 :: dotted ls
  end.

Fixpoint wire (ls : list (list Z)) : list Z :=
  match ls with
  | [] => [0]
  | l :: ls => Z.of_nat (length l) :: l ++ wire ls
  end.

Definition letter (c : Z) : Prop := is_u8 c /\ c <> 0 /\ c <> 46.

Definition label_ok (l : list Z) : Prop := 0 < Z.of_nat (length l) <= DNS_LABEL_MAX /\ Forall letter l.

Lemma get_app_r pre b post i : i = Z.of_nat (length pre) -> get (pre ++ b :: post) i = Ret b.
Proof. intros ->. unfold get. by rewrite Nat2Z.id, list_lookup_middle. Qed.

Lemma put_app_r pre b post i v :
  i = Z.of_nat (length pre) -> put (pre ++ b :: post) i v = Ret (pre ++ v :: post).
Proof.
  intros ->. unfold put. rewrite (proj2 (Z.ltb_lt _ _)) by (rewrite length_app; simpl; lia).
  rewrite Nat2Z.id, insert_app_r_alt by lia. by rewrite Nat.sub_diag.
Qed.

Lemma label_length_scan fuel pre l c post i :
  Forall letter l -> c = 0 \/ c = 46 -> (length l < fuel)%nat ->
  forall k, Z.of_nat (length pre) = i + k ->
  label_length fuel (pre ++ l ++ c :: post) i k = Ret (k + Z.of_nat (length l)).
Proof.
  intros Hl Hc. revert pre fuel. induction Hl as [|x l Hx Hl IH]; intros pre fuel Hf k Hk; (destruct fuel; [lia|]).
  - cbn [label_length app]. rewrite get_app_r by done. cbn [bind]. replace (k + Z.of_nat (length [])) with k by (simpl; lia).
    by destruct Hc as [->| ->].
  - cbn [label_length app]. rewrite get_app_r by done. cbn [bind]. destruct Hx as (_ & H0 & H46).
    rewrite (proj2 (nz_true x)), (proj2 (Z.eqb_neq x 46)) by done. cbn [negb andb].
    replace (pre ++ x :: l ++ c :: post) with ((pre ++ [x]) ++ l ++ c :: post) by (by rewrite <- app_assoc).
    simpl in Hf. rewrite IH by (rewrite ?length_app; simpl; lia). f_equal. simpl length. lia.
Qed.

Lemma dotted_cons l ls : dotted (l :: ls) = l ++ match ls with [] => [] | _ => 46 :: dotted ls end.
Proof. destruct ls; simpl; [by rewrite app_nil_r|done]. Qed.

Lemma wire_length_pos ls : (0 < length (wire ls))%nat.
Proof. destruct ls; simpl; lia. Qed.

(** A name as a caller spells it, fully qualified with a dot at its end. *)
Definition spelled (ls : list (list Z)) (qualified : bool) : list Z :=
  match ls with
  | [] => []
  | _ => dotted ls ++ if qualified then [46] else []
  end.

Lemma spelled_cons l ls qualified :
  spelled (l :: ls) qualified =
  l ++ match ls with [] => if qualified then [46] else [] | _ => 46 :: spelled ls qualified end.
Proof. unfold spelled. rewrite dotted_cons, <- app_assoc. by destruct ls. Qed.

Lemma encode_loop_wire fuel ls qualified pre out limit :
  Forall label_ok ls -> (length ls < fuel)%nat -> out ++ wire ls <> [0] ->
  Z.of_nat (length out + length (wire ls)) <= limit ->
  encode_loop fuel limit (pre ++ spelled ls qualified ++ [0]) (Z.of_nat (length pre)) out =
  Ret (Some (out ++ wire ls)).
Proof.
  intros Hls. revert pre out fuel. induction Hls as [|l ls Hl Hls IH]; intros pre out fuel Hf Hne Hlim;
    (destruct fuel; [simpl in Hf; lia|]).
  - cbn [spelled app encode_loop wire] in *. rewrite get_app_r by done. cbn [bind]. change (nz 0) with false. cbn iota.
    destruct out as [|o out]; [done|]. rewrite (proj2 (nz_true _)) by (simpl; lia). cbn [negb orb].
    rewrite (proj2 (Z.ltb_ge _ _)) by (simpl in *; lia). done.
  - destruct Hl as [Hlen Hlet]. unfold DNS_LABEL_MAX in Hlen. rewrite spelled_cons, <- app_assoc.
    set (tail := match ls with [] => if qualified then [46] else [] | _ => 46 :: spelled ls qualified end ++ [0]).
    assert (exists c post, tail = c :: post /\
      (c = 0 /\ ls = [] /\ post = [] \/ c = 46 /\ post = spelled ls qualified ++ [0]))
      as (c & post & Ht & Hc) by (unfold tail; destruct ls, qualified; eauto 10).
    rewrite Ht. destruct l as [|x l]; [simpl in Hlen; lia|]. cbn [encode_loop].
    rewrite (get_app_r pre x (l ++ c :: post)) by done. cbn [bind]. apply Forall_cons in Hlet as Hx. destruct Hx as [[_ [Hx _]] _].
    rewrite (proj2 (nz_true x)) by done. pose proof (wire_length_pos ls).
    rewrite (label_length_scan _ pre (x :: l) c post) by
      (done || (rewrite !length_app; simpl; lia) || lia || (destruct Hc as [[-> _]|[-> _]]; auto)).
    cbn [bind]. rewrite Z.add_0_l, (proj2 (nz_true _)) by lia. cbn [negb orb].
    rewrite (proj2 (Z.ltb_ge _ _)) by (unfold DNS_LABEL_MAX; lia). cbn [wire] in Hlim. simpl length in Hlim.
    rewrite length_app in Hlim. rewrite (proj2 (Z.leb_gt _ _)) by (simpl length; lia).
    rewrite !Nat2Z.id, drop_app_length, take_app_length.
    replace (pre ++ (x :: l) ++ c :: post) with ((pre ++ x :: l) ++ c :: post) by (by rewrite <- app_assoc).
    rewrite get_app_r by (rewrite length_app; lia). cbn [bind]. rewrite u8_small by (unfold is_u8; lia).
    replace (out ++ wire ((x :: l) :: ls)) with ((out ++ Z.of_nat (length (x :: l)) :: x :: l) ++ wire ls)
      by (by rewrite <- app_assoc).
    simpl in Hf.
    assert (Forall label_ok ls -> (out ++ Z.of_nat (length (x :: l)) :: x :: l) ++ wire ls <> [0]) as Hne'
      by (intros _ He%(f_equal length); rewrite !length_app in He; simpl in He; lia).
    destruct Hc as [(-> & -> & ->)|(-> & ->)].
    + etrans; [|apply (IH (pre ++ x :: l) _ fuel); auto; rewrite ?length_app; simpl in *; lia].
      cbn [spelled app]. change (0 =? 46) with false. cbn iota. f_equal. rewrite length_app. simpl. lia.
    + etrans; [|apply (IH (pre ++ (x :: l) ++ [46]) _ fuel); auto; rewrite ?length_app; simpl in *; lia].
      change (46 =? 46) with true. cbn iota. rewrite <- !app_assoc. f_equal.
      rewrite !length_app. simpl. lia.
Qed.

Lemma copy_label_exact l pre post d junk from i :
  from = Z.of_nat (length pre) -> i = Z.of_nat (length d) -> (length l <= length junk)%nat ->
  copy_label (length l) (pre ++ l ++ post) from (d ++ junk) i = Ret (d ++ l ++ drop (length l) junk).
Proof.
  revert pre d junk from i. induction l as [|x l IH]; intros pre d junk from i -> -> Hj; [done|].
  destruct junk as [|y junk]; [simpl in Hj; lia|]. cbn [copy_label length app]. rewrite get_app_r by done. cbn [bind].
  rewrite put_app_r by done. cbn [bind drop].
  replace (pre ++ x :: l ++ post) with ((pre ++ [x]) ++ l ++ post) by (by rewrite <- app_assoc).
  replace (d ++ x :: junk) with ((d ++ [x]) ++ junk) by (by rewrite <- app_assoc).
  simpl in Hj. rewrite IH by (rewrite ?length_app; simpl; lia). by rewrite <- app_assoc.
Qed.

(** The text [d] with the dot before its next label. *)
Definition separated (d : list Z) : list Z :=
  match d with
  | [] => []
  | _ => d ++ [46]
  end.

(** What a walk has in its text after the labels [ls]. *)
Fixpoint extend (d : list Z) (ls : list (list Z)) : list Z :=
  match ls with
  | [] => d
  | l :: ls => extend (separated d ++ l) ls
  end.

Lemma extend_cons d ls : d <> [] -> extend d ls = d ++ match ls with [] => [] | _ => 46 :: dotted ls end.
Proof.
  revert d. induction ls as [|l ls IH]; intros d Hd; [by rewrite app_nil_r|].
  rewrite dotted_cons. destruct d as [|x d]; [done|]. cbn [extend separated]. rewrite IH by done.
  by rewrite <- !app_assoc.
Qed.

Lemma extend_dotted ls : Forall label_ok ls -> extend [] ls = dotted ls.
Proof.
  intros Hls. destruct Hls as [|l ls [Hl _] _]; [done|]. cbn [extend app].
  rewrite extend_cons, dotted_cons; [done|]. intros He. simpl in He. rewrite He in Hl. simpl in Hl. lia.
Qed.

Lemma extend_length d ls : (length d <= length (extend d ls))%nat.
Proof.
  revert d. induction ls as [|l ls IH]; intros d; [done|]. cbn [extend].
  etrans; [|apply IH]. destruct d; unfold separated; rewrite ?length_app; simpl; lia.
Qed.

(** A label's length byte, seen as a marker. *)
Lemma label_marker n : 0 < n <= DNS_LABEL_MAX ->
  (Z.land n 0xC0 =? 0xC0) = false /\ nz (Z.land n 0xC0) = false /\ nz n = true /\ (DNS_LABEL_MAX <? n) = false.
Proof.
  unfold DNS_LABEL_MAX. intros Hn. assert (Z.land n 0xC0 = 0) as ->.
  { apply Z.bits_inj_0. intros k. rewrite Z.land_spec. destruct (Z.ltb_spec k 6).
    - apply andb_false_iff. right. assert (k < 0 \/ k = 0 \/ k = 1 \/ k = 2 \/ k = 3 \/ k = 4 \/ k = 5)
        as [Hk|[->|[->|[->|[->|[->| ->]]]]]] by lia; [by apply Z.testbit_neg_r|reflexivity..].
    - apply andb_false_iff. left. apply Z.bits_above_log2; [lia|].
      apply Z.lt_le_trans with 6; [|done]. apply Z.log2_lt_pow2; simpl; lia. }
  split_and!; [done|done|apply nz_true; lia|apply Z.ltb_ge; lia].
Qed.

Lemma take_label_exact l pre post n d junk s :
  cursor s = Z.of_nat (length pre) -> written s = Z.of_nat (length d) -> text s = Some (d ++ junk) ->
  (length (separated d ++ l) < length d + length junk)%nat ->
  exists junk',
    take_label (pre ++ n :: l ++ post) (Z.of_nat (length l)) s =
    Ret (Some (Walk (jumps s) (cursor s + (1 + Z.of_nat (length l))) (Z.of_nat (length (separated d ++ l)))
                 (followed s) (next s) (Some ((separated d ++ l) ++ junk')))) /\
    (length (separated d ++ l) + length junk' = length d + length junk)%nat.
Proof.
  intros Hc Hw Ht Hroom. unfold take_label. rewrite Ht, Hw. rewrite length_app in Hroom.
  assert (exists junk1,
    (if nz (Z.of_nat (length d)) && (Z.of_nat (length d) + 1 <? Z.of_nat (length (d ++ junk)))
     then let* t := put (d ++ junk) (Z.of_nat (length d)) 46 in Ret (t, Z.of_nat (length d) + 1)
     else Ret (d ++ junk, Z.of_nat (length d))) =
    Ret (separated d ++ junk1, Z.of_nat (length (separated d))) /\
    (length (separated d) + length junk1 = length d + length junk)%nat) as (junk1 & -> & Hj1).
  { unfold separated in *. destruct d as [|x d]; [by exists junk|]. rewrite length_app in *. simpl length in Hroom.
    destruct junk as [|y junk]; [simpl in Hroom; lia|].
    rewrite (proj2 (nz_true _)), (proj2 (Z.ltb_lt _ _)) by (simpl in *; lia). cbn [andb].
    rewrite put_app_r by done. cbn [bind]. exists junk. rewrite <- app_assoc. split; [|rewrite length_app; simpl; lia].
    do 2 f_equal. rewrite length_app. simpl. lia. }
  cbn [bind]. rewrite (proj2 (Z.leb_gt _ _)) by (rewrite length_app; lia). rewrite Nat2Z.id, Hc.
  replace (pre ++ n :: l ++ post) with ((pre ++ [n]) ++ l ++ post) by (by rewrite <- app_assoc).
  rewrite copy_label_exact by (rewrite ?length_app; simpl; lia). cbn [bind].
  exists (drop (length l) junk1). rewrite <- app_assoc, !length_app, length_drop. split; [|lia].
  do 3 f_equal. lia.
Qed.

Lemma skip_loop_wire fuel ls pre post d junk nx :
  Forall label_ok ls -> small (pre ++ wire ls ++ post) -> (length ls < fuel)%nat ->
  (length (extend d ls) < length d + length junk)%nat ->
  exists junk',
    skip_loop fuel (pre ++ wire ls ++ post)
      (Walk 0 (Z.of_nat (length pre)) (Z.of_nat (length d)) false (Some nx) (Some (d ++ junk))) =
    Ret (0, Some (Z.of_nat (length pre + length (wire ls))), Some (extend d ls ++ 0 :: junk')) /\
    (length (extend d ls) + S (length junk') = length d + length junk)%nat.
Proof.
  intros Hls. revert pre d junk fuel. induction Hls as [|l ls Hl Hls IH]; intros pre d junk fuel Hsm Hf Hroom;
    (destruct fuel; [simpl in Hf; lia|]).
  - cbn [wire app extend skip_loop cursor written followed next text] in *. destruct junk as [|y junk]; [simpl in Hroom; lia|].
    rewrite (proj2 (Z.ltb_lt _ _)) by (rewrite length_app; simpl; lia).
    rewrite get_app_r by done. cbn [bind]. change (Z.land 0 0xC0) with 0. change (0 =? 0xC0) with false.
    change (nz 0) with false. cbn [negb]. rewrite (proj2 (Z.ltb_lt _ _)) by (rewrite length_app; simpl; lia).
    rewrite put_app_r by done. cbn [bind set_next]. exists junk. split; [|simpl; lia].
    do 4 f_equal. simpl. lia.
  - destruct Hl as [Hlen Hlet]. destruct (label_marker _ Hlen) as (Hm1 & Hm2 & Hm3 & Hm4).
    cbn [wire app skip_loop cursor written followed next text].
    assert (length (pre ++ Z.of_nat (length l) :: (l ++ wire ls) ++ post) =
            length pre + 1 + length l + length (wire ls ++ post))%nat as Htot
      by (rewrite !length_app; simpl; rewrite !length_app; lia).
    assert (0 < length (wire ls ++ post))%nat by (rewrite length_app; pose proof (wire_length_pos ls); lia).
    unfold small in Hsm. cbn [wire app] in Hsm. rewrite Htot in *.
    rewrite (proj2 (Z.ltb_lt _ _)) by lia. rewrite get_app_r by done. cbn [bind]. rewrite Hm1, Hm2, Hm3, Hm4.
    cbn [negb]. unfold DNS_LABEL_MAX in Hlen. rewrite u32_small, (proj2 (Z.ltb_ge _ _)) by (unfold is_u32; lia).
    cbn [extend] in *. pose proof (extend_length (separated d ++ l) ls).
    rewrite <- (app_assoc l (wire ls) post).
    edestruct (take_label_exact l pre (wire ls ++ post) (Z.of_nat (length l)) d junk) as (j1 & He & Hj1);
      [..|rewrite He]; try done; [lia|]. cbn [bind jumps cursor followed next]. simpl in Hf.
    destruct (IH (pre ++ Z.of_nat (length l) :: l) (separated d ++ l) j1 fuel) as (junk' & Hs & Hj');
      [|lia|lia|].
    { unfold small. rewrite <- app_assoc. cbn [app]. rewrite <- app_assoc in Htot. rewrite Htot. lia. }
    exists junk'. split; [|lia].
    replace (pre ++ Z.of_nat (length l) :: l ++ wire ls ++ post)
      with ((pre ++ Z.of_nat (length l) :: l) ++ wire ls ++ post) by (by rewrite <- app_assoc).
    replace (Z.of_nat (length pre) + (1 + Z.of_nat (length l)))
      with (Z.of_nat (length (pre ++ Z.of_nat (length l) :: l))) by (rewrite length_app; simpl; lia).
    rewrite Hs. do 4 f_equal. rewrite !length_app. simpl. rewrite length_app. lia.
Qed.

Lemma dotted_nonzero ls : Forall label_ok ls -> Forall (fun c => c <> 0) (dotted ls).
Proof.
  induction 1 as [|l ls [_ Hl] Hls IH]; [constructor|]. rewrite dotted_cons. apply Forall_app. split.
  - eapply Forall_impl; [exact Hl|]. by intros c (_ & Hc & _).
  - destruct ls; [constructor|by constructor].
Qed.

Lemma name_length_exact name pre fuel :
  Forall (fun c => c <> 0) name -> (length name < fuel)%nat ->
  Z.of_nat (length pre + length name) <= DNS_NAME_MAX ->
  name_length_loop fuel (pre ++ name ++ [0]) (Z.of_nat (length pre)) = Ret (Z.of_nat (length pre + length name)).
Proof.
  intros Hn. revert pre fuel. induction Hn as [|c name Hc Hn IH]; intros pre fuel Hf Hmax; (destruct fuel; [lia|]);
    cbn [name_length_loop app]; rewrite get_app_r by done; cbn [bind].
  - change (nz 0) with false. cbn [andb]. f_equal. simpl. lia.
  - rewrite (proj2 (nz_true c)), (proj2 (Z.leb_le _ _)) by (done || lia). cbn [andb].
    replace (pre ++ c :: name ++ [0]) with ((pre ++ [c]) ++ name ++ [0]) by (by rewrite <- app_assoc).
    replace (Z.of_nat (length pre) + 1) with (Z.of_nat (length (pre ++ [c]))) by (rewrite length_app; simpl; lia).
    simpl in Hf, Hmax. rewrite IH by (rewrite ?length_app; simpl; lia). f_equal. rewrite length_app. simpl. lia.
Qed.

(** The comparison behind a common part: whether the other name ends too. *)
Lemma names_equal_common name pre post c post' n :
  Forall (fun c => c <> 0) name -> (length name < n)%nat -> c = 0 \/ c = 46 ->
  names_equal_loop n (pre ++ name ++ 0 :: post) (pre ++ name ++ c :: post') (Z.of_nat (length pre)) = Ret (c =? 0).
Proof.
  intros Hn. revert pre n. induction Hn as [|x name Hx Hn IH]; intros pre n Hf Hc; (destruct n; [lia|]);
    cbn [names_equal_loop app]; rewrite !get_app_r by done; cbn [bind]; [by destruct Hc as [-> | ->]|].
  rewrite Z.eqb_refl. cbn [negb].
  rewrite (proj2 (nz_true _)) by (intros He%lower_zero; done). cbn [negb]. simpl in Hf.
  specialize (IH (pre ++ [x]) n). rewrite <- !app_assoc in IH. cbn [app] in IH.
  rewrite <- IH by (done || lia). f_equal. rewrite length_app. simpl. lia.
Qed.

Lemma read_be16_written pre v post i :
  is_u16 v -> i = Z.of_nat (length pre) -> read_be16 (pre ++ write_be16 v ++ post) i = Ret v.
Proof.
  intros Hv ->. unfold read_be16, write_be16, is_u16 in *. cbn [app]. rewrite get_app_r by done. cbn [bind].
  change 0xFF with (Z.ones 8). rewrite !Z.land_ones, Z.shiftr_div_pow2 by lia. change (2 ^ 8) with 256.
  change (pre ++ ?a :: ?b :: post) with (pre ++ [a] ++ b :: post).
  rewrite (app_assoc pre), get_app_r by (rewrite length_app; simpl; lia). cbn [bind]. f_equal.
  rewrite lor_shiftl_add by dmlia. dmlia.
Qed.

Lemma dotted_length ls : Forall label_ok ls -> (length ls <= length (dotted ls))%nat.
Proof.
  induction 1 as [|l ls [Hl _] _ IH]; [done|]. rewrite dotted_cons, length_app. simpl.
  destruct ls; simpl in *; lia.
Qed.

Lemma spelled_ok ls qualified :
  ls <> [] -> Forall label_ok ls ->
  spelled ls qualified = dotted ls ++ (if qualified then [46] else []) /\
  Forall (fun c => c <> 0) (spelled ls qualified) /\ (length ls <= length (spelled ls qualified))%nat.
Proof.
  intros Hne Hls. pose proof (dotted_length ls Hls). pose proof (dotted_nonzero ls Hls).
  destruct ls; [done|]. unfold spelled. rewrite length_app. split_and!; [done| |lia].
  apply Forall_app. split; [done|]. by destruct qualified; repeat constructor.
Qed.

Lemma build_query_wire limit ls qualified type transaction :
  ls <> [] -> Forall label_ok ls -> Z.of_nat (length (spelled ls qualified)) <= DNS_NAME_MAX ->
  Z.of_nat (16 + length (wire ls)) <= limit ->
  dns_build_query limit (spelled ls qualified ++ [0]) type transaction =
  Ret (Some (write_be16 (Z.land transaction 0xFFFF) ++ write_be16 0x0100 ++ write_be16 1 ++ replicate 6 0 ++
             wire ls ++ write_be16 type ++ write_be16 1)).
Proof.
  intros Hne Hls Hmax Hlim. destruct (spelled_ok ls qualified Hne Hls) as (_ & Hnz & Hcount). unfold dns_build_query.
  assert (2 < length (wire ls) /\ 0 < length ls)%nat as [Hwl Hl].
  { destruct ls as [|l ls]; [done|]. simpl. rewrite length_app. apply Forall_cons in Hls as [[Hl _] _].
    pose proof (wire_length_pos ls). lia. }
  rewrite (proj2 (Z.ltb_ge _ _)) by lia.
  pose proof (name_length_exact (spelled ls qualified) [] (Z.to_nat (DNS_NAME_MAX + 2)) Hnz) as Hnl.
  simpl length in Hnl. cbn [app] in Hnl. change (Z.of_nat 0) with 0 in Hnl. unfold name_length.
  rewrite Hnl by (unfold DNS_NAME_MAX in *; lia). cbn [bind].
  rewrite (proj2 (nz_true _)), (proj2 (Z.ltb_ge _ _)) by lia. cbn [negb orb]. unfold encode_name.
  pose proof (encode_loop_wire (length (spelled ls qualified ++ [0])) ls qualified [] [] (limit - 12 - 4) Hls) as He.
  cbn [app length] in He. change (Z.of_nat 0) with 0 in He. rewrite He; [done| | |lia].
  - rewrite length_app. simpl. lia.
  - intros Hx. rewrite Hx in Hwl. simpl in Hwl. lia.
Qed.

Lemma question_wire stack header ls qualified type rest :
  ls <> [] -> Forall label_ok ls -> Z.of_nat (length (spelled ls qualified)) <= DNS_NAME_MAX -> is_u16 type ->
  length stack = 256%nat -> length header = 12%nat ->
  small (header ++ wire ls ++ write_be16 type ++ write_be16 1 ++ rest) ->
  question_matches stack (header ++ wire ls ++ write_be16 type ++ write_be16 1 ++ rest)
    (spelled ls qualified ++ [0]) type =
  Ret (if qualified then None else Some (Z.of_nat (16 + length (wire ls)))).
Proof.
  intros Hne Hls Hmax Hty Hst Hh Hsm. pose proof (dotted_length ls Hls) as Hcount. unfold DNS_NAME_MAX in Hmax.
  destruct (spelled_ok ls qualified Hne Hls) as (Hsp & _ & _). rewrite Hsp, length_app in Hmax. rewrite Hsp, <- app_assoc.
  assert (length ls < length (wire ls))%nat as Hwl
    by (clear -Hls; induction Hls; simpl; rewrite ?length_app; lia).
  unfold question_matches, skip_name.
  set (message := header ++ wire ls ++ write_be16 type ++ write_be16 1 ++ rest) in *.
  assert (length message = 12 + length (wire ls) + 4 + length rest)%nat as Htot
    by (unfold message; rewrite !length_app, Hh; simpl; lia).
  destruct (skip_loop_wire (skip_fuel message) ls header (write_be16 type ++ write_be16 1 ++ rest) [] stack 0)
    as (junk & Hs & Hj); [done|done| | |].
  { unfold skip_fuel. lia. }
  { rewrite extend_dotted by done. simpl. lia. }
  rewrite Hh, extend_dotted in Hs by done. cbn [app length] in Hs. change (Z.of_nat 12) with 12 in Hs.
  change (Z.of_nat 0) with 0 in Hs. fold message in Hs. rewrite Hs. cbn [bind]. change (nz 0) with false. cbn iota.
  unfold small in Hsm. rewrite u32_small, (proj2 (Z.ltb_ge _ _)) by (unfold is_u32; lia). unfold message.
  rewrite (app_assoc header), read_be16_written by (done || (rewrite length_app; lia)). cbn [bind].
  rewrite Z.eqb_refl. cbn [negb]. rewrite (app_assoc _ (write_be16 type)).
  rewrite read_be16_written by ((unfold is_u16; lia) || (rewrite !length_app; simpl; lia)).
  cbn [bind negb Z.eqb Pos.eqb]. unfold names_equal.
  set (c := if qualified then 46 else 0).
  assert ((if qualified then [46] else []) ++ [0] = c :: if qualified then [0] else []) as -> by (unfold c; by destruct qualified).
  pose proof (names_equal_common (dotted ls) [] junk c (if qualified then [0] else []) (Z.to_nat (DNS_NAME_MAX + 1))
    (dotted_nonzero ls Hls)) as Hsame.
  cbn [app length] in Hsame. change (Z.of_nat 0) with 0 in Hsame.
  rewrite Hsame by ((unfold DNS_NAME_MAX; lia) || (unfold c; destruct qualified; auto)).
  unfold c. destruct qualified; [done|]. cbn [bind negb Z.eqb]. do 2 f_equal. lia.
Qed.

(** ** Properties *)

(** Walking a compressed name always ends, within eighteen times the
    message's size iterations whatever the pointers in it are, without a read
    outside the message or a write outside the text buffer, and leaves an
    offset within the message. *)
Theorem skip_name_terminates message offset next text :
  is_bytes message -> small message -> 0 <= offset -> next = None \/ next = Some 0 ->
  exists r, skip_name message offset next text = Ret r /\
    walked message (bool_decide (is_Some next)) (length <$> text) r.
Proof. apply skip_name_returns. Qed.

(** C22: A reply off the wire is handled safely: on any bytes whatever
    [dns_parse_reply] ends, never reads outside the message or the name nor
    writes outside its arrays, and a result it accepts has at least one and at
    most four addresses of each family. *)
Theorem dns_parse_reply_safe stack message name type transaction :
  is_bytes message -> small message -> length stack = 256%nat -> c_string name ->
  exists reply, dns_parse_reply stack message name type transaction = Ret reply /\
    match reply with
    | Resolved r => result_ok r /\ (0 < length (ipv4 r) + length (ipv6 r))%nat
    | _ => True
    end.
Proof.
  intros Hb Hs Hst Hn. unfold dns_parse_reply.
  destruct (Z.ltb_spec (Z.of_nat (length message)) 12); [by apply returns_ret|].
  eapply returns_bind; [apply read_be16_returns; [done|lia..]|]. intros id _. case_if; [by apply returns_ret|].
  eapply returns_bind; [apply read_be16_returns; [done|lia..]|]. intros flags _.
  do 3 (case_if; [by apply returns_ret|]).
  eapply returns_bind; [apply read_be16_returns; [done|lia..]|]. intros questions _. case_if; [by apply returns_ret|].
  eapply returns_bind; [apply read_be16_returns; [done|lia..]|]. intros answers _.
  eapply returns_bind; [by apply question_matches_returns|cbv beta]. intros [o|] Ho; [|by apply returns_ret].
  eapply returns_bind; [apply copy_name_returns; [lia|by apply c_string_readable|rewrite Hst; unfold DNS_NAME_MAX; lia]|cbv beta].
  intros w Hw. eapply returns_bind; [apply put_returns; unfold DNS_NAME_MAX; lia|cbv beta]. intros w' Hw'.
  assert (result_ok (DnsResult [] [] 0)) by (unfold result_ok, DNS_ADDRESS_MAX; simpl; split_and!; (done || lia)).
  eapply returns_bind; [apply answers_loop_returns; (done || congruence || lia)|cbv beta].
  intros [r|] Hr; [|by apply returns_ret]. case_if; apply returns_ret; [|done]. split; [done|].
  apply orb_true_iff in Hif4. rewrite !Z.ltb_lt in Hif4. lia.
Qed.

(** C37: Queries and the check of a reply's question agree on names without a
    dot at their end only.  For a name of labels of 1 to 63 bytes, joined by
    dots, of at most 255 bytes and with or without a dot at its end,
    [dns_build_query] succeeds if the buffer has room; and in any message that
    repeats the question it wrote behind another header, whatever follows it,
    [question_matches] answers the offset of the first answer record when the
    name had no dot at its end, and refuses the message when it had one. *)
Theorem dns_query_roundtrip limit ls qualified type transaction stack header rest :
  ls <> [] -> Forall label_ok ls -> Z.of_nat (length (spelled ls qualified)) <= DNS_NAME_MAX -> is_u16 type ->
  Z.of_nat (16 + length (wire ls)) <= limit -> length stack = 256%nat -> length header = 12%nat ->
  exists query,
    dns_build_query limit (spelled ls qualified ++ [0]) type transaction = Ret (Some query) /\
    (small (header ++ drop 12 query ++ rest) ->
     question_matches stack (header ++ drop 12 query ++ rest) (spelled ls qualified ++ [0]) type =
     Ret (if qualified then None else Some (Z.of_nat (length query)))).
Proof.
  intros Hne Hls Hmax Hty Hlim Hst Hh. eexists. split; [by apply build_query_wire|].
  change (drop 12 _) with (wire ls ++ write_be16 type ++ write_be16 1). rewrite <- app_assoc. intros Hsm.
  rewrite <- app_assoc in *. rewrite question_wire by done. destruct qualified; [done|]. do 2 f_equal.
  rewrite !length_app. simpl. lia.
Qed.

(** ** Instances *)

Definition example_stack : list Z := replicate 256 0xAA.

(** A message of one pointer chain: each name points at the one before it. *)
Definition example_chain : list Z := replicate 12 0 ++ [1; 97; 0; 0xC0; 12; 0xC0; 15; 0xC0; 17].

Lemma skip_name_terminates_witness :
  exists r, skip_name example_chain 19 (Some 0) (Some example_stack) = Ret r /\
    walked example_chain true (Some 256%nat) r.
Proof.
  apply (skip_name_terminates example_chain 19 (Some 0) (Some example_stack)).
  - unfold is_bytes, is_u8, example_chain. simpl. repeat (apply Forall_cons; split; [lia|]). constructor.
  - unfold small. simpl. lia.
  - lia.
  - by right.
Defined.

(** The reply to a query for [a.b] with one address. *)
Definition example_reply : list Z :=
  [0; 7; 0x81; 0x80; 0; 1; 0; 1; 0; 0; 0; 0] ++ [1; 97; 1; 98; 0; 0; 1; 0; 1] ++
  [0xC0; 12; 0; 1; 0; 1; 0; 0; 0; 60; 0; 4; 10; 0; 0; 1].

Lemma dns_parse_reply_safe_witness :
  dns_parse_reply example_stack example_reply [97; 46; 98; 0] 1 7 =
    Ret (Resolved (DnsResult [0x0A000001] [] 60)) /\
  result_ok (DnsResult [0x0A000001] [] 60).
Proof.
  destruct (dns_parse_reply_safe example_stack example_reply [97; 46; 98; 0] 1 7) as (r & He & Hr).
  - unfold is_bytes, is_u8, example_reply. simpl. repeat (apply Forall_cons; split; [lia|]). constructor.
  - unfold small. simpl. lia.
  - reflexivity.
  - unfold c_string. apply list_elem_of_lookup. by exists 3%nat.
  - vm_compute in He. injection He as <-. split; [reflexivity|apply Hr].
Defined.

(** The names [a.b] and [a.b.] *)
Lemma dns_query_roundtrip_witness :
  exists query, dns_build_query 512 [97; 46; 98; 0] 1 7 = Ret (Some query) /\
    dns_build_query 512 [97; 46; 98; 46; 0] 1 7 = Ret (Some query) /\
    question_matches example_stack (replicate 12 0 ++ drop 12 query ++ [9]) [97; 46; 98; 0] 1 =
      Ret (Some (Z.of_nat (length query))) /\
    question_matches example_stack (replicate 12 0 ++ drop 12 query ++ [9]) [97; 46; 98; 46; 0] 1 = Ret None.
Proof.
  assert (Forall label_ok [[97]; [98]]) as Hls.
  { unfold label_ok, letter, is_u8, DNS_LABEL_MAX.
    repeat (apply Forall_cons; split; [split; [simpl; lia|repeat (apply Forall_cons; split; [lia|]); constructor]|]).
    constructor. }
  assert (forall q : bool, exists query,
    dns_build_query 512 (spelled [[97]; [98]] q ++ [0]) 1 7 = Ret (Some query) /\
    (small (replicate 12 0 ++ drop 12 query ++ [9]) ->
     question_matches example_stack (replicate 12 0 ++ drop 12 query ++ [9]) (spelled [[97]; [98]] q ++ [0]) 1 =
     Ret (if q then None else Some (Z.of_nat (length query))))) as H.
  { intros q. apply (dns_query_roundtrip 512 [[97]; [98]] q 1 7 example_stack (replicate 12 0) [9]).
    - done.
    - exact Hls.
    - destruct q; unfold DNS_NAME_MAX; simpl; lia.
    - unfold is_u16. lia.
    - simpl. lia.
    - reflexivity.
    - reflexivity. }
  destruct (H false) as (query & Hb & Hq), (H true) as (query' & Hb' & Hq').
  vm_compute in Hb. injection Hb as <-. vm_compute in Hb'. injection Hb' as <-.
  eexists. split; [vm_compute; reflexivity|]. split; [vm_compute; reflexivity|].
  split; [apply Hq|apply Hq']; unfold small; simpl; lia.
Defined.

(** A label may hold a NUL, which ends the text the name is compared as: the
    question for the single label [a NUL b] matches the name [a]. *)
Example nul_label_truncates :
  question_matches example_stack (replicate 12 0 ++ [3; 97; 0; 98; 0; 0; 1; 0; 1]) [97; 0] 1 = Ret (Some 21).
Proof. vm_compute. reflexivity. Qed.

(** A fully qualified name is encoded without its last dot, which the
    comparison with the question then misses: no reply to it is accepted. *)
Example trailing_dot_unmatched :
  encode_name 64 [97; 46; 0] = Ret (Some [1; 97; 0]) /\
  question_matches example_stack (replicate 12 0 ++ [1; 97; 0; 0; 1; 0; 1]) [97; 46; 0] 1 = Ret None.
Proof. vm_compute. split; reflexivity. Qed.

End Dns.
