(* ===== verification/Elf64.v ===== *)
(** The program loader: [src/arch/x86_64/kernel/elf64.c].

    The image is the list of its bytes and its structures are decoded from it
    at their C offsets.  [src/arch/x86_64/memory/vm64.h] is the interface
    [Vm64]; the pages it hands out are written through the identity mapping,
    so physical memory is a function of the address and part of the state. *)

From S2P Require Import Prelude Wire.

Module Elf64.

Import Wire.

Definition ET_EXEC : Z := 2.

Definition EM_X86_64 : Z := 62.

Definition PT_LOAD : Z := 1.

Definition PF_X : Z := 1.

Definition PF_W : Z := 2.

Definition ELF64_PH_MAX : Z := 32.

Definition VM64_PROGRAM_BASE : Z := 0x100000000.

Definition VM64_PROGRAM_LIMIT : Z := 0x100200000.

Definition VM64_STACK_TOP : Z := VM64_PROGRAM_LIMIT.

(** The sizes of the two C structures. *)
Definition header_size : Z := 64.

Definition phdr_size : Z := 56.

(** The fields of [struct elf64_header] the loader reads. *)
Record elf64_header := Header {
  ident : list Z;
  h_type : Z;
  machine : Z;
  version : Z;
  entry : Z;
  phoff : Z;
  ehsize : Z;
  phentsize : Z;
  phnum : Z
}.

Record elf64_phdr := Phdr {
  p_type : Z;
  flags : Z;
  offset : Z;
  vaddr : Z;
  filesz : Z;
  memsz : Z;
  align : Z
}.

(** Little-endian words, as x86-64 loads them. *)
Fixpoint read_le (n : nat) (image : list Z) (i : Z) : Z :=
  match n with
  | O => 0
  | S n => at_ image i + 256 * read_le n image (i + 1)
  end.

Definition header_of (image : list Z) : elf64_header :=
  Header (take 16 image) (read_le 2 image 16) (read_le 2 image 18) (read_le 4 image 20) (read_le 8 image 24)
    (read_le 8 image 32) (read_le 2 image 52) (read_le 2 image 54) (read_le 2 image 56).

Definition phdr_at (image : list Z) (i : Z) : elf64_phdr :=
  Phdr (read_le 4 image i) (read_le 4 image (i + 4)) (read_le 8 image (i + 8)) (read_le 8 image (i + 16))
    (read_le 8 image (i + 32)) (read_le 8 image (i + 40)) (read_le 8 image (i + 48)).

Definition program_header (image : list Z) (header : elf64_header) (index : Z) : elf64_phdr :=
  phdr_at image (phoff header + index * phentsize header).

Definition range_overlaps (a_start a_end b_start b_end : Z) : bool :=
  (a_start <? b_end) && (b_start <? a_end).

(** [segment->type != PT_LOAD || !segment->memsz] is what the loops skip. *)
Definition loadable (s : elf64_phdr) : bool := (p_type s =? PT_LOAD) && nz (memsz s).

(** [(vaddr + memsz + 0xFFF) & ~0xFFFULL] *)
Definition page_end (s : elf64_phdr) : Z := Z.land (u64 (vaddr s + memsz s + 0xFFF)) (u64 (Z.lnot 0xFFF)).

(** One iteration of the first loop: the error code, or the page count and
    whether the entry point has been seen. *)
Definition check_segment (size : Z) (header : elf64_header) (prior : list elf64_phdr) (s : elf64_phdr)
    (acc : Z * bool) : Z + (Z * bool) :=
  if negb (loadable s) then inr acc else
  if (memsz s <? filesz s) || (size <? offset s) || (size - offset s <? filesz s) then inl (-6) else
  if nz (Z.land (vaddr s) 0xFFF) || nz (Z.land (offset s) 0xFFF) || (vaddr s <? VM64_PROGRAM_BASE) ||
     (VM64_PROGRAM_LIMIT <=? vaddr s) || (VM64_PROGRAM_LIMIT - vaddr s <? memsz s)
  then inl (-7) else
  if (1 <? align s) && (nz (Z.land (align s) (align s - 1)) || (4096 <? align s)) then inl (-8) else
  if Z.land (flags s) (Z.lor PF_W PF_X) =? Z.lor PF_W PF_X then inl (-9) else
  if (vaddr s <? VM64_STACK_TOP) && (VM64_STACK_TOP - 4096 <? page_end s) then inl (-10) else
  let pages := u32 (fst acc + u32 (Z.shiftr (page_end s - vaddr s) 12)) in
  let valid := snd acc || (nz (Z.land (flags s) PF_X) && (vaddr s <=? entry header) &&
                           (entry header <? u64 (vaddr s + memsz s))) in
  if existsb (fun other => loadable other && range_overlaps (vaddr s) (page_end s) (vaddr other) (page_end other))
       prior
  then inl (-10) else inr (pages, valid).

Fixpoint check_segments (size : Z) (header : elf64_header) (prior rest : list elf64_phdr) (acc : Z * bool) :
    Z + (Z * bool) :=
  match rest with
  | [] => inr acc
  | s :: rest =>
      match check_segment size header prior s acc with
      | inl e => inl e
      | inr acc => check_segments size header (prior ++ [s]) rest acc
      end
  end.

Definition segments (image : list Z) (header : elf64_header) : list elf64_phdr :=
  map (fun i => program_header image header (Z.of_nat i)) (seq 0 (Z.to_nat (phnum header))).

(** [vm64.h] *)
Class Vm64 (W : Type) := {
  vm64_available_pages : W -> Z;
  vm64_alloc_page : W -> Z * W;
  vm64_free_page : Z -> W -> W;
  vm64_map : Z -> Z -> Z -> bool -> bool -> W -> Z * W;
  (** What can be observed of it: the pages handed out and a space's page
      table, a physical page and whether it is writable and executable. *)
  owned : W -> Z -> Prop;
  mapped : W -> Z -> Z -> option (Z * bool * bool);
  alloc_fresh w p w' : vm64_alloc_page w = (p, w') -> p <> 0 ->
    p mod 4096 = 0 /\ ~ owned w p /\ owned w' p;
  alloc_keeps w p w' : vm64_alloc_page w = (p, w') ->
    (forall q, owned w q -> owned w' q) /\ (forall space virt, mapped w' space virt = mapped w space virt);
  map_maps space virt p wr ex w w' : vm64_map space virt p wr ex w = (0, w') ->
    mapped w' space virt = Some (p, wr, ex);
  map_keeps space virt p wr ex w r w' : vm64_map space virt p wr ex w = (r, w') ->
    (forall q, owned w q -> owned w' q) /\
    (forall virt', virt' <> virt -> mapped w' space virt' = mapped w space virt')
}.

Section Load.

Context {W : Type} `{V : Vm64 W}.
Context (space : Z) (image : list Z).

(** Byte [k] of the page the loader fills for the address [virt] of [s]. *)
Definition page_byte (s : elf64_phdr) (virt k : Z) : Z :=
  let off := virt - vaddr s in
  let count := if off <? filesz s then (if 4096 <? filesz s - off then 4096 else filesz s - off) else 0 in
  if k <? count then at_ image (offset s + off + k) else 0.

(** The body of the second loop for one page. *)
Definition load_page (s : elf64_phdr) (virt : Z) (w : W) (mem : Z -> Z) : Z * W * (Z -> Z) :=
  let '(phys, w) := vm64_alloc_page w in
  if negb (nz phys) then (-12, w, mem) else
  let mem := fun a => if (phys <=? a) && (a <? phys + 4096) then page_byte s virt (a - phys) else mem a in
  let '(r, w) := vm64_map space virt phys (nz (Z.land (flags s) PF_W)) (nz (Z.land (flags s) PF_X)) w in
  if nz r then (-13, vm64_free_page phys w, mem) else (0, w, mem).

(** [n] pages are left. *)
Fixpoint load_pages (n : nat) (s : elf64_phdr) (virt : Z) (w : W) (mem : Z -> Z) : Z * W * (Z -> Z) :=
  match n with
  | O => (0, w, mem)
  | S n =>
      let '(r, w, mem) := load_page s virt w mem in
      if nz r then (r, w, mem) else load_pages n s (virt + 4096) w mem
  end.

(** How often [for (virt = vaddr; virt < page_end; virt += 4096)] runs. *)
Definition page_count (s : elf64_phdr) : nat := Z.to_nat ((page_end s - vaddr s + 4095) / 4096).

Fixpoint load_segments (segs : list elf64_phdr) (w : W) (mem : Z -> Z) : Z * W * (Z -> Z) :=
  match segs with
  | [] => (0, w, mem)
  | s :: segs =>
      if negb (loadable s) then load_segments segs w mem else
      let '(r, w, mem) := load_pages (page_count s) s (vaddr s) w mem in
      if nz r then (r, w, mem) else load_segments segs w mem
  end.

(** The answer, the entry point when it is 0, and the state. *)
Definition elf64_load (size : Z) (w : W) (mem : Z -> Z) : Z * option Z * W * (Z -> Z) :=
  if size <? header_size then (-1, None, w, mem) else
  let header := header_of image in
  if negb (bool_decide (take 7 (ident header) = [0x7F; 69; 76; 70; 2; 1; 1])) then (-2, None, w, mem) else
  if negb (h_type header =? ET_EXEC) || negb (machine header =? EM_X86_64) || negb (version header =? 1) ||
     (ehsize header <? header_size)
  then (-3, None, w, mem) else
  if negb (nz (phnum header)) || (ELF64_PH_MAX <? phnum header) || (phentsize header <? phdr_size)
  then (-4, None, w, mem) else
  if (size <? phoff header) || (size - phoff header <? phnum header * phentsize header)
  then (-5, None, w, mem) else
  match check_segments size header [] (segments image header) (0, false) with
  | inl e => (e, None, w, mem)
  | inr (pages, valid) =>
      if negb valid || negb (nz pages) || (vm64_available_pages w <? pages) then (-11, None, w, mem) else
      let '(r, w, mem) := load_segments (segments image header) w mem in
      (r, if nz r then None else Some (entry header), w, mem)
  end.

End Load.

(** ** Decoding *)

Lemma at_byte image i : is_bytes image -> is_u8 (at_ image i).
Proof.
  intros Hb. unfold at_, byte_at. destruct (nth_in_or_default (Z.to_nat i) image 0) as [Hin| ->]; [|unfold is_u8; lia].
  eapply Forall_forall in Hb; [exact Hb|]. by apply list_elem_of_In.
Qed.

Lemma read_le_range n image i : is_bytes image -> 0 <= read_le n image i < 256 ^ Z.of_nat n.
Proof.
  intros Hb. revert i. induction n as [|n IH]; intros i; [simpl; lia|]. cbn [read_le].
  pose proof (at_byte image i Hb). pose proof (IH (i + 1)). unfold is_u8 in *.
  rewrite Nat2Z.inj_succ, Z.pow_succ_r by lia. nia.
Qed.

(** The fields are unsigned. *)
Definition unsigned (s : elf64_phdr) : Prop :=
  0 <= offset s /\ 0 <= vaddr s /\ 0 <= filesz s /\ 0 <= memsz s.

Lemma segments_unsigned image header : is_bytes image -> Forall unsigned (segments image header).
Proof.
  intros Hb. apply Forall_forall. intros s (i & -> & _)%list_elem_of_fmap. unfold unsigned.
  cbn [program_header phdr_at offset vaddr filesz memsz]. split_and!; apply (proj1 (read_le_range 8 _ _ Hb)).
Qed.

(** ** Validated segments *)

Record segment_ok (size : Z) (s : elf64_phdr) : Prop := {
  so_file : filesz s <= memsz s;
  so_source : offset s + filesz s <= size;
  so_aligned : vaddr s mod 4096 = 0;
  so_low : VM64_PROGRAM_BASE <= vaddr s;
  so_end : page_end s mod 4096 = 0 /\ vaddr s + memsz s <= page_end s;
  so_high : page_end s <= VM64_STACK_TOP - 4096;
  so_wx : nz (Z.land (flags s) PF_W) && nz (Z.land (flags s) PF_X) = false
}.

Definition disjoint (s t : elf64_phdr) : Prop :=
  loadable s = true -> loadable t = true -> page_end s <= vaddr t \/ page_end t <= vaddr s.

Lemma page_end_value s :
  0 <= vaddr s + memsz s < 0x200000000 -> page_end s = (vaddr s + memsz s + 4095) / 4096 * 4096.
Proof.
  intros Hr. unfold page_end. rewrite u64_small by (unfold is_u64; lia).
  change (u64 (Z.lnot 0xFFF)) with (2 ^ 64 - 2 ^ 12). rewrite land_high_mask by lia. done.
Qed.

Lemma wx_bits f :
  (Z.land f (Z.lor PF_W PF_X) =? Z.lor PF_W PF_X) = false -> nz (Z.land f PF_W) && nz (Z.land f PF_X) = false.
Proof.
  intros Hf. apply not_true_iff_false. intros [Hw Hx]%andb_true_iff. apply Z.eqb_neq in Hf. apply Hf.
  pose proof (bit_of_testbit f 1 ltac:(lia)) as H1. pose proof (bit_of_testbit f 0 ltac:(lia)) as H0.
  unfold bit_of in H1, H0. change (Z.shiftl 1 1) with PF_W in H1. change (Z.shiftl 1 0) with PF_X in H0.
  apply Z.bits_inj'. intros n Hn. change (Z.lor PF_W PF_X) with (Z.ones 2). rewrite Z.land_spec.
  destruct (Z.ltb_spec n 2).
  - assert (n = 0 \/ n = 1) as [-> | ->] by lia; [rewrite <- H0, Hx|rewrite <- H1, Hw]; done.
  - rewrite Z.ones_spec_high by lia. apply andb_false_r.
Qed.

Lemma land_page a : Z.land a 0xFFF = a mod 4096.
Proof. change 0xFFF with (Z.ones 12). by rewrite Z.land_ones by lia. Qed.

Lemma check_segment_ok size header prior s acc acc' :
  unsigned s -> check_segment size header prior s acc = inr acc' ->
  (loadable s = true -> segment_ok size s /\ Forall (disjoint s) prior) /\
  (snd acc' = true -> snd acc = true \/
     loadable s = true /\ nz (Z.land (flags s) PF_X) = true /\ vaddr s <= entry header < vaddr s + memsz s).
Proof.
  intros (Ho & Hv & Hf & Hm) He. unfold check_segment in He. destruct (loadable s) eqn:Hl; cbn [negb] in He.
  2: { injection He as <-. split; [done|by left]. }
  destruct (_ || _ || _) eqn:H6 in He; [done|]. destruct (_ || _ || _ || _ || _) eqn:H7 in He; [done|].
  destruct (_ && _) eqn:H8 in He; [done|]. destruct (_ =? _) eqn:H9 in He; [done|].
  apply wx_bits in H9. destruct (_ && _) eqn:H10 in He; [done|]. destruct (existsb _ _) eqn:Hex in He; [done|].
  injection He as <-. boolify. rewrite land_page in *. unfold VM64_PROGRAM_BASE, VM64_PROGRAM_LIMIT in *.
  assert (vaddr s + memsz s <= 0x100200000) by lia. pose proof (page_end_value s ltac:(lia)) as Hpe.
  apply andb_false_iff in H10. rewrite !Z.ltb_ge in H10. unfold VM64_STACK_TOP, VM64_PROGRAM_LIMIT in H10.
  split.
  - intros _. split.
    + constructor; unfold VM64_PROGRAM_BASE, VM64_STACK_TOP, VM64_PROGRAM_LIMIT; try done; try lia; rewrite Hpe; dmlia.
    + apply Forall_forall. intros t Ht _ Hlt. rewrite <- not_true_iff_false, existsb_exists in Hex.
      destruct (decide (page_end s <= vaddr t \/ page_end t <= vaddr s)) as [|Hno]; [done|]. exfalso. apply Hex.
      exists t. split; [by apply list_elem_of_In|]. rewrite Hlt. unfold range_overlaps. cbn [andb].
      apply andb_true_iff. rewrite !Z.ltb_lt. lia.
  - simpl. intros [->|[[Hx Hlo%Z.leb_le]%andb_true_iff Hhi%Z.ltb_lt]%andb_true_iff]%orb_true_iff; [by left|right].
    rewrite u64_small in Hhi by (unfold is_u64; lia). by split_and!.
Qed.

Lemma check_segments_ok size header prior rest acc acc' :
  Forall unsigned rest -> check_segments size header prior rest acc = inr acc' ->
  Forall (fun s => loadable s = true -> segment_ok size s /\ Forall (disjoint s) prior) rest /\
  (forall l1 s l2, rest = l1 ++ s :: l2 -> Forall (disjoint s) l1) /\
  (snd acc' = true -> snd acc = true \/
     Exists (fun s => loadable s = true /\ nz (Z.land (flags s) PF_X) = true /\
                      vaddr s <= entry header < vaddr s + memsz s) rest).
Proof.
  intros Hu. revert prior acc. induction Hu as [|s rest Hs Hu IH]; intros prior acc He; cbn [check_segments] in He.
  { injection He as <-. split_and!; [done| |by left]. intros [|? ?] ? ?; done. }
  destruct (check_segment _ _ _ _ _) as [|acc1] eqn:Hc; [done|].
  destruct (check_segment_ok _ _ _ _ _ _ Hs Hc) as [Hseg Hent]. destruct (IH _ _ He) as (Hok & Hdis & Hent').
  split_and!.
  - constructor; [done|]. eapply Forall_impl; [exact Hok|]. cbv beta. intros t Ht Hl. specialize (Ht Hl) as [Hso Hd].
    split; [done|]. by apply Forall_app in Hd as [Hd _].
  - intros [|s' l1] t l2 Heq; [constructor|]. injection Heq as <- ->. constructor; [|by eapply Hdis].
    intros Hlt Hls. apply Forall_app in Hok as [_ Hok]. apply Forall_cons in Hok as [Hok _].
    specialize (Hok Hlt) as [_ Hd]. apply Forall_app in Hd as [_ Hd]. apply Forall_cons in Hd as [Hd _]. by apply Hd.
  - intros Hv. destruct (Hent' Hv) as [Hv1|Hex]; [|right; by constructor 2].
    destruct (Hent Hv1) as [|]; [by left|right; by constructor 1].
Qed.

Lemma check_segments_error size header prior rest acc c :
  check_segments size header prior rest acc = inl c -> -10 <= c <= -6.
Proof.
  revert prior acc. induction rest as [|s rest IH]; intros prior acc; cbn [check_segments]; [done|].
  destruct (check_segment _ _ _ _ _) as [c'|] eqn:Hs; [|apply IH]. intros [= ->].
  unfold check_segment in Hs. repeat (case_if; try done); injection Hs as <-; lia.
Qed.

(** ** Loading *)

Section Loaded.

Context {W : Type} `{V : Vm64 W}.
Context (space : Z) (image : list Z).
Implicit Types (w : W) (mem : Z -> Z) (s : elf64_phdr).

(** The page at [virt] is mapped with the rights of [s] and holds its bytes. *)
Definition loaded w mem (virt : Z) s : Prop :=
  exists p, owned w p /\ p mod 4096 = 0 /\
    mapped w space virt = Some (p, nz (Z.land (flags s) PF_W), nz (Z.land (flags s) PF_X)) /\
    forall k, 0 <= k < 4096 -> mem (p + k) = page_byte image s virt k.

Lemma load_page_ok s virt w mem w' mem' :
  load_page space image s virt w mem = (0, w', mem') ->
  loaded w' mem' virt s /\
  forall virt' s', virt' <> virt -> loaded w mem virt' s' -> loaded w' mem' virt' s'.
Proof.
  unfold load_page. destruct (vm64_alloc_page w) as [p w1] eqn:Ha.
  destruct (nz p) eqn:Hp; [|done]. apply nz_true in Hp. cbn [negb].
  destruct (vm64_map _ _ _ _ _ _) as [r w2] eqn:Hm. destruct (nz r) eqn:Hr; [done|]. apply nz_false in Hr as ->.
  intros [= <- <-]. destruct (alloc_fresh _ _ _ Ha Hp) as (Hal & Hfresh & Hown).
  destruct (alloc_keeps _ _ _ Ha) as [Hko Hkm]. destruct (map_keeps _ _ _ _ _ _ _ _ Hm) as [Hmo Hmm]. split.
  - exists p. split_and!; [auto|done|by eapply map_maps|]. intros k Hk.
    rewrite (proj2 (Z.leb_le _ _)), (proj2 (Z.ltb_lt _ _)) by lia. simpl. f_equal. lia.
  - intros virt' s' Hne (q & Hq & Hqa & Hqm & Hqb). exists q. rewrite Hmm, Hkm by done.
    split_and!; [auto|done|done|]. intros k Hk. assert (p <> q) by congruence.
    destruct (_ && _) eqn:Hin; [|auto]. boolify. exfalso. dmlia.
Qed.

Lemma load_pages_ok n s virt w mem w' mem' :
  load_pages space image n s virt w mem = (0, w', mem') ->
  (forall i, 0 <= i < Z.of_nat n -> loaded w' mem' (virt + 4096 * i) s) /\
  forall virt' s', (forall i, 0 <= i < Z.of_nat n -> virt' <> virt + 4096 * i) ->
    loaded w mem virt' s' -> loaded w' mem' virt' s'.
Proof.
  revert virt w mem. induction n as [|n IH]; intros virt w mem He; cbn [load_pages] in He.
  { injection He as <- <-. split; [lia|auto]. }
  destruct (load_page _ _ _ _ _ _) as [[r w1] mem1] eqn:Hl. destruct (nz r) eqn:Hr.
  { apply nz_true in Hr. injection He as -> _ _. done. }
  apply nz_false in Hr as ->. destruct (load_page_ok _ _ _ _ _ _ Hl) as [Hnew Hkeep].
  destruct (IH _ _ _ He) as [Hrest Hkeep']. split.
  - intros i Hi. destruct (Z.eq_dec i 0) as [->|].
    + rewrite Z.mul_0_r, Z.add_0_r. apply Hkeep'; [lia|done].
    + replace (virt + 4096 * i) with (virt + 4096 + 4096 * (i - 1)) by lia. apply Hrest. lia.
  - intros virt' s' Hne Hld. apply Hkeep'.
    + intros i Hi Heq. apply (Hne (i + 1)); lia.
    + apply Hkeep; [|done]. intros ->. apply (Hne 0); lia.
Qed.

(** The pages of a segment. *)
Definition page_of s (virt : Z) : Prop := exists i, 0 <= i < Z.of_nat (page_count s) /\ virt = vaddr s + 4096 * i.

Lemma page_of_range size s virt :
  segment_ok size s -> page_of s virt <-> vaddr s <= virt < page_end s /\ virt mod 4096 = 0.
Proof.
  intros [_ _ Ha Hlo [Hea Hel] _ _]. unfold page_of, page_count, VM64_PROGRAM_BASE in *. split.
  - intros (i & Hi & ->). dmlia.
  - intros [Hv Hm]. exists ((virt - vaddr s) / 4096). dmlia.
Qed.

Lemma load_segments_ok size segs w mem w' mem' :
  Forall (fun s => loadable s = true -> segment_ok size s) segs ->
  (forall l1 s l2, segs = l1 ++ s :: l2 -> Forall (disjoint s) l1) ->
  load_segments space image segs w mem = (0, w', mem') ->
  Forall (fun s => loadable s = true -> forall virt, page_of s virt -> loaded w' mem' virt s) segs /\
  forall virt' s', Forall (fun s => loadable s = true -> ~ page_of s virt') segs ->
    loaded w mem virt' s' -> loaded w' mem' virt' s'.
Proof.
  intros Hok. revert w mem. induction Hok as [|s segs Hs Hok IH]; intros w mem Hdis He; cbn [load_segments] in He.
  { injection He as <- <-. split; [constructor|auto]. }
  assert (forall l1 t l2, segs = l1 ++ t :: l2 -> Forall (disjoint t) (s :: l1)) as Hdis'
    by (intros l1 t l2 ->; by eapply (Hdis (s :: l1))).
  assert (forall l1 t l2, segs = l1 ++ t :: l2 -> Forall (disjoint t) l1) as Hdis1
    by (intros l1 t l2 Heq; apply Hdis' in Heq; by apply Forall_cons in Heq as [_ Heq]).
  destruct (loadable s) eqn:Hl; cbn [negb] in He.
  2: { destruct (IH _ _ Hdis1 He) as [Hrest Hkeep]. split; [constructor; [congruence|done]|].
       intros virt' s' [_ Hno]%Forall_cons. by apply Hkeep. }
  destruct (load_pages _ _ _ _ _ _ _) as [[r w1] mem1] eqn:Hp. destruct (nz r) eqn:Hr.
  { apply nz_true in Hr. injection He as -> _ _. done. }
  apply nz_false in Hr as ->. destruct (load_pages_ok _ _ _ _ _ _ _ Hp) as [Hnew Hkp].
  destruct (IH _ _ Hdis1 He) as [Hrest Hkeep]. specialize (Hs eq_refl). split.
  - constructor; [|done]. intros _ virt Hv. apply Hkeep; [|destruct Hv as (i & Hi & ->); by apply Hnew].
    apply Forall_forall. intros t Ht Hlt Hvt. apply list_elem_of_split in Ht as (l1 & l2 & Ht).
    pose proof (Hdis' _ _ _ Ht) as Hd. apply Forall_cons in Hd as [Hd _]. specialize (Hd Hlt Hl).
    assert (segment_ok size t) as Hst by (rewrite Ht in Hok; apply Forall_app in Hok as [_ Hok];
      apply Forall_cons in Hok as [Hok _]; auto).
    rewrite (page_of_range size) in Hv, Hvt by done. lia.
  - intros virt' s' [Hno Hno']%Forall_cons Hld. apply Hkeep; [done|]. apply Hkp; [|done].
    intros i Hi Heq. apply (Hno Hl). by exists i.
Qed.

(** What the checks before the segments establish. *)
Definition headers_in_bounds (size : Z) : Prop :=
  let header := header_of image in
  forall i, 0 <= i < phnum header ->
    0 <= phoff header + i * phentsize header /\ phoff header + i * phentsize header + phdr_size <= size.

Lemma elf64_load_checked size w mem r e w' mem' :
  is_bytes image -> elf64_load space image size w mem = (r, e, w', mem') ->
  -5 <= r < 0 \/
  (headers_in_bounds size /\
   ((exists c, r = c /\ check_segments size (header_of image) [] (segments image (header_of image)) (0, false) = inl c) \/
    exists pages valid,
      check_segments size (header_of image) [] (segments image (header_of image)) (0, false) = inr (pages, valid) /\
      (r = -11 \/ valid = true /\
       load_segments space image (segments image (header_of image)) w mem = (r, w', mem') /\
       e = if nz r then None else Some (entry (header_of image))))).
Proof.
  intros Hb. unfold elf64_load. destruct (_ <? _) eqn:? in |- *; [intros [= <- _ _ _]; lia|].
  destruct (negb _) in |- *; [intros [= <- _ _ _]; lia|].
  destruct (_ || _ || _ || _) in |- *; [intros [= <- _ _ _]; lia|].
  destruct (_ || _ || _) eqn:H4 in |- *; [intros [= <- _ _ _]; lia|].
  destruct (_ || _) eqn:H5 in |- *; [intros [= <- _ _ _]; lia|]. intros He. right. split.
  { intros i Hi. boolify. unfold phdr_size in *.
    pose proof (read_le_range 8 image 32 Hb). change (read_le 8 image 32) with (phoff (header_of image)) in *. nia. }
  destruct (check_segments _ _ _ _ _) as [c|[pages valid]]; [left; eexists; split; [|done]; congruence|].
  right. exists pages, valid. split; [done|].
  destruct (_ || _ || _) eqn:H11 in He; [left; congruence|right]. boolify.
  destruct (load_segments _ _ _ _ _) as [[r1 w1] mem1]. injection He as <- <- <- <-. done.
Qed.

Lemma page_byte_value s virt k :
  0 <= k < 4096 -> vaddr s <= virt ->
  page_byte image s virt k =
  if virt + k - vaddr s <? filesz s then at_ image (offset s + (virt + k - vaddr s)) else 0.
Proof.
  intros Hk Hv. unfold page_byte.
  destruct (Z.ltb_spec (virt - vaddr s) (filesz s)); [destruct (Z.ltb_spec 4096 (filesz s - (virt - vaddr s)))|];
    match goal with |- (if ?a <? ?b then _ else _) = _ => destruct (Z.ltb_spec a b) end;
    destruct (Z.ltb_spec (virt + k - vaddr s) (filesz s)); try lia; try done; f_equal; lia.
Qed.

(** ** Properties *)

(** C23: What a successful load leaves: the entry point is in an executable
    segment; every loadable segment lies in the program area below the stack
    page and is not both writable and executable; and every address of its
    pages is mapped with exactly the segment's rights to memory that holds the
    image's byte there, or zero behind the file contents. *)
Theorem elf64_load_correct size w mem e w' mem' :
  is_bytes image -> elf64_load space image size w mem = (0, e, w', mem') ->
  e = Some (entry (header_of image)) /\
  Exists (fun s => loadable s = true /\ nz (Z.land (flags s) PF_X) = true /\
                   vaddr s <= entry (header_of image) < vaddr s + memsz s) (segments image (header_of image)) /\
  Forall (fun s => loadable s = true ->
    segment_ok size s /\
    forall a, vaddr s <= a < page_end s -> exists p,
      mapped w' space (a - a mod 4096) = Some (p, nz (Z.land (flags s) PF_W), nz (Z.land (flags s) PF_X)) /\
      mem' (p + a mod 4096) = if a - vaddr s <? filesz s then at_ image (offset s + (a - vaddr s)) else 0)
    (segments image (header_of image)).
Proof.
  intros Hb He. pose proof (segments_unsigned image (header_of image) Hb) as Hu.
  destruct (elf64_load_checked _ _ _ _ _ _ _ Hb He) as [?|(_ & [(c & <- & Hc)|(pages & valid & Hc & Hr)])]; [lia| |].
  { apply check_segments_error in Hc. lia. }
  destruct Hr as [?|(-> & Hl & ->)]; [lia|]. split; [done|].
  destruct (check_segments_ok _ _ _ _ _ _ Hu Hc) as (Hok & Hdis & [Hx|Hent]%(fun H => H eq_refl)); [done|].
  split; [done|].
  assert (Forall (fun s => loadable s = true -> segment_ok size s) (segments image (header_of image))) as Hok'
    by (eapply Forall_impl; [exact Hok|]; cbv beta; intros s Hs Hls; by apply Hs).
  destruct (load_segments_ok size _ _ _ _ _ Hok' Hdis Hl) as [Hld _].
  pose proof (proj2 (Forall_and _ _) (conj Hok' Hld)) as Hboth.
  eapply Forall_impl; [exact Hboth|]. cbv beta. intros s [Hs Hp] Hls. specialize (Hs Hls). split; [done|].
  intros a Ha. pose proof Hs as [_ _ Hal _ [Hea _] _ _].
  destruct (Hp Hls (a - a mod 4096)) as (p & _ & _ & Hm & Hbytes); [apply (page_of_range size); [done|dmlia]|].
  exists p. split; [done|]. rewrite Hbytes by dmlia. rewrite page_byte_value by dmlia.
  by replace (a - a mod 4096 + a mod 4096) with a by lia.
Qed.

(** The loader stays within the image: unless it refuses the file for its
    header, every program header it decodes lies inside it, and unless it
    refuses it before loading, so do the bytes of every segment it copies. *)
Theorem elf64_load_in_bounds size w mem r e w' mem' :
  is_bytes image -> elf64_load space image size w mem = (r, e, w', mem') -> ~ (-5 <= r < 0) ->
  headers_in_bounds size /\
  (r = 0 \/ r = -12 \/ r = -13 ->
   Forall (fun s => loadable s = true -> 0 <= offset s /\ offset s + filesz s <= size)
     (segments image (header_of image))).
Proof.
  intros Hb He Hr. destruct (elf64_load_checked _ _ _ _ _ _ _ Hb He) as [?|(Hh & Hc)]; [done|]. split; [done|].
  intros Hcode. destruct Hc as [(c & <- & Hc%check_segments_error)|(pages & valid & Hc & _)]; [lia|].
  pose proof (segments_unsigned image (header_of image) Hb) as Hu.
  destruct (check_segments_ok _ _ _ _ _ _ Hu Hc) as (Hok & _ & _).
  pose proof (proj2 (Forall_and _ _) (conj Hu Hok)) as Hboth.
  eapply Forall_impl; [exact Hboth|]. cbv beta. intros s [(Ho & _) Hs] Hls. destruct (Hs Hls) as [[] _]. done.
Qed.

End Loaded.

(** ** Instances *)

(** A page allocator that hands out the pages from 4096 on, with one table. *)
Record vm := Vm {
  pages_given : nat;
  table : Z -> Z -> option (Z * bool * bool)
}.

#[local] Program Instance vm_vm64 : Vm64 vm := {
  vm64_available_pages _ := 512;
  vm64_alloc_page w := (4096 * (Z.of_nat (pages_given w) + 1), Vm (S (pages_given w)) (table w));
  vm64_free_page _ w := w;
  vm64_map space virt p wr ex w :=
    (0, Vm (pages_given w)
          (fun sp v => if (sp =? space) && (v =? virt) then Some (p, wr, ex) else table w sp v));
  owned w p := p < 4096 * (Z.of_nat (pages_given w) + 1);
  mapped w := table w
}.
Next Obligation. intros w p w' [= <- <-] _. simpl. split_and!; [dmlia|lia|lia]. Qed.
Next Obligation. intros w p w' [= <- <-]. simpl. split; [lia|done]. Qed.
Next Obligation. intros space virt p wr ex w w' [= <-]. simpl. by rewrite !Z.eqb_refl. Qed.
Next Obligation.
  intros space virt p wr ex w r w' [= <- <-]. simpl. split; [done|]. intros virt' Hne.
  by rewrite (proj2 (Z.eqb_neq virt' virt)), andb_false_r.
Qed.

(** A file with one executable segment, the whole of it, at the program base. *)
Definition example_image : list Z :=
  [0x7F; 69; 76; 70; 2; 1; 1] ++ replicate 9 0 ++ [2; 0; 62; 0; 1; 0; 0; 0] ++
  [0x78; 0; 0; 0; 1; 0; 0; 0] ++ [64; 0; 0; 0; 0; 0; 0; 0] ++ replicate 12 0 ++ [64; 0; 56; 0; 1; 0] ++ replicate 6 0 ++
  [1; 0; 0; 0; 5; 0; 0; 0] ++ replicate 8 0 ++ [0; 0; 0; 0; 1; 0; 0; 0] ++ replicate 8 0 ++
  [128; 0; 0; 0; 0; 0; 0; 0] ++ [200; 0; 0; 0; 0; 0; 0; 0] ++ replicate 8 0 ++ [0xEB; 0xFE; 0; 0; 0; 0; 0; 0].

Definition example_vm : vm := Vm 0 (fun _ _ => None).

Lemma example_image_bytes : is_bytes example_image.
Proof.
  unfold is_bytes, is_u8, example_image. simpl. repeat (apply Forall_cons; split; [lia|]). constructor.
Qed.

Lemma elf64_load_correct_witness :
  exists w' mem', elf64_load 3 example_image 128 example_vm (fun _ => 0xCC) = (0, Some 0x100000078, w', mem') /\
    exists p, mapped w' 3 0x100000000 = Some (p, false, true) /\ mem' (p + 0x78) = 0xEB.
Proof.
  destruct (elf64_load 3 example_image 128 example_vm (fun _ => 0xCC)) as [[[r e] w'] mem'] eqn:He.
  exists w', mem'. assert (r = 0) as ->
    by (apply (f_equal (fun x => x.1.1.1)) in He; vm_compute in He; congruence).
  destruct (elf64_load_correct 3 example_image 128 example_vm (fun _ => 0xCC) e w' mem' example_image_bytes He)
    as (-> & _ & Hall).
  split; [reflexivity|]. apply Forall_cons in Hall as [Hseg _]. destruct (Hseg eq_refl) as [_ Hbytes].
  destruct (Hbytes 0x100000078) as (p & Hm & Hv); [vm_compute; split; [discriminate|reflexivity]|].
  exists p. split; [exact Hm|]. rewrite <- (eq_refl : 0x100000078 mod 4096 = 0x78). rewrite Hv. reflexivity.
Defined.

Lemma elf64_load_in_bounds_witness :
  headers_in_bounds example_image 128.
Proof.
  destruct (elf64_load 3 example_image 128 example_vm (fun _ => 0xCC)) as [[[r e] w'] mem'] eqn:He.
  assert (r = 0) as -> by (apply (f_equal (fun x => x.1.1.1)) in He; vm_compute in He; congruence).
  apply (elf64_load_in_bounds 3 example_image 128 example_vm (fun _ => 0xCC) 0 e w' mem' example_image_bytes He).
  lia.
Defined.

End Elf64.
