(* ===== verification/Resource.v ===== *)
(** The interface of [src/objects/resource.c] and of the object table towards
    the modules that keep their data in shared pages: the packet pools and the
    rings.  [W] is the rest of the system. *)

From S2P Require Import Prelude Object.

Module Resource.

(** [object_at] is the object a pointer names, [physical] the page addresses
    of a live page resource (what [page_resource_get] finds) and
    [resource_revoked] its flag. *)
Class ResourceModules (W : Type) := {
  object_at : W -> Z -> Object.kernel_object;
  physical : W -> Z -> option (Z -> Z);
  resource_revoked : W -> Z -> bool;
  shared_memory_resource_create : Z -> W -> option Z * W;
  page_resource_revoke : Z -> W -> Z * W;
  object_create : Z -> Z -> W -> option Z * W;
  object_release : Z -> W -> W
}.

End Resource.
