(* ===== verification/NetBuffer.v ===== *)
(** Packet buffer pools: [src/net/net_buffer.c].

    A pool of page-sized buffers whose owners hold 64-bit identifiers made of
    a slot and its generation.  The static array [pools] is a function of the
    index; [resource.c] and the object table are the interface [ResourceModules],
    which acts on the rest of the system, a value of the type [W].  Ghost
    data: [retired] counts how often a buffer's identifier has been retired. *)

From S2P Require Import Prelude Object Resource.

Module NetBuffer.

Import Resource.

Definition PACKET_POOL_MAX : Z := 16.

Definition PACKET_POOL_BUFFER_MAX : Z := 64.

Definition KOBJECT_PACKET_POOL : Z := 16.

Definition NET_BUFFER_FREE : Z := 0.

Definition NET_BUFFER_DRIVER_TX : Z := 6.

Record packet_buffer_state := Buffer {
  generation : Z;
  state : Z;
  retired : nat
}.

Record packet_pool_state := Pool {
  backing : option Z;
  buffers : Z -> packet_buffer_state;
  buffer_count : Z;
  next_buffer : Z;
  revoked : bool;
  active : bool;
  phys : Z -> Z
}.

Record net_pools := Pools {
  pools : Z -> packet_pool_state;
  next_pool_generation : Z
}.

Definition set_pool (i : Z) (p : packet_pool_state) (n : net_pools) : net_pools :=
  Pools (upd (pools n) i p) (next_pool_generation n).

Definition set_buffer (slot : Z) (b : packet_buffer_state) (next : Z) (p : packet_pool_state) : packet_pool_state :=
  Pool (backing p) (upd (buffers p) slot b) (buffer_count p) next (revoked p) (active p) (phys p).

(** [generation++; if (!generation) generation = 1;] with the buffer freed. *)
Definition retire (b : packet_buffer_state) : packet_buffer_state :=
  let g := u32 (generation b + 1) in
  Buffer (if nz g then g else 1) NET_BUFFER_FREE (S (retired b)).

(** ** One pool *)

Definition buffer_for (p : packet_pool_state) (id : Z) : option Z :=
  let low := u32 id in
  let gen := u32 (Z.shiftr id 32) in
  if negb (nz low) || (buffer_count p <? low) || negb (nz gen) then None else
  let slot := low - 1 in
  if negb (generation (buffers p slot) =? gen) || (state (buffers p slot) =? NET_BUFFER_FREE) then None
  else Some slot.

Definition buffer_id (gen slot : Z) : Z := Z.lor (Z.shiftl gen 32) (slot + 1).

(** The answer 0 is [None]. *)
Definition packet_pool_acquire_res (new_state : Z) (p : packet_pool_state) : option Z * packet_pool_state :=
  if revoked p || (new_state =? NET_BUFFER_FREE) || (NET_BUFFER_DRIVER_TX <? new_state) then (None, p) else
  match scan_range 0 (buffer_count p)
          (fun off => state (buffers p ((next_buffer p + off) mod buffer_count p)) =? NET_BUFFER_FREE) with
  | None => (None, p)
  | Some off =>
      let slot := (next_buffer p + off) mod buffer_count p in
      let b := buffers p slot in
      (Some (buffer_id (generation b) slot),
       set_buffer slot (Buffer (generation b) new_state (retired b)) ((slot + 1) mod buffer_count p) p)
  end.

Definition packet_pool_transition_res (id expected_state new_state : Z) (p : packet_pool_state) :
    Z * packet_pool_state :=
  match buffer_for p id with
  | None => (-1, p)
  | Some slot =>
      let b := buffers p slot in
      if revoked p || negb (state b =? expected_state) || (new_state =? NET_BUFFER_FREE) ||
         (NET_BUFFER_DRIVER_TX <? new_state)
      then (-1, p)
      else (0, set_buffer slot (Buffer (generation b) new_state (retired b)) (next_buffer p) p)
  end.

Definition packet_pool_release_res (id expected_state : Z) (p : packet_pool_state) : Z * packet_pool_state :=
  match buffer_for p id with
  | None => (-1, p)
  | Some slot =>
      let b := buffers p slot in
      if negb (state b =? expected_state) then (-1, p)
      else (0, set_buffer slot (retire b) (if slot <? next_buffer p then slot else next_buffer p) p)
  end.

(** The null pointer is [None]. *)
Definition packet_pool_data_res (id required_state : Z) (p : packet_pool_state) : option Z :=
  match buffer_for p id with
  | None => None
  | Some slot =>
      if revoked p || negb (state (buffers p slot) =? required_state) then None else
      if negb (nz (phys p slot)) || (0x40000000 <=? phys p slot) then None else Some (phys p slot)
  end.

(** The loop of [packet_pool_revoke] over the pool's buffers. *)
Definition retire_all (count : Z) (p : packet_pool_state) : packet_pool_state :=
  Pool (backing p) (fun i => if (0 <=? i) && (i <? count) then retire (buffers p i) else buffers p i)
    (buffer_count p) (next_buffer p) (revoked p) (active p) (phys p).

(** ** The pools *)

Section Pools.

Context {W : Type} `{M : ResourceModules W}.
Implicit Types (n : net_pools) (w : W).

(** The index of the pool of an object. *)
Definition state_for (object : option Z) n w : option Z :=
  match object with
  | None => None
  | Some o =>
      let obj := object_at w o in
      if negb (Object.active obj) || negb (Object.type obj =? KOBJECT_PACKET_POOL) ||
         negb (nz (Object.value obj)) || (PACKET_POOL_MAX <? Object.value obj)
      then None else
      let index := Object.value obj - 1 in
      if active (pools n index) then Some index else None
  end.

Definition packet_pool_init n : net_pools :=
  Pools (fun i => Pool None (fun _ => Buffer 1 NET_BUFFER_FREE 0) 0 0 false false (phys (pools n i))) 0x10000.

(** [if (backing && !backing->revoked) page_resource_revoke(...)] *)
Definition revoke_backing (p : packet_pool_state) w : Z * W :=
  match backing p with
  | None => (0, w)
  | Some r =>
      match physical w r with
      | Some _ => if resource_revoked w r then (0, w) else page_resource_revoke r w
      | None => (0, w)
      end
  end.

Definition pool_destroy (object : option Z) n w : net_pools * W :=
  match object with
  | None => (n, w)
  | Some o =>
      let v := Object.value (object_at w o) in
      if negb (nz v) || (PACKET_POOL_MAX <? v) then (n, w) else
      let index := v - 1 in
      let p := pools n index in
      if negb (active p) then (n, w) else
      let w := if revoked p then w else snd (revoke_backing p w) in
      let w := match backing p with Some r => object_release r w | None => w end in
      let p := retire_all PACKET_POOL_BUFFER_MAX p in
      (set_pool index (Pool None (buffers p) 0 0 false false (phys p)) n, w)
  end.

Definition packet_pool_create (count : Z) n w : option Z * net_pools * W :=
  if negb (nz count) || (PACKET_POOL_BUFFER_MAX <? count) then (None, n, w) else
  match scan_range 0 PACKET_POOL_MAX (fun i => negb (active (pools n i))) with
  | None => (None, n, w)
  | Some index =>
      let '(r, w) := shared_memory_resource_create count w in
      match r with
      | None => (None, n, w)
      | Some r =>
          let p := pools n index in
          let addresses := fun i => if (0 <=? i) && (i <? count)
            then match physical w r with Some a => a i | None => 0 end else phys p i in
          let gen := next_pool_generation n in
          let next := u32 (gen + 0x10000) in
          let bufs := fun i => if (0 <=? i) && (i <? count)
            then Buffer gen NET_BUFFER_FREE (S (retired (buffers p i))) else buffers p i in
          let '(object, w) := object_create KOBJECT_PACKET_POOL (index + 1) w in
          let next := if nz next then next else 0x10000 in
          match object with
          | Some o =>
              (Some o, Pools (upd (pools n) index (Pool (Some r) bufs count 0 false true addresses)) next, w)
          | None =>
              (None, Pools (upd (pools n) index (Pool None bufs count 0 false false addresses)) next,
               object_release r w)
          end
      end
  end.

Definition packet_pool_backing (object : option Z) n w : option Z :=
  match state_for object n w with
  | Some i => if revoked (pools n i) then None else backing (pools n i)
  | None => None
  end.

Definition packet_pool_acquire (object : option Z) (new_state : Z) n w : option Z * net_pools :=
  match state_for object n w with
  | Some i => let '(id, p) := packet_pool_acquire_res new_state (pools n i) in (id, set_pool i p n)
  | None => (None, n)
  end.

Definition packet_pool_transition (object : option Z) (id expected_state new_state : Z) n w : Z * net_pools :=
  match state_for object n w with
  | Some i =>
      let '(r, p) := packet_pool_transition_res id expected_state new_state (pools n i) in (r, set_pool i p n)
  | None => (-1, n)
  end.

Definition packet_pool_release (object : option Z) (id expected_state : Z) n w : Z * net_pools :=
  match state_for object n w with
  | Some i => let '(r, p) := packet_pool_release_res id expected_state (pools n i) in (r, set_pool i p n)
  | None => (-1, n)
  end.

Definition packet_pool_data (object : option Z) (id required_state : Z) n w : option Z :=
  match state_for object n w with
  | Some i => packet_pool_data_res id required_state (pools n i)
  | None => None
  end.

Definition packet_pool_revoke (object : option Z) n w : Z * net_pools * W :=
  match state_for object n w with
  | None => (-1, n, w)
  | Some i =>
      let p := pools n i in
      if revoked p then (-1, n, w) else
      let p := Pool (backing p) (buffers p) (buffer_count p) (next_buffer p) true (active p) (phys p) in
      let '(result, w) := revoke_backing p w in
      (result, set_pool i (retire_all (buffer_count p) p) n, w)
  end.

Definition free_count (p : packet_pool_state) : Z :=
  count_from (Z.to_nat (buffer_count p)) 0 (fun i => state (buffers p i) =? NET_BUFFER_FREE).

Definition packet_pool_free_count (object : option Z) n w : Z :=
  match state_for object n w with
  | Some i => if revoked (pools n i) then 0 else free_count (pools n i)
  | None => 0
  end.

Definition packet_pool_active_count n : Z :=
  count_from (Z.to_nat PACKET_POOL_MAX) 0 (fun i => active (pools n i)).

End Pools.

(** ** Identifiers *)

Lemma buffer_id_value gen slot : is_u32 gen -> 0 <= slot < 64 -> buffer_id gen slot = gen * 2 ^ 32 + (slot + 1).
Proof. intros Hg Hs. unfold buffer_id, is_u32 in *. rewrite lor_shiftl_add by lia. done. Qed.

Lemma buffer_id_parts gen slot :
  is_u32 gen -> 0 <= slot < 64 ->
  u32 (buffer_id gen slot) = slot + 1 /\ u32 (Z.shiftr (buffer_id gen slot) 32) = gen /\ is_u64 (buffer_id gen slot).
Proof.
  intros Hg Hs. rewrite buffer_id_value by done. rewrite Z.shiftr_div_pow2 by lia.
  change (2 ^ 32) with 0x100000000. unfold is_u32 in Hg. split_and!; words.
Qed.

Lemma parts_buffer_id id : is_u64 id -> 0 < u32 id <= 64 -> id = buffer_id (u32 (Z.shiftr id 32)) (u32 id - 1).
Proof.
  intros Hid Hlo. rewrite buffer_id_value by (try apply u32_range; lia). rewrite Z.shiftr_div_pow2 by lia.
  change (2 ^ 32) with 0x100000000. words.
Qed.

Definition buffer_ok (p : packet_pool_state) (b : packet_buffer_state) : Prop :=
  0 < generation b < 0x100000000 /\ 0 <= state b <= NET_BUFFER_DRIVER_TX /\
  (revoked p = true -> state b = NET_BUFFER_FREE).

(** An active pool is well formed. *)
Record pool_ok (p : packet_pool_state) : Prop := {
  po_count : 0 < buffer_count p <= PACKET_POOL_BUFFER_MAX;
  po_next : 0 <= next_buffer p < buffer_count p;
  po_buffers : forall i, 0 <= i < buffer_count p -> buffer_ok p (buffers p i)
}.

Lemma buffer_for_spec p id slot :
  pool_ok p -> is_u64 id ->
  buffer_for p id = Some slot <->
  0 <= slot < buffer_count p /\ id = buffer_id (generation (buffers p slot)) slot /\
  state (buffers p slot) <> NET_BUFFER_FREE.
Proof.
  intros [[Hc Hc'] _ Hb] Hid. unfold PACKET_POOL_BUFFER_MAX in Hc'. unfold buffer_for. split.
  - intros Hx. destruct (_ || _ || _) eqn:Hg in Hx; [done|]. destruct (_ || _) eqn:Hs in Hx; [done|].
    injection Hx as <-. boolify.
    pose proof (u32_range id) as Hu. unfold is_u32 in Hu. split_and!; [lia|lia| |done].
    etrans; [apply parts_buffer_id; [done|lia]|]. congruence.
  - intros (Hs & -> & Hst). destruct (Hb slot Hs) as ([Hg1 Hg2] & _).
    destruct (buffer_id_parts (generation (buffers p slot)) slot) as (Hlo & Hhi & _); [unfold is_u32; lia|lia|].
    rewrite Hlo, Hhi, (proj2 (nz_true (slot + 1))), (proj2 (Z.ltb_ge _ _)), (proj2 (nz_true (generation _))) by lia.
    cbn [negb orb]. replace (slot + 1 - 1) with slot by lia.
    rewrite Z.eqb_refl, (proj2 (Z.eqb_neq _ _)) by done. done.
Qed.

(** ** Ownership *)

(** The state in which an identifier holds its buffer. *)
Definition owner (p : packet_pool_state) (id : Z) : option Z :=
  match buffer_for p id with
  | Some slot => Some (state (buffers p slot))
  | None => None
  end.

(** A pool whose buffer [slot] alone differs. *)
Record changed (p p' : packet_pool_state) (slot : Z) : Prop := {
  ch_count : buffer_count p' = buffer_count p;
  ch_slot : 0 <= slot < buffer_count p;
  ch_other : forall i, i <> slot -> buffers p' i = buffers p i
}.

Lemma set_buffer_changed slot b next p : 0 <= slot < buffer_count p -> changed p (set_buffer slot b next p) slot.
Proof.
  intros Hs. constructor; [done|done|]. intros i Hi. simpl. unfold upd. by rewrite (proj2 (Z.eqb_neq _ _)).
Qed.

Lemma set_buffer_ok slot b next p :
  pool_ok p -> buffer_ok p b -> 0 <= next < buffer_count p -> pool_ok (set_buffer slot b next p).
Proof.
  intros [Hc Hn Hb] Hnew Hnext. constructor; simpl; [done|done|]. intros i Hi. unfold upd.
  case_if; [done|]. apply Hb. done.
Qed.

(** The identifiers of other buffers are as they were. *)
Lemma owner_other p p' slot id :
  pool_ok p -> pool_ok p' -> changed p p' slot -> is_u64 id ->
  buffer_for p id <> Some slot -> buffer_for p' id <> Some slot -> owner p' id = owner p id.
Proof.
  intros Hp Hp' [Hc Hs Ho] Hid H1 H2. unfold owner.
  assert (forall s, buffer_for p' id = Some s <-> buffer_for p id = Some s) as Heq.
  { intros s. destruct (Z.eq_dec s slot) as [->|Hne]; [tauto|].
    rewrite !buffer_for_spec, Hc, Ho by done. done. }
  destruct (buffer_for p' id) as [s|] eqn:E'.
  - rewrite (proj1 (Heq s) eq_refl). f_equal. f_equal. apply Ho. congruence.
  - destruct (buffer_for p id) as [s|] eqn:E; [|done]. by specialize (proj2 (Heq s) eq_refl).
Qed.

Lemma retire_ok p b : buffer_ok p b -> buffer_ok p (retire b) /\ generation (retire b) <> generation b.
Proof.
  intros ([Hg Hg'] & _ & Hr). unfold retire, buffer_ok. simpl. unfold NET_BUFFER_FREE, NET_BUFFER_DRIVER_TX.
  destruct (nz (u32 (generation b + 1))) eqn:Hz; [apply nz_true in Hz|apply nz_false in Hz];
    (split; [split_and!; try done; words|words]).
Qed.

(** The ownership map after an operation. *)
Definition owner_upd (p : packet_pool_state) (id : Z) (v : option Z) (id' : Z) : option Z :=
  if id' =? id then v else owner p id'.

Definition valid_state (s : Z) : Prop := 0 < s <= NET_BUFFER_DRIVER_TX.

Lemma buffer_for_owner p id s :
  owner p id = Some s <-> exists slot, buffer_for p id = Some slot /\ state (buffers p slot) = s.
Proof.
  unfold owner. destruct (buffer_for p id) as [slot|]; split.
  - intros [= <-]. by exists slot.
  - intros (? & [= <-] & <-). done.
  - done.
  - by intros (? & ? & _).
Qed.

Lemma transition_owner id expected new p :
  pool_ok p -> is_u64 id -> 0 <= new ->
  let '(r, p') := packet_pool_transition_res id expected new p in
  pool_ok p' /\
  (r = 0 /\ owner p id = Some expected /\ valid_state new /\ free_count p' = free_count p /\
     (forall id', is_u64 id' -> owner p' id' = owner_upd p id (Some new) id') \/
   r = -1 /\ p' = p /\ (owner p id <> Some expected \/ ~ valid_state new)).
Proof.
  intros Hp Hid Hnew. unfold packet_pool_transition_res, valid_state, NET_BUFFER_DRIVER_TX.
  destruct (buffer_for p id) as [slot|] eqn:Hb.
  2: { split; [done|right]. split_and!; try done. left. unfold owner. by rewrite Hb. }
  assert (owner p id = Some (state (buffers p slot))) as Ho by (unfold owner; by rewrite Hb).
  pose proof Hb as (Hs & Heq & Hst)%buffer_for_spec; [|done|done]. unfold NET_BUFFER_FREE in *.
  destruct (po_buffers p Hp slot Hs) as (Hg & Hst' & Hrev).
  destruct (_ || _ || _ || _) eqn:Hg' in |- *.
  { split; [done|right]. split_and!; try done. rewrite !orb_true_iff, negb_true_iff, Z.eqb_eq, Z.eqb_neq, Z.ltb_lt in Hg'.
    destruct Hg' as [[[Hr|Hx]|Hx]|Hx]; [by specialize (Hrev Hr)|left|right|right]; [|lia|lia]. congruence. }
  boolify. assert (0 <= next_buffer p < buffer_count p) by (apply Hp).
  set (b' := Buffer _ _ _). assert (buffer_ok p b') as Hb'.
  { unfold b', buffer_ok, NET_BUFFER_DRIVER_TX. simpl. split_and!; try lia. congruence. }
  pose proof (set_buffer_ok slot b' _ p Hp Hb' ltac:(eassumption)) as Hp'. split; [done|left].
  split_and!; [done|congruence|lia|lia| |].
  - unfold free_count. simpl. apply count_from_ext. intros i _. unfold upd. case_if; [|done]. boolify. subst i. simpl.
    unfold NET_BUFFER_FREE. rewrite !(proj2 (Z.eqb_neq _ _)) by lia. done.
  - intros id' Hid'. unfold owner_upd. destruct (Z.eqb_spec id' id) as [->|Hne].
    + apply buffer_for_owner. exists slot. split; [|simpl; by rewrite upd_eq].
      apply buffer_for_spec; [done|done|]. simpl. rewrite upd_eq. simpl. split_and!; [lia|lia|done|].
      unfold NET_BUFFER_FREE. lia.
    + eapply owner_other; [done|done|by apply set_buffer_changed|done| |].
      * intros (_ & Hx & _)%buffer_for_spec; [congruence|done|done].
      * intros (_ & Hx & _)%buffer_for_spec; [|done|done]. simpl in Hx. rewrite upd_eq in Hx. simpl in Hx. congruence.
Qed.

Lemma buffer_for_slot p id s : buffer_for p id = Some s -> s = u32 id - 1.
Proof.
  unfold buffer_for. intros Hx. destruct (_ || _ || _) in Hx; [done|]. destruct (_ || _) in Hx; [done|]. congruence.
Qed.

Lemma free_count_set slot b next p :
  0 <= slot < buffer_count p ->
  free_count (set_buffer slot b next p) =
  free_count p - Z.b2z (state (buffers p slot) =? NET_BUFFER_FREE) + Z.b2z (state b =? NET_BUFFER_FREE).
Proof.
  intros Hs. unfold free_count. simpl.
  rewrite (count_from_upd _ _ (fun i => state (buffers p i) =? NET_BUFFER_FREE) _ slot), upd_eq; [done|lia|].
  intros i Hi. unfold upd. by rewrite (proj2 (Z.eqb_neq i slot)) by done.
Qed.

Lemma release_owner id expected p :
  pool_ok p -> is_u64 id ->
  let '(r, p') := packet_pool_release_res id expected p in
  pool_ok p' /\
  (r = 0 /\ owner p id = Some expected /\ free_count p' = free_count p + 1 /\
     (forall id', is_u64 id' -> owner p' id' = owner_upd p id None id') \/
   r = -1 /\ p' = p /\ owner p id <> Some expected).
Proof.
  intros Hp Hid. unfold packet_pool_release_res. destruct (buffer_for p id) as [slot|] eqn:Hb.
  2: { split; [done|right]. split_and!; try done. unfold owner. by rewrite Hb. }
  assert (owner p id = Some (state (buffers p slot))) as Ho by (unfold owner; by rewrite Hb).
  pose proof Hb as (Hs & Heq & Hst)%buffer_for_spec; [|done|done].
  destruct (Z.eqb_spec (state (buffers p slot)) expected) as [He|]; cbn [negb].
  2: { split; [done|right]. split_and!; try done. congruence. }
  destruct (retire_ok p _ (po_buffers p Hp slot Hs)) as [Hrok Hrg]. pose proof (po_next p Hp) as Hn.
  set (next := if slot <? next_buffer p then slot else next_buffer p).
  assert (pool_ok (set_buffer slot (retire (buffers p slot)) next p)) as Hp'
    by (apply set_buffer_ok; [done|done|unfold next; case_if; lia]).
  split; [done|left]. split_and!; [done|congruence| |].
  - rewrite free_count_set, (proj2 (Z.eqb_neq (state (buffers p slot)) _)) by done. simpl. lia.
  - assert (forall id', is_u64 id' -> buffer_for (set_buffer slot (retire (buffers p slot)) next p) id' <> Some slot)
      as Hfree by (intros id' Hid' (_ & _ & Hx)%buffer_for_spec; [|done|done]; simpl in Hx; by rewrite upd_eq in Hx).
    intros id' Hid'. unfold owner_upd. destruct (Z.eqb_spec id' id) as [->|Hne].
    + unfold owner. destruct (buffer_for (set_buffer _ _ _ _) id) as [s|] eqn:Hs'; [|done]. exfalso.
      apply (Hfree id Hid).
      rewrite Hs'. f_equal. by rewrite (buffer_for_slot _ _ _ Hs'), (buffer_for_slot _ _ _ Hb).
    + eapply owner_other; [done|done|by apply set_buffer_changed|done| |by apply Hfree].
      intros (_ & Hx & _)%buffer_for_spec; [congruence|done|done].
Qed.

Lemma acquire_owner new p :
  pool_ok p -> 0 <= new ->
  let '(r, p') := packet_pool_acquire_res new p in
  pool_ok p' /\
  match r with
  | Some id =>
      is_u64 id /\ id <> 0 /\ owner p id = None /\ valid_state new /\ free_count p' = free_count p - 1 /\
      (forall id', is_u64 id' -> owner p' id' = owner_upd p id (Some new) id')
  | None => p' = p /\ (revoked p = true \/ ~ valid_state new \/ free_count p = 0)
  end.
Proof.
  intros Hp Hnew. unfold packet_pool_acquire_res, valid_state, NET_BUFFER_FREE, NET_BUFFER_DRIVER_TX.
  destruct (_ || _ || _) eqn:Hg in |- *.
  { split; [done|]. split; [done|]. rewrite !orb_true_iff, Z.eqb_eq, Z.ltb_lt in Hg.
    destruct Hg as [[?|?]|?]; [by left|right; left; lia..]. }
  boolify. pose proof (po_next p Hp) as Hn. destruct (po_count p Hp) as [Hc Hc']. unfold PACKET_POOL_BUFFER_MAX in Hc'.
  destruct (scan_range _ _ _) as [off|] eqn:Hscan.
  2: { split; [done|]. split; [done|]. right. right. apply count_from_none. intros i Hi.
       rewrite scan_range_None in Hscan. specialize (Hscan ((i - next_buffer p) mod buffer_count p)).
       rewrite Zplus_mod_idemp_r in Hscan. replace (next_buffer p + (i - next_buffer p)) with i in Hscan by lia.
       rewrite (Z.mod_small i) in Hscan by lia. apply Hscan. apply Z.mod_pos_bound. lia. }
  apply scan_range_Some in Hscan as (Hoff & Hfree & _). set (slot := (next_buffer p + off) mod buffer_count p) in *.
  assert (0 <= slot < buffer_count p) as Hs by (apply Z.mod_pos_bound; lia). apply Z.eqb_eq in Hfree.
  destruct (po_buffers p Hp slot Hs) as ([Hg1 Hg2] & _).
  destruct (buffer_id_parts (generation (buffers p slot)) slot) as (Hlo & Hhi & Hid); [unfold is_u32; lia|lia|].
  set (id := buffer_id (generation (buffers p slot)) slot) in *. set (b' := Buffer _ _ _).
  assert (0 <= (slot + 1) mod buffer_count p < buffer_count p) by (apply Z.mod_pos_bound; lia).
  assert (pool_ok (set_buffer slot b' ((slot + 1) mod buffer_count p) p)) as Hp'.
  { apply set_buffer_ok; [done| |done]. unfold b', buffer_ok, NET_BUFFER_DRIVER_TX. simpl.
    split_and!; try lia. congruence. }
  assert (forall id', is_u64 id' -> buffer_for p id' <> Some slot) as Hno
    by (intros id' Hid' (_ & _ & Hx)%buffer_for_spec; done).
  split; [done|]. split_and!; [done| | |lia|lia| |].
  - intros Hz. rewrite Hz in Hlo. change (u32 0) with 0 in Hlo. lia.
  - unfold owner. destruct (buffer_for p id) as [s|] eqn:Hs'; [|done]. exfalso. apply (Hno id Hid).
    rewrite Hs'. f_equal. rewrite (buffer_for_slot _ _ _ Hs'), Hlo. lia.
  - rewrite free_count_set by done. unfold b', NET_BUFFER_FREE. simpl. rewrite Hfree, (proj2 (Z.eqb_neq new 0)) by lia.
    simpl. lia.
  - intros id' Hid'. unfold owner_upd. destruct (Z.eqb_spec id' id) as [->|Hne].
    + apply buffer_for_owner. exists slot. split; [|simpl; by rewrite upd_eq].
      apply buffer_for_spec; [done|done|]. simpl. rewrite upd_eq. unfold b', NET_BUFFER_FREE. simpl.
      split_and!; (done || lia).
    + eapply owner_other; [done|done|by apply set_buffer_changed|done|by apply Hno|].
      intros (_ & Hx & _)%buffer_for_spec; [|done|done]. simpl in Hx. rewrite upd_eq in Hx. by apply Hne.
Qed.

(** ** Lifetimes *)

(** What can happen to a pool between its creation and its destruction. *)
Inductive pool_step : packet_pool_state -> packet_pool_state -> Prop :=
  | step_acquire new p : 0 <= new -> pool_step p (snd (packet_pool_acquire_res new p))
  | step_transition id expected new p :
      is_u64 id -> 0 <= new -> pool_step p (snd (packet_pool_transition_res id expected new p))
  | step_release id expected p : is_u64 id -> pool_step p (snd (packet_pool_release_res id expected p))
  | step_revoke p :
      revoked p = false ->
      pool_step p (retire_all (buffer_count p)
        (Pool (backing p) (buffers p) (buffer_count p) (next_buffer p) true (active p) (phys p))).

(** The generation after [k] retirements of a buffer that had [g]. *)
Definition generation_after (g : Z) (k : nat) : Z := (g - 1 + Z.of_nat k) mod 0xFFFFFFFF + 1.

Lemma retire_generation g k b :
  generation b = generation_after g k -> generation (retire b) = generation_after g (S k).
Proof.
  intros He. unfold retire. simpl. rewrite He. unfold generation_after.
  destruct (nz _) eqn:Hz; [apply nz_true in Hz|apply nz_false in Hz]; words.
Qed.

(** The generation of a buffer depends only on how often it was retired. *)
Definition ages (p p' : packet_pool_state) : Prop :=
  buffer_count p' = buffer_count p /\
  forall i g k, generation (buffers p i) = generation_after g k ->
    exists d, retired (buffers p' i) = (retired (buffers p i) + d)%nat /\
      generation (buffers p' i) = generation_after g (k + d).

Lemma ages_refl p : ages p p.
Proof. split; [done|]. intros i g k Hg. exists 0%nat. by rewrite !Nat.add_0_r. Qed.

Lemma ages_trans p1 p2 p3 : ages p1 p2 -> ages p2 p3 -> ages p1 p3.
Proof.
  intros [Hc1 H1] [Hc2 H2]. split; [congruence|]. intros i g k Hg. destruct (H1 i g k Hg) as (d1 & Hr1 & Hg1).
  destruct (H2 i g (k + d1)%nat Hg1) as (d2 & Hr2 & Hg2). exists (d1 + d2)%nat. rewrite Hr2, Hr1, Hg2. split; [lia|].
  f_equal. lia.
Qed.

Lemma ages_set slot b next p :
  (generation b = generation (buffers p slot) /\ retired b = retired (buffers p slot) \/
   b = retire (buffers p slot)) ->
  ages p (set_buffer slot b next p).
Proof.
  intros Hb. split; [done|]. intros i g k Hg. simpl. unfold upd. destruct (Z.eqb_spec i slot) as [->|].
  - destruct Hb as [[Hbg Hbr]| ->].
    + exists 0%nat. rewrite !Nat.add_0_r. split; congruence.
    + exists 1%nat. split; [simpl; lia|]. rewrite Nat.add_1_r. by apply retire_generation.
  - exists 0%nat. by rewrite !Nat.add_0_r.
Qed.

Lemma step_ages p p' : pool_step p p' -> ages p p'.
Proof.
  destruct 1 as [new p Hn|id e new p Hid Hn|id e p Hid|p Hr].
  - unfold packet_pool_acquire_res. destruct (_ || _ || _); [apply ages_refl|].
    destruct (scan_range _ _ _); [apply ages_set; by left|apply ages_refl].
  - unfold packet_pool_transition_res. destruct (buffer_for p id); [|apply ages_refl].
    destruct (_ || _ || _ || _); [apply ages_refl|apply ages_set; by left].
  - unfold packet_pool_release_res. destruct (buffer_for p id); [|apply ages_refl].
    destruct (negb _); [apply ages_refl|apply ages_set; by right].
  - split; [done|]. intros i g k Hg. simpl. destruct (_ && _).
    + exists 1%nat. split; [simpl; lia|]. rewrite Nat.add_1_r. by apply retire_generation.
    + exists 0%nat. by rewrite !Nat.add_0_r.
Qed.

Lemma step_ok p p' : pool_step p p' -> pool_ok p -> pool_ok p'.
Proof.
  destruct 1 as [new p Hn|id e new p Hid Hn|id e p Hid|p Hr]; intros Hp.
  - pose proof (acquire_owner new p Hp Hn) as Ha. destruct (packet_pool_acquire_res new p). apply Ha.
  - pose proof (transition_owner id e new p Hp Hid Hn) as Ha.
    destruct (packet_pool_transition_res id e new p). apply Ha.
  - pose proof (release_owner id e p Hp Hid) as Ha. destruct (packet_pool_release_res id e p). apply Ha.
  - destruct Hp as [Hc Hn Hb]. constructor; simpl; [done|done|]. intros i Hi.
    rewrite (proj2 (Z.leb_le _ _)), (proj2 (Z.ltb_lt _ _)) by lia. cbn [andb].
    destruct (retire_ok p _ (Hb i Hi)) as [(Hg & _) _]. split; [done|]. simpl. unfold NET_BUFFER_FREE, NET_BUFFER_DRIVER_TX.
    split; [lia|done].
Qed.

Lemma steps_ok p p' : rtc pool_step p p' -> pool_ok p -> pool_ok p' /\ ages p p'.
Proof.
  induction 1 as [p|p p1 p2 Hs _ IH]; intros Hp; [split; [done|apply ages_refl]|].
  destruct (IH (step_ok _ _ Hs Hp)) as [Hp2 Ha]. split; [done|]. eapply ages_trans; [by apply step_ages|done].
Qed.

(** ** All pools *)

Section AllPools.

Context {W : Type} `{M : ResourceModules W}.
Implicit Types (n : net_pools) (w : W).

Definition pools_ok n : Prop :=
  0 < next_pool_generation n < 0x100000000 /\ forall i, active (pools n i) = true -> pool_ok (pools n i).

(** What the kernel does with the pools, in any order. *)
Inductive pools_step : net_pools * W -> net_pools * W -> Prop :=
  | ps_create count n w : is_u32 count ->
      pools_step (n, w) (snd (fst (packet_pool_create count n w)), snd (packet_pool_create count n w))
  | ps_destroy object n w : pools_step (n, w) (pool_destroy object n w)
  | ps_acquire object new n w : 0 <= new -> pools_step (n, w) (snd (packet_pool_acquire object new n w), w)
  | ps_transition object id expected new n w : is_u64 id -> 0 <= new ->
      pools_step (n, w) (snd (packet_pool_transition object id expected new n w), w)
  | ps_release object id expected n w : is_u64 id ->
      pools_step (n, w) (snd (packet_pool_release object id expected n w), w)
  | ps_revoke object n w :
      pools_step (n, w) (snd (fst (packet_pool_revoke object n w)), snd (packet_pool_revoke object n w))
  | ps_other n w w' : pools_step (n, w) (n, w').

Lemma set_pool_ok i p n :
  pools_ok n -> (active p = true -> pool_ok p) -> pools_ok (set_pool i p n).
Proof.
  intros [Hg Hp] Hnew. split; [done|]. intros j. simpl. unfold upd. case_if; [done|apply Hp].
Qed.

Lemma state_for_active object n w i : state_for object n w = Some i -> active (pools n i) = true.
Proof.
  unfold state_for. destruct object as [o|]; [|done]. destruct (_ || _ || _ || _); [done|].
  destruct (active _) eqn:Ha; [|done]. by intros [= <-].
Qed.

Lemma create_ok count n w : is_u32 count -> pools_ok n -> pools_ok (snd (fst (packet_pool_create count n w))).
Proof.
  intros Hcount Hn. pose proof Hn as [Hg Hp]. unfold packet_pool_create. destruct (_ || _) eqn:Hc; [done|].
  destruct (scan_range _ _ _) as [index|]; [|done].
  destruct (shared_memory_resource_create count w) as [[r|] w1]; [|done].
  destruct (object_create _ _ w1) as [o w2]. boolify. unfold is_u32 in Hcount.
  assert (forall bufs, (forall i, 0 <= i < count -> bufs i = Buffer (next_pool_generation n) NET_BUFFER_FREE (retired (bufs i))) ->
    forall b a ph, pool_ok (Pool b bufs count 0 false a ph)) as Hnew.
  { intros bufs Hbufs b a ph. constructor; simpl; [unfold PACKET_POOL_BUFFER_MAX in *; lia|lia|]. intros i Hi.
    rewrite Hbufs by done. unfold buffer_ok, NET_BUFFER_DRIVER_TX, NET_BUFFER_FREE. simpl. split_and!; (done || lia). }
  set (bufs := fun i => _). assert (forall i, 0 <= i < count ->
    bufs i = Buffer (next_pool_generation n) NET_BUFFER_FREE (retired (bufs i))) as Hbufs.
  { intros i Hi. unfold bufs. by rewrite (proj2 (Z.leb_le _ _)), (proj2 (Z.ltb_lt _ _)) by lia. }
  set (next := u32 (next_pool_generation n + 0x10000)).
  assert (0 < (if nz next then next else 0x10000) < 0x100000000)
    by (destruct (nz next) eqn:Hz; [apply nz_true in Hz; unfold next in *; words|lia]).
  destruct o as [o|]; (split; [done|]); intros j; simpl; unfold upd; (case_if; [|apply Hp]); simpl; intros ?; [|done].
  by apply Hnew.
Qed.

Lemma pools_step_ok s s' : pools_step s s' -> pools_ok (fst s) -> pools_ok (fst s').
Proof.
  destruct 1; cbn [fst]; intros Hn; [by apply create_ok| | | | | |done].
  - unfold pool_destroy. destruct object as [o|]; [|done]. destruct (_ || _); [done|].
    destruct (negb _); [done|]. by apply set_pool_ok.
  - unfold packet_pool_acquire. destruct (state_for object n w) as [i|] eqn:Hs; [|done].
    apply state_for_active in Hs. pose proof (step_acquire new (pools n i) ltac:(done)) as Hst.
    destruct (packet_pool_acquire_res new (pools n i)) as [r p'].
    apply set_pool_ok; [done|]. intros _. eapply step_ok; [exact Hst|by apply Hn].
  - unfold packet_pool_transition. destruct (state_for object n w) as [i|] eqn:Hs; [|done].
    apply state_for_active in Hs. pose proof (step_transition id expected new (pools n i) ltac:(done) ltac:(done)) as Hst.
    destruct (packet_pool_transition_res id expected new (pools n i)) as [r p'].
    apply set_pool_ok; [done|]. intros _. eapply step_ok; [exact Hst|by apply Hn].
  - unfold packet_pool_release. destruct (state_for object n w) as [i|] eqn:Hs; [|done].
    apply state_for_active in Hs. pose proof (step_release id expected (pools n i) ltac:(done)) as Hst.
    destruct (packet_pool_release_res id expected (pools n i)) as [r p'].
    apply set_pool_ok; [done|]. intros _. eapply step_ok; [exact Hst|by apply Hn].
  - unfold packet_pool_revoke. destruct (state_for object n w) as [i|] eqn:Hs; [|done].
    apply state_for_active in Hs. destruct (revoked (pools n i)) eqn:Hr; [done|].
    destruct (revoke_backing _ w) as [r w']. apply set_pool_ok; [done|]. intros _.
    eapply step_ok; [by apply (step_revoke (pools n i))|by apply Hn].
Qed.

Lemma pools_steps_ok s s' : rtc pools_step s s' -> pools_ok (fst s) -> pools_ok (fst s').
Proof. induction 1 as [|s1 s2 s3 Hst _ IH]; [done|]. intros Hok. by eapply IH, pools_step_ok. Qed.

Lemma init_pools_ok n : pools_ok (packet_pool_init n).
Proof. split; [simpl; lia|done]. Qed.

(** ** Properties *)

(** Every pool the kernel can reach is well formed: between one and
    sixty-four buffers, the search position one of them, and every buffer with
    a generation that is never zero and one of the seven states, free if the
    pool has been revoked. *)
Theorem packet_pools_well_formed n0 w0 n w i :
  rtc pools_step (packet_pool_init n0, w0) (n, w) -> active (pools n i) = true -> pool_ok (pools n i).
Proof.
  intros Hs Ha. apply (proj2 (pools_steps_ok _ _ Hs (init_pools_ok n0))), Ha.
Qed.

End AllPools.

(** C24: A pool is an ownership map from identifiers to states: acquiring
    gives a free buffer, whenever there is one, under an identifier nobody
    holds; a transition and a release succeed exactly for the holder of the
    identifier in the state it names; and no operation changes what any other
    identifier holds, nor the number of free buffers otherwise. *)
Theorem packet_pool_ownership p :
  pool_ok p ->
  (forall new, 0 <= new ->
     let '(r, p') := packet_pool_acquire_res new p in
     match r with
     | Some id =>
         is_u64 id /\ id <> 0 /\ owner p id = None /\ valid_state new /\ free_count p' = free_count p - 1 /\
         (forall id', is_u64 id' -> owner p' id' = owner_upd p id (Some new) id')
     | None => p' = p /\ (revoked p = true \/ ~ valid_state new \/ free_count p = 0)
     end) /\
  (forall id expected new, is_u64 id -> 0 <= new ->
     let '(r, p') := packet_pool_transition_res id expected new p in
     r = 0 /\ owner p id = Some expected /\ valid_state new /\ free_count p' = free_count p /\
       (forall id', is_u64 id' -> owner p' id' = owner_upd p id (Some new) id') \/
     r = -1 /\ p' = p /\ (owner p id <> Some expected \/ ~ valid_state new)) /\
  (forall id expected, is_u64 id ->
     let '(r, p') := packet_pool_release_res id expected p in
     r = 0 /\ owner p id = Some expected /\ free_count p' = free_count p + 1 /\
       (forall id', is_u64 id' -> owner p' id' = owner_upd p id None id') \/
     r = -1 /\ p' = p /\ owner p id <> Some expected).
Proof.
  intros Hp. split_and!.
  - intros new Hn. pose proof (acquire_owner new p Hp Hn) as Ha. destruct (packet_pool_acquire_res new p). apply Ha.
  - intros id e new Hid Hn. pose proof (transition_owner id e new p Hp Hid Hn) as Ha.
    destruct (packet_pool_transition_res id e new p). apply Ha.
  - intros id e Hid. pose proof (release_owner id e p Hp Hid) as Ha. destruct (packet_pool_release_res id e p). apply Ha.
Qed.

(** An identifier dies with its release: whatever is done with the pool
    after the buffer has been released or revoked, however often its slot is
    handed out again, the identifier holds nothing until the 32-bit generation
    has gone round. *)
Theorem packet_pool_stale p p' id slot :
  pool_ok p -> is_u64 id -> buffer_for p id = Some slot -> rtc pool_step p p' ->
  (retired (buffers p slot) < retired (buffers p' slot))%nat ->
  Z.of_nat (retired (buffers p' slot)) < Z.of_nat (retired (buffers p slot)) + 0xFFFFFFFF ->
  owner p' id = None.
Proof.
  intros Hp Hid Hb Hst Hlt Hbound. destruct (steps_ok _ _ Hst Hp) as [Hp' [Hc Hage]].
  apply buffer_for_spec in Hb as Hb1; [|done|done]. destruct Hb1 as (Hs & Heq & _).
  unfold owner. destruct (buffer_for p' id) as [s|] eqn:Hb'; [|done]. exfalso.
  assert (s = slot) as -> by (rewrite (buffer_for_slot _ _ _ Hb'), (buffer_for_slot _ _ _ Hb); done).
  apply buffer_for_spec in Hb' as (_ & Heq' & _); [|done|done].
  destruct (po_buffers p Hp slot Hs) as ([Hg1 Hg2] & _). rewrite <- Hc in Hs.
  destruct (po_buffers p' Hp' slot Hs) as ([Hg1' Hg2'] & _).
  destruct (po_count p' Hp') as [_ Hcount]. unfold PACKET_POOL_BUFFER_MAX in Hcount.
  assert (generation (buffers p slot) = generation (buffers p' slot)) as Hsame.
  { destruct (buffer_id_parts (generation (buffers p slot)) slot) as (_ & H1 & _); [unfold is_u32; lia|lia|].
    destruct (buffer_id_parts (generation (buffers p' slot)) slot) as (_ & H2 & _); [unfold is_u32; lia|lia|]. congruence. }
  destruct (Hage slot (generation (buffers p slot)) 0%nat) as (d & Hr & Hg); [unfold generation_after; dmlia|].
  rewrite <- Hsame in Hg. unfold generation_after in Hg. simpl in Hg. dmlia.
Qed.

(** ** Instances *)

Definition example_pool : packet_pool_state :=
  Pool (Some 1) (fun _ => Buffer 0x10000 NET_BUFFER_FREE 0) 2 0 false true (fun i => 0x1000 * (i + 1)).

Lemma example_pool_ok : pool_ok example_pool.
Proof.
  constructor; unfold PACKET_POOL_BUFFER_MAX; simpl; [lia|lia|]. intros i _. unfold buffer_ok, NET_BUFFER_DRIVER_TX.
  simpl. unfold NET_BUFFER_FREE. split_and!; (done || lia).
Qed.

Definition example_id : Z := 0x1000000000001.

(** Modules whose every call succeeds. *)
#[local] Instance example_modules : ResourceModules unit := {
  object_at _ _ := Object.KernelObject KOBJECT_PACKET_POOL 1 1 1 true;
  physical _ _ := Some (fun i => 0x1000 * (i + 1));
  resource_revoked _ _ := false;
  shared_memory_resource_create _ w := (Some 7, w);
  page_resource_revoke _ w := (0, w);
  object_create _ _ w := (Some 9, w);
  object_release _ w := w
}.

Definition example_pools : net_pools :=
  snd (fst (packet_pool_create 4 (packet_pool_init (Pools (fun _ => example_pool) 0)) tt)).

Lemma packet_pools_well_formed_witness :
  active (pools example_pools 0) = true /\ pool_ok (pools example_pools 0).
Proof.
  split; [vm_compute; reflexivity|].
  apply (packet_pools_well_formed (Pools (fun _ => example_pool) 0) tt example_pools tt).
  - apply rtc_once. refine (ps_create 4 (packet_pool_init (Pools (fun _ => example_pool) 0)) tt _). vm_compute. split; [discriminate|reflexivity].
  - vm_compute. reflexivity.
Defined.

Lemma packet_pool_ownership_witness :
  let p' := snd (packet_pool_acquire_res 1 example_pool) in
  fst (packet_pool_acquire_res 1 example_pool) = Some example_id /\
  owner example_pool example_id = None /\ owner p' example_id = Some 1 /\ free_count p' = 1.
Proof.
  pose proof (proj1 (packet_pool_ownership example_pool example_pool_ok) 1 ltac:(lia)) as Ha.
  destruct (packet_pool_acquire_res 1 example_pool) as [r p'] eqn:He.
  assert (r = Some example_id) as -> by (apply (f_equal fst) in He; vm_compute in He; by rewrite <- He).
  destruct Ha as (Hid & _ & Hno & _ & Hf & Ho). split; [reflexivity|]. split; [exact Hno|].
  split; [rewrite Ho by exact Hid; reflexivity|etrans; [exact Hf|reflexivity]].
Defined.

Lemma packet_pool_stale_witness :
  let p := snd (packet_pool_acquire_res 1 example_pool) in
  let p' := snd (packet_pool_acquire_res 1 (snd (packet_pool_release_res example_id 1 p))) in
  fst (packet_pool_acquire_res 1 (snd (packet_pool_release_res example_id 1 p))) = Some 0x1000100000001 /\
  owner p' example_id = None.
Proof.
  cbv zeta. split; [vm_compute; reflexivity|].
  apply (packet_pool_stale (snd (packet_pool_acquire_res 1 example_pool)) _ example_id 0).
  - apply (step_ok example_pool); [apply step_acquire; lia|exact example_pool_ok].
  - vm_compute. split; [discriminate|reflexivity].
  - reflexivity.
  - eapply rtc_l; [apply (step_release example_id 1); vm_compute; split; [discriminate|reflexivity]|].
    apply rtc_once, step_acquire. lia.
  - vm_compute. lia.
  - vm_compute. reflexivity.
Defined.

End NetBuffer.
