(* ===== verification/Ring.v ===== *)
(** Descriptor rings: [src/objects/ring.c].

    A ring keeps its producer and consumer counters in kernel memory and shows
    them to its users in a header at the start of the shared pages, which the
    kernel only writes.  The static array [rings] is a function of the index;
    the page resources and the object table are the interface of Resource.v,
    and writing the shared header is the operation [write_header] of the rest
    of the system. *)

From S2P Require Import Prelude Object Resource.

Module Ring.

Import Resource.

Definition RING_MAX : Z := 16.

Definition RING_CAPACITY_MAX : Z := 128.

Definition RING_DESCRIPTOR_MIN : Z := 16.

Definition RING_DESCRIPTOR_MAX : Z := 256.

Definition RING_SHARED_HEADER_SIZE : Z := 64.

Definition RESOURCE_PAGE_PAGES_MAX : Z := 64.

Definition KOBJECT_RING : Z := 13.

Record ring_resource := RingResource {
  backing : option Z;
  producer : Z;
  consumer : Z;
  generation : Z;
  capacity : Z;
  descriptor_size : Z;
  data_offset : Z;
  pages : Z;
  revoked : bool;
  active : bool;
  phys : Z -> Z
}.

(** The fields of [struct ring_shared_header] that are not always zero. *)
Record ring_shared_header := SharedHeader {
  h_producer : Z;
  h_consumer : Z;
  h_generation : Z;
  h_capacity : Z;
  h_descriptor_size : Z;
  h_flags : Z;
  h_data_offset : Z
}.

Definition set_counters (p c : Z) (r : ring_resource) : ring_resource :=
  RingResource (backing r) p c (generation r) (capacity r) (descriptor_size r) (data_offset r) (pages r)
    (revoked r) (active r) (phys r).

Definition blank (r : ring_resource) : ring_resource :=
  RingResource None 0 0 0 0 0 0 0 false false (phys r).

Definition header_of (r : ring_resource) : ring_shared_header :=
  SharedHeader (producer r) (consumer r) (generation r) (capacity r) (descriptor_size r)
    (if revoked r then 1 else 0) (data_offset r).

(** The counters go back to zero, when the ring is empty, before they wrap. *)
Definition rebase_if_empty (count : Z) (r : ring_resource) : Z * ring_resource :=
  if producer r <=? 0xFFFFFFFFFFFFFFFF - count then (0, r) else
  if negb (producer r =? consumer r) then (-1, r)
  else (0, set_counters 0 0 r).

(** The null pointer is [None]. *)
Definition ring_resource_descriptor_res (position : Z) (r : ring_resource) : option Z :=
  if revoked r then None else
  let slot := Z.land position (capacity r - 1) in
  let byte := u64 (data_offset r + slot * descriptor_size r) in
  let page := u32 (byte / 4096) in
  let offset := u32 (Z.land byte 0xFFF) in
  if (pages r <=? page) || (4096 - offset <? descriptor_size r) then None else
  if negb (nz (phys r page)) then None else Some (phys r page + offset).

Section Rings.

Context {W : Type} `{M : ResourceModules W} (write_header : Z -> ring_shared_header -> W -> W).
Implicit Types (rings : Z -> ring_resource) (w : W).

(** [shared_header] answers [phys[0]], the null pointer being 0. *)
Definition sync_header (r : ring_resource) w : W :=
  if nz (phys r 0) then write_header (phys r 0) (header_of r) w else w.

Definition revoke_ring (r : ring_resource) w : Z * ring_resource * W :=
  if negb (active r) || revoked r then (-1, r, w) else
  let g := u32 (generation r + 1) in
  let r := RingResource (backing r) 0 0 (if nz g then g else 1) (capacity r) (descriptor_size r) (data_offset r)
             (pages r) true (active r) (phys r) in
  let w := sync_header r w in
  match backing r with
  | None => (-1, r, w)
  | Some b =>
      match physical w b with
      | None => (-1, r, w)
      | Some _ =>
          if resource_revoked w b then (0, r, w) else
          let '(code, w) := page_resource_revoke b w in (code, r, w)
      end
  end.

Definition ring_destroy (object : option Z) rings w : (Z -> ring_resource) * W :=
  match object with
  | None => (rings, w)
  | Some o =>
      let v := Object.value (object_at w o) in
      if negb (nz v) || (RING_MAX <? v) then (rings, w) else
      let index := v - 1 in
      let r := rings index in
      if negb (active r) then (rings, w) else
      let '(r, w) := if revoked r then (r, w) else let '(_, r, w) := revoke_ring r w in (r, w) in
      let w := match backing r with Some b => object_release b w | None => w end in
      (upd rings index (blank r), w)
  end.

Definition ring_init rings : Z -> ring_resource := fun i => blank (rings i).

(** The tests of the two sizes. *)
Definition sizes_valid (cap size : Z) : bool :=
  negb ((cap <? 2) || (RING_CAPACITY_MAX <? cap) || nz (Z.land cap (cap - 1)) ||
        (size <? RING_DESCRIPTOR_MIN) || (RING_DESCRIPTOR_MAX <? size) || nz (Z.land size (size - 1))).

Definition data_start (size : Z) : Z :=
  if RING_SHARED_HEADER_SIZE <? size then size else RING_SHARED_HEADER_SIZE.

Definition page_total (cap size : Z) : Z := (data_start size + cap * size + 4095) / 4096.

Definition ring_resource_create (cap size : Z) rings w : option Z * (Z -> ring_resource) * W :=
  if negb (sizes_valid cap size) then (None, rings, w) else
  let count := page_total cap size in
  if negb (nz count) || (RESOURCE_PAGE_PAGES_MAX <? count) then (None, rings, w) else
  match scan_range 0 RING_MAX (fun i => negb (active (rings i))) with
  | None => (None, rings, w)
  | Some index =>
      let '(b, w) := shared_memory_resource_create count w in
      match b with
      | None => (None, rings, w)
      | Some b =>
          let addresses := fun i => if (0 <=? i) && (i <? count)
            then match physical w b with Some a => a i | None => 0 end else phys (rings index) i in
          let '(object, w) := object_create KOBJECT_RING (index + 1) w in
          match object with
          | None =>
              (None, upd rings index (RingResource None 0 0 1 cap size (data_start size) count false false addresses),
               object_release b w)
          | Some o =>
              let r := RingResource (Some b) 0 0 1 cap size (data_start size) count false true addresses in
              (Some o, upd rings index r, sync_header r w)
          end
      end
  end.

Definition ring_resource_get (object : option Z) rings w : option Z :=
  match object with
  | None => None
  | Some o =>
      let obj := object_at w o in
      if negb (Object.active obj) || negb (Object.type obj =? KOBJECT_RING) || negb (nz (Object.value obj)) ||
         (RING_MAX <? Object.value obj)
      then None else
      let index := Object.value obj - 1 in
      if active (rings index) then Some index else None
  end.

Definition ring_resource_backing (object : option Z) rings w : option Z :=
  match ring_resource_get object rings w with
  | Some i => if revoked (rings i) then None else backing (rings i)
  | None => None
  end.

(** The body of [ring_resource_submit] on a ring. *)
Definition submit (count : Z) (r : ring_resource) w : Z * ring_resource * W :=
  if revoked r || negb (nz count) || (capacity r <? count) then (-1, r, w) else
  let occupied := u64 (producer r - consumer r) in
  if (capacity r <? occupied) || (capacity r - occupied <? count) then (-1, r, sync_header r w) else
  let '(e, r) := rebase_if_empty count r in
  if nz e then (-1, r, sync_header r w) else
  let r := set_counters (u64 (producer r + count)) (consumer r) r in
  (0, r, sync_header r w).

Definition consume (count : Z) (r : ring_resource) w : Z * ring_resource * W :=
  if revoked r || negb (nz count) then (-1, r, w) else
  let available := u64 (producer r - consumer r) in
  if (capacity r <? available) || (available <? count) then (-1, r, sync_header r w) else
  let r := set_counters (producer r) (u64 (consumer r + count)) r in
  (0, r, sync_header r w).

Definition on_ring (f : ring_resource -> W -> Z * ring_resource * W) (object : option Z) rings w :
    Z * (Z -> ring_resource) * W :=
  match ring_resource_get object rings w with
  | None => (-1, rings, w)
  | Some i => let '(code, r, w) := f (rings i) w in (code, upd rings i r, w)
  end.

Definition ring_resource_submit (object : option Z) (count : Z) rings w : Z * (Z -> ring_resource) * W :=
  on_ring (submit count) object rings w.

Definition ring_resource_consume (object : option Z) (count : Z) rings w : Z * (Z -> ring_resource) * W :=
  on_ring (consume count) object rings w.

Definition ring_resource_revoke (object : option Z) rings w : Z * (Z -> ring_resource) * W :=
  on_ring revoke_ring object rings w.

Definition ring_resource_descriptor (object : option Z) (position : Z) rings w : option Z :=
  match ring_resource_get object rings w with
  | Some i => ring_resource_descriptor_res position (rings i)
  | None => None
  end.

Definition ring_active_count rings : Z := count_from (Z.to_nat RING_MAX) 0 (fun i => active (rings i)).

(** ** The invariant *)

Record ring_ok (r : ring_resource) : Prop := {
  ro_sizes : sizes_valid (capacity r) (descriptor_size r) = true;
  ro_start : data_offset r = data_start (descriptor_size r);
  ro_pages : pages r = page_total (capacity r) (descriptor_size r);
  ro_counters : 0 <= consumer r <= producer r /\ producer r < 2 ^ 64;
  ro_occupied : producer r - consumer r <= capacity r;
  ro_revoked : revoked r = true -> producer r = 0
}.

Definition rings_ok rings : Prop := forall i, active (rings i) = true -> ring_ok (rings i).

End Rings.

Lemma capacity_cases cap size :
  sizes_valid cap size = true ->
  cap ∈ [2; 4; 8; 16; 32; 64; 128] /\ size ∈ [16; 32; 64; 128; 256].
Proof.
  unfold sizes_valid, RING_CAPACITY_MAX, RING_DESCRIPTOR_MIN, RING_DESCRIPTOR_MAX. intros Hv. boolify.
  assert (forall l : list Z, forall lo n : nat,
    forallb (fun d => nz (Z.land d (d - 1)) || bool_decide (d ∈ l)) (map Z.of_nat (seq lo n)) = true ->
    forall d, Z.of_nat lo <= d < Z.of_nat (lo + n) -> Z.land d (d - 1) = 0 -> d ∈ l) as Henum.
  { intros l lo n Hall d Hd Hz. rewrite forallb_forall in Hall. specialize (Hall d).
    rewrite (proj2 (nz_false _) Hz) in Hall. simpl in Hall. apply (bool_decide_eq_true_1 (d ∈ l)), Hall.
    apply in_map_iff. exists (Z.to_nat d). rewrite in_seq. lia. }
  split; [apply (Henum _ 2%nat 127%nat)|apply (Henum _ 16%nat 241%nat)]; (done || lia || (vm_compute; reflexivity)).
Qed.

(** The byte offset of a descriptor in the shared pages. *)
Definition descriptor_byte (r : ring_resource) (position : Z) : Z :=
  data_offset r + position mod capacity r * descriptor_size r.

(** It lies in one page of the ring, behind the header. *)
Lemma descriptor_place r position :
  ring_ok r -> 0 <= position ->
  let byte := descriptor_byte r position in
  Z.land position (capacity r - 1) = position mod capacity r /\
  RING_SHARED_HEADER_SIZE <= byte /\ byte < 2 ^ 32 /\ 0 <= byte / 4096 < pages r /\
  byte mod 4096 + descriptor_size r <= 4096.
Proof.
  intros [Hs Hd Hp _ _ _] Hpos. destruct (capacity_cases _ _ Hs) as [Hc Hz].
  unfold descriptor_byte, page_total, data_start, RING_SHARED_HEADER_SIZE in *. rewrite Hp, Hd.
  assert (exists k, 0 <= k /\ capacity r = 2 ^ k) as (k & Hk & Hck).
  { rewrite !elem_of_cons, elem_of_nil in Hc.
    destruct Hc as [->|[->|[->|[->|[->|[->|[->|[]]]]]]]];
      [by exists 1|by exists 2|by exists 3|by exists 4|by exists 5|by exists 6|by exists 7]. }
  split; [rewrite Hck; replace (2 ^ k - 1) with (Z.ones k) by (rewrite Z.ones_equiv; lia); by apply Z.land_ones|].
  assert (0 <= position mod capacity r < capacity r) as Hm by (apply Z.mod_pos_bound; lia).
  assert (capacity r <= 128) as Hc128 by (rewrite !elem_of_cons, elem_of_nil in Hc; lia).
  clear Hc Hck Hs Hd Hp. rewrite !elem_of_cons, elem_of_nil in Hz.
  destruct Hz as [->|[->|[->|[->|[->|[]]]]]]; simpl; split_and!; dmlia.
Qed.

Lemma descriptor_address r position :
  ring_ok r -> 0 <= position -> revoked r = false ->
  ring_resource_descriptor_res position r =
  let page := descriptor_byte r position / 4096 in
  if nz (phys r page) then Some (phys r page + descriptor_byte r position mod 4096) else None.
Proof.
  intros Hok Hpos Hr. destruct (descriptor_place r position Hok Hpos) as (Hs & Hlo & Hhi & Hpg & Hoff).
  unfold ring_resource_descriptor_res. rewrite Hr, Hs. fold (descriptor_byte r position).
  unfold RING_SHARED_HEADER_SIZE in Hlo. set (byte := descriptor_byte r position) in *.
  rewrite (u64_small byte) by (unfold is_u64; lia). change 0xFFF with (Z.ones 12). rewrite Z.land_ones by lia.
  change (2 ^ 12) with 4096. rewrite !u32_small by (unfold is_u32; dmlia).
  rewrite (proj2 (Z.leb_gt _ _)), (proj2 (Z.ltb_ge _ _)) by lia. cbn [orb]. by destruct (nz _).
Qed.

(** ** Preservation *)

Section Preserved.

Context {W : Type} `{M : ResourceModules W} (write_header : Z -> ring_shared_header -> W -> W).
Implicit Types (rings : Z -> ring_resource) (w : W).

Lemma submit_spec count r w :
  ring_ok r -> is_u32 count ->
  let '(code, r', w') := submit write_header count r w in
  ring_ok r' /\ active r' = active r /\
  (code = 0 /\ 0 < count /\ producer r' - consumer r' = producer r - consumer r + count /\
     w' = sync_header write_header r' w \/
   code = -1 /\ r' = r /\
     (revoked r = true \/ count = 0 \/ capacity r < producer r - consumer r + count \/
      2 ^ 64 <= producer r + count /\ producer r <> consumer r)).
Proof.
  intros Hok [Hc0 Hc1]. pose proof Hok as [Hs Hd Hp Hcnt Hocc Hrev]. unfold submit.
  assert (2 <= capacity r <= 128) as Hcap.
  { destruct (capacity_cases _ _ Hs) as [Hc _]. rewrite !elem_of_cons, elem_of_nil in Hc. lia. }
  rewrite u64_small by (unfold is_u64; lia).
  destruct (revoked r) eqn:Hr; cbn [orb]; [split_and!; try done; right; by auto|].
  destruct (nz count) eqn:Hz; cbn [negb orb]; [apply nz_true in Hz|apply nz_false in Hz; split_and!; try done; right; by auto].
  destruct (Z.ltb_spec (capacity r) count); [split_and!; try done; right; split_and!; try done; lia|].
  rewrite (proj2 (Z.ltb_ge (capacity r) _)) by lia. cbn [orb].
  destruct (Z.ltb_spec (capacity r - (producer r - consumer r)) count);
    [split_and!; try done; right; split_and!; try done; lia|].
  unfold rebase_if_empty. destruct (Z.leb_spec (producer r) (0xFFFFFFFFFFFFFFFF - count)); cbn iota.
  - change (nz 0) with false. cbn iota. simpl. rewrite u64_small by (unfold is_u64; lia).
    split_and!; [|done|left; split_and!; (done || lia)]. constructor; simpl; try done; try lia. congruence.
  - destruct (Z.eqb_spec (producer r) (consumer r)); cbn [negb].
    + change (nz 0) with false. cbn iota. simpl. rewrite u64_small by (unfold is_u64; lia).
      split_and!; [|done|left; split_and!; (done || lia)]. constructor; simpl; try done; try lia. congruence.
    + change (nz (-1)) with true. cbn iota. split_and!; try done. right. split_and!; try done. lia.
Qed.

Lemma consume_spec count r w :
  ring_ok r -> is_u32 count ->
  let '(code, r', w') := consume write_header count r w in
  ring_ok r' /\ active r' = active r /\
  (code = 0 /\ 0 < count /\ producer r' = producer r /\ consumer r' = consumer r + count /\
     w' = sync_header write_header r' w \/
   code = -1 /\ r' = r /\ (revoked r = true \/ count = 0 \/ producer r - consumer r < count)).
Proof.
  intros Hok [Hc0 Hc1]. pose proof Hok as [Hs Hd Hp Hcnt Hocc Hrev]. unfold consume.
  rewrite u64_small by (unfold is_u64; lia).
  destruct (revoked r) eqn:Hr; cbn [orb]; [split_and!; try done; right; by auto|].
  destruct (nz count) eqn:Hz; cbn [negb orb]; [apply nz_true in Hz|apply nz_false in Hz; split_and!; try done; right; by auto].
  rewrite (proj2 (Z.ltb_ge (capacity r) _)) by lia. cbn [orb].
  destruct (Z.ltb_spec (producer r - consumer r) count); [split_and!; try done; right; split_and!; try done; lia|].
  rewrite u64_small by (unfold is_u64; lia).
  split_and!; [|done|left; split_and!; (done || lia)]. constructor; simpl; try done; try lia. congruence.
Qed.

Lemma revoke_spec r w :
  ring_ok r -> let '(_, r', _) := revoke_ring write_header r w in ring_ok r' /\ active r' = active r.
Proof.
  intros Hok. unfold revoke_ring. destruct (_ || _); [done|].
  set (r1 := RingResource _ _ _ _ _ _ _ _ _ _ _).
  assert (ring_ok r1) as Hok1 by (destruct Hok; constructor; simpl; try done; try lia;
    destruct (capacity_cases _ _ ltac:(eassumption)) as [Hc _]; rewrite !elem_of_cons, elem_of_nil in Hc; lia).
  destruct (backing r1) as [b|]; [|done]. destruct (physical _ b); [|done].
  destruct (resource_revoked _ b); [done|]. by destruct (page_resource_revoke b _).
Qed.

Lemma upd_ok rings i r : rings_ok rings -> (active r = true -> ring_ok r) -> rings_ok (upd rings i r).
Proof. intros Hr Hnew j. unfold upd. case_if; [done|apply Hr]. Qed.

Lemma ring_get_active object rings w i : ring_resource_get object rings w = Some i -> active (rings i) = true.
Proof.
  unfold ring_resource_get. destruct object as [o|]; [|done]. destruct (_ || _ || _ || _); [done|].
  destruct (active _) eqn:Ha; [|done]. by intros [= <-].
Qed.

Lemma on_ring_ok f object rings w :
  (forall r w, ring_ok r -> let '(_, r', _) := f r w in ring_ok r' /\ active r' = active r) ->
  rings_ok rings -> rings_ok (snd (fst (on_ring f object rings w))).
Proof.
  intros Hf Hok. unfold on_ring. destruct (ring_resource_get object rings w) as [i|] eqn:Hg; [|done].
  apply ring_get_active in Hg. specialize (Hf (rings i) w (Hok i Hg)). destruct (f (rings i) w) as [[code r] w'].
  apply upd_ok; [done|]. intros _. apply Hf.
Qed.

Lemma create_rings_ok cap size rings w :
  rings_ok rings -> rings_ok (snd (fst (ring_resource_create write_header cap size rings w))).
Proof.
  intros Hok. unfold ring_resource_create. destruct (sizes_valid cap size) eqn:Hs; [|done]. cbn [negb].
  destruct (_ || _); [done|]. destruct (scan_range _ _ _) as [i|]; [|done].
  destruct (shared_memory_resource_create _ w) as [[b|] w1]; [|done].
  destruct (object_create _ _ w1) as [[o|] w2]; (apply upd_ok; [done|]); [|done].
  intros _. destruct (capacity_cases _ _ Hs) as [Hc _]. rewrite !elem_of_cons, elem_of_nil in Hc.
  constructor; simpl; try done; lia.
Qed.

Lemma destroy_rings_ok object rings w : rings_ok rings -> rings_ok (fst (ring_destroy write_header object rings w)).
Proof.
  intros Hok. unfold ring_destroy. destruct object as [o|]; [|done]. destruct (_ || _); [done|].
  destruct (negb _); [done|]. destruct (revoked _); [by apply upd_ok|].
  destruct (revoke_ring _ _ _) as [[code r] w1]. by apply upd_ok.
Qed.

(** What the kernel does with the rings, in any order. *)
Inductive rings_step : (Z -> ring_resource) * W -> (Z -> ring_resource) * W -> Prop :=
  | rs_create cap size rings w :
      rings_step (rings, w)
        (snd (fst (ring_resource_create write_header cap size rings w)),
         snd (ring_resource_create write_header cap size rings w))
  | rs_destroy object rings w : rings_step (rings, w) (ring_destroy write_header object rings w)
  | rs_submit object count rings w : is_u32 count ->
      rings_step (rings, w)
        (snd (fst (ring_resource_submit write_header object count rings w)),
         snd (ring_resource_submit write_header object count rings w))
  | rs_consume object count rings w : is_u32 count ->
      rings_step (rings, w)
        (snd (fst (ring_resource_consume write_header object count rings w)),
         snd (ring_resource_consume write_header object count rings w))
  | rs_revoke object rings w :
      rings_step (rings, w)
        (snd (fst (ring_resource_revoke write_header object rings w)),
         snd (ring_resource_revoke write_header object rings w))
  | rs_other rings w w' : rings_step (rings, w) (rings, w').

Lemma rings_step_ok s s' : rings_step s s' -> rings_ok (fst s) -> rings_ok (fst s').
Proof.
  destruct 1; cbn [fst]; intros Hok; [by apply create_rings_ok|by apply destroy_rings_ok| | | |done].
  - apply on_ring_ok; [|done]. intros r w0 Hr. pose proof (submit_spec count r w0 Hr ltac:(done)) as Hs.
    destruct (submit _ _ _ _) as [[code r'] w']. by destruct Hs as (? & ? & _).
  - apply on_ring_ok; [|done]. intros r w0 Hr. pose proof (consume_spec count r w0 Hr ltac:(done)) as Hs.
    destruct (consume _ _ _ _) as [[code r'] w']. by destruct Hs as (? & ? & _).
  - apply on_ring_ok; [|done]. intros r w0 Hr. by apply revoke_spec.
Qed.

Lemma rings_steps_ok s s' : rtc rings_step s s' -> rings_ok (fst s) -> rings_ok (fst s').
Proof. induction 1 as [|s1 s2 s3 Hst _ IH]; [done|]. intros Hok. by eapply IH, rings_step_ok. Qed.

(** ** Properties *)

(** Descriptors stay where they belong: on every ring the kernel can
    reach, the descriptor of any position lies within one of the ring's shared
    pages and behind the shared header, and two positions both submitted and
    not yet consumed never share a byte. *)
Theorem ring_descriptors_safe rings0 w0 rings w i :
  rtc rings_step (ring_init rings0, w0) (rings, w) -> active (rings i) = true -> revoked (rings i) = false ->
  let r := rings i in
  forall a, 0 <= a ->
    RING_SHARED_HEADER_SIZE <= descriptor_byte r a /\
    descriptor_byte r a + descriptor_size r <= pages r * 4096 /\
    descriptor_byte r a mod 4096 + descriptor_size r <= 4096 /\
    ring_resource_descriptor_res a r =
      (let page := descriptor_byte r a / 4096 in
       if nz (phys r page) then Some (phys r page + descriptor_byte r a mod 4096) else None) /\
    forall b, consumer r <= a < b -> b < producer r ->
      descriptor_byte r a + descriptor_size r <= descriptor_byte r b \/
      descriptor_byte r b + descriptor_size r <= descriptor_byte r a.
Proof.
  intros Hs Ha Hr r p Hp. assert (ring_ok r) as Hok by (by apply (rings_steps_ok _ _ Hs)).
  destruct (descriptor_place r p Hok Hp) as (_ & Hlo & _ & Hpg & Hoff). split_and!; [done|dmlia|done| |].
  - by apply descriptor_address.
  - intros q Hq Hqp. pose proof Hok as [Hsz _ _ Hcnt Hocc _]. unfold descriptor_byte.
    destruct (capacity_cases _ _ Hsz) as [Hc Hz]. rewrite !elem_of_cons, elem_of_nil in Hc. rewrite !elem_of_cons, elem_of_nil in Hz.
    assert (0 < descriptor_size r) by lia. assert (0 < capacity r) as Hcap by lia. clear Hc Hz.
    assert (p mod capacity r <> q mod capacity r) as Hne.
    { intros Heq. pose proof (Z.div_mod p (capacity r) ltac:(lia)). pose proof (Z.div_mod q (capacity r) ltac:(lia)).
      assert (q - p = capacity r * (q / capacity r - p / capacity r)) as Hk by (rewrite Z.mul_sub_distr_l; lia).
      assert (0 < q - p < capacity r) as Hqp' by lia. rewrite Hk in Hqp'. revert Hqp' Hcap. clear.
      generalize (q / capacity r - p / capacity r). intros k Hd Hc.
      assert (k <= 0 \/ 1 <= k) as [?|?] by lia; nia. }
    nia.
Qed.

(** The counters never overflow and never run ahead of each other: on
    every reachable ring the consumer is at or behind the producer by at most
    the capacity, submitting succeeds exactly when the descriptors fit and the
    counters can grow, consuming exactly when there are that many, and the
    shared header is written with the new counters. *)
Theorem ring_counters_correct rings0 w0 rings w i count :
  rtc rings_step (ring_init rings0, w0) (rings, w) -> active (rings i) = true -> is_u32 count ->
  let r := rings i in
  (0 <= consumer r <= producer r /\ producer r < 2 ^ 64 /\ producer r - consumer r <= capacity r) /\
  (let '(code, r', w') := submit write_header count r w in
   code = 0 /\ 0 < count /\ producer r' - consumer r' = producer r - consumer r + count /\
     w' = sync_header write_header r' w \/
   code = -1 /\ r' = r /\
     (revoked r = true \/ count = 0 \/ capacity r < producer r - consumer r + count \/
      2 ^ 64 <= producer r + count /\ producer r <> consumer r)) /\
  (let '(code, r', w') := consume write_header count r w in
   code = 0 /\ 0 < count /\ producer r' = producer r /\ consumer r' = consumer r + count /\
     w' = sync_header write_header r' w \/
   code = -1 /\ r' = r /\ (revoked r = true \/ count = 0 \/ producer r - consumer r < count)).
Proof.
  intros Hs Ha Hc r. assert (ring_ok r) as Hok by (by apply (rings_steps_ok _ _ Hs)). split_and!; try apply Hok.
  - pose proof (submit_spec count r w Hok Hc) as Hx. destruct (submit _ _ _ _) as [[code r'] w'].
    by destruct Hx as (_ & _ & Hx).
  - pose proof (consume_spec count r w Hok Hc) as Hx. destruct (consume _ _ _ _) as [[code r'] w'].
    by destruct Hx as (_ & _ & Hx).
Qed.

End Preserved.

(** ** Instances *)

#[local] Instance example_ring_modules : ResourceModules unit := {
  object_at _ _ := Object.KernelObject KOBJECT_RING 1 1 1 true;
  physical _ _ := Some (fun i => 0x1000 * (i + 1));
  resource_revoked _ _ := false;
  shared_memory_resource_create _ w := (Some 7, w);
  page_resource_revoke _ w := (0, w);
  object_create _ _ w := (Some 9, w);
  object_release _ w := w
}.

Definition no_rings : Z -> ring_resource := fun _ => blank (RingResource None 0 0 0 0 0 0 0 false false (fun _ => 0)).

Definition example_write (_ : Z) (_ : ring_shared_header) (w : unit) : unit := w.

Definition example_created : Z -> ring_resource :=
  snd (fst (ring_resource_create example_write 4 32 (ring_init no_rings) tt)).

Definition example_rings : Z -> ring_resource :=
  snd (fst (ring_resource_submit example_write (Some 9) 2 example_created tt)).

Lemma example_rings_reachable : rtc (rings_step example_write) (ring_init no_rings, tt) (example_rings, tt).
Proof.
  eapply rtc_l; [exact (rs_create example_write 4 32 (ring_init no_rings) tt)|].
  apply rtc_once. refine (rs_submit example_write (Some 9) 2 example_created tt _). unfold is_u32. lia.
Qed.

Lemma ring_descriptors_safe_witness :
  ring_resource_descriptor_res 0 (example_rings 0) = Some 0x1040 /\
  ring_resource_descriptor_res 1 (example_rings 0) = Some 0x1060 /\
  (descriptor_byte (example_rings 0) 0 + 32 <= descriptor_byte (example_rings 0) 1 \/
   descriptor_byte (example_rings 0) 1 + 32 <= descriptor_byte (example_rings 0) 0).
Proof.
  split; [vm_compute; reflexivity|]. split; [vm_compute; reflexivity|].
  apply (ring_descriptors_safe example_write no_rings tt example_rings tt 0 example_rings_reachable eq_refl eq_refl 0
           ltac:(lia)).
  - vm_compute. split; [discriminate|reflexivity].
  - vm_compute. reflexivity.
Defined.

Lemma ring_counters_correct_witness :
  producer (example_rings 0) - consumer (example_rings 0) <= capacity (example_rings 0) /\
  fst (fst (submit example_write 3 (example_rings 0) tt)) = -1.
Proof.
  split; [|vm_compute; reflexivity].
  destruct (ring_counters_correct example_write no_rings tt example_rings tt 0 3 example_rings_reachable eq_refl)
    as [(_ & _ & Hb) _]; [unfold is_u32; lia|exact Hb].
Defined.

End Ring.
