(* ===== verification/Event.v ===== *)
(** Event objects: [src/objects/event.c].

    Tasks wait for one of up to sixteen events; an event keeps the mask of the
    task slots waiting for it and a slot the list of the objects it waits for
    (the array [wait_sets[slot]] with its [wait_counts[slot]]).  The bodies run
    with interrupts off and are the atomic steps.  Objects are those of
    Object.v and task states those of Task.v.  Ghost data: [wakes] is the list
    of the calls of the installed [wake_task], newest first. *)

From S2P Require Import Prelude Task Object.

Module Event.

Definition EVENT_MAX : Z := 64.

Definition EVENT_WAIT_MANY_MAX : Z := 16.

Definition EVENT_AUTO_RESET : Z := 0.

Definition EVENT_MANUAL_RESET : Z := 1.

Definition KOBJECT_EVENT : Z := 1.

(** The number that stands for [event_destroy] as a destroy callback. *)
Definition event_destroy_callback : Z := 1.

Record event_state := EventState {
  mode : Z;
  signaled : bool;
  waiters : Z;
  active : bool
}.

Record table := Table {
  events : Z -> event_state;
  wait_sets : Z -> list Z;
  wait_deadlines : Z -> Z;
  wait_timed : Z -> bool;
  objs : Object.table;
  pool : Task.pool;
  wakes : list (Z * Z)
}.

Definition set_event (e : Z) (v : event_state) (t : table) : table :=
  Table (upd (events t) e v) (wait_sets t) (wait_deadlines t) (wait_timed t) (objs t) (pool t) (wakes t).

Definition set_waiters (e mask : Z) (t : table) : table :=
  let v := events t e in set_event e (EventState (mode v) (signaled v) mask (active v)) t.

Definition set_wait (slot : Z) (set : list Z) (deadline : Z) (timed : bool) (t : table) : table :=
  Table (events t) (upd (wait_sets t) slot set) (upd (wait_deadlines t) slot deadline)
    (upd (wait_timed t) slot timed) (objs t) (pool t) (wakes t).

Definition set_pool (p : Task.pool) (t : table) : table :=
  Table (events t) (wait_sets t) (wait_deadlines t) (wait_timed t) (objs t) p (wakes t).

Definition set_objs (o : Object.table) (t : table) : table :=
  Table (events t) (wait_sets t) (wait_deadlines t) (wait_timed t) o (pool t) (wakes t).

Definition log_wake (slot result : Z) (t : table) : table :=
  Table (events t) (wait_sets t) (wait_deadlines t) (wait_timed t) (objs t) (pool t) ((slot, result) :: wakes t).

(** The event index a live event object names. *)
Definition names (t : table) (o : Z) : option Z :=
  let v := Object.objects (objs t) o in
  if negb (Object.active v) || negb (Object.type v =? KOBJECT_EVENT) || negb (nz (Object.value v)) ||
     (EVENT_MAX <? Object.value v)
  then None else Some (Object.value v - 1).

Definition state_for (o : Z) (t : table) : option Z :=
  match names t o with
  | Some e => if active (events t e) then Some e else None
  | None => None
  end.

Definition task_state (t : table) (slot : Z) : Z := Task.tasks (pool t) slot Task.f_state.

Definition wait_index (slot o : Z) (t : table) : Z :=
  if Task.MAX_TASKS <=? slot then -1 else
  match find_index (fun x => x =? o) (wait_sets t slot) with
  | Some i => Z.of_nat i
  | None => -1
  end.

(** [state->waiters &= ~bit] for the events of the wait set. *)
Fixpoint leave_events (slot : Z) (set : list Z) (t : table) : table :=
  match set with
  | [] => t
  | o :: set =>
      let t := match state_for o t with
               | Some e => set_waiters e (Z.land (waiters (events t e)) (Z.lnot (Z.shiftl 1 slot))) t
               | None => t
               end in
      leave_events slot set t
  end.

Definition clear_wait_set (slot : Z) (t : table) : table :=
  if Task.MAX_TASKS <=? slot then t
  else set_wait slot [] 0 false (leave_events slot (wait_sets t slot) t).

Definition wake_slot (slot result : Z) (t : table) : table :=
  if (Task.task_pool_count (pool t) <=? slot) || negb (task_state t slot =? Task.TASK_BLOCKED_EVENT) then t else
  let t := clear_wait_set slot t in
  let t := set_pool (Task.task_state_set (Some slot) Task.TASK_RUNNING (pool t)) t in
  log_wake slot result t.

(** [for (slot = 0; slot < MAX_TASKS; slot++) if (mask & (1u << slot)) ...] *)
Definition wake_mask (mask : Z) (result : Z -> table -> Z) (t : table) : table :=
  for_range 0 Task.MAX_TASKS (fun slot t =>
    if bit_of mask slot then wake_slot slot (result slot t) t else t) t.

Definition event_destroy (o : Z) (t : table) : table :=
  let v := Object.objects (objs t) o in
  if negb (Object.type v =? KOBJECT_EVENT) || negb (nz (Object.value v)) || (EVENT_MAX <? Object.value v) then t else
  let e := Object.value v - 1 in
  if negb (active (events t e)) then t else
  let mask := waiters (events t e) in
  let t := set_event e (EventState (mode (events t e)) false 0 false) t in
  wake_mask mask (fun _ _ => -3) t.

Definition event_init (t : table) : table :=
  Table (fun _ => EventState EVENT_AUTO_RESET false 0 false) (fun _ => []) (fun _ => 0) (fun _ => false)
    (objs t) (pool t) (wakes t).

Definition event_create (m : Z) (set : bool) (t : table) : option Z * table :=
  if negb (m =? EVENT_AUTO_RESET) && negb (m =? EVENT_MANUAL_RESET) then (None, t) else
  match scan_range 0 EVENT_MAX (fun e => negb (active (events t e))) with
  | None => (None, t)
  | Some e =>
      let '(o, os) := Object.object_create KOBJECT_EVENT (e + 1) event_destroy_callback (objs t) in
      let t := set_objs os t in
      match o with
      | Some o => (Some o, set_event e (EventState m set 0 true) t)
      | None => (None, set_event e (EventState m set 0 false) t)
      end
  end.

(** The scan of [event_wait_many] over the objects: an error, the index of a
    signaled event, or none. *)
Inductive wait_scan :=
  | Invalid
  | Ready (index : Z) (event : Z)
  | Nothing.

Fixpoint scan_objects (t : table) (prior rest : list Z) (index : Z) : wait_scan :=
  match rest with
  | [] => Nothing
  | o :: rest =>
      match state_for o t with
      | None => Invalid
      | Some e =>
          if bool_decide (o ∈ prior) then Invalid else
          if signaled (events t e) then Ready index e else scan_objects t (prior ++ [o]) rest (index + 1)
      end
  end.

(** [state->waiters |= bit] for the events of the wait set. *)
Fixpoint join_events (slot : Z) (set : list Z) (t : table) : table :=
  match set with
  | [] => t
  | o :: set =>
      let t := match state_for o t with
               | Some e => set_waiters e (Z.lor (waiters (events t e)) (Z.shiftl 1 slot)) t
               | None => t
               end in
      join_events slot set t
  end.

(** The answer and, when it is 0, the ready index. *)
Definition event_wait_many (objects : list Z) (slot deadline : Z) (timed : bool) (t : table) :
    Z * option Z * table :=
  let count := Z.of_nat (length objects) in
  if negb (nz count) || (EVENT_WAIT_MANY_MAX <? count) || (Task.task_pool_count (pool t) <=? slot) ||
     (Task.MAX_TASKS <=? slot) || negb (task_state t slot =? Task.TASK_RUNNING) ||
     nz (Z.of_nat (length (wait_sets t slot)))
  then (-1, None, t) else
  match scan_objects t [] objects 0 with
  | Invalid => (-1, None, t)
  | Ready index e =>
      let v := events t e in
      (0, Some index,
       if mode v =? EVENT_AUTO_RESET then set_event e (EventState (mode v) false (waiters v) (active v)) t else t)
  | Nothing =>
      let t := join_events slot objects t in
      let t := set_wait slot objects deadline timed t in
      (1, None, set_pool (Task.task_state_set (Some slot) Task.TASK_BLOCKED_EVENT (pool t)) t)
  end.

Definition event_wait (o slot : Z) (t : table) : Z * option Z * table :=
  event_wait_many [o] slot 0 false t.

Definition event_wait_timeout (o slot deadline : Z) (t : table) : Z * option Z * table :=
  event_wait_many [o] slot deadline true t.

Definition event_tick (now timeout_result : Z) (t : table) : table :=
  for_range 0 (Task.task_pool_count (pool t)) (fun slot t =>
    if negb (wait_timed t slot) || (i32 (now - wait_deadlines t slot) <? 0) then t
    else wake_slot slot timeout_result t) t.

Definition event_signal (o : Z) (t : table) : Z * table :=
  match state_for o t with
  | None => (-1, t)
  | Some e =>
      let v := events t e in
      if negb (nz (waiters v)) then (0, set_event e (EventState (mode v) true (waiters v) (active v)) t) else
      if mode v =? EVENT_MANUAL_RESET then
        (0, wake_mask (waiters v) (fun slot t => wait_index slot o t)
              (set_event e (EventState (mode v) true 0 (active v)) t))
      else
        match scan_range 0 Task.MAX_TASKS (bit_of (waiters v)) with
        | None => (-1, t)
        | Some slot =>
            let result := wait_index slot o t in
            (0, wake_slot slot result (set_waiters e (Z.land (waiters v) (Z.lnot (Z.shiftl 1 slot))) t))
        end
  end.

Definition event_reset (o : Z) (t : table) : Z * table :=
  match state_for o t with
  | None => (-1, t)
  | Some e =>
      let v := events t e in (0, set_event e (EventState (mode v) false (waiters v) (active v)) t)
  end.

Definition event_cancel_task (slot result : Z) (t : table) : table :=
  if slot <? Task.MAX_TASKS then
    if task_state t slot =? Task.TASK_BLOCKED_EVENT then wake_slot slot result t else clear_wait_set slot t
  else t.

(** ** The invariant *)

Definition has_bit (mask slot : Z) : Prop := Z.testbit mask slot = true.

(** The task in [slot] is blocked on events. *)
Definition parked (t : table) (slot : Z) : Prop :=
  0 <= slot < Task.MAX_TASKS /\ slot < Task.task_pool_count (pool t) /\ task_state t slot = Task.TASK_BLOCKED_EVENT.

#[global] Instance parked_dec t slot : Decision (parked t slot).
Proof. unfold parked. apply _. Defined.

(** A slot with a wait set that is not parked is one whose task was taken out
    of its wait by [posix_signal_stop]: it stays registered, and nothing is
    claimed of the events in its wait set.

    The invariant, but for the registrations [X] that a running operation has
    taken out of the waiter masks and not yet out of the wait sets, and for the
    objects [D] that are being destroyed. *)
Record inv_but (X : Z -> Z -> Prop) (D : Z -> Prop) (t : table) : Prop := {
  iv_named : forall o e, names t o = Some e -> D o \/ active (events t e) = true;
  iv_inj : forall o o' e, names t o = Some e -> names t o' = Some e -> o = o';
  iv_waiting : forall slot o, parked t slot -> o ∈ wait_sets t slot ->
    X slot o \/ exists e, state_for o t = Some e /\ has_bit (waiters (events t e)) slot;
  iv_registered : forall e slot, active (events t e) = true -> has_bit (waiters (events t e)) slot ->
    exists o, state_for o t = Some e /\ o ∈ wait_sets t slot;
  iv_range : forall slot, wait_sets t slot <> [] -> 0 <= slot < Task.MAX_TASKS;
  iv_parked : forall slot, parked t slot -> wait_sets t slot <> [];
  iv_unsignaled : forall e, active (events t e) = true -> waiters (events t e) <> 0 -> signaled (events t e) = false;
  iv_mask : forall e, active (events t e) = true -> 0 <= waiters (events t e)
}.

Definition inv : table -> Prop := inv_but (fun _ _ => False) (fun _ => False).

Lemma has_bit_clear mask slot j :
  0 <= slot -> has_bit (Z.land mask (Z.lnot (Z.shiftl 1 slot))) j <-> has_bit mask j /\ j <> slot.
Proof.
  intros Hs. unfold has_bit. destruct (Z.lt_ge_cases j 0) as [Hj|Hj].
  { rewrite !Z.testbit_neg_r by done. naive_solver. }
  rewrite Z.land_spec, Z.lnot_spec, Z.shiftl_1_l, Z.pow2_bits_eqb, andb_true_iff, negb_true_iff, Z.eqb_neq by done.
  naive_solver.
Qed.

Lemma has_bit_set mask slot j :
  0 <= slot -> has_bit (Z.lor mask (Z.shiftl 1 slot)) j <-> has_bit mask j \/ j = slot.
Proof.
  intros Hs. unfold has_bit. destruct (Z.lt_ge_cases j 0) as [Hj|Hj].
  { rewrite !Z.testbit_neg_r by done. naive_solver lia. }
  rewrite Z.lor_spec, Z.shiftl_1_l, Z.pow2_bits_eqb, orb_true_iff, Z.eqb_eq by done. naive_solver.
Qed.

Lemma has_bit_zero j : ~ has_bit 0 j.
Proof. unfold has_bit. by rewrite Z.testbit_0_l. Qed.

Lemma mask_bit mask : 0 <= mask -> mask <> 0 -> exists j, has_bit mask j.
Proof. intros H0 Hz. exists (Z.log2 mask). unfold has_bit. apply Z.bit_log2. lia. Qed.

(** Events as they were, but for their waiters. *)
Record same_events (t t' : table) : Prop := {
  se_names : forall o, names t' o = names t o;
  se_active : forall e, active (events t' e) = active (events t e);
  se_signaled : forall e, signaled (events t' e) = signaled (events t e)
}.

Lemma same_state_for t t' o : same_events t t' -> state_for o t' = state_for o t.
Proof. intros [Hn Ha _]. unfold state_for. rewrite Hn. destruct (names t o); [by rewrite Ha|done]. Qed.

Lemma same_events_refl t : same_events t t.
Proof. done. Qed.

Lemma same_events_trans t1 t2 t3 : same_events t1 t2 -> same_events t2 t3 -> same_events t1 t3.
Proof. intros [] []. constructor; congruence. Qed.

Lemma set_waiters_same e mask t : same_events t (set_waiters e mask t).
Proof.
  constructor; [done| |]; intros e'; simpl; (destruct (Z.eq_dec e' e) as [->|]; [by rewrite upd_eq|by rewrite upd_ne]).
Qed.

(** The rest of the state, which the waiter masks do not touch. *)
Definition same_rest (t t' : table) : Prop :=
  wait_sets t' = wait_sets t /\ wait_timed t' = wait_timed t /\ wait_deadlines t' = wait_deadlines t /\
  objs t' = objs t /\ pool t' = pool t /\ wakes t' = wakes t.

Lemma leave_events_spec slot set t :
  0 <= slot ->
  let t' := leave_events slot set t in
  same_events t t' /\ same_rest t t' /\
  (forall e j, has_bit (waiters (events t' e)) j <->
     has_bit (waiters (events t e)) j /\ ~ (j = slot /\ exists o, o ∈ set /\ state_for o t = Some e)) /\
  (forall e, 0 <= waiters (events t e) -> 0 <= waiters (events t' e)).
Proof.
  intros Hs. revert t. induction set as [|o set IH]; intros t; cbn [leave_events].
  { split_and!; try done. intros e j. split; [|naive_solver]. intros Hb. split; [done|].
    intros (_ & o & Ho & _). by apply elem_of_nil in Ho. }
  set (t1 := match state_for o t with Some e => _ | None => t end).
  assert (same_events t t1 /\ same_rest t t1) as [Hse Hsr].
  { unfold t1. destruct (state_for o t); [split; [apply set_waiters_same|done]|done]. }
  assert (forall e j, has_bit (waiters (events t1 e)) j <->
    has_bit (waiters (events t e)) j /\ ~ (j = slot /\ state_for o t = Some e)) as Hbit.
  { intros e j. unfold t1. destruct (state_for o t) as [e0|]; [|naive_solver]. simpl.
    destruct (Z.eq_dec e e0) as [->|]; [rewrite upd_eq|rewrite upd_ne by done; naive_solver]. simpl.
    rewrite has_bit_clear by done. naive_solver. }
  assert (forall e, 0 <= waiters (events t e) -> 0 <= waiters (events t1 e)) as Hnn.
  { intros e He. unfold t1. destruct (state_for o t) as [e0|]; [|done]. simpl.
    destruct (Z.eq_dec e e0) as [->|]; [rewrite upd_eq|by rewrite upd_ne]. simpl. apply Z.land_nonneg. by left. }
  destruct (IH t1) as (Hse2 & Hsr2 & Hbit2 & Hnn2). split_and!.
  - by eapply same_events_trans.
  - unfold same_rest in *. destruct_and?. split_and!; congruence.
  - intros e j. rewrite Hbit2, Hbit. setoid_rewrite (same_state_for t t1); [|done].
    setoid_rewrite elem_of_cons. naive_solver.
  - auto.
Qed.

(** ** Waking *)

Lemma task_state_write slot v j t :
  task_state (set_pool (Task.task_state_set (Some slot) v (pool t)) t) j = if j =? slot then v else task_state t j.
Proof.
  unfold task_state. simpl. unfold upd. destruct (Z.eqb_spec j slot) as [->|]; [|done].
  unfold Task.assign, Task.set. simpl. done.
Qed.

(** The slot leaves its wait set; its task is not blocked any more. *)
Lemma clear_inv X D slot t t' :
  inv_but X D t -> 0 <= slot < Task.MAX_TASKS ->
  let t1 := leave_events slot (wait_sets t slot) t in
  events t' = events t1 -> objs t' = objs t -> Task.task_pool_count (pool t') = Task.task_pool_count (pool t) ->
  (forall j, wait_sets t' j = if j =? slot then [] else wait_sets t j) ->
  (forall j, j <> slot -> task_state t' j = task_state t j) -> task_state t' slot <> Task.TASK_BLOCKED_EVENT ->
  inv_but X D t' /\ same_events t t' /\ (forall j, parked t' j <-> parked t j /\ j <> slot) /\
  forall e j, has_bit (waiters (events t' e)) j -> has_bit (waiters (events t e)) j.
Proof.
  intros Hi Hs t1 Hev Hob Hcount Hw2 Hts Hnb.
  destruct (leave_events_spec slot (wait_sets t slot) t ltac:(lia)) as (Hse & Hsr & Hbit & Hnn). fold t1 in Hse, Hsr, Hbit, Hnn.
  assert (same_events t t') as Hse2.
  { destruct Hse as [_ Hsa Hsg]. constructor; [|by rewrite Hev..]. intros o. unfold names. by rewrite Hob. }
  assert (forall j, parked t' j <-> parked t j /\ j <> slot) as Hpk.
  { intros j. unfold parked. rewrite Hcount. destruct (Z.eq_dec j slot) as [->|Hj]; [naive_solver|rewrite Hts by done; naive_solver]. }
  split_and!; [|exact Hse2|exact Hpk|intros e j; rewrite Hev, Hbit; by intros [? _]].
  destruct Hi as [In Ij Iw Ir Ig Ib Iu Im]. constructor.
  - intros o e. rewrite (se_names _ _ Hse2), (se_active _ _ Hse2). apply (In o e).
  - intros o o' e. rewrite !(se_names _ _ Hse2). apply Ij.
  - intros j o [Hp Hj]%Hpk. rewrite Hw2, (same_state_for _ _ o Hse2), Hev, (proj2 (Z.eqb_neq _ _) Hj).
    intros Ho. destruct (Iw j o Hp Ho) as [|(e & Hst & Hb)]; [by left|]. right. exists e. split; [done|].
    apply Hbit. split; [done|]. naive_solver.
  - intros e j. rewrite (se_active _ _ Hse2), Hev, Hbit, Hw2. intros Ha [Hb Hno].
    destruct (Ir e j Ha Hb) as (o & Hst & Ho). exists o. rewrite (same_state_for _ _ o Hse2). split; [done|].
    destruct (Z.eqb_spec j slot) as [->|]; [|done]. exfalso. apply Hno. split; [done|]. by exists o.
  - intros j. rewrite Hw2. destruct (j =? slot); [done|apply Ig].
  - intros j [Hp Hj]%Hpk. rewrite Hw2, (proj2 (Z.eqb_neq _ _) Hj). by apply Ib.
  - intros e. rewrite (se_active _ _ Hse2), (se_signaled _ _ Hse2). intros Ha Hz. apply Iu; [done|].
    rewrite Hev in Hz. destruct (mask_bit (waiters (events t1 e))) as [j Hj]; [auto|done|].
    apply Hbit in Hj as [Hj _]. intros Hw0. rewrite Hw0 in Hj. by apply has_bit_zero in Hj.
  - intros e. rewrite (se_active _ _ Hse2), Hev. auto.
Qed.

(** What waking a slot does to the tasks: nothing, or it runs. *)
Definition woken (t t' : table) (slot result : Z) : Prop :=
  ~ parked t slot /\ t' = t \/
  parked t slot /\ wakes t' = (slot, result) :: wakes t /\ wait_sets t' slot = [] /\
  (forall j, task_state t' j = if j =? slot then Task.TASK_RUNNING else task_state t j).

Lemma wake_slot_spec X D slot result t :
  inv_but X D t -> 0 <= slot < Task.MAX_TASKS ->
  let t' := wake_slot slot result t in
  inv_but X D t' /\ same_events t t' /\ woken t t' slot result /\
  Task.task_pool_count (pool t') = Task.task_pool_count (pool t) /\
  (forall e j, has_bit (waiters (events t' e)) j -> has_bit (waiters (events t e)) j) /\
  (forall j, parked t' j <-> parked t j /\ j <> slot) /\ (forall j, j <> slot -> wait_sets t' j = wait_sets t j).
Proof.
  intros Hi Hs. unfold wake_slot. destruct (_ || _) eqn:Hg.
  { assert (~ parked t slot) as He.
    { intros (_ & Hc & Hst). apply orb_true_iff in Hg. rewrite negb_true_iff, Z.leb_le, Z.eqb_neq in Hg. destruct Hg; [lia|done]. }
    split_and!; try done; [by left|]. intros j. split; [|by intros [? _]]. intros Hp. split; [done|]. by intros ->. }
  boolify. unfold clear_wait_set. rewrite (proj2 (Z.leb_gt _ _)) by lia.
  destruct (leave_events_spec slot (wait_sets t slot) t ltac:(lia)) as (_ & (Hws & _ & _ & Hob & Hpo & Hwk) & _).
  set (t1 := leave_events slot (wait_sets t slot) t) in *. set (t2 := log_wake _ _ _).
  assert (forall j, task_state t2 j = if j =? slot then Task.TASK_RUNNING else task_state t j) as Hts.
  { intros j. unfold t2. etrans; [apply task_state_write|]. unfold task_state. simpl. by rewrite Hpo. }
  assert (forall j, wait_sets t2 j = if j =? slot then [] else wait_sets t j) as Hw2
    by (intros j; unfold t2; simpl; unfold upd; by rewrite Hws).
  assert (Task.task_pool_count (pool t2) = Task.task_pool_count (pool t)) as Hcount by (simpl; by rewrite Hpo).
  destruct (clear_inv X D slot t t2 Hi Hs eq_refl Hob Hcount Hw2) as (Hi2 & Hse2 & Hpk & Hbit).
  { intros j Hj. by rewrite Hts, (proj2 (Z.eqb_neq _ _)). }
  { by rewrite Hts, Z.eqb_refl. }
  split_and!; try done.
  - right. split_and!; [unfold parked; split_and!; (done || lia)|simpl; by rewrite Hwk|by rewrite Hw2, Z.eqb_refl|done].
  - intros j Hj. by rewrite Hw2, (proj2 (Z.eqb_neq _ _)).
Qed.

(** What waking the slots of a mask below [n] does. *)
Record woken_mask (X : Z -> Z -> Prop) (D : Z -> Prop) (mask : Z) (f : Z -> table -> Z) (t : table) (n : Z)
    (t' : table) : Prop := {
  wm_inv : inv_but X D t';
  wm_same : same_events t t';
  wm_count : Task.task_pool_count (pool t') = Task.task_pool_count (pool t);
  wm_bits : forall e j, has_bit (waiters (events t' e)) j -> has_bit (waiters (events t e)) j;
  wm_sets : forall j, wait_sets t' j =
    if bit_of mask j && (0 <=? j) && (j <? n) && bool_decide (parked t j) then [] else wait_sets t j;
  wm_tasks : forall j, task_state t' j =
    if bit_of mask j && (0 <=? j) && (j <? n) && bool_decide (parked t j) then Task.TASK_RUNNING else task_state t j;
  wm_wakes : forall j r, (j, r) ∈ wakes t' <->
    (j, r) ∈ wakes t \/ bit_of mask j = true /\ 0 <= j < n /\ parked t j /\ r = f j t
}.

(** A task that was not in the mask, or not below [n], is still parked. *)
Lemma woken_parked X D mask f t n t' j :
  woken_mask X D mask f t n t' -> parked t' j <-> parked t j /\ ~ (bit_of mask j = true /\ 0 <= j < n).
Proof.
  intros Hw. unfold parked. rewrite (wm_count _ _ _ _ _ _ _ Hw), (wm_tasks _ _ _ _ _ _ _ Hw).
  destruct (decide (parked t j)) as [Hp|Hp].
  - rewrite bool_decide_eq_true_2, andb_true_r by done. destruct (bit_of mask j), (Z.leb_spec 0 j), (Z.ltb_spec j n); cbn [andb];
      split; intros Hx; destruct_and?; split_and?; try done; try lia; unfold parked in Hp; try tauto; naive_solver lia.
  - rewrite bool_decide_eq_false_2, andb_false_r by done. unfold parked in Hp. tauto.
Qed.

Lemma wake_mask_spec X D mask f t :
  inv_but X D t -> (forall j t1 t2, wait_sets t1 j = wait_sets t2 j -> f j t1 = f j t2) ->
  woken_mask X D mask f t Task.MAX_TASKS (wake_mask mask f t).
Proof.
  intros Hi Hf. unfold wake_mask.
  apply (for_range_ind (fun n t' => woken_mask X D mask f t n t') 0 Task.MAX_TASKS).
  { constructor; try done; intros j; [| |intros r].
    - destruct (Z.leb_spec 0 j), (Z.ltb_spec j 0); try lia; by rewrite ?andb_false_r.
    - destruct (Z.leb_spec 0 j), (Z.ltb_spec j 0); try lia; by rewrite ?andb_false_r.
    - split; [by left|]. intros [|(_ & ? & _)]; [done|lia]. }
  intros n t1 Hn Hw. pose proof Hw as [Ii Is Ic Ib Iw It Il].
  assert (forall j, j <> n -> bit_of mask j && (0 <=? j) && (j <? n + 1) = bit_of mask j && (0 <=? j) && (j <? n)) as Hlt.
  { intros j Hj. f_equal. destruct (Z.ltb_spec j n), (Z.ltb_spec j (n + 1)); (done || lia). }
  assert (bit_of mask n && (0 <=? n) && (n <? n) = false) as Hnn' by (rewrite Z.ltb_irrefl; apply andb_false_r).
  assert (parked t1 n <-> parked t n) as Hpn by (rewrite (woken_parked _ _ _ _ _ _ _ n Hw); naive_solver lia).
  destruct (bit_of mask n) eqn:Hb.
  - assert (bit_of mask n && (0 <=? n) && (n <? n + 1) = true) as Hnn
      by (rewrite Hb, (proj2 (Z.leb_le _ _)), (proj2 (Z.ltb_lt _ _)) by lia; done).
    destruct (wake_slot_spec X D n (f n t1) t1 Ii ltac:(lia)) as (Hi' & Hs' & Hwk & Hc' & Hb' & _ & Hwo).
    set (t2 := wake_slot n (f n t1) t1) in *.
    assert (wait_sets t1 n = wait_sets t n) as Hsame by (rewrite Iw, Hb, Hnn'; done).
    unfold woken in Hwk. rewrite Hpn in Hwk.
    constructor; [done|by eapply same_events_trans|congruence|eauto| | |].
    + intros j. destruct (Z.eq_dec j n) as [->|Hj]; [|rewrite Hwo, Iw by done; by rewrite Hlt]. rewrite Hnn. cbn [andb].
      destruct Hwk as [[He ->]|(Hp & _ & -> & _)]; [by rewrite Hsame, bool_decide_eq_false_2|by rewrite bool_decide_eq_true_2].
    + intros j. destruct (Z.eq_dec j n) as [->|Hj].
      * rewrite Hnn. cbn [andb]. destruct Hwk as [[He ->]|(Hp & _ & _ & ->)].
        -- rewrite It, Hb, Hnn'. by rewrite bool_decide_eq_false_2.
        -- rewrite Z.eqb_refl. by rewrite bool_decide_eq_true_2.
      * assert (task_state t2 j = task_state t1 j) as ->
          by (destruct Hwk as [[_ ->]|(_ & _ & _ & Ht)]; [done|by rewrite Ht, (proj2 (Z.eqb_neq _ _))]).
        by rewrite It, Hlt.
    + intros j r. assert ((j, r) ∈ wakes t2 <-> (j, r) ∈ wakes t1 \/ j = n /\ r = f n t1 /\ parked t n) as ->.
      { destruct Hwk as [[He ->]|(Hp & -> & _)]; [naive_solver|]. rewrite elem_of_cons. naive_solver. }
      rewrite Il, (Hf n t1 t Hsame). split.
      * intros [[|(? & ? & ? & ->)]|(-> & -> & ?)]; [by left|right; split_and!; (done || lia)|right; split_and!; (done || lia)].
      * intros [|(? & ? & ? & ->)]; [by left; left|]. destruct (Z.eq_dec j n) as [->|]; [by right|].
        left. right. split_and!; (done || lia).
  - constructor; try done.
    + intros j. rewrite Iw. destruct (Z.eq_dec j n) as [->|Hj]; [by rewrite Hb|]. by rewrite Hlt.
    + intros j. rewrite It. destruct (Z.eq_dec j n) as [->|Hj]; [by rewrite Hb|]. by rewrite Hlt.
    + intros j r. rewrite Il. split; intros [|(? & ? & ? & ->)]; try (by left); right; split_and!; try done; try lia.
      assert (j <> n) by congruence. lia.
Qed.

(** ** The operations preserve the invariant *)

Lemma inv_but_drop X D D' t :
  inv_but X D t -> (forall slot o, X slot o -> parked t slot -> o ∉ wait_sets t slot) ->
  (forall o e, D o -> names t o = Some e -> D' o \/ active (events t e) = true) ->
  inv_but (fun _ _ => False) D' t.
Proof.
  intros [In Ij Iw Ir Ig Ib Iu Im] HX HD. constructor; try done.
  - intros o e Hn. destruct (In o e Hn); [by eapply HD|by right].
  - intros slot o Hp Ho. destruct (Iw slot o Hp Ho) as [Hx|]; [|by right]. by apply HX in Ho.
Qed.

Lemma state_for_names t o e : state_for o t = Some e <-> names t o = Some e /\ active (events t e) = true.
Proof.
  unfold state_for. destruct (names t o) as [e'|]; [|naive_solver]. destruct (active (events t e')) eqn:Ha; split.
  - by intros [= <-].
  - by intros [[= <-] _].
  - done.
  - intros [[= <-] ?]. congruence.
Qed.

(** An event whose waiters are taken out of its mask. *)
Lemma strip_event o e v t :
  inv t -> state_for o t = Some e ->
  (forall j, has_bit (waiters v) j -> has_bit (waiters (events t e)) j) -> 0 <= waiters v ->
  (active v = true -> waiters v <> 0 -> signaled v = false) ->
  inv_but (fun slot o' => o' = o /\ (active v = false \/ ~ has_bit (waiters v) slot))
    (fun o' => o' = o /\ active v = false) (set_event e v t).
Proof.
  intros [In Ij Iw Ir Ig Ib Iu Im] [Hn Ha]%state_for_names Hsub Hnn Hsig.
  assert (forall e', e' <> e -> events (set_event e v t) e' = events t e') as Hne by (intros; simpl; by rewrite upd_ne).
  assert (events (set_event e v t) e = v) as Heq by (simpl; by rewrite upd_eq).
  assert (forall o', o' <> o -> forall e', state_for o' t = Some e' -> e' <> e /\ state_for o' (set_event e v t) = Some e')
    as Hsf.
  { intros o' Ho' e' [Hn' Ha']%state_for_names. assert (e' <> e) by (intros ->; apply Ho'; by eapply Ij).
    split; [done|]. apply state_for_names. split; [done|]. by rewrite Hne. }
  constructor.
  - intros o' e' Hn'. destruct (Z.eq_dec e' e) as [->|He]; [|right; rewrite Hne by done; by destruct (In o' e' Hn')].
    rewrite Heq. destruct (active v); [by right|left]. split; [|done]. by eapply Ij.
  - intros o' o'' e'. apply Ij.
  - intros slot o' Hp Ho'. destruct (Iw slot o' Hp Ho') as [[]|(e' & Hst & Hb)].
    destruct (Z.eq_dec o' o) as [->|Hno].
    + assert (e' = e) as -> by (apply state_for_names in Hst as [Hst _]; congruence).
      destruct (active v) eqn:Hav; [|left; by auto].
      destruct (Z.testbit (waiters v) slot) eqn:Hbv; [right|left; split; [done|right; unfold has_bit; congruence]].
      exists e. split; [apply state_for_names; split; [done|by rewrite Heq]|by rewrite Heq].
    + right. exists e'. destruct (Hsf o' Hno e' Hst) as [He' Hst']. split; [done|]. by rewrite Hne.
  - intros e' slot Hae Hb. destruct (Z.eq_dec e' e) as [->|He].
    + rewrite Heq in *. destruct (Ir e slot Ha (Hsub slot Hb)) as (o' & Hst & Ho').
      assert (o' = o) as -> by (apply state_for_names in Hst as [Hst _]; by eapply Ij).
      exists o. split; [|done]. apply state_for_names. split; [done|by rewrite Heq].
    + rewrite Hne in * by done. destruct (Ir e' slot Hae Hb) as (o' & Hst & Ho'). exists o'. split; [|done].
      apply state_for_names in Hst as Hst2. destruct Hst2 as [Hn2 _]. apply Hsf; [|done]. intros ->. congruence.
  - apply Ig.
  - apply Ib.
  - intros e' Hae. destruct (Z.eq_dec e' e) as [->|He]; [rewrite Heq in *; auto|rewrite Hne in * by done; auto].
  - intros e' Hae. destruct (Z.eq_dec e' e) as [->|He]; [by rewrite Heq|rewrite Hne in * by done; auto].
Qed.

(** The slots registered with an event are task slots. *)
Lemma registered_slot t e slot :
  inv t -> active (events t e) = true -> has_bit (waiters (events t e)) slot -> 0 <= slot < Task.MAX_TASKS.
Proof.
  intros Hi Ha Hb. destruct (iv_registered _ _ t Hi e slot Ha Hb) as (o & _ & Ho).
  apply (iv_range _ _ t Hi slot). intros He. rewrite He in Ho. by apply elem_of_nil in Ho.
Qed.

Lemma waiting_bit t o e slot :
  inv t -> state_for o t = Some e -> parked t slot -> o ∈ wait_sets t slot -> has_bit (waiters (events t e)) slot.
Proof.
  intros Hi Hst Hp Ho. destruct (iv_waiting _ _ t Hi slot o Hp Ho) as [[]|(e' & Hst' & Hb)]. congruence.
Qed.

Lemma bit_of_has mask j : 0 <= j -> bit_of mask j = true <-> has_bit mask j.
Proof. intros Hj. unfold has_bit. by rewrite bit_of_testbit. Qed.

(** Waking the mask of an event empties the wait sets it is in. *)
Lemma wake_mask_all_spec o e v f t :
  inv t -> state_for o t = Some e -> waiters v = 0 ->
  (forall j t1 t2, wait_sets t1 j = wait_sets t2 j -> f j t1 = f j t2) ->
  let t' := wake_mask (waiters (events t e)) f (set_event e v t) in
  inv_but (fun _ _ => False) (fun o' => o' = o /\ active v = false) t' /\
  (forall slot, parked t' slot -> o ∉ wait_sets t' slot) /\
  exists X D, woken_mask X D (waiters (events t e)) f (set_event e v t) Task.MAX_TASKS t'.
Proof.
  intros Hi Hst Hw Hf t'. pose proof Hst as [_ Ha]%state_for_names.
  assert (inv_but (fun slot o' => o' = o /\ (active v = false \/ ~ has_bit (waiters v) slot))
            (fun o' => o' = o /\ active v = false) (set_event e v t)) as Hstrip
    by (apply strip_event; try done; rewrite Hw; [by intros j ?%has_bit_zero|done..]).
  pose proof (wake_mask_spec _ _ (waiters (events t e)) f _ Hstrip Hf) as Hwm. fold t' in Hwm.
  assert (forall slot, parked t' slot -> o ∉ wait_sets t' slot) as Hout.
  { intros slot [Hp Hno]%(woken_parked _ _ _ _ _ _ _ slot Hwm) Ho. rewrite (wm_sets _ _ _ _ _ _ _ Hwm) in Ho. apply Hno.
    destruct (_ && _) in Ho; [by apply elem_of_nil in Ho|].
    pose proof (waiting_bit t o e slot Hi Hst Hp Ho) as Hb. pose proof (registered_slot t e slot Hi Ha Hb) as Hs.
    split; [by apply bit_of_has; [lia|]|lia]. }
  split_and!; [|done|by eexists _, _]. eapply inv_but_drop; [apply Hwm| |].
  - intros slot o' [-> _]. apply Hout.
  - intros o' e' [-> Hd] _. by left.
Qed.

Lemma wait_index_ext o j t1 t2 : wait_sets t1 j = wait_sets t2 j -> wait_index j o t1 = wait_index j o t2.
Proof. intros He. unfold wait_index. by rewrite He. Qed.

Lemma event_signal_inv o t : inv t -> inv (snd (event_signal o t)).
Proof.
  intros Hi. unfold event_signal. destruct (state_for o t) as [e|] eqn:Hst; [|done].
  pose proof Hst as [Hn Ha]%state_for_names. destruct (nz (waiters (events t e))) eqn:Hz; cbn [negb].
  2: { apply nz_false in Hz. cbn [snd]. eapply inv_but_drop; [apply strip_event; try done|..].
       - simpl. lia.
       - simpl. intros slot o' [-> [Hx|Hno]] Hp Ho; [congruence|]. by apply Hno, (waiting_bit t o e).
       - simpl. intros o' e' [_ Hx]. congruence. }
  apply nz_true in Hz. destruct (mode (events t e) =? EVENT_MANUAL_RESET).
  - cbn [snd]. destruct (wake_mask_all_spec o e (EventState (mode (events t e)) true 0 (active (events t e)))
      (fun slot t => wait_index slot o t) t Hi Hst eq_refl) as [Hi' _]; [intros; by apply wait_index_ext|].
    eapply inv_but_drop; [exact Hi'|done|]. simpl. intros o' e' [_ Hx]. congruence.
  - destruct (scan_range _ _ _) as [slot|] eqn:Hsc; [|done]. cbn [snd].
    apply scan_range_Some in Hsc as (Hs & Hb & _). apply bit_of_has in Hb; [|lia].
    pose proof (iv_mask _ _ t Hi e Ha) as Hnn.
    set (v := EventState (mode (events t e)) (signaled (events t e))
                (Z.land (waiters (events t e)) (Z.lnot (Z.shiftl 1 slot))) (active (events t e))).
    assert (0 <= waiters v) as Hvn by (simpl; apply Z.land_nonneg; by left).
    assert (forall j, has_bit (waiters v) j <-> has_bit (waiters (events t e)) j /\ j <> slot) as Hvb
      by (intros j; simpl; apply has_bit_clear; lia).
    pose proof (strip_event o e v t Hi Hst ltac:(intros j [? _]%Hvb; done) Hvn
                  ltac:(intros; by apply (iv_unsignaled _ _ t Hi))) as Hstrip.
    destruct (wake_slot_spec _ _ slot (wait_index slot o t) _ Hstrip ltac:(lia)) as (Hi' & Hse & _ & _ & _ & Hpk & Hwo).
    change (set_waiters e _ t) with (set_event e v t). eapply inv_but_drop; [exact Hi'| |].
    + intros j o' [-> [Hx|Hno]]; [simpl in Hx; congruence|]. intros [Hp Hj]%Hpk.
      rewrite Hwo by done. intros Ho. apply Hno, Hvb. split; [|done]. by apply (waiting_bit t o e).
    + simpl. intros o' e' [_ Hx]. congruence.
Qed.

(** An event whose signal alone is turned off. *)
Lemma unsignal_inv e t :
  inv t -> let v := events t e in inv (set_event e (EventState (mode v) false (waiters v) (active v)) t).
Proof.
  intros [In Ij Iw Ir Ig Ib Iu Im] v. set (t' := set_event _ _ _).
  assert (forall e', active (events t' e') = active (events t e') /\ waiters (events t' e') = waiters (events t e')) as Hs.
  { intros e'. simpl. destruct (Z.eq_dec e' e) as [->|]; [by rewrite upd_eq|by rewrite upd_ne]. }
  assert (forall o, state_for o t' = state_for o t) as Hst.
  { intros o. unfold state_for. change (names t' o) with (names t o). destruct (names t o) as [e'|]; [|done].
    by rewrite (proj1 (Hs e')). }
  constructor.
  - intros o e' Hn. rewrite (proj1 (Hs e')). by apply (In o e').
  - apply Ij.
  - intros slot o Hp Ho. destruct (Iw slot o Hp Ho) as [|(e' & Hx & Hb)]; [done|]. right. exists e'.
    by rewrite Hst, (proj2 (Hs e')).
  - intros e' slot. rewrite (proj1 (Hs e')), (proj2 (Hs e')). intros Ha Hb. destruct (Ir e' slot Ha Hb) as (o & ? & ?).
    exists o. by rewrite Hst.
  - apply Ig.
  - apply Ib.
  - intros e'. rewrite (proj1 (Hs e')), (proj2 (Hs e')). intros Ha Hz. simpl.
    destruct (Z.eq_dec e' e) as [->|]; [by rewrite upd_eq|rewrite upd_ne by done; auto].
  - intros e'. rewrite (proj1 (Hs e')), (proj2 (Hs e')). auto.
Qed.

Lemma reset_inv o t : inv t -> inv (snd (event_reset o t)).
Proof. intros Hi. unfold event_reset. destruct (state_for o t); [by apply unsignal_inv|done]. Qed.

Lemma tick_inv now result t : inv t -> Task.task_pool_count (pool t) <= Task.MAX_TASKS -> inv (event_tick now result t).
Proof.
  intros Hi Hc. unfold event_tick.
  apply (for_range_ind (fun _ t' => inv t') 0 (Task.task_pool_count (pool t))); [done|].
  intros slot t' Hs Ht'. case_if; [done|]. by apply wake_slot_spec; [|lia].
Qed.

Lemma cancel_inv slot result t : inv t -> 0 <= slot -> inv (event_cancel_task slot result t).
Proof.
  intros Hi Hs. unfold event_cancel_task. destruct (Z.ltb_spec slot Task.MAX_TASKS); [|done].
  destruct (Z.eqb_spec (task_state t slot) Task.TASK_BLOCKED_EVENT) as [|Hne]; [by apply wake_slot_spec|].
  unfold clear_wait_set. rewrite (proj2 (Z.leb_gt _ _)) by lia.
  destruct (leave_events_spec slot (wait_sets t slot) t ltac:(lia)) as (_ & (Hws & _ & _ & Hob & Hpo & _) & _).
  set (t1 := leave_events slot (wait_sets t slot) t) in *.
  apply (clear_inv _ _ slot t (set_wait slot [] 0 false t1) Hi ltac:(lia) eq_refl Hob); unfold task_state; simpl; rewrite ?Hpo; try done.
  intros j. unfold upd. by rewrite Hws.
Qed.

Lemma join_events_spec slot set t :
  0 <= slot ->
  let t' := join_events slot set t in
  same_events t t' /\ same_rest t t' /\
  (forall e j, has_bit (waiters (events t' e)) j <->
     has_bit (waiters (events t e)) j \/ (j = slot /\ exists o, o ∈ set /\ state_for o t = Some e)) /\
  (forall e, 0 <= waiters (events t e) -> 0 <= waiters (events t' e)) /\
  (forall e, (forall o, o ∈ set -> state_for o t <> Some e) -> waiters (events t' e) = waiters (events t e)).
Proof.
  intros Hs. revert t. induction set as [|o set IH]; intros t; cbn [join_events].
  { split_and!; try done. intros e j. split; [by left|]. intros [|(_ & o & Ho & _)]; [done|]. by apply elem_of_nil in Ho. }
  set (t1 := match state_for o t with Some e => _ | None => t end).
  assert (same_events t t1 /\ same_rest t t1) as [Hse Hsr].
  { unfold t1. destruct (state_for o t); [split; [apply set_waiters_same|done]|done]. }
  assert (forall e j, has_bit (waiters (events t1 e)) j <->
    has_bit (waiters (events t e)) j \/ (j = slot /\ state_for o t = Some e)) as Hbit.
  { intros e j. unfold t1. destruct (state_for o t) as [e0|]; [|naive_solver]. simpl.
    destruct (Z.eq_dec e e0) as [->|]; [rewrite upd_eq|rewrite upd_ne by done; naive_solver]. simpl.
    rewrite has_bit_set by done. naive_solver. }
  assert (forall e, (0 <= waiters (events t e) -> 0 <= waiters (events t1 e)) /\
    (state_for o t <> Some e -> waiters (events t1 e) = waiters (events t e))) as Hnn.
  { intros e. unfold t1. destruct (state_for o t) as [e0|]; [|done]. simpl.
    destruct (Z.eq_dec e e0) as [->|]; [rewrite upd_eq|by rewrite upd_ne]. simpl. split; [|done]. intros He.
    apply Z.lor_nonneg. split; [done|]. by apply Z.shiftl_nonneg. }
  destruct (IH t1) as (Hse2 & Hsr2 & Hbit2 & Hnn2 & Hsame2). split_and!.
  - by eapply same_events_trans.
  - unfold same_rest in *. destruct_and?. split_and!; congruence.
  - intros e j. rewrite Hbit2, Hbit. setoid_rewrite (same_state_for t t1); [|done].
    setoid_rewrite elem_of_cons. naive_solver.
  - intros e He. apply Hnn2, Hnn, He.
  - intros e Hno. rewrite Hsame2; [apply Hnn, Hno; by constructor|]. intros o' Ho'.
    rewrite (same_state_for t t1) by done. apply Hno. by constructor.
Qed.

Lemma scan_objects_nothing t prior rest index :
  scan_objects t prior rest index = Nothing ->
  forall o, o ∈ rest -> exists e, state_for o t = Some e /\ signaled (events t e) = false.
Proof.
  revert prior index. induction rest as [|o rest IH]; intros prior index He o' Ho'; [by apply elem_of_nil in Ho'|].
  cbn [scan_objects] in He. destruct (state_for o t) as [e|] eqn:Hst; [|done].
  destruct (bool_decide _); [done|]. destruct (signaled (events t e)) eqn:Hsg; [done|].
  apply elem_of_cons in Ho' as [->|Ho']; [by exists e|by eapply IH].
Qed.

Lemma wait_many_inv objects slot deadline timed t :
  inv t -> 0 <= slot -> inv (snd (event_wait_many objects slot deadline timed t)).
Proof.
  intros Hi Hs. unfold event_wait_many. destruct (_ || _ || _ || _ || _ || _) eqn:Hg; [done|].
  destruct (scan_objects t [] objects 0) as [|index e|] eqn:Hsc; [done| |].
  { cbn [snd]. case_if; [by apply unsignal_inv|done]. }
  boolify. cbn [snd]. destruct (join_events_spec slot objects t Hs) as (Hse & Hsr & Hbit & Hnn & Hsame).
  set (t1 := join_events slot objects t) in *. destruct Hsr as (Hws & _ & _ & Hob & Hpo & Hwk).
  set (t2 := set_pool _ _). assert (same_events t t2) as Hse2 by (destruct Hse; by constructor).
  assert (events t2 = events t1) as Hev by done.
  assert (wait_sets t slot = []) as He by (apply length_zero_iff_nil; lia).
  assert (objects <> []) as Hne by (intros ->; done).
  assert (forall j, wait_sets t2 j = if j =? slot then objects else wait_sets t j) as Hw2
    by (intros j; simpl; unfold upd; by rewrite Hws).
  assert (forall j, task_state t2 j = if j =? slot then Task.TASK_BLOCKED_EVENT else task_state t j) as Hts.
  { intros j. etrans; [apply task_state_write|]. unfold task_state. simpl. by rewrite Hpo. }
  assert (Task.task_pool_count (pool t2) = Task.task_pool_count (pool t)) as Hcount by (simpl; by rewrite Hpo).
  pose proof (scan_objects_nothing _ _ _ _ Hsc) as Hall. destruct Hi as [In Ij Iw Ir Ig Ib Iu Im].
  assert (forall j, j <> slot -> parked t2 j <-> parked t j) as Hpk
    by (intros j Hj; unfold parked; rewrite Hts, Hcount, (proj2 (Z.eqb_neq _ _)) by done; done).
  constructor.
  - intros o e. rewrite (se_names _ _ Hse2), (se_active _ _ Hse2). apply (In o e).
  - intros o o' e. rewrite !(se_names _ _ Hse2). apply Ij.
  - intros j o Hp. rewrite Hw2, (same_state_for _ _ o Hse2), Hev. intros Ho. right.
    destruct (Z.eqb_spec j slot) as [->|Hj].
    + destruct (Hall o Ho) as (e & Hst & _). exists e. split; [done|]. apply Hbit. right. split; [done|]. by exists o.
    + apply (Hpk j Hj) in Hp. destruct (Iw j o Hp Ho) as [[]|(e & Hst & Hb)]. exists e. split; [done|]. apply Hbit. by left.
  - intros e j. rewrite (se_active _ _ Hse2), Hev, Hbit, Hw2. intros Ha [Hb|(-> & o & Ho & Hst)].
    + destruct (Ir e j Ha Hb) as (o & Hst & Ho). exists o. rewrite (same_state_for _ _ o Hse2). split; [done|].
      destruct (Z.eqb_spec j slot) as [->|]; [|done]. rewrite He in Ho. by apply elem_of_nil in Ho.
    + exists o. by rewrite (same_state_for _ _ o Hse2), Z.eqb_refl.
  - intros j. rewrite Hw2. destruct (Z.eqb_spec j slot) as [->|]; [lia|apply Ig].
  - intros j Hp. rewrite Hw2. destruct (Z.eqb_spec j slot) as [->|]; [done|]. by apply Ib, Hpk.
  - intros e. rewrite (se_active _ _ Hse2), (se_signaled _ _ Hse2), Hev. intros Ha Hz.
    destruct (decide (Exists (fun o => state_for o t = Some e) objects)) as [(o & Ho & Hst)%Exists_exists|Hno].
    + destruct (Hall o Ho) as (e' & Hst' & Hsg). congruence.
    + apply Iu; [done|]. rewrite <- Hsame; [done|]. intros o Ho Hst. apply Hno, Exists_exists. by exists o.
  - intros e. rewrite (se_active _ _ Hse2), Hev. auto.
Qed.

Lemma event_create_inv m set t : inv t -> inv (snd (event_create m set t)).
Proof.
  intros Hi. unfold event_create. destruct (_ && _); [done|]. destruct (scan_range _ _ _) as [e|] eqn:Hsc; [|done].
  apply scan_range_Some in Hsc as (He & Hin%negb_true_iff & _). unfold EVENT_MAX in He.
  destruct Hi as [In Ij Iw Ir Ig Ib Iu Im].
  assert (forall o e', names t o = Some e' -> e' <> e /\ active (events t e') = true) as Hne.
  { intros o e' Hn. destruct (In o e' Hn) as [[]|Ha]. split; [congruence|done]. }
  unfold Object.object_create. change (KOBJECT_EVENT =? Object.KOBJECT_NONE) with false. cbn iota.
  set (choice := scan_range 0 Object.KOBJECT_MAX _). destruct choice as [o|] eqn:Hc; cbn [snd]; subst choice.
  - apply scan_range_Some in Hc as (_ & Hoa%negb_true_iff & _). set (t' := set_event _ _ _).
    assert (names t' o = Some e) as Hno.
    { unfold names, t'. simpl. rewrite upd_eq. simpl. unfold KOBJECT_EVENT, EVENT_MAX.
      rewrite (proj2 (nz_true (e + 1))), (proj2 (Z.ltb_ge 64 (e + 1))) by lia. simpl. f_equal. lia. }
    assert (forall o', o' <> o -> names t' o' = names t o') as Hn by (intros; unfold names, t'; simpl; by rewrite upd_ne).
    assert (names t o = None) as Hold by (unfold names; by rewrite Hoa).
    assert (forall e', e' <> e -> events t' e' = events t e') as Hev by (intros; unfold t'; simpl; by rewrite upd_ne).
    assert (events t' e = EventState m set 0 true) as Heq by (unfold t'; simpl; by rewrite upd_eq).
    assert (forall o' e', state_for o' t = Some e' -> e' <> e /\ state_for o' t' = Some e') as Hst.
    { intros o' e' [Hx Ha]%state_for_names. destruct (Hne o' e' Hx) as [Hx' _]. split; [done|]. apply state_for_names.
      rewrite Hn by congruence. by rewrite Hev. }
    constructor.
    + intros o' e' Hx. right. destruct (Z.eq_dec o' o) as [->|]; [replace e' with e by congruence; by rewrite Heq|].
      rewrite Hn in Hx by done. rewrite Hev; [by apply (Hne o')|]. by apply (Hne o').
    + intros o1 o2 e' H1 H2. destruct (Z.eq_dec o1 o) as [->|N1], (Z.eq_dec o2 o) as [->|N2]; [done|..].
      * rewrite Hn in H2 by done. replace e' with e in H2 by congruence. by destruct (Hne _ _ H2).
      * rewrite Hn in H1 by done. replace e' with e in H1 by congruence. by destruct (Hne _ _ H1).
      * rewrite Hn in H1 by done. rewrite Hn in H2 by done. by eapply Ij.
    + intros slot o' Hp Ho'. destruct (Iw slot o' Hp Ho') as [[]|(e' & Hx & Hb)]. right. exists e'.
      destruct (Hst o' e' Hx). split; [done|]. by rewrite Hev.
    + intros e' slot Ha Hb. destruct (Z.eq_dec e' e) as [->|Hx]; [rewrite Heq in Hb; by apply has_bit_zero in Hb|].
      rewrite Hev in * by done. destruct (Ir e' slot Ha Hb) as (o' & Hs & Ho'). exists o'. split; [|done]. by apply Hst.
    + apply Ig.
    + apply Ib.
    + intros e'. destruct (Z.eq_dec e' e) as [->|]; [by rewrite Heq|rewrite Hev by done; auto].
    + intros e'. destruct (Z.eq_dec e' e) as [->|]; [by rewrite Heq|rewrite Hev by done; auto].
  - set (t' := set_event _ _ _). assert (forall e', active (events t' e') = active (events t e') /\
      (active (events t' e') = true -> events t' e' = events t e')) as Hev.
    { intros e'. unfold t'. simpl. destruct (Z.eq_dec e' e) as [->|]; [rewrite upd_eq; simpl; split; congruence|by rewrite upd_ne]. }
    assert (forall o, state_for o t' = state_for o t) as Hst.
    { intros o. unfold state_for. change (names t' o) with (names t o). destruct (names t o) as [e'|]; [|done].
      by rewrite (proj1 (Hev e')). }
    constructor.
    + intros o e' Hx. rewrite (proj1 (Hev e')). right. by apply (Hne o).
    + apply Ij.
    + intros slot o Hp Ho. destruct (Iw slot o Hp Ho) as [[]|(e' & Hx & Hb)]. right. exists e'. rewrite Hst. split; [done|].
      rewrite (proj2 (Hev e')); [done|]. rewrite (proj1 (Hev e')). by apply state_for_names in Hx as [_ Hx].
    + intros e' slot Ha. rewrite (proj2 (Hev e') Ha). rewrite (proj1 (Hev e')) in Ha. intros Hb.
      destruct (Ir e' slot Ha Hb) as (o & ? & ?). exists o. by rewrite Hst.
    + apply Ig.
    + apply Ib.
    + intros e' Ha. rewrite (proj2 (Hev e') Ha). rewrite (proj1 (Hev e')) in Ha. auto.
    + intros e' Ha. rewrite (proj2 (Hev e') Ha). rewrite (proj1 (Hev e')) in Ha. auto.
Qed.

(** A change of the object table that events do not notice. *)
Lemma objs_inv X D os t : inv_but X D t -> (forall o, names (set_objs os t) o = names t o) -> inv_but X D (set_objs os t).
Proof.
  intros [In Ij Iw Ir Ig Ib Iu Im] Hn. assert (forall o, state_for o (set_objs os t) = state_for o t) as Hst
    by (intros o; unfold state_for; by rewrite Hn).
  constructor; try done.
  - intros o e. rewrite Hn. apply (In o e).
  - intros o o' e. rewrite !Hn. apply Ij.
  - intros slot o. rewrite Hst. apply Iw.
  - intros e slot Ha Hb. destruct (Ir e slot Ha Hb) as (o & ? & ?). exists o. by rewrite Hst.
Qed.

(** The last reference of an event goes: [event_destroy] runs and the object
    is freed. *)
Definition destroyed (o : Z) (os : Object.table) (t : table) : table :=
  let t := event_destroy o (set_objs os t) in
  set_objs (Object.release_finish o (objs t)) t.

Lemma release_drop_names o d os t o' :
  Object.release_drop o (objs t) = (d, os) -> names (set_objs os t) o' = names t o'.
Proof.
  unfold Object.release_drop, names. destruct (_ || _); [by intros [= <- <-]|].
  destruct (nz _); intros [= <- <-]; simpl; (destruct (Z.eq_dec o' o) as [->|]; [by rewrite upd_eq|by rewrite upd_ne]).
Qed.

Lemma event_destroy_live o e t :
  state_for o t = Some e ->
  event_destroy o t =
  wake_mask (waiters (events t e)) (fun _ _ => -3) (set_event e (EventState (mode (events t e)) false 0 false) t).
Proof.
  intros [Hn Ha]%state_for_names. unfold event_destroy. unfold names in Hn.
  destruct (_ || _ || _ || _) eqn:Hg in Hn; [done|]. injection Hn as He.
  apply orb_false_iff in Hg as [[[_ Hg1]%orb_false_iff Hg2]%orb_false_iff Hg3].
  rewrite Hg1, Hg2, Hg3, He, Ha. reflexivity.
Qed.

(** What [event_destroy] leaves, before its object is freed. *)
Lemma event_destroy_spec o e t :
  inv t -> state_for o t = Some e ->
  let t1 := event_destroy o t in
  inv_but (fun _ _ => False) (fun o' => o' = o) t1 /\ (forall slot, parked t1 slot -> o ∉ wait_sets t1 slot) /\
  forall o' e', state_for o' t1 = Some e' -> o' <> o.
Proof.
  intros Hi Hst. rewrite (event_destroy_live o e t Hst).
  destruct (wake_mask_all_spec o e (EventState (mode (events t e)) false 0 false) (fun _ _ => -3) t Hi Hst eq_refl ltac:(done))
    as ([In Ij Iw Ir Ig Ib Iu Im] & Hout & X & D & Hwm).
  set (t1 := wake_mask _ _ _) in *. clearbody t1. pose proof (wm_same _ _ _ _ _ _ _ Hwm) as Hse.
  pose proof Hst as [Hn _]%state_for_names. split_and!; [|exact Hout|].
  - constructor; try assumption. intros o' e' Hx. destruct (In o' e' Hx) as [[Hx' _]|]; [by left|by right].
  - intros o' e' [Hx Hy]%state_for_names ->. rewrite (se_active _ _ Hse) in Hy.
    assert (e' = e) as -> by (rewrite (se_names _ _ Hse) in Hx; cbv [names set_event objs] in Hx, Hn; congruence).
    cbn [set_event events] in Hy. rewrite upd_eq in Hy. done.
Qed.

Lemma destroy_finish_inv o t :
  inv_but (fun _ _ => False) (fun o' => o' = o) t -> (forall o' e', state_for o' t = Some e' -> o' <> o) ->
  inv (set_objs (Object.release_finish o (objs t)) t).
Proof.
  intros [In Ij Iw Ir Ig Ib Iu Im] Hnoo. set (t2 := set_objs _ t).
  assert (forall e', names t2 o <> Some e') as Hno by (intros e'; unfold names, t2; simpl; by rewrite upd_eq).
  assert (forall o', o' <> o -> names t2 o' = names t o') as Hne by (intros; unfold names, t2; simpl; by rewrite upd_ne).
  assert (forall o' e', state_for o' t = Some e' -> state_for o' t2 = Some e') as Hsf.
  { intros o' e' Hx. pose proof (Hnoo _ _ Hx). apply state_for_names in Hx as [Hx Hy]. apply state_for_names.
    by rewrite Hne. }
  constructor; [| | | |exact Ig|exact Ib|exact Iu|exact Im].
  - intros o' e' Hx. destruct (Z.eq_dec o' o) as [->|Ho']; [destruct (Hno _ Hx)|]. rewrite (Hne o' Ho') in Hx.
    destruct (In o' e' Hx) as [Hx'|Hx']; [destruct (Ho' Hx')|right; exact Hx'].
  - intros o1 o2 e' Hx1 Hx2. destruct (Z.eq_dec o1 o) as [->|Ho1]; [destruct (Hno _ Hx1)|].
    destruct (Z.eq_dec o2 o) as [->|Ho2]; [destruct (Hno _ Hx2)|].
    rewrite (Hne _ Ho1) in Hx1. rewrite (Hne _ Ho2) in Hx2. exact (Ij _ _ _ Hx1 Hx2).
  - intros slot o' Hp Ho'. destruct (Iw slot o' Hp Ho') as [[]|(e' & Hx & Hb)]. right. exists e'. split; [|exact Hb]. by apply Hsf.
  - intros e' slot Hx Hb. destruct (Ir e' slot Hx Hb) as (o' & Hs & Ho'). exists o'. split; [|exact Ho']. by apply Hsf.
Qed.

Lemma destroyed_inv o d os t e :
  inv t -> Object.release_drop o (objs t) = (Some d, os) -> names t o = Some e -> inv (destroyed o os t).
Proof.
  intros Hi Hr Hn. unfold destroyed.
  assert (inv (set_objs os t)) as Hi0 by (apply objs_inv; [done|]; intros; by eapply release_drop_names).
  rewrite <- (release_drop_names _ _ _ _ o Hr) in Hn.
  assert (state_for o (set_objs os t) = Some e) as Hst
    by (apply state_for_names; split; [done|]; by destruct (iv_named _ _ _ Hi0 o e Hn)).
  destruct (event_destroy_spec o e _ Hi0 Hst) as (Hi1 & _ & Hno). by apply destroy_finish_inv.
Qed.

(** ** Stopping a parked task *)

(** The task pool's part of [wake_with_eintr] in [posix_signal.c]. *)
Definition wake_with_eintr (slot : Z) (p : Task.pool) : Task.pool :=
  match Task.task_sleep_wake_claim slot p with
  | (Some _, p) => p
  | (None, p) =>
      let state := Task.tasks p slot Task.f_state in
      if (state =? Task.TASK_BLOCKED_PIPE) || (state =? Task.TASK_BLOCKED_SOCKET) ||
         (state =? Task.TASK_BLOCKED_POLL) || (state =? Task.TASK_BLOCKED_TTY)
      then snd (Task.task_state_wake (Some slot) state p)
      else snd (Task.task_wait_cancel (Some slot) (-1) p)
  end.

(** That of [posix_signal_stop]. *)
Definition posix_signal_stop (slot signo : Z) (p : Task.pool) : Task.pool :=
  let state := Task.tasks p slot Task.f_state in
  if state =? Task.TASK_STOPPED then p else
  let p := if negb (state =? Task.TASK_RUNNING) then wake_with_eintr slot p else p in
  Task.write slot [(Task.f_stop_report, signo)] (Task.task_state_set (Some slot) Task.TASK_STOPPED p).

(** What the other modules may do with the tasks: anything but putting one in
    [TASK_BLOCKED_EVENT]. *)
Definition blocks_none (t : table) (p : Task.pool) : Prop :=
  forall slot, Task.tasks p slot Task.f_state = Task.TASK_BLOCKED_EVENT -> slot < Task.task_pool_count p ->
    task_state t slot = Task.TASK_BLOCKED_EVENT /\ slot < Task.task_pool_count (pool t).

Lemma pool_inv p t : inv t -> blocks_none t p -> inv (set_pool p t).
Proof.
  intros [In Ij Iw Ir Ig Ib Iu Im] Hb. assert (forall slot, parked (set_pool p t) slot -> parked t slot) as Hp.
  { intros slot (Hs & Hc & Hst). destruct (Hb slot Hst Hc). exact (conj Hs (conj H0 H)). }
  constructor; try done.
  - intros slot o Hpk. apply Iw. by apply Hp.
  - intros slot Hpk. by apply Ib, Hp.
Qed.

Lemma wake_with_eintr_other slot p :
  Task.task_pool_count (wake_with_eintr slot p) = Task.task_pool_count p /\
  forall j, j <> slot -> Task.tasks (wake_with_eintr slot p) j = Task.tasks p j.
Proof.
  unfold wake_with_eintr, Task.task_sleep_wake_claim, Task.task_state_wake, Task.task_state_wake_locked, Task.task_wait_cancel.
  repeat case_match; simplify_eq; simpl; (split; [done|]); intros j Hj; by rewrite ?upd_ne.
Qed.

(** ** Reachable states *)

Lemma stop_blocks_none slot signo t : blocks_none t (posix_signal_stop slot signo (pool t)).
Proof.
  intros j. unfold posix_signal_stop, task_state. destruct (_ =? Task.TASK_STOPPED); [done|]. set (p := if negb _ then _ else _).
  assert (Task.task_pool_count p = Task.task_pool_count (pool t) /\ forall j, j <> slot -> Task.tasks p j = Task.tasks (pool t) j) as [Hc Ho]
    by (unfold p; destruct (negb _); [apply wake_with_eintr_other|done]).
  simpl. rewrite Hc. destruct (Z.eq_dec j slot) as [->|Hj]; [rewrite !upd_eq; discriminate|]. by rewrite !upd_ne, Ho.
Qed.

Inductive step : table -> table -> Prop :=
  | es_create m set t : step t (snd (event_create m set t))
  | es_wait objects slot deadline timed t :
      0 <= slot -> step t (snd (event_wait_many objects slot deadline timed t))
  | es_signal o t : step t (snd (event_signal o t))
  | es_reset o t : step t (snd (event_reset o t))
  | es_tick now result t :
      Task.task_pool_count (pool t) <= Task.MAX_TASKS -> step t (event_tick now result t)
  | es_cancel slot result t : 0 <= slot -> step t (event_cancel_task slot result t)
  | es_destroy o d os e t :
      Object.release_drop o (objs t) = (Some d, os) -> names t o = Some e -> step t (destroyed o os t)
  | es_objects os t : (forall o, names (set_objs os t) o = names t o) -> step t (set_objs os t)
  | es_stop slot signo t : step t (set_pool (posix_signal_stop slot signo (pool t)) t)
  | es_tasks p t : blocks_none t p -> step t (set_pool p t).

(** Boot: no event object and no task blocked on one. *)
Definition quiet (t : table) : Prop :=
  (forall o, names t o = None) /\
  (forall slot, 0 <= slot < Task.MAX_TASKS -> slot < Task.task_pool_count (pool t) ->
     task_state t slot <> Task.TASK_BLOCKED_EVENT).

Lemma init_inv t : quiet t -> inv (event_init t).
Proof.
  intros [Hn Hq]. constructor; try done.
  - intros o e. change (names (event_init t) o) with (names t o). by rewrite Hn.
  - intros o o' e. change (names (event_init t) o) with (names t o). by rewrite Hn.
  - intros slot o _. by intros ?%elem_of_nil.
  - intros slot (? & ? & ?). by destruct (Hq slot).
Qed.

Lemma step_inv t t' : step t t' -> inv t -> inv t'.
Proof.
  destruct 1; intros Hi.
  - by apply event_create_inv.
  - by apply wait_many_inv.
  - by apply event_signal_inv.
  - by apply reset_inv.
  - by apply tick_inv.
  - by apply cancel_inv.
  - by eapply destroyed_inv.
  - by apply objs_inv.
  - by apply pool_inv, stop_blocks_none.
  - by apply pool_inv.
Qed.

Lemma reachable_inv t0 t : quiet t0 -> rtc step (event_init t0) t -> inv t.
Proof.
  intros Hq Hs. remember (event_init t0) as t1 eqn:He. assert (inv t1) as Hi by (subst; by apply init_inv). clear He.
  induction Hs as [|t1 t2 t3 Hst _ IH]; [done|]. apply IH. by eapply step_inv.
Qed.

Lemma wait_index_found o slot t :
  o ∈ wait_sets t slot -> slot < Task.MAX_TASKS ->
  exists i : nat, wait_index slot o t = Z.of_nat i /\ wait_sets t slot !! i = Some o.
Proof.
  intros Ho Hs. unfold wait_index. rewrite (proj2 (Z.leb_gt _ _)) by lia. revert Ho.
  generalize (wait_sets t slot). induction l as [|x l IH]; [by intros ?%elem_of_nil|].
  cbn [find_index]. destruct (Z.eqb_spec x o) as [->|Hne]; [intros _; by exists 0%nat|].
  intros [->|Hin]%elem_of_cons; [done|]. destruct (IH Hin) as (i & Hi & Hl).
  destruct (find_index _ l) as [k|]; [|pose proof (Nat2Z.is_nonneg i); lia].
  exists (S k). assert (i = k) as -> by lia. split; [reflexivity|done].
Qed.

Lemma stop_blocked_event slot signo t :
  task_state t slot = Task.TASK_BLOCKED_EVENT ->
  forall j, task_state (set_pool (posix_signal_stop slot signo (pool t)) t) j =
    if j =? slot then Task.TASK_STOPPED else task_state t j.
Proof.
  unfold task_state. intros Hst j. unfold posix_signal_stop. rewrite Hst.
  change (Task.TASK_BLOCKED_EVENT =? Task.TASK_STOPPED) with false.
  change (Task.TASK_BLOCKED_EVENT =? Task.TASK_RUNNING) with false. cbn [negb].
  assert (wake_with_eintr slot (pool t) = pool t) as ->.
  { unfold wake_with_eintr, Task.task_sleep_wake_claim. rewrite Hst. simpl. rewrite Hst. simpl.
    unfold Task.wait_matches. rewrite Hst. done. }
  simpl. unfold upd. destruct (Z.eqb_spec j slot) as [->|]; [|done]. rewrite Z.eqb_refl. reflexivity.
Qed.

(** ** Signals *)

(** Signalling an automatic event with [slot] first in line. *)
Lemma signal_auto o e slot t :
  inv t -> state_for o t = Some e -> has_bit (waiters (events t e)) slot ->
  let t' := wake_slot slot (wait_index slot o t)
              (set_waiters e (Z.land (waiters (events t e)) (Z.lnot (Z.shiftl 1 slot))) t) in
  signaled (events t' e) = false /\
  (parked t slot -> wakes t' = (slot, wait_index slot o t) :: wakes t /\
     forall j, task_state t' j = if j =? slot then Task.TASK_RUNNING else task_state t j) /\
  (~ parked t slot -> wakes t' = wakes t /\ forall j, task_state t' j = task_state t j).
Proof.
  intros Hi Hst Hb. pose proof Hst as [Hn Ha]%state_for_names. pose proof (registered_slot t e slot Hi Ha Hb) as Hs.
  pose proof (iv_mask _ _ t Hi e Ha) as Hnn.
  set (v := EventState (mode (events t e)) (signaled (events t e))
              (Z.land (waiters (events t e)) (Z.lnot (Z.shiftl 1 slot))) (active (events t e))).
  assert (forall j, has_bit (waiters v) j -> has_bit (waiters (events t e)) j) as Hvb
    by (intros j [? _]%has_bit_clear; [done|lia]).
  assert (0 <= waiters v) as Hvn by (simpl; apply Z.land_nonneg; by left).
  assert (signaled (events t e) = false) as Hsg.
  { apply (iv_unsignaled _ _ t Hi e Ha). intros Hz. rewrite Hz in Hb. by apply has_bit_zero in Hb. }
  pose proof (strip_event o e v t Hi Hst Hvb Hvn (fun _ _ => Hsg)) as Hstrip.
  destruct (wake_slot_spec _ _ slot (wait_index slot o t) _ Hstrip Hs) as (_ & Hse & Hwk & _).
  change (set_waiters e _ t) with (set_event e v t). cbv zeta. split.
  - rewrite (se_signaled _ _ Hse). simpl. rewrite upd_eq. exact Hsg.
  - change (parked (set_event e v t) slot) with (parked t slot) in Hwk. destruct Hwk as [[Hp ->]|(Hp & Hlog & _ & Hts)]; (split; intros Hx); try done.
Qed.

(** Signalling a manual event with waiters. *)
Lemma signal_manual o e t :
  inv t -> state_for o t = Some e ->
  let t' := wake_mask (waiters (events t e)) (fun slot t => wait_index slot o t)
              (set_event e (EventState (mode (events t e)) true 0 (active (events t e))) t) in
  let released := fun j => has_bit (waiters (events t e)) j /\ parked t j in
  signaled (events t' e) = true /\
  (forall j, released j -> o ∈ wait_sets t j -> task_state t' j = Task.TASK_RUNNING /\
     exists i : nat, wait_sets t j !! i = Some o /\ (j, Z.of_nat i) ∈ wakes t') /\
  (forall j, ~ released j -> task_state t' j = task_state t j).
Proof.
  intros Hi Hst. pose proof Hst as [Hn Ha]%state_for_names.
  destruct (wake_mask_all_spec o e (EventState (mode (events t e)) true 0 (active (events t e)))
    (fun slot t => wait_index slot o t) t Hi Hst eq_refl) as (_ & _ & X & D & Hwm);
    [intros; by apply wait_index_ext|].
  set (t' := wake_mask _ _ _) in *. cbv zeta. clearbody t'. split_and!.
  - rewrite (se_signaled _ _ (wm_same _ _ _ _ _ _ _ Hwm)). simpl. by rewrite upd_eq.
  - intros j [Hb Hp] Ho. pose proof (registered_slot t e j Hi Ha Hb) as Hs.
    assert (bit_of (waiters (events t e)) j = true) as Hbo by (apply bit_of_has; [lia|done]). split.
    + rewrite (wm_tasks _ _ _ _ _ _ _ Hwm), Hbo, (proj2 (Z.leb_le _ _)), (proj2 (Z.ltb_lt _ _)) by lia.
      by rewrite bool_decide_eq_true_2.
    + destruct (wait_index_found o j t Ho ltac:(lia)) as (i & Hix & Hl). exists i. split; [done|].
      apply (wm_wakes _ _ _ _ _ _ _ Hwm). right. split_and!; try done; try lia.
  - intros j Hb. rewrite (wm_tasks _ _ _ _ _ _ _ Hwm). destruct (_ && _ && _ && _) eqn:Hx; [|done]. exfalso.
    apply andb_true_iff in Hx as [[[Hx Hj%Z.leb_le]%andb_true_iff _]%andb_true_iff Hp%bool_decide_eq_true]. apply Hb. by split; [apply bit_of_has|].
Qed.

(** ** Properties *)

(** C3: No wake-up is lost: in every reachable state, whatever tasks were
    stopped while they waited, a task blocked on events waits for at least one,
    and every event it waits for is live, is not signaled and has the task
    registered, so that a signal or the end of the event finds it. *)
Theorem event_no_lost_wakeup t0 t slot :
  quiet t0 -> rtc step (event_init t0) t ->
  0 <= slot < Task.MAX_TASKS -> slot < Task.task_pool_count (pool t) ->
  task_state t slot = Task.TASK_BLOCKED_EVENT ->
  wait_sets t slot <> [] /\
  forall o, o ∈ wait_sets t slot -> exists e,
    state_for o t = Some e /\ has_bit (waiters (events t e)) slot /\ signaled (events t e) = false.
Proof.
  intros Hq Hs Hslot Hc Hst. pose proof (reachable_inv t0 t Hq Hs) as Hi.
  pose proof (conj Hslot (conj Hc Hst) : parked t slot) as Hp. split; [by apply (iv_parked _ _ t Hi)|].
  intros o Ho. destruct (iv_waiting _ _ t Hi slot o Hp Ho) as [[]|(e & He & Hb)]. exists e. split_and!; [done|done|].
  apply state_for_names in He as [_ Ha]. apply (iv_unsignaled _ _ t Hi e Ha). intros Hz. rewrite Hz in Hb.
  by apply has_bit_zero in Hb.
Qed.

(** What a signal does, in every reachable state.  With no task registered
    it is remembered.  An automatic event takes the registered task of the
    lowest slot: if it is still blocked it runs, with the position of the event
    in its list as its result; if it was stopped while it waited, nobody runs
    and the signal is gone.  A manual event stays signaled and releases exactly
    the registered tasks that are still blocked.  A blocked task that waits for
    the event is registered, and a registered one has it in its list. *)
Theorem event_signal_correct t0 t o e :
  quiet t0 -> rtc step (event_init t0) t -> state_for o t = Some e ->
  let '(code, t') := event_signal o t in
  let registered := fun slot => has_bit (waiters (events t e)) slot in
  code = 0 /\
  (forall slot, registered slot -> o ∈ wait_sets t slot) /\
  (forall slot, parked t slot -> o ∈ wait_sets t slot -> registered slot) /\
  ((forall slot, ~ registered slot) /\ signaled (events t' e) = true /\ wakes t' = wakes t /\
     (forall j, task_state t' j = task_state t j) \/
   mode (events t e) <> EVENT_MANUAL_RESET /\ signaled (events t' e) = false /\
     (exists slot, registered slot /\ (forall j, registered j -> slot <= j) /\
       (parked t slot -> exists i : nat, wait_sets t slot !! i = Some o /\ wakes t' = (slot, Z.of_nat i) :: wakes t /\
          forall j, task_state t' j = if j =? slot then Task.TASK_RUNNING else task_state t j) /\
       (~ parked t slot -> wakes t' = wakes t /\ forall j, task_state t' j = task_state t j)) \/
   mode (events t e) = EVENT_MANUAL_RESET /\ signaled (events t' e) = true /\
     (forall j, registered j -> parked t j -> task_state t' j = Task.TASK_RUNNING /\
        exists i : nat, wait_sets t j !! i = Some o /\ (j, Z.of_nat i) ∈ wakes t') /\
     (forall j, ~ (registered j /\ parked t j) -> task_state t' j = task_state t j)).
Proof.
  intros Hq Hs Hst. pose proof (reachable_inv t0 t Hq Hs) as Hi. pose proof Hst as [Hn Ha]%state_for_names.
  assert (forall slot, has_bit (waiters (events t e)) slot -> o ∈ wait_sets t slot) as Hw.
  { intros slot Hb. destruct (iv_registered _ _ t Hi e slot Ha Hb) as (o' & [Hn' _]%state_for_names & Ho').
    assert (o = o') as -> by (by eapply (iv_inj _ _ t Hi)). done. }
  pose proof (fun slot => waiting_bit t o e slot Hi Hst) as Hw'.
  unfold event_signal. rewrite Hst. destruct (nz (waiters (events t e))) eqn:Hz; cbn [negb].
  2: { apply nz_false in Hz. split_and!; [done..|left]. split_and!; [|simpl; by rewrite upd_eq|done|done].
       intros slot Ho. rewrite Hz in Ho. by apply has_bit_zero in Ho. }
  apply nz_true in Hz. destruct (Z.eqb_spec (mode (events t e)) EVENT_MANUAL_RESET) as [Hm|Hm].
  - destruct (signal_manual o e t Hi Hst) as (Hsig & Hrun & Hrest).
    cbv beta iota zeta. split_and!; [done..|right; right]. split_and!; [done|done| |exact Hrest].
    intros j Hj Hp. by apply Hrun; [|apply Hw].
  - destruct (scan_range _ _ _) as [slot|] eqn:Hsc.
    + apply scan_range_Some in Hsc as (Hr & Hb & Hmin). apply bit_of_has in Hb; [|lia].
      destruct (signal_auto o e slot t Hi Hst Hb) as (Hsig & Hrun & Hlost).
      destruct (wait_index_found o slot t) as (i & Hix & Hl); [by apply Hw|lia|].
      split_and!; [done..|right; left]. split_and!; [done|done|]. exists slot. split_and!; [done| | |exact Hlost].
      * intros j Hj. destruct (Z.le_gt_cases slot j) as [|Hlt]; [done|].
        pose proof (registered_slot t e j Hi Ha Hj). specialize (Hmin j ltac:(lia)).
        rewrite (proj2 (bit_of_has _ j ltac:(lia)) Hj) in Hmin. done.
      * intros Hp. exists i. rewrite <- Hix. split; [done|]. by apply Hrun.
    + exfalso. destruct (mask_bit (waiters (events t e))) as [j Hj]; [by apply (iv_mask _ _ t Hi)|done|].
      pose proof (registered_slot t e j Hi Ha Hj). rewrite scan_range_None in Hsc.
      specialize (Hsc j ltac:(lia)). rewrite (proj2 (bit_of_has _ j ltac:(lia)) Hj) in Hsc. done.
Qed.

(** Stopping a task that waits on an automatic event loses the next
    signal: [posix_signal_stop] takes the task out of [TASK_BLOCKED_EVENT]
    without cancelling its wait, so [event_signal] picks it, wakes nobody,
    leaves the event unsignaled and answers 0, even with other tasks waiting;
    and the stopped task keeps its wait set, with which every later wait of it
    is refused. *)
Theorem event_stop_loses_signal t0 t o e slot signo :
  quiet t0 -> rtc step (event_init t0) t -> state_for o t = Some e -> mode (events t e) = EVENT_AUTO_RESET ->
  parked t slot -> o ∈ wait_sets t slot -> (forall j, o ∈ wait_sets t j -> slot <= j) ->
  let stopped := set_pool (posix_signal_stop slot signo (pool t)) t in
  let '(code, t') := event_signal o stopped in
  code = 0 /\ signaled (events t' e) = false /\ wakes t' = wakes t /\
  (forall j, task_state t' j = task_state stopped j) /\
  forall p objects deadline timed, event_wait_many objects slot deadline timed (set_pool p t') = (-1, None, set_pool p t').
Proof.
  intros Hq Hs Hst Hm Hpk Ho Hmin. pose proof (reachable_inv t0 t Hq Hs) as Hi. pose proof Hst as [Hn Ha]%state_for_names.
  pose proof (waiting_bit t o e slot Hi Hst Hpk Ho) as Hb. pose proof (registered_slot t e slot Hi Ha Hb) as Hr.
  assert (wait_sets t slot <> []) as Hne by (intros He; rewrite He in Ho; by apply elem_of_nil in Ho).
  assert (waiters (events t e) <> 0) as Hz by (intros Hz; rewrite Hz in Hb; by apply has_bit_zero in Hb).
  pose proof Hpk as (_ & _ & Hblk).
  pose proof (stop_blocked_event slot signo t Hblk) as Hts. intros stopped. fold stopped in Hts.
  assert (state_for o stopped = Some e) as Hst' by exact Hst.
  assert (scan_range 0 Task.MAX_TASKS (bit_of (waiters (events t e))) = Some slot) as Hsc.
  { apply scan_range_Some. split_and!; [lia|lia|by apply bit_of_has; [lia|]|]. intros j Hj.
    apply not_true_iff_false. intros Hbj%bit_of_has; [|lia].
    destruct (iv_registered _ _ t Hi e j Ha Hbj) as (o' & [Hn' _]%state_for_names & Ho').
    assert (o' = o) as -> by (by eapply (iv_inj _ _ t Hi)). specialize (Hmin j Ho'). lia. }
  unfold event_signal. rewrite Hst'. change (events stopped e) with (events t e).
  rewrite (proj2 (nz_true _) Hz), Hm. cbn [negb]. change (EVENT_AUTO_RESET =? EVENT_MANUAL_RESET) with false. cbn iota.
  rewrite Hsc. unfold wake_slot. match goal with |- context [if ?b || ?c then _ else _] => assert (c = true) as -> end.
  { apply negb_true_iff, Z.eqb_neq. specialize (Hts slot). rewrite Z.eqb_refl in Hts. unfold task_state in *.
    cbn [pool set_waiters set_event]. rewrite Hts. discriminate. }
  rewrite orb_true_r. cbv beta iota zeta. split_and!; [done| |done|done|].
  - simpl. rewrite upd_eq. simpl. by apply (iv_unsignaled _ _ t Hi).
  - intros p objects deadline timed. unfold event_wait_many.
    match goal with |- context [_ || nz ?n] => assert (nz n = true) as -> end; [|by rewrite orb_true_r].
    apply nz_true. simpl. destruct (wait_sets t slot); [done|]. simpl. lia.
Qed.

(** ** Instances *)

(** Two running tasks besides the kernel's, one automatic event. *)
Definition example_boot : table :=
  Table (fun _ => EventState 0 false 0 false) (fun _ => []) (fun _ => 0) (fun _ => false) Object.object_init
    (Task.Pool (fun _ _ => 0) 3) [].

Definition example_event : table := snd (event_create EVENT_AUTO_RESET false (event_init example_boot)).

Definition example_waiting : table :=
  snd (event_wait_many [0] 2 0 false (snd (event_wait_many [0] 1 0 false example_event))).

Lemma example_quiet : quiet example_boot.
Proof. split; [intros o; reflexivity|]. intros slot _ _. discriminate. Qed.

Lemma example_waiting_reachable : rtc step (event_init example_boot) example_waiting.
Proof.
  eapply rtc_l; [apply (es_create EVENT_AUTO_RESET false)|]. eapply rtc_l; [apply (es_wait [0] 1 0 false); lia|].
  apply rtc_once. apply (es_wait [0] 2 0 false). lia.
Qed.

(** The first of them is stopped. *)
Definition example_stopped : table := set_pool (posix_signal_stop 1 19 (pool example_waiting)) example_waiting.

Lemma example_stopped_reachable : rtc step (event_init example_boot) example_stopped.
Proof. eapply rtc_r; [exact example_waiting_reachable|]. apply es_stop. Qed.

Lemma event_no_lost_wakeup_witness :
  wait_sets example_stopped 2 <> [] /\
  forall o, o ∈ wait_sets example_stopped 2 -> exists e,
    state_for o example_stopped = Some e /\ has_bit (waiters (events example_stopped e)) 2 /\
    signaled (events example_stopped e) = false.
Proof.
  apply (event_no_lost_wakeup example_boot example_stopped 2 example_quiet example_stopped_reachable).
  - unfold Task.MAX_TASKS. lia.
  - vm_compute. reflexivity.
  - vm_compute. reflexivity.
Defined.

Lemma event_signal_correct_witness :
  fst (event_signal 0 example_waiting) = 0 /\ wakes (snd (event_signal 0 example_waiting)) = [(1, 0)] /\
  fst (event_signal 0 example_stopped) = 0 /\ wakes (snd (event_signal 0 example_stopped)) = [].
Proof.
  pose proof (event_signal_correct example_boot example_waiting 0 0 example_quiet example_waiting_reachable
                ltac:(vm_compute; reflexivity)) as Hc.
  pose proof (event_signal_correct example_boot example_stopped 0 0 example_quiet example_stopped_reachable
                ltac:(vm_compute; reflexivity)) as Hd.
  split; [|split; [vm_compute; reflexivity|split; [|vm_compute; reflexivity]]].
  - destruct (event_signal 0 example_waiting) as [code t']. destruct Hc as [Hcode _]. exact Hcode.
  - destruct (event_signal 0 example_stopped) as [code t']. destruct Hd as [Hcode _]. exact Hcode.
Defined.

Lemma event_stop_loses_signal_witness :
  let stopped := set_pool (posix_signal_stop 1 19 (pool example_waiting)) example_waiting in
  fst (event_signal 0 stopped) = 0 /\ wakes (snd (event_signal 0 stopped)) = [] /\
  task_state (snd (event_signal 0 stopped)) 2 = Task.TASK_BLOCKED_EVENT.
Proof.
  cbv zeta.
  pose proof (event_stop_loses_signal example_boot example_waiting 0 0 1 19 example_quiet example_waiting_reachable) as Hl.
  cbv zeta in Hl. destruct (event_signal 0 _) as [code t'] eqn:He.
  destruct Hl as (Hcode & _ & Hwk & Hts & _).
  - vm_compute. reflexivity.
  - vm_compute. reflexivity.
  - split; [unfold Task.MAX_TASKS; lia|split; vm_compute; reflexivity].
  - vm_compute. by constructor.
  - intros j Hj. destruct (Z.eq_dec j 1) as [->|]; [lia|]. destruct (Z.eq_dec j 2) as [->|]; [lia|]. exfalso.
    assert (wait_sets example_waiting j = []) as Hw; [|rewrite Hw in Hj; by apply elem_of_nil in Hj].
    change (wait_sets example_waiting j) with (upd (upd (fun _ => []) 1 [0]) 2 [0] j).
    by rewrite !upd_ne.
  - split; [exact Hcode|]. split; [cbn [snd]; rewrite Hwk; reflexivity|]. cbn [snd]. rewrite Hts. reflexivity.
Defined.

End Event.
