(* ===== verification/TcpCc.v ===== *)
(** TCP congestion control: [src/net/tcp_cc.c].

    The two policies, Reno and BBR, as functions on the part of
    [struct tcp_connection] they read and write, and the division the BBR
    bandwidth estimate uses.  A policy is a record of its hooks, as the table
    of function pointers is. *)

From S2P Require Import Prelude.

Module TcpCc.

(** The largest segment: what [remote_mss] is capped at. *)
Definition TCP_RETRANSMIT_DATA_MAX : Z := 1460.

Definition TCP_BBR_STARTUP : Z := 0.

Definition TCP_BBR_DRAIN : Z := 1.

Definition TCP_BBR_PROBE_BW : Z := 2.

Definition TCP_BBR_PROBE_RTT : Z := 3.

Definition TCP_BBR_WINDOW : Z := 10000.

Definition TCP_BBR_PROBE_RTT_DURATION : Z := 200.

(** The members of [struct tcp_connection] the policies use. *)
Record tcp_connection := Connection {
  remote_mss : Z;
  congestion_window : Z;
  slow_start_threshold : Z;
  bbr_phase : Z;
  bbr_min_rtt : Z;
  bbr_min_rtt_deadline : Z;
  bbr_bw : Z;
  bbr_bw_window_end : Z;
  bbr_delivered : Z;
  bbr_interval_start : Z;
  bbr_probe_count : Z;
  bbr_probe_rtt_start : Z;
  bbr_startup_rounds : Z;
  bbr_round : Z
}.

(** The hooks of a policy. *)
Record tcp_cc_ops := Ops {
  init : tcp_connection -> tcp_connection;
  on_ack : Z -> Z -> Z -> tcp_connection -> tcp_connection;
  on_rtt : Z -> Z -> Z -> tcp_connection -> tcp_connection;
  on_fast_retransmit : Z -> tcp_connection -> tcp_connection;
  on_rto : Z -> tcp_connection -> tcp_connection
}.

(** ** Division *)

(** The [do ... while (shift--)] loop: [n] iterations are left, the next with
    [shift = n - 1]. *)
Fixpoint high_loop (n : nat) (d rem res : Z) : Z * Z :=
  match n with
  | O => (rem, res)
  | S n =>
      let shift := Z.of_nat n in
      if d <=? rem then high_loop n d (u32 (rem - u32 (Z.shiftl d shift))) (Z.lor res (u32 (Z.shiftl 1 shift)))
      else high_loop n d rem res
  end.

(** The [while (bits--)] loop with [bits] iterations left. *)
Fixpoint low_loop (bits : nat) (n d rem res : Z) : Z :=
  match bits with
  | O => res
  | S bits =>
      let rem := Z.lor (u32 (Z.shiftl rem 1)) (Z.land (Z.shiftr n (Z.of_nat bits)) 1) in
      if d <=? rem then low_loop bits n d (rem - d) (Z.lor (u32 (Z.shiftl res 1)) 1)
      else low_loop bits n d rem (u32 (Z.shiftl res 1))
  end.

Definition div64_by_32 (n d : Z) : Z :=
  let rem := u32 (Z.shiftr n 32) in
  if d <=? rem then snd (high_loop 32 d rem 0) else low_loop 32 n d rem 0.

(** ** Reno *)

Definition set_window (cwnd : Z) (c : tcp_connection) : tcp_connection :=
  Connection (remote_mss c) cwnd (slow_start_threshold c) (bbr_phase c) (bbr_min_rtt c) (bbr_min_rtt_deadline c)
    (bbr_bw c) (bbr_bw_window_end c) (bbr_delivered c) (bbr_interval_start c) (bbr_probe_count c)
    (bbr_probe_rtt_start c) (bbr_startup_rounds c) (bbr_round c).

Definition set_threshold (ssthresh : Z) (c : tcp_connection) : tcp_connection :=
  Connection (remote_mss c) (congestion_window c) ssthresh (bbr_phase c) (bbr_min_rtt c) (bbr_min_rtt_deadline c)
    (bbr_bw c) (bbr_bw_window_end c) (bbr_delivered c) (bbr_interval_start c) (bbr_probe_count c)
    (bbr_probe_rtt_start c) (bbr_startup_rounds c) (bbr_round c).

Definition reno_init (c : tcp_connection) : tcp_connection := c.

Definition reno_on_ack (acked_bytes flight now : Z) (c : tcp_connection) : tcp_connection :=
  let increase := if nz acked_bytes then acked_bytes else remote_mss c in
  let increase := if slow_start_threshold c <=? congestion_window c
                  then u32 (remote_mss c * remote_mss c) / congestion_window c else increase in
  let increase := if nz increase then increase else 1 in
  if u32 (65535 - congestion_window c) <? increase then set_window 65535 c
  else set_window (u32 (congestion_window c + increase)) c.

Definition reno_on_rtt (sample flight now : Z) (c : tcp_connection) : tcp_connection := c.

Definition reno_on_fast_retransmit (duplicate_acks : Z) (c : tcp_connection) : tcp_connection :=
  let half := congestion_window c / 2 in
  let ssthresh := if half <? remote_mss c * 2 then remote_mss c * 2 else half in
  set_window (u32 (ssthresh + remote_mss c * 3)) (set_threshold ssthresh c).

Definition reno_on_rto (now : Z) (c : tcp_connection) : tcp_connection := set_window (remote_mss c) c.

Definition tcp_cc_reno : tcp_cc_ops := Ops reno_init reno_on_ack reno_on_rtt reno_on_fast_retransmit reno_on_rto.

(** ** BBR *)

Definition bbr_bdp (c : tcp_connection) : Z :=
  if negb (nz (bbr_bw c)) || negb (nz (bbr_min_rtt c)) then 0 else
  let bdp := u32 (Z.shiftr (u64 (bbr_bw c * bbr_min_rtt c)) 16) in
  let bdp := if bdp <? remote_mss c * 4 then remote_mss c * 4 else bdp in
  if 65535 <? bdp then 65535 else bdp.

Definition bbr_probe_gains : list Z := [1024; 1024; 1024; 1280; 1024; 1024; 1280; 1024].

Definition bbr_init (c : tcp_connection) : tcp_connection :=
  Connection (remote_mss c) (congestion_window c) (slow_start_threshold c) TCP_BBR_STARTUP 0 0 0 0 0 0 0 0 0 0.

Definition bbr_on_rtt (sample flight now : Z) (c : tcp_connection) : tcp_connection :=
  let fresh := nz sample && (negb (nz (bbr_min_rtt c)) || (bbr_min_rtt_deadline c <=? now) || (sample <? bbr_min_rtt c)) in
  Connection (remote_mss c) (congestion_window c) (slow_start_threshold c) (bbr_phase c)
    (if fresh then sample else bbr_min_rtt c)
    (if fresh then u32 (now + TCP_BBR_WINDOW) else bbr_min_rtt_deadline c)
    (bbr_bw c) (bbr_bw_window_end c) (bbr_delivered c) (bbr_interval_start c) (bbr_probe_count c)
    (bbr_probe_rtt_start c) (bbr_startup_rounds c) 1.

Definition set_phase (phase : Z) (c : tcp_connection) : tcp_connection :=
  Connection (remote_mss c) (congestion_window c) (slow_start_threshold c) phase (bbr_min_rtt c)
    (bbr_min_rtt_deadline c) (bbr_bw c) (bbr_bw_window_end c) (bbr_delivered c) (bbr_interval_start c)
    (bbr_probe_count c) (bbr_probe_rtt_start c) (bbr_startup_rounds c) (bbr_round c).

Definition set_delivered (n : Z) (c : tcp_connection) : tcp_connection :=
  Connection (remote_mss c) (congestion_window c) (slow_start_threshold c) (bbr_phase c) (bbr_min_rtt c)
    (bbr_min_rtt_deadline c) (bbr_bw c) (bbr_bw_window_end c) n (bbr_interval_start c) (bbr_probe_count c)
    (bbr_probe_rtt_start c) (bbr_startup_rounds c) (bbr_round c).

(** The cut of the DRAIN phase, before the round test. *)
Definition bbr_drain (flight : Z) (c : tcp_connection) : tcp_connection :=
  let bdp := bbr_bdp c in
  if (congestion_window c / 2 <=? flight) && (bdp <? congestion_window c) then
    let cut := flight / 2 in
    let cwnd := if cut <? congestion_window c then congestion_window c - cut else bdp in
    set_window (if cwnd <? bdp then bdp else cwnd) c
  else c.

(** The bandwidth sample of a round, and the start of the next interval. *)
Definition bbr_sample (now : Z) (c : tcp_connection) : tcp_connection :=
  let sampled := nz (bbr_interval_start c) && (bbr_interval_start c <? now) && nz (bbr_delivered c) in
  let rate := div64_by_32 (u64 (bbr_delivered c * 65536)) (u32 (now - bbr_interval_start c)) in
  let better := sampled && ((bbr_bw_window_end c <=? now) || (bbr_bw c <? rate)) in
  Connection (remote_mss c) (congestion_window c) (slow_start_threshold c) (bbr_phase c) (bbr_min_rtt c)
    (bbr_min_rtt_deadline c) (if better then rate else bbr_bw c)
    (if better then u32 (now + TCP_BBR_WINDOW) else bbr_bw_window_end c) 0 now (bbr_probe_count c)
    (bbr_probe_rtt_start c) (bbr_startup_rounds c) 0.

(** The [switch] on the phase. *)
Definition bbr_advance (now : Z) (c : tcp_connection) : tcp_connection :=
  let bdp := bbr_bdp c in
  let floor := remote_mss c * 4 in
  if bbr_phase c =? TCP_BBR_STARTUP then
    if negb (nz (bbr_bw c)) || negb (nz (bbr_min_rtt c))
    then set_window (u32 (congestion_window c + (congestion_window c / 8 + remote_mss c))) c
    else
      let target := Z.shiftr (u32 (bdp * 2885)) 10 in
      let target := if 65535 <? target then 65535 else target in
      let cwnd := if congestion_window c <? target then target else congestion_window c in
      let rounds := u32 (bbr_startup_rounds c + 1) in
      Connection (remote_mss c) cwnd (slow_start_threshold c)
        (if (2 <=? rounds) && (target <=? cwnd) then TCP_BBR_DRAIN else bbr_phase c) (bbr_min_rtt c)
        (bbr_min_rtt_deadline c) (bbr_bw c) (bbr_bw_window_end c) (bbr_delivered c) (bbr_interval_start c)
        (bbr_probe_count c) (bbr_probe_rtt_start c) rounds (bbr_round c)
  else if bbr_phase c =? TCP_BBR_PROBE_BW then
    if bbr_min_rtt_deadline c <=? now then
      let cwnd := if nz bdp then bdp / 4 else 0 in
      Connection (remote_mss c) (if cwnd <? floor then floor else cwnd) (slow_start_threshold c) TCP_BBR_PROBE_RTT
        (bbr_min_rtt c) (bbr_min_rtt_deadline c) (bbr_bw c) (bbr_bw_window_end c) (bbr_delivered c)
        (bbr_interval_start c) (bbr_probe_count c) now (bbr_startup_rounds c) (bbr_round c)
    else
      let gain := nth (Z.to_nat (Z.land (bbr_probe_count c) 7)) bbr_probe_gains 0 in
      let base := if nz bdp then bdp else floor in
      let cwnd := Z.shiftr (u32 (base * gain)) 10 in
      Connection (remote_mss c) (if cwnd <? floor then floor else cwnd) (slow_start_threshold c) (bbr_phase c)
        (bbr_min_rtt c) (bbr_min_rtt_deadline c) (bbr_bw c) (bbr_bw_window_end c) (bbr_delivered c)
        (bbr_interval_start c) (u32 (bbr_probe_count c + 1)) (bbr_probe_rtt_start c) (bbr_startup_rounds c) (bbr_round c)
  else if bbr_phase c =? TCP_BBR_PROBE_RTT then
    if u32 (bbr_probe_rtt_start c + TCP_BBR_PROBE_RTT_DURATION) <=? now then set_phase TCP_BBR_PROBE_BW c else c
  else c.

Definition bbr_on_ack (acked_bytes flight now : Z) (c : tcp_connection) : tcp_connection :=
  let c := set_delivered (u32 (bbr_delivered c + acked_bytes)) c in
  let bdp := bbr_bdp c in
  if (bbr_phase c =? TCP_BBR_DRAIN) && nz bdp && (flight <=? bdp) then set_phase TCP_BBR_PROBE_BW c else
  let c := if bbr_phase c =? TCP_BBR_DRAIN then bbr_drain flight c else c in
  if negb (nz (bbr_round c)) then c else bbr_advance now (bbr_sample now c).

Definition bbr_on_fast_retransmit (duplicate_acks : Z) (c : tcp_connection) : tcp_connection := c.

Definition bbr_on_rto (now : Z) (c : tcp_connection) : tcp_connection :=
  let bdp := bbr_bdp c in
  let floor := remote_mss c * 4 in
  let cwnd := if nz bdp then bdp / 2 else 0 in
  let c := if nz (bbr_min_rtt c) && (now <? bbr_min_rtt_deadline c)
           then set_window (if cwnd <? floor then floor else cwnd) c
           else set_window (remote_mss c) c in
  if (bbr_phase c =? TCP_BBR_STARTUP) || (bbr_phase c =? TCP_BBR_DRAIN)
  then set_phase (if nz (bbr_min_rtt c) then TCP_BBR_PROBE_BW else TCP_BBR_STARTUP) c else c.

Definition tcp_cc_bbr : tcp_cc_ops := Ops bbr_init bbr_on_ack bbr_on_rtt bbr_on_fast_retransmit bbr_on_rto.

(** ** The division *)

Lemma low_loop_exact k n d rem res :
  (k <= 32)%nat -> 0 <= n -> 0 < d <= 2 ^ 31 -> 0 <= rem < d -> 0 <= res < 2 ^ (32 - Z.of_nat k) ->
  Z.shiftr n (Z.of_nat k) = d * res + rem ->
  low_loop k n d rem res = n / d.
Proof.
  intros Hk Hn Hd. revert rem res. induction k as [|k IH]; intros rem res Hrem Hres Heq; cbn [low_loop].
  { rewrite Z.shiftr_0_r in Heq. apply (Z.div_unique n d res rem); lia. }
  assert (2 ^ (32 - Z.of_nat k) = 2 * 2 ^ (32 - Z.of_nat (S k))) as Hpow
    by (rewrite <- Z.pow_succ_r by lia; f_equal; lia).
  assert (2 ^ (32 - Z.of_nat k) <= 2 ^ 32) by (apply Z.pow_le_mono_r; lia).
  assert (Z.land (Z.shiftr n (Z.of_nat k)) 1 = Z.shiftr n (Z.of_nat k) mod 2) as Hbit
    by (change 1 with (Z.ones 1); rewrite Z.land_ones by lia; done).
  assert (Z.shiftr n (Z.of_nat (S k)) = Z.shiftr n (Z.of_nat k) / 2) as Hhalf.
  { rewrite Nat2Z.inj_succ, <- Z.add_1_r, <- Z.shiftr_shiftr by lia. by rewrite (Z.shiftr_div_pow2 _ 1) by lia. }
  rewrite Hbit. rewrite Hhalf in Heq. set (m := Z.shiftr n (Z.of_nat k)) in *.
  assert (m = 2 * (m / 2) + m mod 2) as Hm by (apply Z.div_mod; lia).
  pose proof (Z.mod_pos_bound m 2 ltac:(lia)) as Hmod.
  rewrite !Z.shiftl_mul_pow2 by lia. change (2 ^ 1) with 2. rewrite !u32_small by (unfold is_u32; lia).
  assert (forall a b, 0 <= a -> 0 <= b < 2 -> Z.lor (a * 2) b = a * 2 + b) as Hlor.
  { intros a b Ha Hb. pose proof (lor_shiftl_add a b 1 ltac:(lia) Ha Hb) as Hl.
    by rewrite Z.shiftl_mul_pow2 in Hl by lia. }
  rewrite !Hlor by lia. destruct (Z.leb_spec d (rem * 2 + m mod 2)); apply IH; nia.
Qed.

Lemma high_rest d rem n :
  0 < d <= rem -> rem <= 65535 -> 0 <= n <= 32 -> d <= u32 (rem + d * 2 ^ n).
Proof.
  intros Hd Hr Hn. destruct (Z.le_gt_cases n 16) as [Hs|Hs].
  - assert (0 < 2 ^ n <= 2 ^ 16) by (split; [lia|apply Z.pow_le_mono_r; lia]). rewrite u32_small; [nia|].
    unfold is_u32. nia.
  - replace (d * 2 ^ n) with (2 ^ 17 * (d * 2 ^ (n - 17))).
    2: { replace n with (n - 17 + 17) at 2 by lia. rewrite Z.pow_add_r by lia. lia. }
    generalize (d * 2 ^ (n - 17)). intros m. unfold u32. dmlia.
Qed.

Lemma high_loop_saturates n d rem0 rem :
  (n <= 32)%nat -> 0 < d <= rem0 -> rem0 <= 65535 -> rem = u32 (rem0 + d * 2 ^ Z.of_nat n) ->
  snd (high_loop n d rem (2 ^ 32 - 2 ^ Z.of_nat n)) = 2 ^ 32 - 1.
Proof.
  revert rem. induction n as [|n IH]; intros rem Hn Hd Hr Hrem; cbn [high_loop]; [done|].
  pose proof (high_rest d rem0 (Z.of_nat (S n)) Hd Hr ltac:(lia)) as Hge. rewrite <- Hrem in Hge.
  rewrite (proj2 (Z.leb_le _ _)) by lia.
  assert (2 ^ Z.of_nat (S n) = 2 * 2 ^ Z.of_nat n) as Hp by (rewrite Nat2Z.inj_succ, Z.pow_succ_r by lia; done).
  assert (0 < 2 ^ Z.of_nat n <= 2 ^ 31) as Hb by (split; [lia|apply Z.pow_le_mono_r; lia]).
  assert (Z.lor (2 ^ 32 - 2 ^ Z.of_nat (S n)) (u32 (Z.shiftl 1 (Z.of_nat n))) = 2 ^ 32 - 2 ^ Z.of_nat n) as ->.
  { rewrite Z.shiftl_1_l, u32_small by (unfold is_u32; lia).
    replace (2 ^ 32 - 2 ^ Z.of_nat (S n)) with (Z.shiftl (2 ^ (32 - Z.of_nat (S n)) - 1) (Z.of_nat (S n))).
    2: { rewrite Z.shiftl_mul_pow2, Z.mul_sub_distr_r, <- Z.pow_add_r by lia. f_equal; [f_equal; lia|lia]. }
    rewrite lor_shiftl_add; [|lia| |lia].
    - rewrite Z.mul_sub_distr_r, <- Z.pow_add_r by lia. replace (32 - Z.of_nat (S n) + Z.of_nat (S n)) with 32 by lia. lia.
    - pose proof (Z.pow_pos_nonneg 2 (32 - Z.of_nat (S n)) ltac:(lia) ltac:(lia)). lia. }
  apply IH; [lia|done|done|]. rewrite Hrem, Z.shiftl_mul_pow2 by lia. autorewrite with word_simpl. f_equal. lia.
Qed.

Lemma high_loop_nonneg n d rem res : 0 <= res -> 0 <= snd (high_loop n d rem res).
Proof.
  revert rem res. induction n as [|n IH]; intros rem res Hr; cbn [high_loop]; [done|]. case_if; apply IH; [|done].
  apply Z.lor_nonneg. split; [done|apply u32_range].
Qed.

Lemma low_loop_nonneg k n d rem res : 0 <= res -> 0 <= low_loop k n d rem res.
Proof.
  revert rem res. induction k as [|k IH]; intros rem res Hr; cbn [low_loop]; [done|].
  pose proof (u32_range (Z.shiftl res 1)) as [? _]. case_if; apply IH; [|done]. by apply Z.lor_nonneg.
Qed.

Lemma div64_nonneg n d : 0 <= div64_by_32 n d.
Proof. unfold div64_by_32. case_if; [by apply high_loop_nonneg|by apply low_loop_nonneg]. Qed.

(** ** Properties *)

(** The division of the bandwidth estimate: for every numerator
    [bbr_on_ack] can form, a 32-bit byte count times 65536, and every interval
    up to [2^31] ticks, [div64_by_32] is the quotient, or the largest 32-bit
    number when the quotient does not fit. *)
Theorem div64_by_32_correct n d :
  0 <= n < 2 ^ 48 -> 0 < d <= 2 ^ 31 -> div64_by_32 n d = Z.min (n / d) (2 ^ 32 - 1).
Proof.
  intros Hn Hd. unfold div64_by_32. assert (Z.shiftr n 32 = n / 2 ^ 32) as Hs by (by apply Z.shiftr_div_pow2).
  assert (0 <= n / 2 ^ 32 <= 65535) as Hhi by (split; [apply Z.div_pos; lia|]; assert (n / 2 ^ 32 < 65536); [|lia];
    apply Z.div_lt_upper_bound; lia).
  rewrite Hs, u32_small by (unfold is_u32; lia). destruct (Z.leb_spec d (n / 2 ^ 32)) as [Hle|Hlt].
  - assert (2 ^ 32 <= n / d) as Hq.
    { apply Z.div_le_lower_bound; [lia|]. pose proof (Z.mul_div_le n (2 ^ 32) ltac:(lia)). nia. }
    rewrite Z.min_r by lia. rewrite <- (high_loop_saturates 32 d (n / 2 ^ 32) (n / 2 ^ 32)); [done|lia|lia|lia|].
    unfold u32. change (2 ^ Z.of_nat 32) with 0x100000000. rewrite Z_mod_plus_full, Z.mod_small by lia. done.
  - rewrite (low_loop_exact 32 n d (n / 2 ^ 32) 0); [|lia|lia|lia|lia|simpl; lia|rewrite Z.mul_0_r, Z.add_0_l; exact Hs].
    rewrite Z.min_l; [done|]. assert (n / d < 2 ^ 32); [|lia]. apply Z.div_lt_upper_bound; [lia|].
    pose proof (Z.div_mod n (2 ^ 32) ltac:(lia)). pose proof (Z.mod_pos_bound n (2 ^ 32) ltac:(lia)). nia.
Qed.

Lemma div64_by_32_correct_witness :
  div64_by_32 (1500 * 65536) 7 = 14043428 /\ div64_by_32 (65536 * 65536) 1 = 0xFFFFFFFF.
Proof.
  split.
  - rewrite (div64_by_32_correct (1500 * 65536) 7) by lia. reflexivity.
  - rewrite (div64_by_32_correct (65536 * 65536) 1) by lia. reflexivity.
Defined.

(** ** Event sequences *)

Inductive cc_event :=
  | Acked (acked_bytes flight now : Z)
  | RttSample (sample flight now : Z)
  | DuplicateAcks (count : Z)
  | Timeout (now : Z).

Definition event_ok (ev : cc_event) : Prop :=
  match ev with
  | Acked a f n => is_u32 a /\ is_u32 f /\ is_u32 n
  | RttSample s f n => is_u32 s /\ is_u32 f /\ is_u32 n
  | DuplicateAcks n => is_u32 n
  | Timeout n => is_u32 n
  end.

(** The call of the hook for an event. *)
Definition deliver (ops : tcp_cc_ops) (c : tcp_connection) (ev : cc_event) : tcp_connection :=
  match ev with
  | Acked a f n => on_ack ops a f n c
  | RttSample s f n => on_rtt ops s f n c
  | DuplicateAcks n => on_fast_retransmit ops n c
  | Timeout n => on_rto ops n c
  end.

Definition reno_ok (c : tcp_connection) : Prop :=
  0 < remote_mss c <= TCP_RETRANSMIT_DATA_MAX /\ remote_mss c <= congestion_window c <= 65535.

Lemma reno_on_ack_grows a f n c :
  reno_ok c -> is_u32 a -> let c' := reno_on_ack a f n c in
  reno_ok c' /\ remote_mss c' = remote_mss c /\
  (congestion_window c < congestion_window c' \/ congestion_window c' = 65535).
Proof.
  intros [Hm Hw] Ha. unfold TCP_RETRANSMIT_DATA_MAX in Hm. unfold reno_on_ack. rewrite (u32_small (65535 - _)) by (unfold is_u32; lia).
  set (inc := if slow_start_threshold c <=? congestion_window c then _ else _).
  assert (0 <= inc) as Hinc.
  { unfold inc, is_u32 in *. case_if; [apply Z.div_pos; [apply u32_range|lia]|]. case_if; lia. }
  set (inc' := if nz inc then inc else 1). assert (0 < inc') as Hinc'
    by (unfold inc'; destruct (nz inc) eqn:Hz; [apply nz_true in Hz; lia|lia]).
  destruct (Z.ltb_spec (65535 - congestion_window c) inc'); unfold reno_ok, TCP_RETRANSMIT_DATA_MAX; simpl.
  - split_and!; (done || lia || by right).
  - rewrite u32_small by (unfold is_u32; lia). split_and!; (done || lia || (left; lia)).
Qed.

Lemma reno_deliver c ev : reno_ok c -> event_ok ev -> reno_ok (deliver tcp_cc_reno c ev).
Proof.
  intros Hok Hev. destruct ev as [a f n|s f n|n|n]; simpl in *.
  - destruct Hev as (Ha & _). by apply reno_on_ack_grows.
  - done.
  - destruct Hok as [Hm Hw]. unfold TCP_RETRANSMIT_DATA_MAX in Hm.
    unfold reno_on_fast_retransmit, reno_ok, TCP_RETRANSMIT_DATA_MAX. simpl.
    destruct (Z.ltb_spec (congestion_window c / 2) (remote_mss c * 2)); rewrite u32_small by (unfold is_u32; dmlia); dmlia.
  - destruct Hok as [Hm Hw]. unfold reno_ok, TCP_RETRANSMIT_DATA_MAX in *. simpl. lia.
Qed.

(** Reno keeps its window in range: whatever acknowledgements, samples,
    duplicate acknowledgements and timeouts a connection sees, in any order,
    its congestion window stays between one segment and 65535 bytes, and every
    acknowledgement grows it or leaves it at the maximum. *)
Theorem reno_window_bounded c evs a f n :
  reno_ok c -> Forall event_ok evs -> is_u32 a ->
  let c' := fold_left (deliver tcp_cc_reno) evs c in
  reno_ok c' /\
  (congestion_window c' < congestion_window (reno_on_ack a f n c') \/
   congestion_window (reno_on_ack a f n c') = 65535).
Proof.
  intros Hok Hevs Ha c'. assert (reno_ok c') as Hok'.
  { unfold c'. clear c'. revert c Hok. induction Hevs as [|ev evs Hev _ IH]; intros c Hok; [done|].
    simpl. by apply IH, reno_deliver. }
  split; [done|]. by apply reno_on_ack_grows.
Qed.

Definition example_connection : tcp_connection := Connection 1460 2920 32768 0 0 0 0 0 0 0 0 0 0 0.

Lemma reno_window_bounded_witness :
  reno_ok (fold_left (deliver tcp_cc_reno) [Acked 1460 0 5; DuplicateAcks 3; Timeout 9] example_connection).
Proof.
  apply (reno_window_bounded example_connection [Acked 1460 0 5; DuplicateAcks 3; Timeout 9] 0 0 0).
  - unfold reno_ok, example_connection, TCP_RETRANSMIT_DATA_MAX. simpl. lia.
  - repeat (apply Forall_cons; split; [unfold event_ok, is_u32; lia|]). constructor.
  - unfold is_u32. lia.
Defined.

(** ** BBR's window *)

Definition bbr_ok (c : tcp_connection) : Prop :=
  0 < remote_mss c <= TCP_RETRANSMIT_DATA_MAX /\ 0 <= congestion_window c /\ 0 <= bbr_bw c /\ 0 <= bbr_min_rtt c.

Lemma bbr_bdp_range c : bbr_ok c -> 0 <= bbr_bdp c <= 65535 /\ (bbr_bdp c <> 0 -> remote_mss c * 4 <= bbr_bdp c).
Proof.
  intros (Hm & _). unfold TCP_RETRANSMIT_DATA_MAX in Hm. unfold bbr_bdp. destruct (_ || _); [lia|].
  pose proof (u32_range (Z.shiftr (u64 (bbr_bw c * bbr_min_rtt c)) 16)) as Hr. unfold is_u32 in Hr.
  repeat case_if; boolify; lia.
Qed.

Lemma probe_gain k : 1024 <= nth (Z.to_nat (Z.land k 7)) bbr_probe_gains 0 <= 1280.
Proof.
  change 7 with (Z.ones 3). rewrite Z.land_ones by lia. pose proof (Z.mod_pos_bound k (2 ^ 3) ltac:(lia)) as Hk.
  change (2 ^ 3) with 8 in *. assert (k mod 8 = 0 \/ k mod 8 = 1 \/ k mod 8 = 2 \/ k mod 8 = 3 \/ k mod 8 = 4 \/
    k mod 8 = 5 \/ k mod 8 = 6 \/ k mod 8 = 7) as Hc by lia.
  destruct Hc as [->|[->|[->|[->|[->|[->|[->| ->]]]]]]]; simpl; lia.
Qed.

Lemma bbr_advance_window now c :
  bbr_ok c -> bbr_phase c <> TCP_BBR_STARTUP ->
  let c' := bbr_advance now c in
  congestion_window c' <= Z.max (congestion_window c) 81918 /\
  (bbr_phase c = TCP_BBR_PROBE_BW -> remote_mss c * 4 <= congestion_window c' <= 81918) /\
  bbr_phase c' <> TCP_BBR_STARTUP.
Proof.
  intros Hok Hph. destruct (bbr_bdp_range c Hok) as [Hb Hb4]. destruct Hok as (Hm & Hw & _).
  unfold TCP_RETRANSMIT_DATA_MAX in Hm. unfold bbr_advance.
  rewrite (proj2 (Z.eqb_neq _ _)) by done. destruct (Z.eqb_spec (bbr_phase c) TCP_BBR_PROBE_BW) as [Hp|Hp].
  2: { destruct (Z.eqb_spec (bbr_phase c) TCP_BBR_PROBE_RTT); [case_if|]; simpl; split_and!; try done; lia. }
  destruct (_ <=? now); cbn [congestion_window bbr_phase remote_mss].
  - split; [repeat case_if; boolify; dmlia|]. split; [intros _; repeat case_if; boolify; dmlia|discriminate].
  - pose proof (probe_gain (bbr_probe_count c)) as Hg. set (gain := nth _ _ _) in *. clearbody gain.
    set (base := if nz (bbr_bdp c) then bbr_bdp c else remote_mss c * 4).
    assert (remote_mss c * 4 <= base <= 65535) as Hbase.
    { unfold base. destruct (nz (bbr_bdp c)) eqn:Hz; [apply nz_true in Hz; specialize (Hb4 Hz); lia|lia]. }
    assert (0 <= base * gain <= 65535 * 1280) as Hprod by (split; [apply Z.mul_nonneg_nonneg; lia|apply Z.mul_le_mono_nonneg; lia]). clearbody base.
    rewrite u32_small by (unfold is_u32; lia). rewrite Z.shiftr_div_pow2 by lia. change (2 ^ 10) with 1024.
    assert (base * gain / 1024 <= 81918) by (assert (base * gain / 1024 < 81919); [|lia]; apply Z.div_lt_upper_bound; lia).
    assert (0 <= base * gain / 1024) by (apply Z.div_pos; lia).
    split; [repeat case_if; boolify; lia|]. split; [intros _; repeat case_if; boolify; lia|congruence].
Qed.

Lemma bbr_drain_window flight c :
  bbr_ok c -> is_u32 flight ->
  let c' := bbr_drain flight c in
  bbr_phase c' = bbr_phase c /\ bbr_round c' = bbr_round c /\ remote_mss c' = remote_mss c /\ bbr_ok c' /\
  congestion_window c' <= Z.max (congestion_window c) 81918.
Proof.
  intros Hok Hf. destruct (bbr_bdp_range c Hok) as [Hb _]. unfold bbr_drain, is_u32 in *.
  destruct (_ && _) eqn:Hcut; [|split_and!; (done || lia)]. boolify. destruct Hok as (? & ? & ? & ?).
  unfold bbr_ok. simpl. repeat case_if; boolify; split_and!; try done; dmlia.
Qed.

(** Out of its startup phase BBR keeps the window in proportion to its
    model: an acknowledgement never takes it above the larger of what it was
    and 1.25 times the largest window, the phase never returns to startup,
    and a round of bandwidth probing leaves between four segments and that
    limit. *)
Theorem bbr_window_bounded acked flight now c :
  bbr_ok c -> is_u32 flight -> bbr_phase c <> TCP_BBR_STARTUP ->
  let c' := bbr_on_ack acked flight now c in
  congestion_window c' <= Z.max (congestion_window c) 81918 /\ bbr_phase c' <> TCP_BBR_STARTUP /\
  (bbr_phase c = TCP_BBR_PROBE_BW -> bbr_round c <> 0 -> remote_mss c * 4 <= congestion_window c' <= 81918).
Proof.
  intros Hok Hf Hph. unfold bbr_on_ack. set (c1 := set_delivered _ c).
  assert (bbr_ok c1) as Hok1 by exact Hok. change (bbr_phase c1) with (bbr_phase c).
  destruct (_ && _ && _) eqn:Hd; [boolify; unfold TCP_BBR_DRAIN, TCP_BBR_PROBE_BW in *; simpl; split_and!; (done || lia)|].
  set (c2 := if bbr_phase c =? TCP_BBR_DRAIN then bbr_drain flight c1 else c1).
  assert (bbr_phase c2 = bbr_phase c /\ bbr_round c2 = bbr_round c /\ remote_mss c2 = remote_mss c /\ bbr_ok c2 /\
    congestion_window c2 <= Z.max (congestion_window c) 81918) as (Hp2 & Hr2 & Hm2 & Hok2 & Hw2).
  { unfold c2. destruct (_ =? TCP_BBR_DRAIN); [|split_and!; (done || lia || (simpl; lia))].
    exact (bbr_drain_window flight c1 Hok1 Hf). }
  rewrite Hr2. destruct (nz (bbr_round c)) eqn:Hz; cbn [negb].
  - assert (bbr_ok (bbr_sample now c2)) as Hok3.
    { destruct Hok2 as (? & ? & ? & ?). unfold bbr_ok, bbr_sample. simpl. split_and!; try done; try lia.
      match goal with |- 0 <= (if ?b then _ else _) => destruct b end; [apply div64_nonneg|done]. }
    destruct (bbr_advance_window now (bbr_sample now c2) Hok3) as (Ha1 & Ha2 & Ha3); [simpl; by rewrite Hp2|].
    simpl in Ha1, Ha2. rewrite Hp2, Hm2 in Ha2. split_and!; [lia|done|auto].
  - apply nz_false in Hz. split_and!; [done|by rewrite Hp2|done].
Qed.

Lemma bbr_window_bounded_witness :
  let c := Connection 1460 40000 65535 TCP_BBR_PROBE_BW 3 9000 50000000 9000 0 10 3 0 2 1 in
  1460 * 4 <= congestion_window (bbr_on_ack 1460 2920 20 c) <= 81918.
Proof.
  apply (bbr_window_bounded 1460 2920 20
           (Connection 1460 40000 65535 TCP_BBR_PROBE_BW 3 9000 50000000 9000 0 10 3 0 2 1)).
  - unfold bbr_ok, TCP_RETRANSMIT_DATA_MAX. simpl. lia.
  - unfold is_u32. lia.
  - discriminate.
  - reflexivity.
  - discriminate.
Defined.

(** A round of a path faster than the clock: the sample is zero ticks. *)
Definition fast_round (c : tcp_connection) : tcp_connection := bbr_on_ack 1460 0 7 (bbr_on_rtt 0 0 7 c).

(** Without a model the startup phase adds an eighth of the window in every
    round with no upper bound: on such a path the 32-bit window wraps around
    after 106 rounds. *)
Example startup_window_wraps :
  congestion_window (Nat.iter 106 fast_round example_connection) = 3858612456 /\
  congestion_window (Nat.iter 107 fast_round example_connection) = 45973177.
Proof. vm_compute. split; reflexivity. Qed.

End TcpCc.
