(* ===== verification/Vm.v ===== *)
(** Address spaces: [src/arch/x86_64/memory/vm.c].

    Page tables are pages of physical memory, reached through the identity
    mapping: memory is that of the page allocator (Pmm.v), a function from
    addresses to bytes, and an entry of a table is the 64-bit word at its
    address.  A pointer to a space is its index and a pointer to an entry the
    address of the entry.  [None] is a panic of [pmm_free_page] or a loop that
    ran out of fuel; neither happens (VmSystem.v).  Kernel objects and page
    resources are the interface [VmModules].  The control registers, the
    page attribute table and the flushes of the translation buffer are not
    modelled. *)

From S2P Require Import Prelude Pmm.

Module Vm.

Definition VM64_USER_BASE : Z := 0x100000000.

Definition VM64_USER_LIMIT : Z := 0x120000000.

Definition VM64_DRIVER_BASE : Z := 0x110000000.

Definition VM64_DRIVER_LIMIT : Z := VM64_USER_LIMIT.

Definition VM64_PAGE_PRESENT : Z := 1.

Definition VM64_PAGE_WRITE : Z := 2.

Definition VM64_PAGE_USER : Z := 4.

Definition VM64_PAGE_COW : Z := 0x400.

Definition VM64_PAGE_NX : Z := 0x8000000000000000.

Definition VM64_KERNEL_MMIO_BASE : Z := 0xFFFF800000000000.

Definition VM64_KERNEL_MMIO_SIZE : Z := 0x01000000.

Definition VM64_CACHE_UC : Z := 0.

Definition VM64_CACHE_WC : Z := 1.

Definition VM64_CACHE_WB : Z := 3.

Definition PAGE_HUGE : Z := 0x80.

Definition PAGE_OWNED : Z := 0x200.

Definition VM64_MAX_SPACES : Z := 16.

Definition VM64_MAPPING_MAX : Z := 16.

Definition VM64_PHYS_MASK : Z := 0x000FFFFFFFFFF000.

Definition KERNEL_MMIO_PTS : Z := Z.shiftr VM64_KERNEL_MMIO_SIZE 21.

Definition KERNEL_MMIO_PAGES : Z := Z.shiftr VM64_KERNEL_MMIO_SIZE 12.

(** [x | y | ...] and [x & y] *)
Infix "|||" := Z.lor (at level 50, left associativity) : mich_scope.
Infix "&&&" := Z.land (at level 40, left associativity) : mich_scope.

(** ** Words in memory *)

Fixpoint read_bytes (n : nat) (m : Z -> Z) (a : Z) : Z :=
  match n with
  | O => 0
  | S n => m a + 256 * read_bytes n m (a + 1)
  end.

Definition read64 (m : Z -> Z) (a : Z) : Z := read_bytes 8 m a.

Definition write64 (a v : Z) (m : Z -> Z) : Z -> Z :=
  fun b => if (a <=? b) && (b <? a + 8) then u8 (Z.shiftr v (8 * (b - a))) else m b.

Definition copy_page (destination source : Z) (m : Z -> Z) : Z -> Z :=
  for_range 0 512 (fun index m => write64 (destination + 8 * index) (read64 m (source + 8 * index)) m) m.

(** ** State *)

Record vm64_object_mapping := Mapping {
  m_object : option Z;
  m_virtual : Z;
  m_length : Z
}.

Record vm64_space := Space {
  pml4 : Z;
  pdpt : Z;
  identity_pd : Z;
  identity_pt0 : Z;
  user_pd : Z;
  user_pts : Z -> Z;
  mappings : Z -> vm64_object_mapping
}.

(** The members of [struct page_resource] a mapping reads. *)
Record page_resource := PageResource {
  physical : Z -> Z;
  pages : Z;
  revoked : bool
}.

(** [object.h] and [resource.h]: releasing an object may run its destroy
    callback, which gives pages back to the allocator. *)
Class VmModules (W : Type) := {
  object_active : W -> Z -> bool;
  object_retain : Z -> W -> Z * W;
  object_release : Z -> Pmm.pmm -> W -> option (Pmm.pmm * W);
  page_resource_get : W -> Z -> option page_resource;
  page_resource_mapping_open : Z -> W -> Z * W;
  page_resource_mapping_close : Z -> W -> W
}.

Record vm {W : Type} := Vm {
  mm : Pmm.pmm;
  spaces : Z -> vm64_space;
  kernel_mmio_pdpt : Z;
  kernel_mmio_pd : Z;
  kernel_mmio_pts : Z -> Z;
  kernel_mmio_used : Z -> bool;
  rest : W
}.
#[global] Arguments vm : clear implicits.

Section Operations.

Context {W : Type} `{VmModules W}.
Implicit Types (s : vm W).

(** The linker's symbols for the kernel's text and read-only data. *)
Context (text_start text_end rodata_start rodata_end : Z).

Definition set_mm (p : Pmm.pmm) s : vm W :=
  Vm _ p (spaces s) (kernel_mmio_pdpt s) (kernel_mmio_pd s) (kernel_mmio_pts s) (kernel_mmio_used s) (rest s).

Definition set_space (i : Z) (v : vm64_space) s : vm W :=
  Vm _ (mm s) (upd (spaces s) i v) (kernel_mmio_pdpt s) (kernel_mmio_pd s) (kernel_mmio_pts s)
    (kernel_mmio_used s) (rest s).

Definition set_rest (w : W) s : vm W :=
  Vm _ (mm s) (spaces s) (kernel_mmio_pdpt s) (kernel_mmio_pd s) (kernel_mmio_pts s) (kernel_mmio_used s) w.

Definition set_kernel (a b : Z) (pts : Z -> Z) (used : Z -> bool) s : vm W :=
  Vm _ (mm s) (spaces s) a b pts used (rest s).

Definition memory s : Z -> Z := Pmm.memory (mm s).

Definition set_memory (m : Z -> Z) s : vm W :=
  let p := mm s in
  set_mm (Pmm.Pmm (Pmm.bitmap p) (Pmm.ram_bitmap p) (Pmm.page_refs p) (Pmm.free_pages p) (Pmm.max_page p)
            (Pmm.alloc_page_limit p) m) s.

(** [table(physical)[index]], read and written. *)
Definition entry s (physical index : Z) : Z := read64 (memory s) (physical + 8 * index).

Definition store (a v : Z) s : vm W := set_memory (write64 a v (memory s)) s.

Definition set_entry (physical index v : Z) s : vm W := store (physical + 8 * index) v s.

Definition alloc_page s : Z * vm W :=
  let '(p, q) := Pmm.pmm_alloc_page (mm s) in (p, set_mm q s).

Definition free_page (p : Z) s : option (vm W) :=
  q ← Pmm.pmm_free_page p (mm s); Some (set_mm q s).

(** [for (i = from; i < to; i++)] with a body that can panic, and one that
    can also return from the function. *)
Definition for_vm (from to : Z) (body : Z -> vm W -> option (vm W)) s : option (vm W) :=
  for_range from to (fun i o => s ← o; body i s) (Some s).

Definition for_return (from to : Z) (body : Z -> vm W -> option (option Z * vm W)) s :
    option (option Z * vm W) :=
  for_range from to (fun i o =>
    '(r, s) ← o; match r with Some _ => Some (r, s) | None => body i s end) (Some (None, s)).

Definition cache_flags (cache_mode : Z) : Z :=
  if cache_mode =? VM64_CACHE_UC then 0x18
  else if cache_mode =? VM64_CACHE_WC then 0x08
  else if cache_mode =? VM64_CACHE_WB then 0 else 0xFFFFFFFFFFFFFFFF.

(** ** Creating and destroying spaces *)

Definition free_if (p : Z) s : option (vm W) := if nz p then free_page p s else Some s.

Definition allocate_space_tables (i : Z) s : option (Z * vm W) :=
  let v := spaces s i in
  let '(a, s) := alloc_page s in
  let '(b, s) := alloc_page s in
  let '(c, s) := alloc_page s in
  let '(d, s) := alloc_page s in
  let '(e, s) := alloc_page s in
  if negb (nz a) || negb (nz b) || negb (nz c) || negb (nz d) || negb (nz e) then
    s ← free_if a s; s ← free_if b s; s ← free_if c s; s ← free_if d s; s ← free_if e s;
    Some (-1, set_space i (Space 0 0 0 0 0 (user_pts v) (mappings v)) s)
  else Some (0, set_space i (Space a b c d e (user_pts v) (mappings v)) s).

(** The entry of the identity table for a page of the first two megabytes. *)
Definition identity_entry (index : Z) : Z :=
  let physical := Z.shiftl index 12 in
  physical |||
    (if (text_start <=? physical) && (physical <? text_end) then VM64_PAGE_PRESENT
     else if (rodata_start <=? physical) && (physical <? rodata_end) then VM64_PAGE_PRESENT ||| VM64_PAGE_NX
     else VM64_PAGE_PRESENT ||| VM64_PAGE_WRITE ||| VM64_PAGE_NX).

(** The upper levels of a new space's tables. *)
Definition fill_space_tables (i : Z) s : vm W :=
  let v := spaces s i in
  let s := set_entry (pml4 v) 0 (pdpt v ||| VM64_PAGE_PRESENT ||| VM64_PAGE_WRITE ||| VM64_PAGE_USER) s in
  let s := set_entry (pml4 v) 256 (kernel_mmio_pdpt s ||| VM64_PAGE_PRESENT ||| VM64_PAGE_WRITE) s in
  let s := set_entry (pdpt v) 0 (identity_pd v ||| VM64_PAGE_PRESENT ||| VM64_PAGE_WRITE) s in
  let s := set_entry (pdpt v) 4 (user_pd v ||| VM64_PAGE_PRESENT ||| VM64_PAGE_WRITE ||| VM64_PAGE_USER) s in
  let s := set_entry (identity_pd v) 0 (identity_pt0 v ||| VM64_PAGE_PRESENT ||| VM64_PAGE_WRITE) s in
  let s := for_range 0 512 (fun index s => set_entry (identity_pt0 v) index (identity_entry index) s) s in
  for_range 1 512 (fun index s =>
    set_entry (identity_pd v) index
      (Z.shiftl index 21 ||| VM64_PAGE_PRESENT ||| VM64_PAGE_WRITE ||| VM64_PAGE_NX ||| PAGE_HUGE) s) s.

(** The answer and, when it is 0, the space. *)
Definition vm64_create_space s : option (Z * Z * vm W) :=
  match scan_range 0 VM64_MAX_SPACES (fun index => negb (nz (pml4 (spaces s index)))) with
  | None => Some (-1, 0, s)
  | Some i =>
      '(r, s) ← allocate_space_tables i s;
      if nz r then Some (-1, 0, s) else
      let v := spaces s i in
      let s := set_space i (Space (pml4 v) (pdpt v) (identity_pd v) (identity_pt0 v) (user_pd v) (fun _ => 0)
                              (fun _ => Mapping None 0 0)) s in
      Some (0, i, fill_space_tables i s)
  end.

Definition vm64_root (index : Z) s : Z := if index <? VM64_MAX_SPACES then pml4 (spaces s index) else 0.

Definition vm64_available_pages s : Z := Pmm.pmm_free_pages (mm s).

Definition vm64_alloc_page s : Z * vm W := alloc_page s.

Definition vm64_free_page (p : Z) s : option (Z * vm W) :=
  if negb (nz p) || nz (p &&& 0xFFF) || negb (nz (Pmm.pmm_page_refs p (mm s))) then Some (-1, s)
  else s ← free_page p s; Some (0, s).

Definition set_user_pt (pd_index p : Z) (v : vm64_space) : vm64_space :=
  Space (pml4 v) (pdpt v) (identity_pd v) (identity_pt0 v) (user_pd v) (upd (user_pts v) pd_index p) (mappings v).

(** The table's address, when there is one. *)
Definition ensure_user_pt (i pd_index : Z) s : option Z * vm W :=
  if 512 <=? pd_index then (None, s) else
  let v := spaces s i in
  if negb (nz (user_pts v pd_index)) then
    let '(p, s) := alloc_page s in
    if negb (nz p) then (None, s) else
    let s := set_space i (set_user_pt pd_index p v) s in
    (Some p, set_entry (user_pd v) pd_index
               (p ||| VM64_PAGE_PRESENT ||| VM64_PAGE_WRITE ||| VM64_PAGE_USER) s)
  else (Some (user_pts v pd_index), s).

(** The address of the entry. *)
Definition user_pte (i virtual : Z) (create : bool) s : option Z * vm W :=
  if negb (nz (pml4 (spaces s i))) || (virtual <? VM64_USER_BASE) || (VM64_USER_LIMIT <=? virtual)
  then (None, s) else
  let relative := virtual - VM64_USER_BASE in
  let pd_index := u32 (Z.shiftr relative 21) in
  let pt_index := u32 (Z.shiftr relative 12 &&& 0x1FF) in
  let '(pt, s) :=
    if create then ensure_user_pt i pd_index s
    else let p := user_pts (spaces s i) pd_index in (if nz p then Some p else None, s) in
  (pt ← pt; Some (pt + 8 * pt_index), s).

Definition find_pte (i virtual : Z) s : option Z := fst (user_pte i virtual false s).

Definition release_empty_pt (i pd_index : Z) s : option (vm W) :=
  let v := spaces s i in
  let pt := user_pts v pd_index in
  if negb (nz pt) then Some s else
  match scan_range 0 512 (fun index => nz (entry s pt index &&& VM64_PAGE_PRESENT)) with
  | Some _ => Some s
  | None =>
      s ← free_page pt s;
      let s := set_space i (set_user_pt pd_index 0 v) s in
      Some (set_entry (user_pd v) pd_index 0 s)
  end.

Definition set_mapping (map : Z) (e : vm64_object_mapping) (v : vm64_space) : vm64_space :=
  Space (pml4 v) (pdpt v) (identity_pd v) (identity_pt0 v) (user_pd v) (user_pts v) (upd (mappings v) map e).

Definition release_object (o : Z) s : option (vm W) :=
  '(q, w) ← object_release o (mm s) (rest s); Some (set_rest w (set_mm q s)).

(** The pages of one page table, and the table. *)
Definition destroy_entry (pt index : Z) s : option (vm W) :=
  let e := entry s pt index in
  s ← (if e &&& (VM64_PAGE_PRESENT ||| PAGE_OWNED) =? VM64_PAGE_PRESENT ||| PAGE_OWNED
       then snd <$> vm64_free_page (e &&& VM64_PHYS_MASK) s else Some s);
  Some (set_entry pt index 0 s).

Definition destroy_pt (i pd_index : Z) s : option (vm W) :=
  let pt := user_pts (spaces s i) pd_index in
  if negb (nz pt) then Some s else
  s ← for_vm 0 512 (destroy_entry pt) s;
  s ← free_page pt s;
  Some (set_space i (set_user_pt pd_index 0 (spaces s i)) s).

Definition destroy_mapping (i map : Z) s : option (vm W) :=
  let e := mappings (spaces s i) map in
  s ← match m_object e with
      | Some o => release_object o (set_rest (page_resource_mapping_close o (rest s)) s)
      | None => Some s
      end;
  Some (set_space i (set_mapping map (Mapping None (m_virtual e) (m_length e)) (spaces s i)) s).

Definition vm64_destroy_space (i : Z) s : option (vm W) :=
  if (VM64_MAX_SPACES <=? i) || negb (nz (pml4 (spaces s i))) then Some s else
  s ← for_vm 0 512 (destroy_pt i) s;
  s ← for_vm 0 VM64_MAPPING_MAX (destroy_mapping i) s;
  let v := spaces s i in
  s ← free_page (user_pd v) s;
  s ← free_page (identity_pt0 v) s;
  s ← free_page (identity_pd v) s;
  s ← free_page (pdpt v) s;
  s ← free_page (pml4 v) s;
  Some (set_space i (Space 0 0 0 0 0 (user_pts v) (mappings v)) s).

(** ** Copy on write *)

Definition vm64_handle_cow (i virtual : Z) s : option (Z * vm W) :=
  if (VM64_MAX_SPACES <=? i) || negb (nz (pml4 (spaces s i))) then Some (-1, s) else
  match find_pte i virtual s with
  | None => Some (-1, s)
  | Some pte =>
      let old := read64 (memory s) pte in
      let wanted := VM64_PAGE_PRESENT ||| PAGE_OWNED ||| VM64_PAGE_COW ||| VM64_PAGE_USER in
      if negb (old &&& wanted =? wanted) then Some (-1, s) else
      let old_phys := old &&& VM64_PHYS_MASK in
      let flags := Z.ldiff (Z.ldiff old VM64_PHYS_MASK) VM64_PAGE_COW ||| VM64_PAGE_WRITE in
      let refs := Pmm.pmm_page_refs old_phys (mm s) in
      if negb (nz refs) then Some (-1, s) else
      if refs =? 1 then Some (0, store pte (old_phys ||| flags) s) else
      let '(fresh, s) := vm64_alloc_page s in
      if negb (nz fresh) then Some (-1, s) else
      let s := set_memory (copy_page fresh old_phys (memory s)) s in
      let s := store pte (fresh ||| flags) s in
      s ← free_page old_phys s;
      Some (0, s)
  end.

(** One entry of the source's table; [Some (-1)] is the early return. *)
Definition clone_entry (copy spt pd_index index : Z) s : option (option Z * vm W) :=
  let pte := entry s spt index in
  if negb (pte &&& (VM64_PAGE_PRESENT ||| PAGE_OWNED) =? VM64_PAGE_PRESENT ||| PAGE_OWNED) then Some (None, s) else
  let phys := pte &&& VM64_PHYS_MASK in
  let flags := Z.ldiff pte VM64_PHYS_MASK in
  let '(flags, s) :=
    if nz (flags &&& VM64_PAGE_WRITE) then
      let flags := Z.ldiff flags VM64_PAGE_WRITE ||| VM64_PAGE_COW in
      (flags, set_entry spt index (phys ||| flags) s)
    else (flags, s) in
  let '(r, q) := Pmm.pmm_retain_page phys (mm s) in
  let s := set_mm q s in
  if nz r then s ← vm64_destroy_space copy s; Some (Some (-1), s) else
  let '(dpt, s) := ensure_user_pt copy pd_index s in
  match dpt with
  | Some dpt =>
      if nz (entry s dpt index &&& VM64_PAGE_PRESENT) then
        s ← free_page phys s; s ← vm64_destroy_space copy s; Some (Some (-1), s)
      else Some (None, set_entry dpt index (phys ||| flags) s)
  | None => s ← free_page phys s; s ← vm64_destroy_space copy s; Some (Some (-1), s)
  end.

Definition clone_pt (source copy pd_index : Z) s : option (option Z * vm W) :=
  let spt := user_pts (spaces s source) pd_index in
  if negb (nz spt) then Some (None, s) else for_return 0 512 (clone_entry copy spt pd_index) s.

Definition vm64_clone_space (source : Z) s : option (Z * Z * vm W) :=
  if (VM64_MAX_SPACES <=? source) || negb (nz (pml4 (spaces s source))) then Some (-1, 0, s) else
  '(r, copy, s) ← vm64_create_space s;
  if nz r then Some (-1, 0, s) else
  '(r, s) ← for_return 0 512 (clone_pt source copy) s;
  match r with
  | Some r => Some (r, 0, s)
  | None => Some (0, copy, s)
  end.

(** ** Mapping pages *)

Definition map_page (i virtual physical flags : Z) s : Z * vm W :=
  let '(pte, s) := user_pte i virtual true s in
  match pte with
  | None => (-1, s)
  | Some pte =>
      if nz (read64 (memory s) pte &&& VM64_PAGE_PRESENT) then (-1, s)
      else (0, store pte (physical ||| flags) s)
  end.

Definition vm64_map (i virtual physical : Z) (writable executable : bool) s : Z * vm W :=
  if (VM64_MAX_SPACES <=? i) || negb (nz (pml4 (spaces s i))) || nz (virtual &&& 0xFFF) ||
     nz (physical &&& 0xFFF) || negb (nz (Pmm.pmm_page_refs physical (mm s)))
  then (-1, s) else
  let flags := VM64_PAGE_PRESENT ||| VM64_PAGE_USER ||| PAGE_OWNED in
  let flags := if writable then flags ||| VM64_PAGE_WRITE else flags in
  let flags := if executable then flags else flags ||| VM64_PAGE_NX in
  map_page i virtual physical flags s.

Definition vm64_unmap (i virtual : Z) s : option (Z * vm W) :=
  if (VM64_MAX_SPACES <=? i) || negb (nz (pml4 (spaces s i))) || nz (virtual &&& 0xFFF) then Some (-1, s) else
  match find_pte i virtual s with
  | None => Some (-1, s)
  | Some pte =>
      let e := read64 (memory s) pte in
      if (e &&& VM64_PAGE_PRESENT =? 0) || (e &&& PAGE_OWNED =? 0) then Some (-1, s) else
      let s := store pte 0 s in
      s ← free_page (e &&& VM64_PHYS_MASK) s;
      s ← release_empty_pt i (u32 (Z.shiftr (virtual - VM64_USER_BASE) 21)) s;
      Some (0, s)
  end.

Definition vm64_user_flags (i virtual : Z) s : Z :=
  if VM64_MAX_SPACES <=? i then 0 else
  match find_pte i virtual s with
  | None => 0
  | Some pte =>
      read64 (memory s) pte &&&
        (VM64_PAGE_PRESENT ||| VM64_PAGE_WRITE ||| VM64_PAGE_USER ||| VM64_PAGE_COW ||| VM64_PAGE_NX)
  end.

(** [has_pat] is the processor's answer about the page attribute table. *)
Definition init_pts (s : vm W) : option (option Z * vm W) :=
  for_return 0 KERNEL_MMIO_PTS (fun index s =>
    let '(p, s) := alloc_page s in
    let s := set_kernel (kernel_mmio_pdpt s) (kernel_mmio_pd s) (upd (kernel_mmio_pts s) index p)
               (kernel_mmio_used s) s in
    if negb (nz p) then
      s ← for_vm 0 index (fun undo s => free_page (kernel_mmio_pts s undo) s) s;
      s ← free_page (kernel_mmio_pd s) s;
      s ← free_page (kernel_mmio_pdpt s) s;
      Some (Some (-1), s)
    else Some (None, set_entry (kernel_mmio_pd s) index (p ||| VM64_PAGE_PRESENT ||| VM64_PAGE_WRITE) s)) s.

Definition clear_root (v : vm64_space) : vm64_space :=
  Space 0 (pdpt v) (identity_pd v) (identity_pt0 v) (user_pd v) (user_pts v) (mappings v).

Definition vm64_init (has_pat : bool) s : option (Z * vm W) :=
  let s := for_range 0 VM64_MAX_SPACES (fun i s => set_space i (clear_root (spaces s i)) s) s in
  let '(a, s) := alloc_page s in
  let '(b, s) := alloc_page s in
  let s := set_kernel a b (kernel_mmio_pts s)
             (fun k => if (0 <=? k) && (k <? KERNEL_MMIO_PAGES) then false else kernel_mmio_used s k) s in
  if negb (nz a) || negb (nz b) then
    s ← free_if a s; s ← free_if b s; Some (-1, s)
  else
    let s := set_entry a 0 (b ||| VM64_PAGE_PRESENT ||| VM64_PAGE_WRITE) s in
    '(r, s) ← init_pts s;
    match r with
    | Some r => Some (r, s)
    | None =>
        if has_pat then Some (0, s) else
        s ← for_vm 0 KERNEL_MMIO_PTS (fun index s => free_page (kernel_mmio_pts s index) s) s;
        s ← free_page (kernel_mmio_pd s) s;
        s ← free_page (kernel_mmio_pdpt s) s;
        Some (-1, s)
    end.

(** ** User memory *)

Definition space_from_root (root : Z) s : option Z :=
  if negb (nz root) then None else scan_range 0 VM64_MAX_SPACES (fun index => pml4 (spaces s index) =? root).

(** The number of bytes of a transfer that lie in the page of [current]. *)
Definition piece (current left : Z) : Z :=
  let count := 4096 - (current &&& 0xFFF) in if left <? count then left else count.

(** The body of the loop of [vm64_user_access]: whether it goes on. *)
Definition access_page (i current : Z) (writable : bool) s : option (bool * vm W) :=
  match find_pte i current s with
  | None => Some (false, s)
  | Some pte =>
      let e := read64 (memory s) pte in
      if negb (e &&& (VM64_PAGE_PRESENT ||| VM64_PAGE_USER) =? VM64_PAGE_PRESENT ||| VM64_PAGE_USER)
      then Some (false, s) else
      if writable && negb (nz (e &&& VM64_PAGE_WRITE)) then
        if negb (nz (e &&& VM64_PAGE_COW)) then Some (false, s) else
        '(r, s) ← vm64_handle_cow i current s;
        if nz r then Some (false, s) else
        Some (match find_pte i current s with
              | None => false
              | Some pte => nz (read64 (memory s) pte &&& VM64_PAGE_WRITE)
              end, s)
      else Some (true, s)
  end.

Fixpoint access_loop (fuel : nat) (i address length : Z) (writable : bool) (done : Z) s : option (Z * vm W) :=
  if negb (done <? length) then Some (0, s) else
  match fuel with
  | O => None
  | S fuel =>
      let current := address + done in
      '(ok, s) ← access_page i current writable s;
      if negb ok then Some (-1, s) else
      access_loop fuel i address length writable (done + piece current (length - done)) s
  end.

(** One iteration for each page a transfer can touch. *)
Definition transfer_fuel (length : Z) : nat := Z.to_nat (length / 4096 + 2).

Definition vm64_user_access (root address length : Z) (writable : bool) s : option (Z * vm W) :=
  match space_from_root root s with
  | None => Some (-1, s)
  | Some i =>
      if (address <? VM64_USER_BASE) || (VM64_USER_LIMIT <=? address) || (VM64_USER_LIMIT - address <? length)
      then Some (-1, s)
      else access_loop (transfer_fuel length) i address length writable 0 s
  end.

(** The kernel's buffer is a function of the offset. *)
Fixpoint copy_loop (fuel : nat) (i address length : Z) (to_user : bool) (done : Z) (buffer : Z -> Z) s :
    option ((Z -> Z) * vm W) :=
  if negb (done <? length) then Some (buffer, s) else
  match fuel with
  | O => None
  | S fuel =>
      let current := address + done in
      pte ← find_pte i current s;
      let offset := current &&& 0xFFF in
      let count := piece current (length - done) in
      let user := (read64 (memory s) pte &&& VM64_PHYS_MASK) + offset in
      let '(buffer, s) :=
        if to_user then
          (buffer, set_memory (for_range 0 count (fun byte m => upd m (user + byte) (buffer (done + byte)))
                                 (memory s)) s)
        else
          (for_range 0 count (fun byte b => upd b (done + byte) (memory s (user + byte))) buffer, s) in
      copy_loop fuel i address length to_user (done + count) buffer s
  end.

Definition vm64_copy (root user_address length : Z) (to_user : bool) (buffer : Z -> Z) s :
    option (Z * (Z -> Z) * vm W) :=
  let space := space_from_root root s in
  '(r, s) ← vm64_user_access root user_address length to_user s;
  if nz r then Some (-1, buffer, s) else
  i ← space;
  '(buffer, s) ← copy_loop (transfer_fuel length) i user_address length to_user 0 buffer s;
  Some (0, buffer, s).

Definition vm64_copy_from (root user_src length : Z) (kernel_dst : Z -> Z) s : option (Z * (Z -> Z) * vm W) :=
  vm64_copy root user_src length false kernel_dst s.

Definition vm64_copy_to (root user_dst length : Z) (kernel_src : Z -> Z) s : option (Z * vm W) :=
  '(r, _, s) ← vm64_copy root user_dst length true kernel_src s; Some (r, s).

(** ** Object mappings *)

(** The undo of a mapping that failed after [mapped] bytes. *)
Definition undo_pages (i virtual mapped : Z) s : vm W :=
  for_range 0 (mapped / 4096) (fun k s =>
    match find_pte i (virtual + (mapped - 4096 * (k + 1))) s with
    | Some pte => store pte 0 s
    | None => s
    end) s.

Definition release_pts (i virtual length : Z) s : option (vm W) :=
  let first_pd := u32 (Z.shiftr (virtual - VM64_USER_BASE) 21) in
  let last_pd := u32 (Z.shiftr (virtual + length - 1 - VM64_USER_BASE) 21) in
  for_vm first_pd (last_pd + 1) (release_empty_pt i) s.

(** [while (mapped < length)] over [n] pages; the number of bytes mapped when
    [map_page] fails. *)
Fixpoint map_pages (n : nat) (i virtual : Z) (phys : Z -> Z) (flags mapped : Z) s : option Z * vm W :=
  match n with
  | O => (None, s)
  | S n =>
      let '(r, s) := map_page i (virtual + mapped) (phys mapped) flags s in
      if nz r then (Some mapped, s) else map_pages n i virtual phys flags (mapped + 4096) s
  end.

Definition free_mapping (v : vm64_space) : option Z :=
  scan_range 0 VM64_MAPPING_MAX (fun map => negb (is_some (m_object (mappings v map)))).

Definition vm64_map_object (i virtual object physical length : Z) (writable : bool) (cache_mode : Z) s :
    option (Z * vm W) :=
  if (VM64_MAX_SPACES <=? i) || negb (nz (pml4 (spaces s i))) || negb (object_active (rest s) object) ||
     (virtual <? VM64_DRIVER_BASE) || (VM64_DRIVER_LIMIT <=? virtual) || negb (nz length) ||
     nz (virtual &&& 0xFFF) || nz (physical &&& 0xFFF) || nz (length &&& 0xFFF) ||
     (VM64_DRIVER_LIMIT - virtual <? length)
  then Some (-1, s) else
  let caching := cache_flags cache_mode in
  if caching =? 0xFFFFFFFFFFFFFFFF then Some (-1, s) else
  match free_mapping (spaces s i) with
  | None => Some (-1, s)
  | Some map =>
      let '(r, w) := object_retain object (rest s) in
      let s := set_rest w s in
      if nz r then Some (-1, s) else
      let flags := VM64_PAGE_PRESENT ||| VM64_PAGE_USER ||| VM64_PAGE_NX ||| caching in
      let flags := if writable then flags ||| VM64_PAGE_WRITE else flags in
      match map_pages (Z.to_nat (length / 4096)) i virtual (fun mapped => u64 (physical + mapped)) flags 0 s with
      | (Some mapped, s) =>
          let s := undo_pages i virtual mapped s in
          s ← release_pts i virtual length s;
          s ← release_object object s;
          Some (-1, s)
      | (None, s) => Some (0, set_space i (set_mapping map (Mapping (Some object) virtual length) (spaces s i)) s)
      end
  end.

Definition vm64_map_page_object (i virtual object : Z) (writable : bool) s : option (Z * vm W) :=
  match page_resource_get (rest s) object with
  | None => Some (-1, s)
  | Some resource =>
      let length := pages resource * 4096 in
      if (VM64_MAX_SPACES <=? i) || negb (nz (pml4 (spaces s i))) || revoked resource ||
         (virtual <? VM64_DRIVER_BASE) || (VM64_DRIVER_LIMIT <=? virtual) || negb (nz length) ||
         nz (virtual &&& 0xFFF) || (VM64_DRIVER_LIMIT - virtual <? length)
      then Some (-1, s) else
      match free_mapping (spaces s i) with
      | None => Some (-1, s)
      | Some map =>
          let '(r, w) := object_retain object (rest s) in
          let s := set_rest w s in
          if nz r then Some (-1, s) else
          let '(r, w) := page_resource_mapping_open object (rest s) in
          let s := set_rest w s in
          if nz r then s ← release_object object s; Some (-1, s) else
          let flags := VM64_PAGE_PRESENT ||| VM64_PAGE_USER ||| VM64_PAGE_NX in
          let flags := if writable then flags ||| VM64_PAGE_WRITE else flags in
          match map_pages (Z.to_nat (pages resource)) i virtual
                  (fun mapped => physical resource (mapped / 4096)) flags 0 s with
          | (Some mapped, s) =>
              let s := undo_pages i virtual mapped s in
              s ← release_pts i virtual length s;
              s ← release_object object (set_rest (page_resource_mapping_close object (rest s)) s);
              Some (-1, s)
          | (None, s) =>
              Some (0, set_space i (set_mapping map (Mapping (Some object) virtual length) (spaces s i)) s)
          end
      end
  end.

Definition mapping_matches (virtual length : Z) (e : vm64_object_mapping) : bool :=
  is_some (m_object e) && (m_virtual e =? virtual) && (m_length e =? length).

Definition all_present (i virtual length : Z) s : bool :=
  negb (is_some (scan_range 0 (length / 4096) (fun k =>
    match find_pte i (virtual + 4096 * k) s with
    | Some pte => negb (nz (read64 (memory s) pte &&& VM64_PAGE_PRESENT))
    | None => true
    end))).

Definition clear_pages (i virtual length : Z) s : option (option Z * vm W) :=
  for_return 0 (length / 4096) (fun k s =>
    match find_pte i (virtual + 4096 * k) s with
    | Some pte => Some (None, store pte 0 s)
    | None => Some (Some (-1), s)
    end) s.

Definition vm64_unmap_object (i virtual length : Z) s : option (Z * vm W) :=
  if (VM64_MAX_SPACES <=? i) || negb (nz (pml4 (spaces s i))) then Some (-1, s) else
  match scan_range 0 VM64_MAPPING_MAX (fun map => mapping_matches virtual length (mappings (spaces s i) map)) with
  | None => Some (-1, s)
  | Some map =>
      if negb (all_present i virtual length s) then Some (-1, s) else
      '(r, s) ← clear_pages i virtual length s;
      match r with
      | Some r => Some (r, s)
      | None =>
          s ← release_pts i virtual length s;
          o ← m_object (mappings (spaces s i) map);
          s ← release_object o (set_rest (page_resource_mapping_close o (rest s)) s);
          Some (0, set_space i (set_mapping map (Mapping None 0 0) (spaces s i)) s)
      end
  end.

Definition revoke_mapping (i : Z) (objects : list Z) (map : Z) (acc : Z * vm W) : option (Z * vm W) :=
  let '(count, s) := acc in
  let e := mappings (spaces s i) map in
  match m_object e with
  | Some o =>
      if bool_decide (o ∈ objects) then
        '(r, s) ← vm64_unmap_object i (m_virtual e) (m_length e) s;
        Some (if nz r then count else count + 1, s)
      else Some (count, s)
  | None => Some (count, s)
  end.

Definition vm64_revoke_objects (i : Z) (objects : list Z) s : option (Z * vm W) :=
  if (VM64_MAX_SPACES <=? i) || negb (nz (pml4 (spaces s i))) then Some (0, s) else
  for_range 0 VM64_MAPPING_MAX (fun map acc => acc ← acc; revoke_mapping i objects map acc) (Some (0, s)).

Definition revoke_in_space (object i map : Z) (acc : Z * vm W) : option (Z * vm W) :=
  let '(result, s) := acc in
  let e := mappings (spaces s i) map in
  if bool_decide (m_object e = Some object) then
    '(r, s) ← vm64_unmap_object i (m_virtual e) (m_length e) s;
    Some (if nz r then -1 else result, s)
  else Some (result, s).

Definition vm64_revoke_object_all (object : Z) s : option (Z * vm W) :=
  for_range 0 VM64_MAX_SPACES (fun i acc =>
    '(result, s) ← acc;
    if negb (nz (pml4 (spaces s i))) then Some (result, s) else
    for_range 0 VM64_MAPPING_MAX (fun map acc => acc ← acc; revoke_in_space object i map acc) (Some (result, s)))
    (Some (0, s)).

Definition vm64_object_mapping_count (i : Z) s : Z :=
  if (VM64_MAX_SPACES <=? i) || negb (nz (pml4 (spaces s i))) then 0 else
  count_from (Z.to_nat VM64_MAPPING_MAX) 0 (fun map => is_some (m_object (mappings (spaces s i) map))).

(** ** The kernel's device window *)

(** The search: the start and the length of the last run of unused pages. *)
Fixpoint mmio_run (n : nat) (used : Z -> bool) (pages index run start : Z) : Z * Z :=
  match n with
  | O => (run, start)
  | S n =>
      if negb (used index) then
        let start := if nz run then start else index in
        let run := run + 1 in
        if run =? pages then (run, start) else mmio_run n used pages (index + 1) run start
      else mmio_run n used pages (index + 1) 0 start
  end.

Definition mmio_store (index v : Z) (used : bool) s : vm W :=
  let s := set_kernel (kernel_mmio_pdpt s) (kernel_mmio_pd s) (kernel_mmio_pts s)
             (upd (kernel_mmio_used s) index used) s in
  set_entry (kernel_mmio_pts s (Z.shiftr index 9)) (index &&& 0x1FF) v s.

(** The address of the window; 0 is the null pointer. *)
Definition vm64_ioremap (physical length cache_mode : Z) s : Z * vm W :=
  if negb (nz length) || nz (physical &&& 0xFFF) || nz (length &&& 0xFFF) ||
     (VM64_KERNEL_MMIO_SIZE <? length) || (0xFFFFFFFFFFFFFFFF - physical <? length)
  then (0, s) else
  let caching := cache_flags cache_mode in
  if caching =? 0xFFFFFFFFFFFFFFFF then (0, s) else
  let pages := u32 (length / 4096) in
  let '(run, start) := mmio_run (Z.to_nat KERNEL_MMIO_PAGES) (kernel_mmio_used s) pages 0 0 0 in
  if negb (run =? pages) then (0, s) else
  (VM64_KERNEL_MMIO_BASE + start * 4096,
   for_range 0 pages (fun page s =>
     mmio_store (start + page)
       ((physical + page * 4096) ||| VM64_PAGE_PRESENT ||| VM64_PAGE_WRITE ||| VM64_PAGE_NX ||| caching) true s) s).

Definition vm64_iounmap (address length : Z) s : Z * vm W :=
  if negb (nz address) || negb (nz length) || nz (address &&& 0xFFF) || nz (length &&& 0xFFF) ||
     (address <? VM64_KERNEL_MMIO_BASE) || (VM64_KERNEL_MMIO_BASE + VM64_KERNEL_MMIO_SIZE <=? address) ||
     (VM64_KERNEL_MMIO_BASE + VM64_KERNEL_MMIO_SIZE - address <? length)
  then (-1, s) else
  let start := u32 ((address - VM64_KERNEL_MMIO_BASE) / 4096) in
  let pages := u32 (length / 4096) in
  match scan_range 0 pages (fun page => negb (kernel_mmio_used s (start + page))) with
  | Some _ => (-1, s)
  | None => (0, for_range 0 pages (fun page s => mmio_store (start + page) 0 false s) s)
  end.

End Operations.

(** ** Words in memory *)

Lemma read_bytes_ext n m m' a :
  (forall b, a <= b < a + Z.of_nat n -> m b = m' b) -> read_bytes n m a = read_bytes n m' a.
Proof.
  revert a. induction n as [|n IH]; intros a He; [done|]. cbn [read_bytes].
  rewrite (He a) by lia. by rewrite (IH (a + 1)) by (intros; apply He; lia).
Qed.

Lemma read64_ext m m' a : (forall b, a <= b < a + 8 -> m b = m' b) -> read64 m a = read64 m' a.
Proof. apply (read_bytes_ext 8). Qed.

Lemma read_bytes_range n m a :
  (forall b, a <= b < a + Z.of_nat n -> is_u8 (m b)) -> 0 <= read_bytes n m a < 256 ^ Z.of_nat n.
Proof.
  revert a. induction n as [|n IH]; intros a Hb; [simpl; lia|]. cbn [read_bytes].
  pose proof (Hb a ltac:(lia)). pose proof (IH (a + 1) ltac:(intros; apply Hb; lia)).
  rewrite Nat2Z.inj_succ, Z.pow_succ_r by lia. unfold is_u8 in *. nia.
Qed.

Lemma read64_u64 m a : (forall b, is_u8 (m b)) -> is_u64 (read64 m a).
Proof. intros Hb. apply (read_bytes_range 8). auto. Qed.

(** The bytes of a word, least significant first. *)
Lemma read_bytes_word n m a v :
  0 <= v < 256 ^ Z.of_nat n -> (forall k, 0 <= k < Z.of_nat n -> m (a + k) = u8 (Z.shiftr v (8 * k))) ->
  read_bytes n m a = v.
Proof.
  revert a v. induction n as [|n IH]; intros a v Hv Hm; [simpl in *; lia|]. cbn [read_bytes].
  rewrite Nat2Z.inj_succ, Z.pow_succ_r in Hv by lia.
  pose proof (Hm 0 ltac:(lia)) as H0. rewrite Z.add_0_r, Z.mul_0_r, Z.shiftr_0_r in H0.
  rewrite (IH (a + 1) (v / 256)).
  - rewrite H0. unfold u8. pose proof (Z.div_mod v 256). lia.
  - split; [apply Z.div_pos; lia|apply Z.div_lt_upper_bound; lia].
  - intros k Hk. replace (a + 1 + k) with (a + (k + 1)) by lia. rewrite Hm by lia.
    change 256 with (2 ^ 8). rewrite <- Z.shiftr_div_pow2, Z.shiftr_shiftr by lia. do 2 f_equal. lia.
Qed.

Lemma write64_at a v m b : a <= b < a + 8 -> write64 a v m b = u8 (Z.shiftr v (8 * (b - a))).
Proof. intros Hb. unfold write64. by rewrite (proj2 (Z.leb_le a b)), (proj2 (Z.ltb_lt b (a + 8))) by lia. Qed.

Lemma write64_out a v m b : b < a \/ a + 8 <= b -> write64 a v m b = m b.
Proof.
  intros Hb. unfold write64. destruct (Z.leb_spec a b), (Z.ltb_spec b (a + 8)); simpl; done || lia.
Qed.

Lemma read64_write64 a v m : is_u64 v -> read64 (write64 a v m) a = v.
Proof.
  intros Hv. apply (read_bytes_word 8); [exact Hv|]. intros k Hk. rewrite write64_at by lia. do 3 f_equal. lia.
Qed.

Lemma read64_write64_ne a v m b : b + 8 <= a \/ a + 8 <= b -> read64 (write64 a v m) b = read64 m b.
Proof. intros Hb. apply read64_ext. intros. apply write64_out. lia. Qed.

Lemma write64_u8 a v m : (forall b, is_u8 (m b)) -> forall b, is_u8 (write64 a v m b).
Proof. intros Hm b. unfold write64. destruct (_ && _); auto with mich. Qed.

Lemma u8_byte_of_read m a k :
  (forall b, is_u8 (m b)) -> 0 <= k < 8 -> u8 (Z.shiftr (read64 m a) (8 * k)) = m (a + k).
Proof.
  intros Hm Hk. unfold read64. enough (forall n a k, 0 <= k < Z.of_nat n ->
    u8 (Z.shiftr (read_bytes n m a) (8 * k)) = m (a + k)) as He by (apply (He 8%nat); lia).
  clear a k Hk. intros n. induction n as [|n IH]; intros a k Hk; [lia|]. cbn [read_bytes].
  rewrite Z.shiftr_div_pow2 by lia. destruct (Z.eq_dec k 0) as [->|].
  - rewrite Z.mul_0_r, Z.pow_0_r, Z.div_1_r, Z.add_0_r. pose proof (Hm a). words.
  - replace (8 * k) with (8 + 8 * (k - 1)) by lia. rewrite Z.pow_add_r, <- Z.div_div by lia.
    replace ((m a + 256 * read_bytes n m (a + 1)) / 2 ^ 8) with (read_bytes n m (a + 1)).
    2: { change (2 ^ 8) with 256. pose proof (Hm a). unfold is_u8 in *. dmlia. }
    rewrite <- Z.shiftr_div_pow2, IH by lia. f_equal. lia.
Qed.

(** Copying a page word by word copies its bytes. *)
Lemma copy_page_bytes dst src m b :
  (forall b, is_u8 (m b)) -> dst + 4096 <= src \/ src + 4096 <= dst ->
  copy_page dst src m b = if (dst <=? b) && (b <? dst + 4096) then m (src + (b - dst)) else m b.
Proof.
  intros Hm Hd. unfold copy_page.
  enough (forall n, (n <= 512)%nat -> forall b,
    for_from n 0 (fun index m => write64 (dst + 8 * index) (read64 m (src + 8 * index)) m) m b =
    if (dst <=? b) && (b <? dst + 8 * Z.of_nat n) then m (src + (b - dst)) else m b) as He.
  { unfold for_range. rewrite He by lia. done. }
  clear b. intros n. induction n as [|n IH]; intros Hn b.
  { simpl. destruct (Z.leb_spec dst b), (Z.ltb_spec b (dst + 8 * Z.of_nat 0)); simpl; done || lia. }
  rewrite for_from_S_r. set (m' := for_from n 0 _ m) in *. rewrite Z.add_0_l.
  assert (read64 m' (src + 8 * Z.of_nat n) = read64 m (src + 8 * Z.of_nat n)) as ->.
  { apply read64_ext. intros c Hc. rewrite IH by lia.
    destruct (Z.leb_spec dst c), (Z.ltb_spec c (dst + 8 * Z.of_nat n)); simpl; done || lia. }
  destruct (decide (dst + 8 * Z.of_nat n <= b < dst + 8 * Z.of_nat n + 8)) as [Hb|Hb].
  - rewrite write64_at, u8_byte_of_read by (done || lia).
    rewrite (proj2 (Z.leb_le dst b)), (proj2 (Z.ltb_lt b _)) by lia. simpl. f_equal. lia.
  - rewrite write64_out, IH by lia.
    destruct (Z.leb_spec dst b), (Z.ltb_spec b (dst + 8 * Z.of_nat n)), (Z.ltb_spec b (dst + 8 * Z.of_nat (S n)));
      simpl; done || lia.
Qed.

(** ** Entries *)

#[global] Arguments Z.testbit : simpl never.

(** The page an entry names, and its flags. *)
Definition phys_page (e : Z) : Z := (e &&& VM64_PHYS_MASK) / 4096.

Abbreviation pte_present e := (Z.testbit e 0).
Abbreviation pte_writable e := (Z.testbit e 1).
Abbreviation pte_user e := (Z.testbit e 2).
Abbreviation pte_owned e := (Z.testbit e 9).
Abbreviation pte_cow e := (Z.testbit e 10).
Abbreviation pte_no_execute e := (Z.testbit e 63).

Lemma mask_bits n : 0 <= n -> Z.testbit VM64_PHYS_MASK n = (12 <=? n) && (n <? 52).
Proof.
  intros Hn. change VM64_PHYS_MASK with (Z.shiftl (Z.ones 40) 12). rewrite Z.shiftl_spec by done.
  destruct (Z.leb_spec 12 n); simpl; [|by apply Z.testbit_neg_r; lia].
  rewrite Z.testbit_ones by lia. destruct (Z.leb_spec 0 (n - 12)), (Z.ltb_spec (n - 12) 40), (Z.ltb_spec n 52);
    simpl; done || lia.
Qed.

Lemma mask_page p : 0 <= p < 2 ^ 40 -> (4096 * p) &&& VM64_PHYS_MASK = 4096 * p.
Proof.
  intros Hp. apply Z.bits_inj'. intros n Hn. rewrite Z.land_spec, mask_bits by done.
  replace (4096 * p) with (Z.shiftl p 12) by (rewrite Z.shiftl_mul_pow2 by lia; lia).
  rewrite Z.shiftl_spec by done. destruct (Z.leb_spec 12 n); simpl; [|rewrite andb_false_r; symmetry; apply Z.testbit_neg_r; lia].
  destruct (Z.ltb_spec n 52); [apply andb_true_r|]. rewrite andb_false_r. symmetry.
  rewrite <- (Z.mod_small p (2 ^ 40)) by done. apply Z.mod_pow2_bits_high. lia.
Qed.

Lemma masked_page e : e &&& VM64_PHYS_MASK = 4096 * phys_page e /\ 0 <= phys_page e < 2 ^ 40.
Proof.
  assert (e &&& VM64_PHYS_MASK = 4096 * (Z.shiftr e 12 mod 2 ^ 40)) as He.
  { apply Z.bits_inj'. intros n Hn. rewrite Z.land_spec, mask_bits by done.
    replace (4096 * (Z.shiftr e 12 mod 2 ^ 40)) with (Z.shiftl (Z.shiftr e 12 mod 2 ^ 40) 12)
      by (rewrite Z.shiftl_mul_pow2 by lia; lia).
    rewrite Z.shiftl_spec by done. destruct (Z.leb_spec 12 n); simpl.
    - destruct (Z.ltb_spec n 52).
      + rewrite Z.mod_pow2_bits_low, Z.shiftr_spec, andb_true_r by lia. f_equal. lia.
      + by rewrite Z.mod_pow2_bits_high, andb_false_r by lia.
    - rewrite andb_false_r. symmetry. apply Z.testbit_neg_r. lia. }
  unfold phys_page. rewrite He, (Z.mul_comm 4096), Z.div_mul by lia. split; [lia|]. apply Z.mod_pos_bound. lia.
Qed.

(** An entry built from a page and flags. *)
Lemma build_phys p fl :
  0 <= p < 2 ^ 40 -> fl &&& VM64_PHYS_MASK = 0 -> phys_page (4096 * p ||| fl) = p.
Proof.
  intros Hp Hf. unfold phys_page. rewrite Z.land_lor_distr_l, Hf, Z.lor_0_r, mask_page by done.
  rewrite Z.mul_comm. apply Z.div_mul. lia.
Qed.

Lemma build_bits p fl n :
  0 <= p < 2 ^ 40 -> 0 <= n < 12 \/ 52 <= n -> Z.testbit (4096 * p ||| fl) n = Z.testbit fl n.
Proof.
  intros Hp Hn. rewrite Z.lor_spec, <- mask_page, Z.land_spec, mask_bits by lia.
  destruct (Z.leb_spec 12 n), (Z.ltb_spec n 52); simpl; (lia || by rewrite andb_false_r).
Qed.

Lemma testbit_above v n : 0 <= n -> v < 2 ^ n -> 0 <= v -> Z.testbit v n = false.
Proof. intros Hn Hv H0. rewrite <- (Z.mod_small v (2 ^ n)) by done. by rewrite Z.mod_pow2_bits_high by lia. Qed.

Lemma lor_u64 a b : is_u64 a -> is_u64 b -> is_u64 (a ||| b).
Proof.
  unfold is_u64. change 0x10000000000000000 with (2 ^ 64). intros Ha Hb.
  split; [apply Z.lor_nonneg; lia|]. destruct (Z.eq_dec (a ||| b) 0) as [->|]; [lia|].
  apply Z.log2_lt_pow2; [|rewrite Z.log2_lor by lia; apply Z.max_lub_lt].
  - pose proof (proj2 (Z.lor_nonneg a b)). lia.
  - destruct (Z.eq_dec a 0) as [->|]; [done|]. apply Z.log2_lt_pow2; lia.
  - destruct (Z.eq_dec b 0) as [->|]; [done|]. apply Z.log2_lt_pow2; lia.
Qed.

Lemma ldiff_u64 a b : is_u64 a -> is_u64 (Z.ldiff a b).
Proof.
  unfold is_u64. change 0x10000000000000000 with (2 ^ 64). intros Ha.
  assert (Z.ldiff a b = Z.ldiff a b mod 2 ^ 64) as ->; [|apply Z.mod_pos_bound; lia].
  apply Z.bits_inj'. intros n Hn. destruct (Z.ltb_spec n 64); [by rewrite Z.mod_pow2_bits_low by lia|].
  rewrite Z.mod_pow2_bits_high, Z.ldiff_spec by lia.
  rewrite <- (Z.mod_small a (2 ^ 64)), Z.mod_pow2_bits_high by lia. done.
Qed.

Lemma ldiff_mask a : Z.ldiff a VM64_PHYS_MASK &&& VM64_PHYS_MASK = 0.
Proof.
  apply Z.bits_inj'. intros n Hn. rewrite Z.land_spec, Z.ldiff_spec, Z.bits_0.
  destruct (Z.testbit a n), (Z.testbit VM64_PHYS_MASK n); done.
Qed.

Lemma mask_lor a b :
  a &&& VM64_PHYS_MASK = 0 -> b &&& VM64_PHYS_MASK = 0 -> (a ||| b) &&& VM64_PHYS_MASK = 0.
Proof. intros Ha Hb. by rewrite Z.land_lor_distr_l, Ha, Hb. Qed.

Lemma mask_ldiff a b : a &&& VM64_PHYS_MASK = 0 -> Z.ldiff a b &&& VM64_PHYS_MASK = 0.
Proof.
  intros Ha. apply Z.bits_inj'. intros n Hn. rewrite Z.land_spec, Z.ldiff_spec, Z.bits_0.
  apply (f_equal (fun x => Z.testbit x n)) in Ha. rewrite Z.land_spec, Z.bits_0 in Ha.
  destruct (Z.testbit a n), (Z.testbit VM64_PHYS_MASK n), (Z.testbit b n); done.
Qed.

(** Tests of a single flag and of all the flags of a mask. *)
Lemma flag_test e n : 0 <= n -> nz (e &&& 2 ^ n) = Z.testbit e n.
Proof. intros Hn. rewrite <- (bit_of_testbit e n) by done. unfold bit_of. by rewrite Z.shiftl_mul_pow2, Z.mul_1_l. Qed.

Lemma mask_test e m :
  (e &&& m =? m) = true <-> forall n, 0 <= n -> Z.testbit m n = true -> Z.testbit e n = true.
Proof.
  rewrite Z.eqb_eq. split.
  - intros He n Hn Hm. apply (f_equal (fun x => Z.testbit x n)) in He. rewrite Z.land_spec, Hm in He.
    by rewrite andb_true_r in He.
  - intros He. apply Z.bits_inj'. intros n Hn. rewrite Z.land_spec. destruct (Z.testbit m n) eqn:Hm; [|apply andb_false_r].
    by rewrite He.
Qed.

Lemma pow2_bit k n : 0 <= k -> Z.testbit (2 ^ k) n = (k =? n).
Proof. apply Z.pow2_bits_eqb. Qed.

Lemma mask_test2 e a b :
  0 <= a -> 0 <= b -> (e &&& (2 ^ a ||| 2 ^ b) =? 2 ^ a ||| 2 ^ b) = Z.testbit e a && Z.testbit e b.
Proof.
  intros Ha Hb. apply eq_true_iff_eq. rewrite mask_test, andb_true_iff. split.
  - intros H. split; apply H; try done; rewrite Z.lor_spec, !pow2_bit, Z.eqb_refl by done; [done|apply orb_true_r].
  - intros [H1 H2] n Hn. rewrite Z.lor_spec, !pow2_bit, orb_true_iff, !Z.eqb_eq by done. by intros [<-|<-].
Qed.

End Vm.
