(* ===== verification/VmInv.v ===== *)
(** The invariant of the address spaces of Vm.v.

    Every physical page has one use: a page table, a page the rest of the
    kernel holds, a page of a kernel object, or a page owned by the page table
    entries that name it, as often as its reference count says.  The first
    part states this on an abstraction of the state (the tables in use, the
    page table entries, the reference counts and the object mappings), with
    one lemma for each way it changes; the second shows what the operations of
    vm.c do to that abstraction and to memory. *)

From stdpp Require Import gmap.
From S2P Require Import Prelude Pmm Vm.

Module VmInv.

Import Vm.

(** ** What the object modules promise *)

(** [held] counts the page references that objects hold, [pins] the references
    that mappings hold on an object, [backs] says which pages an object
    consists of, [device] which pages are not memory. *)
Class VmObjects (W : Type) := {
  held : W -> Z -> Z;
  pins : W -> Z -> Z;
  backs : W -> Z -> Z -> Prop;
  device : Z -> Prop
}.

Record same_objects {W} `{VmObjects W} (w w' : W) : Prop := {
  so_held : forall p, held w' p = held w p;
  so_backs : forall o p, backs w' o p <-> backs w o p
}.

(** A release gives up a reference, and the pages of an object that nothing
    refers to any more. *)
Record released {W} `{VmObjects W} (o : Z) (q : Pmm.pmm) (w : W) (q' : Pmm.pmm) (w' : W) : Prop := {
  rl_inv : Pmm.inv q';
  rl_memory : forall a, Pmm.memory q' a = Pmm.memory q a;
  rl_ram : Pmm.ram_bitmap q' = Pmm.ram_bitmap q;
  rl_refs : forall p, Pmm.page_refs q' p = Pmm.page_refs q p - (held w p - held w' p);
  rl_held : forall p, held w' p <= held w p;
  rl_pins : forall o', pins w' o' = pins w o' - Z.b2z (o' =? o);
  rl_backs : forall o' p, 0 < pins w' o' -> backs w o' p -> backs w' o' p
}.

Class VmLaws (W : Type) `{VmModules W} `{VmObjects W} : Prop := {
  held_nonneg (w : W) p : 0 <= held w p;
  backs_kept (w : W) o p : 0 < pins w o -> backs w o p -> device p \/ 0 < held w p;
  retain_law (w : W) o r w' : object_retain o w = (r, w') ->
    same_objects w w' /\ forall o', pins w' o' = pins w o' + Z.b2z ((o' =? o) && (r =? 0));
  open_law (w : W) o r w' : page_resource_mapping_open o w = (r, w') ->
    same_objects w w' /\ forall o', pins w' o' = pins w o';
  close_law (w : W) o :
    same_objects w (page_resource_mapping_close o w) /\
    forall o', pins (page_resource_mapping_close o w) o' = pins w o';
  release_law (w : W) o q :
    0 < pins w o -> Pmm.inv q -> (forall p, held w p <= Pmm.page_refs q p) ->
    exists q' w', object_release o q w = Some (q', w') /\ released o q w q' w';
  resource_law (w : W) o r : page_resource_get w o = Some r ->
    0 <= pages r /\ forall k, 0 <= k < pages r ->
    exists p, physical r k = 4096 * p /\ 0 <= p < 2 ^ 40 /\ backs w o p
}.

(** ** The abstraction *)

Inductive role :=
  | Root (i : Z) | Pdpt (i : Z) | IdentityPd (i : Z) | IdentityPt0 (i : Z) | UserPd (i : Z) | UserPt (i k : Z)
  | MmioPdpt | MmioPd | MmioPt (k : Z).

Definition is_space (i : Z) : Prop := 0 <= i < VM64_MAX_SPACES.

Definition valid_role (r : role) : Prop :=
  match r with
  | Root i | Pdpt i | IdentityPd i | IdentityPt0 i | UserPd i => is_space i
  | UserPt i k => is_space i /\ 0 <= k < 512
  | MmioPdpt | MmioPd => True
  | MmioPt k => 0 <= k < KERNEL_MMIO_PTS
  end.

#[global] Instance role_eq : EqDecision role.
Proof. solve_decision. Defined.

(** A slot is a space and a page number relative to [VM64_USER_BASE]. *)
Definition is_slot (i v : Z) : Prop := is_space i /\ 0 <= v < 0x40000.

Lemma pairs (a b : Z) :
  { X : gset (Z * Z) | forall i v, (i, v) ∈ X <-> 0 <= i < a /\ 0 <= v < b }.
Proof.
  exists (list_to_set (i ← seqZ 0 a; v ← seqZ 0 b; [(i, v)])). intros i v.
  rewrite elem_of_list_to_set, list_elem_of_bind. split.
  - intros (i' & Hv & Hi). apply list_elem_of_bind in Hv as (v' & Hx & Hv). apply elem_of_seqZ in Hi, Hv.
    apply list_elem_of_singleton in Hx as [= -> ->]. lia.
  - intros [Hi Hv]. exists i. rewrite list_elem_of_bind, elem_of_seqZ. split; [|lia]. exists v.
    rewrite elem_of_seqZ, list_elem_of_singleton. split; [done|lia].
Qed.

Definition slots : gset (Z * Z) := proj1_sig (pairs VM64_MAX_SPACES 0x40000).

Definition mapping_slots : gset (Z * Z) := proj1_sig (pairs VM64_MAX_SPACES VM64_MAPPING_MAX).

Lemma elem_of_slots i v : (i, v) ∈ slots <-> is_slot i v.
Proof. unfold slots. by destruct (pairs _ _) as [X HX]. Qed.

Lemma elem_of_mapping_slots i m :
  (i, m) ∈ mapping_slots <-> is_space i /\ 0 <= m < VM64_MAPPING_MAX.
Proof. unfold mapping_slots. by destruct (pairs _ _) as [X HX]. Qed.

Record abs {W : Type} := Abs {
  a_role : role -> Z;
  a_pte : Z -> Z -> Z;
  a_refs : Z -> Z;
  a_map : Z -> Z -> vm64_object_mapping;
  a_world : W
}.
#[global] Arguments abs : clear implicits.

(** Equal on what the invariant talks about. *)
Record abs_eq {W} (x y : abs W) : Prop := {
  ae_role : forall r, valid_role r -> a_role x r = a_role y r;
  ae_pte : forall i v, is_slot i v -> a_pte x i v = a_pte y i v;
  ae_refs : forall p, a_refs x p = a_refs y p;
  ae_map : forall i m, is_space i -> 0 <= m < VM64_MAPPING_MAX -> a_map x i m = a_map y i m;
  ae_world : a_world x = a_world y
}.

#[global] Instance abs_equiv {W} : Equiv (abs W) := abs_eq.

#[global] Instance abs_equivalence {W} : Equivalence (≡@{abs W}).
Proof.
  split.
  - intros x. by split.
  - intros x y []. split; intros; symmetry; auto.
  - intros x y z [A1 A2 A3 A4 A5] [B1 B2 B3 B4 B5].
    split; intros; [rewrite A1|rewrite A2|rewrite A3|rewrite A4|rewrite A5]; auto.
Qed.

Definition covers (e : vm64_object_mapping) (v : Z) : Prop :=
  m_virtual e <= VM64_USER_BASE + 4096 * v < m_virtual e + m_length e.

Lemma gset_size_zero (X : gset (Z * Z)) : size X = 0%nat -> X = ∅.
Proof. intros Hs. by apply leibniz_equiv, size_empty_inv. Qed.

Section Core.

Context {W : Type} {VM : VmModules W} {VO : VmObjects W} {VL : VmLaws W}.
Implicit Types (x y : abs W).

(** The slots whose entries own the page [p]. *)
Definition owners x (p : Z) : gset (Z * Z) :=
  filter (fun a => pte_present (a_pte x a.1 a.2) && pte_owned (a_pte x a.1 a.2) &&
                   (phys_page (a_pte x a.1 a.2) =? p) = true) slots.

Definition mapset x (o : Z) : gset (Z * Z) :=
  filter (fun a => m_object (a_map x a.1 a.2) = Some o) mapping_slots.

Definition is_table x (p : Z) : Prop := exists r, valid_role r /\ a_role x r = 4096 * p /\ a_role x r <> 0.

(** A mapping under construction, which is not in its space's array yet. *)
Definition pending : Type := option (Z * vm64_object_mapping).

Definition pending_pins (P : pending) (o : Z) : Z :=
  match P with
  | Some (_, e) => if decide (m_object e = Some o) then 1 else 0
  | None => 0
  end.

(** The mapping [e] of the space [i], in the array or pending. *)
Definition mapped x (P : pending) (i : Z) (e : vm64_object_mapping) : Prop :=
  (exists m, 0 <= m < VM64_MAPPING_MAX /\ a_map x i m = e) \/ P = Some (i, e).

Record core (R : Z -> Z -> Prop) (P : pending) (l : Z -> Z) x : Prop := {
  c_addr r : valid_role r -> a_role x r <> 0 -> exists p, a_role x r = 4096 * p /\ 0 < p < Pmm.BITMAP_BITS;
  c_inj r r' : valid_role r -> valid_role r' -> a_role x r <> 0 -> a_role x r = a_role x r' -> r = r';
  c_table p : is_table x p ->
    a_refs x p = 1 /\ l p = 0 /\ held (a_world x) p = 0 /\ owners x p = ∅;
  c_held p : 0 < held (a_world x) p -> l p = 0 /\ owners x p = ∅ /\ a_refs x p = held (a_world x) p;
  c_count p : ~ is_table x p -> held (a_world x) p = 0 -> a_refs x p = Z.of_nat (size (owners x p)) + l p;
  c_loose p : 0 <= l p;
  c_owned i v : is_slot i v -> pte_present (a_pte x i v) = true -> pte_owned (a_pte x i v) = true ->
    0 < phys_page (a_pte x i v) < Pmm.BITMAP_BITS;
  c_excl i v : is_slot i v -> pte_present (a_pte x i v) = true -> pte_owned (a_pte x i v) = true ->
    pte_writable (a_pte x i v) = true -> a_refs x (phys_page (a_pte x i v)) = 1;
  c_foreign i v : is_slot i v -> pte_present (a_pte x i v) = true -> pte_owned (a_pte x i v) = false ->
    exists e o, mapped x P i e /\ m_object e = Some o /\ covers e v /\
      backs (a_world x) o (phys_page (a_pte x i v));
  c_pins o : Z.of_nat (size (mapset x o)) + pending_pins P o <= pins (a_world x) o;
  c_range i m v : is_slot i v -> 0 <= m < VM64_MAPPING_MAX -> m_object (a_map x i m) <> None -> ~ R i m ->
    covers (a_map x i m) v -> pte_present (a_pte x i v) = true /\ pte_owned (a_pte x i v) = false;
  c_disjoint i m m' v : is_slot i v -> 0 <= m < VM64_MAPPING_MAX -> 0 <= m' < VM64_MAPPING_MAX -> m <> m' ->
    m_object (a_map x i m) <> None -> m_object (a_map x i m') <> None -> ~ R i m -> ~ R i m' ->
    covers (a_map x i m) v -> covers (a_map x i m') v -> False
}.

Lemma elem_of_owners x p i v :
  (i, v) ∈ owners x p <->
  is_slot i v /\ pte_present (a_pte x i v) = true /\ pte_owned (a_pte x i v) = true /\ phys_page (a_pte x i v) = p.
Proof.
  unfold owners. rewrite elem_of_filter, elem_of_slots. simpl. rewrite !andb_true_iff, Z.eqb_eq. naive_solver.
Qed.

Lemma elem_of_mapset x o i m :
  (i, m) ∈ mapset x o <-> is_space i /\ 0 <= m < VM64_MAPPING_MAX /\ m_object (a_map x i m) = Some o.
Proof. unfold mapset. rewrite elem_of_filter, elem_of_mapping_slots. simpl. naive_solver. Qed.

Lemma owners_ext x y p :
  (forall i v, is_slot i v -> a_pte x i v = a_pte y i v) -> owners x p = owners y p.
Proof. intros He. apply set_eq. intros [i v]. rewrite !elem_of_owners. split; intros (Hs & ?); rewrite (He i v Hs) in *; done. Qed.

Lemma mapset_ext x y o :
  (forall i m, is_space i -> 0 <= m < VM64_MAPPING_MAX -> a_map x i m = a_map y i m) -> mapset x o = mapset y o.
Proof.
  intros He. apply set_eq. intros [i m]. rewrite !elem_of_mapset.
  split; intros (Hs & Hm & ?); rewrite (He i m Hs Hm) in *; done.
Qed.

Lemma is_table_ext x y p :
  (forall r, valid_role r -> a_role x r = a_role y r) -> is_table x p <-> is_table y p.
Proof. intros He. split; intros (r & Hr & ?); exists r; rewrite (He r Hr) in *; done. Qed.

Lemma mapped_ext x y P i e :
  is_space i -> (forall i m, is_space i -> 0 <= m < VM64_MAPPING_MAX -> a_map x i m = a_map y i m) ->
  mapped x P i e <-> mapped y P i e.
Proof.
  intros Hi He. unfold mapped. split; (intros [(m & Hm & <-)|?]; [left; exists m; split; [done|]|by right]).
  - symmetry. by apply He.
  - by apply He.
Qed.

Lemma core_ext R P l x y : x ≡ y -> core R P l x -> core R P l y.
Proof.
  intros [Hr Hp Hf Hm Hw] Hc.
  pose proof (fun p => owners_ext x y p Hp) as Ho. pose proof (fun o => mapset_ext x y o Hm) as Hs.
  pose proof (fun p => is_table_ext x y p Hr) as Ht.
  split.
  - intros r Hv. rewrite <- Hr by done. by apply (c_addr _ _ _ _ Hc).
  - intros r r' Hv Hv'. rewrite <- !Hr by done. by apply (c_inj _ _ _ _ Hc).
  - intros p. rewrite <- Ht, <- Hf, <- Ho, <- Hw. apply (c_table _ _ _ _ Hc).
  - intros p. rewrite <- Hf, <- Ho, <- Hw. apply (c_held _ _ _ _ Hc).
  - intros p. rewrite <- Ht, <- Hf, <- Ho, <- Hw. apply (c_count _ _ _ _ Hc).
  - apply (c_loose _ _ _ _ Hc).
  - intros i v Hv. rewrite <- Hp by done. by apply (c_owned _ _ _ _ Hc).
  - intros i v Hv. rewrite <- Hp, <- Hf by done. by apply (c_excl _ _ _ _ Hc).
  - intros i v Hv. rewrite <- Hp, <- Hw by done. intros H1 H2.
    destruct (c_foreign _ _ _ _ Hc i v Hv H1 H2) as (e & o & Hmp & ?). exists e, o. split; [|done].
    by apply (mapped_ext x); [apply Hv|done|].
  - intros o. rewrite <- Hs, <- Hw. apply (c_pins _ _ _ _ Hc).
  - intros i m v Hv Hmm. rewrite <- Hm, <- Hp by (done || apply Hv). by apply (c_range _ _ _ _ Hc).
  - intros i m m' v Hv Hmm Hmm'. rewrite <- !Hm by (done || apply Hv). by apply (c_disjoint _ _ _ _ Hc).
Qed.

#[global] Instance core_proper R P l : Proper ((≡) ==> iff) (core R P l).
Proof. intros x y Hxy. split; apply core_ext; [done|by symmetry]. Qed.

Lemma core_loose_ext R P l l' x : (forall p, l p = l' p) -> core R P l x -> core R P l' x.
Proof.
  intros He Hc. destruct Hc as [C1 C2 C3 C4 C5 C6 C7 C8 C9 C10 C11 C12]. split; try assumption.
  - intros p. rewrite <- He. apply C3.
  - intros p. rewrite <- He. apply C4.
  - intros p. rewrite <- He. apply C5.
  - intros p. rewrite <- He. apply C6.
Qed.

(** ** Transitions of the abstraction *)

Definition with_refs (p n : Z) x : abs W :=
  Abs _ (a_role x) (a_pte x) (upd (a_refs x) p n) (a_map x) (a_world x).

Definition with_role (r : role) (a : Z) x : abs W :=
  Abs _ (fun r' => if decide (r' = r) then a else a_role x r') (a_pte x) (a_refs x) (a_map x) (a_world x).

Definition with_pte (i v e : Z) x : abs W :=
  Abs _ (a_role x) (fun i' v' => if (i' =? i) && (v' =? v) then e else a_pte x i' v') (a_refs x) (a_map x)
    (a_world x).

Definition with_map (i m : Z) (e : vm64_object_mapping) x : abs W :=
  Abs _ (a_role x) (a_pte x) (a_refs x) (fun i' m' => if (i' =? i) && (m' =? m) then e else a_map x i' m') (a_world x).

Definition with_world (w : W) x : abs W := Abs _ (a_role x) (a_pte x) (a_refs x) (a_map x) w.

Lemma owners_with_refs p n x q : owners (with_refs p n x) q = owners x q.
Proof. by apply owners_ext. Qed.

Lemma no_owner x p i v :
  owners x p = ∅ -> is_slot i v -> pte_present (a_pte x i v) = true -> pte_owned (a_pte x i v) = true ->
  phys_page (a_pte x i v) <> p.
Proof. intros He Hs Hp Ho Hx. assert ((i, v) ∈ owners x p) as Hi by (by apply elem_of_owners). rewrite He in Hi. by apply not_elem_of_empty in Hi. Qed.

Lemma free_page_unused R P l x p :
  core R P l x -> a_refs x p = 0 ->
  ~ is_table x p /\ held (a_world x) p = 0 /\ owners x p = ∅ /\ l p = 0.
Proof.
  intros Hc Hz.
  assert (~ is_table x p) as Ht by (intros Ht; apply (c_table _ _ _ _ Hc) in Ht; lia).
  assert (held (a_world x) p = 0) as Hh.
  { pose proof (held_nonneg (a_world x) p). destruct (Z.eq_dec (held (a_world x) p) 0); [done|].
    pose proof (c_held _ _ _ _ Hc p). lia. }
  pose proof (c_count _ _ _ _ Hc p Ht Hh) as Hn. pose proof (c_loose _ _ _ _ Hc p).
  split_and!; [done|done| |lia]. apply gset_size_zero. lia.
Qed.

(** The reference count of a page and the loose references change together. *)
Lemma core_refs R P l x p n k :
  core R P l x -> ~ is_table x p -> held (a_world x) p = 0 -> 0 <= k -> n = Z.of_nat (size (owners x p)) + k ->
  (n = 1 \/ forall i v, (i, v) ∈ owners x p -> pte_writable (a_pte x i v) = false) ->
  core R P (upd l p k) (with_refs p n x).
Proof.
  intros Hc Ht Hh Hk Hn Hw. destruct Hc as [C1 C2 C3 C4 C5 C6 C7 C8 C9 C10 C11 C12].
  split; try assumption; simpl.
  - intros q Hq. rewrite owners_with_refs. assert (q <> p) by (intros ->; exact (Ht Hq)). rewrite !upd_ne by done. by apply C3.
  - intros q Hq. rewrite owners_with_refs. assert (q <> p) by (intros ->; lia). rewrite !upd_ne by done. by apply C4.
  - intros q Hq Hq'. rewrite owners_with_refs. destruct (Z.eq_dec q p) as [->|]; [by rewrite !upd_eq|].
    rewrite !upd_ne by done. by apply C5.
  - intros q. destruct (Z.eq_dec q p) as [->|]; [by rewrite upd_eq|by rewrite upd_ne].
  - intros i v Hs Hp Ho Hwr. destruct (Z.eq_dec (phys_page (a_pte x i v)) p) as [He|He].
    + rewrite He, upd_eq. destruct Hw as [?|Hw]; [done|].
      rewrite (Hw i v) in Hwr; [done|]. by apply elem_of_owners.
    + rewrite upd_ne by done. by apply C8.
Qed.

Lemma core_alloc R P l x p :
  core R P l x -> a_refs x p = 0 -> core R P (upd l p 1) (with_refs p 1 x).
Proof.
  intros Hc Hz. destruct (free_page_unused _ _ _ _ _ Hc Hz) as (Ht & Hh & Ho & Hl).
  apply core_refs; try done; [|by left]. by rewrite Ho, size_empty.
Qed.

Lemma loose_not_table R P l x p : core R P l x -> 0 < l p -> ~ is_table x p /\ held (a_world x) p = 0.
Proof.
  intros Hc Hl. split; [intros Ht; apply (c_table _ _ _ _ Hc) in Ht; lia|].
  pose proof (held_nonneg (a_world x) p). destruct (Z.eq_dec (held (a_world x) p) 0); [done|].
  pose proof (c_held _ _ _ _ Hc p). lia.
Qed.

(** A page with a loose reference and an owner is not writable by that owner. *)
Lemma owner_size x p i v : (i, v) ∈ owners x p -> 1 <= Z.of_nat (size (owners x p)).
Proof.
  intros Hi. assert (size (owners x p) <> 0%nat) as Hn; [|lia]. intros Hz. apply gset_size_zero in Hz. rewrite Hz in Hi. by apply not_elem_of_empty in Hi.
Qed.

Lemma loose_not_writable R P l x p i v :
  core R P l x -> 0 < l p -> (i, v) ∈ owners x p -> pte_writable (a_pte x i v) = false.
Proof.
  intros Hc Hl Hi. destruct (loose_not_table _ _ _ _ _ Hc Hl) as [Ht Hh].
  pose proof (c_count _ _ _ _ Hc p Ht Hh). pose proof (owner_size _ _ _ _ Hi).
  apply elem_of_owners in Hi as (Hs & Hp & Ho & He). destruct (pte_writable (a_pte x i v)) eqn:Hw; [|done].
  pose proof (c_excl _ _ _ _ Hc i v Hs Hp Ho Hw) as Hr. rewrite He in Hr. lia.
Qed.

Lemma core_free R P l x p :
  core R P l x -> 0 < l p -> core R P (upd l p (l p - 1)) (with_refs p (a_refs x p - 1) x).
Proof.
  intros Hc Hl. destruct (loose_not_table _ _ _ _ _ Hc Hl) as [Ht Hh].
  pose proof (c_count _ _ _ _ Hc p Ht Hh). apply core_refs; try done; [lia|lia|right].
  intros i v. by apply (loose_not_writable R P l).
Qed.

Lemma core_retain R P l x p :
  core R P l x -> ~ is_table x p -> held (a_world x) p = 0 ->
  (forall i v, (i, v) ∈ owners x p -> pte_writable (a_pte x i v) = false) ->
  core R P (upd l p (l p + 1)) (with_refs p (a_refs x p + 1) x).
Proof.
  intros Hc Ht Hh Hw. pose proof (c_count _ _ _ _ Hc p Ht Hh). pose proof (c_loose _ _ _ _ Hc p).
  apply core_refs; try done; [lia|lia|by right].
Qed.

Lemma is_table_with_role x r p q :
  valid_role r -> a_role x r = 0 -> p <> 0 ->
  is_table (with_role r (4096 * p) x) q <-> q = p \/ is_table x q.
Proof.
  intros Hr Hz Hp. split.
  - intros (r' & Hv & Ha & Hn). simpl in *. destruct (decide (r' = r)); [left; lia|right]. by exists r'.
  - intros [->|(r' & Hv & Ha & Hn)].
    + exists r. simpl. rewrite decide_True by done. split_and!; [done|done|lia].
    + exists r'. simpl. rewrite decide_False by congruence. done.
Qed.

Lemma core_link R P l x r p :
  core R P l x -> valid_role r -> a_role x r = 0 -> 0 < p < Pmm.BITMAP_BITS -> l p = 1 -> a_refs x p = 1 ->
  core R P (upd l p 0) (with_role r (4096 * p) x).
Proof.
  intros Hc Hv Hz Hp Hl Hr. destruct (loose_not_table _ _ _ _ p Hc ltac:(lia)) as [Ht Hh].
  pose proof (c_count _ _ _ _ Hc p Ht Hh) as Hn.
  assert (owners x p = ∅) as Ho by (apply gset_size_zero; lia).
  assert (forall r', valid_role r' -> a_role x r' = 4096 * p -> False) as Hno.
  { intros r' Hr' Ha. apply Ht. exists r'. split_and!; [done|done|lia]. }
  destruct Hc as [C1 C2 C3 C4 C5 C6 C7 C8 C9 C10 C11 C12]. split; try assumption.
  - intros r' Hv' Hn'. simpl in *. destruct (decide (r' = r)); [by exists p|by apply C1].
  - intros r1 r2 H1 H2. simpl. destruct (decide (r1 = r)) as [->|], (decide (r2 = r)) as [->|]; try done.
    + intros _ He. exfalso. by apply (Hno r2).
    + intros _ He. exfalso. by apply (Hno r1).
    + by apply C2.
  - intros q Hq. apply is_table_with_role in Hq; [|done|done|lia]. simpl.
    rewrite (owners_ext _ x) by done. destruct (Z.eq_dec q p) as [->|Hne]; [by rewrite upd_eq|].
    rewrite upd_ne by done. destruct Hq as [?|Hq]; [done|]. by apply C3.
  - intros q Hq. simpl in *. rewrite (owners_ext _ x) by done. destruct (Z.eq_dec q p) as [->|Hne]; [lia|].
    rewrite upd_ne by done. by apply C4.
  - intros q Hq Hq'. simpl in *. rewrite is_table_with_role in Hq by (done || lia).
    assert (q <> p) by tauto. rewrite (owners_ext _ x), upd_ne by done. apply C5; [tauto|done].
  - intros q. destruct (Z.eq_dec q p) as [->|]; [by rewrite upd_eq|by rewrite upd_ne].
Qed.

Lemma core_unlink R P l x r p :
  core R P l x -> valid_role r -> a_role x r = 4096 * p -> p <> 0 ->
  core R P (upd l p 1) (with_role r 0 x).
Proof.
  intros Hc Hv Ha Hp. assert (is_table x p) as Ht by (exists r; split_and!; [done|done|lia]).
  destruct (c_table _ _ _ _ Hc p Ht) as (Hr & Hl & Hh & Ho).
  assert (forall q, is_table (with_role r 0 x) q <-> q <> p /\ is_table x q) as Htab.
  { intros q. split.
    - intros (r' & Hv' & Ha' & Hn'). simpl in *. destruct (decide (r' = r)) as [|Hne]; [done|]. split; [|by exists r'].
      intros ->. apply Hne. by apply (c_inj _ _ _ _ Hc); [..|congruence].
    - intros [Hne (r' & Hv' & Ha' & Hn')]. exists r'. simpl. rewrite decide_False by (intros ->; lia). done. }
  destruct Hc as [C1 C2 C3 C4 C5 C6 C7 C8 C9 C10 C11 C12]. split; try assumption.
  - intros r' Hv' Hn'. simpl in *. destruct (decide (r' = r)); [done|by apply C1].
  - intros r1 r2 H1 H2. simpl. intros Hn He. destruct (decide (r1 = r)) as [->|]; [done|].
    destruct (decide (r2 = r)) as [->|]; [congruence|]. by apply C2.
  - intros q Hq. apply Htab in Hq as [Hne Hq]. rewrite (owners_ext _ x), upd_ne by done. by apply C3.
  - intros q Hq. simpl in *. rewrite (owners_ext _ x) by done. rewrite upd_ne by (intros ->; lia). by apply C4.
  - intros q Hq Hq'. simpl in *. rewrite (owners_ext _ x) by done. destruct (Z.eq_dec q p) as [->|Hne].
    + rewrite upd_eq, Ho, size_empty. lia.
    + rewrite upd_ne by done. apply C5; [|done]. intros Hq2. apply Hq. by apply Htab.
  - intros q. destruct (Z.eq_dec q p) as [->|]; [by rewrite upd_eq|by rewrite upd_ne].
Qed.

(** 1 when the entry [e] owns the page [p]. *)
Definition own1 (e p : Z) : Z := Z.b2z (pte_present e && pte_owned e && (phys_page e =? p)).

Lemma own1_range e p : 0 <= own1 e p <= 1.
Proof. unfold own1. destruct (_ && _); simpl; lia. Qed.

Lemma own1_true e p : own1 e p = 1 <-> pte_present e = true /\ pte_owned e = true /\ phys_page e = p.
Proof.
  unfold own1. rewrite <- (Z.eqb_eq (phys_page e) p).
  destruct (pte_present e), (pte_owned e), (phys_page e =? p); simpl; intuition (congruence || lia).
Qed.

Lemma own1_false e p :
  pte_present e = false \/ pte_owned e = false \/ phys_page e <> p -> own1 e p = 0.
Proof.
  intros He. pose proof (own1_range e p). destruct (Z.eq_dec (own1 e p) 1) as [Ho|]; [|lia].
  apply own1_true in Ho as (? & ? & ?). naive_solver congruence.
Qed.

Lemma size_split (X : gset (Z * Z)) a :
  Z.of_nat (size X) = Z.of_nat (size (X ∖ {[a]})) + (if decide (a ∈ X) then 1 else 0).
Proof.
  destruct (decide (a ∈ X)) as [Ha|Ha].
  - rewrite size_difference by set_solver. rewrite size_singleton.
    assert (size X <> 0%nat); [|lia]. intros Hz. apply gset_size_zero in Hz. set_solver.
  - replace (X ∖ {[a]}) with X by set_solver. lia.
Qed.

Lemma owners_with_pte x i v e p :
  is_slot i v ->
  Z.of_nat (size (owners (with_pte i v e x) p)) =
  Z.of_nat (size (owners x p)) - own1 (a_pte x i v) p + own1 e p.
Proof.
  intros Hs. rewrite (size_split (owners x p) (i, v)), (size_split (owners (with_pte i v e x) p) (i, v)).
  assert (a_pte (with_pte i v e x) i v = e) as He by (simpl; by rewrite !Z.eqb_refl).
  replace (owners (with_pte i v e x) p ∖ {[(i, v)]}) with (owners x p ∖ {[(i, v)]}).
  2: { apply set_eq. intros [j u]. rewrite !elem_of_difference, !elem_of_owners, elem_of_singleton. simpl.
       destruct (Z.eqb_spec j i) as [->|], (Z.eqb_spec u v) as [->|]; simpl; naive_solver congruence. }
  assert (forall y, (if decide ((i, v) ∈ owners y p) then 1 else 0) = own1 (a_pte y i v) p) as Hd.
  { intros y. destruct (decide ((i, v) ∈ owners y p)) as [Ha|Ha]; rewrite elem_of_owners in Ha.
    - symmetry. apply own1_true. tauto.
    - pose proof (own1_range (a_pte y i v) p). destruct (Z.eq_dec (own1 (a_pte y i v) p) 1) as [Ho|]; [|lia].
      apply own1_true in Ho. tauto. }
  rewrite !Hd, He. lia.
Qed.

Lemma owners_with_pte_empty x i v e p :
  is_slot i v -> own1 e p = 0 -> owners x p = ∅ -> owners (with_pte i v e x) p = ∅.
Proof.
  intros Hs He Ho. apply gset_size_zero. pose proof (owners_with_pte x i v e p Hs) as Hz.
  rewrite Ho, size_empty, He in Hz. pose proof (own1_range (a_pte x i v) p). lia.
Qed.

(** What a new entry must satisfy: the reference it owns is a loose one. *)
Record pte_fits (R : Z -> Z -> Prop) (P : pending) (l : Z -> Z) x (i v e : Z) : Prop := {
  pf_owned : pte_present e = true -> pte_owned e = true ->
    0 < phys_page e < Pmm.BITMAP_BITS /\ 0 < l (phys_page e) + own1 (a_pte x i v) (phys_page e) /\
    ~ is_table x (phys_page e) /\ held (a_world x) (phys_page e) = 0 /\
    (pte_writable e = true -> a_refs x (phys_page e) = 1);
  pf_foreign : pte_present e = true -> pte_owned e = false ->
    exists e' o, mapped x P i e' /\ m_object e' = Some o /\ covers e' v /\ backs (a_world x) o (phys_page e);
  pf_range m : 0 <= m < VM64_MAPPING_MAX -> m_object (a_map x i m) <> None -> ~ R i m -> covers (a_map x i m) v ->
    pte_present e = true /\ pte_owned e = false
}.

Lemma core_pte R P l x i v e :
  core R P l x -> is_slot i v -> pte_fits R P l x i v e ->
  core R P (fun p => l p + own1 (a_pte x i v) p - own1 e p) (with_pte i v e x).
Proof.
  intros Hc Hs [F1 F2 F3].
  assert (forall p, own1 e p = 1 -> 0 < l p + own1 (a_pte x i v) p /\ ~ is_table x p /\ held (a_world x) p = 0) as Hnew.
  { intros p (Hp & Ho & <-)%own1_true. destruct (F1 Hp Ho) as (_ & ? & ? & ? & _). done. }
  assert (forall p, own1 e p = 0 \/ own1 e p = 1) as Hcase by (intros p; pose proof (own1_range e p); lia).
  assert (forall p, owners x p = ∅ -> own1 (a_pte x i v) p = 0) as Hold.
  { intros p Ho. pose proof (own1_range (a_pte x i v) p). destruct (Z.eq_dec (own1 (a_pte x i v) p) 1) as [H1|]; [|lia].
    apply own1_true in H1 as (? & ? & ?). by destruct (no_owner x p i v Ho). }
  assert (forall j u, (j =? i) && (u =? v) = true -> j = i /\ u = v) as Hiv.
  { intros j u [Hj Hu]%andb_true_iff. split; by apply Z.eqb_eq. }
  destruct Hc as [C1 C2 C3 C4 C5 C6 C7 C8 C9 C10 C11 C12]. split; try assumption.
  - intros p Ht. destruct (C3 p Ht) as (? & ? & ? & Ho). destruct (Hcase p) as [He|He]; [|by apply Hnew in He as (_ & ? & _)].
    rewrite (Hold p Ho), He. split_and!; [done|lia|done|]. by apply owners_with_pte_empty.
  - intros p Hh. destruct (C4 p Hh) as (? & Ho & ?). destruct (Hcase p) as [He|He];
      [|apply Hnew in He as (_ & _ & He); simpl in Hh; lia].
    rewrite (Hold p Ho), He. split_and!; [lia| |done]. by apply owners_with_pte_empty.
  - intros p Ht Hh. rewrite owners_with_pte by done. pose proof (C5 p Ht Hh). simpl. lia.
  - intros p. pose proof (C6 p). pose proof (own1_range (a_pte x i v) p). destruct (Hcase p) as [->|He]; [lia|].
    rewrite He. apply Hnew in He as (? & _). lia.
  - intros j u Hs'. simpl. destruct (_ && _); [intros Hp Ho; by apply F1|by apply C7].
  - intros j u Hs'. simpl. destruct (_ && _); [intros Hp Ho; by apply F1|by apply C8].
  - intros j u Hs'. simpl. destruct ((j =? i) && (u =? v)) eqn:Hjx; [|by apply C9]. apply Hiv in Hjx as [-> ->]. by apply F2.
  - intros j m u Hs' Hm. simpl. destruct ((j =? i) && (u =? v)) eqn:Hjx; [|by apply C11].
    apply Hiv in Hjx as [-> ->]. by apply F3.
Qed.

(** Clearing an entry leaves the reference it owned loose. *)
Lemma core_clear R P l x i v :
  core R P l x -> is_slot i v ->
  (forall m, 0 <= m < VM64_MAPPING_MAX -> m_object (a_map x i m) <> None -> covers (a_map x i m) v -> R i m) ->
  core R P (fun p => l p + own1 (a_pte x i v) p) (with_pte i v 0 x).
Proof.
  intros Hc Hs Hm. eapply core_loose_ext; [|apply (core_pte R P l x i v 0 Hc Hs)].
  - intros p. simpl. rewrite (own1_false 0) by (left; done). lia.
  - split; [done|done|]. intros m H1 H2 H3 H4. by destruct H3; apply Hm.
Qed.

(** ** Mappings and objects *)

Definition names1 (e : vm64_object_mapping) (o : Z) : Z := if decide (m_object e = Some o) then 1 else 0.

Lemma mapset_with_map x i m e o :
  is_space i -> 0 <= m < VM64_MAPPING_MAX ->
  Z.of_nat (size (mapset (with_map i m e x) o)) =
  Z.of_nat (size (mapset x o)) - names1 (a_map x i m) o + names1 e o.
Proof.
  intros Hi Hm. rewrite (size_split (mapset x o) (i, m)), (size_split (mapset (with_map i m e x) o) (i, m)).
  assert (a_map (with_map i m e x) i m = e) as He by (simpl; by rewrite !Z.eqb_refl).
  replace (mapset (with_map i m e x) o ∖ {[(i, m)]}) with (mapset x o ∖ {[(i, m)]}).
  2: { apply set_eq. intros [j u]. rewrite !elem_of_difference, !elem_of_mapset, elem_of_singleton. simpl.
       destruct (Z.eqb_spec j i) as [->|], (Z.eqb_spec u m) as [->|]; simpl; naive_solver congruence. }
  assert (forall y, (if decide ((i, m) ∈ mapset y o) then 1 else 0) = names1 (a_map y i m) o) as Hd.
  { intros y. unfold names1. apply decide_ext. rewrite elem_of_mapset. tauto. }
  rewrite !Hd, He. lia.
Qed.

Lemma names1_range e o : 0 <= names1 e o <= 1.
Proof. unfold names1. case_decide; lia. Qed.

(** A mapping holds its object. *)
Lemma mapped_pinned R P l x i e o :
  core R P l x -> is_space i -> mapped x P i e -> m_object e = Some o -> 0 < pins (a_world x) o.
Proof.
  intros Hc Hi Hm Ho. pose proof (c_pins _ _ _ _ Hc o) as Hp. destruct Hm as [(m & Hm & He)| ->].
  - assert (pending_pins P o >= 0) by (unfold pending_pins; destruct P as [[? ?]|]; [case_decide|]; lia).
    assert (size (mapset x o) <> 0%nat); [|lia]. intros Hz. apply gset_size_zero in Hz.
    assert ((i, m) ∈ mapset x o) as Hx by (apply elem_of_mapset; by rewrite He).
    rewrite Hz in Hx. by apply not_elem_of_empty in Hx.
  - simpl in Hp. rewrite decide_True in Hp by done. lia.
Qed.

(** Pages of mapped objects are in no other use. *)
Lemma foreign_page R P l x i v :
  core R P l x -> is_slot i v -> pte_present (a_pte x i v) = true -> pte_owned (a_pte x i v) = false ->
  device (phys_page (a_pte x i v)) \/ 0 < held (a_world x) (phys_page (a_pte x i v)).
Proof.
  intros Hc Hs Hp Ho. destruct (c_foreign _ _ _ _ Hc i v Hs Hp Ho) as (e & o & Hm & He & _ & Hb).
  apply (backs_kept _ o); [|done]. exact (mapped_pinned R P l x i e o Hc (proj1 Hs) Hm He).
Qed.

Lemma core_world R P l x w' :
  core R P l x -> same_objects (a_world x) w' ->
  (forall o, Z.of_nat (size (mapset x o)) + pending_pins P o <= pins w' o) ->
  core R P l (with_world w' x).
Proof.
  intros Hc [Sh Sb] Hp. destruct Hc as [C1 C2 C3 C4 C5 C6 C7 C8 C9 C10 C11 C12]. split; try assumption.
  - intros p. simpl. rewrite Sh. apply C3.
  - intros p. simpl. rewrite Sh. apply C4.
  - intros p. simpl. rewrite Sh. apply C5.
  - intros i v Hs H1 H2. destruct (C9 i v Hs H1 H2) as (e & o & ? & ? & ? & ?). exists e, o. simpl. by rewrite Sb.
Qed.

(** Another set of pending slots with the same real mappings. *)
Lemma core_pending R P P' l x :
  core R P l x -> (forall o, Z.of_nat (size (mapset x o)) + pending_pins P' o <= pins (a_world x) o) ->
  (forall i e v, P = Some (i, e) -> is_slot i v -> covers e v -> m_object e <> None ->
     pte_present (a_pte x i v) = false \/ exists e', P' = Some (i, e') /\ m_object e' = m_object e /\ covers e' v) ->
  core R P' l x.
Proof.
  intros Hc Hp Hcov. destruct Hc as [C1 C2 C3 C4 C5 C6 C7 C8 C9 C10 C11 C12]. split; try assumption.
  intros i v Hs H1 H2. destruct (C9 i v Hs H1 H2) as (e & o & [Hm|Hm] & Ho & Hv & Hb).
  - exists e, o. split_and!; [by left|done..].
  - destruct (Hcov i e v Hm Hs Hv) as [?|(e' & He' & Ho' & Hv')]; [congruence|congruence|].
    exists e', o. split_and!; [by right|congruence|done..].
Qed.

(** The pending mapping enters the array. *)
Lemma core_commit R l x i m e :
  core R (Some (i, e)) l x -> is_space i -> 0 <= m < VM64_MAPPING_MAX -> m_object (a_map x i m) = None ->
  (forall v, is_slot i v -> covers e v -> pte_present (a_pte x i v) = true /\ pte_owned (a_pte x i v) = false) ->
  (forall m' v, is_slot i v -> 0 <= m' < VM64_MAPPING_MAX -> m_object (a_map x i m') <> None -> ~ R i m' ->
     covers e v -> ~ covers (a_map x i m') v) ->
  core R None l (with_map i m e x).
Proof.
  intros Hc Hi Hm Hno Hr Hd. destruct Hc as [C1 C2 C3 C4 C5 C6 C7 C8 C9 C10 C11 C12].
  assert (forall j u, (j =? i) && (u =? m) = true -> j = i /\ u = m) as Hiv.
  { intros j u [Hj Hu]%andb_true_iff. split; by apply Z.eqb_eq. }
  assert (names1 (a_map x i m) = fun _ => 0) as Hn0.
  { unfold names1. rewrite Hno. done. }
  split; try assumption.
  - intros j v Hs H1 H2. destruct (C9 j v Hs H1 H2) as (e' & o & [(m' & Hm' & <-)|[= <- <-]] & Ho & Hv & Hb).
    + exists (a_map x j m'), o. split_and!; [left; exists m'; split; [done|]|done..]. simpl.
      destruct ((j =? i) && (m' =? m)) eqn:Hjm; [|done]. apply Hiv in Hjm as [-> ->]. congruence.
    + exists e, o. split_and!; [left; exists m; split; [done|]|done..]. simpl. by rewrite !Z.eqb_refl.
  - intros o. rewrite mapset_with_map, Hn0 by done. pose proof (C10 o) as Hp. simpl in Hp. unfold names1. simpl. lia.
  - intros j m' v Hs Hm'. simpl. destruct ((j =? i) && (m' =? m)) eqn:Hjm; [|by apply C11].
    apply Hiv in Hjm as [-> ->]. intros _ _. by apply Hr.
  - intros j m1 m2 v Hs H1 H2 Hne. simpl. destruct ((j =? i) && (m1 =? m)) eqn:Hj1, ((j =? i) && (m2 =? m)) eqn:Hj2.
    + apply Hiv in Hj1 as [_ ->], Hj2 as [_ ->]. done.
    + apply Hiv in Hj1 as [-> ->]. intros _ Ho2 _ HR2 Hv1 Hv2. by apply (Hd m2 v).
    + apply Hiv in Hj2 as [-> ->]. intros Ho1 _ HR1 _ Hv1 Hv2. by apply (Hd m1 v).
    + by apply C12.
Qed.

(** A mapping leaves the array once its entries are gone. *)
Lemma core_unmap R P l x i m e :
  core R P l x -> is_space i -> 0 <= m < VM64_MAPPING_MAX -> m_object e = None ->
  (forall v, is_slot i v -> m_object (a_map x i m) <> None -> covers (a_map x i m) v ->
     pte_present (a_pte x i v) = true -> pte_owned (a_pte x i v) = true) ->
  core R P l (with_map i m e x).
Proof.
  intros Hc Hi Hm Hno Hr. destruct Hc as [C1 C2 C3 C4 C5 C6 C7 C8 C9 C10 C11 C12].
  assert (forall j u, (j =? i) && (u =? m) = true -> j = i /\ u = m) as Hiv.
  { intros j u [Hj Hu]%andb_true_iff. split; by apply Z.eqb_eq. }
  split; try assumption.
  - intros j v Hs H1 H2. destruct (C9 j v Hs H1 H2) as (e' & o & [(m' & Hm' & <-)|HP] & Ho & Hv & Hb).
    + exists (a_map x j m'), o. split_and!; [left; exists m'; split; [done|]|done..]. simpl.
      destruct ((j =? i) && (m' =? m)) eqn:Hjm; [|done]. apply Hiv in Hjm as [-> ->]. simpl in H1, H2.
      rewrite Hr in H2; congruence.
    + exists e', o. split_and!; [by right|done..].
  - intros o. rewrite mapset_with_map by done. pose proof (C10 o) as Hp. pose proof (names1_range (a_map x i m) o).
    unfold names1 at 2. rewrite decide_False by congruence. simpl. lia.
  - intros j m' v Hs Hm'. simpl. destruct ((j =? i) && (m' =? m)) eqn:Hjm; [congruence|by apply C11].
  - intros j m1 m2 v Hs H1 H2 Hne. simpl. destruct ((j =? i) && (m1 =? m)) eqn:Hj1, ((j =? i) && (m2 =? m)) eqn:Hj2;
      [congruence..|by apply C12].
Qed.

(** The rest of the system gives an object up. *)
Lemma core_released R P l x o q q' w' :
  core R P l x -> (forall p, a_refs x p = Pmm.page_refs q p) -> released o q (a_world x) q' w' ->
  (forall o', Z.of_nat (size (mapset x o')) + pending_pins P o' <= pins w' o') ->
  core R P l (Abs _ (a_role x) (a_pte x) (Pmm.page_refs q') (a_map x) w').
Proof.
  intros Hc Hq [_ _ _ L1 L2 _ L4] Hp.
  pose proof (held_nonneg w') as Hn. pose proof (held_nonneg (a_world x)) as Hn0.
  assert (forall p, held (a_world x) p = 0 -> held w' p = 0 /\ Pmm.page_refs q' p = a_refs x p) as Hz.
  { intros p H0. pose proof (L2 p). pose proof (Hn p). rewrite L1, <- Hq. lia. }
  assert (forall i v, is_slot i v -> pte_present (a_pte x i v) = true -> pte_owned (a_pte x i v) = true ->
    held (a_world x) (phys_page (a_pte x i v)) = 0) as Hown.
  { intros i v Hs H1 H2. set (p := phys_page _). pose proof (Hn0 p). destruct (Z.eq_dec (held (a_world x) p) 0); [done|].
    destruct (c_held _ _ _ _ Hc p ltac:(lia)) as (_ & Ho & _). by destruct (no_owner x p i v Ho Hs H1 H2). }
  assert (forall i e o', is_space i -> mapped x P i e -> m_object e = Some o' -> 0 < pins w' o') as Hpin.
  { intros i e o' Hi Hm Ho. pose proof (Hp o') as Hpo. destruct Hm as [(m & Hm & He)| ->].
    - assert (pending_pins P o' >= 0) by (unfold pending_pins; destruct P as [[? ?]|]; [case_decide|]; lia).
      assert ((i, m) ∈ mapset x o') as Hx by (apply elem_of_mapset; by rewrite He).
      assert (size (mapset x o') <> 0%nat); [|lia]. intros H0. apply gset_size_zero in H0.
      rewrite H0 in Hx. by apply not_elem_of_empty in Hx.
    - simpl in Hpo. rewrite decide_True in Hpo by done. lia. }
  destruct Hc as [C1 C2 C3 C4 C5 C6 C7 C8 C9 C10 C11 C12]. split; try assumption; simpl.
  - intros p Ht. destruct (C3 p Ht) as (? & ? & H0 & ?). destruct (Hz p H0) as [-> ->]. done.
  - intros p Hh. pose proof (L2 p). destruct (C4 p ltac:(lia)) as (? & ? & Hr). rewrite L1, <- Hq. split_and!; [done..|lia].
  - intros p Ht Hh. destruct (Z.eq_dec (held (a_world x) p) 0) as [H0|H0].
    + destruct (Hz p H0) as [_ ->]. by apply C5.
    + pose proof (Hn0 p). destruct (C4 p ltac:(lia)) as (Hl & Ho & Hr). rewrite L1, <- Hq.
      rewrite (owners_ext _ x), Ho, size_empty by done. lia.
  - intros i v Hs H1 H2 H3. destruct (Hz _ (Hown i v Hs H1 H2)) as [_ ->]. by apply C8.
  - intros i v Hs H1 H2. destruct (C9 i v Hs H1 H2) as (e & o' & Hm & Ho & Hv & Hb). exists e, o'. split_and!; try done.
    apply L4; [|done]. exact (Hpin i e o' (proj1 Hs) Hm Ho).
Qed.

(** What an unused slot of a mapping array says does not matter. *)
Definition same_map (e e' : vm64_object_mapping) : Prop := e = e' \/ (m_object e = None /\ m_object e' = None).

Lemma core_maps R P l x y :
  core R P l x -> (forall r, valid_role r -> a_role x r = a_role y r) ->
  (forall i v, is_slot i v -> a_pte x i v = a_pte y i v) -> (forall p, a_refs x p = a_refs y p) ->
  a_world x = a_world y ->
  (forall i m, is_space i -> 0 <= m < VM64_MAPPING_MAX -> same_map (a_map x i m) (a_map y i m)) -> core R P l y.
Proof.
  intros Hc Hr Hp Hf Hw Hm. apply (core_ext R P l (Abs _ (a_role x) (a_pte x) (a_refs x) (a_map y) (a_world x))).
  { split; simpl; auto. }
  assert (forall i m, is_space i -> 0 <= m < VM64_MAPPING_MAX -> m_object (a_map y i m) = m_object (a_map x i m)) as Hob.
  { intros i m Hi Hmm. destruct (Hm i m Hi Hmm) as [->|[H1 H2]]; congruence. }
  assert (forall i m, is_space i -> 0 <= m < VM64_MAPPING_MAX -> m_object (a_map y i m) <> None -> a_map y i m = a_map x i m) as Heq.
  { intros i m Hi Hmm Hn. destruct (Hm i m Hi Hmm) as [->|[H1 H2]]; congruence. }
  destruct Hc as [C1 C2 C3 C4 C5 C6 C7 C8 C9 C10 C11 C12]. split; try assumption; simpl.
  - intros i v Hs H1 H2. destruct (C9 i v Hs H1 H2) as (e & o & Hmp & Ho & Hv & Hb). exists e, o. split_and!; try done.
    destruct Hmp as [(m & Hmm & <-)|HP]; [left|by right]. exists m. split; [done|]. apply Heq; [apply Hs|done|].
    rewrite Hob by (done || apply Hs). congruence.
  - intros o. replace (mapset _ o) with (mapset x o); [apply C10|]. apply set_eq. intros [i m]. rewrite !elem_of_mapset. simpl.
    split; intros (H1 & H2 & H3); rewrite Hob in * by done; done.
  - intros i m v Hs Hmm Hn. rewrite (Heq i m (proj1 Hs) Hmm Hn). apply (C11 i m v Hs Hmm). by rewrite <- Hob by (done || apply Hs).
  - intros i m m' v Hs H1 H2 Hne Hn Hn'. rewrite (Heq i m (proj1 Hs) H1 Hn), (Heq i m' (proj1 Hs) H2 Hn').
    apply (C12 i m m' v Hs H1 H2 Hne); by rewrite <- Hob by (done || apply Hs).
Qed.

End Core.
End VmInv.
