(* ===== verification/VmOps.v ===== *)
(** What the operations of vm.c (Vm.v) do to the invariant of VmInv.v and to
    memory: one lemma for each helper, on which the theorems of VmSpec.v
    rest. *)

From stdpp Require Import gmap.
From S2P Require Import Prelude Pmm Vm VmInv.

Module VmOps.

Import Vm VmInv.

Section Ops.

Context {W : Type} {VM : VmModules W} {VO : VmObjects W} {VL : VmLaws W}.
Implicit Types (s : vm W).

(** ** The abstraction of a state *)

Definition role_addr s (r : role) : Z :=
  match r with
  | Root i => pml4 (spaces s i)
  | Pdpt i => pdpt (spaces s i)
  | IdentityPd i => identity_pd (spaces s i)
  | IdentityPt0 i => identity_pt0 (spaces s i)
  | UserPd i => user_pd (spaces s i)
  | UserPt i k => user_pts (spaces s i) k
  | MmioPdpt => kernel_mmio_pdpt s
  | MmioPd => kernel_mmio_pd s
  | MmioPt k => kernel_mmio_pts s k
  end.

(** An entry that is not present counts as 0. *)
Definition norm (e : Z) : Z := if pte_present e then e else 0.

(** The entry of a slot. *)
Definition pte_at s (i v : Z) : Z :=
  let pt := user_pts (spaces s i) (v / 512) in
  if pt =? 0 then 0 else norm (entry s pt (v mod 512)).

Definition abs_of s : abs W :=
  Abs _ (role_addr s) (pte_at s) (Pmm.page_refs (mm s)) (fun i m => mappings (spaces s i) m) (rest s).

(** The tables above the page tables hold what the processor expects. *)
Record upper_ok s (i : Z) : Prop := {
  up_root k : 0 <= k < 512 -> entry s (pml4 (spaces s i)) k =
    if k =? 0 then pdpt (spaces s i) ||| VM64_PAGE_PRESENT ||| VM64_PAGE_WRITE ||| VM64_PAGE_USER
    else if k =? 256 then kernel_mmio_pdpt s ||| VM64_PAGE_PRESENT ||| VM64_PAGE_WRITE else 0;
  up_pdpt k : 0 <= k < 512 -> entry s (pdpt (spaces s i)) k =
    if k =? 0 then identity_pd (spaces s i) ||| VM64_PAGE_PRESENT ||| VM64_PAGE_WRITE
    else if k =? 4 then user_pd (spaces s i) ||| VM64_PAGE_PRESENT ||| VM64_PAGE_WRITE ||| VM64_PAGE_USER else 0;
  up_pd k : 0 <= k < 512 -> entry s (user_pd (spaces s i)) k =
    if user_pts (spaces s i) k =? 0 then 0
    else user_pts (spaces s i) k ||| VM64_PAGE_PRESENT ||| VM64_PAGE_WRITE ||| VM64_PAGE_USER
}.

(** The kernel's window: its tables exist, and its entries agree with the map
    of the pages in use. *)
Definition window s (k : Z) : Z := entry s (kernel_mmio_pts s (k / 512)) (k mod 512).

Record kernel_ok s : Prop := {
  ko_pdpt : kernel_mmio_pdpt s <> 0;
  ko_pd : kernel_mmio_pd s <> 0;
  ko_pts k : 0 <= k < KERNEL_MMIO_PTS -> kernel_mmio_pts s k <> 0;
  ko_used k : 0 <= k < KERNEL_MMIO_PAGES -> kernel_mmio_used s k = pte_present (window s k)
}.

(** [D] are the spaces whose upper tables are under construction or being
    torn down (-1 stands for the kernel's window), [R] the mappings whose entries are, [P] the mapping that is
    not in the array yet and [l] the references that running code holds. *)
Record inv (D : Z -> Prop) (R : Z -> Z -> Prop) (P : pending) (l : Z -> Z) s : Prop := {
  i_mm : Pmm.inv (mm s);
  i_bytes a : is_u8 (memory s a);
  i_core : core R P l (abs_of s);
  i_ram p : device p -> Pmm.page_in p -> ~ Pmm.is_ram (mm s) p;
  i_live i : is_space i -> pml4 (spaces s i) <> 0 ->
    pdpt (spaces s i) <> 0 /\ identity_pd (spaces s i) <> 0 /\ identity_pt0 (spaces s i) <> 0 /\
    user_pd (spaces s i) <> 0 /\ forall k, 256 <= k < 512 -> user_pts (spaces s i) k = 0;
  i_dead i : is_space i -> pml4 (spaces s i) = 0 ->
    pdpt (spaces s i) = 0 /\ identity_pd (spaces s i) = 0 /\ identity_pt0 (spaces s i) = 0 /\
    user_pd (spaces s i) = 0 /\ (forall k, 0 <= k < 512 -> user_pts (spaces s i) k = 0) /\
    forall m, 0 <= m < VM64_MAPPING_MAX -> m_object (mappings (spaces s i) m) = None;
  i_upper i : is_space i -> ~ D i -> pml4 (spaces s i) <> 0 -> upper_ok s i;
  i_kernel : ~ D (-1) -> kernel_ok s
}.

(** ** States that differ in memory and reference counts only *)

Record same_tables s s' : Prop := {
  st_spaces : spaces s' = spaces s;
  st_pdpt : kernel_mmio_pdpt s' = kernel_mmio_pdpt s;
  st_pd : kernel_mmio_pd s' = kernel_mmio_pd s;
  st_pts : kernel_mmio_pts s' = kernel_mmio_pts s;
  st_used : kernel_mmio_used s' = kernel_mmio_used s;
  st_rest : rest s' = rest s
}.

#[global] Instance same_tables_preorder : PreOrder same_tables.
Proof.
  split; [by split|]. intros x y z [A1 A2 A3 A4 A5 A6] [B1 B2 B3 B4 B5 B6].
  split; [rewrite B1|rewrite B2|rewrite B3|rewrite B4|rewrite B5|rewrite B6]; done.
Qed.

Lemma same_tables_role s s' r : same_tables s s' -> role_addr s' r = role_addr s r.
Proof. intros [E1 E2 E3 E4 E5 E6]. destruct r; simpl; rewrite ?E1, ?E2, ?E3, ?E4; done. Qed.

Lemma entry_frame s s' p k :
  (forall b, b / 4096 = p -> memory s' b = memory s b) -> 0 <= k < 512 ->
  entry s' (4096 * p) k = entry s (4096 * p) k.
Proof. intros Hm Hk. apply read64_ext. intros b Hb. apply Hm. dmlia. Qed.

(** The address of a table in use is that of a page. *)
Lemma role_page D R P l s r :
  inv D R P l s -> valid_role r -> role_addr s r <> 0 ->
  exists p, role_addr s r = 4096 * p /\ 0 < p < Pmm.BITMAP_BITS /\ is_table (abs_of s) p.
Proof.
  intros Hi Hr Hn. destruct (c_addr _ _ _ _ (i_core _ _ _ _ _ Hi) r Hr Hn) as (p & Hp & Hb). exists p.
  split_and!; [done|lia|lia|]. exists r. done.
Qed.

(** Memory that agrees on the pages of the page tables gives the same entries. *)
Lemma pte_frame D R P l s s' :
  inv D R P l s -> spaces s' = spaces s ->
  (forall p i k b, is_space i -> 0 <= k < 512 -> user_pts (spaces s i) k = 4096 * p -> p <> 0 -> b / 4096 = p ->
     memory s' b = memory s b) ->
  forall i v, is_slot i v -> pte_at s' i v = pte_at s i v.
Proof.
  intros Hi Hs Hm i v [Hi' Hv]. unfold pte_at. rewrite Hs. destruct (Z.eqb_spec (user_pts (spaces s i) (v / 512)) 0); [done|].
  assert (0 <= v / 512 < 512) by dmlia. f_equal.
  destruct (role_page _ _ _ _ _ (UserPt i (v / 512)) Hi ltac:(done) ltac:(done)) as (p & Hp & Hpb & _). simpl in Hp.
  rewrite Hp. apply entry_frame; [|dmlia]. intros b Hb. apply (Hm p i (v / 512)); (done || lia).
Qed.

Lemma upper_frame s s' i :
  same_tables s s' ->
  (forall r k, valid_role r -> r = Root i \/ r = Pdpt i \/ r = UserPd i -> 0 <= k < 512 ->
     entry s' (role_addr s r) k = entry s (role_addr s r) k) ->
  is_space i -> upper_ok s i -> upper_ok s' i.
Proof.
  intros Hs He Hi [U1 U2 U3]. destruct Hs as [E1 E2 E3 E4 E5 E6].
  pose proof (fun k => He (Root i) k Hi ltac:(auto)) as H1.
  pose proof (fun k => He (Pdpt i) k Hi ltac:(auto)) as H2.
  pose proof (fun k => He (UserPd i) k Hi ltac:(auto)) as H3. simpl in *.
  split; intros k Hk; rewrite E1, ?E2; [rewrite H1|rewrite H2|rewrite H3]; auto.
Qed.

Lemma kernel_frame s s' :
  kernel_mmio_pdpt s' = kernel_mmio_pdpt s -> kernel_mmio_pd s' = kernel_mmio_pd s ->
  kernel_mmio_pts s' = kernel_mmio_pts s -> kernel_mmio_used s' = kernel_mmio_used s ->
  (forall j k, 0 <= j < KERNEL_MMIO_PTS -> 0 <= k < 512 -> entry s' (kernel_mmio_pts s j) k = entry s (kernel_mmio_pts s j) k) ->
  kernel_ok s -> kernel_ok s'.
Proof.
  intros E1 E2 E3 E4 He [K1 K2 K3 K4]. split; rewrite ?E1, ?E2, ?E3, ?E4; try done.
  intros k Hk. rewrite K4 by done. unfold window. rewrite E3, He; [done| |dmlia].
  change KERNEL_MMIO_PTS with 8. change KERNEL_MMIO_PAGES with 4096 in Hk. dmlia.
Qed.

(** Memory that agrees on the pages of the tables keeps the window. *)
Lemma kernel_memory D R P l s s' :
  inv D R P l s -> ~ D (-1) -> kernel_mmio_pdpt s' = kernel_mmio_pdpt s -> kernel_mmio_pd s' = kernel_mmio_pd s ->
  kernel_mmio_pts s' = kernel_mmio_pts s -> kernel_mmio_used s' = kernel_mmio_used s ->
  (forall j p b, 0 <= j < KERNEL_MMIO_PTS -> kernel_mmio_pts s j = 4096 * p -> b / 4096 = p -> memory s' b = memory s b) ->
  kernel_ok s'.
Proof.
  intros Hi HD E1 E2 E3 E4 Hm. pose proof (i_kernel _ _ _ _ _ Hi HD) as Hk. apply (kernel_frame s); try done.
  intros j k Hj Hk'. destruct (role_page _ _ _ _ _ (MmioPt j) Hi Hj) as (p & Hp & _); [by apply (ko_pts _ Hk)|]. simpl in Hp.
  rewrite Hp. apply entry_frame; [|done]. intros b Hb. by apply (Hm j p).
Qed.

(** What changes outside the tables. *)
Definition with_mm s (q : Pmm.pmm) : abs W :=
  Abs _ (role_addr s) (pte_at s) (Pmm.page_refs q) (fun i m => mappings (spaces s i) m) (rest s).

Lemma inv_mm D R P l l' s s' :
  inv D R P l s -> same_tables s s' -> Pmm.inv (mm s') -> (forall a, is_u8 (memory s' a)) ->
  Pmm.ram_bitmap (mm s') = Pmm.ram_bitmap (mm s) ->
  (forall p b, is_table (abs_of s) p -> b / 4096 = p -> memory s' b = memory s b) ->
  core R P l' (with_mm s (mm s')) ->
  inv D R P l' s' /\ forall i v, is_slot i v -> pte_at s' i v = pte_at s i v.
Proof.
  intros Hi Hs Hmm Hb Hram Hmem Hc. pose proof Hs as [E1 E2 E3 E4 E5 E6].
  assert (forall i v, is_slot i v -> pte_at s' i v = pte_at s i v) as Hpte.
  { eapply pte_frame; [done|done|]. intros p i k b Hi' Hk Hp Hp0 Hb'. apply (Hmem p); [|done].
    exists (UserPt i k). simpl. split_and!; (done || lia). }
  split; [|done]. split; try done.
  - eapply core_ext; [|exact Hc]. split; simpl; intros.
    + symmetry. by apply same_tables_role.
    + symmetry. by apply Hpte.
    + done.
    + by rewrite E1.
    + done.
  - intros p Hd Hp. unfold Pmm.is_ram. rewrite Hram. by apply (i_ram _ _ _ _ _ Hi).
  - intros i. rewrite E1. apply (i_live _ _ _ _ _ Hi).
  - intros i. rewrite E1. apply (i_dead _ _ _ _ _ Hi).
  - intros i Hi' Hd. rewrite E1. intros Hl. apply (upper_frame s); [done| |done|by apply (i_upper _ _ _ _ _ Hi)].
    intros r k Hv Hr Hk.
    destruct (i_live _ _ _ _ _ Hi i Hi' Hl) as (L1 & L2 & L3 & L4 & L5).
    destruct (role_page _ _ _ _ _ r Hi Hv) as (p & Hp & _ & Ht); [by destruct Hr as [->|[->| ->]]|].
    rewrite Hp. apply entry_frame; [|done]. intros b Hb'. by apply (Hmem p).
  - intros HD. apply (kernel_memory D R P l s); try done. intros j p b Hj Hp Hb'. apply (Hmem p); [|done].
    exists (MmioPt j). simpl. pose proof (ko_pts _ (i_kernel _ _ _ _ _ Hi HD) j Hj). done.
Qed.

(** ** Pages *)

Lemma set_mm_tables s q : same_tables s (set_mm q s).
Proof. done. Qed.

Lemma set_memory_tables s m : same_tables s (set_memory m s).
Proof. done. Qed.

Lemma alloc_page_inv D R P l s a s' :
  inv D R P l s -> alloc_page s = (a, s') ->
  same_tables s s' /\
  (a = 0 /\ s' = s \/
   exists p, a = 4096 * p /\ 0 < p < Pmm.BITMAP_BITS /\ (Pmm.page_refs (mm s) p = 0 /\ ~ device p) /\
     inv D R P (upd l p 1) s' /\
     (forall q, Pmm.page_refs (mm s') q = if q =? p then 1 else Pmm.page_refs (mm s) q) /\
     (forall i v, is_slot i v -> pte_at s' i v = pte_at s i v) /\
     forall b, memory s' b = if b / 4096 =? p then 0 else memory s b).
Proof.
  intros Hi Ha. unfold alloc_page in Ha. pose proof (Pmm.alloc_page_spec (mm s) (i_mm _ _ _ _ _ Hi)) as Hspec.
  destruct (Pmm.pmm_alloc_page (mm s)) as [a' q]. injection Ha as <- <-. split; [done|].
  destruct Hspec as [Hq [(-> & -> & _)|(p & -> & Hp & Ht & _)]]; [left; split; [done|by destruct s]|right].
  exists p. pose proof (Pmm.taken_in _ _ _ Ht) as Hin. pose proof (Pmm.taken_free _ _ _ Ht) as Hfree.
  destruct (Pmm.taken_refs _ _ _ Ht) as [Hr1 Hr2].
  pose proof (Pmm.inv_base _ (i_mm _ _ _ _ _ Hi)) as Hbase.
  assert (Pmm.page_refs (mm s) p = 0) as H0.
  { destruct (Z.eq_dec (Pmm.page_refs (mm s) p) 0); [done|]. by destruct Hfree; apply (Pmm.base_used _ Hbase). }
  assert (forall b, memory (set_mm q s) b = if b / 4096 =? p then 0 else memory s b) as Hmem.
  { intros b. unfold memory. simpl. pose proof (Pmm.taken_zero _ _ _ Ht b) as Hz.
    pose proof (Pmm.taken_memory _ _ _ Ht b) as Hk. unfold Pmm.PAGE_SIZE in *.
    destruct (Z.eqb_spec (b / 4096) p) as [<-|]; [apply Hz; dmlia|apply Hk; dmlia]. }
  assert (forall q', Pmm.page_refs q q' = if q' =? p then 1 else Pmm.page_refs (mm s) q') as Hrefs.
  { intros q'. destruct (Z.eqb_spec q' p) as [->|]; auto. }
  destruct (inv_mm D R P l (upd l p 1) s (set_mm q s)) as [Hinv Hpte]; try done.
  - intros b. rewrite Hmem. destruct (_ =? _); [unfold is_u8; lia|apply (i_bytes _ _ _ _ _ Hi)].
  - apply (Pmm.taken_rest _ _ _ Ht).
  - intros p' b Htab Hb. rewrite Hmem. destruct (Z.eqb_spec (b / 4096) p); [|done]. subst.
    apply (c_table _ _ _ _ (i_core _ _ _ _ _ Hi)) in Htab as [Hx _]. simpl in Hx. lia.
  - eapply core_ext; [|apply (core_alloc _ _ _ _ p (i_core _ _ _ _ _ Hi)); done].
    split; simpl; done.
  - split_and!; try done; try (unfold Pmm.PAGE_SIZE, Pmm.page_in in *; lia).
    intros Hd. exact (i_ram _ _ _ _ _ Hi p Hd Hin (Pmm.taken_ram _ _ _ Ht)).
Qed.

Lemma free_page_inv D R P l s p :
  inv D R P l s -> 0 < l p -> 0 < p < Pmm.BITMAP_BITS ->
  exists s', free_page (4096 * p) s = Some s' /\ same_tables s s' /\ inv D R P (upd l p (l p - 1)) s' /\
    (forall q, Pmm.page_refs (mm s') q = if q =? p then Pmm.page_refs (mm s) q - 1 else Pmm.page_refs (mm s) q) /\
    (forall i v, is_slot i v -> pte_at s' i v = pte_at s i v) /\
    (forall b, memory s' b = memory s b).
Proof.
  intros Hi Hl Hp. pose proof (i_core _ _ _ _ _ Hi) as Hc.
  destruct (loose_not_table _ _ _ _ _ Hc Hl) as [Ht Hh]. pose proof (c_count _ _ _ _ Hc p Ht Hh) as Hn. simpl in Hn.
  assert (is_u64 (4096 * p)) as H64 by (rewrite Pmm.BITMAP_BITS_val in Hp; unfold is_u64; lia).
  pose proof (Pmm.free_page_spec (mm s) (4096 * p) (i_mm _ _ _ _ _ Hi) H64) as Hspec. unfold Pmm.PAGE_SIZE in Hspec.
  replace (4096 * p / 4096) with p in Hspec by (rewrite Z.mul_comm; by rewrite Z.div_mul).
  unfold free_page. destruct (Pmm.pmm_free_page (4096 * p) (mm s)) as [q|] eqn:Hf.
  2: { exfalso. rewrite Z.mul_comm, Z.mod_mul in Hspec by done. lia. }
  destruct Hspec as (Hq & _ & _ & _ & Hrefs & _ & _ & Hmem). exists (set_mm q s). split; [done|]. split; [done|].
  assert (forall q', Pmm.page_refs q q' = if q' =? p then Pmm.page_refs (mm s) q' - 1 else Pmm.page_refs (mm s) q') as Hr.
  { intros q'. rewrite Hrefs. unfold upd. by destruct (Z.eqb_spec q' p) as [->|]. }
  assert (forall b, memory (set_mm q s) b = memory s b) as Hmem' by (intros b; unfold memory; simpl; by rewrite Hmem).
  destruct (inv_mm D R P l (upd l p (l p - 1)) s (set_mm q s)) as [Hinv Hpte]; try done.
  - intros b. rewrite Hmem'. apply (i_bytes _ _ _ _ _ Hi).
  - unfold Pmm.pmm_free_page in Hf. repeat case_match; try done; by injection Hf as <-.
  - eapply core_ext; [|exact (core_free _ _ _ _ p Hc Hl)]. split; simpl; try done. intros q'. unfold upd.
    rewrite Hr. by destruct (Z.eqb_spec q' p) as [->|].
Qed.

Lemma retain_page_inv D R P l s p r q :
  inv D R P l s -> ~ is_table (abs_of s) p -> held (rest s) p = 0 -> 0 <= p < Pmm.BITMAP_BITS ->
  (forall i v, (i, v) ∈ owners (abs_of s) p -> pte_writable (pte_at s i v) = false) ->
  Pmm.pmm_retain_page (4096 * p) (mm s) = (r, q) ->
  (r <> 0 /\ q = mm s) \/
  (r = 0 /\ inv D R P (upd l p (l p + 1)) (set_mm q s) /\
   (forall q', Pmm.page_refs q q' = if q' =? p then Pmm.page_refs (mm s) q' + 1 else Pmm.page_refs (mm s) q') /\
   (forall i v, is_slot i v -> pte_at (set_mm q s) i v = pte_at s i v) /\
   (forall b, memory (set_mm q s) b = memory s b)).
Proof.
  intros Hi Ht Hh Hp Hw Hr. assert (is_u64 (4096 * p)) as H64 by (rewrite Pmm.BITMAP_BITS_val in Hp; unfold is_u64; lia).
  pose proof (Pmm.retain_page_spec (mm s) (4096 * p) (i_mm _ _ _ _ _ Hi) H64) as Hspec. rewrite Hr in Hspec.
  unfold Pmm.PAGE_SIZE in Hspec. replace (4096 * p / 4096) with p in Hspec by (rewrite Z.mul_comm; by rewrite Z.div_mul).
  destruct Hspec as [Hq [(-> & -> & _)|(-> & _ & _ & Hq')]]; [by left|right]. split; [done|].
  assert (forall q', Pmm.page_refs q q' = if q' =? p then Pmm.page_refs (mm s) q' + 1 else Pmm.page_refs (mm s) q') as Hrf.
  { intros q'. rewrite Hq'. simpl. unfold upd. by destruct (Z.eqb_spec q' p) as [->|]. }
  assert (forall b, memory (set_mm q s) b = memory s b) as Hmem by (intros b; unfold memory; simpl; by rewrite Hq').
  destruct (inv_mm D R P l (upd l p (l p + 1)) s (set_mm q s)) as [Hinv Hpte]; try done.
  - intros b. rewrite Hmem. apply (i_bytes _ _ _ _ _ Hi).
  - simpl. by rewrite Hq'.
  - eapply core_ext; [|exact (core_retain _ _ _ _ p (i_core _ _ _ _ _ Hi) Ht Hh Hw)]. split; simpl; try done.
    intros q'. unfold upd. rewrite Hrf. by destruct (Z.eqb_spec q' p) as [->|].
Qed.

(** Memory outside the tables may change freely. *)
Lemma set_memory_inv D R P l s m :
  inv D R P l s -> (forall a, is_u8 (m a)) ->
  (forall p b, is_table (abs_of s) p -> b / 4096 = p -> m b = memory s b) ->
  inv D R P l (set_memory m s) /\ forall i v, is_slot i v -> pte_at (set_memory m s) i v = pte_at s i v.
Proof.
  intros Hi Hb Hm. apply (inv_mm D R P l l s (set_memory m s)); try done.
  - pose proof (i_mm _ _ _ _ _ Hi) as [[] ?]. done.
  - eapply core_ext; [|exact (i_core _ _ _ _ _ Hi)]. done.
Qed.

(** ** Entries of tables *)

Lemma entry_store s p k v q k' :
  0 <= k < 512 -> 0 <= k' < 512 -> is_u64 v ->
  entry (store (4096 * p + 8 * k) v s) (4096 * q) k' =
  if (q =? p) && (k' =? k) then v else entry s (4096 * q) k'.
Proof.
  intros Hk Hk' Hv. unfold entry, store. change (memory (set_memory ?m ?s)) with m.
  destruct (Z.eqb_spec q p) as [->|], (Z.eqb_spec k' k) as [->|]; cbn [andb]; [by apply read64_write64|..];
    apply read64_write64_ne; lia.
Qed.

Lemma memory_store s p k v b :
  0 <= k < 512 -> b / 4096 <> p -> memory (store (4096 * p + 8 * k) v s) b = memory s b.
Proof. intros Hk Hb. change (memory (store ?a ?v ?s)) with (write64 a v (memory s)). apply write64_out. dmlia. Qed.

Lemma store_bytes s a v : (forall b, is_u8 (memory s b)) -> forall b, is_u8 (memory (store a v s) b).
Proof. intros Hb. exact (write64_u8 a v (memory s) Hb). Qed.

Lemma store_pmm s a v : Pmm.inv (mm s) -> Pmm.inv (mm (store a v s)).
Proof. by intros [[] ?]. Qed.

Definition add_space (D : Z -> Prop) (i : Z) : Z -> Prop := fun j => D j \/ j = i.

Lemma inv_weaken (D D' : Z -> Prop) R P l s : (forall i, D i -> D' i) -> inv D R P l s -> inv D' R P l s.
Proof. intros HD [I1 I2 I3 I4 I5 I6 I7 I8]. split; try done; [intros i Hi Hn; apply I7; auto|auto]. Qed.

Lemma inv_strengthen D R P l s i :
  inv (add_space D i) R P l s -> 0 <= i -> (~ D i -> pml4 (spaces s i) <> 0 -> upper_ok s i) -> inv D R P l s.
Proof.
  intros [I1 I2 I3 I4 I5 I6 I7 I8] Hi0 Hu. split; try done.
  - intros j Hj Hn Hl. destruct (Z.eq_dec j i) as [->|]; [auto|]. apply I7; [done| |done]. by intros [?|?].
  - intros Hn. apply I8. intros [?|?]; [done|lia].
Qed.

Lemma inv_loose_ext D R P l l' s : (forall p, l p = l' p) -> inv D R P l s -> inv D R P l' s.
Proof. intros He [I1 I2 I3 I4 I5 I6 I7 I8]. split; try done. by eapply core_loose_ext. Qed.

(** The spaces whose upper tables the page of a role belongs to. *)
Definition upper_of (r : role) (i : Z) : Prop :=
  r = Root i \/ r = Pdpt i \/ r = UserPd i \/ (i = -1 /\ exists k, r = MmioPt k).

(** Two tables in use that share a page are the same table. *)
Lemma role_inj D R P l s r r' p :
  inv D R P l s -> valid_role r -> valid_role r' -> role_addr s r = 4096 * p -> role_addr s r' = 4096 * p ->
  p <> 0 -> r = r'.
Proof.
  intros Hi Hr Hr' Hp Hp' Hn. apply (c_inj _ _ _ _ (i_core _ _ _ _ _ Hi)); try done; simpl; [lia|congruence].
Qed.

(** A store into a table that is not a page table. *)
Lemma store_upper_inv D R P l s r p k v :
  inv D R P l s -> valid_role r -> role_addr s r = 4096 * p -> p <> 0 -> 0 <= k < 512 ->
  (forall i j, r <> UserPt i j) -> (forall i, upper_of r i -> D i) ->
  inv D R P l (store (4096 * p + 8 * k) v s) /\
  forall i u, is_slot i u -> pte_at (store (4096 * p + 8 * k) v s) i u = pte_at s i u.
Proof.
  intros Hi Hr Hp Hp0 Hk Hnpt HD. set (s' := store _ v s).
  assert (forall i u, is_slot i u -> pte_at s' i u = pte_at s i u) as Hpte.
  { apply (pte_frame D R P l s s' Hi eq_refl). intros q i k' b Hi' Hk' Hq Hq0 Hb. apply memory_store; [done|].
    intros Hbp. destruct (Hnpt i k'). by apply (role_inj D R P l s r (UserPt i k') p); [..|simpl; congruence|]. }
  split; [|done]. pose proof Hi as [I1 I2 I3 I4 I5 I6 I7 I8]. split; try done.
  - by apply store_pmm.
  - by apply store_bytes.
  - eapply core_ext; [|exact I3]. split; simpl; intros; try done. symmetry. by apply Hpte.
  - intros i Hi' Hd Hl. apply (upper_frame s); [done| |done|by apply I7]. intros r' k' Hv' Hr' Hk'.
    destruct (I5 i Hi' Hl) as (L1 & L2 & L3 & L4 & L5).
    destruct (role_page _ _ _ _ _ r' Hi Hv') as (q & Hq & Hqb & _); [by destruct Hr' as [->|[->| ->]]|].
    rewrite Hq. apply entry_frame; [|done]. intros b Hb. apply memory_store; [done|]. intros Hbp. apply Hd, HD.
    assert (r = r') as ->; [|unfold upper_of; tauto]. apply (role_inj D R P l s r r' p); (done || congruence).
  - intros HnD. apply (kernel_memory D R P l s); try done. intros j q b Hj Hq Hb. apply memory_store; [done|]. intros Hbp.
    apply HnD, HD. do 3 right. split; [done|]. exists j. apply (role_inj D R P l s r (MmioPt j) p); (done || simpl; congruence).
Qed.

(** ** Page table entries *)

Definition vpn (a : Z) : Z := (a - VM64_USER_BASE) / 4096.

Definition pte_addr s (i v : Z) : Z := user_pts (spaces s i) (v / 512) + 8 * (v mod 512).

Definition user_addr (a : Z) : Prop := VM64_USER_BASE <= a < VM64_USER_LIMIT.

Lemma vpn_slot i a : is_space i -> user_addr a -> is_slot i (vpn a) /\ vpn a / 512 < 256.
Proof.
  unfold user_addr, is_slot, vpn, VM64_USER_BASE, VM64_USER_LIMIT. intros Hi Ha.
  split; [split; [done|]|]; dmlia.
Qed.

Lemma user_pte_index a :
  user_addr a ->
  u32 (Z.shiftr (a - VM64_USER_BASE) 21) = vpn a / 512 /\
  u32 (Z.shiftr (a - VM64_USER_BASE) 12 &&& 0x1FF) = vpn a mod 512.
Proof.
  unfold user_addr, vpn, VM64_USER_BASE, VM64_USER_LIMIT. intros Ha. set (r := a - _) in *.
  assert (0 <= r < 0x20000000) by lia. rewrite !Z.shiftr_div_pow2 by done.
  change 0x1FF with (Z.ones 9). rewrite Z.land_ones by done. change (2 ^ 21) with (4096 * 512). change (2 ^ 12) with 4096.
  change (2 ^ 9) with 512. rewrite <- Z.div_div by lia.
  split; apply u32_small; unfold is_u32; dmlia.
Qed.

(** The entry of an address, when there is one. *)
Lemma find_pte_spec s i a :
  find_pte i a s =
  if decide (pml4 (spaces s i) <> 0 /\ user_addr a /\ user_pts (spaces s i) (vpn a / 512) <> 0)
  then Some (pte_addr s i (vpn a)) else None.
Proof.
  unfold find_pte, user_pte. case_decide as Hd.
  - destruct Hd as (Hl & Ha & Hp). destruct (user_pte_index a Ha) as [-> ->].
    rewrite (proj2 (nz_true _) Hl), (proj2 (nz_true _) Hp). unfold user_addr in Ha.
    destruct (Z.ltb_spec a VM64_USER_BASE); [lia|]. destruct (Z.leb_spec VM64_USER_LIMIT a); [lia|]. done.
  - destruct (nz (pml4 (spaces s i))) eqn:Hl; [|done]. apply nz_true in Hl. cbn [negb orb].
    destruct (Z.ltb_spec a VM64_USER_BASE); [done|]. destruct (Z.leb_spec VM64_USER_LIMIT a); [done|]. cbn [orb].
    assert (user_addr a) as Ha by (unfold user_addr; lia). destruct (user_pte_index a Ha) as [-> ->].
    destruct (nz _) eqn:Hp; [|done]. apply nz_true in Hp. tauto.
Qed.

(** What is read there is the entry of the slot, when it is present. *)
Lemma read_pte s i v :
  user_pts (spaces s i) (v / 512) <> 0 -> norm (read64 (memory s) (pte_addr s i v)) = pte_at s i v.
Proof. intros Hp. unfold pte_at. by rewrite (proj2 (Z.eqb_neq _ _) Hp). Qed.

Lemma norm_present e : pte_present (norm e) = pte_present e.
Proof. unfold norm. by destruct (pte_present e) eqn:He. Qed.

Lemma norm_id e : pte_present e = true -> norm e = e.
Proof. intros He. unfold norm. by rewrite He. Qed.

Lemma pte_at_table s i v : pte_present (pte_at s i v) = true -> user_pts (spaces s i) (v / 512) <> 0.
Proof. unfold pte_at. destruct (Z.eqb_spec (user_pts (spaces s i) (v / 512)) 0); done. Qed.

(** A store to the entry of a slot. *)
Record pte_stored s s' (i v e : Z) : Prop := {
  ps_tables : same_tables s s';
  ps_refs p : Pmm.page_refs (mm s') p = Pmm.page_refs (mm s) p;
  ps_pte j u : is_slot j u -> pte_at s' j u = if (j =? i) && (u =? v) then e else pte_at s j u;
  ps_memory b : ~ is_table (abs_of s) (b / 4096) -> memory s' b = memory s b
}.

Lemma store_pte_inv D R P l s i v e :
  inv D R P l s -> is_slot i v -> user_pts (spaces s i) (v / 512) <> 0 -> is_u64 e -> norm e = e ->
  pte_fits R P l (abs_of s) i v e ->
  let s' := store (pte_addr s i v) e s in
  inv D R P (fun p => l p + own1 (pte_at s i v) p - own1 e p) s' /\ pte_stored s s' i v e.
Proof.
  intros Hi Hs Hpt He Hnorm Hfit s'. pose proof Hs as [Hsp Hv]. assert (0 <= v / 512 < 512) as Hv2 by dmlia.
  assert (0 <= v mod 512 < 512) as Hvm by dmlia.
  assert (valid_role (UserPt i (v / 512))) as Hr by done.
  destruct (role_page _ _ _ _ _ (UserPt i (v / 512)) Hi Hr Hpt) as (p & Hp & Hpb & Htab). simpl in Hp.
  assert (forall b, b / 4096 <> p -> memory s' b = memory s b) as Hmem.
  { intros b Hb. unfold s', pte_addr. rewrite Hp. by apply memory_store. }
  assert (forall j u, is_slot j u -> pte_at s' j u = if (j =? i) && (u =? v) then e else pte_at s j u) as Hpte.
  { intros j u [Hj Hu]. unfold pte_at. change (spaces s' j) with (spaces s j).
    destruct (Z.eqb_spec (user_pts (spaces s j) (u / 512)) 0) as [H0|H0].
    { destruct (Z.eqb_spec j i) as [->|], (Z.eqb_spec u v) as [->|]; cbn [andb]; congruence. }
    assert (valid_role (UserPt j (u / 512))) as Hr' by (split; [done|dmlia]).
    destruct (role_page _ _ _ _ _ (UserPt j (u / 512)) Hi Hr' H0) as (q & Hq & Hqb & _). simpl in Hq.
    unfold s', pte_addr. rewrite Hp, Hq, entry_store by (done || dmlia).
    destruct (Z.eqb_spec q p) as [->|Hne]; cbn [andb].
    - assert (UserPt j (u / 512) = UserPt i (v / 512)) as [= -> Hdiv] by (by apply (role_inj D R P l s _ _ p); [..|lia]).
      rewrite Z.eqb_refl. cbn [andb]. destruct (Z.eqb_spec (u mod 512) (v mod 512)), (Z.eqb_spec u v) as [->|];
        cbn [andb]; try done. exfalso. dmlia.
    - destruct (Z.eqb_spec j i) as [->|], (Z.eqb_spec u v) as [->|]; cbn [andb]; try done. exfalso. lia. }
  split.
  - pose proof Hi as [I1 I2 I3 I4 I5 I6 I7 I8]. split; try done.
    + by apply store_pmm.
    + by apply store_bytes.
    + eapply core_ext; [|exact (core_pte _ _ _ _ i v e I3 Hs Hfit)]. split; simpl; try done. intros. symmetry. by apply Hpte.
    + intros j Hj Hd Hl. apply (upper_frame s); [done| |done|by apply I7]. intros r' k' Hv' Hr' Hk'.
      destruct (I5 j Hj Hl) as (L1 & L2 & L3 & L4 & L5).
      destruct (role_page _ _ _ _ _ r' Hi Hv') as (q & Hq & Hqb & _); [by destruct Hr' as [->|[->| ->]]|].
      rewrite Hq. apply entry_frame; [|done]. intros b Hb. apply Hmem. intros Hbp.
      assert (r' = UserPt i (v / 512)) as ->; [|naive_solver].
      apply (role_inj D R P l s _ _ p); (done || congruence || lia).
    + intros HnD. apply (kernel_memory D R P l s); try done. intros j q b Hj Hq Hb. apply Hmem. intros Hbp.
      assert (MmioPt j = UserPt i (v / 512)); [|done]. apply (role_inj D R P l s _ _ p); (done || simpl; congruence || lia).
  - split; try done. intros b Hb. apply Hmem. by intros <-.
Qed.

(** ** Page tables *)

Definition live s (i : Z) : Prop := is_space i /\ pml4 (spaces s i) <> 0.

(** A page in use that is not a table. *)
Definition leaf s (p : Z) : Prop := (Pmm.page_refs (mm s) p <> 0 \/ device p) /\ ~ is_table (abs_of s) p.

(** A step that leaves every mapping and the memory of every page in use
    alone, and the entries as [g] says. *)
Record stepped (g : Z -> Z -> Z) s s' : Prop := {
  qt_pte i v : is_slot i v -> pte_at s' i v = g i v;
  qt_memory b : leaf s (b / 4096) -> memory s' b = memory s b;
  qt_refs p : leaf s p -> Pmm.page_refs (mm s') p = Pmm.page_refs (mm s) p;
  qt_table p : leaf s p -> ~ is_table (abs_of s') p;
  qt_root i : pml4 (spaces s' i) = pml4 (spaces s i);
  qt_maps i : mappings (spaces s' i) = mappings (spaces s i);
  qt_rest : rest s' = rest s
}.

Definition quiet s s' : Prop := stepped (pte_at s) s s'.

Lemma stepped_trans g h x y z : stepped g x y -> stepped h y z -> stepped h x z.
Proof.
  intros [A1 A2 A3 A4 A5 A6 A7] [B1 B2 B3 B4 B5 B6 B7].
  assert (forall p, leaf x p -> leaf y p) as Hin.
  { intros p Hp. pose proof Hp as [Hr _]. split; [by rewrite A3|by apply A4]. }
  split.
  - done.
  - intros b Hb. rewrite B2, A2; auto.
  - intros p Hp. rewrite B3, A3; auto.
  - auto.
  - intros. rewrite B5, A5; done.
  - intros. rewrite B6, A6; done.
  - by rewrite B7.
Qed.

Lemma stepped_ext g h x y : (forall i v, is_slot i v -> g i v = h i v) -> stepped g x y -> stepped h x y.
Proof. intros He [A1 A2 A3 A4 A5 A6 A7]. split; try done. intros i v Hs. rewrite A1 by done. auto. Qed.

#[global] Instance quiet_preorder : PreOrder quiet.
Proof.
  split; [intros x; split; try done; by intros p [_ Hp]|]. intros x y z Hxy Hyz. eapply stepped_ext; [|exact (stepped_trans _ _ _ _ _ Hxy Hyz)].
  apply (qt_pte _ _ _ Hxy).
Qed.

Lemma zero_entry s p k :
  (forall b, b / 4096 = p -> memory s b = 0) -> 0 <= k < 512 -> entry s (4096 * p) k = 0.
Proof.
  intros Hm Hk. unfold entry, read64. rewrite (read_bytes_ext 8 _ (fun _ => 0)); [done|].
  intros b Hb. apply Hm. dmlia.
Qed.

Lemma set_user_pt_role s i k a r :
  role_addr (set_space i (set_user_pt k a (spaces s i)) s) r =
  if decide (r = UserPt i k) then a else role_addr s r.
Proof.
  destruct r as [j|j|j|j|j|j k'| | |k']; simpl; try rewrite decide_False by done; try done;
    unfold upd; destruct (Z.eqb_spec j i) as [->|]; simpl; try done.
  - unfold upd. destruct (Z.eqb_spec k' k) as [->|]; [by rewrite decide_True|by rewrite decide_False by congruence].
  - by rewrite decide_False by congruence.
Qed.

Lemma set_user_pt_space s i k a j :
  let s' := set_space i (set_user_pt k a (spaces s i)) s in
  pml4 (spaces s' j) = pml4 (spaces s j) /\ pdpt (spaces s' j) = pdpt (spaces s j) /\
  identity_pd (spaces s' j) = identity_pd (spaces s j) /\ identity_pt0 (spaces s' j) = identity_pt0 (spaces s j) /\
  user_pd (spaces s' j) = user_pd (spaces s j) /\ mappings (spaces s' j) = mappings (spaces s j) /\
  forall k', user_pts (spaces s' j) k' = if (j =? i) && (k' =? k) then a else user_pts (spaces s j) k'.
Proof.
  simpl. unfold upd. destruct (Z.eqb_spec j i) as [->|]; simpl; [|done]. split_and!; done.
Qed.

(** Linking or unlinking the table [k] of a space: the slots it covers have no
    entries before or after. *)
Lemma set_user_pt_inv D R P l l' s i k a :
  inv D R P l s -> live s i -> 0 <= k < 256 \/ (0 <= k < 512 /\ a = 0) ->
  (forall u, is_slot i u -> u / 512 = k -> pte_at s i u = 0) ->
  (a = 0 \/ forall j, 0 <= j < 512 -> pte_present (entry s a j) = false) ->
  core R P l' (with_role (UserPt i k) a (abs_of s)) ->
  let s' := set_space i (set_user_pt k a (spaces s i)) s in
  inv (add_space D i) R P l' s' /\ forall j u, is_slot j u -> pte_at s' j u = pte_at s j u.
Proof.
  intros Hi [Hsp Hl] Hk Hold Hnew Hc s'. pose proof (set_user_pt_space s i k a) as Hspc. fold s' in Hspc.
  assert (forall j u, is_slot j u -> pte_at s' j u = pte_at s j u) as Hpte.
  { intros j u Hu. unfold pte_at at 1. destruct (Hspc j) as (_ & _ & _ & _ & _ & _ & ->).
    change (entry s') with (entry s). destruct (Z.eqb_spec j i) as [->|]; cbn [andb]; [|done].
    destruct (Z.eqb_spec (u / 512) k) as [Hd|]; [|done]. rewrite (Hold u Hu Hd).
    destruct (Z.eqb_spec a 0); [done|]. destruct Hnew as [?|Hnew]; [done|].
    assert (0 <= u mod 512 < 512) by dmlia. unfold norm. by rewrite Hnew. }
  split; [|done]. pose proof Hi as [I1 I2 I3 I4 I5 I6 I7 I8]. split; try done.
  - eapply core_ext; [|exact Hc]. split; simpl; intros; try done.
    + symmetry. apply set_user_pt_role.
    + symmetry. by apply Hpte.
    + destruct (Hspc i0) as (_ & _ & _ & _ & _ & Hm & _). simpl in Hm. by rewrite Hm.
  - intros j Hj. destruct (Hspc j) as (-> & -> & -> & -> & -> & _ & Hu). intros Hlj.
    destruct (I5 j Hj Hlj) as (? & ? & ? & ? & H5). split_and!; try done. intros k' Hk'. rewrite Hu.
    destruct (Z.eqb_spec j i), (Z.eqb_spec k' k); cbn [andb]; auto. destruct Hk; [lia|tauto].
  - intros j Hj. destruct (Hspc j) as (-> & -> & -> & -> & -> & -> & Hu). intros Hlj.
    destruct (I6 j Hj Hlj) as (? & ? & ? & ? & H5 & ?). split_and!; try done. intros k' Hk'. rewrite Hu.
    destruct (Z.eqb_spec j i); cbn [andb]; [congruence|auto].
  - intros j Hj Hd. destruct (Hspc j) as (-> & E1 & E2 & E3 & E4 & _ & Hu). intros Hlj.
    assert (j <> i) as Hne by (intros ->; apply Hd; by right).
    destruct (I7 j Hj ltac:(intros ?; apply Hd; by left) Hlj) as [U1 U2 U3].
    destruct (Hspc j) as (E0 & _). split; intros k' Hk'; change (entry s') with (entry s).
    + rewrite E0, E1. by apply U1.
    + rewrite E1, E2, E4. by apply U2.
    + rewrite E4, Hu, (proj2 (Z.eqb_neq j i) Hne). by apply U3.
  - intros Hn. apply (kernel_frame s); try done. apply I8. intros ?. apply Hn. by left.
Qed.

Lemma flags_u64 p fl : 0 <= p < 2 ^ 40 -> is_u64 fl -> is_u64 (4096 * p ||| fl).
Proof. intros Hp Hf. apply lor_u64; [unfold is_u64; lia|done]. Qed.

Lemma page_small p : p < Pmm.BITMAP_BITS -> p < 2 ^ 40.
Proof. rewrite Pmm.BITMAP_BITS_val. lia. Qed.

(** The upper tables of a space after a page table came or went. *)
Lemma upper_set_pd s s' i k a v :
  upper_ok s i -> same_tables (set_space i (set_user_pt k a (spaces s i)) s) s' -> 0 <= k < 512 ->
  (forall r j, r = Root i \/ r = Pdpt i \/ (r = UserPd i /\ j <> k) -> 0 <= j < 512 ->
     entry s' (role_addr s r) j = entry s (role_addr s r) j) ->
  entry s' (user_pd (spaces s i)) k = v ->
  v = (if a =? 0 then 0 else a ||| VM64_PAGE_PRESENT ||| VM64_PAGE_WRITE ||| VM64_PAGE_USER) ->
  upper_ok s' i.
Proof.
  intros [U1 U2 U3] [E1 E2 _ _ _ _] Hk He Hv ->.
  destruct (set_user_pt_space s i k a i) as (S1 & S2 & S3 & S4 & S5 & _ & S7).
  rewrite <- E1 in S1, S2, S3, S4, S5, S7. simpl in E2.
  pose proof (fun j => He (Root i) j ltac:(auto)) as H1. pose proof (fun j => He (Pdpt i) j ltac:(auto)) as H2.
  assert (forall j, j <> k -> 0 <= j < 512 -> entry s' (user_pd (spaces s i)) j = entry s (user_pd (spaces s i)) j) as H3
    by (intros j Hj; apply (He (UserPd i)); auto). simpl in *.
  split; intros j Hj; rewrite ?S1, ?S2, ?S3, ?S5, ?S7, ?E2.
  - rewrite H1 by done. by apply U1.
  - rewrite H2 by done. by apply U2.
  - rewrite Z.eqb_refl. cbn [andb]. destruct (Z.eqb_spec j k) as [->|]; [done|]. rewrite H3 by done. by apply U3.
Qed.

(** The user page directory of a live space. *)
Lemma live_pd D R P l s i :
  inv D R P l s -> live s i -> exists p, user_pd (spaces s i) = 4096 * p /\ 0 < p < Pmm.BITMAP_BITS /\ is_table (abs_of s) p.
Proof.
  intros Hi [Hsp Hl]. destruct (i_live _ _ _ _ _ Hi i Hsp Hl) as (_ & _ & _ & Hu & _).
  by destruct (role_page _ _ _ _ _ (UserPd i) Hi Hsp Hu) as (p & ? & ? & ?); exists p.
Qed.

(** Storing into the user page directory completes a change of its tables. *)
Lemma set_pd_inv D R P l0 l s s1 i k a :
  inv D R P l0 s -> live s i -> 0 <= k < 512 -> a = 0 \/ (exists p, a = 4096 * p /\ 0 < p < Pmm.BITMAP_BITS) ->
  inv (add_space D i) R P l s1 ->
  same_tables (set_space i (set_user_pt k a (spaces s i)) s) s1 ->
  (forall p b, is_table (abs_of s) p -> b / 4096 = p -> memory s1 b = memory s b) ->
  let v := if a =? 0 then 0 else a ||| VM64_PAGE_PRESENT ||| VM64_PAGE_WRITE ||| VM64_PAGE_USER in
  let s' := set_entry (user_pd (spaces s i)) k v s1 in
  inv D R P l s' /\ forall j u, is_slot j u -> pte_at s' j u = pte_at s1 j u.
Proof.
  intros Hi Hlive Hk Ha Hi1 Ht Hmem v s'. destruct (live_pd _ _ _ _ _ _ Hi Hlive) as (d & Hd & Hdb & Hdt).
  pose proof Hlive as [Hsp Hl].
  assert (is_u64 v) as Hv.
  { unfold v. destruct Ha as [->|(p & -> & Hp)]; [by unfold is_u64; simpl|]. destruct (_ =? 0); [unfold is_u64; lia|].
    rewrite <- !Z.lor_assoc. apply flags_u64; [pose proof (page_small p); lia|by unfold is_u64; vm_compute]. }
  assert (role_addr s1 (UserPd i) = 4096 * d) as Hd1.
  { destruct Ht as [E1 _ _ _ _ _]. simpl. rewrite E1. by destruct (set_user_pt_space s i k a i) as (_ & _ & _ & _ & -> & _). }
  destruct (store_upper_inv (add_space D i) R P l s1 (UserPd i) d k v Hi1) as [Hinv Hpte]; try done.
  { lia. } { intros j [?|[?|[[= ->]|[_ [? ?]]]]]; try done. by right. }
  unfold s', set_entry. rewrite Hd. split; [|done]. eapply inv_strengthen; [exact Hinv|destruct Hsp; lia|]. intros HnD _.
  eapply (upper_set_pd s _ i k a v).
  - by apply (i_upper _ _ _ _ _ Hi).
  - etrans; [exact Ht|done].
  - done.
  - intros r j Hr Hj. destruct (i_live _ _ _ _ _ Hi i Hsp Hl) as (L1 & L2 & L3 & L4 & L5).
    destruct (role_page _ _ _ _ _ r Hi) as (q & Hq & Hqb & Hqt);
      [by destruct Hr as [->|[->|[-> _]]]|by destruct Hr as [->|[->|[-> _]]]|].
    rewrite Hq, entry_store by done. destruct ((q =? d) && (j =? k)) eqn:Hx.
    + exfalso. boolify. subst. assert (r = UserPd i) as ->.
      { apply (role_inj D R P l0 s _ _ d Hi); try done; [by destruct Hr as [->|[->|[-> _]]]|lia]. }
      destruct Hr as [?|[?|[_ ?]]]; done.
    + apply entry_frame; [|done]. intros b Hb. by apply (Hmem q).
  - by rewrite Hd, entry_store, !Z.eqb_refl by done.
  - done.
Qed.

Lemma is_table_roles s s' p :
  (forall r, valid_role r -> role_addr s' r = role_addr s r) -> is_table (abs_of s') p <-> is_table (abs_of s) p.
Proof. intros He. by apply is_table_ext. Qed.

Lemma ensure_user_pt_inv D R P l s i k pt s' :
  inv D R P l s -> live s i -> 0 <= k < 256 -> ensure_user_pt i k s = (pt, s') ->
  inv D R P l s' /\ quiet s s' /\
  (forall j k', user_pts (spaces s j) k' <> 0 -> user_pts (spaces s' j) k' = user_pts (spaces s j) k') /\
  match pt with
  | Some a => a = user_pts (spaces s' i) k /\ a <> 0
  | None => s' = s
  end.
Proof.
  intros Hi Hlive Hk. unfold ensure_user_pt. destruct (Z.leb_spec 512 k); [lia|].
  destruct (nz (user_pts (spaces s i) k)) eqn:Hpt; cbn [negb].
  { apply nz_true in Hpt. intros [= <- <-]. by split_and!. }
  apply nz_false in Hpt. destruct (alloc_page s) as [a s1] eqn:Ha.
  destruct (alloc_page_inv _ _ _ _ _ _ _ Hi Ha) as [Ht [[-> ->]|(p & -> & Hp & [Hr0 Hnd] & Hi1 & Hr1 & Hpte1 & Hm1)]].
  { intros [= <- <-]. by split_and!. }
  rewrite (proj2 (nz_true _)) by lia. cbn [negb]. intros [= <- <-].
  pose proof Ht as [E1 E2 E3 E4 E5 E6]. rewrite <- E1.
  assert (live s1 i) as Hlive1 by (destruct Hlive; split; [done|by rewrite E1]).
  destruct (free_page_unused _ _ _ _ _ (i_core _ _ _ _ _ Hi) Hr0) as (Hnt & Hh & Ho & Hl).
  destruct (set_user_pt_inv D R P (upd l p 1) (upd (upd l p 1) p 0) s1 i k (4096 * p) Hi1 Hlive1) as [Hi2 Hpte2].
  { by left. }
  { intros u _ <-. unfold pte_at. by rewrite E1, Hpt. }
  { right. intros j Hj. rewrite zero_entry; [done| |done]. intros b Hb. by rewrite Hm1, (proj2 (Z.eqb_eq _ _) Hb). }
  { apply core_link; [apply (i_core _ _ _ _ _ Hi1)|destruct Hlive; split; [done|lia]|simpl; by rewrite E1|lia|by rewrite upd_eq|].
    simpl. by rewrite Hr1, Z.eqb_refl. }
  set (s2 := set_space _ _ s1) in *.
  destruct (set_pd_inv D R P (upd l p 1) (upd (upd l p 1) p 0) s1 s2 i k (4096 * p)) as [Hi3 Hpte3]; try done.
  { lia. } { right. by exists p. }
  rewrite (proj2 (Z.eqb_neq (4096 * p) 0)) in Hi3, Hpte3 by lia. set (s3 := set_entry _ k _ s2) in *.
  destruct (live_pd _ _ _ _ _ _ Hi Hlive) as (d & Hd & Hdb & Hdt).
  split_and!; [| | |unfold s3, s2; simpl; rewrite upd_eq; simpl; by rewrite upd_eq|lia].
  - eapply inv_loose_ext; [|exact Hi3]. intros q. unfold upd. destruct (Z.eqb_spec q p) as [->|]; done.
  - assert (forall r, role_addr s3 r = if decide (r = UserPt i k) then 4096 * p else role_addr s r) as Hrole.
    { intros r. rewrite <- (same_tables_role s s1 r Ht). apply set_user_pt_role. }
    assert (forall b, b / 4096 <> p -> b / 4096 <> d -> memory s3 b = memory s b) as Hmem.
    { intros b H1 H2. unfold s3, set_entry. rewrite E1, Hd, memory_store by (done || lia).
      change (memory s2 b) with (memory s1 b). by rewrite Hm1, (proj2 (Z.eqb_neq _ _) H1). }
    split.
    + intros j u Hu. rewrite Hpte3, Hpte2, Hpte1; done.
    + intros b [Hb Hnb]. apply Hmem; intros He; rewrite He in *; [tauto|done].
    + intros q [Hq Hnq]. change (Pmm.page_refs (mm s3) q) with (Pmm.page_refs (mm s1) q). rewrite Hr1.
      destruct (Z.eqb_spec q p) as [->|]; [tauto|done].
    + intros q [Hq Hnq] (r & Hv & Hra & Hr). simpl in Hra, Hr. rewrite Hrole in Hra, Hr.
      destruct (decide (r = UserPt i k)); [assert (q = p) by lia; subst; tauto|]. apply Hnq. by exists r.
    + intros j. destruct (set_user_pt_space s1 i k (4096 * p) j) as (Hx & _). rewrite <- E1. exact Hx.
    + intros j. destruct (set_user_pt_space s1 i k (4096 * p) j) as (_ & _ & _ & _ & _ & Hx & _). rewrite <- E1. exact Hx.
    + exact E6.
  - intros j k' Hne. destruct (set_user_pt_space s1 i k (4096 * p) j) as (_ & _ & _ & _ & _ & _ & Hx).
    change (user_pts (spaces s3 j) k') with (user_pts (spaces s2 j) k'). rewrite Hx, E1.
    destruct (Z.eqb_spec j i) as [->|], (Z.eqb_spec k' k) as [->|]; cbn [andb]; congruence.
Qed.

(** A table goes: its page is loose, then free. *)
Lemma unlink_pt_inv D R P l s i k p :
  inv D R P l s -> live s i -> 0 <= k < 512 -> user_pts (spaces s i) k = 4096 * p -> p <> 0 ->
  (forall j, 0 <= j < 512 -> pte_present (entry s (4096 * p) j) = false) ->
  exists q, free_page (4096 * p) s = Some (set_mm q s) /\
    let s' := set_space i (set_user_pt k 0 (spaces s i)) (set_mm q s) in
    inv (add_space D i) R P l s' /\ (forall j u, is_slot j u -> pte_at s' j u = pte_at s j u) /\
    (forall b, memory s' b = memory s b) /\
    (forall p', Pmm.page_refs (mm s') p' = if p' =? p then 0 else Pmm.page_refs (mm s) p').
Proof.
  intros Hi Hlive Hk Hp Hp0 Hent. pose proof Hlive as [Hsp Hl].
  assert (valid_role (UserPt i k)) as Hv by done.
  destruct (role_page _ _ _ _ _ (UserPt i k) Hi Hv) as (p' & Hp' & Hpb & Htab); [simpl; lia|].
  simpl in Hp'. assert (p' = p) as -> by lia.
  pose proof (c_table _ _ _ _ (i_core _ _ _ _ _ Hi) p Htab) as (Hr1 & Hl0 & _). simpl in Hr1.
  destruct (set_user_pt_inv D R P l (upd l p 1) s i k 0 Hi Hlive) as [Hi1 Hpte1].
  { by right. }
  { intros u [_ Hu] <-. unfold pte_at. rewrite Hp. destruct (_ =? 0); [done|]. unfold norm. rewrite Hent; [done|dmlia]. }
  { by left. }
  { by apply (core_unlink _ _ _ _ (UserPt i k) p (i_core _ _ _ _ _ Hi)). }
  set (s1 := set_space _ _ s) in *.
  destruct (free_page_inv _ _ _ _ _ p Hi1) as (s1' & Hf & Ht & Hi2 & Hrf & Hpte2 & Hm2); [by rewrite upd_eq|done|].
  unfold free_page in Hf |- *. change (mm s1) with (mm s) in Hf. destruct (Pmm.pmm_free_page (4096 * p) (mm s)) as [q|]; [|done].
  simpl in Hf. injection Hf as <-. exists q. split; [done|]. split_and!.
  - eapply inv_loose_ext; [|exact Hi2]. intros p'. unfold upd. destruct (Z.eqb_spec p' p) as [->|]; [|done].
    rewrite Z.eqb_refl. lia.
  - intros j u Hu. etrans; [exact (Hpte2 j u Hu)|by apply Hpte1].
  - exact Hm2.
  - intros p'. etrans; [exact (Hrf p')|]. change (mm s1) with (mm s). destruct (Z.eqb_spec p' p) as [->|]; [lia|done].
Qed.

Lemma release_empty_pt_inv D R P l s i k :
  inv D R P l s -> live s i -> 0 <= k < 512 ->
  exists s', release_empty_pt i k s = Some s' /\ inv D R P l s' /\ quiet s s'.
Proof.
  intros Hi Hlive Hk. pose proof Hlive as [Hsp Hl]. unfold release_empty_pt.
  destruct (nz (user_pts (spaces s i) k)) eqn:Hpt; cbn [negb]; [|by exists s]. apply nz_true in Hpt.
  destruct (scan_range 0 512 _) as [j|] eqn:Hscan; [by exists s|]. rewrite scan_range_None in Hscan.
  assert (valid_role (UserPt i k)) as Hv by done.
  destruct (role_page _ _ _ _ _ (UserPt i k) Hi Hv Hpt) as (p & Hp & Hpb & Htab). simpl in Hp.
  destruct (unlink_pt_inv D R P l s i k p Hi Hlive Hk Hp) as (q & Hf & Hi1 & Hpte1 & Hm1 & Hr1); [lia| |].
  { intros j Hj. pose proof (Hscan j ltac:(lia)) as Hz. change VM64_PAGE_PRESENT with (2 ^ 0) in Hz.
    rewrite flag_test, Hp in Hz by done. done. }
  rewrite Hp, Hf. cbn [mbind option_bind]. set (s1 := set_space _ _ _) in *. eexists. split; [reflexivity|].
  destruct (set_pd_inv D R P l l s s1 i k 0) as [Hi2 Hpte2]; try done.
  { by left. }
  simpl in Hi2, Hpte2. split; [done|]. destruct (live_pd _ _ _ _ _ _ Hi Hlive) as (d & Hd & Hdb & Hdt).
  set (s2 := set_entry _ k 0 s1) in *.
  assert (forall r, role_addr s2 r = if decide (r = UserPt i k) then 0 else role_addr s r) as Hrole.
  { intros r. exact (set_user_pt_role s i k 0 r). }
  split.
  - intros j u Hu. rewrite Hpte2, Hpte1; done.
  - intros b [Hb Hnb]. unfold s2, set_entry. rewrite Hd, memory_store; [apply Hm1|done|]. intros He. rewrite He in *. done.
  - intros p' [Hp' Hnt]. change (Pmm.page_refs (mm s2) p') with (Pmm.page_refs (mm s1) p'). rewrite Hr1.
    by destruct (Z.eqb_spec p' p) as [->|].
  - intros p' [Hp' Hnt] (r & Hvr & Hra & Hr). simpl in Hra, Hr. rewrite Hrole in Hra, Hr.
    destruct (decide (r = UserPt i k)); [done|]. apply Hnt. by exists r.
  - intros j. by destruct (set_user_pt_space s i k 0 j) as (Hx & _).
  - intros j. by destruct (set_user_pt_space s i k 0 j) as (_ & _ & _ & _ & _ & Hx & _).
  - done.
Qed.

Lemma quiet_live s s' i : quiet s s' -> live s i -> live s' i.
Proof. intros Hq [Hs Hl]. split; [done|]. by rewrite (qt_root _ _ _ Hq). Qed.

(** ** Mapping a page *)

Lemma user_pte_create D R P l s i a o s' :
  inv D R P l s -> live s i -> user_pte i a true s = (o, s') ->
  inv D R P l s' /\ quiet s s' /\
  match o with
  | Some pte => user_addr a /\ pte = pte_addr s' i (vpn a) /\ user_pts (spaces s' i) (vpn a / 512) <> 0
  | None => s' = s
  end.
Proof.
  intros Hi Hlive. pose proof Hlive as [Hsp Hl]. unfold user_pte. rewrite (proj2 (nz_true _) Hl). cbn [negb orb].
  destruct (Z.ltb_spec a VM64_USER_BASE); [by intros [= <- <-]|].
  destruct (Z.leb_spec VM64_USER_LIMIT a); [by intros [= <- <-]|]. cbn [orb].
  assert (user_addr a) as Ha by (unfold user_addr; lia). destruct (user_pte_index a Ha) as [-> ->].
  destruct (vpn_slot i a Hsp Ha) as [[_ Hv] Hv2].
  destruct (ensure_user_pt i (vpn a / 512) s) as [pt s1] eqn:He.
  assert (0 <= vpn a / 512) by (apply Z.div_pos; lia).
  destruct (ensure_user_pt_inv D R P l s i (vpn a / 512) pt s1 Hi Hlive ltac:(lia) He) as (Hi1 & Hq & _ & Hpt).
  destruct pt as [pt|]; intros [= <- <-]; [|done]. destruct Hpt as [-> Hn]. by split_and!.
Qed.

(** A new entry that fits before a quiet step fits after it. *)
Lemma pte_fits_quiet D R P l s s' i v e :
  inv D R P l s -> quiet s s' -> is_slot i v -> pte_fits R P l (abs_of s) i v e -> pte_fits R P l (abs_of s') i v e.
Proof.
  intros Hi Hq Hs [F1 F2 F3]. pose proof Hq as [Q1 Q2 Q3 Q4 Q5 Q6 Q7].
  assert (forall i', (fun m => mappings (spaces s' i') m) = fun m => mappings (spaces s i') m) as Hm
    by (intros i'; by rewrite Q6).
  split.
  - intros Hp Ho. destruct (F1 Hp Ho) as (H1 & H2 & H3 & H4 & H5). simpl in *. rewrite Q7, Q1 by done.
    assert (Pmm.page_refs (mm s) (phys_page e) <> 0) as Hr.
    { pose proof (c_count _ _ _ _ (i_core _ _ _ _ _ Hi) _ H3 H4) as Hc. simpl in Hc.
      pose proof (c_loose _ _ _ _ (i_core _ _ _ _ _ Hi) (phys_page e)).
      pose proof (own1_range (pte_at s i v) (phys_page e)). destruct (Z.eq_dec (own1 (pte_at s i v) (phys_page e)) 1) as [Hx|]; [|lia].
      apply own1_true in Hx as (? & ? & ?).
      assert ((i, v) ∈ owners (abs_of s) (phys_page e)) as Hin by (by apply elem_of_owners). apply owner_size in Hin. lia. }
    assert (leaf s (phys_page e)) as Hlf by (split; [by left|done]).
    rewrite Q3 by done. split_and!; try done; lia || auto.
  - intros Hp Ho. destruct (F2 Hp Ho) as (e' & o & Hmp & ?). exists e', o. simpl in *. rewrite Q7. split; [|done].
    unfold mapped in *. simpl in *. by rewrite Hm.
  - intros m. simpl in *. rewrite Q6. apply F3.
Qed.

Lemma map_page_inv D R P l s i a p fl r s' :
  inv D R P l s -> live s i -> 0 <= p < 2 ^ 40 -> is_u64 fl -> pte_present fl = true ->
  map_page i a (4096 * p) fl s = (r, s') ->
  let e := 4096 * p ||| fl in
  (user_addr a -> pte_at s i (vpn a) = 0 -> pte_fits R P l (abs_of s) i (vpn a) e) ->
  (r <> 0 /\ inv D R P l s' /\ quiet s s') \/
  (r = 0 /\ user_addr a /\ pte_at s i (vpn a) = 0 /\ inv D R P (fun q => l q - own1 e q) s' /\
   stepped (fun j u => if (j =? i) && (u =? vpn a) then e else pte_at s j u) s s').
Proof.
  intros Hi Hlive Hp Hfl Hpr Hmap e. revert Hmap. unfold map_page. destruct (user_pte i a true s) as [o s1] eqn:Hu.
  destruct (user_pte_create _ _ _ _ _ _ _ _ _ Hi Hlive Hu) as (Hi1 & Hq & Ho).
  destruct o as [pte|]; [|subst; intros [= <- <-] _; left; by split_and!].
  destruct Ho as (Ha & -> & Hpt). change VM64_PAGE_PRESENT with (2 ^ 0). rewrite flag_test by done.
  rewrite <- norm_present, read_pte by done. fold e. pose proof Hlive as [Hsp Hl].
  destruct (vpn_slot i a Hsp Ha) as [Hs _].
  destruct (pte_present (pte_at s1 i (vpn a))) eqn:Hold; intros [= <- <-] Hfit; [left; by split_and!|right].
  assert (pte_at s i (vpn a) = 0) as H0.
  { rewrite <- (qt_pte _ _ _ Hq) by done. unfold pte_at in *. destruct (_ =? 0); [done|]. rewrite norm_present in Hold.
    unfold norm. by rewrite Hold. }
  assert (pte_present e = true) as Hep by (unfold e; rewrite build_bits by (done || lia); done).
  destruct (store_pte_inv D R P l s1 i (vpn a) e Hi1 Hs Hpt) as [Hi2 [S1 S2 S3 S4]].
  { by apply flags_u64. } { by apply norm_id. }
  { apply (pte_fits_quiet D R P l s); auto. }
  assert (pte_at s1 i (vpn a) = 0) as H1 by (by rewrite (qt_pte _ _ _ Hq)).
  split_and!; try done.
  - eapply inv_loose_ext; [|exact Hi2]. intros q. simpl. rewrite H1, (own1_false 0) by (by left). lia.
  - eapply stepped_trans; [exact Hq|]. split; try done.
    + intros j u Hju. rewrite S3 by done. destruct (_ && _); [done|]. by apply (qt_pte _ _ _ Hq).
    + intros b [_ Hnt]. by apply S4.
    + intros p' [_ Hnt]. done.
Qed.

End Ops.
End VmOps.
