(* ===== verification/VmUser.v ===== *)
(** Pages of user memory: mapping and unmapping, copy on write, and the
    kernel's access to user memory, on the invariant of VmOps.v. *)

From stdpp Require Import gmap.
From S2P Require Import Prelude Pmm Vm VmInv VmOps.

Module VmUser.

Import Vm VmInv VmOps.

Section User.

Context {W : Type} {VM : VmModules W} {VO : VmObjects W} {VL : VmLaws W}.
Implicit Types (s : vm W).

(** Pages of RAM are not device pages, so no table is one. *)
Lemma device_not_table D R P l s p : inv D R P l s -> device p -> ~ is_table (abs_of s) p.
Proof.
  intros Hi Hd Ht. pose proof Ht as (r & Hr & Ha & Hn).
  destruct (role_page _ _ _ _ _ r Hi Hr Hn) as (p' & Hp' & Hb & _). simpl in Ha. assert (p' = p) as -> by lia.
  assert (Pmm.page_in p) as Hin by (unfold Pmm.page_in; lia).
  apply (i_ram _ _ _ _ _ Hi p Hd Hin), (Pmm.base_ram _ (Pmm.inv_base _ (i_mm _ _ _ _ _ Hi)) p Hin). right.
  destruct (c_table _ _ _ _ (i_core _ _ _ _ _ Hi) p Ht) as (Hrf & _). simpl in Hrf. lia.
Qed.

(** The page of an owned entry. *)
Lemma owned_page D R P l s i v :
  inv D R P l s -> is_slot i v -> pte_present (pte_at s i v) = true -> pte_owned (pte_at s i v) = true ->
  let p := phys_page (pte_at s i v) in
  0 < p < Pmm.BITMAP_BITS /\ (i, v) ∈ owners (abs_of s) p /\ ~ is_table (abs_of s) p /\ held (rest s) p = 0 /\
  Pmm.page_refs (mm s) p = Z.of_nat (size (owners (abs_of s) p)) + l p /\ 1 <= Pmm.page_refs (mm s) p.
Proof.
  intros Hi Hs Hp Ho p. pose proof (i_core _ _ _ _ _ Hi) as Hc.
  assert ((i, v) ∈ owners (abs_of s) p) as Hin by (by apply elem_of_owners).
  pose proof (owner_size _ _ _ _ Hin) as Hsz.
  assert (owners (abs_of s) p <> ∅) as Hne by (intros He; rewrite He in Hin; by apply not_elem_of_empty in Hin).
  assert (~ is_table (abs_of s) p) as Ht by (intros Ht; by apply (c_table _ _ _ _ Hc) in Ht as (_ & _ & _ & ?)).
  assert (held (rest s) p = 0) as Hh.
  { pose proof (held_nonneg (rest s) p). destruct (Z.eq_dec (held (rest s) p) 0); [done|].
    destruct (c_held _ _ _ _ Hc p) as (_ & He & _); [simpl; lia|done]. }
  pose proof (c_count _ _ _ _ Hc p Ht Hh) as Hn. pose proof (c_loose _ _ _ _ Hc p). simpl in Hn.
  split_and!; try done; try lia; apply (c_owned _ _ _ _ Hc i v Hs Hp Ho).
Qed.

(** Every page a user can reach is a leaf. *)
Lemma present_leaf D R P l s i v :
  inv D R P l s -> is_slot i v -> pte_present (pte_at s i v) = true -> leaf s (phys_page (pte_at s i v)).
Proof.
  intros Hi Hs Hp. pose proof (i_core _ _ _ _ _ Hi) as Hc. destruct (pte_owned (pte_at s i v)) eqn:Ho.
  - destruct (owned_page _ _ _ _ _ _ _ Hi Hs Hp Ho) as (_ & _ & Ht & _ & _ & Hr). split; [left; lia|done].
  - destruct (foreign_page _ _ _ _ i v Hc Hs Hp Ho) as [Hd|Hh].
    + split; [by right|]. exact (device_not_table _ _ _ _ _ _ Hi Hd).
    + destruct (c_held _ _ _ _ Hc _ Hh) as (_ & _ & Hr). simpl in Hr, Hh. split; [left; lia|].
      intros Ht. apply (c_table _ _ _ _ Hc) in Ht as (_ & _ & H0 & _). simpl in H0. lia.
Qed.

(** No mapping of an object covers an entry that is absent or owned. *)
Lemma no_mapping R P l s i v :
  core R P l (abs_of s) -> is_slot i v ->
  pte_present (pte_at s i v) = false \/ pte_owned (pte_at s i v) = true ->
  forall m, 0 <= m < VM64_MAPPING_MAX -> m_object (mappings (spaces s i) m) <> None -> ~ R i m ->
    covers (mappings (spaces s i) m) v -> False.
Proof.
  intros Hc Hs Hv m Hm Ho HR Hcov. destruct (c_range _ _ _ _ Hc i m v Hs Hm Ho HR Hcov) as [H1 H2].
  simpl in H1, H2. destruct Hv; congruence.
Qed.

(** ** Mapping *)

(** The flags of [vm64_map]. *)
Definition map_flags (writable executable : bool) : Z :=
  let flags := VM64_PAGE_PRESENT ||| VM64_PAGE_USER ||| PAGE_OWNED in
  let flags := if writable then flags ||| VM64_PAGE_WRITE else flags in
  if executable then flags else flags ||| VM64_PAGE_NX.

Lemma map_flags_bits wr ex :
  let fl := map_flags wr ex in
  is_u64 fl /\ fl &&& VM64_PHYS_MASK = 0 /\ pte_present fl = true /\ pte_user fl = true /\ pte_owned fl = true /\
  pte_writable fl = wr /\ pte_cow fl = false /\ pte_no_execute fl = negb ex.
Proof. destruct wr, ex; vm_compute; split_and!; done. Qed.

Lemma vm64_map_inv D R P l s i a p wr ex r s' :
  inv D R P l s -> 0 <= i -> 0 < p < Pmm.BITMAP_BITS -> 0 < l p -> Pmm.page_refs (mm s) p = 1 ->
  vm64_map i a (4096 * p) wr ex s = (r, s') ->
  let e := 4096 * p ||| map_flags wr ex in
  (r <> 0 /\ inv D R P l s' /\ quiet s s') \/
  (r = 0 /\ live s i /\ user_addr a /\ a mod 4096 = 0 /\ pte_at s i (vpn a) = 0 /\
   inv D R P (upd l p (l p - 1)) s' /\
   stepped (fun j u => if (j =? i) && (u =? vpn a) then e else pte_at s j u) s s').
Proof.
  intros Hi Hi0 Hp Hl Hr Hm e. revert Hm. unfold vm64_map.
  destruct (Z.leb_spec VM64_MAX_SPACES i); [intros [= <- <-]; left; by split_and!|].
  destruct (nz (pml4 (spaces s i))) eqn:Hlv; cbn [negb orb]; [|intros [= <- <-]; left; by split_and!].
  destruct (nz (a &&& 0xFFF)) eqn:Hal; cbn [orb]; [intros [= <- <-]; left; by split_and!|].
  apply nz_true in Hlv. apply nz_false in Hal. change 0xFFF with (Z.ones 12) in Hal. rewrite Z.land_ones in Hal by done.
  destruct (nz (4096 * p &&& 0xFFF)) eqn:Hpl; cbn [orb]; [intros [= <- <-]; left; by split_and!|].
  destruct (nz (Pmm.pmm_page_refs (4096 * p) (mm s))); cbn [negb]; [|intros [= <- <-]; left; by split_and!].
  change (let flags := _ in _) with (map_page i a (4096 * p) (map_flags wr ex) s). intros Hm.
  assert (live s i) as Hlive by (split; [unfold is_space; lia|done]).
  destruct (map_flags_bits wr ex) as (F1 & F2 & F3 & F4 & F5 & F6 & F7 & F8).
  pose proof (page_small p ltac:(lia)) as Hps.
  destruct (loose_not_table _ _ _ _ _ (i_core _ _ _ _ _ Hi) Hl) as [Ht Hh].
  assert (forall n, 0 <= n < 12 \/ 52 <= n -> Z.testbit e n = Z.testbit (map_flags wr ex) n) as Hb
    by (intros; apply build_bits; (lia || done)).
  assert (phys_page e = p) as He by (apply build_phys; (lia || done)).
  destruct (map_page_inv D R P l s i a p (map_flags wr ex) r s' Hi Hlive ltac:(lia) F1 F3 Hm) as [?|(H1 & H2 & H3 & H4 & H5)].
  - intros Ha H0. destruct Hlive as [Hsp _]. destruct (vpn_slot i a Hsp Ha) as [Hs _]. fold e. split.
    + intros _ _. rewrite He. simpl. split_and!; try done; try lia. pose proof (own1_range (pte_at s i (vpn a)) p). lia.
    + intros _ Hx. rewrite Hb in Hx by lia. congruence.
    + intros m Hm1 Hm2 Hm3 Hm4. exfalso.
      apply (no_mapping R P l s i (vpn a) (i_core _ _ _ _ _ Hi) Hs) with m; try done. left. by rewrite H0.
  - by left.
  - right. split_and!; try done. eapply inv_loose_ext; [|exact H4]. intros q. simpl. fold e. unfold upd.
    destruct (Z.eqb_spec q p) as [->|].
    + assert (own1 e p = 1) as ->; [|done]. apply own1_true. rewrite !Hb by lia. done.
    + rewrite own1_false; [lia|]. right. right. congruence.
Qed.

(** ** What users see *)

(** The slots outside [X] keep their entries and the memory behind them. *)
Record kept (X : Z -> Z -> Prop) s s' : Prop := {
  kp_pte j u : is_slot j u -> ~ X j u -> pte_at s' j u = pte_at s j u;
  kp_memory j u b : is_slot j u -> ~ X j u -> pte_present (pte_at s j u) = true ->
    b / 4096 = phys_page (pte_at s j u) -> memory s' b = memory s b
}.

(** The spaces in use and their mappings stay. *)
Record same_spaces s s' : Prop := {
  ss_root i : pml4 (spaces s' i) = pml4 (spaces s i);
  ss_maps i : mappings (spaces s' i) = mappings (spaces s i);
  ss_rest : rest s' = rest s
}.

Lemma kept_refl X s : kept X s s.
Proof. by split. Qed.

Lemma kept_trans X x y z : kept X x y -> kept X y z -> kept X x z.
Proof.
  intros [A1 A2] [B1 B2]. split.
  - intros j u Hs Hx. by rewrite B1, A1.
  - intros j u b Hs Hx Hp Hb. rewrite (B2 j u), (A2 j u); try done; by rewrite A1.
Qed.

Lemma kept_mono (X Y : Z -> Z -> Prop) s s' : (forall j u, X j u -> Y j u) -> kept X s s' -> kept Y s s'.
Proof. intros HXY [A1 A2]. split; [intros j u Hs Hn; apply A1; auto|intros j u b Hs Hn; apply A2; auto]. Qed.

#[global] Instance same_spaces_preorder : PreOrder same_spaces.
Proof.
  split; [by split|]. intros x y z [A1 A2 A3] [B1 B2 B3]. split; [intros i; by rewrite B1|intros i; by rewrite B2|by rewrite B3].
Qed.

Lemma quiet_kept D R P l X s s' : inv D R P l s -> quiet s s' -> kept X s s'.
Proof.
  intros Hi Hq. split.
  - intros j u Hs _. by apply (qt_pte _ _ _ Hq).
  - intros j u b Hs _ Hp Hb. apply (qt_memory _ _ _ Hq). rewrite Hb. by eapply present_leaf.
Qed.

Lemma stepped_spaces g s s' : stepped g s s' -> same_spaces s s'.
Proof. intros [A1 A2 A3 A4 A5 A6 A7]. done. Qed.

Lemma tables_spaces s s' : same_tables s s' -> same_spaces s s'.
Proof. intros [E1 E2 E3 E4 E5 E6]. split; [intros i; by rewrite E1|intros i; by rewrite E1|done]. Qed.

(** A store to an entry and nothing else. *)
Lemma stored_kept D R P l s s' i v e :
  inv D R P l s -> pte_stored s s' i v e -> kept (fun j u => j = i /\ u = v) s s'.
Proof.
  intros Hi [S1 S2 S3 S4]. split.
  - intros j u Hs Hn. rewrite S3 by done. destruct (Z.eqb_spec j i), (Z.eqb_spec u v); cbn [andb]; tauto.
  - intros j u b Hs Hn Hp Hb. apply S4. rewrite Hb. by eapply present_leaf.
Qed.

(** Steps that leave all memory and all entries alone. *)
Lemma unchanged_kept X s s' :
  (forall j u, is_slot j u -> pte_at s' j u = pte_at s j u) -> (forall b, memory s' b = memory s b) -> kept X s s'.
Proof. intros H1 H2. split; auto. Qed.

(** ** Unmapping *)

Lemma page_mul p : 4096 * p / 4096 = p.
Proof. rewrite Z.mul_comm. by apply Z.div_mul. Qed.

Lemma vm64_unmap_inv D R P l s i a :
  inv D R P l s -> 0 <= i ->
  exists r s', vm64_unmap i a s = Some (r, s') /\ inv D R P l s' /\
    ((r <> 0 /\ s' = s) \/
     (r = 0 /\ live s i /\ user_addr a /\ pte_present (pte_at s i (vpn a)) = true /\
      pte_owned (pte_at s i (vpn a)) = true /\ pte_at s' i (vpn a) = 0 /\
      kept (fun j u => j = i /\ u = vpn a) s s' /\ same_spaces s s')).
Proof.
  intros Hi Hi0. unfold vm64_unmap.
  destruct (Z.leb_spec VM64_MAX_SPACES i); [exists (-1), s; by split_and!; [..|left]|].
  destruct (nz (pml4 (spaces s i))) eqn:Hlv; cbn [negb orb]; [|exists (-1), s; by split_and!; [..|left]].
  destruct (nz (a &&& 0xFFF)) eqn:Hal; [exists (-1), s; by split_and!; [..|left]|]. apply nz_true in Hlv.
  assert (live s i) as Hlive by (split; [unfold is_space; lia|done]). destruct Hlive as [Hsp Hl].
  rewrite find_pte_spec. case_decide as Hd; [|exists (-1), s; by split_and!; [..|left]].
  destruct Hd as (_ & Ha & Hpt). destruct (vpn_slot i a Hsp Ha) as [Hs Hv256].
  set (v := vpn a) in *. set (e := read64 (memory s) (pte_addr s i v)).
  destruct ((e &&& VM64_PAGE_PRESENT =? 0) || (e &&& PAGE_OWNED =? 0)) eqn:Hc; [exists (-1), s; by split_and!; [..|left]|].
  apply orb_false_iff in Hc as [Hp Ho].
  assert (pte_present e = true) as Hp' by (rewrite <- (flag_test e 0) by done; unfold nz; change (2 ^ 0) with VM64_PAGE_PRESENT; by rewrite Hp).
  assert (pte_owned e = true) as Ho' by (rewrite <- (flag_test e 9) by done; unfold nz; change (2 ^ 9) with PAGE_OWNED; by rewrite Ho).
  assert (pte_at s i v = e) as He by (rewrite <- read_pte by done; by apply norm_id).
  assert (pte_present (pte_at s i v) = true) as Hp2 by (by rewrite He).
  assert (pte_owned (pte_at s i v) = true) as Ho2 by (by rewrite He).
  destruct (store_pte_inv D R P l s i v 0 Hi Hs Hpt) as [Hi1 Hst]; [by unfold is_u64|done| |].
  { split; [done|done|]. intros m H1 H2 H3 H4. exfalso. by eapply (no_mapping R P l s i v (i_core _ _ _ _ _ Hi) Hs); [right|..]. }
  set (s1 := store _ 0 s) in *. pose proof (stored_kept _ _ _ _ _ _ _ _ _ Hi Hst) as Hk1.
  destruct (owned_page _ _ _ _ _ i v Hi Hs Hp2 Ho2) as (Hpb & _ & _). rewrite He in Hpb.
  destruct (masked_page e) as [-> _]. set (p := phys_page e) in *.
  assert (own1 (pte_at s i v) p = 1) as Hown by (apply own1_true; by rewrite He).
  assert (forall q, own1 0 q = 0) as Hz by (intros q; apply own1_false; by left).
  pose proof (c_loose _ _ _ _ (i_core _ _ _ _ _ Hi)) as Hlo.
  destruct (free_page_inv _ _ _ _ s1 p Hi1) as (s2 & Hf & Ht2 & Hi2 & Hr2 & Hpte2 & Hm2); [|done|].
  { rewrite Hown, Hz. pose proof (Hlo p). lia. }
  rewrite Hf. cbn [mbind option_bind]. destruct (user_pte_index a Ha) as [Hidx _]. rewrite Hidx. fold v.
  pose proof (tables_spaces _ _ (ps_tables _ _ _ _ _ Hst)) as Hsp1. pose proof (tables_spaces _ _ Ht2) as Hsp2.
  assert (live s2 i) as Hlive2 by (split; [done|]; by rewrite (ss_root _ _ Hsp2), (ss_root _ _ Hsp1)).
  destruct (release_empty_pt_inv _ _ _ _ s2 i (v / 512) Hi2 Hlive2) as (s3 & Hre & Hi3 & Hq3); [destruct Hs; dmlia|].
  rewrite Hre. cbn [mbind option_bind]. exists 0, s3. split; [done|]. split.
  - eapply inv_loose_ext; [|exact Hi3]. intros q. unfold upd. destruct (Z.eqb_spec q p) as [->|].
    + rewrite Hown, Hz. lia.
    + rewrite Hz, own1_false; [lia|]. right. right. rewrite He. done.
  - right. split_and!; try done.
    + rewrite (qt_pte _ _ _ Hq3), Hpte2, (ps_pte _ _ _ _ _ Hst), !Z.eqb_refl by done. done.
    + eapply kept_trans; [exact Hk1|]. eapply kept_trans; [by apply unchanged_kept|]. by eapply quiet_kept.
    + etrans; [exact Hsp1|]. etrans; [exact Hsp2|]. by eapply stepped_spaces.
Qed.

(** ** Copy on write *)

Definition cow_flags (old : Z) : Z := Z.ldiff (Z.ldiff old VM64_PHYS_MASK) VM64_PAGE_COW ||| VM64_PAGE_WRITE.

Lemma cow_flags_ok old :
  is_u64 old ->
  is_u64 (cow_flags old) /\ cow_flags old &&& VM64_PHYS_MASK = 0 /\
  forall n, 0 <= n < 12 \/ 52 <= n ->
    Z.testbit (cow_flags old) n = (Z.testbit old n && negb (10 =? n)) || (1 =? n).
Proof.
  intros Ho. unfold cow_flags. split_and!.
  - apply lor_u64; [by do 2 apply ldiff_u64|by unfold is_u64].
  - apply mask_lor; [apply mask_ldiff, ldiff_mask|done].
  - intros n Hn. rewrite Z.lor_spec, !Z.ldiff_spec, mask_bits by lia. change VM64_PAGE_COW with (2 ^ 10).
    change VM64_PAGE_WRITE with (2 ^ 1). rewrite !pow2_bit by done.
    destruct (Z.leb_spec 12 n), (Z.ltb_spec n 52); cbn [andb negb]; rewrite ?andb_true_r; (done || lia).
Qed.

(** What breaking a shared page does. *)
Record broken s s' (i v : Z) : Prop := {
  br_was : pte_present (pte_at s i v) = true /\ pte_owned (pte_at s i v) = true /\ pte_cow (pte_at s i v) = true;
  br_now : pte_present (pte_at s' i v) = true /\ pte_owned (pte_at s' i v) = true /\
    pte_writable (pte_at s' i v) = true /\ pte_cow (pte_at s' i v) = false;
  br_rights : pte_user (pte_at s' i v) = pte_user (pte_at s i v) /\
    pte_no_execute (pte_at s' i v) = pte_no_execute (pte_at s i v);
  br_content o : 0 <= o < 4096 ->
    memory s' (4096 * phys_page (pte_at s' i v) + o) = memory s (4096 * phys_page (pte_at s i v) + o);
  br_kept : kept (fun j u => j = i /\ u = v) s s';
  br_spaces : same_spaces s s'
}.

Lemma broken_entry s s' i v p old :
  pte_at s i v = old -> is_u64 old -> pte_present old = true -> pte_owned old = true -> pte_cow old = true ->
  0 <= p < 2 ^ 40 -> pte_at s' i v = 4096 * p ||| cow_flags old ->
  (forall o, 0 <= o < 4096 -> memory s' (4096 * p + o) = memory s (4096 * phys_page old + o)) ->
  kept (fun j u => j = i /\ u = v) s s' -> same_spaces s s' -> broken s s' i v.
Proof.
  intros He Hold H1 H2 H3 Hp He' Hm Hk Hs. destruct (cow_flags_ok old Hold) as (F1 & F2 & F3).
  split; try done; rewrite ?He, ?He'.
  - done.
  - rewrite !build_bits, !F3 by lia. rewrite H1, H2, H3. cbn. rewrite orb_true_r. done.
  - rewrite !build_bits, !F3 by lia. cbn. by rewrite !andb_true_r, !orb_false_r.
  - rewrite build_phys by done. done.
Qed.

Lemma own1_owned e x : pte_present e = true -> pte_owned e = true -> own1 e x = Z.b2z (x =? phys_page e).
Proof. intros H1 H2. unfold own1. by rewrite H1, H2, (Z.eqb_sym x). Qed.

(** The entry of [e] without sharing, for the page [p]. *)
Lemma cow_entry e p :
  is_u64 e -> pte_present e = true -> pte_owned e = true -> 0 <= p < 2 ^ 40 ->
  let e' := 4096 * p ||| cow_flags e in
  is_u64 e' /\ norm e' = e' /\ phys_page e' = p /\ pte_present e' = true /\ pte_owned e' = true.
Proof.
  intros Hu H1 H2 Hp e'. destruct (cow_flags_ok e Hu) as (F1 & F2 & F3).
  assert (pte_present e' = true) as Hp1 by (unfold e'; rewrite build_bits, F3, H1 by lia; done).
  split_and!; [by apply flags_u64|by apply norm_id|by apply build_phys|done|].
  unfold e'. rewrite build_bits, F3, H2 by lia. done.
Qed.

(** The entry of a slot is a word. *)
Lemma pte_u64 D R P l s i v : inv D R P l s -> is_u64 (pte_at s i v).
Proof.
  intros Hi. unfold pte_at, norm. destruct (_ =? 0); [done|]. destruct (pte_present _); [|done].
  apply read64_u64, (i_bytes _ _ _ _ _ Hi).
Qed.

(** An absent or owned entry may be replaced by an owned one for which there
    is a loose reference. *)
Lemma owned_fits D R P l s i v e :
  inv D R P l s -> is_slot i v -> pte_present (pte_at s i v) = false \/ pte_owned (pte_at s i v) = true ->
  pte_owned e = true -> 0 < phys_page e < Pmm.BITMAP_BITS ->
  0 < l (phys_page e) + own1 (pte_at s i v) (phys_page e) ->
  ~ is_table (abs_of s) (phys_page e) -> held (rest s) (phys_page e) = 0 ->
  (pte_writable e = true -> Pmm.page_refs (mm s) (phys_page e) = 1) ->
  pte_fits R P l (abs_of s) i v e.
Proof.
  intros Hi Hs H1 He Hp Hl Ht Hh Hr. split.
  - intros _ _. split; [done|]. by split_and!.
  - intros _ ?. congruence.
  - intros m Hm1 Hm2 Hm3 Hm4. exfalso.
    eapply (no_mapping R P l s i v (i_core _ _ _ _ _ Hi) Hs); done.
Qed.

(** The two ways a shared page is broken: the last owner takes it over, any
    other one gets a copy. *)
Lemma take_over_inv D R P l s i v e :
  inv D R P l s -> is_slot i v -> pte_at s i v = e -> pte_present e = true -> pte_owned e = true -> pte_cow e = true ->
  Pmm.page_refs (mm s) (phys_page e) = 1 ->
  let s' := store (pte_addr s i v) (4096 * phys_page e ||| cow_flags e) s in
  inv D R P l s' /\ broken s s' i v.
Proof.
  intros Hi Hs He H1 H2 H3 Hr s'. assert (is_u64 e) as Hu by (rewrite <- He; by eapply pte_u64). rewrite <- He in H1, H2.
  destruct (owned_page _ _ _ _ _ i v Hi Hs H1 H2) as (Hpb & _ & Hnt & Hh & _ & _). rewrite He in *.
  pose proof (page_small (phys_page e) ltac:(lia)).
  destruct (cow_entry e (phys_page e) Hu H1 H2 ltac:(lia)) as (E1 & E2 & E3 & E4 & E5).
  set (e' := 4096 * phys_page e ||| cow_flags e) in *.
  assert (forall q, own1 e' q = own1 e q) as Hown by (intros q; by rewrite !own1_owned, E3).
  destruct (store_pte_inv D R P l s i v e' Hi Hs) as [Hi' Hst]; [by apply pte_at_table; rewrite He|done|done| |].
  { apply (owned_fits D); rewrite ?He, ?E3; try done; [by right|]. rewrite own1_owned, Z.eqb_refl by done. simpl.
    pose proof (c_loose _ _ _ _ (i_core _ _ _ _ _ Hi) (phys_page e)). lia. }
  split.
  - eapply inv_loose_ext; [|exact Hi']. intros q. simpl. rewrite He, Hown. lia.
  - apply (broken_entry s s' i v (phys_page e) e); try done; try lia.
    + by rewrite (ps_pte _ _ _ _ _ Hst), !Z.eqb_refl.
    + intros o Ho. apply (ps_memory _ _ _ _ _ Hst).
      replace ((4096 * phys_page e + o) / 4096) with (phys_page e) by dmlia. done.
    + by eapply stored_kept.
Qed.

(** A copy of a page in a fresh one. *)
Lemma copy_page_page p p' m b :
  (forall b, is_u8 (m b)) -> p <> p' ->
  copy_page (4096 * p') (4096 * p) m b = if b / 4096 =? p' then m (4096 * p + b mod 4096) else m b.
Proof.
  intros Hm Hne. rewrite copy_page_bytes by (done || lia).
  destruct (Z.leb_spec (4096 * p') b), (Z.ltb_spec b (4096 * p' + 4096)), (Z.eqb_spec (b / 4096) p'); cbn [andb];
    try done; try (exfalso; dmlia). f_equal. dmlia.
Qed.

(** Writing into a page that is not a table. *)
Lemma page_written_inv D R P l s m p' :
  inv D R P l s -> ~ is_table (abs_of s) p' -> (forall b, is_u8 (m b)) ->
  (forall b, b / 4096 <> p' -> m b = memory s b) ->
  inv D R P l (set_memory m s) /\ forall i v, is_slot i v -> pte_at (set_memory m s) i v = pte_at s i v.
Proof.
  intros Hi Hnt Hb Hm. apply set_memory_inv; [done..|]. intros q b Hq Hbq. apply Hm. intros He. apply Hnt. by rewrite <- He, Hbq.
Qed.

(** A fresh page with the contents of [p]. *)
Record duplicated D R P l s (p p' : Z) s' : Prop := {
  du_inv : inv D R P (upd l p' 1) s';
  du_range : 0 < p' < Pmm.BITMAP_BITS;
  du_fresh : Pmm.page_refs (mm s) p' = 0 /\ Pmm.page_refs (mm s') p' = 1;
  du_device : ~ device p';
  du_tables : same_tables s s';
  du_pte i v : is_slot i v -> pte_at s' i v = pte_at s i v;
  du_memory b : b / 4096 <> p' -> memory s' b = memory s b;
  du_content o : 0 <= o < 4096 -> memory s' (4096 * p' + o) = memory s (4096 * p + o)
}.

Lemma duplicate_page D R P l s p a s1 :
  inv D R P l s -> Pmm.page_refs (mm s) p <> 0 -> alloc_page s = (a, s1) -> a <> 0 ->
  exists p', a = 4096 * p' /\ p' <> p /\
    duplicated D R P l s p p' (set_memory (copy_page a (4096 * p) (memory s1)) s1).
Proof.
  intros Hi Hp Hal Ha.
  destruct (alloc_page_inv _ _ _ _ _ _ _ Hi Hal) as [Ht1 [[? _]|(q & -> & Hqb & [Hr0 Hnd] & Hi1 & Hr1 & Hpte1 & Hm1)]]; [done|].
  exists q. split; [done|]. assert (q <> p) as Hne by (intros ->; done). split; [done|].
  destruct (loose_not_table _ _ _ _ q (i_core _ _ _ _ _ Hi1)) as [Hnt1 _]; [by rewrite upd_eq|].
  pose proof (i_bytes _ _ _ _ _ Hi1) as Hb1. pose proof (fun b => copy_page_page p q (memory s1) b Hb1 (not_eq_sym Hne)) as Hm.
  set (m := copy_page _ _ (memory s1)) in *. clearbody m.
  destruct (page_written_inv D R P _ s1 m q Hi1 Hnt1) as [Hi2 Hpte2].
  { intros b. rewrite Hm. by destruct (_ =? _). } { intros b Hb. by rewrite Hm, (proj2 (Z.eqb_neq _ _) Hb). }
  split.
  - exact Hi2.
  - done.
  - split; [done|]. simpl. by rewrite Hr1, Z.eqb_refl.
  - done.
  - etrans; [exact Ht1|done].
  - intros i v Hs. by rewrite Hpte2, Hpte1.
  - intros b Hb. change (memory (set_memory m s1) b) with (m b).
    by rewrite Hm, (proj2 (Z.eqb_neq _ _) Hb), Hm1, (proj2 (Z.eqb_neq _ _) Hb).
  - intros o Ho. change (memory (set_memory m s1) ?b) with (m b). rewrite Hm.
    replace ((4096 * q + o) / 4096) with q by dmlia. replace ((4096 * q + o) mod 4096) with o by dmlia.
    rewrite Z.eqb_refl, Hm1. replace ((4096 * p + o) / 4096) with p by dmlia. by rewrite (proj2 (Z.eqb_neq p q)).
Qed.

(** The entry [e] of a slot is replaced by one that owns the fresh page. *)
Lemma swap_page_inv D R P l s i v e p' s2 :
  inv D R P l s -> is_slot i v -> pte_at s i v = e -> pte_present e = true -> pte_owned e = true -> pte_cow e = true ->
  duplicated D R P l s (phys_page e) p' s2 ->
  exists s4, free_page (4096 * phys_page e) (store (pte_addr s i v) (4096 * p' ||| cow_flags e) s2) = Some s4 /\
    inv D R P l s4 /\ broken s s4 i v.
Proof.
  intros Hi Hs He H1 H2 H3 [Hi2 Hqb [Hr0 Hr2] Hdev Ht2 Hpte2 Hm2 Hc2].
  assert (is_u64 e) as Hu by (rewrite <- He; by eapply pte_u64). rewrite <- He in H1, H2.
  pose proof (pte_at_table s i v H1) as Hpt.
  destruct (owned_page _ _ _ _ _ i v Hi Hs H1 H2) as (Hpb & _ & _ & _ & _ & Hrp). rewrite He in *.
  set (p := phys_page e) in *. assert (p <> p') as Hne by (intros Hpp; rewrite Hpp in *; lia).
  pose proof (page_small p' ltac:(lia)).
  destruct (cow_entry e p' Hu H1 H2 ltac:(lia)) as (E1 & E2 & E3 & E4 & E5).
  destruct (loose_not_table _ _ _ _ p' (i_core _ _ _ _ _ Hi2)) as [Hnt2 Hh2]; [by rewrite upd_eq|].
  set (e' := 4096 * p' ||| cow_flags e) in *.
  assert (pte_at s2 i v = e) as He2 by (by rewrite Hpte2).
  pose proof (fun x => own1_owned e' x E4 E5) as Ho1. pose proof (fun x => own1_owned e x H1 H2) as Ho2.
  rewrite E3 in Ho1. fold p in Ho2.
  assert (pte_addr s i v = pte_addr s2 i v) as -> by (unfold pte_addr; by rewrite <- (st_spaces _ _ Ht2)).
  destruct (store_pte_inv D R P _ s2 i v e' Hi2 Hs) as [Hi3 Hst]; [by rewrite (st_spaces _ _ Ht2)|done|done| |].
  { apply (owned_fits D); rewrite ?He2, ?E3, ?upd_eq, ?Ho2, ?(proj2 (Z.eqb_neq p' p)) by done; try done. by right. }
  set (s3 := store _ e' s2) in *. rewrite He2 in Hi3.
  destruct (free_page_unused _ _ _ _ _ (i_core _ _ _ _ _ Hi) Hr0) as (_ & _ & _ & Hl0).
  pose proof (c_loose _ _ _ _ (i_core _ _ _ _ _ Hi) p).
  destruct (free_page_inv _ _ _ _ s3 p Hi3) as (s4 & Hf & Ht4 & Hi4 & _ & Hpte4 & Hm4); [|done|].
  { rewrite Ho1, Ho2, Z.eqb_refl, upd_ne, (proj2 (Z.eqb_neq p p')) by done. simpl. lia. }
  exists s4. split; [done|]. split.
  { eapply inv_loose_ext; [|exact Hi4]. intros x. unfold upd. rewrite !Ho1, !Ho2.
    destruct (Z.eqb_spec x p) as [Hx|Hx], (Z.eqb_spec x p') as [Hx'|Hx']; try congruence;
      rewrite ?Hx', ?Hx, ?Z.eqb_refl, ?(proj2 (Z.eqb_neq p p') Hne); cbn [Z.b2z]; lia. }
  apply (broken_entry s s4 i v p' e); try done; try lia.
  - by rewrite Hpte4, (ps_pte _ _ _ _ _ Hst), !Z.eqb_refl.
  - intros o Ho. rewrite Hm4, (ps_memory _ _ _ _ _ Hst), Hc2; [done|done|].
    replace ((4096 * p' + o) / 4096) with p' by dmlia. done.
  - apply (kept_trans _ s s2); [|apply (kept_trans _ s2 s3); [by eapply stored_kept|by apply unchanged_kept]]. split; [auto|].
    intros j u b Hju _ Hpj Hbj. apply Hm2. intros Hx.
    pose proof (present_leaf _ _ _ _ _ _ _ Hi Hju Hpj) as [Hlf _]. rewrite <- Hbj, Hx in Hlf. tauto.
  - etrans; [apply tables_spaces, Ht2|]. etrans; [apply tables_spaces, (ps_tables _ _ _ _ _ Hst)|]. by apply tables_spaces.
Qed.

Lemma page_refs_page p (s : Pmm.pmm) : 0 <= p < Pmm.BITMAP_BITS -> Pmm.pmm_page_refs (4096 * p) s = Pmm.page_refs s p.
Proof.
  intros Hp. unfold Pmm.pmm_page_refs. change Pmm.PAGE_SIZE with 4096. rewrite page_mul.
  destruct (Z.leb_spec Pmm.BITMAP_BITS p); [lia|done].
Qed.

(** A write fault on a shared page gives the space a page of its own with the
    same contents; any other fault is refused and changes nothing. *)
Lemma vm64_handle_cow_inv D R P l s i a :
  inv D R P l s -> 0 <= i ->
  exists r s', vm64_handle_cow i a s = Some (r, s') /\ inv D R P l s' /\
    ((r <> 0 /\ s' = s) \/ (r = 0 /\ live s i /\ user_addr a /\ broken s s' i (vpn a))).
Proof.
  intros Hi Hi0. unfold vm64_handle_cow.
  destruct (Z.leb_spec VM64_MAX_SPACES i); [exists (-1), s; by split_and!; [..|left]|].
  destruct (nz (pml4 (spaces s i))) eqn:Hlv; cbn [negb orb]; [|exists (-1), s; by split_and!; [..|left]].
  rewrite find_pte_spec. case_decide as Hd; [|exists (-1), s; by split_and!; [..|left]].
  destruct Hd as (Hl & Ha & Hpt). assert (is_space i) as Hsp by (unfold is_space; lia).
  destruct (vpn_slot i a Hsp Ha) as [Hs _]. set (v := vpn a) in *. set (e := read64 (memory s) (pte_addr s i v)).
  destruct (e &&& _ =? _) eqn:Hm; cbn [negb]; [|exists (-1), s; by split_and!; [..|left]]. rewrite mask_test in Hm.
  assert (pte_present e = true) as Hp by (by apply Hm). assert (pte_owned e = true) as Ho by (by apply Hm).
  assert (pte_cow e = true) as Hc by (by apply Hm). clear Hm.
  assert (pte_at s i v = e) as He by (rewrite <- read_pte by done; by apply norm_id).
  pose proof (owned_page _ _ _ _ _ i v Hi Hs) as Hown. rewrite He in Hown. destruct (Hown Hp Ho) as (Hpb & _).
  destruct (masked_page e) as [-> _]. rewrite page_refs_page by lia. fold (cow_flags e).
  destruct (nz (Pmm.page_refs _ _)) eqn:Hr; cbn [negb]; [|exists (-1), s; by split_and!; [..|left]]. apply nz_true in Hr.
  destruct (Z.eqb_spec (Pmm.page_refs (mm s) (phys_page e)) 1) as [Hr1|Hr1].
  { destruct (take_over_inv D R P l s i v e) as [Hi' Hb]; try done. eexists _, _. split; [done|]. split; [done|]. right. done. }
  unfold vm64_alloc_page. destruct (alloc_page s) as [f s1] eqn:Hal.
  destruct (nz f) eqn:Hf; cbn [negb].
  - apply nz_true in Hf. destruct (duplicate_page D R P l s _ f s1 Hi Hr Hal Hf) as (p' & -> & _ & Hdup).
    set (s2 := set_memory _ s1) in *.
    destruct (swap_page_inv D R P l s i v e p' s2) as (s4 & Hfr & Hi4 & Hb4); try done. rewrite Hfr. cbn [mbind option_bind].
    eexists _, _. split; [done|]. split; [done|]. right. done.
  - destruct (alloc_page_inv _ _ _ _ _ _ _ Hi Hal) as [_ [[_ ->]|(p' & -> & Hp' & _)]]; [exists (-1), s; by split_and!; [..|left]|].
    exfalso. assert (4096 * p' <> 0) as Hnz by lia. apply nz_true in Hnz. congruence.
Qed.

End User.
End VmUser.
