(* ===== verification/VmAccess.v ===== *)
(** * Access to user memory

    [vm64_user_access] checks a range of user addresses and breaks the sharing
    of the pages that are to be written; [vm64_copy_from] and [vm64_copy_to]
    move bytes between the kernel and such a range.  The view of a user, the
    bytes and the rights behind each address, is what these functions
    preserve or change exactly as asked. *)

From stdpp Require Import gmap.
From S2P Require Import Prelude Pmm Vm VmInv VmOps VmUser.

Open Scope Z_scope.

Module VmAccess.
Import Vm VmInv VmOps VmUser.

Section Access.
Context {W : Type} {VM : VmModules W} {VO : VmObjects W} {VL : VmLaws W}.
Implicit Types (s : vm W).

(** ** The view of a user *)

(** The physical address behind a user address. *)
Definition translate s (i a : Z) : Z := 4096 * phys_page (pte_at s i (vpn a)) + a mod 4096.

(** The user may read, and write, the address now. *)
Definition accessible s (i a : Z) (write : bool) : Prop :=
  pte_present (pte_at s i (vpn a)) = true /\ pte_user (pte_at s i (vpn a)) = true /\
  (write = true -> pte_writable (pte_at s i (vpn a)) = true).

(** The user may write the page, at once or after its own copy is made. *)
Definition grants (e : Z) : bool := pte_writable e || pte_cow e.

(** Whatever a user can see stays; pages may stop being shared. *)
Record same_view s s' : Prop := {
  sv_spaces : same_spaces s s';
  sv_rights j u : is_slot j u ->
    pte_present (pte_at s' j u) = pte_present (pte_at s j u) /\ pte_user (pte_at s' j u) = pte_user (pte_at s j u) /\
    pte_no_execute (pte_at s' j u) = pte_no_execute (pte_at s j u) /\
    (pte_present (pte_at s j u) = true -> pte_owned (pte_at s' j u) = pte_owned (pte_at s j u));
  sv_writable j u : is_slot j u -> pte_writable (pte_at s j u) = true -> pte_writable (pte_at s' j u) = true;
  sv_grants j u : is_slot j u -> grants (pte_at s' j u) = grants (pte_at s j u);
  sv_content j u o : is_slot j u -> pte_present (pte_at s j u) = true -> 0 <= o < 4096 ->
    memory s' (4096 * phys_page (pte_at s' j u) + o) = memory s (4096 * phys_page (pte_at s j u) + o)
}.

#[global] Instance same_view_preorder : PreOrder same_view.
Proof.
  split; [by split|]. intros x y z [A1 A2 A3 A5 A4] [B1 B2 B3 B5 B4]. split.
  - by etrans.
  - intros j u Hs. destruct (A2 j u Hs) as (P1 & U1 & X1 & O1), (B2 j u Hs) as (P2 & U2 & X2 & O2).
    split_and!; [congruence..|]. intros Hp. rewrite O2, O1; congruence.
  - auto.
  - intros j u Hs. by rewrite B5, A5.
  - intros j u o Hs Hp Ho. rewrite B4, A4; try done. by rewrite (proj1 (A2 j u Hs)).
Qed.

Lemma broken_view s s' i v : broken s s' i v -> same_view s s'.
Proof.
  intros [[W1 [W2 W3]] (N1 & N2 & N3 & N4) [R1 R2] Hc [K1 K2] Hsp].
  assert (forall j u, is_slot j u -> (j = i /\ u = v) \/ (pte_at s' j u = pte_at s j u /\
    (forall b, pte_present (pte_at s j u) = true -> b / 4096 = phys_page (pte_at s j u) -> memory s' b = memory s b))) as Hcase.
  { intros j u Hs. destruct (decide (j = i /\ u = v)) as [?|Hn]; [by left|right]. split; [by apply K1|]. intros b. by apply K2. }
  split; [done|..].
  - intros j u Hs. destruct (Hcase j u Hs) as [[-> ->]|[-> _]]; [|done]. rewrite N1, N2, W1, W2, R1, R2. done.
  - intros j u Hs. destruct (Hcase j u Hs) as [[-> ->]|[-> _]]; done.
  - intros j u Hs. destruct (Hcase j u Hs) as [[-> ->]|[-> _]]; [|done]. unfold grants. by rewrite N3, W3, orb_true_r.
  - intros j u o Hs Hp Ho. destruct (Hcase j u Hs) as [[-> ->]|[-> Hm]]; [by apply Hc|].
    apply Hm; [done|]. dmlia.
Qed.

Lemma accessible_view s s' i a w :
  is_space i -> user_addr a -> same_view s s' -> accessible s i a w -> accessible s' i a w.
Proof.
  intros Hi Ha Hv (H1 & H2 & H3). destruct (vpn_slot i a Hi Ha) as [Hs _].
  destruct (sv_rights _ _ Hv _ _ Hs) as (R1 & R2 & _). split_and!; [congruence|congruence|].
  intros Hw. apply (sv_writable _ _ Hv _ _ Hs), H3, Hw.
Qed.

Lemma accessible_page s i a b w : vpn a = vpn b -> accessible s i a w -> accessible s i b w.
Proof. unfold accessible. by intros ->. Qed.

(** ** Checking a range *)

(** The iterations left of a transfer that has moved [done] bytes. *)
Definition pages_left (address length done : Z) : Z :=
  if done <? length then (address + length - 1) / 4096 - (address + done) / 4096 + 1 else 0.

Lemma offset_mod a : a &&& 0xFFF = a mod 4096.
Proof. apply (Z.land_ones a 12). lia. Qed.

(** A piece ends with the transfer or with the page. *)
Lemma piece_spec address length d :
  d < length ->
  0 < piece (address + d) (length - d) <= length - d /\
  (address + d) mod 4096 + piece (address + d) (length - d) <= 4096 /\
  pages_left address length (d + piece (address + d) (length - d)) < pages_left address length d.
Proof.
  intros Hd. unfold piece. rewrite offset_mod. pose proof (Z.mod_pos_bound (address + d) 4096).
  destruct (Z.ltb_spec (length - d) (4096 - (address + d) mod 4096)).
  - split_and!; [lia..|]. unfold pages_left. rewrite (proj2 (Z.ltb_lt _ _) Hd).
    destruct (Z.ltb_spec (d + (length - d)) length); [lia|]. dmlia.
  - split_and!; [lia..|]. unfold pages_left. rewrite (proj2 (Z.ltb_lt _ _) Hd).
    destruct (Z.ltb_spec (d + (4096 - (address + d) mod 4096)) length); dmlia.
Qed.

Lemma transfer_fuel_enough address length : 0 <= length -> pages_left address length 0 <= Z.of_nat (transfer_fuel length).
Proof. intros Hl. unfold pages_left, transfer_fuel. destruct (0 <? length) eqn:H0; dmlia. Qed.

(** The addresses of a piece lie in one page. *)
Lemma piece_vpn address length d a :
  VM64_USER_BASE <= address + d -> d < length -> address + d <= a < address + d + piece (address + d) (length - d) ->
  vpn a = vpn (address + d).
Proof.
  intros Hb Hd Ha. destruct (piece_spec address length d Hd) as (_ & Hp & _). unfold vpn.
  change VM64_USER_BASE with (4096 * 0x100000) in *. dmlia.
Qed.

(** What is read through [find_pte] agrees with the slot. *)
Lemma find_pte_entry s i a :
  match find_pte i a s with
  | Some pte => norm (read64 (memory s) pte) = pte_at s i (vpn a) /\ pml4 (spaces s i) <> 0
  | None => pml4 (spaces s i) <> 0 -> user_addr a -> pte_at s i (vpn a) = 0
  end.
Proof.
  rewrite find_pte_spec. case_decide as Hd.
  - split; [apply read_pte; tauto|tauto].
  - intros Hl Ha. unfold pte_at. destruct (Z.eqb_spec (user_pts (spaces s i) (vpn a / 512)) 0); [done|]. tauto.
Qed.

Lemma access_page_inv D R P l s i a w :
  inv D R P l s -> live s i -> user_addr a ->
  exists ok s', access_page i a w s = Some (ok, s') /\ inv D R P l s' /\ same_view s s' /\
    (ok = true <-> accessible s' i a w).
Proof.
  intros Hi [Hsp Hl] Ha. unfold access_page. pose proof (find_pte_entry s i a) as He.
  destruct (find_pte i a s) as [pte|] eqn:Hf.
  2:{ exists false, s. split_and!; [done..|]. split; [done|]. intros (Hp & _). by rewrite He in Hp. }
  destruct He as [He _]. set (e := read64 (memory s) pte) in *.
  change (VM64_PAGE_PRESENT ||| VM64_PAGE_USER) with (2 ^ 0 ||| 2 ^ 2). rewrite mask_test2 by done.
  destruct (pte_present e && pte_user e) eqn:Hpu; cbn [negb].
  2:{ exists false, s. split_and!; [done..|]. split; [done|]. unfold accessible. rewrite <- He, norm_present. intros (Hp & Hu & _).
      rewrite norm_id in Hu by done. by rewrite Hp, Hu in Hpu. }
  apply andb_true_iff in Hpu as [Hp Hu]. rewrite norm_id in He by done.
  change VM64_PAGE_WRITE with (2 ^ 1). change VM64_PAGE_COW with (2 ^ 10). rewrite !flag_test by done.
  destruct (w && negb (pte_writable e)) eqn:Hw.
  2:{ exists true, s. split_and!; [done..|]. split; [|done]. intros _. unfold accessible. rewrite <- He. split_and!; [done..|].
      intros ->. by destruct (pte_writable e). }
  apply andb_true_iff in Hw as [-> Hw]. apply negb_true_iff in Hw.
  assert (~ accessible s i a true) as Hno by (intros (_ & _ & Hx); rewrite <- He, Hw in Hx; specialize (Hx eq_refl); done).
  destruct (pte_cow e); cbn [negb]; [|exists false, s; by split_and!].
  destruct (vm64_handle_cow_inv D R P l s i a Hi ltac:(unfold is_space in Hsp; lia)) as (r & s' & -> & Hi' & Hcase).
  cbn [mbind option_bind]. destruct Hcase as [[Hr ->]|(-> & _ & _ & Hb)].
  { apply nz_true in Hr. rewrite Hr. exists false, s. by split_and!. }
  cbn [nz Z.eqb negb]. pose proof (br_now _ _ _ _ Hb) as (N1 & N2 & N3 & _). pose proof (br_rights _ _ _ _ Hb) as [R1 _].
  pose proof (find_pte_entry s' i a) as He'. pose proof (ss_root _ _ (br_spaces _ _ _ _ Hb) i) as Hroot.
  eexists _, s'. split; [done|]. split; [done|]. split; [by eapply broken_view|].
  destruct (find_pte i a s') as [pte'|].
  - destruct He' as [He' _]. rewrite <- He', norm_present in N1. rewrite norm_id in He' by done.
    rewrite flag_test, He' by done. split; [|done]. intros _. unfold accessible. rewrite <- He', N1, He', R1, <- He. done.
  - rewrite He' in N1 by congruence. done.
Qed.

Lemma access_loop_inv D R P l fuel s i address length w d :
  inv D R P l s -> live s i -> VM64_USER_BASE <= address -> address + length <= VM64_USER_LIMIT -> 0 <= d ->
  pages_left address length d <= Z.of_nat fuel ->
  exists r s', access_loop fuel i address length w d s = Some (r, s') /\ inv D R P l s' /\ same_view s s' /\
    (r = 0 /\ (forall a, address + d <= a < address + length -> accessible s' i a w) \/
     r = -1 /\ exists a, address + d <= a < address + length /\ ~ accessible s' i a w).
Proof.
  intros Hi Hlv Hb Hlim. revert s d Hi Hlv. induction fuel as [|fuel IH]; intros s d Hi Hlv Hd Hfuel; cbn [access_loop].
  all: destruct (Z.ltb_spec d length) as [Hdl|Hdl]; cbn [negb];
    [|exists 0, s; split_and!; try done; left; split; [done|]; intros; lia].
  { unfold pages_left in Hfuel. rewrite (proj2 (Z.ltb_lt _ _) Hdl) in Hfuel. exfalso. dmlia. }
  destruct (piece_spec address length d Hdl) as (Hp1 & Hp2 & Hp3).
  assert (user_addr (address + d)) as Ha by (unfold user_addr; lia).
  destruct (access_page_inv D R P l s i (address + d) w Hi Hlv Ha) as (ok & s1 & -> & Hi1 & Hv1 & Hok).
  cbn [mbind option_bind]. destruct ok; cbn [negb].
  2:{ exists (-1), s1. split_and!; [done..|]. right. split; [done|]. exists (address + d). split; [lia|].
      intros Hx. apply Hok in Hx. done. }
  assert (live s1 i) as Hlv1 by (destruct Hlv; split; [done|by rewrite (ss_root _ _ (sv_spaces _ _ Hv1))]).
  destruct (IH s1 (d + piece (address + d) (length - d)) Hi1 Hlv1 ltac:(lia) ltac:(lia)) as (r & s' & -> & Hi' & Hv' & Hc).
  exists r, s'. split; [done|]. split; [done|]. split; [by etrans|]. destruct Hc as [[-> Hall]|(-> & a & Har & Hna)].
  - left. split; [done|]. intros a Har.
    destruct (Z.le_gt_cases (address + (d + piece (address + d) (length - d))) a); [apply Hall; lia|].
    apply (accessible_page _ _ (address + d)); [symmetry; apply (piece_vpn address length); lia|].
    apply (accessible_view s1); [apply Hlv|done|done|by apply Hok].
  - right. split; [done|]. exists a. split; [lia|done].
Qed.

(** The space of a root. *)
Lemma space_from_root_spec D R P l s root :
  inv D R P l s ->
  match space_from_root root s with
  | Some i => live s i /\ pml4 (spaces s i) = root
  | None => forall i, live s i -> pml4 (spaces s i) <> root
  end.
Proof.
  intros Hi. unfold space_from_root. destruct (Z.eqb_spec root 0) as [->|Hr].
  { intros i [_ Hl]. done. }
  unfold nz. rewrite (proj2 (Z.eqb_neq _ _) Hr). cbn [negb]. destruct (scan_range _ _ _) as [i|] eqn:Hsc.
  - apply scan_range_Some in Hsc as (Hr1 & Hr2 & _). apply Z.eqb_eq in Hr2. split; [|done]. split; [done|congruence].
  - rewrite scan_range_None in Hsc. intros i [Hsp _] Hx. specialize (Hsc i Hsp). apply Z.eqb_neq in Hsc. done.
Qed.

Lemma vm64_user_access_inv D R P l s root address length w :
  inv D R P l s -> 0 <= length ->
  exists r s', vm64_user_access root address length w s = Some (r, s') /\ inv D R P l s' /\ same_view s s' /\
    match space_from_root root s with
    | Some i => (r = 0 /\ VM64_USER_BASE <= address < VM64_USER_LIMIT /\ address + length <= VM64_USER_LIMIT /\
                  forall a, address <= a < address + length -> accessible s' i a w) \/
                (r = -1 /\ (~ (VM64_USER_BASE <= address < VM64_USER_LIMIT /\ address + length <= VM64_USER_LIMIT) \/
                  exists a, address <= a < address + length /\ ~ accessible s' i a w))
    | None => r = -1
    end.
Proof.
  intros Hi Hlen. unfold vm64_user_access. pose proof (space_from_root_spec D R P l s root Hi) as Hsp.
  destruct (space_from_root root s) as [i|]; [|exists (-1), s; by split_and!].
  destruct Hsp as [Hlv _]. destruct (_ || _) eqn:Hc.
  { exists (-1), s. split_and!; [done..|]. right. split; [done|]. left. rewrite !orb_true_iff, !Z.ltb_lt, Z.leb_le in Hc. lia. }
  rewrite !orb_false_iff, !Z.ltb_ge, Z.leb_gt in Hc.
  destruct (access_loop_inv D R P l (transfer_fuel length) s i address length w 0) as (r & s' & H1 & H2 & H3 & H4);
    try done; try lia; [by apply transfer_fuel_enough|].
  rewrite Z.add_0_r in H4. exists r, s'. split_and!; [done..|].
  destruct H4 as [[-> H4]|[-> H4]]; [left|right]; split_and!; try done; try lia. by right.
Qed.

(** ** Copying *)

Lemma set_memory_id s : set_memory (memory s) s = s.
Proof. by destruct s as [[] ? ? ? ? ? ?]. Qed.

(** The reference for a transfer: byte by byte. *)
Definition write_bytes s (i address length : Z) (buffer : Z -> Z) (d : Z) : Z -> Z :=
  for_range d length (fun k m => upd m (translate s i (address + k)) (buffer k)) (memory s).

Definition read_user s (i address length : Z) (buffer : Z -> Z) (d : Z) : Z -> Z :=
  for_range d length (fun k b => upd b k (memory s (translate s i (address + k)))) buffer.

(** The bytes of a piece follow each other. *)
Lemma piece_translate s i address length d k :
  VM64_USER_BASE <= address -> 0 <= d < length -> 0 <= k < piece (address + d) (length - d) ->
  translate s i (address + (d + k)) =
    4096 * phys_page (pte_at s i (vpn (address + d))) + (address + d) mod 4096 + k.
Proof.
  intros Hb Hd Hk. destruct (piece_spec address length d ltac:(lia)) as (_ & Hp & _). unfold translate.
  rewrite (piece_vpn address length d (address + (d + k))) by lia.
  pose proof (Z.mod_pos_bound (address + d) 4096).
  replace ((address + (d + k)) mod 4096) with ((address + d) mod 4096 + k) by dmlia. lia.
Qed.

(** Bytes written behind accessible addresses leave the tables alone. *)
Lemma write_bytes_inv D R P l s i address length buffer d e :
  inv D R P l s -> live s i -> VM64_USER_BASE <= address -> address + length <= VM64_USER_LIMIT -> 0 <= d -> e <= length ->
  (forall k, is_u8 (buffer k)) ->
  (forall a, address + d <= a < address + length -> accessible s i a true) ->
  let s' := set_memory (write_bytes s i address e buffer d) s in
  inv D R P l s' /\ forall j v, is_slot j v -> pte_at s' j v = pte_at s j v.
Proof.
  intros Hi [Hsp Hl] Hb Hlim Hd He Hbuf Hacc s'.
  enough ((forall b, is_u8 (write_bytes s i address e buffer d b)) /\
    (forall p b, is_table (abs_of s) p -> b / 4096 = p -> write_bytes s i address e buffer d b = memory s b)) as [H1 H2].
  { by apply set_memory_inv. }
  unfold write_bytes. apply (for_range_ind (fun k m => (forall b, is_u8 (m b)) /\
    (forall p b, is_table (abs_of s) p -> b / 4096 = p -> m b = memory s b))); [split; [apply (i_bytes _ _ _ _ _ Hi)|done]|].
  intros k m Hk [Hm1 Hm2]. split.
  - intros b. unfold upd. by destruct (b =? _).
  - intros p b Ht Hbp. rewrite upd_ne; [by eapply Hm2|]. intros ->.
    assert (user_addr (address + k)) as Ha by (unfold user_addr; lia). destruct (vpn_slot i _ Hsp Ha) as [Hs _].
    destruct (Hacc (address + k) ltac:(lia)) as (Hp & _).
    destruct (present_leaf _ _ _ _ _ _ _ Hi Hs Hp) as [_ Hnt]. apply Hnt. unfold translate in Hbp.
    replace (phys_page _) with p; [done|]. dmlia.
Qed.

Lemma translate_frame s s' i a :
  is_space i -> user_addr a -> (forall j v, is_slot j v -> pte_at s' j v = pte_at s j v) -> translate s' i a = translate s i a.
Proof. intros Hsp Ha He. unfold translate. by rewrite He by apply (vpn_slot i a Hsp Ha). Qed.

Lemma accessible_frame s s' i a w :
  is_space i -> user_addr a -> (forall j v, is_slot j v -> pte_at s' j v = pte_at s j v) ->
  accessible s i a w -> accessible s' i a w.
Proof. intros Hsp Ha He. unfold accessible. by rewrite He by apply (vpn_slot i a Hsp Ha). Qed.

(** The physical address of the first byte of a piece. *)
Lemma piece_start s i a :
  user_addr a -> pte_present (pte_at s i (vpn a)) = true -> pml4 (spaces s i) <> 0 ->
  exists pte, find_pte i a s = Some pte /\
    (read64 (memory s) pte &&& VM64_PHYS_MASK) + (a &&& 0xFFF) =
      4096 * phys_page (pte_at s i (vpn a)) + a mod 4096.
Proof.
  intros Ha Hp Hl. pose proof (find_pte_entry s i a) as He. destruct (find_pte i a s) as [pte|].
  - destruct He as [He _]. exists pte. split; [done|]. rewrite offset_mod, <- He.
    rewrite <- He, norm_present in Hp. rewrite norm_id by done. by destruct (masked_page (read64 (memory s) pte)) as [-> _].
  - by rewrite He in Hp.
Qed.

(** The loop of [vm64_copy] is the byte-by-byte transfer. *)
Lemma copy_to_loop D R P l fuel s i address length buffer d :
  inv D R P l s -> live s i -> VM64_USER_BASE <= address -> address + length <= VM64_USER_LIMIT -> 0 <= d ->
  (forall k, is_u8 (buffer k)) -> (forall a, address + d <= a < address + length -> accessible s i a true) ->
  pages_left address length d <= Z.of_nat fuel ->
  copy_loop fuel i address length true d buffer s =
    Some (buffer, set_memory (write_bytes s i address length buffer d) s).
Proof.
  intros Hi Hlv Hb Hlim Hd Hbuf. revert s d Hi Hlv Hd. induction fuel as [|fuel IH]; intros s d Hi Hlv Hd Hacc Hfuel; cbn [copy_loop].
  all: destruct (Z.ltb_spec d length) as [Hdl|Hdl]; cbn [negb];
    [|unfold write_bytes; rewrite for_range_empty, set_memory_id by lia; done].
  { unfold pages_left in Hfuel. rewrite (proj2 (Z.ltb_lt _ _) Hdl) in Hfuel. exfalso. dmlia. }
  destruct (piece_spec address length d Hdl) as (Hp1 & Hp2 & Hp3).
  assert (user_addr (address + d)) as Ha by (unfold user_addr; lia).
  destruct (Hacc (address + d) ltac:(lia)) as (Hpr & _).
  destruct (piece_start s i (address + d) Ha Hpr ltac:(apply Hlv)) as (pte & -> & Hst). cbn [mbind option_bind]. rewrite Hst.
  set (n := piece (address + d) (length - d)) in *.
  rewrite (for_range_shift d n _ (fun k m => upd m (translate s i (address + k)) (buffer k))).
  2:{ intros k m Hk. by rewrite (piece_translate s i address length d k) by lia. }
  change (for_range d (d + n) _ (memory s)) with (write_bytes s i address (d + n) buffer d).
  destruct (write_bytes_inv D R P l s i address length buffer d (d + n)) as [Hi1 Hpte1]; try done; try lia.
  set (s1 := set_memory _ s) in *. rewrite IH; try done; try lia.
  - f_equal. f_equal. change (set_memory (write_bytes s1 i address length buffer (d + n)) s1)
      with (set_memory (write_bytes s1 i address length buffer (d + n)) s). f_equal.
    unfold write_bytes at 2. rewrite (for_range_split (d + n)) by lia. apply for_range_ext. intros k m Hk.
    rewrite (translate_frame s s1); [done|apply Hlv|unfold user_addr; lia|done].
  - intros a Har. apply (accessible_frame s); [apply Hlv|unfold user_addr; lia|done|]. apply Hacc. lia.
Qed.

Lemma copy_from_loop D R P l fuel s i address length buffer d :
  inv D R P l s -> live s i -> VM64_USER_BASE <= address -> address + length <= VM64_USER_LIMIT -> 0 <= d ->
  (forall a, address + d <= a < address + length -> accessible s i a false) ->
  pages_left address length d <= Z.of_nat fuel ->
  copy_loop fuel i address length false d buffer s = Some (read_user s i address length buffer d, s).
Proof.
  intros Hi Hlv Hb Hlim. revert d buffer. induction fuel as [|fuel IH]; intros d buffer Hd Hacc Hfuel; cbn [copy_loop].
  all: destruct (Z.ltb_spec d length) as [Hdl|Hdl]; cbn [negb]; [|unfold read_user; by rewrite for_range_empty by lia].
  { unfold pages_left in Hfuel. rewrite (proj2 (Z.ltb_lt _ _) Hdl) in Hfuel. exfalso. dmlia. }
  destruct (piece_spec address length d Hdl) as (Hp1 & Hp2 & Hp3).
  assert (user_addr (address + d)) as Ha by (unfold user_addr; lia).
  destruct (Hacc (address + d) ltac:(lia)) as (Hpr & _).
  destruct (piece_start s i (address + d) Ha Hpr ltac:(apply Hlv)) as (pte & -> & Hst). cbn [mbind option_bind]. rewrite Hst.
  set (n := piece (address + d) (length - d)) in *.
  rewrite IH; try lia; [|intros a Har; apply Hacc; lia]. f_equal. f_equal. unfold read_user.
  rewrite (for_range_split (d + n) d) by lia. f_equal. apply for_range_shift.
  intros k m Hk. by rewrite (piece_translate s i address length d k) by lia.
Qed.

Lemma read_user_spec s i address length buffer k :
  0 <= length -> read_user s i address length buffer 0 k =
    if (0 <=? k) && (k <? length) then memory s (translate s i (address + k)) else buffer k.
Proof.
  intros Hl. unfold read_user.
  pose proof (for_range_ind (fun n b => b k = if (0 <=? k) && (k <? n) then memory s (translate s i (address + k)) else buffer k)
    0 length (fun k b => upd b k (memory s (translate s i (address + k)))) buffer) as Hind. rewrite Z.max_r in Hind by done. apply Hind; clear Hind.
  - destruct (Z.leb_spec 0 k), (Z.ltb_spec k 0); simpl; done || lia.
  - intros n b Hn IH. unfold upd. destruct (Z.eqb_spec k n) as [->|].
    + destruct (Z.leb_spec 0 n), (Z.ltb_spec n (n + 1)); simpl; done || lia.
    + rewrite IH. destruct (Z.leb_spec 0 k), (Z.ltb_spec k n), (Z.ltb_spec k (n + 1)); simpl; done || lia.
Qed.

End Access.
End VmAccess.
