(* ===== verification/VmSpaces.v ===== *)
(** * Creating, destroying and cloning address spaces

    A space comes to life with five tables, loses everything it owns when it
    is destroyed, and shares the pages it owns with a clone, read-only until
    one of the two writes. *)

From stdpp Require Import gmap.
From S2P Require Import Prelude Pmm Vm VmInv VmOps VmUser VmAccess.

Open Scope Z_scope.

Module VmSpaces.
Import Vm VmInv VmOps VmUser VmAccess.

Section Spaces.
Context {W : Type} {VM : VmModules W} {VO : VmObjects W} {VL : VmLaws W}.
Implicit Types (s : vm W).

(** ** Pages taken and given back *)

(** A reference to the page at [a], when [a] is not the null address. *)
Definition one (a p : Z) : Z := Z.b2z (negb (a =? 0) && (p =? a / 4096)).

Fixpoint loose_of (A : list Z) (p : Z) : Z :=
  match A with
  | [] => 0
  | a :: A => one a p + loose_of A p
  end.

Lemma one_range a p : 0 <= one a p <= 1.
Proof. unfold one. destruct (_ && _); simpl; lia. Qed.

Lemma one_page p q : p <> 0 -> one (4096 * p) q = Z.b2z (q =? p).
Proof. intros Hp. unfold one. rewrite (proj2 (Z.eqb_neq _ _)) by lia. by rewrite page_mul. Qed.

Lemma loose_of_nonneg A p : 0 <= loose_of A p.
Proof. induction A as [|a A IH]; simpl; [done|]. pose proof (one_range a p). lia. Qed.

(** The references of a state are determined by its entries, its tables and
    the references outside. *)
Lemma refs_determined D D' R R' P P' l s s' p :
  inv D R P l s -> inv D' R' P' l s' -> same_tables s s' ->
  (forall i v, is_slot i v -> pte_at s' i v = pte_at s i v) -> Pmm.page_refs (mm s') p = Pmm.page_refs (mm s) p.
Proof.
  intros Hi Hi' Ht Hpte. pose proof (i_core _ _ _ _ _ Hi) as Hc. pose proof (i_core _ _ _ _ _ Hi') as Hc'.
  assert (is_table (abs_of s') p <-> is_table (abs_of s) p) as Htb.
  { apply is_table_roles. intros r _. by apply same_tables_role. }
  assert (owners (abs_of s') p = owners (abs_of s) p) as Ho by (by apply owners_ext).
  assert (held (rest s') p = held (rest s) p) as Hh by (by rewrite (st_rest _ _ Ht)).
  destruct (Z.eq_dec (Pmm.page_refs (mm s') p) (Pmm.page_refs (mm s) p)) as [|Hne]; [done|exfalso].
  assert (~ is_table (abs_of s) p) as Hnt.
  { intros Hx. destruct (c_table _ _ _ _ Hc p Hx) as (H1 & _). apply Htb in Hx.
    destruct (c_table _ _ _ _ Hc' p Hx) as (H2 & _). simpl in *. congruence. }
  destruct (Z.eq_dec (held (rest s) p) 0) as [Hz|Hz].
  - pose proof (c_count _ _ _ _ Hc p Hnt Hz) as H1.
    pose proof (c_count _ _ _ _ Hc' p ltac:(by rewrite Htb) ltac:(simpl; congruence)) as H2. rewrite Ho in H2.
    simpl in *. congruence.
  - pose proof (held_nonneg (rest s) p). destruct (c_held _ _ _ _ Hc p) as (_ & _ & H1); [simpl; lia|].
    destruct (c_held _ _ _ _ Hc' p) as (_ & _ & H2); [simpl; lia|]. simpl in *. congruence.
Qed.

Lemma quiet_intro D R P l s s' :
  inv D R P l s -> inv D R P l s' -> same_tables s s' ->
  (forall i v, is_slot i v -> pte_at s' i v = pte_at s i v) ->
  (forall b, leaf s (b / 4096) -> memory s' b = memory s b) -> quiet s s'.
Proof.
  intros Hi Hi' Ht Hpte Hm. split.
  - done.
  - done.
  - intros p _. by eapply refs_determined.
  - intros p [_ Hp] Hx. apply Hp, (is_table_roles s s'); [|done]. intros r _. by apply same_tables_role.
  - intros j. by rewrite (st_spaces _ _ Ht).
  - intros j. by rewrite (st_spaces _ _ Ht).
  - apply (st_rest _ _ Ht).
Qed.

(** The pages at the addresses [A], null or fresh, have been allocated. *)
Record taken D R P l s (A : list Z) s' : Prop := {
  tk_tables : same_tables s s';
  tk_inv : inv D R P (fun p => l p + loose_of A p) s';
  tk_fresh a : a ∈ A -> a <> 0 ->
    exists p, a = 4096 * p /\ 0 < p < Pmm.BITMAP_BITS /\ Pmm.page_refs (mm s) p = 0 /\ ~ device p /\
      Pmm.page_refs (mm s') p = 1 /\ loose_of A p = 1 /\ forall b, b / 4096 = p -> memory s' b = 0;
  tk_pte i v : is_slot i v -> pte_at s' i v = pte_at s i v;
  tk_refs p : loose_of A p = 0 -> Pmm.page_refs (mm s') p = Pmm.page_refs (mm s) p;
  tk_memory b : loose_of A (b / 4096) = 0 -> memory s' b = memory s b
}.

Lemma taken_nil D R P l s : inv D R P l s -> taken D R P l s [] s.
Proof.
  intros Hi. split; try done.
  - eapply inv_loose_ext; [|exact Hi]. intros p. simpl. lia.
  - intros a Ha. by apply not_elem_of_nil in Ha.
Qed.

Lemma taken_alloc D R P l s A s' a s'' :
  inv D R P l s -> taken D R P l s A s' -> alloc_page s' = (a, s'') -> taken D R P l s (a :: A) s''.
Proof.
  intros Hi [T1 T2 T3 T4 T5 T6] Ha.
  destruct (alloc_page_inv _ _ _ _ _ _ _ T2 Ha) as [Ht [[-> ->]|(p & -> & Hp & [Hr0 Hnd] & Hi1 & Hr1 & Hpte1 & Hm1)]].
  { split; try done.
    - intros a [->|Ha']%elem_of_cons Hn; [done|]. by apply T3. }
  destruct (free_page_unused _ _ _ _ _ (i_core _ _ _ _ _ T2) Hr0) as (_ & _ & _ & Hl0).
  pose proof (c_loose _ _ _ _ (i_core _ _ _ _ _ Hi) p) as Hlp. simpl in Hlp. pose proof (loose_of_nonneg A p).
  assert (loose_of A p = 0) as HA by lia. split.
  - by etrans.
  - eapply inv_loose_ext; [|exact Hi1]. intros q. simpl. rewrite one_page by lia. unfold upd.
    destruct (Z.eqb_spec q p) as [->|]; simpl; lia.
  - intros a Hin Hn. destruct (decide (a = 4096 * p)) as [->|Hne].
    + exists p. split_and!; try done; try lia.
      * by rewrite <- T5.
      * by rewrite Hr1, Z.eqb_refl.
      * simpl. rewrite one_page, Z.eqb_refl by lia. simpl. lia.
      * intros b Hb. by rewrite Hm1, (proj2 (Z.eqb_eq _ _) Hb).
    + apply elem_of_cons in Hin as [?|Hin]; [done|]. destruct (T3 a Hin Hn) as (q & -> & Hq & Hq0 & Hqd & Hq1 & Hq2 & Hqm).
      assert (q <> p) as Hqp by congruence. exists q. split_and!; try done; try lia.
      * by rewrite Hr1, (proj2 (Z.eqb_neq _ _) Hqp).
      * simpl. rewrite one_page, (proj2 (Z.eqb_neq _ _) Hqp) by lia. simpl. lia.
      * intros b Hb. rewrite Hm1, (proj2 (Z.eqb_neq _ _)) by congruence. by apply Hqm.
  - intros i v Hs. by rewrite Hpte1, T4.
  - intros q. simpl. rewrite one_page by lia. rewrite Hr1. destruct (Z.eqb_spec q p) as [->|]; simpl; [lia|apply T5].
  - intros b. simpl. rewrite one_page by lia. rewrite Hm1. destruct (Z.eqb_spec (b / 4096) p); simpl; [|apply T6].
    pose proof (loose_of_nonneg A (b / 4096)). lia.
Qed.

(** Rewriting a space with what it says already. *)
Record same_space (v v' : vm64_space) : Prop := {
  sp_root : pml4 v' = pml4 v;
  sp_pdpt : pdpt v' = pdpt v;
  sp_identity_pd : identity_pd v' = identity_pd v;
  sp_identity_pt0 : identity_pt0 v' = identity_pt0 v;
  sp_user_pd : user_pd v' = user_pd v;
  sp_user_pts k : 0 <= k < 512 -> user_pts v' k = user_pts v k;
  sp_mappings m : 0 <= m < VM64_MAPPING_MAX -> same_map (mappings v m) (mappings v' m)
}.

Lemma set_space_inv D R P l s i v :
  inv D R P l s -> same_space (spaces s i) v ->
  inv D R P l (set_space i v s) /\ forall j u, is_slot j u -> pte_at (set_space i v s) j u = pte_at s j u.
Proof.
  intros [I1 I2 I3 I4 I5 I6 I7 I8] Hv. set (s' := set_space i v s).
  assert (forall j, same_space (spaces s j) (spaces s' j)) as Hsp.
  { intros j. unfold s'. simpl. unfold upd. destruct (Z.eqb_spec j i) as [->|]; [done|]. split; try done. by left. }
  assert (forall j u, is_slot j u -> pte_at s' j u = pte_at s j u) as Hpte.
  { intros j u [_ Hu]. unfold pte_at. rewrite (sp_user_pts _ _ (Hsp j)) by dmlia. done. }
  split; [|done]. split; try done.
  - apply (core_maps _ _ _ (abs_of s)); try done; simpl.
    + intros [j|j|j|j|j|j k| | |k] Hr; simpl; try done; symmetry.
      * apply (sp_root _ _ (Hsp j)).
      * apply (sp_pdpt _ _ (Hsp j)).
      * apply (sp_identity_pd _ _ (Hsp j)).
      * apply (sp_identity_pt0 _ _ (Hsp j)).
      * apply (sp_user_pd _ _ (Hsp j)).
      * apply (sp_user_pts _ _ (Hsp j)), Hr.
    + intros j u Hu. symmetry. by apply Hpte.
    + intros j m _ Hm. by apply (sp_mappings _ _ (Hsp j)).
  - intros j Hj. destruct (Hsp j) as [-> -> -> -> -> E6 _]. intros Hl. destruct (I5 j Hj Hl) as (? & ? & ? & ? & H5).
    split_and!; try done. intros k Hk. rewrite E6 by lia. by apply H5.
  - intros j Hj. destruct (Hsp j) as [-> -> -> -> -> E6 E7]. intros Hl. destruct (I6 j Hj Hl) as (? & ? & ? & ? & H5 & H6).
    split_and!; try done.
    + intros k Hk. rewrite E6 by done. by apply H5.
    + intros m Hm. destruct (E7 m Hm) as [<-|[_ ?]]; [by apply H6|done].
  - intros j Hj Hd. destruct (Hsp j) as [E1 E2 E3 E4 E5 E6 _]. rewrite E1. intros Hl. destruct (I7 j Hj Hd Hl) as [U1 U2 U3].
    split; intros k Hk; rewrite ?E1, ?E2, ?E3, ?E5, ?E6 by done; [by apply U1|by apply U2|by apply U3].
  - intros Hn. by apply (kernel_frame s); [..|apply I8].
Qed.

Lemma same_space_role s i v r :
  same_space (spaces s i) v -> valid_role r -> role_addr (set_space i v s) r = role_addr s r.
Proof.
  intros Hv. destruct r as [j|j|j|j|j|j k| | |k]; intros Hr; try done; simpl;
    unfold upd; (destruct (Z.eqb_spec j i) as [->|]; [|done]); apply Hv. apply Hr.
Qed.

Lemma set_space_quiet D R P l s i v :
  inv D R P l s -> same_space (spaces s i) v -> mappings v = mappings (spaces s i) ->
  inv D R P l (set_space i v s) /\ quiet s (set_space i v s).
Proof.
  intros Hi Hv Hm. destruct (set_space_inv D R P l s i v Hi Hv) as [Hi' Hpte]. split; [done|].
  assert (forall j, pml4 (spaces (set_space i v s) j) = pml4 (spaces s j) /\ mappings (spaces (set_space i v s) j) = mappings (spaces s j)) as Hsp.
  { intros j. simpl. unfold upd. destruct (Z.eqb_spec j i) as [->|]; [|done]. by rewrite (sp_root _ _ Hv). }
  split; try done; try (intros j; apply Hsp).
  intros p [_ Hp] Hx. apply Hp, (is_table_roles s (set_space i v s)); [|done]. intros r. by apply same_space_role.
Qed.

Definition page_addr (a : Z) : Prop := a = 0 \/ exists p, a = 4096 * p /\ 0 < p < Pmm.BITMAP_BITS.

Lemma free_if_inv D R P l s a :
  inv D R P (fun p => l p + one a p) s -> (forall p, 0 <= l p) -> page_addr a ->
  exists s', free_if a s = Some s' /\ same_tables s s' /\ inv D R P l s' /\
    (forall i v, is_slot i v -> pte_at s' i v = pte_at s i v) /\ (forall b, memory s' b = memory s b).
Proof.
  intros Hi Hl [->|(p & -> & Hp)]; unfold free_if.
  - exists s. split_and!; try done. eapply inv_loose_ext; [|exact Hi]. intros p. unfold one. simpl. lia.
  - rewrite (proj2 (nz_true _)) by lia.
    destruct (free_page_inv _ _ _ _ s p Hi) as (s' & Hf & Ht & Hi' & _ & Hpte & Hm); [|done|].
    { rewrite one_page, Z.eqb_refl by lia. simpl. pose proof (Hl p). lia. }
    exists s'. split_and!; try done. eapply inv_loose_ext; [|exact Hi']. intros q. unfold upd. rewrite !one_page by lia.
    destruct (Z.eqb_spec q p) as [->|]; simpl; [|lia]. rewrite Z.eqb_refl. simpl. lia.
Qed.

Fixpoint free_ifs (A : list Z) s : option (vm W) :=
  match A with
  | [] => Some s
  | a :: A => s ← free_if a s; free_ifs A s
  end.

Lemma free_ifs_inv D R P l A s :
  inv D R P (fun p => l p + loose_of A p) s -> (forall p, 0 <= l p) -> (forall a, a ∈ A -> page_addr a) ->
  exists s', free_ifs A s = Some s' /\ same_tables s s' /\ inv D R P l s' /\
    (forall i v, is_slot i v -> pte_at s' i v = pte_at s i v) /\ (forall b, memory s' b = memory s b).
Proof.
  intros Hi Hl. revert s Hi. induction A as [|a A IH]; intros s Hi HA; simpl.
  - exists s. split_and!; try done. eapply inv_loose_ext; [|exact Hi]. intros p. simpl. lia.
  - destruct (free_if_inv D R P (fun p => l p + loose_of A p) s a) as (s1 & -> & T1 & I1 & P1 & M1).
    + eapply inv_loose_ext; [|exact Hi]. intros p. simpl. lia.
    + intros p. pose proof (Hl p). pose proof (loose_of_nonneg A p). lia.
    + apply HA. left.
    + cbn [mbind option_bind]. destruct (IH s1 I1) as (s2 & -> & T2 & I2 & P2 & M2); [intros x Hx; apply HA; by right|].
      exists s2. split_and!; try done; [by etrans|intros; by rewrite P2, P1|intros; by rewrite M2].
Qed.

Lemma taken_addr D R P l s A s' a : taken D R P l s A s' -> a ∈ A -> page_addr a.
Proof.
  intros Ht Ha. destruct (Z.eq_dec a 0) as [->|Hn]; [by left|right].
  destruct (tk_fresh _ _ _ _ _ _ _ Ht a Ha Hn) as (p & -> & Hp & _). by exists p.
Qed.

(** ** Linking fresh pages as tables *)

Fixpoint with_roles (L : list (role * Z)) (x : abs W) : abs W :=
  match L with
  | [] => x
  | (r, a) :: L => with_roles L (with_role r a x)
  end.

Lemma loose_of_in A p : p <> 0 -> 4096 * p ∈ A -> 1 <= loose_of A p.
Proof.
  intros Hp. induction A as [|a A IH]; intros Ha; [by apply not_elem_of_nil in Ha|]. simpl.
  pose proof (one_range a p). pose proof (loose_of_nonneg A p).
  apply elem_of_cons in Ha as [<-|Ha]; [rewrite one_page, Z.eqb_refl by done; simpl; lia|]. specialize (IH Ha). lia.
Qed.

Lemma core_link_all R P l L x :
  core R P (fun p => l p + loose_of (map snd L) p) x -> (forall p, 0 <= l p) -> NoDup (map fst L) ->
  (forall r a, (r, a) ∈ L -> valid_role r /\ a_role x r = 0 /\
     exists p, a = 4096 * p /\ 0 < p < Pmm.BITMAP_BITS /\ l p = 0 /\ loose_of (map snd L) p = 1 /\ a_refs x p = 1) ->
  core R P l (with_roles L x).
Proof.
  intros Hc Hl. revert x Hc. induction L as [|[r a] L IH]; intros x Hc Hnd HL; simpl in *.
  { eapply core_loose_ext; [|exact Hc]. intros p. simpl. lia. }
  apply NoDup_cons in Hnd as [Hni Hnd].
  destruct (HL r a ltac:(left)) as (Hr & H0 & p & -> & Hp & Hlp & Hone & Href).
  rewrite one_page, Z.eqb_refl in Hone by lia. simpl in Hone. apply IH; [|done|].
  - eapply core_loose_ext; [|apply (core_link _ _ _ _ r p Hc Hr H0 Hp)]; [|rewrite one_page, Z.eqb_refl by lia; simpl; lia|done].
    intros q. unfold upd. rewrite one_page by lia. destruct (Z.eqb_spec q p) as [->|]; simpl; lia.
  - intros r' a' Hin. destruct (HL r' a' ltac:(by right)) as (Hr' & H0' & p' & -> & Hp' & Hlp' & Hone' & Href').
    assert (4096 * p' ∈ map snd L) as Hin' by (apply list_elem_of_In, in_map_iff; exists (r', 4096 * p'); by rewrite <- list_elem_of_In).
    pose proof (loose_of_in _ p' ltac:(lia) Hin').
    assert (p' <> p) as Hne by (intros ->; lia). split; [done|]. split.
    + simpl. rewrite decide_False; [done|]. intros ->. apply Hni, list_elem_of_In, in_map_iff. exists (r, 4096 * p'). by rewrite <- list_elem_of_In.
    + exists p'. split_and!; try done; try lia. simpl. rewrite one_page, (proj2 (Z.eqb_neq _ _) Hne) in Hone' by lia. simpl in Hone'. lia.
Qed.

(** ** New tables *)

(** A step that leaves everything but the tables of the space [i] alone. *)
Record aside (i : Z) s s' : Prop := {
  as_pte j u : is_slot j u -> pte_at s' j u = pte_at s j u;
  as_memory b : leaf s (b / 4096) -> memory s' b = memory s b;
  as_refs p : leaf s p -> Pmm.page_refs (mm s') p = Pmm.page_refs (mm s) p;
  as_table p : leaf s p -> ~ is_table (abs_of s') p;
  as_root j : j <> i -> pml4 (spaces s' j) = pml4 (spaces s j);
  as_maps j m : j <> i -> mappings (spaces s' j) m = mappings (spaces s j) m;
  as_rest : rest s' = rest s
}.

Lemma quiet_aside i s s' : quiet s s' -> aside i s s'.
Proof. intros [A1 A2 A3 A4 A5 A6 A7]. split; try done. intros j m _. by rewrite A6. Qed.

Lemma aside_trans i x y z : aside i x y -> aside i y z -> aside i x z.
Proof.
  intros [A1 A2 A3 A4 A5 A6 A7] [B1 B2 B3 B4 B5 B6 B7].
  assert (forall p, leaf x p -> leaf y p) as Hin.
  { intros p Hp. pose proof Hp as [Hr _]. split; [by rewrite A3|by apply A4]. }
  split.
  - intros j u Hs. by rewrite B1, A1.
  - intros b Hb. rewrite B2, A2; auto.
  - intros p Hp. rewrite B3, A3; auto.
  - auto.
  - intros j Hj. by rewrite B5, A5.
  - intros j m Hj. by rewrite B6, A6.
  - by rewrite B7.
Qed.

Lemma set_space_aside D R P l s i v :
  inv D R P l s -> same_space (spaces s i) v -> aside i s (set_space i v s).
Proof.
  intros Hi Hv. destruct (set_space_inv D R P l s i v Hi Hv) as [_ Hpte].
  split; try done; try (intros; simpl; by rewrite upd_ne).
  intros p [_ Hp] Hx. apply Hp, (is_table_roles s (set_space i v s)); [|done]. intros r. by apply same_space_role.
Qed.

(** The space [i] has got its five tables, all empty. *)
Record built (i : Z) s s' : Prop := {
  bt_aside : aside i s s';
  bt_live : live s' i;
  bt_user_pts k : 0 <= k < 512 -> user_pts (spaces s' i) k = 0;
  bt_maps m : 0 <= m < VM64_MAPPING_MAX -> m_object (mappings (spaces s' i) m) = None;
  bt_empty r k : r ∈ [Root i; Pdpt i; UserPd i] -> 0 <= k < 512 -> entry s' (role_addr s' r) k = 0
}.

Definition space_roles (i a b c d e : Z) : list (role * Z) :=
  [(Root i, a); (Pdpt i, b); (IdentityPd i, c); (IdentityPt0 i, d); (UserPd i, e)].

(** The roles of a state whose space [i] is replaced. *)
Lemma set_space_roles s i a b c d e f g r :
  (forall k, 0 <= k < 512 -> f k = user_pts (spaces s i) k) -> valid_role r ->
  role_addr (set_space i (Space a b c d e f g) s) r = a_role (with_roles (space_roles i a b c d e) (abs_of s)) r.
Proof.
  intros Hf Hr. destruct r as [j|j|j|j|j|j k| | |k]; simpl; unfold upd; try (destruct (Z.eqb_spec j i) as [->|Hj]);
    repeat first [rewrite decide_False by congruence|rewrite decide_True by done]; try done. simpl. by apply Hf, Hr.
Qed.

Lemma with_roles_rest L x :
  a_pte (with_roles L x) = a_pte x /\ a_refs (with_roles L x) = a_refs x /\ a_map (with_roles L x) = a_map x /\
  a_world (with_roles L x) = a_world x.
Proof. revert x. induction L as [|[r a] L IH]; intros x; simpl; [done|]. destruct (IH (with_role r a x)) as (-> & -> & -> & ->). done. Qed.

Lemma with_roles_role L x r :
  a_role (with_roles L x) r = a_role x r \/ exists a, (r, a) ∈ L /\ a_role (with_roles L x) r = a.
Proof.
  revert x. induction L as [|[r' a'] L IH]; intros x; simpl; [by left|].
  destruct (IH (with_role r' a' x)) as [->|(a & Ha & He)]; [|right; exists a; split; [by right|done]].
  simpl. destruct (decide (r = r')) as [->|]; [right; exists a'; split; [left|done]|by left].
Qed.

Lemma loose_of_pos A p : 0 < loose_of A p -> exists a, a ∈ A /\ a <> 0 /\ a / 4096 = p.
Proof.
  induction A as [|a A IH]; simpl; intros H; [lia|]. destruct (one a p) eqn:Ho.
  - destruct IH as (b & Hb & Hn); [lia|]. exists b. split; [by right|done].
  - unfold one in Ho. destruct (Z.eqb_spec a 0), (Z.eqb_spec p (a / 4096)); try done. exists a. split; [left|done].
  - pose proof (one_range a p). lia.
Qed.

Lemma taken_leaf D R P l s A s' p : taken D R P l s A s' -> leaf s p -> loose_of A p = 0.
Proof.
  intros Ht [Hl _]. pose proof (loose_of_nonneg A p). destruct (Z.eq_dec (loose_of A p) 0); [done|exfalso].
  destruct (loose_of_pos A p ltac:(lia)) as (a & Ha & Hn & Hp).
  destruct (tk_fresh _ _ _ _ _ _ _ Ht a Ha Hn) as (q & -> & _ & Hr & Hd & _). rewrite page_mul in Hp. subst. tauto.
Qed.

Lemma space_roles_core D R P l s i a b c d e s' :
  inv D R P l s -> is_space i -> pml4 (spaces s i) = 0 -> taken D R P l s [e; d; c; b; a] s' ->
  a <> 0 -> b <> 0 -> c <> 0 -> d <> 0 -> e <> 0 ->
  core R P l (with_roles (space_roles i a b c d e) (abs_of s')).
Proof.
  intros Hi Hsp Hdead [T1 T2 T3 T4 T5 T6] Ha Hb Hc Hd He. pose proof (st_spaces _ _ T1) as Hss.
  destruct (i_dead _ _ _ _ _ Hi i Hsp Hdead) as (Z1 & Z2 & Z3 & Z4 & _).
  assert (forall p, loose_of [e; d; c; b; a] p = loose_of [a; b; c; d; e] p) as Hrev by (intros p; simpl; lia).
  apply core_link_all.
  - eapply core_loose_ext; [|apply (i_core _ _ _ _ _ T2)]. intros p. simpl. lia.
  - apply (c_loose _ _ _ _ (i_core _ _ _ _ _ Hi)).
  - repeat constructor; simpl; rewrite ?elem_of_cons, ?elem_of_nil; naive_solver.
  - intros r x Hin. assert (valid_role r /\ role_addr s' r = 0 /\ x ∈ [e; d; c; b; a] /\ x <> 0) as (Hr & H0 & Hx & Hn).
    { unfold space_roles in Hin. rewrite !elem_of_cons, elem_of_nil in Hin. rewrite !elem_of_cons.
      destruct Hin as [[= -> ->]|[[= -> ->]|[[= -> ->]|[[= -> ->]|[[= -> ->]|[]]]]]]; simpl; rewrite Hss; tauto. }
    destruct (T3 x Hx Hn) as (p & -> & Hp & Hr0 & Hdv & Hr1 & Hone & _). split; [done|]. split; [done|]. exists p.
    destruct (free_page_unused _ _ _ _ _ (i_core _ _ _ _ _ Hi) Hr0) as (_ & _ & _ & Hl0). split_and!; try done; try lia.
    rewrite Hrev in Hone. done.
Qed.

Lemma link_space_inv D R P l s i a b c d e s' :
  inv D R P l s -> is_space i -> pml4 (spaces s i) = 0 -> taken D R P l s [e; d; c; b; a] s' ->
  a <> 0 -> b <> 0 -> c <> 0 -> d <> 0 -> e <> 0 ->
  let s'' := set_space i (Space a b c d e (user_pts (spaces s i)) (mappings (spaces s i))) s' in
  inv (add_space D i) R P l s'' /\ built i s s''.
Proof.
  intros Hi Hsp Hdead Htk Ha Hb Hc Hd He s''. pose proof Htk as [T1 T2 T3 T4 T5 T6]. pose proof (st_spaces _ _ T1) as Hss.
  destruct (i_dead _ _ _ _ _ Hi i Hsp Hdead) as (Z1 & Z2 & Z3 & Z4 & Z5 & Z6).
  assert (forall r, valid_role r -> role_addr s'' r = a_role (with_roles (space_roles i a b c d e) (abs_of s')) r) as Hrole.
  { intros r Hr. apply set_space_roles; [by rewrite Hss|done]. }
  assert (forall j, j <> i -> spaces s'' j = spaces s j) as Hoth by (intros j Hj; simpl; by rewrite upd_ne, Hss).
  assert (spaces s'' i = Space a b c d e (user_pts (spaces s i)) (mappings (spaces s i))) as Hthis by (simpl; by rewrite upd_eq).
  assert (forall j u, is_slot j u -> pte_at s'' j u = pte_at s j u) as Hpte.
  { intros j u Hs. rewrite <- T4 by done. unfold pte_at. change (entry s'') with (entry s').
    destruct (Z.eq_dec j i) as [->|Hj]; [by rewrite Hthis, Hss|by rewrite Hoth, Hss]. }
  pose proof (with_roles_rest (space_roles i a b c d e) (abs_of s')) as (R1 & R2 & R3 & R4).
  assert (core R P l (abs_of s'')) as Hcore.
  { apply (core_ext R P l (with_roles (space_roles i a b c d e) (abs_of s'))); [|by eapply space_roles_core].
    split; rewrite ?R1, ?R2, ?R3, ?R4; intros; try done; try symmetry; [by apply Hrole|simpl; by rewrite Hpte, T4|].
    change (mappings (spaces s'' i0) m = mappings (spaces s' i0) m).
    destruct (Z.eq_dec i0 i) as [->|Hj]; [by rewrite Hthis, Hss|by rewrite Hoth, Hss]. }
  split.
  - destruct T2 as [I1 I2 I3 I4 I5 I6 I7 I8]. rewrite Hss in I5, I6, I7. split; try done.
    + intros j Hj. destruct (Z.eq_dec j i) as [->|Hji]; [rewrite Hthis|rewrite Hoth by done; by apply I5].
      simpl. intros _. split_and!; try done. intros k Hk. apply Z5. lia.
    + intros j Hj. destruct (Z.eq_dec j i) as [->|Hji]; [by rewrite Hthis|rewrite Hoth by done; by apply I6].
    + intros j Hj Hnd. assert (j <> i) as Hji by (intros ->; apply Hnd; by right). rewrite (Hoth j Hji). intros Hl.
      destruct (I7 j Hj ltac:(intros ?; apply Hnd; by left) Hl) as [U1 U2 U3].
      split; intros k Hk; rewrite (Hoth j Hji); change (entry s'') with (entry s');
        change (kernel_mmio_pdpt s'') with (kernel_mmio_pdpt s'); rewrite <- Hss; [by apply U1|by apply U2|by apply U3].
    + intros Hn. apply (kernel_frame s'); try done. apply I8. intros ?. apply Hn. by left.
  - split.
    + split; try done.
      * intros b0 Hb0. by apply T6, (taken_leaf _ _ _ _ _ _ _ _ Htk).
      * intros p Hp. by apply T5, (taken_leaf _ _ _ _ _ _ _ _ Htk).
      * intros p Hp (r & Hr & Hra & Hrn). simpl in Hra, Hrn. rewrite Hrole in Hra, Hrn by done.
        destruct (with_roles_role (space_roles i a b c d e) (abs_of s') r) as [Hx|(x & Hin & Hx)]; rewrite Hx in Hra, Hrn.
        -- apply (proj2 Hp). exists r. simpl in *. rewrite (same_tables_role s s' r T1) in *. done.
        -- pose proof (taken_leaf _ _ _ _ _ _ _ _ Htk Hp) as H0.
           pose proof (loose_of_in [e; d; c; b; a] p ltac:(lia)) as H1. rewrite H0 in H1.
           assert (4096 * p ∈ [e; d; c; b; a]) as Hm; [|specialize (H1 Hm); lia]. rewrite <- Hra. unfold space_roles in Hin.
           rewrite !elem_of_cons in *. rewrite elem_of_nil in Hin. naive_solver.
      * intros j Hj. by rewrite Hoth.
      * intros j m Hj. by rewrite Hoth.
      * apply (st_rest _ _ T1).
    + split; [done|]. by rewrite Hthis.
    + intros k Hk. rewrite Hthis. by apply Z5.
    + intros m Hm. rewrite Hthis. by apply Z6.
    + intros r k Hin Hk. assert (role_addr s'' r ∈ [e; d; c; b; a] /\ role_addr s'' r <> 0) as [Hx Hn].
      { rewrite !elem_of_cons, elem_of_nil in Hin. rewrite !elem_of_cons, elem_of_nil. destruct Hin as [->|[->|[->|[]]]]; simpl; rewrite upd_eq; simpl; tauto. }
      destruct (T3 _ Hx Hn) as (p & -> & _ & _ & _ & _ & _ & Hm). by apply zero_entry.
Qed.

Lemma allocate_space_tables_inv D R P l s i :
  inv D R P l s -> is_space i -> pml4 (spaces s i) = 0 ->
  exists r s', allocate_space_tables i s = Some (r, s') /\
    ((r <> 0 /\ inv D R P l s' /\ quiet s s') \/ (r = 0 /\ inv (add_space D i) R P l s' /\ built i s s')).
Proof.
  intros Hi Hsp Hdead. unfold allocate_space_tables.
  destruct (alloc_page s) as [a s1] eqn:Ea. pose proof (taken_alloc _ _ _ _ _ _ _ _ _ Hi (taken_nil _ _ _ _ _ Hi) Ea) as T1.
  destruct (alloc_page s1) as [b s2] eqn:Eb. pose proof (taken_alloc _ _ _ _ _ _ _ _ _ Hi T1 Eb) as T2.
  destruct (alloc_page s2) as [c s3] eqn:Ec. pose proof (taken_alloc _ _ _ _ _ _ _ _ _ Hi T2 Ec) as T3.
  destruct (alloc_page s3) as [d s4] eqn:Ed. pose proof (taken_alloc _ _ _ _ _ _ _ _ _ Hi T3 Ed) as T4.
  destruct (alloc_page s4) as [e s5] eqn:Ee. pose proof (taken_alloc _ _ _ _ _ _ _ _ _ Hi T4 Ee) as T5.
  clear T1 T2 T3 T4. destruct (_ || _) eqn:Hor.
  - clear Hor. pose proof (tk_inv _ _ _ _ _ _ _ T5) as I5. pose proof (c_loose _ _ _ _ (i_core _ _ _ _ _ Hi)) as Hl.
    assert (forall x, x ∈ [e; d; c; b; a] -> page_addr x) as Had by (intros x; by eapply taken_addr).
    assert (page_addr a /\ page_addr b /\ page_addr c /\ page_addr d /\ page_addr e) as (Pa & Pb & Pc & Pd & Pe)
      by (split_and!; apply Had; rewrite !elem_of_cons; tauto). clear Had.
    destruct (free_ifs_inv D R P l [a; b; c; d; e] s5) as (s6 & Hf & S6 & I6 & P6 & M6); [|done|..].
    { eapply inv_loose_ext; [|exact I5]. intros p. simpl. lia. }
    { intros x Hx. rewrite !elem_of_cons, elem_of_nil in Hx. destruct Hx as [->|[->|[->|[->|[->|[]]]]]]; done. }
    cbn [free_ifs] in Hf. repeat (destruct (free_if _ _); [cbn [mbind option_bind] in Hf |- *|done]). injection Hf as ->.
    destruct (i_dead _ _ _ _ _ Hi i Hsp Hdead) as (Z1 & Z2 & Z3 & Z4 & _).
    assert (same_tables s s6) as S06 by (etrans; [apply (tk_tables _ _ _ _ _ _ _ T5)|done]).
    destruct (set_space_quiet D R P l s6 i (Space 0 0 0 0 0 (user_pts (spaces s i)) (mappings (spaces s i))) I6) as [I7 Q7].
    { rewrite (st_spaces _ _ S06). split; try done. by left. } { by rewrite (st_spaces _ _ S06). }
    eexists (-1), _. split; [done|]. left. split_and!; [done|done|]. etrans; [|exact Q7].
    apply (quiet_intro D R P l); try done.
    + intros j u Hs. by rewrite P6, (tk_pte _ _ _ _ _ _ _ T5).
    + intros x Hx. rewrite M6. by apply (tk_memory _ _ _ _ _ _ _ T5), (taken_leaf _ _ _ _ _ _ _ _ T5).
  - rewrite !orb_false_iff, !negb_false_iff, !nz_true in Hor. destruct Hor as ((((Ha & Hb) & Hc) & Hd) & He).
    eexists 0, _. split; [done|]. right. split; [done|]. by eapply link_space_inv.
Qed.

(** ** The contents of the new tables *)

(** The tables of [s] have been written; the entries are now as [E] says. *)
Record filled D R P l s s' (E : role -> Z -> Z) : Prop := {
  fl_tables : same_tables s s';
  fl_inv : inv D R P l s';
  fl_quiet : quiet s s';
  fl_entry r k : valid_role r -> role_addr s r <> 0 -> 0 <= k < 512 -> entry s' (role_addr s r) k = E r k
}.

Lemma filled_refl D R P l s : inv D R P l s -> filled D R P l s s (fun r => entry s (role_addr s r)).
Proof. intros Hi. by split. Qed.

Lemma filled_store D R P l s s' E r k v :
  filled D R P l s s' E -> valid_role r -> role_addr s r <> 0 -> (forall i j, r <> UserPt i j) ->
  (forall i, upper_of r i -> D i) -> 0 <= k < 512 -> is_u64 v ->
  filled D R P l s (set_entry (role_addr s r) k v s')
    (fun r' k' => if bool_decide (r' = r) && (k' =? k) then v else E r' k').
Proof.
  intros [F1 F2 F3 F4] Hr Hn Hpt HD Hk Hv. pose proof (fun x => same_tables_role _ _ x F1) as Hro. rewrite <- (Hro r) in Hn |- *.
  destruct (role_page _ _ _ _ _ r F2 Hr Hn) as (p & Hp & Hpb & Ht). rewrite Hp. unfold set_entry.
  destruct (store_upper_inv D R P l s' r p k v F2) as [Hi Hpte]; try done; [lia|].
  set (s'' := store _ v s') in *. split.
  - etrans; [exact F1|done].
  - done.
  - etrans; [exact F3|]. apply (quiet_intro D R P l); try done. intros b [_ Hb]. apply memory_store; [done|].
    intros He. rewrite He in Hb. done.
  - intros r' k' Hr' Hn' Hk'. rewrite <- F4 by done. rewrite <- (Hro r') in Hn' |- *.
    destruct (role_page _ _ _ _ _ r' F2 Hr' Hn') as (q & Hq & Hqb & _). rewrite Hq. unfold s''. rewrite entry_store by done.
    case_bool_decide as Hx.
    + subst r'. assert (q = p) as -> by lia. by rewrite Z.eqb_refl.
    + destruct (Z.eqb_spec q p) as [->|]; [|done]. destruct Hx. by apply (role_inj D R P l s' _ _ p F2); [..|lia].
Qed.

Lemma filled_loop D R P l s s' E r a b f :
  filled D R P l s s' E -> valid_role r -> role_addr s r <> 0 -> (forall i j, r <> UserPt i j) ->
  (forall i, upper_of r i -> D i) -> 0 <= a -> b <= 512 -> (forall k, 0 <= k < 512 -> is_u64 (f k)) ->
  exists E', filled D R P l s (for_range a b (fun k x => set_entry (role_addr s r) k (f k) x) s') E' /\
    forall r' k, r' <> r -> E' r' k = E r' k.
Proof.
  intros HF Hr Hn Hpt HD Ha Hb Hf.
  apply (for_range_ind (fun _ x => exists E', filled D R P l s x E' /\ forall r' k, r' <> r -> E' r' k = E r' k)); [by exists E|].
  intros k x Hk (E' & HE & He). eexists. split; [apply filled_store; try done; [lia|apply Hf; lia]|].
  intros r' k' Hne. simpl. rewrite bool_decide_false by done. by apply He.
Qed.

Lemma table_flags_u64 a fl : page_addr a -> is_u64 fl -> is_u64 (a ||| fl).
Proof.
  intros [->|(p & -> & Hp)] Hf; [by apply lor_u64|]. apply flags_u64; [|done]. pose proof (page_small p). lia.
Qed.

Lemma role_page_addr D R P l s r : inv D R P l s -> valid_role r -> page_addr (role_addr s r).
Proof.
  intros Hi Hr. destruct (Z.eq_dec (role_addr s r) 0) as [->|Hn]; [by left|right].
  destruct (role_page _ _ _ _ _ r Hi Hr Hn) as (p & ? & ? & _). by exists p.
Qed.

Context (text_start text_end rodata_start rodata_end : Z).

Lemma identity_entry_u64 k : 0 <= k < 512 -> is_u64 (identity_entry text_start text_end rodata_start rodata_end k).
Proof.
  intros Hk. unfold identity_entry. apply lor_u64.
  - rewrite Z.shiftl_mul_pow2 by lia. unfold is_u64. lia.
  - destruct (_ && _); [done|]. destruct (_ && _); done.
Qed.

Lemma huge_entry_u64 k :
  0 <= k < 512 -> is_u64 (Z.shiftl k 21 ||| VM64_PAGE_PRESENT ||| VM64_PAGE_WRITE ||| VM64_PAGE_NX ||| PAGE_HUGE).
Proof.
  intros Hk. repeat apply lor_u64; try done. rewrite Z.shiftl_mul_pow2 by lia. unfold is_u64. lia.
Qed.

Lemma fill_space_tables_inv D R P l s i :
  inv (add_space D i) R P l s -> live s i -> (forall k, 0 <= k < 512 -> user_pts (spaces s i) k = 0) ->
  (forall r k, r ∈ [Root i; Pdpt i; UserPd i] -> 0 <= k < 512 -> entry s (role_addr s r) k = 0) ->
  let s' := fill_space_tables text_start text_end rodata_start rodata_end i s in
  inv D R P l s' /\ quiet s s'.
Proof.
  intros Hi [Hsp Hl] Hpts Hz s'. destruct (i_live _ _ _ _ _ Hi i Hsp Hl) as (L1 & L2 & L3 & L4 & _).
  pose proof (role_page_addr _ _ _ _ _ (Pdpt i) Hi Hsp) as A1. pose proof (role_page_addr _ _ _ _ _ MmioPdpt Hi I) as A2.
  pose proof (role_page_addr _ _ _ _ _ (IdentityPd i) Hi Hsp) as A3. pose proof (role_page_addr _ _ _ _ _ (IdentityPt0 i) Hi Hsp) as A4.
  pose proof (role_page_addr _ _ _ _ _ (UserPd i) Hi Hsp) as A5. simpl in A1, A2, A3, A4, A5.
  assert (forall r j, r ∈ [Root i; Pdpt i; IdentityPd i; IdentityPt0 i] -> upper_of r j -> add_space D i j) as HD.
  { intros r j Hr Hu. rewrite !elem_of_cons, elem_of_nil in Hr. right. unfold upper_of in Hu.
    destruct Hr as [->|[->|[->|[->|[]]]]]; destruct Hu as [[=]|[[=]|[[=]|[_ [? ?]]]]]; done. }
  pose proof (filled_refl _ _ _ _ _ Hi) as F0.
  set (f1 := pdpt (spaces s i) ||| VM64_PAGE_PRESENT ||| VM64_PAGE_WRITE ||| VM64_PAGE_USER).
  set (f2 := kernel_mmio_pdpt s ||| VM64_PAGE_PRESENT ||| VM64_PAGE_WRITE).
  set (f3 := identity_pd (spaces s i) ||| VM64_PAGE_PRESENT ||| VM64_PAGE_WRITE).
  set (f4 := user_pd (spaces s i) ||| VM64_PAGE_PRESENT ||| VM64_PAGE_WRITE ||| VM64_PAGE_USER).
  set (f5 := identity_pt0 (spaces s i) ||| VM64_PAGE_PRESENT ||| VM64_PAGE_WRITE).
  assert (is_u64 f1 /\ is_u64 f2 /\ is_u64 f3 /\ is_u64 f4 /\ is_u64 f5) as (U1 & U2 & U3 & U4 & U5).
  { unfold f1, f2, f3, f4, f5. rewrite <- !Z.lor_assoc. split_and!; by apply table_flags_u64. }
  pose proof (filled_store _ _ _ _ _ _ _ (Root i) 0 f1 F0 Hsp Hl ltac:(done) ltac:(intros; eapply HD; [|done]; set_solver) ltac:(lia) U1) as F1.
  pose proof (filled_store _ _ _ _ _ _ _ (Root i) 256 f2 F1 Hsp Hl ltac:(done) ltac:(intros; eapply HD; [|done]; set_solver) ltac:(lia) U2) as F2.
  pose proof (filled_store _ _ _ _ _ _ _ (Pdpt i) 0 f3 F2 Hsp L1 ltac:(done) ltac:(intros; eapply HD; [|done]; set_solver) ltac:(lia) U3) as F3.
  pose proof (filled_store _ _ _ _ _ _ _ (Pdpt i) 4 f4 F3 Hsp L1 ltac:(done) ltac:(intros; eapply HD; [|done]; set_solver) ltac:(lia) U4) as F4.
  pose proof (filled_store _ _ _ _ _ _ _ (IdentityPd i) 0 f5 F4 Hsp L2 ltac:(done) ltac:(intros; eapply HD; [|done]; set_solver) ltac:(lia) U5) as F5.
  clear F0 F1 F2 F3 F4.
  destruct (filled_loop _ _ _ _ _ _ _ (IdentityPt0 i) 0 512 (identity_entry text_start text_end rodata_start rodata_end) F5 Hsp L3 ltac:(done)
    ltac:(intros; eapply HD; [|done]; set_solver) ltac:(lia) ltac:(lia) identity_entry_u64) as (E6 & F6 & H6). clear F5.
  destruct (filled_loop _ _ _ _ _ _ _ (IdentityPd i) 1 512 _ F6 Hsp L2 ltac:(done)
    ltac:(intros; eapply HD; [|done]; set_solver) ltac:(lia) ltac:(lia) huge_entry_u64) as (E7 & F7 & H7). clear F6.
  change (filled (add_space D i) R P l s s' E7) in F7. clearbody s'. destruct F7 as [Ft Fi Fq Fe]. split; [|done].
  eapply inv_strengthen; [exact Fi|destruct Hsp; lia|]. intros _ _. split; rewrite (st_spaces _ _ Ft); intros k Hk.
  - etrans; [by apply (Fe (Root i))|]. rewrite H7, H6 by done. cbv beta. rewrite (st_pdpt _ _ Ft).
    repeat first [rewrite bool_decide_false by done|rewrite bool_decide_true by done]; cbn [andb].
    destruct (Z.eqb_spec k 0), (Z.eqb_spec k 256); try done; try lia. apply Hz; [set_solver|done].
  - etrans; [by apply (Fe (Pdpt i))|]. rewrite H7, H6 by done. cbv beta.
    repeat first [rewrite bool_decide_false by done|rewrite bool_decide_true by done]; cbn [andb].
    destruct (Z.eqb_spec k 0), (Z.eqb_spec k 4); try done; try lia. apply Hz; [set_solver|done].
  - etrans; [by apply (Fe (UserPd i))|]. rewrite H7, H6 by done. cbv beta.
    repeat rewrite bool_decide_false by done. cbn [andb]. rewrite Hpts by done. apply Hz; [set_solver|done].
Qed.

(** ** Creating a space *)

(** The answer is an unused index and the space behind it is empty. *)
Lemma vm64_create_space_inv R P l s :
  inv (fun _ => False) R P l s ->
  exists r i s', vm64_create_space text_start text_end rodata_start rodata_end s = Some (r, i, s') /\
    inv (fun _ => False) R P l s' /\
    ((r <> 0 /\ quiet s s') \/
     (r = 0 /\ is_space i /\ pml4 (spaces s i) = 0 /\ live s' i /\ aside i s s' /\
      (forall u, is_slot i u -> pte_at s' i u = 0) /\
      forall m, 0 <= m < VM64_MAPPING_MAX -> m_object (mappings (spaces s' i) m) = None)).
Proof.
  intros Hi. unfold vm64_create_space. destruct (scan_range _ _ _) as [i|] eqn:Hsc.
  2:{ exists (-1), 0, s. split; [done|]. split; [done|]. by left. }
  apply scan_range_Some in Hsc as (Hsp & Hd & _). apply negb_true_iff, nz_false in Hd.
  destruct (allocate_space_tables_inv _ R P l s i Hi Hsp Hd) as (r & s1 & -> & Hcase). cbn [mbind option_bind].
  destruct Hcase as [(Hr & Hi1 & Hq)|(-> & Hi1 & [B1 B2 B3 B4 B5])].
  { rewrite (proj2 (nz_true r) Hr). exists (-1), 0, s1. split; [done|]. split; [done|]. by left. }
  cbn [nz Z.eqb negb]. set (v := Space _ _ _ _ _ _ _).
  assert (same_space (spaces s1 i) v) as Hv.
  { split; try done. - intros k Hk. by rewrite B3. - intros m Hm. right. by rewrite B4. }
  destruct (set_space_inv _ R P l s1 i v Hi1 Hv) as [Hi2 Hpte2]. set (s2 := set_space i v s1) in *.
  assert (spaces s2 i = v) as Hthis by (simpl; by rewrite upd_eq).
  assert (live s2 i) as Hlv by (split; [done|]; rewrite Hthis; apply B2).
  destruct (fill_space_tables_inv (fun _ => False) R P l s2 i) as [Hi3 Hq3]; [done|done|..].
  { intros k Hk. by rewrite Hthis. }
  { intros r k Hr Hk. change (entry s2) with (entry s1). rewrite (same_space_role s1 i v) by
      (done || (rewrite !elem_of_cons, elem_of_nil in Hr; by destruct Hr as [->|[->|[->|[]]]])). by apply B5. }
  set (s3 := fill_space_tables _ _ _ _ i s2) in *.
  assert (aside i s s3) as Has.
  { eapply aside_trans; [exact B1|]. eapply aside_trans; [by eapply set_space_aside|]. by apply quiet_aside. }
  exists 0, i, s3. split; [done|]. split; [done|]. right.
  do 3 (split; [done|]). split; [by apply (quiet_live s2 s3)|]. split; [done|]. split.
  - intros u Hu. rewrite (as_pte _ _ _ Has) by done. unfold pte_at.
    destruct (i_dead _ _ _ _ _ Hi i Hsp Hd) as (_ & _ & _ & _ & Z5 & _). rewrite Z5; [done|]. destruct Hu. dmlia.
  - intros m Hm. by rewrite (qt_maps _ _ _ Hq3), Hthis.
Qed.


End Spaces.
End VmSpaces.
