(* ===== verification/VmDestroy.v ===== *)
(** * Destroying an address space

    [vm64_destroy_space] gives back every page the space owns, every page
    table, every reference to a mapped object and the space's five tables.
    The steps are taken in an order in which the counts do not add up for a
    moment; each is shown equal to the one in the other order. *)

From stdpp Require Import gmap.
From S2P Require Import Prelude Pmm Vm VmInv VmOps VmUser VmAccess VmSpaces.

Open Scope Z_scope.

Module VmDestroy.
Import Vm VmInv VmOps VmUser VmAccess VmSpaces.

Section Destroy.
Context {W : Type} {VM : VmModules W} {VO : VmObjects W} {VL : VmLaws W}.
Implicit Types (s : vm W).

Lemma for_vm_ind (Q : Z -> vm W -> Prop) from to body s :
  from <= to -> Q from s ->
  (forall k s, from <= k < to -> Q k s -> exists s', body k s = Some s' /\ Q (k + 1) s') ->
  exists s', for_vm from to body s = Some s' /\ Q to s'.
Proof.
  intros Hle H0 HS. unfold for_vm.
  pose proof (for_range_ind (fun k o => exists s', o = Some s' /\ Q k s') from to (fun i o => s ← o; body i s) (Some s)) as Hind.
  rewrite Z.max_r in Hind by done. apply Hind; [by exists s|].
  intros k o Hk (s' & -> & Hq). cbn [mbind option_bind]. by apply HS.
Qed.

(** ** Changing the order of independent steps *)

Lemma free_store a b v s : free_page a (store b v s) = store b v <$> free_page a s.
Proof.
  unfold free_page, Pmm.pmm_free_page. change (Pmm.page_refs (mm (store b v s))) with (Pmm.page_refs (mm s)).
  repeat case_match; done.
Qed.

Lemma free_space a i v s : free_page a (set_space i v s) = set_space i v <$> free_page a s.
Proof. unfold free_page. simpl. by destruct (Pmm.pmm_free_page a (mm s)). Qed.

Lemma release_space o i v s : release_object o (set_space i v s) = set_space i v <$> release_object o s.
Proof. unfold release_object. simpl. by destruct (object_release o (mm s) (rest s)) as [[q w]|]. Qed.

(** ** What a destroyed space leaves alone *)

Record others (i : Z) s s' : Prop := {
  ot_kept : kept (fun j _ => j = i) s s';
  ot_root j : j <> i -> pml4 (spaces s' j) = pml4 (spaces s j);
  ot_maps j m : j <> i -> mappings (spaces s' j) m = mappings (spaces s j) m
}.

#[global] Instance others_preorder i : PreOrder (others i).
Proof.
  split.
  - intros s. split; [apply kept_refl|done..].
  - intros x y z [A1 A2 A3] [B1 B2 B3]. split; [by eapply kept_trans|intros j Hj; by rewrite B2, A2|intros j m Hj; by rewrite B3, A3].
Qed.

(** ** The pages of a page table *)

Lemma aligned_page p : (4096 * p) &&& 0xFFF = 0.
Proof. rewrite offset_mod. dmlia. Qed.

Lemma vm64_free_page_refs p s :
  0 < p < Pmm.BITMAP_BITS -> 1 <= Pmm.page_refs (mm s) p ->
  vm64_free_page (4096 * p) s = (s ← free_page (4096 * p) s; Some (0, s)).
Proof.
  intros Hp Hr. unfold vm64_free_page. rewrite aligned_page, page_refs_page by lia.
  rewrite (proj2 (nz_true (4096 * p))), (proj2 (nz_true (Pmm.page_refs _ _))) by lia. done.
Qed.

Lemma destroy_entry_inv D R P l s i k x :
  inv D R P l s -> is_space i -> (forall m, R i m) -> 0 <= k < 512 -> 0 <= x < 512 -> user_pts (spaces s i) k <> 0 ->
  exists s', destroy_entry (user_pts (spaces s i) k) x s = Some s' /\ inv D R P l s' /\ same_tables s s' /\
    (forall j u, is_slot j u -> pte_at s' j u = if (j =? i) && (u =? 512 * k + x) then 0 else pte_at s j u) /\
    kept (fun j _ => j = i) s s'.
Proof.
  intros Hi Hsp HR Hk Hx Hpt. unfold destroy_entry. set (v := 512 * k + x).
  assert (is_slot i v) as Hs by (split; [done|unfold v; lia]).
  assert (v / 512 = k /\ v mod 512 = x) as [Hv1 Hv2] by (unfold v; split; dmlia).
  assert (pte_addr s i v = user_pts (spaces s i) k + 8 * x) as Had by (unfold pte_addr; by rewrite Hv1, Hv2).
  assert (norm (entry s (user_pts (spaces s i) k) x) = pte_at s i v) as He.
  { rewrite <- read_pte by (by rewrite Hv1). unfold entry. by rewrite Had. }
  destruct (store_pte_inv D R P l s i v 0 Hi Hs) as [Hi1 Hst]; [by rewrite Hv1|done|done| |].
  { split; [done|done|]. intros m _ _ Hn. destruct (Hn (HR m)). }
  unfold set_entry. rewrite <- Had. set (e := entry s _ x) in *.
  assert (forall q, own1 0 q = 0) as Hz by (intros q; apply own1_false; by left).
  change (VM64_PAGE_PRESENT ||| PAGE_OWNED) with (2 ^ 0 ||| 2 ^ 9). rewrite mask_test2 by done.
  assert (kept (fun j _ => j = i) s (store (pte_addr s i v) 0 s)) as Hk1.
  { eapply kept_mono; [|by eapply stored_kept]. by intros j u [-> _]. }
  destruct (pte_present e && pte_owned e) eqn:Hpo.
  - apply andb_true_iff in Hpo as [Hp Ho]. rewrite norm_id in He by done.
    rewrite He in Hp, Ho |- *. destruct (owned_page _ _ _ _ _ i v Hi Hs Hp Ho) as (Hpb & _ & _ & _ & _ & Hr).
    destruct (masked_page (pte_at s i v)) as [-> _]. set (p := phys_page (pte_at s i v)) in *.
    destruct (free_page_inv _ _ _ _ _ p Hi1) as (s2 & Hf & T2 & Hi2 & _ & P2 & M2); [|done|].
    { rewrite Hz. assert (own1 (pte_at s i v) p = 1) as -> by (by apply own1_true).
      pose proof (c_loose _ _ _ _ (i_core _ _ _ _ _ Hi) p). lia. }
    rewrite vm64_free_page_refs by done. rewrite free_store in Hf.
    destruct (free_page (4096 * p) s) as [s1|]; [|done]. cbn in Hf |- *. injection Hf as ->.
    exists s2. split_and!; try done.
    + eapply inv_loose_ext; [|exact Hi2]. intros q. unfold upd. rewrite !Hz, !own1_owned by done. fold p.
      destruct (Z.eqb_spec q p) as [->|]; rewrite ?Z.eqb_refl; simpl; lia.
    + etrans; [apply (ps_tables _ _ _ _ _ Hst)|done].
    + intros j u Hu. by rewrite P2, (ps_pte _ _ _ _ _ Hst).
    + eapply kept_trans; [exact Hk1|]. by apply unchanged_kept.
  - cbn. eexists. split_and!; [done| |apply (ps_tables _ _ _ _ _ Hst)|apply (ps_pte _ _ _ _ _ Hst)|done].
    eapply inv_loose_ext; [|exact Hi1]. intros q. simpl. rewrite Hz. rewrite own1_false; [lia|].
    rewrite <- He. unfold norm. destruct (pte_present e) eqn:Hp; [|by left]. cbn in Hpo. right. by left.
Qed.

Lemma unlinked_kept D R P l s i k q :
  inv D R P l s -> let s' := set_space i (set_user_pt k 0 (spaces s i)) (set_mm q s) in
  (forall j u, is_slot j u -> pte_at s' j u = pte_at s j u) -> (forall b, memory s' b = memory s b) -> others i s s'.
Proof.
  intros Hi s' Hpte Hm. split; [by apply unchanged_kept|..].
  - intros j Hj. by destruct (set_user_pt_space s i k 0 j) as (Hx & _).
  - intros j m Hj. destruct (set_user_pt_space s i k 0 j) as (_ & _ & _ & _ & _ & Hx & _). exact (f_equal (fun f => f m) Hx).
Qed.

(** What [destroy_pt] keeps of the space itself. *)
Record pt_gone (i k : Z) s s' : Prop := {
  pg_others : others i s s';
  pg_root : pml4 (spaces s' i) = pml4 (spaces s i);
  pg_maps : mappings (spaces s' i) = mappings (spaces s i);
  pg_rest : rest s' = rest s;
  pg_pts j : user_pts (spaces s' i) j = if j =? k then 0 else user_pts (spaces s i) j
}.

Lemma destroy_pt_inv D R P l s i k :
  inv D R P l s -> live s i -> D i -> (forall m, R i m) -> 0 <= k < 512 ->
  exists s', destroy_pt i k s = Some s' /\ inv D R P l s' /\ pt_gone i k s s'.
Proof.
  intros Hi Hlv HD HR Hk. pose proof Hlv as [Hsp Hl]. unfold destroy_pt.
  destruct (nz (user_pts (spaces s i) k)) eqn:Hpt; cbn [negb].
  2:{ apply nz_false in Hpt. exists s. split; [done|]. split; [done|]. split; try done.
      intros j. by destruct (Z.eqb_spec j k) as [->|]. }
  apply nz_true in Hpt. set (pt := user_pts (spaces s i) k) in *.
  destruct (for_vm_ind (fun n s' => inv D R P l s' /\ same_tables s s' /\ kept (fun j _ => j = i) s s' /\
    forall x, 0 <= x < n -> pte_at s' i (512 * k + x) = 0) 0 512 (destroy_entry pt) s) as (s1 & -> & I1 & T1 & K1 & Z1).
  - lia.
  - split_and!; [done..|apply kept_refl|]. intros; lia.
  - intros x s' Hx (I' & T' & K' & Z'). pose proof (st_spaces _ _ T') as Hss. unfold pt in Hpt |- *. rewrite <- Hss in Hpt |- *.
    destruct (destroy_entry_inv D R P l s' i k x) as (s'' & Hd & I'' & T'' & P'' & K''); try done.
    exists s''. split; [done|]. split_and!; [done|by etrans|by eapply kept_trans|]. intros y Hy.
    rewrite P'' by (split; [done|lia]). rewrite Z.eqb_refl. cbn [andb]. destruct (Z.eqb_spec (512 * k + y) (512 * k + x)); [done|].
    apply Z'. lia.
  - cbn [mbind option_bind]. pose proof (st_spaces _ _ T1) as Hss.
    destruct (role_page _ _ _ _ _ (UserPt i k) I1 ltac:(done)) as (p & Hp & Hpb & _); [simpl; by rewrite Hss|]. simpl in Hp.
    destruct (unlink_pt_inv D R P l s1 i k p I1) as (q & Hf & I2 & P2 & M2 & _); try done.
    { split; [done|by rewrite Hss]. } { lia. }
    { intros j Hj. rewrite <- norm_present. replace (norm _) with (pte_at s1 i (512 * k + j)); [by rewrite Z1|].
      unfold pte_at. replace ((512 * k + j) / 512) with k by dmlia. replace ((512 * k + j) mod 512) with j by dmlia.
      rewrite Hp. by rewrite (proj2 (Z.eqb_neq _ _)) by lia. }
    rewrite Hss in Hp. unfold pt. rewrite Hp, Hf. cbn [mbind option_bind]. eexists. split; [done|].
    change (spaces (set_mm q s1)) with (spaces s1). split.
    + eapply inv_weaken; [|exact I2]. intros j [Hx| ->]; done.
    + destruct (set_user_pt_space s1 i k 0 i) as (S1 & _ & _ & _ & _ & S6 & S7). rewrite !Hss in S1, S6, S7. rewrite !Hss. split.
      * etrans; [split; [exact K1|by rewrite Hss|by rewrite Hss]|]. rewrite <- Hss. by eapply unlinked_kept.
      * exact S1.
      * exact S6.
      * apply (st_rest _ _ T1).
      * intros j. etrans; [exact (S7 j)|]. by rewrite Z.eqb_refl.
Qed.

(** ** Mappings *)

Lemma set_mapping_space s i m e j :
  let s' := set_space i (set_mapping m e (spaces s i)) s in
  pml4 (spaces s' j) = pml4 (spaces s j) /\ pdpt (spaces s' j) = pdpt (spaces s j) /\
  identity_pd (spaces s' j) = identity_pd (spaces s j) /\ identity_pt0 (spaces s' j) = identity_pt0 (spaces s j) /\
  user_pd (spaces s' j) = user_pd (spaces s j) /\ user_pts (spaces s' j) = user_pts (spaces s j) /\
  forall m', mappings (spaces s' j) m' = if (j =? i) && (m' =? m) then e else mappings (spaces s j) m'.
Proof. simpl. unfold upd. destruct (Z.eqb_spec j i) as [->|]; simpl; [|done]. split_and!; done. Qed.

(** Writing a slot of the mapping array, justified on the abstraction. *)
Lemma set_mapping_inv D R P P' l s i m e :
  inv D R P l s -> is_space i -> 0 <= m < VM64_MAPPING_MAX -> (m_object e = None \/ pml4 (spaces s i) <> 0) ->
  core R P' l (with_map i m e (abs_of s)) ->
  let s' := set_space i (set_mapping m e (spaces s i)) s in
  inv D R P' l s' /\ (forall j u, is_slot j u -> pte_at s' j u = pte_at s j u) /\
  forall r, role_addr s' r = role_addr s r.
Proof.
  intros [I1 I2 I3 I4 I5 I6 I7 I8] Hsp Hm He Hc s'. pose proof (set_mapping_space s i m e) as Hs. fold s' in Hs.
  assert (forall j u, pte_at s' j u = pte_at s j u) as Hpte.
  { intros j u. unfold pte_at. by destruct (Hs j) as (_ & _ & _ & _ & _ & -> & _). }
  assert (forall r, role_addr s' r = role_addr s r) as Hrole.
  { intros [j|j|j|j|j|j k| | |k]; try done; simpl; destruct (Hs j) as (H1 & H2 & H3 & H4 & H5 & H6 & _); try done.
    exact (f_equal (fun f => f k) H6). }
  split; [|done]. split; try done.
  - eapply core_ext; [|exact Hc].
    split; [intros r _; symmetry; apply Hrole|intros j u _; symmetry; apply Hpte|done| |done].
    intros j m' _ _. symmetry. destruct (Hs j) as (_ & _ & _ & _ & _ & _ & Hx). exact (Hx m').
  - intros j Hj. destruct (Hs j) as (-> & -> & -> & -> & -> & -> & _). by apply I5.
  - intros j Hj. destruct (Hs j) as (-> & -> & -> & -> & -> & -> & Hx). intros Hl.
    destruct (I6 j Hj Hl) as (? & ? & ? & ? & ? & H6). split_and!; try done. intros m' Hm'. rewrite Hx.
    destruct (Z.eqb_spec j i) as [->|]; cbn [andb]; [|by apply H6]. destruct He as [He|He]; [|done].
    destruct (m' =? m); [done|by apply H6].
  - intros j Hj Hd. destruct (Hs j) as (E1 & E2 & E3 & _ & E5 & E6 & _). rewrite E1. intros Hl.
    destruct (I7 j Hj Hd Hl) as [U1 U2 U3].
    split; intros k Hk; rewrite ?E1, ?E2, ?E3, ?E5, ?E6; [by apply U1|by apply U2|by apply U3].
  - intros Hn. by apply (kernel_frame s); [..|apply I8].
Qed.

(** A change of the rest of the system and, with it, of the references. *)
Lemma rest_inv D R P l s q w :
  inv D R P l s -> Pmm.inv q -> (forall a, Pmm.memory q a = memory s a) -> Pmm.ram_bitmap q = Pmm.ram_bitmap (mm s) ->
  core R P l (Abs _ (role_addr s) (pte_at s) (Pmm.page_refs q) (fun i m => mappings (spaces s i) m) w) ->
  let s' := set_rest w (set_mm q s) in
  inv D R P l s' /\ (forall j u, is_slot j u -> pte_at s' j u = pte_at s j u) /\ (forall b, memory s' b = memory s b).
Proof.
  intros [I1 I2 I3 I4 I5 I6 I7 I8] Hq Hm Hram Hc s'.
  assert (forall p k, entry s' p k = entry s p k) as Hent by (intros p k; apply read64_ext; intros b _; apply Hm).
  assert (forall j u, pte_at s' j u = pte_at s j u) as Hpte.
  { intros j u. unfold pte_at. rewrite Hent. done. }
  split; [|done]. split; try done.
  - intros a. unfold memory. simpl. rewrite Hm. apply I2.
  - eapply core_ext; [|exact Hc]. split; simpl; intros; try done.
  - intros p Hd Hin. simpl. unfold Pmm.is_ram in *. rewrite Hram. by apply I4.
  - intros j Hj Hd Hl. destruct (I7 j Hj Hd Hl) as [U1 U2 U3].
    split; intros k Hk; rewrite Hent; [by apply U1|by apply U2|by apply U3].
  - intros Hn. by apply (kernel_frame s); [..|apply I8].
Qed.

(** Objects keep their pages and mappings their references. *)
Lemma same_objects_inv D R P l s w :
  inv D R P l s -> same_objects (rest s) w ->
  (forall o, Z.of_nat (size (mapset (abs_of s) o)) + pending_pins P o <= pins w o) ->
  let s' := set_rest w s in
  inv D R P l s' /\ (forall j u, is_slot j u -> pte_at s' j u = pte_at s j u) /\ (forall b, memory s' b = memory s b).
Proof.
  intros Hi Hw Hp. assert (set_rest w s = set_rest w (set_mm (mm s) s)) as -> by done.
  apply (rest_inv D R P l s (mm s) w Hi); try done; [apply (i_mm _ _ _ _ _ Hi)|].
  exact (core_world R P l (abs_of s) w (i_core _ _ _ _ _ Hi) Hw Hp).
Qed.

(** Giving up a reference that no mapping needs. *)
Lemma release_object_inv D R P l s o :
  inv D R P l s ->
  (forall o', Z.of_nat (size (mapset (abs_of s) o')) + pending_pins P o' + Z.b2z (o' =? o) <= pins (rest s) o') ->
  exists s', release_object o s = Some s' /\ inv D R P l s' /\ spaces s' = spaces s /\
    (forall j u, is_slot j u -> pte_at s' j u = pte_at s j u) /\ (forall b, memory s' b = memory s b).
Proof.
  intros Hi Hp. pose proof (i_core _ _ _ _ _ Hi) as Hc.
  destruct (release_law (rest s) o (mm s)) as (q & w & Hrel & Hr).
  { pose proof (Hp o) as Ho. rewrite Z.eqb_refl in Ho. simpl in Ho.
    assert (pending_pins P o >= 0) by (unfold pending_pins; destruct P as [[? ?]|]; [case_decide|]; lia). lia. }
  { apply (i_mm _ _ _ _ _ Hi). }
  { intros p. destruct (Z.le_gt_cases (held (rest s) p) 0) as [Hz|Hz].
    - pose proof (Pmm.base_refs _ (Pmm.inv_base _ (i_mm _ _ _ _ _ Hi)) p). lia.
    - destruct (c_held _ _ _ _ Hc p ltac:(simpl; lia)) as (_ & _ & Hx). simpl in Hx. lia. }
  unfold release_object. rewrite Hrel. cbn [mbind option_bind]. eexists. split; [done|].
  destruct (rest_inv D R P l s q w Hi) as (Hi' & Hpte & Hm).
  - apply (rl_inv _ _ _ _ _ Hr).
  - apply (rl_memory _ _ _ _ _ Hr).
  - apply (rl_ram _ _ _ _ _ Hr).
  - apply (core_released R P l (abs_of s) o (mm s) q w Hc); [done|done|]. intros o'. rewrite (rl_pins _ _ _ _ _ Hr).
    pose proof (Hp o'). simpl. lia.
  - done.
Qed.

(** Removing a mapping whose entries are gone and giving up its reference. *)
Lemma drop_mapping_inv D R P l s i m e o :
  inv D R P l s -> is_space i -> 0 <= m < VM64_MAPPING_MAX -> m_object (mappings (spaces s i) m) = Some o ->
  m_object e = None ->
  (forall v, is_slot i v -> covers (mappings (spaces s i) m) v -> pte_present (pte_at s i v) = true ->
     pte_owned (pte_at s i v) = true) ->
  exists s', release_object o (set_rest (page_resource_mapping_close o (rest s)) s) = Some s' /\
    spaces s' = spaces s /\
    let s'' := set_space i (set_mapping m e (spaces s i)) s' in
    inv D R P l s'' /\ (forall j u, is_slot j u -> pte_at s'' j u = pte_at s j u) /\ (forall b, memory s'' b = memory s b).
Proof.
  intros Hi Hsp Hm Ho He Hown. pose proof (i_core _ _ _ _ _ Hi) as Hc.
  destruct (set_mapping_inv D R P P l s i m e) as (I1 & P1 & _); try done; [by left|apply core_unmap; try done; intros v Hv _; by apply Hown|].
  set (s1 := set_space i _ s) in *.
  assert (forall o', Z.of_nat (size (mapset (abs_of s1) o')) + pending_pins P o' + Z.b2z (o' =? o) <= pins (rest s) o') as Hpins.
  { intros o'. rewrite (mapset_ext _ (with_map i m e (abs_of s))).
    2:{ intros j m' _ _. destruct (set_mapping_space s i m e j) as (_ & _ & _ & _ & _ & _ & Hx). exact (Hx m'). }
    rewrite mapset_with_map by done. simpl. pose proof (c_pins _ _ _ _ Hc o') as Hp. simpl in Hp. unfold names1. rewrite Ho, He.
    destruct (Z.eqb_spec o' o) as [->|]; cbn [Z.b2z]; [rewrite decide_True, decide_False by done; lia|].
    rewrite !decide_False by congruence. lia. }
  destruct (close_law (rest s) o) as [Hso Hpn]. set (w := page_resource_mapping_close o (rest s)) in *.
  destruct (same_objects_inv D R P l s1 w I1 Hso) as (I2 & P2 & M2).
  { intros o'. rewrite Hpn. pose proof (Hpins o'). destruct (o' =? o); simpl in *; lia. }
  destruct (release_object_inv D R P l (set_rest w s1) o I2) as (s3 & Hr & I3 & S3 & P3 & M3).
  { intros o'. simpl. rewrite Hpn. apply Hpins. }
  change (set_rest w s1) with (set_space i (set_mapping m e (spaces s i)) (set_rest w s)) in Hr.
  rewrite release_space in Hr. destruct (release_object o (set_rest w s)) as [s2|] eqn:Hr2; [|done]. simpl in Hr. injection Hr as <-.
  exists s2. split; [done|]. split.
  { unfold release_object in Hr2. destruct (object_release _ _ _) as [[q w']|]; [|done]. simpl in Hr2. by injection Hr2 as <-. }
  split_and!; [done|intros j u Hu; by rewrite P3, P2, P1|intros b; by rewrite M3, M2].
Qed.

Lemma destroy_mapping_inv D R P l s i m :
  inv D R P l s -> is_space i -> 0 <= m < VM64_MAPPING_MAX -> (forall v, is_slot i v -> pte_at s i v = 0) ->
  exists s' e, destroy_mapping i m s = Some s' /\ inv D R P l s' /\ others i s s' /\ m_object e = None /\
    spaces s' i = set_mapping m e (spaces s i) /\ forall v, is_slot i v -> pte_at s' i v = 0.
Proof.
  intros Hi Hsp Hm Hz. unfold destroy_mapping. set (e := Mapping None _ _).
  assert (forall s', spaces s' = spaces s -> let s'' := set_space i (set_mapping m e (spaces s' i)) s' in
    (forall j u, is_slot j u -> pte_at s'' j u = pte_at s j u) -> (forall b, memory s'' b = memory s b) -> others i s s'') as Hoth.
  { intros s' Hs s'' Hpte Hmem. split; [by apply unchanged_kept|..]; intros j; intros; simpl; rewrite upd_ne, Hs by done; done. }
  destruct (m_object (mappings (spaces s i) m)) as [o|] eqn:Ho.
  - destruct (drop_mapping_inv D R P l s i m e o) as (s1 & -> & S1 & I1 & P1 & M1); try done.
    { intros v Hv _ Hp. by rewrite Hz in Hp. }
    cbn [mbind option_bind]. rewrite <- S1 in I1, P1, M1. eexists _, e. split; [done|]. split; [done|]. split; [by apply Hoth|].
    split; [done|]. split; [simpl; by rewrite upd_eq, S1|]. intros v Hv. by rewrite P1, Hz.
  - cbn [mbind option_bind].
    destruct (set_mapping_inv D R P P l s i m e) as (I1 & P1 & _); try done; [by left| |].
    { apply core_unmap; try done; apply (i_core _ _ _ _ _ Hi). }
    eexists _, e. split; [done|]. split; [done|]. split; [by apply Hoth|].
    split; [done|]. split; [simpl; by rewrite upd_eq|]. intros v Hv. by rewrite P1, Hz.
Qed.

(** ** The tables of the space *)

Definition unlinked (L : list (role * Z)) : list (role * Z) := map (fun '(r, _) => (r, 0)) L.

Lemma core_unlink_all R P l L x :
  core R P l x -> NoDup (map fst L) ->
  (forall r a, (r, a) ∈ L -> valid_role r /\ a_role x r = a /\ exists p, a = 4096 * p /\ p <> 0) ->
  core R P (fun p => l p + loose_of (map snd L) p) (with_roles (unlinked L) x).
Proof.
  revert l x. induction L as [|[r a] L IH]; intros l x Hc Hnd HL; simpl in *.
  { eapply core_loose_ext; [|exact Hc]. intros p. simpl. lia. }
  apply NoDup_cons in Hnd as [Hni Hnd].
  destruct (HL r a ltac:(left)) as (Hr & Hra & p & -> & Hp).
  assert (is_table x p) as Ht by (exists r; rewrite Hra; split_and!; (done || lia)).
  destruct (c_table _ _ _ _ Hc p Ht) as (_ & Hl0 & _).
  eapply core_loose_ext; [|apply (IH (upd l p 1)); [by apply core_unlink|done|]].
  - intros q. rewrite one_page by done. unfold upd. destruct (Z.eqb_spec q p) as [->|]; simpl; lia.
  - intros r' a' Hin. destruct (HL r' a' ltac:(by right)) as (Hr' & Hra' & Hp'). split; [done|]. split; [|done]. simpl.
    rewrite decide_False; [done|]. intros ->. apply Hni, list_elem_of_In, in_map_iff. exists (r, a'). by rewrite <- list_elem_of_In.
Qed.

Lemma free_ifs_space A i v s : free_ifs A (set_space i v s) = set_space i v <$> free_ifs A s.
Proof.
  revert s. induction A as [|a A IH]; intros s; simpl; [done|]. unfold free_if. destruct (nz a); simpl; [|apply IH].
  rewrite free_space. destruct (free_page a s) as [s'|]; simpl; [apply IH|done].
Qed.

(** The mappings that may be out of step matter only where there is one. *)
Lemma core_mappings (R R' : Z -> Z -> Prop) P l (x : abs W) :
  core R P l x ->
  (forall i m, is_space i -> 0 <= m < VM64_MAPPING_MAX -> m_object (a_map x i m) <> None -> R i m -> R' i m) ->
  core R' P l x.
Proof.
  intros Hc HR. destruct Hc as [C1 C2 C3 C4 C5 C6 C7 C8 C9 C10 C11 C12]. split; try assumption.
  - intros i m v Hs Hm Ho Hn. apply (C11 i m v); try done. intros Hr. apply Hn. by apply HR; [apply Hs|..].
  - intros i m m' v Hs Hm Hm' Hne Ho Ho' Hn Hn'.
    apply (C12 i m m' v); try done; intros Hr; [apply Hn|apply Hn']; by apply HR; [apply Hs|..].
Qed.

Lemma inv_mappings D (R R' : Z -> Z -> Prop) P l s :
  inv D R P l s ->
  (forall i m, is_space i -> 0 <= m < VM64_MAPPING_MAX -> m_object (mappings (spaces s i) m) <> None -> R i m -> R' i m) ->
  inv D R' P l s.
Proof. intros [I1 I2 I3 I4 I5 I6 I7 I8] HR. split; try done. by apply (core_mappings R R'). Qed.

(** The space is empty: its five tables go. *)
Lemma unlink_space_inv D R P l s i :
  inv (add_space D i) R P l s -> live s i -> (forall k, 0 <= k < 512 -> user_pts (spaces s i) k = 0) ->
  (forall m, 0 <= m < VM64_MAPPING_MAX -> m_object (mappings (spaces s i) m) = None) ->
  let v := spaces s i in
  let s' := set_space i (Space 0 0 0 0 0 (user_pts v) (mappings v)) s in
  inv D R P (fun p => l p + loose_of [pml4 v; pdpt v; identity_pd v; identity_pt0 v; user_pd v] p) s' /\
  (forall j u, is_slot j u -> pte_at s' j u = pte_at s j u).
Proof.
  intros Hi [Hsp Hl] Hpts Hmaps v s'. destruct (i_live _ _ _ _ _ Hi i Hsp Hl) as (L1 & L2 & L3 & L4 & _).
  assert (spaces s' i = Space 0 0 0 0 0 (user_pts v) (mappings v)) as Hthis by (simpl; by rewrite upd_eq).
  assert (forall j, j <> i -> spaces s' j = spaces s j) as Hoth by (intros j Hj; simpl; by rewrite upd_ne).
  assert (forall j u, pte_at s' j u = pte_at s j u) as Hpte.
  { intros j u. unfold pte_at. destruct (Z.eq_dec j i) as [->|Hj]; [by rewrite Hthis|by rewrite Hoth]. }
  split; [|done]. set (L := space_roles i (pml4 v) (pdpt v) (identity_pd v) (identity_pt0 v) (user_pd v)).
  pose proof (with_roles_rest (unlinked L) (abs_of s)) as (R1 & R2 & R3 & R4).
  assert (core R P (fun p => l p + loose_of (map snd L) p) (with_roles (unlinked L) (abs_of s))) as Hcore.
  { apply core_unlink_all; [apply (i_core _ _ _ _ _ Hi)|repeat constructor; simpl; rewrite ?elem_of_cons, ?elem_of_nil; naive_solver|].
    intros r a Hin. assert (valid_role r /\ role_addr s r = a /\ a <> 0) as (Hr & Hra & Ha).
    { unfold L, space_roles in Hin. rewrite !elem_of_cons, elem_of_nil in Hin.
      destruct Hin as [[= -> ->]|[[= -> ->]|[[= -> ->]|[[= -> ->]|[[= -> ->]|[]]]]]]; done. }
    split; [done|]. split; [done|]. rewrite <- Hra in Ha. destruct (role_page _ _ _ _ _ r Hi Hr Ha) as (p & Hp & Hpb & _).
    exists p. split; [congruence|lia]. }
  pose proof Hi as [I1 I2 I3 I4 I5 I6 I7 I8]. apply (inv_strengthen _ _ _ _ _ i); [|destruct Hsp; lia|intros _; by rewrite Hthis].
  split; try done.
  - eapply core_ext; [|exact Hcore].
    split; rewrite ?R1, ?R2, ?R3, ?R4; intros; try done; symmetry; [by apply set_space_roles|by apply Hpte|].
    change (mappings (spaces s' i0) m = mappings (spaces s i0) m).
    destruct (Z.eq_dec i0 i) as [->|Hj]; [by rewrite Hthis|by rewrite Hoth].
  - intros j Hj. destruct (Z.eq_dec j i) as [->|Hji]; [by rewrite Hthis|rewrite Hoth by done; by apply I5].
  - intros j Hj. destruct (Z.eq_dec j i) as [->|Hji]; [rewrite Hthis|rewrite Hoth by done; by apply I6]. done.
  - intros j Hj Hnd. assert (j <> i) as Hji by (intros ->; apply Hnd; by right). rewrite (Hoth j Hji). intros Hlj.
    destruct (I7 j Hj Hnd Hlj) as [U1 U2 U3].
    split; intros k Hk; rewrite (Hoth j Hji); [by apply U1|by apply U2|by apply U3].
  - intros Hn. by apply (kernel_frame s); [..|apply I8].
Qed.

(** All page tables of the space. *)
Lemma destroy_pts_inv D R P l s i :
  inv D R P l s -> live s i -> D i -> (forall m, R i m) ->
  exists s', for_vm 0 512 (destroy_pt i) s = Some s' /\ inv D R P l s' /\ others i s s' /\ live s' i /\
    forall k, 0 <= k < 512 -> user_pts (spaces s' i) k = 0.
Proof.
  intros Hi Hlv HD HR.
  apply (for_vm_ind (fun n s' => inv D R P l s' /\ others i s s' /\ live s' i /\
    forall k, 0 <= k < n -> user_pts (spaces s' i) k = 0) 0 512); [done|by split_and!; [..|intros; lia]|].
  intros k s' Hk (I' & O' & L' & Z'). destruct (destroy_pt_inv D R P l s' i k I' L' HD HR ltac:(lia)) as (s'' & Hd & I'' & [G1 G2 G3 G4 G5]).
  exists s''. split; [done|]. split; [done|]. split; [by etrans|]. split; [destruct L'; split; [done|congruence]|].
  intros j Hj. rewrite G5. destruct (Z.eqb_spec j k); [done|]. apply Z'. lia.
Qed.

(** All mappings of the space. *)
Lemma destroy_mappings_inv D R P l s i :
  inv D R P l s -> live s i -> (forall k, 0 <= k < 512 -> user_pts (spaces s i) k = 0) ->
  exists s', for_vm 0 VM64_MAPPING_MAX (destroy_mapping i) s = Some s' /\ inv D R P l s' /\ others i s s' /\ live s' i /\
    (forall k, 0 <= k < 512 -> user_pts (spaces s' i) k = 0) /\
    forall m, 0 <= m < VM64_MAPPING_MAX -> m_object (mappings (spaces s' i) m) = None.
Proof.
  intros Hi Hlv Hpts.
  apply (for_vm_ind (fun n s' => inv D R P l s' /\ others i s s' /\ live s' i /\
    (forall k, 0 <= k < 512 -> user_pts (spaces s' i) k = 0) /\
    forall m, 0 <= m < n -> m_object (mappings (spaces s' i) m) = None) 0 VM64_MAPPING_MAX); [done|by split_and!; [..|intros; lia]|].
  intros m s' Hm (I' & O' & [Hsp Hl] & U' & Z').
  destruct (destroy_mapping_inv D R P l s' i m I' Hsp Hm) as (s'' & e & Hd & I'' & O'' & He & Hs & _).
  { intros v [_ Hv]. unfold pte_at. rewrite U'; [done|dmlia]. }
  exists s''. split; [done|]. split; [done|]. split; [by etrans|]. split; [split; [done|by rewrite Hs]|]. rewrite Hs. split; [done|].
  intros m' Hm'. simpl. unfold upd. destruct (Z.eqb_spec m' m); [done|]. apply Z'. lia.
Qed.

(** Destroying a space never panics, returns every reference the space holds
    and leaves every other space alone. *)
Lemma vm64_destroy_space_inv D R P l s i :
  inv D R P l s -> 0 <= i ->
  exists s', vm64_destroy_space i s = Some s' /\ inv D R P l s' /\ others i s s' /\
    (is_space i -> pml4 (spaces s' i) = 0).
Proof.
  intros Hi Hi0. unfold vm64_destroy_space. destruct (Z.leb_spec VM64_MAX_SPACES i).
  { exists s. split_and!; try done. intros []; lia. }
  destruct (nz (pml4 (spaces s i))) eqn:Hl; cbn [negb orb].
  2:{ apply nz_false in Hl. by exists s. }
  apply nz_true in Hl. assert (is_space i) as Hsp by (unfold is_space; lia).
  set (R' := fun j m => R j m \/ j = i).
  assert (inv (add_space D i) R' P l s) as Hi1.
  { apply (inv_mappings _ R); [|by left]. eapply inv_weaken; [|exact Hi]. by left. }
  destruct (destroy_pts_inv _ R' P l s i Hi1) as (s1 & -> & I1 & O1 & L1 & U1); [done|by right|by right|].
  cbn [mbind option_bind]. destruct (destroy_mappings_inv _ _ _ _ _ _ I1 L1 U1) as (s2 & -> & I2 & O2 & L2 & U2 & M2).
  cbn [mbind option_bind]. destruct (unlink_space_inv D R' P l s2 i I2 L2 U2 M2) as [I3 P3].
  pose proof (i_live _ _ _ _ _ I2 i Hsp (proj2 L2)) as (N1 & N2 & N3 & N4 & _). set (v := spaces s2 i) in *.
  assert (pml4 v <> 0) as N0 by apply L2.
  destruct (free_ifs_inv D R' P l [user_pd v; identity_pt0 v; identity_pd v; pdpt v; pml4 v]
    (set_space i (Space 0 0 0 0 0 (user_pts v) (mappings v)) s2)) as (s4 & Hf & T4 & I4 & P4 & M4).
  { eapply inv_loose_ext; [|exact I3]. intros p. simpl. lia. }
  { apply (c_loose _ _ _ _ (i_core _ _ _ _ _ Hi)). }
  { intros a Ha. rewrite !elem_of_cons, elem_of_nil in Ha.
    pose proof (fun r => role_page_addr _ _ _ _ _ r I2) as Hpg.
    destruct Ha as [->|[->|[->|[->|[->|[]]]]]]; [apply (Hpg (UserPd i))|apply (Hpg (IdentityPt0 i))|apply (Hpg (IdentityPd i))|
      apply (Hpg (Pdpt i))|apply (Hpg (Root i))]; done. }
  rewrite free_ifs_space in Hf. cbn [free_ifs] in Hf. unfold free_if in Hf.
  rewrite (proj2 (nz_true _) N1), (proj2 (nz_true _) N2), (proj2 (nz_true _) N3), (proj2 (nz_true _) N4), (proj2 (nz_true _) N0) in Hf.
  destruct (free_page (user_pd v) s2) as [x1|]; [cbn [mbind option_bind] in Hf |- *|done].
  destruct (free_page (identity_pt0 v) x1) as [x2|]; [cbn [mbind option_bind] in Hf |- *|done].
  destruct (free_page (identity_pd v) x2) as [x3|]; [cbn [mbind option_bind] in Hf |- *|done].
  destruct (free_page (pdpt v) x3) as [x4|]; [cbn [mbind option_bind] in Hf |- *|done].
  destruct (free_page (pml4 v) x4) as [x5|]; [cbn [mbind option_bind] in Hf |- *|done].
  simpl in Hf. injection Hf as Hf. exists s4. rewrite Hf. split; [done|]. pose proof (st_spaces _ _ T4) as Hs4. split; [|split].
  - apply (inv_mappings _ R'); [done|]. intros j m Hj Hm Ho [?| ->]; [done|]. rewrite Hs4 in Ho. simpl in Ho. rewrite upd_eq in Ho. simpl in Ho.
    by rewrite M2 in Ho.
  - etrans; [exact O1|]. etrans; [exact O2|]. split.
    + apply unchanged_kept; [intros j u Hu; by rewrite P4, P3|intros b; by rewrite M4].
    + intros j Hj. rewrite Hs4. simpl. by rewrite upd_ne.
    + intros j m Hj. rewrite Hs4. simpl. by rewrite upd_ne.
  - intros _. rewrite Hs4. simpl. by rewrite upd_eq.
Qed.

End Destroy.
End VmDestroy.
