(* ===== verification/VmClone.v ===== *)
(** * Cloning an address space

    [vm64_clone_space] makes a space that shares every page its source owns.
    Entries that could be written become read-only and copy-on-write in both,
    so the two go separate ways at the first write of either. *)

From stdpp Require Import gmap.
From S2P Require Import Prelude Pmm Vm VmInv VmOps VmUser VmAccess VmSpaces VmDestroy.

Open Scope Z_scope.

Module VmClone.
Import Vm VmInv VmOps VmUser VmAccess VmSpaces VmDestroy.

(** The entry [e] of an owned page once it is shared. *)
Definition share (e : Z) : Z :=
  if pte_writable e
  then 4096 * phys_page e ||| (Z.ldiff (Z.ldiff e VM64_PHYS_MASK) VM64_PAGE_WRITE ||| VM64_PAGE_COW)
  else e.

Lemma rebuild e : (e &&& VM64_PHYS_MASK) ||| Z.ldiff e VM64_PHYS_MASK = e.
Proof.
  apply Z.bits_inj'. intros n Hn. rewrite Z.lor_spec, Z.land_spec, Z.ldiff_spec.
  by destruct (Z.testbit e n), (Z.testbit VM64_PHYS_MASK n).
Qed.

Lemma share_flags e :
  is_u64 e ->
  let fl := Z.ldiff (Z.ldiff e VM64_PHYS_MASK) VM64_PAGE_WRITE ||| VM64_PAGE_COW in
  is_u64 fl /\ fl &&& VM64_PHYS_MASK = 0 /\
  forall n, 0 <= n < 12 \/ 52 <= n -> Z.testbit fl n = (Z.testbit e n && negb (1 =? n)) || (10 =? n).
Proof.
  intros Ho fl. unfold fl. split_and!.
  - apply lor_u64; [by do 2 apply ldiff_u64|by unfold is_u64].
  - apply mask_lor; [apply mask_ldiff, ldiff_mask|done].
  - intros n Hn. rewrite Z.lor_spec, !Z.ldiff_spec, mask_bits by lia. change VM64_PAGE_COW with (2 ^ 10).
    change VM64_PAGE_WRITE with (2 ^ 1). rewrite !pow2_bit by done.
    destruct (Z.leb_spec 12 n), (Z.ltb_spec n 52); cbn [andb negb]; rewrite ?andb_true_r; (done || lia).
Qed.

Record shares (e e' : Z) : Prop := {
  sh_u64 : is_u64 e';
  sh_present : pte_present e' = pte_present e;
  sh_owned : pte_owned e' = pte_owned e;
  sh_user : pte_user e' = pte_user e;
  sh_no_execute : pte_no_execute e' = pte_no_execute e;
  sh_writable : pte_writable e' = false;
  sh_cow : pte_cow e' = pte_cow e || pte_writable e;
  sh_page : phys_page e' = phys_page e
}.

Lemma share_spec e : is_u64 e -> shares e (share e).
Proof.
  intros He. unfold share. destruct (pte_writable e) eqn:Hw.
  - destruct (share_flags e He) as (F1 & F2 & F3). destruct (masked_page e) as [_ Hp].
    split; try (rewrite build_bits by lia; rewrite F3 by lia; cbn; rewrite ?Hw, ?andb_true_r, ?andb_false_r, ?orb_false_r, ?orb_true_r; done).
    + by apply flags_u64.
    + by apply build_phys.
  - split; try done. by rewrite Hw, orb_false_r.
Qed.

(** What becomes of the source's entry, and what the clone gets. *)
Definition shared (e : Z) : Z := if pte_present e && pte_owned e then share e else e.

Definition given (e : Z) : Z := if pte_present e && pte_owned e then share e else 0.

Section Clone.
Context {W : Type} {VM : VmModules W} {VO : VmObjects W} {VL : VmLaws W}.
Implicit Types (s : vm W).

Lemma for_return_ind (Q F : Z -> vm W -> Prop) from to body s :
  from <= to -> Q from s ->
  (forall k s, from <= k < to -> Q k s -> exists r s', body k s = Some (r, s') /\
     match r with None => Q (k + 1) s' | Some z => F z s' end) ->
  exists r s', for_return from to body s = Some (r, s') /\ match r with None => Q to s' | Some z => F z s' end.
Proof.
  intros Hle H0 HS. unfold for_return.
  pose proof (for_range_ind (fun k o => exists r s', o = Some (r, s') /\ match r with None => Q k s' | Some z => F z s' end)
    from to (fun i o => '(r, s) ← o; match r with Some _ => Some (r, s) | None => body i s end) (Some (None, s))) as Hind.
  rewrite Z.max_r in Hind by done. apply Hind; [by exists None, s|].
  intros k o Hk (r & s' & -> & Hq). cbn [mbind option_bind]. destruct r as [z|]; [by exists (Some z), s'|]. by apply HS.
Qed.

(** Pages in use stay in use and keep their contents. *)
Record grown s s' : Prop := {
  gr_leaf p : leaf s p -> leaf s' p;
  gr_memory b : leaf s (b / 4096) -> memory s' b = memory s b;
  gr_root j : pml4 (spaces s' j) = pml4 (spaces s j);
  gr_maps j : mappings (spaces s' j) = mappings (spaces s j);
  gr_rest : rest s' = rest s
}.

#[global] Instance grown_preorder : PreOrder grown.
Proof.
  split; [by split|]. intros x y z [A1 A2 A3 A4 A5] [B1 B2 B3 B4 B5]. split.
  - auto.
  - intros b Hb. rewrite B2, A2; auto.
  - intros j. by rewrite B3.
  - intros j. by rewrite B4.
  - by rewrite B5.
Qed.

Lemma quiet_grown s s' : quiet s s' -> grown s s'.
Proof.
  intros [A1 A2 A3 A4 A5 A6 A7]. split; try done. intros p Hp. pose proof Hp as [H1 _]. split; [by rewrite A3|by apply A4].
Qed.

Lemma quiet_leaf s s' p : quiet s s' -> leaf s p -> leaf s' p.
Proof. intros Hq. by apply (gr_leaf _ _ (quiet_grown _ _ Hq)). Qed.

Lemma tables_grown s s' :
  same_tables s s' -> (forall p, Pmm.page_refs (mm s) p <> 0 -> Pmm.page_refs (mm s') p <> 0) ->
  (forall b, ~ is_table (abs_of s) (b / 4096) -> memory s' b = memory s b) -> grown s s'.
Proof.
  intros Ht Hr Hm. split.
  - intros p [[H1|H1] H2]; (split; [auto|]); intros Hx; apply H2;
      (apply (is_table_roles s s'); [|done]); intros r _; by apply same_tables_role.
  - intros b [_ Hb]. by apply Hm.
  - intros j. by rewrite (st_spaces _ _ Ht).
  - intros j. by rewrite (st_spaces _ _ Ht).
  - apply (st_rest _ _ Ht).
Qed.

Lemma stored_grown s s' i v e : pte_stored s s' i v e -> grown s s'.
Proof. intros [S1 S2 S3 S4]. apply tables_grown; [done|intros p; by rewrite S2|done]. Qed.

(** A page with one read-only owner has no writable one. *)
Lemma readonly_owners D R P l s i v :
  inv D R P l s -> is_slot i v -> pte_present (pte_at s i v) = true -> pte_owned (pte_at s i v) = true ->
  pte_writable (pte_at s i v) = false ->
  forall j u, (j, u) ∈ owners (abs_of s) (phys_page (pte_at s i v)) -> pte_writable (pte_at s j u) = false.
Proof.
  intros Hi Hs Hp Ho Hw j u Hju. destruct (owned_page _ _ _ _ _ i v Hi Hs Hp Ho) as (_ & Hiv & _ & _ & Hr & _).
  destruct (pte_writable (pte_at s j u)) eqn:Hwj; [exfalso|done].
  assert ((i, v) <> (j, u)) as Hne by (intros [= <- <-]; congruence).
  pose proof (proj1 (elem_of_owners _ _ _ _) Hju) as (Hsj & H1 & H2 & H3). simpl in H1, H2, H3.
  pose proof (c_excl _ _ _ _ (i_core _ _ _ _ _ Hi) j u Hsj H1 H2 Hwj) as Hone. simpl in Hone. rewrite H3 in Hone.
  pose proof (c_loose _ _ _ _ (i_core _ _ _ _ _ Hi) (phys_page (pte_at s i v))) as Hl. simpl in Hl.
  assert ({[(i, v); (j, u)]} ⊆ owners (abs_of s) (phys_page (pte_at s i v))) as Hsub by set_solver.
  apply subseteq_size in Hsub. rewrite size_union, !size_singleton in Hsub by set_solver. lia.
Qed.

Lemma present_entry s i v :
  user_pts (spaces s i) (v / 512) <> 0 -> pte_present (read64 (memory s) (pte_addr s i v)) = true ->
  read64 (memory s) (pte_addr s i v) = pte_at s i v.
Proof. intros Hp He. rewrite <- read_pte by done. by rewrite norm_id. Qed.

(** The source's side of sharing a page. *)
Lemma share_entry_inv D R P l s i v :
  inv D R P l s -> is_slot i v -> pte_present (pte_at s i v) = true -> pte_owned (pte_at s i v) = true ->
  let e := pte_at s i v in
  let s' := if pte_writable e then store (pte_addr s i v) (share e) s else s in
  inv D R P l s' /\ same_tables s s' /\ grown s s' /\
  forall j u, is_slot j u -> pte_at s' j u = if (j =? i) && (u =? v) then share e else pte_at s j u.
Proof.
  intros Hi Hs Hp Ho e s'. pose proof (pte_u64 _ _ _ _ _ i v Hi) as Hu. fold e in Hu, Hp, Ho.
  destruct (share_spec e Hu) as [S1 S2 S3 S4 S5 S6 S7 S8].
  destruct (owned_page _ _ _ _ _ i v Hi Hs Hp Ho) as (Hpb & _ & Hnt & Hh & _). fold e in Hpb, Hnt, Hh.
  destruct (pte_writable e) eqn:Hw.
  - destruct (store_pte_inv D R P l s i v (share e) Hi Hs) as [Hi1 Hst]; [by apply pte_at_table|done|apply norm_id; congruence| |].
    { apply (owned_fits D); rewrite ?S8; try done; [by right|congruence| |congruence].
      fold e. rewrite own1_owned, Z.eqb_refl by done. simpl. pose proof (c_loose _ _ _ _ (i_core _ _ _ _ _ Hi) (phys_page e)). lia. }
    split_and!; [|apply (ps_tables _ _ _ _ _ Hst)|by eapply stored_grown|apply (ps_pte _ _ _ _ _ Hst)].
    eapply inv_loose_ext; [|exact Hi1]. intros q. simpl. fold e. rewrite !own1_owned by congruence. rewrite S8. lia.
  - split_and!; try done. intros j u Hju. unfold share. rewrite Hw. destruct (Z.eqb_spec j i) as [->|], (Z.eqb_spec u v) as [->|]; done.
Qed.

(** The flags the code computes and the store it makes. *)
Lemma share_code s i v :
  let e := pte_at s i v in
  (if nz (Z.ldiff e VM64_PHYS_MASK &&& VM64_PAGE_WRITE)
   then (Z.ldiff (Z.ldiff e VM64_PHYS_MASK) VM64_PAGE_WRITE ||| VM64_PAGE_COW,
         store (pte_addr s i v)
           ((e &&& VM64_PHYS_MASK) ||| (Z.ldiff (Z.ldiff e VM64_PHYS_MASK) VM64_PAGE_WRITE ||| VM64_PAGE_COW)) s)
   else (Z.ldiff e VM64_PHYS_MASK, s)) =
  (if pte_writable e then Z.ldiff (Z.ldiff e VM64_PHYS_MASK) VM64_PAGE_WRITE ||| VM64_PAGE_COW else Z.ldiff e VM64_PHYS_MASK,
   if pte_writable e then store (pte_addr s i v) (share e) s else s) /\
  (e &&& VM64_PHYS_MASK) ||| (if pte_writable e
     then Z.ldiff (Z.ldiff e VM64_PHYS_MASK) VM64_PAGE_WRITE ||| VM64_PAGE_COW else Z.ldiff e VM64_PHYS_MASK) = share e.
Proof.
  intros e. change VM64_PAGE_WRITE with (2 ^ 1) at 1. rewrite flag_test, Z.ldiff_spec, mask_bits by done. cbn [Z.leb andb negb].
  unfold share. destruct (masked_page e) as [Hm _]. change (1 <=? 52) with true.
  destruct (pte_writable e) eqn:Hw; cbn; rewrite <- ?Hm; (split; [done|]); [done|apply rebuild].
Qed.

(** What one round of the inner loop does. *)
Definition entry_cloned (src cpy v : Z) s s' : Prop :=
  forall j u, is_slot j u -> pte_at s' j u =
    if u =? v then if j =? src then shared (pte_at s src v) else if j =? cpy then given (pte_at s src v) else pte_at s j u
    else pte_at s j u.

(** A round that fails gives the clone up. *)
Definition entry_failed D R P l (src cpy v : Z) s s' : Prop :=
  exists s1, vm64_destroy_space cpy s1 = Some s' /\ inv D R P l s1 /\ grown s s1 /\
    forall j u, is_slot j u -> pte_at s1 j u = pte_at s j u \/ (j = src /\ u = v /\ pte_at s1 j u = shared (pte_at s src v)).

Lemma set_mm_id s : set_mm (mm s) s = s.
Proof. by destruct s. Qed.

(** The clone's side of sharing a page. *)
Lemma give_entry_inv D R P l s src cpy k x fl :
  let v := 512 * k + x in
  let e := pte_at s src v in
  inv D R P l s -> live s src -> live s cpy -> 0 <= k < 256 -> 0 <= x < 512 -> user_pts (spaces s src) k <> 0 ->
  is_u64 e -> pte_present e = true -> pte_owned e = true -> pte_writable e = false -> 4096 * phys_page e ||| fl = e ->
  pte_at s cpy v = 0 ->
  exists r s',
    (let '(r, q) := Pmm.pmm_retain_page (4096 * phys_page e) (mm s) in
     if nz r then s ← vm64_destroy_space cpy (set_mm q s); Some (Some (-1), s)
     else match ensure_user_pt cpy k (set_mm q s) with
          | (Some dpt, s) =>
              if nz (entry s dpt x &&& VM64_PAGE_PRESENT)
              then s ← free_page (4096 * phys_page e) s; s ← vm64_destroy_space cpy s; Some (Some (-1), s)
              else Some (None, store (dpt + 8 * x) (4096 * phys_page e ||| fl) s)
          | (None, s) => s ← free_page (4096 * phys_page e) s; s ← vm64_destroy_space cpy s; Some (Some (-1), s)
          end) = Some (r, s') /\
    match r with
    | None => inv D R P l s' /\ grown s s' /\ user_pts (spaces s' src) k = user_pts (spaces s src) k /\
        forall j u, is_slot j u -> pte_at s' j u = if (j =? cpy) && (u =? v) then e else pte_at s j u
    | Some z => z = -1 /\ exists s1, vm64_destroy_space cpy s1 = Some s' /\ inv D R P l s1 /\ grown s s1 /\
        forall j u, is_slot j u -> pte_at s1 j u = pte_at s j u
    end.
Proof.
  intros v e Hi Hls Hlc Hk Hx Hpt Hu Hp Ho Hw Hfl Hz.
  assert (is_slot src v /\ is_slot cpy v) as [Hs Hsc] by (split; (split; [apply Hls || apply Hlc|unfold v; lia])).
  assert (v / 512 = k /\ v mod 512 = x) as [Hv1 Hv2] by (unfold v; split; dmlia).
  destruct (owned_page _ _ _ _ _ src v Hi Hs Hp Ho) as (Hpb & _ & Hnt & Hh & _). fold e in Hpb, Hnt, Hh.
  set (p := phys_page e) in *. pose proof (c_loose _ _ _ _ (i_core _ _ _ _ _ Hi) p) as Hlp. simpl in Hlp.
  destruct (Pmm.pmm_retain_page (4096 * p) (mm s)) as [r q] eqn:Hret.
  destruct (retain_page_inv D R P l s p r q Hi Hnt Hh ltac:(lia) ltac:(by eapply readonly_owners) Hret) as [[Hr ->]|(-> & I2 & R2 & P2 & M2)].
  { rewrite (proj2 (nz_true r) Hr), set_mm_id.
    destruct (vm64_destroy_space_inv D R P l s cpy Hi) as (s' & Hd & _); [destruct Hlc as [[] _]; lia|]. rewrite Hd.
    exists (Some (-1)), s'. split; [done|]. split; [done|]. by exists s. }
  cbn [nz Z.eqb negb]. set (s2 := set_mm q s) in *.
  assert (grown s s2) as G2.
  { apply tables_grown; [done| |by intros]. intros p'. change (mm s2) with q. rewrite R2. destruct (Z.eqb_spec p' p) as [->|]; [|done].
    pose proof (Pmm.base_refs _ (Pmm.inv_base _ (i_mm _ _ _ _ _ Hi)) p). lia. }
  assert (live s2 cpy) as Hlc2 by exact Hlc.
  destruct (ensure_user_pt cpy k s2) as [[dpt|] s3] eqn:Hens;
    destruct (ensure_user_pt_inv D R P _ s2 cpy k _ s3 I2 Hlc2 Hk Hens) as (I3 & Q3 & U3 & Hd3).
  - destruct Hd3 as [-> Hd0].
    assert (user_pts (spaces s3 cpy) k + 8 * x = pte_addr s3 cpy v) as Had by (unfold pte_addr; by rewrite Hv1, Hv2).
    assert (pte_at s3 cpy v = 0) as Hz3 by (by rewrite (qt_pte _ _ _ Q3), P2).
    assert (pte_present (entry s3 (user_pts (spaces s3 cpy) k) x) = false) as Hn3.
    { rewrite <- norm_present. unfold entry. rewrite Had, read_pte by (by rewrite Hv1). by rewrite Hz3. }
    change VM64_PAGE_PRESENT with (2 ^ 0). rewrite flag_test, Hn3, Hfl, Had by done.
    pose proof (quiet_leaf s2 s3 p Q3) as Hleaf. destruct Hleaf as [_ Hnt3].
    { apply (gr_leaf _ _ G2). by eapply present_leaf. }
    assert (held (rest s3) p = 0) as Hh3 by (by rewrite (qt_rest _ _ _ Q3)).
    destruct (store_pte_inv D R P _ s3 cpy v e I3 Hsc) as [I4 Hst]; [by rewrite Hv1|done|by apply norm_id| |].
    { apply (owned_fits D); fold p; rewrite ?Hz3; try done; [by left| |congruence].
      rewrite upd_eq. pose proof (own1_range 0 p). lia. }
    exists None. eexists. split; [done|]. split_and!.
    + eapply inv_loose_ext; [|exact I4]. intros q'. simpl. rewrite Hz3, (own1_owned e) by done. fold p.
      rewrite (own1_false 0) by (by left). unfold upd. destruct (Z.eqb_spec q' p) as [->|]; simpl; lia.
    + etrans; [exact G2|]. etrans; [by apply quiet_grown|]. by eapply stored_grown.
    + rewrite (st_spaces _ _ (ps_tables _ _ _ _ _ Hst)). by apply U3.
    + intros j u Hju. rewrite (ps_pte _ _ _ _ _ Hst) by done. destruct (_ && _); [done|]. by rewrite (qt_pte _ _ _ Q3), P2.
  - subst s3. destruct (free_page_inv _ _ _ _ s2 p I2) as (s4 & -> & T4 & I4 & R4 & P4 & M4); [rewrite upd_eq; lia|done|].
    assert (inv D R P l s4) as I4'.
    { eapply inv_loose_ext; [|exact I4]. intros q'. unfold upd. destruct (Z.eqb_spec q' p) as [->|]; [rewrite Z.eqb_refl; lia|done]. }
    destruct (vm64_destroy_space_inv D R P l s4 cpy I4') as (s5 & Hd & _); [destruct Hlc as [[] _]; lia|].
    cbn [mbind option_bind]. rewrite Hd. exists (Some (-1)), s5. split; [done|]. split; [done|]. exists s4. split_and!; try done.
    + apply tables_grown; [by etrans; [|exact T4]| |intros b _; rewrite M4; apply M2]. intros q' Hq'. rewrite R4. change (mm s2) with q. rewrite R2.
      destruct (Z.eqb_spec q' p); lia.
    + intros j u Hju. by rewrite P4, P2.
Qed.

Lemma clone_entry_inv D R P l s src cpy k x :
  inv D R P l s -> live s src -> live s cpy -> src <> cpy -> 0 <= k < 256 -> 0 <= x < 512 ->
  user_pts (spaces s src) k <> 0 -> pte_at s cpy (512 * k + x) = 0 ->
  exists r s', clone_entry cpy (user_pts (spaces s src) k) k x s = Some (r, s') /\
    match r with
    | None => inv D R P l s' /\ grown s s' /\ user_pts (spaces s' src) k = user_pts (spaces s src) k /\
        entry_cloned src cpy (512 * k + x) s s'
    | Some z => z = -1 /\ entry_failed D R P l src cpy (512 * k + x) s s'
    end.
Proof.
  intros Hi Hls Hlc Hne Hk Hx Hpt Hz. set (v := 512 * k + x) in *. unfold clone_entry.
  assert (is_slot src v /\ is_slot cpy v) as [Hs Hsc] by (split; (split; [apply Hls || apply Hlc|unfold v; lia])).
  assert (v / 512 = k /\ v mod 512 = x) as [Hv1 Hv2] by (unfold v; split; dmlia).
  assert (forall s', user_pts (spaces s' src) k + 8 * x = pte_addr s' src v) as Had by (intros; unfold pte_addr; by rewrite Hv1, Hv2).
  assert (norm (entry s (user_pts (spaces s src) k) x) = pte_at s src v) as He.
  { rewrite <- read_pte by (by rewrite Hv1). unfold entry. by rewrite Had. }
  change (VM64_PAGE_PRESENT ||| PAGE_OWNED) with (2 ^ 0 ||| 2 ^ 9). rewrite mask_test2 by done.
  destruct (pte_present (entry s _ x) && pte_owned (entry s _ x)) eqn:Hpo; cbn [negb].
  2:{ exists None, s. split; [done|]. split_and!; try done. intros j u Hu.
      assert (pte_present (pte_at s src v) && pte_owned (pte_at s src v) = false) as Hpo'.
      { rewrite <- He. unfold norm. destruct (pte_present (entry s _ x)) eqn:Hp; [|done]. by rewrite Hp. }
      unfold shared, given. rewrite Hpo'. destruct (Z.eqb_spec u v) as [->|]; [|done].
      destruct (Z.eqb_spec j src) as [->|]; [done|]. destruct (Z.eqb_spec j cpy) as [->|]; done. }
  apply andb_true_iff in Hpo as [Hp Ho]. rewrite norm_id in He by done. rewrite He in Hp, Ho |- *.
  unfold set_entry. rewrite Had. cbv zeta. destruct (share_code s src v) as [-> Hsh].
  set (fl := if pte_writable _ then _ else _) in *. set (e := pte_at s src v) in *.
  destruct (share_entry_inv D R P l s src v Hi Hs Hp Ho) as (I1 & T1 & G1 & P1). fold e in I1, T1, G1, P1.
  set (s1 := if pte_writable e then _ else s) in *. destruct (masked_page e) as [Hm _]. rewrite Hm.
  destruct (share_spec e (pte_u64 _ _ _ _ _ src v Hi)) as [S1 S2 S3 S4 S5 S6 S7 S8].
  assert (pte_at s1 src v = share e) as He1 by (rewrite P1, !Z.eqb_refl by done; done).
  pose proof (st_spaces _ _ T1) as Hss.
  destruct (give_entry_inv D R P l s1 src cpy k x fl) as (r & s' & Hrun & Hr); fold v; rewrite ?He1, ?Hss, ?S8; try done; try congruence.
  { destruct Hls; split; [done|congruence]. } { destruct Hlc; split; [done|congruence]. }
  { rewrite P1 by done. destruct (Z.eqb_spec cpy src); [congruence|done]. }
  fold v in Hrun, Hr. rewrite He1, S8 in Hrun. rewrite He1 in Hr. exists r, s'. split; [exact Hrun|].
  assert (shared e = share e /\ given e = share e) as [E1 E2] by (unfold shared, given; by rewrite Hp, Ho).
  destruct r as [z|].
  - destruct Hr as (-> & s2 & Hd & I2 & G2 & P2). split; [done|]. exists s2. split_and!; try done; [by etrans|].
    intros j u Hju. rewrite P2, P1 by done. destruct (Z.eqb_spec j src), (Z.eqb_spec u v); cbn [andb]; [right|left..]; try done.
  - destruct Hr as (I2 & G2 & U2 & P2). split_and!; try done; [by etrans|congruence|].
    intros j u Hju. rewrite P2, P1 by done. fold e. rewrite E1, E2.
    destruct (Z.eqb_spec u v) as [->|]; rewrite ?andb_true_r, ?andb_false_r; [|done].
    destruct (Z.eqb_spec j cpy), (Z.eqb_spec j src); (done || congruence).
Qed.

(** The state of a clone that has got as far as the slot [n]. *)
Record cloning (src cpy : Z) s (n : Z) s' : Prop := {
  cl_live : live s' src /\ live s' cpy;
  cl_done u : is_slot src u -> u < n ->
    pte_at s' src u = shared (pte_at s src u) /\ pte_at s' cpy u = given (pte_at s src u);
  cl_todo u : is_slot src u -> n <= u -> pte_at s' src u = pte_at s src u /\ pte_at s' cpy u = 0;
  cl_others j u : is_slot j u -> j <> src -> j <> cpy -> pte_at s' j u = pte_at s j u;
  cl_grown : grown s s'
}.

(** The clone was given up: some of the source's entries are shared. *)
Record abandoned (src cpy : Z) s s' : Prop := {
  ab_dead : pml4 (spaces s' cpy) = 0;
  ab_entry u : is_slot src u -> pte_at s' src u = pte_at s src u \/ pte_at s' src u = shared (pte_at s src u);
  ab_others j u : is_slot j u -> j <> src -> j <> cpy -> pte_at s' j u = pte_at s j u;
  ab_memory j u b : is_slot j u -> j <> cpy -> pte_present (pte_at s j u) = true ->
    b / 4096 = phys_page (pte_at s j u) -> memory s' b = memory s b;
  ab_root j : j <> cpy -> pml4 (spaces s' j) = pml4 (spaces s j);
  ab_maps j m : j <> cpy -> mappings (spaces s' j) m = mappings (spaces s j) m
}.

Lemma shared_page e : is_u64 e -> pte_present (shared e) = pte_present e /\ phys_page (shared e) = phys_page e.
Proof. intros He. unfold shared. destruct (_ && _); [|done]. destruct (share_spec e He). done. Qed.

Lemma grown_live s s' i : grown s s' -> live s i -> live s' i.
Proof. intros Hg [H1 H2]. split; [done|]. by rewrite (gr_root _ _ Hg). Qed.

Lemma cloning_step src cpy s0 n s s' :
  src <> cpy -> cloning src cpy s0 n s -> is_slot src n -> grown s s' -> entry_cloned src cpy n s s' ->
  cloning src cpy s0 (n + 1) s'.
Proof.
  intros Hne [[L1 L2] C2 C3 C4 C5] Hn Hg He.
  assert (forall u, is_slot src u -> is_slot cpy u) as Hsl by (intros u [_ Hu]; split; [apply L2|done]).
  split.
  - split; by eapply grown_live.
  - intros u Hu Hlt. rewrite !He by auto. destruct (Z.eqb_spec u n) as [->|]; [|apply C2; [done|lia]].
    destruct (C3 n Hn ltac:(lia)) as [-> _]. rewrite Z.eqb_refl. destruct (Z.eqb_spec cpy src); [congruence|]. by rewrite Z.eqb_refl.
  - intros u Hu Hle. rewrite !He by auto. destruct (Z.eqb_spec u n); [lia|]. apply C3; [done|lia].
  - intros j u Hju H1 H2. rewrite He by done. rewrite (proj2 (Z.eqb_neq j src)), (proj2 (Z.eqb_neq j cpy)) by done.
    destruct (u =? n); by apply C4.
  - by etrans.
Qed.

Lemma abandon D R P l src cpy s0 n s s' :
  inv D R P l s0 -> src <> cpy -> cloning src cpy s0 n s -> is_slot src n -> entry_failed D R P l src cpy n s s' ->
  inv D R P l s' /\ abandoned src cpy s0 s'.
Proof.
  intros Hi0 Hne [[L1 L2] C2 C3 C4 C5] Hn (s1 & Hd & I1 & G1 & P1).
  destruct (vm64_destroy_space_inv D R P l s1 cpy I1) as (s'' & Hd' & I' & [[K1 K2] O2 O3] & Hdead); [destruct L2 as [[] _]; lia|].
  rewrite Hd in Hd'. injection Hd' as <-. split; [done|].
  assert (forall j u, is_slot j u -> j <> cpy -> pte_at s1 j u = pte_at s0 j u \/ (j = src /\ pte_at s1 j u = shared (pte_at s0 j u))) as Hp.
  { intros j u Hju Hj. destruct (Z.eq_dec j src) as [->|Hjs].
    - destruct (P1 src u Hju) as [->|(_ & -> & ->)].
      + destruct (Z.lt_ge_cases u n); [right; split; [done|]; by apply C2|left; by apply C3].
      + right. split; [done|]. by rewrite (proj1 (C3 n Hn ltac:(lia))).
    - left. destruct (P1 j u Hju) as [->|(? & _)]; [by apply C4|done]. }
  split.
  - apply Hdead, L2.
  - intros u Hu. rewrite K1 by done. destruct (Hp src u Hu Hne) as [?|[_ ?]]; [by left|by right].
  - intros j u Hju H1 H2. rewrite K1 by done. destruct (Hp j u Hju H2) as [?|[? _]]; done.
  - intros j u b Hju Hj Hpr Hb.
    assert (pte_present (pte_at s1 j u) = true /\ phys_page (pte_at s1 j u) = phys_page (pte_at s0 j u)) as [Hp1 Hp2].
    { destruct (shared_page (pte_at s0 j u) (pte_u64 _ _ _ _ _ j u Hi0)) as [S1 S2].
      destruct (Hp j u Hju Hj) as [->|[_ ->]]; [done|]. split; congruence. }
    rewrite (K2 j u) by congruence. apply (gr_memory s0 s1); [by etrans|]. rewrite Hb. by eapply present_leaf.
  - intros j Hj. rewrite O2 by done. rewrite (gr_root _ _ G1). apply (gr_root _ _ C5).
  - intros j m Hj. rewrite O3 by done. rewrite (gr_maps _ _ G1). by rewrite (gr_maps _ _ C5).
Qed.

Lemma clone_pt_inv D R P l src cpy s0 s k :
  inv D R P l s0 -> inv D R P l s -> src <> cpy -> 0 <= k < 512 -> cloning src cpy s0 (512 * k) s ->
  exists r s', clone_pt src cpy k s = Some (r, s') /\
    match r with
    | None => inv D R P l s' /\ cloning src cpy s0 (512 * (k + 1)) s'
    | Some z => z = -1 /\ inv D R P l s' /\ abandoned src cpy s0 s'
    end.
Proof.
  intros Hi0 Hi Hne Hk Hc. unfold clone_pt. pose proof (cl_live _ _ _ _ _ Hc) as [Hls Hlc].
  destruct (nz (user_pts (spaces s src) k)) eqn:Hpt; cbn [negb].
  - apply nz_true in Hpt. set (spt := user_pts (spaces s src) k) in *.
    assert (k < 256) as Hk2.
    { destruct (Z.lt_ge_cases k 256); [done|]. destruct Hpt. unfold spt.
      destruct (i_live _ _ _ _ _ Hi src) as (_ & _ & _ & _ & Hx); [apply Hls|apply Hls|]. apply Hx. lia. }
    destruct (for_return_ind (fun x s' => inv D R P l s' /\ cloning src cpy s0 (512 * k + x) s' /\ user_pts (spaces s' src) k = spt)
      (fun z s' => z = -1 /\ inv D R P l s' /\ abandoned src cpy s0 s') 0 512 (clone_entry cpy spt k) s) as (r & s' & Hr & Hq).
    + lia.
    + rewrite Z.add_0_r. done.
    + intros x s' Hx (I' & C' & U'). pose proof (cl_live _ _ _ _ _ C') as [Hls' Hlc'].
      assert (is_slot src (512 * k + x)) as Hs by (split; [apply Hls|lia]).
      destruct (clone_entry_inv D R P l s' src cpy k x) as (r & s'' & Hrun & Hr); try done; [lia|congruence|by apply (cl_todo _ _ _ _ _ C')|].
      rewrite U' in Hrun. exists r, s''. split; [done|]. destruct r as [z|].
      * destruct Hr as [-> Hf]. split; [done|]. by eapply abandon.
      * destruct Hr as (I2 & G2 & U2 & E2). split_and!; [done| |congruence]. rewrite Z.add_assoc. by eapply cloning_step.
    + exists r, s'. split; [done|]. destruct r as [z|]; [done|]. destruct Hq as (I' & C' & _). split; [done|].
      by replace (512 * (k + 1)) with (512 * k + 512) by lia.
  - apply nz_false in Hpt. exists None, s. split; [done|]. split; [done|]. destruct Hc as [C1 C2 C3 C4 C5]. split; try done.
    + intros u Hu Hlt. destruct (Z.lt_ge_cases u (512 * k)); [by apply C2|]. destruct (C3 u Hu) as [E1 E2]; [lia|].
      assert (pte_at s src u = 0) as Hz by (unfold pte_at; replace (u / 512) with k by dmlia; by rewrite Hpt).
      rewrite Hz in E1. rewrite <- E1. by rewrite Hz, E2.
    + intros u Hu Hle. apply C3; [done|lia].
Qed.

(** The clone [cpy] of [src]. *)
Record cloned (src cpy : Z) s s' : Prop := {
  cd_fresh : is_space cpy /\ pml4 (spaces s cpy) = 0 /\ live s' cpy;
  cd_source u : is_slot src u -> pte_at s' src u = shared (pte_at s src u);
  cd_copy u : is_slot src u -> pte_at s' cpy u = given (pte_at s src u);
  cd_others j u : is_slot j u -> j <> src -> j <> cpy -> pte_at s' j u = pte_at s j u;
  cd_memory j u b : is_slot j u -> pte_present (pte_at s j u) = true ->
    b / 4096 = phys_page (pte_at s j u) -> memory s' b = memory s b;
  cd_root j : j <> cpy -> pml4 (spaces s' j) = pml4 (spaces s j);
  cd_maps j m : j <> cpy -> mappings (spaces s' j) m = mappings (spaces s j) m;
  cd_no_maps m : 0 <= m < VM64_MAPPING_MAX -> m_object (mappings (spaces s' cpy) m) = None
}.

(** No clone: some entries of the source are shared with nobody. *)
Record not_cloned (src : Z) s s' : Prop := {
  nc_source u : is_slot src u -> pte_at s' src u = pte_at s src u \/ pte_at s' src u = shared (pte_at s src u);
  nc_others j u : is_slot j u -> live s j -> j <> src -> pte_at s' j u = pte_at s j u;
  nc_memory j u b : is_slot j u -> pte_present (pte_at s j u) = true ->
    b / 4096 = phys_page (pte_at s j u) -> memory s' b = memory s b;
  nc_root j : is_space j -> pml4 (spaces s' j) = pml4 (spaces s j);
  nc_maps j m : live s j -> mappings (spaces s' j) m = mappings (spaces s j) m
}.

Lemma present_live D R P l s j u :
  inv D R P l s -> is_slot j u -> pte_present (pte_at s j u) = true -> live s j.
Proof.
  intros Hi Hs Hp. split; [apply Hs|]. intros Hd. destruct (i_dead _ _ _ _ _ Hi j (proj1 Hs) Hd) as (_ & _ & _ & _ & Hz & _).
  unfold pte_at in Hp. rewrite Hz in Hp by (destruct Hs; dmlia). done.
Qed.

Context (text_start text_end rodata_start rodata_end : Z).

Lemma vm64_clone_space_inv R P l s src :
  inv (fun _ => False) R P l s -> 0 <= src ->
  exists r cpy s', vm64_clone_space text_start text_end rodata_start rodata_end src s = Some (r, cpy, s') /\
    inv (fun _ => False) R P l s' /\
    ((r <> 0 /\ not_cloned src s s') \/ (r = 0 /\ live s src /\ cloned src cpy s s')).
Proof.
  intros Hi Hsrc. unfold vm64_clone_space.
  assert (not_cloned src s s) as Hid by (split; try done; by left).
  destruct (Z.leb_spec VM64_MAX_SPACES src); [by exists (-1), 0, s; split_and!; [..|left]|].
  destruct (nz (pml4 (spaces s src))) eqn:Hl; cbn [negb orb]; [|by exists (-1), 0, s; split_and!; [..|left]]. apply nz_true in Hl.
  assert (live s src) as Hls by (split; [unfold is_space; lia|done]).
  destruct (vm64_create_space_inv text_start text_end rodata_start rodata_end R P l s Hi) as (r & cpy & s1 & -> & I1 & Hcr).
  cbn [mbind option_bind]. destruct Hcr as [[Hr Q1]|(-> & Hsp & Hd & Hlc & As & Hz & Hm)].
  { rewrite (proj2 (nz_true r) Hr). exists (-1), 0, s1. split; [done|]. split; [done|]. left. split; [done|]. split.
    - intros u Hu. left. by apply (qt_pte _ _ _ Q1).
    - intros j u Hju _ _. by apply (qt_pte _ _ _ Q1).
    - intros j u b Hju Hp Hb. apply (qt_memory _ _ _ Q1). rewrite Hb. by eapply present_leaf.
    - intros j _. apply (qt_root _ _ _ Q1).
    - intros j m _. by rewrite (qt_maps _ _ _ Q1). }
  cbn [nz Z.eqb negb]. assert (src <> cpy) as Hne by congruence.
  assert (live s1 src) as Hls1 by (split; [apply Hls|]; rewrite (as_root _ _ _ As) by done; apply Hls).
  assert (forall j u b, is_slot j u -> pte_present (pte_at s j u) = true -> b / 4096 = phys_page (pte_at s j u) -> memory s1 b = memory s b) as Hm1.
  { intros j u b Hju Hp Hb. apply (as_memory _ _ _ As). rewrite Hb. by eapply present_leaf. }
  destruct (for_return_ind (fun k s' => inv (fun _ => False) R P l s' /\ cloning src cpy s1 (512 * k) s')
    (fun z s' => z = -1 /\ inv (fun _ => False) R P l s' /\ abandoned src cpy s1 s') 0 512 (clone_pt src cpy) s1) as (r & s2 & -> & Hq).
  - lia.
  - split; [done|]. split; try done; [intros u [_ Hu] ?; lia|]. intros u Hu _. split; [done|]. apply Hz. split; [done|apply Hu].
  - intros k s' Hk [I' C']. by apply clone_pt_inv.
  - destruct r as [z|]; cbn [mbind option_bind].
    + destruct Hq as (-> & I2 & [A1 A2 A3 A4 A5 A6]). exists (-1), 0, s2. split; [done|]. split; [done|]. left. split; [done|].
      assert (forall j, live s j -> j <> cpy) as Hjc by (intros j [_ Hj] ->; done). split.
      * intros u Hu. rewrite <- (as_pte _ _ _ As) by done. by apply A2.
      * intros j u Hju Hj Hjs. rewrite A3 by auto. by apply (as_pte _ _ _ As).
      * intros j u b Hju Hp Hb. pose proof (present_live _ _ _ _ _ _ _ Hi Hju Hp) as Hj.
        rewrite (A4 j u), (Hm1 j u); try done; [by apply Hjc|by rewrite (as_pte _ _ _ As)|by rewrite (as_pte _ _ _ As)].
      * intros j Hj. destruct (Z.eq_dec j cpy) as [->|Hjn]; [congruence|]. rewrite A5 by done. by apply (as_root _ _ _ As).
      * intros j m Hj. rewrite A6 by auto. by apply (as_maps _ _ _ As), Hjc.
    + destruct Hq as [I2 [C1 C2 C3 C4 C5]]. exists 0, cpy, s2. split; [done|]. split; [done|]. right. split; [done|]. split; [done|].
      split.
      * split; [done|]. split; [done|apply C1].
      * intros u Hu. rewrite <- (as_pte _ _ _ As) by done. apply C2; [done|]. destruct Hu. lia.
      * intros u Hu. rewrite <- (as_pte _ _ _ As) by done. apply C2; [done|]. destruct Hu. lia.
      * intros j u Hju H1 H2. rewrite C4 by done. by apply (as_pte _ _ _ As).
      * intros j u b Hju Hp Hb. rewrite (gr_memory _ _ C5); [by eapply Hm1|]. rewrite Hb, <- (as_pte _ _ _ As) by done.
        eapply present_leaf; [exact I1|done|]. by rewrite (as_pte _ _ _ As).
      * intros j Hj. rewrite (gr_root _ _ C5). by apply (as_root _ _ _ As).
      * intros j m Hj. rewrite (gr_maps _ _ C5). by apply (as_maps _ _ _ As).
      * intros m Hmm. rewrite (gr_maps _ _ C5). by apply Hm.
Qed.

End Clone.
End VmClone.
