(* ===== verification/VmMappings.v ===== *)
(** * Mapping kernel objects into address spaces

    A space keeps an array of object mappings.  Each holds a reference to its
    object and covers a range of slots whose entries name the object's pages;
    the pages themselves belong to the object.  [vm64_map_object] and
    [vm64_map_page_object] install the whole range or nothing;
    [vm64_unmap_object] and the revocations take all of it away. *)

From stdpp Require Import gmap.
From S2P Require Import Prelude Pmm Vm VmInv VmOps VmUser VmAccess VmSpaces VmDestroy VmClone.

Open Scope Z_scope.

Module VmMappings.
Import Vm VmInv VmOps VmUser VmAccess VmSpaces VmDestroy VmClone.

Section Mappings.
Context {W : Type} {VM : VmModules W} {VO : VmObjects W} {VL : VmLaws W}.
Implicit Types (s : vm W).

(** A range of whole pages of the user half. *)
Record page_range (virtual length : Z) : Prop := {
  pr_virtual : virtual = VM64_USER_BASE + 4096 * vpn virtual;
  pr_length : length = 4096 * (length / 4096);
  pr_slots : 0 <= vpn virtual /\ 0 < length / 4096 /\ vpn virtual + length / 4096 <= 0x20000
}.

Lemma page_range_vpn virtual length k : page_range virtual length -> vpn (virtual + 4096 * k) = vpn virtual + k.
Proof.
  intros [Hv _ _]. rewrite Hv at 1. unfold vpn at 1. replace (_ - _) with (4096 * (vpn virtual + k)) by lia. apply page_mul.
Qed.

Lemma page_range_user virtual length k :
  page_range virtual length -> 0 <= k < length / 4096 -> user_addr (virtual + 4096 * k).
Proof. intros [Hv _ Hs] Hk. unfold user_addr. rewrite Hv. unfold VM64_USER_BASE, VM64_USER_LIMIT. lia. Qed.

Lemma page_range_covers e u :
  page_range (m_virtual e) (m_length e) ->
  covers e u <-> vpn (m_virtual e) <= u < vpn (m_virtual e) + m_length e / 4096.
Proof. intros [Hv Hl _]. unfold covers. rewrite Hv, Hl at 1. lia. Qed.

Lemma release_pts_inv D R P l i virtual length s :
  page_range virtual length -> inv D R P l s -> live s i ->
  exists s', release_pts i virtual length s = Some s' /\ inv D R P l s' /\ quiet s s'.
Proof.
  intros [Hv Hl Hs] Hi Hlv. unfold release_pts. rewrite Hl, Hv.
  rewrite !Z.shiftr_div_pow2 by lia. change (2 ^ 21) with 2097152. unfold u32. rewrite !Z.mod_small by dmlia.
  apply (for_vm_ind (fun _ s' => inv D R P l s' /\ quiet s s')); [dmlia|done|].
  intros k s' Hk [I' Q']. assert (live s' i) as Hlv' by (by eapply quiet_live).
  destruct (release_empty_pt_inv D R P l s' i k I' Hlv') as (s'' & Hr & I'' & Q''); [dmlia|].
  exists s''. split_and!; try done. by etrans.
Qed.

(** ** Installing a range *)

Section Range.
Context (D : Z -> Prop) (R : Z -> Z -> Prop) (l : Z -> Z) (i o virtual N flags : Z) (phys : Z -> Z).

Let v0 := vpn virtual.

(** A range of user pages, pages of the object for it and plain flags. *)
Record range_ok (w : W) : Prop := {
  rg_virtual : virtual = VM64_USER_BASE + 4096 * v0;
  rg_slots : 0 <= v0 /\ 0 < N /\ v0 + N <= 0x20000;
  rg_pages k : 0 <= k < N -> exists p, phys (4096 * k) = 4096 * p /\ 0 <= p < 2 ^ 40 /\ backs w o p;
  rg_flags : is_u64 flags /\ flags &&& VM64_PHYS_MASK = 0 /\ pte_present flags = true /\ pte_owned flags = false
}.

Lemma range_page_range w : range_ok w -> page_range virtual (4096 * N).
Proof. intros [Hv Hs _ _]. split; rewrite ?page_mul; done. Qed.

Definition mapping_of (k : Z) : vm64_object_mapping := Mapping (Some o) virtual (4096 * k).

(** The entries when [k] pages are mapped. *)
Definition range_ptes s (k j u : Z) : Z :=
  if (j =? i) && (v0 <=? u) && (u <? v0 + k) then phys (4096 * (u - v0)) ||| flags else pte_at s j u.

(** The state when [k] pages are mapped. *)
Record mapping_state s (k : Z) s' : Prop := {
  ms_inv : inv D R (Some (i, mapping_of k)) l s';
  ms_step : stepped (range_ptes s k) s s';
  ms_absent u : v0 <= u < v0 + k -> pte_at s i u = 0
}.

Lemma covers_range w k u : range_ok w -> covers (mapping_of k) u <-> v0 <= u < v0 + k.
Proof. intros [Hv _ _ _]. unfold covers, mapping_of. simpl. rewrite Hv. lia. Qed.

Lemma range_entry w k :
  range_ok w -> 0 <= k < N ->
  exists p, phys (4096 * k) = 4096 * p /\ 0 <= p < 2 ^ 40 /\ backs w o p /\
    let e := phys (4096 * k) ||| flags in
    is_u64 e /\ pte_present e = true /\ pte_owned e = false /\ phys_page e = p.
Proof.
  intros Hok Hk. destruct (rg_pages w Hok k Hk) as (p & Hp & Hb & Hbk). destruct (rg_flags w Hok) as (F1 & F2 & F3 & F4).
  exists p. do 3 (split; [done|]). cbv zeta. rewrite Hp. split_and!.
  - by apply flags_u64.
  - by rewrite build_bits by lia.
  - by rewrite build_bits by lia.
  - by apply build_phys.
Qed.

(** More of the range may be counted as pending. *)
Lemma pending_grow w k k' s : range_ok w -> k <= k' -> inv D R (Some (i, mapping_of k)) l s -> inv D R (Some (i, mapping_of k')) l s.
Proof.
  intros Hok Hk [I1 I2 I3 I4 I5 I6 I7 I8]. split; try done. apply (core_pending _ (Some (i, mapping_of k))); [done|apply (c_pins _ _ _ _ I3)|].
  intros j e u [= <- <-] Hs Hc _. right. exists (mapping_of k'). split; [done|]. split; [done|].
  rewrite (covers_range w) in Hc |- * by done. lia.
Qed.

Lemma pending_shrink w k s :
  range_ok w -> pte_at s i (v0 + k) = 0 -> inv D R (Some (i, mapping_of (k + 1))) l s -> inv D R (Some (i, mapping_of k)) l s.
Proof.
  intros Hok Hz [I1 I2 I3 I4 I5 I6 I7 I8]. split; try done.
  apply (core_pending _ (Some (i, mapping_of (k + 1)))); [done|apply (c_pins _ _ _ _ I3)|].
  intros j e u [= <- <-] Hs Hc _. rewrite (covers_range w) in Hc by done. destruct (Z.eq_dec u (v0 + k)) as [->|].
  - left. simpl. by rewrite Hz.
  - right. exists (mapping_of k). split; [done|]. split; [done|]. rewrite (covers_range w) by done. lia.
Qed.

Lemma mapping_state_quiet s k s' s'' :
  mapping_state s k s' -> inv D R (Some (i, mapping_of k)) l s'' -> quiet s' s'' -> mapping_state s k s''.
Proof.
  intros [I1 S1 A1] I2 Q2. split; [done| |done]. eapply stepped_ext; [|eapply stepped_trans; [exact S1|exact Q2]].
  intros j u Hju. by apply (qt_pte _ _ _ S1).
Qed.

Lemma mapping_state_step w s k s' s'' r :
  range_ok w -> live s i -> rest s = w -> 0 <= k < N -> mapping_state s k s' ->
  map_page i (virtual + 4096 * k) (phys (4096 * k)) flags s' = (r, s'') ->
  (r <> 0 /\ mapping_state s k s'') \/ (r = 0 /\ mapping_state s (k + 1) s'').
Proof.
  intros Hok Hlv Hw Hk [I1 S1 A1] Hmap. destruct (range_entry w k Hok Hk) as (p & Hp & Hpb & Hbk & E1 & E2 & E3 & E4).
  destruct (rg_flags w Hok) as (F1 & F2 & F3 & F4). destruct (rg_slots w Hok) as (V1 & V2 & V3).
  assert (vpn (virtual + 4096 * k) = v0 + k) as Hv.
  { unfold vpn. rewrite (rg_virtual w Hok). replace (_ - _) with (4096 * (v0 + k)) by lia. apply page_mul. }
  assert (is_slot i (v0 + k)) as Hs by (split; [apply Hlv|lia]).
  assert (pte_at s' i (v0 + k) = pte_at s i (v0 + k)) as Hpte.
  { rewrite (qt_pte _ _ _ S1) by done. unfold range_ptes. destruct (Z.ltb_spec (v0 + k) (v0 + k)); [lia|]. by rewrite andb_false_r. }
  rewrite Hp in Hmap. set (e := phys (4096 * k) ||| flags) in *.
  assert (live s' i) as Hlv' by (destruct Hlv; split; [done|by rewrite (qt_root _ _ _ S1)]).
  destruct (Z.eq_dec (pte_at s' i (v0 + k)) 0) as [Hzero|Hnz].
  2:{ left. destruct (map_page_inv D R (Some (i, mapping_of k)) l s' i (virtual + 4096 * k) p flags r s'')
        as [(Hr & I2 & Q2)|(_ & _ & H0 & _)]; try done; rewrite ?Hv; [by intros _ H0| |congruence].
      split; [done|]. apply (mapping_state_quiet s k s'); [by split|done..]. }
  destruct (map_page_inv D R (Some (i, mapping_of (k + 1))) l s' i (virtual + 4096 * k) p flags r s'')
    as [(Hr & I2 & Q2)|(-> & Ha & H0 & I2 & S2)]; try done; [by eapply (pending_grow w k); [|lia|]| | |].
  - intros _ H0. rewrite Hv in H0 |- *. rewrite <- Hp. fold e. split.
    + intros _ Hx. congruence.
    + intros _ _. exists (mapping_of (k + 1)), o. split; [by right|]. split; [done|]. split; [apply (covers_range w); [done|lia]|].
      simpl. rewrite E4, (qt_rest _ _ _ S1), Hw. done.
    + intros m _ _ _ _. done.
  - left. split; [done|]. apply (mapping_state_quiet s k s'); [by split| |done]. apply (pending_shrink w); [done|by rewrite (qt_pte _ _ _ Q2)|done].
  - right. split; [done|]. rewrite Hv in H0, S2. rewrite <- Hp in I2, S2. fold e in I2, S2. split.
    + eapply inv_loose_ext; [|exact I2]. intros q. simpl. rewrite own1_false; [lia|]. right. by left.
    + eapply stepped_ext; [|eapply stepped_trans; [exact S1|exact S2]]. intros j u Hju. cbv beta. unfold range_ptes.
      rewrite (qt_pte _ _ _ S1) by done. unfold range_ptes.
      destruct (Z.eqb_spec j i) as [->|]; cbn [andb]; [|done]. destruct (Z.eqb_spec u (v0 + k)) as [->|].
      * rewrite (proj2 (Z.leb_le _ _)), (proj2 (Z.ltb_lt _ _)) by lia. cbn. by replace (v0 + k - v0) with k by lia.
      * destruct (Z.leb_spec v0 u), (Z.ltb_spec u (v0 + k)), (Z.ltb_spec u (v0 + (k + 1))); cbn; done || lia.
    + intros u Hu. destruct (Z.eq_dec u (v0 + k)) as [->|]; [congruence|]. apply A1. lia.
Qed.

Lemma map_pages_inv w s n k s' :
  range_ok w -> live s i -> rest s = w -> 0 <= k -> k + Z.of_nat n = N -> mapping_state s k s' ->
  exists r s'', map_pages n i virtual phys flags (4096 * k) s' = (r, s'') /\
    match r with
    | None => mapping_state s N s''
    | Some m => exists k', m = 4096 * k' /\ 0 <= k' < N /\ mapping_state s k' s''
    end.
Proof.
  intros Hok Hlv Hw. revert k s'. induction n as [|n IH]; intros k s' Hk0 Hn Hms; cbn [map_pages].
  - exists None, s'. split; [done|]. by replace N with k by lia.
  - destruct (map_page i (virtual + 4096 * k) (phys (4096 * k)) flags s') as [r s1] eqn:Hmap.
    destruct (mapping_state_step w s k s' s1 r Hok Hlv Hw ltac:(lia) Hms Hmap) as [[Hr Hms1]|[-> Hms1]].
    + rewrite (proj2 (nz_true r) Hr). exists (Some (4096 * k)), s1. split; [done|]. exists k. split_and!; (done || lia).
    + cbn [nz Z.eqb negb]. replace (4096 * k + 4096) with (4096 * (k + 1)) by lia. apply IH; [lia|lia|done].
Qed.

Lemma stored_stepped s s' j v e :
  pte_stored s s' j v e -> stepped (fun j' u => if (j' =? j) && (u =? v) then e else pte_at s j' u) s s'.
Proof.
  intros [S1 S2 S3 S4]. split; try done.
  - intros b [_ Hb]. by apply S4.
  - intros p [_ Hp] Hx. apply Hp, (is_table_roles s s'); [|done]. intros r _. by apply same_tables_role.
  - intros x. by rewrite (st_spaces _ _ S1).
  - intros x. by rewrite (st_spaces _ _ S1).
  - apply (st_rest _ _ S1).
Qed.

(** Taking back the page [k] of a range. *)
Lemma undo_step w s k s' :
  range_ok w -> inv D R (Some (i, mapping_of 0)) l s -> live s i -> 0 <= k < N -> mapping_state s (k + 1) s' ->
  exists pte, find_pte i (virtual + 4096 * k) s' = Some pte /\ mapping_state s k (store pte 0 s').
Proof.
  intros Hok Hi0 Hlv Hk [I1 S1 A1]. destruct (range_entry w k Hok Hk) as (p & Hp & Hpb & Hbk & E1 & E2 & E3 & E4).
  destruct (rg_slots w Hok) as (V1 & V2 & V3).
  assert (vpn (virtual + 4096 * k) = v0 + k) as Hv.
  { unfold vpn. rewrite (rg_virtual w Hok). replace (_ - _) with (4096 * (v0 + k)) by lia. apply page_mul. }
  assert (user_addr (virtual + 4096 * k)) as Ha by (unfold user_addr; rewrite (rg_virtual w Hok); unfold VM64_USER_BASE, VM64_USER_LIMIT; lia).
  assert (is_slot i (v0 + k)) as Hs by (split; [apply Hlv|lia]).
  assert (pte_at s' i (v0 + k) = phys (4096 * k) ||| flags) as Hpte.
  { rewrite (qt_pte _ _ _ S1) by done. unfold range_ptes. rewrite Z.eqb_refl, (proj2 (Z.leb_le _ _)), (proj2 (Z.ltb_lt _ _)) by lia.
    cbn. by replace (v0 + k - v0) with k by lia. }
  assert (user_pts (spaces s' i) ((v0 + k) / 512) <> 0) as Hpt by (apply pte_at_table; by rewrite Hpte).
  exists (pte_addr s' i (v0 + k)). split.
  { rewrite find_pte_spec, Hv. rewrite decide_True; [done|]. split_and!; try done; try apply Ha. rewrite (qt_root _ _ _ S1). apply Hlv. }
  destruct (store_pte_inv D R _ l s' i (v0 + k) 0 I1 Hs Hpt) as [I2 Hst]; [done|done| |].
  { split; [done|done|]. intros m Hm Ho Hn Hc. exfalso. simpl in Ho, Hc. rewrite (qt_maps _ _ _ S1) in Ho, Hc.
    destruct (c_range _ _ _ _ (i_core _ _ _ _ _ Hi0) i m (v0 + k) Hs Hm Ho Hn Hc) as [Hx _]. simpl in Hx.
    rewrite A1 in Hx by lia. done. }
  pose proof (stored_stepped _ _ _ _ _ Hst) as S2. split.
  - apply (pending_shrink w); [done|by rewrite (ps_pte _ _ _ _ _ Hst), !Z.eqb_refl by done|].
    eapply inv_loose_ext; [|exact I2]. intros q. simpl. rewrite Hpte, !own1_false; [lia|by left|right; by left].
  - eapply stepped_ext; [|eapply stepped_trans; [exact S1|exact S2]]. intros j u Hju. cbv beta. rewrite (qt_pte _ _ _ S1) by done.
    unfold range_ptes. destruct (Z.eqb_spec j i) as [->|]; cbn [andb]; [|done]. destruct (Z.eqb_spec u (v0 + k)) as [->|].
    + rewrite A1 by lia. destruct (Z.ltb_spec (v0 + k) (v0 + k)); [lia|]. by rewrite andb_false_r.
    + destruct (Z.leb_spec v0 u), (Z.ltb_spec u (v0 + k)), (Z.ltb_spec u (v0 + (k + 1))); cbn; done || lia.
  - intros u Hu. apply A1. lia.
Qed.

Lemma undo_pages_inv w s k s' :
  range_ok w -> inv D R (Some (i, mapping_of 0)) l s -> live s i -> 0 <= k <= N -> mapping_state s k s' ->
  mapping_state s 0 (undo_pages i virtual (4096 * k) s').
Proof.
  intros Hok Hi0 Hlv Hk Hms. unfold undo_pages. rewrite page_mul.
  pose proof (for_range_ind (fun x y => mapping_state s (k - x) y) 0 k (fun x y =>
    match find_pte i (virtual + (4096 * k - 4096 * (x + 1))) y with Some pte => store pte 0 y | None => y end) s') as Hind.
  rewrite Z.max_r, Z.sub_diag in Hind by lia. apply Hind; [by rewrite Z.sub_0_r|].
  intros x y Hx Hy. destruct (undo_step w s (k - x - 1) y) as (pte & Hf & Hy'); try done; [lia|by replace (k - x - 1 + 1) with (k - x) by lia|].
  replace (4096 * k - 4096 * (x + 1)) with (4096 * (k - x - 1)) by lia. rewrite Hf. by replace (k - (x + 1)) with (k - x - 1) by lia.
Qed.

(** The reference of a mapping that is given up. *)
Definition spare s : Prop :=
  forall o', Z.of_nat (size (mapset (abs_of s) o')) + pending_pins None o' + Z.b2z (o' =? o) <= pins (rest s) o'.

Lemma pending_none w s : range_ok w -> inv D R (Some (i, mapping_of 0)) l s -> inv D R None l s /\ spare s.
Proof.
  intros Hok [I1 I2 I3 I4 I5 I6 I7 I8].
  assert (spare s) as Hsp.
  { intros o'. pose proof (c_pins _ _ _ _ I3 o') as Hp. simpl in Hp |- *.
    destruct (Z.eqb_spec o' o) as [->|]; cbn [Z.b2z]; [rewrite decide_True in Hp by done; lia|].
    rewrite decide_False in Hp by congruence. lia. }
  split; [|done]. split; try done. apply (core_pending _ (Some (i, mapping_of 0))); [done| |].
  - intros o'. pose proof (Hsp o') as Hp. simpl in Hp |- *. destruct (o' =? o); cbn [Z.b2z] in Hp; lia.
  - intros j e u [= <- <-] Hs Hc _. rewrite (covers_range w) in Hc by done. lia.
Qed.

Lemma none_pending w s : range_ok w -> inv D R None l s -> spare s -> inv D R (Some (i, mapping_of 0)) l s.
Proof.
  intros Hok [I1 I2 I3 I4 I5 I6 I7 I8] Hsp. split; try done. apply (core_pending _ None); [done| |done].
  intros o'. pose proof (Hsp o') as Hp. simpl in Hp |- *.
  destruct (Z.eqb_spec o' o) as [Ho|Ho]; cbn [Z.b2z] in Hp; [rewrite decide_True by congruence|rewrite decide_False by congruence]; lia.
Qed.

(** The whole range is there. *)
Record installed (m : Z) s s' : Prop := {
  in_range : page_range virtual (4096 * N);
  in_pte j u : is_slot j u -> pte_at s' j u = range_ptes s N j u;
  in_absent u : v0 <= u < v0 + N -> pte_at s i u = 0;
  in_memory b : leaf s (b / 4096) -> memory s' b = memory s b;
  in_root j : pml4 (spaces s' j) = pml4 (spaces s j);
  in_maps j m' : mappings (spaces s' j) m' = if (j =? i) && (m' =? m) then mapping_of N else mappings (spaces s j) m'
}.

Lemma commit_inv w m s s' :
  range_ok w -> inv D R (Some (i, mapping_of 0)) l s -> live s i -> rest s = w ->
  0 <= m < VM64_MAPPING_MAX -> m_object (mappings (spaces s i) m) = None -> mapping_state s N s' ->
  let s'' := set_space i (set_mapping m (mapping_of N) (spaces s' i)) s' in
  inv D R None l s'' /\ installed m s s''.
Proof.
  intros Hok Hi0 [Hsp Hl] Hw Hm Hmo [I1 S1 A1] s''. destruct (rg_slots w Hok) as (V1 & V2 & V3).
  destruct (set_mapping_inv D R (Some (i, mapping_of N)) None l s' i m (mapping_of N)) as (I2 & P2 & R2); try done.
  { right. by rewrite (qt_root _ _ _ S1). }
  { apply core_commit; [apply (i_core _ _ _ _ _ I1)|done|done|simpl; by rewrite (qt_maps _ _ _ S1)| |].
    - intros u Hu Hc. rewrite (covers_range w) in Hc by done. simpl. rewrite (qt_pte _ _ _ S1) by done. unfold range_ptes.
      rewrite Z.eqb_refl, (proj2 (Z.leb_le _ _)), (proj2 (Z.ltb_lt _ _)) by lia. cbn [andb].
      by destruct (range_entry w (u - v0) Hok ltac:(lia)) as (p & _ & _ & _ & _ & E2 & E3 & _).
    - intros m' u Hu Hm' Ho Hn Hc Hc'. rewrite (covers_range w) in Hc by done. simpl in Ho, Hc'. rewrite (qt_maps _ _ _ S1) in Ho, Hc'.
      destruct (c_range _ _ _ _ (i_core _ _ _ _ _ Hi0) i m' u Hu Hm' Ho Hn Hc') as [Hx _]. simpl in Hx. by rewrite A1 in Hx. }
  split; [done|]. pose proof (set_mapping_space s' i m (mapping_of N)) as Hss. fold s'' in Hss. split.
  - by apply (range_page_range w).
  - intros j u Hju. rewrite P2 by done. by apply (qt_pte _ _ _ S1).
  - done.
  - apply (qt_memory _ _ _ S1).
  - intros j. destruct (Hss j) as (-> & _). apply (qt_root _ _ _ S1).
  - intros j m'. destruct (Hss j) as (_ & _ & _ & _ & _ & _ & ->). by rewrite (qt_maps _ _ _ S1).
Qed.

(** Both functions end in this: install everything or take it back. *)
Lemma install_inv m s :
  range_ok (rest s) -> inv D R (Some (i, mapping_of 0)) l s -> live s i ->
  0 <= m < VM64_MAPPING_MAX -> m_object (mappings (spaces s i) m) = None ->
  match map_pages (Z.to_nat N) i virtual phys flags 0 s with
  | (Some mapped, s1) => exists s2, release_pts i virtual (4096 * N) (undo_pages i virtual mapped s1) = Some s2 /\
      inv D R None l s2 /\ quiet s s2 /\ spare s2
  | (None, s1) => let s2 := set_space i (set_mapping m (mapping_of N) (spaces s1 i)) s1 in inv D R None l s2 /\ installed m s s2
  end.
Proof.
  intros Hok Hi Hlv Hm Hmo. destruct (rg_slots _ Hok) as (V1 & V2 & V3).
  assert (mapping_state s 0 s) as H0.
  { split; [done| |intros; lia]. eapply stepped_ext; [|exact (reflexivity s : quiet s s)]. intros j u _. unfold range_ptes.
    destruct (Z.leb_spec v0 u), (Z.ltb_spec u (v0 + 0)); rewrite ?andb_false_r; try done; lia. }
  destruct (map_pages_inv (rest s) s (Z.to_nat N) 0 s Hok Hlv eq_refl ltac:(lia) ltac:(lia) H0) as (r & s1 & Hrun & Hr).
  rewrite Z.mul_0_r in Hrun. rewrite Hrun. destruct r as [mapped|].
  - destruct Hr as (k & -> & Hk & Hms). pose proof (undo_pages_inv _ s k s1 Hok Hi Hlv ltac:(lia) Hms) as [I2 S2 _].
    assert (quiet s (undo_pages i virtual (4096 * k) s1)) as Q2.
    { eapply stepped_ext; [|exact S2]. intros j u _. unfold range_ptes.
      destruct (Z.leb_spec v0 u), (Z.ltb_spec u (v0 + 0)); rewrite ?andb_false_r; try done; lia. }
    destruct (release_pts_inv D R _ l i virtual (4096 * N) _ (range_page_range _ Hok) I2) as (s2 & Hrel & I3 & Q3); [by eapply quiet_live|].
    exists s2. split; [done|]. destruct (pending_none _ _ Hok I3) as [I4 Hsp]. split_and!; try done. by etrans.
  - by apply (commit_inv (rest s)).
Qed.

End Range.
(** What users see and which mappings there are. *)
Record same_users s s' : Prop := {
  su_kept : kept (fun _ _ => False) s s';
  su_root j : pml4 (spaces s' j) = pml4 (spaces s j);
  su_maps j m : mappings (spaces s' j) m = mappings (spaces s j) m
}.

#[global] Instance same_users_preorder : PreOrder same_users.
Proof.
  split; [intros s; split; [apply kept_refl|done..]|]. intros x y z [A1 A2 A3] [B1 B2 B3].
  split; [by eapply kept_trans|intros; by rewrite B2|intros; by rewrite B3].
Qed.

Lemma quiet_users D R P l s s' : inv D R P l s -> quiet s s' -> same_users s s'.
Proof.
  intros Hi Hq. split; [by eapply quiet_kept|apply (qt_root _ _ _ Hq)|]. intros j m. by rewrite (qt_maps _ _ _ Hq).
Qed.

Lemma unchanged_users s s' :
  spaces s' = spaces s -> (forall j u, is_slot j u -> pte_at s' j u = pte_at s j u) -> (forall b, memory s' b = memory s b) ->
  same_users s s'.
Proof. intros Hs Hp Hm. split; [by apply unchanged_kept|by rewrite Hs|by rewrite Hs]. Qed.

(** Taking a reference. *)
Lemma object_retain_inv D R l s o r w :
  inv D R None l s -> object_retain o (rest s) = (r, w) ->
  inv D R None l (set_rest w s) /\ same_users s (set_rest w s) /\ same_objects (rest s) w /\ (r = 0 -> spare o (set_rest w s)).
Proof.
  intros Hi Hr. destruct (retain_law (rest s) o r w Hr) as [Hso Hp]. pose proof (c_pins _ _ _ _ (i_core _ _ _ _ _ Hi)) as Hc.
  destruct (same_objects_inv D R None l s w Hi Hso) as (I1 & P1 & M1).
  { intros o'. rewrite Hp. pose proof (Hc o') as Hx. simpl in Hx |- *. destruct (_ && _); cbn [Z.b2z]; lia. }
  split; [done|]. split; [by apply unchanged_users|]. split; [done|]. intros -> o'. pose proof (Hc o') as Hx.
  change (mapset (abs_of (set_rest w s)) o') with (mapset (abs_of s) o'). simpl in Hx |- *. rewrite Hp, andb_true_r. lia.
Qed.

Lemma object_release_inv D R l s o :
  inv D R None l s -> spare o s -> exists s', release_object o s = Some s' /\ inv D R None l s' /\ same_users s s'.
Proof.
  intros Hi Hsp. destruct (release_object_inv D R None l s o Hi Hsp) as (s' & Hr & I' & S' & P' & M').
  exists s'. split; [done|]. split; [done|]. by apply unchanged_users.
Qed.

Lemma spare_rest o s w : spare o s -> (forall o', pins w o' = pins (rest s) o') -> spare o (set_rest w s).
Proof.
  intros Hs Hp o'. change (mapset (abs_of (set_rest w s)) o') with (mapset (abs_of s) o').
  change (rest (set_rest w s)) with w. rewrite Hp. apply Hs.
Qed.

Definition object_flags (writable : bool) (caching : Z) : Z :=
  let flags := VM64_PAGE_PRESENT ||| VM64_PAGE_USER ||| VM64_PAGE_NX ||| caching in
  if writable then flags ||| VM64_PAGE_WRITE else flags.

Lemma object_flags_ok writable caching :
  caching = 0 \/ caching = 0x08 \/ caching = 0x18 ->
  let fl := object_flags writable caching in
  is_u64 fl /\ fl &&& VM64_PHYS_MASK = 0 /\ pte_present fl = true /\ pte_owned fl = false.
Proof. intros [->|[->| ->]]; destruct writable; done. Qed.

Lemma cache_flags_cases mode : cache_flags mode <> 0xFFFFFFFFFFFFFFFF ->
  cache_flags mode = 0 \/ cache_flags mode = 0x08 \/ cache_flags mode = 0x18.
Proof. unfold cache_flags. repeat case_match; tauto. Qed.

Lemma driver_range virtual length :
  VM64_DRIVER_BASE <= virtual < VM64_DRIVER_LIMIT -> virtual &&& 0xFFF = 0 -> 0 < length -> length mod 4096 = 0 ->
  length <= VM64_DRIVER_LIMIT - virtual ->
  virtual = VM64_USER_BASE + 4096 * vpn virtual /\ 0 <= vpn virtual /\ length = 4096 * (length / 4096) /\
  0 < length / 4096 /\ vpn virtual + length / 4096 <= 0x20000.
Proof.
  rewrite offset_mod. unfold vpn, VM64_DRIVER_LIMIT, VM64_DRIVER_BASE, VM64_USER_LIMIT, VM64_USER_BASE. intros. split_and!; dmlia.
Qed.

Lemma free_mapping_spec v m :
  free_mapping v = Some m -> 0 <= m < VM64_MAPPING_MAX /\ m_object (mappings v m) = None.
Proof.
  intros H. apply scan_range_Some in H as (H1 & H2 & _). split; [done|]. by destruct (m_object (mappings v m)).
Qed.

Lemma installed_rest i virtual N flags phys o m s s' w :
  installed i o virtual N flags phys m (set_rest w s) s' -> installed i o virtual N flags phys m s s'.
Proof. intros [A0 A1 A2 A3 A4 A5]. by split. Qed.

(** A device object: the caller vouches for the physical range. *)
Lemma vm64_map_object_inv D R l s i virtual o physical length writable mode :
  inv D R None l s -> 0 <= i -> 0 <= length ->
  (forall k, 0 <= k < length / 4096 ->
     exists p, u64 (physical + 4096 * k) = 4096 * p /\ 0 <= p < 2 ^ 40 /\ backs (rest s) o p) ->
  exists r s', vm64_map_object i virtual o physical length writable mode s = Some (r, s') /\ inv D R None l s' /\
    ((r <> 0 /\ same_users s s') \/
     (r = 0 /\ live s i /\ exists m, 0 <= m < VM64_MAPPING_MAX /\ m_object (mappings (spaces s i) m) = None /\
        length = 4096 * (length / 4096) /\
        installed i o virtual (length / 4096) (object_flags writable (cache_flags mode)) (fun k => u64 (physical + k)) m s s')).
Proof.
  intros Hi Hi0 Hlen Hbk. unfold vm64_map_object.
  destruct (_ || (VM64_DRIVER_LIMIT - virtual <? length)) eqn:Hg; [by exists (-1), s; split_and!; [..|left]|].
  rewrite !orb_false_iff, !negb_false_iff, !Z.ltb_ge, !Z.leb_gt, !nz_false, !nz_true in Hg.
  destruct Hg as (((((((((G1 & G2) & G3) & G4) & G5) & G6) & G7) & G8) & G9) & G10).
  destruct (Z.eqb_spec (cache_flags mode) 0xFFFFFFFFFFFFFFFF) as [|Hcm]; [by exists (-1), s; split_and!; [..|left]|].
  destruct (free_mapping (spaces s i)) as [m|] eqn:Hfm; [|by exists (-1), s; split_and!; [..|left]].
  apply free_mapping_spec in Hfm as [Hm Hmo].
  destruct (object_retain o (rest s)) as [r w] eqn:Hret.
  destruct (object_retain_inv D R l s o r w Hi Hret) as (I1 & U1 & Hso & Hsp).
  destruct (nz r) eqn:Hr; [by exists (-1), (set_rest w s); split_and!; [..|left]|]. apply nz_false in Hr.
  rewrite offset_mod in G9. destruct (driver_range virtual length) as (E1 & E2 & E3 & E4 & E5); try done; [lia|].
  fold (object_flags writable (cache_flags mode)). set (fl := object_flags _ _).
  assert (range_ok o virtual (length / 4096) fl (fun k => u64 (physical + k)) w) as Hok.
  { split; [done|done| |by apply object_flags_ok, cache_flags_cases]. intros k Hk. destruct (Hbk k Hk) as (p & H1 & H2 & H3).
    exists p. split_and!; try done; try lia. by apply (so_backs _ _ Hso). }
  set (s1 := set_rest w s) in *.
  assert (live s1 i) as Hlv by (split; [unfold is_space; lia|done]).
  pose proof (install_inv D R l i o virtual (length / 4096) fl (fun k => u64 (physical + k)) m s1 Hok
    ltac:(by eapply none_pending; [|..|auto]) Hlv Hm Hmo) as Hins.
  destruct (map_pages _ i virtual _ fl 0 s1) as [[mapped|] s2].
  - rewrite <- E3 in Hins. destruct Hins as (s3 & -> & I3 & Q3 & Sp3). cbn [mbind option_bind].
    destruct (object_release_inv D R l s3 o I3 Sp3) as (s4 & -> & I4 & U4). cbn [mbind option_bind].
    exists (-1), s4. split; [done|]. split; [done|]. left. split; [done|]. etrans; [exact U1|]. etrans; [|exact U4]. by eapply quiet_users.
  - unfold mapping_of in Hins. rewrite <- E3 in Hins. destruct Hins as [I2 In2]. eexists 0, _. split; [done|]. split; [done|].
    right. split; [done|]. split; [done|]. exists m. split; [done|]. split; [done|]. split; [done|]. by eapply installed_rest.
Qed.

(** A page object brings its pages along. *)
Lemma vm64_map_page_object_inv D R l s i virtual o writable :
  inv D R None l s -> 0 <= i ->
  exists r s', vm64_map_page_object i virtual o writable s = Some (r, s') /\ inv D R None l s' /\
    ((r <> 0 /\ same_users s s') \/
     (r = 0 /\ live s i /\ exists m x, 0 <= m < VM64_MAPPING_MAX /\ m_object (mappings (spaces s i) m) = None /\
        page_resource_get (rest s) o = Some x /\ revoked x = false /\
        installed i o virtual (pages x) (object_flags writable 0) (fun k => physical x (k / 4096)) m s s')).
Proof.
  intros Hi Hi0. unfold vm64_map_page_object.
  destruct (page_resource_get (rest s) o) as [x|] eqn:Hx; [|by exists (-1), s; split_and!; [..|left]].
  destruct (_ || (VM64_DRIVER_LIMIT - virtual <? _)) eqn:Hg; [by exists (-1), s; split_and!; [..|left]|].
  rewrite !orb_false_iff, !negb_false_iff, !Z.ltb_ge, !Z.leb_gt, !nz_false, !nz_true in Hg.
  destruct Hg as (((((((G1 & G2) & G3) & G4) & G5) & G6) & G7) & G8).
  destruct (resource_law _ _ _ Hx) as [Hpg Hbk].
  destruct (driver_range virtual (pages x * 4096)) as (E1 & E2 & E3 & E4 & E5); try done; [lia|apply Z.mod_mul; lia|].
  rewrite Z.div_mul in E3, E4, E5 by lia.
  destruct (free_mapping (spaces s i)) as [m|] eqn:Hfm; [|by exists (-1), s; split_and!; [..|left]].
  apply free_mapping_spec in Hfm as [Hm Hmo].
  destruct (object_retain o (rest s)) as [r w] eqn:Hret.
  destruct (object_retain_inv D R l s o r w Hi Hret) as (I1 & U1 & Hso & Hsp).
  destruct (nz r) eqn:Hr; [by exists (-1), (set_rest w s); split_and!; [..|left]|]. apply nz_false in Hr. specialize (Hsp Hr).
  change (rest (set_rest w s)) with w. destruct (page_resource_mapping_open o w) as [r2 w2] eqn:Hop.
  destruct (open_law _ _ _ _ Hop) as [Hso2 Hp2].
  change (set_rest w2 (set_rest w s)) with (set_rest w2 s).
  assert (spare o (set_rest w2 s)) as Hsp2 by (apply (spare_rest o (set_rest w s) w2 Hsp); exact Hp2).
  destruct (same_objects_inv D R None l (set_rest w s) w2 I1 Hso2) as (I2 & P2 & M2).
  { intros o'. rewrite Hp2. apply (c_pins _ _ _ _ (i_core _ _ _ _ _ I1)). }
  change (set_rest w2 (set_rest w s)) with (set_rest w2 s) in I2, P2, M2. set (s2 := set_rest w2 s) in *.
  assert (same_users s s2) as U2 by (by apply unchanged_users).
  destruct (nz r2) eqn:Hr2.
  { destruct (object_release_inv D R l s2 o I2 Hsp2) as (s3 & -> & I3 & U3). cbn [mbind option_bind]. exists (-1), s3.
    split; [done|]. split; [done|]. left. split; [done|]. by etrans. }
  rewrite <- (Z.lor_0_r (VM64_PAGE_PRESENT ||| VM64_PAGE_USER ||| VM64_PAGE_NX)). fold (object_flags writable 0). set (fl := object_flags _ _).
  assert (range_ok o virtual (pages x) fl (fun k => physical x (k / 4096)) w2) as Hok.
  { split; [done|done| |apply object_flags_ok; by left]. intros k Hk. rewrite page_mul. destruct (Hbk k Hk) as (p & H1 & H2 & H3).
    exists p. split_and!; try done; try lia. by apply (so_backs _ _ Hso2), (so_backs _ _ Hso). }
  assert (live s2 i) as Hlv by (split; [unfold is_space; lia|done]).
  pose proof (install_inv D R l i o virtual (pages x) fl (fun k => physical x (k / 4096)) m s2 Hok
    ltac:(by eapply none_pending; [|..|auto]) Hlv Hm Hmo) as Hins.
  rewrite (Z.mul_comm (pages x)).
  destruct (map_pages _ i virtual _ fl 0 s2) as [[mapped|] s3].
  - destruct Hins as (s4 & -> & I4 & Q4 & Sp4). cbn [mbind option_bind]. destruct (close_law (rest s4) o) as [Hso5 Hp5].
    destruct (same_objects_inv D R None l s4 _ I4 Hso5) as (I5 & P5 & M5).
    { intros o'. rewrite Hp5. apply (c_pins _ _ _ _ (i_core _ _ _ _ _ I4)). }
    set (s5 := set_rest _ s4) in *.
    destruct (object_release_inv D R l s5 o I5) as (s6 & -> & I6 & U6); [by apply spare_rest|]. cbn [mbind option_bind].
    exists (-1), s6. split; [done|]. split; [done|]. left. split; [done|]. etrans; [exact U2|]. etrans; [by eapply quiet_users|].
    etrans; [|exact U6]. by apply unchanged_users.
  - destruct Hins as [I4 In4]. eexists 0, _. split; [done|]. split; [done|].
    right. split; [done|]. split; [done|]. exists m, x. do 4 (split; [done|]). by eapply installed_rest.
Qed.

End Mappings.
End VmMappings.
