(* ===== verification/VmRevoke.v ===== *)
(** * Taking object mappings away

    [vm64_unmap_object] removes a mapping with all its entries and gives its
    reference back; the revocations do it for every mapping of an object in
    one space or in all of them. *)

From stdpp Require Import gmap.
From S2P Require Import Prelude Pmm Vm VmInv VmOps VmUser VmAccess VmSpaces VmDestroy VmClone VmMappings.

Open Scope Z_scope.

Module VmRevoke.
Import Vm VmInv VmOps VmUser VmAccess VmSpaces VmDestroy VmClone VmMappings.

Section Revoke.
Context {W : Type} {VM : VmModules W} {VO : VmObjects W} {VL : VmLaws W}.
Implicit Types (s : vm W).

Local Abbreviation none := (fun _ _ : Z => False).

(** Every mapping is a range of whole pages. *)
Definition shaped s : Prop :=
  forall i m, is_space i -> 0 <= m < VM64_MAPPING_MAX -> m_object (mappings (spaces s i) m) <> None ->
    page_range (m_virtual (mappings (spaces s i) m)) (m_length (mappings (spaces s i) m)).

(** ** Clearing the entries *)

(** The first [k] entries of the range are gone. *)
Definition cleared (i v0 k : Z) s (j u : Z) : Z :=
  if (j =? i) && (v0 <=? u) && (u <? v0 + k) then 0 else pte_at s j u.

Lemma clear_step D (R : Z -> Z -> Prop) P l s i virtual length k s' :
  inv D R P l s' -> live s i -> page_range virtual length -> 0 <= k < length / 4096 ->
  stepped (cleared i (vpn virtual) k s) s s' ->
  pte_present (pte_at s i (vpn virtual + k)) = true -> pte_owned (pte_at s i (vpn virtual + k)) = false ->
  (forall m, 0 <= m < VM64_MAPPING_MAX -> m_object (mappings (spaces s i) m) <> None ->
     covers (mappings (spaces s i) m) (vpn virtual + k) -> R i m) ->
  exists pte, find_pte i (virtual + 4096 * k) s' = Some pte /\ inv D R P l (store pte 0 s') /\
    stepped (cleared i (vpn virtual) (k + 1) s) s (store pte 0 s').
Proof.
  intros Hi Hlv Hpr Hk Hst Hp Ho HR. set (v := vpn virtual + k) in *. destruct (pr_slots _ _ Hpr) as (V1 & V2 & V3).
  assert (is_slot i v) as Hs by (split; [apply Hlv|unfold v; lia]).
  assert (pte_at s' i v = pte_at s i v) as Hpte.
  { rewrite (qt_pte _ _ _ Hst) by done. unfold cleared, v. destruct (Z.ltb_spec (vpn virtual + k) (vpn virtual + k)); [lia|].
    by rewrite andb_false_r. }
  assert (user_pts (spaces s' i) (v / 512) <> 0) as Hpt by (apply pte_at_table; by rewrite Hpte).
  exists (pte_addr s' i v). split.
  { rewrite find_pte_spec, (page_range_vpn virtual length) by done. fold v. rewrite decide_True; [done|].
    split; [rewrite (qt_root _ _ _ Hst); apply Hlv|]. split; [by apply (page_range_user virtual length)|done]. }
  destruct (store_pte_inv D R P l s' i v 0 Hi Hs Hpt) as [I2 St2]; [done|done| |].
  { split; [done|done|]. intros m Hm Hmo Hn Hc. destruct Hn. simpl in Hmo, Hc. rewrite (qt_maps _ _ _ Hst) in Hmo, Hc. by apply HR. }
  pose proof (stored_stepped _ _ _ _ _ St2) as S2. split.
  - eapply inv_loose_ext; [|exact I2]. intros q. simpl. rewrite Hpte, !own1_false; [lia|by left|right; by left].
  - eapply stepped_ext; [|eapply stepped_trans; [exact Hst|exact S2]]. intros j u Hju. cbv beta. rewrite (qt_pte _ _ _ Hst) by done.
    unfold cleared. destruct (Z.eqb_spec j i) as [->|]; cbn [andb]; [|done]. destruct (Z.eqb_spec u v) as [->|Hne].
    + unfold v. rewrite (proj2 (Z.leb_le _ _)), (proj2 (Z.ltb_lt _ _)) by lia. done.
    + destruct (Z.leb_spec (vpn virtual) u), (Z.ltb_spec u (vpn virtual + k)), (Z.ltb_spec u (vpn virtual + (k + 1))); cbn; done || (unfold v in Hne; lia).
Qed.

Lemma clear_pages_inv D (R : Z -> Z -> Prop) P l s i virtual length :
  inv D R P l s -> live s i -> page_range virtual length ->
  (forall u, vpn virtual <= u < vpn virtual + length / 4096 ->
     (pte_present (pte_at s i u) = true /\ pte_owned (pte_at s i u) = false) /\
     forall m, 0 <= m < VM64_MAPPING_MAX -> m_object (mappings (spaces s i) m) <> None ->
       covers (mappings (spaces s i) m) u -> R i m) ->
  exists s', clear_pages i virtual length s = Some (None, s') /\ inv D R P l s' /\
    stepped (cleared i (vpn virtual) (length / 4096) s) s s'.
Proof.
  intros Hi Hlv Hpr Hall. destruct (pr_slots _ _ Hpr) as (V1 & V2 & V3).
  destruct (for_return_ind (fun k s' => inv D R P l s' /\ stepped (cleared i (vpn virtual) k s) s s') (fun _ _ => False)
    0 (length / 4096) (fun k s => match find_pte i (virtual + 4096 * k) s with
      | Some pte => Some (None, store pte 0 s) | None => Some (Some (-1), s) end) s) as (r & s' & Hrun & Hr).
  - lia.
  - split; [done|]. eapply stepped_ext; [|exact (reflexivity s : quiet s s)]. intros j u _. unfold cleared.
    destruct (Z.leb_spec (vpn virtual) u), (Z.ltb_spec u (vpn virtual + 0)); rewrite ?andb_false_r; try done; lia.
  - intros k s' Hk [I' S']. destruct (Hall (vpn virtual + k) ltac:(lia)) as [[Hp Ho] Hm].
    destruct (clear_step D R P l s i virtual length k s') as (pte & -> & I2 & S2); try done. by exists None, (store pte 0 s').
  - unfold clear_pages. destruct r as [z|]; [done|]. by exists s'.
Qed.

(** ** Unmapping *)

(** The mapping [m] of the space [i] has gone with its entries. *)
Record unmapped (i m : Z) s s' : Prop := {
  um_pte j u : is_slot j u -> pte_at s' j u =
    if bool_decide (j = i /\ covers (mappings (spaces s i) m) u) then 0 else pte_at s j u;
  um_memory b : leaf s (b / 4096) -> memory s' b = memory s b;
  um_root j : pml4 (spaces s' j) = pml4 (spaces s j);
  um_maps j m' : mappings (spaces s' j) m' = if (j =? i) && (m' =? m) then Mapping None 0 0 else mappings (spaces s j) m'
}.

#[global] Instance covers_dec e v : Decision (covers e v).
Proof. unfold covers. apply _. Defined.

Lemma all_present_true D P l s i m :
  inv D none P l s -> live s i -> 0 <= m < VM64_MAPPING_MAX ->
  let e := mappings (spaces s i) m in
  m_object e <> None -> page_range (m_virtual e) (m_length e) -> all_present i (m_virtual e) (m_length e) s = true.
Proof.
  intros Hi Hlv Hm e Hmo Hpr. destruct (pr_slots _ _ Hpr) as (V1 & V2 & V3). unfold all_present.
  assert (scan_range 0 (m_length e / 4096) (fun k => match find_pte i (m_virtual e + 4096 * k) s with
    | Some pte => negb (nz (read64 (memory s) pte &&& VM64_PAGE_PRESENT)) | None => true end) = None) as ->; [|done].
  apply scan_range_None. intros k Hk.
  assert (is_slot i (vpn (m_virtual e) + k)) as Hs by (split; [apply Hlv|lia]).
  destruct (c_range _ _ _ _ (i_core _ _ _ _ _ Hi) i m _ Hs Hm Hmo (fun x => x)) as [Hp _].
  { apply (page_range_covers e); [done|lia]. }
  simpl in Hp. pose proof (find_pte_entry s i (m_virtual e + 4096 * k)) as He.
  rewrite (page_range_vpn _ (m_length e)) in He by done.
  destruct (find_pte i (m_virtual e + 4096 * k) s) as [pte|].
  - destruct He as [He _]. rewrite <- He, norm_present in Hp. change VM64_PAGE_PRESENT with (2 ^ 0). by rewrite flag_test, Hp.
  - rewrite He in Hp; [done|apply Hlv|by apply (page_range_user _ (m_length e))].
Qed.

(** Unmapping succeeds exactly when there is such a mapping. *)
Lemma vm64_unmap_object_inv D P l s i virtual length :
  inv D none P l s -> shaped s -> 0 <= i ->
  exists r s', vm64_unmap_object i virtual length s = Some (r, s') /\ inv D none P l s' /\
    ((r <> 0 /\ s' = s /\ forall m, live s i -> 0 <= m < VM64_MAPPING_MAX -> mapping_matches virtual length (mappings (spaces s i) m) = false) \/
     (r = 0 /\ live s i /\ exists m, 0 <= m < VM64_MAPPING_MAX /\ mapping_matches virtual length (mappings (spaces s i) m) = true /\
        (forall m', 0 <= m' < m -> mapping_matches virtual length (mappings (spaces s i) m') = false) /\ unmapped i m s s')).
Proof.
  intros Hi Hsh Hi0. unfold vm64_unmap_object. destruct (_ || _) eqn:Hg.
  { exists (-1), s. do 2 (split; [done|]). left. split; [done|]. split; [done|]. intros m [[_ Hsp] Hl] _. exfalso.
    apply orb_true_iff in Hg as [Hg|Hg]; [apply Z.leb_le in Hg; lia|]. apply negb_true_iff, nz_false in Hg. done. }
  rewrite orb_false_iff, negb_false_iff, Z.leb_gt, nz_true in Hg. destruct Hg as [Hg1 Hg2].
  assert (live s i) as Hlv by (split; [unfold is_space; lia|done]). pose proof Hlv as [Hsp _].
  destruct (scan_range _ _ _) as [m|] eqn:Hsc.
  2:{ rewrite scan_range_None in Hsc. exists (-1), s. do 2 (split; [done|]). left. split; [done|]. split; [done|]. intros m _ Hm. by apply Hsc. }
  apply scan_range_Some in Hsc as (Hm & Hmt & Hfirst). set (e := mappings (spaces s i) m) in *.
  assert (m_virtual e = virtual /\ m_length e = length /\ exists o, m_object e = Some o) as (<- & <- & o & Hmo).
  { unfold mapping_matches in Hmt. rewrite !andb_true_iff, !Z.eqb_eq in Hmt. destruct Hmt as [[H1 ->] ->].
    destruct (m_object e) as [o|]; [by split_and!; [..|exists o]|done]. }
  assert (m_object e <> None) as Hne by congruence. pose proof (Hsh i m Hsp Hm Hne) as Hpr. fold e in Hpr.
  pose proof (all_present_true D P l s i m Hi Hlv Hm Hne Hpr) as Hap. fold e in Hap. rewrite Hap. cbn [negb].
  set (R := fun j m' => j = i /\ m' = m). assert (inv D R P l s) as Hi1 by (apply (inv_mappings _ none); [done|by intros]).
  assert (forall u, covers e u <-> vpn (m_virtual e) <= u < vpn (m_virtual e) + m_length e / 4096) as Hcov.
  { intros u. by apply page_range_covers. }
  destruct (pr_slots _ _ Hpr) as (V1 & V2 & V3).
  destruct (clear_pages_inv D R P l s i (m_virtual e) (m_length e) Hi1 Hlv Hpr) as (s1 & -> & I1 & S1).
  { intros u Hu. assert (is_slot i u) as Hs by (split; [done|lia]). split.
    - apply (c_range _ _ _ _ (i_core _ _ _ _ _ Hi) i m u Hs Hm Hne); [by intros []|]. by apply Hcov.
    - intros m' Hm' Ho' Hc'. split; [done|]. destruct (Z.eq_dec m' m) as [|Hmm]; [done|exfalso].
      apply (c_disjoint _ _ _ _ (i_core _ _ _ _ _ Hi) i m' m u Hs); try done; [by intros []|by intros []|]. by apply Hcov. }
  cbn [mbind option_bind].
  assert (live s1 i) as Hlv1 by (split; [done|]; by rewrite (qt_root _ _ _ S1)).
  destruct (release_pts_inv D R P l i _ _ s1 Hpr I1 Hlv1) as (s2 & -> & I2 & Q2). cbn [mbind option_bind].
  assert (mappings (spaces s2 i) = mappings (spaces s i)) as Hmaps by (by rewrite (qt_maps _ _ _ Q2), (qt_maps _ _ _ S1)).
  rewrite Hmaps. fold e. rewrite Hmo. cbn [mbind option_bind].
  assert (forall j u, is_slot j u -> pte_at s2 j u = cleared i (vpn (m_virtual e)) (m_length e / 4096) s j u) as Hp2.
  { intros j u Hju. rewrite (qt_pte _ _ _ Q2) by done. by apply (qt_pte _ _ _ S1). }
  assert (forall u, covers e u -> cleared i (vpn (m_virtual e)) (m_length e / 4096) s i u = 0) as Hcl.
  { intros u Hu%Hcov. unfold cleared. by rewrite Z.eqb_refl, (proj2 (Z.leb_le _ _)), (proj2 (Z.ltb_lt _ _)) by lia. }
  destruct (drop_mapping_inv D R P l s2 i m (Mapping None 0 0) o) as (s3 & -> & Ss3 & I3 & P3 & M3); try done.
  { by rewrite Hmaps. }
  { rewrite Hmaps. intros u Hu Hc Hp. rewrite Hp2, Hcl in Hp by done. done. }
  cbn [mbind option_bind]. rewrite <- Ss3 in I3, P3, M3. set (s4 := set_space i _ s3) in *.
  exists 0, s4. split; [done|]. pose proof (set_mapping_space s3 i m (Mapping None 0 0)) as Hss. fold s4 in Hss. split.
  { apply (inv_mappings _ R); [done|]. intros j m' _ _ Hx [-> ->]. destruct (Hss i) as (_ & _ & _ & _ & _ & _ & Hy).
    rewrite Hy, !Z.eqb_refl in Hx. done. }
  right. split; [done|]. split; [done|]. exists m. split; [done|]. split; [done|]. split; [done|]. split.
  - intros j u Hju. rewrite P3, Hp2 by done. fold e. case_bool_decide as Hb.
    + destruct Hb as [-> Hc]. by apply Hcl.
    + unfold cleared. destruct (Z.eqb_spec j i) as [->|]; [|done]. rewrite Hcov in Hb.
      destruct (Z.leb_spec (vpn (m_virtual e)) u), (Z.ltb_spec u (vpn (m_virtual e) + m_length e / 4096)); cbn; try done. tauto.
  - intros b Hb. rewrite M3, (qt_memory _ _ _ Q2); [by apply (qt_memory _ _ _ S1)|].
    destruct Hb as [Hb1 Hb2]. split; [by rewrite (qt_refs _ _ _ S1)|by apply (qt_table _ _ _ S1)].
  - intros j. destruct (Hss j) as (-> & _). rewrite Ss3, (qt_root _ _ _ Q2). apply (qt_root _ _ _ S1).
  - intros j m'. destruct (Hss j) as (_ & _ & _ & _ & _ & _ & ->). by rewrite Ss3, (qt_maps _ _ _ Q2), (qt_maps _ _ _ S1).
Qed.

(** ** Revocation *)

Lemma unmapped_shaped i m s s' : unmapped i m s s' -> shaped s -> shaped s'.
Proof.
  intros Hu Hs j m' Hj Hm'. rewrite (um_maps _ _ _ _ Hu). destruct (_ && _); [done|]. by apply Hs.
Qed.

(** The mapping an unmap removes is the one asked for: ranges are disjoint. *)
Lemma revoke_one D P l s i m o :
  inv D none P l s -> shaped s -> live s i -> 0 <= m < VM64_MAPPING_MAX ->
  let e := mappings (spaces s i) m in
  m_object e = Some o ->
  exists s', vm64_unmap_object i (m_virtual e) (m_length e) s = Some (0, s') /\ inv D none P l s' /\ shaped s' /\ unmapped i m s s'.
Proof.
  intros Hi Hsh Hlv Hm e Ho. destruct (vm64_unmap_object_inv D P l s i (m_virtual e) (m_length e) Hi Hsh) as (r & s' & Hrun & Hi' & Hc).
  { destruct Hlv as [[] _]; lia. }
  assert (mapping_matches (m_virtual e) (m_length e) e = true) as Hself.
  { unfold mapping_matches. rewrite Ho, !Z.eqb_refl. done. }
  destruct Hc as [(Hr & -> & Hno)|(-> & _ & m' & Hm' & Hmt & _ & Hum)].
  { pose proof (Hno m Hlv Hm) as Hx. fold e in Hx. congruence. }
  assert (m' = m) as ->; [|exists s'; split_and!; try done; by eapply unmapped_shaped].
  unfold mapping_matches in Hmt. rewrite !andb_true_iff, !Z.eqb_eq in Hmt. destruct Hmt as [[Ho' Hv'] Hl'].
  destruct (Z.eq_dec m' m) as [|Hne]; [done|exfalso]. pose proof Hlv as [Hsp _].
  pose proof (Hsh i m Hsp Hm ltac:(fold e; congruence)) as Hpr. fold e in Hpr. destruct (pr_slots _ _ Hpr) as (V1 & V2 & V3).
  assert (is_slot i (vpn (m_virtual e))) as Hs by (split; [done|lia]).
  assert (covers e (vpn (m_virtual e))) as Hc1 by (apply page_range_covers; [done|lia]).
  apply (c_disjoint _ _ _ _ (i_core _ _ _ _ _ Hi) i m' m (vpn (m_virtual e)) Hs); try done; [..|by intros []|by intros []|].
  - simpl. by destruct (m_object (mappings (spaces s i) m')).
  - simpl. fold e. congruence.
  - simpl. unfold covers in *. rewrite Hv', Hl'. done.
Qed.

(** The mappings [hit] says are gone, with their entries, and no others. *)
Record revokes (hit : Z -> Z -> bool) s s' : Prop := {
  rv_maps j m : mappings (spaces s' j) m = if hit j m then Mapping None 0 0 else mappings (spaces s j) m;
  rv_gone j u m : is_slot j u -> hit j m = true -> covers (mappings (spaces s j) m) u -> pte_at s' j u = 0;
  rv_stay j u : is_slot j u -> (forall m, hit j m = true -> ~ covers (mappings (spaces s j) m) u) -> pte_at s' j u = pte_at s j u;
  rv_memory j u b : is_slot j u -> pte_present (pte_at s' j u) = true -> b / 4096 = phys_page (pte_at s' j u) ->
    memory s' b = memory s b;
  rv_root j : pml4 (spaces s' j) = pml4 (spaces s j)
}.

Lemma revokes_ext hit hit' s s' : (forall j m, hit j m = hit' j m) -> revokes hit s s' -> revokes hit' s s'.
Proof.
  intros He [A1 A2 A3 A4 A5]. split; try done.
  - intros j m. rewrite <- He. apply A1.
  - intros j u m. rewrite <- He. apply A2.
  - intros j u Hju Hn. apply A3; [done|]. intros m Hm. apply Hn. by rewrite <- He.
Qed.

Lemma revokes_refl s : revokes (fun _ _ => false) s s.
Proof. by split. Qed.

Lemma revokes_step D R P l hit s s' i m s'' :
  inv D R P l s' -> revokes hit s s' -> hit i m = false -> unmapped i m s' s'' ->
  revokes (fun j m' => hit j m' || ((j =? i) && (m' =? m))) s s''.
Proof.
  intros Hi [A1 A2 A3 A4 A5] Hh [U1 U2 U3 U4].
  assert (mappings (spaces s' i) m = mappings (spaces s i) m) as Hm by (by rewrite A1, Hh).
  split.
  - intros j m'. rewrite U4, A1. destruct (Z.eqb_spec j i) as [->|], (Z.eqb_spec m' m) as [->|]; cbn [andb];
      rewrite ?Hh, ?orb_false_r; done.
  - intros j u m' Hju Hhit Hc. rewrite U1 by done. case_bool_decide as Hb; [done|].
    apply orb_true_iff in Hhit as [Hhit|Hhit]; [by eapply A2|]. rewrite andb_true_iff, !Z.eqb_eq in Hhit. destruct Hhit as [-> ->].
    destruct Hb. by rewrite Hm.
  - intros j u Hju Hn. rewrite U1 by done. rewrite bool_decide_false.
    + apply A3; [done|]. intros m' Hm'. apply Hn. by rewrite Hm'.
    + intros [-> Hc]. rewrite Hm in Hc. apply (Hn m); [|done]. by rewrite !Z.eqb_refl, orb_true_r.
  - intros j u b Hju Hp Hb. rewrite U1 in Hp, Hb by done. case_bool_decide; [done|]. rewrite U2; [by eapply A4|].
    rewrite Hb. by eapply present_leaf.
  - intros j. by rewrite U3.
Qed.

Definition wanted (objects : list Z) (e : vm64_object_mapping) : bool :=
  match m_object e with Some o => bool_decide (o ∈ objects) | None => false end.

(** A pass over the mappings of the space [i] that has got to [n]. *)
Definition pass (hit : Z -> Z -> bool) (i : Z) (objects : list Z) s (n j m : Z) : bool :=
  hit j m || ((j =? i) && (0 <=? m) && (m <? n) && wanted objects (mappings (spaces s j) m)).

Record passing D P l hit i objects s n s' : Prop := {
  pa_inv : inv D none P l s';
  pa_shaped : shaped s';
  pa_live : live s' i;
  pa_revokes : revokes (pass hit i objects s n) s s'
}.

Lemma passing_step D P l hit i objects s n s' :
  passing D P l hit i objects s n s' -> (forall m, hit i m = false) -> 0 <= n < VM64_MAPPING_MAX ->
  let e := mappings (spaces s' i) n in
  e = mappings (spaces s i) n /\
  if wanted objects e
  then exists s'', vm64_unmap_object i (m_virtual e) (m_length e) s' = Some (0, s'') /\ passing D P l hit i objects s (n + 1) s''
  else passing D P l hit i objects s (n + 1) s'.
Proof.
  intros [I1 S1 L1 R1] Hh Hn e.
  assert (pass hit i objects s n i n = false) as Hpn.
  { unfold pass. rewrite Hh. destruct (Z.ltb_spec n n); [lia|]. by rewrite andb_false_r. }
  assert (e = mappings (spaces s i) n) as He by (unfold e; by rewrite (rv_maps _ _ _ R1), Hpn).
  assert (forall j m, pass hit i objects s (n + 1) j m =
    pass hit i objects s n j m || ((j =? i) && (m =? n) && wanted objects (mappings (spaces s j) m))) as Hnext.
  { intros j m. unfold pass. rewrite <- orb_assoc. f_equal. destruct (Z.eqb_spec j i); cbn [andb]; [|done].
    destruct (Z.leb_spec 0 m), (Z.ltb_spec m n), (Z.ltb_spec m (n + 1)), (Z.eqb_spec m n); cbn [andb orb]; try lia; try done;
      by rewrite ?orb_false_r. }
  split; [done|]. destruct (wanted objects e) eqn:Hw.
  - assert (exists o, m_object e = Some o) as [o Ho] by (unfold wanted in Hw; destruct (m_object e) as [o|]; [by exists o|done]).
    destruct (revoke_one D P l s' i n o I1 S1 L1 Hn Ho) as (s'' & Hrun & I2 & S2 & U2). exists s''. split; [done|]. split; try done.
    + destruct L1. split; [done|]. by rewrite (um_root _ _ _ _ U2).
    + eapply revokes_ext; [|eapply revokes_step; [exact I1|exact R1|exact Hpn|exact U2]]. intros j m. rewrite Hnext.
      destruct (Z.eqb_spec j i) as [->|], (Z.eqb_spec m n) as [->|]; cbn [andb]; try done. by rewrite <- He, Hw.
  - split; try done. eapply revokes_ext; [|exact R1]. intros j m. rewrite Hnext.
    destruct (Z.eqb_spec j i) as [->|], (Z.eqb_spec m n) as [->|]; cbn [andb]; rewrite ?orb_false_r; try done. by rewrite <- He, Hw, orb_false_r.
Qed.

Lemma revoke_objects_loop D P l hit i objects s s1 :
  passing D P l hit i objects s 0 s1 -> (forall m, hit i m = false) -> forall n, 0 <= n <= VM64_MAPPING_MAX ->
  exists s', for_range 0 n (fun map acc => acc ← acc; revoke_mapping i objects map acc) (Some (0, s1)) =
      Some (count_from (Z.to_nat n) 0 (fun m => wanted objects (mappings (spaces s i) m)), s') /\
    passing D P l hit i objects s n s'.
Proof.
  intros H0 Hh n Hn. apply (natlike_ind (fun n => n <= VM64_MAPPING_MAX -> exists s',
    for_range 0 n (fun map acc => acc ← acc; revoke_mapping i objects map acc) (Some (0, s1)) =
      Some (count_from (Z.to_nat n) 0 (fun m => wanted objects (mappings (spaces s i) m)), s') /\
    passing D P l hit i objects s n s')); [|..|lia|lia].
  - intros _. exists s1. done.
  - clear n Hn. intros n Hn0 IH Hn. destruct IH as (s' & Hrun & Hps); [lia|].
    unfold Z.succ. rewrite for_range_last, Hrun by done. cbn [mbind option_bind].
    destruct (passing_step D P l hit i objects s n s' Hps Hh ltac:(lia)) as [He Hstep]. unfold revoke_mapping.
    replace (Z.to_nat (n + 1)) with (S (Z.to_nat n)) by lia. rewrite count_from_last, Z.add_0_l, Z2Nat.id by done. rewrite <- He.
    unfold wanted in Hstep |- *. destruct (m_object (mappings (spaces s' i) n)) as [o|]; [|exists s'; by rewrite Z.add_0_r].
    destruct (bool_decide (o ∈ objects)); [|exists s'; by rewrite Z.add_0_r].
    destruct Hstep as (s'' & -> & Hps'). by exists s''.
Qed.

(** Every mapping of one of the objects goes, and the answer is their number. *)
Lemma vm64_revoke_objects_inv D P l s i objects :
  inv D none P l s -> shaped s -> 0 <= i ->
  exists n s', vm64_revoke_objects i objects s = Some (n, s') /\ inv D none P l s' /\ shaped s' /\
    n = (if decide (live s i) then count_from (Z.to_nat VM64_MAPPING_MAX) 0 (fun m => wanted objects (mappings (spaces s i) m)) else 0) /\
    revokes (fun j m => bool_decide (j = i /\ live s i /\ 0 <= m < VM64_MAPPING_MAX) && wanted objects (mappings (spaces s j) m)) s s'.
Proof.
  intros Hi Hsh Hi0. unfold vm64_revoke_objects. destruct (decide (live s i)) as [Hlv|Hlv].
  - pose proof Hlv as [[_ Hsp] Hl]. destruct (Z.leb_spec VM64_MAX_SPACES i); [lia|]. rewrite (proj2 (nz_true _) Hl). cbn [orb negb].
    destruct (revoke_objects_loop D P l (fun _ _ => false) i objects s s) with (n := VM64_MAPPING_MAX) as (s' & -> & [I1 S1 L1 R1]); try done.
    { split; try done. eapply revokes_ext; [|apply revokes_refl]. intros j m. unfold pass.
      destruct (Z.leb_spec 0 m), (Z.ltb_spec m 0); rewrite ?andb_false_r; try done; lia. }
    eexists _, s'. do 4 (split; [done|]). eapply revokes_ext; [|exact R1]. intros j m. unfold pass. cbn [orb]. f_equal.
    destruct (Z.eqb_spec j i), (Z.leb_spec 0 m), (Z.ltb_spec m VM64_MAPPING_MAX); cbn [andb]; symmetry;
      (apply bool_decide_true; done) || (apply bool_decide_false; intros (? & _ & ?); lia).
  - assert ((VM64_MAX_SPACES <=? i) || negb (nz (pml4 (spaces s i))) = true) as ->.
    { destruct (Z.leb_spec VM64_MAX_SPACES i); [done|]. cbn. apply negb_true_iff, nz_false.
      destruct (Z.eq_dec (pml4 (spaces s i)) 0); [done|]. destruct Hlv. split; [unfold is_space; lia|done]. }
    exists 0, s. do 4 (split; [done|]). eapply revokes_ext; [|apply revokes_refl]. intros j m.
    rewrite bool_decide_false; [done|]. tauto.
Qed.

(** ** Revocation everywhere *)

(** The mappings of [o] in the first [i] spaces. *)
Definition all_of (o : Z) s (i j m : Z) : bool :=
  bool_decide (0 <= j < i /\ 0 <= m < VM64_MAPPING_MAX) && wanted [o] (mappings (spaces s j) m).

Lemma revoke_space_loop D P l hit i o s s1 :
  passing D P l hit i [o] s 0 s1 -> (forall m, hit i m = false) -> forall n, 0 <= n <= VM64_MAPPING_MAX ->
  exists s', for_range 0 n (fun map acc => acc ← acc; revoke_in_space o i map acc) (Some (0, s1)) = Some (0, s') /\
    passing D P l hit i [o] s n s'.
Proof.
  intros H0 Hh n Hn. apply (natlike_ind (fun n => n <= VM64_MAPPING_MAX -> exists s',
    for_range 0 n (fun map acc => acc ← acc; revoke_in_space o i map acc) (Some (0, s1)) = Some (0, s') /\
    passing D P l hit i [o] s n s')); [|..|lia|lia].
  - intros _. exists s1. done.
  - clear n Hn. intros n Hn0 IH Hn. destruct IH as (s' & Hrun & Hps); [lia|].
    unfold Z.succ. rewrite for_range_last, Hrun by done. cbn [mbind option_bind].
    destruct (passing_step D P l hit i [o] s n s' Hps Hh ltac:(lia)) as [_ Hstep]. unfold revoke_in_space.
    unfold wanted in Hstep. destruct (m_object (mappings (spaces s' i) n)) as [o'|]; [|by exists s'].
    case_bool_decide as Hb1; case_bool_decide as Hb2; rewrite list_elem_of_singleton in Hb1 || rewrite list_elem_of_singleton in Hb2; try congruence.
    + destruct Hstep as (s'' & -> & Hps'). by exists s''.
    + by exists s'.
Qed.

Lemma vm64_revoke_object_all_inv D P l s o :
  inv D none P l s -> shaped s ->
  exists s', vm64_revoke_object_all o s = Some (0, s') /\ inv D none P l s' /\ shaped s' /\
    revokes (all_of o s VM64_MAX_SPACES) s s'.
Proof.
  intros Hi Hsh. unfold vm64_revoke_object_all.
  pose proof (for_range_ind (fun i acc => 0 <= i -> exists s', acc = Some (0, s') /\ inv D none P l s' /\ shaped s' /\ revokes (all_of o s i) s s')
    0 VM64_MAX_SPACES (fun i acc => '(result, s) ← acc; if negb (nz (pml4 (spaces s i))) then Some (result, s) else
    for_range 0 VM64_MAPPING_MAX (fun map acc => acc ← acc; revoke_in_space o i map acc) (Some (result, s))) (Some (0, s))) as Hind.
  rewrite Z.max_r in Hind by done. apply Hind; [|clear Hind|done].
  - intros _. exists s. do 3 (split; [done|]). eapply revokes_ext; [|apply revokes_refl]. intros j m. unfold all_of.
    rewrite bool_decide_false; [done|]. lia.
  - intros i acc Hir IH Hi1. destruct IH as (s' & -> & I' & S' & R'); [lia|]. cbn [mbind option_bind].
    assert (is_space i) as Hsp by (unfold is_space; lia).
    assert (forall j m, all_of o s (i + 1) j m = pass (all_of o s i) i [o] s VM64_MAPPING_MAX j m) as Hnext.
    { intros j m. unfold all_of, pass. destruct (wanted _ _); rewrite ?andb_false_r, ?andb_true_r; [|done].
      destruct (Z.eqb_spec j i), (Z.leb_spec 0 m), (Z.ltb_spec m VM64_MAPPING_MAX); cbn [andb]; rewrite ?orb_false_r, ?orb_true_r;
        (apply bool_decide_ext; lia) || (apply bool_decide_true; lia). }
    destruct (nz (pml4 (spaces s' i))) eqn:Hl; cbn [negb].
    + apply nz_true in Hl. destruct (revoke_space_loop D P l (all_of o s i) i o s s') with (n := VM64_MAPPING_MAX) as (s'' & -> & [I2 S2 L2 R2]); try done.
      * split; try done. eapply revokes_ext; [|exact R']. intros j m. unfold pass.
        destruct (Z.leb_spec 0 m), (Z.ltb_spec m 0); rewrite ?andb_false_r, ?orb_false_r; try done; lia.
      * intros m. unfold all_of. rewrite bool_decide_false; [done|]. lia.
      * exists s''. do 3 (split; [done|]). eapply revokes_ext; [|exact R2]. intros j m. by rewrite Hnext.
    + apply nz_false in Hl. exists s'. do 3 (split; [done|]). eapply revokes_ext; [|exact R']. intros j m. rewrite Hnext. unfold pass.
      destruct (Z.eqb_spec j i) as [->|]; cbn [andb]; [|by rewrite orb_false_r].
      destruct (Z.leb_spec 0 m), (Z.ltb_spec m VM64_MAPPING_MAX); cbn [andb]; rewrite ?orb_false_r; try done.
      assert (wanted [o] (mappings (spaces s i) m) = false) as ->; [|by rewrite orb_false_r].
      destruct (i_dead _ _ _ _ _ I' i Hsp Hl) as (_ & _ & _ & _ & _ & Hz). specialize (Hz m ltac:(lia)).
      rewrite (rv_maps _ _ _ R') in Hz. unfold all_of in Hz. rewrite bool_decide_false in Hz by lia. cbn in Hz.
      unfold wanted. by rewrite Hz.
Qed.

End Revoke.
End VmRevoke.
