(* ===== verification/VmKernel.v ===== *)
(** * The kernel's window for devices

    [vm64_ioremap] maps device memory at the first gap of the window that is
    large enough, [vm64_iounmap] takes such a range away; [vm64_init] builds
    the window's tables. *)

From stdpp Require Import gmap.
From S2P Require Import Prelude Pmm Vm VmInv VmOps VmUser VmAccess VmSpaces VmDestroy VmClone.

Open Scope Z_scope.

Module VmKernel.
Import Vm VmInv VmOps VmUser VmAccess VmSpaces VmDestroy VmClone.

(** ** The search *)

(** [pages] unused pages from [t] on. *)
Definition gap (used : Z -> bool) (pages t : Z) : Prop := forall q, t <= q < t + pages -> used q = false.

(** The first gap that ends within the first [limit] pages. *)
Definition first_gap (used : Z -> bool) (pages limit t : Z) : Prop :=
  0 <= t /\ t + pages <= limit /\ gap used pages t /\ forall t', 0 <= t' < t -> ~ gap used pages t'.

Lemma mmio_run_spec n used pages index run start :
  0 <= run < pages -> run <= index -> (run <> 0 -> start = index - run) ->
  (forall q, index - run <= q < index -> used q = false) ->
  (run = index \/ used (index - run - 1) = true) ->
  (forall t, 0 <= t -> t + pages <= index -> ~ gap used pages t) ->
  let '(run', start') := mmio_run n used pages index run start in
  if run' =? pages then first_gap used pages (index + Z.of_nat n) start'
  else forall t, 0 <= t -> t + pages <= index + Z.of_nat n -> ~ gap used pages t.
Proof.
  revert index run start. induction n as [|n IH]; intros index run start Hr Hri Hst Hun Hmax Hno; cbn [mmio_run].
  { destruct (Z.eqb_spec run pages); [lia|]. intros t Ht Hle. apply Hno; lia. }
  replace (index + Z.of_nat (S n)) with (index + 1 + Z.of_nat n) by lia. destruct (used index) eqn:Hu; cbn [negb].
  - apply IH; try lia.
    + right. by replace (index + 1 - 0 - 1) with index by lia.
    + intros t Ht Hle Hg. destruct (Z.le_gt_cases (t + pages) index); [by apply (Hno t)|]. rewrite (Hg index) in Hu by lia. done.
  - set (start' := if nz run then start else index).
    assert (start' = index - run) as Hs'.
    { unfold start'. destruct (nz run) eqn:Hz; [apply nz_true in Hz; auto|apply nz_false in Hz; lia]. }
    assert (forall q, index - run <= q < index + 1 -> used q = false) as Hun'.
    { intros q Hq. destruct (Z.eq_dec q index) as [->|]; [done|]. apply Hun. lia. }
    assert (forall t, 0 <= t < start' -> ~ gap used pages t) as Hfirst.
    { intros t Ht Hg. destruct Hmax as [?|Hmax]; [lia|]. destruct (Z.le_gt_cases (t + pages) index); [by apply (Hno t); [lia|..]|].
      rewrite (Hg (index - run - 1)) in Hmax by lia. done. }
    destruct (Z.eqb_spec (run + 1) pages) as [He|Hne].
    + rewrite (proj2 (Z.eqb_eq _ _) He). split_and!; [lia|lia| |done]. intros q Hq. apply Hun'. lia.
    + apply IH; try lia.
      * intros q Hq. apply Hun'. lia.
      * destruct Hmax as [?|Hmax]; [left; lia|right]. by replace (index + 1 - (run + 1) - 1) with (index - run - 1) by lia.
      * intros t Ht Hle Hg. destruct (Z.lt_ge_cases t start'); [by apply (Hfirst t)|]. lia.
Qed.

Section Kernel.
Context {W : Type} {VM : VmModules W} {VO : VmObjects W} {VL : VmLaws W}.
Implicit Types (s : vm W).

(** ** Entries of the window *)

Lemma inv_kernel_strengthen (D : Z -> Prop) R P l s :
  inv (add_space D (-1)) R P l s -> kernel_ok s -> inv D R P l s.
Proof.
  intros [I1 I2 I3 I4 I5 I6 I7 I8] Hk. split; try done. intros i Hi Hn. apply I7; [done|]. intros [?| ->]; [done|].
  unfold is_space in Hi. lia.
Qed.

Lemma set_used_inv (D : Z -> Prop) R P l s used :
  inv (add_space D (-1)) R P l s ->
  inv (add_space D (-1)) R P l (set_kernel (kernel_mmio_pdpt s) (kernel_mmio_pd s) (kernel_mmio_pts s) used s).
Proof.
  intros [I1 I2 I3 I4 I5 I6 I7 I8]. split; try done.
  - intros i Hi Hn Hl. destruct (I7 i Hi Hn Hl) as [U1 U2 U3]. by split.
  - intros Hn. destruct Hn. by right.
Qed.

Lemma mmio_store_inv D R P l s k e u :
  inv D R P l s -> ~ D (-1) -> 0 <= k < KERNEL_MMIO_PAGES -> is_u64 e -> u = pte_present e ->
  let s' := mmio_store k e u s in
  inv D R P l s' /\ quiet s s' /\
  (forall j, kernel_mmio_used s' j = if j =? k then u else kernel_mmio_used s j) /\
  forall j, 0 <= j < KERNEL_MMIO_PAGES -> window s' j = if j =? k then e else window s j.
Proof.
  intros Hi HD Hk He Hu s'. pose proof (i_kernel _ _ _ _ _ Hi HD) as [K1 K2 K3 K4].
  change KERNEL_MMIO_PAGES with 4096 in *. change KERNEL_MMIO_PTS with 8 in K3.
  assert (0 <= k / 512 < 8 /\ 0 <= k mod 512 < 512) as [Hq Hm] by (split; dmlia).
  assert (valid_role (MmioPt (k / 512))) as Hv by (simpl; change KERNEL_MMIO_PTS with 8; lia).
  destruct (role_page _ _ _ _ _ (MmioPt (k / 512)) Hi Hv) as (p & Hp & Hpb & Ht); [by apply K3|]. simpl in Hp.
  assert (inv (add_space D (-1)) R P l s) as Hi1 by (eapply inv_weaken; [|exact Hi]; by left).
  pose proof (set_used_inv D R P l s (upd (kernel_mmio_used s) k u) Hi1) as Hi2. set (s1 := set_kernel _ _ _ _ s) in *.
  assert (s' = store (4096 * p + 8 * (k mod 512)) e s1) as Hs'.
  { unfold s', mmio_store, set_entry. rewrite Z.shiftr_div_pow2 by lia. change (2 ^ 9) with 512.
    change 0x1FF with (Z.ones 9). rewrite Z.land_ones by lia. change (2 ^ 9) with 512. simpl. by rewrite Hp. }
  destruct (store_upper_inv (add_space D (-1)) R P l s1 (MmioPt (k / 512)) p (k mod 512) e Hi2 Hv Hp ltac:(lia) Hm) as [Hi3 Hpte]; [done| |].
  { intros i [?|[?|[?|[-> _]]]]; try done. by right. }
  rewrite <- Hs' in Hi3, Hpte.
  assert (forall j, 0 <= j < 4096 -> window s' j = if j =? k then e else window s j) as Hwin.
  { intros j Hj. unfold window at 1. rewrite Hs'. change (kernel_mmio_pts (store _ _ s1)) with (kernel_mmio_pts s).
    destruct (role_page _ _ _ _ _ (MmioPt (j / 512)) Hi) as (q & Hq' & _); [simpl; change KERNEL_MMIO_PTS with 8; dmlia|apply K3; dmlia|].
    simpl in Hq'. rewrite Hq', entry_store by (done || dmlia).
    destruct (Z.eqb_spec j k) as [->|Hne]; [assert (q = p) as -> by lia; by rewrite !Z.eqb_refl|].
    destruct (Z.eqb_spec q p) as [->|]; cbn [andb]; [|by unfold window; rewrite Hq'].
    assert (MmioPt (j / 512) = MmioPt (k / 512)) as [= Hjk].
    { apply (role_inj D R P l s _ _ p Hi); simpl; change KERNEL_MMIO_PTS with 8; try done; (dmlia || lia). }
    destruct (Z.eqb_spec (j mod 512) (k mod 512)); [exfalso; dmlia|]. by unfold window; rewrite Hq'. }
  assert (forall j, kernel_mmio_used s' j = if j =? k then u else kernel_mmio_used s j) as Husd by (intros j; rewrite Hs'; done).
  split; [|split; [|split; [done|done]]].
  - apply inv_kernel_strengthen; [done|]. split; rewrite ?Hs'; try done. intros j Hj. rewrite <- Hs', Husd, Hwin by done.
    destruct (j =? k); [done|by apply K4].
  - split; try (rewrite Hs'; done).
    + done.
    + intros b [_ Hb]. rewrite Hs', memory_store; [done|done|]. intros Hx. rewrite Hx in Hb. done.
    + intros q [_ Hn] Hx. apply Hn, (is_table_roles s s'); [|done]. rewrite Hs'. done.
Qed.

(** A loop of such stores. *)
Lemma mmio_stores_inv D R P l s start n f u :
  inv D R P l s -> ~ D (-1) -> 0 <= start -> 0 <= n -> start + n <= KERNEL_MMIO_PAGES ->
  (forall k, 0 <= k < n -> is_u64 (f k) /\ u = pte_present (f k)) ->
  let s' := for_range 0 n (fun k s => mmio_store (start + k) (f k) u s) s in
  inv D R P l s' /\ quiet s s' /\
  (forall j, kernel_mmio_used s' j = if (start <=? j) && (j <? start + n) then u else kernel_mmio_used s j) /\
  forall j, 0 <= j < KERNEL_MMIO_PAGES -> window s' j = if (start <=? j) && (j <? start + n) then f (j - start) else window s j.
Proof.
  intros Hi HD Hs Hn Hle Hf.
  pose proof (for_range_ind (fun m s' => inv D R P l s' /\ quiet s s' /\
    (forall j, kernel_mmio_used s' j = if (start <=? j) && (j <? start + m) then u else kernel_mmio_used s j) /\
    forall j, 0 <= j < KERNEL_MMIO_PAGES -> window s' j = if (start <=? j) && (j <? start + m) then f (j - start) else window s j)
    0 n (fun k s => mmio_store (start + k) (f k) u s) s) as Hind.
  rewrite Z.max_r in Hind by done. apply Hind; clear Hind.
  - split_and!; try done; intros j; intros; destruct (Z.leb_spec start j), (Z.ltb_spec j (start + 0)); cbn; (done || lia).
  - intros k s' Hk (I' & Q' & U' & W'). destruct (Hf k Hk) as [F1 F2].
    destruct (mmio_store_inv D R P l s' (start + k) (f k) u I' HD ltac:(lia) F1 F2) as (I2 & Q2 & U2 & W2).
    split_and!; [done|by etrans| |].
    + intros j. rewrite U2, U'. destruct (Z.eqb_spec j (start + k)), (Z.leb_spec start j), (Z.ltb_spec j (start + k)),
        (Z.ltb_spec j (start + (k + 1))); cbn; (done || lia).
    + intros j Hj. rewrite W2, W' by done. destruct (Z.eqb_spec j (start + k)) as [Hjk|], (Z.leb_spec start j), (Z.ltb_spec j (start + k)),
        (Z.ltb_spec j (start + (k + 1))); cbn; try done; try lia. f_equal. lia.
Qed.

Definition device_entry (physical mode k : Z) : Z :=
  (physical + k * 4096) ||| VM64_PAGE_PRESENT ||| VM64_PAGE_WRITE ||| VM64_PAGE_NX ||| cache_flags mode.

Lemma device_entry_ok physical mode k :
  is_u64 (physical + k * 4096) -> cache_flags mode <> 0xFFFFFFFFFFFFFFFF ->
  is_u64 (device_entry physical mode k) /\ pte_present (device_entry physical mode k) = true.
Proof.
  intros Hp Hm. unfold device_entry. split.
  - repeat apply lor_u64; try done. unfold cache_flags in *. repeat case_match; done.
  - rewrite !Z.lor_spec. change (Z.testbit VM64_PAGE_PRESENT 0) with true. by rewrite orb_true_r.
Qed.

(** What a mapping of device memory does. *)
Record io_mapped (physical length mode start : Z) s s' : Prop := {
  io_gap : first_gap (kernel_mmio_used s) (length / 4096) KERNEL_MMIO_PAGES start;
  io_used j : kernel_mmio_used s' j = if (start <=? j) && (j <? start + length / 4096) then true else kernel_mmio_used s j;
  io_window j : 0 <= j < KERNEL_MMIO_PAGES ->
    window s' j = if (start <=? j) && (j <? start + length / 4096) then device_entry physical mode (j - start) else window s j
}.

Lemma vm64_ioremap_inv D R P l s physical length mode :
  inv D R P l s -> ~ D (-1) -> is_u64 physical -> 0 <= length ->
  exists r s', vm64_ioremap physical length mode s = (r, s') /\ inv D R P l s' /\ quiet s s' /\
    ((r = 0 /\ s' = s /\
      (length = 0 \/ physical mod 4096 <> 0 \/ length mod 4096 <> 0 \/ VM64_KERNEL_MMIO_SIZE < length \/
       0xFFFFFFFFFFFFFFFF < physical + length \/ cache_flags mode = 0xFFFFFFFFFFFFFFFF \/
       forall t, 0 <= t -> t + length / 4096 <= KERNEL_MMIO_PAGES -> ~ gap (kernel_mmio_used s) (length / 4096) t)) \/
     (0 < length /\ exists start, r = VM64_KERNEL_MMIO_BASE + start * 4096 /\ io_mapped physical length mode start s s')).
Proof.
  intros Hi HD Hp Hl. unfold vm64_ioremap. rewrite !offset_mod.
  destruct (_ || _) eqn:Hg.
  { exists 0, s. do 3 (split; [done|]). left. split; [done|]. split; [done|].
    rewrite !orb_true_iff, negb_true_iff, nz_false, !nz_true, !Z.ltb_lt in Hg. lia. }
  rewrite !orb_false_iff, negb_false_iff, nz_true, !nz_false, !Z.ltb_ge in Hg. destruct Hg as ((((G1 & G2) & G3) & G4) & G5).
  destruct (Z.eqb_spec (cache_flags mode) 0xFFFFFFFFFFFFFFFF) as [Hc|Hc].
  { exists 0, s. do 3 (split; [done|]). left. do 2 (split; [done|]). tauto. }
  change VM64_KERNEL_MMIO_SIZE with 16777216 in G4. unfold u32. rewrite (Z.mod_small (length / 4096)) by dmlia.
  set (n := length / 4096). assert (0 < n <= 4096) as Hn by (unfold n; dmlia).
  pose proof (mmio_run_spec (Z.to_nat KERNEL_MMIO_PAGES) (kernel_mmio_used s) n 0 0 0) as Hrun.
  destruct (mmio_run _ _ n 0 0 0) as [run start]. specialize (Hrun ltac:(lia) ltac:(lia) ltac:(done) ltac:(intros; lia) ltac:(by left)
    ltac:(intros; lia)). change (0 + Z.of_nat (Z.to_nat KERNEL_MMIO_PAGES)) with KERNEL_MMIO_PAGES in Hrun.
  destruct (Z.eqb_spec run n) as [->|Hne]; cbn [negb].
  - destruct Hrun as (H1 & H2 & H3 & H4).
    destruct (mmio_stores_inv D R P l s start n (device_entry physical mode) true Hi HD H1 ltac:(lia) H2) as (I2 & Q2 & U2 & W2).
    { intros k Hk. destruct (device_entry_ok physical mode k) as [E1 E2]; [|done|done]. unfold is_u64 in *. unfold n in Hk. dmlia. }
    eexists _, _. split; [done|]. split; [done|]. split; [done|]. right. split; [lia|]. exists start. split; [done|]. by split.
  - exists 0, s. do 3 (split; [done|]). left. do 2 (split; [done|]). do 6 right. done.
Qed.

(** Unmapping needs all of the range to be in use. *)
Lemma vm64_iounmap_inv D R P l s address length :
  inv D R P l s -> ~ D (-1) -> 0 <= length ->
  exists r s', vm64_iounmap address length s = (r, s') /\ inv D R P l s' /\ quiet s s' /\
    ((r = -1 /\ s' = s) \/
     (r = 0 /\ exists start, address = VM64_KERNEL_MMIO_BASE + start * 4096 /\ 0 <= start /\ 0 < length /\
        start + length / 4096 <= KERNEL_MMIO_PAGES /\
        (forall k, start <= k < start + length / 4096 -> kernel_mmio_used s k = true) /\
        (forall j, kernel_mmio_used s' j = if (start <=? j) && (j <? start + length / 4096) then false else kernel_mmio_used s j) /\
        forall j, 0 <= j < KERNEL_MMIO_PAGES -> window s' j = if (start <=? j) && (j <? start + length / 4096) then 0 else window s j)).
Proof.
  intros Hi HD Hl. unfold vm64_iounmap. rewrite !offset_mod.
  destruct (_ || _) eqn:Hg; [exists (-1), s; do 3 (split; [done|]); by left|].
  rewrite !orb_false_iff, !negb_false_iff, !nz_true, !nz_false, !Z.ltb_ge, Z.leb_gt in Hg.
  destruct Hg as ((((((G1 & G2) & G3) & G4) & G5) & G6) & G7).
  set (B := VM64_KERNEL_MMIO_BASE) in *. assert (B mod 4096 = 0) as HB by done. change VM64_KERNEL_MMIO_SIZE with 16777216 in *.
  unfold u32. rewrite !Z.mod_small by dmlia. set (start := (address - B) / 4096). set (n := length / 4096).
  assert (address = B + start * 4096 /\ 0 <= start /\ 0 < n /\ start + n <= 4096) as (A1 & A2 & A3 & A4) by (unfold start, n; clearbody B; split_and!; dmlia).
  destruct (scan_range _ _ _) as [x|] eqn:Hsc; [exists (-1), s; do 3 (split; [done|]); by left|]. rewrite scan_range_None in Hsc.
  destruct (mmio_stores_inv D R P l s start n (fun _ => 0) false Hi HD A2 ltac:(lia) ltac:(change KERNEL_MMIO_PAGES with 4096; lia) ltac:(done))
    as (I2 & Q2 & U2 & W2).
  eexists 0, _. split; [done|]. split; [done|]. split; [done|]. right. split; [done|]. exists start.
  split; [done|]. split; [done|]. split; [lia|]. split; [change KERNEL_MMIO_PAGES with 4096; lia|]. split; [|done].
  intros k Hk. pose proof (Hsc (k - start) ltac:(lia)) as Hx. apply negb_false_iff in Hx. by replace (start + (k - start)) with k in Hx by lia.
Qed.

End Kernel.
End VmKernel.
