(* ===== verification/VmInit.v ===== *)
(** * Building the kernel's window

    [vm64_init] runs once, before there is any space.  It builds the tables of
    the kernel's window, or gives every page back and says so. *)

From stdpp Require Import gmap.
From S2P Require Import Prelude Pmm Vm VmInv VmOps VmUser VmAccess VmSpaces VmDestroy VmClone VmKernel.

Open Scope Z_scope.

Module VmInit.
Import Vm VmInv VmOps VmUser VmAccess VmSpaces VmDestroy VmClone VmKernel.

Section Init.
Context {W : Type} {VM : VmModules W} {VO : VmObjects W} {VL : VmLaws W}.
Implicit Types (s : vm W).

Local Abbreviation none := (fun _ _ : Z => False).

(** Only the kernel's window is unfinished. *)
Local Abbreviation booting := (fun j : Z => j = -1).

Definition no_space s : Prop := forall i, is_space i -> pml4 (spaces s i) = 0.

(** The state at boot: the statics are zero and nobody holds a page but the
    code that runs. *)
Record boot s : Prop := {
  bo_mm : Pmm.inv (mm s);
  bo_bytes a : is_u8 (memory s a);
  bo_roles r : valid_role r -> role_addr s r = 0;
  bo_maps i m : is_space i -> 0 <= m < VM64_MAPPING_MAX -> m_object (mappings (spaces s i) m) = None;
  bo_held p : held (rest s) p = 0;
  bo_pins o : 0 <= pins (rest s) o;
  bo_ram p : device p -> Pmm.page_in p -> ~ Pmm.is_ram (mm s) p
}.

Lemma boot_pte s i v : boot s -> is_slot i v -> pte_at s i v = 0.
Proof.
  intros Hb [Hi Hv]. pose proof (bo_roles s Hb (UserPt i (v / 512)) ltac:(split; [done|dmlia])) as Hz. simpl in Hz.
  unfold pte_at. by rewrite Hz.
Qed.

Lemma boot_inv s : boot s -> inv booting none None (Pmm.page_refs (mm s)) s.
Proof.
  intros Hb. pose proof Hb as [B1 B2 B3 B4 B5 B6 B7].
  assert (forall p, ~ is_table (abs_of s) p) as Hnt by (intros p (r & Hr & _ & Hn); simpl in Hn; by rewrite B3 in Hn).
  assert (forall p, owners (abs_of s) p = ∅) as Hno.
  { intros p. apply set_eq. intros [i v]. rewrite elem_of_owners. split; [|by intros ?%not_elem_of_empty].
    simpl. intros (Hs & Hp & _). by rewrite boot_pte in Hp. }
  assert (forall o, mapset (abs_of s) o = ∅) as Hnm.
  { intros o. apply set_eq. intros [i m]. rewrite elem_of_mapset. split; [|by intros ?%not_elem_of_empty].
    simpl. intros (Hi & Hm & Ho). by rewrite B4 in Ho. }
  split; try done.
  - split; simpl.
    + intros r Hr Hn. by rewrite B3 in Hn.
    + intros r r' Hr _ Hn. by rewrite B3 in Hn.
    + intros p Ht. by destruct (Hnt p).
    + intros p Hh. rewrite B5 in Hh. lia.
    + intros p _ _. rewrite Hno, size_empty. lia.
    + intros p. apply (Pmm.base_refs _ (Pmm.inv_base _ B1) p).
    + intros i v Hs Hp. by rewrite boot_pte in Hp.
    + intros i v Hs Hp. by rewrite boot_pte in Hp.
    + intros i v Hs Hp. by rewrite boot_pte in Hp.
    + intros o. rewrite Hnm, size_empty. simpl. pose proof (B6 o). lia.
    + intros i m v [Hs _] Hm Ho. by rewrite B4 in Ho.
    + intros i m m' v [Hs _] Hm _ _ Ho. by rewrite B4 in Ho.
  - intros i Hi Hl. by destruct Hl; apply (B3 (Root i)).
  - intros i Hi _. split_and!; [apply (B3 (Pdpt i) Hi)|apply (B3 (IdentityPd i) Hi)|apply (B3 (IdentityPt0 i) Hi)|apply (B3 (UserPd i) Hi)|..].
    + intros k Hk. by apply (B3 (UserPt i k)).
    + intros m Hm. by apply B4.
  - intros i Hi _ Hl. by destruct Hl; apply (B3 (Root i)).
Qed.

(** With no space, references are those of running code and of the window. *)
Lemma no_space_pte R P l s i v : inv booting R P l s -> no_space s -> is_slot i v -> pte_at s i v = 0.
Proof.
  intros Hi Hn [Hsp Hv]. destruct (i_dead _ _ _ _ _ Hi i Hsp (Hn i Hsp)) as (_ & _ & _ & _ & Hz & _). unfold pte_at.
  rewrite Hz; [done|dmlia].
Qed.

(** A change of the window's tables, justified on the abstraction. *)
Lemma set_kernel_inv R P l l' s a b pts used :
  inv booting R P l s -> no_space s ->
  core R P l' (abs_of (set_kernel a b pts used s)) -> inv booting R P l' (set_kernel a b pts used s).
Proof.
  intros [I1 I2 I3 I4 I5 I6 I7 I8] Hn Hc. split; try done. intros i Hi _ Hl. by destruct Hl; apply Hn.
Qed.

(** ** The window under construction *)

(** [n] page tables of the window are there, and empty. *)
Record raised (l : Z -> Z) (w : W) (n : Z) s : Prop := {
  ra_inv : inv booting none None l s;
  ra_no_space : no_space s;
  ra_pdpt : kernel_mmio_pdpt s <> 0;
  ra_pd : kernel_mmio_pd s <> 0;
  ra_pts k : 0 <= k < n -> kernel_mmio_pts s k <> 0;
  ra_todo k : n <= k < KERNEL_MMIO_PTS -> kernel_mmio_pts s k = 0;
  ra_empty j k : 0 <= j < n -> 0 <= k < 512 -> entry s (kernel_mmio_pts s j) k = 0;
  ra_used k : 0 <= k < KERNEL_MMIO_PAGES -> kernel_mmio_used s k = false;
  ra_rest : rest s = w
}.

(** The roles the window's tables have, with their addresses. *)
Definition window_roles (n : Z) s : list (role * Z) :=
  map (fun k => (MmioPt k, kernel_mmio_pts s k)) (seqZ 0 n) ++
  [(MmioPd, kernel_mmio_pd s); (MmioPdpt, kernel_mmio_pdpt s)].

Lemma window_roles_spec n s r a :
  (r, a) ∈ window_roles n s <->
  (exists k, 0 <= k < n /\ r = MmioPt k /\ a = kernel_mmio_pts s k) \/
  (r = MmioPd /\ a = kernel_mmio_pd s) \/ (r = MmioPdpt /\ a = kernel_mmio_pdpt s).
Proof.
  unfold window_roles. rewrite elem_of_app, list_elem_of_fmap, !elem_of_cons, elem_of_nil. split.
  - intros [(k & [= -> ->] & Hk%elem_of_seqZ)|[[= -> ->]|[[= -> ->]|[]]]]; [left; exists k; split_and!; (done || lia)|tauto..].
  - intros [(k & Hk & -> & ->)|[[-> ->]|[-> ->]]]; [left; exists k; split; [done|apply elem_of_seqZ; lia]|tauto..].
Qed.

Lemma window_roles_nodup n s : NoDup (map fst (window_roles n s)).
Proof.
  unfold window_roles. rewrite map_app. apply NoDup_app. split_and!.
  - rewrite map_map. simpl. apply (NoDup_fmap_2_strong MmioPt); [by intros x y _ _ [= ->]|apply NoDup_seqZ].
  - intros r. rewrite map_map, list_elem_of_fmap. intros (k & -> & _). simpl. rewrite !elem_of_cons, elem_of_nil. by intros [?|[?|[]]].
  - simpl. repeat constructor; rewrite ?elem_of_cons, ?elem_of_nil; naive_solver.
Qed.

Lemma unlinked_role L (x : abs W) r :
  a_role (with_roles (unlinked L) x) r = if decide (r ∈ map fst L) then 0 else a_role x r.
Proof.
  revert x. induction L as [|[r' a'] L IH]; intros x; [by destruct (decide _) as [?%not_elem_of_nil|]|].
  change (unlinked ((r', a') :: L)) with ((r', 0) :: unlinked L). change (map fst ((r', a') :: L)) with (r' :: map fst L). simpl. rewrite IH.
  destruct (decide (r ∈ map fst L)) as [Hin|Hin], (decide (r ∈ r' :: map fst L)) as [Hin'|Hin'];
    try done; [by destruct Hin'; right| |]; rewrite elem_of_cons in Hin'; simpl; destruct (decide (r = r')) as [Heq|Hne]; tauto.
Qed.

Lemma free_kernel A s a b pts used : free_ifs A (set_kernel a b pts used s) = set_kernel a b pts used <$> free_ifs A s.
Proof.
  revert s. induction A as [|x A IH]; intros s; simpl; [done|]. unfold free_if. destruct (nz x); simpl; [|apply IH].
  unfold free_page. simpl. destruct (Pmm.pmm_free_page x (mm s)) as [q|]; simpl; [apply (IH (set_mm q s))|done].
Qed.

(** Nothing but the references of running code is left. *)
Lemma unraised l w n s :
  raised l w n s -> (forall p, held w p = 0) -> 0 <= n <= KERNEL_MMIO_PTS ->
  exists s', free_ifs (map snd (window_roles n s)) s = Some s' /\ forall p, Pmm.page_refs (mm s') p = l p.
Proof.
  intros [A1 A2 A3 A4 A5 A6 A7 A8 A9] Hheld Hn. set (s0 := set_kernel 0 0 (fun _ => 0) (kernel_mmio_used s) s).
  assert (core none None (fun p => l p + loose_of (map snd (window_roles n s)) p) (with_roles (unlinked (window_roles n s)) (abs_of s))) as Hc.
  { apply core_unlink_all; [apply (i_core _ _ _ _ _ A1)|apply window_roles_nodup|]. intros r a Hin%window_roles_spec.
    assert (valid_role r /\ role_addr s r = a /\ a <> 0) as (Hr & Ha & Hnz).
    { destruct Hin as [(k & Hk & -> & ->)|[[-> ->]|[-> ->]]]; simpl; split_and!; (done || lia || by apply A5). }
    split; [done|]. split; [done|]. rewrite <- Ha in Hnz |- *.
    destruct (role_page _ _ _ _ _ r A1 Hr Hnz) as (p & Hp & Hpb & _). exists p. split; [done|lia]. }
  assert (forall r, valid_role r -> role_addr s0 r = 0) as Hzero.
  { intros [i|i|i|i|i|i k| | |k] Hr; try done; simpl in Hr.
    all: try (destruct (i_dead _ _ _ _ _ A1 i Hr (A2 i Hr)) as (Z1 & Z2 & Z3 & Z4 & _); done || by apply A2).
    destruct Hr as [Hr Hk]. destruct (i_dead _ _ _ _ _ A1 i Hr (A2 i Hr)) as (_ & _ & _ & _ & Z5 & _). by apply Z5. }
  destruct (with_roles_rest (unlinked (window_roles n s)) (abs_of s)) as (R1 & R2 & R3 & R4).
  assert (inv booting none None (fun p => l p + loose_of (map snd (window_roles n s)) p) s0) as I0.
  { apply (set_kernel_inv none None l); [done|done|]. eapply core_ext; [|exact Hc].
    split; rewrite ?R1, ?R2, ?R3, ?R4; try done. intros r Hr. rewrite unlinked_role. simpl.
    etrans; [|symmetry; by apply Hzero]. destruct (decide (r ∈ _)) as [|Hn']; [done|].
    destruct r as [i|i|i|i|i|i k| | |k]; try (by apply (Hzero _ Hr)).
    - destruct Hn'. apply list_elem_of_fmap. exists (MmioPdpt, kernel_mmio_pdpt s). rewrite window_roles_spec. tauto.
    - destruct Hn'. apply list_elem_of_fmap. exists (MmioPd, kernel_mmio_pd s). rewrite window_roles_spec. tauto.
    - simpl. apply A6. simpl in Hr. destruct (Z.lt_ge_cases k n); [|lia]. destruct Hn'. apply list_elem_of_fmap.
      exists (MmioPt k, kernel_mmio_pts s k). rewrite window_roles_spec. split; [done|]. left. exists k. split_and!; (done || lia). }
  destruct (free_ifs_inv booting none None l (map snd (window_roles n s)) s0 I0) as (x & Hf & Tx & Ix & Px & _).
  { apply (c_loose _ _ _ _ (i_core _ _ _ _ _ A1)). }
  { intros a Ha. apply list_elem_of_fmap in Ha as ([r a'] & -> & Hin%window_roles_spec).
    pose proof (fun r => role_page_addr _ _ _ _ _ r A1) as Hpa.
    destruct Hin as [(k & Hk & -> & ->)|[[-> ->]|[-> ->]]]; simpl; [apply (Hpa (MmioPt k)); simpl; lia|by apply (Hpa MmioPd)|by apply (Hpa MmioPdpt)]. }
  unfold s0 in Hf. rewrite free_kernel in Hf. destruct (free_ifs _ s) as [s'|]; [|done]. apply (inj Some) in Hf. subst x.
  exists s'. split; [done|]. intros p. change (mm s') with (mm (set_kernel 0 0 (fun _ => 0) (kernel_mmio_used s) s')).
  set (x := set_kernel 0 0 (fun _ => 0) (kernel_mmio_used s) s') in *.
  pose proof (c_count _ _ _ _ (i_core _ _ _ _ _ Ix) p) as Hcount. etrans; [apply Hcount|].
  - intros (r & Hr & _ & Hnz). simpl in Hnz. rewrite (same_tables_role s0 x r Tx), Hzero in Hnz by done. done.
  - simpl. change (rest s') with (rest x). rewrite (st_rest _ _ Tx). change (rest s0) with (rest s). by rewrite A9.
  - assert (owners (abs_of x) p = ∅) as ->; [|rewrite size_empty; lia].
    apply set_eq. intros [i v]. rewrite elem_of_owners. split; [|by intros ?%not_elem_of_empty]. simpl. intros (Hs & Hp & _).
    rewrite Px in Hp by done. change (pte_at s0 i v) with (pte_at s i v) in Hp. by rewrite (no_space_pte _ _ _ _ _ _ A1 A2 Hs) in Hp.
Qed.

(** The tables of the window survive a change that links a fresh page [p] in
    another role and clears it. *)
Lemma link_kernel l s s1 p r a b pts used :
  inv booting none None l s -> no_space s -> alloc_page s = (4096 * p, s1) -> p <> 0 ->
  valid_role r -> role_addr s r = 0 ->
  (forall r', valid_role r' -> role_addr (set_kernel a b pts used s) r' = if decide (r' = r) then 4096 * p else role_addr s r') ->
  let s' := set_kernel a b pts used s1 in
  inv booting none None l s' /\ no_space s' /\ rest s' = rest s /\
  (forall k, 0 <= k < 512 -> entry s' (4096 * p) k = 0) /\
  forall r' k, valid_role r' -> role_addr s r' <> 0 -> 0 <= k < 512 -> entry s' (role_addr s r') k = entry s (role_addr s r') k.
Proof.
  intros Hi Hn Ha Hp0 Hr Hz Hroles s'. pose proof (alloc_page_inv _ _ _ _ _ _ _ Hi Ha) as [Ht [[H0 _]|(q & Hq & Hqb & [Hr0 _] & Hi1 & Hr1 & _ & Hm)]]; [lia|].
  assert (q = p) as -> by lia. destruct (free_page_unused _ _ _ _ _ (i_core _ _ _ _ _ Hi) Hr0) as (Hnt & _ & _ & Hl0).
  assert (no_space s1) as Hn1 by (intros j Hj; rewrite (st_spaces _ _ Ht); by apply Hn).
  split_and!; [|exact Hn1|apply (st_rest _ _ Ht)|..].
  - apply (set_kernel_inv none None (upd l p 1)); [done|done|].
    eapply (core_loose_ext _ _ (upd (upd l p 1) p 0)); [intros x; unfold upd; destruct (Z.eqb_spec x p); subst; lia|].
    eapply core_ext; [|apply (core_link _ _ _ _ r p (i_core _ _ _ _ _ Hi1) Hr)]; [|simpl; by rewrite (same_tables_role s s1 r Ht)|lia|by unfold upd; rewrite Z.eqb_refl|simpl; by rewrite Hr1, Z.eqb_refl].
    split; try done. intros r' Hr'. simpl. etrans; [|symmetry; apply (same_tables_role (set_kernel a b pts used s) s')]; [|split; try done; apply Ht].
    rewrite Hroles by done. destruct (decide (r' = r)); [done|apply (same_tables_role s s1 r' Ht)].
  - intros k Hk. unfold entry. rewrite (read64_ext _ (fun _ => 0)); [by vm_compute|]. intros x Hx. change (memory s') with (memory s1). rewrite Hm.
    destruct (Z.eqb_spec (x / 4096) p); [done|dmlia].
  - intros r' k Hr' Hnz Hk. destruct (role_page _ _ _ _ _ r' Hi Hr' Hnz) as (p' & Hp' & Hpb & Hpt). rewrite Hp'.
    apply entry_frame; [|done]. intros x Hx. change (memory s') with (memory s1). rewrite Hm.
    destruct (Z.eqb_spec (x / 4096) p) as [He|]; [|done]. destruct Hnt. by rewrite <- He, Hx.
Qed.

(** A store into a table of the window other than a page table. *)
Lemma store_kernel l s r k v :
  inv booting none None l s -> r = MmioPdpt \/ r = MmioPd -> role_addr s r <> 0 -> 0 <= k < 512 ->
  let s' := set_entry (role_addr s r) k v s in
  inv booting none None l s' /\
  forall r' j, valid_role r' -> r' <> r -> role_addr s r' <> 0 -> 0 <= j < 512 -> entry s' (role_addr s r') j = entry s (role_addr s r') j.
Proof.
  intros Hi Hr Hnz Hk s'. assert (valid_role r) as Hv by (by destruct Hr as [-> | ->]).
  destruct (role_page _ _ _ _ _ r Hi Hv Hnz) as (p & Hp & Hpb & _). unfold s', set_entry. rewrite Hp. split.
  - apply (store_upper_inv _ _ _ _ _ r p k v Hi Hv Hp); [lia|done|by intros i j ->; destruct Hr|].
    intros i [->|[->|[->|(-> & j & ->)]]]; by destruct Hr.
  - intros r' j Hv' Hne Hnz' Hj. destruct (role_page _ _ _ _ _ r' Hi Hv' Hnz') as (p' & Hp' & Hpb' & _). rewrite Hp'.
    apply entry_frame; [|done]. intros x Hx. apply memory_store; [done|]. intros He. apply Hne.
    apply (role_inj _ _ _ _ s r' r p Hi Hv' Hv); [congruence|done|lia].
Qed.

(** A round of the loop: one page table more, or all pages given back. *)
Lemma raise_one l w n s p s1 v :
  raised l w n s -> 0 <= n < KERNEL_MMIO_PTS -> alloc_page s = (p, s1) -> p <> 0 ->
  raised l w (n + 1) (set_entry (kernel_mmio_pd s1) n v
    (set_kernel (kernel_mmio_pdpt s1) (kernel_mmio_pd s1) (upd (kernel_mmio_pts s1) n p) (kernel_mmio_used s1) s1)).
Proof.
  intros [A1 A2 A3 A4 A5 A6 A7 A8 A9] Hn Ha Hp.
  pose proof (alloc_page_inv _ _ _ _ _ _ _ A1 Ha) as [[T1 T2 T3 T4 T5 T6] [[H0 _]|(q & -> & Hq & _)]]; [done|]. rewrite T2, T3, T4, T5.
  destruct (link_kernel l s s1 q (MmioPt n) (kernel_mmio_pdpt s) (kernel_mmio_pd s) (upd (kernel_mmio_pts s) n (4096 * q)) (kernel_mmio_used s))
    as (I1 & N1 & R1 & E1 & E2); try done; [lia|simpl; apply A6; lia| |].
  { intros [i|i|i|i|i|i k| | |k] _; try done. simpl. unfold upd. destruct (Z.eqb_spec k n) as [Hk|], (decide (MmioPt k = MmioPt n)); try done; congruence. }
  set (s2 := set_kernel _ _ _ _ s1) in *.
  assert (n < 512) as Hn512 by (change KERNEL_MMIO_PTS with 8 in Hn; lia).
  destruct (store_kernel l s2 MmioPd n v I1 (or_intror eq_refl) A4 ltac:(lia)) as (I3 & E3). simpl role_addr in I3, E3.
  assert (forall k, 0 <= k < n + 1 -> kernel_mmio_pts s2 k <> 0) as Hpts.
  { intros k Hk. simpl. unfold upd. destruct (Z.eqb_spec k n); [done|apply A5; lia]. }
  split; try done.
  - intros k Hk. simpl. unfold upd. destruct (Z.eqb_spec k n); [lia|apply A6; lia].
  - intros j k Hj Hk. etrans; [apply (E3 (MmioPt j) k); [simpl; lia|done|by apply Hpts|done]|]. simpl. unfold upd.
    destruct (Z.eqb_spec j n) as [->|]; [by apply E1|]. etrans; [apply (E2 (MmioPt j) k); [simpl; lia|apply A5; lia|done]|apply A7; lia].
  - simpl. by rewrite T6.
Qed.

Lemma free_ifs_app A B s : free_ifs (A ++ B) s = free_ifs A s ≫= free_ifs B.
Proof. revert s. induction A as [|a A IH]; intros s; simpl; [done|]. destruct (free_if a s); simpl; [apply IH|done]. Qed.

Lemma free_ifs_pts A s s' : free_ifs A s = Some s' -> kernel_mmio_pts s' = kernel_mmio_pts s /\ kernel_mmio_pd s' = kernel_mmio_pd s /\ kernel_mmio_pdpt s' = kernel_mmio_pdpt s.
Proof.
  revert s. induction A as [|a A IH]; intros s; simpl; [by intros [= ->]|]. unfold free_if. destruct (nz a); simpl; [|apply IH].
  unfold free_page. destruct (Pmm.pmm_free_page a (mm s)) as [q|]; simpl; [|done]. intros H. by destruct (IH _ H) as (-> & -> & ->).
Qed.

Lemma free_if_nz a s : a <> 0 -> free_if a s = free_page a s.
Proof. intros H. unfold free_if, nz. by destruct (Z.eqb_spec a 0). Qed.

(** The frees of a failed [vm64_init]. *)
Lemma give_back n s :
  0 <= n -> (forall k, 0 <= k < n -> kernel_mmio_pts s k <> 0) -> kernel_mmio_pd s <> 0 -> kernel_mmio_pdpt s <> 0 ->
  (s ← for_vm 0 n (fun undo s => free_page (kernel_mmio_pts s undo) s) s;
   s ← free_page (kernel_mmio_pd s) s; free_page (kernel_mmio_pdpt s) s) = free_ifs (map snd (window_roles n s)) s.
Proof.
  intros Hn Hpts Hpd Hpdpt. unfold window_roles. rewrite map_app, map_map, free_ifs_app. simpl map at 2.
  assert (for_vm 0 n (fun undo s => free_page (kernel_mmio_pts s undo) s) s = free_ifs (map (kernel_mmio_pts s) (seqZ 0 n)) s) as ->.
  { clear Hpd Hpdpt. revert Hpts. pattern n. apply natlike_ind; [done| |done]. clear n Hn. intros n Hn IH Hpts. unfold for_vm in *.
    replace (Z.succ n) with (n + 1) by lia. rewrite for_range_last by lia. rewrite IH by (intros; apply Hpts; lia).
    rewrite seqZ_app, map_app, free_ifs_app by lia. destruct (free_ifs _ s) as [s1|] eqn:Hs; [|done]. simpl.
    destruct (free_ifs_pts _ _ _ Hs) as (-> & _). rewrite Z.add_0_l, free_if_nz by (apply Hpts; lia). by destruct (free_page _ s1). }
  destruct (free_ifs _ s) as [s1|] eqn:Hs; [|done]. destruct (free_ifs_pts _ _ _ Hs) as (_ & E1 & E2). cbn [map snd mbind option_bind free_ifs].
  rewrite E1, free_if_nz by done. destruct (free_page (kernel_mmio_pd s) s1) as [s2|] eqn:Hs2; [|done]. cbn [mbind option_bind].
  assert (kernel_mmio_pdpt s2 = kernel_mmio_pdpt s) as ->.
  { rewrite <- E2. unfold free_page in Hs2. destruct (Pmm.pmm_free_page _ _); [|done]. by injection Hs2 as <-. }
  rewrite free_if_nz by done. by destruct (free_page _ s2).
Qed.

(** All the page tables of the window, or none of its pages. *)
Lemma init_pts_inv l w s :
  raised l w 0 s -> (forall p, held w p = 0) ->
  exists r s', init_pts s = Some (r, s') /\
    match r with
    | None => raised l w KERNEL_MMIO_PTS s'
    | Some z => z = -1 /\ forall p, Pmm.page_refs (mm s') p = l p
    end.
Proof.
  intros H0 Hw. unfold init_pts.
  apply (for_return_ind (raised l w) (fun z s' => z = -1 /\ forall p, Pmm.page_refs (mm s') p = l p)); [done|done|].
  intros n x Hn Hx. destruct (alloc_page x) as [p s1] eqn:Ha. unfold nz. destruct (Z.eqb_spec p 0) as [->|Hp]; simpl negb.
  - pose proof (alloc_page_inv _ _ _ _ _ _ _ (ra_inv _ _ _ _ Hx) Ha) as [_ [[_ ->]|(q & Hq & Hqb & _)]]; [|lia].
    set (y := set_kernel _ _ _ _ x). destruct (unraised l w n x Hx Hw ltac:(lia)) as (s' & Hf & Hrefs).
    assert (map snd (window_roles n y) = map snd (window_roles n x)) as Hroles.
    { unfold window_roles. rewrite !map_app, !map_map. f_equal. apply map_ext_in. intros k Hk%list_elem_of_In%elem_of_seqZ.
      simpl. unfold upd. destruct (Z.eqb_spec k n); [lia|done]. }
    pose proof (give_back n y ltac:(lia)) as Hback. rewrite Hroles in Hback.
    assert (exists z, free_ifs (map snd (window_roles n x)) y = Some z /\ mm z = mm s') as (z & Hz & Hmm) by (unfold y; rewrite free_kernel, Hf; by eexists).
    specialize (Hback ltac:(intros k Hk; simpl; unfold upd; destruct (Z.eqb_spec k n); [lia|by apply (ra_pts _ _ _ _ Hx)])
      (ra_pd _ _ _ _ Hx) (ra_pdpt _ _ _ _ Hx)). rewrite Hz in Hback. revert Hback. cbn [mbind option_bind negb].
    destruct (for_vm 0 n _ y) as [s2|]; [|done]. simpl. destruct (free_page (kernel_mmio_pd s2) s2) as [s3|]; [|done]. simpl.
    destruct (free_page (kernel_mmio_pdpt s3) s3) as [s4|]; [|done]. intros [= ->]. exists (Some (-1)), z. split_and!; [done|done|]. by rewrite Hmm.
  - cbn [negb]. eexists None, _. split; [done|]. exact (raise_one l w n x p s1 _ Hx Hn Ha Hp).
Qed.

Lemma raised_kernel l w s : raised l w KERNEL_MMIO_PTS s -> inv (fun _ => False) none None l s.
Proof.
  intros [A1 A2 A3 A4 A5 A6 A7 A8 A9]. apply inv_kernel_strengthen.
  - eapply inv_weaken; [|exact A1]. intros i ->. by right.
  - split; try done. intros k Hk. rewrite A8 by done. unfold window.
    change KERNEL_MMIO_PAGES with 4096 in Hk. change KERNEL_MMIO_PTS with 8 in A7. rewrite A7; [done|split; dmlia|dmlia].
Qed.

(** Clearing the roots changes nothing at boot. *)
Lemma clear_roots_boot s :
  boot s -> boot (for_range 0 VM64_MAX_SPACES (fun i s => set_space i (clear_root (spaces s i)) s) s).
Proof.
  intros Hb. apply (for_range_ind (fun _ s => boot s)); [done|]. clear s Hb. intros i s _ [B1 B2 B3 B4 B5 B6 B7].
  split; try done.
  - intros r Hr. pose proof (B3 r Hr) as Hz. revert Hz. destruct r; simpl; try done; unfold upd; by destruct (_ =? _) eqn:E; [apply Z.eqb_eq in E as ->|].
  - intros j m Hj Hm. pose proof (B4 j m Hj Hm) as Hz. simpl. unfold upd. destruct (Z.eqb_spec j i) as [->|]; done.
Qed.

Lemma alloc_kernel a b pts used s :
  alloc_page (set_kernel a b pts used s) = let '(p, s') := alloc_page s in (p, set_kernel a b pts used s').
Proof. unfold alloc_page. simpl. by destruct (Pmm.pmm_alloc_page (mm s)). Qed.

(** The two upper tables of the window. *)
Lemma raise_upper s a s1 b s2 used v :
  boot s -> alloc_page s = (a, s1) -> alloc_page s1 = (b, s2) -> a <> 0 -> b <> 0 ->
  (forall k, 0 <= k < KERNEL_MMIO_PAGES -> used k = false) ->
  raised (Pmm.page_refs (mm s)) (rest s) 0 (set_entry a 0 v (set_kernel a b (kernel_mmio_pts s2) used s2)).
Proof.
  intros Hb Ha Hbb Hna Hnb Hused. pose proof (boot_inv s Hb) as Hi. pose proof (bo_roles _ Hb) as Hz.
  assert (no_space s) as Hn by (intros j Hj; by apply (Hz (Root j))).
  pose proof (alloc_page_inv _ _ _ _ _ _ _ Hi Ha) as [Ht1 [[H0 _]|(p & -> & Hp & _ & Hi1 & _)]]; [done|].
  pose proof (alloc_page_inv _ _ _ _ _ _ _ Hi1 Hbb) as [Ht2 [[H0 _]|(q & -> & Hq & _)]]; [done|].
  pose proof Ht1 as [T1 T2 T3 T4 T5 T6]. pose proof Ht2 as [U1 U2 U3 U4 U5 U6].
  set (s1' := set_kernel (4096 * p) (kernel_mmio_pd s) (kernel_mmio_pts s) (kernel_mmio_used s) s1).
  destruct (link_kernel (Pmm.page_refs (mm s)) s s1 p MmioPdpt (4096 * p) (kernel_mmio_pd s) (kernel_mmio_pts s) (kernel_mmio_used s))
    as (I1 & N1 & R1 & _); try done; [lia|by apply Hz|by intros []|]. fold s1' in I1, N1, R1.
  assert (forall r, valid_role r -> role_addr s1' r = if decide (r = MmioPdpt) then 4096 * p else 0) as Hroles.
  { intros r Hr. destruct r; simpl; rewrite ?T1; try done; pose proof (Hz _ Hr) as Hzz; done. }
  destruct (link_kernel (Pmm.page_refs (mm s)) s1' (set_kernel (4096 * p) (kernel_mmio_pd s) (kernel_mmio_pts s) (kernel_mmio_used s) s2) q MmioPd
    (4096 * p) (4096 * q) (kernel_mmio_pts s2) used) as (I2 & N2 & R2 & _); try done.
  { unfold s1'. by rewrite alloc_kernel, Hbb. }
  { lia. }
  { by rewrite Hroles. }
  { intros r Hr. destruct r; try done. simpl. by rewrite U4, T4. }
  set (s3 := set_kernel _ _ _ used _) in *. change (set_kernel (4096 * p) (4096 * q) (kernel_mmio_pts s2) used s2) with s3.
  destruct (store_kernel _ s3 MmioPdpt 0 v I2 (or_introl eq_refl) Hna ltac:(lia)) as (I3 & _).
  split; try done; [intros k Hk; lia| |intros j k Hj; lia|by simpl; rewrite U6, T6].
  intros k Hk. simpl. rewrite U4, T4. by apply (Hz (MmioPt k)).
Qed.

(** [vm64_init] builds the window, or fails and holds no page. *)
Lemma vm64_init_inv has_pat s :
  boot s ->
  exists r s', vm64_init has_pat s = Some (r, s') /\
    (r = 0 /\ has_pat = true /\ inv (fun _ => False) none None (Pmm.page_refs (mm s)) s' /\ no_space s' /\ rest s' = rest s \/
     r = -1 /\ forall p, Pmm.page_refs (mm s') p = Pmm.page_refs (mm s) p).
Proof.
  intros Hb0. unfold vm64_init. pose proof (clear_roots_boot s Hb0) as Hb.
  assert (Pmm.page_refs (mm s) = Pmm.page_refs (mm (for_range 0 VM64_MAX_SPACES (fun i s => set_space i (clear_root (spaces s i)) s) s)) /\
    rest (for_range 0 VM64_MAX_SPACES (fun i s => set_space i (clear_root (spaces s i)) s) s) = rest s) as [-> <-].
  { apply (for_range_ind (fun _ x => Pmm.page_refs (mm s) = Pmm.page_refs (mm x) /\ rest x = rest s)); [done|]. by intros k x _ [-> <-]. }
  set (x := for_range _ _ _ s) in *. clearbody x. clear s Hb0. cbv zeta.
  destruct (alloc_page x) as [a x1] eqn:Ha. destruct (alloc_page x1) as [b x2] eqn:Hbb.
  set (used := fun k => if (0 <=? k) && (k <? KERNEL_MMIO_PAGES) then false else kernel_mmio_used x2 k). destruct (negb (nz a) || negb (nz b)) eqn:Hab.
  - pose proof (boot_inv x Hb) as Hi.
    pose proof (taken_alloc _ _ _ _ _ _ _ _ _ Hi (taken_alloc _ _ _ _ _ _ _ _ _ Hi (taken_nil _ _ _ _ _ Hi) Ha) Hbb) as [T1 T2 T3 T4 _ _].
    destruct (free_ifs_inv booting none None (Pmm.page_refs (mm x)) [a; b] x2) as (y & Hy & Ty & Iy & Py & _).
    + eapply inv_loose_ext; [|exact T2]. intros p. simpl. lia.
    + apply (c_loose _ _ _ _ (i_core _ _ _ _ _ Hi)).
    + intros c Hc. destruct (Z.eq_dec c 0) as [->|Hc0]; [by left|right]. destruct (T3 c) as (p & -> & Hp & _); [set_solver|done|by exists p].
    + pose proof (free_kernel [a; b] x2 a b (kernel_mmio_pts x2) used) as Hf. rewrite Hy in Hf. simpl in Hf.
      destruct (free_if a _) as [y1|]; [|done]. simpl in Hf |- *. destruct (free_if b y1) as [y2|]; [|done]. simpl in Hf |- *. injection Hf as ->.
      eexists _, _. split; [done|]. right. split; [done|]. intros p. simpl.
      eapply refs_determined; [exact Hi|exact Iy|by etrans|]. intros. by rewrite Py, T4.
  - apply orb_false_iff in Hab as [Hna%negb_false_iff%negb_true_iff%Z.eqb_neq Hnb%negb_false_iff%negb_true_iff%Z.eqb_neq].
    destruct (init_pts_inv _ _ _ (raise_upper x a x1 b x2 used (b ||| VM64_PAGE_PRESENT ||| VM64_PAGE_WRITE) Hb Ha Hbb Hna Hnb ltac:(
      intros k Hk; unfold used; by rewrite (proj2 (Z.leb_le 0 k)), (proj2 (Z.ltb_lt k _)) by lia)) (bo_held _ Hb)) as (r & y & -> & Hr).
    cbn [mbind option_bind]. destruct r as [z|]; [destruct Hr as [-> Hr]; eexists _, _; split; [done|]; by right|].
    destruct has_pat; [eexists _, _; split; [done|]; left; split_and!; try done; [by eapply raised_kernel|apply Hr..]|].
    destruct (unraised _ _ _ _ Hr (bo_held _ Hb) ltac:(done)) as (y' & Hy' & Hrefs).
    pose proof (give_back KERNEL_MMIO_PTS y ltac:(done) (ra_pts _ _ _ _ Hr) (ra_pd _ _ _ _ Hr) (ra_pdpt _ _ _ _ Hr)) as Hg. rewrite Hy' in Hg. revert Hg.
    cbn [mbind option_bind]. destruct (for_vm _ _ _ y) as [s2|]; [|done]. simpl. destruct (free_page (kernel_mmio_pd s2) s2) as [s3|]; [|done]. simpl.
    destruct (free_page (kernel_mmio_pdpt s3) s3) as [s4|]; [|done]. intros [= ->]. simpl. eexists _, _. split; [done|]. by right.
Qed.

End Init.
End VmInit.
