(* ===== verification/VmWalk.v ===== *)
(** * What the processor does with the tables

    The walk of the four levels of tables that a memory access of user code
    goes through, written from the bytes of memory alone.  For a space that
    [vm64_create_space] built it reaches the pages that the space's entries
    name and nothing else: not the identity map, not the kernel's window, not
    the tables. *)

From stdpp Require Import gmap.
From S2P Require Import Prelude Pmm Vm VmInv VmOps VmUser VmAccess.

Open Scope Z_scope.

Module VmWalk.
Import Vm VmInv VmOps VmUser VmAccess.

(** An entry lets user code through: bits 0 (present), 2 (user), 1 (write). *)
Definition passes (e : Z) (write : bool) : bool :=
  Z.testbit e 0 && Z.testbit e 2 && (negb write || Z.testbit e 1).

Definition canonical (a : Z) : bool := (a <? 2 ^ 47) || (2 ^ 64 - 2 ^ 47 <=? a).

Definition index_at (level a : Z) : Z := a / 2 ^ (12 + 9 * level) mod 512.

(** The physical address an access of user code reaches; [None] is a page
    fault.  Bit 7 of an entry of the second and third level is a large page. *)
Definition user_walk (m : Z -> Z) (root a : Z) (write : bool) : option Z :=
  if negb (canonical a) then None else
  let e4 := read64 m (root + 8 * index_at 3 a) in
  if negb (passes e4 write) then None else
  let e3 := read64 m ((e4 &&& VM64_PHYS_MASK) + 8 * index_at 2 a) in
  if negb (passes e3 write) then None else
  if Z.testbit e3 7 then Some ((e3 &&& 0xFFFFFC0000000) + a mod 2 ^ 30) else
  let e2 := read64 m ((e3 &&& VM64_PHYS_MASK) + 8 * index_at 1 a) in
  if negb (passes e2 write) then None else
  if Z.testbit e2 7 then Some ((e2 &&& 0xFFFFFFFE00000) + a mod 2 ^ 21) else
  let e1 := read64 m ((e2 &&& VM64_PHYS_MASK) + 8 * index_at 0 a) in
  if negb (passes e1 write) then None else
  Some ((e1 &&& VM64_PHYS_MASK) + a mod 4096).

(** A link to a table: its address and the bits in [fl]. *)
Lemma link_bits p fl n : 0 <= n < 12 -> Z.testbit (4096 * p ||| fl) n = Z.testbit fl n.
Proof.
  intros Hn. rewrite Z.lor_spec. replace (4096 * p) with (Z.shiftl p 12) by (rewrite Z.shiftl_mul_pow2 by done; lia).
  by rewrite Z.shiftl_spec_low by lia.
Qed.

Lemma link_page p fl : 0 < p < Pmm.BITMAP_BITS -> fl &&& VM64_PHYS_MASK = 0 -> (4096 * p ||| fl) &&& VM64_PHYS_MASK = 4096 * p.
Proof.
  intros Hp Hf. pose proof (page_small p). rewrite Z.land_lor_distr_l, Hf, Z.lor_0_r. apply mask_page. lia.
Qed.

Definition link (p : Z) : Z := 4096 * p ||| VM64_PAGE_PRESENT ||| VM64_PAGE_WRITE ||| VM64_PAGE_USER.

Lemma link_spec p w : 0 < p < Pmm.BITMAP_BITS ->
  passes (link p) w = true /\ Z.testbit (link p) 7 = false /\ link p &&& VM64_PHYS_MASK = 4096 * p.
Proof.
  intros Hp. unfold link. rewrite <- !Z.lor_assoc. split_and!; [|by rewrite link_bits|by apply link_page].
  unfold passes. rewrite !link_bits by done. by destruct w.
Qed.

(** A link of the kernel's own stops user code. *)
Lemma kernel_link p w : passes (4096 * p ||| VM64_PAGE_PRESENT ||| VM64_PAGE_WRITE) w = false.
Proof. unfold passes. rewrite <- !Z.lor_assoc, !link_bits by done. done. Qed.

Section Walk.
Context {W : Type} {VM : VmModules W} {VO : VmObjects W} {VL : VmLaws W}.
Implicit Types (s : vm W).

#[global] Instance user_addr_dec a : Decision (user_addr a) := ltac:(unfold user_addr; apply _).
#[global] Instance accessible_dec s i a w : Decision (accessible s i a w) := ltac:(unfold accessible; apply _).

Lemma table_addr D R P l s r : inv D R P l s -> valid_role r -> exists p, role_addr s r = 4096 * p.
Proof.
  intros Hi Hr. destruct (Z.eq_dec (role_addr s r) 0) as [->|Hn]; [by exists 0|].
  destruct (role_page _ _ _ _ _ r Hi Hr Hn) as (p & Hp & _). by exists p.
Qed.

Lemma user_addr_index a : 0 <= a < 2 ^ 64 ->
  user_addr a <-> canonical a = true /\ index_at 3 a = 0 /\ index_at 2 a = 4 /\ index_at 1 a < 256.
Proof.
  intros Ha. unfold user_addr, canonical, index_at, VM64_USER_BASE, VM64_USER_LIMIT. rewrite orb_true_iff, Z.ltb_lt, Z.leb_le. simpl. split.
  - intros H. split_and!; dmlia.
  - intros (H0 & H3 & H2 & H1). dmlia.
Qed.

Lemma user_vpn a : user_addr a -> vpn a / 512 = index_at 1 a /\ vpn a mod 512 = index_at 0 a.
Proof. unfold user_addr, vpn, index_at, VM64_USER_BASE, VM64_USER_LIMIT. simpl. intros H. split; dmlia. Qed.

(** The last step of the walk. *)
Lemma walk_leaf s i a w e : user_addr a -> pte_at s i (vpn a) = norm e ->
  (if negb (passes e w) then None else Some ((e &&& VM64_PHYS_MASK) + a mod 4096)) =
  if decide (user_addr a /\ accessible s i a w) then Some (translate s i a) else None.
Proof.
  intros Ha He. unfold passes, translate. rewrite He. destruct (decide (user_addr a /\ accessible s i a w)) as [[_ (H1 & H2 & H3)]|Hn].
  - rewrite He, norm_present in H1. rewrite He, norm_id in H2, H3 by done. rewrite norm_id, H1, H2, (proj1 (masked_page e)) by done.
    destruct w; [by rewrite H3|done].
  - destruct (pte_present e) eqn:Hp; [|done]. destruct (pte_user e) eqn:Hu; [|done]. destruct w, (pte_writable e) eqn:Hw; try done;
      (destruct Hn; split; [done|]; unfold accessible; rewrite He, norm_id by done; naive_solver).
Qed.

(** The walk and the entries agree. *)
Lemma user_walk_spec D R P l s i a w :
  inv D R P l s -> ~ D i -> live s i -> 0 <= a < 2 ^ 64 ->
  user_walk (memory s) (pml4 (spaces s i)) a w =
  if decide (user_addr a /\ accessible s i a w) then Some (translate s i a) else None.
Proof.
  intros Hi HD [Hsp Hl] Ha. pose proof (i_upper _ _ _ _ _ Hi i Hsp HD Hl) as [U1 U2 U3].
  destruct (i_live _ _ _ _ _ Hi i Hsp Hl) as (L1 & L2 & L3 & L4 & L5).
  destruct (role_page _ _ _ _ _ (Pdpt i) Hi Hsp L1) as (p3 & Hp3 & Hb3 & _). simpl in Hp3.
  destruct (role_page _ _ _ _ _ (UserPd i) Hi Hsp L4) as (p2 & Hp2 & Hb2 & _). simpl in Hp2.
  destruct (table_addr _ _ _ _ _ (IdentityPd i) Hi Hsp) as (pk & Hpk). destruct (table_addr _ _ _ _ _ MmioPdpt Hi I) as (pw & Hpw). simpl in Hpk, Hpw.
  assert (forall k, 0 <= index_at k a < 512) as Hix by (intros k; apply Z.mod_pos_bound; done).
  assert (user_addr a <-> canonical a = true /\ index_at 3 a = 0 /\ index_at 2 a = 4 /\ index_at 1 a < 256) as Hua by (by apply user_addr_index).
  unfold user_walk. destruct (canonical a) eqn:Hca; [|rewrite decide_False by (rewrite Hua; intros [[] _]; done); done]. cbn [negb].
  change (read64 (memory s) (pml4 (spaces s i) + 8 * index_at 3 a)) with (entry s (pml4 (spaces s i)) (index_at 3 a)). rewrite U1, Hp3, Hpw by done. fold (link p3).
  destruct (Z.eqb_spec (index_at 3 a) 0) as [H3|]; [|rewrite decide_False by (rewrite Hua; naive_solver); by destruct (_ =? 256); [rewrite kernel_link|]].
  destruct (link_spec p3 w Hb3) as (-> & _ & ->). cbn [negb].
  change (read64 (memory s) (4096 * p3 + 8 * index_at 2 a)) with (entry s (4096 * p3) (index_at 2 a)). rewrite <- Hp3, U2, Hpk, Hp2 by done. fold (link p2).
  destruct (Z.eqb_spec (index_at 2 a) 0) as [|_]; [rewrite decide_False by (rewrite Hua; intros [(_ & _ & ? & _) _]; lia); by rewrite kernel_link|].
  destruct (Z.eqb_spec (index_at 2 a) 4) as [H2|]; [|by rewrite decide_False by (rewrite Hua; naive_solver)].
  destruct (link_spec p2 w Hb2) as (-> & -> & ->). cbn [negb].
  change (read64 (memory s) (4096 * p2 + 8 * index_at 1 a)) with (entry s (4096 * p2) (index_at 1 a)). rewrite <- Hp2, U3 by done.
  destruct (Z.lt_ge_cases (index_at 1 a) 256) as [H1|]; [|rewrite L5 by (pose proof (Hix 1); lia); by rewrite decide_False by (rewrite Hua; intros [(_ & _ & _ & ?) _]; lia)].
  assert (user_addr a) as Hu by tauto. destruct (user_vpn a Hu) as [V1 V2].
  assert (pte_at s i (vpn a) = if user_pts (spaces s i) (index_at 1 a) =? 0 then 0 else norm (entry s (user_pts (spaces s i) (index_at 1 a)) (index_at 0 a))) as He
    by (unfold pte_at; by rewrite V1, V2).
  destruct (Z.eqb_spec (user_pts (spaces s i) (index_at 1 a)) 0) as [Hz|Hnz].
  { rewrite decide_False; [done|]. intros (_ & Hp & _). by rewrite He in Hp. }
  destruct (role_page _ _ _ _ _ (UserPt i (index_at 1 a)) Hi (conj Hsp (Hix 1)) Hnz) as (p1 & Hp1 & Hb1 & _). simpl in Hp1.
  rewrite Hp1 in He |- *. fold (link p1). destruct (link_spec p1 w Hb1) as (-> & -> & ->). cbn [negb].
  change (read64 (memory s) (4096 * p1 + 8 * index_at 0 a)) with (entry s (4096 * p1) (index_at 0 a)). by apply walk_leaf.
Qed.

End Walk.
End VmWalk.
