(* ===== verification/VmCopy.v ===== *)
(** * Bytes in user memory

    A page that an entry owns and may write is reached through that entry
    alone, so a write through one space changes the bytes of no other space's
    pages and exactly the bytes it names of its own.  [vm64_copy_to],
    [vm64_copy_from] and the stores of user code are described by that. *)

From stdpp Require Import gmap.
From S2P Require Import Prelude Pmm Vm VmInv VmOps VmUser VmAccess VmWalk.

Open Scope Z_scope.

Module VmCopy.
Import Vm VmInv VmOps VmUser VmAccess VmWalk.

Section Copy.
Context {W : Type} {VM : VmModules W} {VO : VmObjects W} {VL : VmLaws W}.
Implicit Types (s : vm W).

(** ** Private pages *)

Definition private s (j u : Z) : Prop :=
  is_slot j u /\ pte_present (pte_at s j u) = true /\ pte_owned (pte_at s j u) = true.

(** Pages of objects are nobody's private pages. *)
Lemma foreign_disjoint D R P l s i u j v :
  inv D R P l s -> is_slot i u -> pte_present (pte_at s i u) = true -> pte_owned (pte_at s i u) = false ->
  private s j v -> phys_page (pte_at s i u) <> phys_page (pte_at s j v).
Proof.
  intros Hi Hs Hp Ho (Hs' & Hp' & Ho') He. destruct (owned_page _ _ _ _ _ _ _ Hi Hs' Hp' Ho') as (Hb & _ & _ & Hh & _ & Hr). rewrite <- He in *.
  destruct (foreign_page _ _ _ _ i u (i_core _ _ _ _ _ Hi) Hs Hp Ho) as [Hd|Hf]; [|simpl in Hf; lia].
  assert (Pmm.page_in (phys_page (pte_at s i u))) as Hpi by (unfold Pmm.page_in; lia).
  apply (i_ram _ _ _ _ _ Hi _ Hd Hpi), (Pmm.base_ram _ (Pmm.inv_base _ (i_mm _ _ _ _ _ Hi)) _ Hpi). right. lia.
Qed.

(** The page of a writable entry is private to it, or no entry owns it. *)
Lemma slot_unique D R P l s i u j v :
  inv D R P l s -> is_slot i u -> pte_present (pte_at s i u) = true -> pte_writable (pte_at s i u) = true ->
  private s j v -> phys_page (pte_at s i u) = phys_page (pte_at s j v) -> i = j /\ u = v.
Proof.
  intros Hi Hs Hp Hw Hpr He. pose proof (i_core _ _ _ _ _ Hi) as Hc. pose proof Hpr as (Hs' & Hp' & Ho').
  destruct (pte_owned (pte_at s i u)) eqn:Ho; [|by destruct (foreign_disjoint _ _ _ _ s i u j v Hi Hs Hp Ho Hpr)].
  destruct (owned_page _ _ _ _ _ _ _ Hi Hs' Hp' Ho') as (_ & Hin & _ & _ & Hn & _). rewrite <- He in *.
  pose proof (c_excl _ _ _ _ Hc i u Hs Hp Ho Hw) as H1. simpl in H1. pose proof (c_loose _ _ _ _ Hc (phys_page (pte_at s i u))).
  pose proof (owner_size _ _ _ _ Hin). assert (size (owners (abs_of s) (phys_page (pte_at s i u))) = 1%nat) as H1s by lia.
  apply size_1_elem_of in H1s as [x Hx]. assert ((i, u) ∈ owners (abs_of s) (phys_page (pte_at s i u))) as Hin' by (by apply elem_of_owners).
  rewrite Hx in Hin, Hin'. apply elem_of_singleton in Hin, Hin'. split; congruence.
Qed.

(** ** Writing *)

Lemma address_of a : user_addr a -> a = VM64_USER_BASE + 4096 * vpn a + a mod 4096.
Proof. unfold user_addr, vpn, VM64_USER_BASE. intros H. dmlia. Qed.

Lemma vpn_of u o : 0 <= o < 4096 -> vpn (VM64_USER_BASE + 4096 * u + o) = u /\ (VM64_USER_BASE + 4096 * u + o) mod 4096 = o.
Proof. intros Ho. unfold vpn, VM64_USER_BASE. split; dmlia. Qed.

(** The bytes of private pages after a write to [address .. address + e). *)
Lemma write_bytes_private D R P l s i address length e buffer j u o :
  inv D R P l s -> live s i -> VM64_USER_BASE <= address -> address + length <= VM64_USER_LIMIT -> 0 <= e <= length ->
  (forall a, address <= a < address + length -> accessible s i a true) ->
  private s j u -> 0 <= o < 4096 ->
  let a := VM64_USER_BASE + 4096 * u + o in
  write_bytes s i address e buffer 0 (4096 * phys_page (pte_at s j u) + o) =
    if (j =? i) && (address <=? a) && (a <? address + e) then buffer (a - address)
    else memory s (4096 * phys_page (pte_at s j u) + o).
Proof.
  intros Hi [Hsp Hl] Hb Hlim He Hacc Hpr Ho a. unfold write_bytes.
  pose proof (for_range_ind (fun n m => m (4096 * phys_page (pte_at s j u) + o) =
     if (j =? i) && (address <=? a) && (a <? address + n) then buffer (a - address) else memory s (4096 * phys_page (pte_at s j u) + o))
    0 e (fun k m => upd m (translate s i (address + k)) (buffer k)) (memory s)) as Hind. rewrite Z.max_r in Hind by lia. apply Hind; clear Hind.
  { destruct (j =? i), (Z.leb_spec address a), (Z.ltb_spec a (address + 0)); simpl; done || lia. }
  intros n m Hn IH. unfold upd. assert (user_addr (address + n)) as Ha by (unfold user_addr; lia).
  destruct (vpn_slot i _ Hsp Ha) as [Hs _]. destruct (Hacc (address + n) ltac:(lia)) as (Hp & _ & Hw).
  destruct (vpn_of u o Ho) as [V1 V2]. fold a in V1, V2.
  assert (4096 * phys_page (pte_at s j u) + o = translate s i (address + n) <-> j = i /\ a = address + n) as Hiff.
  { unfold translate. split.
    - intros Ht. assert (phys_page (pte_at s i (vpn (address + n))) = phys_page (pte_at s j u) /\ (address + n) mod 4096 = o) as [Hpp Hoo] by dmlia.
      destruct (slot_unique _ _ _ _ s i (vpn (address + n)) j u Hi Hs Hp (Hw eq_refl) Hpr Hpp) as [-> Hv]. split; [done|].
      rewrite (address_of _ Ha), Hv, Hoo. done.
    - intros [-> <-]. by rewrite V1, V2. }
  destruct (Z.eqb_spec (4096 * phys_page (pte_at s j u) + o) (translate s i (address + n))) as [Ht|Ht].
  - apply Hiff in Ht as [-> Ht]. rewrite Ht, Z.eqb_refl. replace (address + n - address) with n by lia.
    destruct (Z.leb_spec address (address + n)), (Z.ltb_spec (address + n) (address + (n + 1))); simpl; done || lia.
  - rewrite IH. destruct (Z.eqb_spec j i) as [->|]; [|done]. simpl. assert (a <> address + n) by tauto.
    destruct (Z.leb_spec address a), (Z.ltb_spec a (address + n)), (Z.ltb_spec a (address + (n + 1))); simpl; done || lia.
Qed.

(** Bytes of the space [i] were written, and private pages of other spaces
    and the rights of everybody stayed. *)
Record wrote (i address length : Z) (buffer : Z -> Z) s s' : Prop := {
  wr_spaces : same_spaces s s';
  wr_rights j u : is_slot j u ->
    pte_present (pte_at s' j u) = pte_present (pte_at s j u) /\ pte_user (pte_at s' j u) = pte_user (pte_at s j u) /\
    pte_no_execute (pte_at s' j u) = pte_no_execute (pte_at s j u) /\
    (pte_present (pte_at s j u) = true -> pte_owned (pte_at s' j u) = pte_owned (pte_at s j u));
  wr_grants j u : is_slot j u -> grants (pte_at s' j u) = grants (pte_at s j u);
  wr_private j u o : private s j u -> 0 <= o < 4096 ->
    let a := VM64_USER_BASE + 4096 * u + o in
    memory s' (4096 * phys_page (pte_at s' j u) + o) =
      if (j =? i) && (address <=? a) && (a <? address + length) then buffer (a - address)
      else memory s (4096 * phys_page (pte_at s j u) + o)
}.

Lemma private_view s s' j u : same_view s s' -> private s j u -> private s' j u.
Proof.
  intros Hv (Hs & Hp & Ho). destruct (sv_rights _ _ Hv j u Hs) as (R1 & _ & _ & R4). split_and!; [apply Hs..|congruence|].
  rewrite R4; done.
Qed.

(** The kernel writes a range that it has checked. *)
Lemma write_range D R P l s0 s i address length buffer :
  inv D R P l s -> same_view s0 s -> live s i -> VM64_USER_BASE <= address -> address + length <= VM64_USER_LIMIT -> 0 <= length ->
  (forall k, is_u8 (buffer k)) -> (forall a, address <= a < address + length -> accessible s i a true) ->
  let s' := set_memory (write_bytes s i address length buffer 0) s in
  inv D R P l s' /\ (forall j v, is_slot j v -> pte_at s' j v = pte_at s j v) /\ wrote i address length buffer s0 s'.
Proof.
  intros Hi Hv Hl Hb Hlim Hlen Hbuf Hacc s'.
  assert (forall a, address + 0 <= a < address + length -> accessible s i a true) as Hacc' by (intros a Ha; apply Hacc; lia).
  destruct (write_bytes_inv D R P l s i address length buffer 0 length Hi Hl Hb Hlim ltac:(lia) ltac:(lia) Hbuf Hacc') as [Hi' Hpte].
  fold s' in Hi', Hpte. split_and!; [done|done|]. split.
  - destruct (sv_spaces _ _ Hv) as [S1 S2 S3]. by split.
  - intros j u Hs. rewrite Hpte by done. by apply (sv_rights _ _ Hv).
  - intros j u Hs. rewrite Hpte by done. by apply (sv_grants _ _ Hv).
  - intros j u o Hpr Ho a. pose proof Hpr as (Hs & Hp & _). rewrite Hpte by done.
    change (memory s') with (write_bytes s i address length buffer 0).
    rewrite (write_bytes_private D R P l s i address length length buffer j u o Hi Hl Hb Hlim ltac:(lia) Hacc); [|by eapply private_view|done].
    fold a. by rewrite (sv_content _ _ Hv j u o Hs Hp Ho).
Qed.

(** The range is one of user addresses, and all of it is accessible. *)
Definition in_reach s (i address length : Z) (w : bool) : Prop :=
  VM64_USER_BASE <= address < VM64_USER_LIMIT /\ address + length <= VM64_USER_LIMIT /\
  forall a, address <= a < address + length -> accessible s i a w.

Lemma vm64_copy_to_inv D R P l s root address length buffer :
  inv D R P l s -> 0 <= length -> (forall k, is_u8 (buffer k)) ->
  exists r s', vm64_copy_to root address length buffer s = Some (r, s') /\ inv D R P l s' /\
    ((r = -1 /\ same_view s s' /\ forall i, space_from_root root s = Some i -> ~ in_reach s' i address length true) \/
     (r = 0 /\ exists i, live s i /\ space_from_root root s = Some i /\ in_reach s' i address length true /\ wrote i address length buffer s s')).
Proof.
  intros Hi Hlen Hbuf. destruct (vm64_user_access_inv D R P l s root address length true Hi Hlen) as (r & s1 & Hrun & Hi1 & Hv & Hcase).
  unfold vm64_copy_to, vm64_copy. rewrite Hrun. cbn [mbind option_bind]. pose proof (space_from_root_spec D R P l s root Hi) as Hroot.
  destruct (space_from_root root s) as [i|]; [|subst r; exists (-1), s1; split; [done|]; split; [done|]; by left].
  destruct Hcase as [(-> & Ha & Hlim & Hacc)|(-> & Hno)].
  2:{ exists (-1), s1. split; [done|]. split; [done|]. left. split; [done|]. split; [done|]. intros ? [= <-] (H1 & H2 & H3). destruct Hno as [Hno|(a & Ha & Hno)]; [tauto|]. by destruct Hno; apply H3. }
  destruct Hroot as [[Hsp Hl] _]. assert (live s1 i) as Hl1 by (split; [done|by rewrite (ss_root _ _ (sv_spaces _ _ Hv))]).
  simpl nz. cbn [mbind option_bind].
  rewrite (copy_to_loop D R P l _ s1 i address length buffer 0 Hi1 Hl1); [|lia..|done|intros a Hr; apply Hacc; lia|by apply transfer_fuel_enough].
  destruct (write_range D R P l s s1 i address length buffer Hi1 Hv Hl1) as (Hi2 & Hpte & Hwr); [lia..|done|done|].
  exists 0. eexists. split; [done|]. split; [done|]. right. split; [done|]. exists i. split; [done|]. split; [done|]. split; [|done].
  split_and!; [lia..|]. intros a Hr. apply (accessible_frame s1); [done|unfold user_addr; lia|done|by apply Hacc].
Qed.

Lemma vm64_copy_from_inv D R P l s root address length buffer :
  inv D R P l s -> 0 <= length ->
  exists r buffer' s', vm64_copy_from root address length buffer s = Some (r, buffer', s') /\ inv D R P l s' /\ same_view s s' /\
    ((r = -1 /\ buffer' = buffer /\ forall i, space_from_root root s = Some i -> ~ in_reach s i address length false) \/
     (r = 0 /\ exists i, live s i /\ space_from_root root s = Some i /\ in_reach s i address length false /\
        forall k, buffer' k = if (0 <=? k) && (k <? length) then memory s (translate s i (address + k)) else buffer k)).
Proof.
  intros Hi Hlen. destruct (vm64_user_access_inv D R P l s root address length false Hi Hlen) as (r & s1 & Hrun & Hi1 & Hv & Hcase).
  unfold vm64_copy_from, vm64_copy. rewrite Hrun. cbn [mbind option_bind]. pose proof (space_from_root_spec D R P l s root Hi) as Hroot.
  destruct (space_from_root root s) as [i|]; [|subst r; exists (-1), buffer, s1; split; [done|]; split; [done|]; split; [done|]; by left].
  destruct Hroot as [[Hsp Hl] _].
  assert (forall a, user_addr a -> accessible s i a false <-> accessible s1 i a false) as Hsame.
  { intros a Ha. destruct (vpn_slot i a Hsp Ha) as [Hs _]. destruct (sv_rights _ _ Hv _ _ Hs) as (R1 & R2 & _). unfold accessible. rewrite R1, R2. naive_solver. }
  destruct Hcase as [(-> & Ha & Hlim & Hacc)|(-> & Hno)].
  2:{ exists (-1), buffer, s1. split; [done|]. split; [done|]. split; [done|]. left. split; [done|]. split; [done|]. intros ? [= <-] (H1 & H2 & H3).
      destruct Hno as [Hno|(a & Ha & Hno)]; [tauto|]. destruct Hno. apply Hsame; [unfold user_addr; lia|by apply H3]. }
  assert (live s1 i) as Hl1 by (split; [done|by rewrite (ss_root _ _ (sv_spaces _ _ Hv))]).
  simpl nz. cbn [mbind option_bind].
  rewrite (copy_from_loop D R P l _ s1 i address length buffer 0 Hi1 Hl1); [|lia..|intros a Hr; apply Hacc; lia|by apply transfer_fuel_enough].
  exists 0. eexists _, s1. split; [done|]. split; [done|]. split; [done|]. right. split; [done|]. exists i.
  assert (forall a, address <= a < address + length -> accessible s i a false) as Hacc0.
  { intros a Hr. apply Hsame; [unfold user_addr; lia|by apply Hacc]. }
  split; [done|]. split; [done|]. split; [done|]. intros k. rewrite read_user_spec by done.
  destruct (Z.leb_spec 0 k), (Z.ltb_spec k length); try done. simpl. unfold translate.
  destruct (vpn_slot i (address + k) Hsp ltac:(unfold user_addr; lia)) as [Hs _].
  apply (sv_content _ _ Hv); [done|apply Hacc0; lia|apply Z.mod_pos_bound; lia].
Qed.

(** ** A store of user code *)

(** The space [i] is loaded; -1 is a page fault. *)
Definition user_store (i a byte : Z) s : Z * vm W :=
  match user_walk (memory s) (pml4 (spaces s i)) a true with
  | Some physical => (0, set_memory (upd (memory s) physical byte) s)
  | None => (-1, s)
  end.

Lemma user_store_inv D R P l s i a byte :
  inv D R P l s -> ~ D i -> live s i -> 0 <= a < 2 ^ 64 -> is_u8 byte ->
  let '(r, s') := user_store i a byte s in
  inv D R P l s' /\
  ((r = -1 /\ s' = s /\ ~ (user_addr a /\ accessible s i a true)) \/
   (r = 0 /\ user_addr a /\ accessible s i a true /\ wrote i a 1 (fun _ => byte) s s')).
Proof.
  intros Hi HD Hl Ha Hb. unfold user_store. rewrite (user_walk_spec D R P l s i a true Hi HD Hl Ha).
  destruct (decide (user_addr a /\ accessible s i a true)) as [[Hu Hacc]|Hn]; [|split; [done|by left]].
  assert (upd (memory s) (translate s i a) byte = write_bytes s i a 1 (fun _ => byte) 0) as ->.
  { unfold write_bytes, for_range. change (Z.to_nat (1 - 0)) with 1%nat. rewrite for_from_S. simpl. by rewrite Z.add_0_r. }
  unfold user_addr in Hu. destruct (write_range D R P l s s i a 1 (fun _ => byte) Hi ltac:(done) Hl) as (Hi' & _ & Hw);
    [lia..|done| |].
  { intros b Hb'. by assert (b = a) as -> by lia. }
  split; [done|]. right. done.
Qed.

Lemma root_kept s s' root : same_spaces s s' -> space_from_root root s' = space_from_root root s.
Proof.
  intros Hs. unfold space_from_root. destruct (negb (nz root)); [done|].
  assert (forall k, (pml4 (spaces s' k) =? root) = (pml4 (spaces s k) =? root)) as He by (intros k; by rewrite (ss_root _ _ Hs)).
  destruct (scan_range 0 VM64_MAX_SPACES (fun k => pml4 (spaces s k) =? root)) as [i|] eqn:Hr.
  - apply scan_range_Some in Hr. apply scan_range_Some. rewrite He. setoid_rewrite He. done.
  - apply scan_range_None. intros k Hk. rewrite He. by apply (proj1 (scan_range_None _ _ _) Hr).
Qed.

(** What was written to private pages is what is read back. *)
Lemma copy_back D R P l s root address length buffer s' i buffer0 :
  inv D R P l s -> 0 <= length -> (forall k, is_u8 (buffer k)) ->
  vm64_copy_to root address length buffer s = Some (0, s') -> space_from_root root s = Some i ->
  (forall a, address <= a < address + length -> pte_owned (pte_at s i (vpn a)) = true) ->
  exists buffer' s'', vm64_copy_from root address length buffer0 s' = Some (0, buffer', s'') /\
    forall k, buffer' k = if (0 <=? k) && (k <? length) then buffer k else buffer0 k.
Proof.
  intros Hi Hlen Hbuf Hrun Hroot Hown.
  destruct (vm64_copy_to_inv D R P l s root address length buffer Hi Hlen Hbuf) as (r & s1 & Hrun' & Hi' & Hcase).
  rewrite Hrun in Hrun'. injection Hrun' as <- <-. destruct Hcase as [[? _]|(_ & i' & [Hsp Hl] & Hroot' & (Ha & Hlim & Hacc) & Hw)]; [done|].
  rewrite Hroot in Hroot'. injection Hroot' as <-.
  destruct (vm64_copy_from_inv D R P l s' root address length buffer0 Hi' Hlen) as (r & b & s2 & Hfrom & _ & _ & Hcase). rewrite Hfrom.
  rewrite (root_kept s s' root (wr_spaces _ _ _ _ _ _ Hw)), Hroot in Hcase.
  destruct Hcase as [(_ & _ & Hno)|(-> & i' & _ & [= <-] & _ & Hb)].
  { destruct (Hno i eq_refl). split_and!; [lia..|]. intros a Har. destruct (Hacc a Har) as (H1 & H2 & _). done. }
  exists b, s2. split; [done|]. intros k. rewrite Hb. destruct (Z.leb_spec 0 k), (Z.ltb_spec k length); try done. simpl.
  assert (user_addr (address + k)) as Hu by (unfold user_addr; lia). destruct (vpn_slot i _ Hsp Hu) as [Hs _].
  destruct (wr_rights _ _ _ _ _ _ Hw _ _ Hs) as (R1 & _). destruct (Hacc (address + k) ltac:(lia)) as (H1 & _).
  unfold translate. rewrite (wr_private _ _ _ _ _ _ Hw i (vpn (address + k)) ((address + k) mod 4096)).
  - rewrite <- (address_of _ Hu), Z.eqb_refl. replace (address + k - address) with k by lia.
    destruct (Z.leb_spec address (address + k)), (Z.ltb_spec (address + k) (address + length)); simpl; done || lia.
  - split_and!; [apply Hs..|congruence|apply Hown; lia].
  - apply Z.mod_pos_bound. lia.
Qed.

End Copy.
End VmCopy.
