(* ===== verification/VmSystem.v ===== *)
(** * The address spaces as a system

    The operations of [vm.c] as the rest of the kernel calls them, stores of
    user code and changes of the pages that the kernel holds, as the steps of
    one system.  The invariant holds in every reachable state, no step of a
    caller that keeps its obligations panics, and no step touches the private
    pages of a space other than the one it is for. *)

From stdpp Require Import gmap.
From S2P Require Import Prelude Pmm Vm VmInv VmOps VmUser VmAccess VmSpaces VmDestroy VmClone VmMappings VmRevoke VmKernel VmInit VmWalk VmCopy.

Open Scope Z_scope.

Module VmSystem.
Import Vm VmInv VmOps VmUser VmAccess VmSpaces VmDestroy VmClone VmMappings VmRevoke VmKernel VmInit VmWalk VmCopy.

(** The steps.  Pages are page numbers; the world of objects is the argument
    of [Adopt]. *)
Inductive op (W : Type) :=
  | Create
  | Clone (source : Z)
  | Destroy (i : Z)
  | Alloc
  | Free (p : Z)
  | Fill (p offset byte : Z)
  | Map (i virtual p : Z) (writable executable : bool)
  | Unmap (i virtual : Z)
  | HandleCow (i virtual : Z)
  | UserAccess (root address length : Z) (writable : bool)
  | CopyTo (root address length : Z) (buffer : Z -> Z)
  | CopyFrom (root address length : Z) (buffer : Z -> Z)
  | UserStore (i address byte : Z)
  | MapObject (i virtual object physical length : Z) (writable : bool) (cache_mode : Z)
  | MapPageObject (i virtual object : Z) (writable : bool)
  | UnmapObject (i virtual length : Z)
  | RevokeObjects (i : Z) (objects : list Z)
  | RevokeObjectAll (object : Z)
  | Ioremap (physical length cache_mode : Z)
  | Iounmap (address length : Z)
  | Retain (object : Z)
  | Release (object : Z)
  | Adopt (w : W).
#[global] Arguments Create {W}.
#[global] Arguments Clone {W}.
#[global] Arguments Destroy {W}.
#[global] Arguments Alloc {W}.
#[global] Arguments Free {W}.
#[global] Arguments Fill {W}.
#[global] Arguments Map {W}.
#[global] Arguments Unmap {W}.
#[global] Arguments HandleCow {W}.
#[global] Arguments UserAccess {W}.
#[global] Arguments CopyTo {W}.
#[global] Arguments CopyFrom {W}.
#[global] Arguments UserStore {W}.
#[global] Arguments MapObject {W}.
#[global] Arguments MapPageObject {W}.
#[global] Arguments UnmapObject {W}.
#[global] Arguments RevokeObjects {W}.
#[global] Arguments RevokeObjectAll {W}.
#[global] Arguments Ioremap {W}.
#[global] Arguments Iounmap {W}.
#[global] Arguments Retain {W}.
#[global] Arguments Release {W}.
#[global] Arguments Adopt {W}.

Section System.
Context {W : Type} {VM : VmModules W} {VO : VmObjects W} {VL : VmLaws W}.
Context (text_start text_end rodata_start rodata_end : Z).
Implicit Types (s : vm W).

Local Abbreviation none := (fun _ _ : Z => False).
Local Abbreviation complete := (fun _ : Z => False).

Definition vm_inv (l : Z -> Z) s : Prop := inv complete none None l s /\ shaped s.

Definition run (o : op W) s : option (Z * vm W) :=
  match o with
  | Create => '(r, _, s) ← vm64_create_space text_start text_end rodata_start rodata_end s; Some (r, s)
  | Clone source => '(r, _, s) ← vm64_clone_space text_start text_end rodata_start rodata_end source s; Some (r, s)
  | Destroy i => s ← vm64_destroy_space i s; Some (0, s)
  | Alloc => Some (vm64_alloc_page s)
  | Free p => vm64_free_page (4096 * p) s
  | Fill p offset byte => Some (0, set_memory (upd (memory s) (4096 * p + offset) byte) s)
  | Map i virtual p writable executable => Some (vm64_map i virtual (4096 * p) writable executable s)
  | Unmap i virtual => vm64_unmap i virtual s
  | HandleCow i virtual => vm64_handle_cow i virtual s
  | UserAccess root address length writable => vm64_user_access root address length writable s
  | CopyTo root address length buffer => vm64_copy_to root address length buffer s
  | CopyFrom root address length buffer => '(r, _, s) ← vm64_copy_from root address length buffer s; Some (r, s)
  | UserStore i address byte => Some (user_store i address byte s)
  | MapObject i virtual object physical length writable cache_mode =>
      vm64_map_object i virtual object physical length writable cache_mode s
  | MapPageObject i virtual object writable => vm64_map_page_object i virtual object writable s
  | UnmapObject i virtual length => vm64_unmap_object i virtual length s
  | RevokeObjects i objects => vm64_revoke_objects i objects s
  | RevokeObjectAll object => vm64_revoke_object_all object s
  | Ioremap physical length cache_mode => Some (vm64_ioremap physical length cache_mode s)
  | Iounmap address length => Some (vm64_iounmap address length s)
  | Retain object => let '(r, w) := object_retain object (rest s) in Some (r, set_rest w s)
  | Release object => s ← release_object object s; Some (0, s)
  | Adopt w => Some (0, set_rest w s)
  end.

(** The references running code holds after a step that answered [r]. *)
Definition loose (o : op W) (r : Z) s (l : Z -> Z) : Z -> Z :=
  match o with
  | Alloc => if r =? 0 then l else upd l (r / 4096) 1
  | Free p => upd l p (l p - 1)
  | Map _ _ p _ _ => if r =? 0 then upd l p (l p - 1) else l
  | Adopt w => fun p => if held w p =? held (rest s) p then l p else 0
  | _ => l
  end.

(** What a step that hands pages to objects may do: an object gets pages of
    which running code holds all references. *)
Record adopts (l : Z -> Z) s (w : W) : Prop := {
  ad_held p : held w p = held (rest s) p \/
    (held (rest s) p = 0 /\ 0 < l p /\ Pmm.page_refs (mm s) p = l p /\ held w p = l p);
  ad_pins o : pins (rest s) o <= pins w o;
  ad_backs o p : 0 < pins (rest s) o -> backs (rest s) o p -> backs w o p
}.

(** The obligations of the callers. *)
Definition allowed (o : op W) (l : Z -> Z) s : Prop :=
  match o with
  | Create | Alloc | RevokeObjectAll _ | Retain _ => True
  | Clone i | Destroy i | Unmap i _ | HandleCow i _ | MapPageObject i _ _ _ | UnmapObject i _ _ | RevokeObjects i _ => 0 <= i
  | Free p => 0 < p < Pmm.BITMAP_BITS /\ 0 < l p
  | Fill p offset byte =>
      0 < p < Pmm.BITMAP_BITS /\ 0 < l p /\ Pmm.page_refs (mm s) p = 1 /\ 0 <= offset < 4096 /\ is_u8 byte
  | Map i _ p _ _ => 0 <= i /\ 0 < p < Pmm.BITMAP_BITS /\ 0 < l p /\ Pmm.page_refs (mm s) p = 1
  | UserAccess _ _ length _ | CopyFrom _ _ length _ => 0 <= length
  | CopyTo _ _ length buffer => 0 <= length /\ forall k, is_u8 (buffer k)
  | UserStore i address byte => live s i /\ 0 <= address < 2 ^ 64 /\ is_u8 byte
  | MapObject i _ o physical length _ _ =>
      0 <= i /\ 0 <= length /\
      forall k, 0 <= k < length / 4096 ->
        exists p, u64 (physical + 4096 * k) = 4096 * p /\ 0 <= p < 2 ^ 40 /\ backs (rest s) o p
  | Ioremap physical length _ => is_u64 physical /\ 0 <= length
  | Iounmap _ length => 0 <= length
  | Release o => spare o s
  | Adopt w => adopts l s w
  end.

(** The steps that may change the private pages of the space [j]. *)
Definition touches (o : op W) (j : Z) s : Prop :=
  match o with
  | Destroy i | Unmap i _ | UserStore i _ _ => i = j
  | CopyTo root _ _ _ => space_from_root root s = Some j
  | _ => False
  end.

(** ** What a step leaves of a space *)

(** The private page [u] of the space [j] has the bytes and the rights that
    the page [u] of the space [i] had. *)
Record keeps_page (i j u : Z) s s' : Prop := {
  kg_private : private s' j u;
  kg_user : pte_user (pte_at s' j u) = pte_user (pte_at s i u);
  kg_no_execute : pte_no_execute (pte_at s' j u) = pte_no_execute (pte_at s i u);
  kg_grants : grants (pte_at s' j u) = grants (pte_at s i u);
  kg_content o : 0 <= o < 4096 ->
    memory s' (4096 * phys_page (pte_at s' j u) + o) = memory s (4096 * phys_page (pte_at s i u) + o)
}.

Lemma keeps_page_trans i j k u x y z : keeps_page i j u x y -> keeps_page j k u y z -> keeps_page i k u x z.
Proof.
  intros [A1 A2 A3 A4 A5] [B1 B2 B3 B4 B5]. split; [done|congruence..|]. intros o Ho. by rewrite B5, A5.
Qed.

Definition private_kept (j : Z) s s' : Prop := forall u, private s j u -> keeps_page j j u s s'.

#[global] Instance private_kept_preorder j : PreOrder (private_kept j).
Proof.
  split; [by intros s u Hu; split|]. intros x y z Hxy Hyz u Hu. eapply keeps_page_trans; [by apply Hxy|]. by apply Hyz, Hxy.
Qed.

Lemma same_pte_keeps s s' j u :
  private s j u -> pte_at s' j u = pte_at s j u ->
  (forall b, b / 4096 = phys_page (pte_at s j u) -> memory s' b = memory s b) -> keeps_page j j u s s'.
Proof.
  intros (Hs & Hp & Ho) He Hm. split; rewrite ?He; try done.
  - unfold private. by rewrite He.
  - intros o Hob. apply Hm. dmlia.
Qed.

Lemma kept_keeps X j s s' : kept X s s' -> (forall u, private s j u -> ~ X j u) -> private_kept j s s'.
Proof.
  intros [K1 K2] HX u Hu. pose proof Hu as (Hs & Hp & _). apply same_pte_keeps; [done|by apply K1, HX|].
  intros b Hb. by apply (K2 j u); [|apply HX|..].
Qed.

Lemma view_keeps j s s' : same_view s s' -> private_kept j s s'.
Proof.
  intros Hv u Hu. pose proof Hu as (Hs & Hp & _). destruct (sv_rights _ _ Hv j u Hs) as (_ & R2 & R3 & _).
  split; [by eapply private_view|done|done|by apply (sv_grants _ _ Hv)|]. intros o Ho. by apply (sv_content _ _ Hv).
Qed.

Lemma wrote_keeps i address length buffer j s s' : wrote i address length buffer s s' -> j <> i -> private_kept j s s'.
Proof.
  intros [W1 W2 W3 W4] Hj u Hu. pose proof Hu as (Hs & Hp & Ho). destruct (W2 j u Hs) as (R1 & R2 & R3 & R4). split; [|done|done|by apply W3|].
  - split_and!; [apply Hs..|congruence|]. rewrite R4; done.
  - intros o Hob. rewrite W4 by done. by rewrite (proj2 (Z.eqb_neq j i)).
Qed.

(** The memory of pages in use and the private entries stay. *)
Lemma leaf_keeps D R P l j s s' :
  inv D R P l s -> (forall u, private s j u -> pte_at s' j u = pte_at s j u) ->
  (forall b, leaf s (b / 4096) -> memory s' b = memory s b) -> private_kept j s s'.
Proof.
  intros Hi Hpte Hm u Hu. pose proof Hu as (Hs & Hp & _). apply same_pte_keeps; [done|by apply Hpte|].
  intros b Hb. apply Hm. rewrite Hb. by eapply present_leaf.
Qed.

Lemma quiet_keeps D R P l j s s' : inv D R P l s -> quiet s s' -> private_kept j s s'.
Proof. intros Hi Hq. apply (kept_keeps (fun _ _ => False)); [by eapply quiet_kept|tauto]. Qed.

Lemma shared_keeps s s' i j u :
  private s i u -> is_space j -> is_u64 (pte_at s i u) ->
  pte_at s' j u = shared (pte_at s i u) \/ pte_at s' j u = given (pte_at s i u) ->
  (forall b, b / 4096 = phys_page (pte_at s i u) -> memory s' b = memory s b) -> keeps_page i j u s s'.
Proof.
  intros (Hs & Hp & Ho) Hj H64 He Hm. unfold shared, given in He. rewrite Hp, Ho in He. cbn [andb] in He.
  assert (pte_at s' j u = share (pte_at s i u)) as He' by tauto. clear He. rename He' into He.
  destruct (share_spec _ H64) as [_ S2 S3 S4 S5 S6 S7 S8]. split; rewrite ?He; try done.
  - unfold private. rewrite He. split; [split; [done|apply Hs]|split; congruence].
  - unfold grants. rewrite S6, S7. simpl. apply orb_comm.
  - intros o Hob. rewrite S8. apply Hm. dmlia.
Qed.

(** ** The shape of the mappings *)

Lemma shaped_kept l s s' :
  inv complete none None l s' -> shaped s ->
  (forall j m, live s' j -> 0 <= m < VM64_MAPPING_MAX -> m_object (mappings (spaces s' j) m) <> None ->
     mappings (spaces s' j) m = mappings (spaces s j) m \/
     page_range (m_virtual (mappings (spaces s' j) m)) (m_length (mappings (spaces s' j) m))) -> shaped s'.
Proof.
  intros Hi Hsh Hm j m Hj Hmm Ho. destruct (Z.eq_dec (pml4 (spaces s' j)) 0) as [Hd|Hl].
  - destruct (i_dead _ _ _ _ _ Hi j Hj Hd) as (_ & _ & _ & _ & _ & Hn). by rewrite Hn in Ho.
  - destruct (Hm j m (conj Hj Hl) Hmm Ho) as [He|]; [|done]. rewrite He in Ho |- *. by apply Hsh.
Qed.

Lemma shaped_same l s s' :
  inv complete none None l s' -> shaped s -> (forall j m, mappings (spaces s' j) m = mappings (spaces s j) m) -> shaped s'.
Proof. intros Hi Hsh Hm. eapply shaped_kept; [done..|]. intros j m _ _ _. by left. Qed.

(** A step that did what it should. *)
Definition stepped_well (o : op W) (l : Z -> Z) s : Prop :=
  exists r s', run o s = Some (r, s') /\ vm_inv (loose o r s l) s' /\ forall j, ~ touches o j s -> private_kept j s s'.

(** ** The steps *)

Lemma create_well l s : vm_inv l s -> stepped_well Create l s.
Proof.
  intros [Hi Hsh]. destruct (vm64_create_space_inv text_start text_end rodata_start rodata_end none None l s Hi) as (r & i & s' & Hrun & Hi' & Hcase).
  exists r, s'. unfold run. rewrite Hrun. split; [done|]. destruct Hcase as [[_ Hq]|(_ & Hsp & Hd & Hl & Has & _ & Hm)].
  - split; [split; [done|]|].
    + eapply shaped_same; [done..|]. intros j m. by rewrite (qt_maps _ _ _ Hq).
    + intros j _. by eapply quiet_keeps.
  - split; [split; [done|]|].
    + eapply shaped_kept; [done..|]. intros j m _ Hmm Ho. destruct (Z.eq_dec j i) as [->|]; [by rewrite Hm in Ho|left]. by apply (as_maps _ _ _ Has).
    + intros j _. eapply leaf_keeps; [done| |apply (as_memory _ _ _ Has)]. intros u (Hs & _). by apply (as_pte _ _ _ Has).
Qed.

Lemma clone_well i l s : vm_inv l s -> 0 <= i -> stepped_well (Clone i) l s.
Proof.
  intros [Hi Hsh] H0. destruct (vm64_clone_space_inv text_start text_end rodata_start rodata_end none None l s i Hi H0) as (r & c & s' & Hrun & Hi' & Hcase).
  exists r, s'. unfold run. rewrite Hrun. split; [done|]. destruct Hcase as [[_ Hn]|(_ & Hl & Hc)].
  - split; [split; [done|]|].
    + eapply shaped_kept; [done..|]. intros j m [Hj Hl] _ _. left. apply (nc_maps _ _ _ Hn). split; [done|]. by rewrite <- (nc_root _ _ _ Hn).
    + intros j _ u Hu. pose proof Hu as (Hs & Hp & _). pose proof (fun b => nc_memory _ _ _ Hn j u b Hs Hp) as Hm.
      destruct (Z.eq_dec j i) as [->|Hj]; [|apply same_pte_keeps; [done|apply (nc_others _ _ _ Hn); [done|by eapply present_live|done]|done]].
      destruct (nc_source _ _ _ Hn u Hs) as [He|He]; [by apply same_pte_keeps|]. apply shared_keeps; [done|apply Hs|by eapply pte_u64|by left|done].
  - destruct (cd_fresh _ _ _ _ Hc) as (Hsp & Hd & _). split; [split; [done|]|].
    + eapply shaped_kept; [done..|]. intros j m _ Hmm Ho. destruct (Z.eq_dec j c) as [->|]; [by rewrite (cd_no_maps _ _ _ _ Hc) in Ho|left].
      by apply (cd_maps _ _ _ _ Hc).
    + intros j _ u Hu. pose proof Hu as (Hs & Hp & _). pose proof (fun b => cd_memory _ _ _ _ Hc j u b Hs Hp) as Hm.
      destruct (present_live _ _ _ _ _ _ _ Hi Hs Hp) as [_ Hlj].
      destruct (Z.eq_dec j i) as [->|Hj]; [apply shared_keeps; [done|apply Hs|by eapply pte_u64|left; by apply (cd_source _ _ _ _ Hc)|done]|].
      apply same_pte_keeps; [done|apply (cd_others _ _ _ _ Hc); [done|done|congruence]|done].
Qed.

Lemma destroy_well i l s : vm_inv l s -> 0 <= i -> stepped_well (Destroy i) l s.
Proof.
  intros [Hi Hsh] H0. destruct (vm64_destroy_space_inv complete none None l s i Hi H0) as (s' & Hrun & Hi' & Ho & Hd).
  exists 0, s'. unfold run. rewrite Hrun. split; [done|]. split; [split; [done|]|].
  - eapply shaped_kept; [done..|]. intros j m [Hj Hl] _ _. left. apply (ot_maps _ _ _ Ho). intros ->. by apply Hl, Hd.
  - intros j Hj. eapply kept_keeps; [apply (ot_kept _ _ _ Ho)|]. intros u _ He. by apply Hj.
Qed.

Lemma alloc_well l s : vm_inv l s -> stepped_well Alloc l s.
Proof.
  intros [Hi Hsh]. unfold stepped_well, run, vm64_alloc_page. destruct (alloc_page s) as [a s'] eqn:Ha. exists a, s'. split; [done|].
  destruct (alloc_page_inv _ _ _ _ _ _ _ Hi Ha) as [Ht [[-> ->]|(p & -> & Hp & [Hr Hnd] & Hi' & _ & Hpte & Hm)]]; simpl; [done|].
  rewrite (proj2 (Z.eqb_neq _ 0)) by lia. replace (4096 * p / 4096) with p by dmlia. split; [split; [done|]|].
  - eapply shaped_same; [done..|]. intros j m. by rewrite (st_spaces _ _ Ht).
  - intros j _. apply (leaf_keeps complete none None l); [done|intros u (Hs & _); by apply Hpte|]. intros b [Hb _]. rewrite Hm.
    destruct (Z.eqb_spec (b / 4096) p) as [He|]; [|done]. rewrite He in Hb. by destruct Hb.
Qed.

Lemma free_well p l s : vm_inv l s -> allowed (Free p) l s -> stepped_well (Free p) l s.
Proof.
  intros [Hi Hsh] [Hp Hl]. destruct (free_page_inv _ _ _ _ s p Hi Hl Hp) as (s' & Hf & Ht & Hi' & _ & Hpte & Hm).
  destruct (loose_not_table _ _ _ _ _ (i_core _ _ _ _ _ Hi) Hl) as [Hnt Hh]. pose proof (c_count _ _ _ _ (i_core _ _ _ _ _ Hi) p Hnt Hh) as Hn. simpl in Hn.
  exists 0, s'. unfold run. rewrite vm64_free_page_refs, Hf by lia. split; [done|]. split; [split; [done|]|].
  - eapply shaped_same; [done..|]. intros j m. by rewrite (st_spaces _ _ Ht).
  - intros j _. apply (leaf_keeps complete none None l); [done|intros u (Hs & _); by apply Hpte|done].
Qed.

(** Pages that running code alone refers to are nobody's private pages. *)
Lemma loose_private D R P l s p j u :
  inv D R P l s -> 0 < l p -> Pmm.page_refs (mm s) p = 1 -> private s j u -> phys_page (pte_at s j u) <> p.
Proof.
  intros Hi Hl Hr (Hs & Hp & Ho) He. destruct (owned_page _ _ _ _ _ _ _ Hi Hs Hp Ho) as (_ & Hin & _ & _ & Hn & _). rewrite He in *.
  pose proof (owner_size _ _ _ _ Hin). lia.
Qed.

Lemma fill_well p o b l s : vm_inv l s -> allowed (Fill p o b) l s -> stepped_well (Fill p o b) l s.
Proof.
  intros [Hi Hsh] (Hp & Hl & Hr & Ho & Hb). destruct (loose_not_table _ _ _ _ _ (i_core _ _ _ _ _ Hi) Hl) as [Hnt _].
  assert (forall a, a / 4096 <> p -> upd (memory s) (4096 * p + o) b a = memory s a) as Hout.
  { intros a Ha. apply upd_ne. intros ->. apply Ha. dmlia. }
  destruct (set_memory_inv complete none None l s (upd (memory s) (4096 * p + o) b) Hi) as [Hi' Hpte].
  { intros a. unfold upd. destruct (a =? _); [done|apply (i_bytes _ _ _ _ _ Hi)]. }
  { intros q a Hq Ha. apply Hout. by intros <-; rewrite Ha in Hnt. }
  eexists 0, _. split; [done|]. split; [split; [done|by eapply shaped_same]|].
  intros j _ u Hu. pose proof Hu as (Hs & _). apply same_pte_keeps; [done|by apply Hpte|]. intros a Ha.
  apply Hout. rewrite Ha. by eapply loose_private.
Qed.

Lemma map_well i a p wr ex l s : vm_inv l s -> allowed (Map i a p wr ex) l s -> stepped_well (Map i a p wr ex) l s.
Proof.
  intros [Hi Hsh] (H0 & Hp & Hl & Hr). unfold stepped_well, run. destruct (vm64_map i a (4096 * p) wr ex s) as [r s'] eqn:Hrun.
  exists r, s'. split; [done|]. destruct (vm64_map_inv _ _ _ _ _ _ _ _ _ _ _ _ Hi H0 Hp Hl Hr Hrun) as [(Hnz & Hi' & Hq)|(-> & [Hsp Hlv] & Hu & _ & Habs & Hi' & Hq)]; simpl.
  - rewrite (proj2 (Z.eqb_neq r 0)) by done. split; [split; [done|]|intros j _; by eapply quiet_keeps].
    eapply shaped_same; [done..|]. intros j m. by rewrite (qt_maps _ _ _ Hq).
  - split; [split; [done|]|].
    + eapply shaped_same; [done..|]. intros j m. by rewrite (qt_maps _ _ _ Hq).
    + intros j _. eapply leaf_keeps; [done| |apply (qt_memory _ _ _ Hq)]. intros u (Hs & Hpr & _). rewrite (qt_pte _ _ _ Hq) by done.
      destruct (Z.eqb_spec j i) as [->|], (Z.eqb_spec u (vpn a)) as [->|]; try done. by rewrite Habs in Hpr.
Qed.

Lemma spaces_shaped l s s' : inv complete none None l s' -> shaped s -> same_spaces s s' -> shaped s'.
Proof. intros Hi Hsh Hs. eapply shaped_same; [done..|]. intros j m. by rewrite (ss_maps _ _ Hs). Qed.

Lemma unmap_well i a l s : vm_inv l s -> 0 <= i -> stepped_well (Unmap i a) l s.
Proof.
  intros [Hi Hsh] H0. destruct (vm64_unmap_inv _ _ _ _ s i a Hi H0) as (r & s' & Hrun & Hi' & Hcase). exists r, s'. split; [done|].
  destruct Hcase as [[_ ->]|(_ & _ & _ & _ & _ & _ & Hk & Hs)]; [done|]. split; [split; [done|by eapply spaces_shaped]|].
  intros j Hj. eapply kept_keeps; [done|]. intros u _ [-> _]. by apply Hj.
Qed.

Lemma cow_well i a l s : vm_inv l s -> 0 <= i -> stepped_well (HandleCow i a) l s.
Proof.
  intros [Hi Hsh] H0. destruct (vm64_handle_cow_inv _ _ _ _ s i a Hi H0) as (r & s' & Hrun & Hi' & Hcase). exists r, s'. split; [done|].
  destruct Hcase as [[_ ->]|(_ & _ & _ & Hb)]; [done|]. split; [split; [done|eapply spaces_shaped; [done..|apply Hb]]|].
  intros j _. apply view_keeps. by eapply broken_view.
Qed.

Lemma access_well root a n w l s : vm_inv l s -> 0 <= n -> stepped_well (UserAccess root a n w) l s.
Proof.
  intros [Hi Hsh] H0. destruct (vm64_user_access_inv _ _ _ _ s root a n w Hi H0) as (r & s' & Hrun & Hi' & Hv & _). exists r, s'. split; [done|].
  split; [split; [done|eapply spaces_shaped; [done..|apply Hv]]|]. intros j _. by apply view_keeps.
Qed.

Lemma copy_to_well root a n b l s : vm_inv l s -> allowed (CopyTo root a n b) l s -> stepped_well (CopyTo root a n b) l s.
Proof.
  intros [Hi Hsh] [H0 Hb]. destruct (vm64_copy_to_inv _ _ _ _ s root a n b Hi H0 Hb) as (r & s' & Hrun & Hi' & Hcase). exists r, s'. split; [done|].
  destruct Hcase as [(_ & Hv & _)|(_ & i & _ & Hroot & _ & Hw)].
  - split; [split; [done|eapply spaces_shaped; [done..|apply Hv]]|]. intros j _. by apply view_keeps.
  - split; [split; [done|eapply spaces_shaped; [done..|apply Hw]]|]. intros j Hj. eapply wrote_keeps; [done|]. intros ->. by apply Hj.
Qed.

Lemma copy_from_well root a n b l s : vm_inv l s -> 0 <= n -> stepped_well (CopyFrom root a n b) l s.
Proof.
  intros [Hi Hsh] H0. destruct (vm64_copy_from_inv _ _ _ _ s root a n b Hi H0) as (r & b' & s' & Hrun & Hi' & Hv & _). exists r, s'.
  unfold run. rewrite Hrun. split; [done|]. split; [split; [done|eapply spaces_shaped; [done..|apply Hv]]|]. intros j _. by apply view_keeps.
Qed.

Lemma store_well i a b l s : vm_inv l s -> allowed (UserStore i a b) l s -> stepped_well (UserStore i a b) l s.
Proof.
  intros [Hi Hsh] (Hl & Ha & Hb). pose proof (user_store_inv _ _ _ _ s i a b Hi ltac:(tauto) Hl Ha Hb) as Hst. unfold stepped_well, run.
  destruct (user_store i a b s) as [r s']. exists r, s'. split; [done|]. destruct Hst as [Hi' [(_ & -> & _)|(_ & _ & _ & Hw)]]; [done|].
  split; [split; [done|eapply spaces_shaped; [done..|apply Hw]]|]. intros j Hj. eapply wrote_keeps; [done|]. intros ->. by apply Hj.
Qed.

Lemma users_well l' s s' : inv complete none None l' s' -> shaped s -> same_users s s' ->
  vm_inv l' s' /\ forall j, private_kept j s s'.
Proof.
  intros Hi Hsh Hu. split; [split; [done|eapply shaped_same; [done..|apply Hu]]|]. intros j. eapply kept_keeps; [apply Hu|tauto].
Qed.

Lemma installed_well l s s' i o virtual N flags phys m :
  inv complete none None l s -> inv complete none None l s' -> shaped s ->
  installed i o virtual N flags phys m s s' -> vm_inv l s' /\ forall j, private_kept j s s'.
Proof.
  intros Hi Hi' Hsh Hin. split; [split; [done|]|].
  - eapply shaped_kept; [done..|]. intros j m' _ _ _. rewrite (in_maps _ _ _ _ _ _ _ _ _ Hin). destruct (_ && _); [right|by left].
    apply (in_range _ _ _ _ _ _ _ _ _ Hin).
  - intros j. eapply leaf_keeps; [done| |apply (in_memory _ _ _ _ _ _ _ _ _ Hin)]. intros u (Hs & Hp & _).
    rewrite (in_pte _ _ _ _ _ _ _ _ _ Hin) by done. unfold range_ptes. destruct (Z.eqb_spec j i) as [->|], (Z.leb_spec (vpn virtual) u), (Z.ltb_spec u (vpn virtual + N)); try done.
    by rewrite (in_absent _ _ _ _ _ _ _ _ _ Hin) in Hp.
Qed.

Lemma map_object_well i v o ph n wr mode l s :
  vm_inv l s -> allowed (MapObject i v o ph n wr mode) l s -> stepped_well (MapObject i v o ph n wr mode) l s.
Proof.
  intros [Hi Hsh] (H0 & Hn & Hb). destruct (vm64_map_object_inv _ _ _ s i v o ph n wr mode Hi H0 Hn Hb) as (r & s' & Hrun & Hi' & Hcase).
  exists r, s'. split; [done|]. destruct Hcase as [[_ Hu]|(_ & _ & m & _ & _ & _ & Hin)].
  - destruct (users_well _ _ _ Hi' Hsh Hu) as [? Hk]. split; [done|]. intros j _. apply Hk.
  - destruct (installed_well _ _ _ _ _ _ _ _ _ _ Hi Hi' Hsh Hin) as [? Hk]. split; [done|]. intros j _. apply Hk.
Qed.

Lemma map_page_object_well i v o wr l s : vm_inv l s -> 0 <= i -> stepped_well (MapPageObject i v o wr) l s.
Proof.
  intros [Hi Hsh] H0. destruct (vm64_map_page_object_inv _ _ _ s i v o wr Hi H0) as (r & s' & Hrun & Hi' & Hcase).
  exists r, s'. split; [done|]. destruct Hcase as [[_ Hu]|(_ & _ & m & x & _ & _ & _ & _ & Hin)].
  - destruct (users_well _ _ _ Hi' Hsh Hu) as [? Hk]. split; [done|]. intros j _. apply Hk.
  - destruct (installed_well _ _ _ _ _ _ _ _ _ _ Hi Hi' Hsh Hin) as [? Hk]. split; [done|]. intros j _. apply Hk.
Qed.

(** Private pages are not in the range of a mapping. *)
Lemma private_uncovered l s j u m :
  inv complete none None l s -> private s j u -> 0 <= m < VM64_MAPPING_MAX ->
  m_object (mappings (spaces s j) m) <> None -> ~ covers (mappings (spaces s j) m) u.
Proof.
  intros Hi (Hs & Hp & Ho) Hm Hmo Hc. destruct (c_range _ _ _ _ (i_core _ _ _ _ _ Hi) j m u Hs Hm Hmo ltac:(tauto) Hc) as [_ Hx]. simpl in Hx. congruence.
Qed.

Lemma unmap_object_well i v n l s : vm_inv l s -> 0 <= i -> stepped_well (UnmapObject i v n) l s.
Proof.
  intros [Hi Hsh] H0. destruct (vm64_unmap_object_inv _ _ _ s i v n Hi Hsh H0) as (r & s' & Hrun & Hi' & Hcase). exists r, s'. split; [done|].
  destruct Hcase as [(_ & -> & _)|(_ & Hl & m & Hm & Hmatch & _ & Hun)]; [done|]. split; [split; [done|]|].
  - eapply shaped_kept; [done..|]. intros j m' _ _. rewrite (um_maps _ _ _ _ Hun). destruct (_ && _); [done|by left].
  - intros j _. eapply leaf_keeps; [done| |apply (um_memory _ _ _ _ Hun)]. intros u Hu. rewrite (um_pte _ _ _ _ Hun) by apply Hu.
    case_bool_decide as Hc; [|done]. destruct Hc as [-> Hc]. exfalso. revert Hc. eapply private_uncovered; [done..|].
    unfold mapping_matches in Hmatch. by destruct (m_object (mappings (spaces s i) m)).
Qed.

Lemma revokes_well l s s' hit :
  inv complete none None l s -> inv complete none None l s' -> shaped s' -> revokes hit s s' ->
  (forall j m, hit j m = true -> 0 <= m < VM64_MAPPING_MAX /\ m_object (mappings (spaces s j) m) <> None) ->
  vm_inv l s' /\ forall j, private_kept j s s'.
Proof.
  intros Hi Hi' Hsh Hr Hhit. split; [by split|]. intros j u Hu. pose proof Hu as (Hs & Hp & _).
  assert (pte_at s' j u = pte_at s j u) as He.
  { apply (rv_stay _ _ _ Hr); [done|]. intros m Hm. destruct (Hhit j m Hm). by eapply private_uncovered. }
  apply same_pte_keeps; [done|done|]. intros b Hb. apply (rv_memory _ _ _ Hr j u); congruence.
Qed.

Lemma revoke_objects_well i objects l s : vm_inv l s -> 0 <= i -> stepped_well (RevokeObjects i objects) l s.
Proof.
  intros [Hi Hsh] H0. destruct (vm64_revoke_objects_inv _ _ _ s i objects Hi Hsh H0) as (r & s' & Hrun & Hi' & Hsh' & _ & Hr). exists r, s'. split; [done|].
  destruct (revokes_well _ _ _ _ Hi Hi' Hsh' Hr) as [? Hk]; [|split; [done|]; intros j _; apply Hk].
  intros j m [Hb Hw]%andb_true_iff. apply bool_decide_eq_true in Hb as (_ & _ & Hm). split; [done|]. unfold wanted in Hw. by destruct (m_object _).
Qed.

Lemma revoke_all_well o l s : vm_inv l s -> stepped_well (RevokeObjectAll o) l s.
Proof.
  intros [Hi Hsh]. destruct (vm64_revoke_object_all_inv _ _ _ s o Hi Hsh) as (s' & Hrun & Hi' & Hsh' & Hr). exists 0, s'. split; [done|].
  destruct (revokes_well _ _ _ _ Hi Hi' Hsh' Hr) as [? Hk]; [|split; [done|]; intros j _; apply Hk].
  intros j m [Hb Hw]%andb_true_iff. apply bool_decide_eq_true in Hb as (_ & Hm). split; [done|]. unfold wanted in Hw. by destruct (m_object _).
Qed.

Lemma quiet_well l s s' : inv complete none None l s -> inv complete none None l s' -> shaped s -> quiet s s' ->
  vm_inv l s' /\ forall j, private_kept j s s'.
Proof. intros Hi Hi' Hsh Hq. apply users_well; [done..|]. by eapply quiet_users. Qed.

Lemma ioremap_well p n mode l s : vm_inv l s -> allowed (Ioremap p n mode) l s -> stepped_well (Ioremap p n mode) l s.
Proof.
  intros [Hi Hsh] [Hp Hn]. destruct (vm64_ioremap_inv _ _ _ _ s p n mode Hi ltac:(tauto) Hp Hn) as (r & s' & Hrun & Hi' & Hq & _).
  exists r, s'. unfold run. rewrite Hrun. split; [done|]. destruct (quiet_well _ _ _ Hi Hi' Hsh Hq) as [? Hk]. split; [done|]. intros j _. apply Hk.
Qed.

Lemma iounmap_well a n l s : vm_inv l s -> 0 <= n -> stepped_well (Iounmap a n) l s.
Proof.
  intros [Hi Hsh] Hn. destruct (vm64_iounmap_inv _ _ _ _ s a n Hi ltac:(tauto) Hn) as (r & s' & Hrun & Hi' & Hq & _).
  exists r, s'. unfold run. rewrite Hrun. split; [done|]. destruct (quiet_well _ _ _ Hi Hi' Hsh Hq) as [? Hk]. split; [done|]. intros j _. apply Hk.
Qed.

Lemma retain_well o l s : vm_inv l s -> stepped_well (Retain o) l s.
Proof.
  intros [Hi Hsh]. unfold stepped_well, run. destruct (object_retain o (rest s)) as [r w] eqn:Hret.
  destruct (object_retain_inv _ _ _ s o r w Hi Hret) as (Hi' & Hu & _). exists r, (set_rest w s). split; [done|].
  destruct (users_well _ _ _ Hi' Hsh Hu) as [? Hk]. split; [done|]. intros j _. apply Hk.
Qed.

Lemma release_well o l s : vm_inv l s -> spare o s -> stepped_well (Release o) l s.
Proof.
  intros [Hi Hsh] Hsp. destruct (object_release_inv _ _ _ s o Hi Hsp) as (s' & Hrun & Hi' & Hu). exists 0, s'. unfold run. rewrite Hrun. split; [done|].
  destruct (users_well _ _ _ Hi' Hsh Hu) as [? Hk]. split; [done|]. intros j _. apply Hk.
Qed.

(** Pages handed to objects. *)
Lemma adopt_well w l s : vm_inv l s -> adopts l s w -> stepped_well (Adopt w) l s.
Proof.
  intros [Hi Hsh] [A1 A2 A3]. pose proof (i_core _ _ _ _ _ Hi) as Hc. pose proof Hc as [C1 C2 C3 C4 C5 C6 C7 C8 C9 C10 C11 C12].
  set (l' := loose (Adopt w) 0 s l).
  assert (core none None l' (Abs _ (role_addr s) (pte_at s) (Pmm.page_refs (mm s)) (fun i m => mappings (spaces s i) m) w)) as Hc'.
  { assert (forall p, l' p = l p /\ held w p = held (rest s) p \/
      l' p = 0 /\ held w p = l p /\ 0 < l p /\ held (rest s) p = 0 /\ Pmm.page_refs (mm s) p = l p) as Hp.
    { intros p. unfold l', loose. destruct (A1 p) as [He|(H1 & H2 & H3 & H4)]; [by rewrite He, Z.eqb_refl; left|right].
      rewrite (proj2 (Z.eqb_neq _ _)) by lia. done. }
    split; simpl; try assumption.
    - intros p Ht. destruct (C3 p Ht) as (H1 & H2 & H3 & H4). simpl in H3. destruct (Hp p) as [(-> & ->)|(_ & _ & ? & _)]; [done|lia].
    - intros p Hh. destruct (Hp p) as [(-> & He)|(-> & -> & H1 & H2 & H3)]; [rewrite He in Hh |- *; by apply C4|].
      split_and!; [done| |done]. destruct (loose_not_table _ _ _ _ p Hc H1) as [Hnt _]. pose proof (C5 p Hnt H2) as Hn. simpl in Hn.
      assert (owners (abs_of s) p = ∅) as Ho by (apply gset_size_zero; lia). exact Ho.
    - intros p Hnt Hh. destruct (Hp p) as [(-> & He)|(_ & He & ? & _)]; [|lia]. apply C5; [done|]. simpl. by rewrite <- He.
    - intros p. destruct (Hp p) as [(-> & _)|(-> & _)]; [apply C6|done].
    - intros i v Hs H1 H2. destruct (C9 i v Hs H1 H2) as (e & o & Hm & He & Hv & Hb). exists e, o. split_and!; [done|done|done..|].
      apply A3; [|done]. exact (mapped_pinned none None l _ i e o Hc (proj1 Hs) Hm He).
    - intros o. etrans; [exact (C10 o)|apply A2]. }
  assert (inv complete none None l' (set_rest w s) /\ (forall j u, is_slot j u -> pte_at (set_rest w s) j u = pte_at s j u) /\ (forall b, memory (set_rest w s) b = memory s b)) as (Hi' & Hpte & Hm).
  { split; [|done]. destruct Hi as [I1 I2 I3 I4 I5 I6 I7 I8]. split; try done.
    - intros i Hsp Hn Hl. destruct (I7 i Hsp Hn Hl) as [U1 U2 U3]. by split.
    - intros Hn. destruct (I8 Hn) as [K1 K2 K3 K4]. by split. }
  exists 0, (set_rest w s). split; [done|]. split; [split; [done|by eapply shaped_same]|].
  intros j _ u Hu. by apply same_pte_keeps; [|apply Hpte, Hu|].
Qed.

(** Every step of a caller that keeps its obligations. *)
Lemma step_well o l s : vm_inv l s -> allowed o l s -> stepped_well o l s.
Proof.
  destruct o; simpl; eauto using create_well, clone_well, destroy_well, alloc_well, free_well, fill_well, map_well, unmap_well, cow_well,
    access_well, copy_to_well, copy_from_well, store_well, map_object_well, map_page_object_well, unmap_object_well, revoke_objects_well,
    revoke_all_well, ioremap_well, iounmap_well, retain_well, release_well, adopt_well.
Qed.

End System.
End VmSystem.
