(* ===== verification/VmTheorems.v ===== *)
(** * Properties of the address spaces

    The theorems about [vm.c] in every state that boot and the steps of
    VmSystem reach, and a small world of device objects in which they are
    applied. *)

From stdpp Require Import gmap.
From S2P Require Import Prelude Pmm Vm VmInv VmOps VmUser VmAccess VmSpaces VmDestroy VmClone VmMappings VmRevoke VmKernel VmInit VmWalk VmCopy VmSystem.

Open Scope Z_scope.

Module VmTheorems.
Import Vm VmInv VmOps VmUser VmAccess VmSpaces VmDestroy VmClone VmMappings VmRevoke VmKernel VmInit VmWalk VmCopy VmSystem.

(** ** Reachable states *)

Section Reachable.
Context {W : Type} {VM : VmModules W} {VO : VmObjects W} {VL : VmLaws W}.
Context (text_start text_end rodata_start rodata_end : Z).
Implicit Types (s : vm W).

Local Abbreviation run := (run text_start text_end rodata_start rodata_end).
Local Abbreviation none := (fun _ _ : Z => False).
Local Abbreviation complete := (fun _ : Z => False).

(** The states of a kernel that has booted, with the references that its
    running code holds. *)
Inductive reachable : (Z -> Z) -> vm W -> Prop :=
  | reach_init s0 s : boot s0 -> vm64_init true s0 = Some (0, s) -> reachable (Pmm.page_refs (mm s0)) s
  | reach_step l s o r s' : reachable l s -> allowed o l s -> run o s = Some (r, s') -> reachable (loose o r s l) s'.

Lemma reachable_vm_inv l s : reachable l s -> vm_inv l s.
Proof.
  induction 1 as [s0 s Hb Hrun|l s o r s' _ IH Hok Hrun].
  - destruct (vm64_init_inv true s0 Hb) as (r & s' & Hrun' & Hcase). rewrite Hrun in Hrun'. injection Hrun' as <- <-.
    destruct Hcase as [(_ & _ & Hi & Hn & _)|[? _]]; [|done]. split; [done|]. intros i m Hi' Hm Ho.
    destruct (i_dead _ _ _ _ _ Hi i Hi' (Hn i Hi')) as (_ & _ & _ & _ & _ & Hd). by rewrite Hd in Ho.
  - destruct (step_well text_start text_end rodata_start rodata_end o l s IH Hok) as (r' & s1 & Hrun' & Hi & _).
    rewrite Hrun in Hrun'. by injection Hrun' as <- <-.
Qed.

Lemma init_no_space s0 s : boot s0 -> vm64_init true s0 = Some (0, s) -> no_space s.
Proof.
  intros Hb Hrun. destruct (vm64_init_inv true s0 Hb) as (r & s' & Hrun' & Hcase). rewrite Hrun in Hrun'. injection Hrun' as <- <-.
  destruct Hcase as [(_ & _ & _ & Hn & _)|[? _]]; done.
Qed.

(** A step that is not for the space [j]. *)
Definition others_step (j : Z) (c c' : (Z -> Z) * vm W) : Prop :=
  exists o r, allowed o (fst c) (snd c) /\ ~ touches o j (snd c) /\ run o (snd c) = Some (r, snd c') /\
    fst c' = loose o r (snd c) (fst c).

Lemma others_steps_keep j c c' :
  rtc (others_step j) c c' -> vm_inv (fst c) (snd c) -> private_kept j (snd c) (snd c').
Proof.
  induction 1 as [c|c c1 c2 (o & r & Hok & Ht & Hrun & Hl) _ IH]; intros Hi; [reflexivity|].
  destruct (step_well text_start text_end rodata_start rodata_end o _ _ Hi Hok) as (r' & s1 & Hrun' & Hi' & Hk).
  rewrite Hrun in Hrun'. injection Hrun' as <- <-. etrans; [by apply Hk|]. apply IH. by rewrite Hl.
Qed.

(** What the walk of a user can reach. *)
Lemma walk_reaches l s i a w pa :
  vm_inv l s -> live s i -> 0 <= a < 2 ^ 64 -> user_walk (memory s) (pml4 (spaces s i)) a w = Some pa ->
  user_addr a /\ accessible s i a w /\ pa / 4096 = phys_page (pte_at s i (vpn a)) /\ pa mod 4096 = a mod 4096 /\ is_slot i (vpn a).
Proof.
  intros [Hi _] Hl Ha. rewrite (user_walk_spec complete none None l s i a w Hi ltac:(tauto) Hl Ha).
  destruct (decide _) as [[Hu Hacc]|]; [|done]. intros [= <-]. unfold translate. split; [done|]. split; [done|].
  split; [dmlia|]. split; [dmlia|]. by apply vpn_slot; [apply Hl|].
Qed.

(** The page of a walk: private to the space, or an object's that it maps. *)
Lemma walk_page l s i a w pa :
  vm_inv l s -> live s i -> 0 <= a < 2 ^ 64 -> user_walk (memory s) (pml4 (spaces s i)) a w = Some pa ->
  private s i (vpn a) \/
  exists m o, 0 <= m < VM64_MAPPING_MAX /\ m_object (mappings (spaces s i) m) = Some o /\
    covers (mappings (spaces s i) m) (vpn a) /\ backs (rest s) o (pa / 4096).
Proof.
  intros Hv Hl Ha Hw. destruct (walk_reaches l s i a w pa Hv Hl Ha Hw) as (_ & (Hp & _) & Hpa & _ & Hs). destruct Hv as [Hi _].
  destruct (pte_owned (pte_at s i (vpn a))) eqn:Ho; [by left|right].
  destruct (c_foreign _ _ _ _ (i_core _ _ _ _ _ Hi) i (vpn a) Hs Hp Ho) as (e & o & [(m & Hm & He)|?] & Hmo & Hc & Hb); [|done].
  simpl in He. subst e. exists m, o. rewrite Hpa. done.
Qed.

(** ** Safety *)

(** C10: In every state that boot and any sequence of steps reach (creation,
    cloning and destruction of spaces, mappings of pages and of objects,
    copy-on-write faults, transfers to and from user memory, stores of user
    code, revocations, device windows), the invariant of the address spaces
    holds, and no operation whose caller keeps its obligations panics. *)
Theorem vm_reachable_inv l s :
  reachable l s ->
  vm_inv l s /\ forall o, allowed o l s -> exists r s', run o s = Some (r, s').
Proof.
  intros Hr. pose proof (reachable_vm_inv l s Hr) as Hi. split; [done|]. intros o Hok.
  destruct (step_well text_start text_end rodata_start rodata_end o l s Hi Hok) as (r & s' & Hrun & _). by exists r, s'.
Qed.

(** C1: The processor's walk of the tables, done from the bytes of memory,
    takes user code to a page only at a user address.  The page is never one
    of the tables.  It is a page of the space's own, in use and not an
    object's, and when the access is a write no other address of any space
    leads to it; or it is a page of an object that the space maps there. *)
Theorem vm_user_confined l s i a w pa :
  reachable l s -> live s i -> 0 <= a < 2 ^ 64 -> user_walk (memory s) (pml4 (spaces s i)) a w = Some pa ->
  user_addr a /\ pa mod 4096 = a mod 4096 /\ ~ is_table (abs_of s) (pa / 4096) /\
  ((private s i (vpn a) /\ 1 <= Pmm.page_refs (mm s) (pa / 4096) /\ held (rest s) (pa / 4096) = 0 /\
    (w = true -> forall j b w' pb, live s j -> 0 <= b < 2 ^ 64 -> user_walk (memory s) (pml4 (spaces s j)) b w' = Some pb ->
       pb / 4096 = pa / 4096 -> j = i /\ vpn b = vpn a)) \/
   exists m o, 0 <= m < VM64_MAPPING_MAX /\ m_object (mappings (spaces s i) m) = Some o /\
     covers (mappings (spaces s i) m) (vpn a) /\ backs (rest s) o (pa / 4096)).
Proof.
  intros Hr Hl Ha Hw. pose proof (reachable_vm_inv l s Hr) as Hv. pose proof Hv as [Hi _].
  destruct (walk_reaches l s i a w pa Hv Hl Ha Hw) as (Hu & (Hp & _ & Hwr) & Hpa & Hm & Hs).
  split; [done|]. split; [done|]. split; [rewrite Hpa; by apply (present_leaf _ _ _ _ _ _ _ Hi Hs Hp)|].
  destruct (walk_page l s i a w pa Hv Hl Ha Hw) as [Hpr|]; [left|by right].
  destruct (owned_page _ _ _ _ _ _ _ Hi Hs Hp (proj2 (proj2 Hpr))) as (_ & _ & _ & Hh & _ & Hrf). rewrite Hpa.
  split; [done|]. split; [done|]. split; [done|]. intros ->. intros j b w' pb Hlj Hb Hwb He.
  destruct (walk_reaches l s j b w' pb Hv Hlj Hb Hwb) as (_ & (Hpb & _) & Hpab & _ & Hsb). rewrite Hpab in He.
  destruct (pte_owned (pte_at s j (vpn b))) eqn:Hob; [|by destruct (foreign_disjoint _ _ _ _ s j (vpn b) i (vpn a) Hi Hsb Hpb Hob Hpr)].
  destruct (slot_unique _ _ _ _ s i (vpn a) j (vpn b) Hi Hs Hp (Hwr eq_refl) ltac:(done) ltac:(done)) as [-> ->]. done.
Qed.

(** C8: Whatever other spaces, the kernel and user code do, the private pages
    of a space keep their bytes and its rights to them, until a step for that
    space unmaps them, writes them or destroys it. *)
Theorem vm_isolation l s j l' s' :
  reachable l s -> rtc (others_step j) (l, s) (l', s') -> private_kept j s s'.
Proof. intros Hr Hs. exact (others_steps_keep j _ _ Hs (reachable_vm_inv l s Hr)). Qed.

(** C9: A clone of a space has the source's private pages as they were at the
    call and nothing else, and keeps them so through any later steps that are
    not its own, those of the source included.  The source keeps its pages,
    whether the clone could be made or not. *)
Theorem vm_fork_snapshot l s i :
  reachable l s -> live s i ->
  exists r c s', vm64_clone_space text_start text_end rodata_start rodata_end i s = Some (r, c, s') /\ private_kept i s s' /\
    (r = 0 ->
     live s' c /\ pml4 (spaces s c) = 0 /\
     (forall u, is_slot c u -> pte_present (pte_at s' c u) = true -> private s i u) /\
     forall l2 s2, rtc (others_step c) (l, s') (l2, s2) -> forall u, private s i u -> keeps_page i c u s s2).
Proof.
  intros Hr Hl. pose proof (reachable_vm_inv l s Hr) as Hv. pose proof Hv as [Hi Hsh].
  assert (0 <= i) as H0 by (destruct Hl as [Hl _]; unfold is_space in Hl; lia).
  destruct (clone_well text_start text_end rodata_start rodata_end i l s Hv H0) as (r0 & s0 & Hrun0 & Hv' & Hk).
  destruct (vm64_clone_space_inv text_start text_end rodata_start rodata_end none None l s i Hi H0) as (r & c & s' & Hrun & Hi' & Hcase).
  unfold VmSystem.run in Hrun0. rewrite Hrun in Hrun0. injection Hrun0 as <- <-. exists r, c, s'. split; [done|]. split; [apply Hk; tauto|].
  intros ->. destruct Hcase as [[? _]|(_ & _ & Hc)]; [done|]. destruct (cd_fresh _ _ _ _ Hc) as (Hsp & Hd & Hlc). split; [done|]. split; [done|].
  assert (forall u, is_slot c u -> is_slot i u) as Hslot by (intros u [_ Hu]; split; [apply Hl|done]). split.
  - intros u Hu Hp. rewrite (cd_copy _ _ _ _ Hc u (Hslot u Hu)) in Hp. unfold given in Hp.
    destruct (pte_present (pte_at s i u)) eqn:H1, (pte_owned (pte_at s i u)) eqn:H2; try done. split; [by apply Hslot|done].
  - intros l2 s2 Hs2 u Hu. pose proof Hu as (Hs & Hp & _).
    assert (keeps_page i c u s s') as Hk1.
    { apply shared_keeps; [done|done|by eapply pte_u64|right; by apply (cd_copy _ _ _ _ Hc)|]. intros b. by apply (cd_memory _ _ _ _ Hc i u). }
    eapply keeps_page_trans; [done|]. apply (others_steps_keep c _ _ Hs2 Hv'). apply Hk1.
Qed.

(** C25: After [vm64_revoke_object_all] no space has a mapping of the object,
    and the walk takes user code to no page of the object: every page it
    reaches is the space's own or one of another object that it maps. *)
Theorem vm_revoke_complete l s o :
  reachable l s ->
  exists s', vm64_revoke_object_all o s = Some (0, s') /\ (forall j, private_kept j s s') /\
    (forall j m, is_space j -> 0 <= m < VM64_MAPPING_MAX -> m_object (mappings (spaces s' j) m) <> Some o) /\
    forall j a w pa, live s' j -> 0 <= a < 2 ^ 64 -> user_walk (memory s') (pml4 (spaces s' j)) a w = Some pa ->
      private s' j (vpn a) \/ exists o' m, o' <> o /\ m_object (mappings (spaces s' j) m) = Some o' /\ backs (rest s') o' (pa / 4096).
Proof.
  intros Hr. pose proof (reachable_vm_inv l s Hr) as Hv. pose proof Hv as [Hi Hsh].
  destruct (revoke_all_well text_start text_end rodata_start rodata_end o l s Hv) as (r0 & s0 & Hrun0 & Hv' & Hk).
  destruct (vm64_revoke_object_all_inv _ _ _ s o Hi Hsh) as (s' & Hrun & _ & _ & Hrv).
  unfold VmSystem.run in Hrun0. rewrite Hrun in Hrun0. injection Hrun0 as <- <-. exists s'. split; [done|]. split; [intros j; apply Hk; tauto|].
  assert (forall j m, is_space j -> 0 <= m < VM64_MAPPING_MAX -> m_object (mappings (spaces s' j) m) <> Some o) as Hno.
  { intros j m Hj Hm. rewrite (rv_maps _ _ _ Hrv). destruct (all_of o s VM64_MAX_SPACES j m) eqn:Hall; [done|]. intros Ho.
    unfold all_of, wanted in Hall. rewrite Ho, !bool_decide_true in Hall; [done|by left|done]. }
  split; [done|]. intros j a w pa Hl Ha Hw. destruct (walk_page l s' j a w pa Hv' Hl Ha Hw) as [|(m & o' & Hm & Ho & _ & Hb)]; [by left|right].
  exists o', m. split_and!; [|done|done]. intros ->. by apply (Hno j m (proj1 Hl) Hm).
Qed.

(** A page of the tables of the kernel's window. *)
Definition window_table s (p : Z) : Prop :=
  p <> 0 /\ (kernel_mmio_pdpt s = 4096 * p \/ kernel_mmio_pd s = 4096 * p \/
             exists k, 0 <= k < KERNEL_MMIO_PTS /\ kernel_mmio_pts s k = 4096 * p).

Lemma exists_range_dec (Q : Z -> Prop) n : (forall k, Decision (Q k)) -> Decision (exists k, 0 <= k < n /\ Q k).
Proof.
  intros HQ. destruct (decide (Exists Q (seqZ 0 n))) as [He|He]; rewrite Exists_exists in He; [left|right].
  - destruct He as (k & Hk%elem_of_seqZ & Hq). exists k. split; [lia|done].
  - intros (k & Hk & Hq). apply He. exists k. split; [apply elem_of_seqZ; lia|done].
Defined.

#[global] Instance window_table_dec s p : Decision (window_table s p).
Proof.
  unfold window_table. apply and_dec; [apply _|]. apply or_dec; [apply _|]. apply or_dec; [apply _|].
  apply (exists_range_dec (fun k => kernel_mmio_pts s k = 4096 * p)); apply _.
Defined.

Lemma no_space_table l s p : inv complete none None l s -> no_space s -> is_table (abs_of s) p <-> window_table s p.
Proof.
  intros Hi Hn. split.
  - intros (r & Hr & Ha & Hnz). simpl in Ha, Hnz. split; [lia|]. destruct r as [i|i|i|i|i|i k| | |k]; simpl in *; [..|tauto|tauto|right; right; by exists k].
    all: try (destruct (i_dead _ _ _ _ _ Hi i Hr (Hn i Hr)) as (H1 & H2 & H3 & H4 & _); rewrite ?H1, ?H2, ?H3, ?H4, ?(Hn i Hr) in Hnz; done).
    destruct Hr as [Hr Hk]. destruct (i_dead _ _ _ _ _ Hi i Hr (Hn i Hr)) as (_ & _ & _ & _ & H5 & _). by rewrite H5 in Hnz.
  - intros [Hp [He|[He|(k & Hk & He)]]]; [exists MmioPdpt|exists MmioPd|exists (MmioPt k)]; simpl; rewrite He; split_and!; try done; lia.
Qed.

(** C26: When no space is left, every reference to a page is one of running
    code, one of an object or the one of the kernel's window to its tables:
    destroyed spaces leave nothing behind. *)
Theorem vm_no_leak l s p :
  reachable l s -> no_space s ->
  Pmm.page_refs (mm s) p = l p + held (rest s) p + Z.b2z (bool_decide (window_table s p)).
Proof.
  intros Hr Hn. destruct (reachable_vm_inv l s Hr) as [Hi _]. pose proof (i_core _ _ _ _ _ Hi) as Hc.
  pose proof (no_space_table l s p Hi Hn) as Ht. case_bool_decide as Hw.
  - destruct (c_table _ _ _ _ Hc p (proj2 Ht Hw)) as (H1 & H2 & H3 & _). simpl in *. lia.
  - destruct (Z.eq_dec (held (rest s) p) 0) as [Hz|Hnz].
    + pose proof (c_count _ _ _ _ Hc p ltac:(tauto) Hz) as Hcount. assert (owners (abs_of s) p = ∅) as Ho.
      { apply set_eq. intros [i v]. rewrite elem_of_owners. split; [|by intros ?%not_elem_of_empty]. simpl. intros (Hs & Hp & _).
        destruct (present_live _ _ _ _ _ _ _ Hi Hs Hp) as [Hsp Hl]. by destruct Hl; apply Hn. }
      rewrite Ho, size_empty in Hcount. simpl in *. lia.
    + pose proof (held_nonneg (rest s) p). destruct (c_held _ _ _ _ Hc p) as (H1 & _ & H2); [simpl; lia|]. simpl in *. lia.
Qed.

(** C27: [vm64_copy_to] reports success only when the whole range is the
    caller's to write, and then [vm64_copy_from] of the same range of private
    pages returns the bytes that were copied, although a page may have been
    copied on the way.  When it fails nothing that a user can see changed. *)
Theorem vm_copy_roundtrip l s root address length buffer :
  reachable l s -> 0 <= length -> (forall k, is_u8 (buffer k)) ->
  exists r s', vm64_copy_to root address length buffer s = Some (r, s') /\
    (r <> 0 -> same_view s s') /\
    (r = 0 -> exists i, space_from_root root s = Some i /\ in_reach s' i address length true /\
       ((forall a, address <= a < address + length -> private s i (vpn a)) ->
        forall buffer0, exists buffer' s'', vm64_copy_from root address length buffer0 s' = Some (0, buffer', s'') /\
          forall k, buffer' k = if (0 <=? k) && (k <? length) then buffer k else buffer0 k)).
Proof.
  intros Hr Hlen Hbuf. destruct (reachable_vm_inv l s Hr) as [Hi _].
  destruct (vm64_copy_to_inv _ _ _ _ s root address length buffer Hi Hlen Hbuf) as (r & s' & Hrun & _ & Hcase). exists r, s'. split; [done|].
  destruct Hcase as [(-> & Hv & _)|(-> & i & _ & Hroot & Hin & _)]; [done|]. split; [done|]. intros _. exists i. split; [done|]. split; [done|].
  intros Hpr buffer0. apply (copy_back _ _ _ _ s root address length buffer s' i buffer0 Hi Hlen Hbuf Hrun Hroot). intros a Ha. by apply Hpr.
Qed.

(** [vm64_ioremap] is first fit in the kernel's window, makes the entries
    of the range and no others, and fails only on arguments it should refuse
    or when no run of that many free pages exists; users notice nothing. *)
Theorem vm_ioremap_first_fit l s physical length mode :
  reachable l s -> is_u64 physical -> 0 <= length ->
  exists r s', vm64_ioremap physical length mode s = (r, s') /\ quiet s s' /\
    ((r = 0 /\ s' = s /\
      (length = 0 \/ physical mod 4096 <> 0 \/ length mod 4096 <> 0 \/ VM64_KERNEL_MMIO_SIZE < length \/
       0xFFFFFFFFFFFFFFFF < physical + length \/ cache_flags mode = 0xFFFFFFFFFFFFFFFF \/
       forall t, 0 <= t -> t + length / 4096 <= KERNEL_MMIO_PAGES -> ~ gap (kernel_mmio_used s) (length / 4096) t)) \/
     (0 < length /\ exists start, r = VM64_KERNEL_MMIO_BASE + start * 4096 /\ io_mapped physical length mode start s s')).
Proof.
  intros Hr Hp Hlen. destruct (reachable_vm_inv l s Hr) as [Hi _].
  destruct (vm64_ioremap_inv _ _ _ _ s physical length mode Hi ltac:(tauto) Hp Hlen) as (r & s' & Hrun & _ & Hq & Hcase). by exists r, s'.
Qed.

End Reachable.

(** ** A world of sixteen devices *)

(** Each device has one page of registers above the memory that the allocator
    manages; the world counts the references to the devices. *)
Definition devices : Type := Z -> Z.

Definition is_device (o : Z) : bool := (0 <=? o) && (o <? 16).

#[global] Instance device_modules : VmModules devices := {
  object_active w o := is_device o;
  object_retain o w := if is_device o then (0, upd w o (w o + 1)) else (-1, w);
  object_release o q w := Some (q, upd w o (w o - 1));
  page_resource_get w o :=
    if is_device o then Some (PageResource (fun _ => 4096 * (Pmm.BITMAP_BITS + o)) 1 false) else None;
  page_resource_mapping_open o w := (0, w);
  page_resource_mapping_close o w := w
}.

#[global] Instance device_objects : VmObjects devices := {
  held w p := 0;
  pins w o := w o;
  backs w o p := is_device o = true /\ p = Pmm.BITMAP_BITS + o;
  device p := Pmm.BITMAP_BITS <= p
}.

#[global] Instance device_laws : VmLaws devices.
Proof.
  split; simpl; try done.
  - intros w o p _ [Ho ->]. unfold is_device in Ho. rewrite andb_true_iff, Z.leb_le in Ho. left. lia.
  - intros w o r w' Hr. split.
    + by destruct (is_device o); injection Hr as <- <-.
    + intros o'. destruct (is_device o); injection Hr as <- <-; [|rewrite andb_false_r; simpl; lia]. unfold upd.
      destruct (Z.eqb_spec o' o) as [->|]; simpl; lia.
  - intros w o r w' [= <- <-]. done.
  - intros w o q Ho Hq _. eexists _, _. split; [done|]. split; try done; simpl; try lia.
    intros o'. unfold upd. destruct (Z.eqb_spec o' o) as [->|]; simpl; lia.
  - intros w o r Hr. unfold is_device in *. destruct (_ && _) eqn:Ho; [|done]. injection Hr as <-. simpl. split; [done|].
    intros k Hk. exists (Pmm.BITMAP_BITS + o). rewrite andb_true_iff, Z.leb_le, Z.ltb_lt in Ho. rewrite Pmm.BITMAP_BITS_val. split_and!; try done; lia.
Qed.

(** 64 pages of memory at 16 MiB, nothing else yet. *)
Definition sample_map (i : nat) : Pmm.e820_entry := Pmm.E820Entry 0x1000000 0x40000 Pmm.E820_USABLE.

Definition sample_pmm : Pmm.pmm :=
  match Pmm.pmm_init sample_map 24 24 0x101000 (fun _ => 0) with
  | Some q => q
  | None => Pmm.Pmm (fun _ => 0) (fun _ => 0) (fun _ => 0) 0 0 0 (fun _ => 0)
  end.

Definition sample_boot : vm devices :=
  Vm _ sample_pmm (fun _ => Space 0 0 0 0 0 (fun _ => 0) (fun _ => Mapping None 0 0)) 0 0 (fun _ => 0) (fun _ => false) (fun _ => 0).

Lemma sample_boot_ok : boot sample_boot.
Proof.
  assert (Pmm.pmm_init sample_map 24 24 0x101000 (fun _ => 0) = Some sample_pmm) as Hq by (vm_compute; reflexivity).
  split.
  - apply (Pmm.pmm_init_inv sample_map 24 24 0x101000 (fun _ => 0) sample_pmm); [|unfold is_u64; lia|exact Hq]. intros i. unfold Pmm.entry_ok, is_u64. simpl. lia.
  - intros a. assert (memory sample_boot = fun _ => 0) as -> by (vm_compute; reflexivity). unfold is_u8. lia.
  - intros r _. by destruct r.
  - intros i m _ _. reflexivity.
  - intros p. reflexivity.
  - intros o. simpl. lia.
  - intros p Hd [_ Hp]. simpl in Hd. lia.
Qed.

Definition after (o : op devices) (s : vm devices) : vm devices :=
  match run 0x100000 0x101000 0x101000 0x102000 o s with Some (_, s') => s' | None => s end.

Definition answer (o : op devices) (s : vm devices) : option Z := fst <$> run 0x100000 0x101000 0x101000 0x102000 o s.

Definition sample_init : vm devices := default sample_boot (snd <$> vm64_init true sample_boot).

(** A space with one private page. *)
Definition sample_page : Z := 0x100F.

Local Abbreviation sample_created := (after Create sample_init).

Local Abbreviation sample_fresh := (after Alloc sample_created).

Local Abbreviation sample_state := (after (Map 0 VM64_USER_BASE sample_page true false) sample_fresh).

Lemma answer_run o s r : answer o s = Some r -> run 0x100000 0x101000 0x101000 0x102000 o s = Some (r, after o s).
Proof. unfold answer, after. destruct (run _ _ _ _ o s) as [[r' s']|]; [|done]. by intros [= ->]. Qed.

Lemma sample_answers :
  (fst <$> vm64_init true sample_boot) = Some 0 /\ answer Create sample_init = Some 0 /\
  answer Alloc sample_created = Some (4096 * sample_page) /\ Pmm.page_refs (mm sample_fresh) sample_page = 1 /\
  answer (Map 0 VM64_USER_BASE sample_page true false) sample_fresh = Some 0.
Proof. vm_compute. split_and!; reflexivity. Qed.

Lemma sample_init_run : vm64_init true sample_boot = Some (0, sample_init).
Proof.
  pose proof (proj1 sample_answers) as H. unfold sample_init. destruct (vm64_init true sample_boot) as [[r s]|]; [|done]. injection H as ->. reflexivity.
Qed.

(** The references of running code on the way. *)
Definition loose_init : Z -> Z := Pmm.page_refs (mm sample_boot).

Local Abbreviation loose_fresh := (loose Alloc (4096 * sample_page) sample_created loose_init).

Local Abbreviation loose_state := (loose (Map 0 VM64_USER_BASE sample_page true false) 0 sample_fresh loose_fresh).

Local Abbreviation sample_reach := (reachable 0x100000 0x101000 0x101000 0x102000).

Lemma sample_init_reach : sample_reach loose_init sample_init.
Proof. exact (reach_init _ _ _ _ _ _ sample_boot_ok sample_init_run). Qed.

Lemma sample_allowed s0 s : Pmm.page_refs (mm s) sample_page = 1 ->
  allowed (Map 0 VM64_USER_BASE sample_page true false) (loose Alloc (4096 * sample_page) s0 loose_init) s.
Proof.
  intros H. split; [lia|]. split; [rewrite Pmm.BITMAP_BITS_val; unfold sample_page; lia|]. split; [|exact H].
  cbn [loose]. unfold upd, sample_page. simpl. lia.
Qed.

Lemma reach_create l s r : sample_reach l s -> answer Create s = Some r -> sample_reach l (after Create s).
Proof. intros Hr Ha. exact (reach_step _ _ _ _ l s Create r _ Hr I (answer_run _ _ _ Ha)). Qed.

Lemma sample_state_reach : sample_reach loose_state sample_state.
Proof.
  destruct sample_answers as (_ & H1 & H2 & H3 & H4).
  pose proof (reach_create _ _ _ sample_init_reach H1) as R1.
  pose proof (reach_step _ _ _ _ loose_init sample_created Alloc _ _ R1 I (answer_run _ _ _ H2)) as R2.
  pose proof (sample_allowed sample_created sample_fresh H3) as Hok.
  pose proof (reach_step _ _ _ _ loose_fresh sample_fresh (Map 0 VM64_USER_BASE sample_page true false) 0 _ R2 Hok (answer_run _ _ _ H4)) as R3.
  exact R3.
Qed.

Lemma sample_walk :
  user_walk (memory sample_state) (pml4 (spaces sample_state 0)) VM64_USER_BASE true = Some (4096 * sample_page) /\
  pml4 (spaces sample_state 0) <> 0 /\ answer Create sample_state = Some 0.
Proof. split_and!; [vm_compute; reflexivity|by vm_compute|vm_compute; reflexivity]. Qed.

Lemma sample_live : live sample_state 0.
Proof. split; [by unfold is_space|apply sample_walk]. Qed.

Lemma vm_reachable_inv_witness :
  vm_inv loose_state sample_state /\
  exists r s', run 0x100000 0x101000 0x101000 0x102000 (UserStore 0 VM64_USER_BASE 5) sample_state = Some (r, s').
Proof.
  destruct (vm_reachable_inv 0x100000 0x101000 0x101000 0x102000 loose_state sample_state sample_state_reach) as [H1 H2].
  split; [exact H1|]. apply H2. split; [exact sample_live|]. unfold is_u8, VM64_USER_BASE. lia.
Defined.

Lemma vm_user_confined_witness : ~ is_table (abs_of sample_state) (4096 * sample_page / 4096).
Proof.
  destruct (vm_user_confined 0x100000 0x101000 0x101000 0x102000 loose_state sample_state 0 VM64_USER_BASE true (4096 * sample_page))
    as (_ & _ & H & _); [exact sample_state_reach|exact sample_live|unfold VM64_USER_BASE; lia|apply sample_walk|exact H].
Defined.

Lemma vm_isolation_witness : private_kept 0 sample_state (after Create sample_state).
Proof.
  apply (vm_isolation 0x100000 0x101000 0x101000 0x102000 loose_state sample_state 0 loose_state); [exact sample_state_reach|].
  apply rtc_once. exists Create, 0. split; [exact I|]. split; [by intros []|].
  cbn [fst snd loose]. split; [|reflexivity]. exact (answer_run _ _ _ (proj2 (proj2 sample_walk))).
Defined.

Lemma sample_private : private sample_state 0 (vpn VM64_USER_BASE).
Proof. split; [by vm_compute|]. split; vm_compute; reflexivity. Qed.

Lemma sample_cloned :
  ((fun '(r, c, _) => (r, c)) <$> vm64_clone_space 0x100000 0x101000 0x101000 0x102000 0 sample_state) = Some (0, 1).
Proof. vm_compute. reflexivity. Qed.

(** The clone is made, in the space 1, with the page of the source. *)
Lemma vm_fork_snapshot_witness :
  exists s', vm64_clone_space 0x100000 0x101000 0x101000 0x102000 0 sample_state = Some (0, 1, s') /\
    private_kept 0 sample_state s' /\ live s' 1 /\ keeps_page 0 1 (vpn VM64_USER_BASE) sample_state s'.
Proof.
  destruct (vm_fork_snapshot 0x100000 0x101000 0x101000 0x102000 loose_state sample_state 0) as (r & c & s' & H1 & H2 & H3);
    [exact sample_state_reach|exact sample_live|]. pose proof sample_cloned as Hc. rewrite H1 in Hc. injection Hc as -> ->.
  destruct (H3 eq_refl) as (Hl & _ & _ & Hk). exists s'. split; [exact H1|]. split; [exact H2|]. split; [exact Hl|].
  exact (Hk loose_state s' (rtc_refl _ _) _ sample_private).
Defined.

(** The space maps the registers of the device 3. *)
Local Abbreviation sample_mapped := (after (MapPageObject 0 VM64_DRIVER_BASE 3 true) sample_state).

Lemma sample_mapped_answers :
  answer (MapPageObject 0 VM64_DRIVER_BASE 3 true) sample_state = Some 0 /\
  m_object (mappings (spaces sample_mapped 0) 0) = Some 3 /\
  user_walk (memory sample_mapped) (pml4 (spaces sample_mapped 0)) VM64_DRIVER_BASE true = Some (4096 * (Pmm.BITMAP_BITS + 3)).
Proof. split_and!; vm_compute; reflexivity. Qed.

Lemma reach_map_page l s i virtual o writable r :
  0 <= i -> sample_reach l s -> answer (MapPageObject i virtual o writable) s = Some r ->
  sample_reach l (after (MapPageObject i virtual o writable) s).
Proof. intros Hi Hr Ha. exact (reach_step _ _ _ _ l s (MapPageObject i virtual o writable) r _ Hr Hi (answer_run _ _ _ Ha)). Qed.

Lemma sample_mapped_reach : sample_reach loose_state sample_mapped.
Proof.
  apply (reach_map_page _ _ 0 VM64_DRIVER_BASE 3 true 0); [lia|exact sample_state_reach|exact (proj1 sample_mapped_answers)].
Qed.

Lemma vm_revoke_complete_witness :
  m_object (mappings (spaces sample_mapped 0) 0) = Some 3 /\
  exists s', vm64_revoke_object_all 3 sample_mapped = Some (0, s') /\ m_object (mappings (spaces s' 0) 0) <> Some 3.
Proof.
  split; [exact (proj1 (proj2 sample_mapped_answers))|].
  assert (is_space 0) as H0 by (by unfold is_space). assert (0 <= 0 < VM64_MAPPING_MAX) as H1 by (by unfold VM64_MAPPING_MAX).
  destruct (vm_revoke_complete 0x100000 0x101000 0x101000 0x102000 loose_state sample_mapped 3) as (s' & H & _ & Hm & _);
    [exact sample_mapped_reach|].
  exists s'. split; [exact H|]. exact (Hm 0 0 H0 H1).
Defined.

(** The space is destroyed again, with its page and its tables. *)
Local Abbreviation sample_gone := (after (Destroy 0) sample_state).

Lemma sample_gone_answers :
  answer (Destroy 0) sample_state = Some 0 /\
  (let g := spaces sample_gone in forallb (fun i => pml4 (g i) =? 0) (seqZ 0 VM64_MAX_SPACES)) = true /\
  Pmm.page_refs (mm sample_state) sample_page = 1 /\ Pmm.page_refs (mm sample_gone) sample_page = 0.
Proof. split_and!; vm_compute; reflexivity. Qed.

Lemma sample_gone_empty : no_space sample_gone.
Proof.
  intros i Hi. pose proof (proj1 (proj2 sample_gone_answers)) as Hn. cbv zeta in Hn. rewrite forallb_forall in Hn.
  apply Z.eqb_eq, Hn, list_elem_of_In, elem_of_seqZ. unfold is_space in Hi. lia.
Qed.

Lemma reach_destroy l s i r : 0 <= i -> sample_reach l s -> answer (Destroy i) s = Some r -> sample_reach l (after (Destroy i) s).
Proof. intros Hi Hr Ha. exact (reach_step _ _ _ _ l s (Destroy i) r _ Hr Hi (answer_run _ _ _ Ha)). Qed.

Lemma sample_gone_reach : sample_reach loose_state sample_gone.
Proof. apply (reach_destroy _ _ 0 0); [lia|exact sample_state_reach|exact (proj1 sample_gone_answers)]. Qed.

Lemma vm_no_leak_witness :
  Pmm.page_refs (mm sample_state) sample_page = 1 /\
  loose_state sample_page + held (rest sample_gone) sample_page +
    Z.b2z (bool_decide (window_table sample_gone sample_page)) = 0.
Proof.
  split; [exact (proj1 (proj2 (proj2 sample_gone_answers)))|]. etrans; [symmetry|exact (proj2 (proj2 (proj2 sample_gone_answers)))].
  exact (vm_no_leak 0x100000 0x101000 0x101000 0x102000 loose_state sample_gone sample_page sample_gone_reach sample_gone_empty).
Defined.

Lemma sample_copied :
  (fst <$> vm64_copy_to (pml4 (spaces sample_state 0)) VM64_USER_BASE 100 (fun _ => 7) sample_state) = Some 0 /\
  space_from_root (pml4 (spaces sample_state 0)) sample_state = Some 0.
Proof. split; vm_compute; reflexivity. Qed.

Lemma sample_range a : VM64_USER_BASE <= a < VM64_USER_BASE + 100 -> private sample_state 0 (vpn a).
Proof.
  intros Ha. assert (vpn a = vpn VM64_USER_BASE) as -> by (unfold vpn, VM64_USER_BASE in *; dmlia). exact sample_private.
Qed.

(** A hundred bytes go to the private page and come back. *)
Lemma vm_copy_roundtrip_witness :
  exists s', vm64_copy_to (pml4 (spaces sample_state 0)) VM64_USER_BASE 100 (fun _ => 7) sample_state = Some (0, s') /\
    exists buffer' s'', vm64_copy_from (pml4 (spaces sample_state 0)) VM64_USER_BASE 100 (fun _ => 0) s' =
      Some (0, buffer', s'') /\ buffer' 99 = 7 /\ buffer' 100 = 0.
Proof.
  destruct (vm_copy_roundtrip 0x100000 0x101000 0x101000 0x102000 loose_state sample_state (pml4 (spaces sample_state 0)) VM64_USER_BASE 100 (fun _ => 7))
    as (r & s' & H & _ & Hr); [exact sample_state_reach|lia|intros k; unfold is_u8; lia|].
  pose proof (proj1 sample_copied) as Hc. rewrite H in Hc. injection Hc as ->. exists s'. split; [exact H|].
  destruct (Hr eq_refl) as (i & Hi & _ & Hb). rewrite (proj2 sample_copied) in Hi. injection Hi as <-.
  destruct (Hb sample_range (fun _ => 0)) as (buffer' & s'' & Hf & Hk).
  exists buffer', s''. split; [exact Hf|]. split; [exact (Hk 99)|exact (Hk 100)].
Defined.

Lemma vm_ioremap_first_fit_witness :
  exists r s', vm64_ioremap 0xFEB00000 0x3000 VM64_CACHE_UC sample_init = (r, s') /\ quiet sample_init s'.
Proof.
  destruct (vm_ioremap_first_fit 0x100000 0x101000 0x101000 0x102000 loose_init sample_init 0xFEB00000 0x3000 VM64_CACHE_UC)
    as (r & s' & H & H2 & _); [exact sample_init_reach|unfold is_u64; lia|lia|]. exists r, s'. split; [exact H|exact H2].
Defined.

End VmTheorems.
