(* ===== verification/Ipc.v ===== *)
(** Message passing: [src/arch/x86_64/kernel/ipc64.c].

    A send that no receiver waits for parks the sender with its message, and
    a receive takes the message of a parked sender or parks the receiver.  The
    state is the task pool (Task.v), the messages of parked senders and the
    result each task will return with; the calls run to completion, one at a
    time.  The transfers of [vm.c] are the interface [IpcMemory], which
    IpcVm.v implements with the model of [vm.c].

    Ghost fields: [deliveries] lists the messages written to a receiver's
    buffer, [sends] and [receives] the calls that were answered.  No code
    reads them. *)

From S2P Require Import Prelude Task.

Module Ipc.
Import Task.

Definition ESRCH : Z := -3.

Definition EINVAL : Z := -22.

Definition EDEADLK : Z := -35.

Definition ETIMEDOUT : Z := -110.

Definition MSG_DIED : Z := 60.

Record message := Message {
  from_id : Z;
  type : Z;
  data : list Z
}.

(** A message that was written to the buffer of the task [d_to], or could not
    be.  [d_from] is the sending task and its identifier, [None] for a notice
    of the kernel; [d_expected] is whom the receiver asked for, 0 for anyone. *)
Record delivery := Delivery {
  d_from : option (Z * Z);
  d_to : Z;
  d_expected : Z;
  d_message : message;
  d_ok : bool
}.

(** Transfers of one message to and from the address space of a page
    directory: [vm64_copy_from], [vm64_copy_to] and [vm64_user_access] with
    the size of a message; [true] is success. *)
Class IpcMemory (W : Type) := {
  copy_from : Z -> Z -> W -> option message * W;
  copy_to : Z -> Z -> message -> W -> bool * W;
  user_access : Z -> Z -> W -> bool * W
}.

Record ipc {W : Type} := IpcState {
  pool : Task.pool;
  pending : Z -> message;
  pending_valid : Z -> bool;
  pending_timed : Z -> bool;
  rax : Z -> Z;
  memory : W;
  deliveries : list delivery;
  sends : list (Z * Z);
  receives : list (Z * Z)
}.
#[global] Arguments ipc : clear implicits.

(** What a call does: it returns, or its task is parked. *)
Inductive outcome := Ret (result : Z) | Parked.

Section Operations.
Context {W : Type} `{IpcMemory W}.
Implicit Types (s : ipc W).

Definition set_pool (p : Task.pool) s : ipc W :=
  IpcState _ p (pending s) (pending_valid s) (pending_timed s) (rax s) (memory s) (deliveries s) (sends s) (receives s).

Definition set_pending (i : Z) (m : message) (valid timed : bool) s : ipc W :=
  IpcState _ (pool s) (upd (pending s) i m) (upd (pending_valid s) i valid) (upd (pending_timed s) i timed) (rax s)
    (memory s) (deliveries s) (sends s) (receives s).

Definition set_memory (w : W) s : ipc W :=
  IpcState _ (pool s) (pending s) (pending_valid s) (pending_timed s) (rax s) w (deliveries s) (sends s) (receives s).

(** [pending_valid[i] = 0; pending_timed[i] = 0] *)
Definition clear_pending (i : Z) s : ipc W := set_pending i (pending s i) false false s.

Definition task64_set_result (slot result : Z) s : ipc W :=
  IpcState _ (pool s) (pending s) (pending_valid s) (pending_timed s)
    (if slot <? MAX_TASKS then upd (rax s) slot result else rax s) (memory s) (deliveries s) (sends s) (receives s).

Definition note_delivery (d : delivery) s : ipc W :=
  IpcState _ (pool s) (pending s) (pending_valid s) (pending_timed s) (rax s) (memory s) (deliveries s ++ [d])
    (sends s) (receives s).

Definition note_send (slot result : Z) s : ipc W :=
  IpcState _ (pool s) (pending s) (pending_valid s) (pending_timed s) (rax s) (memory s) (deliveries s)
    (sends s ++ [(slot, result)]) (receives s).

Definition note_receive (slot result : Z) s : ipc W :=
  IpcState _ (pool s) (pending s) (pending_valid s) (pending_timed s) (rax s) (memory s) (deliveries s) (sends s)
    (receives s ++ [(slot, result)]).

Definition task_for_pid (pid : Z) (p : Task.pool) : option Z :=
  let slot := PID_SLOT pid in
  if (slot =? 0) || (u32 (task_pool_count p) <=? slot) then None else
  if (tasks p slot f_state =? TASK_FREE) || (tasks p slot f_state =? TASK_ZOMBIE) ||
     negb (u32 (tasks p slot f_id) =? pid)
  then None else Some slot.

(** [depth] rounds of the loop are left. *)
Fixpoint deadlock_loop (depth : nat) (sender cursor : Z) (p : Task.pool) : bool :=
  match depth with
  | O => true
  | S depth =>
      if cursor =? sender then true else
      if negb (tasks p cursor f_state =? TASK_BLOCKED_SEND) || negb (nz (tasks p cursor f_send_to)) then false else
      match task_for_pid (tasks p cursor f_send_to) p with
      | None => false
      | Some cursor => deadlock_loop depth sender cursor p
      end
  end.

Definition deadlock (sender destination : Z) (p : Task.pool) : bool :=
  deadlock_loop (Z.to_nat MAX_TASKS) sender destination p.

(** A parked sender goes on with [result]. *)
Definition finish_send (slot result : Z) s : ipc W :=
  let s := clear_pending slot s in
  let s := set_pool (task_state_set (Some slot) TASK_RUNNING
                       (write slot [(f_send_to, 0); (f_send_deadline, 0)] (pool s))) s in
  note_send slot result (task64_set_result slot result s).

(** A parked receiver goes on with [result]. *)
Definition finish_receive (slot result : Z) s : ipc W :=
  let s := set_pool (task_state_set (Some slot) TASK_RUNNING
                       (write slot [(f_recv_buf, 0); (f_recv_expect, 0)] (pool s))) s in
  note_receive slot result (task64_set_result slot result s).

Fixpoint break_loop (depth : nat) (cursor : option Z) (sender : Z) s : ipc W :=
  match depth, cursor with
  | S depth, Some cursor =>
      if cursor =? sender then s else
      if negb (tasks (pool s) cursor f_state =? TASK_BLOCKED_SEND) then s else
      let next := task_for_pid (tasks (pool s) cursor f_send_to) (pool s) in
      break_loop depth next sender (finish_send cursor EDEADLK s)
  | _, _ => s
  end.

Definition break_deadlock (chain sender : Z) s : ipc W :=
  break_loop (Z.to_nat MAX_TASKS) (Some chain) sender s.

(** The task [i] under the identifier it has. *)
Definition named (i : Z) (p : Task.pool) : Z * Z := (i, u32 (tasks p i f_id)).

(** [origin] and [expected] are for the ghost record only. *)
Definition deliver (origin : option (Z * Z)) (expected receiver address : Z) (m : message) s : Z * ipc W :=
  let '(ok, w) := copy_to (tasks (pool s) receiver f_page_dir) address m (memory s) in
  (if ok then 0 else EINVAL, note_delivery (Delivery origin receiver expected m ok) (set_memory w s)).

Definition send_now (sender receiver : Z) (m : message) s : Z * ipc W :=
  let delivered := Message (u32 (tasks (pool s) sender f_id)) (type m) (data m) in
  let '(result, s) := deliver (Some (named sender (pool s))) (tasks (pool s) receiver f_recv_expect) receiver
                        (tasks (pool s) receiver f_recv_buf) delivered s in
  (result, finish_receive receiver result s).

Definition ipc64_init s : ipc W :=
  for_range 0 MAX_TASKS clear_pending s.

(** The receiver waits for a message of this sender. *)
Definition accepts (receiver sender : Z) (p : Task.pool) : bool :=
  (tasks p receiver f_state =? TASK_BLOCKED_RECV) && nz (tasks p receiver f_recv_buf) &&
  (negb (nz (tasks p receiver f_recv_expect)) ||
   (tasks p receiver f_recv_expect =? u32 (tasks p sender f_id))).

Definition send_internal (cpu current destination message_address deadline : Z) (timed : bool) s : outcome * ipc W :=
  match task_for_pid destination (pool s) with
  | None => (Ret ESRCH, s)
  | Some receiver =>
      if receiver =? current then (Ret EDEADLK, s) else
      let '(m, w) := copy_from (tasks (pool s) current f_page_dir) message_address (memory s) in
      let s := set_memory w s in
      match m with
      | None => (Ret EINVAL, s)
      | Some m =>
          if accepts receiver current (pool s) then
            let '(result, s) := send_now current receiver m s in (Ret result, s)
          else if deadlock current receiver (pool s) then
            (Ret EDEADLK, break_deadlock receiver current s)
          else
            let s := set_pending current m true timed s in
            let s := set_pool (task_state_set (Some current) TASK_BLOCKED_SEND
                       (write current [(f_send_to, destination); (f_send_deadline, deadline)] (pool s))) s in
            if task_pick_next current cpu (pool s) <? 0 then
              let s := clear_pending current s in
              (Ret EDEADLK, set_pool (task_state_set (Some current) TASK_RUNNING
                 (write current [(f_send_to, 0); (f_send_deadline, 0)] (pool s))) s)
            else (Parked, s)
      end
  end.

Definition note_sent (current : Z) (r : outcome * ipc W) : outcome * ipc W :=
  match r with
  | (Ret result, s) => (Ret result, note_send current result s)
  | (Parked, s) => (Parked, s)
  end.

Definition ipc64_send (cpu current destination message_address : Z) s : outcome * ipc W :=
  note_sent current (send_internal cpu current destination message_address 0 false s).

Definition ipc64_send_timeout (cpu current destination message_address deadline : Z) s : outcome * ipc W :=
  note_sent current (send_internal cpu current destination message_address deadline true s).

Definition ipc64_send_nb (current destination message_address : Z) s : outcome * ipc W :=
  note_sent current
    match task_for_pid destination (pool s) with
    | None => (Ret ESRCH, s)
    | Some receiver =>
        if receiver =? current then (Ret EDEADLK, s) else
        if negb (accepts receiver current (pool s)) then (Ret (-1), s) else
        let '(m, w) := copy_from (tasks (pool s) current f_page_dir) message_address (memory s) in
        let s := set_memory w s in
        match m with
        | None => (Ret EINVAL, s)
        | Some m => let '(result, s) := send_now current receiver m s in (Ret result, s)
        end
    end.

Definition died (pid : Z) : message := Message pid MSG_DIED (replicate 56 0).

(** The parked sender in [slot] has a message for the receiver. *)
Definition offers (slot receiver expected : Z) s : bool :=
  (tasks (pool s) slot f_state =? TASK_BLOCKED_SEND) &&
  (tasks (pool s) slot f_send_to =? u32 (tasks (pool s) receiver f_id)) && pending_valid s slot &&
  (negb (nz expected) || (u32 (tasks (pool s) slot f_id) =? expected)).

Definition receive (cpu current expected message_address : Z) s : outcome * ipc W :=
  let '(ok, w) := user_access (tasks (pool s) current f_page_dir) message_address (memory s) in
  let s := set_memory w s in
  if negb ok then (Ret EINVAL, s) else
  if expected =? u32 (tasks (pool s) current f_id) then (Ret EDEADLK, s) else
  if nz expected && negb (is_some (task_for_pid expected (pool s))) then
    (Ret 0, snd (deliver None expected current message_address (died expected) s))
  else
    match scan_range 1 (task_pool_count (pool s)) (fun slot => offers slot current expected s) with
    | Some slot =>
        let m := Message (u32 (tasks (pool s) slot f_id)) (type (pending s slot)) (data (pending s slot)) in
        let '(result, s) := deliver (Some (named slot (pool s))) expected current message_address m s in
        (Ret result, finish_send slot result s)
    | None =>
        let s := set_pool (task_state_set (Some current) TASK_BLOCKED_RECV
                   (write current [(f_recv_buf, message_address); (f_recv_expect, expected)] (pool s))) s in
        if task_pick_next current cpu (pool s) <? 0 then
          (Ret EDEADLK, set_pool (task_state_set (Some current) TASK_RUNNING
             (write current [(f_recv_buf, 0); (f_recv_expect, 0)] (pool s))) s)
        else (Parked, s)
    end.

Definition ipc64_recv (cpu current expected message_address : Z) s : outcome * ipc W :=
  match receive cpu current expected message_address s with
  | (Ret result, s) => (Ret result, note_receive current result s)
  | (Parked, s) => (Parked, s)
  end.

(** The loop body of [ipc64_task_died] for one slot. *)
Definition died_slot (pid slot : Z) s : ipc W :=
  let s :=
    if (tasks (pool s) slot f_state =? TASK_BLOCKED_SEND) && (tasks (pool s) slot f_send_to =? pid)
    then finish_send slot ESRCH s else s in
  if (tasks (pool s) slot f_state =? TASK_BLOCKED_RECV) && nz (tasks (pool s) slot f_recv_buf) &&
     (tasks (pool s) slot f_recv_expect =? pid)
  then
    let '(result, s) := deliver None (tasks (pool s) slot f_recv_expect) slot (tasks (pool s) slot f_recv_buf) (died pid) s in
    finish_receive slot result s
  else s.

Definition ipc64_task_died (pid : Z) s : ipc W :=
  let dead_slot := PID_SLOT pid in
  let s := if dead_slot <? MAX_TASKS then clear_pending dead_slot s else s in
  for_range 1 (task_pool_count (pool s)) (died_slot pid) s.

Definition tick_slot (now slot : Z) s : ipc W :=
  if negb (tasks (pool s) slot f_state =? TASK_BLOCKED_SEND) || negb (pending_timed s slot) ||
     (i32 (now - tasks (pool s) slot f_send_deadline) <? 0)
  then s else finish_send slot ETIMEDOUT s.

Definition ipc64_tick (now : Z) s : ipc W :=
  for_range 1 (task_pool_count (pool s)) (tick_slot now) s.

End Operations.

(** ** Tasks and their identifiers *)

Definition slot_of (p : Task.pool) (i : Z) : Prop := 1 <= i < task_pool_count p.

(** A task that a message can be sent to. *)
Definition alive (p : Task.pool) (i : Z) : Prop :=
  slot_of p i /\ tasks p i f_state <> TASK_FREE /\ tasks p i f_state <> TASK_ZOMBIE.

Lemma id_u32 p i : Task.inv p -> alive p i -> PID_SLOT (u32 (tasks p i f_id)) = i /\ u32 (tasks p i f_id) <> 0.
Proof.
  intros Hp (Hs & Hf & Hz). unfold slot_of in Hs. pose proof (inv_count p Hp) as Hc.
  assert (0 <= i < MAX_TASKS) as Hi by lia. pose proof (inv_gen p Hp i Hi) as Hg.
  rewrite (inv_id p Hp i) by (split; [lia|done]). pose proof (PID_SLOT_value _ _ Hg Hi) as Hv. pose proof (pid_of_value _ _ Hg Hi) as Hpv.
  assert (u32 (pid_of (tasks p i f_gen) i) = pid_of (tasks p i f_gen) i) as ->.
  { apply u32_small. rewrite Hpv. unfold is_u32, MAX_TASKS in *. lia. }
  split; [done|]. rewrite Hpv. unfold MAX_TASKS in *. lia.
Qed.

Lemma task_for_pid_spec p pid r : Task.inv p -> task_for_pid pid p = Some r <-> alive p r /\ pid = u32 (tasks p r f_id).
Proof.
  intros Hp. unfold task_for_pid. pose proof (inv_count p Hp) as Hc.
  assert (u32 (task_pool_count p) = task_pool_count p) as -> by (apply u32_small; unfold is_u32, MAX_TASKS in *; lia).
  assert (0 <= PID_SLOT pid) as Hpos by (unfold PID_SLOT; rewrite land_ffff by apply u32_range; apply Z.mod_pos_bound; lia).
  split.
  - destruct (_ || _) eqn:H1; [done|]. destruct (_ || negb _) eqn:H2; [done|]. intros [= <-]. boolify.
    split; [|lia]. split; [unfold slot_of; lia|]. tauto.
  - intros [Ha ->]. destruct (id_u32 p r Hp Ha) as [-> _]. destruct Ha as (Hs & Hf & Hz). unfold slot_of in Hs.
    rewrite (proj2 (Z.eqb_neq r 0)), (proj2 (Z.leb_gt _ r)) by lia. cbn [orb].
    rewrite (proj2 (Z.eqb_neq _ _) Hf), (proj2 (Z.eqb_neq _ _) Hz), Z.eqb_refl. done.
Qed.

Lemma alive_unique p i j : Task.inv p -> alive p i -> alive p j -> u32 (tasks p i f_id) = u32 (tasks p j f_id) -> i = j.
Proof. intros Hp Hi Hj He. destruct (id_u32 p i Hp Hi) as [<- _], (id_u32 p j Hp Hj) as [<- _]. by rewrite He. Qed.

(** ** Who waits for whom *)

Definition sending (p : Task.pool) (i : Z) : Prop := slot_of p i /\ tasks p i f_state = TASK_BLOCKED_SEND.

Definition receiving (p : Task.pool) (i : Z) : Prop := slot_of p i /\ tasks p i f_state = TASK_BLOCKED_RECV.

(** [i] is parked in a send to [r]. *)
Definition waits (p : Task.pool) (i r : Z) : Prop :=
  sending p i /\ task_for_pid (tasks p i f_send_to) p = Some r.

Lemma deadlock_free depth sender cursor p :
  deadlock_loop depth sender cursor p = false -> ~ rtc (waits p) cursor sender.
Proof.
  revert cursor. induction depth as [|depth IH]; intros cursor Hd Hr; [done|]. cbn [deadlock_loop] in Hd.
  destruct (Z.eqb_spec cursor sender) as [|Hne]; [done|]. inversion Hr as [|? z ? [[_ Hst] Hz] Hr']; subst; [done|].
  rewrite Hst, Z.eqb_refl, Hz in Hd. cbn [negb orb] in Hd. destruct (nz (tasks p cursor f_send_to)) eqn:Hn; cbn [negb] in Hd; [by eapply IH|].
  apply nz_false in Hn. by rewrite Hn in Hz.
Qed.

Lemma deadlock_path depth sender cursor p :
  slot_of p cursor -> Task.inv p -> deadlock_loop depth sender cursor p = true ->
  rtc (waits p) cursor sender \/ exists y, nsteps (waits p) depth cursor y.
Proof.
  revert cursor. induction depth as [|depth IH]; intros cursor Hs Hp Hd; [right; exists cursor; constructor|]. cbn [deadlock_loop] in Hd.
  destruct (Z.eqb_spec cursor sender) as [->|Hne]; [by left|].
  destruct (_ || _) eqn:Hst in Hd; [done|]. boolify.
  destruct (task_for_pid (tasks p cursor f_send_to) p) as [z|] eqn:Hz; [|done].
  assert (waits p cursor z) as Hw by (split; [split|]; done). pose proof Hz as [(Hsz & _) _]%task_for_pid_spec; [|done].
  destruct (IH z Hsz Hp Hd) as [Hr|(y & Hy)]; [left; by eapply rtc_l|right]. exists y. by eapply nsteps_l.
Qed.

(** A chain of parked senders without a cycle visits each task once. *)
Lemma chain_visits p n x y :
  (forall i, ~ tc (waits p) i i) -> nsteps (waits p) n x y ->
  exists l, length l = n /\ NoDup l /\ forall z, z ∈ l -> slot_of p z /\ rtc (waits p) x z.
Proof.
  intros Ha. induction 1 as [x|n x z y Hxz _ (l & Hl & Hnd & Hz)].
  - exists []. split_and!; [done|constructor|]. intros z Hz. by apply elem_of_nil in Hz.
  - exists (x :: l). split_and!; [simpl; lia| |].
    + apply NoDup_cons. split; [|done]. intros Hin. destruct (Hz x Hin) as [_ Hr]. apply (Ha x). by eapply tc_rtc_r; [apply tc_once|].
    + intros z' [->|Hin]%elem_of_cons; [split; [apply Hxz|done]|]. destruct (Hz z' Hin) as [H1 H2]. split; [done|]. by eapply rtc_l.
Qed.

Lemma chain_short p n x y : Task.inv p -> (forall i, ~ tc (waits p) i i) -> nsteps (waits p) n x y -> Z.of_nat n < MAX_TASKS.
Proof.
  intros Hp Ha Hn. destruct (chain_visits p n x y Ha Hn) as (l & Hl & Hnd & Hz). pose proof (inv_count p Hp) as Hc.
  assert (length l <= length (seqZ 1 (MAX_TASKS - 1)))%nat as Hle.
  { apply submseteq_length, NoDup_submseteq; [done|]. intros z Hin. destruct (Hz z Hin) as [Hs _]. apply elem_of_seqZ. unfold slot_of in Hs. lia. }
  rewrite length_seqZ, Hl in Hle. unfold MAX_TASKS in *. lia.
Qed.

End Ipc.
