(* ===== verification/IpcInv.v ===== *)
(** Message passing: the invariant and what preserves it.

    [core]: every parked sender waits for a live task other than itself that
    does not accept it yet, every parked receiver has a buffer and expects
    nobody or a live task, and the parked senders form no cycle.  [books]: the
    sends and the receives that were answered with success are, in order, the
    two sides of the messages that were delivered. *)

From S2P Require Import Prelude Task Ipc.

Module IpcInv.
Import Task Ipc.

(** What the transfers of [vm.c] promise: they keep the address spaces well
    formed, and a range that [vm64_user_access] accepts is not at address 0
    and can be written. *)
Class IpcMemoryLaws (W : Type) `{IpcMemory W} := {
  memory_ok : W -> Prop;
  copy_from_ok : forall d a w, memory_ok w -> memory_ok (snd (copy_from d a w));
  copy_to_ok : forall d a m w, memory_ok w -> memory_ok (snd (copy_to d a m w));
  access_ok : forall d a w, memory_ok w -> memory_ok (snd (user_access d a w));
  access_writable : forall d a m w w',
    memory_ok w -> user_access d a w = (true, w') -> a <> 0 /\ fst (copy_to d a m w') = true
}.

(** ** Changes of one task *)

(** [p'] is [p] with the live task [c] changed, but neither freed nor renamed. *)
Record moved (c : Z) (p p' : Task.pool) : Prop := {
  mv_inv : Task.inv p';
  mv_count : task_pool_count p' = task_pool_count p;
  mv_others : forall i, i <> c -> tasks p' i = tasks p i;
  mv_id : tasks p' c f_id = tasks p c f_id;
  mv_was : alive p c;
  mv_alive : alive p' c
}.

Lemma moved_set c st l p :
  Task.inv p -> alive p c -> f_id ∉ l.*1 -> f_gen ∉ l.*1 -> st <> TASK_FREE -> st <> TASK_ZOMBIE ->
  moved c p (task_state_set (Some c) st (write c l p)).
Proof.
  intros Hp Ha Hid Hgen Hf Hz. unfold task_state_set, task_state_set_locked.
  assert (Task.live p c) as Hl by (destruct Ha as (Hs & Hfr & _); unfold slot_of in Hs; split; [lia|done]).
  assert (forall f, f <> f_state -> f ∉ l.*1 -> tasks (write c [(f_state, st)] (write c l p)) c f = tasks p c f) as Hk.
  { intros f Hne Hin. rewrite write_same. rewrite assign_other by (by intros [->|?%elem_of_nil]%elem_of_cons). by rewrite write_same, assign_other. }
  assert (tasks (write c [(f_state, st)] (write c l p)) c f_state = st) as Hst by (by rewrite write_same; cbn; apply set_eq).
  assert (forall i, i <> c -> tasks (write c [(f_state, st)] (write c l p)) i = tasks p i) as Ho by (intros; by rewrite !write_other).
  assert (alive (write c [(f_state, st)] (write c l p)) c) as Ha'.
  { split; [apply Ha|]. by rewrite Hst. }
  split; [|done|done|by apply Hk|done|done].
  destruct Hp as [H1 H2 H3 H4]. split; [done| | |].
  - intros i Hi. destruct (decide (i = c)) as [->|Hne]; [rewrite Hk by done|rewrite Ho by done]; by apply H2.
  - intros i [Hr Hi]. destruct (decide (i = c)) as [->|Hne]; [rewrite !Hk by done; by apply H3|].
    rewrite Ho in * by done. by apply H3.
  - intros i Hi. rewrite Ho; [by apply H4|]. intros ->. destruct Hl as [Hl _]. simpl in Hi. lia.
Qed.

Lemma moved_live c p p' i : moved c p p' -> alive p' i <-> alive p i.
Proof.
  intros M. destruct (decide (i = c)) as [->|Hne]; [split; intros _; [apply M|apply M]|].
  unfold alive, slot_of. by rewrite (mv_count _ _ _ M), (mv_others _ _ _ M).
Qed.

Lemma moved_id c p p' i : moved c p p' -> tasks p' i f_id = tasks p i f_id.
Proof. intros M. destruct (decide (i = c)) as [->|Hne]; [apply M|]. by rewrite (mv_others _ _ _ M). Qed.

Lemma moved_pid c p p' pid : Task.inv p -> moved c p p' -> task_for_pid pid p' = task_for_pid pid p.
Proof.
  intros Hp M. apply option_eq. intros r. rewrite !task_for_pid_spec by (done || apply M).
  by rewrite (moved_live _ _ _ _ M), (moved_id _ _ _ _ M).
Qed.

Lemma moved_waits c p p' i r : Task.inv p -> moved c p p' -> i <> c -> waits p' i r <-> waits p i r.
Proof.
  intros Hp M Hne. unfold waits, sending, slot_of. rewrite (moved_pid c p p') by done.
  by rewrite (mv_count _ _ _ M), (mv_others _ _ _ M).
Qed.

(** ** The invariant *)

Section Invariant.
Context {W : Type} `{IpcMemoryLaws W}.
Implicit Types s : ipc W.

(** [x] is a task that is being torn down, 0 if there is none. *)
Record core (x : Z) s : Prop := {
  v_pool : Task.inv (pool s);
  v_pending : forall i, sending (pool s) i -> i <> x -> pending_valid s i = true;
  v_send : forall i, sending (pool s) i -> exists r, waits (pool s) i r /\ r <> i;
  v_recv : forall i, receiving (pool s) i ->
    tasks (pool s) i f_recv_buf <> 0 /\
    (tasks (pool s) i f_recv_expect = 0 \/ exists e, task_for_pid (tasks (pool s) i f_recv_expect) (pool s) = Some e);
  v_meet : forall i r, waits (pool s) i r -> accepts r i (pool s) = false;
  v_acyclic : forall i, ~ tc (waits (pool s)) i i;
  v_memory : memory_ok (memory s)
}.

(** What the task [c] may become. *)
Record joins (c : Z) s s' : Prop := {
  j_moved : moved c (pool s) (pool s');
  j_pending : forall i, i <> c -> pending_valid s' i = pending_valid s i;
  j_memory : memory_ok (memory s');
  j_send : tasks (pool s') c f_state = TASK_BLOCKED_SEND ->
    pending_valid s' c = true /\
    exists r, task_for_pid (tasks (pool s') c f_send_to) (pool s) = Some r /\ r <> c /\
      accepts r c (pool s) = false /\ ~ rtc (waits (pool s)) r c;
  j_recv : tasks (pool s') c f_state = TASK_BLOCKED_RECV ->
    tasks (pool s') c f_recv_buf <> 0 /\
    (tasks (pool s') c f_recv_expect = 0 \/ exists e, task_for_pid (tasks (pool s') c f_recv_expect) (pool s) = Some e) /\
    forall i, i <> c -> waits (pool s) i c -> accepts c i (pool s') = false
}.

Section Change.
Context (x c : Z) (s s' : ipc W) (C : core x s) (J : joins c s s').

Local Abbreviation p := (pool s).
Local Abbreviation p' := (pool s').

Lemma change_waits i r : i <> c -> waits p' i r <-> waits p i r.
Proof. apply moved_waits; [apply C|apply J]. Qed.

Lemma change_path a b :
  tc (waits p') a b ->
  tc (waits p) a b \/ exists r, waits p' c r /\ rtc (waits p) a c /\ rtc (waits p) r b.
Proof.
  induction 1 as [a b Hab|a z b Haz _ IH].
  - destruct (decide (a = c)) as [->|Hne]; [right; by exists b|left; apply tc_once; by apply change_waits].
  - destruct (decide (a = c)) as [->|Hne].
    + right. exists z. split; [done|]. split; [done|]. destruct IH as [Ht|(r & Hr & _ & Hb)]; [by apply tc_rtc|].
      destruct Haz as [_ Hz], Hr as [_ Hr]. by simplify_eq.
    + apply change_waits in Haz; [|done]. destruct IH as [Ht|(r & Hr & Ha & Hb)]; [left; by eapply tc_l|].
      right. exists r. split; [done|]. split; [by eapply rtc_l|done].
Qed.

Lemma change_accepts r i : r <> c -> accepts r i p' = accepts r i p.
Proof.
  intros Hne. unfold accepts. by rewrite (mv_others _ _ _ (j_moved _ _ _ J)), (moved_id c p p') by (done || apply J).
Qed.

Lemma change_new r : waits p' c r -> r <> c /\ accepts r c p = false /\ ~ rtc (waits p) r c.
Proof.
  intros [[_ Hst] Hr]. destruct (j_send _ _ _ J Hst) as (_ & r' & Hr' & Hne & Hac & Hcy).
  rewrite (moved_pid c p p') in Hr by (apply C || apply J). by simplify_eq.
Qed.

Lemma core_change : core x s'.
Proof.
  pose proof (j_moved _ _ _ J) as M. split.
  - apply M.
  - intros i Hi Hx. destruct (decide (i = c)) as [->|Hne]; [by apply (j_send _ _ _ J), Hi|].
    rewrite (j_pending _ _ _ J) by done. apply (v_pending _ _ C); [|done].
    destruct Hi as [Hs Hst]. unfold slot_of in Hs. rewrite (mv_count _ _ _ M), (mv_others _ _ _ M) in * by done. done.
  - intros i Hi. destruct (decide (i = c)) as [->|Hne].
    + destruct (j_send _ _ _ J (proj2 Hi)) as (_ & r & Hr & Hne & _). exists r. split; [|done]. split; [done|].
      by rewrite (moved_pid c p p') by (apply C || apply J).
    + destruct (v_send _ _ C i) as (r & Hr & Hn); [|exists r; split; [by apply change_waits|done]].
      destruct Hi as [Hs Hst]. unfold slot_of in Hs. rewrite (mv_count _ _ _ M), (mv_others _ _ _ M) in * by done. done.
  - intros i Hi. rewrite (moved_pid c p p') by (apply C || apply J). destruct (decide (i = c)) as [->|Hne].
    + destruct (j_recv _ _ _ J (proj2 Hi)) as (Hb & He & _). done.
    + destruct Hi as [Hs Hst]. unfold slot_of in Hs. rewrite (mv_count _ _ _ M), (mv_others _ _ _ M) in * by done. by apply (v_recv _ _ C).
  - intros i r Hw. destruct (decide (i = c)) as [->|Hne].
    + destruct (change_new r Hw) as (Hn & Hac & _). by rewrite change_accepts.
    + apply change_waits in Hw; [|done]. destruct (decide (r = c)) as [->|Hnr].
      * destruct (accepts c i p') eqn:Hac; [|done]. pose proof Hac as Hac'. unfold accepts in Hac'. boolify.
        rewrite <- Hac. apply (j_recv _ _ _ J); done.
      * rewrite change_accepts by done. by apply (v_meet _ _ C).
  - intros i [Ht|(r & Hr & Hic & Hri)]%change_path; [by apply (v_acyclic _ _ C i)|].
    destruct (change_new r Hr) as (_ & _ & Hn). apply Hn. by etrans.
  - apply J.
Qed.

End Change.

(** ** One task goes on *)

Lemma moved_trans c q q' q'' : moved c q q' -> moved c q' q'' -> moved c q q''.
Proof.
  intros M M'. split; [apply M'| | | |apply M|apply M'].
  - rewrite (mv_count _ _ _ M'). apply M.
  - intros i Hi. rewrite (mv_others _ _ _ M') by done. by apply M.
  - rewrite (mv_id _ _ _ M'). apply M.
Qed.

(** The task [c] runs on. *)
Lemma core_resume x c s s' :
  core x s -> moved c (pool s) (pool s') -> tasks (pool s') c f_state = TASK_RUNNING ->
  (forall i, i <> c -> pending_valid s' i = pending_valid s i) -> memory_ok (memory s') -> core x s'.
Proof. intros C M Hst Hp Hm. apply (core_change x c s s' C). split; [done|done|done|by rewrite Hst|by rewrite Hst]. Qed.

(** The core does not read the results and the logs. *)
Lemma core_same x s s' :
  core x s -> pool s' = pool s -> pending_valid s' = pending_valid s -> memory_ok (memory s') -> core x s'.
Proof. intros [] Hp Hv Hm. split; rewrite ?Hp, ?Hv; done. Qed.

Lemma sending_alive p i : sending p i -> alive p i.
Proof. intros [Hs Hst]. split; [done|]. by rewrite Hst. Qed.

Lemma receiving_alive p i : receiving p i -> alive p i.
Proof. intros [Hs Hst]. split; [done|]. by rewrite Hst. Qed.

Lemma finish_send_moved i r s : Task.inv (pool s) -> alive (pool s) i -> moved i (pool s) (pool (finish_send i r s)).
Proof. intros Hp Ha. apply moved_set; done || set_solver. Qed.

Lemma finish_send_core x i r s : core x s -> alive (pool s) i -> core x (finish_send i r s).
Proof.
  intros C Ha. apply (core_resume x i s _ C); [by apply finish_send_moved; [apply C|]| | |apply C].
  - cbn [pool finish_send note_send task64_set_result set_pool]. unfold task_state_set, task_state_set_locked. by fields.
  - intros j Hj. cbn. by apply upd_ne.
Qed.

Lemma finish_receive_moved i r s :
  Task.inv (pool s) -> alive (pool s) i -> moved i (pool s) (pool (finish_receive i r s)).
Proof. intros Hp Ha. apply moved_set; done || set_solver. Qed.

Lemma finish_receive_core x i r s : core x s -> alive (pool s) i -> core x (finish_receive i r s).
Proof.
  intros C Ha. apply (core_resume x i s _ C); [by apply finish_receive_moved; [apply C|]| |done|apply C].
  cbn [pool finish_receive note_receive task64_set_result set_pool]. unfold task_state_set, task_state_set_locked. by fields.
Qed.

Lemma deliver_core x o e r a m s : core x s -> core x (snd (deliver o e r a m s)).
Proof.
  intros C. unfold deliver. pose proof (copy_to_ok (tasks (pool s) r f_page_dir) a m (memory s) (v_memory _ _ C)) as Hm.
  destruct copy_to as [ok w]. by apply (core_same x s).
Qed.

Lemma deliver_pool o e r a m s : pool (snd (deliver o e r a m s)) = pool s.
Proof. unfold deliver. by destruct copy_to. Qed.

Lemma break_loop_core x n cursor sender s :
  core x s -> (forall c, cursor = Some c -> alive (pool s) c) -> core x (break_loop n cursor sender s).
Proof.
  revert cursor s. induction n as [|n IH]; intros [cursor|] s C Ha; cbn [break_loop]; [done..| |done].
  destruct (cursor =? sender); [done|]. destruct (negb _) eqn:Hst; [done|].
  apply IH; [by apply finish_send_core, Ha|]. intros c Hc.
  rewrite (moved_live cursor (pool s)) by (apply finish_send_moved; [apply C|by apply Ha]).
  by apply task_for_pid_spec in Hc as [? _]; [|apply C].
Qed.

Lemma send_now_core x i r m s : core x s -> alive (pool s) r -> core x (snd (send_now i r m s)).
Proof.
  intros C Ha. unfold send_now. set (dv := deliver _ _ _ _ _ _).
  assert (core x dv.2) as C' by (by apply deliver_core). assert (pool dv.2 = pool s) as Hp by apply deliver_pool.
  destruct dv as [res s']. cbn [fst snd] in *. apply finish_receive_core; [done|by rewrite Hp].
Qed.

(** ** The calls of a running task *)

Definition running (p : Task.pool) (c : Z) : Prop := slot_of p c /\ tasks p c f_state = TASK_RUNNING.

Lemma running_alive p c : running p c -> alive p c.
Proof. intros [Hs Hst]. split; [done|]. by rewrite Hst. Qed.

Definition park_send (c destination deadline : Z) (m : message) (timed : bool) s : ipc W :=
  let s := set_pending c m true timed s in
  set_pool (task_state_set (Some c) TASK_BLOCKED_SEND
    (write c [(f_send_to, destination); (f_send_deadline, deadline)] (pool s))) s.

Definition park_receive (c address expected : Z) s : ipc W :=
  set_pool (task_state_set (Some c) TASK_BLOCKED_RECV
    (write c [(f_recv_buf, address); (f_recv_expect, expected)] (pool s))) s.

Lemma park_send_core c d dl m timed r s :
  core 0 s -> running (pool s) c -> task_for_pid d (pool s) = Some r -> r <> c ->
  accepts r c (pool s) = false -> deadlock c r (pool s) = false -> core 0 (park_send c d dl m timed s).
Proof.
  intros C Hc Hr Hne Hac Hd. apply (core_change 0 c s _ C). split.
  - apply moved_set; done || set_solver || (apply C || by apply running_alive).
  - intros i Hi. by apply upd_ne.
  - apply C.
  - intros _. split; [apply upd_eq|]. exists r. cbn [park_send pool set_pool]. unfold task_state_set, task_state_set_locked. fields.
    split; [done|]. split; [done|]. split; [done|]. by apply (deadlock_free (Z.to_nat MAX_TASKS)).
  - cbn [park_send pool set_pool]. unfold task_state_set, task_state_set_locked. by fields.
Qed.

Lemma park_receive_core c a e s :
  core 0 s -> running (pool s) c -> a <> 0 -> (e = 0 \/ exists i, task_for_pid e (pool s) = Some i) ->
  (forall i, slot_of (pool s) i -> offers i c e s = false) -> core 0 (park_receive c a e s).
Proof.
  intros C Hc Ha He Ho. apply (core_change 0 c s _ C).
  assert (moved c (pool s) (pool (park_receive c a e s))) as M.
  { apply moved_set; done || set_solver || (apply C || by apply running_alive). }
  assert (tasks (pool (park_receive c a e s)) c f_recv_buf = a /\ tasks (pool (park_receive c a e s)) c f_recv_expect = e /\
          tasks (pool (park_receive c a e s)) c f_state = TASK_BLOCKED_RECV) as (Hb & Hx & Hst).
  { cbn [park_receive pool set_pool]. unfold task_state_set, task_state_set_locked. by fields. }
  split; [done|done|apply C|by rewrite Hst|]. intros _. rewrite Hb, Hx. split; [done|]. split; [done|]. intros i Hi Hw.
  unfold accepts. rewrite Hb, Hx, Hst, (moved_id _ _ _ _ M). pose proof (Ho i (proj1 (proj1 Hw))) as Hoi. unfold offers in Hoi.
  rewrite (v_pending _ _ C i) in Hoi by (apply Hw || (destruct Hw as [[Hs _] _]; unfold slot_of in Hs; lia)).
  destruct Hw as [[_ Hsend] [_ Hto]%task_for_pid_spec]; [|apply C]. rewrite Hsend, Hto, !Z.eqb_refl in Hoi.
  cbn [andb] in Hoi. destruct (nz e) eqn:Hn; cbn [negb orb] in *; [|done].
  apply Z.eqb_neq in Hoi. rewrite (proj2 (Z.eqb_neq e (u32 (tasks (pool s) i f_id)))) by congruence. apply andb_false_r.
Qed.

(** A call that parked its task and found nothing else to run takes it back. *)
Lemma unpark_core c l s s' s'' :
  core 0 s -> running (pool s) c -> moved c (pool s) (pool s') ->
  (forall i, i <> c -> pending_valid s'' i = pending_valid s i) -> memory_ok (memory s'') ->
  f_id ∉ l.*1 -> f_gen ∉ l.*1 -> pool s'' = task_state_set (Some c) TASK_RUNNING (write c l (pool s')) -> core 0 s''.
Proof.
  intros C Hc M Hp Hm Hi Hg Hq. apply (core_resume 0 c s _ C); [| |done|done]; rewrite Hq.
  - eapply moved_trans; [exact M|]. apply moved_set; done || apply M.
  - unfold task_state_set, task_state_set_locked. by fields.
Qed.

Lemma copy_from_core x d a s : core x s -> core x (set_memory (snd (copy_from d a (memory s))) s).
Proof. intros C. apply (core_same x s); [done..|]. apply copy_from_ok, C. Qed.

Lemma send_internal_core cpu c d a dl timed s :
  core 0 s -> running (pool s) c -> core 0 (snd (send_internal cpu c d a dl timed s)).
Proof.
  intros C Hc. unfold send_internal. destruct (task_for_pid d (pool s)) as [r|] eqn:Hr; [|done].
  destruct (Z.eqb_spec r c) as [|Hne]; [done|]. pose proof (copy_from_core 0 (tasks (pool s) c f_page_dir) a s C) as C1.
  destruct (copy_from _ _ _) as [[m|] w]; cbn [fst snd] in *; [|done]. cbv zeta. set (s1 := set_memory w s) in *.
  assert (alive (pool s1) r) as Har by (by apply task_for_pid_spec in Hr as [? _]; [|apply C]).
  destruct (accepts r c (pool s1)) eqn:Hac.
  { pose proof (send_now_core 0 c r m s1 C1 Har) as C2. by destruct send_now. }
  destruct (deadlock c r (pool s1)) eqn:Hd; cbn [snd].
  { apply break_loop_core; [done|]. by intros ? [= <-]. }
  fold (park_send c d dl m timed s1). pose proof (park_send_core c d dl m timed r s1 C1 Hc Hr Hne Hac Hd) as C2.
  destruct (_ <? 0); cbn [snd]; [|exact C2].
  eapply (unpark_core c _ s1 (park_send c d dl m timed s1)); [done|done| | |apply C1| | |done]; [|intros i Hi|set_solver..].
  - apply moved_set; done || set_solver || (apply C || by apply running_alive).
  - cbn. by rewrite !upd_ne.
Qed.

Lemma note_sent_core x c r : core x (snd r) -> core x (snd (note_sent c r)).
Proof. destruct r as [[res|] s]; [|done]. intros C. apply (core_same x s); [done..|apply C]. Qed.

Lemma send_nb_core c d a s : core 0 s -> core 0 (snd (ipc64_send_nb c d a s)).
Proof.
  intros C. apply note_sent_core. destruct (task_for_pid d (pool s)) as [r|] eqn:Hr; [|done].
  destruct (r =? c); [done|]. destruct (negb _); [done|]. pose proof (copy_from_core 0 (tasks (pool s) c f_page_dir) a s C) as C1.
  destruct (copy_from _ _ _) as [[m|] w]; cbn [fst snd] in *; [|done]. cbv zeta.
  assert (alive (pool s) r) as Har by (by apply task_for_pid_spec in Hr as [? _]; [|apply C]).
  pose proof (send_now_core 0 c r m (set_memory w s) C1 Har) as C2. by destruct send_now.
Qed.

Lemma receive_core cpu c e a s : core 0 s -> running (pool s) c -> core 0 (snd (receive cpu c e a s)).
Proof.
  intros C Hc. unfold receive. pose proof (access_ok (tasks (pool s) c f_page_dir) a (memory s) (v_memory _ _ C)) as Hm.
  destruct (user_access _ _ _) as [ok w] eqn:Hua. cbn [snd] in Hm. cbv zeta. set (s1 := set_memory w s).
  assert (core 0 s1) as C1 by (by apply (core_same 0 s)). destruct ok; cbn [negb]; [|done].
  destruct (_ =? _); [done|]. destruct (nz e && _) eqn:He; [by apply deliver_core|].
  destruct (scan_range _ _ _) as [i|] eqn:Hs.
  - apply scan_range_Some in Hs as (Hi & Ho & _). set (dv := deliver _ _ _ _ _ _).
    assert (core 0 dv.2) as C' by (by apply deliver_core). assert (pool dv.2 = pool s1) as Hp by apply deliver_pool.
    destruct dv as [res s']. cbn [fst snd] in *. apply finish_send_core; [done|]. rewrite Hp. apply sending_alive.
    unfold offers in Ho. boolify. by split.
  - fold (park_receive c a e s1).
    assert (core 0 (park_receive c a e s1)) as C2.
    { apply park_receive_core; [done|done| | |].
      - by apply (access_writable _ _ (died e)) in Hua as [? _]; [|apply C].
      - apply andb_false_iff in He as [Hn|Hn]; [left; by apply nz_false|right].
        destruct (task_for_pid e (pool s1)); [eauto|done].
      - intros i Hi. by eapply scan_range_None in Hs. }
    destruct (_ <? 0); cbn [snd]; [|exact C2].
    eapply (unpark_core c _ s1 (park_receive c a e s1)); [done|done| |done|apply C1| | |done]; [|set_solver..].
    apply moved_set; done || set_solver || (apply C || by apply running_alive).
Qed.

Lemma recv_core cpu c e a s : core 0 s -> running (pool s) c -> core 0 (snd (ipc64_recv cpu c e a s)).
Proof.
  intros C Hc. pose proof (receive_core cpu c e a s C Hc) as C1. unfold ipc64_recv. destruct receive as [[res|] s1]; [|done].
  apply (core_same 0 s1); [done..|apply C1].
Qed.

(** ** The end of a task, the clock and the rest of the kernel *)

(** Nobody is parked with the task [x] as its peer. *)
Definition forgotten (x : Z) (p : Task.pool) : Prop :=
  forall i, ~ waits p i x /\ (receiving p i -> task_for_pid (tasks p i f_recv_expect) p <> Some x).

Lemma died_slot_core x pid i s : core x s -> slot_of (pool s) i -> core x (died_slot pid i s).
Proof.
  intros C Hi. unfold died_slot. set (s1 := if (_ =? TASK_BLOCKED_SEND) && _ then _ else _).
  assert (core x s1 /\ slot_of (pool s1) i) as [C1 Hi1].
  { unfold s1. destruct (_ && _) eqn:Hs; [|by split]. boolify. split; [|exact Hi]. by apply finish_send_core; [|apply sending_alive]. }
  destruct (_ && _ && _) eqn:Hr; [|done]. boolify. set (dv := deliver _ _ _ _ _ _).
  assert (core x dv.2) as C' by (by apply deliver_core). assert (pool dv.2 = pool s1) as Hp by apply deliver_pool.
  destruct dv as [res s']. cbn [fst snd] in *. apply finish_receive_core; [done|]. rewrite Hp. by apply receiving_alive.
Qed.

(** The slot [i] is not parked with the identifier [pid] as its peer. *)
Definition apart (pid i : Z) (p : Task.pool) : Prop :=
  ~ (tasks p i f_state = TASK_BLOCKED_SEND /\ tasks p i f_send_to = pid) /\
  ~ (tasks p i f_state = TASK_BLOCKED_RECV /\ nz (tasks p i f_recv_buf) = true /\ tasks p i f_recv_expect = pid).

Lemma died_slot_pool pid i s :
  task_pool_count (pool (died_slot pid i s)) = task_pool_count (pool s) /\
  (forall j, j <> i -> tasks (pool (died_slot pid i s)) j = tasks (pool s) j) /\
  (forall j, tasks (pool (died_slot pid i s)) j f_id = tasks (pool s) j f_id) /\
  apart pid i (pool (died_slot pid i s)).
Proof.
  unfold died_slot. set (s1 := if (_ =? TASK_BLOCKED_SEND) && _ then _ else _).
  assert (task_pool_count (pool s1) = task_pool_count (pool s) /\ (forall j, j <> i -> tasks (pool s1) j = tasks (pool s) j) /\
    (forall j, tasks (pool s1) j f_id = tasks (pool s) j f_id) /\
    ~ (tasks (pool s1) i f_state = TASK_BLOCKED_SEND /\ tasks (pool s1) i f_send_to = pid)) as (H1 & H2 & H3 & H4).
  { unfold s1. destruct (_ && _) eqn:Hs.
    - cbn [finish_send note_send task64_set_result set_pool pool]. unfold task_state_set, task_state_set_locked. split; [done|]. split; [|split].
      + intros j Hj. by rewrite !write_other.
      + intros j. destruct (decide (j = i)) as [->|Hj]; [by fields|by rewrite !write_other].
      + fields. by intros [? _].
    - split_and!; try done. intros [Hst Hto]. by rewrite Hst, Hto, !Z.eqb_refl in Hs. }
  destruct (_ && _ && _) eqn:Hr.
  - set (dv := deliver _ _ _ _ _ _). assert (pool dv.2 = pool s1) as Hp by apply deliver_pool. destruct dv as [res s'].
    cbn [snd finish_receive note_receive task64_set_result set_pool pool] in *. unfold task_state_set, task_state_set_locked.
    rewrite Hp. split; [done|]. split; [|split; [|split]].
    + intros j Hj. rewrite !write_other by done. auto.
    + intros j. rewrite <- H3. destruct (decide (j = i)) as [->|Hj]; [by fields|by rewrite !write_other].
    + fields. by intros [? _].
    + fields. by intros [? _].
  - do 3 (split; [done|]). split; [done|]. intros (Hst & Hb & He). by rewrite Hst, Hb, He, !Z.eqb_refl in Hr.
Qed.

Lemma apart_forgotten x s :
  core x s -> (forall i, slot_of (pool s) i -> apart (u32 (tasks (pool s) x f_id)) i (pool s)) ->
  forgotten x (pool s).
Proof.
  intros C Ha i. split.
  - intros [[Hi Hst] [_ Hto]%task_for_pid_spec]; [|apply C]. by apply (proj1 (Ha i Hi)).
  - intros Hr [_ He]%task_for_pid_spec; [|apply C]. destruct (v_recv _ _ C i Hr) as [Hb _]. destruct Hr as [Hi Hst].
    apply (proj2 (Ha i Hi)). split; [done|]. split; [by apply nz_true|done].
Qed.

Lemma died_clear_core x s : core 0 s -> core x (clear_pending x s).
Proof.
  intros C. destruct C as [? Hp]. split; try done. intros i Hi Hx. cbn. rewrite upd_ne by done.
  apply Hp; [done|]. destruct Hi as [Hs _]. unfold slot_of in Hs. lia.
Qed.

Lemma task_died_core x s :
  core 0 s -> alive (pool s) x ->
  let s' := ipc64_task_died (u32 (tasks (pool s) x f_id)) s in
  core x s' /\ forgotten x (pool s') /\ tasks (pool s') x f_id = tasks (pool s) x f_id.
Proof.
  intros C Hx. set (pid := u32 (tasks (pool s) x f_id)). cbv zeta. unfold ipc64_task_died.
  destruct (id_u32 _ x (v_pool _ _ C) Hx) as [Hsl _]. fold pid in Hsl. rewrite Hsl.
  pose proof (inv_count _ (v_pool _ _ C)) as Hn. pose proof Hx as [Hxs _]. unfold slot_of in Hxs.
  rewrite (proj2 (Z.ltb_lt x MAX_TASKS)) by lia. set (s1 := clear_pending x s).
  pose proof (for_range_ind (fun k s' => core x s' /\ task_pool_count (pool s') = task_pool_count (pool s) /\
    (forall i, tasks (pool s') i f_id = tasks (pool s) i f_id) /\
    forall i, 1 <= i < k -> apart pid i (pool s')) 1 (task_pool_count (pool s1)) (died_slot pid) s1) as Hind.
  destruct Hind as (C' & Hc & Hid & Hap).
  - split; [by apply died_clear_core|]. do 2 (split; [done|]). intros; lia.
  - intros k s' Hk (C' & Hc & Hid & Hap). destruct (died_slot_pool pid k s') as (Hc' & Ho & Hid' & Hap').
    split; [apply died_slot_core; [done|unfold slot_of; rewrite Hc; exact Hk]|]. split; [by rewrite Hc'|].
    split; [intros i; by rewrite Hid'|]. intros i Hi. destruct (decide (i = k)) as [->|Hne]; [done|].
    unfold apart. rewrite Ho by done. apply Hap. lia.
  - split; [done|]. split; [|by rewrite Hid]. apply apart_forgotten; [done|]. intros i Hi. rewrite Hid. apply Hap.
    unfold slot_of in Hi. rewrite Hc in Hi. cbn in *. lia.
Qed.

Lemma tick_slot_core now i s : core 0 s -> slot_of (pool s) i -> core 0 (tick_slot now i s).
Proof.
  intros C Hi. unfold tick_slot. destruct (_ || _) eqn:Ht; [done|]. boolify. by apply finish_send_core; [|apply sending_alive].
Qed.

Lemma tick_core now s : core 0 s -> core 0 (ipc64_tick now s).
Proof.
  intros C. unfold ipc64_tick.
  apply (for_range_ind (fun _ s' => core 0 s' /\ task_pool_count (pool s') = task_pool_count (pool s))); [done|].
  intros i s' Hi [C' Hc]. split; [apply tick_slot_core; [done|]; unfold slot_of; by rewrite Hc|].
  unfold tick_slot. by destruct (_ || _).
Qed.

(** What the rest of the kernel does to the pool while the task [x] goes away
    (0 if none does): live tasks stay live under their identifier, and a task
    that is parked in a message call afterwards was parked in it before.  New
    tasks may appear, and a parked task may be stopped. *)
Record others (x : Z) (p p' : Task.pool) : Prop := {
  o_inv : Task.inv p';
  o_alive : forall i, alive p i -> i <> x -> alive p' i /\ tasks p' i f_id = tasks p i f_id;
  o_gone : ~ alive p' x;
  o_parked : forall i, sending p' i \/ receiving p' i -> slot_of p i /\
    forall f, f ∈ [f_id; f_state; f_send_to; f_recv_buf; f_recv_expect] -> tasks p' i f = tasks p i f
}.

Section Others.
Context (x : Z) (s : ipc W) (p' : Task.pool) (C : core x s) (F : forgotten x (pool s)) (O : others x (pool s) p').

Lemma others_pid pid r : r <> x -> task_for_pid pid (pool s) = Some r -> task_for_pid pid p' = Some r.
Proof.
  intros Hne [Ha ->]%task_for_pid_spec; [|apply C]. apply task_for_pid_spec; [apply O|].
  destruct (o_alive _ _ _ O r Ha Hne) as [Ha' ->]. done.
Qed.

Lemma others_sending i : sending p' i -> sending (pool s) i /\ tasks p' i f_send_to = tasks (pool s) i f_send_to.
Proof.
  intros Hi. destruct (o_parked _ _ _ O i (or_introl Hi)) as [Hs Hf]. destruct Hi as [_ Hst].
  rewrite Hf in Hst by set_solver. rewrite Hf by set_solver. done.
Qed.

Lemma others_receiving i :
  receiving p' i -> receiving (pool s) i /\ tasks p' i f_recv_buf = tasks (pool s) i f_recv_buf /\
  tasks p' i f_recv_expect = tasks (pool s) i f_recv_expect.
Proof.
  intros Hi. destruct (o_parked _ _ _ O i (or_intror Hi)) as [Hs Hf]. destruct Hi as [_ Hst].
  rewrite Hf in Hst by set_solver. rewrite !Hf by set_solver. done.
Qed.

Lemma others_waits i r : waits p' i r -> waits (pool s) i r.
Proof.
  intros [Hi Hr]. destruct (others_sending i Hi) as [Hs Hto]. destruct (v_send _ _ C i Hs) as (r' & Hw & _).
  split; [done|]. destruct Hw as [? Hr']. assert (r' <> x) as Hne by (intros ->; by apply (proj1 (F i))).
  pose proof (others_pid _ _ Hne Hr') as Hr2. rewrite <- Hto, Hr in Hr2. by simplify_eq.
Qed.

Lemma others_path i r : tc (waits p') i r -> tc (waits (pool s)) i r.
Proof. induction 1 as [a b Hab|a z b Haz _ IH]; [by apply tc_once, others_waits|]. eapply tc_l; [by apply others_waits|exact IH]. Qed.

Lemma others_core : core 0 (set_pool p' s).
Proof.
  split; cbn [pool set_pool memory pending_valid].
  - apply O.
  - intros i Hi _. destruct (others_sending i Hi) as [Hs _]. apply (v_pending _ _ C); [done|]. intros ->.
    by apply (o_gone _ _ _ O), sending_alive.
  - intros i Hi. destruct (others_sending i Hi) as [Hs Hto]. destruct (v_send _ _ C i Hs) as (r & [_ Hr] & Hne).
    exists r. split; [|done]. split; [done|]. rewrite Hto. apply others_pid; [|done]. intros ->. by apply (proj1 (F i)).
  - intros i Hi. destruct (others_receiving i Hi) as (Hr & -> & ->). destruct (v_recv _ _ C i Hr) as [Hb He]. split; [done|].
    destruct He as [He|(e & He)]; [by left|right]. exists e. apply others_pid; [|done]. intros ->. by apply (proj2 (F i)).
  - intros i r Hw. destruct (accepts r i p') eqn:Hac; [|done]. pose proof (others_waits i r Hw) as Hw'.
    rewrite <- (v_meet _ _ C i r Hw'), <- Hac. unfold accepts in *. boolify.
    assert (receiving p' r) as Hr.
    { split; [|done]. destruct Hw as [_ [(Hs & _) _]%task_for_pid_spec]; [done|apply O]. }
    destruct (others_receiving r Hr) as ([_ Hst] & -> & ->). destruct Hw as [Hi _].
    destruct (o_parked _ _ _ O i (or_introl Hi)) as [_ Hf]. by rewrite (Hf f_id), Hst, (proj2 Hr) by set_solver.
  - intros i Ht. by apply (v_acyclic _ _ C i), others_path.
  - apply C.
Qed.

End Others.

End Invariant.

End IpcInv.
