(* ===== verification/IpcTheorems.v ===== *)
(** Message passing: histories of calls, and what they guarantee.

    A history interleaves the calls of running tasks with the clock, the ends
    of tasks and whatever the rest of the kernel does to tasks that are not
    parked in a message call. *)

From S2P Require Import Prelude Task Ipc IpcInv.

Module IpcTheorems.
Import Task Ipc IpcInv.

Section Histories.
Context {W : Type} `{IpcMemoryLaws W}.
Implicit Types s : ipc W.

(** ** The books *)

Definition answered (l : list (Z * Z)) : list Z := omap (fun '(i, r) => if r =? 0 then Some i else None) l.

Definition senders (l : list delivery) : list Z := omap (fun d => if d_ok d then fst <$> d_from d else None) l.

Definition receivers (l : list delivery) : list Z := omap (fun d => if d_ok d then Some (d_to d) else None) l.

(** The message carries the identifier of its sender, comes from the task the
    receiver asked for, and is a notice of death if no task sent it. *)
Definition genuine (d : delivery) : Prop :=
  (d_expected d = 0 \/ from_id (d_message d) = d_expected d) /\
  match d_from d with
  | Some (_, pid) => from_id (d_message d) = pid
  | None => type (d_message d) = MSG_DIED
  end.

(** Entries added to the logs: a successful delivery is a send and a receive
    that succeed.  A notice of the kernel has no sender. *)
Definition entered s s' : Prop :=
  exists ds ss rs,
    deliveries s' = deliveries s ++ ds /\ sends s' = sends s ++ ss /\ receives s' = receives s ++ rs /\
    senders ds = answered ss /\ receivers ds = answered rs /\ Forall genuine ds.

Lemma entered_same s s' :
  deliveries s' = deliveries s -> sends s' = sends s -> receives s' = receives s -> entered s s'.
Proof. intros H1 H2 H3. exists [], [], []. rewrite !app_nil_r. done. Qed.

Lemma entered_trans s s' s'' : entered s s' -> entered s' s'' -> entered s s''.
Proof.
  intros (ds & ss & rs & H1 & H2 & H3 & H4 & H5 & H6) (ds' & ss' & rs' & K1 & K2 & K3 & K4 & K5 & K6).
  exists (ds ++ ds'), (ss ++ ss'), (rs ++ rs'). rewrite !app_assoc, K1, K2, K3, H1, H2, H3.
  do 3 (split; [done|]). unfold senders, receivers, answered in *. rewrite !omap_app, K4, K5, H4, H5.
  split; [done|]. split; [done|]. by apply Forall_app.
Qed.

Lemma finish_send_entered i r s : r <> 0 -> entered s (finish_send i r s).
Proof.
  intros Hr. exists [], [(i, r)], []. rewrite !app_nil_r. do 3 (split; [done|]). cbn.
  by rewrite (proj2 (Z.eqb_neq r 0)).
Qed.

Lemma break_loop_entered n cursor c s : entered s (break_loop n cursor c s).
Proof.
  revert cursor s. induction n as [|n IH]; intros [cursor|] s; cbn [break_loop]; try by apply entered_same.
  destruct (cursor =? c); [by apply entered_same|]. destruct (negb _); [by apply entered_same|].
  eapply entered_trans; [by apply (finish_send_entered cursor EDEADLK)|apply IH].
Qed.

(** A delivery that answers its sender and its receiver. *)
Lemma transfer_entered o e r a m c s s' :
  genuine (Delivery (Some (c, o)) r e m true) ->
  let '(res, s1) := deliver (Some (c, o)) e r a m s in
  deliveries s' = deliveries s1 -> sends s' = sends s1 ++ [(c, res)] -> receives s' = receives s1 ++ [(r, res)] -> entered s s'.
Proof.
  intros Hg. unfold deliver. destruct copy_to as [ok w]. cbn. intros H1 H2 H3.
  exists [Delivery (Some (c, o)) r e m ok], [(c, if ok then 0 else EINVAL)], [(r, if ok then 0 else EINVAL)]. rewrite H1, H2, H3.
  do 3 (split; [done|]). destruct ok; (split; [done|]; split; [done|]); by apply Forall_singleton.
Qed.

(** A notice that answers its receiver. *)
Lemma notice_entered e r a pid s s' :
  e = pid -> 
  let '(res, s1) := deliver None e r a (died pid) s in
  deliveries s' = deliveries s1 -> sends s' = sends s1 -> receives s' = receives s1 ++ [(r, res)] -> entered s s'.
Proof.
  intros ->. unfold deliver. destruct copy_to as [ok w]. cbn. intros H1 H2 H3.
  exists [Delivery None r pid (died pid) ok], [], [(r, if ok then 0 else EINVAL)]. rewrite H1, H2, H3, app_nil_r.
  do 3 (split; [done|]). destruct ok; (split; [done|]; split; [done|]); apply Forall_singleton; split; [by right|done|by right|done].
Qed.

Lemma send_now_entered c r m s :
  accepts r c (pool s) = true ->
  let '(res, s') := send_now c r m s in entered s (note_send c res s').
Proof.
  intros Hac. unfold send_now. set (e := tasks (pool s) r f_recv_expect). set (m' := Message _ _ _).
  pose proof (transfer_entered (u32 (tasks (pool s) c f_id)) e r (tasks (pool s) r f_recv_buf) m' c s) as Ht.
  unfold named. destruct (deliver _ _ _ _ _ _) as [res s1]. apply Ht; [|done..]. split; [|done].
  unfold accepts in Hac. apply andb_true_iff in Hac as [_ He]. cbn. fold e in He.
  apply orb_true_iff in He as [He|He]; [left; apply negb_true_iff, nz_false in He; done|right]. by apply Z.eqb_eq in He.
Qed.

Lemma ret_entered c r s s' : r <> 0 -> entered s s' -> entered s (note_send c r s').
Proof.
  intros Hr He. eapply entered_trans; [exact He|]. exists [], [(c, r)], []. rewrite !app_nil_r. do 3 (split; [done|]). cbn.
  by rewrite (proj2 (Z.eqb_neq r 0)).
Qed.

Lemma send_internal_entered cpu c d a dl timed s : entered s (snd (note_sent c (send_internal cpu c d a dl timed s))).
Proof.
  unfold send_internal. destruct (task_for_pid d (pool s)) as [r|]; [|by apply ret_entered, entered_same].
  destruct (r =? c); [by apply ret_entered, entered_same|]. destruct (copy_from _ _ _) as [[m|] w]; [|by apply ret_entered, entered_same].
  cbv zeta. destruct (accepts r c _) eqn:Hac.
  { pose proof (send_now_entered c r m (set_memory w s) Hac) as He. destruct send_now as [res s']. cbn [note_sent snd].
    eapply entered_trans; [|exact He]. by apply entered_same. }
  destruct (deadlock _ _ _); cbn [note_sent snd].
  { apply ret_entered; [done|]. eapply entered_trans; [|apply break_loop_entered]. by apply entered_same. }
  destruct (_ <? 0); cbn [note_sent snd]; [apply ret_entered; [done|]|]; by apply entered_same.
Qed.

Lemma send_nb_entered c d a s : entered s (snd (ipc64_send_nb c d a s)).
Proof.
  unfold ipc64_send_nb. destruct (task_for_pid d (pool s)) as [r|]; [|by apply ret_entered, entered_same].
  destruct (r =? c); [by apply ret_entered, entered_same|].
  destruct (accepts r c _) eqn:Hac; cbn [negb]; [|by apply ret_entered, entered_same].
  destruct (copy_from _ _ _) as [[m|] w]; [|by apply ret_entered, entered_same]. cbv zeta.
  pose proof (send_now_entered c r m (set_memory w s) Hac) as He. destruct send_now as [res s']. cbn [note_sent snd].
  eapply entered_trans; [|exact He]. by apply entered_same.
Qed.

Lemma recv_entered cpu c e a s : memory_ok (memory s) -> entered s (snd (ipc64_recv cpu c e a s)).
Proof.
  intros Hm. unfold ipc64_recv, receive. destruct (user_access _ _ _) as [ok w] eqn:Hua. cbv zeta. set (s1 := set_memory w s).
  assert (forall r, r <> 0 -> entered s (note_receive c r s1)) as Hret.
  { intros r Hr. exists [], [], [(c, r)]. rewrite !app_nil_r. do 3 (split; [done|]). cbn. by rewrite (proj2 (Z.eqb_neq r 0)). }
  destruct ok; cbn [negb]; [|by apply Hret]. destruct (e =? _); [by apply Hret|]. destruct (nz e && _).
  { pose proof (access_writable _ _ (died e) _ _ Hm Hua) as [_ Hok].
    pose proof (notice_entered e c a e s1) as Hn. unfold deliver in *. cbn [s1 set_memory memory pool] in *.
    destruct copy_to as [ok w']. cbn in Hok. subst ok. eapply entered_trans; [|by apply Hn]. by apply entered_same. }
  destruct (scan_range _ _ _) as [i|] eqn:Hs.
  - apply scan_range_Some in Hs as (Hi & Ho & _). set (m' := Message _ _ _).
    pose proof (transfer_entered (u32 (tasks (pool s1) i f_id)) e c a m' i s1) as Ht. unfold named.
    destruct (deliver _ _ _ _ _ _) as [res s2]. cbn [snd]. apply (entered_trans _ s1); [by apply entered_same|].
    apply Ht; [|done..]. split; [|done]. unfold offers in Ho. apply andb_true_iff in Ho as [_ He]. cbn.
    apply orb_true_iff in He as [He|He]; [left; apply negb_true_iff, nz_false in He; done|right]. by apply Z.eqb_eq in He.
  - destruct (_ <? 0); cbn [snd]; [|by apply entered_same].
    eapply entered_trans; [by apply (Hret EDEADLK)|]. by apply entered_same.
Qed.

Lemma died_slot_entered pid i s : entered s (died_slot pid i s).
Proof.
  unfold died_slot. set (s1 := if (_ =? TASK_BLOCKED_SEND) && _ then _ else _). apply (entered_trans _ s1).
  { unfold s1. destruct (_ && _); [by apply finish_send_entered|by apply entered_same]. }
  destruct (_ && _ && _) eqn:Hr; [|by apply entered_same]. boolify.
  pose proof (notice_entered (tasks (pool s1) i f_recv_expect) i (tasks (pool s1) i f_recv_buf) pid s1) as Hn.
  destruct (deliver _ _ _ _ _ _) as [res s2]. by apply Hn.
Qed.

Lemma task_died_entered pid s : entered s (ipc64_task_died pid s).
Proof.
  unfold ipc64_task_died. set (s1 := if _ <? _ then _ else _). apply (entered_trans _ s1).
  { unfold s1. destruct (_ <? _); by apply entered_same. }
  apply (for_range_ind (fun _ s' => entered s1 s')); [by apply entered_same|]. intros i s' _ Hs.
  eapply entered_trans; [exact Hs|apply died_slot_entered].
Qed.

Lemma tick_entered now s : entered s (ipc64_tick now s).
Proof.
  apply (for_range_ind (fun _ s' => entered s s')); [by apply entered_same|]. intros i s' _ Hs.
  eapply entered_trans; [exact Hs|]. unfold tick_slot. destruct (_ || _); [by apply entered_same|by apply finish_send_entered].
Qed.

(** ** Histories *)

Inductive step : ipc W -> ipc W -> Prop :=
  | step_send cpu c destination address s :
      running (pool s) c -> step s (snd (ipc64_send cpu c destination address s))
  | step_send_timeout cpu c destination address deadline s :
      running (pool s) c -> step s (snd (ipc64_send_timeout cpu c destination address deadline s))
  | step_send_nb c destination address s :
      running (pool s) c -> step s (snd (ipc64_send_nb c destination address s))
  | step_recv cpu c expected address s :
      running (pool s) c -> step s (snd (ipc64_recv cpu c expected address s))
  | step_tick now s : step s (ipc64_tick now s)
  | step_terminate x p' s :
      let s' := ipc64_task_died (u32 (tasks (pool s) x f_id)) s in
      alive (pool s) x -> others x (pool s') p' -> step s (set_pool p' s')
  | step_others p' w s :
      others 0 (pool s) p' -> memory_ok w -> step s (set_memory w (set_pool p' s)).

(** Nobody is parked in a message call and nothing was sent yet. *)
Record quiet s : Prop := {
  q_pool : Task.inv (pool s);
  q_parked : forall i, ~ sending (pool s) i /\ ~ receiving (pool s) i;
  q_memory : memory_ok (memory s);
  q_deliveries : deliveries s = [];
  q_sends : sends s = [];
  q_receives : receives s = []
}.

Definition reachable s : Prop := exists s0, quiet s0 /\ rtc step (ipc64_init s0) s.

Lemma forgotten_none s x : core x s -> forgotten 0 (pool s).
Proof.
  intros C i. split.
  - intros [_ [(Hs & _) _]%task_for_pid_spec]; [|apply C]. unfold slot_of in Hs. lia.
  - intros _ [(Hs & _) _]%task_for_pid_spec; [|apply C]. unfold slot_of in Hs. lia.
Qed.

Lemma step_core s s' : core 0 s -> step s s' -> core 0 s'.
Proof.
  intros C St. destruct St as [| | | | |x p' s s1 Ha Ho|p' w s Ho Hw].
  - by apply note_sent_core, send_internal_core.
  - by apply note_sent_core, send_internal_core.
  - by apply send_nb_core.
  - by apply recv_core.
  - by apply tick_core.
  - destruct (task_died_core x s C Ha) as (C1 & F & _). by apply (others_core x).
  - apply (core_same 0 (set_pool p' s)); [|done..]. apply (others_core 0); [done|by eapply forgotten_none|done].
Qed.

Lemma step_entered s s' : core 0 s -> step s s' -> entered s s'.
Proof.
  intros C St. destruct St as [| | | | |x p' s s1 Ha Ho|p' w s Ho Hw].
  - apply send_internal_entered.
  - apply send_internal_entered.
  - apply send_nb_entered.
  - apply recv_entered, C.
  - apply tick_entered.
  - eapply entered_trans; [apply task_died_entered|]. by apply entered_same.
  - by apply entered_same.
Qed.

Lemma init_same s :
  pool (ipc64_init s) = pool s /\ memory (ipc64_init s) = memory s /\ deliveries (ipc64_init s) = deliveries s /\
  sends (ipc64_init s) = sends s /\ receives (ipc64_init s) = receives s.
Proof. apply (for_range_ind (fun _ s' => pool s' = pool s /\ memory s' = memory s /\ deliveries s' = deliveries s /\
  sends s' = sends s /\ receives s' = receives s)); [done|]. by intros i s' _ (? & ? & ? & ? & ?). Qed.

Lemma quiet_core s : quiet s -> core 0 (ipc64_init s).
Proof.
  intros [Hp Hn Hm _ _ _]. destruct (init_same s) as (Hq & Hw & _). split; rewrite ?Hq, ?Hw; try done.
  - intros i Hi. by destruct (Hn i).
  - intros i Hi. by destruct (Hn i).
  - intros i Hi. by destruct (Hn i).
  - intros i r [Hi _]. by destruct (Hn i).
  - intros i Ht. destruct (Hn i) as [Hs _]. apply Hs. by inversion Ht as [? ? Hw1|? ? ? Hw1]; destruct Hw1.
Qed.

Lemma history_core s s' : core 0 s -> rtc step s s' -> core 0 s' /\ entered s s'.
Proof.
  intros C Hr. induction Hr as [s|a b c Hs _ IH]; [split; [done|by apply entered_same]|].
  destruct IH as [Cc He]; [by eapply step_core|]. split; [done|]. eapply entered_trans; [by apply step_entered|done].
Qed.

Lemma reachable_core s : reachable s -> core 0 s.
Proof. intros (s0 & Hq & Hr). by apply (history_core (ipc64_init s0)); [apply quiet_core|]. Qed.

Lemma reachable_entered s :
  reachable s -> senders (deliveries s) = answered (sends s) /\ receivers (deliveries s) = answered (receives s) /\
    Forall genuine (deliveries s).
Proof.
  intros (s0 & Hq & Hr). destruct (history_core (ipc64_init s0) s (quiet_core s0 Hq) Hr) as [_ (ds & ss & rs & H1 & H2 & H3 & H4)].
  destruct (init_same s0) as (_ & _ & E1 & E2 & E3). destruct Hq as [_ _ _ Q1 Q2 Q3].
  rewrite H1, H2, H3, E1, E2, E3, Q1, Q2, Q3. done.
Qed.

(** ** Chains of parked senders *)

#[global] Instance sending_dec p i : Decision (sending p i).
Proof. unfold sending, slot_of. apply _. Defined.

Lemma chain_ends n i s :
  core 0 s -> sending (pool s) i ->
  (exists r, tc (waits (pool s)) i r /\ alive (pool s) r /\ ~ sending (pool s) r) \/ exists r, nsteps (waits (pool s)) n i r.
Proof.
  revert i. induction n as [|n IH]; intros i C Hi; [right; exists i; constructor|].
  destruct (v_send _ _ C i Hi) as (r & Hw & _). destruct (decide (sending (pool s) r)) as [Hr|Hr].
  - destruct (IH r C Hr) as [(e & Ht & He)|(e & Hn)]; [left; exists e; split; [by eapply tc_l|done]|right]. exists e. by eapply nsteps_l.
  - left. exists r. split; [by apply tc_once|]. split; [|done]. by destruct Hw as [_ [? _]%task_for_pid_spec]; [|apply C].
Qed.

(** The path does not go through the task that moved. *)
Lemma path_kept c p p' n a b :
  Task.inv p -> moved c p p' -> (forall y, rtc (waits p) a y -> y <> c) -> nsteps (waits p) n a b -> nsteps (waits p') n a b.
Proof.
  intros Hp M Ha Hn. induction Hn as [|n a z b Haz Hn IH]; [constructor|]. econstructor.
  - by apply (moved_waits c p); [| |apply Ha|].
  - apply IH. intros y Hy. apply Ha. by eapply rtc_l.
Qed.

(** A task that waits for nobody is not touched by the release of a chain. *)
Lemma break_loop_frame n cursor c i s :
  tasks (pool s) i f_state <> TASK_BLOCKED_SEND ->
  tasks (pool (break_loop n cursor c s)) i f_state = tasks (pool s) i f_state /\ rax (break_loop n cursor c s) i = rax s i.
Proof.
  revert cursor s. induction n as [|n IH]; intros [cursor|] s Hi; cbn [break_loop]; try done.
  destruct (cursor =? c); [done|]. destruct (negb _) eqn:Hst; [done|]. boolify.
  assert (i <> cursor) as Hne by congruence.
  assert (tasks (pool (finish_send cursor EDEADLK s)) i = tasks (pool s) i) as Hq.
  { cbn [finish_send note_send task64_set_result set_pool pool]. unfold task_state_set, task_state_set_locked. by rewrite !write_other. }
  destruct (IH (task_for_pid (tasks (pool s) cursor f_send_to) (pool s)) (finish_send cursor EDEADLK s)) as [-> ->]; rewrite Hq; [done|].
  split; [done|]. cbn. destruct (_ <? _); [|done]. by apply upd_ne.
Qed.

Lemma stuck_path c n j p : ~ sending p c -> nsteps (waits p) n c j -> j = c.
Proof. intros Hc Hn. inversion Hn as [|? ? ? ? [Hs _]]; subst; [done|]. done. Qed.

Lemma break_loop_releases n k cursor c i j s :
  core 0 s -> ~ sending (pool s) c -> nsteps (waits (pool s)) k cursor c -> (k <= n)%nat ->
  nsteps (waits (pool s)) j cursor i -> i <> c ->
  tasks (pool (break_loop n (Some cursor) c s)) i f_state = TASK_RUNNING /\ rax (break_loop n (Some cursor) c s) i = EDEADLK.
Proof.
  revert k cursor j s. induction n as [|n IH]; intros k cursor j s C Hc Hk Hle Hj Hne.
  { assert (k = O) as -> by lia. inversion Hk; subst. by apply stuck_path in Hj. }
  inversion Hk as [|k' ? z ? Hw Hk']; subst; [by apply stuck_path in Hj|].
  assert (cursor <> c) as Hcc by (intros ->; by destruct Hw). cbn [break_loop].
  rewrite (proj2 (Z.eqb_neq cursor c) Hcc). destruct Hw as [Hsd Hz]. rewrite (proj2 Hsd), Hz, Z.eqb_refl. cbn [negb].
  cbv zeta. set (s1 := finish_send cursor EDEADLK s).
  assert (alive (pool s) cursor) as Hal by (by apply sending_alive).
  assert (moved cursor (pool s) (pool s1)) as M by (apply finish_send_moved; [apply C|done]).
  assert (core 0 s1) as C1 by (by apply finish_send_core).
  assert (forall y, rtc (waits (pool s)) z y -> y <> cursor) as Havoid.
  { intros y Hy ->. apply (v_acyclic _ _ C cursor). eapply tc_rtc_r; [|exact Hy]. by apply tc_once. }
  inversion Hj as [|j' ? z' ? Hw' Hj']; subst.
  - assert (tasks (pool s1) i f_state = TASK_RUNNING /\ rax s1 i = EDEADLK) as [Hst Hrx].
    { split; [cbn [s1 finish_send note_send task64_set_result set_pool pool]; unfold task_state_set, task_state_set_locked; by fields|].
      cbn. pose proof (inv_count _ (v_pool _ _ C)). destruct Hsd as [Hs _]. unfold slot_of in Hs. rewrite (proj2 (Z.ltb_lt _ _)) by lia. apply upd_eq. }
    destruct (break_loop_frame n (Some z) c i s1) as [-> ->]; [by rewrite Hst|done].
  - destruct Hw' as [_ Hz']. rewrite Hz in Hz'. injection Hz' as <-.
    apply (IH k' z j'); [done| |by apply (path_kept cursor (pool s)); [apply C| | |]|lia|by apply (path_kept cursor (pool s)); [apply C| | |]|done].
    intros [Hs Hst]. apply Hc. unfold slot_of in Hs. rewrite (mv_count _ _ _ M) in Hs. rewrite (mv_others _ _ _ M) in Hst by done. done.
Qed.

End Histories.

(** ** A memory that serves every address but 0 *)

#[local] Instance flat_memory : IpcMemory (Z -> Z -> message) := {
  copy_from := fun d a w => (if a =? 0 then None else Some (w d a), w);
  copy_to := fun d a m w => if a =? 0 then (false, w) else (true, upd w d (upd (w d) a m));
  user_access := fun d a w => (negb (a =? 0), w)
}.

#[local] Instance flat_memory_laws : IpcMemoryLaws (Z -> Z -> message).
Proof. apply (Build_IpcMemoryLaws _ _ (fun _ => True)); try done. intros d a m w w' _. cbn. destruct (Z.eqb_spec a 0); [done|]. intros [= <-]. done. Defined.

(** Tasks 1, 2 and 3 run; nothing was sent yet. *)
Definition example_pool : Task.pool := Pool (fun i f => match f with f_id => i | _ => 0 end) 4.

Definition example_boot : ipc (Z -> Z -> message) :=
  IpcState _ example_pool (fun _ => died 0) (fun _ => false) (fun _ => false) (fun _ => 0)
    (fun d a => Message 0 d [a]) [] [] [].

Local Abbreviation example_start := (ipc64_init example_boot).

Lemma example_pool_inv : Task.inv example_pool.
Proof. split; [by cbn|by cbn| |done]. intros i _. reflexivity. Qed.

Lemma example_reachable s : rtc step example_start s -> reachable s.
Proof.
  intros Hr. exists example_boot. split; [|exact Hr]. split; [apply example_pool_inv| |exact I|reflexivity..].
  intros i. split; intros [_ Hst]; discriminate Hst.
Qed.

(** C15: In every history of message calls, clock ticks and ends of tasks, a
    parked sender holds a message for another task that is alive and is not
    parked in a receive that would take it; a parked receiver that asked for
    one task asked for a task that is alive; and from every parked sender the
    chain of peers leads to a live task that is not parked in a send, so no
    set of tasks waits for itself. *)
Theorem ipc_rendezvous {W} `{IpcMemoryLaws W} (s : ipc W) :
  reachable s ->
  (forall i, sending (pool s) i ->
    pending_valid s i = true /\ exists r, waits (pool s) i r /\ r <> i /\ alive (pool s) r /\ accepts r i (pool s) = false) /\
  (forall i, receiving (pool s) i ->
    tasks (pool s) i f_recv_expect = 0 \/
    exists e, task_for_pid (tasks (pool s) i f_recv_expect) (pool s) = Some e /\ alive (pool s) e) /\
  (forall i, sending (pool s) i -> exists r, tc (waits (pool s)) i r /\ alive (pool s) r /\ ~ sending (pool s) r).
Proof.
  intros C%reachable_core. pose proof (v_pool _ _ C) as Hp. split; [|split].
  - intros i Hi. split; [apply (v_pending _ _ C); [done|]; destruct Hi as [Hs _]; unfold slot_of in Hs; lia|].
    destruct (v_send _ _ C i Hi) as (r & Hw & Hne). exists r. split; [done|]. split; [done|]. split; [|by apply (v_meet _ _ C)].
    by destruct Hw as [_ [? _]%task_for_pid_spec].
  - intros i Hi. destruct (v_recv _ _ C i Hi) as [_ [He|(e & He)]]; [by left|right]. exists e. split; [done|].
    by apply task_for_pid_spec in He as [? _].
  - intros i Hi. destruct (chain_ends (Z.to_nat MAX_TASKS) i s C Hi) as [He|(r & Hn)]; [done|].
    apply chain_short in Hn; [|done|apply C]. by rewrite Z2Nat.id in Hn.
Qed.

Lemma ipc_rendezvous_witness :
  let s := snd (ipc64_send 0 2 3 64 (snd (ipc64_send 0 1 2 64 example_start))) in
  waits (pool s) 1 2 /\ waits (pool s) 2 3 /\
  exists r, tc (waits (pool s)) 1 r /\ alive (pool s) r /\ ~ sending (pool s) r.
Proof.
  intros s. assert (reachable s) as Hr.
  { apply example_reachable. eapply rtc_l; [apply (step_send 0 1 2 64); done|]. apply rtc_once. by apply (step_send 0 2 3 64). }
  split; [by split|]. split; [by split|]. apply (ipc_rendezvous s Hr). by split.
Defined.

(** C5: In every history, the sends answered with success are in order the
    senders of the messages that reached a buffer, and the receives answered
    with success are in order their receivers: no message is lost, doubled or
    delivered to two tasks.  Every message carries the identifier of the task
    that sent it, a receiver that asked for one task hears of no other, and a
    message that no task sent is a notice of death. *)
Theorem ipc_exactly_once {W} `{IpcMemoryLaws W} (s : ipc W) :
  reachable s ->
  senders (deliveries s) = answered (sends s) /\ receivers (deliveries s) = answered (receives s) /\
  Forall genuine (deliveries s).
Proof. apply reachable_entered. Qed.

Lemma ipc_exactly_once_witness :
  let s := snd (ipc64_recv 0 2 1 128 (snd (ipc64_send 0 1 2 64 example_start))) in
  sends s = [(1, 0)] /\ receives s = [(2, 0)] /\ senders (deliveries s) = [1] /\ receivers (deliveries s) = [2].
Proof.
  intros s. assert (reachable s) as Hr.
  { apply example_reachable. eapply rtc_l; [apply (step_send 0 1 2 64); done|]. apply rtc_once. by apply (step_recv 0 2 1 128). }
  destruct (ipc_exactly_once s Hr) as (-> & -> & _). by vm_compute.
Defined.

(** No task but [c] is runnable on the CPU: running, and owned by it or by none. *)
Definition alone (cpu c : Z) (p : Task.pool) : Prop :=
  forall i, 0 <= i < task_pool_count p -> i <> c ->
    eligible p (fun owner => (owner =? TASK_CPU_NONE) || (owner =? cpu)) i = false.

Lemma pick_next_none current cpu p :
  0 < task_pool_count p -> -1 <= current ->
  (task_pick_next current cpu p < 0 <->
   forall i, 0 <= i < task_pool_count p ->
     eligible p (fun owner => (owner =? TASK_CPU_NONE) || (owner =? cpu)) i = false).
Proof.
  intros Hc Hcur. unfold task_pick_next, task_pick_locked. destruct (Z.leb_spec (task_pool_count p) 0); [lia|].
  set (ok := fun owner => _). pose proof (pick_scan_chosen p ok current Hc Hcur) as Hch.
  destruct (pick_scan _ p ok current 1 (-1)) as [pick idle]. cbn [fst].
  destruct Hch as [[-> Hno]|(Hr & Hel & _)]; (split; [intros Hlt|intros Hno']); try done; try lia.
  rewrite (Hno' _ Hr) in Hel. discriminate.
Qed.

(** A caller that parks leaves the choice to the others. *)
Lemma parked_alone {W} cpu c destination deadline m timed (s : ipc W) :
  Task.inv (pool s) -> slot_of (pool s) c ->
  task_pick_next c cpu (pool (park_send c destination deadline m timed s)) < 0 <-> alone cpu c (pool s).
Proof.
  intros Hp Hc. unfold slot_of in Hc. assert (forall i, i <> c ->
    tasks (pool (park_send c destination deadline m timed s)) i = tasks (pool s) i) as Hoth.
  { intros i Hi. cbn [park_send pool set_pool]. unfold task_state_set, task_state_set_locked, write, assign.
    cbn [tasks]. by rewrite !upd_ne by done. }
  assert (tasks (pool (park_send c destination deadline m timed s)) c f_state = TASK_BLOCKED_SEND) as Hst.
  { cbn [park_send pool set_pool]. unfold task_state_set, task_state_set_locked. by fields. }
  assert (task_pool_count (pool (park_send c destination deadline m timed s)) = task_pool_count (pool s)) as Hn
    by reflexivity.
  rewrite pick_next_none by (rewrite ?Hn; lia). unfold alone, eligible. rewrite Hn. split.
  - intros Hno i Hi Hne. specialize (Hno i Hi). by rewrite Hoth in Hno by done.
  - intros Hno i Hi. destruct (decide (i = c)) as [->|Hne]; [by rewrite Hst|]. rewrite Hoth by done. by apply Hno.
Qed.

(** C29: A send to a task that does not take the message answers EDEADLK
    exactly when the chain of parked senders that starts at the receiver leads
    back to the caller, or no other task could run on the CPU.  In the first
    case every sender on that chain is released with the same answer; in the
    second the caller is running again, has withdrawn its message and no
    other task has changed.  In all other cases the caller parks. *)
Theorem ipc_deadlock_exact {W} `{IpcMemoryLaws W} (s : ipc W) cpu c destination address r m w :
  reachable s -> running (pool s) c -> task_for_pid destination (pool s) = Some r -> r <> c ->
  copy_from (tasks (pool s) c f_page_dir) address (memory s) = (Some m, w) -> accepts r c (pool s) = false ->
  let '(o, s') := ipc64_send cpu c destination address s in
  (o = Ret EDEADLK <-> rtc (waits (pool s)) r c \/ alone cpu c (pool s)) /\
  (rtc (waits (pool s)) r c ->
    forall i, rtc (waits (pool s)) r i -> i <> c -> tasks (pool s') i f_state = TASK_RUNNING /\ rax s' i = EDEADLK) /\
  (~ rtc (waits (pool s)) r c -> alone cpu c (pool s) ->
    tasks (pool s') c f_state = TASK_RUNNING /\ pending_valid s' c = false /\
    forall i, i <> c -> tasks (pool s') i = tasks (pool s) i) /\
  (~ rtc (waits (pool s)) r c -> ~ alone cpu c (pool s) -> o = Parked /\ waits (pool s') c r).
Proof.
  intros C%reachable_core Hc Hr Hne Hm Hac. unfold ipc64_send, send_internal. rewrite Hr, (proj2 (Z.eqb_neq r c) Hne), Hm.
  cbv zeta. set (s1 := set_memory w s). change (pool s1) with (pool s). rewrite Hac.
  assert (core 0 s1) as C1 by (pose proof (copy_from_core 0 (tasks (pool s) c f_page_dir) address s C) as C1; by rewrite Hm in C1).
  assert (slot_of (pool s) r) as Hsr by (by apply task_for_pid_spec in Hr as [(? & _) _]; [|apply C]).
  destruct (deadlock c r (pool s)) eqn:Hd.
  - destruct (deadlock_path _ _ _ _ Hsr (v_pool _ _ C) Hd) as [Hp|(y & Hy)].
    + cbn [note_sent]. split; [by split; [left|]|]. split; [|by split; intros ?]. intros _ i Hi Hic.
      apply rtc_nsteps in Hp as (k & Hk), Hi as (j & Hj).
      pose proof (chain_short _ _ _ _ (v_pool _ _ C) (v_acyclic _ _ C) Hk) as Hlt.
      apply (break_loop_releases (Z.to_nat MAX_TASKS) k r c i j s1); [done| |done|lia|done|done].
      intros [_ Hst]. destruct Hc as [_ Hc]. cbn in Hst. by rewrite Hst in Hc.
    + apply chain_short in Hy; [|apply C|apply C]. by rewrite Z2Nat.id in Hy.
  - fold (park_send c destination 0 m false s1). pose proof (deadlock_free _ _ _ _ Hd) as Hfree.
    pose proof (parked_alone cpu c destination 0 m false s1 (v_pool _ _ C1) (proj1 Hc)) as Hal.
    change (pool s1) with (pool s) in Hal.
    destruct (Z.ltb_spec (task_pick_next c cpu (pool (park_send c destination 0 m false s1))) 0) as [Hlt|Hlt]; cbn [note_sent]; setoid_rewrite <- Hal.
    + split; [by split; [right|]|]. split; [by intros ?|]. split; [|by intros _ ?]. intros _ _. split_and!.
      * unfold task_state_set, task_state_set_locked. cbn. by fields.
      * cbn. by rewrite upd_eq.
      * intros i Hi. cbn. unfold task_state_set, task_state_set_locked, write, assign. cbn [tasks]. by rewrite !upd_ne by done.
    + split; [split; [done|intros [?|?]; [done|lia]]|]. split; [by intros ?|]. split; [intros _ ?; lia|]. intros _ _.
      split; [done|]. split; [split; [apply Hc|]|].
      * cbn [park_send pool set_pool]. unfold task_state_set, task_state_set_locked. by fields.
      * rewrite (moved_pid c (pool s)); [|apply C|apply moved_set; first [apply C|by apply running_alive|done|set_solver]].
        cbn [park_send pool set_pool]. unfold task_state_set, task_state_set_locked. by fields.
Qed.

(** Task 1 parks on task 2; task 2 sends to task 1; a CPU that owns no task
    but the caller's. *)
Lemma ipc_deadlock_exact_witness :
  let s := snd (ipc64_send 0 1 2 64 example_start) in
  fst (ipc64_send 0 1 2 64 example_start) = Parked /\
  waits (pool s) 1 2 /\ fst (ipc64_send 0 2 1 64 s) = Ret EDEADLK /\
  tasks (pool (snd (ipc64_send 0 2 1 64 s))) 1 f_state = TASK_RUNNING /\
  fst (ipc64_send 5 2 1 64 example_start) = Ret EDEADLK.
Proof.
  intros s. assert (reachable example_start) as H0 by (by apply example_reachable).
  assert (reachable s) as Hr by (apply example_reachable, rtc_once; by apply (step_send 0 1 2 64)).
  assert (forall i j, ~ rtc (waits (pool example_start)) i j \/ i = j) as Hnone.
  { intros i j. destruct (decide (i = j)) as [|Hne]; [by right|left]. intros Hp.
    apply rtc_inv in Hp as [|(k & [[_ Hst] _] & _)]; [done|discriminate Hst]. }
  assert (~ alone 0 1 (pool example_start)) as Hother by (intros Ha; by specialize (Ha 2 ltac:(by cbn) ltac:(done))).
  split; [|split; [by split|]].
  - pose proof (ipc_deadlock_exact example_start 0 1 2 64 2 (Message 0 0 [64]) (fun d a => Message 0 d [a]) H0) as Hd.
    destruct (ipc64_send 0 1 2 64 example_start) as [o s']. destruct Hd as (_ & _ & _ & Hd); [by split|done..|].
    destruct (Hnone 2 1) as [Hn|]; [|done]. by destruct (Hd Hn Hother).
  - assert (waits (pool s) 1 2) as Hw by (by split).
    pose proof (ipc_deadlock_exact s 0 2 1 64 1 (Message 0 0 [64]) (fun d a => Message 0 d [a]) Hr) as Hd.
    destruct (ipc64_send 0 2 1 64 s) as [o s']. destruct Hd as (He & Hi & _); [by split|done..|].
    split; [|split].
    + apply He. left. by apply rtc_once.
    + by apply (Hi (rtc_once _ _ Hw) 1).
    + pose proof (ipc_deadlock_exact example_start 5 2 1 64 1 (Message 0 0 [64]) (fun d a => Message 0 d [a]) H0) as Ha.
      destruct (ipc64_send 5 2 1 64 example_start) as [o2 s2]. destruct Ha as (Ha & _); [by split|done..|].
      apply Ha. right. intros i _ _. reflexivity.
Defined.

End IpcTheorems.
