(* ===== verification/IpcVm.v ===== *)
(** Message passing over the address spaces of [vm.c].

    The transfers of [ipc64.c] are [vm64_copy_from], [vm64_copy_to] and
    [vm64_user_access] on the 64 bytes of a [struct message]; the model of
    [vm.c] keeps what message passing relies on, so the theorems of
    IpcTheorems.v hold for the two together. *)

From S2P Require Import Prelude Pmm Vm VmInv VmOps VmUser VmAccess VmCopy VmSystem Task Ipc IpcInv IpcTheorems.

Open Scope Z_scope.

Module IpcVm.
Import Vm VmInv VmOps VmUser VmAccess VmCopy VmSystem.

(** [sizeof(struct message)] *)
Definition message_size : Z := 64.

(** The bytes of a message: two words, the lowest byte first, and the data. *)
Definition message_bytes (m : Ipc.message) (k : Z) : Z :=
  if k <? 4 then u8 (Z.shiftr (Ipc.from_id m) (8 * k))
  else if k <? 8 then u8 (Z.shiftr (Ipc.type m) (8 * (k - 4)))
  else u8 (nth (Z.to_nat (k - 8)) (Ipc.data m) 0).

Definition word_at (b : Z -> Z) (k : Z) : Z := b k + 2 ^ 8 * b (k + 1) + 2 ^ 16 * b (k + 2) + 2 ^ 24 * b (k + 3).

Definition bytes_message (b : Z -> Z) : Ipc.message :=
  Ipc.Message (word_at b 0) (word_at b 4) (map (fun k => b (8 + Z.of_nat k)) (seq 0 56)).

Record message_wf (m : Ipc.message) : Prop := {
  wf_from : is_u32 (Ipc.from_id m);
  wf_type : is_u32 (Ipc.type m);
  wf_length : length (Ipc.data m) = 56%nat;
  wf_data : Forall is_u8 (Ipc.data m)
}.

Lemma word_bytes v : is_u32 v ->
  u8 (Z.shiftr v 0) + 2 ^ 8 * u8 (Z.shiftr v 8) + 2 ^ 16 * u8 (Z.shiftr v 16) + 2 ^ 24 * u8 (Z.shiftr v 24) = v.
Proof. unfold is_u32. intros Hv. unfold u8. rewrite !Z.shiftr_div_pow2 by lia. Z.div_mod_to_equations. lia. Qed.

Lemma message_bytes_roundtrip m b :
  message_wf m -> (forall k, 0 <= k < message_size -> b k = message_bytes m k) -> bytes_message b = m.
Proof.
  intros [Hf Ht Hl Hd] Hb. destruct m as [f t d]. cbn [Ipc.from_id Ipc.type Ipc.data] in *. unfold message_size in Hb. unfold bytes_message, word_at.
  rewrite !Hb by lia. f_equal; [exact (word_bytes f Hf)|exact (word_bytes t Ht)|].
  apply nth_ext with (d := b (8 + Z.of_nat 0)) (d' := 0); [by rewrite length_map, length_seq|].
  intros n Hn. rewrite length_map, length_seq in Hn. rewrite (map_nth (fun k => b (8 + Z.of_nat k)) (seq 0 56) 0%nat n), seq_nth by done.
  rewrite Hb by lia. unfold message_bytes. cbn [Ipc.data]. rewrite (proj2 (Z.ltb_ge _ 4)), (proj2 (Z.ltb_ge _ 8)) by lia.
  replace (Z.to_nat (8 + Z.of_nat (0 + n) - 8)) with n by lia. apply u8_small.
  rewrite List.Forall_forall in Hd. apply Hd, nth_In. lia.
Qed.

Lemma message_bytes_u8 m k : is_u8 (message_bytes m k).
Proof. unfold message_bytes. destruct (_ <? 4); [apply u8_range|]. destruct (_ <? 8); apply u8_range. Qed.

Section Bridge.
Context {W : Type} {VM : VmModules W} {VO : VmObjects W} {VL : VmLaws W}.
Implicit Types (s : vm W).

#[global] Instance ipc_memory : Ipc.IpcMemory (vm W) := {
  copy_from := fun root address s =>
    match vm64_copy_from root address message_size (fun _ => 0) s with
    | Some (r, b, s') => (if r =? 0 then Some (bytes_message b) else None, s')
    | None => (None, s)
    end;
  copy_to := fun root address m s =>
    match vm64_copy_to root address message_size (message_bytes m) s with
    | Some (r, s') => (r =? 0, s')
    | None => (false, s)
    end;
  user_access := fun root address s =>
    match vm64_user_access root address message_size true s with
    | Some (r, s') => (r =? 0, s')
    | None => (false, s)
    end
}.

(** A range that was found writable can be written. *)
Lemma access_copies l s root address m s' :
  inv (fun _ => False) (fun _ _ => False) None l s ->
  vm64_user_access root address message_size true s = Some (0, s') ->
  address <> 0 /\ exists s'', vm64_copy_to root address message_size (message_bytes m) s' = Some (0, s'').
Proof.
  intros Hi Hrun. destruct (vm64_user_access_inv _ _ _ l s root address message_size true Hi) as (r & s1 & Hrun' & Hi1 & Hv & Hcase); [done|].
  rewrite Hrun in Hrun'. injection Hrun' as <- <-. pose proof (space_from_root_spec _ _ _ l s root Hi) as Hroot.
  destruct (space_from_root root s) as [i|] eqn:Hr; [|done]. destruct Hroot as [[Hsp Hl] _].
  destruct Hcase as [(_ & Ha & Hlim & Hacc)|[? _]]; [|done]. split; [unfold VM64_USER_BASE in Ha; lia|].
  destruct (vm64_copy_to_inv _ _ _ l s' root address message_size (message_bytes m) Hi1) as (r & s2 & Hrun2 & _ & Hcase);
    [done|apply message_bytes_u8|]. destruct Hcase as [(_ & Hv2 & Hno)|(-> & _)]; [|by exists s2].
  destruct (Hno i); [by rewrite (root_kept s s' root (sv_spaces _ _ Hv))|]. split; [done|]. split; [done|].
  intros a Har. apply (accessible_view s'); [done|unfold user_addr; lia|done|by apply Hacc].
Qed.

#[global] Instance ipc_memory_laws : IpcInv.IpcMemoryLaws (vm W).
Proof.
  apply (IpcInv.Build_IpcMemoryLaws _ _ (fun s => exists l, vm_inv l s)).
  - intros d a s (l & Hi & Hsh). destruct (vm64_copy_from_inv _ _ _ l s d a message_size (fun _ => 0) Hi) as (r & b & s' & Hrun & Hi' & Hv & _); [done|].
    cbn. rewrite Hrun. exists l. split; [done|]. eapply spaces_shaped; [done..|apply Hv].
  - intros d a m s (l & Hi & Hsh). destruct (vm64_copy_to_inv _ _ _ l s d a message_size (message_bytes m) Hi) as (r & s' & Hrun & Hi' & Hcase);
      [done|apply message_bytes_u8|]. cbn. rewrite Hrun. exists l. split; [done|].
    eapply spaces_shaped; [done..|]. destruct Hcase as [(_ & Hv & _)|(_ & i & _ & _ & _ & Hw)]; [apply Hv|apply Hw].
  - intros d a s (l & Hi & Hsh). destruct (vm64_user_access_inv _ _ _ l s d a message_size true Hi) as (r & s' & Hrun & Hi' & Hv & _); [done|].
    cbn. rewrite Hrun. exists l. split; [done|]. eapply spaces_shaped; [done..|apply Hv].
  - intros d a m s s' (l & Hi & Hsh). cbn. destruct (vm64_user_access d a message_size true s) as [[r s1]|] eqn:Hrun; [|done].
    destruct (Z.eqb_spec r 0) as [->|]; [|done]. intros [= ->]. destruct (access_copies l s d a m s' Hi Hrun) as [Ha (s2 & ->)]. done.
Defined.

(** What the kernel delivers to private pages is what the receiver reads. *)
Lemma delivered_read l s root address m s' i :
  vm_inv l s -> message_wf m -> Ipc.copy_to root address m s = (true, s') -> space_from_root root s = Some i ->
  (forall a, address <= a < address + message_size -> pte_owned (pte_at s i (vpn a)) = true) ->
  fst (Ipc.copy_from root address s') = Some m.
Proof.
  intros [Hi _] Hm Hrun Hroot Hown. cbn in *. destruct (vm64_copy_to _ _ _ _ _) as [[r s1]|] eqn:Hto; [|done].
  destruct (Z.eqb_spec r 0) as [->|]; [|done]. injection Hrun as ->.
  destruct (copy_back _ _ _ l s root address message_size (message_bytes m) s' i (fun _ => 0) Hi) as (b & s2 & -> & Hb); [done|apply message_bytes_u8|done..|].
  cbn. f_equal. apply message_bytes_roundtrip; [done|]. intros k Hk. rewrite Hb.
  by rewrite (proj2 (Z.leb_le 0 k)), (proj2 (Z.ltb_lt k _)) by lia.
Qed.

(** The theorems of message passing, for the kernel's own address spaces. *)
Corollary ipc_vm_books (s : Ipc.ipc (vm W)) :
  IpcTheorems.reachable s ->
  IpcTheorems.senders (Ipc.deliveries s) = IpcTheorems.answered (Ipc.sends s) /\
  IpcTheorems.receivers (Ipc.deliveries s) = IpcTheorems.answered (Ipc.receives s) /\
  Forall IpcTheorems.genuine (Ipc.deliveries s) /\ exists l, vm_inv l (Ipc.memory s).
Proof.
  intros Hr. destruct (IpcTheorems.reachable_entered s Hr) as (H1 & H2 & H3). do 3 (split; [done|]).
  apply (IpcInv.v_memory _ _ (IpcTheorems.reachable_core s Hr)).
Qed.

End Bridge.

End IpcVm.
