(* ===== verification/AdytumFormat.v ===== *)
(** AdytumFS on the disk: [src/fs/adytumfs_format.h], [src/fs/adytumfs_super.c]
    and the packing of inodes in [src/fs/adytumfs_inode.c].

    A block is a list of 4096 bytes.  Every field is little-endian and goes
    through the accessors below; a superblock and an inode in use carry a
    CRC32C of the bytes before it.  [crc32c] is the software path of Crc32c.v,
    which its theorem [crc32c_paths_agree] shows to be that of the processor. *)

From S2P Require Import Prelude Crc32c Wire.

Module AdytumFormat.
Import Wire.

(** ** Little-endian fields *)

Definition adytumfs_read_le16 (p : list Z) (i : Z) : Z :=
  u16 (Z.lor (at_ p i) (Z.shiftl (at_ p (i + 1)) 8)).

Definition adytumfs_read_le32 (p : list Z) (i : Z) : Z :=
  Z.lor (Z.lor (Z.lor (at_ p i) (u32 (Z.shiftl (at_ p (i + 1)) 8))) (u32 (Z.shiftl (at_ p (i + 2)) 16)))
    (u32 (Z.shiftl (at_ p (i + 3)) 24)).

Definition adytumfs_read_le64 (p : list Z) (i : Z) : Z :=
  Z.lor (adytumfs_read_le32 p i) (u64 (Z.shiftl (adytumfs_read_le32 p (i + 4)) 32)).

(** [bytes] over the buffer [p] from byte [i] on. *)
Definition put (p : list Z) (i : Z) (bytes : list Z) : list Z :=
  take (Z.to_nat i) p ++ bytes ++ drop (Z.to_nat i + length bytes) p.

Definition le16 (value : Z) : list Z := [u8 value; u8 (Z.shiftr value 8)].

Definition le32 (value : Z) : list Z :=
  [u8 value; u8 (Z.shiftr value 8); u8 (Z.shiftr value 16); u8 (Z.shiftr value 24)].

Definition adytumfs_write_le16 (p : list Z) (i value : Z) : list Z := put p i (le16 value).

Definition adytumfs_write_le32 (p : list Z) (i value : Z) : list Z := put p i (le32 value).

Definition adytumfs_write_le64 (p : list Z) (i value : Z) : list Z :=
  adytumfs_write_le32 (adytumfs_write_le32 p i (u32 value)) (i + 4) (u32 (Z.shiftr value 32)).

Definition ADYTUMFS_BLOCK_SIZE : Z := 4096.

Definition ADYTUMFS_SECTORS_PER_BLOCK : Z := 8.

Definition ADYTUMFS_INODE_SIZE : Z := 256.

Definition ADYTUMFS_INODES_PER_BLOCK : Z := 16.

Definition ADYTUMFS_NAME_MAX : Z := 255.

Definition ADYTUMFS_EXTENT_SIZE : Z := 16.

Definition ADYTUMFS_DIRECT_EXTENTS : Z := 10.

Definition ADYTUMFS_FORMAT_VERSION : Z := 2.

Definition ADYTUMFS_ROOT_INODE : Z := 1.

Definition ADYTUMFS_INODE_TABLE_BLOCKS_MAX : Z := 16.

Definition ADYTUMFS_CHECKSUMS_PER_BLOCK : Z := 1024.

Definition ADYTUMFS_FEATURE_INCOMPAT_V2 : Z := 1.

(** The text [AdytumFS]. *)
Definition ADYTUMFS_SIGNATURE : list Z := [65; 100; 121; 116; 117; 109; 70; 83].

Definition ADYTUMFS_SIGNATURE_SIZE : Z := 8.

Definition ADYTUMFS_SUPER_CHECKSUM_OFFSET : Z := 4092.

Definition ADYTUMFS_MODE_DIR : Z := 0x4000.

Definition ADYTUMFS_MODE_REG : Z := 0x8000.

Definition ADYTUMFS_MODE_LNK : Z := 0x2000.

Definition ADYTUMFS_INODE_CHECKSUM_OFFSET : Z := 252.

(** The checksum of the first [length] bytes. *)
Definition crc32c (bytes : list Z) (length : Z) : Z := Crc32c.crc32c_software bytes (Z.to_nat length).

(** ** The superblock *)

Record adytumfs_superblock := Superblock {
  format_version : Z;
  block_size : Z;
  total_blocks : Z;
  block_bitmap_start : Z;
  block_bitmap_blocks : Z;
  inode_table_start : Z;
  inode_table_blocks : Z;
  inode_count : Z;
  root_inode : Z;
  data_start : Z;
  free_blocks : Z;
  free_inodes : Z;
  generation : Z;
  feature_compat : Z;
  feature_incompat : Z;
  feature_ro_compat : Z;
  data_checksum_region : Z;
  active_slot : Z
}.

Definition zero_block : list Z := replicate (Z.to_nat ADYTUMFS_BLOCK_SIZE) 0.

Definition adytumfs_super_pack (super : adytumfs_superblock) : list Z :=
  let block := zero_block in
  let block := put block 0 ADYTUMFS_SIGNATURE in
  let block := adytumfs_write_le32 block 8 (format_version super) in
  let block := adytumfs_write_le32 block 12 (block_size super) in
  let block := adytumfs_write_le64 block 16 (total_blocks super) in
  let block := adytumfs_write_le64 block 24 (block_bitmap_start super) in
  let block := adytumfs_write_le64 block 32 (block_bitmap_blocks super) in
  let block := adytumfs_write_le64 block 40 (inode_table_start super) in
  let block := adytumfs_write_le64 block 48 (inode_table_blocks super) in
  let block := adytumfs_write_le64 block 56 (inode_count super) in
  let block := adytumfs_write_le64 block 64 (root_inode super) in
  let block := adytumfs_write_le64 block 72 (data_start super) in
  let block := adytumfs_write_le64 block 80 (free_blocks super) in
  let block := adytumfs_write_le64 block 88 (free_inodes super) in
  let block := adytumfs_write_le64 block 96 (generation super) in
  let block := adytumfs_write_le64 block 104 (feature_compat super) in
  let block := adytumfs_write_le64 block 112 (feature_incompat super) in
  let block := adytumfs_write_le64 block 120 (feature_ro_compat super) in
  let block := adytumfs_write_le64 block 128 (data_checksum_region super) in
  adytumfs_write_le32 block ADYTUMFS_SUPER_CHECKSUM_OFFSET (crc32c block ADYTUMFS_SUPER_CHECKSUM_OFFSET).

Definition signed (block : list Z) : bool :=
  forallb (fun i => at_ block (Z.of_nat i) =? byte_at ADYTUMFS_SIGNATURE i) (seq 0 (Z.to_nat ADYTUMFS_SIGNATURE_SIZE)).

Definition adytumfs_super_unpack (block : list Z) : option adytumfs_superblock :=
  if negb (signed block) then None else
  if negb (adytumfs_read_le32 block ADYTUMFS_SUPER_CHECKSUM_OFFSET =? crc32c block ADYTUMFS_SUPER_CHECKSUM_OFFSET)
  then None else
  let format_version := adytumfs_read_le32 block 8 in
  let block_size := adytumfs_read_le32 block 12 in
  if negb (format_version =? ADYTUMFS_FORMAT_VERSION) || negb (block_size =? ADYTUMFS_BLOCK_SIZE) then None else
  Some (Superblock format_version block_size
    (adytumfs_read_le64 block 16) (adytumfs_read_le64 block 24) (adytumfs_read_le64 block 32)
    (adytumfs_read_le64 block 40) (adytumfs_read_le64 block 48) (adytumfs_read_le64 block 56)
    (adytumfs_read_le64 block 64) (adytumfs_read_le64 block 72) (adytumfs_read_le64 block 80)
    (adytumfs_read_le64 block 88) (adytumfs_read_le64 block 96) (adytumfs_read_le64 block 104)
    (adytumfs_read_le64 block 112) (adytumfs_read_le64 block 120) (adytumfs_read_le64 block 128) 0).

(** The number of windows of [size] that hold [n] items, in 64 bits. *)
Definition windows (n size : Z) : Z := u64 (n + size - 1) / size.

(** [true] is the answer 0. *)
Definition adytumfs_super_valid (super : adytumfs_superblock) (device_blocks : Z) : bool :=
  if negb (feature_incompat super =? ADYTUMFS_FEATURE_INCOMPAT_V2) then false else
  if negb (block_size super =? ADYTUMFS_BLOCK_SIZE) then false else
  if device_blocks <? total_blocks super then false else
  if negb (block_bitmap_start super =? 1) then false else
  if negb (block_bitmap_blocks super =? windows (total_blocks super) (ADYTUMFS_BLOCK_SIZE * 8)) then false else
  if negb (inode_table_start super =? u64 (block_bitmap_start super + block_bitmap_blocks super)) then false else
  if (inode_table_blocks super =? 0) || (total_blocks super <? inode_table_start super) ||
     (u64 (total_blocks super - inode_table_start super) <? inode_table_blocks super) then false else
  if ADYTUMFS_INODE_TABLE_BLOCKS_MAX <? inode_table_blocks super then false else
  if negb (data_start super =? u64 (inode_table_start super + inode_table_blocks super)) then false else
  if total_blocks super <=? data_start super then false else
  if (inode_count super =? 0) || (u64 (inode_table_blocks super * ADYTUMFS_INODES_PER_BLOCK) <? inode_count super)
  then false else
  if (root_inode super =? 0) || (inode_count super <=? root_inode super) then false else
  let tail_base := u64 (total_blocks super - 1 - block_bitmap_blocks super - inode_table_blocks super) in
  if (data_checksum_region super <? u64 (data_start super + 1)) || (tail_base <? data_checksum_region super)
  then false else
  let data_blocks := u64 (data_checksum_region super - data_start super) in
  let region_blocks := u64 (tail_base - data_checksum_region super) in
  negb (region_blocks <? windows data_blocks ADYTUMFS_CHECKSUMS_PER_BLOCK).

(** ** Inodes *)

Record adytumfs_extent := Extent { start_block : Z; ext_length : Z; ext_flags : Z }.

Definition no_extent : adytumfs_extent := Extent 0 0 0.

(** [direct] has ten extents. *)
Record adytumfs_inode := Inode {
  mode : Z;
  links : Z;
  uid : Z;
  gid : Z;
  flags : Z;
  size : Z;
  blocks : Z;
  atime : Z;
  mtime : Z;
  ctime : Z;
  inode_generation : Z;
  direct : list adytumfs_extent;
  indirect1 : Z;
  indirect2 : Z;
  atime_nsec : Z;
  mtime_nsec : Z;
  ctime_nsec : Z
}.

(** [direct[index]] *)
Definition extent_at (l : list adytumfs_extent) (index : Z) : adytumfs_extent := nth (Z.to_nat index) l no_extent.

Definition pack_extent (inode : adytumfs_inode) (index : Z) (slot : list Z) : list Z :=
  let extent := 64 + index * ADYTUMFS_EXTENT_SIZE in
  let slot := adytumfs_write_le64 slot extent (start_block (extent_at (direct inode) index)) in
  let slot := adytumfs_write_le32 slot (extent + 8) (ext_length (extent_at (direct inode) index)) in
  adytumfs_write_le32 slot (extent + 12) (ext_flags (extent_at (direct inode) index)).

(** The 256 bytes of the slot. *)
Definition adytumfs_inode_pack (inode : adytumfs_inode) : list Z :=
  let slot := replicate (Z.to_nat ADYTUMFS_INODE_SIZE) 0 in
  let slot := adytumfs_write_le16 slot 0 (mode inode) in
  let slot := adytumfs_write_le16 slot 2 (links inode) in
  let slot := adytumfs_write_le32 slot 4 (uid inode) in
  let slot := adytumfs_write_le32 slot 8 (gid inode) in
  let slot := adytumfs_write_le32 slot 12 (flags inode) in
  let slot := adytumfs_write_le64 slot 16 (size inode) in
  let slot := adytumfs_write_le64 slot 24 (blocks inode) in
  let slot := adytumfs_write_le64 slot 32 (atime inode) in
  let slot := adytumfs_write_le64 slot 40 (mtime inode) in
  let slot := adytumfs_write_le64 slot 48 (ctime inode) in
  let slot := adytumfs_write_le64 slot 56 (inode_generation inode) in
  let slot := for_range 0 ADYTUMFS_DIRECT_EXTENTS (pack_extent inode) slot in
  let slot := adytumfs_write_le64 slot 224 (indirect1 inode) in
  let slot := adytumfs_write_le64 slot 232 (indirect2 inode) in
  let slot := adytumfs_write_le32 slot 240 (atime_nsec inode) in
  let slot := adytumfs_write_le32 slot 244 (mtime_nsec inode) in
  let slot := adytumfs_write_le32 slot 248 (ctime_nsec inode) in
  adytumfs_write_le32 slot ADYTUMFS_INODE_CHECKSUM_OFFSET (crc32c slot ADYTUMFS_INODE_CHECKSUM_OFFSET).

Definition unpack_extent (slot : list Z) (index : Z) : adytumfs_extent :=
  let extent := 64 + index * ADYTUMFS_EXTENT_SIZE in
  Extent (adytumfs_read_le64 slot extent) (adytumfs_read_le32 slot (extent + 8)) (adytumfs_read_le32 slot (extent + 12)).

Definition adytumfs_inode_unpack (slot : list Z) : option adytumfs_inode :=
  let mode := adytumfs_read_le16 slot 0 in
  if nz mode &&
     negb (adytumfs_read_le32 slot ADYTUMFS_INODE_CHECKSUM_OFFSET =? crc32c slot ADYTUMFS_INODE_CHECKSUM_OFFSET)
  then None else
  Some (Inode mode (adytumfs_read_le16 slot 2) (adytumfs_read_le32 slot 4) (adytumfs_read_le32 slot 8)
    (adytumfs_read_le32 slot 12) (adytumfs_read_le64 slot 16) (adytumfs_read_le64 slot 24)
    (adytumfs_read_le64 slot 32) (adytumfs_read_le64 slot 40) (adytumfs_read_le64 slot 48)
    (adytumfs_read_le64 slot 56) (map (unpack_extent slot) (seqZ 0 ADYTUMFS_DIRECT_EXTENTS))
    (adytumfs_read_le64 slot 224) (adytumfs_read_le64 slot 232) (adytumfs_read_le32 slot 240)
    (adytumfs_read_le32 slot 244) (adytumfs_read_le32 slot 248)).

(** ** Buffers written field by field *)

Lemma put_length p i bytes :
  0 <= i -> i + Z.of_nat (length bytes) <= Z.of_nat (length p) -> length (put p i bytes) = length p.
Proof. intros Hi Hl. unfold put. rewrite !length_app, length_take, length_drop. lia. Qed.

Lemma at_put p i bytes j :
  0 <= i -> i + Z.of_nat (length bytes) <= Z.of_nat (length p) -> 0 <= j ->
  at_ (put p i bytes) j = if (i <=? j) && (j <? i + Z.of_nat (length bytes)) then at_ bytes (j - i) else at_ p j.
Proof.
  intros Hi Hl Hj. unfold put. assert (Z.of_nat (length (take (Z.to_nat i) p)) = i) as Ht by (rewrite length_take; lia).
  destruct (Z.leb_spec i j) as [Hij|Hij]; cbn [andb].
  - rewrite at_app_r, Ht by lia. destruct (Z.ltb_spec j (i + Z.of_nat (length bytes))) as [Hjb|Hjb].
    + by rewrite at_app_l by lia.
    + rewrite at_app_r by lia. unfold at_, byte_at. rewrite !nth_lookup, lookup_drop. do 2 f_equal. lia.
  - rewrite at_app_l by lia. unfold at_, byte_at. by rewrite !nth_lookup, lookup_take_lt by lia.
Qed.

Lemma put_bytes p i bytes : is_bytes p -> is_bytes bytes -> is_bytes (put p i bytes).
Proof. intros Hp Hb. unfold put, is_bytes. rewrite !Forall_app. split; [by apply Forall_take|]. split; [done|by apply Forall_drop]. Qed.

Lemma take_put n p i bytes : (n <= Z.to_nat i)%nat -> (Z.to_nat i <= length p)%nat -> take n (put p i bytes) = take n p.
Proof. intros Hn Hi. unfold put. rewrite take_app_le by (rewrite length_take; lia). rewrite take_take. f_equal. lia. Qed.

(** A sequence of writes. *)
Definition puts (p : list Z) (ws : list (Z * list Z)) : list Z := foldl (fun p w => put p (fst w) (snd w)) p ws.

Definition apart (w w' : Z * list Z) : bool :=
  (fst w + Z.of_nat (length (snd w)) <=? fst w') || (fst w' + Z.of_nat (length (snd w')) <=? fst w).

(** The writes are inside a buffer of [n] bytes and do not overlap. *)
Fixpoint layout_ok (n : Z) (ws : list (Z * list Z)) : bool :=
  match ws with
  | [] => true
  | w :: ws => (0 <=? fst w) && (fst w + Z.of_nat (length (snd w)) <=? n) && forallb (apart w) ws && layout_ok n ws
  end.

Lemma puts_length p ws : layout_ok (Z.of_nat (length p)) ws = true -> length (puts p ws) = length p.
Proof.
  revert p. induction ws as [|w ws IH]; intros p Hl; [done|]. cbn [layout_ok] in Hl. boolify.
  change (puts p (w :: ws)) with (puts (put p (fst w) (snd w)) ws).
  assert (length (put p (fst w) (snd w)) = length p) as Hp by (apply put_length; lia).
  rewrite IH; [done|]. by rewrite Hp.
Qed.

Lemma at_puts_other p ws j :
  layout_ok (Z.of_nat (length p)) ws = true -> 0 <= j ->
  (forall w, w ∈ ws -> j < fst w \/ fst w + Z.of_nat (length (snd w)) <= j) -> at_ (puts p ws) j = at_ p j.
Proof.
  revert p. induction ws as [|w ws IH]; intros p Hl Hj Ho; [done|]. cbn [layout_ok] in Hl. boolify.
  change (puts p (w :: ws)) with (puts (put p (fst w) (snd w)) ws).
  assert (length (put p (fst w) (snd w)) = length p) as Hp by (apply put_length; lia).
  rewrite IH; [|by rewrite Hp|done|intros w' Hw'; apply Ho; by right]. rewrite at_put by lia.
  destruct (Ho w (list_elem_of_here _ _)); destruct (Z.leb_spec (fst w) j), (Z.ltb_spec j (fst w + Z.of_nat (length (snd w)))); cbn [andb]; done || lia.
Qed.

Lemma at_puts p ws n w k :
  layout_ok (Z.of_nat (length p)) ws = true -> ws !! n = Some w -> 0 <= k < Z.of_nat (length (snd w)) ->
  at_ (puts p ws) (fst w + k) = at_ (snd w) k.
Proof.
  revert p n. induction ws as [|w' ws IH]; intros p n Hl Hn Hk; [done|]. cbn [layout_ok] in Hl. boolify.
  change (puts p (w' :: ws)) with (puts (put p (fst w') (snd w')) ws).
  assert (length (put p (fst w') (snd w')) = length p) as Hp by (apply put_length; lia).
  destruct n as [|n]; [|apply (IH _ n); [by rewrite Hp|done|done]]. injection Hn as ->.
  rewrite at_puts_other; [|by rewrite Hp|lia|].
  - rewrite at_put by lia. destruct (Z.leb_spec (fst w) (fst w + k)), (Z.ltb_spec (fst w + k) (fst w + Z.of_nat (length (snd w)))); cbn [andb]; try lia.
    f_equal. lia.
  - intros w'' Hw. match goal with H : forallb _ _ = true |- _ => rename H into Hf end. rewrite forallb_forall in Hf.
    specialize (Hf w'' (proj1 (list_elem_of_In _ _) Hw)). apply orb_true_iff in Hf as [Hf|Hf]; apply Z.leb_le in Hf; lia.
Qed.

Lemma puts_bytes p ws : is_bytes p -> Forall (fun w => is_bytes (snd w)) ws -> is_bytes (puts p ws).
Proof.
  revert p. induction ws as [|w ws IH]; intros p Hp Hw; [done|]. apply Forall_cons in Hw as [H1 H2].
  apply IH; [by apply put_bytes|done].
Qed.

(** ** Fields *)

Lemma read_le32_value p i v :
  (forall k, 0 <= k < 4 -> at_ p (i + k) = at_ (le32 v) k) -> adytumfs_read_le32 p i = u32 v.
Proof.
  intros Hk. unfold adytumfs_read_le32. rewrite <- (Z.add_0_r i) at 1. rewrite !Hk by lia. cbn [at_ le32].
  change (at_ (le32 v) 0) with (u8 v). change (at_ (le32 v) 1) with (u8 (Z.shiftr v 8)).
  change (at_ (le32 v) 2) with (u8 (Z.shiftr v 16)). change (at_ (le32 v) 3) with (u8 (Z.shiftr v 24)).
  rewrite !Z.shiftr_div_pow2 by lia. change (2 ^ 24) with 0x1000000. change (2 ^ 16) with 0x10000. change (2 ^ 8) with 0x100.
  rewrite !u32_small by (unfold is_u32; rewrite ?Z.shiftl_mul_pow2 by lia; words). unfold u8, u32.
  rewrite (Z.lor_comm _ (Z.shiftl _ 24)), (Z.lor_comm _ (Z.shiftl _ 16)), (Z.lor_comm _ (Z.shiftl _ 8)).
  rewrite (lor_shiftl_add _ _ 8) by (change (2 ^ 8) with 0x100; dmlia).
  rewrite (lor_shiftl_add _ _ 16) by (change (2 ^ 16) with 0x10000; change (2 ^ 8) with 0x100; dmlia).
  rewrite (lor_shiftl_add _ _ 24) by
    (change (2 ^ 24) with 0x1000000; change (2 ^ 16) with 0x10000; change (2 ^ 8) with 0x100; dmlia).
  change (2 ^ 24) with 0x1000000. change (2 ^ 16) with 0x10000. change (2 ^ 8) with 0x100. dmlia.
Qed.

Lemma read_le16_value p i v :
  (forall k, 0 <= k < 2 -> at_ p (i + k) = at_ (le16 v) k) -> adytumfs_read_le16 p i = u16 v.
Proof.
  intros Hk. unfold adytumfs_read_le16. rewrite <- (Z.add_0_r i) at 1. rewrite !Hk by lia.
  change (at_ (le16 v) 0) with (u8 v). change (at_ (le16 v) 1) with (u8 (Z.shiftr v 8)).
  rewrite !Z.shiftr_div_pow2 by lia. change (2 ^ 8) with 0x100. unfold u8, u16.
  rewrite Z.lor_comm, (lor_shiftl_add _ _ 8) by (change (2 ^ 8) with 0x100; dmlia). change (2 ^ 8) with 0x100. dmlia.
Qed.

Lemma u64_split v : Z.lor (u32 v) (u64 (Z.shiftl (u32 (Z.shiftr v 32)) 32)) = u64 v.
Proof.
  rewrite Z.shiftr_div_pow2 by lia. change (2 ^ 32) with 0x100000000.
  rewrite u64_small by (unfold is_u64; rewrite Z.shiftl_mul_pow2 by lia; change (2 ^ 32) with 0x100000000; words).
  rewrite Z.lor_comm, (lor_shiftl_add _ _ 32) by (change (2 ^ 32) with 0x100000000; words). change (2 ^ 32) with 0x100000000. words.
Qed.

Section Fields.
Context (p : list Z) (ws : list (Z * list Z)) (Hl : layout_ok (Z.of_nat (length p)) ws = true).

Lemma field16 n i v : ws !! n = Some (i, le16 v) -> adytumfs_read_le16 (puts p ws) i = u16 v.
Proof. intros Hn. apply read_le16_value. intros k Hk. by apply (at_puts p ws n (i, le16 v)). Qed.

Lemma field32 n i v : ws !! n = Some (i, le32 v) -> adytumfs_read_le32 (puts p ws) i = u32 v.
Proof. intros Hn. apply read_le32_value. intros k Hk. by apply (at_puts p ws n (i, le32 v)). Qed.

Lemma field64 n i v :
  ws !! n = Some (i, le32 (u32 v)) -> ws !! S n = Some (i + 4, le32 (u32 (Z.shiftr v 32))) ->
  adytumfs_read_le64 (puts p ws) i = u64 v.
Proof.
  intros Hn Hn'. unfold adytumfs_read_le64. rewrite (field32 n i _ Hn), (field32 (S n) _ _ Hn').
  rewrite !(u32_small (u32 _)) by apply u32_range. apply u64_split.
Qed.

End Fields.

Lemma le_bytes v : is_bytes (le16 v) /\ is_bytes (le32 v).
Proof. split; repeat constructor; apply u8_range. Qed.

Lemma crc32c_range l n : is_bytes l -> (Z.to_nat n <= length l)%nat -> is_u32 (crc32c l n).
Proof.
  intros Hl Hn. unfold crc32c. rewrite Crc32c.software_fold by done.
  apply (lxor_width 32); [lia| |unfold is_u32; lia]. apply Crc32c.crc_fold_range; [done|by apply Forall_take].
Qed.

Lemma crc32c_prefix l l' n :
  (Z.to_nat n <= length l)%nat -> (Z.to_nat n <= length l')%nat -> take (Z.to_nat n) l = take (Z.to_nat n) l' -> crc32c l n = crc32c l' n.
Proof. intros H1 H2 He. unfold crc32c. by rewrite !Crc32c.software_fold, He by done. Qed.

(** A checksum at offset [n] that covers the bytes before it. *)
Lemma checksum_reads l n :
  is_bytes l -> 0 <= n -> n + 4 = Z.of_nat (length l) ->
  let l' := adytumfs_write_le32 l n (crc32c l n) in adytumfs_read_le32 l' n = crc32c l' n.
Proof.
  intros Hl Hn Hlen l'. assert (length l' = length l) as Hl' by (apply put_length; cbn [length le32]; lia).
  assert (crc32c l' n = crc32c l n) as ->.
  { apply crc32c_prefix; [lia..|]. apply take_put; lia. }
  rewrite (read_le32_value l' n (crc32c l n)); [apply u32_small, crc32c_range; [done|lia]|].
  intros k Hk. unfold l', adytumfs_write_le32. rewrite at_put by (cbn [length le32]; lia). cbn [length le32].
  destruct (Z.leb_spec n (n + k)), (Z.ltb_spec (n + k) (n + Z.of_nat 4)); cbn [andb]; try lia. f_equal. lia.
Qed.

Lemma read_le32_ext l l' i : (forall k, 0 <= k < 4 -> at_ l (i + k) = at_ l' (i + k)) -> adytumfs_read_le32 l i = adytumfs_read_le32 l' i.
Proof.
  intros He. pose proof (He 0 ltac:(lia)) as H0. rewrite Z.add_0_r in H0. unfold adytumfs_read_le32.
  by rewrite H0, (He 1), (He 2), (He 3) by lia.
Qed.

Lemma read_le16_ext l l' i : (forall k, 0 <= k < 2 -> at_ l (i + k) = at_ l' (i + k)) -> adytumfs_read_le16 l i = adytumfs_read_le16 l' i.
Proof.
  intros He. pose proof (He 0 ltac:(lia)) as H0. rewrite Z.add_0_r in H0. unfold adytumfs_read_le16. by rewrite H0, (He 1) by lia.
Qed.

Lemma read_le64_ext l l' i : (forall k, 0 <= k < 8 -> at_ l (i + k) = at_ l' (i + k)) -> adytumfs_read_le64 l i = adytumfs_read_le64 l' i.
Proof.
  intros He. unfold adytumfs_read_le64. rewrite (read_le32_ext l l' i) by (intros k Hk; apply He; lia).
  rewrite (read_le32_ext l l' (i + 4)); [done|]. intros k Hk. rewrite <- Z.add_assoc. apply He. lia.
Qed.

(** One field written into a buffer. *)
Section Field.
Context (p : list Z) (i : Z) (Hi : 0 <= i).

Lemma at_put_other bytes j :
  i + Z.of_nat (length bytes) <= Z.of_nat (length p) -> 0 <= j -> j < i \/ i + Z.of_nat (length bytes) <= j ->
  at_ (put p i bytes) j = at_ p j.
Proof. intros Hl Hj Ho. rewrite at_put by lia. destruct (Z.leb_spec i j), (Z.ltb_spec j (i + Z.of_nat (length bytes))); cbn [andb]; done || lia. Qed.

Lemma at_put_in bytes k :
  i + Z.of_nat (length bytes) <= Z.of_nat (length p) -> 0 <= k < Z.of_nat (length bytes) -> at_ (put p i bytes) (i + k) = at_ bytes k.
Proof.
  intros Hl Hk. rewrite at_put by lia. destruct (Z.leb_spec i (i + k)), (Z.ltb_spec (i + k) (i + Z.of_nat (length bytes))); cbn [andb]; try lia. f_equal. lia.
Qed.

Lemma read_write_le32 v : i + 4 <= Z.of_nat (length p) -> adytumfs_read_le32 (adytumfs_write_le32 p i v) i = u32 v.
Proof. intros Hl. apply read_le32_value. intros k Hk. unfold adytumfs_write_le32. by rewrite at_put_in by (cbn [length le32]; lia). Qed.

Lemma read_write_le16 v : i + 2 <= Z.of_nat (length p) -> adytumfs_read_le16 (adytumfs_write_le16 p i v) i = u16 v.
Proof. intros Hl. apply read_le16_value. intros k Hk. unfold adytumfs_write_le16. by rewrite at_put_in by (cbn [length le16]; lia). Qed.

Lemma write_le32_length v : i + 4 <= Z.of_nat (length p) -> length (adytumfs_write_le32 p i v) = length p.
Proof. intros Hl. apply put_length; [done|cbn [length le32]; lia]. Qed.

Lemma write_le16_length v : i + 2 <= Z.of_nat (length p) -> length (adytumfs_write_le16 p i v) = length p.
Proof. intros Hl. apply put_length; [done|cbn [length le16]; lia]. Qed.

End Field.

Lemma write_le64_length p i v : 0 <= i -> i + 8 <= Z.of_nat (length p) -> length (adytumfs_write_le64 p i v) = length p.
Proof. intros Hi Hl. unfold adytumfs_write_le64. rewrite !write_le32_length; [done|..]; try lia. rewrite write_le32_length; lia. Qed.

Lemma at_write_le64_other p i v j :
  0 <= i -> i + 8 <= Z.of_nat (length p) -> 0 <= j -> j < i \/ i + 8 <= j -> at_ (adytumfs_write_le64 p i v) j = at_ p j.
Proof.
  intros Hi Hl Hj Ho. unfold adytumfs_write_le64. pose proof (write_le32_length p i Hi (u32 v) ltac:(lia)) as E.
  unfold adytumfs_write_le32 in *. rewrite !at_put_other by (cbn [length le32] in *; lia). done.
Qed.

Lemma read_write_le64 p i v : 0 <= i -> i + 8 <= Z.of_nat (length p) -> adytumfs_read_le64 (adytumfs_write_le64 p i v) i = u64 v.
Proof.
  intros Hi Hl. unfold adytumfs_write_le64. pose proof (write_le32_length p i Hi (u32 v) ltac:(lia)) as E.
  unfold adytumfs_read_le64. rewrite (read_write_le32 _ (i + 4)) by lia.
  rewrite (read_le32_ext _ (adytumfs_write_le32 p i (u32 v)) i).
  - rewrite read_write_le32 by lia. rewrite !(u32_small (u32 _)) by apply u32_range. apply u64_split.
  - intros k Hk. unfold adytumfs_write_le32 at 1. rewrite at_put_other by (cbn [length le32]; lia). done.
Qed.

(** ** The superblock *)

Definition super_writes (super : adytumfs_superblock) : list (Z * list Z) :=
  let le64 i v := [(i, le32 (u32 v)); (i + 4, le32 (u32 (Z.shiftr v 32)))] in
  (0, ADYTUMFS_SIGNATURE) :: (8, le32 (format_version super)) :: (12, le32 (block_size super)) ::
  le64 16 (total_blocks super) ++ le64 24 (block_bitmap_start super) ++ le64 32 (block_bitmap_blocks super) ++
  le64 40 (inode_table_start super) ++ le64 48 (inode_table_blocks super) ++ le64 56 (inode_count super) ++
  le64 64 (root_inode super) ++ le64 72 (data_start super) ++ le64 80 (free_blocks super) ++
  le64 88 (free_inodes super) ++ le64 96 (generation super) ++ le64 104 (feature_compat super) ++
  le64 112 (feature_incompat super) ++ le64 120 (feature_ro_compat super) ++ le64 128 (data_checksum_region super).

Lemma puts_snoc p ws i v : adytumfs_write_le32 (puts p ws) i v = puts p (ws ++ [(i, le32 v)]).
Proof. unfold puts. by rewrite foldl_app. Qed.

Lemma super_pack_puts super :
  adytumfs_super_pack super =
    let block := puts zero_block (super_writes super) in
    adytumfs_write_le32 block ADYTUMFS_SUPER_CHECKSUM_OFFSET (crc32c block ADYTUMFS_SUPER_CHECKSUM_OFFSET).
Proof.
  unfold puts, adytumfs_super_pack, adytumfs_write_le64, adytumfs_write_le32. generalize zero_block. intros z.
  cbn [foldl super_writes app fst snd]. cbv zeta. reflexivity.
Qed.

Record super_fields (super : adytumfs_superblock) : Prop := {
  sf_version : format_version super = ADYTUMFS_FORMAT_VERSION;
  sf_size : block_size super = ADYTUMFS_BLOCK_SIZE;
  sf_words : Forall is_u64 [total_blocks super; block_bitmap_start super; block_bitmap_blocks super; inode_table_start super;
    inode_table_blocks super; inode_count super; root_inode super; data_start super; free_blocks super; free_inodes super;
    generation super; feature_compat super; feature_incompat super; feature_ro_compat super; data_checksum_region super]
}.

Definition set_slot (slot : Z) (super : adytumfs_superblock) : adytumfs_superblock :=
  Superblock (format_version super) (block_size super) (total_blocks super) (block_bitmap_start super)
    (block_bitmap_blocks super) (inode_table_start super) (inode_table_blocks super) (inode_count super)
    (root_inode super) (data_start super) (free_blocks super) (free_inodes super) (generation super)
    (feature_compat super) (feature_incompat super) (feature_ro_compat super) (data_checksum_region super) slot.

Lemma zero_length : Z.of_nat (length zero_block) = 4096.
Proof. unfold zero_block. by rewrite length_replicate. Qed.

Lemma zero_bytes : is_bytes zero_block.
Proof. apply Forall_replicate. unfold is_u8. lia. Qed.

Lemma at_zero j : at_ zero_block j = 0.
Proof.
  unfold at_, byte_at, zero_block. rewrite nth_lookup. destruct (_ !! _) as [z|] eqn:Hz; [|done]. by apply lookup_replicate in Hz as [-> _].
Qed.

Lemma super_writes_bytes super : Forall (fun w => is_bytes (snd w)) (super_writes super).
Proof.
  assert (is_bytes ADYTUMFS_SIGNATURE) as Hs by (repeat constructor; unfold is_u8; lia).
  cbn [super_writes app]. repeat (apply Forall_cons; split; [first [exact Hs|apply le_bytes]|]). constructor.
Qed.

Lemma super_unpack_pack super :
  super_fields super -> adytumfs_super_unpack (adytumfs_super_pack super) = Some (set_slot 0 super).
Proof.
  intros [Hv Hs Hw]. unfold adytumfs_super_unpack.
  assert (adytumfs_read_le32 (adytumfs_super_pack super) ADYTUMFS_SUPER_CHECKSUM_OFFSET =
          crc32c (adytumfs_super_pack super) ADYTUMFS_SUPER_CHECKSUM_OFFSET) as ->.
  { rewrite super_pack_puts.
    assert (layout_ok (Z.of_nat (length zero_block)) (super_writes super) = true) as Hl by (rewrite zero_length; reflexivity).
    apply (checksum_reads (puts zero_block (super_writes super)) ADYTUMFS_SUPER_CHECKSUM_OFFSET);
      [apply puts_bytes; [apply zero_bytes|apply super_writes_bytes]|done|].
    by rewrite puts_length, zero_length. }
  rewrite Z.eqb_refl. cbn [negb]. rewrite super_pack_puts. cbv zeta.
  set (c := crc32c _ _). clearbody c. rewrite puts_snoc. set (ws := super_writes super ++ _).
  assert (layout_ok (Z.of_nat (length zero_block)) ws = true) as Hl by (rewrite zero_length; reflexivity).
  assert (signed (puts zero_block ws) = true) as ->.
  { apply forallb_forall. intros k Hk%in_seq. apply Z.eqb_eq. change (Z.to_nat ADYTUMFS_SIGNATURE_SIZE) with 8%nat in Hk.
    rewrite <- (Z.add_0_l (Z.of_nat k)). rewrite (at_puts zero_block ws 0 (0, ADYTUMFS_SIGNATURE) _ Hl eq_refl) by (cbn [snd length ADYTUMFS_SIGNATURE]; lia).
    unfold at_. f_equal. lia. }
  cbn [negb]. cbv zeta. rewrite (field32 zero_block ws Hl 1 8 _ eq_refl), (field32 zero_block ws Hl 2 12 _ eq_refl).
  rewrite Hv, Hs. rewrite !u32_small by (unfold is_u32, ADYTUMFS_FORMAT_VERSION, ADYTUMFS_BLOCK_SIZE; lia). rewrite !Z.eqb_refl. cbn [negb orb].
  rewrite (field64 _ _ Hl 3 16 _ eq_refl eq_refl), (field64 _ _ Hl 5 24 _ eq_refl eq_refl), (field64 _ _ Hl 7 32 _ eq_refl eq_refl),
    (field64 _ _ Hl 9 40 _ eq_refl eq_refl), (field64 _ _ Hl 11 48 _ eq_refl eq_refl), (field64 _ _ Hl 13 56 _ eq_refl eq_refl),
    (field64 _ _ Hl 15 64 _ eq_refl eq_refl), (field64 _ _ Hl 17 72 _ eq_refl eq_refl), (field64 _ _ Hl 19 80 _ eq_refl eq_refl),
    (field64 _ _ Hl 21 88 _ eq_refl eq_refl), (field64 _ _ Hl 23 96 _ eq_refl eq_refl), (field64 _ _ Hl 25 104 _ eq_refl eq_refl),
    (field64 _ _ Hl 27 112 _ eq_refl eq_refl), (field64 _ _ Hl 29 120 _ eq_refl eq_refl), (field64 _ _ Hl 31 128 _ eq_refl eq_refl).
  repeat match goal with H : Forall is_u64 (_ :: _) |- _ => apply Forall_cons in H as [? H] end.
  rewrite !u64_small by done. unfold set_slot. by rewrite Hv, Hs.
Qed.

(** ** Inodes *)

Definition extent_writes (inode : adytumfs_inode) (index : Z) : list (Z * list Z) :=
  let extent := 64 + index * ADYTUMFS_EXTENT_SIZE in
  let e := extent_at (direct inode) index in
  [(extent, le32 (u32 (start_block e))); (extent + 4, le32 (u32 (Z.shiftr (start_block e) 32)));
   (extent + 8, le32 (ext_length e)); (extent + 12, le32 (ext_flags e))].

Definition inode_writes (inode : adytumfs_inode) : list (Z * list Z) :=
  let le64 i v := [(i, le32 (u32 v)); (i + 4, le32 (u32 (Z.shiftr v 32)))] in
  (0, le16 (mode inode)) :: (2, le16 (links inode)) :: (4, le32 (uid inode)) :: (8, le32 (gid inode)) ::
  (12, le32 (flags inode)) :: le64 16 (size inode) ++ le64 24 (blocks inode) ++ le64 32 (atime inode) ++
  le64 40 (mtime inode) ++ le64 48 (ctime inode) ++ le64 56 (inode_generation inode) ++
  extent_writes inode 0 ++ extent_writes inode 1 ++ extent_writes inode 2 ++ extent_writes inode 3 ++
  extent_writes inode 4 ++ extent_writes inode 5 ++ extent_writes inode 6 ++ extent_writes inode 7 ++
  extent_writes inode 8 ++ extent_writes inode 9 ++
  le64 224 (indirect1 inode) ++ le64 232 (indirect2 inode) ++
  [(240, le32 (atime_nsec inode)); (244, le32 (mtime_nsec inode)); (248, le32 (ctime_nsec inode))].

Definition zero_slot : list Z := replicate (Z.to_nat ADYTUMFS_INODE_SIZE) 0.

Lemma inode_pack_puts inode :
  adytumfs_inode_pack inode =
    let slot := puts zero_slot (inode_writes inode) in
    adytumfs_write_le32 slot ADYTUMFS_INODE_CHECKSUM_OFFSET (crc32c slot ADYTUMFS_INODE_CHECKSUM_OFFSET).
Proof.
  unfold puts, adytumfs_inode_pack. fold zero_slot. generalize zero_slot. intros z.
  unfold for_range. change (Z.to_nat (ADYTUMFS_DIRECT_EXTENTS - 0)) with 10%nat. cbn [for_from].
  unfold pack_extent, adytumfs_write_le64, adytumfs_write_le32, adytumfs_write_le16.
  cbn [foldl inode_writes extent_writes app fst snd]. cbv zeta. reflexivity.
Qed.

Record extent_fields (e : adytumfs_extent) : Prop := {
  ef_start : is_u64 (start_block e);
  ef_length : is_u32 (ext_length e);
  ef_flags : is_u32 (ext_flags e)
}.

Record inode_fields (inode : adytumfs_inode) : Prop := {
  if_halves : is_u16 (mode inode) /\ is_u16 (links inode);
  if_words : Forall is_u32 [uid inode; gid inode; flags inode; atime_nsec inode; mtime_nsec inode; ctime_nsec inode];
  if_longs : Forall is_u64 [size inode; blocks inode; atime inode; mtime inode; ctime inode; inode_generation inode;
    indirect1 inode; indirect2 inode];
  if_count : length (direct inode) = 10%nat;
  if_extents : Forall extent_fields (direct inode)
}.

Lemma inode_writes_bytes inode : Forall (fun w => is_bytes (snd w)) (inode_writes inode).
Proof. cbn [inode_writes extent_writes app]. repeat (apply Forall_cons; split; [apply le_bytes|]). constructor. Qed.

Lemma slot_length : Z.of_nat (length zero_slot) = 256.
Proof. unfold zero_slot. by rewrite length_replicate. Qed.

Lemma unpack_extent_fields ws k n e :
  layout_ok (Z.of_nat (length zero_slot)) ws = true -> extent_fields e ->
  ws !! n = Some (64 + k * ADYTUMFS_EXTENT_SIZE, le32 (u32 (start_block e))) ->
  ws !! S n = Some (64 + k * ADYTUMFS_EXTENT_SIZE + 4, le32 (u32 (Z.shiftr (start_block e) 32))) ->
  ws !! S (S n) = Some (64 + k * ADYTUMFS_EXTENT_SIZE + 8, le32 (ext_length e)) ->
  ws !! S (S (S n)) = Some (64 + k * ADYTUMFS_EXTENT_SIZE + 12, le32 (ext_flags e)) ->
  unpack_extent (puts zero_slot ws) k = e.
Proof.
  intros Hl [Hs He Hf] H1 H2 H3 H4. unfold unpack_extent. cbv zeta.
  rewrite (field64 _ _ Hl n _ _ H1 H2), (field32 _ _ Hl _ _ _ H3), (field32 _ _ Hl _ _ _ H4).
  rewrite u64_small, !u32_small by done. by destruct e.
Qed.

Lemma inode_unpack_pack inode : inode_fields inode -> adytumfs_inode_unpack (adytumfs_inode_pack inode) = Some inode.
Proof.
  intros [[Hm Hk] Hw Hq Hc He]. unfold adytumfs_inode_unpack.
  assert (adytumfs_read_le32 (adytumfs_inode_pack inode) ADYTUMFS_INODE_CHECKSUM_OFFSET =
          crc32c (adytumfs_inode_pack inode) ADYTUMFS_INODE_CHECKSUM_OFFSET) as ->.
  { rewrite inode_pack_puts.
    assert (layout_ok (Z.of_nat (length zero_slot)) (inode_writes inode) = true) as Hl by (rewrite slot_length; reflexivity).
    apply (checksum_reads (puts zero_slot (inode_writes inode)) ADYTUMFS_INODE_CHECKSUM_OFFSET);
      [apply puts_bytes; [apply Forall_replicate; unfold is_u8; lia|apply inode_writes_bytes]|done|].
    by rewrite puts_length, slot_length. }
  rewrite Z.eqb_refl. cbn [negb]. rewrite andb_false_r, inode_pack_puts. cbv zeta.
  set (c := crc32c _ _). clearbody c. rewrite puts_snoc. set (ws := inode_writes inode ++ _).
  assert (layout_ok (Z.of_nat (length zero_slot)) ws = true) as Hl by (rewrite slot_length; reflexivity).
  rewrite (field16 _ _ Hl 0 0 _ eq_refl), (field16 _ _ Hl 1 2 _ eq_refl), (field32 _ _ Hl 2 4 _ eq_refl), (field32 _ _ Hl 3 8 _ eq_refl),
    (field32 _ _ Hl 4 12 _ eq_refl), (field64 _ _ Hl 5 16 _ eq_refl eq_refl), (field64 _ _ Hl 7 24 _ eq_refl eq_refl),
    (field64 _ _ Hl 9 32 _ eq_refl eq_refl), (field64 _ _ Hl 11 40 _ eq_refl eq_refl), (field64 _ _ Hl 13 48 _ eq_refl eq_refl),
    (field64 _ _ Hl 15 56 _ eq_refl eq_refl), (field64 _ _ Hl 57 224 _ eq_refl eq_refl), (field64 _ _ Hl 59 232 _ eq_refl eq_refl),
    (field32 _ _ Hl 61 240 _ eq_refl), (field32 _ _ Hl 62 244 _ eq_refl), (field32 _ _ Hl 63 248 _ eq_refl).
  assert (map (unpack_extent (puts zero_slot ws)) (seqZ 0 ADYTUMFS_DIRECT_EXTENTS) = direct inode) as ->.
  { destruct inode as [? ? ? ? ? ? ? ? ? ? ? l ? ? ? ? ?]. cbn [direct] in *.
    do 10 (destruct l as [|? l]; [discriminate Hc|]). destruct l; [|discriminate Hc].
    repeat match goal with H : Forall extent_fields (_ :: _) |- _ => apply Forall_cons in H as [? H] end.
    change (seqZ 0 ADYTUMFS_DIRECT_EXTENTS) with [0;1;2;3;4;5;6;7;8;9]. cbn [map].
    repeat f_equal; [apply (unpack_extent_fields ws 0 17)|apply (unpack_extent_fields ws 1 21)|apply (unpack_extent_fields ws 2 25)|
      apply (unpack_extent_fields ws 3 29)|apply (unpack_extent_fields ws 4 33)|apply (unpack_extent_fields ws 5 37)|
      apply (unpack_extent_fields ws 6 41)|apply (unpack_extent_fields ws 7 45)|apply (unpack_extent_fields ws 8 49)|
      apply (unpack_extent_fields ws 9 53)]; done. }
  repeat match goal with H : Forall is_u64 (_ :: _) |- _ => apply Forall_cons in H as [? H] | H : Forall is_u32 (_ :: _) |- _ => apply Forall_cons in H as [? H] end.
  rewrite !u64_small, !u32_small, !u16_small by done. by destruct inode.
Qed.

Lemma inode_pack_length inode : Z.of_nat (length (adytumfs_inode_pack inode)) = 256.
Proof.
  rewrite inode_pack_puts. cbv zeta. rewrite puts_snoc. set (c := crc32c _ _). clearbody c.
  rewrite puts_length; [apply slot_length|]. rewrite slot_length. reflexivity.
Qed.

Lemma inode_pack_bytes inode : is_bytes (adytumfs_inode_pack inode).
Proof.
  rewrite inode_pack_puts. cbv zeta. rewrite puts_snoc. apply puts_bytes; [apply Forall_replicate; unfold is_u8; lia|].
  apply Forall_app. split; [apply inode_writes_bytes|]. constructor; [apply le_bytes|constructor].
Qed.

(** ** The layout of a volume *)

(** The parts of a volume, in the order of their blocks, without wrap-around:
    superblock, bitmap, inode table, data, checksums, second inode table,
    second bitmap, second superblock. *)
Record layout (super : adytumfs_superblock) : Prop := {
  lo_bitmap : block_bitmap_start super = 1;
  lo_bits : total_blocks super <= 32768 * block_bitmap_blocks super < total_blocks super + 32768;
  lo_table : inode_table_start super = 1 + block_bitmap_blocks super;
  lo_table_blocks : 1 <= inode_table_blocks super <= 16;
  lo_data : data_start super = inode_table_start super + inode_table_blocks super;
  lo_region : data_start super < data_checksum_region super;
  lo_tail : data_checksum_region super <= total_blocks super - 1 - block_bitmap_blocks super - inode_table_blocks super;
  lo_sums : data_checksum_region super - data_start super <=
    1024 * (total_blocks super - 1 - block_bitmap_blocks super - inode_table_blocks super - data_checksum_region super);
  lo_inodes : 1 <= root_inode super < inode_count super;
  lo_count : inode_count super <= 16 * inode_table_blocks super
}.

Lemma windows_spec n size : 0 <= n -> 0 < size -> n + size <= 2 ^ 64 -> n <= size * windows n size < n + size.
Proof.
  intros Hn Hs Hm. unfold windows. rewrite u64_small by (unfold is_u64; change (2 ^ 64) with 0x10000000000000000 in Hm; lia).
  pose proof (Z.div_mod (n + size - 1) size ltac:(lia)). pose proof (Z.mod_pos_bound (n + size - 1) size ltac:(lia)). lia.
Qed.

Lemma super_valid_layout super device_blocks :
  super_fields super -> 0 <= device_blocks < 2 ^ 32 -> adytumfs_super_valid super device_blocks = true ->
  layout super /\ total_blocks super <= device_blocks.
Proof.
  intros [_ _ Hw] Hd. unfold adytumfs_super_valid. intros Hv.
  repeat match goal with H : Forall is_u64 (_ :: _) |- _ => apply Forall_cons in H as [? H] end.
  repeat match type of Hv with (if ?b then _ else _) = true => destruct b eqn:?; [discriminate Hv|] end. boolify.
  change (2 ^ 32) with 0x100000000 in Hd.
  pose proof (windows_spec (total_blocks super) 32768 ltac:(unfold is_u64 in *; lia) ltac:(lia) ltac:(change (2 ^ 64) with 0x10000000000000000; lia)) as Hb.
  unfold is_u64, ADYTUMFS_BLOCK_SIZE, ADYTUMFS_INODE_TABLE_BLOCKS_MAX, ADYTUMFS_INODES_PER_BLOCK, ADYTUMFS_CHECKSUMS_PER_BLOCK in *.
  change (4096 * 8) with 32768 in *. set (b := windows (total_blocks super) 32768) in *. clearbody b.
  assert (forall z, 0 <= z < 0x10000000000000000 -> u64 z = z) as Hs by apply u64_small.
  rewrite Hs in Heqb4 by lia. rewrite Hs in H19 by lia. rewrite Hs in H21 by lia. rewrite Hs in Heqb7 by lia.
  rewrite Hs in H14 by lia. rewrite (Hs (_ - _ - _ - _)) in H15 by lia. rewrite (Hs (_ - _ - _ - _)) in Hv by lia.
  rewrite (Hs (data_checksum_region super - _)) in Hv by lia. rewrite Hs in Hv by lia.
  pose proof (windows_spec (data_checksum_region super - data_start super) 1024 ltac:(lia) ltac:(lia) ltac:(change (2 ^ 64) with 0x10000000000000000; lia)).
  split; [split; lia|lia].
Qed.

(** ** What comes off the medium has the width of its fields *)

Section Typed.
Context (p : list Z) (Hp : is_bytes p).

Lemma read_le16_range i : is_u16 (adytumfs_read_le16 p i).
Proof. apply u16_range. Qed.

Lemma read_le32_range i : is_u32 (adytumfs_read_le32 p i).
Proof.
  unfold adytumfs_read_le32, is_u32. pose proof (byte_at_range p (Z.to_nat i) Hp) as Hb. unfold is_u8 in Hb.
  repeat (apply (lor_width 32); [lia| |apply u32_range]). unfold at_. lia.
Qed.

Lemma read_le64_range i : is_u64 (adytumfs_read_le64 p i).
Proof.
  unfold adytumfs_read_le64, is_u64. pose proof (read_le32_range i) as Hr. unfold is_u32 in Hr.
  apply (lor_width 64); [lia|lia|apply u64_range].
Qed.

Lemma super_unpack_fields super : adytumfs_super_unpack p = Some super -> super_fields super.
Proof.
  unfold adytumfs_super_unpack. destruct (negb (signed p)); [discriminate|]. destruct (negb (_ =? crc32c _ _)); [discriminate|].
  destruct (Z.eqb_spec (adytumfs_read_le32 p 8) ADYTUMFS_FORMAT_VERSION) as [Hv|]; [|discriminate].
  destruct (Z.eqb_spec (adytumfs_read_le32 p 12) ADYTUMFS_BLOCK_SIZE) as [Hs|]; [|discriminate].
  cbn [negb orb]. intros [= <-]. split; [exact Hv|exact Hs|].
  repeat (apply Forall_cons; split; [apply read_le64_range|]). constructor.
Qed.

Lemma inode_unpack_fields inode : adytumfs_inode_unpack p = Some inode -> inode_fields inode.
Proof.
  unfold adytumfs_inode_unpack. destruct (nz _ && _); [discriminate|]. intros [= <-]. split.
  - split; apply read_le16_range.
  - repeat (apply Forall_cons; split; [apply read_le32_range|]). constructor.
  - repeat (apply Forall_cons; split; [apply read_le64_range|]). constructor.
  - reflexivity.
  - cbn [direct]. repeat (apply Forall_cons; split; [|]); [..|constructor].
    all: split; [apply read_le64_range|apply read_le32_range..].
Qed.

End Typed.

(** Inodes are typed.  Whatever bytes lie in a slot of the table, an inode
    that [adytumfs_inode_unpack] accepts has every field at the width it has on
    the disk and ten extents, and [adytumfs_inode_pack] writes it so that it
    unpacks to itself. *)
Theorem adytum_inode_typed p inode :
  is_bytes p -> adytumfs_inode_unpack p = Some inode ->
  inode_fields inode /\ length (adytumfs_inode_pack inode) = Z.to_nat ADYTUMFS_INODE_SIZE /\ is_bytes (adytumfs_inode_pack inode) /\
  adytumfs_inode_unpack (adytumfs_inode_pack inode) = Some inode.
Proof.
  intros Hb Hu. pose proof (inode_unpack_fields p Hb inode Hu) as F. split; [exact F|]. split; [|split; [apply inode_pack_bytes|by apply inode_unpack_pack]].
  pose proof (inode_pack_length inode) as Hl. unfold ADYTUMFS_INODE_SIZE. lia.
Qed.

Lemma adytum_inode_typed_witness :
  let p := adytumfs_inode_pack (Inode 33188 1 1000 1000 5 1 0 1 2 3 4 (Extent 20 1 0 :: replicate 9 no_extent) 0 0 0 0 0) in
  exists inode, adytumfs_inode_unpack p = Some inode /\ inode_fields inode /\ adytumfs_inode_unpack (adytumfs_inode_pack inode) = Some inode.
Proof.
  intros p. assert (exists inode, adytumfs_inode_unpack p = Some inode) as [inode Hu] by (eexists; vm_compute; reflexivity).
  exists inode. split; [exact Hu|]. destruct (adytum_inode_typed p inode (inode_pack_bytes _) Hu) as (H1 & _ & _ & H2). split; [exact H1|exact H2].
Defined.

End AdytumFormat.
