(* ===== verification/AdytumVolume.v ===== *)
(** AdytumFS: the volume, [src/fs/adytumfs_volume.c], and the choice of the
    superblock, [adytumfs_super_read] of [src/fs/adytumfs_super.c].

    The state is the staging pool of the open window, the superblock of the
    mount and the block layer.  A call fails (answers -1) with [None] and keeps
    what it changed before.  The static buffers are filled before each use, so
    they are local values here.

    The block cache and the device are the interface [FsDevice]. *)

From S2P Require Import Prelude Wire AdytumFormat.

Module AdytumVolume.
Import Wire AdytumFormat.

(** [block_info] answers the sector count and the flags; the transfers of the
    cache move the eight sectors from a sector number on, [block_io] writes
    one.  [true] is success.  The clock is part of the machine. *)
Class FsDevice (D : Type) := {
  block_info : Z -> D -> option (Z * Z);
  block_cache_read : Z -> Z -> D -> option (list Z) * D;
  block_cache_write : Z -> Z -> list Z -> D -> bool * D;
  block_cache_flush : Z -> D -> bool * D;
  block_cache_invalidate : Z -> Z -> Z -> D -> D;
  block_io_write : Z -> Z -> list Z -> D -> bool * D;
  rtc64_wall_clock : D -> Z;
  rtc64_wall_clock_nsec : D -> Z
}.

Definition BLOCK_FLAG_READ_ONLY : Z := 1.

Definition BLOCK_SECTOR_SIZE : Z := 512.

Definition ADYTUMFS_STAGING_POOL : Z := 32.

Record adytumfs_staged := Staged {
  st_device : option Z;
  is_table : bool;
  st_index : Z;
  image : list Z
}.

Record fs {D : Type} := Fs {
  staging : Z -> adytumfs_staged;
  super : adytumfs_superblock;
  disk : D
}.
#[global] Arguments fs : clear implicits.
#[global] Arguments Fs {D}.

(** ** Calls that can fail *)

Definition act (D A : Type) : Type := fs D -> option A * fs D.

#[global] Instance act_ret D : MRet (act D) := fun A a s => (Some a, s).

#[global] Instance act_bind D : MBind (act D) := fun A B k m s =>
  match m s with
  | (Some a, s) => k a s
  | (None, s) => (None, s)
  end.

Section Volume.
Context {D : Type} `{FsDevice D}.
Implicit Types (s : fs D).

Definition fail {A} : act D A := fun s => (None, s).

Definition the_super : act D adytumfs_superblock := fun s => (Some (super s), s).

Definition set_super (super : adytumfs_superblock) : act D unit := fun s => (Some tt, Fs (staging s) super (disk s)).

Definition set_staged (i : Z) (e : adytumfs_staged) : act D unit :=
  fun s => (Some tt, Fs (upd (staging s) i e) (super s) (disk s)).

(** An operation of the device. *)
Definition on_disk {A} (f : D -> A * D) : act D A := fun s => let '(a, d) := f (disk s) in (Some a, Fs (staging s) (super s) d).

(** [for (i = from; i < to; i++) if (body(i)) return -1;] *)
Fixpoint for_act (n : nat) (from : Z) (body : Z -> act D unit) : act D unit :=
  match n with
  | O => mret tt
  | S n => _ ← body from; for_act n (from + 1) body
  end.

Definition for_to (from to : Z) (body : Z -> act D unit) : act D unit := for_act (Z.to_nat (to - from)) from body.

(** ** Blocks *)

Definition adytumfs_block_read (device block : Z) : act D (list Z) :=
  r ← on_disk (block_cache_read device (u32 (block * ADYTUMFS_SECTORS_PER_BLOCK)));
  match r with
  | Some bytes => mret bytes
  | None => fail
  end.

Definition adytumfs_block_write (device block : Z) (buffer : list Z) : act D unit :=
  ok ← on_disk (block_cache_write device (u32 (block * ADYTUMFS_SECTORS_PER_BLOCK)) buffer);
  if ok : bool then mret tt else fail.

(** Where the checksum of a data block is: a block of the region and an offset
    in it; [None] outside of the data. *)
Definition checksum_entry (super : adytumfs_superblock) (block : Z) : option (Z * Z) :=
  if (block <? data_start super) || (data_checksum_region super <=? block) then None else
  let index := u64 (block - data_start super) in
  Some (u64 (data_checksum_region super + index / ADYTUMFS_CHECKSUMS_PER_BLOCK),
        (index mod ADYTUMFS_CHECKSUMS_PER_BLOCK) * 4).

Definition adytumfs_data_check (device block : Z) (bytes : list Z) : act D unit :=
  super ← the_super;
  match checksum_entry super block with
  | None => fail
  | Some (region_block, entry) =>
      scratch ← adytumfs_block_read device region_block;
      if adytumfs_read_le32 scratch entry =? crc32c bytes ADYTUMFS_BLOCK_SIZE then mret tt else fail
  end.

Definition adytumfs_data_seal (device block : Z) (bytes : list Z) : act D unit :=
  super ← the_super;
  match checksum_entry super block with
  | None => fail
  | Some (region_block, entry) =>
      scratch ← adytumfs_block_read device region_block;
      adytumfs_block_write device region_block
        (adytumfs_write_le32 scratch entry (crc32c bytes ADYTUMFS_BLOCK_SIZE))
  end.

Definition adytumfs_data_read (device block : Z) : act D (list Z) :=
  buffer ← adytumfs_block_read device block;
  _ ← adytumfs_data_check device block buffer;
  mret buffer.

Definition adytumfs_data_write (device block : Z) (buffer : list Z) : act D unit :=
  _ ← adytumfs_block_write device block buffer;
  adytumfs_data_seal device block buffer.

Definition adytumfs_block_zero (device block : Z) : act D unit :=
  let lba := u32 (block * ADYTUMFS_SECTORS_PER_BLOCK) in
  _ ← on_disk (fun d => (tt, block_cache_invalidate device lba ADYTUMFS_SECTORS_PER_BLOCK d));
  _ ← for_to 0 ADYTUMFS_SECTORS_PER_BLOCK (fun sector =>
        ok ← on_disk (block_io_write device (u32 (lba + sector)) (replicate (Z.to_nat BLOCK_SECTOR_SIZE) 0));
        if ok : bool then mret tt else fail);
  adytumfs_data_seal device block zero_block.

(** ** The two metadata sets *)

Definition superblock_slot (total_blocks slot : Z) : Z := if nz slot then u64 (total_blocks - 1) else 0.

Definition bitmap_slot_base (super : adytumfs_superblock) (slot : Z) : Z :=
  if negb (nz slot) then block_bitmap_start super else u64 (total_blocks super - 1 - block_bitmap_blocks super).

Definition table_slot_base (super : adytumfs_superblock) (slot : Z) : Z :=
  if negb (nz slot) then inode_table_start super
  else u64 (total_blocks super - 1 - block_bitmap_blocks super - inode_table_blocks super).

Definition adytumfs_superblock_block (super : adytumfs_superblock) : Z :=
  superblock_slot (total_blocks super) (active_slot super).

Definition adytumfs_bitmap_block (super : adytumfs_superblock) (index : Z) : Z :=
  u64 (bitmap_slot_base super (active_slot super) + index).

Definition adytumfs_table_block (super : adytumfs_superblock) (index : Z) : Z :=
  u64 (table_slot_base super (active_slot super) + index).

(** The block of one set that a staged image belongs to. *)
Definition staged_block (super : adytumfs_superblock) (slot : Z) (is_table : bool) (index : Z) : Z :=
  u64 ((if is_table then table_slot_base super slot else bitmap_slot_base super slot) + index).

(** ** The staging of the open window *)

Definition staged_as (device : Z) (is_table' : bool) (index : Z) (e : adytumfs_staged) : bool :=
  bool_decide (st_device e = Some device) && Bool.eqb (is_table e) is_table' && (st_index e =? u8 index).

Definition staging_find (device : Z) (is_table : bool) (index : Z) : act D (option Z) :=
  fun s => (Some (scan_range 0 ADYTUMFS_STAGING_POOL (fun entry => staged_as device is_table index (staging s entry))), s).

Definition staged_image (entry : Z) : act D (list Z) := fun s => (Some (image (staging s entry)), s).

Definition free_entry : act D (option Z) :=
  fun s => (Some (scan_range 0 ADYTUMFS_STAGING_POOL (fun entry => bool_decide (st_device (staging s entry) = None))), s).

Definition staging_claim (device : Z) (is_table : bool) (index : Z) : act D Z :=
  if 255 <? index then fail else
  super ← the_super;
  found ← staging_find device is_table index;
  match found with
  | Some entry => mret entry
  | None =>
      free ← free_entry;
      match free with
      | None => fail
      | Some entry =>
          image ← adytumfs_block_read device (staged_block super (active_slot super) is_table index);
          _ ← set_staged entry (Staged (Some device) is_table (u8 index) image);
          mret entry
      end
  end.

Definition set_image (entry : Z) (bytes : list Z) : act D unit :=
  fun s => let e := staging s entry in
    set_staged entry (Staged (st_device e) (is_table e) (st_index e) bytes) s.

Definition discard_entry (device : Z) (e : adytumfs_staged) : adytumfs_staged :=
  if bool_decide (st_device e = Some device) then Staged None (is_table e) (st_index e) (image e) else e.

Definition adytumfs_window_discard (device : Z) : act D unit :=
  for_to 0 ADYTUMFS_STAGING_POOL (fun entry s => set_staged entry (discard_entry device (staging s entry)) s).

Definition adytumfs_table_read (device index : Z) : act D (list Z) :=
  super ← the_super;
  found ← staging_find device true index;
  match found with
  | Some entry => staged_image entry
  | None => adytumfs_block_read device (staged_block super (active_slot super) true index)
  end.

Definition adytumfs_table_stage (device index : Z) (buffer : list Z) : act D unit :=
  entry ← staging_claim device true index;
  set_image entry buffer.

(** ** The bitmap *)

Definition bits_per_block : Z := ADYTUMFS_BLOCK_SIZE * 8.

Definition bit_in (image : list Z) (offset : Z) : bool := nz (Z.land (Z.shiftr (at_ image (offset / 8)) (offset mod 8)) 1).

Definition adytumfs_bit_test (device block : Z) : act D bool :=
  super ← the_super;
  let bitmap := block / bits_per_block in
  let offset := block mod bits_per_block in
  if block_bitmap_blocks super <=? bitmap then fail else
  found ← staging_find device false (u32 bitmap);
  match found with
  | Some entry => image ← staged_image entry; mret (bit_in image offset)
  | None =>
      scratch ← adytumfs_block_read device (staged_block super (active_slot super) false bitmap);
      mret (bit_in scratch offset)
  end.

Definition adytumfs_bit_committed (device block : Z) : act D bool :=
  super ← the_super;
  let bitmap := block / bits_per_block in
  let offset := block mod bits_per_block in
  if block_bitmap_blocks super <=? bitmap then fail else
  scratch ← adytumfs_block_read device (staged_block super (active_slot super) false bitmap);
  mret (bit_in scratch offset).

Definition set_bit (image : list Z) (offset : Z) (used : bool) : list Z :=
  let byte := at_ image (offset / 8) in
  let mask := u8 (Z.shiftl 1 (offset mod 8)) in
  <[Z.to_nat (offset / 8) := if used then u8 (Z.lor byte mask) else Z.land byte (u8 (Z.lnot (Z.shiftl 1 (offset mod 8))))]> image.

Definition adytumfs_bit_write (device block : Z) (used : bool) : act D unit :=
  super ← the_super;
  let bitmap := block / bits_per_block in
  let offset := block mod bits_per_block in
  if block_bitmap_blocks super <=? bitmap then fail else
  entry ← staging_claim device false (u32 bitmap);
  image ← staged_image entry;
  set_image entry (set_bit image offset used).

Definition set_free_blocks (n : Z) (super : adytumfs_superblock) : adytumfs_superblock :=
  Superblock (format_version super) (block_size super) (total_blocks super) (block_bitmap_start super)
    (block_bitmap_blocks super) (inode_table_start super) (inode_table_blocks super) (inode_count super)
    (root_inode super) (data_start super) n (free_inodes super) (generation super)
    (feature_compat super) (feature_incompat super) (feature_ro_compat super) (data_checksum_region super)
    (active_slot super).

Definition bump_free_blocks (n : Z) : act D unit :=
  super ← the_super; set_super (set_free_blocks (u64 (free_blocks super + n)) super).

(** The block can be handed out: it is free in the window, and if the window
    has its bitmap block staged, on the disk too. *)
Definition reusable (device block : Z) : act D bool :=
  used ← adytumfs_bit_test device block;
  if used : bool then mret false else
  found ← staging_find device false (u32 (block / bits_per_block));
  match found with
  | None => mret true
  | Some _ => committed ← adytumfs_bit_committed device block; mret (negb committed)
  end.

(** The loop of [adytumfs_alloc_run] from [block] on, [n] blocks before the
    end; [run] blocks before [block] are free, the first of them [run_start]. *)
Fixpoint alloc_scan (n : nat) (device length block run_start run : Z) : act D Z :=
  match n with
  | O => fail
  | S n =>
      free ← reusable device block;
      if negb free then alloc_scan n device length (block + 1) run_start 0 else
      let run_start := if run =? 0 then block else run_start in
      let run := run + 1 in
      if run =? length then
        _ ← for_to run_start (run_start + length) (fun mark => adytumfs_bit_write device mark true);
        _ ← bump_free_blocks (- length);
        mret run_start
      else alloc_scan n device length (block + 1) run_start run
  end.

Definition adytumfs_alloc_run (device length : Z) : act D Z :=
  if length =? 0 then fail else
  super ← the_super;
  alloc_scan (Z.to_nat (data_checksum_region super - data_start super)) device length (data_start super) 0 0.

Definition adytumfs_free_run (device start length : Z) : act D unit :=
  super ← the_super;
  if length =? 0 then fail else
  if (start <? data_start super) || (data_checksum_region super <=? start) ||
     (u64 (data_checksum_region super - start) <? length) then fail else
  _ ← for_to start (start + length) (fun block => adytumfs_bit_write device block false);
  bump_free_blocks length.

(** ** Commit *)

Definition staged_any (device : Z) : act D bool :=
  fun s => (Some (is_some (scan_range 0 ADYTUMFS_STAGING_POOL
                             (fun entry => bool_decide (st_device (staging s entry) = Some device)))), s).

Definition commit_entry (device inactive entry : Z) : act D unit :=
  fun s =>
    let slot := staging s entry in
    if bool_decide (st_device slot = Some device)
    then adytumfs_block_write device (staged_block (super s) inactive (is_table slot) (st_index slot)) (image slot) s
    else (Some tt, s).

Definition next_super (inactive : Z) (super : adytumfs_superblock) : adytumfs_superblock :=
  Superblock (format_version super) (block_size super) (total_blocks super) (block_bitmap_start super)
    (block_bitmap_blocks super) (inode_table_start super) (inode_table_blocks super) (inode_count super)
    (root_inode super) (data_start super) (free_blocks super) (free_inodes super) (u64 (generation super + 1))
    (feature_compat super) (feature_incompat super) (feature_ro_compat super) (data_checksum_region super) inactive.

Definition flush (device : Z) : act D unit := ok ← on_disk (block_cache_flush device); if ok : bool then mret tt else fail.

Definition adytumfs_commit (device : Z) : act D unit :=
  super ← the_super;
  let inactive := if nz (active_slot super) then 0 else 1 in
  staged ← staged_any device;
  if negb staged then mret tt else
  _ ← for_to 0 ADYTUMFS_STAGING_POOL (commit_entry device inactive);
  _ ← flush device;
  let next := next_super inactive super in
  let flip := superblock_slot (total_blocks super) inactive in
  _ ← adytumfs_block_write device flip (adytumfs_super_pack next);
  ok ← on_disk (block_cache_flush device);
  if negb ok then
    _ ← on_disk (fun d => (tt, block_cache_invalidate device (u32 (flip * ADYTUMFS_SECTORS_PER_BLOCK))
                                 ADYTUMFS_SECTORS_PER_BLOCK d));
    fail
  else
    _ ← set_super next;
    adytumfs_window_discard device.

(** ** Format *)

(** The loop that grows the checksum region, [fuel] rounds at most. *)
Fixpoint region_loop (fuel : nat) (data_span region_blocks : Z) : option Z :=
  match fuel with
  | O => None
  | S fuel =>
      if region_blocks <? u64 (data_span - region_blocks + ADYTUMFS_CHECKSUMS_PER_BLOCK - 1) / ADYTUMFS_CHECKSUMS_PER_BLOCK
      then region_loop fuel data_span (region_blocks + 1)
      else Some region_blocks
  end.

(** The bitmap block [bitmap] of a new volume: all but the data is in use. *)
Definition fresh_bitmap (total_blocks data_start region_start bitmap : Z) : list Z :=
  let base := bitmap * bits_per_block in
  for_range 0 total_blocks (fun used block =>
    if ((used <? data_start) || (region_start <=? used)) && (base <=? used) && (used - base <? bits_per_block)
    then <[Z.to_nat ((used - base) / 8) :=
             u8 (Z.lor (at_ block ((used - base) / 8)) (u8 (Z.shiftl 1 ((used - base) mod 8))))]> block
    else block) zero_block.

Definition no_extents : list adytumfs_extent := replicate (Z.to_nat ADYTUMFS_DIRECT_EXTENTS) no_extent.

Definition root_dir (now : Z) : adytumfs_inode :=
  Inode (Z.lor ADYTUMFS_MODE_DIR 0x1ED) 2 0 0 0 0 0 now now now 1 no_extents 0 0 0 0 0.

(** The inode table block [table] of a new volume. *)
Definition fresh_table (now table : Z) : list Z :=
  if table =? 0 then put zero_block (ADYTUMFS_ROOT_INODE * ADYTUMFS_INODE_SIZE) (adytumfs_inode_pack (root_dir now))
  else zero_block.

Definition wall_clock : act D Z := fun s => (Some (rtc64_wall_clock (disk s)), s).

Definition adytumfs_make (fuel : nat) (device : Z) : act D unit :=
  info ← on_disk (fun d => (block_info device d, d));
  match info with
  | None => fail
  | Some (sector_count, flags) =>
      if nz (Z.land flags BLOCK_FLAG_READ_ONLY) then fail else
      let total_blocks := sector_count / ADYTUMFS_SECTORS_PER_BLOCK in
      let bitmap_blocks := u64 (total_blocks + bits_per_block - 1) / bits_per_block in
      let inode_table_blocks := total_blocks / 32 in
      let inode_table_blocks :=
        if ADYTUMFS_INODE_TABLE_BLOCKS_MAX <? inode_table_blocks then ADYTUMFS_INODE_TABLE_BLOCKS_MAX
        else inode_table_blocks in
      let inode_table_blocks := if inode_table_blocks =? 0 then 1 else inode_table_blocks in
      let inode_table_start := 1 + bitmap_blocks in
      let data_start := inode_table_start + inode_table_blocks in
      let tail_base := u64 (total_blocks - 1 - bitmap_blocks - inode_table_blocks) in
      if (total_blocks <? 1) || (tail_base <=? data_start) then fail else
      let inode_count := inode_table_blocks * ADYTUMFS_INODES_PER_BLOCK in
      let data_span := u64 (tail_base - data_start) in
      match region_loop fuel data_span 1 with
      | None => fail
      | Some region_blocks =>
          let data_blocks := u64 (data_span - region_blocks) in
          if data_blocks =? 0 then fail else
          let region_start := u64 (data_start + data_blocks) in
          let shadow_table_start := tail_base in
          let shadow_bitmap_start := u64 (tail_base + inode_table_blocks) in
          let super := Superblock ADYTUMFS_FORMAT_VERSION ADYTUMFS_BLOCK_SIZE total_blocks 1 bitmap_blocks
            inode_table_start inode_table_blocks inode_count ADYTUMFS_ROOT_INODE data_start data_blocks
            (inode_count - 2) 1 0 ADYTUMFS_FEATURE_INCOMPAT_V2 0 region_start 0 in
          let block := adytumfs_super_pack super in
          _ ← adytumfs_block_write device 0 block;
          _ ← adytumfs_block_write device (u64 (total_blocks - 1)) block;
          _ ← for_to 0 bitmap_blocks (fun bitmap =>
                let block := fresh_bitmap total_blocks data_start region_start bitmap in
                _ ← adytumfs_block_write device (u64 (1 + bitmap)) block;
                adytumfs_block_write device (u64 (shadow_bitmap_start + bitmap)) block);
          _ ← for_to 0 inode_table_blocks (fun table =>
                now ← wall_clock;
                let block := fresh_table now table in
                _ ← adytumfs_block_write device (u64 (inode_table_start + table)) block;
                adytumfs_block_write device (u64 (shadow_table_start + table)) block);
          _ ← for_to 0 region_blocks (fun region => adytumfs_block_write device (u64 (region_start + region)) zero_block);
          flush device
      end
  end.

(** ** The choice of the superblock *)

(** One superblock of the pair: read and sound, with its validity. *)
Definition read_copy (device block device_blocks : Z) : act D (option (adytumfs_superblock * bool)) :=
  fun s =>
    match adytumfs_block_read device block s with
    | (None, s) => (Some None, s)
    | (Some bytes, s) =>
        (Some (match adytumfs_super_unpack bytes with
               | None => None
               | Some copy => Some (copy, adytumfs_super_valid copy device_blocks)
               end), s)
    end.

(** The newest sound copy; the first on a tie. *)
Definition pick (pair0 pair1 : option (adytumfs_superblock * bool)) : option (adytumfs_superblock * bool) :=
  match pair0, pair1 with
  | _, None => pair0
  | None, Some (copy, valid) => Some (set_slot 1 copy, valid)
  | Some (copy0, _), Some (copy, valid) =>
      if generation copy0 <? generation copy then Some (set_slot 1 copy, valid) else pair0
  end.

Definition adytumfs_super_read (device : Z) : act D adytumfs_superblock :=
  info ← on_disk (fun d => (block_info device d, d));
  match info with
  | None => fail
  | Some (sector_count, _) =>
      let device_blocks := sector_count / ADYTUMFS_SECTORS_PER_BLOCK in
      if device_blocks <? 1 then fail else
      pair0 ← read_copy device 0 device_blocks;
      let backup := match pair0 with
        | Some (copy, true) => u64 (total_blocks copy - 1)
        | _ => device_blocks - 1
        end in
      pair1 ← (if 0 <? backup then read_copy device backup device_blocks else mret None);
      match pick pair0 pair1 with
      | Some (copy, true) => mret copy
      | _ => fail
      end
  end.

End Volume.

End AdytumVolume.
