(* ===== verification/AdytumDevice.v ===== *)
(** AdytumFS: what the file system relies on in the block layer.

    A device is an array of sectors.  What callers see goes through the cache;
    what is stored survives a crash.  Between two flushes a sector on the
    medium may be as it was or as callers see it, in any order; [past] is the
    history of the medium, so a crash leaves one of its images.  A sector is
    written whole. *)

From S2P Require Import Prelude Wire AdytumFormat AdytumVolume.

Module AdytumDevice.
Import Wire AdytumFormat AdytumVolume.

(** The content of the media: device, sector. *)
Definition media : Type := Z -> Z -> list Z.

(** Sector [k] of the bytes of a block. *)
Definition sector (bytes : list Z) (k : Z) : list Z :=
  take (Z.to_nat BLOCK_SECTOR_SIZE) (drop (Z.to_nat (BLOCK_SECTOR_SIZE * k)) bytes).

(** The bytes of the block [b]. *)
Definition block_of (f : Z -> list Z) (b : Z) : list Z := concat (map (fun k => f (8 * b + k)) (seqZ 0 8)).

(** [x] is a sector of the block [b]. *)
Definition in_block (b x : Z) : Prop := 8 * b <= x < 8 * b + 8.

Class FsDeviceLaws (D : Type) `{FsDevice D} := {
  seen : D -> media;
  stored : D -> media;
  past : D -> media -> Prop;
  cached : D -> Z -> Z -> Prop;
  seen_sector : forall d dev x, length (seen d dev x) = 512%nat /\ is_bytes (seen d dev x);
  stored_sector : forall d dev x, length (stored d dev x) = 512%nat /\ is_bytes (stored d dev x);
  past_now : forall d, past d (stored d);
  cached_not : forall d dev x, ~ cached d dev (x / 8) -> seen d dev x = stored d dev x;
  info_range : forall d dev n fl, block_info dev d = Some (n, fl) -> is_u32 n;
  clock_range : forall d, is_u64 (rtc64_wall_clock d) /\ is_u32 (rtc64_wall_clock_nsec d);
  (** Whatever the cache does, a sector on the medium stays or becomes what
      callers see. *)
  read_law : forall dev b d, 0 <= b < 2 ^ 29 ->
    let '(r, d') := block_cache_read dev (8 * b) d in
    (forall i x, seen d' i x = seen d i x) /\
    (forall i x, stored d' i x = stored d i x \/ stored d' i x = seen d i x) /\
    (forall st, past d' st -> past d st \/ forall i x, st i x = stored d i x \/ st i x = seen d i x) /\
    (forall bytes, r = Some bytes -> bytes = block_of (seen d dev) b);
  write_law : forall dev b bytes d, 0 <= b < 2 ^ 29 -> Z.of_nat (length bytes) = 4096 -> is_bytes bytes ->
    let '(ok, d') := block_cache_write dev (8 * b) bytes d in
    (forall i x, ~ (i = dev /\ in_block b x) -> seen d' i x = seen d i x) /\
    (forall x, in_block b x -> seen d' dev x = sector bytes (x - 8 * b) \/ ok = false /\ seen d' dev x = seen d dev x) /\
    (forall i x, stored d' i x = stored d i x \/ stored d' i x = seen d i x \/ stored d' i x = seen d' i x) /\
    (forall st, past d' st -> past d st \/
       forall i x, st i x = stored d i x \/ st i x = seen d i x \/ st i x = seen d' i x);
  flush_law : forall dev d,
    let '(ok, d') := block_cache_flush dev d in
    (forall i x, seen d' i x = seen d i x) /\
    (forall i x, stored d' i x = stored d i x \/ stored d' i x = seen d i x) /\
    (forall st, past d' st -> past d st \/ forall i x, st i x = stored d i x \/ st i x = seen d i x) /\
    (ok = true -> forall x, stored d' dev x = seen d dev x);
  (** Dropping a block from the cache loses what was not written. *)
  invalidate_law : forall dev b d, 0 <= b < 2 ^ 29 ->
    let d' := block_cache_invalidate dev (8 * b) 8 d in
    (forall i x, ~ (i = dev /\ in_block b x) -> seen d' i x = seen d i x) /\
    ~ cached d' dev b /\
    (forall i x, stored d' i x = stored d i x) /\
    (forall st, past d' st -> past d st \/ forall i x, st i x = stored d i x);
  (** A direct write goes to the medium and not to the cache. *)
  io_law : forall dev x bytes d, 0 <= x < 2 ^ 32 -> length bytes = 512%nat -> is_bytes bytes ->
    let '(ok, d') := block_io_write dev x bytes d in
    (forall i y, ~ (i = dev /\ y = x) -> seen d' i y = seen d i y) /\
    (forall i b, cached d' i b <-> cached d i b) /\
    (forall i y, ~ (i = dev /\ y = x) -> stored d' i y = stored d i y) /\
    (ok = true -> stored d' dev x = bytes) /\
    (forall st, past d' st -> past d st \/
       forall i y, ~ (i = dev /\ y = x) -> st i y = stored d i y)
}.

(** ** Blocks and sectors *)

Lemma chunks_concat (n m : nat) (l : list Z) :
  length l = (m * n)%nat -> concat (map (fun k => take n (drop (n * k) l)) (seq 0 m)) = l.
Proof.
  revert l. induction m as [|m IH]; intros l Hl; [by destruct l|].
  rewrite <- cons_seq, <- seq_shift, map_cons, map_map. cbn [concat]. rewrite Nat.mul_0_r, drop_0.
  erewrite map_ext; [rewrite (IH (drop n l)); [apply take_drop|]|].
  - rewrite length_drop, Hl. cbn [Nat.mul]. lia.
  - intros k. cbn beta. rewrite drop_drop. do 2 f_equal. lia.
Qed.

Lemma concat_chunk (n k : nat) (fs : list (list Z)) x :
  Forall (fun l => length l = n) fs -> fs !! k = Some x -> take n (drop (n * k) (concat fs)) = x.
Proof.
  revert k. induction fs as [|f fs IH]; intros k Hf Hk; [done|]. apply Forall_cons in Hf as [Hl Hf]. destruct k as [|k].
  - injection Hk as ->. rewrite Nat.mul_0_r, drop_0. cbn [concat]. by apply take_app_length'.
  - cbn [concat]. replace (n * S k)%nat with (length f + n * k)%nat by (rewrite Hl; lia). rewrite drop_app_add. by apply IH.
Qed.

Lemma concat_length (n : nat) (fs : list (list Z)) :
  Forall (fun l => length l = n) fs -> length (concat fs) = (length fs * n)%nat.
Proof. induction 1 as [|f fs Hf _ IH]; [done|]. cbn [concat length]. rewrite length_app, IH, Hf. lia. Qed.

Lemma block_of_ext f g b : (forall x, in_block b x -> f x = g x) -> block_of f b = block_of g b.
Proof.
  intros He. unfold block_of. f_equal. apply map_ext_in. intros k Hk%list_elem_of_In%elem_of_seqZ. apply He. unfold in_block. lia.
Qed.

Lemma block_of_length f b : (forall x, length (f x) = 512%nat) -> Z.of_nat (length (block_of f b)) = 4096.
Proof.
  intros Hf. unfold block_of. rewrite (concat_length 512), length_map, length_seqZ; [done|].
  apply Forall_forall. intros l (k & -> & _)%list_elem_of_fmap. apply Hf.
Qed.

Lemma block_of_bytes f b : (forall x, is_bytes (f x)) -> is_bytes (block_of f b).
Proof. intros Hf. unfold block_of, is_bytes. apply Forall_concat, Forall_map, Forall_forall. intros k _. apply Hf. Qed.

Lemma sector_length bytes k : Z.of_nat (length bytes) = 4096 -> 0 <= k < 8 -> length (sector bytes k) = 512%nat.
Proof. intros Hl Hk. unfold sector, BLOCK_SECTOR_SIZE. rewrite length_take, length_drop. lia. Qed.

Lemma block_of_sectors f b bytes :
  Z.of_nat (length bytes) = 4096 -> (forall x, in_block b x -> f x = sector bytes (x - 8 * b)) -> block_of f b = bytes.
Proof.
  intros Hl Hf. unfold block_of. rewrite <- (chunks_concat 512 8 bytes) at 1 by lia. f_equal.
  change (seqZ 0 8) with (map Z.of_nat (seq 0 8)). rewrite map_map. apply map_ext_in. intros k Hk%in_seq.
  rewrite Hf by (unfold in_block; lia). unfold sector, BLOCK_SECTOR_SIZE. f_equal. f_equal. lia.
Qed.

Lemma sector_block_of f b x :
  (forall x, length (f x) = 512%nat) -> in_block b x -> sector (block_of f b) (x - 8 * b) = f x.
Proof.
  intros Hf Hx. unfold in_block in Hx. unfold block_of, sector, BLOCK_SECTOR_SIZE.
  replace (Z.to_nat (512 * (x - 8 * b))) with (512 * Z.to_nat (x - 8 * b))%nat by lia. apply concat_chunk.
  - apply Forall_forall. intros l (k & -> & _)%list_elem_of_fmap. apply Hf.
  - change (seqZ 0 8) with (map Z.of_nat (seq 0 8)). rewrite map_map. rewrite list_lookup_fmap, lookup_seq_lt by lia. cbn [fmap option_fmap option_map]. do 2 f_equal. lia.
Qed.

(** ** Loops that can fail *)

Section Loops.
Context {D : Type}.
Implicit Types (s : fs D).

Lemma bind_run {A C} (m : act D A) (k : A -> act D C) s :
  (m ≫= k) s = match m s with (Some a, s') => k a s' | (None, s') => (None, s') end.
Proof. reflexivity. Qed.

Lemma for_act_ind (I : Z -> fs D -> Prop) (J : fs D -> Prop) n from body s :
  I from s ->
  (forall i s, from <= i < from + Z.of_nat n -> I i s ->
     match body i s with (Some _, s') => I (i + 1) s' | (None, s') => J s' end) ->
  match for_act n from body s with (Some _, s') => I (from + Z.of_nat n) s' | (None, s') => J s' end.
Proof.
  revert from s. induction n as [|n IH]; intros from s Hi Hb.
  - cbn. by rewrite Z.add_0_r.
  - cbn [for_act]. unfold mbind, act_bind. pose proof (Hb from s ltac:(lia) Hi) as H1. destruct (body from s) as [[u|] s1]; [|done].
    replace (from + Z.of_nat (S n)) with (from + 1 + Z.of_nat n) by lia. apply IH; [done|]. intros i s2 Hr. apply Hb. lia.
Qed.

Lemma for_to_ind (I : Z -> fs D -> Prop) (J : fs D -> Prop) from to body s :
  I from s ->
  (forall i s, from <= i < to -> I i s -> match body i s with (Some _, s') => I (i + 1) s' | (None, s') => J s' end) ->
  match for_to from to body s with (Some _, s') => I (Z.max from to) s' | (None, s') => J s' end.
Proof.
  intros Hi Hb. unfold for_to. replace (Z.max from to) with (from + Z.of_nat (Z.to_nat (to - from))) by lia.
  apply for_act_ind; [done|]. intros i s1 Hr. apply Hb. lia.
Qed.

End Loops.

(** ** What an operation leaves alone *)

Section Kept.
Context {D : Type} `{FsDeviceLaws D}.
Implicit Types (d : D) (s : fs D) (P : Z -> Z -> Prop).

(** Outside of [P] callers see what they saw, and at every moment the medium
    had there what it had at the start or what callers saw. *)
Record kept P d d' : Prop := {
  k_seen : forall i x, ~ P i x -> seen d' i x = seen d i x;
  k_stored : forall i x, ~ P i x -> stored d' i x = stored d i x \/ stored d' i x = seen d i x;
  k_past : forall st, past d' st -> past d st \/ forall i x, ~ P i x -> st i x = stored d i x \/ st i x = seen d i x
}.

Lemma media_kept_refl P d : kept P d d.
Proof. split; auto. Qed.

Lemma media_kept_trans P d d' d'' : kept P d d' -> kept P d' d'' -> kept P d d''.
Proof.
  intros [S1 T1 H1] [S2 T2 H2]. split.
  - intros i x Hx. rewrite S2 by done. auto.
  - intros i x Hx. destruct (T2 i x Hx) as [->| ->]; [auto|right; auto].
  - intros st Hst. destruct (H2 st Hst) as [Hp|Hp]; [auto|]. right. intros i x Hx.
    destruct (Hp i x Hx) as [->| ->]; [auto|right; auto].
Qed.

Lemma kept_weaken P Q d d' : (forall i x, P i x -> Q i x) -> kept P d d' -> kept Q d d'.
Proof.
  intros HPQ [S1 T1 H1]. split.
  - intros i x Hx. apply S1. auto.
  - intros i x Hx. apply T1. auto.
  - intros st Hst. destruct (H1 st Hst) as [Hp|Hp]; [auto|]. right. intros i x Hx. apply Hp. auto.
Qed.

Definition nowhere : Z -> Z -> Prop := fun _ _ => False.

Definition at_block (dev b : Z) : Z -> Z -> Prop := fun i x => i = dev /\ in_block b x.

Lemma read_kept dev b d : 0 <= b < 2 ^ 29 -> kept nowhere d (snd (block_cache_read dev (8 * b) d)).
Proof.
  intros Hb. pose proof (read_law dev b d Hb) as Hr. destruct (block_cache_read _ _ _) as [r d']. destruct Hr as (H1 & H2 & H3 & _).
  split; [auto|auto|]. intros st Hst. destruct (H3 st Hst); auto.
Qed.

Lemma flush_kept dev d : kept nowhere d (snd (block_cache_flush dev d)).
Proof.
  pose proof (flush_law dev d) as Hr. destruct (block_cache_flush _ _) as [r d']. destruct Hr as (H1 & H2 & H3 & _).
  split; [auto|auto|]. intros st Hst. destruct (H3 st Hst); auto.
Qed.

Lemma write_kept dev b bytes d :
  0 <= b < 2 ^ 29 -> Z.of_nat (length bytes) = 4096 -> is_bytes bytes ->
  kept (at_block dev b) d (snd (block_cache_write dev (8 * b) bytes d)).
Proof.
  intros Hb Hl Hy. pose proof (write_law dev b bytes d Hb Hl Hy) as Hr. destruct (block_cache_write _ _ _ _) as [r d'].
  destruct Hr as (H1 & _ & H3 & H4). cbn [snd]. split; [auto| |].
  - intros i x Hx. destruct (H3 i x) as [->|[->| ->]]; [auto|auto|right; auto].
  - intros st Hst. destruct (H4 st Hst) as [Hp|Hp]; [auto|]. right. intros i x Hx. destruct (Hp i x) as [->|[->| ->]]; [auto|auto|right; auto].
Qed.

Lemma invalidate_kept dev b d : 0 <= b < 2 ^ 29 -> kept (at_block dev b) d (block_cache_invalidate dev (8 * b) 8 d).
Proof.
  intros Hb. destruct (invalidate_law dev b d Hb) as (H1 & _ & H3 & H4). split; [auto|auto|].
  intros st Hst. destruct (H4 st Hst) as [Hp|Hp]; [auto|]. right. auto.
Qed.

(** ** Blocks of the file system *)

(** What callers see of the block [b]. *)
Definition content (d : D) (dev b : Z) : list Z := block_of (seen d dev) b.

Definition is_block (bytes : list Z) : Prop := Z.of_nat (length bytes) = 4096 /\ is_bytes bytes.

Lemma content_block d dev b : is_block (content d dev b).
Proof. split; [apply block_of_length; intros x; apply seen_sector|apply block_of_bytes; intros x; apply seen_sector]. Qed.

Lemma in_block_unique b b' x : in_block b x -> in_block b' x -> b = b'.
Proof. unfold in_block. lia. Qed.

Lemma kept_content P d d' dev b : kept P d d' -> (forall x, in_block b x -> ~ P dev x) -> content d' dev b = content d dev b.
Proof. intros K Hb. apply block_of_ext. intros x Hx. apply K. by apply Hb. Qed.

Lemma lba_small b : 0 <= b < 2 ^ 29 -> u32 (b * ADYTUMFS_SECTORS_PER_BLOCK) = 8 * b.
Proof. intros Hb. unfold ADYTUMFS_SECTORS_PER_BLOCK. change (2 ^ 29) with 536870912 in Hb. rewrite u32_small; [lia|]. unfold is_u32. lia. Qed.

Lemma block_read_spec dev b s :
  0 <= b < 2 ^ 29 ->
  let '(r, s') := adytumfs_block_read dev b s in
  staging s' = staging s /\ super s' = super s /\ kept nowhere (disk s) (disk s') /\
  forall bytes, r = Some bytes -> bytes = content (disk s) dev b.
Proof.
  intros Hb. unfold adytumfs_block_read, mbind, act_bind, on_disk. rewrite (lba_small b Hb).
  pose proof (read_kept dev b (disk s) Hb) as K. pose proof (read_law dev b (disk s) Hb) as Hr.
  destruct (block_cache_read _ _ _) as [[bytes|] d']; (split; [done|]; split; [done|]; split; [done|]).
  - intros ? [= ->]. by apply Hr.
  - done.
Qed.

Lemma block_write_spec dev b bytes s :
  0 <= b < 2 ^ 29 -> is_block bytes ->
  let '(r, s') := adytumfs_block_write dev b bytes s in
  staging s' = staging s /\ super s' = super s /\ kept (at_block dev b) (disk s) (disk s') /\
  (r = Some tt -> content (disk s') dev b = bytes) /\
  (forall x, in_block b x -> seen (disk s') dev x = sector bytes (x - 8 * b) \/ seen (disk s') dev x = seen (disk s) dev x) /\
  (forall x, in_block b x -> stored (disk s') dev x = stored (disk s) dev x \/ stored (disk s') dev x = seen (disk s) dev x \/
     stored (disk s') dev x = sector bytes (x - 8 * b)) /\
  (forall st, past (disk s') st -> past (disk s) st \/
     forall x, in_block b x -> st dev x = stored (disk s) dev x \/ st dev x = seen (disk s) dev x \/ st dev x = sector bytes (x - 8 * b)).
Proof.
  intros Hb [Hl Hy]. unfold adytumfs_block_write, mbind, act_bind, on_disk. rewrite (lba_small b Hb).
  pose proof (write_kept dev b bytes (disk s) Hb Hl Hy) as K. pose proof (write_law dev b bytes (disk s) Hb Hl Hy) as Hw.
  destruct (block_cache_write _ _ _ _) as [ok d']. destruct Hw as (_ & H2 & H3 & H4). cbn [snd] in K.
  assert (forall x, in_block b x -> seen d' dev x = sector bytes (x - 8 * b) \/ seen d' dev x = seen (disk s) dev x) as Hs.
  { intros x Hx. destruct (H2 x Hx) as [?|[_ ?]]; auto. }
  assert (forall x, in_block b x -> stored d' dev x = stored (disk s) dev x \/ stored d' dev x = seen (disk s) dev x \/
     stored d' dev x = sector bytes (x - 8 * b)) as Ht.
  { intros x Hx. destruct (H3 dev x) as [?|[?|He]]; [auto|auto|]. destruct (Hs x Hx) as [Hn|Hn]; rewrite Hn in He; auto. }
  assert (forall st, past d' st -> past (disk s) st \/
     forall x, in_block b x -> st dev x = stored (disk s) dev x \/ st dev x = seen (disk s) dev x \/ st dev x = sector bytes (x - 8 * b)) as Hm.
  { intros st Hst. destruct (H4 st Hst) as [?|Hp]; [auto|right]. intros x Hx. destruct (Hp dev x) as [?|[?|He]]; [auto|auto|].
    destruct (Hs x Hx) as [Hn|Hn]; rewrite Hn in He; auto. }
  destruct ok; do 3 (split; [done|]); (split; [|done]); [|done]. intros _. apply block_of_sectors; [done|].
  intros x Hx. by destruct (H2 x Hx) as [?|[? _]].
Qed.

Lemma flush_durable dev s :
  let '(r, s') := flush dev s in
  staging s' = staging s /\ super s' = super s /\ kept nowhere (disk s) (disk s') /\
  (r = Some tt -> forall x, stored (disk s') dev x = seen (disk s) dev x).
Proof.
  unfold flush, mbind, act_bind, on_disk. pose proof (flush_kept dev (disk s)) as K. pose proof (flush_law dev (disk s)) as Hf.
  destruct (block_cache_flush _ _) as [[] d']; do 3 (split; [done|]); [|done]. intros _. by apply Hf.
Qed.

End Kept.

End AdytumDevice.
