(* ===== verification/AdytumCommit.v ===== *)
(** AdytumFS: a commit is atomic.

    At every moment of a commit the medium mounts as the old generation, with
    its metadata untouched, or as the new one, with every staged block in
    place.  The two superblocks carry that: the old one is not written, and a
    copy of the new one that is only partly on the medium fails its checksum. *)

From S2P Require Import Prelude Crc32c Wire AdytumFormat AdytumVolume AdytumDevice.

Module AdytumCommit.
Import Wire AdytumFormat AdytumVolume AdytumDevice.

#[local] Opaque crc32c adytumfs_super_pack.

(** ** A superblock that is partly written *)

Lemma at_sector bytes j : 0 <= j -> at_ bytes j = at_ (sector bytes (j / 512)) (j mod 512).
Proof.
  intros Hj. unfold at_, sector, byte_at, BLOCK_SECTOR_SIZE. rewrite !nth_lookup.
  rewrite lookup_take_lt by (pose proof (Z.mod_pos_bound j 512); lia). rewrite lookup_drop. do 2 f_equal.
  pose proof (Z.div_mod j 512). pose proof (Z.mod_pos_bound j 512). pose proof (Z.div_pos j 512). lia.
Qed.

#[local] Opaque sector.

Lemma at_ext (l l' : list Z) :
  length l = length l' -> (forall j, 0 <= j < Z.of_nat (length l) -> at_ l j = at_ l' j) -> l = l'.
Proof.
  intros Hl He. apply nth_ext with (d := 0) (d' := 0); [done|]. intros n Hn.
  specialize (He (Z.of_nat n) ltac:(lia)). unfold at_, byte_at in He. by rewrite Nat2Z.id in He.
Qed.

Lemma at_take n (l : list Z) j : 0 <= j < Z.of_nat n -> at_ (take n l) j = at_ l j.
Proof. intros Hj. unfold at_, byte_at. rewrite !nth_lookup, lookup_take_lt by lia. done. Qed.

Lemma pack_length super : Z.of_nat (length (adytumfs_super_pack super)) = 4096.
Proof.
  rewrite super_pack_puts. cbv zeta. rewrite puts_snoc, puts_length, zero_length; [done|]. rewrite zero_length. reflexivity.
Qed.

Lemma pack_block super : is_block (adytumfs_super_pack super).
Proof.
  split; [apply pack_length|]. rewrite super_pack_puts. cbv zeta. rewrite puts_snoc. apply puts_bytes; [apply zero_bytes|].
  apply Forall_app. split; [apply super_writes_bytes|]. constructor; [apply le_bytes|constructor].
Qed.

(** The last field of a superblock is at byte 128. *)
Lemma pack_zeros super j : 136 <= j < 4092 -> at_ (adytumfs_super_pack super) j = 0.
Proof.
  intros Hj. rewrite super_pack_puts. cbv zeta. rewrite puts_snoc. set (c := crc32c _ _). clearbody c. rewrite at_puts_other.
  - unfold at_, byte_at, zero_block. rewrite nth_lookup. destruct (_ !! _) as [z|] eqn:Hz; [|done].
    by apply lookup_replicate in Hz as [-> _].
  - rewrite zero_length. reflexivity.
  - lia.
  - intros w Hw. assert (Forall (fun w => fst w + Z.of_nat (length (snd w)) <= 136 \/ 4092 <= fst w)
      (super_writes super ++ [(ADYTUMFS_SUPER_CHECKSUM_OFFSET, le32 c)])) as Hf.
    { cbn [super_writes app]. unfold ADYTUMFS_SUPER_CHECKSUM_OFFSET. repeat (apply Forall_cons; split; [cbn [fst snd length le32 ADYTUMFS_SIGNATURE]; lia|]). constructor. }
    rewrite Forall_forall in Hf. destruct (Hf w Hw); lia.
Qed.

Lemma pack_checksum super :
  adytumfs_read_le32 (adytumfs_super_pack super) ADYTUMFS_SUPER_CHECKSUM_OFFSET =
  crc32c (adytumfs_super_pack super) ADYTUMFS_SUPER_CHECKSUM_OFFSET.
Proof.
  rewrite super_pack_puts. apply (checksum_reads (puts zero_block (super_writes super)) ADYTUMFS_SUPER_CHECKSUM_OFFSET).
  - apply puts_bytes; [apply zero_bytes|apply super_writes_bytes].
  - done.
  - rewrite puts_length by (rewrite zero_length; reflexivity). by rewrite zero_length.
Qed.

(** [mix] has the first sector of [a] and the last one of [b], and is a mixture
    in between. *)
Lemma torn_bytes a b c mix :
  sector mix 0 = sector (adytumfs_super_pack a) 0 -> sector mix 7 = sector (adytumfs_super_pack b) 7 ->
  (forall k, 0 <= k < 8 -> sector mix k = sector (adytumfs_super_pack a) k \/ sector mix k = sector (adytumfs_super_pack c) k) ->
  (forall j, 0 <= j < 4092 -> at_ mix j = at_ (adytumfs_super_pack a) j) /\
  (forall j, 4092 <= j < 4096 -> at_ mix j = at_ (adytumfs_super_pack b) j).
Proof.
  intros H0 H7 Hk. split; intros j Hj.
  - destruct (decide (j < 512)) as [Hlt|Hge].
    + rewrite !(at_sector _ j), (Z.div_small j 512), H0 by lia. done.
    + destruct (Hk (j / 512)) as [He|He]; [split; [apply Z.div_pos; lia|apply Z.div_lt_upper_bound; lia]|..].
      * rewrite !(at_sector _ j), He by lia. done.
      * rewrite (at_sector mix), He, <- at_sector by lia. by rewrite !pack_zeros by lia.
  - rewrite !(at_sector _ j) by lia. replace (j / 512) with 7 by (apply Z.div_unique with (r := j - 3584); lia). by rewrite H7.
Qed.

Lemma torn_super a b mix :
  Z.of_nat (length mix) = 4096 ->
  crc32c (adytumfs_super_pack a) ADYTUMFS_SUPER_CHECKSUM_OFFSET <> crc32c (adytumfs_super_pack b) ADYTUMFS_SUPER_CHECKSUM_OFFSET ->
  (forall k, 0 <= k < 8 -> sector mix k = sector (adytumfs_super_pack a) k \/ sector mix k = sector (adytumfs_super_pack b) k) ->
  mix = adytumfs_super_pack a \/ mix = adytumfs_super_pack b \/ adytumfs_super_unpack mix = None.
Proof.
  intros Hl Hc Hk. pose proof (pack_length a) as La. pose proof (pack_length b) as Lb.
  assert (forall x y, adytumfs_super_pack x <> adytumfs_super_pack y -> crc32c (adytumfs_super_pack x) ADYTUMFS_SUPER_CHECKSUM_OFFSET <> crc32c (adytumfs_super_pack y) ADYTUMFS_SUPER_CHECKSUM_OFFSET ->
    (forall j, 0 <= j < 4092 -> at_ mix j = at_ (adytumfs_super_pack x) j) ->
    (forall j, 4092 <= j < 4096 -> at_ mix j = at_ (adytumfs_super_pack y) j) -> adytumfs_super_unpack mix = None) as Htorn.
  { intros x y _ Hxy H1 H2. unfold adytumfs_super_unpack. destruct (negb (signed mix)); [done|].
    pose proof (pack_length x) as Lx. pose proof (pack_length y) as Ly.
    rewrite (read_le32_ext mix (adytumfs_super_pack y)) by (intros k Hk'; apply H2; unfold ADYTUMFS_SUPER_CHECKSUM_OFFSET; lia).
    rewrite pack_checksum. rewrite (crc32c_prefix mix (adytumfs_super_pack x)).
    - destruct (Z.eqb_spec (crc32c (adytumfs_super_pack y) ADYTUMFS_SUPER_CHECKSUM_OFFSET) (crc32c (adytumfs_super_pack x) ADYTUMFS_SUPER_CHECKSUM_OFFSET)) as [He|_];
        [exfalso; apply Hxy; symmetry; exact He|reflexivity].
    - unfold ADYTUMFS_SUPER_CHECKSUM_OFFSET. lia.
    - unfold ADYTUMFS_SUPER_CHECKSUM_OFFSET. lia.
    - unfold ADYTUMFS_SUPER_CHECKSUM_OFFSET. apply at_ext; [rewrite !length_take; lia|].
      intros j Hj. rewrite length_take in Hj. rewrite !at_take by lia. apply H1. lia. }
  assert (forall x, (forall j, 0 <= j < 4092 -> at_ mix j = at_ (adytumfs_super_pack x) j) ->
    (forall j, 4092 <= j < 4096 -> at_ mix j = at_ (adytumfs_super_pack x) j) -> mix = adytumfs_super_pack x) as Hsame.
  { intros x H1 H2. pose proof (pack_length x). apply at_ext; [lia|]. intros j Hj. destruct (decide (j < 4092)); [apply H1|apply H2]; lia. }
  assert (adytumfs_super_pack a <> adytumfs_super_pack b) as Hab by congruence.
  assert (forall k, 0 <= k < 8 -> sector mix k = sector (adytumfs_super_pack b) k \/ sector mix k = sector (adytumfs_super_pack a) k) as Hk'
    by (intros k Hr; destruct (Hk k Hr); [right|left]; assumption).
  destruct (Hk 0 ltac:(lia)) as [H0|H0], (Hk 7 ltac:(lia)) as [H7|H7].
  - destruct (torn_bytes a a b mix H0 H7 Hk) as [H1 H2]. left. exact (Hsame _ H1 H2).
  - destruct (torn_bytes a b b mix H0 H7 Hk) as [H1 H2]. right. right. exact (Htorn a b Hab Hc H1 H2).
  - destruct (torn_bytes b a a mix H0 H7 Hk') as [H1 H2]. right. right. apply (Htorn b a); [congruence|congruence|exact H1|exact H2].
  - destruct (torn_bytes b b a mix H0 H7 Hk') as [H1 H2]. right. left. exact (Hsame _ H1 H2).
Qed.

(** ** What a mount finds *)

(** One copy of the superblock on the medium. *)
Definition copy_of (st : media) (dev blocks b : Z) : option (adytumfs_superblock * bool) :=
  match adytumfs_super_unpack (block_of (st dev) b) with
  | None => None
  | Some copy => Some (copy, adytumfs_super_valid copy blocks)
  end.

(** What [adytumfs_super_read] answers for a medium of [blocks] blocks. *)
Definition recovered (st : media) (dev blocks : Z) : option adytumfs_superblock :=
  let pair0 := copy_of st dev blocks 0 in
  let backup := match pair0 with
    | Some (copy, true) => u64 (total_blocks copy - 1)
    | _ => blocks - 1
    end in
  let pair1 := if 0 <? backup then copy_of st dev blocks backup else None in
  match pick pair0 pair1 with
  | Some (copy, true) => Some copy
  | _ => None
  end.

(** The same volume, whatever its counters. *)
Record same_volume (a b : adytumfs_superblock) : Prop := {
  sv_block_size : block_size a = block_size b;
  sv_total : total_blocks a = total_blocks b;
  sv_bitmap : block_bitmap_start a = block_bitmap_start b;
  sv_bitmap_blocks : block_bitmap_blocks a = block_bitmap_blocks b;
  sv_table : inode_table_start a = inode_table_start b;
  sv_table_blocks : inode_table_blocks a = inode_table_blocks b;
  sv_count : inode_count a = inode_count b;
  sv_root : root_inode a = root_inode b;
  sv_data : data_start a = data_start b;
  sv_incompat : feature_incompat a = feature_incompat b;
  sv_region : data_checksum_region a = data_checksum_region b
}.

Lemma same_valid a b blocks : same_volume a b -> adytumfs_super_valid a blocks = adytumfs_super_valid b blocks.
Proof. intros [E1 E2 E3 E4 E5 E6 E7 E8 E9 E10 E11]. unfold adytumfs_super_valid. by rewrite E1, E2, E3, E4, E5, E6, E7, E8, E9, E10, E11. Qed.

Lemma next_same slot a : same_volume (next_super slot a) a.
Proof. by split. Qed.

Lemma recovered_pair st dev blocks pair0 pair1 :
  2 <= blocks < 2 ^ 32 -> copy_of st dev blocks 0 = pair0 -> copy_of st dev blocks (blocks - 1) = pair1 ->
  (forall copy, pair0 = Some (copy, true) -> total_blocks copy = blocks) ->
  recovered st dev blocks = match pick pair0 pair1 with Some (copy, true) => Some copy | _ => None end.
Proof.
  intros Hb H0 H1 Ht. unfold recovered. rewrite H0. change (2 ^ 32) with 0x100000000 in Hb.
  assert (match pair0 with Some (copy, true) => u64 (total_blocks copy - 1) | _ => blocks - 1 end = blocks - 1) as ->.
  { destruct pair0 as [[copy [|]]|]; [|done|done]. rewrite (Ht copy eq_refl). apply u64_small. unfold is_u64. lia. }
  rewrite (proj2 (Z.ltb_lt 0 (blocks - 1))) by lia. by rewrite H1.
Qed.

Lemma copy_pack st dev blocks b a :
  block_of (st dev) b = adytumfs_super_pack a -> super_fields a -> copy_of st dev blocks b = Some (set_slot 0 a, adytumfs_super_valid a blocks).
Proof. intros Hb Ha. unfold copy_of. by rewrite Hb, super_unpack_pack. Qed.

(** ** The blocks of the two sets *)

Definition set_size (super : adytumfs_superblock) (is_table : bool) : Z :=
  if is_table then inode_table_blocks super else block_bitmap_blocks super.

Section Sets.
Context (super : adytumfs_superblock) (L : layout super) (Ht : total_blocks super <= 2 ^ 29).

Lemma staged_block_value slot tbl k :
  0 <= k < set_size super tbl ->
  staged_block super slot tbl k =
    if nz slot then total_blocks super - 1 - block_bitmap_blocks super - (if tbl then inode_table_blocks super else 0) + k
    else 1 + (if tbl then block_bitmap_blocks super else 0) + k.
Proof.
  intros Hk. destruct L as [L1 L2 L3 L4 L5 L6 L7 L8 L9 L10]. change (2 ^ 29) with 536870912 in Ht. unfold staged_block, bitmap_slot_base, table_slot_base, set_size in *.
  destruct (nz slot), tbl; cbn [negb]; rewrite ?(u64_small (_ - _)) by (unfold is_u64; lia); rewrite u64_small by (unfold is_u64; lia); lia.
Qed.

Lemma staged_block_range slot tbl k :
  0 <= k < set_size super tbl ->
  0 < staged_block super slot tbl k < total_blocks super - 1 /\
  (staged_block super slot tbl k < data_start super \/
   total_blocks super - 1 - block_bitmap_blocks super - inode_table_blocks super <= staged_block super slot tbl k).
Proof.
  intros Hk. rewrite staged_block_value by done. destruct L as [L1 L2 L3 L4 L5 L6 L7 L8 L9 L10]. unfold set_size in *.
  destruct (nz slot), tbl; lia.
Qed.

Lemma staged_block_inj slot slot' tbl tbl' k k' :
  0 <= k < set_size super tbl -> 0 <= k' < set_size super tbl' ->
  staged_block super slot tbl k = staged_block super slot' tbl' k' -> nz slot = nz slot' /\ tbl = tbl' /\ k = k'.
Proof.
  intros Hk Hk'. rewrite !staged_block_value by done. destruct L as [L1 L2 L3 L4 L5 L6 L7 L8 L9 L10]. unfold set_size in *.
  destruct (nz slot), (nz slot'), tbl, tbl'; intros He; try (split; [done|split; [done|lia]]); lia.
Qed.

End Sets.

(** ** The window *)

Section Commit.
Context {D : Type} `{FsDeviceLaws D}.
Implicit Types (s : fs D) (d : D).

(** Entry [e] of the pool is a staged block of the device. *)
Definition holds (dev : Z) s (e : Z) : Prop := 0 <= e < ADYTUMFS_STAGING_POOL /\ st_device (staging s e) = Some dev.

Record staging_ok (dev : Z) s : Prop := {
  so_index : forall e, holds dev s e -> 0 <= st_index (staging s e) < set_size (super s) (is_table (staging s e));
  so_image : forall e, holds dev s e -> is_block (image (staging s e));
  so_unique : forall e e', holds dev s e -> holds dev s e' ->
    is_table (staging s e) = is_table (staging s e') -> st_index (staging s e) = st_index (staging s e') -> e = e'
}.

(** The block of set [slot] that entry [e] is for. *)
Definition entry_block s (slot e : Z) : Z := staged_block (super s) slot (is_table (staging s e)) (st_index (staging s e)).

(** The sectors of set [slot] that the window has staged. *)
Definition staged_sectors (dev : Z) s (slot : Z) : Z -> Z -> Prop :=
  fun i x => i = dev /\ exists e, holds dev s e /\ in_block (entry_block s slot e) x.

(** The image the window has of a block of the set. *)
Definition window_image (dev : Z) s (tbl : bool) (k : Z) : option (list Z) :=
  match scan_range 0 ADYTUMFS_STAGING_POOL (fun e => bool_decide (st_device (staging s e) = Some dev) &&
          Bool.eqb (is_table (staging s e)) tbl && (st_index (staging s e) =? k)) with
  | Some e => Some (image (staging s e))
  | None => None
  end.

Section Entries.
Context (dev slot : Z) (s : fs D) (S : staging_ok dev s) (L : layout (super s)) (Ht : total_blocks (super s) <= 2 ^ 29).

Lemma entry_block_range e : holds dev s e -> 0 <= entry_block s slot e < 2 ^ 29.
Proof. intros He. pose proof (staged_block_range (super s) L Ht slot _ _ (so_index _ _ S e He)) as [Hr _]. unfold entry_block. lia. Qed.

Lemma commit_entries :
  match for_to 0 ADYTUMFS_STAGING_POOL (commit_entry dev slot) s with
  | (r, s') => staging s' = staging s /\ super s' = super s /\ kept (staged_sectors dev s slot) (disk s) (disk s') /\
      (r = Some tt -> forall e, holds dev s e -> content (disk s') dev (entry_block s slot e) = image (staging s e))
  end.
Proof.
  pose (P s' := staging s' = staging s /\ super s' = super s /\ kept (staged_sectors dev s slot) (disk s) (disk s')).
  pose (I i s' := P s' /\ forall e, holds dev s e -> e < i -> content (disk s') dev (entry_block s slot e) = image (staging s e)).
  assert (match for_to 0 ADYTUMFS_STAGING_POOL (commit_entry dev slot) s with (Some _, s') => I ADYTUMFS_STAGING_POOL s' | (None, s') => P s' end) as Hind.
  { apply (for_to_ind I P 0 ADYTUMFS_STAGING_POOL).
    - split; [split; [done|split; [done|apply media_kept_refl]]|]. intros e [He _] Hlt. lia.
    - intros i s1 Hr [(H1 & H2 & K) Hc]. unfold commit_entry. rewrite H1, H2. destruct (bool_decide_reflect (st_device (staging s i) = Some dev)) as [Hd|Hd].
      + assert (holds dev s i) as Hh by done. fold (entry_block s slot i).
        pose proof (block_write_spec dev (entry_block s slot i) (image (staging s i)) s1 (entry_block_range i Hh) (so_image _ _ S i Hh)) as Hw.
        destruct (adytumfs_block_write _ _ _ _) as [r s2]. destruct Hw as (E1 & E2 & K2 & Hc2 & _).
        assert (P s2) as HP.
        { split; [congruence|]. split; [congruence|]. eapply media_kept_trans; [exact K|]. eapply kept_weaken; [|exact K2].
          intros j x [-> Hx]. split; [done|]. by exists i. }
        destruct r as [[]|]; [|done]. split; [done|]. intros e He Hlt. destruct (decide (e = i)) as [->|Hne]; [by apply Hc2|].
        rewrite <- (Hc e He ltac:(lia)). apply (kept_content _ _ _ _ _ K2). intros x Hx [_ Hx'].
        apply Hne. pose proof (in_block_unique _ _ _ Hx Hx') as Hb. unfold entry_block in Hb.
        apply (staged_block_inj (super s) L Ht) in Hb as (_ & E3 & E4); [|by apply S..]. by apply (so_unique _ _ S).
      + split; [done|]. intros e He Hlt. apply Hc; [done|]. destruct (decide (e = i)) as [->|]; [by destruct He|lia]. }
  destruct (for_to _ _ _ _) as [[[]|] s'].
  - destruct Hind as [(H1 & H2 & H3) H4]. do 3 (split; [done|]). intros _ e He. apply H4; [done|]. apply He.
  - destruct Hind as (H1 & H2 & H3). done.
Qed.

End Entries.

Lemma window_image_Some dev s tbl k bytes :
  window_image dev s tbl k = Some bytes ->
  exists e, holds dev s e /\ is_table (staging s e) = tbl /\ st_index (staging s e) = k /\ image (staging s e) = bytes.
Proof.
  unfold window_image. destruct (scan_range _ _ _) as [e|] eqn:He; [|done]. intros [= <-].
  apply scan_range_Some in He as (Hr & Ht & _). boolify. exists e. split; [split; [done|by eapply bool_decide_eq_true_1]|].
  split; [by apply Bool.eqb_prop|done].
Qed.

Lemma window_image_None dev s tbl k :
  window_image dev s tbl k = None -> forall e, holds dev s e -> is_table (staging s e) = tbl -> st_index (staging s e) <> k.
Proof.
  unfold window_image. destruct (scan_range _ _ _) as [e|] eqn:He; [done|]. intros _ e [Hr Hd] Ht Hk.
  rewrite scan_range_None in He. specialize (He e Hr). rewrite Hd, Ht, Hk, Z.eqb_refl, Bool.eqb_reflx in He.
  by rewrite bool_decide_true in He.
Qed.

(** The metadata of the volume, both sets. *)
Definition metadata (super : adytumfs_superblock) (b : Z) : Prop :=
  0 <= b < data_start super \/
  total_blocks super - 1 - block_bitmap_blocks super - inode_table_blocks super <= b < total_blocks super.

Definition inactive_slot s : Z := if nz (active_slot (super s)) then 0 else 1.

(** The state between two commits on a device of [blocks] blocks: the medium
    holds the superblock [old] of the open generation and [other] of an older
    one, and the metadata on the medium is what callers see. *)
Record between (dev blocks : Z) (old other : adytumfs_superblock) s : Prop := {
  be_total : total_blocks (super s) = blocks;
  be_blocks : 2 <= blocks <= 2 ^ 29;
  be_layout : layout (super s);
  be_valid : adytumfs_super_valid (super s) blocks = true;
  be_fields : super_fields (super s) /\ super_fields old /\ super_fields other;
  be_slot : active_slot (super s) = 0 \/ active_slot (super s) = 1;
  be_same : same_volume old (super s) /\ same_volume other (super s);
  be_generation : generation old = generation (super s) /\ generation (super s) + 1 < 2 ^ 64;
  be_order : generation other < generation old \/ active_slot (super s) = 0 /\ generation other = generation old;
  be_old : block_of (stored (disk s) dev) (superblock_slot blocks (active_slot (super s))) = adytumfs_super_pack old;
  be_other : block_of (stored (disk s) dev) (superblock_slot blocks (inactive_slot s)) = adytumfs_super_pack other;
  be_clean : forall b x, metadata (super s) b -> in_block b x -> stored (disk s) dev x = seen (disk s) dev x;
  be_staging : staging_ok dev s
}.

(** The medium [st] mounts as the open generation, with its metadata. *)
Definition survives_old (dev blocks : Z) (old : adytumfs_superblock) s (st : media) : Prop :=
  recovered st dev blocks = Some (set_slot (active_slot (super s)) old) /\
  forall tbl k, 0 <= k < set_size (super s) tbl ->
    let b := staged_block (super s) (active_slot (super s)) tbl k in block_of (st dev) b = content (disk s) dev b.

(** The medium [st] mounts as the next generation: its set holds the staged
    blocks, and the data is what callers saw. *)
Definition survives_new (dev blocks : Z) s (st : media) : Prop :=
  recovered st dev blocks = Some (next_super (inactive_slot s) (super s)) /\
  (forall tbl k, 0 <= k < set_size (super s) tbl ->
    let b := staged_block (super s) (inactive_slot s) tbl k in
    block_of (st dev) b = default (content (disk s) dev b) (window_image dev s tbl k)) /\
  forall b, ~ metadata (super s) b -> block_of (st dev) b = content (disk s) dev b.

Section Between.
Context (dev blocks : Z) (old other : adytumfs_superblock) (s : fs D) (B : between dev blocks old other s).

Local Abbreviation active := (active_slot (super s)).
Local Abbreviation inactive := (inactive_slot s).

Lemma slot_cases : active = 0 /\ inactive = 1 \/ active = 1 /\ inactive = 0.
Proof. unfold inactive_slot. destruct (be_slot _ _ _ _ _ B) as [->| ->]; auto. Qed.

Lemma slot_block slot : slot = 0 \/ slot = 1 -> superblock_slot blocks slot = if nz slot then blocks - 1 else 0.
Proof.
  pose proof (be_blocks _ _ _ _ _ B) as Hb. change (2 ^ 29) with 536870912 in Hb.
  intros [->| ->]; unfold superblock_slot; cbn; [done|]. apply u64_small. unfold is_u64. lia.
Qed.

(** The two superblocks on the medium decide what is mounted. *)
Lemma recovered_old st :
  block_of (st dev) (superblock_slot blocks active) = adytumfs_super_pack old ->
  (block_of (st dev) (superblock_slot blocks inactive) = adytumfs_super_pack other \/
   adytumfs_super_unpack (block_of (st dev) (superblock_slot blocks inactive)) = None) ->
  recovered st dev blocks = Some (set_slot active old).
Proof.
  intros Ho Hi. destruct B as [Bt Bb _ Bv (_ & Bf1 & Bf2) _ [Bs1 Bs2] [Bg1 _] Bo _ _ _ _].
  assert (adytumfs_super_valid old blocks = true) as Hv by (by rewrite (same_valid _ _ _ Bs1)).
  assert (adytumfs_super_valid other blocks = true) as Hv' by (by rewrite (same_valid _ _ _ Bs2)).
  assert (blocks < 2 ^ 32) as Hlt by (change (2 ^ 29) with 536870912 in Bb; change (2 ^ 32) with 4294967296; lia).
  destruct slot_cases as [[Ha Hin]|[Ha Hin]]; rewrite Ha, Hin in *; rewrite slot_block in Ho by auto; rewrite !slot_block in Hi by auto; cbn [nz negb Z.eqb] in Ho, Hi.
  - assert (exists c, copy_of st dev blocks (blocks - 1) = c /\ (c = None \/ c = Some (set_slot 0 other, true))) as (c & Hc & Hcc).
    { destruct Hi as [Hi|Hi]; [|exists None; unfold copy_of; by rewrite Hi; auto].
      exists (Some (set_slot 0 other, true)). rewrite (copy_pack st dev blocks (blocks - 1) other Hi Bf2), Hv'. auto. }
    rewrite (recovered_pair st dev blocks (Some (set_slot 0 old, true)) c); [|lia|by rewrite (copy_pack st dev blocks 0 old Ho Bf1), Hv|done|].
    + destruct Hcc as [->| ->]; cbn [pick]; [done|]. cbn [generation set_slot]. rewrite (proj2 (Z.ltb_ge _ _)); [done|]. lia.
    + intros ? [= <-]. cbn. rewrite (sv_total _ _ Bs1). done.
  - assert (exists c, copy_of st dev blocks 0 = c /\ (c = None \/ c = Some (set_slot 0 other, true))) as (c & Hc & Hcc).
    { destruct Hi as [Hi|Hi]; [|exists None; unfold copy_of; by rewrite Hi; auto].
      exists (Some (set_slot 0 other, true)). rewrite (copy_pack st dev blocks 0 other Hi Bf2), Hv'. auto. }
    rewrite (recovered_pair st dev blocks c (Some (set_slot 0 old, true))); [|lia|done|by rewrite (copy_pack st dev blocks (blocks - 1) old Ho Bf1), Hv|].
    + destruct Hcc as [->| ->]; cbn [pick]; [done|]. cbn [generation set_slot]. rewrite (proj2 (Z.ltb_lt _ _)); [done|]. lia.
    + intros copy Hcp. destruct Hcc as [->|Hcc]; [done|]. rewrite Hcc in Hcp. injection Hcp as <-. cbn. rewrite (sv_total _ _ Bs2). done.
Qed.

Local Abbreviation flip := (superblock_slot blocks inactive).
Local Abbreviation next := (next_super inactive (super s)).

Lemma next_fields : super_fields next.
Proof.
  destruct (be_fields _ _ _ _ _ B) as [[F1 F2 F3] _]. destruct (be_generation _ _ _ _ _ B) as [_ Hg].
  split; [done|done|]. rewrite !Forall_cons in F3. cbn [generation next_super].
  destruct F3 as (? & ? & ? & ? & ? & ? & ? & ? & ? & ? & Hgen & ? & ? & ? & ? & _).
  repeat (apply Forall_cons; split; [first [assumption|apply u64_range]|]). constructor.
Qed.

Lemma next_generation : generation next = generation (super s) + 1.
Proof.
  destruct (be_fields _ _ _ _ _ B) as [[_ _ F3] _]. destruct (be_generation _ _ _ _ _ B) as [_ Hg].
  rewrite !Forall_cons in F3. destruct F3 as (_ & _ & _ & _ & _ & _ & _ & _ & _ & _ & Hgen & _).
  cbn [generation next_super]. change (2 ^ 64) with 0x10000000000000000 in Hg. apply u64_small. unfold is_u64 in *. lia.
Qed.

Lemma recovered_new st :
  block_of (st dev) (superblock_slot blocks active) = adytumfs_super_pack old ->
  block_of (st dev) flip = adytumfs_super_pack next -> recovered st dev blocks = Some next.
Proof.
  intros Ho Hi. pose proof next_fields as Nf. pose proof next_generation as Ng. pose proof (next_same inactive (super s)) as Ns.
  destruct B as [Bt Bb _ Bv (_ & Bf1 & _) _ [Bs1 _] [Bg1 _] _ _ _ _ _].
  assert (adytumfs_super_valid old blocks = true) as Hv by (by rewrite (same_valid _ _ _ Bs1)).
  assert (adytumfs_super_valid next blocks = true) as Hv' by (by rewrite (same_valid _ _ _ Ns)).
  assert (blocks < 2 ^ 32) as Hlt by (change (2 ^ 29) with 536870912 in Bb; change (2 ^ 32) with 4294967296; lia).
  pose proof (copy_pack st dev blocks _ old Ho Bf1) as C1. pose proof (copy_pack st dev blocks _ next Hi Nf) as C2. rewrite Hv in C1. rewrite Hv' in C2.
  destruct slot_cases as [[Ha Hin]|[Ha Hin]]; rewrite Ha, Hin in *; rewrite !slot_block in C1, C2 by auto.
  - rewrite (recovered_pair st dev blocks _ _ ltac:(lia) C1 C2); cbn [pick generation set_slot].
    + rewrite (proj2 (Z.ltb_lt _ _)) by lia. done.
    + intros ? [= <-]. cbn. rewrite (sv_total _ _ Bs1). done.
  - rewrite (recovered_pair st dev blocks _ _ ltac:(lia) C2 C1); cbn [pick generation set_slot].
    + rewrite (proj2 (Z.ltb_ge _ _)) by lia. done.
    + intros ? [= <-]. done.
Qed.

(** The superblocks are not blocks of a set. *)
Lemma slot_metadata slot : slot = 0 \/ slot = 1 -> metadata (super s) (superblock_slot blocks slot).
Proof.
  intros Hs. rewrite slot_block by done. destruct B as [Bt Bb [L1 L2 L3 L4 L5 L6 L7 L8 L9 L10] _ _ _ _ _ _ _ _ _ _].
  unfold metadata. destruct Hs as [->| ->]; cbn [nz negb Z.eqb]; lia.
Qed.

Lemma set_metadata slot tbl k : 0 <= k < set_size (super s) tbl -> metadata (super s) (staged_block (super s) slot tbl k).
Proof.
  intros Hk. destruct B as [Bt Bb L _ _ _ _ _ _ _ _ _ _].
  destruct (staged_block_range (super s) L ltac:(lia) slot tbl k Hk) as [H1 H2]. unfold metadata. lia.
Qed.

Lemma slot_not_set slot slot' tbl k :
  slot = 0 \/ slot = 1 -> 0 <= k < set_size (super s) tbl -> superblock_slot blocks slot <> staged_block (super s) slot' tbl k.
Proof.
  intros Hs Hk. rewrite slot_block by done. destruct B as [Bt Bb L _ _ _ _ _ _ _ _ _ _].
  destruct (staged_block_range (super s) L ltac:(lia) slot' tbl k Hk) as [H1 H2]. destruct (nz slot); lia.
Qed.

Lemma slot_not_staged slot x : slot = 0 \/ slot = 1 -> in_block (superblock_slot blocks slot) x -> ~ staged_sectors dev s inactive dev x.
Proof.
  intros Hs Hx (_ & e & He & Hx'). pose proof (in_block_unique _ _ _ Hx Hx') as Hb.
  apply (slot_not_set slot inactive (is_table (staging s e)) (st_index (staging s e))) in Hb; [done|done|]. by apply (be_staging _ _ _ _ _ B).
Qed.

Lemma slots_range : (active = 0 \/ active = 1) /\ (inactive = 0 \/ inactive = 1) /\ nz active <> nz inactive.
Proof. destruct slot_cases as [[-> ->]|[-> ->]]; auto. Qed.

Lemma active_not_staged tbl k x :
  0 <= k < set_size (super s) tbl -> in_block (staged_block (super s) active tbl k) x -> ~ staged_sectors dev s inactive dev x.
Proof.
  intros Hk Hx (_ & e & He & Hx'). pose proof (in_block_unique _ _ _ Hx Hx') as Hb. unfold entry_block in Hb.
  pose proof (be_staging _ _ _ _ _ B) as S. pose proof (be_blocks _ _ _ _ _ B) as Hbl.
  apply (staged_block_inj _ (be_layout _ _ _ _ _ B)) in Hb as (Hs & _); [|rewrite (be_total _ _ _ _ _ B); lia|done|by apply S].
  by destruct slots_range as (_ & _ & Hne).
Qed.

(** Outside the blocks staged for the other set, the metadata is not touched:
    the medium still mounts as the open generation. *)
Lemma old_survives st :
  (forall x, ~ staged_sectors dev s inactive dev x -> st dev x = stored (disk s) dev x \/ st dev x = seen (disk s) dev x) ->
  survives_old dev blocks old s st.
Proof.
  intros Hst. destruct slots_range as (Hact & Hin & _).
  assert (forall b x, metadata (super s) b -> in_block b x -> ~ staged_sectors dev s inactive dev x -> st dev x = seen (disk s) dev x) as Hclean.
  { intros b x Hm Hx Hn. pose proof (be_clean _ _ _ _ _ B b x Hm Hx) as Hc. destruct (Hst x Hn) as [->| ->]; [done|done]. }
  assert (forall slot, slot = 0 \/ slot = 1 -> block_of (st dev) (superblock_slot blocks slot) = block_of (stored (disk s) dev) (superblock_slot blocks slot)) as Hb.
  { intros slot Hs. apply block_of_ext. intros x Hx. rewrite (be_clean _ _ _ _ _ B _ x (slot_metadata slot Hs) Hx).
    apply (Hclean _ x (slot_metadata slot Hs) Hx). by apply (slot_not_staged slot). }
  split.
  - apply recovered_old; [|left].
    + rewrite (Hb _ Hact). exact (be_old _ _ _ _ _ B).
    + rewrite (Hb _ Hin). exact (be_other _ _ _ _ _ B).
  - intros tbl k Hk. apply block_of_ext. intros x Hx. apply (Hclean _ x (set_metadata active tbl k Hk) Hx). by eapply active_not_staged.
Qed.

(** Callers of [d] see every staged block in its place in the other set. *)
Record ready (d : D) : Prop := {
  rd_seen : forall x, ~ staged_sectors dev s inactive dev x -> seen d dev x = seen (disk s) dev x;
  rd_staged : forall e, holds dev s e -> content d dev (entry_block s inactive e) = image (staging s e)
}.

Section Ready.
Context (d : D) (R : ready d) (st : media).
Context (Hst : forall x, ~ in_block flip x -> st dev x = seen d dev x).

Lemma off_flip b : b <> flip -> block_of (st dev) b = content d dev b.
Proof. intros Hne. apply block_of_ext. intros x Hx. apply Hst. intros Hx'. by apply Hne, (in_block_unique _ _ x). Qed.

Lemma active_block : block_of (st dev) (superblock_slot blocks active) = adytumfs_super_pack old.
Proof.
  destruct slots_range as (Hact & Hin & Hne). rewrite off_flip.
  - rewrite <- (be_old _ _ _ _ _ B). apply block_of_ext. intros x Hx.
    rewrite (rd_seen _ R) by (by apply (slot_not_staged active)). symmetry. apply (be_clean _ _ _ _ _ B _ x (slot_metadata active Hact) Hx).
  - pose proof (be_blocks _ _ _ _ _ B). rewrite !slot_block by done. destruct (nz active), (nz inactive); [done|lia|lia|done].
Qed.

Lemma active_set tbl k :
  0 <= k < set_size (super s) tbl ->
  block_of (st dev) (staged_block (super s) active tbl k) = content (disk s) dev (staged_block (super s) active tbl k).
Proof.
  intros Hk. destruct slots_range as (_ & Hin & _). rewrite off_flip by (intros He; by apply (slot_not_set inactive active tbl k)).
  apply block_of_ext. intros x Hx. apply (rd_seen _ R). by eapply active_not_staged.
Qed.

Lemma other_set tbl k :
  0 <= k < set_size (super s) tbl ->
  let b := staged_block (super s) inactive tbl k in
  block_of (st dev) b = default (content (disk s) dev b) (window_image dev s tbl k).
Proof.
  intros Hk. cbv zeta. destruct slots_range as (_ & Hin & _). rewrite off_flip by (intros He; by apply (slot_not_set inactive inactive tbl k)).
  destruct (window_image dev s tbl k) as [bytes|] eqn:Hw; cbn [default].
  - apply window_image_Some in Hw as (e & He & <- & <- & <-). exact (rd_staged _ R e He).
  - apply block_of_ext. intros x Hx. apply (rd_seen _ R). intros (_ & e & He & Hx').
    pose proof (in_block_unique _ _ _ Hx Hx') as Hb. unfold entry_block in Hb. pose proof (be_blocks _ _ _ _ _ B) as Hbl.
    apply (staged_block_inj _ (be_layout _ _ _ _ _ B)) in Hb as (_ & Ht & He'); [|rewrite (be_total _ _ _ _ _ B); lia|done|by apply (be_staging _ _ _ _ _ B)].
    by apply (window_image_None dev s tbl k Hw e He).
Qed.

Lemma data_survives b : ~ metadata (super s) b -> block_of (st dev) b = content (disk s) dev b.
Proof.
  intros Hm. destruct slots_range as (_ & Hin & _). rewrite off_flip.
  - apply block_of_ext. intros x Hx. apply (rd_seen _ R). intros (_ & e & He & Hx'). apply Hm.
    rewrite (in_block_unique _ _ _ Hx Hx'). apply set_metadata. by apply (be_staging _ _ _ _ _ B).
  - intros ->. apply Hm. by apply slot_metadata.
Qed.

Lemma new_survives : block_of (st dev) flip = adytumfs_super_pack next -> survives_new dev blocks s st.
Proof.
  intros Hf. split; [|split].
  - apply recovered_new; [exact active_block|exact Hf].
  - intros tbl k Hk. exact (other_set tbl k Hk).
  - exact data_survives.
Qed.

(** However the write of the new superblock is torn, the medium mounts as one
    of the two generations. *)
Lemma flip_survives :
  crc32c (adytumfs_super_pack next) ADYTUMFS_SUPER_CHECKSUM_OFFSET <> crc32c (adytumfs_super_pack other) ADYTUMFS_SUPER_CHECKSUM_OFFSET ->
  (forall x, in_block flip x -> st dev x = seen (disk s) dev x \/ st dev x = sector (adytumfs_super_pack next) (x - 8 * flip)) ->
  survives_old dev blocks old s st \/ survives_new dev blocks s st.
Proof.
  intros Hc Hx. destruct slots_range as (_ & Hin & _).
  assert (forall x, in_block flip x -> seen (disk s) dev x = sector (adytumfs_super_pack other) (x - 8 * flip)) as Hother.
  { intros x Hb. rewrite <- (be_clean _ _ _ _ _ B _ x (slot_metadata inactive Hin) Hb), <- (be_other _ _ _ _ _ B).
    rewrite sector_block_of; [reflexivity|intros y; apply stored_sector|exact Hb]. }
  assert (forall x, length (st dev x) = 512%nat) as Hl.
  { intros x. destruct (decide (8 * flip <= x < 8 * flip + 8)) as [Hb|Hb]; [|rewrite Hst by exact Hb; apply seen_sector].
    destruct (Hx x Hb) as [->| ->]; [apply seen_sector|]. apply sector_length; [apply pack_length|lia]. }
  destruct (torn_super next other (block_of (st dev) flip)) as [He|Hold]; [by apply block_of_length|exact Hc| |right; apply new_survives; exact He|left; split].
  - intros k Hk. assert (in_block flip (8 * flip + k)) as Hb by (unfold in_block; lia).
    pose proof (sector_block_of (st dev) flip _ Hl Hb) as E1. pose proof (Hx _ Hb) as E2. rewrite (Hother _ Hb) in E2.
    replace (8 * flip + k - 8 * flip) with k in E1, E2 by lia. rewrite E1. destruct E2 as [E2|E2]; [right|left]; exact E2.
  - apply recovered_old; [exact active_block|exact Hold].
  - intros tbl k Hk. exact (active_set tbl k Hk).
Qed.

End Ready.

Lemma phase_entries s1 :
  kept (staged_sectors dev s inactive) (disk s) (disk s1) ->
  forall st, past (disk s1) st -> past (disk s) st \/ survives_old dev blocks old s st.
Proof. intros K st Hp. destruct (k_past _ _ _ K st Hp) as [?|Hst]; [auto|right]. apply old_survives. intros x Hx. by apply Hst. Qed.

(** The write of the superblock and what follows it, from a state in which the
    window is on the medium. *)
Section Flip.
Context (s2 : fs D) (R : ready (disk s2)) (Hsync : forall x, stored (disk s2) dev x = seen (disk s2) dev x).
Context (Hcrc : crc32c (adytumfs_super_pack next) ADYTUMFS_SUPER_CHECKSUM_OFFSET <>
                crc32c (adytumfs_super_pack other) ADYTUMFS_SUPER_CHECKSUM_OFFSET).

Local Abbreviation on_flip := (fun x (bytes : list Z) =>
  bytes = seen (disk s) dev x \/ bytes = sector (adytumfs_super_pack next) (x - 8 * flip)).

(** The medium is as it was, or the superblock is being written. *)
Definition flipping (st : media) : Prop :=
  (forall x, ~ in_block flip x -> st dev x = seen (disk s2) dev x) /\ forall x, in_block flip x -> on_flip x (st dev x).

Record flipped (d : D) : Prop := {
  fl_seen : flipping (seen d);
  fl_stored : flipping (stored d);
  fl_past : forall st, past d st -> past (disk s2) st \/ flipping st
}.

Lemma flipping_survives st : flipping st -> survives_old dev blocks old s st \/ survives_new dev blocks s st.
Proof. intros [H1 H2]. exact (flip_survives (disk s2) R st H1 Hcrc H2). Qed.

Lemma flip_range : 0 <= flip < 2 ^ 29.
Proof.
  destruct slots_range as (_ & Hin & _). pose proof (be_blocks _ _ _ _ _ B). rewrite slot_block by done. destruct (nz inactive); lia.
Qed.

Lemma flip_seen x : in_block flip x -> seen (disk s2) dev x = seen (disk s) dev x.
Proof. intros Hx. destruct slots_range as (_ & Hin & _). apply (rd_seen _ R). by apply (slot_not_staged inactive). Qed.

Lemma flipped_write : flipped (disk (snd (adytumfs_block_write dev flip (adytumfs_super_pack next) s2))).
Proof.
  pose proof (block_write_spec dev flip (adytumfs_super_pack next) s2 flip_range (pack_block _)) as Hw.
  destruct (adytumfs_block_write _ _ _ _) as [r s3]. cbn [snd]. destruct Hw as (_ & _ & K & _ & W1 & W2 & W3).
  assert (forall x, ~ in_block flip x -> ~ at_block dev flip dev x) as Hout by (by intros x Hx [_ Hx']).
  split; [split|split|].
  - intros x Hx. exact (k_seen _ _ _ K dev x (Hout x Hx)).
  - intros x Hx. rewrite <- (flip_seen x Hx). destruct (W1 x Hx); [right|left]; assumption.
  - intros x Hx. destruct (k_stored _ _ _ K dev x (Hout x Hx)) as [->| ->]; [apply Hsync|reflexivity].
  - intros x Hx. rewrite <- (flip_seen x Hx). destruct (W2 x Hx) as [->|[->|He]]; [left; apply Hsync|left; reflexivity|right; exact He].
  - intros st Hst. destruct (k_past _ _ _ K st Hst) as [?|Hp]; [auto|]. destruct (W3 st Hst) as [?|Hq]; [auto|]. right. split.
    + intros x Hx. destruct (Hp dev x (Hout x Hx)) as [->| ->]; [apply Hsync|reflexivity].
    + intros x Hx. rewrite <- (flip_seen x Hx). destruct (Hq x Hx) as [->|[->|He]]; [left; apply Hsync|left; reflexivity|right; exact He].
Qed.

Lemma flipped_kept d d' : flipped d -> kept nowhere d d' -> flipped d'.
Proof.
  intros [[S1 S2] [T1 T2] P] K.
  assert (forall st, (forall i x, ~ nowhere i x -> st i x = stored d i x \/ st i x = seen d i x) -> flipping st) as Hany.
  { intros st Hst. split; intros x Hx; destruct (Hst dev x ltac:(intros [])) as [->| ->]; auto. }
  split.
  - apply Hany. intros i x Hn. right. by apply K.
  - apply Hany. apply K.
  - intros st Hst. destruct (k_past _ _ _ K st Hst) as [Hp|Hp]; [by apply P|right; by apply Hany].
Qed.

(** Dropping the superblock from the cache leaves what the medium has. *)
Lemma flipped_invalidate d : flipped d -> flipped (block_cache_invalidate dev (8 * flip) 8 d).
Proof.
  intros [[S1 S2] [T1 T2] P]. destruct (invalidate_law dev flip d flip_range) as (H1 & H2 & H3 & H4).
  assert (forall x, in_block flip x -> seen (block_cache_invalidate dev (8 * flip) 8 d) dev x = stored d dev x) as Hf.
  { intros x Hx. rewrite cached_not, H3; [done|]. replace (x / 8) with flip; [exact H2|].
    unfold in_block in Hx. apply Z.div_unique with (r := x - 8 * flip); lia. }
  split; [split|split|].
  - intros x Hx. rewrite H1; [by apply S1|]. by intros [_ ?].
  - intros x Hx. rewrite Hf by done. by apply T2.
  - intros x Hx. rewrite H3. by apply T1.
  - intros x Hx. rewrite H3. by apply T2.
  - intros st Hst. destruct (H4 st Hst) as [Hp|Hp]; [by apply P|right]. split; intros x Hx; rewrite Hp; [by apply T1|by apply T2].
Qed.

Lemma flipped_past d :
  flipped d -> (forall st, past (disk s2) st -> past (disk s) st \/ survives_old dev blocks old s st) ->
  forall st, past d st -> past (disk s) st \/ survives_old dev blocks old s st \/ survives_new dev blocks s st.
Proof.
  intros F Hp st Hst. destruct (fl_past _ F st Hst) as [H2|H2].
  - destruct (Hp st H2); auto.
  - right. by apply flipping_survives.
Qed.

Lemma next_between s' :
  flipped (disk s') -> (forall x, stored (disk s') dev x = seen (disk s') dev x) -> content (disk s') dev flip = adytumfs_super_pack next ->
  super s' = next -> (forall e, ~ holds dev s' e) -> generation (super s) + 2 < 2 ^ 64 -> between dev blocks next old s'.
Proof.
  intros [[S1 S2] [T1 T2] _] Hs Hf Hn He Hg. destruct slots_range as (Hact & Hin & Hne).
  assert (inactive_slot s' = active) as Hi.
  { unfold inactive_slot at 1. rewrite Hn. cbn [active_slot next_super]. destruct slot_cases as [[Ha Hb]|[Ha Hb]]; by rewrite Ha, Hb. }
  pose proof next_fields as Nf. pose proof next_generation as Ng. pose proof (next_same inactive (super s)) as Ns.
  pose proof (active_block (disk s2) R (stored (disk s')) T1) as Ha.
  destruct B as [Bt Bb [L1 L2 L3 L4 L5 L6 L7 L8 L9 L10] Bv (Bf0 & Bf1 & _) _ [Bs1 _] [Bg1 _] _ _ _ _ _]. split; rewrite ?Hi, ?Hn.
  - exact Bt.
  - exact Bb.
  - split; assumption.
  - rewrite (same_valid _ _ _ Ns). exact Bv.
  - split; [exact Nf|split; [exact Nf|exact Bf1]].
  - exact Hin.
  - split; [split; reflexivity|]. destruct Bs1. split; assumption.
  - split; [reflexivity|]. rewrite Ng. lia.
  - left. rewrite Ng, Bg1. lia.
  - cbn [active_slot next_super]. rewrite <- Hf. apply block_of_ext. intros x _. apply Hs.
  - exact Ha.
  - intros b x _ _. apply Hs.
  - split; intros; exfalso; eapply He; eassumption.
Qed.

End Flip.

End Between.

Lemma window_discard_spec dev s :
  let '(r, s') := adytumfs_window_discard dev s in
  r = Some tt /\ disk s' = disk s /\ super s' = super s /\ forall e, ~ holds dev s' e.
Proof.
  pose (I i s' := disk s' = disk s /\ super s' = super s /\ forall e, 0 <= e < i -> st_device (staging s' e) <> Some dev).
  assert (match adytumfs_window_discard dev s with (Some _, s') => I ADYTUMFS_STAGING_POOL s' | (None, _) => False end) as Hind.
  { apply (for_to_ind I (fun _ => False) 0 ADYTUMFS_STAGING_POOL).
    - split; [done|split; [done|lia]].
    - intros i s1 Hr (H1 & H2 & H3). unfold set_staged. cbn [disk super staging]. split; [exact H1|split; [exact H2|]]. cbn [staging]. intros e He.
      destruct (decide (e = i)) as [->|Hne].
      + rewrite upd_eq. unfold discard_entry. by case_bool_decide.
      + rewrite upd_ne by done. apply H3. lia. }
  destruct (adytumfs_window_discard dev s) as [[[]|] s']; [|done]. destruct Hind as (H1 & H2 & H3).
  do 3 (split; [done|]). intros e [Hr He]. by apply (H3 e).
Qed.

Lemma staged_any_spec dev s :
  exists b : bool, staged_any dev s = (Some b, s) /\ if b then exists e, holds dev s e else forall e, ~ holds dev s e.
Proof.
  unfold staged_any. destruct (scan_range _ _ _) as [e|] eqn:He; eexists; (split; [reflexivity|]); cbn [is_some].
  - apply scan_range_Some in He as (Hr & Ht & _). exists e. split; [done|]. by apply bool_decide_eq_true_1 in Ht.
  - rewrite scan_range_None in He. intros e [Hr Hd]. specialize (He e Hr). by rewrite bool_decide_true in He.
Qed.

(** What a commit that found something staged leaves behind. *)
Definition commit_outcome dev blocks old s (r : option unit) (s' : fs D) : Prop :=
  (forall st, past (disk s') st -> past (disk s) st \/ survives_old dev blocks old s st \/ survives_new dev blocks s st) /\
  (r = Some tt -> survives_new dev blocks s (stored (disk s')) /\ super s' = next_super (inactive_slot s) (super s) /\
     (generation (super s) + 2 < 2 ^ 64 -> between dev blocks (next_super (inactive_slot s) (super s)) old s')).

Lemma commit_flip dev blocks old other s s2 :
  between dev blocks old other s ->
  crc32c (adytumfs_super_pack (next_super (inactive_slot s) (super s))) ADYTUMFS_SUPER_CHECKSUM_OFFSET <>
    crc32c (adytumfs_super_pack other) ADYTUMFS_SUPER_CHECKSUM_OFFSET ->
  ready dev s (disk s2) -> (forall x, stored (disk s2) dev x = seen (disk s2) dev x) ->
  (forall st, past (disk s2) st -> past (disk s) st \/ survives_old dev blocks old s st) ->
  let flip := superblock_slot blocks (inactive_slot s) in
  let next := next_super (inactive_slot s) (super s) in
  let '(r, s') := (_ ← adytumfs_block_write dev flip (adytumfs_super_pack next);
    ok ← on_disk (block_cache_flush dev);
    if negb ok then
      _ ← on_disk (fun d => (tt, block_cache_invalidate dev (u32 (flip * ADYTUMFS_SECTORS_PER_BLOCK)) ADYTUMFS_SECTORS_PER_BLOCK d));
      fail
    else
      _ ← set_super next;
      adytumfs_window_discard dev) s2 in
  commit_outcome dev blocks old s r s'.
Proof.
  intros B Hcrc R Hsync Hp flip next. pose proof (flip_range dev blocks old other s B) as Hr.
  pose proof (fun d F => flipped_past dev blocks old other s B s2 R Hcrc d F Hp) as Hany.
  pose proof (flipped_write dev blocks old other s B s2 R Hsync) as F3. fold flip next in Hr, F3.
  pose proof (block_write_spec dev flip (adytumfs_super_pack next) s2 Hr (pack_block _)) as Hw. unfold mbind, act_bind.
  destruct (adytumfs_block_write dev flip (adytumfs_super_pack next) s2) as [[[]|] s3]; cbn [snd] in F3; destruct Hw as (_ & _ & _ & Hc3 & _);
    [|split; [by apply Hany|discriminate]].
  unfold on_disk at 1. pose proof (flush_kept dev (disk s3)) as K4. pose proof (flush_law dev (disk s3)) as Hf.
  destruct (block_cache_flush dev (disk s3)) as [[|] d4]; cbn [snd negb] in *; pose proof (flipped_kept _ _ _ _ _ _ F3 K4) as F4.
  - unfold set_super. cbn [staging disk]. pose proof (window_discard_spec dev (Fs (staging s3) next d4)) as Hw.
    destruct (adytumfs_window_discard _ _) as [r s5]. destruct Hw as (-> & E1 & E2 & Hno). cbn [disk super] in E1, E2.
    destruct Hf as (H1 & _ & _ & H4). specialize (H4 eq_refl).
    assert (content d4 dev flip = adytumfs_super_pack next) as Hc4.
    { rewrite <- (Hc3 eq_refl). apply block_of_ext. intros x _. apply H1. }
    assert (forall x, stored d4 dev x = seen d4 dev x) as Hs4 by (intros x; rewrite H4, H1; reflexivity).
    split; rewrite E1; [by apply Hany|]. intros _. split; [|split; [exact E2|]].
    + apply (new_survives dev blocks old other s B (disk s2) R); [apply F4|]. fold flip next. rewrite <- Hc4. apply block_of_ext. intros x _. apply Hs4.
    + apply (next_between dev blocks old other s B s2 R); rewrite ?E1; assumption.
  - cbn [staging super disk]. unfold on_disk, fail. split; [|discriminate]. cbn [disk]. apply Hany. rewrite (lba_small flip Hr).
    unfold ADYTUMFS_SECTORS_PER_BLOCK. by apply (flipped_invalidate dev blocks old other s B s2).
Qed.

Lemma commit_nothing dev s : (forall e, ~ holds dev s e) -> adytumfs_commit dev s = (Some tt, s).
Proof.
  intros Hno. unfold adytumfs_commit, the_super, mbind, act_bind.
  destruct (staged_any_spec dev s) as (b & -> & Hb). destruct b; [|reflexivity]. destruct Hb as [e He]. by destruct (Hno e).
Qed.

Lemma commit_spec dev blocks old other s :
  between dev blocks old other s ->
  crc32c (adytumfs_super_pack (next_super (inactive_slot s) (super s))) ADYTUMFS_SUPER_CHECKSUM_OFFSET <>
    crc32c (adytumfs_super_pack other) ADYTUMFS_SUPER_CHECKSUM_OFFSET ->
  (exists e, holds dev s e) ->
  let '(r, s') := adytumfs_commit dev s in commit_outcome dev blocks old s r s'.
Proof.
  intros B Hcrc [e0 He0]. unfold adytumfs_commit, the_super. rewrite bind_run. cbv beta iota zeta. rewrite bind_run.
  destruct (staged_any_spec dev s) as (b & -> & Hb). destruct b; [|by destruct (Hb e0)]. cbv beta iota delta [negb].
  rewrite bind_run. fold (inactive_slot s). rewrite (be_total _ _ _ _ _ B).
  assert (forall s', (forall st, past (disk s') st -> past (disk s) st \/ survives_old dev blocks old s st) -> commit_outcome dev blocks old s None s') as Hfail.
  { intros s' Hp. split; [|discriminate]. intros st Hst. destruct (Hp st Hst); auto. }
  pose proof (be_blocks _ _ _ _ _ B) as Hbl. pose proof (be_total _ _ _ _ _ B) as Htot.
  pose proof (commit_entries dev (inactive_slot s) s (be_staging _ _ _ _ _ B) (be_layout _ _ _ _ _ B) ltac:(lia)) as He.
  destruct (for_to _ _ _ s) as [[[]|] s1]; destruct He as (_ & _ & K1 & Hc1); [|apply Hfail; by eapply phase_entries].
  rewrite bind_run. pose proof (flush_durable dev s1) as Hf. destruct (flush dev s1) as [r2 s2]. destruct Hf as (_ & _ & K2 & Hd2).
  assert (kept (staged_sectors dev s (inactive_slot s)) (disk s) (disk s2)) as K12.
  { eapply media_kept_trans; [exact K1|]. eapply kept_weaken; [|exact K2]. intros i x []. }
  pose proof (phase_entries dev blocks old other s B s2 K12) as Hp2. destruct r2 as [[]|]; [|by apply Hfail].
  assert (ready dev s (disk s2)) as R.
  { split; [intros x; apply K12|]. intros e Hh. rewrite <- (Hc1 eq_refl e Hh). apply (kept_content _ _ _ _ _ K2). intros x _ []. }
  assert (forall x, stored (disk s2) dev x = seen (disk s2) dev x) as Hsync.
  { intros x. rewrite (Hd2 eq_refl x). symmetry. apply (k_seen _ _ _ K2). intros []. }
  exact (commit_flip dev blocks old other s s2 B Hcrc R Hsync Hp2).
Qed.

End Commit.

End AdytumCommit.
