(* ===== verification/AdytumSample.v ===== *)
(** AdytumFS: a write-back device, as adversarial as the interface allows.

    What is written is held until the next flush; a crash before that leaves
    any mixture of old and new sectors.  It shows that the laws of the block
    layer can hold, and it runs. *)

From S2P Require Import Prelude Wire AdytumFormat AdytumVolume AdytumDevice.

Module AdytumSample.
Import Wire AdytumFormat AdytumVolume AdytumDevice.

(** A sector of the medium is 512 bytes whatever the table has. *)
Definition fit (bytes : list Z) : list Z := map u8 (take 512 (bytes ++ replicate 512 0)).

Record writeback := Writeback {
  sectors : Z;
  medium : media;
  held : Z -> Z -> bool;
  copy : media;
  (** What the medium had and what callers saw when it could change. *)
  history : list (media * media)
}.

Definition wb_stored (d : writeback) : media := fun dev x => fit (medium d dev x).

Definition wb_seen (d : writeback) : media := fun dev x =>
  if held d dev (x / 8) then fit (copy d dev x) else fit (medium d dev x).

Definition mixture (a b st : media) : Prop := forall i x, st i x = a i x \/ st i x = b i x.

Definition wb_past (d : writeback) (st : media) : Prop :=
  (forall i x, st i x = wb_stored d i x) \/ exists a b, (a, b) ∈ history d /\ mixture a b st.

Definition wb_log (d d' : writeback) : list (media * media) := (wb_stored d, wb_seen d') :: history d.

Definition wb_write (dev lba : Z) (bytes : list Z) (d : writeback) : writeback :=
  let b := lba / 8 in
  let d' := Writeback (sectors d) (medium d)
    (fun i p => if (i =? dev) && (p =? b) then true else held d i p)
    (fun i x => if (i =? dev) && (x / 8 =? b) then sector bytes (x - 8 * b) else copy d i x) [] in
  Writeback (sectors d') (medium d') (held d') (copy d') (wb_log d d').

Definition wb_flush (dev : Z) (d : writeback) : writeback :=
  Writeback (sectors d) (fun i x => if i =? dev then wb_seen d i x else medium d i x)
    (fun i p => if i =? dev then false else held d i p) (copy d) (wb_log d d).

Definition wb_invalidate (dev lba : Z) (d : writeback) : writeback :=
  Writeback (sectors d) (medium d) (fun i p => if (i =? dev) && (p =? lba / 8) then false else held d i p) (copy d) (history d).

Definition wb_io (dev x : Z) (bytes : list Z) (d : writeback) : writeback :=
  Writeback (sectors d) (fun i y => if (i =? dev) && (y =? x) then bytes else medium d i y) (held d) (copy d) (history d).

#[global] Instance wb_device : FsDevice writeback := {
  block_info := fun dev d => if dev =? 0 then Some (u32 (sectors d), 0) else None;
  block_cache_read := fun dev lba d =>
    (Some (block_of (wb_seen d dev) (lba / 8)), Writeback (sectors d) (medium d) (held d) (copy d) (wb_log d d));
  block_cache_write := fun dev lba bytes d => (true, wb_write dev lba bytes d);
  block_cache_flush := fun dev d => (true, wb_flush dev d);
  block_cache_invalidate := fun dev lba _ d => wb_invalidate dev lba d;
  block_io_write := fun dev x bytes d => (true, wb_io dev x bytes d);
  rtc64_wall_clock := fun _ => 1700000000;
  rtc64_wall_clock_nsec := fun _ => 0
}.

Lemma fit_length bytes : length (fit bytes) = 512%nat.
Proof. unfold fit. rewrite length_map, length_take, length_app, length_replicate. lia. Qed.

Lemma fit_bytes bytes : is_bytes (fit bytes).
Proof. unfold fit, is_bytes. apply Forall_map, Forall_forall. intros z _. apply u8_range. Qed.

Lemma fit_id bytes : length bytes = 512%nat -> is_bytes bytes -> fit bytes = bytes.
Proof.
  intros Hl Hb. unfold fit. rewrite take_app_length' by done. rewrite <- (map_id bytes) at 2. apply map_ext_in.
  intros z Hz. apply u8_small. unfold is_bytes in Hb. rewrite Forall_forall in Hb. by apply Hb, list_elem_of_In.
Qed.

Lemma in_block_div b x : in_block b x <-> x / 8 = b.
Proof.
  unfold in_block. split.
  - intros Hx. symmetry. apply Z.div_unique with (r := x - 8 * b); lia.
  - intros <-. pose proof (Z.div_mod x 8). pose proof (Z.mod_pos_bound x 8). lia.
Qed.

Lemma wb_past_old d d' st :
  history d' = history d -> wb_past d' st -> wb_past d st \/ forall i x, st i x = wb_stored d' i x.
Proof. intros Hh [Hs|(a & b & Hin & Hm)]; [by right|left; right]. exists a, b. by rewrite <- Hh. Qed.

Lemma wb_past_log d d' st :
  history d' = wb_log d d' -> wb_past d' st ->
  wb_past d st \/ (forall i x, st i x = wb_stored d' i x) \/ mixture (wb_stored d) (wb_seen d') st.
Proof.
  intros Hh [Hs|(a & b & Hin & Hm)]; [by right; left|]. rewrite Hh in Hin. apply elem_of_cons in Hin as [[= -> ->]|Hin]; [by right; right|].
  left. right. by exists a, b.
Qed.

Lemma wb_sees d dev x : held d dev (x / 8) <> true -> wb_seen d dev x = wb_stored d dev x.
Proof. intros Hn. unfold wb_seen. by destruct (held d dev (x / 8)). Qed.

Lemma wb_write_seen dev b bytes d i x :
  wb_seen (wb_write dev (8 * b) bytes d) i x =
  if (i =? dev) && (x / 8 =? b) then fit (sector bytes (x - 8 * b)) else wb_seen d i x.
Proof.
  unfold wb_seen, wb_write. cbn. replace (8 * b / 8) with b by (symmetry; rewrite Z.mul_comm; apply Z.div_mul; lia).
  by destruct ((i =? dev) && (x / 8 =? b)).
Qed.

Lemma wb_flush_seen dev d i x : wb_seen (wb_flush dev d) i x = wb_seen d i x.
Proof.
  unfold wb_seen at 1, wb_flush. cbn. destruct (i =? dev); [|done]. apply fit_id; unfold wb_seen; destruct (held _ _ _); auto using fit_length, fit_bytes.
Qed.

Lemma wb_flush_stored dev d i x : wb_stored (wb_flush dev d) i x = if i =? dev then wb_seen d i x else wb_stored d i x.
Proof.
  unfold wb_stored, wb_flush. cbn. destruct (i =? dev); [|done]. apply fit_id; unfold wb_seen; destruct (held _ _ _); auto using fit_length, fit_bytes.
Qed.

Lemma wb_read_law dev b (d : writeback) :
  let '(r, d') := block_cache_read dev (8 * b) d in
  (forall i x, wb_seen d' i x = wb_seen d i x) /\
  (forall i x, wb_stored d' i x = wb_stored d i x \/ wb_stored d' i x = wb_seen d i x) /\
  (forall st, wb_past d' st -> wb_past d st \/ forall i x, st i x = wb_stored d i x \/ st i x = wb_seen d i x) /\
  (forall bytes, r = Some bytes -> bytes = block_of (wb_seen d dev) b).
Proof.
  cbn. split; [done|]. split; [auto|]. split.
  - intros st [Hs|[Hs|Hs]]%(wb_past_log d); [auto|right; intros i x; left; apply Hs|right; exact Hs|done].
  - intros bytes [= <-]. by rewrite Z.mul_comm, Z.div_mul.
Qed.

Lemma wb_write_law dev b bytes (d : writeback) :
  Z.of_nat (length bytes) = 4096 -> is_bytes bytes ->
  let '(ok, d') := block_cache_write dev (8 * b) bytes d in
  (forall i x, ~ (i = dev /\ in_block b x) -> wb_seen d' i x = wb_seen d i x) /\
  (forall x, in_block b x -> wb_seen d' dev x = sector bytes (x - 8 * b) \/ ok = false /\ wb_seen d' dev x = wb_seen d dev x) /\
  (forall i x, wb_stored d' i x = wb_stored d i x \/ wb_stored d' i x = wb_seen d i x \/ wb_stored d' i x = wb_seen d' i x) /\
  (forall st, wb_past d' st -> wb_past d st \/
     forall i x, st i x = wb_stored d i x \/ st i x = wb_seen d i x \/ st i x = wb_seen d' i x).
Proof.
  intros Hl Hb. cbn [block_cache_write wb_device]. split; [|split; [|split]].
  - intros i x Hn. rewrite wb_write_seen. destruct (Z.eqb_spec i dev), (Z.eqb_spec (x / 8) b); try done. exfalso. apply Hn. by rewrite in_block_div.
  - intros x Hx. left. rewrite wb_write_seen, Z.eqb_refl, (proj1 (in_block_div b x) Hx), Z.eqb_refl. cbn [andb]. unfold in_block in Hx.
    apply fit_id; [apply sector_length; lia|]. unfold sector. apply Forall_take, Forall_drop. exact Hb.
  - intros i x. by left.
  - intros st [Hs|[Hs|Hs]]%(wb_past_log d); [by left|right; intros i x; left; apply Hs| |done].
    right. intros i x. destruct (Hs i x); auto.
Qed.

Lemma wb_flush_law dev (d : writeback) :
  let '(ok, d') := block_cache_flush dev d in
  (forall i x, wb_seen d' i x = wb_seen d i x) /\
  (forall i x, wb_stored d' i x = wb_stored d i x \/ wb_stored d' i x = wb_seen d i x) /\
  (forall st, wb_past d' st -> wb_past d st \/ forall i x, st i x = wb_stored d i x \/ st i x = wb_seen d i x) /\
  (ok = true -> forall x, wb_stored d' dev x = wb_seen d dev x).
Proof.
  cbn [block_cache_flush wb_device].
  assert (forall i x, wb_stored (wb_flush dev d) i x = wb_stored d i x \/ wb_stored (wb_flush dev d) i x = wb_seen d i x) as Hst.
  { intros i x. rewrite wb_flush_stored. destruct (i =? dev); auto. }
  split; [apply wb_flush_seen|]. split; [exact Hst|]. split.
  - intros st [Hs|(a & b & Hin & Hm)].
    + right. intros i x. rewrite Hs. apply Hst.
    + apply elem_of_cons in Hin as [[= -> ->]|Hin]; [by right|]. left. right. by exists a, b.
  - intros _ x. by rewrite wb_flush_stored, Z.eqb_refl.
Qed.

Lemma wb_invalidate_law dev b (d : writeback) :
  let d' := block_cache_invalidate dev (8 * b) 8 d in
  (forall i x, ~ (i = dev /\ in_block b x) -> wb_seen d' i x = wb_seen d i x) /\
  ~ held d' dev b = true /\
  (forall i x, wb_stored d' i x = wb_stored d i x) /\
  (forall st, wb_past d' st -> wb_past d st \/ forall i x, st i x = wb_stored d i x).
Proof.
  cbn. assert (8 * b / 8 = b) as -> by (rewrite Z.mul_comm; apply Z.div_mul; lia). split; [|split; [|split]].
  - intros i x Hn. unfold wb_seen. cbn. replace (8 * b / 8) with b by (symmetry; rewrite Z.mul_comm; apply Z.div_mul; lia).
    destruct (Z.eqb_spec i dev), (Z.eqb_spec (x / 8) b); try done. exfalso. apply Hn. by rewrite in_block_div.
  - by rewrite !Z.eqb_refl.
  - done.
  - intros st Hp. by apply (wb_past_old d) in Hp.
Qed.

Lemma wb_io_law dev x bytes (d : writeback) :
  length bytes = 512%nat -> is_bytes bytes ->
  let '(ok, d') := block_io_write dev x bytes d in
  (forall i y, ~ (i = dev /\ y = x) -> wb_seen d' i y = wb_seen d i y) /\
  (forall i b, held d' i b = true <-> held d i b = true) /\
  (forall i y, ~ (i = dev /\ y = x) -> wb_stored d' i y = wb_stored d i y) /\
  (ok = true -> wb_stored d' dev x = bytes) /\
  (forall st, wb_past d' st -> wb_past d st \/ forall i y, ~ (i = dev /\ y = x) -> st i y = wb_stored d i y).
Proof.
  intros Hl Hb. cbn [block_io_write wb_device].
  assert (forall i y, ~ (i = dev /\ y = x) -> medium (wb_io dev x bytes d) i y = medium d i y) as Hm.
  { intros i y Hn. cbn. destruct (Z.eqb_spec i dev), (Z.eqb_spec y x); try done. by destruct Hn. }
  split; [|split; [|split; [|split]]].
  - intros i y Hn. unfold wb_seen. by rewrite (Hm i y Hn).
  - done.
  - intros i y Hn. unfold wb_stored. by rewrite (Hm i y Hn).
  - intros _. unfold wb_stored. cbn. rewrite !Z.eqb_refl. by apply fit_id.
  - intros st Hp. apply (wb_past_old d) in Hp as [?|Hs]; [by left| |done]. right. intros i y Hn. rewrite Hs. unfold wb_stored. by rewrite (Hm i y Hn).
Qed.

#[global] Instance wb_laws : FsDeviceLaws writeback.
Proof.
  apply (Build_FsDeviceLaws _ _ wb_seen wb_stored wb_past (fun d dev b => held d dev b = true)).
  - intros d dev x. unfold wb_seen. destruct (held _ _ _); auto using fit_length, fit_bytes.
  - intros d dev x. unfold wb_stored. auto using fit_length, fit_bytes.
  - intros d. by left.
  - intros d dev x. apply wb_sees.
  - intros d dev n fl. cbn. destruct (dev =? 0); [|done]. intros [= <- <-]. apply u32_range.
  - intros d. cbn. unfold is_u64, is_u32. lia.
  - intros dev b d _. apply wb_read_law.
  - intros dev b bytes d _. apply wb_write_law.
  - apply wb_flush_law.
  - intros dev b d _. apply wb_invalidate_law.
  - intros dev x bytes d _. apply wb_io_law.
Defined.

End AdytumSample.
