(* ===== verification/AdytumMake.v ===== *)
(** AdytumFS: formatting a device, [adytumfs_make] of
    [src/fs/adytumfs_volume.c]. *)

From S2P Require Import Prelude Wire Crc32c AdytumFormat AdytumVolume AdytumDevice AdytumCommit.

Module AdytumMake.
Import Wire AdytumFormat AdytumVolume AdytumDevice AdytumCommit.

#[local] Opaque crc32c adytumfs_super_pack adytumfs_inode_pack zero_block.

(** ** The checksum region *)

(** The loop ends with the smallest region that has a checksum for every block
    that is left. *)
Lemma region_loop_spec fuel span r R :
  0 < span < 2 ^ 32 -> 1 <= r <= span -> region_loop fuel span r = Some R ->
  r <= R <= span /\ span - R <= 1024 * R /\ (R = r \/ 1024 * (R - 1) < span - (R - 1)).
Proof.
  change (2 ^ 32) with 4294967296. intros Hs. revert r. induction fuel as [|fuel IH]; intros r Hr; [discriminate|]. cbn [region_loop]. unfold ADYTUMFS_CHECKSUMS_PER_BLOCK.
  rewrite u64_small by (unfold is_u64; lia). pose proof (Z.div_mod (span - r + 1024 - 1) 1024 ltac:(lia)). pose proof (Z.mod_pos_bound (span - r + 1024 - 1) 1024 ltac:(lia)).
  destruct (Z.ltb_spec r ((span - r + 1024 - 1) / 1024)) as [Hlt|Hge].
  - intros Hl. apply IH in Hl; lia.
  - intros [= <-]. lia.
Qed.

(** A round for every block of the span is more than it takes. *)
Lemma region_loop_total fuel span r : 0 < span < 2 ^ 32 -> 1 <= r <= span -> span < Z.of_nat fuel + r -> exists R, region_loop fuel span r = Some R.
Proof.
  change (2 ^ 32) with 4294967296. intros Hs. revert r. induction fuel as [|fuel IH]; intros r Hr Hf; [lia|]. cbn [region_loop]. unfold ADYTUMFS_CHECKSUMS_PER_BLOCK.
  rewrite u64_small by (unfold is_u64; lia). pose proof (Z.div_mod (span - r + 1024 - 1) 1024 ltac:(lia)). pose proof (Z.mod_pos_bound (span - r + 1024 - 1) 1024 ltac:(lia)).
  destruct (Z.ltb_spec r ((span - r + 1024 - 1) / 1024)) as [Hlt|Hge]; [|by eexists]. apply IH; lia.
Qed.

(** ** What a new volume has in its blocks *)

Section Images.
Context (super : adytumfs_superblock).

Local Abbreviation tail := (total_blocks super - 1 - block_bitmap_blocks super - inode_table_blocks super).

Definition bitmap_image (k : Z) : list Z := fresh_bitmap (total_blocks super) (data_start super) (data_checksum_region super) k.

(** The block [b]; [now] is when the table was written. *)
Definition volume_image (now b : Z) : list Z :=
  if (b =? 0) || (b =? total_blocks super - 1) then adytumfs_super_pack super else
  if (1 <=? b) && (b <? 1 + block_bitmap_blocks super) then bitmap_image (b - 1) else
  if (inode_table_start super <=? b) && (b <? data_start super) then fresh_table now (b - inode_table_start super) else
  if (tail <=? b) && (b <? tail + inode_table_blocks super) then fresh_table now (b - tail) else
  if (tail + inode_table_blocks super <=? b) && (b <? total_blocks super - 1) then bitmap_image (b - tail - inode_table_blocks super) else
  zero_block.

Lemma zero_is_block : is_block zero_block.
Proof. split; [apply zero_length|apply zero_bytes]. Qed.

Lemma bitmap_image_block k : is_block (bitmap_image k).
Proof.
  unfold bitmap_image, fresh_bitmap. apply (for_range_ind (fun _ => is_block)); [apply zero_is_block|]. intros used block _ [Hl Hb].
  destruct (_ && _); [|by split]. split; [by rewrite length_insert|]. apply Forall_insert; [done|apply u8_range].
Qed.

Lemma fresh_table_block now table : is_block (fresh_table now table).
Proof.
  unfold fresh_table. destruct (table =? 0); [|apply zero_is_block].
  pose proof (inode_pack_length (root_dir now)) as Hl. pose proof zero_length as Hz. unfold ADYTUMFS_ROOT_INODE, ADYTUMFS_INODE_SIZE. split.
  - rewrite put_length by lia. exact Hz.
  - apply put_bytes; [apply zero_bytes|apply inode_pack_bytes].
Qed.

Lemma volume_image_block now b : is_block (volume_image now b).
Proof.
  unfold volume_image. repeat case_match; auto using pack_block, bitmap_image_block, fresh_table_block, zero_is_block.
Qed.

Context (L : layout super).

(** The parts of the volume do not meet. *)
Lemma image_super now slot : slot = 0 \/ slot = total_blocks super - 1 -> volume_image now slot = adytumfs_super_pack super.
Proof. intros Hs. unfold volume_image. by destruct Hs as [->| ->]; rewrite ?Z.eqb_refl, ?orb_true_r. Qed.

Lemma image_bitmap now k : 0 <= k < block_bitmap_blocks super -> volume_image now (1 + k) = bitmap_image k.
Proof.
  intros Hk. destruct L as [L1 L2 L3 L4 L5 L6 L7 L8 L9 L10]. unfold volume_image.
  rewrite (proj2 (Z.eqb_neq (1 + k) 0)), (proj2 (Z.eqb_neq (1 + k) (total_blocks super - 1))), (proj2 (Z.leb_le 1 _)), (proj2 (Z.ltb_lt (1 + k) _)) by lia.
  cbn [orb andb]. f_equal. lia.
Qed.

Lemma image_table now k : 0 <= k < inode_table_blocks super -> volume_image now (inode_table_start super + k) = fresh_table now k.
Proof.
  intros Hk. destruct L as [L1 L2 L3 L4 L5 L6 L7 L8 L9 L10]. unfold volume_image. set (b := inode_table_start super + k).
  rewrite (proj2 (Z.eqb_neq b 0)), (proj2 (Z.eqb_neq b (total_blocks super - 1))), (proj2 (Z.ltb_ge b (1 + _))) by lia. rewrite andb_false_r.
  rewrite (proj2 (Z.leb_le (inode_table_start super) b)), (proj2 (Z.ltb_lt b (data_start super))) by lia. cbn [orb andb]. f_equal. lia.
Qed.

Lemma image_shadow_table now k : 0 <= k < inode_table_blocks super -> volume_image now (tail + k) = fresh_table now k.
Proof.
  intros Hk. destruct L as [L1 L2 L3 L4 L5 L6 L7 L8 L9 L10]. unfold volume_image. set (b := tail + k).
  rewrite (proj2 (Z.eqb_neq b 0)), (proj2 (Z.eqb_neq b (total_blocks super - 1))), (proj2 (Z.ltb_ge b (1 + _))), (proj2 (Z.ltb_ge b (data_start super))) by lia. rewrite !andb_false_r.
  rewrite (proj2 (Z.leb_le tail b)), (proj2 (Z.ltb_lt b (tail + _))) by lia. cbn [orb andb]. f_equal. lia.
Qed.

Lemma image_shadow_bitmap now k : 0 <= k < block_bitmap_blocks super -> volume_image now (tail + inode_table_blocks super + k) = bitmap_image k.
Proof.
  intros Hk. destruct L as [L1 L2 L3 L4 L5 L6 L7 L8 L9 L10]. unfold volume_image. set (b := tail + inode_table_blocks super + k).
  rewrite (proj2 (Z.eqb_neq b 0)), (proj2 (Z.eqb_neq b (total_blocks super - 1))), (proj2 (Z.ltb_ge b (1 + _))), (proj2 (Z.ltb_ge b (data_start super))), (proj2 (Z.ltb_ge b (tail + _))) by lia.
  rewrite !andb_false_r. rewrite (proj2 (Z.leb_le (tail + _) b)), (proj2 (Z.ltb_lt b (total_blocks super - 1))) by lia. cbn [orb andb]. f_equal. lia.
Qed.

Lemma image_region now b : data_checksum_region super <= b < tail -> volume_image now b = zero_block.
Proof.
  intros Hb. destruct L as [L1 L2 L3 L4 L5 L6 L7 L8 L9 L10]. unfold volume_image.
  rewrite (proj2 (Z.eqb_neq b 0)), (proj2 (Z.eqb_neq b (total_blocks super - 1))), (proj2 (Z.ltb_ge b (1 + _))), (proj2 (Z.ltb_ge b (data_start super))), (proj2 (Z.leb_gt tail b)), (proj2 (Z.leb_gt (tail + _) b)) by lia.
  by rewrite !andb_false_r.
Qed.

End Images.

(** ** The writes of the format *)

Section Lay.
Context {D : Type} `{FsDeviceLaws D}.
Context (dev : Z) (sb : adytumfs_superblock) (L : layout sb) (Ht : total_blocks sb <= 2 ^ 29).
Implicit Types (s : fs D).

Local Abbreviation tail := (total_blocks sb - 1 - block_bitmap_blocks sb - inode_table_blocks sb).

(** The blocks in [done] are as in a new volume. *)
Definition laid (now : Z) (done : Z -> Prop) s : Prop := forall b, done b -> content (disk s) dev b = volume_image sb now b.

Definition supers (b : Z) : Prop := b = 0 \/ b = total_blocks sb - 1.

Definition bitmaps (k b : Z) : Prop := supers b \/ 1 <= b < 1 + k \/ tail + inode_table_blocks sb <= b < tail + inode_table_blocks sb + k.

Definition tables (k b : Z) : Prop :=
  bitmaps (block_bitmap_blocks sb) b \/ inode_table_start sb <= b < inode_table_start sb + k \/ tail <= b < tail + k.

Definition regions (k b : Z) : Prop := tables (inode_table_blocks sb) b \/ data_checksum_region sb <= b < data_checksum_region sb + k.

Lemma laid_weaken now (done done' : Z -> Prop) s : (forall b, done' b -> done b) -> laid now done s -> laid now done' s.
Proof. intros Hd Hl b Hb. by apply Hl, Hd. Qed.

Lemma laid_write now done b bytes s :
  0 <= b < total_blocks sb -> bytes = volume_image sb now b -> laid now done s ->
  let '(r, s') := adytumfs_block_write dev b bytes s in
  staging s' = staging s /\ super s' = super s /\ (r = Some tt -> laid now (fun x => done x \/ x = b) s').
Proof.
  intros Hb -> Hl. pose proof (block_write_spec dev b (volume_image sb now b) s ltac:(lia) (volume_image_block sb now b)) as Hw.
  destruct (adytumfs_block_write dev b _ s) as [r s']. destruct Hw as (A & B & K & Hc & _). split; [exact A|]. split; [exact B|]. intros Hr x [Hx| ->]; [|by apply Hc].
  destruct (decide (x = b)) as [->|Hne]; [by apply Hc|]. rewrite <- (Hl x Hx). apply (kept_content _ _ _ _ _ K). intros y Hy [_ Hy']. by apply Hne, (in_block_unique _ _ y).
Qed.

(** Before the tables are written the time does not matter. *)
Lemma laid_now now now' s : laid now (tables 0) s -> laid now' (tables 0) s.
Proof.
  intros Hl b Hb. rewrite (Hl b Hb). destruct L as [L1 L2 L3 L4 L5 L6 L7 L8 L9 L10]. destruct Hb as [[Hs|[Hb|Hb]]|[Hb|Hb]]; [|..|lia|lia].
  - by rewrite !image_super.
  - replace b with (1 + (b - 1)) by lia. rewrite !image_bitmap by (done || lia). done.
  - replace b with (tail + inode_table_blocks sb + (b - tail - inode_table_blocks sb)) by lia. rewrite !image_shadow_bitmap by (done || lia). done.
Qed.

(** A loop that writes each of its blocks twice, at [b1] and at [b2]. *)
Lemma laid_twice now (done : Z -> Prop) b1 b2 bytes s :
  0 <= b1 < total_blocks sb -> 0 <= b2 < total_blocks sb -> bytes = volume_image sb now b1 -> bytes = volume_image sb now b2 -> laid now done s ->
  match (_ ← adytumfs_block_write dev b1 bytes; adytumfs_block_write dev b2 bytes) s with
  | (Some _, s') => staging s' = staging s /\ super s' = super s /\ laid now (fun x => done x \/ x = b1 \/ x = b2) s'
  | (None, s') => staging s' = staging s /\ super s' = super s
  end.
Proof.
  intros H1 H2 E1 E2 Hl. rewrite bind_run. pose proof (laid_write now done b1 bytes s H1 E1 Hl) as Hw. destruct (adytumfs_block_write dev b1 bytes s) as [[[]|] s1]; destruct Hw as (A1 & B1 & Hw); [|done].
  pose proof (laid_write now _ b2 bytes s1 H2 E2 (Hw eq_refl)) as Hw2. destruct (adytumfs_block_write dev b2 bytes s1) as [[[]|] s2]; destruct Hw2 as (A2 & B2 & Hw2); rewrite A2, B2; [|done].
  split; [done|]. split; [done|]. eapply laid_weaken; [|exact (Hw2 eq_refl)]. intros x. tauto.
Qed.

Definition write_bitmaps : act D unit :=
  for_to 0 (block_bitmap_blocks sb) (fun bitmap =>
    _ ← adytumfs_block_write dev (u64 (1 + bitmap)) (bitmap_image sb bitmap);
    adytumfs_block_write dev (u64 (tail + inode_table_blocks sb + bitmap)) (bitmap_image sb bitmap)).

Lemma write_bitmaps_spec now s :
  laid now supers s ->
  match write_bitmaps s with
  | (Some _, s') => staging s' = staging s /\ super s' = super s /\ laid now (bitmaps (block_bitmap_blocks sb)) s'
  | (None, s') => staging s' = staging s /\ super s' = super s
  end.
Proof.
  intros Hl. pose proof L as [L1 L2 L3 L4 L5 L6 L7 L8 L9 L10]. change (2 ^ 29) with 536870912 in Ht.
  pose proof (for_to_ind (fun k s' => staging s' = staging s /\ super s' = super s /\ laid now (bitmaps k) s') (fun s' => staging s' = staging s /\ super s' = super s)
    0 (block_bitmap_blocks sb) (fun bitmap => _ ← adytumfs_block_write dev (u64 (1 + bitmap)) (bitmap_image sb bitmap);
       adytumfs_block_write dev (u64 (tail + inode_table_blocks sb + bitmap)) (bitmap_image sb bitmap)) s) as Hi.
  rewrite Z.max_r in Hi by lia. apply Hi; clear Hi.
  - split; [done|]. split; [done|]. eapply laid_weaken; [|exact Hl]. intros b [Hb|Hb]; [done|lia].
  - intros k s1 Hk (A & B & Hl1). rewrite !u64_small by (unfold is_u64; lia).
    pose proof (laid_twice now (bitmaps k) (1 + k) (tail + inode_table_blocks sb + k) (bitmap_image sb k) s1 ltac:(lia) ltac:(lia)
      ltac:(by rewrite image_bitmap) ltac:(by rewrite image_shadow_bitmap) Hl1) as Hw.
    destruct ((_ ← adytumfs_block_write dev (1 + k) _; _) s1) as [[u|] s2].
    + destruct Hw as (A2 & B2 & Hw). rewrite A2, B2. split; [done|]. split; [done|]. eapply laid_weaken; [|exact Hw]. intros b. unfold bitmaps, supers. lia.
    + destruct Hw as (A2 & B2). split; congruence.
Qed.

Definition write_tables : act D unit :=
  for_to 0 (inode_table_blocks sb) (fun table =>
    now ← wall_clock;
    _ ← adytumfs_block_write dev (u64 (inode_table_start sb + table)) (fresh_table now table);
    adytumfs_block_write dev (u64 (tail + table)) (fresh_table now table)).

Lemma write_tables_spec now s :
  is_u64 now -> laid now (tables 0) s ->
  match write_tables s with
  | (Some _, s') => staging s' = staging s /\ super s' = super s /\ exists now, is_u64 now /\ laid now (tables (inode_table_blocks sb)) s'
  | (None, s') => staging s' = staging s /\ super s' = super s
  end.
Proof.
  intros Hnow Hl. pose proof L as [L1 L2 L3 L4 L5 L6 L7 L8 L9 L10]. change (2 ^ 29) with 536870912 in Ht.
  pose proof (for_to_ind (fun k s' => staging s' = staging s /\ super s' = super s /\ exists now, is_u64 now /\ laid now (tables k) s') (fun s' => staging s' = staging s /\ super s' = super s)
    0 (inode_table_blocks sb) (fun table => now ← wall_clock; _ ← adytumfs_block_write dev (u64 (inode_table_start sb + table)) (fresh_table now table);
       adytumfs_block_write dev (u64 (tail + table)) (fresh_table now table)) s) as Hi.
  rewrite Z.max_r in Hi by lia. apply Hi; clear Hi; [by eauto|].
  intros k s1 Hk (A & B & t & Htm & Hl1). rewrite bind_run. unfold wall_clock. cbv beta iota. rewrite !u64_small by (unfold is_u64; lia).
  destruct (clock_range (disk s1)) as [Hclk _]. set (now' := rtc64_wall_clock (disk s1)) in *.
  assert (exists t', is_u64 t' /\ laid t' (tables k) s1 /\ fresh_table now' k = fresh_table t' k) as (t' & Ht' & Hl' & Ef).
  { destruct (decide (k = 0)) as [->|Hne]; [exists now'; split; [exact Hclk|split; [by eapply laid_now|done]]|].
    exists t. split; [exact Htm|]. split; [exact Hl1|]. unfold fresh_table. by rewrite (proj2 (Z.eqb_neq k 0) Hne). }
  pose proof (laid_twice t' (tables k) (inode_table_start sb + k) (tail + k) (fresh_table now' k) s1 ltac:(lia) ltac:(lia)
    ltac:(by rewrite image_table) ltac:(by rewrite image_shadow_table) Hl') as Hw.
  destruct ((_ ← adytumfs_block_write dev (inode_table_start sb + k) _; _) s1) as [[u|] s2].
  - destruct Hw as (A2 & B2 & Hw). rewrite A2, B2. split; [done|]. split; [done|]. exists t'. split; [exact Ht'|]. eapply laid_weaken; [|exact Hw]. intros b. unfold tables, bitmaps, supers. lia.
  - destruct Hw as (A2 & B2). split; congruence.
Qed.

Definition write_region : act D unit :=
  for_to 0 (tail - data_checksum_region sb) (fun region => adytumfs_block_write dev (u64 (data_checksum_region sb + region)) zero_block).

Lemma write_region_spec now s :
  laid now (tables (inode_table_blocks sb)) s ->
  match write_region s with
  | (Some _, s') => staging s' = staging s /\ super s' = super s /\ laid now (regions (tail - data_checksum_region sb)) s'
  | (None, s') => staging s' = staging s /\ super s' = super s
  end.
Proof.
  intros Hl. pose proof L as [L1 L2 L3 L4 L5 L6 L7 L8 L9 L10]. change (2 ^ 29) with 536870912 in Ht.
  pose proof (for_to_ind (fun k s' => staging s' = staging s /\ super s' = super s /\ laid now (regions k) s') (fun s' => staging s' = staging s /\ super s' = super s)
    0 (tail - data_checksum_region sb) (fun region => adytumfs_block_write dev (u64 (data_checksum_region sb + region)) zero_block) s) as Hi.
  rewrite Z.max_r in Hi by lia. apply Hi; clear Hi.
  - split; [done|]. split; [done|]. eapply laid_weaken; [|exact Hl]. intros b [Hb|Hb]; [done|lia].
  - intros k s1 Hk (A & B & Hl1). rewrite u64_small by (unfold is_u64; lia).
    pose proof (laid_write now (regions k) (data_checksum_region sb + k) zero_block s1 ltac:(lia) ltac:(by rewrite image_region by (done || lia)) Hl1) as Hw.
    destruct (adytumfs_block_write dev (data_checksum_region sb + k) zero_block s1) as [[[]|] s2]; destruct Hw as (A2 & B2 & Hw); rewrite A2, B2; [|done].
    split; [done|]. split; [done|]. eapply laid_weaken; [|exact (Hw eq_refl)]. intros b. unfold regions, tables, bitmaps, supers. lia.
Qed.

(** All of the writes, and the flush. *)
Definition write_volume : act D unit :=
  _ ← adytumfs_block_write dev 0 (adytumfs_super_pack sb);
  _ ← adytumfs_block_write dev (u64 (total_blocks sb - 1)) (adytumfs_super_pack sb);
  _ ← write_bitmaps;
  _ ← write_tables;
  _ ← write_region;
  flush dev.

Lemma write_volume_spec s :
  let '(r, s') := write_volume s in
  staging s' = staging s /\ super s' = super s /\
  (r = Some tt -> (forall x, stored (disk s') dev x = seen (disk s') dev x) /\
     exists now, is_u64 now /\ laid now (regions (tail - data_checksum_region sb)) s').
Proof.
  pose proof L as [L1 L2 L3 L4 L5 L6 L7 L8 L9 L10]. unfold write_volume. assert (forall t, laid t (fun _ => False) s) as Hz by (intros t b []).
  destruct (clock_range (disk s)) as [Hclk _]. set (t := rtc64_wall_clock (disk s)) in *.
  rewrite bind_run. pose proof (laid_write t _ 0 (adytumfs_super_pack sb) s ltac:(lia) ltac:(rewrite image_super by auto; reflexivity) (Hz t)) as Hw.
  destruct (adytumfs_block_write dev 0 _ s) as [[[]|] s1]; destruct Hw as (A1 & B1 & Hw); [|(split; [congruence|split; [congruence|discriminate]])]. specialize (Hw eq_refl).
  rewrite bind_run, u64_small by (unfold is_u64; change (2 ^ 29) with 536870912 in Ht; lia).
  pose proof (laid_write t _ (total_blocks sb - 1) (adytumfs_super_pack sb) s1 ltac:(lia) ltac:(rewrite image_super by auto; reflexivity) Hw) as Hw2.
  destruct (adytumfs_block_write dev _ _ s1) as [[[]|] s2]; destruct Hw2 as (A2 & B2 & Hw2); [|(split; [congruence|split; [congruence|discriminate]])]. specialize (Hw2 eq_refl).
  assert (laid t supers s2) as Hl2 by (eapply laid_weaken; [|exact Hw2]; unfold supers; tauto).
  rewrite bind_run. pose proof (write_bitmaps_spec t s2 Hl2) as Hw3. destruct (write_bitmaps s2) as [[[]|] s3]; [|destruct Hw3 as [? ?]; split; [congruence|split; [congruence|discriminate]]]. destruct Hw3 as (A3 & B3 & Hl3).
  assert (laid t (tables 0) s3) as Hl3' by (eapply laid_weaken; [|exact Hl3]; intros b; unfold tables; intros [?|?]; [done|lia]).
  rewrite bind_run. pose proof (write_tables_spec t s3 Hclk Hl3') as Hw4. destruct (write_tables s3) as [[[]|] s4]; [|destruct Hw4 as [? ?]; split; [congruence|split; [congruence|discriminate]]].
  destruct Hw4 as (A4 & B4 & now & Hnow & Hl4).
  rewrite bind_run. pose proof (write_region_spec now s4 Hl4) as Hw5. destruct (write_region s4) as [[[]|] s5]; [|destruct Hw5 as [? ?]; split; [congruence|split; [congruence|discriminate]]].
  destruct Hw5 as (A5 & B5 & Hl5). pose proof (flush_durable dev s5) as Hf. destruct (flush dev s5) as [r s6]. destruct Hf as (A6 & B6 & K & Hd).
  split; [congruence|]. split; [congruence|]. intros Hr. split.
  - intros x. rewrite (Hd Hr x). symmetry. apply (k_seen _ _ _ K). intros [].
  - exists now. split; [exact Hnow|]. intros b Hb. rewrite <- (Hl5 b Hb). apply (kept_content _ _ _ _ _ K). intros x _ [].
Qed.

End Lay.

(** ** The superblock of a new volume *)

Definition table_blocks_for (total : Z) : Z :=
  let n := total / 32 in
  let n := if ADYTUMFS_INODE_TABLE_BLOCKS_MAX <? n then ADYTUMFS_INODE_TABLE_BLOCKS_MAX else n in
  if n =? 0 then 1 else n.

Definition made_super (total region_blocks : Z) : adytumfs_superblock :=
  let bitmap_blocks := (total + 32767) / 32768 in
  let table_blocks := table_blocks_for total in
  let data_start := 1 + bitmap_blocks + table_blocks in
  let data_blocks := total - 1 - bitmap_blocks - table_blocks - data_start - region_blocks in
  Superblock ADYTUMFS_FORMAT_VERSION ADYTUMFS_BLOCK_SIZE total 1 bitmap_blocks (1 + bitmap_blocks) table_blocks
    (table_blocks * ADYTUMFS_INODES_PER_BLOCK) ADYTUMFS_ROOT_INODE data_start data_blocks
    (table_blocks * ADYTUMFS_INODES_PER_BLOCK - 2) 1 0 ADYTUMFS_FEATURE_INCOMPAT_V2 0 (data_start + data_blocks) 0.

Section Super.
Context (total region_blocks : Z) (Ht : 3 <= total < 2 ^ 29).

Local Abbreviation sb := (made_super total region_blocks).
Local Abbreviation span := (total - 2 - 2 * ((total + 32767) / 32768) - 2 * table_blocks_for total).

Lemma table_blocks_range : 1 <= table_blocks_for total <= 16 /\ (table_blocks_for total = 1 \/ 32 * table_blocks_for total <= total).
Proof.
  unfold table_blocks_for, ADYTUMFS_INODE_TABLE_BLOCKS_MAX. pose proof (Z.div_pos total 32 ltac:(lia) ltac:(lia)). pose proof (Z.mul_div_le total 32 ltac:(lia)).
  destruct (Z.ltb_spec 16 (total / 32)); [cbn; lia|]. destruct (Z.eqb_spec (total / 32) 0); lia.
Qed.

Lemma bitmap_blocks_range : total <= 32768 * ((total + 32767) / 32768) < total + 32768.
Proof. pose proof (Z.div_mod (total + 32767) 32768 ltac:(lia)). pose proof (Z.mod_pos_bound (total + 32767) 32768 ltac:(lia)). lia. Qed.

Context (Hr : 1 <= region_blocks < span) (Hs : span - region_blocks <= 1024 * region_blocks).

Lemma made_layout : layout sb.
Proof.
  pose proof table_blocks_range as Htb. pose proof bitmap_blocks_range as Hbb. split; unfold made_super; cbn [total_blocks block_bitmap_start block_bitmap_blocks inode_table_start inode_table_blocks
    inode_count root_inode data_start data_checksum_region]; unfold ADYTUMFS_INODES_PER_BLOCK, ADYTUMFS_ROOT_INODE; lia.
Qed.

Lemma made_fields : super_fields sb.
Proof.
  pose proof table_blocks_range as Htb. pose proof bitmap_blocks_range as Hbb. change (2 ^ 29) with 536870912 in Ht.
  split; [reflexivity|reflexivity|]. unfold made_super; cbn [total_blocks block_bitmap_start block_bitmap_blocks inode_table_start inode_table_blocks
    inode_count root_inode data_start free_blocks free_inodes generation feature_compat feature_incompat feature_ro_compat data_checksum_region].
  unfold ADYTUMFS_INODES_PER_BLOCK, ADYTUMFS_ROOT_INODE, ADYTUMFS_FEATURE_INCOMPAT_V2, is_u64. repeat (apply Forall_cons; split; [lia|]). constructor.
Qed.

Lemma made_valid : adytumfs_super_valid sb total = true.
Proof.
  pose proof table_blocks_range as Htb. pose proof bitmap_blocks_range as Hbb. change (2 ^ 29) with 536870912 in Ht. unfold adytumfs_super_valid, made_super.
  cbn [total_blocks block_bitmap_start block_bitmap_blocks inode_table_start inode_table_blocks inode_count root_inode data_start free_blocks free_inodes generation
    feature_compat feature_incompat feature_ro_compat data_checksum_region block_size].
  unfold windows, ADYTUMFS_BLOCK_SIZE, ADYTUMFS_INODES_PER_BLOCK, ADYTUMFS_ROOT_INODE, ADYTUMFS_INODE_TABLE_BLOCKS_MAX, ADYTUMFS_CHECKSUMS_PER_BLOCK. change (4096 * 8) with 32768.
  rewrite !Z.eqb_refl. cbn [negb]. rewrite !(u64_small (total + 32768 - 1)) by (unfold is_u64; lia). replace (total + 32768 - 1) with (total + 32767) by lia. rewrite Z.eqb_refl. cbn [negb].
  set (bb := (total + 32767) / 32768) in *. set (tb := table_blocks_for total) in *.
  rewrite !u64_small by (unfold is_u64; lia). rewrite !Z.eqb_refl. cbn [negb].
  rewrite (proj2 (Z.ltb_ge total total)) by lia. rewrite (proj2 (Z.eqb_neq tb 0)), (proj2 (Z.ltb_ge total (1 + bb))), (proj2 (Z.ltb_ge (total - (1 + bb)) tb)) by lia. cbn [orb].
  rewrite (proj2 (Z.ltb_ge 16 tb)), (proj2 (Z.leb_gt total _)) by lia. rewrite (proj2 (Z.eqb_neq (tb * 16) 0)), (proj2 (Z.ltb_ge (tb * 16) (tb * 16))), (proj2 (Z.leb_gt (tb * 16) 1)) by lia. cbn [orb Z.eqb].
  rewrite (proj2 (Z.ltb_ge _ (1 + bb + tb + 1))), (proj2 (Z.ltb_ge (total - 1 - bb - tb) _)) by lia. cbn [orb]. apply negb_true_iff, Z.ltb_ge.
  rewrite (u64_small (_ - (1 + bb + tb))), u64_small by (unfold is_u64; lia). apply Z.le_trans with ((1024 * region_blocks + 1023) / 1024); [apply Z.div_le_mono; lia|].
  replace (1024 * region_blocks + 1023) with (1023 + region_blocks * 1024) by lia. rewrite Z.div_add by lia. change (1023 / 1024) with 0. lia.
Qed.

End Super.

(** ** The whole of the format *)

Section Make.
Context {D : Type} `{FsDeviceLaws D}.
Context (dev : Z).
Implicit Types (s : fs D).

(** The device has a new volume of [total] blocks with the superblock [sb]. *)
Record formatted_as (total : Z) (sb : adytumfs_superblock) (d : D) : Prop := {
  fo_size : exists region_blocks, sb = made_super total region_blocks /\ 1 <= region_blocks /\
    (region_blocks = 1 \/ 1024 * (region_blocks - 1) < total - 2 - 2 * ((total + 32767) / 32768) - 2 * table_blocks_for total - (region_blocks - 1));
  fo_total : total_blocks sb = total /\ 3 <= total < 2 ^ 29;
  fo_layout : layout sb;
  fo_fields : super_fields sb;
  fo_valid : adytumfs_super_valid sb total = true;
  fo_stored : forall x, stored d dev x = seen d dev x;
  fo_blocks : exists now, is_u64 now /\ forall b, 0 <= b < data_start sb \/ data_checksum_region sb <= b < total -> content d dev b = volume_image sb now b
}.

Lemma make_spec fuel s :
  (forall sectors fl, block_info dev (disk s) = Some (sectors, fl) -> 24 <= sectors) ->
  let '(r, s') := adytumfs_make fuel dev s in
  staging s' = staging s /\ super s' = super s /\
  (r = Some tt -> exists sectors fl sb, block_info dev (disk s) = Some (sectors, fl) /\ formatted_as (sectors / 8) sb (disk s')).
Proof.
  intros Hmin. unfold adytumfs_make. rewrite bind_run. unfold on_disk. destruct (block_info dev (disk s)) as [[sectors fl]|] eqn:Hi; [|split; [done|split; [done|discriminate]]].
  pose proof (info_range _ _ _ _ Hi) as Hr. unfold is_u32 in Hr. specialize (Hmin sectors fl eq_refl). destruct (nz (Z.land fl _)); [split; [done|split; [done|discriminate]]|].
  unfold ADYTUMFS_SECTORS_PER_BLOCK. cbv zeta. set (total := sectors / 8).
  assert (3 <= total < 2 ^ 29) as Ht by (unfold total; split; [apply Z.div_le_lower_bound; lia|apply Z.div_lt_upper_bound; lia]). change (2 ^ 29) with 536870912 in Ht.
  unfold bits_per_block, ADYTUMFS_BLOCK_SIZE. change (4096 * 8) with 32768. fold (table_blocks_for total).
  rewrite !(u64_small (total + 32768 - 1)) by (unfold is_u64; lia). replace (total + 32768 - 1) with (total + 32767) by lia.
  pose proof (table_blocks_range total Ht) as Htb. pose proof (bitmap_blocks_range total) as Hbb.
  change (if (if ADYTUMFS_INODE_TABLE_BLOCKS_MAX <? total / 32 then ADYTUMFS_INODE_TABLE_BLOCKS_MAX else total / 32) =? 0 then 1
          else if ADYTUMFS_INODE_TABLE_BLOCKS_MAX <? total / 32 then ADYTUMFS_INODE_TABLE_BLOCKS_MAX else total / 32) with (table_blocks_for total).
  set (bb := (total + 32767) / 32768) in *. set (tb := table_blocks_for total) in *.
  rewrite (u64_small (total - 1 - bb - tb)) by (unfold is_u64; lia). destruct (Z.ltb_spec total 1) as [|_]; [lia|]. cbn [orb].
  destruct (Z.leb_spec (total - 1 - bb - tb) (1 + bb + tb)) as [|Hspan]; [split; [done|split; [done|discriminate]]|].
  rewrite (u64_small (total - 1 - bb - tb - (1 + bb + tb))) by (unfold is_u64; lia).
  destruct (region_loop fuel (total - 1 - bb - tb - (1 + bb + tb)) 1) as [R|] eqn:HR; [|split; [done|split; [done|discriminate]]].
  apply region_loop_spec in HR as (HR1 & HR2 & HR3); [|change (2 ^ 32) with 4294967296; lia|lia].
  rewrite (u64_small (_ - R)) by (unfold is_u64; lia). destruct (Z.eqb_spec (total - 1 - bb - tb - (1 + bb + tb) - R) 0) as [|HR0]; [split; [done|split; [done|discriminate]]|].
  rewrite (u64_small (1 + bb + tb + _)), (u64_small (total - 1 - bb - tb + tb)) by (unfold is_u64; lia).
  assert (1 <= R < total - 2 - 2 * bb - 2 * tb) as C1 by lia. assert (total - 2 - 2 * bb - 2 * tb - R <= 1024 * R) as C2 by lia.
  pose proof (made_layout total R Ht C1 C2) as Hlay. pose proof (made_fields total R Ht C1 C2) as Hfl. pose proof (made_valid total R Ht C1 C2) as Hval.
  pose proof (write_volume_spec dev (made_super total R) Hlay ltac:(cbn [total_blocks made_super]; change (2 ^ 29) with 536870912; lia) (Fs (staging s) (super s) (disk s))) as Hw.
  assert (total_blocks (made_super total R) - 1 - block_bitmap_blocks (made_super total R) - inode_table_blocks (made_super total R) - data_checksum_region (made_super total R) = R) as ER.
  { cbn [total_blocks block_bitmap_blocks inode_table_blocks data_checksum_region made_super]. lia. }
  unfold write_volume, write_region in Hw. rewrite ER in Hw. 
  match type of Hw with let '(r, s') := ?m in _ => match goal with |- let '(r, s') := ?m' in _ => change m' with m end; destruct m as [r s'] end.
  destruct Hw as (A & B & Hw). split; [exact A|]. split; [exact B|]. intros Hok. destruct (Hw Hok) as (Hst & now & Hnow & Hl).
  exists sectors, fl, (made_super total R). split; [reflexivity|]. split; [exists R; fold total; fold bb tb; split; [reflexivity|lia]|split; [reflexivity|exact Ht]|exact Hlay|exact Hfl|exact Hval|exact Hst|].
  exists now. split; [exact Hnow|]. intros b Hb. apply Hl. clear - Hb HR1 HR2 HR0 Hspan Htb Hbb Ht.
  unfold regions, tables, bitmaps, supers. cbn [total_blocks block_bitmap_blocks inode_table_blocks inode_table_start data_start data_checksum_region made_super] in *.
  fold bb in Hb |- *. fold tb in Hb |- *. lia.
Qed.

(** The volume is what is on the device, whatever holds it. *)
Lemma formatted_same total sb d d' :
  (forall x, seen d' dev x = seen d dev x) -> (forall x, stored d' dev x = seen d' dev x) -> formatted_as total sb d -> formatted_as total sb d'.
Proof.
  intros Hs Ht [F1 F2 F3 F4 F5 F6 (now & Hn & F7)]. split; [exact F1|exact F2|exact F3|exact F4|exact F5|exact Ht|]. exists now. split; [exact Hn|].
  intros b Hb. rewrite <- (F7 b Hb). apply block_of_ext. intros x _. apply Hs.
Qed.

(** The state between two commits, before the first. *)
Lemma formatted_between total sb s :
  formatted_as total sb (disk s) -> super s = sb -> staging_ok dev s -> between dev total sb sb s.
Proof.
  intros [(R & ER & _) [Ft1 Ft2] Fl Ff Fv Fs (now & _ & Fb)] Es Hst. change (2 ^ 29) with 536870912 in Ft2.
  assert (active_slot sb = 0 /\ generation sb = 1) as [Ea Eg] by (by rewrite ER).
  assert (forall slot, slot = 0 \/ slot = total - 1 -> block_of (stored (disk s) dev) slot = adytumfs_super_pack sb) as Hp.
  { intros slot Hs. rewrite <- (image_super sb now slot) by (rewrite Ft1; exact Hs). rewrite <- (Fb slot) by (destruct Fl; lia). apply block_of_ext. intros x _. apply Fs. }
  split; unfold inactive_slot; rewrite ?Es, ?Ea; cbn [nz negb Z.eqb].
  - exact Ft1.
  - change (2 ^ 29) with 536870912. lia.
  - exact Fl.
  - exact Fv.
  - done.
  - by left.
  - by split; split.
  - rewrite Eg. split; [done|lia].
  - by right.
  - apply Hp. by left.
  - change (superblock_slot total 1) with (u64 (total - 1)). rewrite u64_small by (unfold is_u64; lia). apply Hp. by right.
  - intros b x _ _. apply Fs.
  - exact Hst.
Qed.

End Make.

End AdytumMake.
