(* ===== verification/AdytumAtomic.v ===== *)
(** AdytumFS: commits and mounts, end to end. *)

From S2P Require Import Prelude Wire Crc32c AdytumFormat AdytumVolume AdytumDevice AdytumCommit AdytumSample AdytumMake.

Module AdytumAtomic.
Import Wire AdytumFormat AdytumVolume AdytumDevice AdytumCommit AdytumSample AdytumMake.

(** ** A mount reads the choice between the superblocks *)

Section Mount.
Context {D : Type} `{FsDeviceLaws D}.
Implicit Types (s : fs D).

(** The device answers every read. *)
Definition serves (dev : Z) : Prop := forall b s, 0 <= b < 2 ^ 29 -> fst (adytumfs_block_read (D:=D) dev b s) <> None.

Lemma read_copy_spec dev b blocks s :
  serves dev -> 0 <= b < 2 ^ 29 ->
  let '(r, s') := read_copy dev b blocks s in
  r = Some (copy_of (seen (disk s)) dev blocks b) /\ forall i x, seen (disk s') i x = seen (disk s) i x.
Proof.
  intros Hs Hb. pose proof (Hs b s Hb) as Hr. pose proof (block_read_spec dev b s Hb) as Hp. unfold read_copy.
  destruct (adytumfs_block_read dev b s) as [[bytes|] s']; [|done]. destruct Hp as (_ & _ & K & Hc). split.
  - rewrite (Hc bytes eq_refl). reflexivity.
  - intros i x. apply (k_seen _ _ _ K). intros [].
Qed.

Lemma valid_total super blocks : adytumfs_super_valid super blocks = true -> 1 <= total_blocks super <= blocks.
Proof.
  unfold adytumfs_super_valid. intros Hv.
  repeat match type of Hv with (if ?b then _ else _) = true => destruct b eqn:?; [discriminate Hv|] end. boolify.
  match goal with H : data_start super = u64 ?z |- _ => pose proof (u64_range z) as Hu; rewrite <- H in Hu end. unfold is_u64 in Hu. lia.
Qed.

(** With every read answered, a mount takes the superblock that the medium
    decides. *)
Lemma super_read_spec dev s sectors flags :
  serves dev -> block_info dev (disk s) = Some (sectors, flags) -> 8 <= sectors ->
  fst (adytumfs_super_read dev s) = recovered (seen (disk s)) dev (sectors / 8).
Proof.
  intros Hs Hi Hn. pose proof (info_range _ _ _ _ Hi) as Hr. unfold is_u32 in Hr.
  assert (1 <= sectors / 8 <= 2 ^ 29 - 1) as Hb.
  { split; [apply Z.div_le_lower_bound; lia|]. enough (sectors / 8 < 2 ^ 29) by lia. apply Z.div_lt_upper_bound; lia. }
  unfold adytumfs_super_read. rewrite bind_run. unfold on_disk. rewrite Hi. cbn match. unfold ADYTUMFS_SECTORS_PER_BLOCK.
  cbv zeta. set (blocks := sectors / 8) in *. rewrite (proj2 (Z.ltb_ge blocks 1)) by lia. rewrite bind_run.
  pose proof (read_copy_spec dev 0 blocks (Fs (staging s) (super s) (disk s)) Hs ltac:(lia)) as H1.
  destruct (read_copy _ _ _ _) as [p0 s1]. destruct H1 as [-> E1]. cbn [disk] in E1. unfold recovered. cbn [disk].
  set (pair0 := copy_of (seen (disk s)) dev blocks 0).
  set (backup := match pair0 with Some (copy, true) => u64 (total_blocks copy - 1) | _ => blocks - 1 end).
  assert (0 <= backup < 2 ^ 29) as Hk.
  { unfold backup. destruct pair0 as [[copy [|]]|] eqn:Hp; [|lia|lia]. unfold pair0, copy_of in Hp.
    destruct (adytumfs_super_unpack _) as [c|]; [|discriminate]. injection Hp as -> Hv. apply valid_total in Hv.
    rewrite u64_small by (unfold is_u64; lia). lia. }
  rewrite bind_run. destruct (0 <? backup); cbv iota.
  - pose proof (read_copy_spec dev backup blocks s1 Hs Hk) as H2. destruct (read_copy _ _ _ _) as [p1 s2]. destruct H2 as [-> E2].
    assert (copy_of (seen (disk s1)) dev blocks backup = copy_of (seen (disk s)) dev blocks backup) as ->.
    { unfold copy_of. rewrite (block_of_ext (seen (disk s1) dev) (seen (disk s) dev)) by (intros x _; apply E1). reflexivity. }
    destruct (pick _ _) as [[copy [|]]|]; reflexivity.
  - unfold mret, act_ret. destruct (pick _ _) as [[copy [|]]|]; reflexivity.
Qed.

End Mount.

(** ** A small volume *)

(** The device after a restart: nothing is held. *)
Definition restarted (d : writeback) : writeback := Writeback (sectors d) (medium d) (fun _ _ => false) (fun _ _ => []) [].

Lemma restarted_seen d dev x : wb_seen (restarted d) dev x = wb_stored d dev x.
Proof. reflexivity. Qed.

(** Twelve blocks: two superblocks, two bitmaps, two inode tables, five data
    blocks and their checksums. *)
Definition blank_device : writeback := Writeback 96 (fun _ _ => []) (fun _ _ => false) (fun _ _ => []) [].

Definition nothing_staged : Z -> adytumfs_staged := fun _ => Staged None false 0 [].

Definition no_super : adytumfs_superblock := Superblock 0 0 0 0 0 0 0 0 0 0 0 0 0 0 0 0 0 0.

(** The device after [adytumfs_make] and a restart. *)
Definition blank : fs writeback := Fs nothing_staged no_super blank_device.

Definition formatted : writeback := restarted (disk (snd (adytumfs_make 2 0 blank))).

Definition formatted_super : adytumfs_superblock :=
  Superblock 2 4096 12 1 1 2 1 16 1 3 5 14 1 0 ADYTUMFS_FEATURE_INCOMPAT_V2 0 8 0.

Lemma blank_info n fl : block_info 0 (disk blank) = Some (n, fl) -> n = 96.
Proof. intros E. change (Some (96, 0) = Some (n, fl)) in E. congruence. Qed.

Lemma blank_made : adytumfs_make 2 0 blank = (Some tt, snd (adytumfs_make 2 0 blank)).
Proof.
  assert (fst (adytumfs_make 2 0 blank) = Some tt) as Hr by (vm_compute; reflexivity).
  destruct (adytumfs_make 2 0 blank) as [r s']. cbn [fst snd] in *. by subst r.
Qed.

Lemma formatted_volume : formatted_as 0 12 formatted_super formatted.
Proof.
  pose proof (f_equal fst blank_made) as Hr. cbn [fst] in Hr.
  pose proof (make_spec 0 2 blank ltac:(intros n fl ->%blank_info; lia)) as Hm.
  unfold formatted. destruct (adytumfs_make 2 0 blank) as [r s']. cbn [fst snd] in *. destruct Hm as (_ & _ & Hm). destruct (Hm Hr) as (n & fl & sb & ->%blank_info & F).
  change (96 / 8) with 12 in F. destruct (fo_size _ _ _ _ F) as (R & ER & H1 & H2).
  assert (R = 1) as -> by (change ((12 + 32767) / 32768) with 1 in H2; change (table_blocks_for 12) with 1 in H2; lia).
  rewrite ER in F. exact (formatted_same 0 12 _ (disk s') (restarted (disk s')) (fo_stored _ _ _ _ F) (fun x => eq_refl) F).
Qed.

Lemma nothing_held sb (d : writeback) e : ~ holds 0 (Fs nothing_staged sb d) e.
Proof. intros [_ He]. discriminate He. Qed.

(** A new table block is staged. *)
Definition sample_window : fs writeback :=
  Fs (upd nothing_staged 0 (Staged (Some 0) true 0 (fresh_table 0 0))) formatted_super formatted.

Lemma sample_holds e : holds 0 sample_window e -> e = 0.
Proof. intros [_ He]. cbn in He. unfold upd in He. destruct (Z.eqb_spec e 0); [done|discriminate]. Qed.

Lemma sample_between : between 0 12 formatted_super formatted_super sample_window.
Proof.
  apply formatted_between; [exact formatted_volume|reflexivity|]. split.
  - intros e ->%sample_holds. cbn. lia.
  - intros e ->%sample_holds. apply fresh_table_block.
  - intros e e' ->%sample_holds ->%sample_holds _ _. reflexivity.
Qed.



(** ** A crash in a commit, and the mount after it *)

Lemma copy_of_ext st st' dev blocks b : (forall x, st dev x = st' dev x) -> copy_of st dev blocks b = copy_of st' dev blocks b.
Proof. intros He. unfold copy_of. rewrite (block_of_ext (st dev) (st' dev)) by (intros x _; apply He). reflexivity. Qed.

Lemma recovered_ext st st' dev blocks : (forall x, st dev x = st' dev x) -> recovered st dev blocks = recovered st' dev blocks.
Proof.
  intros He. unfold recovered. rewrite (copy_of_ext st st' dev blocks 0 He). cbv zeta.
  rewrite (copy_of_ext st st' dev blocks (match copy_of st' dev blocks 0 with Some (copy, true) => u64 (total_blocks copy - 1) | _ => blocks - 1 end) He).
  reflexivity.
Qed.


Lemma wb_serves dev : serves (D:=writeback) dev.
Proof. intros b s _. discriminate. Qed.

(** What the crash of the sample leaves. *)
Definition crashed : fs writeback := snd (adytumfs_commit 0 sample_window).

Definition crashed_mount : fs writeback := Fs nothing_staged no_super (restarted (disk crashed)).

Lemma crashed_new : ~ wb_past formatted (wb_stored (disk crashed)).
Proof.
  intros [Hs|(a & b & Hin & _)]; [|by apply elem_of_nil in Hin].
  assert (bool_decide (wb_stored (disk crashed) 0 88 = wb_stored formatted 0 88) = false) as Hne by (vm_compute; reflexivity).
  apply bool_decide_eq_false_1 in Hne. apply Hne, Hs.
Qed.


(** ** Two commits *)

(** Allocate the data block and commit; then commit a table block alone.  The
    answers are the block, its bit in the bitmap after each commit, and the
    count of free blocks. *)
Definition two_commits : act writeback (Z * bool * bool * Z) :=
  start ← adytumfs_alloc_run 0 1;
  _ ← adytumfs_commit 0;
  first ← adytumfs_bit_test 0 start;
  _ ← adytumfs_table_stage 0 0 (fresh_table 0 0);
  _ ← adytumfs_commit 0;
  second ← adytumfs_bit_test 0 start;
  super ← the_super;
  mret (start, first, second, free_blocks super).

(** A commit loses committed allocations.  The set it lands in is the one
    of two generations ago, and only the staged blocks are written to it: a
    block allocated and committed reads as free after a second commit that
    staged no bitmap, while the count of free blocks still leaves it out. *)
Theorem adytum_commit_mixes_generations :
  fst (two_commits (Fs nothing_staged formatted_super formatted)) = Some (3, true, false, 4).
Proof. vm_compute. reflexivity. Qed.

End AdytumAtomic.
