(* ===== verification/AdytumWindow.v ===== *)
(** AdytumFS: the open window of a volume.

    The window is the staging pool laid over the active metadata set.  [view]
    is the bitmap and the inode table as the file system sees them, and the
    operations of [src/fs/adytumfs_volume.c] on blocks, bits and table blocks
    are specified against it. *)

From S2P Require Import Prelude Wire AdytumFormat AdytumVolume AdytumDevice AdytumCommit.

Module AdytumWindow.
Import Wire AdytumFormat AdytumVolume AdytumDevice AdytumCommit.

(** ** Bits of a bitmap block *)

Lemma bit_in_testbit image offset : 0 <= offset -> bit_in image offset = Z.testbit (at_ image (offset / 8)) (offset mod 8).
Proof.
  intros Ho. unfold bit_in. pose proof (Z.mod_pos_bound offset 8 ltac:(lia)) as Hm.
  change 1 with (Z.ones 1). rewrite Z.land_ones by lia. change (2 ^ 1) with 2. rewrite Zmod_odd, <- Z.bit0_odd, Z.shiftr_spec, Z.add_0_l by lia.
  by destruct (Z.testbit _ _).
Qed.

Lemma at_insert (l : list Z) i j v :
  0 <= i < Z.of_nat (length l) -> 0 <= j -> at_ (<[Z.to_nat i := v]> l) j = if j =? i then v else at_ l j.
Proof.
  intros Hi Hj. unfold at_, byte_at. rewrite !nth_lookup. destruct (Z.eqb_spec j i) as [->|Hne].
  - by rewrite list_lookup_insert_eq by lia.
  - by rewrite list_lookup_insert_ne by lia.
Qed.

Lemma bit_in_set image offset used offset' :
  is_bytes image -> 0 <= offset < 8 * Z.of_nat (length image) -> 0 <= offset' ->
  bit_in (set_bit image offset used) offset' = if offset' =? offset then used else bit_in image offset'.
Proof.
  intros Hb Ho Ho'. rewrite !bit_in_testbit by lia. unfold set_bit.
  assert (0 <= offset / 8 < Z.of_nat (length image)) as Hi by (split; [apply Z.div_pos; lia|apply Z.div_lt_upper_bound; lia]).
  pose proof (Z.mod_pos_bound offset 8 ltac:(lia)) as Hm. pose proof (Z.mod_pos_bound offset' 8 ltac:(lia)) as Hm'.
  pose proof (Z.div_mod offset 8 ltac:(lia)) as Hd. pose proof (Z.div_mod offset' 8 ltac:(lia)) as Hd'.
  rewrite at_insert by (try apply Z.div_pos; lia). destruct (Z.eqb_spec (offset' / 8) (offset / 8)) as [He|Hne].
  - rewrite He in *. destruct used.
    + rewrite u8_testbit, Z.lor_spec, u8_testbit, shiftl1_bit by lia. destruct (Z.eqb_spec offset' offset) as [->|Hd2].
      * rewrite Z.eqb_refl. apply orb_true_r.
      * rewrite (proj2 (Z.eqb_neq (offset mod 8) (offset' mod 8))) by lia. apply orb_false_r.
    + rewrite Z.land_spec, u8_testbit, Z.lnot_spec, shiftl1_bit by lia. destruct (Z.eqb_spec offset' offset) as [->|Hd2].
      * rewrite Z.eqb_refl. apply andb_false_r.
      * rewrite (proj2 (Z.eqb_neq (offset mod 8) (offset' mod 8))) by lia. apply andb_true_r.
  - rewrite (proj2 (Z.eqb_neq offset' offset)); [done|]. intros ->. done.
Qed.

Lemma set_bit_block image offset used : is_block image -> 0 <= offset -> is_block (set_bit image offset used).
Proof.
  intros [Hl Hb] Ho. unfold set_bit. split; [by rewrite length_insert|]. apply Forall_insert; [done|].
  pose proof (byte_at_range image (Z.to_nat (offset / 8)) Hb) as Hr. destruct used; [apply u8_range|].
  unfold is_u8 in *. apply (land_width 8); [lia|]. unfold at_. lia.
Qed.

(** ** The window *)

Section Window.
Context {D : Type} `{FsDeviceLaws D}.
Context (dev : Z).
Implicit Types (s : fs D).

(** A block of the metadata as the file system sees it. *)
Definition view s (tbl : bool) (k : Z) : list Z :=
  default (content (disk s) dev (staged_block (super s) (active_slot (super s)) tbl k)) (window_image dev s tbl k).

(** The same block as the last commit left it. *)
Definition committed s (tbl : bool) (k : Z) : list Z :=
  content (disk s) dev (staged_block (super s) (active_slot (super s)) tbl k).

(** The window is sound on a volume of at most 256 bitmap blocks, what an index
    of the pool can name. *)
Record window_ok s : Prop := {
  wo_layout : layout (super s);
  wo_total : total_blocks (super s) <= 2 ^ 29;
  wo_bitmap : block_bitmap_blocks (super s) <= 256;
  wo_staging : staging_ok dev s
}.

(** The two states differ by reads of the device. *)
Record same_window s s' : Prop := {
  sw_staging : staging s' = staging s;
  sw_super : super s' = super s;
  sw_disk : kept nowhere (disk s) (disk s')
}.

Lemma same_window_refl s : same_window s s.
Proof. split; [done|done|apply media_kept_refl]. Qed.

Lemma same_window_trans s1 s2 s3 : same_window s1 s2 -> same_window s2 s3 -> same_window s1 s3.
Proof. intros [A1 B1 C1] [A2 B2 C2]. split; [congruence|congruence|by eapply media_kept_trans]. Qed.

Lemma kept_nowhere_content d d' b : kept nowhere d d' -> content d' dev b = content d dev b.
Proof. intros K. apply (kept_content _ _ _ _ _ K). intros x _ []. Qed.

Lemma same_holds s s' e : same_window s s' -> holds dev s' e <-> holds dev s e.
Proof. intros [A _ _]. unfold holds. by rewrite A. Qed.

Lemma same_window_image s s' tbl k : staging s' = staging s -> window_image dev s' tbl k = window_image dev s tbl k.
Proof. intros A. unfold window_image. by rewrite A. Qed.

Lemma same_committed s s' tbl k : same_window s s' -> committed s' tbl k = committed s tbl k.
Proof. intros [A B C]. unfold committed. rewrite B. by apply kept_nowhere_content. Qed.

Lemma same_view s s' tbl k : same_window s s' -> view s' tbl k = view s tbl k.
Proof.
  intros S. unfold view. fold (committed s' tbl k) (committed s tbl k).
  by rewrite (same_committed _ _ _ _ S), (same_window_image _ _ _ _ (sw_staging _ _ S)).
Qed.

Lemma window_ok_ext s s' : staging s' = staging s -> super s' = super s -> window_ok s -> window_ok s'.
Proof.
  intros A B [W1 W2 W3 [S1 S2 S3]]. split; rewrite ?B; [done|done|done|]. split; unfold holds in *; rewrite ?A, ?B; auto.
Qed.

Lemma same_ok s s' : same_window s s' -> window_ok s -> window_ok s'.
Proof. intros [A B _]. by apply window_ok_ext. Qed.

Lemma view_block s tbl k : window_ok s -> is_block (view s tbl k).
Proof.
  intros W. unfold view. destruct (window_image dev s tbl k) as [bytes|] eqn:Hw; [|apply content_block]. cbn [default].
  apply window_image_Some in Hw as (e & He & _ & _ & <-). by apply (so_image _ _ (wo_staging _ W)).
Qed.

(** ** Reads and staging *)

Lemma metadata_range s slot tbl k : window_ok s -> 0 <= k < set_size (super s) tbl -> 0 <= staged_block (super s) slot tbl k < 2 ^ 29.
Proof. intros [W1 W2 _ _] Hk. pose proof (staged_block_range (super s) W1 W2 slot tbl k Hk) as [Hr _]. lia. Qed.

Lemma set_size_small s tbl : window_ok s -> set_size (super s) tbl <= 256.
Proof. intros [[] _ W _]. unfold set_size. destruct tbl; lia. Qed.

(** The entry that holds the block, as [staging_find] looks for it. *)
Lemma find_spec s tbl k :
  0 <= k < 256 ->
  exists found, staging_find dev tbl k s = (Some found, s) /\
    match found with
    | Some e => holds dev s e /\ is_table (staging s e) = tbl /\ st_index (staging s e) = k /\
        window_image dev s tbl k = Some (image (staging s e))
    | None => window_image dev s tbl k = None
    end.
Proof.
  intros Hk. unfold staging_find. eexists. split; [reflexivity|]. unfold window_image, staged_as. rewrite u8_small by (unfold is_u8; lia).
  destruct (scan_range _ _ _) as [e|] eqn:He; [|done]. apply scan_range_Some in He as (Hr & Ht & _). boolify.
  split; [split; [done|by eapply bool_decide_eq_true_1]|]. split; [by apply Bool.eqb_prop|done].
Qed.

Lemma active_read s tbl k :
  window_ok s -> 0 <= k < set_size (super s) tbl ->
  let '(r, s') := adytumfs_block_read dev (staged_block (super s) (active_slot (super s)) tbl k) s in
  same_window s s' /\ forall bytes, r = Some bytes -> bytes = committed s tbl k.
Proof.
  intros W Hk. pose proof (block_read_spec dev _ s (metadata_range s (active_slot (super s)) tbl k W Hk)) as Hr.
  destruct (adytumfs_block_read _ _ _) as [r s']. destruct Hr as (A & B & K & Hc). by split.
Qed.

Lemma window_image_holds s e :
  staging_ok dev s -> holds dev s e -> window_image dev s (is_table (staging s e)) (st_index (staging s e)) = Some (image (staging s e)).
Proof.
  intros S He. destruct (window_image _ _ _ _) as [bytes|] eqn:Hw.
  - apply window_image_Some in Hw as (e' & He' & Ht & Hk & <-). by rewrite (so_unique _ _ S e' e He' He Ht Hk).
  - by pose proof (window_image_None _ _ _ _ Hw e He eq_refl).
Qed.

(** An operation that stages: other devices keep their entries. *)
Record stage_step s s' : Prop := {
  sg_super : super s' = super s;
  sg_disk : kept nowhere (disk s) (disk s');
  sg_others : forall e d, st_device (staging s e) = Some d -> d <> dev -> staging s' e = staging s e
}.

Lemma same_stage s s' : same_window s s' -> stage_step s s'.
Proof. intros [A B C]. split; [done|done|]. intros e d _ _. by rewrite A. Qed.

Lemma stage_step_trans s1 s2 s3 : stage_step s1 s2 -> stage_step s2 s3 -> stage_step s1 s3.
Proof.
  intros [A1 B1 C1] [A2 B2 C2]. split; [congruence|by eapply media_kept_trans|]. intros e d He Hd.
  pose proof (C1 e d He Hd) as E. rewrite <- E in He. by rewrite (C2 e d He Hd).
Qed.

(** The entry [e] becomes the image [bytes] of a block that no other entry holds. *)
Definition staged_entry s (e : Z) (tbl : bool) (k : Z) (bytes : list Z) : fs D :=
  Fs (upd (staging s) e (Staged (Some dev) tbl k bytes)) (super s) (disk s).

Section Entry.
Context (s : fs D) (e : Z) (tbl : bool) (k : Z) (bytes : list Z) (W : window_ok s).
Context (He : 0 <= e < ADYTUMFS_STAGING_POOL) (Hk : 0 <= k < set_size (super s) tbl) (Hb : is_block bytes).
Context (Hfree : st_device (staging s e) = None \/ holds dev s e /\ is_table (staging s e) = tbl /\ st_index (staging s e) = k).
Context (Honly : forall e', holds dev s e' -> is_table (staging s e') = tbl -> st_index (staging s e') = k -> e' = e).

Local Abbreviation s' := (staged_entry s e tbl k bytes).

Lemma entry_holds e' : holds dev s' e' <-> e' = e \/ e' <> e /\ holds dev s e'.
Proof.
  unfold holds. cbn [staging staged_entry]. destruct (decide (e' = e)) as [->|Hne].
  - rewrite upd_eq. cbn [st_device]. tauto.
  - rewrite upd_ne by done. tauto.
Qed.

Lemma entry_at e' : staging s' e' = if decide (e' = e) then Staged (Some dev) tbl k bytes else staging s e'.
Proof. cbn [staging staged_entry]. destruct (decide (e' = e)) as [->|Hne]; [apply upd_eq|by apply upd_ne]. Qed.

Lemma entry_ok : window_ok s'.
Proof.
  destruct W as [W1 W2 W3 [S1 S2 S3]]. split; [done|done|done|]. split.
  - intros e' [->|[Hne Hh]]%entry_holds; rewrite entry_at; [by rewrite decide_True|]. rewrite decide_False by done. by apply S1.
  - intros e' [->|[Hne Hh]]%entry_holds; rewrite entry_at; [by rewrite decide_True|]. rewrite decide_False by done. by apply S2.
  - intros e1 e2 [->|[Hn1 Hh1]]%entry_holds [->|[Hn2 Hh2]]%entry_holds; rewrite !entry_at.
    + done.
    + rewrite decide_True, decide_False by done. cbn [is_table st_index]. intros Ht Hi. by rewrite (Honly e2).
    + rewrite decide_False, decide_True by done. cbn [is_table st_index]. intros Ht Hi. by rewrite (Honly e1).
    + rewrite !decide_False by done. by apply S3.
Qed.

Lemma entry_image t j : window_image dev s' t j = if decide (t = tbl /\ j = k) then Some bytes else window_image dev s t j.
Proof.
  pose proof (wo_staging _ entry_ok) as S'. pose proof (fun e' Hh => window_image_holds s' e' S' Hh) as Hin.
  destruct (decide (t = tbl /\ j = k)) as [[-> ->]|Hne].
  - specialize (Hin e ltac:(by apply entry_holds; left)). rewrite entry_at, decide_True in Hin by done. exact Hin.
  - destruct (window_image dev s t j) as [img|] eqn:Hw.
    + apply window_image_Some in Hw as (e' & Hh & <- & <- & <-). assert (e' <> e) as Hd.
      { intros ->. destruct Hfree as [Hf|(_ & Ht & Hi)]; [destruct Hh; congruence|by apply Hne]. }
      specialize (Hin e' ltac:(apply entry_holds; by right)). by rewrite entry_at, decide_False in Hin by done.
    + destruct (window_image dev s' t j) as [img|] eqn:Hw'; [|done]. exfalso.
      apply window_image_Some in Hw' as (e' & [->|[Hd Hh]]%entry_holds & Ht & Hi & _); rewrite entry_at in Ht, Hi.
      * rewrite decide_True in Ht, Hi by done. by apply Hne.
      * rewrite decide_False in Ht, Hi by done. by apply (window_image_None _ _ _ _ Hw e' Hh).
Qed.

Lemma entry_view t j : view s' t j = if decide (t = tbl /\ j = k) then bytes else view s t j.
Proof. unfold view. rewrite entry_image. by destruct (decide _). Qed.

Lemma entry_step : stage_step s s'.
Proof.
  split; [done|apply media_kept_refl|]. intros e' d Hd Hne. rewrite entry_at. destruct (decide (e' = e)) as [->|]; [|done].
  destruct Hfree as [?|[[_ ?] _]]; congruence.
Qed.

End Entry.

(** A step that changes one block of the view, or none. *)
Record view_step (f : bool -> Z -> list Z) s s' : Prop := {
  vs_ok : window_ok s';
  vs_step : stage_step s s';
  vs_view : forall t j, view s' t j = f t j
}.

Lemma view_step_same s s' : window_ok s -> same_window s s' -> view_step (view s) s s'.
Proof. intros W S. split; [by eapply same_ok|by apply same_stage|]. intros t j. by apply same_view. Qed.

Lemma view_step_trans f g s1 s2 s3 :
  view_step f s1 s2 -> view_step g s2 s3 -> view_step g s1 s3.
Proof. intros [A1 B1 C1] [A2 B2 C2]. split; [done|by eapply stage_step_trans|done]. Qed.

Lemma free_entry_spec s :
  exists free, free_entry s = (Some free, s) /\
    forall e, free = Some e -> 0 <= e < ADYTUMFS_STAGING_POOL /\ st_device (staging s e) = None.
Proof.
  unfold free_entry. eexists. split; [reflexivity|]. intros e (Hr & Ht & _)%scan_range_Some. split; [done|]. by eapply bool_decide_eq_true_1.
Qed.

(** A claim leaves the view as it is, and answers an entry with the image of
    the block. *)
Lemma claim_spec s tbl k :
  window_ok s -> 0 <= k < set_size (super s) tbl ->
  let '(r, s') := staging_claim dev tbl k s in
  view_step (view s) s s' /\
  forall e, r = Some e -> holds dev s' e /\ is_table (staging s' e) = tbl /\ st_index (staging s' e) = k /\ image (staging s' e) = view s tbl k.
Proof.
  intros W Hk. pose proof (set_size_small s tbl W) as Hs. unfold staging_claim. rewrite (proj2 (Z.ltb_ge 255 k)) by lia.
  rewrite bind_run. unfold the_super. cbv beta iota. rewrite bind_run. destruct (find_spec s tbl k ltac:(lia)) as (found & -> & Hf). cbv beta iota.
  assert (view_step (view s) s s) as Hrefl by (apply view_step_same, same_window_refl; done).
  destruct found as [e|].
  - split; [done|]. intros ? [= <-]. destruct Hf as (H1 & H2 & H3 & H4). do 3 (split; [done|]). unfold view. by rewrite H4.
  - rewrite bind_run. destruct (free_entry_spec s) as (free & -> & Hfree). destruct free as [e|]; [|by split].
    destruct (Hfree e eq_refl) as [Hr Hd]. rewrite bind_run. pose proof (active_read s tbl k W Hk) as Ha.
    destruct (adytumfs_block_read _ _ s) as [[bytes|] s1]; destruct Ha as [S Hc]; [|split; [by apply view_step_same|done]].
    rewrite bind_run. unfold set_staged. cbv beta iota. rewrite u8_small by (unfold is_u8; lia). fold (staged_entry s1 e tbl k bytes).
    pose proof (same_ok _ _ S W) as W1. pose proof (Hc bytes eq_refl) as ->. pose proof S as [A B _].
    assert (st_device (staging s1 e) = None) as Hd1 by (by rewrite A).
    assert (0 <= k < set_size (super s1) tbl) as Hk1 by (by rewrite B).
    assert (forall e', holds dev s1 e' -> is_table (staging s1 e') = tbl -> st_index (staging s1 e') = k -> e' = e) as Honly.
    { intros e' He'. rewrite (same_holds _ _ _ S) in He'. rewrite A. intros Ht Hi. by destruct (window_image_None _ _ _ _ Hf e' He' Ht). }
    assert (is_block (committed s tbl k)) as Hb by apply content_block.
    assert (view s tbl k = committed s tbl k) as Hv by (unfold view; by rewrite Hf).
    split.
    + eapply (view_step_trans (view s)); [by apply view_step_same|]. split.
      * apply entry_ok; auto.
      * apply entry_step; auto.
      * intros t j. rewrite entry_view by auto. destruct (decide (t = tbl /\ j = k)) as [[-> ->]|]; [done|by apply same_view].
    + intros ? [= <-]. split; [apply entry_holds; auto|]. rewrite entry_at, decide_True by done. done.
Qed.

(** Writing the image of a claimed entry. *)
Lemma set_image_spec s e bytes :
  window_ok s -> holds dev s e -> is_block bytes ->
  let '(r, s') := set_image e bytes s in
  r = Some tt /\ view_step (fun t j => if decide (t = is_table (staging s e) /\ j = st_index (staging s e)) then bytes else view s t j) s s'.
Proof.
  intros W He Hb. unfold set_image, set_staged. cbv zeta. rewrite (proj2 He). fold (staged_entry s e (is_table (staging s e)) (st_index (staging s e)) bytes).
  pose proof (wo_staging _ W) as S. split; [done|].
  assert (forall e', holds dev s e' -> is_table (staging s e') = is_table (staging s e) -> st_index (staging s e') = st_index (staging s e) -> e' = e) as Honly
    by (intros; by apply (so_unique _ _ S)).
  split.
  - apply entry_ok; auto; apply He || by apply S.
  - apply entry_step; auto.
  - intros t j. apply entry_view; auto; apply He || by apply S.
Qed.

Lemma table_read_spec s k :
  window_ok s -> 0 <= k < inode_table_blocks (super s) ->
  let '(r, s') := adytumfs_table_read dev k s in same_window s s' /\ forall bytes, r = Some bytes -> bytes = view s true k.
Proof.
  intros W Hk. pose proof (set_size_small s true W) as Hs. cbn [set_size] in Hs. unfold adytumfs_table_read. rewrite bind_run. unfold the_super. cbv beta iota. rewrite bind_run.
  destruct (find_spec s true k ltac:(lia)) as (found & -> & Hf). cbv beta iota. destruct found as [e|].
  - unfold staged_image. split; [apply same_window_refl|]. intros ? [= <-]. destruct Hf as (_ & _ & _ & Hw). unfold view. by rewrite Hw.
  - pose proof (active_read s true k W Hk) as Ha. destruct (adytumfs_block_read _ _ s) as [r s1]. destruct Ha as [S Hc]. split; [done|].
    intros bytes ->. rewrite (Hc bytes eq_refl). unfold view. by rewrite Hf.
Qed.

Lemma table_stage_spec s k bytes :
  window_ok s -> 0 <= k < inode_table_blocks (super s) -> is_block bytes ->
  let '(r, s') := adytumfs_table_stage dev k bytes s in
  match r with
  | Some _ => view_step (fun t j => if decide (t = true /\ j = k) then bytes else view s t j) s s'
  | None => view_step (view s) s s'
  end.
Proof.
  intros W Hk Hb. unfold adytumfs_table_stage. rewrite bind_run. pose proof (claim_spec s true k W Hk) as Hc.
  destruct (staging_claim dev true k s) as [[e|] s1]; destruct Hc as [V Hc]; [|done]. destruct (Hc e eq_refl) as (Hh & Ht & Hi & _).
  pose proof (set_image_spec s1 e bytes (vs_ok _ _ _ V) Hh Hb) as Hw. destruct (set_image e bytes s1) as [r s2]. destruct Hw as [-> V2].
  destruct V2 as [A B C]. split; [done|by eapply stage_step_trans, B; apply V|]. intros t j. rewrite C, Ht, Hi.
  destruct (decide _); [done|]. apply V.
Qed.

(** ** Bits *)

Definition bit s (b : Z) : bool := bit_in (view s false (b / bits_per_block)) (b mod bits_per_block).

Definition committed_bit s (b : Z) : bool := bit_in (committed s false (b / bits_per_block)) (b mod bits_per_block).

Lemma bit_range b : 0 <= b -> 0 <= b mod bits_per_block < 32768.
Proof. intros Hb. unfold bits_per_block, ADYTUMFS_BLOCK_SIZE. change (4096 * 8) with 32768. apply Z.mod_pos_bound. lia. Qed.

Lemma bitmap_index s b : window_ok s -> 0 <= b < total_blocks (super s) -> 0 <= b / bits_per_block < block_bitmap_blocks (super s) /\ b / bits_per_block < 256.
Proof.
  intros [[] _ W _] Hb. unfold bits_per_block, ADYTUMFS_BLOCK_SIZE. change (4096 * 8) with 32768.
  pose proof (Z.div_pos b 32768). assert (b / 32768 < block_bitmap_blocks (super s)) by (apply Z.div_lt_upper_bound; lia). lia.
Qed.

Lemma same_bit s s' b : same_window s s' -> bit s' b = bit s b.
Proof. intros S. unfold bit. by rewrite (same_view _ _ _ _ S). Qed.

Lemma bit_test_spec s b :
  window_ok s -> 0 <= b < total_blocks (super s) ->
  let '(r, s') := adytumfs_bit_test dev b s in same_window s s' /\ forall x, r = Some x -> x = bit s b.
Proof.
  intros W Hb. destruct (bitmap_index s b W Hb) as [Hi Hi']. unfold adytumfs_bit_test. rewrite bind_run. unfold the_super. cbv beta iota zeta.
  rewrite (proj2 (Z.leb_gt _ _)) by lia. rewrite bind_run, u32_small by (unfold is_u32; lia).
  destruct (find_spec s false (b / bits_per_block) ltac:(lia)) as (found & -> & Hf). cbv beta iota. destruct found as [e|]; rewrite bind_run.
  - unfold staged_image. split; [apply same_window_refl|]. intros ? [= <-]. destruct Hf as (_ & _ & _ & Hw). unfold bit, view. by rewrite Hw.
  - pose proof (active_read s false (b / bits_per_block) W Hi) as Ha. destruct (adytumfs_block_read _ _ s) as [[bytes|] s1]; destruct Ha as [S Hc]; [|done].
    split; [done|]. intros ? [= <-]. rewrite (Hc bytes eq_refl). unfold bit, view. by rewrite Hf.
Qed.

Lemma bit_committed_spec s b :
  window_ok s -> 0 <= b < total_blocks (super s) ->
  let '(r, s') := adytumfs_bit_committed dev b s in same_window s s' /\ forall x, r = Some x -> x = committed_bit s b.
Proof.
  intros W Hb. destruct (bitmap_index s b W Hb) as [Hi Hi']. unfold adytumfs_bit_committed. rewrite bind_run. unfold the_super. cbv beta iota zeta.
  rewrite (proj2 (Z.leb_gt _ _)) by lia. rewrite bind_run.
  pose proof (active_read s false (b / bits_per_block) W Hi) as Ha. destruct (adytumfs_block_read _ _ s) as [[bytes|] s1]; destruct Ha as [S Hc]; [|done].
  split; [done|]. intros ? [= <-]. by rewrite (Hc bytes eq_refl).
Qed.

(** A step that changes bits of the bitmap only. *)
Record bits_step (f : Z -> bool) s s' : Prop := {
  bs_ok : window_ok s';
  bs_step : stage_step s s';
  bs_table : forall k, view s' true k = view s true k;
  bs_bit : forall b, 0 <= b -> bit s' b = f b
}.

Lemma bits_step_same s s' : window_ok s -> same_window s s' -> bits_step (bit s) s s'.
Proof. intros W S. split; [by eapply same_ok|by apply same_stage|intros k; by apply same_view|intros b _; by apply same_bit]. Qed.

Lemma bits_step_trans f g s1 s2 s3 : bits_step f s1 s2 -> bits_step g s2 s3 -> bits_step g s1 s3.
Proof. intros [A1 B1 C1 D1] [A2 B2 C2 D2]. split; [done|by eapply stage_step_trans|intros k; by rewrite C2|done]. Qed.

Lemma bits_step_ext f g s1 s2 : (forall b, 0 <= b -> f b = g b) -> bits_step f s1 s2 -> bits_step g s1 s2.
Proof. intros He [A B C D1]. split; [done|done|done|]. intros b Hb. by rewrite D1, He. Qed.

Lemma bit_write_spec s b used :
  window_ok s -> 0 <= b < total_blocks (super s) ->
  let '(r, s') := adytumfs_bit_write dev b used s in
  match r with
  | Some _ => bits_step (fun b' => if b' =? b then used else bit s b') s s'
  | None => bits_step (bit s) s s'
  end.
Proof.
  intros W Hb. destruct (bitmap_index s b W Hb) as [Hi Hi']. unfold adytumfs_bit_write. rewrite bind_run. unfold the_super. cbv beta iota zeta.
  rewrite (proj2 (Z.leb_gt _ _)) by lia. rewrite bind_run, u32_small by (unfold is_u32; lia).
  pose proof (claim_spec s false (b / bits_per_block) W Hi) as Hc.
  destruct (staging_claim dev false (b / bits_per_block) s) as [[e|] s1]; destruct Hc as [[A B C] Hc].
  - destruct (Hc e eq_refl) as (Hh & Ht & Hk & Hv). rewrite bind_run. unfold staged_image. cbv beta iota. rewrite Hv.
    pose proof (bit_range b ltac:(lia)) as Ho. pose proof (view_block s false (b / bits_per_block) W) as [Hl Hy].
    pose proof (set_image_spec s1 e (set_bit (view s false (b / bits_per_block)) (b mod bits_per_block) used) A Hh
                  (set_bit_block _ _ _ (conj Hl Hy) (proj1 Ho))) as Hw.
    destruct (set_image _ _ s1) as [r s2]. destruct Hw as [-> [A2 B2 C2]]. rewrite Ht, Hk in C2. split; [done|by eapply stage_step_trans| |].
    + intros k. rewrite C2, decide_False by (by intros [? _]). apply C.
    + intros b' Hb'. unfold bit. rewrite C2, C. pose proof (bit_range b' Hb'). destruct (decide (false = false /\ b' / bits_per_block = b / bits_per_block)) as [[_ He]|Hne].
      * rewrite bit_in_set, He by (done || lia). pose proof (Z.div_mod b' bits_per_block ltac:(done)). pose proof (Z.div_mod b bits_per_block ltac:(done)).
        destruct (Z.eqb_spec b' b) as [->|Hd]; [by rewrite Z.eqb_refl|]. rewrite (proj2 (Z.eqb_neq _ _)); [done|]. intros Hm. apply Hd. congruence.
      * rewrite (proj2 (Z.eqb_neq b' b)); [done|]. intros ->. by apply Hne.
  - split; [done|done|intros k; apply C|]. intros b' _. unfold bit. by rewrite C.
Qed.

End Window.

End AdytumWindow.
