(* ===== verification/AdytumAlloc.v ===== *)
(** AdytumFS: the block allocator, [adytumfs_alloc_run] and
    [adytumfs_free_run] of [src/fs/adytumfs_volume.c]. *)

From S2P Require Import Prelude Wire AdytumFormat AdytumVolume AdytumDevice AdytumCommit AdytumWindow AdytumSample AdytumAtomic.

Module AdytumAlloc.
Import Wire AdytumFormat AdytumVolume AdytumDevice AdytumCommit AdytumWindow AdytumSample AdytumAtomic.

Section Alloc.
Context {D : Type} `{FsDeviceLaws D}.
Context (dev : Z).
Implicit Types (s : fs D).

Local Abbreviation window_ok := (window_ok dev).
Local Abbreviation bit := (bit dev).
Local Abbreviation bits_step := (bits_step dev).
Local Abbreviation same_window := (same_window (D:=D)).

(** The block is free in the window and was free at the last commit. *)
Definition vacant s (b : Z) : bool := negb (bit s b) && negb (committed_bit dev s b).

Lemma same_vacant s s' b : same_window s s' -> vacant s' b = vacant s b.
Proof. intros S. unfold vacant, committed_bit. by rewrite (same_bit dev _ _ b S), (same_committed dev _ _ _ _ S). Qed.

Lemma reusable_spec s b :
  window_ok s -> 0 <= b < total_blocks (super s) ->
  let '(r, s') := reusable dev b s in same_window s s' /\ forall x, r = Some x -> x = vacant s b.
Proof.
  intros W Hb. destruct (bitmap_index dev s b W Hb) as [Hi Hi']. unfold reusable. rewrite bind_run.
  pose proof (bit_test_spec dev s b W Hb) as Ht. destruct (adytumfs_bit_test dev b s) as [[u|] s1]; destruct Ht as [S1 Hu]; [|done].
  pose proof (Hu u eq_refl) as ->. unfold vacant. destruct (bit s b) eqn:Hbit; [split; [done|by intros ? [= <-]]|]. cbn [negb andb].
  rewrite bind_run, u32_small by (unfold is_u32; lia).
  destruct (find_spec dev s1 false (b / bits_per_block) ltac:(lia)) as (found & -> & Hf). cbv beta iota. destruct found as [e|].
  - rewrite bind_run. pose proof (same_ok dev _ _ S1 W) as W1. pose proof (bit_committed_spec dev s1 b W1) as Hc. rewrite (sw_super _ _ S1) in Hc. specialize (Hc Hb).
    destruct (adytumfs_bit_committed dev b s1) as [[c|] s2]; destruct Hc as [S2 Hc]; [|split; [by eapply same_window_trans|done]].
    split; [by eapply same_window_trans|]. intros ? [= <-]. rewrite (Hc c eq_refl). unfold committed_bit. by rewrite (same_committed dev _ _ _ _ S1).
  - split; [done|]. intros ? [= <-]. rewrite (same_window_image dev _ _ _ _ (sw_staging _ _ S1)) in Hf.
    unfold AdytumWindow.bit, view in Hbit. rewrite Hf in Hbit. cbn [default] in Hbit. unfold committed_bit, committed. by rewrite Hbit.
Qed.

(** Marking a run, the loop both operations end in. *)
Lemma mark_spec s start n used :
  window_ok s -> 0 <= start -> 0 <= n -> start + n <= total_blocks (super s) ->
  let '(r, s') := for_to start (start + n) (fun mark => adytumfs_bit_write dev mark used) s in
  match r with
  | Some _ => bits_step (fun b => if (start <=? b) && (b <? start + n) then used else bit s b) s s'
  | None => exists m, start <= m < start + n /\ bits_step (fun b => if (start <=? b) && (b <? m) then used else bit s b) s s'
  end.
Proof.
  intros W Hs Hn Ht.
  pose (I i s' := bits_step (fun b => if (start <=? b) && (b <? i) then used else bit s b) s s').
  pose proof (for_to_ind I (fun s' => exists m, start <= m < start + n /\ I m s') start (start + n)
    (fun mark => adytumfs_bit_write dev mark used) s) as Hind. rewrite Z.max_r in Hind by lia. apply Hind; clear Hind.
  - unfold I. eapply bits_step_ext; [|by apply bits_step_same, same_window_refl]. intros b _. cbn beta.
    destruct (Z.leb_spec start b), (Z.ltb_spec b start); [lia|done..].
  - intros i s1 Hi V. pose proof (bs_ok _ _ _ _ V) as W1. pose proof (sg_super _ _ _ (bs_step _ _ _ _ V)) as E.
    pose proof (bit_write_spec dev s1 i used W1) as Hw. rewrite E in Hw. specialize (Hw ltac:(lia)).
    destruct (adytumfs_bit_write dev i used s1) as [[u|] s2].
    + eapply bits_step_trans; [exact V|]. eapply bits_step_ext; [|exact Hw]. intros b Hb. cbn beta. rewrite (bs_bit _ _ _ _ V b Hb).
      destruct (Z.eqb_spec b i) as [->|Hne].
      * rewrite (proj2 (Z.leb_le start i)), (proj2 (Z.ltb_lt i (i + 1))) by lia. done.
      * destruct (Z.leb_spec start b), (Z.ltb_spec b i), (Z.ltb_spec b (i + 1)); done || lia.
    + exists i. split; [done|]. eapply bits_step_trans; [exact V|]. eapply bits_step_ext; [|exact Hw]. intros b Hb. by rewrite (bs_bit _ _ _ _ V b Hb).
Qed.

(** [start] is the first run of [len] vacant data blocks. *)
Record first_run s (len start : Z) : Prop := {
  fr_range : data_start (super s) <= start /\ start + len <= data_checksum_region (super s);
  fr_vacant : forall b, start <= b < start + len -> vacant s b = true;
  fr_first : forall c, data_start (super s) <= c < start -> exists b, c <= b < c + len /\ vacant s b = false
}.

(** The bits become [f] and the count of free blocks [free]. *)
Record count_step (f : Z -> bool) (free : Z) s s' : Prop := {
  cs_ok : window_ok s';
  cs_super : super s' = set_free_blocks free (super s);
  cs_disk : kept nowhere (disk s) (disk s');
  cs_others : forall e d, st_device (staging s e) = Some d -> d <> dev -> staging s' e = staging s e;
  cs_table : forall k, view dev s' true k = view dev s true k;
  cs_bit : forall b, 0 <= b -> bit s' b = f b;
  cs_free : is_u64 free
}.

Lemma bump_spec f s s1 n :
  bits_step f s s1 -> let '(r, s') := bump_free_blocks n s1 in r = Some tt /\ count_step f (u64 (free_blocks (super s) + n)) s s'.
Proof.
  intros [W [A B C] T Hb]. unfold bump_free_blocks. rewrite bind_run. unfold the_super, set_super. cbv beta iota. split; [done|]. rewrite A. split.
  - destruct W as [[] W2 W3 [S1 S2 S3]]. rewrite A in *. split; [by split|done|done|by split].
  - done.
  - done.
  - done.
  - intros k. rewrite <- T. unfold view. cbn [super disk]. by rewrite A.
  - intros b Hb0. rewrite <- (Hb b Hb0). unfold AdytumWindow.bit, view. cbn [super disk]. by rewrite A.
  - apply u64_range.
Qed.

(** The scan has passed the blocks before [block]; the last [run] of them are
    vacant, and no run of [len] starts before those. *)
Record scanned s (len block run_start run : Z) : Prop := {
  sc_run : 0 <= run < len /\ data_start (super s) <= block - run;
  sc_start : 0 < run -> run_start = block - run;
  sc_vacant : forall b, block - run <= b < block -> vacant s b = true;
  sc_first : forall c, data_start (super s) <= c < block - run -> exists b, c <= b < c + len /\ vacant s b = false
}.

Lemma scanned_used s len block run_start run :
  scanned s len block run_start run -> vacant s block = false -> scanned s len (block + 1) run_start 0.
Proof.
  intros [[Hr Hd] _ _ Hf] Hv. split; [lia|lia|lia|]. intros c Hc.
  destruct (decide (c < block - run)) as [Hlt|Hge]; [apply Hf; lia|]. exists block. split; [lia|done].
Qed.

Lemma scanned_free s len block run_start run :
  scanned s len block run_start run -> vacant s block = true -> run + 1 < len ->
  scanned s len (block + 1) (if run =? 0 then block else run_start) (run + 1).
Proof.
  intros [[Hr Hd] Hs Hw Hf] Hv Hl. split; [lia| | |].
  - intros _. destruct (Z.eqb_spec run 0) as [->|Hne]; [lia|]. rewrite Hs by lia. lia.
  - intros b Hb. destruct (decide (b = block)) as [->|]; [done|]. apply Hw. lia.
  - intros c Hc. apply Hf. lia.
Qed.

Lemma scanned_found s len block run_start run :
  scanned s len block run_start run -> vacant s block = true -> run + 1 = len -> block < data_checksum_region (super s) ->
  first_run s len (if run =? 0 then block else run_start).
Proof.
  intros [[Hr Hd] Hs Hw Hf] Hv Hl Hb.
  assert ((if run =? 0 then block else run_start) = block - run) as -> by (destruct (Z.eqb_spec run 0) as [->|]; [lia|apply Hs; lia]).
  split; [lia| |].
  - intros b Hb'. destruct (decide (b = block)) as [->|]; [done|]. apply Hw. lia.
  - intros c Hc. apply Hf. lia.
Qed.

Lemma scanned_same s s' len block run_start run :
  same_window s s' -> scanned s len block run_start run -> scanned s' len block run_start run.
Proof.
  intros S [A B C F]. pose proof (sw_super _ _ S) as E. split; rewrite ?E; [done|done| |].
  - intros b Hb. rewrite (same_vacant _ _ _ S). by apply C.
  - intros c Hc. destruct (F c Hc) as (b & Hb & Hv). exists b. by rewrite (same_vacant _ _ _ S).
Qed.

Lemma first_run_same s s' len start : same_window s s' -> first_run s' len start -> first_run s len start.
Proof.
  intros S [A B C]. rewrite (sw_super _ _ S) in *. split; [done| |].
  - intros b Hb. rewrite <- (same_vacant _ _ b S). by apply B.
  - intros c Hc. destruct (C c Hc) as (b & Hb & Hv). exists b. by rewrite <- (same_vacant _ _ b S).
Qed.

(** What an allocation answers. *)
Definition alloc_answer s (len : Z) (r : option Z) (s' : fs D) : Prop :=
  match r with
  | Some start => first_run s len start /\
      count_step (fun b => if (start <=? b) && (b <? start + len) then true else bit s b) (u64 (free_blocks (super s) + - len)) s s'
  | None => exists f, bits_step f s s' /\ forall b, bit s b = true -> f b = true
  end.

Lemma same_bits_step f s s1 s' : same_window s s1 -> bits_step f s1 s' -> bits_step f s s'.
Proof.
  intros S [A B C E]. split; [done|eapply stage_step_trans; [by apply same_stage|done]| |done].
  intros k. rewrite C. by apply same_view.
Qed.

Lemma alloc_none s s1 : window_ok s -> same_window s s1 -> alloc_answer s 0 None s1.
Proof. intros W S. exists (bit s). split; [by apply bits_step_same|done]. Qed.

Lemma alloc_scan_spec n len block run_start run s s0 :
  same_window s0 s -> window_ok s0 -> scanned s len block run_start run ->
  block + Z.of_nat n = data_checksum_region (super s0) ->
  let '(r, s') := alloc_scan n dev len block run_start run s in alloc_answer s0 len r s'.
Proof.
  revert block run_start run s. induction n as [|n IH]; intros block run_start run s S W Hsc Hn; [by apply alloc_none|].
  pose proof (same_ok dev _ _ S W) as W1. pose proof (sw_super _ _ S) as E. pose proof (wo_layout _ _ W) as [L1 L2 L3 L4 L5 L6 L7 L8 L9 L10].
  pose proof (sc_run _ _ _ _ _ Hsc) as [Hr0 Hds]. rewrite E in Hds.
  cbn [alloc_scan]. rewrite bind_run. pose proof (reusable_spec s block W1) as Hr. rewrite E in Hr. specialize (Hr ltac:(lia)).
  destruct (reusable dev block s) as [[free|] s1]; destruct Hr as [S1 Hf]; [|apply alloc_none; [done|by eapply same_window_trans]].
  pose proof (same_window_trans _ _ _ S S1) as S01. rewrite (Hf free eq_refl). clear Hf. apply (scanned_same _ _ _ _ _ _ S1) in Hsc.
  rewrite <- (same_vacant _ _ block S1). destruct (vacant s1 block) eqn:Hv; cbn [negb].
  - destruct (Z.eqb_spec (run + 1) len) as [Hl|Hl].
    + assert (first_run s1 len (if run =? 0 then block else run_start)) as Hfr.
      { apply (scanned_found _ _ _ _ _ Hsc); [done|done|]. rewrite (sw_super _ _ S01). lia. }
      pose proof (fr_range _ _ _ Hfr) as [Hs1 Hs2]. rewrite (sw_super _ _ S01) in Hs1, Hs2. set (start := if run =? 0 then block else run_start) in *.
      rewrite bind_run. pose proof (mark_spec s1 start len true (same_ok dev _ _ S01 W) ltac:(lia) ltac:(lia)) as Hm.
      rewrite (sw_super _ _ S01) in Hm. specialize (Hm ltac:(lia)). destruct (for_to _ _ _ s1) as [[u|] s2].
      * rewrite bind_run. pose proof (bump_spec _ _ _ (- len) (same_bits_step _ _ _ _ S01 Hm)) as Hb. destruct (bump_free_blocks _ s2) as [r s3].
        destruct Hb as [-> Hb]. split; [by eapply first_run_same|]. destruct Hb as [B1 B2 B3 B4 B5 B6 B7]. split; [done..| |done].
        intros b Hb0. rewrite B6 by done. by rewrite (same_bit dev _ _ b S01).
      * destruct Hm as (m & _ & Hm). eexists. split; [by eapply same_bits_step|]. intros b Hb. cbn beta. rewrite (same_bit dev _ _ b S01).
        by destruct ((start <=? b) && (b <? m)).
    + apply IH; [done|done| |lia]. apply scanned_free; [done|done|]. destruct Hsc. lia.
  - apply IH; [done|done| |lia]. by eapply scanned_used.
Qed.

Lemma alloc_spec s len :
  window_ok s -> 0 < len -> let '(r, s') := adytumfs_alloc_run dev len s in alloc_answer s len r s'.
Proof.
  intros W Hl. unfold adytumfs_alloc_run. rewrite (proj2 (Z.eqb_neq len 0)) by lia. rewrite bind_run. unfold the_super. cbv beta iota.
  apply alloc_scan_spec; [apply same_window_refl|done| |destruct (wo_layout _ _ W); lia].
  split; [lia|lia|lia|lia].
Qed.

Lemma free_spec s start len :
  window_ok s -> is_u64 start -> 0 <= len ->
  let '(r, s') := adytumfs_free_run dev start len s in
  match r with
  | Some _ => data_start (super s) <= start /\ 0 < len /\ start + len <= data_checksum_region (super s) /\
      count_step (fun b => if (start <=? b) && (b <? start + len) then false else bit s b) (u64 (free_blocks (super s) + len)) s s'
  | None => exists f, bits_step f s s' /\ forall b, 0 <= b < start \/ start + len <= b -> f b = bit s b
  end.
Proof.
  intros W Hs Hl. pose proof (wo_layout _ _ W) as [L1 L2 L3 L4 L5 L6 L7 L8 L9 L10]. pose proof (wo_total _ _ W) as Wt. unfold adytumfs_free_run. rewrite bind_run. unfold the_super. cbv beta iota.
  assert (exists f, bits_step f s s /\ forall b, 0 <= b < start \/ start + len <= b -> f b = bit s b) as Hnone.
  { exists (bit s). split; [apply bits_step_same; [done|apply same_window_refl]|done]. }
  destruct (Z.eqb_spec len 0) as [->|Hne]; [done|]. destruct (Z.ltb_spec start (data_start (super s))) as [|Hds]; [done|].
  destruct (Z.leb_spec (data_checksum_region (super s)) start) as [|Hre]; [done|]. cbn [orb]. change (2 ^ 29) with 536870912 in Wt.
  rewrite u64_small by (unfold is_u64 in *; lia). destruct (Z.ltb_spec (data_checksum_region (super s) - start) len) as [|Hle]; [done|].
  rewrite bind_run. pose proof (mark_spec s start len false W ltac:(unfold is_u64 in Hs; lia) Hl ltac:(lia)) as Hm.
  destruct (for_to _ _ _ s) as [[u|] s1].
  - pose proof (bump_spec _ _ _ len Hm) as Hb. destruct (bump_free_blocks len s1) as [r s2]. destruct Hb as [-> Hb]. do 3 (split; [lia|]). exact Hb.
  - destruct Hm as (m & Hr & Hm). eexists. split; [exact Hm|]. intros b Hb. cbn beta.
    destruct (Z.leb_spec start b), (Z.ltb_spec b m); done || lia.
Qed.

End Alloc.

(** The allocator of AdytumFS.  [adytumfs_alloc_run] takes the first run
    of data blocks that are free both in the window and in the committed
    bitmap, so no block of the generation a crash would go back to is handed
    out; it marks the run, no other bit, and takes its length off the count.
    When it fails, no block that was in use is free. *)
Theorem adytum_alloc_first_fit {D} `{FsDeviceLaws D} dev (s : fs D) len :
  window_ok dev s -> 0 < len ->
  let '(r, s') := adytumfs_alloc_run dev len s in
  match r with
  | Some start =>
      data_start (super s) <= start /\ start + len <= data_checksum_region (super s) /\
      (forall b, start <= b < start + len -> bit dev s b = false /\ committed_bit dev s b = false) /\
      (forall c, data_start (super s) <= c < start -> exists b, c <= b < c + len /\ (bit dev s b = true \/ committed_bit dev s b = true)) /\
      (forall b, 0 <= b -> bit dev s' b = if (start <=? b) && (b <? start + len) then true else bit dev s b) /\
      super s' = set_free_blocks (u64 (free_blocks (super s) - len)) (super s)
  | None => forall b, 0 <= b -> bit dev s b = true -> bit dev s' b = true
  end.
Proof.
  intros W Hl. pose proof (alloc_spec dev s len W Hl) as Ha. destruct (adytumfs_alloc_run dev len s) as [[start|] s'].
  - destruct Ha as [[F1 F2 F3] [_ Hs _ _ _ Hb _]]. split; [lia|]. split; [lia|]. split; [|split; [|split; [exact Hb|exact Hs]]].
    + intros b Hr. specialize (F2 b Hr). unfold vacant in F2. by destruct (bit dev s b), (committed_bit dev s b).
    + intros c Hc. destruct (F3 c Hc) as (b & Hr & Hv). exists b. split; [exact Hr|]. unfold vacant in Hv. destruct (bit dev s b), (committed_bit dev s b); auto.
  - destruct Ha as (f & B & Hf). intros b Hb0 Hb. rewrite (bs_bit _ _ _ _ B b Hb0). by apply Hf.
Qed.

Lemma adytum_alloc_first_fit_witness :
  let s := Fs nothing_staged formatted_super formatted in
  let '(r, s') := adytumfs_alloc_run 0 1 s in
  r = Some 3 /\ super s' = set_free_blocks 4 formatted_super /\ bit 0 s' 3 = true.
Proof.
  intros s. assert (window_ok 0 s) as W.
  { pose proof (nothing_held formatted_super formatted) as Hno.
    split; [split; cbn; lia|cbn; lia|cbn; lia|]. split; [intros e He|intros e He|intros e e' He]; by destruct (Hno e He). }
  pose proof (adytum_alloc_first_fit 0 s 1 W ltac:(lia)) as Ha.
  assert (fst (adytumfs_alloc_run 0 1 s) = Some 3) as Hr by (vm_compute; reflexivity).
  destruct (adytumfs_alloc_run 0 1 s) as [r s']. cbn [fst] in Hr. subst r. destruct Ha as (_ & _ & _ & _ & Hb & Hs).
  split; [reflexivity|]. split; [exact Hs|exact (Hb 3 ltac:(lia))].
Defined.

End AdytumAlloc.
