(* ===== verification/AdytumData.v ===== *)
(** AdytumFS: data blocks and their checksums, [adytumfs_data_read],
    [adytumfs_data_write], [adytumfs_data_check], [adytumfs_data_seal] and
    [adytumfs_block_zero] of [src/fs/adytumfs_volume.c]. *)

From S2P Require Import Prelude Wire Crc32c AdytumFormat AdytumVolume AdytumDevice AdytumCommit AdytumWindow.

Module AdytumData.
Import Wire AdytumFormat AdytumVolume AdytumDevice AdytumCommit AdytumWindow.

Definition zero_sector : list Z := replicate (Z.to_nat BLOCK_SECTOR_SIZE) 0.

Lemma zero_sectors k : 0 <= k < 8 -> sector zero_block k = zero_sector.
Proof.
  intros Hk. unfold sector, zero_block, zero_sector. rewrite drop_replicate, take_replicate. f_equal. unfold BLOCK_SECTOR_SIZE, ADYTUMFS_BLOCK_SIZE. lia.
Qed.

#[local] Opaque crc32c zero_block sector.

(** A data block of the volume. *)
Definition data_block (super : adytumfs_superblock) (b : Z) : Prop := data_start super <= b < data_checksum_region super.

Definition sum_block (super : adytumfs_superblock) (b : Z) : Z := data_checksum_region super + (b - data_start super) / 1024.

Definition sum_offset (super : adytumfs_superblock) (b : Z) : Z := ((b - data_start super) mod 1024) * 4.

(** ** The place of a checksum *)

Section Place.
Context (super : adytumfs_superblock) (L : layout super) (Ht : total_blocks super <= 2 ^ 29).

Lemma sum_place b :
  data_block super b ->
  data_checksum_region super <= sum_block super b < total_blocks super - 1 - block_bitmap_blocks super - inode_table_blocks super /\
  0 <= sum_offset super b <= 4092 /\ sum_offset super b mod 4 = 0.
Proof.
  intros Hb. destruct L as [L1 L2 L3 L4 L5 L6 L7 L8 L9 L10]. unfold data_block in Hb. unfold sum_block, sum_offset.
  pose proof (Z.mod_pos_bound (b - data_start super) 1024 ltac:(lia)). pose proof (Z.div_pos (b - data_start super) 1024 ltac:(lia)).
  assert ((b - data_start super) / 1024 < total_blocks super - 1 - block_bitmap_blocks super - inode_table_blocks super - data_checksum_region super)
    by (apply Z.div_lt_upper_bound; lia).
  split; [lia|]. split; [lia|apply Z.mod_mul; lia].
Qed.

Lemma sum_place_inj b b' :
  data_block super b -> data_block super b' -> b <> b' -> sum_block super b = sum_block super b' -> sum_offset super b <> sum_offset super b'.
Proof.
  unfold data_block, sum_block, sum_offset. intros Hb Hb' Hne Hs Ho. apply Hne.
  pose proof (Z.div_mod (b - data_start super) 1024 ltac:(lia)). pose proof (Z.div_mod (b' - data_start super) 1024 ltac:(lia)). lia.
Qed.

Lemma checksum_entry_data b : data_block super b -> checksum_entry super b = Some (sum_block super b, sum_offset super b).
Proof.
  intros Hb. destruct (sum_place b Hb) as [H1 H2]. destruct L as [L1 L2 L3 L4 L5 L6 L7 L8 L9 L10]. unfold data_block in Hb.
  change (2 ^ 29) with 536870912 in Ht. unfold checksum_entry. rewrite (proj2 (Z.ltb_ge _ _)), (proj2 (Z.leb_gt _ _)) by lia. cbn [orb].
  unfold ADYTUMFS_CHECKSUMS_PER_BLOCK. unfold sum_block, sum_offset in *.
  rewrite !(u64_small (b - _)) by (unfold is_u64; lia). rewrite u64_small by (unfold is_u64; lia). reflexivity.
Qed.

Lemma checksum_entry_none b : ~ data_block super b -> checksum_entry super b = None.
Proof.
  intros Hb. unfold checksum_entry, data_block in *. destruct (Z.ltb_spec b (data_start super)); [done|].
  destruct (Z.leb_spec (data_checksum_region super) b); [done|lia].
Qed.

End Place.

Section Data.
Context {D : Type} `{FsDeviceLaws D}.
Context (dev : Z).
Implicit Types (s : fs D) (d : D).

(** ** A write that reaches a part of its sectors *)

(** Every sector is of [bytes] or of [old]. *)
Lemma torn_at d b bytes old j :
  0 <= j < 4096 ->
  (forall x, in_block b x -> seen d dev x = sector bytes (x - 8 * b) \/ seen d dev x = sector old (x - 8 * b)) ->
  at_ (content d dev b) j = at_ bytes j \/ at_ (content d dev b) j = at_ old j.
Proof.
  intros Hj Hs. assert (0 <= j / 512 < 8) as Hk by (split; [apply Z.div_pos; lia|apply Z.div_lt_upper_bound; lia]).
  assert (in_block b (8 * b + j / 512)) as Hx by (unfold in_block; lia).
  pose proof (sector_block_of (seen d dev) b _ ltac:(intros y; apply seen_sector) Hx) as E.
  replace (8 * b + j / 512 - 8 * b) with (j / 512) in * by lia. rewrite (at_sector (content d dev b)) by lia. unfold content at 1 2. rewrite E.
  specialize (Hs _ Hx). replace (8 * b + j / 512 - 8 * b) with (j / 512) in Hs by lia.
  destruct Hs as [->| ->]; [left|right]; symmetry; apply at_sector; lia.
Qed.

Lemma block_write_torn b bytes s j :
  0 <= b < 2 ^ 29 -> is_block bytes -> 0 <= j < 4096 ->
  let s' := snd (adytumfs_block_write dev b bytes s) in
  at_ (content (disk s') dev b) j = at_ bytes j \/ at_ (content (disk s') dev b) j = at_ (content (disk s) dev b) j.
Proof.
  intros Hb Hy Hj. pose proof (block_write_spec dev b bytes s Hb Hy) as Hw. destruct (adytumfs_block_write dev b bytes s) as [r s'].
  destruct Hw as (_ & _ & _ & _ & Ht & _). apply torn_at; [done|]. intros x Hx.
  unfold content. rewrite (sector_block_of (seen (disk s) dev) b x (fun y => proj1 (seen_sector _ _ y)) Hx). by apply Ht.
Qed.

(** ** Checksums *)

(** The checksum that the region has for the block [b]. *)
Definition checksum s (b : Z) : Z := adytumfs_read_le32 (content (disk s) dev (sum_block (super s) b)) (sum_offset (super s) b).

Definition sealed s (b : Z) : Prop := checksum s b = crc32c (content (disk s) dev b) ADYTUMFS_BLOCK_SIZE.

(** A step on the device alone that writes inside of [P]; the other blocks and
    the checksums of the blocks outside of [Q] are kept. *)
Record data_step (P Q : Z -> Prop) s s' : Prop := {
  ds_staging : staging s' = staging s;
  ds_super : super s' = super s;
  ds_kept : kept (fun i x => i = dev /\ exists b, P b /\ in_block b x) (disk s) (disk s');
  ds_sums : forall b, data_block (super s) b -> ~ Q b -> checksum s' b = checksum s b
}.

Lemma data_step_content P Q s s' b : data_step P Q s s' -> ~ P b -> content (disk s') dev b = content (disk s) dev b.
Proof. intros [_ _ K _] Hb. apply (kept_content _ _ _ _ _ K). intros x Hx (_ & b' & Hp & Hx'). by rewrite (in_block_unique _ _ _ Hx Hx') in Hb. Qed.

Lemma data_step_trans P Q s1 s2 s3 : data_step P Q s1 s2 -> data_step P Q s2 s3 -> data_step P Q s1 s3.
Proof.
  intros [A1 B1 C1 E1] [A2 B2 C2 E2]. split; [congruence|congruence|by eapply media_kept_trans|]. intros b Hb Hq. rewrite E2, E1; [done|done|done|by rewrite B1|done].
Qed.

Lemma data_step_weaken (P P' Q Q' : Z -> Prop) s s' :
  (forall b, P b -> P' b) -> (forall b, Q b -> Q' b) -> data_step P Q s s' -> data_step P' Q' s s'.
Proof.
  intros HP HQ [A B C E]. split; [done|done| |]; [|intros b Hb Hq; apply E; auto].
  eapply kept_weaken; [|exact C]. intros i x (Hi & b & Hp & Hx). split; [done|]. exists b. auto.
Qed.

Lemma same_data P Q s s' : same_window s s' -> data_step P Q s s'.
Proof.
  intros [A B K]. split; [done|done| |].
  - eapply kept_weaken; [|exact K]. intros i x [].
  - intros b _ _. unfold checksum. by rewrite B, (kept_nowhere_content dev _ _ _ K).
Qed.

Section Volume.
Context (s : fs D) (W : window_ok dev s).

Lemma data_check_spec b bytes :
  data_block (super s) b ->
  let '(r, s') := adytumfs_data_check dev b bytes s in
  same_window s s' /\ (r = Some tt -> checksum s b = crc32c bytes ADYTUMFS_BLOCK_SIZE).
Proof.
  intros Hb. destruct (sum_place (super s) (wo_layout _ _ W) b Hb) as [Hp _]. pose proof (wo_total _ _ W) as Wt. pose proof (wo_layout _ _ W) as [].
  unfold adytumfs_data_check. rewrite bind_run. unfold the_super. cbv beta iota. rewrite (checksum_entry_data _ (wo_layout _ _ W) Wt b Hb), bind_run.
  pose proof (block_read_spec dev (sum_block (super s) b) s ltac:(lia)) as Hr. destruct (adytumfs_block_read _ _ s) as [[bs|] s1]; destruct Hr as (A & B & K & Hc); [|split; [split; assumption|discriminate]].
  rewrite (Hc bs eq_refl). fold (checksum s b).
  destruct (Z.eqb_spec (checksum s b) (crc32c bytes ADYTUMFS_BLOCK_SIZE)) as [He|_]; (split; [split; assumption|]); [intros _; exact He|discriminate].
Qed.

(** The bytes of an entry of the region, off the entry of another block. *)
Lemma sum_bytes_apart b b' k :
  data_block (super s) b -> data_block (super s) b' -> b' <> b -> sum_block (super s) b' = sum_block (super s) b -> 0 <= k < 4 ->
  sum_offset (super s) b' + k < sum_offset (super s) b \/ sum_offset (super s) b + 4 <= sum_offset (super s) b' + k.
Proof.
  intros Hb Hb' Hne Hs Hk. pose proof (sum_place_inj (super s) b b' Hb Hb' ltac:(done) ltac:(done)) as Ho.
  destruct (sum_place (super s) (wo_layout _ _ W) b Hb) as (_ & _ & Hm). destruct (sum_place (super s) (wo_layout _ _ W) b' Hb') as (_ & _ & Hm').
  pose proof (Z.div_mod (sum_offset (super s) b) 4 ltac:(lia)). pose proof (Z.div_mod (sum_offset (super s) b') 4 ltac:(lia)). lia.
Qed.

Lemma data_seal_spec b bytes :
  data_block (super s) b -> is_block bytes ->
  let '(r, s') := adytumfs_data_seal dev b bytes s in
  data_step (eq (sum_block (super s) b)) (eq b) s s' /\ (r = Some tt -> checksum s' b = crc32c bytes ADYTUMFS_BLOCK_SIZE).
Proof.
  intros Hb [Hl Hy]. destruct (sum_place (super s) (wo_layout _ _ W) b Hb) as (Hp & Ho & _). pose proof (wo_total _ _ W) as Wt. pose proof (wo_layout _ _ W) as L. pose proof L as [].
  assert (0 <= sum_block (super s) b < 2 ^ 29) as Hr by lia.
  unfold adytumfs_data_seal. rewrite bind_run. unfold the_super. cbv beta iota. rewrite (checksum_entry_data _ L Wt b Hb), bind_run.
  pose proof (block_read_spec dev (sum_block (super s) b) s Hr) as Hrd. destruct (adytumfs_block_read _ _ s) as [[bs|] s1]; destruct Hrd as (A & B & K & Hc);
    [|split; [apply same_data; split; assumption|discriminate]].
  pose proof (Hc bs eq_refl) as ->. clear Hc. assert (same_window s s1) as S1 by done.
  set (c := crc32c bytes ADYTUMFS_BLOCK_SIZE). set (old := content (disk s) dev (sum_block (super s) b)).
  pose proof (content_block (disk s) dev (sum_block (super s) b)) as [Ol Oy]. fold old in Ol, Oy.
  set (new := adytumfs_write_le32 old (sum_offset (super s) b) c).
  assert (is_block new) as Hn.
  { split; [unfold new; rewrite write_le32_length; lia|]. apply put_bytes; [done|apply le_bytes]. }
  pose proof (block_write_torn (sum_block (super s) b) new s1) as Ht.
  pose proof (block_write_spec dev (sum_block (super s) b) new s1 Hr Hn) as Hw.
  destruct (adytumfs_block_write dev (sum_block (super s) b) new s1) as [r s2]. cbn [snd] in Ht. destruct Hw as (A2 & B2 & K2 & Hc2 & _).
  rewrite (kept_nowhere_content dev _ _ _ K) in Ht. fold old in Ht.
  split; [split; [congruence|congruence| |]|].
  - eapply media_kept_trans; [eapply kept_weaken; [|exact K]; intros i x []|]. eapply kept_weaken; [|exact K2]. intros i x [-> Hx]. split; [done|]. by eexists.
  - intros b' Hb' Hne. unfold checksum. rewrite B2, B. destruct (sum_place (super s) L b' Hb') as (_ & Ho' & _).
    destruct (decide (sum_block (super s) b' = sum_block (super s) b)) as [He|He].
    + rewrite He. fold old. apply read_le32_ext. intros k Hk. pose proof (sum_bytes_apart b b' k Hb Hb' ltac:(congruence) He Hk) as Hap.
      destruct (Ht (sum_offset (super s) b' + k) Hr Hn ltac:(lia)) as [->| ->]; [|done].
      unfold new, adytumfs_write_le32. apply at_put_other; cbn [length le32]; lia.
    + f_equal. rewrite (kept_content _ _ _ _ _ K2); [apply (kept_nowhere_content dev _ _ _ K)|].
      intros x Hx [_ Hx']. apply He. by eapply in_block_unique.
  - intros ->. unfold checksum. rewrite B2, B, (Hc2 eq_refl). unfold new. rewrite read_write_le32 by lia.
    apply u32_small, crc32c_range; [done|]. unfold ADYTUMFS_BLOCK_SIZE. lia.
Qed.

End Volume.

Lemma data_range s b : window_ok dev s -> data_block (super s) b -> 0 <= b < 2 ^ 29 /\ b <> sum_block (super s) b.
Proof.
  intros [W1 W2 _ _] Hb. destruct (sum_place (super s) W1 b Hb) as (Hp & _). destruct W1. unfold data_block in Hb. lia.
Qed.

(** A read that succeeds answers the block, and its checksum agrees. *)
Lemma data_read_spec s b :
  window_ok dev s -> data_block (super s) b ->
  let '(r, s') := adytumfs_data_read dev b s in
  same_window s s' /\ forall bytes, r = Some bytes -> bytes = content (disk s) dev b /\ sealed s b.
Proof.
  intros W Hb. unfold adytumfs_data_read. rewrite bind_run. pose proof (block_read_spec dev b s (proj1 (data_range s b W Hb))) as Hrd.
  destruct (adytumfs_block_read _ _ s) as [[bs|] s1]; destruct Hrd as (A & B & K & Hc); [|split; [split; assumption|discriminate]].
  assert (same_window s s1) as S1 by done. pose proof (Hc bs eq_refl) as ->. rewrite bind_run.
  pose proof (data_check_spec s1 (same_ok dev _ _ S1 W) b (content (disk s) dev b)) as Hk. rewrite B in Hk. specialize (Hk Hb).
  destruct (adytumfs_data_check _ _ _ s1) as [[[]|] s2]; destruct Hk as [S2 Hk]; (split; [by eapply same_window_trans|]); [|done].
  intros ? [= <-]. split; [done|]. unfold sealed. rewrite <- (Hk eq_refl). unfold checksum. by rewrite B, (kept_nowhere_content dev _ _ _ K).
Qed.

(** A change of the data block alone, and its checksum after that. *)
Section Sealing.
Context (s s1 : fs D) (b : Z) (W : window_ok dev s) (Hb : data_block (super s) b).
Context (A : staging s1 = staging s) (B : super s1 = super s) (K : kept (at_block dev b) (disk s) (disk s1)).

Lemma own_step : data_step (fun c => c = b \/ c = sum_block (super s) b) (eq b) s s1.
Proof.
  split; [exact A|exact B| |].
  - eapply kept_weaken; [|exact K]. intros i x [-> Hx]. split; [reflexivity|]. exists b. auto.
  - intros b' Hb' _. unfold checksum. rewrite B. f_equal. apply (kept_content _ _ _ _ _ K). intros x Hx [_ Hx'].
    pose proof (in_block_unique _ _ _ Hx Hx') as <-. destruct (sum_place (super s) (wo_layout _ _ W) b' Hb') as (Hp & _). unfold data_block in Hb. lia.
Qed.

Lemma seal_step bytes :
  is_block bytes -> content (disk s1) dev b = bytes ->
  let '(r, s2) := adytumfs_data_seal dev b bytes s1 in
  data_step (fun c => c = b \/ c = sum_block (super s) b) (eq b) s s2 /\
  (r = Some tt -> content (disk s2) dev b = bytes /\ sealed s2 b).
Proof.
  intros Hy Hc. destruct (data_range s b W Hb) as [_ Hne]. pose proof (data_seal_spec s1 (window_ok_ext dev _ _ A B W) b bytes) as Hs. rewrite B in Hs.
  specialize (Hs Hb Hy). destruct (adytumfs_data_seal dev b bytes s1) as [r s2]. destruct Hs as [S2 Hs]. split.
  - eapply data_step_trans; [exact own_step|]. eapply data_step_weaken; [| |exact S2]; [intros c <-; right; reflexivity|intros c Hq; exact Hq].
  - intros ->. assert (content (disk s2) dev b = bytes) as E.
    { rewrite (data_step_content _ _ _ _ b S2); [exact Hc|]. intros He. apply Hne. symmetry. exact He. }
    split; [exact E|]. unfold sealed. rewrite E. apply Hs. reflexivity.
Qed.

End Sealing.

Lemma data_write_spec s b bytes :
  window_ok dev s -> data_block (super s) b -> is_block bytes ->
  let '(r, s') := adytumfs_data_write dev b bytes s in
  data_step (fun c => c = b \/ c = sum_block (super s) b) (eq b) s s' /\
  (r = Some tt -> content (disk s') dev b = bytes /\ sealed s' b).
Proof.
  intros W Hb Hy. unfold adytumfs_data_write. rewrite bind_run.
  pose proof (block_write_spec dev b bytes s (proj1 (data_range s b W Hb)) Hy) as Hw. destruct (adytumfs_block_write dev b bytes s) as [[[]|] s1]; destruct Hw as (A & B & K & Hc & _).
  - apply seal_step; auto.
  - split; [by apply own_step|discriminate].
Qed.

(** ** A zeroed block *)

(** The direct writes of [adytumfs_block_zero], after the block has left the
    cache. *)
Lemma zero_loop s b :
  0 <= b < 2 ^ 29 -> ~ cached (disk s) dev b ->
  let '(r, s') := for_to 0 ADYTUMFS_SECTORS_PER_BLOCK (fun k =>
      ok ← on_disk (block_io_write dev (u32 (8 * b + k)) (replicate (Z.to_nat BLOCK_SECTOR_SIZE) 0));
      if ok : bool then mret tt else fail) s in
  staging s' = staging s /\ super s' = super s /\ kept (at_block dev b) (disk s) (disk s') /\
  (r = Some tt -> content (disk s') dev b = zero_block).
Proof.
  intros Hb Hc. change (2 ^ 29) with 536870912 in Hb.
  pose (P s' := staging s' = staging s /\ super s' = super s /\ kept (at_block dev b) (disk s) (disk s') /\ ~ cached (disk s') dev b).
  pose (I i s' := P s' /\ forall k, 0 <= k < i -> stored (disk s') dev (8 * b + k) = zero_sector).
  fold zero_sector. set (body := fun k => _ ← _; _).
  assert (match for_to 0 ADYTUMFS_SECTORS_PER_BLOCK body s with (Some _, s') => I ADYTUMFS_SECTORS_PER_BLOCK s' | (None, s') => P s' end) as Hind.
  { apply (for_to_ind I P 0 ADYTUMFS_SECTORS_PER_BLOCK).
    - split; [split; [done|split; [done|split; [apply media_kept_refl|done]]]|lia].
    - intros i s1 Hi [(A & B & K & C) Hz]. unfold ADYTUMFS_SECTORS_PER_BLOCK in Hi. unfold body. rewrite bind_run. unfold on_disk.
      rewrite u32_small by (unfold is_u32; lia).
      pose proof (io_law dev (8 * b + i) zero_sector (disk s1) ltac:(lia) eq_refl ltac:(apply Forall_replicate; unfold is_u8; lia)) as Hio.
      destruct (block_io_write dev (8 * b + i) zero_sector (disk s1)) as [ok d']. destruct Hio as (H1 & H2 & H3 & H4 & H5). cbv beta iota.
      assert (forall j y, ~ at_block dev b j y -> ~ (j = dev /\ y = 8 * b + i)) as Hout.
      { intros j y Hn [-> ->]. apply Hn. split; [done|]. unfold in_block. lia. }
      assert (P (Fs (staging s1) (super s1) d')) as HP.
      { split; [done|]. split; [done|]. cbn [disk]. split; [|by rewrite H2]. eapply media_kept_trans; [exact K|]. split.
        - intros j y Hn. apply H1. by apply Hout.
        - intros j y Hn. left. apply H3. by apply Hout.
        - intros st Hst. destruct (H5 st Hst) as [?|Hp]; [auto|]. right. intros j y Hn. left. apply Hp. by apply Hout. }
      destruct ok; [|done]. split; [done|]. cbn [disk]. intros k Hk. destruct (decide (k = i)) as [->|Hne]; [by apply H4|].
      rewrite H3 by (intros [_ ?]; lia). apply Hz. lia. }
  destruct (for_to 0 ADYTUMFS_SECTORS_PER_BLOCK body s) as [[[]|] s'].
  - destruct Hind as [(A & B & K & C) Hz]. do 3 (split; [done|]). intros _. apply block_of_sectors; [apply zero_length|]. intros x Hx. unfold in_block in Hx.
    rewrite zero_sectors by lia. rewrite cached_not.
    + replace x with (8 * b + (x - 8 * b)) by lia. apply Hz. unfold ADYTUMFS_SECTORS_PER_BLOCK. lia.
    + replace (x / 8) with b; [done|]. apply Z.div_unique with (r := x - 8 * b); lia.
  - destruct Hind as (A & B & K & C). done.
Qed.

Lemma block_zero_spec s b :
  window_ok dev s -> data_block (super s) b ->
  let '(r, s') := adytumfs_block_zero dev b s in
  data_step (fun c => c = b \/ c = sum_block (super s) b) (eq b) s s' /\
  (r = Some tt -> content (disk s') dev b = zero_block /\ sealed s' b).
Proof.
  intros W Hb. destruct (data_range s b W Hb) as [Hr Hne]. unfold adytumfs_block_zero. rewrite (lba_small b Hr). rewrite bind_run. unfold on_disk at 1. cbv beta iota.
  pose proof (invalidate_kept dev b (disk s) Hr) as K0. destruct (invalidate_law dev b (disk s) Hr) as (_ & Hc & _).
  fold ADYTUMFS_SECTORS_PER_BLOCK in K0, Hc. set (s0 := Fs (staging s) (super s) _). rewrite bind_run.
  pose proof (zero_loop s0 b Hr Hc) as Hz. destruct (for_to _ _ _ s0) as [[[]|] s1]; destruct Hz as (A & B & K & Hz);
    pose proof (media_kept_trans _ _ _ _ K0 K) as K1.
  - apply seal_step; auto. split; [apply zero_length|apply zero_bytes].
  - split; [by apply own_step|discriminate].
Qed.

End Data.

End AdytumData.
