(* ===== verification/AdytumInode.v ===== *)
(** AdytumFS: inodes and their extents, [src/fs/adytumfs_inode.c].

    An inode in memory is a value: a call that changes it answers the new one.
    No caller keeps an inode after a failed call. *)

From S2P Require Import Prelude Wire AdytumFormat AdytumVolume.

Module AdytumInode.
Import Wire AdytumFormat AdytumVolume.

Definition set_mode (m : Z) (i : adytumfs_inode) : adytumfs_inode :=
  Inode m (links i) (uid i) (gid i) (flags i) (size i) (blocks i) (atime i) (mtime i) (ctime i) (inode_generation i)
    (direct i) (indirect1 i) (indirect2 i) (atime_nsec i) (mtime_nsec i) (ctime_nsec i).

Definition set_extents (l : list adytumfs_extent) (n : Z) (i : adytumfs_inode) : adytumfs_inode :=
  Inode (mode i) (links i) (uid i) (gid i) (flags i) (size i) n (atime i) (mtime i) (ctime i) (inode_generation i)
    l (indirect1 i) (indirect2 i) (atime_nsec i) (mtime_nsec i) (ctime_nsec i).

Definition set_inode_size (n : Z) (i : adytumfs_inode) : adytumfs_inode :=
  Inode (mode i) (links i) (uid i) (gid i) (flags i) n (blocks i) (atime i) (mtime i) (ctime i) (inode_generation i)
    (direct i) (indirect1 i) (indirect2 i) (atime_nsec i) (mtime_nsec i) (ctime_nsec i).

(** [mtime] and [ctime] together. *)
Definition set_times (now : Z) (i : adytumfs_inode) : adytumfs_inode :=
  Inode (mode i) (links i) (uid i) (gid i) (flags i) (size i) (blocks i) (atime i) now now (inode_generation i)
    (direct i) (indirect1 i) (indirect2 i) (atime_nsec i) (mtime_nsec i) (ctime_nsec i).

(** A new inode in a slot whose last generation was [gen]. *)
Definition fresh_inode (m gen now now_nsec : Z) : adytumfs_inode :=
  Inode m (if nz (Z.land m ADYTUMFS_MODE_DIR) then 2 else 1) 0 0 0 0 0 now now now (u64 (gen + 1)) no_extents 0 0
    now_nsec now_nsec now_nsec.

(** ** Extents *)

(** The loop of [adytumfs_inode_map]; [base] blocks lie before the list. *)
Fixpoint map_scan (l : list adytumfs_extent) (base logical_block : Z) : option Z :=
  match l with
  | [] => None
  | e :: l =>
      if ext_length e =? 0 then None else
      if logical_block <? u64 (base + ext_length e) then Some (u64 (start_block e + (logical_block - base)))
      else map_scan l (u64 (base + ext_length e)) logical_block
  end.

Definition adytumfs_inode_map (inode : adytumfs_inode) (logical_block : Z) : option Z := map_scan (direct inode) 0 logical_block.

(** How many extents before the first of length 0. *)
Fixpoint extent_count (l : list adytumfs_extent) : nat :=
  match l with
  | [] => 0
  | e :: l => if ext_length e =? 0 then 0 else S (extent_count l)
  end.

(** The extents after a run of [add] blocks at [start]; [None] when no slot is
    left. *)
Definition append_run (l : list adytumfs_extent) (start add : Z) : option (list adytumfs_extent) :=
  let have := extent_count l in
  let last := extent_at l (Z.of_nat have - 1) in
  if negb (Nat.eqb have 0) && (u64 (start_block last + ext_length last) =? start) then
    Some (<[(have - 1)%nat := Extent (start_block last) (u32 (ext_length last + u32 add)) (ext_flags last)]> l)
  else if Nat.leb (Z.to_nat ADYTUMFS_DIRECT_EXTENTS) have then None
  else Some (<[have := Extent start (u32 add) 0]> l).

(** The extent that covers a logical block: its index and the offset in it. *)
Fixpoint covering (l : list adytumfs_extent) (index : nat) (base logical : Z) : option (nat * Z) :=
  match l with
  | [] => None
  | e :: l =>
      if (logical <? base) || (u64 (base + ext_length e) <=? logical) then covering l (S index) (u64 (base + ext_length e)) logical
      else Some (index, logical - base)
  end.

(** What replaces the extent. *)
Definition pieces (e : adytumfs_extent) (offset fresh : Z) : list adytumfs_extent :=
  (if nz offset then [Extent (start_block e) (u32 offset) 0] else []) ++
  Extent fresh 1 0 ::
  (if offset + 1 <? ext_length e then [Extent (u64 (start_block e + offset + 1)) (u32 (ext_length e - offset - 1)) 0] else []).

(** One round of the merge, on the extents so far, last one first. *)
Definition compact_step (done : list adytumfs_extent) (e : adytumfs_extent) : list adytumfs_extent :=
  match done with
  | last :: rest =>
      if start_block e =? u64 (start_block last + ext_length last)
      then Extent (start_block last) (u32 (ext_length last + ext_length e)) (ext_flags last) :: rest
      else e :: done
  | [] => [e]
  end.

Definition compact (l : list adytumfs_extent) : list adytumfs_extent := rev (foldl compact_step [] l).

Definition pad (l : list adytumfs_extent) : list adytumfs_extent :=
  l ++ replicate (Z.to_nat ADYTUMFS_DIRECT_EXTENTS - length l) no_extent.

Definition adytumfs_extent_reroute (inode : adytumfs_inode) (logical fresh : Z) : option adytumfs_inode :=
  let extents := extent_count (direct inode) in
  let live := take extents (direct inode) in
  match covering live 0 0 logical with
  | None => None
  | Some (index, offset) =>
      let parts := pieces (extent_at (direct inode) (Z.of_nat index)) offset fresh in
      if Nat.ltb (Z.to_nat ADYTUMFS_DIRECT_EXTENTS) (extents - 1 + length parts) then None else
      let rebuilt := take index live ++ parts ++ drop (S index) live in
      Some (set_extents (pad (compact rebuilt)) (blocks inode) inode)
  end.

(** ** The table *)

Section Inode.
Context {D : Type} `{FsDevice D}.

Definition wall_clock_nsec : act D Z := fun s => (Some (rtc64_wall_clock_nsec (disk s)), s).

(** A helper that can answer nothing, as a failure. *)
Definition or_fail {A} (r : option A) : act D A := match r with Some a => mret a | None => fail end.

Definition adytumfs_inode_read (device inode_num : Z) : act D adytumfs_inode :=
  super ← the_super;
  if (inode_num =? 0) || (inode_count super <=? inode_num) then fail else
  let block := u32 (inode_num / ADYTUMFS_INODES_PER_BLOCK) in
  let slot := u32 (u32 (inode_num mod ADYTUMFS_INODES_PER_BLOCK) * ADYTUMFS_INODE_SIZE) in
  scratch ← adytumfs_table_read device block;
  or_fail (adytumfs_inode_unpack (drop (Z.to_nat slot) scratch)).

Definition adytumfs_inode_write (device inode_num : Z) (inode : adytumfs_inode) : act D unit :=
  super ← the_super;
  if (inode_num =? 0) || (inode_count super <=? inode_num) then fail else
  let block := u32 (inode_num / ADYTUMFS_INODES_PER_BLOCK) in
  let slot := u32 (u32 (inode_num mod ADYTUMFS_INODES_PER_BLOCK) * ADYTUMFS_INODE_SIZE) in
  scratch ← adytumfs_table_read device block;
  adytumfs_table_stage device block (put scratch slot (adytumfs_inode_pack inode)).

Definition set_free_inodes (n : Z) (super : adytumfs_superblock) : adytumfs_superblock :=
  Superblock (format_version super) (block_size super) (total_blocks super) (block_bitmap_start super)
    (block_bitmap_blocks super) (inode_table_start super) (inode_table_blocks super) (inode_count super)
    (root_inode super) (data_start super) (free_blocks super) n (generation super)
    (feature_compat super) (feature_incompat super) (feature_ro_compat super) (data_checksum_region super)
    (active_slot super).

Definition bump_free_inodes (n : Z) : act D unit :=
  super ← the_super; set_super (set_free_inodes (u64 (free_inodes super + n)) super).

(** The loop of [adytumfs_inode_alloc] over [n] more candidates. *)
Fixpoint inode_scan (n : nat) (device mode' candidate : Z) : act D Z :=
  match n with
  | O => fail
  | S n =>
      inode ← adytumfs_inode_read device candidate;
      if nz (mode inode) then inode_scan n device mode' (candidate + 1) else
      now ← wall_clock;
      now_nsec ← wall_clock_nsec;
      _ ← adytumfs_inode_write device candidate (fresh_inode mode' (inode_generation inode) now now_nsec);
      _ ← bump_free_inodes (-1);
      mret candidate
  end.

Definition adytumfs_inode_alloc (device mode : Z) : act D Z :=
  super ← the_super;
  if mode =? 0 then fail else inode_scan (Z.to_nat (inode_count super - 1)) device mode 1.

Definition adytumfs_inode_free (device inode_num : Z) : act D unit :=
  super ← the_super;
  if (inode_num =? 0) || (inode_count super <=? inode_num) then fail else
  inode ← adytumfs_inode_read device inode_num;
  if mode inode =? 0 then fail else
  _ ← adytumfs_inode_write device inode_num (set_mode 0 inode);
  bump_free_inodes 1.

(** ** Growing and shrinking *)

(** A call whose answer is not looked at. *)
Definition ignore {A} (m : act D A) : act D unit := fun s => (Some tt, snd (m s)).

Definition adytumfs_inode_grow (device : Z) (inode : adytumfs_inode) (new_blocks : Z) : act D adytumfs_inode :=
  if new_blocks <=? blocks inode then mret inode else
  let add := new_blocks - blocks inode in
  start ← adytumfs_alloc_run device add;
  match append_run (direct inode) start add with
  | None => _ ← ignore (adytumfs_free_run device start add); fail
  | Some l =>
      _ ← for_to start (start + add) (fun block => adytumfs_block_zero device block);
      mret (set_extents l new_blocks inode)
  end.

(** The loop of [adytumfs_inode_truncate] over the extents from [base] on. *)
Fixpoint truncate_scan (device : Z) (l : list adytumfs_extent) (base new_blocks : Z) : act D (list adytumfs_extent) :=
  match l with
  | [] => mret []
  | e :: rest =>
      let length := ext_length e in
      if length =? 0 then mret l else
      let end' := u64 (base + length) in
      e' ← (if new_blocks <=? base then
              _ ← adytumfs_free_run device (start_block e) length;
              mret no_extent
            else if new_blocks <? end' then
              let keep := new_blocks - base in
              _ ← adytumfs_free_run device (u64 (start_block e + keep)) (length - keep);
              mret (Extent (start_block e) (u32 keep) (ext_flags e))
            else mret e);
      rest' ← truncate_scan device rest end' new_blocks;
      mret (e' :: rest')
  end.

Definition adytumfs_inode_truncate (device : Z) (inode : adytumfs_inode) (new_blocks : Z) : act D adytumfs_inode :=
  if blocks inode <=? new_blocks then mret inode else
  l ← truncate_scan device (direct inode) 0 new_blocks;
  mret (set_extents l new_blocks inode).

(** ** Redirected writes *)

(** The block that holds the logical block, and a new one. *)
Definition adytumfs_redirect_stage (device : Z) (inode : adytumfs_inode) (logical : Z) : act D (Z * Z) :=
  old_block ← or_fail (adytumfs_inode_map inode logical);
  fresh_block ← adytumfs_alloc_run device 1;
  mret (old_block, fresh_block).

(** [m], and [undo] when it fails. *)
Definition or_undo {A} (m : act D A) (undo : act D unit) : act D A :=
  fun s => match m s with
    | (Some a, s) => (Some a, s)
    | (None, s) => (None, snd (undo s))
    end.

Definition adytumfs_redirect_commit (device : Z) (inode : adytumfs_inode) (inode_num logical old_block fresh_block : Z) :
    act D adytumfs_inode :=
  match adytumfs_extent_reroute inode logical fresh_block with
  | None => _ ← adytumfs_free_run device fresh_block 1; fail
  | Some inode =>
      _ ← or_undo (adytumfs_inode_write device inode_num inode) (adytumfs_free_run device fresh_block 1);
      _ ← adytumfs_free_run device old_block 1;
      mret inode
  end.

Definition adytumfs_inode_remap (device : Z) (inode : adytumfs_inode) (inode_num logical : Z) (bytes : list Z) :
    act D adytumfs_inode :=
  r ← adytumfs_redirect_stage device inode logical;
  let '(old_block, fresh_block) := r in
  _ ← or_undo (adytumfs_data_write device fresh_block bytes) (adytumfs_free_run device fresh_block 1);
  adytumfs_redirect_commit device inode inode_num logical old_block fresh_block.

End Inode.

End AdytumInode.
