(* ===== verification/AdytumExtents.v ===== *)
(** AdytumFS: the extents of an inode are the list of its blocks.

    [blocks_of] is that list.  Mapping a logical block is a lookup in it, a
    redirected block an update, a grown file an append. *)

From S2P Require Import Prelude Wire AdytumFormat AdytumVolume AdytumInode.

Module AdytumExtents.
Import Wire AdytumFormat AdytumVolume AdytumInode.

(** The blocks of one extent, and of the extents before the first empty one. *)
Definition run_of (e : adytumfs_extent) : list Z := seqZ (start_block e) (ext_length e).

Definition runs (l : list adytumfs_extent) : list Z := concat (map run_of l).

Definition blocks_of (l : list adytumfs_extent) : list Z := runs (take (extent_count l) l).

(** Blocks have numbers below [2 ^ 32] in every extent; the live extents come
    first and the others are empty. *)
Definition extent_ok (e : adytumfs_extent) : Prop := 0 <= start_block e /\ 0 <= ext_length e /\ start_block e + ext_length e < 2 ^ 32.

Definition live (e : adytumfs_extent) : Prop := extent_ok e /\ 0 < ext_length e.

Record packed (l : list adytumfs_extent) : Prop := {
  pk_length : length l = 10%nat;
  pk_live : Forall live (take (extent_count l) l);
  pk_empty : Forall (fun e => ext_length e = 0) (drop (extent_count l) l);
  pk_total : Z.of_nat (length (blocks_of l)) < 2 ^ 32
}.

Lemma extent_count_le l : (extent_count l <= length l)%nat.
Proof. induction l as [|e l IH]; cbn [extent_count length]; [lia|]. destruct (ext_length e =? 0); lia. Qed.

Lemma extent_count_app l e rest : Forall live l -> ext_length e = 0 -> extent_count (l ++ e :: rest) = length l.
Proof.
  intros Hl He. induction Hl as [|x l [_ Hx] _ IH]; cbn [app extent_count length].
  - by rewrite He.
  - rewrite (proj2 (Z.eqb_neq _ _)) by lia. by rewrite IH.
Qed.

Lemma extent_count_live l : Forall live l -> extent_count l = length l.
Proof. intros Hl. induction Hl as [|x l [_ Hx] _ IH]; [done|]. cbn [extent_count length]. rewrite (proj2 (Z.eqb_neq _ _)) by lia. by rewrite IH. Qed.

Lemma extent_count_dead l m : Forall live l -> Forall (fun e => ext_length e = 0) m -> extent_count (l ++ m) = length l.
Proof.
  intros Hl Hm. destruct Hm as [|e m He Hm]; [rewrite app_nil_r; by apply extent_count_live|by apply extent_count_app].
Qed.

Lemma blocks_of_dead l m : Forall live l -> Forall (fun e => ext_length e = 0) m -> blocks_of (l ++ m) = runs l.
Proof. intros Hl Hm. unfold blocks_of. by rewrite extent_count_dead, take_app_length by done. Qed.

Lemma packed_intro l m :
  Forall live l -> Forall (fun e => ext_length e = 0) m -> length (l ++ m) = 10%nat -> Z.of_nat (length (runs l)) < 2 ^ 32 -> packed (l ++ m).
Proof.
  intros Hl Hm Hn Ht. split; [done|..]; rewrite ?blocks_of_dead, ?extent_count_dead by done; [by rewrite take_app_length|by rewrite drop_app_length|done].
Qed.

Lemma packed_elim l : packed l -> exists lv m, l = lv ++ m /\ Forall live lv /\ Forall (fun e => ext_length e = 0) m.
Proof. intros [_ P1 P2 _]. exists (take (extent_count l) l), (drop (extent_count l) l). by rewrite take_drop. Qed.

(** ** Runs *)

Lemma runs_app l m : runs (l ++ m) = runs l ++ runs m.
Proof. unfold runs. by rewrite map_app, concat_app. Qed.

Lemma runs_cons e l : runs (e :: l) = run_of e ++ runs l.
Proof. done. Qed.

Lemma run_of_length e : 0 <= ext_length e -> Z.of_nat (length (run_of e)) = ext_length e.
Proof. intros He. unfold run_of. rewrite length_seqZ. lia. Qed.

Lemma run_of_lookup e k : 0 <= k < ext_length e -> run_of e !! Z.to_nat k = Some (start_block e + k).
Proof. intros Hk. unfold run_of. rewrite lookup_seqZ_lt by lia. f_equal. lia. Qed.

(** ** Mapping *)

Lemma map_scan_spec lv m base logical :
  Forall live lv -> Forall (fun e => ext_length e = 0) m -> 0 <= base <= logical -> base + Z.of_nat (length (runs lv)) < 2 ^ 64 ->
  map_scan (lv ++ m) base logical = runs lv !! Z.to_nat (logical - base).
Proof.
  intros Hl Hm Hb Ht. change (2 ^ 64) with 0x10000000000000000 in Ht. revert base Hb Ht.
  induction Hl as [|e lv [[H1 [H2 H3]] H4] Hl IH]; intros base Hb Ht.
  - cbn [app runs]. destruct Hm as [|e m He Hm]; [done|]. cbn [map_scan]. by rewrite He.
  - rewrite runs_cons in *. pose proof (run_of_length e H2) as Hr. rewrite length_app in Ht. cbn [app map_scan].
    rewrite (proj2 (Z.eqb_neq _ _)) by lia. rewrite u64_small by (unfold is_u64; lia). change (2 ^ 32) with 0x100000000 in H3.
    destruct (Z.ltb_spec logical (base + ext_length e)).
    + rewrite lookup_app_l by lia. rewrite run_of_lookup by lia. rewrite u64_small by (unfold is_u64; lia). done.
    + rewrite lookup_app_r by lia. rewrite IH by lia. f_equal. lia.
Qed.

(** A logical block of a file is looked up in the list of its blocks. *)
Lemma inode_map_spec inode logical : packed (direct inode) -> 0 <= logical -> adytumfs_inode_map inode logical = blocks_of (direct inode) !! Z.to_nat logical.
Proof.
  intros P Hl. pose proof (pk_total _ P) as Ht. destruct (packed_elim _ P) as (lv & m & E & Hv & Hm). unfold adytumfs_inode_map. rewrite E in *.
  rewrite blocks_of_dead in * by done. rewrite map_scan_spec by (done || lia). by rewrite Z.sub_0_r.
Qed.

(** ** Growing *)

Lemma run_extend e n : live e -> 0 <= n -> run_of (Extent (start_block e) (ext_length e + n) (ext_flags e)) = run_of e ++ seqZ (start_block e + ext_length e) n.
Proof. intros [[H1 [H2 _]] _] Hn. unfold run_of. cbn [start_block ext_length]. by rewrite seqZ_app by lia. Qed.

Lemma runs_one e : runs [e] = run_of e.
Proof. unfold runs. cbn. apply app_nil_r. Qed.

Lemma live_intro start n fl : 0 <= start -> 0 < n -> start + n < 2 ^ 32 -> live (Extent start n fl).
Proof. intros Hs Hn Hb. split; [|done]. split; [done|]. cbn [start_block ext_length]. split; [lia|done]. Qed.

(** The live extents are replaced, and the list keeps its length. *)
Lemma packed_replace lv m :
  Forall live lv -> Forall (fun e => ext_length e = 0) m -> length (lv ++ m) = 10%nat -> Z.of_nat (length (runs lv)) < 2 ^ 32 ->
  packed (lv ++ m) /\ blocks_of (lv ++ m) = runs lv.
Proof. intros Hl Hm Hn Ht. split; [by apply packed_intro|by apply blocks_of_dead]. Qed.

Section Append.
Context (lv m : list adytumfs_extent) (Hv : Forall live lv) (Hm : Forall (fun e => ext_length e = 0) m).
Context (Hn : length (lv ++ m) = 10%nat) (start add : Z) (Ha : 0 < add) (Hs : 0 <= start) (Hb : start + add < 2 ^ 32).
Context (Ht : Z.of_nat (length (runs lv)) + add < 2 ^ 32).

Lemma append_slot :
  (length lv < 10)%nat ->
  packed (<[length lv := Extent start add 0]> (lv ++ m)) /\ blocks_of (<[length lv := Extent start add 0]> (lv ++ m)) = runs lv ++ seqZ start add.
Proof.
  intros Hlt. rewrite length_app in Hn. destruct m as [|e m']; [cbn [length] in Hn; lia|]. apply Forall_cons in Hm as [_ Hm'].
  replace (length lv) with (length lv + 0)%nat by lia. rewrite insert_app_r. change (<[0%nat:=?x]> (e :: m')) with ([x] ++ m'). rewrite app_assoc.
  destruct (packed_replace (lv ++ [Extent start add 0]) m') as [H1 H2].
  - apply Forall_app. split; [done|]. constructor; [by apply live_intro|constructor].
  - done.
  - rewrite !length_app in *. cbn [length] in *. lia.
  - rewrite runs_app, runs_one, length_app. unfold run_of. cbn [start_block ext_length]. rewrite length_seqZ. lia.
  - split; [exact H1|]. rewrite H2, runs_app, runs_one. reflexivity.
Qed.

Lemma append_last lv0 last :
  lv = lv0 ++ [last] -> start_block last + ext_length last = start ->
  let l' := <[length lv0 := Extent (start_block last) (ext_length last + add) (ext_flags last)]> (lv ++ m) in
  packed l' /\ blocks_of l' = runs lv ++ seqZ start add.
Proof.
  intros -> He l'. apply Forall_app in Hv as [Hv0 Hlast]. apply Forall_cons in Hlast as [Hlast _].
  assert (l' = (lv0 ++ [Extent (start_block last) (ext_length last + add) (ext_flags last)]) ++ m) as ->.
  { unfold l'. rewrite <- !app_assoc. replace (length lv0) with (length lv0 + 0)%nat by lia. by rewrite insert_app_r. }
  assert (runs (lv0 ++ [Extent (start_block last) (ext_length last + add) (ext_flags last)]) = runs (lv0 ++ [last]) ++ seqZ start add) as Hr.
  { rewrite !runs_app, !runs_one, run_extend, He, app_assoc by (done || lia). reflexivity. }
  destruct (packed_replace (lv0 ++ [Extent (start_block last) (ext_length last + add) (ext_flags last)]) m) as [H1 H2].
  - apply Forall_app. split; [done|]. constructor; [|constructor]. destruct Hlast as [[? [? ?]] ?]. apply live_intro; lia.
  - done.
  - rewrite !length_app in *. cbn [length] in *. lia.
  - rewrite Hr, length_app, length_seqZ. lia.
  - split; [exact H1|]. by rewrite H2, Hr.
Qed.

End Append.

Lemma append_run_spec l start add :
  packed l -> 0 < add -> 0 <= start -> start + add < 2 ^ 32 -> Z.of_nat (length (blocks_of l)) + add < 2 ^ 32 ->
  match append_run l start add with
  | Some l' => packed l' /\ blocks_of l' = blocks_of l ++ seqZ start add
  | None => extent_count l = 10%nat
  end.
Proof.
  intros P Ha Hs Hb Ht. destruct (packed_elim _ P) as (lv & m & E & Hv & Hm). pose proof (pk_length _ P) as Hn. rewrite E in *.
  rewrite blocks_of_dead in * by done. unfold append_run. rewrite extent_count_dead by done.
  assert (u32 add = add) as -> by (apply u32_small; unfold is_u32; change (2 ^ 32) with 0x100000000 in Hb; lia).
  assert (Hslot : match (if Nat.leb (Z.to_nat ADYTUMFS_DIRECT_EXTENTS) (length lv) then None else Some (<[length lv := Extent start add 0]> (lv ++ m))) with
    | Some l' => packed l' /\ blocks_of l' = runs lv ++ seqZ start add | None => length lv = 10%nat end).
  { rewrite length_app in Hn. change (Z.to_nat ADYTUMFS_DIRECT_EXTENTS) with 10%nat. destruct (Nat.leb_spec 10 (length lv)); [lia|].
    apply append_slot; rewrite ?length_app; done || lia. }
  destruct lv as [|last lv0 _] using rev_ind; [exact Hslot|]. pose proof Hv as [Hv0 Hlast]%Forall_app. apply Forall_cons in Hlast as [[[H1 [H2 H3]] H4] _].
  replace (Nat.eqb (length (lv0 ++ [last])) 0) with false by (rewrite length_app; cbn [length]; symmetry; apply Nat.eqb_neq; lia). cbn [negb andb].
  assert (extent_at ((lv0 ++ [last]) ++ m) (Z.of_nat (length (lv0 ++ [last])) - 1) = last) as ->.
  { unfold extent_at. rewrite length_app. cbn [length]. replace (Z.to_nat (Z.of_nat (length lv0 + 1) - 1)) with (length lv0) by lia. rewrite <- app_assoc. cbn [app]. by rewrite nth_middle. }
  change (2 ^ 32) with 0x100000000 in H3. rewrite u64_small by (unfold is_u64; lia).
  destruct (Z.eqb_spec (start_block last + ext_length last) start) as [He|Hne]; [|exact Hslot].
  change (2 ^ 32) with 0x100000000 in Hb, Ht. rewrite u32_small by (unfold is_u32; lia).
  replace (length (lv0 ++ [last]) - 1)%nat with (length lv0) by (rewrite length_app; cbn [length]; lia).
  by apply (append_last (lv0 ++ [last]) m).
Qed.

(** ** Redirecting one block *)

Lemma covering_spec lv index base logical :
  Forall live lv -> 0 <= base <= logical -> base + Z.of_nat (length (runs lv)) < 2 ^ 64 ->
  match covering lv index base logical with
  | Some (i, offset) => exists pre e post, lv = pre ++ e :: post /\ i = (index + length pre)%nat /\
      offset = logical - base - Z.of_nat (length (runs pre)) /\ 0 <= offset < ext_length e
  | None => base + Z.of_nat (length (runs lv)) <= logical
  end.
Proof.
  intros Hl Hb Ht. change (2 ^ 64) with 0x10000000000000000 in Ht. revert index base Hb Ht.
  induction Hl as [|e lv [[H1 [H2 H3]] H4] Hl IH]; intros index base Hb Ht; [cbn; lia|].
  rewrite runs_cons, length_app in *. pose proof (run_of_length e H2) as Hr. cbn [covering].
  rewrite u64_small by (unfold is_u64; lia). rewrite (proj2 (Z.ltb_ge logical base)) by lia. cbn [orb].
  destruct (Z.leb_spec (base + ext_length e) logical) as [Hle|Hlt].
  - specialize (IH (S index) (base + ext_length e) ltac:(lia) ltac:(lia)). destruct (covering _ _ _ _) as [[i offset]|]; [|lia].
    destruct IH as (pre & e' & post & -> & -> & -> & Ho). exists (e :: pre), e', post. split; [done|]. rewrite runs_cons, length_app. cbn [length]. split; [lia|]. split; [lia|lia].
  - exists [], e, lv. cbn [app length runs map concat]. split; [done|]. split; [lia|]. split; [lia|lia].
Qed.

Lemma run_split start n k : 0 <= k < n -> seqZ start n = seqZ start k ++ (start + k) :: seqZ (start + k + 1) (n - k - 1).
Proof.
  intros Hk. replace n with (k + (1 + (n - k - 1))) at 1 by lia. rewrite !seqZ_app by lia. reflexivity.
Qed.

Lemma pieces_runs e offset fresh :
  live e -> 0 <= offset < ext_length e -> runs (pieces e offset fresh) = <[Z.to_nat offset := fresh]> (run_of e).
Proof.
  intros [[H1 [H2 H3]] _] Ho. change (2 ^ 32) with 0x100000000 in H3.
  assert (<[Z.to_nat offset := fresh]> (run_of e) = seqZ (start_block e) offset ++ fresh :: seqZ (start_block e + offset + 1) (ext_length e - offset - 1)) as ->.
  { unfold run_of. rewrite (run_split _ _ offset) by done.
    replace (Z.to_nat offset) with (length (seqZ (start_block e) offset) + 0)%nat by (rewrite length_seqZ; lia). by rewrite insert_app_r. }
  unfold pieces. rewrite runs_app, runs_cons. change (run_of (Extent fresh 1 0)) with (seqZ fresh 1). rewrite (seqZ_cons fresh 1), (seqZ_nil (Z.succ fresh) (Z.pred 1)) by lia.
  cbn [app]. f_equal; [|f_equal].
  - unfold nz. destruct (Z.eqb_spec offset 0) as [->|Hne]; cbn [negb]; [done|]. rewrite runs_one. unfold run_of. cbn [start_block ext_length]. by rewrite u32_small by (unfold is_u32; lia).
  - destruct (Z.ltb_spec (offset + 1) (ext_length e)) as [Hlt|Hge].
    + rewrite runs_one. unfold run_of. cbn [start_block ext_length]. rewrite u64_small, u32_small by (unfold is_u64, is_u32; lia). done.
    + rewrite (seqZ_nil _ (ext_length e - offset - 1)) by lia. done.
Qed.

Lemma pieces_live e offset fresh :
  live e -> 0 <= offset < ext_length e -> 0 <= fresh -> fresh + 1 < 2 ^ 32 -> Forall live (pieces e offset fresh).
Proof.
  intros [[H1 [H2 H3]] _] Ho Hf Hf'. change (2 ^ 32) with 0x100000000 in H3, Hf'. unfold pieces. apply Forall_app. split; [|constructor].
  - unfold nz. destruct (Z.eqb_spec offset 0); cbn [negb]; [constructor|]. constructor; [|constructor]. rewrite u32_small by (unfold is_u32; lia). apply live_intro; lia.
  - apply live_intro; lia.
  - destruct (Z.ltb_spec (offset + 1) (ext_length e)); [|constructor]. constructor; [|constructor].
    rewrite u64_small, u32_small by (unfold is_u64, is_u32; lia). apply live_intro; lia.
Qed.

Lemma compact_step_spec done e :
  Forall live done -> live e ->
  Forall live (compact_step done e) /\ runs (rev (compact_step done e)) = runs (rev done) ++ run_of e /\ (length (compact_step done e) <= S (length done))%nat.
Proof.
  intros Hd He. destruct Hd as [|last rest Hlast Hrest]; cbn [compact_step].
  - split; [by constructor|]. split; [cbn [rev app]; apply runs_one|done].
  - destruct Hlast as [[H1 [H2 H3]] H4]. destruct He as [[E1 [E2 E3]] E4]. change (2 ^ 32) with 0x100000000 in H3, E3.
    rewrite u64_small by (unfold is_u64; lia). destruct (Z.eqb_spec (start_block e) (start_block last + ext_length last)) as [Hs|Hs].
    + rewrite u32_small by (unfold is_u32; lia). split; [constructor; [apply live_intro; lia|done]|]. split; [|cbn [length]; lia].
      cbn [rev]. rewrite !runs_app, !runs_one, run_extend by (repeat split; lia). assert (run_of e = seqZ (start_block last + ext_length last) (ext_length e)) as -> by (unfold run_of; by rewrite Hs). by rewrite app_assoc.
    + split; [constructor; [by repeat split|constructor; [by repeat split|done]]|]. split; [|cbn [length]; lia].
      cbn [rev]. rewrite !runs_app, !runs_one. done.
Qed.

Lemma compact_fold done l :
  Forall live done -> Forall live l ->
  Forall live (foldl compact_step done l) /\ runs (rev (foldl compact_step done l)) = runs (rev done) ++ runs l /\
  (length (foldl compact_step done l) <= length done + length l)%nat.
Proof.
  intros Hd Hl. revert done Hd. induction Hl as [|e l He Hl IH]; intros done Hd.
  - cbn [foldl runs map concat length]. rewrite app_nil_r. split; [done|split; [done|lia]].
  - cbn [foldl length]. destruct (compact_step_spec done e Hd He) as (H1 & H2 & H3). destruct (IH _ H1) as (G1 & G2 & G3).
    split; [done|]. split; [by rewrite G2, H2, runs_cons, app_assoc|lia].
Qed.

Lemma compact_spec l : Forall live l -> Forall live (compact l) /\ runs (compact l) = runs l /\ (length (compact l) <= length l)%nat.
Proof.
  intros Hl. unfold compact. destruct (compact_fold [] l ltac:(constructor) Hl) as (H1 & H2 & H3).
  split; [by apply Forall_rev|]. split; [exact H2|]. rewrite length_rev. exact H3.
Qed.

Lemma pad_spec l : Forall live l -> (length l <= 10)%nat -> Z.of_nat (length (runs l)) < 2 ^ 32 -> packed (pad l) /\ blocks_of (pad l) = runs l.
Proof.
  intros Hl Hn Ht. apply packed_replace; [done|by apply Forall_replicate| |done].
  rewrite length_app, length_replicate. change (Z.to_nat ADYTUMFS_DIRECT_EXTENTS) with 10%nat. lia.
Qed.

Lemma pieces_length e offset fresh : (1 <= length (pieces e offset fresh) <= 3)%nat.
Proof. unfold pieces. rewrite length_app. cbn [length]. destruct (nz offset), (offset + 1 <? ext_length e); cbn [length]; lia. Qed.

Lemma insert_run_middle pre e post k fresh :
  0 <= ext_length e -> 0 <= k < ext_length e ->
  <[(length (runs pre) + Z.to_nat k)%nat := fresh]> (runs (pre ++ e :: post)) = runs pre ++ <[Z.to_nat k := fresh]> (run_of e) ++ runs post.
Proof.
  intros He Hk. rewrite runs_app, runs_cons, insert_app_r. f_equal. rewrite insert_app_l; [done|]. pose proof (run_of_length e He). lia.
Qed.

(** Redirecting a block is an update of the list of blocks; it fails for a
    block outside the file, or when the extents would not fit. *)
Lemma reroute_spec inode logical fresh :
  packed (direct inode) -> 0 <= logical -> 0 <= fresh -> fresh + 1 < 2 ^ 32 ->
  match adytumfs_extent_reroute inode logical fresh with
  | Some inode' => packed (direct inode') /\ logical < Z.of_nat (length (blocks_of (direct inode))) /\
      blocks_of (direct inode') = <[Z.to_nat logical := fresh]> (blocks_of (direct inode)) /\
      inode' = set_extents (direct inode') (blocks inode) inode
  | None => Z.of_nat (length (blocks_of (direct inode))) <= logical \/ (9 <= extent_count (direct inode))%nat
  end.
Proof.
  intros P Hl Hf Hf'. pose proof (pk_live _ P) as Hv. pose proof (pk_total _ P) as Ht. unfold adytumfs_extent_reroute, blocks_of in *.
  pose proof (length_take_le (direct inode) _ (extent_count_le (direct inode))) as Hn. set (lv := take (extent_count (direct inode)) (direct inode)) in *.
  pose proof (covering_spec lv 0 0 logical Hv ltac:(lia) ltac:(change (2 ^ 32) with 0x100000000 in Ht; change (2 ^ 64) with 0x10000000000000000; lia)) as Hc.
  destruct (covering lv 0 0 logical) as [[i offset]|]; [|left; lia]. destruct Hc as (pre & e & post & E & -> & Ho & Hr). rewrite Nat.add_0_l, Z.sub_0_r in *.
  assert (extent_at (direct inode) (Z.of_nat (length pre)) = e) as ->.
  { unfold extent_at. rewrite Nat2Z.id. rewrite <- (take_drop (extent_count (direct inode)) (direct inode)). fold lv. rewrite E, <- app_assoc. cbn [app]. by rewrite nth_middle. }
  pose proof (pieces_length e offset fresh) as Hp. change (Z.to_nat ADYTUMFS_DIRECT_EXTENTS) with 10%nat.
  destruct (Nat.ltb_spec 10 (extent_count (direct inode) - 1 + length (pieces e offset fresh))) as [|Hfit]; [right; lia|].
  rewrite E in Hv. apply Forall_app in Hv as [Hpre [He Hpost]%Forall_cons]. rewrite E. rewrite take_app_length.
  replace (drop (S (length pre)) (pre ++ e :: post)) with post by (rewrite <- (Nat.add_1_r (length pre)), <- drop_drop, drop_app_length; done).
  pose proof (pieces_live e offset fresh He Hr Hf Hf') as Hpl. set (parts := pieces e offset fresh) in *.
  assert (Forall live (pre ++ parts ++ post)) as Hall by (rewrite !Forall_app; auto).
  assert (runs (pre ++ parts ++ post) = <[Z.to_nat logical := fresh]> (runs (pre ++ e :: post))) as Hrun.
  { replace (Z.to_nat logical) with (length (runs pre) + Z.to_nat offset)%nat by lia. rewrite insert_run_middle by (destruct He as [[? [? ?]] ?]; lia).
    rewrite !runs_app. unfold parts. by rewrite pieces_runs. }
  destruct (compact_spec _ Hall) as (C1 & C2 & C3). rewrite E in Hn, Ht. rewrite !length_app in C3. rewrite !length_app in Hn. cbn [length] in Hn.
  destruct (pad_spec (compact (pre ++ parts ++ post)) C1 ltac:(lia)) as [G1 G2]; [by rewrite C2, Hrun, length_insert|].
  cbn [direct set_extents]. split; [done|]. split.
  - rewrite runs_app, runs_cons, !length_app. destruct He as [[? [? ?]] ?]. pose proof (run_of_length e ltac:(lia)). lia.
  - split; [|done]. fold (blocks_of (pad (compact (pre ++ parts ++ post)))). by rewrite G2, C2, Hrun.
Qed.

(** ** The widths of the fields *)

Lemma extent_at_fields l k : Forall extent_fields l -> extent_fields (extent_at l k).
Proof.
  intros Hl. unfold extent_at. rewrite nth_lookup. destruct (l !! Z.to_nat k) as [e|] eqn:He; [by eapply Forall_lookup_1|].
  split; cbn; unfold is_u64, is_u32; lia.
Qed.

Lemma append_run_fields l start add l' :
  Forall extent_fields l -> is_u64 start -> append_run l start add = Some l' -> Forall extent_fields l' /\ length l' = length l.
Proof.
  intros Hl Hs. unfold append_run. destruct (negb _ && _); [|destruct (Nat.leb _ _); [discriminate|]]; intros [= <-]; rewrite length_insert; (split; [|done]); apply Forall_insert; try done.
  - destruct (extent_at_fields l (Z.of_nat (extent_count l) - 1) Hl). split; [done|apply u32_range|done].
  - split; [done|apply u32_range|]. cbn. unfold is_u32. lia.
Qed.

Lemma set_extents_fields l n inode :
  inode_fields inode -> Forall extent_fields l -> length l = 10%nat -> is_u64 n -> inode_fields (set_extents l n inode).
Proof.
  intros [F1 F2 F3 F4 F5] Hl Hn Hw. split; [exact F1|exact F2| |exact Hn|exact Hl].
  apply Forall_cons in F3 as [F3a F3]. apply Forall_cons in F3 as [F3b F3]. apply Forall_cons. split; [exact F3a|]. apply Forall_cons. split; [exact Hw|exact F3].
Qed.

Lemma pieces_fields e offset fresh : extent_fields e -> is_u64 fresh -> Forall extent_fields (pieces e offset fresh).
Proof.
  intros [H1 H2 H3] Hf. assert (is_u32 0) as H0 by (unfold is_u32; lia). unfold pieces. apply Forall_app. split; [|constructor].
  - destruct (nz offset); constructor; [|constructor]. split; [done|apply u32_range|done].
  - split; [done|cbn; unfold is_u32; lia|done].
  - destruct (offset + 1 <? ext_length e); constructor; [|constructor]. split; [apply u64_range|apply u32_range|done].
Qed.

Lemma compact_fields l : Forall extent_fields l -> Forall extent_fields (compact l).
Proof.
  intros Hl. unfold compact. apply Forall_rev. assert (Forall extent_fields []) as Hd by constructor. revert Hd. generalize (@nil adytumfs_extent).
  induction Hl as [|e l He Hl IH]; intros acc Hd; [done|]. cbn [foldl]. apply IH. destruct Hd as [|last rest [H1 H2 H3] Hr]; cbn [compact_step].
  - by constructor.
  - destruct (start_block e =? _); [|constructor; [done|constructor; [split; assumption|done]]]. constructor; [|done]. split; [done|apply u32_range|done].
Qed.

Lemma reroute_fields inode logical fresh inode' :
  packed (direct inode) -> inode_fields inode -> is_u64 fresh -> adytumfs_extent_reroute inode logical fresh = Some inode' ->
  packed (direct inode') -> inode_fields inode'.
Proof.
  intros P [F1 F2 F3 F4 F5] Hf. unfold adytumfs_extent_reroute. destruct (covering _ _ _ _) as [[i offset]|]; [|discriminate]. destruct (Nat.ltb _ _); [discriminate|].
  intros [= <-] P'. cbn [direct set_extents] in P'. split; [done|done|done|apply P'|]. cbn [direct set_extents]. unfold pad. apply Forall_app. split.
  - apply compact_fields. apply Forall_app. split; [by do 2 apply Forall_take|]. apply Forall_app. split; [apply pieces_fields; [by apply extent_at_fields|done]|by apply Forall_drop, Forall_take].
  - apply Forall_replicate. split; cbn; unfold is_u64, is_u32; lia.
Qed.

(** Redirecting one block of a file.  When [adytumfs_extent_reroute]
    succeeds, [adytumfs_inode_map] finds the fresh block at the redirected
    place and what it found before everywhere else, although the extent there
    may have been split in three and joined with its neighbours; nothing else
    of the inode changes.  It fails only for a place outside the file or when
    fewer than two of the ten extents are free. *)
Theorem adytum_reroute_map inode logical fresh :
  packed (direct inode) -> 0 <= logical -> 0 <= fresh -> fresh + 1 < 2 ^ 32 ->
  match adytumfs_extent_reroute inode logical fresh with
  | Some inode' =>
      packed (direct inode') /\ inode' = set_extents (direct inode') (blocks inode) inode /\
      forall k, 0 <= k -> adytumfs_inode_map inode' k = if k =? logical then Some fresh else adytumfs_inode_map inode k
  | None => adytumfs_inode_map inode logical = None \/ (9 <= extent_count (direct inode))%nat
  end.
Proof.
  intros P Hl Hf Hf'. pose proof (reroute_spec inode logical fresh P Hl Hf Hf') as Hr. destruct (adytumfs_extent_reroute inode logical fresh) as [inode'|].
  - destruct Hr as (P' & Hlt & Hb & E). split; [exact P'|]. split; [exact E|]. intros k Hk. rewrite !inode_map_spec, Hb by assumption.
    destruct (Z.eqb_spec k logical) as [->|Hne]; [apply list_lookup_insert_eq; lia|apply list_lookup_insert_ne; lia].
  - destruct Hr as [Hr|Hr]; [left|right; exact Hr]. rewrite inode_map_spec by assumption. apply lookup_ge_None. lia.
Qed.

(** Five blocks in a run, and the one in the middle moves. *)
Lemma adytum_reroute_map_witness :
  let inode := set_extents (Extent 20 5 0 :: replicate 9 no_extent) 5 (fresh_inode ADYTUMFS_MODE_REG 0 0 0) in
  match adytumfs_extent_reroute inode 2 40 with
  | Some inode' => direct inode' = [Extent 20 2 0; Extent 40 1 0; Extent 23 2 0] ++ replicate 7 no_extent /\
      adytumfs_inode_map inode' 2 = Some 40 /\ adytumfs_inode_map inode' 3 = Some 23
  | None => False
  end.
Proof.
  intros inode. assert (packed (direct inode)) as P.
  { split; [reflexivity| | |reflexivity]; cbn.
    - constructor; [|constructor]. split; [split; [|split]|]; cbn; lia.
    - repeat (constructor; [reflexivity|]). constructor. }
  pose proof (adytum_reroute_map inode 2 40 P ltac:(lia) ltac:(lia) ltac:(lia)) as Hr.
  assert (exists inode', adytumfs_extent_reroute inode 2 40 = Some inode' /\ direct inode' = [Extent 20 2 0; Extent 40 1 0; Extent 23 2 0] ++ replicate 7 no_extent) as (inode' & E & Hd).
  { eexists. split; [vm_compute; reflexivity|reflexivity]. }
  rewrite E in *. destruct Hr as (_ & _ & Hk). split; [exact Hd|]. split; [exact (Hk 2 ltac:(lia))|exact (Hk 3 ltac:(lia))].
Defined.

End AdytumExtents.
