(* ===== verification/AdytumTable.v ===== *)
(** AdytumFS: the inode table as a map from inode numbers to inodes. *)

From S2P Require Import Prelude Wire Crc32c AdytumFormat AdytumVolume AdytumDevice AdytumCommit AdytumWindow AdytumInode.

Module AdytumTable.
Import Wire AdytumFormat AdytumVolume AdytumDevice AdytumCommit AdytumWindow AdytumInode.

#[local] Opaque crc32c adytumfs_inode_pack.

(** ** Slots of a table block *)

Lemma at_drop (l : list Z) n j : 0 <= j -> 0 <= n -> at_ (drop (Z.to_nat n) l) j = at_ l (n + j).
Proof. intros Hj Hn. unfold at_, byte_at. rewrite !nth_lookup, lookup_drop. do 2 f_equal. lia. Qed.

(** The inode of a slot is decided by its 256 bytes. *)
Lemma inode_unpack_ext l l' :
  256 <= Z.of_nat (length l) -> 256 <= Z.of_nat (length l') -> (forall j, 0 <= j < 256 -> at_ l j = at_ l' j) ->
  adytumfs_inode_unpack l = adytumfs_inode_unpack l'.
Proof.
  intros Hl Hl' He.
  assert (forall i, 0 <= i <= 252 -> adytumfs_read_le32 l i = adytumfs_read_le32 l' i) as E32 by (intros i Hi; apply read_le32_ext; intros k Hk; apply He; lia).
  assert (forall i, 0 <= i <= 248 -> adytumfs_read_le64 l i = adytumfs_read_le64 l' i) as E64 by (intros i Hi; apply read_le64_ext; intros k Hk; apply He; lia).
  assert (forall i, 0 <= i <= 254 -> adytumfs_read_le16 l i = adytumfs_read_le16 l' i) as E16 by (intros i Hi; apply read_le16_ext; intros k Hk; apply He; lia).
  unfold adytumfs_inode_unpack. rewrite (crc32c_prefix l l').
  - unfold ADYTUMFS_INODE_CHECKSUM_OFFSET. rewrite !E16, !E32, !E64 by lia.
    assert (map (unpack_extent l) (seqZ 0 ADYTUMFS_DIRECT_EXTENTS) = map (unpack_extent l') (seqZ 0 ADYTUMFS_DIRECT_EXTENTS)) as ->; [|done].
    apply map_ext_in. intros k Hk%list_elem_of_In%elem_of_seqZ. unfold ADYTUMFS_DIRECT_EXTENTS in Hk. unfold unpack_extent, ADYTUMFS_EXTENT_SIZE.
    rewrite !E32, !E64 by lia. done.
  - unfold ADYTUMFS_INODE_CHECKSUM_OFFSET. lia.
  - unfold ADYTUMFS_INODE_CHECKSUM_OFFSET. lia.
  - unfold ADYTUMFS_INODE_CHECKSUM_OFFSET. apply at_ext; [rewrite !length_take; lia|]. intros j Hj. rewrite length_take in Hj.
    rewrite !at_take by lia. apply He. lia.
Qed.

Lemma slot_read_put image slot bytes :
  Z.of_nat (length image) = 4096 -> Z.of_nat (length bytes) = 256 -> 0 <= slot -> slot + 256 <= 4096 ->
  adytumfs_inode_unpack (drop (Z.to_nat slot) (put image slot bytes)) = adytumfs_inode_unpack bytes.
Proof.
  intros Hl Hb Hs He. pose proof (put_length image slot bytes ltac:(lia) ltac:(lia)) as Hp.
  apply inode_unpack_ext; [rewrite length_drop; lia|lia|]. intros j Hj. rewrite at_drop by lia. apply at_put_in; lia.
Qed.

Lemma slot_read_other image slot slot' bytes :
  Z.of_nat (length image) = 4096 -> Z.of_nat (length bytes) = 256 -> 0 <= slot -> slot + 256 <= 4096 -> 0 <= slot' -> slot' + 256 <= 4096 ->
  slot' + 256 <= slot \/ slot + 256 <= slot' ->
  adytumfs_inode_unpack (drop (Z.to_nat slot') (put image slot bytes)) = adytumfs_inode_unpack (drop (Z.to_nat slot') image).
Proof.
  intros Hl Hb Hs He Hs' He' Ha. pose proof (put_length image slot bytes ltac:(lia) ltac:(lia)) as Hp.
  apply inode_unpack_ext; [rewrite length_drop; lia..|]. intros j Hj. rewrite !at_drop by lia. apply at_put_other; lia.
Qed.

(** ** The table *)

Section Table.
Context {D : Type} `{FsDeviceLaws D}.
Context (dev : Z).
Implicit Types (s : fs D).

(** The inode with number [n]; [None] when its checksum is wrong. *)
Definition inode_at s (n : Z) : option adytumfs_inode :=
  adytumfs_inode_unpack (drop (Z.to_nat (n mod 16 * 256)) (view dev s true (n / 16))).

(** [n] is a number of the table. *)
Definition inode_number s (n : Z) : Prop := 0 < n < inode_count (super s).

Lemma inode_place s n : window_ok dev s -> inode_number s n -> 0 <= n / 16 < inode_table_blocks (super s) /\ n / 16 < 256 /\ 0 <= n mod 16 * 256 <= 3840.
Proof.
  intros W Hn. destruct (wo_layout _ _ W). unfold inode_number in Hn. pose proof (Z.mod_pos_bound n 16 ltac:(lia)). pose proof (Z.div_pos n 16 ltac:(lia)).
  assert (n / 16 < inode_table_blocks (super s)) by (apply Z.div_lt_upper_bound; lia). lia.
Qed.

Lemma inode_at_fields s n inode : window_ok dev s -> inode_at s n = Some inode -> inode_fields inode.
Proof.
  intros W. apply inode_unpack_fields. destruct (view_block dev s true (n / 16) W) as [_ Hb]. by apply Forall_drop.
Qed.

Lemma inode_words n : 0 <= n / 16 < 256 -> 0 <= n mod 16 < 16 ->
  u32 (n / 16) = n / 16 /\ u32 (u32 (n mod 16) * 256) = n mod 16 * 256.
Proof. intros H1 H2. rewrite (u32_small (n / 16)), (u32_small (n mod 16)), u32_small by (unfold is_u32; lia). done. Qed.

Lemma inode_guard s n : 0 <= n -> (n =? 0) || (inode_count (super s) <=? n) = false <-> inode_number s n.
Proof. intros Hn. unfold inode_number. rewrite orb_false_iff, Z.eqb_neq, Z.leb_gt. lia. Qed.

Lemma inode_read_spec s n :
  window_ok dev s -> 0 <= n ->
  let '(r, s') := adytumfs_inode_read dev n s in
  same_window s s' /\ forall inode, r = Some inode -> inode_number s n /\ inode_at s n = Some inode.
Proof.
  intros W Hn0. unfold adytumfs_inode_read. rewrite bind_run. unfold the_super. cbv beta iota.
  destruct ((n =? 0) || (inode_count (super s) <=? n)) eqn:Hg; [split; [apply same_window_refl|discriminate]|].
  apply inode_guard in Hg; [|done]. destruct (inode_place s n W Hg) as (H1 & H2 & H3). pose proof (Z.mod_pos_bound n 16 ltac:(lia)).
  destruct (inode_words n ltac:(lia) ltac:(lia)) as [E1 E2]. unfold ADYTUMFS_INODES_PER_BLOCK, ADYTUMFS_INODE_SIZE. rewrite E1, E2.
  rewrite bind_run. pose proof (table_read_spec dev s (n / 16) W H1) as Hr. destruct (adytumfs_table_read dev (n / 16) s) as [[bytes|] s1]; destruct Hr as [S Hv];
    [|split; [done|discriminate]].
  rewrite (Hv bytes eq_refl). fold (inode_at s n). destruct (inode_at s n) as [inode|] eqn:Ha; cbn [or_fail]; (split; [exact S|]); [|discriminate].
  intros ? [= <-]. done.
Qed.

(** A step that changes inodes of the table only. *)
Record table_step (f : Z -> option adytumfs_inode) s s' : Prop := {
  ts_ok : window_ok dev s';
  ts_step : stage_step dev s s';
  ts_bit : forall b, bit dev s' b = bit dev s b;
  ts_inode : forall n, inode_number s n -> inode_at s' n = f n
}.

Lemma table_step_view s s' : view_step dev (view dev s) s s' -> table_step (inode_at s) s s'.
Proof.
  intros [A B C]. split; [done|done|intros b; unfold bit; by rewrite C|intros n _; unfold inode_at; by rewrite C].
Qed.

Lemma view_step_from (f : bool -> Z -> list Z) s s1 s2 : same_window s s1 -> view_step dev f s1 s2 -> view_step dev f s s2.
Proof. intros S [A B C]. split; [done|eapply stage_step_trans; [by apply same_stage|done]|done]. Qed.

Lemma inode_write_spec s n inode :
  window_ok dev s -> 0 <= n -> inode_fields inode ->
  let '(r, s') := adytumfs_inode_write dev n inode s in
  match r with
  | Some _ => inode_number s n /\ table_step (fun m => if m =? n then Some inode else inode_at s m) s s'
  | None => table_step (inode_at s) s s'
  end.
Proof.
  intros W Hn0 Hf. unfold adytumfs_inode_write. rewrite bind_run. unfold the_super. cbv beta iota.
  destruct ((n =? 0) || (inode_count (super s) <=? n)) eqn:Hg; [apply table_step_view, view_step_same, same_window_refl; exact W|].
  apply inode_guard in Hg; [|done]. destruct (inode_place s n W Hg) as (H1 & H2 & H3). pose proof (Z.mod_pos_bound n 16 ltac:(lia)).
  destruct (inode_words n ltac:(lia) ltac:(lia)) as [E1 E2]. unfold ADYTUMFS_INODES_PER_BLOCK, ADYTUMFS_INODE_SIZE. rewrite E1, E2.
  rewrite bind_run. pose proof (table_read_spec dev s (n / 16) W H1) as Hr. destruct (adytumfs_table_read dev (n / 16) s) as [[bytes|] s1]; destruct Hr as [S Hv];
    [|apply table_step_view, view_step_same; assumption].
  pose proof (Hv bytes eq_refl) as ->. pose proof (same_ok dev _ _ S W) as W1.
  pose proof (view_block dev s true (n / 16) W) as [Vl Vb]. pose proof (inode_pack_length inode) as Pl. pose proof (inode_pack_bytes inode) as Pb.
  set (image := put (view dev s true (n / 16)) (n mod 16 * 256) (adytumfs_inode_pack inode)).
  assert (is_block image) as Hi by (split; [unfold image; rewrite put_length; lia|by apply put_bytes]).
  pose proof (table_stage_spec dev s1 (n / 16) image W1) as Hs. rewrite (sw_super _ _ S) in Hs. specialize (Hs H1 Hi).
  destruct (adytumfs_table_stage dev (n / 16) image s1) as [[u|] s2].
  - split; [exact Hg|]. apply (view_step_from _ _ _ _ S) in Hs as [A B C]. split; [exact A|exact B| |].
    + intros b. unfold bit. rewrite C, decide_False by (intros [? _]; discriminate). by rewrite (same_view dev _ _ _ _ S).
    + intros m Hm. unfold inode_at. rewrite C. destruct (inode_place s m W Hm) as (M1 & M2 & M3).
      destruct (decide (true = true /\ m / 16 = n / 16)) as [[_ He]|Hne].
      * destruct (Z.eqb_spec m n) as [->|Hd].
        -- unfold image. rewrite slot_read_put by lia. by apply inode_unpack_pack.
        -- rewrite He. apply slot_read_other; try lia. pose proof (Z.div_mod m 16 ltac:(lia)). pose proof (Z.div_mod n 16 ltac:(lia)). lia.
      * rewrite (proj2 (Z.eqb_neq m n)) by (intros ->; by apply Hne). by rewrite (same_view dev _ _ _ _ S).
  - apply table_step_view. apply (view_step_from _ _ _ _ S) in Hs as [A B C]. split; [exact A|exact B|]. intros t j. rewrite C. by apply same_view.
Qed.

End Table.

End AdytumTable.
