(* ===== verification/AdytumStep.v ===== *)
(** AdytumFS: what an operation between two commits does to the volume.

    The volume is seen as its bitmap ([bit]), its inodes ([inode_at]), and the
    content and checksums of its data blocks.  A step writes some data blocks;
    everything else on the device, and with it what the last commit left, is
    kept. *)

From S2P Require Import Prelude Wire Crc32c AdytumFormat AdytumVolume AdytumDevice AdytumCommit AdytumWindow AdytumAlloc AdytumData AdytumInode AdytumTable.

Module AdytumStep.
Import Wire AdytumFormat AdytumVolume AdytumDevice AdytumCommit AdytumWindow AdytumAlloc AdytumData AdytumInode AdytumTable.

#[local] Opaque crc32c.

(** The superblocks differ in their counts only. *)
Definition recounted (a b : adytumfs_superblock) : Prop :=
  (super_fields a -> super_fields b) /\ exists n m, b = set_free_inodes m (set_free_blocks n a).

Lemma recounted_refl a : recounted a a.
Proof. split; [done|]. exists (free_blocks a), (free_inodes a). by destruct a. Qed.

Lemma recounted_trans a b c : recounted a b -> recounted b c -> recounted a c.
Proof. intros (F1 & n & m & ->) (F2 & n' & m' & ->). split; [auto|]. by exists n', m'. Qed.

(** Counts at their width keep the words of the superblock in range. *)
Lemma recounted_words a n m : is_u64 n -> is_u64 m -> super_fields a -> super_fields (set_free_inodes m (set_free_blocks n a)).
Proof.
  intros Hn Hm [F1 F2 F3]. split; [exact F1|exact F2|]. cbn. rewrite !Forall_cons in *. naive_solver.
Qed.

Lemma super_counts a : super_fields a -> is_u64 (free_blocks a) /\ is_u64 (free_inodes a).
Proof. intros [_ _ F]. rewrite !Forall_cons in F. naive_solver. Qed.

Lemma recounted_blocks a n : is_u64 n -> recounted a (set_free_blocks n a).
Proof.
  intros Hn. assert (set_free_blocks n a = set_free_inodes (free_inodes a) (set_free_blocks n a)) as E by (by destruct a).
  rewrite E at 1. split; [|by exists n, (free_inodes a)]. intros F. by apply recounted_words; [|apply super_counts|].
Qed.

Lemma recounted_inodes a m : is_u64 m -> recounted a (set_free_inodes m a).
Proof.
  intros Hm. assert (set_free_inodes m a = set_free_inodes m (set_free_blocks (free_blocks a) a)) as E by (by destruct a).
  rewrite E at 1. split; [|by exists (free_blocks a), m]. intros F. by apply recounted_words; [apply super_counts| |].
Qed.

Section Step.
Context {D : Type} `{FsDeviceLaws D}.
Context (dev : Z).
Implicit Types (s : fs D) (W : Z -> Prop).

(** A block of the checksum region. *)
Definition region_block (super : adytumfs_superblock) (b : Z) : Prop :=
  data_checksum_region super <= b < total_blocks super - 1 - block_bitmap_blocks super - inode_table_blocks super.

(** Where a step that writes the data blocks [W] can write. *)
Definition reach (super : adytumfs_superblock) W : Z -> Z -> Prop :=
  fun i x => i = dev /\ exists b, (data_block super b /\ W b \/ region_block super b) /\ in_block b x.

Record fs_step W s s' : Prop := {
  fs_ok : window_ok dev s';
  fs_super : recounted (super s) (super s');
  fs_kept : kept (reach (super s) W) (disk s) (disk s');
  fs_sums : forall b, data_block (super s) b -> ~ W b -> checksum dev s' b = checksum dev s b;
  fs_others : forall e d, st_device (staging s e) = Some d -> d <> dev -> staging s' e = staging s e
}.

Lemma recounted_data a b c : recounted a b -> data_block b c <-> data_block a c.
Proof. by intros (_ & n & m & ->). Qed.

Lemma recounted_reach a b W i x : recounted a b -> reach b W i x <-> reach a W i x.
Proof. by intros (_ & n & m & ->). Qed.

Lemma reach_weaken super W W' i x : (forall b, data_block super b -> W b -> W' b) -> reach super W i x -> reach super W' i x.
Proof. intros Hw (Hi & b & [[Hd Hb]|Hb] & Hx); (split; [done|]); exists b; split; auto. Qed.

Lemma fs_step_weaken W W' s s' : (forall b, data_block (super s) b -> W b -> W' b) -> fs_step W s s' -> fs_step W' s s'.
Proof.
  intros Hw [A B C E F]. split; [done|done| | |done].
  - eapply kept_weaken; [|exact C]. intros i x. by apply reach_weaken.
  - intros b Hb Hn. apply E; [done|]. auto.
Qed.

Lemma fs_step_trans W s1 s2 s3 : fs_step W s1 s2 -> fs_step W s2 s3 -> fs_step W s1 s3.
Proof.
  intros [A1 B1 C1 E1 F1] [A2 B2 C2 E2 F2]. split; [done|by eapply recounted_trans| | |].
  - eapply media_kept_trans; [exact C1|]. eapply kept_weaken; [|exact C2]. intros i x. apply (recounted_reach _ _ W i x B1).
  - intros b Hb Hn. rewrite E2, E1; [done|done|done|by apply (recounted_data _ _ b B1)|done].
  - intros e d He Hd. pose proof (F1 e d He Hd) as E. rewrite <- E in He. by rewrite (F2 e d He Hd).
Qed.

(** ** What a step keeps *)

Lemma metadata_not_reach s W slot tbl k x :
  window_ok dev s -> 0 <= k < AdytumCommit.set_size (super s) tbl -> in_block (staged_block (super s) slot tbl k) x -> ~ reach (super s) W dev x.
Proof.
  intros [W1 W2 _ _] Hk Hx (_ & b & Hb & Hx'). pose proof (staged_block_range (super s) W1 W2 slot tbl k Hk) as [H1 H2].
  rewrite (in_block_unique _ _ _ Hx Hx') in H1, H2. destruct W1. unfold data_block, region_block in Hb. lia.
Qed.

Lemma step_content W s s' b : fs_step W s s' -> window_ok dev s -> data_block (super s) b -> ~ W b -> content (disk s') dev b = content (disk s) dev b.
Proof.
  intros [_ _ C _ _] [W1 _ _ _] Hd Hn. apply (kept_content _ _ _ _ _ C). intros x Hx (_ & b' & Hb & Hx').
  pose proof (in_block_unique _ _ _ Hx Hx') as <-. destruct Hb as [[_ ?]|Hr]; [done|]. unfold region_block, data_block in *. lia.
Qed.

Lemma step_sealed W s s' b : fs_step W s s' -> window_ok dev s -> data_block (super s) b -> ~ W b -> sealed dev s' b <-> sealed dev s b.
Proof. intros F Ws Hd Hn. unfold sealed. by rewrite (fs_sums _ _ _ F b Hd Hn), (step_content _ _ _ _ F Ws Hd Hn). Qed.

(** The sets the last commit left are not touched. *)
Lemma step_committed W s s' tbl k :
  fs_step W s s' -> window_ok dev s -> 0 <= k < AdytumCommit.set_size (super s) tbl -> committed dev s' tbl k = committed dev s tbl k.
Proof.
  intros F Ws Hk. unfold committed. destruct (fs_super _ _ _ F) as (_ & n & m & ->). apply (kept_content _ _ _ _ _ (fs_kept _ _ _ F)).
  intros x Hx. by eapply metadata_not_reach.
Qed.

Lemma step_committed_bit W s s' b :
  fs_step W s s' -> window_ok dev s -> 0 <= b < total_blocks (super s) -> committed_bit dev s' b = committed_bit dev s b.
Proof. intros F Ws Hb. unfold committed_bit. rewrite (step_committed W s s'); [done|done|done|]. exact (proj1 (bitmap_index dev s b Ws Hb)). Qed.

(** ** The steps of the parts *)

Lemma nowhere_reach super W d d' : kept nowhere d d' -> kept (reach super W) d d'.
Proof. apply kept_weaken. intros i x []. Qed.

Lemma stage_fs W s s' : window_ok dev s' -> stage_step dev s s' -> fs_step W s s'.
Proof.
  intros Ws [A B C]. split; [done|rewrite A; apply recounted_refl|by apply nowhere_reach| |done].
  intros b _ _. unfold checksum. by rewrite A, (kept_nowhere_content dev _ _ _ B).
Qed.

Lemma same_fs W s s' : window_ok dev s -> same_window s s' -> fs_step W s s'.
Proof. intros Ws S. apply stage_fs; [by eapply same_ok|by apply same_stage]. Qed.

Lemma count_fs W f free s s' : count_step dev f free s s' -> fs_step W s s'.
Proof.
  intros [A B C E T _ U]. split; [done|rewrite B; by apply recounted_blocks|by apply nowhere_reach| |done].
  intros b _ _. unfold checksum. by rewrite B, (kept_nowhere_content dev _ _ _ C).
Qed.

(** A step of the whole volume: [W] is written, the bits become [f] and the
    inodes [g]. *)
Record vol_step W (f : Z -> bool) (g : Z -> option adytumfs_inode) s s' : Prop := {
  vo_step : fs_step W s s';
  vo_bit : forall b, 0 <= b < total_blocks (super s) -> bit dev s' b = f b;
  vo_inode : forall n, inode_number s n -> inode_at dev s' n = g n
}.

Lemma vol_step_trans W f g f' g' s1 s2 s3 : vol_step W f g s1 s2 -> vol_step W f' g' s2 s3 -> vol_step W f' g' s1 s3.
Proof.
  intros [A1 B1 C1] [A2 B2 C2]. pose proof (fs_super _ _ _ A1) as (_ & n & m & E). split; [by eapply fs_step_trans| |].
  - intros b Hb. apply B2. by rewrite E.
  - intros k Hk. apply C2. unfold inode_number. by rewrite E.
Qed.

(** A step after which bits and inodes are what they were before it. *)
Lemma vol_step_idle W f g s1 s2 s3 :
  vol_step W f g s1 s2 -> vol_step W (bit dev s2) (inode_at dev s2) s2 s3 -> vol_step W f g s1 s3.
Proof.
  intros V1 V2. pose proof (vol_step_trans _ _ _ _ _ _ _ _ V1 V2) as [A B C]. split; [done| |].
  - intros b Hb. rewrite B by done. by apply V1.
  - intros n Hn. rewrite C by done. by apply V1.
Qed.

Lemma vol_step_ext W f g f' g' s s' :
  (forall b, 0 <= b < total_blocks (super s) -> f b = f' b) -> (forall n, inode_number s n -> g n = g' n) ->
  vol_step W f g s s' -> vol_step W f' g' s s'.
Proof. intros Hf Hg [A B C]. split; [done| |]; intros; rewrite ?B, ?C; auto. Qed.

Lemma vol_step_weaken W W' f g s s' : (forall b, data_block (super s) b -> W b -> W' b) -> vol_step W f g s s' -> vol_step W' f g s s'.
Proof. intros Hw [A B C]. split; [by eapply fs_step_weaken|done|done]. Qed.

Lemma same_vol W s s' : window_ok dev s -> same_window s s' -> vol_step W (bit dev s) (inode_at dev s) s s'.
Proof.
  intros Ws S. split; [by apply same_fs|intros b _; by apply same_bit|]. intros n _. unfold inode_at. by rewrite (same_view dev _ _ _ _ S).
Qed.

Lemma bits_vol W f s s' : bits_step dev f s s' -> vol_step W f (inode_at dev s) s s'.
Proof.
  intros [A B C E]. split; [by apply stage_fs|intros b Hb; apply E; lia|]. intros n _. unfold inode_at. by rewrite C.
Qed.

Lemma count_vol W f free s s' : count_step dev f free s s' -> vol_step W f (inode_at dev s) s s'.
Proof.
  intros C. split; [by eapply count_fs|intros b Hb; apply C; lia|]. intros n _. unfold inode_at. by rewrite (cs_table _ _ _ _ _ C).
Qed.

Lemma table_vol W g s s' : table_step dev g s s' -> vol_step W (bit dev s) g s s'.
Proof. intros [A B C E]. split; [by apply stage_fs|intros b _; apply C|done]. Qed.

(** The window itself does not change when data is written. *)
Lemma kept_view W s s' tbl k :
  window_ok dev s -> staging s' = staging s -> super s' = super s -> kept (reach (super s) W) (disk s) (disk s') ->
  0 <= k < AdytumCommit.set_size (super s) tbl -> view dev s' tbl k = view dev s tbl k.
Proof.
  intros Ws A B K Hk. unfold view. rewrite (same_window_image dev _ _ _ _ A), B. f_equal. apply (kept_content _ _ _ _ _ K).
  intros x Hx. by eapply metadata_not_reach.
Qed.

Lemma data_vol s s' b :
  window_ok dev s -> data_block (super s) b -> data_step dev (fun c => c = b \/ c = sum_block (super s) b) (eq b) s s' ->
  vol_step (eq b) (bit dev s) (inode_at dev s) s s'.
Proof.
  intros Ws Hb [A B K E].
  assert (kept (reach (super s) (eq b)) (disk s) (disk s')) as K'.
  { eapply kept_weaken; [|exact K]. intros i x (Hi & c & Hc & Hx). split; [done|]. exists c. split; [|done].
    destruct Hc as [->| ->]; [left; split; [done|reflexivity]|right]. apply (sum_place (super s) (wo_layout _ _ Ws) b Hb). }
  split; [split| |].
  - by apply (window_ok_ext dev s).
  - rewrite B. apply recounted_refl.
  - exact K'.
  - intros b' Hb' Hn. by apply E.
  - intros e d _ _. by rewrite A.
  - intros b' Hb'. unfold bit. rewrite (kept_view (eq b) s s'); [done|done|done|done|done|]. exact (proj1 (bitmap_index dev s b' Ws Hb')).
  - intros n Hn. unfold inode_at. rewrite (kept_view (eq b) s s'); [done|done|done|done|done|]. exact (proj1 (inode_place dev s n Ws Hn)).
Qed.

End Step.

End AdytumStep.
