(* ===== verification/AdytumFiles.v ===== *)
(** AdytumFS: files own their blocks.

    [consistent] is what makes files independent: a block of a file is a data
    block, marked in the bitmap, and of no other file.  The operations on
    inodes keep it, and write only blocks that are free, in the window and in
    the last commit. *)

From S2P Require Import Prelude Wire Crc32c AdytumFormat AdytumVolume AdytumDevice AdytumCommit AdytumWindow AdytumAlloc AdytumData AdytumInode AdytumExtents AdytumTable AdytumStep.

Module AdytumFiles.
Import Wire AdytumFormat AdytumVolume AdytumDevice AdytumCommit AdytumWindow AdytumAlloc AdytumData AdytumInode AdytumExtents AdytumTable AdytumStep.

#[local] Opaque crc32c zero_block.

Record inode_shape (i : adytumfs_inode) : Prop := {
  sh_packed : packed (direct i);
  sh_blocks : blocks i = Z.of_nat (length (blocks_of (direct i)));
  sh_nodup : NoDup (blocks_of (direct i))
}.

Section Files.
Context {D : Type} `{FsDeviceLaws D}.
Context (dev : Z).
Implicit Types (s : fs D).

Local Abbreviation bit := (bit dev).
Local Abbreviation inode_at := (inode_at dev).
Local Abbreviation vacant := (vacant dev).
Local Abbreviation vol_step := (vol_step dev).

(** The file [n] has the block [b]. *)
Definition owns s (n b : Z) : Prop :=
  inode_number s n /\ exists i, inode_at s n = Some i /\ mode i <> 0 /\ b ∈ blocks_of (direct i).

Record consistent s : Prop := {
  co_ok : window_ok dev s;
  co_shape : forall n i, inode_number s n -> inode_at s n = Some i -> mode i <> 0 -> inode_shape i;
  co_marked : forall n b, owns s n b -> data_block (super s) b /\ bit s b = true;
  co_apart : forall n m b, owns s n b -> owns s m b -> n = m
}.

(** [i] can be the inode of the file [n]: its blocks are marked and no other
    file has them. *)
Record carries s (n : Z) (i : adytumfs_inode) : Prop := {
  ca_fields : inode_fields i;
  ca_shape : inode_shape i;
  ca_blocks : forall b, b ∈ blocks_of (direct i) -> data_block (super s) b /\ bit s b = true /\ forall m, m <> n -> ~ owns s m b
}.

Lemma data_total s b : window_ok dev s -> data_block (super s) b -> 0 <= b < total_blocks (super s) /\ b + 1 < 2 ^ 32.
Proof.
  intros [[L1 L2 L3 L4 L5 L6 L7 L8 L9 L10] Ht _ _] Hb. unfold data_block in Hb. change (2 ^ 29) with 536870912 in Ht. change (2 ^ 32) with 4294967296. lia.
Qed.

Lemma table_carries s n i : consistent s -> inode_number s n -> inode_at s n = Some i -> mode i <> 0 -> carries s n i.
Proof.
  intros C Hn Hi Hm. split; [by eapply inode_at_fields; [apply C|]|by eapply co_shape|].
  intros b Hb. assert (owns s n b) as Ho by (split; [done|]; by exists i). destruct (co_marked _ C n b Ho) as [H1 H2].
  split; [done|]. split; [done|]. intros m Hm' Ho'. by apply Hm', (co_apart _ C m n b).
Qed.

Lemma step_numbers W f g s s' n : vol_step W f g s s' -> inode_number s' n <-> inode_number s n.
Proof. intros V. destruct (fs_super _ _ _ _ (vo_step _ _ _ _ _ _ V)) as (_ & a & b & E). unfold inode_number. by rewrite E. Qed.

Lemma step_data W f g s s' b : vol_step W f g s s' -> data_block (super s') b <-> data_block (super s) b.
Proof. intros V. apply recounted_data. apply V. Qed.

(** ** Steps that keep the inodes *)

Lemma step_owns W f s s' n b : vol_step W f (inode_at s) s s' -> owns s' n b <-> owns s n b.
Proof.
  intros V. unfold owns. rewrite (step_numbers _ _ _ _ _ n V).
  split; intros (Hn & i & Hi & Hm & Hb); (split; [done|]); exists i; rewrite (vo_inode _ _ _ _ _ _ V n Hn) in *; auto.
Qed.

Lemma marks_consistent W f s s' :
  vol_step W f (inode_at s) s s' -> consistent s -> (forall n b, owns s n b -> f b = true) -> consistent s'.
Proof.
  intros V [C1 C2 C3 C4] Hf. split.
  - apply V.
  - intros n i Hn Hi. rewrite (step_numbers _ _ _ _ _ n V) in Hn. rewrite (vo_inode _ _ _ _ _ _ V n Hn) in Hi. by apply (C2 n).
  - intros n b Ho. rewrite (step_owns _ _ _ _ n b V) in Ho. destruct (C3 n b Ho) as [Hd _]. rewrite (step_data _ _ _ _ _ b V). split; [done|].
    rewrite (vo_bit _ _ _ _ _ _ V b (proj1 (data_total s b C1 Hd))). by apply (Hf n).
  - intros n m b. rewrite !(step_owns _ _ _ _ _ b V). apply C4.
Qed.

Lemma marks_carries W f s s' n i :
  vol_step W f (inode_at s) s s' -> window_ok dev s -> carries s n i -> (forall b, b ∈ blocks_of (direct i) -> f b = true) -> carries s' n i.
Proof.
  intros V Ws [A B C] Hf. split; [done|done|]. intros b Hb. destruct (C b Hb) as (H1 & H2 & H3). rewrite (step_data _ _ _ _ _ b V).
  split; [done|]. split; [rewrite (vo_bit _ _ _ _ _ _ V b (proj1 (data_total s b Ws H1))); by apply Hf|].
  intros m Hm. rewrite (step_owns _ _ _ _ m b V). by apply H3.
Qed.

(** ** Writing an inode *)

Lemma write_owns W f s s' n i m b :
  vol_step W f (fun k => if k =? n then Some i else inode_at s k) s s' -> m <> n -> owns s' m b <-> owns s m b.
Proof.
  intros V Hm. unfold owns. rewrite (step_numbers _ _ _ _ _ m V).
  split; intros (Hn & j & Hj & Hd & Hb); (split; [done|]); exists j; rewrite (vo_inode _ _ _ _ _ _ V m Hn), (proj2 (Z.eqb_neq m n) Hm) in *; auto.
Qed.

Lemma write_own W f s s' n i b :
  vol_step W f (fun k => if k =? n then Some i else inode_at s k) s s' -> owns s' n b -> mode i <> 0 /\ b ∈ blocks_of (direct i).
Proof.
  intros V (Hn & j & Hj & Hd & Hb). rewrite (step_numbers _ _ _ _ _ n V) in Hn. rewrite (vo_inode _ _ _ _ _ _ V n Hn), Z.eqb_refl in Hj. by injection Hj as <-.
Qed.

Lemma write_consistent W f s s' n i :
  vol_step W f (fun k => if k =? n then Some i else inode_at s k) s s' -> consistent s -> carries s n i \/ mode i = 0 ->
  (forall m b, m <> n -> owns s m b -> f b = true) -> (forall b, mode i <> 0 -> b ∈ blocks_of (direct i) -> f b = true) -> consistent s'.
Proof.
  intros V [C1 C2 C3 C4] Hc Hf Hf'. split.
  - apply V.
  - intros k j Hk Hj Hd. rewrite (step_numbers _ _ _ _ _ k V) in Hk. rewrite (vo_inode _ _ _ _ _ _ V k Hk) in Hj. destruct (Z.eqb_spec k n) as [->|Hne].
    + injection Hj as <-. destruct Hc as [Hc|?]; [apply Hc|done].
    + by apply (C2 k).
  - intros k b Ho. rewrite (step_data _ _ _ _ _ b V). destruct (decide (k = n)) as [->|Hne].
    + destruct (write_own _ _ _ _ _ _ _ V Ho) as [Hm Hb]. destruct Hc as [Hc|?]; [|done]. destruct (ca_blocks _ _ _ Hc b Hb) as (H1 & _). split; [done|].
      rewrite (vo_bit _ _ _ _ _ _ V b (proj1 (data_total s b C1 H1))). by apply Hf'.
    + rewrite (write_owns _ _ _ _ _ _ _ _ V Hne) in Ho. destruct (C3 k b Ho) as [H1 _]. split; [done|].
      rewrite (vo_bit _ _ _ _ _ _ V b (proj1 (data_total s b C1 H1))). by apply (Hf k).
  - intros k m b Hk Hm. destruct (decide (k = n)) as [->|Hkn], (decide (m = n)) as [->|Hmn]; [done|..].
    + destruct (write_own _ _ _ _ _ _ _ V Hk) as [Hd Hb]. rewrite (write_owns _ _ _ _ _ _ _ _ V Hmn) in Hm.
      destruct Hc as [Hc|?]; [|done]. destruct (ca_blocks _ _ _ Hc b Hb) as (_ & _ & H3). by destruct (H3 m Hmn).
    + destruct (write_own _ _ _ _ _ _ _ V Hm) as [Hd Hb]. rewrite (write_owns _ _ _ _ _ _ _ _ V Hkn) in Hk.
      destruct Hc as [Hc|?]; [|done]. destruct (ca_blocks _ _ _ Hc b Hb) as (_ & _ & H3). by destruct (H3 k Hkn).
    + rewrite (write_owns _ _ _ _ _ _ _ _ V Hkn) in Hk. rewrite (write_owns _ _ _ _ _ _ _ _ V Hmn) in Hm. by apply (C4 k m b).
Qed.

Lemma write_carries W f s s' n i j :
  vol_step W f (fun k => if k =? n then Some i else inode_at s k) s s' -> window_ok dev s -> carries s n j ->
  (forall b, b ∈ blocks_of (direct j) -> f b = true) -> carries s' n j.
Proof.
  intros V Ws [A B C] Hf. split; [done|done|]. intros b Hb. destruct (C b Hb) as (H1 & H2 & H3). rewrite (step_data _ _ _ _ _ b V).
  split; [done|]. split; [rewrite (vo_bit _ _ _ _ _ _ V b (proj1 (data_total s b Ws H1))); by apply Hf|].
  intros m Hm. rewrite (write_owns _ _ _ _ _ _ _ _ V Hm). by apply H3.
Qed.

(** ** A call that fails before it reaches an inode *)

(** Free blocks may have been written or marked; no file is touched. *)
Definition failed s s' : Prop :=
  exists f, vol_step (fun b => vacant s b = true) f (inode_at s) s s' /\
    forall b, 0 <= b < total_blocks (super s) -> bit s b = true -> f b = true.

Lemma failed_consistent s s' : consistent s -> failed s s' -> consistent s'.
Proof. intros C (f & V & Hf). eapply marks_consistent; [exact V|done|]. intros n b Ho. destruct (co_marked _ C n b Ho) as [Hd Hb]. apply Hf; [|done]. apply (data_total s b (co_ok _ C) Hd). Qed.

Lemma failed_same s s' : consistent s -> same_window s s' -> failed s s'.
Proof. intros C S. exists (bit s). split; [apply same_vol; [apply C|done]|done]. Qed.

Lemma failed_refl s : consistent s -> failed s s.
Proof. intros C. apply failed_same; [done|apply same_window_refl]. Qed.

Lemma vacant_bit s b : vacant s b = true -> bit s b = false.
Proof. unfold AdytumAlloc.vacant. destruct (bit s b); [done|done]. Qed.

Lemma vacant_free s n b : consistent s -> vacant s b = true -> ~ owns s n b.
Proof. intros C Hv Ho. apply vacant_bit in Hv. destruct (co_marked _ C n b Ho). congruence. Qed.

Lemma free_vol W s start len :
  window_ok dev s -> is_u64 start -> 0 <= len ->
  let '(r, s') := adytumfs_free_run dev start len s in
  exists f, vol_step W f (inode_at s) s s' /\ (forall b, 0 <= b < start \/ start + len <= b -> f b = bit s b) /\
    (r = Some tt -> forall b, start <= b < start + len -> f b = false).
Proof.
  intros Ws Hs Hl. pose proof (free_spec dev s start len Ws Hs Hl) as Hf. destruct (adytumfs_free_run dev start len s) as [[[]|] s'].
  - destruct Hf as (_ & _ & _ & Hf). eexists. split; [by eapply count_vol|]. split; intros; cbn beta.
    + destruct (Z.leb_spec start b), (Z.ltb_spec b (start + len)); done || lia.
    + rewrite (proj2 (Z.leb_le _ _)), (proj2 (Z.ltb_lt _ _)) by lia. done.
  - destruct Hf as (f & Hf & Hk). exists f. split; [by apply bits_vol|]. split; [done|discriminate].
Qed.

(** A run that was vacant is given back. *)
Lemma undo_failed s s1 f start len :
  consistent s -> is_u64 start -> 0 <= len -> (forall b, start <= b < start + len -> vacant s b = true) ->
  vol_step (fun b => vacant s b = true) f (inode_at s) s s1 -> (forall b, 0 <= b < total_blocks (super s) -> bit s b = true -> f b = true) ->
  failed s (snd (adytumfs_free_run dev start len s1)).
Proof.
  intros C Hs Hl Hv V Hf. pose proof (fs_ok _ _ _ _ (vo_step _ _ _ _ _ _ V)) as W1.
  pose proof (free_vol (fun b => vacant s b = true) s1 start len W1 Hs Hl) as Hr. destruct (adytumfs_free_run dev start len s1) as [r s2]. cbn [snd].
  destruct Hr as (f2 & V2 & Hout & _). exists f2. split.
  - eapply vol_step_ext; [intros b Hb; reflexivity| |exact (vol_step_trans _ _ _ _ _ _ _ _ _ V V2)]. intros n Hn. by apply (vo_inode _ _ _ _ _ _ V).
  - intros b Hb Ht. rewrite Hout.
    + rewrite (vo_bit _ _ _ _ _ _ V b Hb). by apply Hf.
    + destruct (decide (start <= b < start + len)) as [Hi|]; [|lia]. pose proof (vacant_bit s b (Hv b Hi)). congruence.
Qed.

(** ** Zeroed runs *)

Definition in_run (start n b : Z) : Prop := start <= b < start + n.

Lemma zero_run_spec s start n :
  window_ok dev s -> (forall b, in_run start n b -> data_block (super s) b) -> 0 <= n ->
  let '(r, s') := for_to start (start + n) (fun block => adytumfs_block_zero dev block) s in
  vol_step (in_run start n) (bit s) (inode_at s) s s' /\
  (r = Some tt -> forall b, in_run start n b -> content (disk s') dev b = zero_block /\ sealed dev s' b).
Proof.
  intros Ws Hd Hn.
  pose (J s' := vol_step (in_run start n) (bit s) (inode_at s) s s').
  pose (I i s' := J s' /\ forall b, start <= b < i -> content (disk s') dev b = zero_block /\ sealed dev s' b).
  assert (match for_to start (start + n) (fun block => adytumfs_block_zero dev block) s with (Some _, s') => I (start + n) s' | (None, s') => J s' end) as Hind.
  { pose proof (for_to_ind I J start (start + n) (fun block => adytumfs_block_zero dev block) s) as Hind. rewrite Z.max_r in Hind by lia. apply Hind; clear Hind.
    - split; [apply same_vol; [done|apply same_window_refl]|lia].
    - intros i s1 Hi [V Hz]. pose proof (fs_ok _ _ _ _ (vo_step _ _ _ _ _ _ V)) as W1. assert (data_block (super s1) i) as Hd1 by (rewrite (step_data _ _ _ _ _ i V); by apply Hd).
      pose proof (block_zero_spec dev s1 i W1 Hd1) as Hb. destruct (adytumfs_block_zero dev i s1) as [r s2]. destruct Hb as [S2 Hb].
      pose proof (data_vol dev s1 s2 i W1 Hd1 S2) as V2.
      assert (J s2) as HJ.
      { eapply vol_step_idle; [exact V|]. eapply vol_step_weaken; [|exact V2]. intros b _ <-. exact Hi. }
      destruct r as [[]|]; [|done]. split; [done|]. intros b Hb'. destruct (decide (b = i)) as [->|Hne]; [by apply Hb|].
      destruct (Hz b ltac:(lia)) as [Hz1 Hz2]. assert (data_block (super s1) b) as Hdb by (rewrite (step_data _ _ _ _ _ b V); apply Hd; unfold in_run; lia).
      rewrite (step_content dev _ _ _ _ (vo_step _ _ _ _ _ _ V2) W1 Hdb) by congruence. rewrite (step_sealed dev _ _ _ _ (vo_step _ _ _ _ _ _ V2) W1 Hdb) by congruence. split; assumption. }
  destruct (for_to _ _ _ s) as [[[]|] s']; [destruct Hind as [HJ Hz]; split; [exact HJ|]; intros _; exact Hz|split; [exact Hind|discriminate]].
Qed.

(** ** Growing a file *)

Section Grow.
Context (s : fs D) (n : Z) (i : adytumfs_inode) (new : Z).
Context (C : consistent s) (A : carries s n i) (Hnew : blocks i < new).

Local Abbreviation add := (new - blocks i).

(** The bits after the run is marked. *)
Definition marked (start len : Z) : Z -> bool := fun b => if (start <=? b) && (b <? start + len) then true else bit s b.

Lemma marked_in start len b : in_run start len b -> marked start len b = true.
Proof. intros Hb. unfold in_run in Hb. unfold marked. rewrite (proj2 (Z.leb_le _ _)), (proj2 (Z.ltb_lt _ _)) by lia. done. Qed.

Lemma marked_more start len b : bit s b = true -> marked start len b = true.
Proof. intros Hb. unfold marked. by destruct (_ && _). Qed.

(** What a file that has grown by a run looks like. *)
Record grown (start : Z) (i' : adytumfs_inode) s' : Prop := {
  gr_run : first_run dev s add start;
  gr_inode : i' = set_extents (direct i') new i;
  gr_blocks : blocks_of (direct i') = blocks_of (direct i) ++ seqZ start add;
  gr_consistent : consistent s';
  gr_carries : carries s' n i';
  gr_step : vol_step (in_run start add) (marked start add) (inode_at s) s s';
  gr_zero : forall b, in_run start add b -> content (disk s') dev b = zero_block /\ sealed dev s' b
}.

Lemma run_data start b : first_run dev s add start -> in_run start add b -> data_block (super s) b /\ vacant s b = true.
Proof. intros [Hr Hv _] Hb. unfold in_run in Hb. split; [unfold data_block; lia|by apply Hv]. Qed.

Lemma run_small start : first_run dev s add start -> 0 <= start /\ start + add < 2 ^ 29 /\ new < 2 ^ 32.
Proof.
  intros [Hr _ _]. destruct A as [_ [_ Pb Pn] A3]. pose proof (co_ok _ C) as [[] Wt _ _]. change (2 ^ 29) with 536870912 in *. change (2 ^ 32) with 4294967296.
  assert (length (blocks_of (direct i)) <= length (seqZ 0 (total_blocks (super s))))%nat as Hl.
  { apply submseteq_length, NoDup_submseteq; [exact Pn|]. intros b Hb. destruct (A3 b Hb) as (Hd & _). unfold data_block in Hd. apply elem_of_seqZ. lia. }
  rewrite length_seqZ in Hl. lia.
Qed.

Lemma grow_carries s' start l :
  first_run dev s add start -> append_run (direct i) start add = Some l -> vol_step (in_run start add) (marked start add) (inode_at s) s s' ->
  carries s' n (set_extents l new i) /\ blocks_of l = blocks_of (direct i) ++ seqZ start add.
Proof.
  intros Hr Hl V. destruct (run_small start Hr) as (Hs1 & Hs0 & Hn2). assert (start + add < 2 ^ 32) as Hs2 by lia.
  destruct A as [[F1 F2 F3 F4 F5] [P1 P2 P3] A3]. pose proof (co_ok _ C) as Ws.
  pose proof (append_run_spec (direct i) start add P1 ltac:(lia) Hs1 Hs2 ltac:(lia)) as Ha. rewrite Hl in Ha. destruct Ha as [Q1 Q2].
  destruct (append_run_fields (direct i) start add l F5) as [G1 G2]; [unfold is_u64; change (2 ^ 32) with 4294967296 in *; lia|done|].
  split; [|done]. split; cbn [direct set_extents].
  - apply set_extents_fields; [by split|done|by rewrite G2|]. unfold is_u64. change (2 ^ 32) with 4294967296 in *. lia.
  - split; cbn [direct set_extents blocks]; [done| |].
    + rewrite Q2, length_app, length_seqZ. lia.
    + rewrite Q2. apply NoDup_app. split; [done|]. split; [|apply NoDup_seqZ]. intros b Hb Hb'%elem_of_seqZ.
      destruct (run_data start b Hr ltac:(unfold in_run; lia)) as [_ Hv%vacant_bit]. destruct (A3 b Hb) as (_ & H2 & _). congruence.
  - intros b Hb. rewrite (step_data _ _ _ _ _ b V). rewrite Q2, elem_of_app in Hb. destruct Hb as [Hb|Hb%elem_of_seqZ].
    + destruct (A3 b Hb) as (H1 & H2 & H3). split; [done|]. split; [|intros m Hm; rewrite (step_owns _ _ _ _ m b V); by apply H3].
      rewrite (vo_bit _ _ _ _ _ _ V b (proj1 (data_total s b Ws H1))). by apply marked_more.
    + assert (in_run start add b) as Hi by (unfold in_run; lia). destruct (run_data start b Hr Hi) as [H1 H2]. split; [done|].
      split; [rewrite (vo_bit _ _ _ _ _ _ V b (proj1 (data_total s b Ws H1))); by apply marked_in|].
      intros m _. rewrite (step_owns _ _ _ _ m b V). by apply vacant_free.
Qed.

Lemma grow_spec :
  let '(r, s') := adytumfs_inode_grow dev i new s in
  match r with
  | Some i' => exists start, grown start i' s'
  | None => failed s s'
  end.
Proof.
  pose proof (co_ok _ C) as Ws. unfold adytumfs_inode_grow. rewrite (proj2 (Z.leb_gt new (blocks i))) by lia. rewrite bind_run.
  pose proof (alloc_spec dev s add Ws ltac:(lia)) as Ha. destruct (adytumfs_alloc_run dev add s) as [[start|] s1]; cbn [alloc_answer] in Ha.
  - destruct Ha as [Hr Hc]. pose proof (count_vol dev (in_run start add) _ _ _ _ Hc) as V1. fold (marked start add) in V1.
    destruct (append_run (direct i) start add) as [l|] eqn:Hl; rewrite bind_run.
    + pose proof (zero_run_spec s1 start add (cs_ok _ _ _ _ _ Hc)) as Hz. destruct (for_to _ _ _ s1) as [[[]|] s2].
      * destruct Hz as [V2 Hz]; [intros b Hb; rewrite (step_data _ _ _ _ _ b V1); by apply (run_data start)|lia|].
        pose proof (vol_step_idle _ _ _ _ _ _ _ V1 V2) as V. destruct (grow_carries s2 start l Hr Hl V) as [Hca Hbl].
        exists start. split; cbn [direct set_extents]; [exact Hr|reflexivity|exact Hbl| |exact Hca|exact V|exact (Hz eq_refl)].
        eapply marks_consistent; [exact V|exact C|]. intros m b Ho. apply marked_more. by apply (co_marked _ C m).
      * destruct Hz as [V2 _]; [intros b Hb; rewrite (step_data _ _ _ _ _ b V1); by apply (run_data start)|lia|].
        pose proof (vol_step_idle _ _ _ _ _ _ _ V1 V2) as V. exists (marked start add). split; [|intros b _; apply marked_more].
        eapply vol_step_weaken; [|exact V]. intros b _ Hb. by apply (run_data start).
    + unfold ignore, fail. apply (undo_failed s s1 (marked start add)); [exact C| |lia| | |].
      * pose proof (fr_range _ _ _ _ Hr). destruct Ws as [[] Wt _ _]. change (2 ^ 29) with 536870912 in Wt. unfold is_u64. lia.
      * apply Hr.
      * eapply count_vol. exact Hc.
      * intros b _. apply marked_more.
  - destruct Ha as (f & Hf & Hk). exists f. split; [by apply bits_vol|auto].
Qed.

End Grow.

End Files.

End AdytumFiles.
