(* ===== verification/AdytumRemap.v ===== *)
(** AdytumFS: redirected writes, [adytumfs_inode_remap] of
    [src/fs/adytumfs_inode.c].

    A block of a file is replaced by a fresh one that holds the new content;
    the old one is given back after the inode names the new one. *)

From S2P Require Import Prelude Wire Crc32c AdytumFormat AdytumVolume AdytumDevice AdytumCommit AdytumWindow AdytumAlloc AdytumData AdytumInode AdytumExtents AdytumTable AdytumStep AdytumFiles.

Module AdytumRemap.
Import Wire AdytumFormat AdytumVolume AdytumDevice AdytumCommit AdytumWindow AdytumAlloc AdytumData AdytumInode AdytumExtents AdytumTable AdytumStep AdytumFiles.

#[local] Opaque crc32c zero_block.

(** ** Lists with one element replaced *)

Lemma elem_of_replace (l : list Z) k x b : b ∈ <[k := x]> l -> b = x \/ b ∈ l.
Proof. intros [j Hj]%list_elem_of_lookup. rewrite list_lookup_insert_Some in Hj. destruct Hj as [(_ & <- & _)|[_ Hj]]; [by left|right]. by eapply list_elem_of_lookup_2. Qed.

Lemma replaced_gone (l : list Z) k x old : NoDup l -> l !! k = Some old -> x <> old -> old ∉ <[k := x]> l.
Proof.
  intros Hn Hk Hx [j Hj]%list_elem_of_lookup. rewrite list_lookup_insert_Some in Hj. destruct Hj as [(_ & ? & _)|[Hd Hj]]; [congruence|].
  apply Hd. by eapply NoDup_lookup.
Qed.

Lemma NoDup_replace (l : list Z) k x : NoDup l -> x ∉ l -> NoDup (<[k := x]> l).
Proof.
  intros Hn Hx. apply NoDup_alt. intros a b y Ha Hb. rewrite list_lookup_insert_Some in Ha, Hb.
  destruct Ha as [(-> & <- & _)|[Hka Ha]], Hb as [(-> & E & _)|[Hkb Hb]]; [done|..].
  - destruct Hx. by eapply list_elem_of_lookup_2.
  - subst y. destruct Hx. by eapply list_elem_of_lookup_2.
  - by eapply NoDup_lookup.
Qed.

Section Remap.
Context {D : Type} `{FsDeviceLaws D}.
Context (dev : Z).
Implicit Types (s : fs D).

Local Abbreviation bit := (bit dev).
Local Abbreviation inode_at := (inode_at dev).
Local Abbreviation vacant := (vacant dev).
Local Abbreviation vol_step := (vol_step dev).
Local Abbreviation owns := (owns dev).
Local Abbreviation consistent := (consistent dev).
Local Abbreviation carries := (carries dev).

Section One.
Context (s : fs D) (n : Z) (i : adytumfs_inode) (logical : Z) (bytes : list Z).
Context (C : consistent s) (A : carries s n i) (Hm : mode i <> 0) (Hn : 0 <= n) (Hl : 0 <= logical) (Hb : is_block bytes).

(** The file after one block is replaced. *)
Record remapped (old fresh : Z) (i' : adytumfs_inode) s' : Prop := {
  rm_old : blocks_of (direct i) !! Z.to_nat logical = Some old;
  rm_fresh : data_block (super s) fresh /\ vacant s fresh = true;
  rm_inode : i' = set_extents (direct i') (blocks i) i;
  rm_blocks : blocks_of (direct i') = <[Z.to_nat logical := fresh]> (blocks_of (direct i));
  rm_number : inode_number s n;
  rm_step : exists f, vol_step (eq fresh) f (fun m => if m =? n then Some i' else inode_at s m) s s' /\
    forall b, 0 <= b < total_blocks (super s) -> b <> old -> f b = if b =? fresh then true else bit s b;
  rm_content : content (disk s') dev fresh = bytes /\ sealed dev s' fresh;
  rm_consistent : consistent s';
  rm_carries : carries s' n i'
}.

(** The block is allocated and holds the new content. *)
Record staged_copy (fresh : Z) s2 : Prop := {
  sy_fresh : data_block (super s) fresh /\ vacant s fresh = true;
  sy_step : vol_step (eq fresh) (fun b => if b =? fresh then true else bit s b) (inode_at s) s s2;
  sy_content : content (disk s2) dev fresh = bytes /\ sealed dev s2 fresh
}.

Lemma fresh_range fresh : data_block (super s) fresh -> is_u64 fresh /\ 0 <= fresh /\ fresh + 1 < 2 ^ 32.
Proof. intros Hd. destruct (data_total dev s fresh (co_ok _ _ C) Hd) as [H1 H2]. unfold is_u64. change (2 ^ 32) with 4294967296 in *. lia. Qed.

Lemma undo_fresh s2 fresh f :
  data_block (super s) fresh -> vacant s fresh = true ->
  vol_step (eq fresh) f (inode_at s) s s2 -> (forall b, 0 <= b < total_blocks (super s) -> bit s b = true -> f b = true) ->
  failed dev s (snd (adytumfs_free_run dev fresh 1 s2)).
Proof.
  intros Hd Hv V Hf. destruct (fresh_range fresh Hd) as (H1 & H2 & H3). apply (undo_failed dev s s2 f); [exact C|exact H1|lia| | |exact Hf].
  - intros b Hr. by replace b with fresh by lia.
  - eapply vol_step_weaken; [|exact V]. by intros b _ <-.
Qed.

Lemma copy_consistent fresh s2 : staged_copy fresh s2 -> consistent s2.
Proof.
  intros [_ V _]. eapply marks_consistent; [exact V|exact C|]. intros m b Ho. cbn beta. destruct (b =? fresh); [done|]. by apply (co_marked _ _ C m).
Qed.

Lemma copy_carries fresh s2 i' old :
  staged_copy fresh s2 -> blocks_of (direct i) !! Z.to_nat logical = Some old -> adytumfs_extent_reroute i logical fresh = Some i' ->
  carries s2 n i' /\ i' = set_extents (direct i') (blocks i) i /\ blocks_of (direct i') = <[Z.to_nat logical := fresh]> (blocks_of (direct i)).
Proof.
  intros [[Hd Hv] V _] Ho Hr. pose proof (co_ok _ _ C) as Ws. destruct (fresh_range fresh Hd) as (R1 & R2 & R3).
  destruct A as [F [P1 P2 P3] A3]. pose proof (reroute_spec i logical fresh P1 Hl R2 R3) as Hs. rewrite Hr in Hs. destruct Hs as (Q1 & _ & Q2 & Q3).
  split; [|done]. assert (fresh ∉ blocks_of (direct i)) as Hnew.
  { intros Hi. destruct (A3 fresh Hi) as (_ & Hbit & _). pose proof (vacant_bit dev s fresh Hv). congruence. }
  split; [apply (reroute_fields i logical fresh); assumption|split; [done| |rewrite Q2; by apply NoDup_replace]|].
  - rewrite Q3. cbn [blocks set_extents direct]. by rewrite Q2, length_insert.
  - intros b Hin. rewrite Q2 in Hin. rewrite (step_data dev _ _ _ _ _ b V). apply elem_of_replace in Hin as [->|Hin].
    + split; [done|]. split; [rewrite (vo_bit _ _ _ _ _ _ V fresh (proj1 (data_total dev s fresh Ws Hd))); by rewrite Z.eqb_refl|].
      intros m _. rewrite (step_owns dev _ _ _ _ m fresh V). by apply vacant_free.
    + destruct (A3 b Hin) as (H1 & H2 & H3). split; [done|]. split.
      * rewrite (vo_bit _ _ _ _ _ _ V b (proj1 (data_total dev s b Ws H1))). by destruct (b =? fresh).
      * intros m Hne. rewrite (step_owns dev _ _ _ _ m b V). by apply H3.
Qed.

Section Done.
Context (old fresh : Z) (i' : adytumfs_inode) (s2 s3 s4 : fs D) (f : Z -> bool).
Context (Y : staged_copy fresh s2) (Ho : blocks_of (direct i) !! Z.to_nat logical = Some old).
Context (Hr : adytumfs_extent_reroute i logical fresh = Some i').
Context (V3 : vol_step (fun _ => False) (bit s2) (fun m => if m =? n then Some i' else inode_at s2 m) s2 s3) (Hnum : inode_number s2 n).
Context (V4 : vol_step (fun _ => False) f (inode_at s3) s3 s4) (Hout : forall b, 0 <= b < old \/ old + 1 <= b -> f b = bit s3 b).

Lemma done_distinct : fresh <> old.
Proof.
  intros He. destruct (ca_blocks _ _ _ _ A old (list_elem_of_lookup_2 _ _ _ Ho)) as (_ & Ob & _).
  pose proof (vacant_bit dev s fresh (proj2 (sy_fresh _ _ Y))). congruence.
Qed.

Lemma done_consistent3 : consistent s3 /\ carries s3 n i'.
Proof.
  destruct (copy_carries fresh s2 i' old Y Ho Hr) as (Ca & _). pose proof (copy_consistent fresh s2 Y) as C2. split.
  - apply (write_consistent dev _ _ _ _ _ _ V3 C2); [by left|intros m b _ Ho'; by apply (co_marked _ _ C2 m)|]. intros b _ Hin. by apply (ca_blocks _ _ _ _ Ca).
  - apply (write_carries dev _ _ _ _ _ _ _ V3 (co_ok _ _ C2) Ca). intros b Hin. by apply (ca_blocks _ _ _ _ Ca).
Qed.

Lemma done_gone m : ~ owns s3 m old.
Proof.
  destruct (copy_carries fresh s2 i' old Y Ho Hr) as (_ & _ & Eb). destruct (ca_blocks _ _ _ _ A old (list_elem_of_lookup_2 _ _ _ Ho)) as (_ & _ & Oo).
  intros Hw. destruct (decide (m = n)) as [->|Hne].
  - apply (write_own dev _ _ _ _ _ _ _ V3) in Hw as [_ Hin]. rewrite Eb in Hin.
    apply (replaced_gone _ _ fresh old (sh_nodup _ (ca_shape _ _ _ _ A)) Ho done_distinct Hin).
  - rewrite (write_owns dev _ _ _ _ _ _ _ _ V3 Hne), (step_owns dev _ _ _ _ m old (sy_step _ _ Y)) in Hw. by apply (Oo m).
Qed.

Lemma done_remapped : remapped old fresh i' s4.
Proof.
  destruct (copy_carries fresh s2 i' old Y Ho Hr) as (_ & Ei & Eb). destruct done_consistent3 as [C3 Ca3]. pose proof Y as [[Hd Hv] V2 [Hc Hs]].
  pose proof (fs_ok _ _ _ _ (vo_step _ _ _ _ _ _ V2)) as W2. pose proof (fs_ok _ _ _ _ (vo_step _ _ _ _ _ _ V3)) as W3.
  assert (forall b, 0 <= b -> b <> old -> f b = bit s3 b) as Hf by (intros b H1 H2; apply Hout; lia).
  assert (forall b, data_block (super s3) b -> 0 <= b) as Hpos by (intros b Hb'; apply (data_total dev s3 b W3 Hb')).
  assert (data_block (super s2) fresh) as Hd2 by (by rewrite (step_data dev _ _ _ _ _ fresh V2)).
  assert (data_block (super s3) fresh) as Hd3 by (by rewrite (step_data dev _ _ _ _ _ fresh V3)).
  split; [exact Ho|exact (conj Hd Hv)|exact Ei|exact Eb|apply (step_numbers dev _ _ _ _ _ n V2); exact Hnum|..].
  - exists f. split.
    + eapply vol_step_ext; [intros b Hr'; reflexivity| |eapply vol_step_trans; [exact V2|]; eapply vol_step_trans; eapply vol_step_weaken; [|exact V3| |exact V4]; intros ? _ []].
      intros m Hm'. pose proof Hm' as Hm2. rewrite <- (step_numbers dev _ _ _ _ _ m V2) in Hm2.
      rewrite (vo_inode _ _ _ _ _ _ V3 m Hm2), (vo_inode _ _ _ _ _ _ V2 m Hm'). reflexivity.
    + intros b Hr' Hne. rewrite Hf by lia. destruct (fs_super _ _ _ _ (vo_step _ _ _ _ _ _ V2)) as (_ & x & y & E).
      rewrite (vo_bit _ _ _ _ _ _ V3) by (by rewrite E). by apply V2.
  - rewrite (step_content dev _ _ _ _ (vo_step _ _ _ _ _ _ V4) W3 Hd3), (step_content dev _ _ _ _ (vo_step _ _ _ _ _ _ V3) W2 Hd2) by auto.
    rewrite (step_sealed dev _ _ _ _ (vo_step _ _ _ _ _ _ V4) W3 Hd3), (step_sealed dev _ _ _ _ (vo_step _ _ _ _ _ _ V3) W2 Hd2) by auto. split; assumption.
  - apply (marks_consistent dev _ _ _ _ V4 C3). intros m b Hw. destruct (co_marked _ _ C3 m b Hw) as [Hdb Hbit].
    rewrite Hf; [exact Hbit|by apply Hpos|]. intros ->. by apply (done_gone m).
  - apply (marks_carries dev _ _ _ _ _ _ V4 W3 Ca3). intros b Hin. destruct (ca_blocks _ _ _ _ Ca3 b Hin) as (Hdb & Hbit & _).
    rewrite Hf; [exact Hbit|by apply Hpos|]. intros ->. rewrite Eb in Hin.
    apply (replaced_gone _ _ fresh old (sh_nodup _ (ca_shape _ _ _ _ A)) Ho done_distinct Hin).
Qed.

End Done.

(** What a remap answers: the file with the block replaced, or nothing that a
    file shows, or (when the old block cannot be given back) an error after
    the replacement. *)
Definition remap_answer (r : option adytumfs_inode) s' : Prop :=
  match r with
  | Some i' => exists old fresh, remapped old fresh i' s'
  | None => failed dev s s' \/ exists old fresh i', remapped old fresh i' s'
  end.

(** From the copy to the end. *)
Lemma redirect_commit_spec old fresh s2 :
  staged_copy fresh s2 -> blocks_of (direct i) !! Z.to_nat logical = Some old ->
  let '(r, s') := adytumfs_redirect_commit dev i n logical old fresh s2 in remap_answer r s'.
Proof.
  intros Y Ho. pose proof Y as [[Hd Hv] V2 Hc2]. pose proof (co_ok _ _ C) as Ws. pose proof (fs_ok _ _ _ _ (vo_step _ _ _ _ _ _ V2)) as W2.
  destruct (fresh_range fresh Hd) as (R1 & R2 & R3). destruct (ca_blocks _ _ _ _ A old (list_elem_of_lookup_2 _ _ _ Ho)) as (Od & Ob & Oo).
  assert (fresh <> old) as Hne by (intros <-; pose proof (vacant_bit dev s fresh Hv); congruence).
  assert (forall b, 0 <= b < total_blocks (super s) -> bit s b = true -> (if b =? fresh then true else bit s b) = true) as Hmore by (intros b _ Ht; by destruct (b =? fresh)).
  unfold adytumfs_redirect_commit. destruct (adytumfs_extent_reroute i logical fresh) as [i'|] eqn:Hr; rewrite bind_run.
  - destruct (copy_carries fresh s2 i' old Y Ho Hr) as (Ca & Ei & Eb). unfold or_undo.
    pose proof (inode_write_spec dev s2 n i' W2 Hn (ca_fields _ _ _ _ Ca)) as Hw. destruct (adytumfs_inode_write dev n i' s2) as [[u|] s3].
    + destruct Hw as [Hnum T3]. pose proof (table_vol dev (fun _ => False) _ _ _ T3) as V3. rewrite bind_run.
      pose proof (fs_ok _ _ _ _ (vo_step _ _ _ _ _ _ V3)) as W3. assert (is_u64 old) as Ro by (destruct (fresh_range old Od); done).
      pose proof (free_vol dev (fun _ => False) s3 old 1 W3 Ro ltac:(lia)) as Hf. destruct (adytumfs_free_run dev old 1 s3) as [r4 s4]. destruct Hf as (f & V4 & Hout & _).
      pose proof (done_remapped old fresh i' s2 s3 s4 f Y Ho Hr V3 Hnum V4 Hout) as Hrm.
      destruct r4 as [[]|]; [by exists old, fresh|right; by exists old, fresh, i'].
    + left. apply (undo_fresh s3 fresh (fun b => if b =? fresh then true else bit s b)); [done|done| |done].
      eapply vol_step_idle; [exact V2|]. apply table_vol. exact Hw.
  - unfold fail. pose proof (undo_fresh s2 fresh _ Hd Hv V2 Hmore) as Hf. destruct (adytumfs_free_run dev fresh 1 s2) as [[[]|] s3]; left; exact Hf.
Qed.

Lemma remap_spec :
  let '(r, s') := adytumfs_inode_remap dev i n logical bytes s in remap_answer r s'.
Proof.
  pose proof (co_ok _ _ C) as Ws. pose proof (failed_refl dev s C) as Hrefl. unfold adytumfs_inode_remap. rewrite bind_run. unfold adytumfs_redirect_stage. rewrite bind_run.
  rewrite (inode_map_spec i logical (sh_packed _ (ca_shape _ _ _ _ A)) Hl).
  destruct (blocks_of (direct i) !! Z.to_nat logical) as [old|] eqn:Ho; cbn [or_fail]; [|left; exact Hrefl].
  unfold mret, act_ret. cbv beta iota. rewrite bind_run. pose proof (alloc_spec dev s 1 Ws ltac:(lia)) as Ha.
  destruct (adytumfs_alloc_run dev 1 s) as [[fresh|] s1]; cbn [alloc_answer] in Ha.
  - destruct Ha as [[Hr Hv _] Hc]. assert (data_block (super s) fresh) as Hd by (unfold data_block; lia). specialize (Hv fresh ltac:(lia)).
    pose proof (count_vol dev (eq fresh) _ _ _ _ Hc) as V1. unfold mret, act_ret. cbv beta iota. rewrite bind_run. unfold or_undo at 1.
    assert (vol_step (eq fresh) (fun b => if b =? fresh then true else bit s b) (inode_at s) s s1) as V1'.
    { eapply vol_step_ext; [|intros m _; reflexivity|exact V1]. intros b _. cbn beta.
      destruct (Z.leb_spec fresh b), (Z.ltb_spec b (fresh + 1)), (Z.eqb_spec b fresh); done || lia. }
    pose proof (cs_ok _ _ _ _ _ Hc) as W1. assert (data_block (super s1) fresh) as Hd1 by (rewrite (step_data dev _ _ _ _ _ fresh V1'); exact Hd).
    pose proof (data_write_spec dev s1 fresh bytes W1 Hd1 Hb) as Hw. destruct (adytumfs_data_write dev fresh bytes s1) as [r2 s2]. destruct Hw as [S2 Hw].
    pose proof (vol_step_idle _ _ _ _ _ _ _ V1' (data_vol dev s1 s2 fresh W1 Hd1 S2)) as V2. destruct r2 as [[]|].
    + apply redirect_commit_spec; [|exact Ho]. split; [exact (conj Hd Hv)|exact V2|exact (Hw eq_refl)].
    + left. apply (undo_fresh s2 fresh _ Hd Hv V2). intros b _ Ht. by destruct (b =? fresh).
  - left. destruct Ha as (f & Hf & Hk). exists f. split; [apply bits_vol; exact Hf|auto].
Qed.

End One.

End Remap.

End AdytumRemap.
