(* ===== verification/AdytumTouch.v ===== *)
(** AdytumFS: operations on some files leave the others alone. *)

From S2P Require Import Prelude Wire Crc32c AdytumFormat AdytumVolume AdytumDevice AdytumCommit AdytumWindow AdytumAlloc AdytumData AdytumInode AdytumExtents AdytumTable AdytumStep AdytumFiles AdytumRemap.

Module AdytumTouch.
Import Wire AdytumFormat AdytumVolume AdytumDevice AdytumCommit AdytumWindow AdytumAlloc AdytumData AdytumInode AdytumExtents AdytumTable AdytumStep AdytumFiles AdytumRemap.

#[local] Opaque crc32c zero_block.

Section Touch.
Context {D : Type} `{FsDeviceLaws D}.
Context (dev : Z).
Implicit Types (s : fs D) (N : Z -> Prop).

Local Abbreviation bit := (bit dev).
Local Abbreviation inode_at := (inode_at dev).
Local Abbreviation vol_step := (vol_step dev).
Local Abbreviation owns := (owns dev).
Local Abbreviation consistent := (consistent dev).
Local Abbreviation carries := (carries dev).

(** The block was free at the last commit, and no file outside of [N] has it. *)
Definition private s N (b : Z) : Prop := committed_bit dev s b = false /\ forall m, ~ N m -> ~ owns s m b.

(** From [s] to [s'] the files in [N] may have changed. *)
Record touched N s s' : Prop := {
  to_consistent : consistent s';
  to_step : exists f g, vol_step (private s N) f g s s' /\ forall m, inode_number s m -> ~ N m -> g m = inode_at s m
}.

Lemma touched_number N s s' n : touched N s s' -> inode_number s' n <-> inode_number s n.
Proof. intros [_ (f & g & V & _)]. by eapply step_numbers. Qed.

Lemma touched_data N s s' b : touched N s s' -> data_block (super s') b <-> data_block (super s) b.
Proof. intros [_ (f & g & V & _)]. by eapply step_data. Qed.

Lemma touched_inode N s s' m : touched N s s' -> inode_number s m -> ~ N m -> inode_at s' m = inode_at s m.
Proof. intros [_ (f & g & V & Hg)] Hm Hn. rewrite (vo_inode _ _ _ _ _ _ V m Hm). by apply Hg. Qed.

Lemma touched_owns N s s' m b : touched N s s' -> ~ N m -> owns s' m b <-> owns s m b.
Proof.
  intros T Hn. unfold AdytumFiles.owns. rewrite (touched_number _ _ _ m T).
  split; intros (Hm & i & Hi & Hd & Hb); (split; [done|]); exists i; rewrite (touched_inode _ _ _ m T Hm Hn) in *; auto.
Qed.

Lemma touched_committed N s s' b : touched N s s' -> consistent s -> data_block (super s) b -> committed_bit dev s' b = committed_bit dev s b.
Proof.
  intros [_ (f & g & V & _)] C Hb. apply (step_committed_bit dev _ _ _ _ (vo_step _ _ _ _ _ _ V) (co_ok _ _ C)). apply (data_total dev s b (co_ok _ _ C) Hb).
Qed.

Lemma touched_private N s s' b : touched N s s' -> consistent s -> data_block (super s) b -> private s' N b <-> private s N b.
Proof.
  intros T C Hb. unfold private. rewrite (touched_committed _ _ _ b T C Hb). split; intros [H1 H2]; (split; [done|]); intros m Hm; [rewrite <- (touched_owns _ _ _ m b T Hm)|rewrite (touched_owns _ _ _ m b T Hm)]; auto.
Qed.

Lemma touched_refl N s : consistent s -> touched N s s.
Proof. intros C. split; [done|]. exists (bit s), (inode_at s). split; [apply same_vol; [apply C|apply same_window_refl]|done]. Qed.

Lemma touched_trans N s1 s2 s3 : consistent s1 -> touched N s1 s2 -> touched N s2 s3 -> touched N s1 s3.
Proof.
  intros C T1 [C3 (f & g & V & Hg)]. split; [done|]. pose proof T1 as [C2 (f1 & g1 & V1 & Hg1)]. exists f, g. split.
  - eapply vol_step_trans; [exact V1|]. eapply vol_step_weaken; [|exact V]. intros b Hb. rewrite (touched_data _ _ _ b T1) in Hb. apply (touched_private _ _ _ b T1 C Hb).
  - intros m Hm Hn. rewrite Hg; [|by rewrite (touched_number _ _ _ m T1)|done]. by apply (touched_inode N).
Qed.

Lemma touched_weaken N N' s s' : (forall m, N m -> N' m) -> touched N s s' -> touched N' s s'.
Proof.
  intros Hw [C (f & g & V & Hg)]. split; [done|]. exists f, g. split; [|auto]. eapply vol_step_weaken; [|exact V].
  intros b _ [H1 H2]. split; auto.
Qed.

Lemma vacant_private N s b : consistent s -> vacant dev s b = true -> private s N b.
Proof.
  intros C Hv. split; [|intros m _; by apply vacant_free]. unfold vacant in Hv. by destruct (committed_bit dev s b), (bit s b).
Qed.

Lemma failed_touched N s s' : consistent s -> failed dev s s' -> touched N s s'.
Proof.
  intros C F. split; [by eapply failed_consistent|]. destruct F as (f & V & _). exists f, (inode_at s). split; [|done].
  eapply vol_step_weaken; [|exact V]. intros b _. by apply vacant_private.
Qed.

Lemma same_touched N s s' : consistent s -> same_window s s' -> touched N s s'.
Proof. intros C S. apply failed_touched; [done|by apply failed_same]. Qed.

Lemma remapped_touched s n i logical bytes old fresh i' s' :
  consistent s -> remapped dev s n i logical bytes old fresh i' s' -> touched (eq n) s s'.
Proof.
  intros C R. pose proof (rm_fresh _ _ _ _ _ _ _ _ _ _ R) as [Hd Hv]. pose proof (rm_step _ _ _ _ _ _ _ _ _ _ R) as (f & V & _).
  split; [apply R|]. exists f, (fun m => if m =? n then Some i' else inode_at s m). split.
  - eapply vol_step_weaken; [|exact V]. intros b _ <-. by apply vacant_private.
  - intros m _ Hn. rewrite (proj2 (Z.eqb_neq m n)); [done|]. intros ->. by apply Hn.
Qed.

Lemma grown_touched N s n i new start i' s' : consistent s -> grown dev s n i new start i' s' -> touched N s s'.
Proof.
  intros C G. split; [apply G|]. exists (marked dev s start (new - blocks i)), (inode_at s). split; [|done].
  eapply vol_step_weaken; [|apply G]. intros b _ Hb. apply vacant_private; [done|]. apply (gr_run _ _ _ _ _ _ _ _ G). exact Hb.
Qed.

(** Writing an inode that is carried. *)
Lemma inode_write_touched s n i :
  consistent s -> carries s n i -> 0 <= n ->
  let '(r, s') := adytumfs_inode_write dev n i s in
  touched (eq n) s s' /\ carries s' n i /\
  match r with
  | Some _ => inode_number s n /\ vol_step (fun _ => False) (bit s) (fun m => if m =? n then Some i else inode_at s m) s s'
  | None => vol_step (fun _ => False) (bit s) (inode_at s) s s'
  end.
Proof.
  intros C A Hn. pose proof (inode_write_spec dev s n i (co_ok _ _ C) Hn (ca_fields _ _ _ _ A)) as Hw. destruct (adytumfs_inode_write dev n i s) as [[u|] s'].
  - destruct Hw as [Hm T]. pose proof (table_vol dev (fun _ => False) _ _ _ T) as V. split; [split|split; [|exact (conj Hm V)]].
    + apply (write_consistent dev _ _ _ _ _ _ V C); [by left|intros m b _ Ho; by apply (co_marked _ _ C m)|]. intros b _ Hb. by apply (ca_blocks _ _ _ _ A).
    + eexists _, _. split; [eapply vol_step_weaken; [|exact V]; intros ? _ []|]. intros m _ Hne. cbn beta. rewrite (proj2 (Z.eqb_neq m n)); [done|]. intros ->. by apply Hne.
    + apply (write_carries dev _ _ _ _ _ _ _ V (co_ok _ _ C) A). intros b Hb. by apply (ca_blocks _ _ _ _ A).
  - pose proof (table_vol dev (fun _ => False) _ _ _ Hw) as V. split; [|split; [|exact V]].
    + apply failed_touched; [done|]. exists (bit s). split; [|done]. eapply vol_step_weaken; [|exact V]. intros ? _ [].
    + apply (marks_carries dev _ _ _ _ _ _ V (co_ok _ _ C) A). intros b Hb. by apply (ca_blocks _ _ _ _ A).
Qed.

(** Writing a block that the file carries and that the commit left free. *)
Lemma data_write_touched s n i b bytes :
  consistent s -> carries s n i -> b ∈ blocks_of (direct i) -> committed_bit dev s b = false -> is_block bytes ->
  let '(r, s') := adytumfs_data_write dev b bytes s in
  touched (eq n) s s' /\ carries s' n i /\ vol_step (eq b) (bit s) (inode_at s) s s' /\
  (r = Some tt -> content (disk s') dev b = bytes /\ sealed dev s' b).
Proof.
  intros C A Hb Hc Hy. destruct (ca_blocks _ _ _ _ A b Hb) as (Hd & _ & Ho). pose proof (data_write_spec dev s b bytes (co_ok _ _ C) Hd Hy) as Hw.
  destruct (adytumfs_data_write dev b bytes s) as [r s']. destruct Hw as [S Hw]. pose proof (data_vol dev s s' b (co_ok _ _ C) Hd S) as V. split; [split|].
  - apply (marks_consistent dev _ _ _ _ V C). intros m c Hm. by apply (co_marked _ _ C m).
  - exists (bit s), (inode_at s). split; [|done]. eapply vol_step_weaken; [|exact V]. intros c _ <-. split; [done|]. intros m Hm. apply Ho. intros ->. by apply Hm.
  - split; [|split; [exact V|exact Hw]]. apply (marks_carries dev _ _ _ _ _ _ V (co_ok _ _ C) A). intros c Hi. by apply (ca_blocks _ _ _ _ A).
Qed.

End Touch.

End AdytumTouch.
