(* ===== verification/AdytumFile.v ===== *)
(** AdytumFS: reading and writing files, [src/fs/adytumfs_file.c]. *)

From S2P Require Import Prelude Wire Crc32c AdytumFormat AdytumVolume AdytumDevice AdytumCommit AdytumWindow AdytumAlloc AdytumData AdytumInode AdytumExtents AdytumTable AdytumStep AdytumFiles AdytumRemap AdytumTouch AdytumAtomic.

Module AdytumFile.
Import Wire AdytumFormat AdytumVolume AdytumDevice AdytumCommit AdytumWindow AdytumAlloc AdytumData AdytumInode AdytumExtents AdytumTable AdytumStep AdytumFiles AdytumRemap AdytumTouch.

#[local] Opaque crc32c zero_block.

(** A loop over [length] bytes of a file takes this many rounds at most, the
    last one to see the end. *)
Definition rounds (length : Z) : nat := Z.to_nat (length / ADYTUMFS_BLOCK_SIZE + 3).

Section Code.
Context {D : Type} `{FsDevice D}.

Fixpoint file_read_loop (fuel : nat) (device : Z) (inode : adytumfs_inode) (offset want done : Z) (out : list Z) : act D (list Z) :=
  match fuel with
  | O => fail
  | S fuel =>
      if want <=? done then mret out else
      let position := u64 (offset + done) in
      let logical := position / ADYTUMFS_BLOCK_SIZE in
      let within := position mod ADYTUMFS_BLOCK_SIZE in
      let chunk := Z.min (ADYTUMFS_BLOCK_SIZE - within) (want - done) in
      physical ← or_fail (adytumfs_inode_map inode logical);
      scratch ← adytumfs_data_read device physical;
      file_read_loop fuel device inode offset want (done + chunk)
        (out ++ take (Z.to_nat chunk) (drop (Z.to_nat within) scratch))
  end.

(** The bytes read; their number is [out_read]. *)
Definition adytumfs_file_read (device inode_num offset length : Z) : act D (list Z) :=
  inode ← adytumfs_inode_read device inode_num;
  if Z.land (mode inode) ADYTUMFS_MODE_REG =? 0 then fail else
  if size inode <=? offset then mret [] else
  let want := Z.min length (size inode - offset) in
  file_read_loop (rounds want) device inode offset want 0 [].

(** A block that is written whole is not read first: what the scratch block
    had is overwritten. *)
Definition merge (scratch : list Z) (within : Z) (bytes : list Z) : list Z := put scratch within bytes.

Fixpoint file_write_loop (fuel : nat) (device inode_num : Z) (inode : adytumfs_inode) (old_blocks offset : Z) (buffer : list Z)
    (done : Z) : act D adytumfs_inode :=
  match fuel with
  | O => fail
  | S fuel =>
      let length := Z.of_nat (List.length buffer) in
      if length <=? done then mret inode else
      let position := u64 (offset + done) in
      let logical := position / ADYTUMFS_BLOCK_SIZE in
      let within := position mod ADYTUMFS_BLOCK_SIZE in
      let chunk := Z.min (ADYTUMFS_BLOCK_SIZE - within) (length - done) in
      physical ← or_fail (adytumfs_inode_map inode logical);
      scratch ← (if nz within || negb (chunk =? ADYTUMFS_BLOCK_SIZE) then adytumfs_data_read device physical else mret zero_block);
      let scratch := merge scratch within (take (Z.to_nat chunk) (drop (Z.to_nat done) buffer)) in
      inode ← (if logical <? old_blocks then adytumfs_inode_remap device inode inode_num logical scratch
               else _ ← adytumfs_data_write device physical scratch; mret inode);
      file_write_loop fuel device inode_num inode old_blocks offset buffer (done + chunk)
  end.

(** The number of bytes written. *)
Definition adytumfs_file_write (device inode_num offset : Z) (buffer : list Z) : act D Z :=
  let length := Z.of_nat (List.length buffer) in
  inode ← adytumfs_inode_read device inode_num;
  if Z.land (mode inode) ADYTUMFS_MODE_REG =? 0 then fail else
  if length =? 0 then mret 0 else
  let end' := u64 (offset + length) in
  if end' <? offset then fail else
  let need := u64 (end' + ADYTUMFS_BLOCK_SIZE - 1) / ADYTUMFS_BLOCK_SIZE in
  let old_blocks := blocks inode in
  inode ← (if blocks inode <? need then adytumfs_inode_grow device inode need else mret inode);
  inode ← file_write_loop (rounds length) device inode_num inode old_blocks offset buffer 0;
  let inode := if size inode <? end' then set_inode_size end' inode else inode in
  now ← wall_clock;
  _ ← adytumfs_inode_write device inode_num (set_times now inode);
  mret length.

End Code.

(** ** Slices *)

Lemma slice_map (l : list Z) k n :
  0 <= k -> 0 <= n -> k + n <= Z.of_nat (length l) -> take (Z.to_nat n) (drop (Z.to_nat k) l) = map (fun j => at_ l (k + j)) (seqZ 0 n).
Proof.
  intros Hk Hn Hl. apply nth_ext with (d := 0) (d' := 0).
  - rewrite length_take, length_drop, length_map, length_seqZ. lia.
  - intros j Hj. rewrite length_take, length_drop in Hj. rewrite !nth_lookup, lookup_take_lt, lookup_drop by lia.
    rewrite list_lookup_fmap, lookup_seqZ_lt by lia. cbn [fmap option_fmap option_map default]. unfold at_, byte_at. rewrite nth_lookup.
    unfold id. do 2 f_equal. lia.
Qed.

Lemma map_seqZ_shift {A} (f : Z -> A) m n k : map f (seqZ (m + k) n) = map (fun j => f (j + k)) (seqZ m n).
Proof. rewrite (Z.add_comm m k), <- (fmap_add_seqZ k m n). change (Z.add k <$> seqZ m n) with (map (Z.add k) (seqZ m n)). rewrite map_map. apply map_ext. intros j. f_equal. lia. Qed.

(** ** The bytes of a file *)

Section Bytes.
Context {D : Type} `{FsDeviceLaws D}.
Context (dev : Z).
Implicit Types (s : fs D) (i : adytumfs_inode).

(** The byte at position [p] of the blocks of the inode. *)
Definition file_byte s i (p : Z) : Z :=
  match blocks_of (direct i) !! Z.to_nat (p / ADYTUMFS_BLOCK_SIZE) with
  | Some b => at_ (content (disk s) dev b) (p mod ADYTUMFS_BLOCK_SIZE)
  | None => 0
  end.

(** Every block of the inode is a data block. *)
Definition has_data s i : Prop := packed (direct i) /\ forall b, b ∈ blocks_of (direct i) -> data_block (super s) b.

Lemma carries_data s n i : carries dev s n i -> has_data s i.
Proof. intros [_ [P _ _] Hb]. split; [done|]. intros b Hi. by apply Hb. Qed.

Lemma same_byte s s' i p : same_window s s' -> file_byte s' i p = file_byte s i p.
Proof. intros S. unfold file_byte. destruct (_ !! _) as [b|]; [|done]. by rewrite (kept_nowhere_content dev _ _ _ (sw_disk _ _ S)). Qed.

Lemma same_has_data s s' i : same_window s s' -> has_data s i -> has_data s' i.
Proof. intros S. unfold has_data. by rewrite (sw_super _ _ S). Qed.

(** The part of one block that a round moves. *)
Section Chunk.
Context (position rest : Z) (Hp : 0 <= position) (Hr : 0 < rest).

Local Abbreviation logical := (position / ADYTUMFS_BLOCK_SIZE).
Local Abbreviation within := (position mod ADYTUMFS_BLOCK_SIZE).
Local Abbreviation chunk := (Z.min (ADYTUMFS_BLOCK_SIZE - within) rest).

Lemma chunk_range : 0 <= logical /\ 0 <= within < 4096 /\ 0 < chunk /\ within + chunk <= 4096 /\ position = 4096 * logical + within.
Proof.
  unfold ADYTUMFS_BLOCK_SIZE. pose proof (Z.div_mod position 4096 ltac:(lia)). pose proof (Z.mod_pos_bound position 4096 ltac:(lia)).
  pose proof (Z.div_pos position 4096 ltac:(lia)). lia.
Qed.

Lemma chunk_place j : 0 <= j < chunk -> (position + j) / ADYTUMFS_BLOCK_SIZE = logical /\ (position + j) mod ADYTUMFS_BLOCK_SIZE = within + j.
Proof.
  intros Hj. destruct chunk_range as (H1 & H2 & H3 & H4 & H5). unfold ADYTUMFS_BLOCK_SIZE in *. split.
  - symmetry. apply Z.div_unique with (r := position mod 4096 + j); lia.
  - symmetry. apply Z.mod_unique with (q := position / 4096); lia.
Qed.

End Chunk.

Lemma file_loop_read fuel i offset want done out s :
  window_ok dev s -> has_data s i -> 0 <= offset -> 0 <= done <= want -> offset + want < 2 ^ 64 ->
  let '(r, s') := file_read_loop fuel dev i offset want done out s in
  same_window s s' /\ forall bytes, r = Some bytes -> bytes = out ++ map (file_byte s i) (seqZ (offset + done) (want - done)).
Proof.
  intros Ws Hd Ho. revert done out s Ws Hd. induction fuel as [|fuel IH]; intros done out s Ws [P Hb] Hr Hw; [split; [apply same_window_refl|discriminate]|].
  cbn [file_read_loop]. destruct (Z.leb_spec want done) as [Hle|Hlt].
  - split; [apply same_window_refl|]. intros ? [= <-]. rewrite (seqZ_nil _ (want - done)) by lia. by rewrite app_nil_r.
  - change (2 ^ 64) with 0x10000000000000000 in Hw. rewrite (u64_small (offset + done)) by (unfold is_u64; lia). set (position := offset + done) in *.
    destruct (chunk_range position (want - done) ltac:(lia) ltac:(lia)) as (H1 & H2 & H3 & H4 & H5). set (chunk := Z.min _ _) in *.
    rewrite bind_run, (inode_map_spec i _ P) by lia. destruct (blocks_of (direct i) !! Z.to_nat (position / ADYTUMFS_BLOCK_SIZE)) as [b|] eqn:Hl;
      cbn [or_fail]; [|split; [apply same_window_refl|discriminate]].
    unfold mret at 1, act_ret at 1. cbv beta iota. rewrite bind_run. pose proof (data_read_spec dev s b Ws (Hb b (list_elem_of_lookup_2 _ _ _ Hl))) as Hrd.
    destruct (adytumfs_data_read dev b s) as [[scratch|] s1]; destruct Hrd as [S1 Hc]; [|split; [done|discriminate]].
    destruct (Hc scratch eq_refl) as [-> _]. assert (chunk <= want - done) as Hcw by lia.
    specialize (IH (done + chunk) (out ++ take (Z.to_nat chunk) (drop (Z.to_nat (position mod ADYTUMFS_BLOCK_SIZE)) (content (disk s) dev b))) s1
      (same_ok dev _ _ S1 Ws) (same_has_data _ _ _ S1 (conj P Hb)) ltac:(lia) ltac:(change (2 ^ 64) with 0x10000000000000000; lia)).
    destruct (file_read_loop fuel dev i offset want _ _ s1) as [r s2]. destruct IH as [S2 IH]. split; [by eapply same_window_trans|].
    intros bytes Hby. rewrite (IH bytes Hby), <- app_assoc. f_equal. replace (want - done) with (chunk + (want - (done + chunk))) by lia.
    rewrite seqZ_app by lia. rewrite map_app. f_equal.
    + rewrite slice_map by (pose proof (content_block (disk s) dev b) as [Hcl _]; lia). fold position. rewrite <- (Z.add_0_l position), map_seqZ_shift.
      apply map_ext_in. intros j Hj%list_elem_of_In%elem_of_seqZ. destruct (chunk_place position (want - done) ltac:(lia) ltac:(lia) j) as [E1 E2]; [fold chunk; lia|].
      unfold file_byte. rewrite (Z.add_comm j), E1, E2, Hl. done.
    + fold position. replace (offset + (done + chunk)) with (position + chunk) by lia. apply map_ext. intros p. by apply same_byte.
Qed.

(** ** One round of a write *)

(** Every block of the inode has its checksum. *)
Definition all_sealed s i : Prop := forall b, b ∈ blocks_of (direct i) -> sealed dev s b.

(** The block at [logical] becomes [c] with the bytes [merged]; the others stay. *)
Record block_written s i (logical c : Z) (merged : list Z) s' i' : Prop := {
  bw_old : exists b, blocks_of (direct i) !! Z.to_nat logical = Some b;
  bw_blocks : blocks_of (direct i') = <[Z.to_nat logical := c]> (blocks_of (direct i));
  bw_content : content (disk s') dev c = merged /\ sealed dev s' c;
  bw_others : forall k b, k <> Z.to_nat logical -> blocks_of (direct i) !! k = Some b ->
    content (disk s') dev b = content (disk s) dev b /\ (sealed dev s b -> sealed dev s' b)
}.

Lemma written_byte s i logical c merged s' i' p :
  block_written s i logical c merged s' i' -> 0 <= logical -> 0 <= p ->
  file_byte s' i' p = if p / ADYTUMFS_BLOCK_SIZE =? logical then at_ merged (p mod ADYTUMFS_BLOCK_SIZE) else file_byte s i p.
Proof.
  intros [(b0 & Ho) Eb [Hc _] Hot] Hl Hp. pose proof (Z.div_pos p ADYTUMFS_BLOCK_SIZE Hp eq_refl) as Hq. unfold file_byte. rewrite Eb.
  destruct (Z.eqb_spec (p / ADYTUMFS_BLOCK_SIZE) logical) as [->|Hne].
  - rewrite list_lookup_insert_eq by (by eapply lookup_lt_Some). by rewrite Hc.
  - rewrite list_lookup_insert_ne by lia. destruct (blocks_of (direct i) !! Z.to_nat (p / ADYTUMFS_BLOCK_SIZE)) as [b|] eqn:Hb; [|done].
    destruct (Hot (Z.to_nat (p / ADYTUMFS_BLOCK_SIZE)) b ltac:(lia) Hb) as [-> _]. reflexivity.
Qed.

Lemma written_sealed s i logical c merged s' i' : block_written s i logical c merged s' i' -> all_sealed s i -> all_sealed s' i'.
Proof.
  intros [_ Eb [_ Hs] Hot] Ha b Hb. rewrite Eb in Hb. apply list_elem_of_lookup in Hb as [k Hk]. rewrite list_lookup_insert_Some in Hk.
  destruct Hk as [(_ & <- & _)|[Hne Hk]]; [exact Hs|]. destruct (Hot k b ltac:(congruence) Hk) as [_ Hse]. apply Hse, Ha. by eapply list_elem_of_lookup_2.
Qed.

Lemma remapped_written s n i logical bytes old fresh i' s' :
  consistent dev s -> carries dev s n i -> remapped dev s n i logical bytes old fresh i' s' -> block_written s i logical fresh bytes s' i'.
Proof.
  intros C A R. pose proof (rm_step _ _ _ _ _ _ _ _ _ _ R) as (f & V & _). pose proof (rm_fresh _ _ _ _ _ _ _ _ _ _ R) as [Hd Hv].
  split; [exists old; apply R|apply R|apply R|]. intros k b _ Hk. destruct (ca_blocks _ _ _ _ A b (list_elem_of_lookup_2 _ _ _ Hk)) as (Hdb & Hbit & _).
  assert (fresh <> b) as Hne by (intros ->; pose proof (vacant_bit dev s b Hv); congruence).
  rewrite (step_content dev _ _ _ _ (vo_step _ _ _ _ _ _ V) (co_ok _ _ C) Hdb Hne). split; [reflexivity|].
  by rewrite (step_sealed dev _ _ _ _ (vo_step _ _ _ _ _ _ V) (co_ok _ _ C) Hdb Hne).
Qed.

Lemma direct_written s n i logical b bytes f g s' :
  consistent dev s -> carries dev s n i -> blocks_of (direct i) !! Z.to_nat logical = Some b ->
  vol_step dev (eq b) f g s s' -> content (disk s') dev b = bytes /\ sealed dev s' b -> block_written s i logical b bytes s' i.
Proof.
  intros C A Hb V Hc. split; [by exists b|symmetry; by apply list_insert_id|exact Hc|]. intros k b' Hk Hb'.
  destruct (ca_blocks _ _ _ _ A b' (list_elem_of_lookup_2 _ _ _ Hb')) as (Hdb & _ & _).
  assert (b <> b') as Hne by (intros <-; apply Hk; eapply NoDup_lookup; [apply (ca_shape _ _ _ _ A)|exact Hb'|exact Hb]).
  rewrite (step_content dev _ _ _ _ (vo_step _ _ _ _ _ _ V) (co_ok _ _ C) Hdb Hne). split; [reflexivity|].
  by rewrite (step_sealed dev _ _ _ _ (vo_step _ _ _ _ _ _ V) (co_ok _ _ C) Hdb Hne).
Qed.

(** The block that a round writes: the bytes of the buffer over what was there. *)
Section Merge.
Context (s : fs D) (i : adytumfs_inode) (buffer : list Z) (offset done : Z) (b : Z) (scratch : list Z).
Context (Hbuf : is_bytes buffer) (Ho : 0 <= offset) (Hd : 0 <= done < Z.of_nat (length buffer)).

Local Abbreviation position := (offset + done).
Local Abbreviation logical := (position / ADYTUMFS_BLOCK_SIZE).
Local Abbreviation within := (position mod ADYTUMFS_BLOCK_SIZE).
Local Abbreviation chunk := (Z.min (ADYTUMFS_BLOCK_SIZE - within) (Z.of_nat (length buffer) - done)).
Local Abbreviation part := (take (Z.to_nat chunk) (drop (Z.to_nat done) buffer)).

Context (Hb : blocks_of (direct i) !! Z.to_nat logical = Some b) (Hs : is_block scratch).
Context (Hread : scratch = content (disk s) dev b \/ within = 0 /\ chunk = ADYTUMFS_BLOCK_SIZE).

Lemma part_length : Z.of_nat (length part) = chunk.
Proof. destruct (chunk_range position (Z.of_nat (length buffer) - done) ltac:(lia) ltac:(lia)) as (H1 & H2 & H3 & H4 & H5). rewrite length_take, length_drop. lia. Qed.

Lemma merge_block : is_block (merge scratch within part).
Proof.
  destruct (chunk_range position (Z.of_nat (length buffer) - done) ltac:(lia) ltac:(lia)) as (H1 & H2 & H3 & H4 & H5). destruct Hs as [Sl Sb].
  pose proof part_length as Hp. unfold merge. split; [rewrite put_length; lia|]. apply put_bytes; [done|]. by apply Forall_take, Forall_drop.
Qed.

Lemma merge_byte p :
  0 <= p -> p / ADYTUMFS_BLOCK_SIZE = logical ->
  at_ (merge scratch within part) (p mod ADYTUMFS_BLOCK_SIZE) =
    if (position <=? p) && (p <? position + chunk) then at_ buffer (p - offset) else file_byte s i p.
Proof.
  intros Hp Hl. destruct (chunk_range position (Z.of_nat (length buffer) - done) ltac:(lia) ltac:(lia)) as (H1 & H2 & H3 & H4 & H5). destruct Hs as [Sl Sb].
  pose proof part_length as Hpl. unfold ADYTUMFS_BLOCK_SIZE in *. pose proof (Z.div_mod p 4096 ltac:(lia)) as Hdm. pose proof (Z.mod_pos_bound p 4096 ltac:(lia)) as Hm. rewrite Hl in Hdm.
  assert (p mod 4096 = position mod 4096 + (p - position)) as Hpm by lia. unfold merge. rewrite at_put by lia. rewrite Hpl.
  set (c := Z.min _ _) in *. assert (Hin : (position mod 4096 <=? p mod 4096) && (p mod 4096 <? position mod 4096 + c) = (position <=? p) && (p <? position + c)).
  { f_equal; apply Bool.eq_iff_eq_true; rewrite ?Z.leb_le, ?Z.ltb_lt; lia. }
  rewrite Hin. destruct ((position <=? p) && (p <? position + c)) eqn:Hc.
  - apply andb_prop in Hc as [Hc1%Z.leb_le Hc2%Z.ltb_lt]. rewrite at_take by lia. rewrite at_drop by lia. f_equal. lia.
  - unfold file_byte, ADYTUMFS_BLOCK_SIZE. rewrite Hl, Hb. destruct Hread as [->|[Hw Hw']]; [done|]. exfalso.
    rewrite andb_false_iff, Z.leb_gt, Z.ltb_ge in Hc. lia.
Qed.

End Merge.

(** ** The loop of a write *)

Section Write.
Context (n : Z) (old_blocks offset : Z) (buffer : list Z) (Hn : 0 <= n) (Hbuf : is_bytes buffer) (Ho : 0 <= offset).
Context (Hend : offset + Z.of_nat (length buffer) < 2 ^ 64).

(** The bytes of the buffer from [done] on are in the file. *)
Record file_written (done : Z) s i s' i' : Prop := {
  fw_carries : carries dev s' n i';
  fw_inode : i' = set_extents (direct i') (blocks i) i;
  fw_bytes : forall p, 0 <= p -> file_byte s' i' p =
    if (offset + done <=? p) && (p <? offset + Z.of_nat (length buffer)) then at_ buffer (p - offset) else file_byte s i p;
  fw_sealed : all_sealed s i -> all_sealed s' i';
  fw_covers : done < Z.of_nat (length buffer) -> offset + Z.of_nat (length buffer) <= ADYTUMFS_BLOCK_SIZE * blocks i'
}.

(** The blocks that are written in place were free at the last commit. *)
Definition in_place s i : Prop :=
  forall k b, old_blocks <= Z.of_nat k -> blocks_of (direct i) !! k = Some b -> committed_bit dev s b = false.

Definition round_scratch (done : Z) (b : Z) : act D (list Z) :=
  let position := offset + done in
  let within := position mod ADYTUMFS_BLOCK_SIZE in
  let chunk := Z.min (ADYTUMFS_BLOCK_SIZE - within) (Z.of_nat (length buffer) - done) in
  if nz within || negb (chunk =? ADYTUMFS_BLOCK_SIZE) then adytumfs_data_read dev b else mret zero_block.

Lemma round_scratch_spec done b s :
  window_ok dev s -> data_block (super s) b ->
  let '(r, s') := round_scratch done b s in
  same_window s s' /\ forall scratch, r = Some scratch -> is_block scratch /\
    (scratch = content (disk s) dev b \/ (offset + done) mod ADYTUMFS_BLOCK_SIZE = 0 /\
       Z.min (ADYTUMFS_BLOCK_SIZE - (offset + done) mod ADYTUMFS_BLOCK_SIZE) (Z.of_nat (length buffer) - done) = ADYTUMFS_BLOCK_SIZE).
Proof.
  intros Ws Hd. unfold round_scratch. destruct (nz _ || _) eqn:Hg.
  - pose proof (data_read_spec dev s b Ws Hd) as Hr. destruct (adytumfs_data_read dev b s) as [r s']. destruct Hr as [S Hr]. split; [exact S|].
    intros scratch Hs. destruct (Hr scratch Hs) as [-> _]. split; [apply content_block|by left].
  - split; [apply same_window_refl|]. intros ? [= <-]. split; [split; [apply zero_length|apply zero_bytes]|right].
    apply orb_false_iff in Hg as [Hg1 Hg2]. unfold nz in Hg1. apply negb_false_iff, Z.eqb_eq in Hg1. apply negb_false_iff, Z.eqb_eq in Hg2. done.
Qed.

(** The call that lands the block. *)
Definition round_store (logical b : Z) (i : adytumfs_inode) (bytes : list Z) : act D adytumfs_inode :=
  if logical <? old_blocks then adytumfs_inode_remap dev i n logical bytes else _ ← adytumfs_data_write dev b bytes; mret i.

Lemma round_store_spec logical b i bytes s :
  consistent dev s -> carries dev s n i -> mode i <> 0 -> 0 <= logical -> in_place s i -> is_block bytes ->
  blocks_of (direct i) !! Z.to_nat logical = Some b ->
  let '(r, s') := round_store logical b i bytes s in
  touched dev (eq n) s s' /\
  forall i', r = Some i' -> carries dev s' n i' /\ i' = set_extents (direct i') (blocks i) i /\ in_place s' i' /\
    exists c, block_written s i logical c bytes s' i'.
Proof.
  intros C A Hm Hl Hp Hy Hb. assert (forall s', touched dev (eq n) s s' -> forall k c, blocks_of (direct i) !! k = Some c -> committed_bit dev s' c = committed_bit dev s c) as Hcom.
  { intros s' T k c Hc. apply (touched_committed dev _ _ _ c T C). apply (ca_blocks _ _ _ _ A). by eapply list_elem_of_lookup_2. }
  unfold round_store. destruct (Z.ltb_spec logical old_blocks) as [Hlt|Hge].
  - pose proof (remap_spec dev s n i logical bytes C A Hn Hl Hy) as Hr. destruct (adytumfs_inode_remap dev i n logical bytes s) as [[i'|] s']; cbn [remap_answer] in Hr.
    + destruct Hr as (old & fresh & R). pose proof (remapped_touched dev _ _ _ _ _ _ _ _ _ C R) as T. split; [exact T|]. intros ? [= <-].
      split; [apply R|]. split; [apply R|]. split; [|exists fresh; by eapply remapped_written].
      intros k c Hk Hc. rewrite (rm_blocks _ _ _ _ _ _ _ _ _ _ R), list_lookup_insert_ne in Hc by lia. rewrite (Hcom s' T k c Hc). by apply (Hp k).
    + split; [|discriminate]. destruct Hr as [F|(old & fresh & i' & R)]; [by apply failed_touched|by eapply remapped_touched].
  - rewrite bind_run. pose proof (data_write_touched dev s n i b bytes C A (list_elem_of_lookup_2 _ _ _ Hb) (Hp (Z.to_nat logical) b ltac:(lia) Hb) Hy) as Hw.
    destruct (adytumfs_data_write dev b bytes s) as [[[]|] s']; destruct Hw as (T & A' & V & Hc); (split; [exact T|]); [|discriminate].
    intros ? [= <-]. split; [exact A'|]. split; [by destruct i|]. split; [|exists b; by eapply direct_written; [..|exact (Hc eq_refl)]].
    intros k c Hk Hc'. rewrite (Hcom s' T k c Hc'). by apply (Hp k).
Qed.

(** One round and the rest of the loop. *)
Lemma written_trans done chunk s i s1 i1 s2 i2 merged c b scratch :
  let position := offset + done in
  let within := position mod ADYTUMFS_BLOCK_SIZE in
  0 <= done < Z.of_nat (length buffer) -> chunk = Z.min (ADYTUMFS_BLOCK_SIZE - within) (Z.of_nat (length buffer) - done) ->
  blocks_of (direct i) !! Z.to_nat (position / ADYTUMFS_BLOCK_SIZE) = Some b -> is_block scratch ->
  scratch = content (disk s) dev b \/ within = 0 /\ chunk = ADYTUMFS_BLOCK_SIZE ->
  merged = merge scratch within (take (Z.to_nat chunk) (drop (Z.to_nat done) buffer)) ->
  block_written s i (position / ADYTUMFS_BLOCK_SIZE) c merged s1 i1 -> i1 = set_extents (direct i1) (blocks i) i ->
  carries dev s n i -> file_written (done + chunk) s1 i1 s2 i2 -> file_written done s i s2 i2.
Proof.
  intros position within Hd -> Hb Hs Hr -> Hw Ei A [F1 F2 F3 F4 F5].
  destruct (chunk_range position (Z.of_nat (length buffer) - done) ltac:(lia) ltac:(lia)) as (H1 & H2 & H3 & H4 & H5). split.
  - exact F1.
  - rewrite F2, Ei. reflexivity.
  - intros p Hp. rewrite F3 by done. rewrite (written_byte _ _ _ _ _ _ _ p Hw H1 Hp). assert (position = offset + done) as Ep by reflexivity.
    assert (Z.min (ADYTUMFS_BLOCK_SIZE - position mod ADYTUMFS_BLOCK_SIZE) (Z.of_nat (length buffer) - done) <= Z.of_nat (length buffer) - done) as Hcl by lia.
    unfold within in *. set (chunk := Z.min _ _) in *.
    destruct (Z.eqb_spec (p / ADYTUMFS_BLOCK_SIZE) (position / ADYTUMFS_BLOCK_SIZE)) as [He|Hne].
    + rewrite (merge_byte s i buffer offset done b scratch) by assumption. fold position. fold chunk.
      destruct (Z.leb_spec (offset + (done + chunk)) p), (Z.ltb_spec p (offset + Z.of_nat (length buffer))), (Z.leb_spec (offset + done) p), (Z.leb_spec position p), (Z.ltb_spec p (position + chunk)); cbn [andb]; reflexivity || lia.
    + assert (~ (position <= p < position + chunk)) as Hout.
      { intros Hin. destruct (chunk_place position (Z.of_nat (length buffer) - done) ltac:(lia) ltac:(lia) (p - position)) as [E _]; [fold chunk; lia|].
        replace (position + (p - position)) with p in E by lia. done. }
      destruct (Z.leb_spec (offset + (done + chunk)) p), (Z.ltb_spec p (offset + Z.of_nat (length buffer))), (Z.leb_spec (offset + done) p); cbn [andb]; reflexivity || lia.
  - intros Ha. apply F4. by eapply written_sealed.
  - intros _. destruct (decide (done + Z.min (ADYTUMFS_BLOCK_SIZE - within) (Z.of_nat (length buffer) - done) < Z.of_nat (length buffer))) as [Hlt|Hge]; [by apply F5|].
    apply lookup_lt_Some in Hb. pose proof (sh_blocks _ (ca_shape _ _ _ _ A)) as Hbl. rewrite F2, Ei. cbn [blocks set_extents].
    assert (position = offset + done) as Ep by reflexivity. unfold within, ADYTUMFS_BLOCK_SIZE in *. lia.
Qed.

Lemma sealed_same s s' b : same_window s s' -> sealed dev s b -> sealed dev s' b.
Proof. intros [_ B K]. unfold sealed, checksum. by rewrite B, !(kept_nowhere_content dev _ _ _ K). Qed.

Lemma file_written_same done s s1 i s' i' : same_window s s1 -> file_written done s1 i s' i' -> file_written done s i s' i'.
Proof.
  intros S [F1 F2 F3 F4 F5]. split; [exact F1|exact F2| | |exact F5].
  - intros p Hp. by rewrite F3, (same_byte _ _ _ _ S).
  - intros Ha. apply F4. intros b Hb. apply (sealed_same s); [exact S|by apply Ha].
Qed.

Lemma file_loop_write fuel done s i :
  consistent dev s -> carries dev s n i -> mode i <> 0 -> in_place s i -> 0 <= done <= Z.of_nat (length buffer) ->
  let '(r, s') := file_write_loop fuel dev n i old_blocks offset buffer done s in
  touched dev (eq n) s s' /\ forall i', r = Some i' -> file_written done s i s' i'.
Proof.
  revert done s i. induction fuel as [|fuel IH]; intros done s i C A Hm Hp Hd; [split; [by apply touched_refl|discriminate]|].
  cbn [file_write_loop]. destruct (Z.leb_spec (Z.of_nat (length buffer)) done) as [Hle|Hlt].
  - split; [by apply touched_refl|]. intros ? [= <-]. split; [exact A|by destruct i| |by auto|lia]. intros p Hp0.
    destruct (Z.leb_spec (offset + done) p), (Z.ltb_spec p (offset + Z.of_nat (length buffer))); cbn [andb]; reflexivity || lia.
  - rewrite (u64_small (offset + done)) by (unfold is_u64; change (2 ^ 64) with 0x10000000000000000 in Hend; lia).
    destruct (chunk_range (offset + done) (Z.of_nat (length buffer) - done) ltac:(lia) ltac:(lia)) as (H1 & H2 & H3 & H4 & H5).
    rewrite bind_run, (inode_map_spec i _ (sh_packed _ (ca_shape _ _ _ _ A))) by exact H1.
    destruct (blocks_of (direct i) !! Z.to_nat ((offset + done) / ADYTUMFS_BLOCK_SIZE)) as [b|] eqn:Hb; cbn [or_fail]; [|split; [by apply touched_refl|discriminate]].
    unfold mret at 1, act_ret at 1. cbv beta iota. rewrite bind_run. destruct (ca_blocks _ _ _ _ A b (list_elem_of_lookup_2 _ _ _ Hb)) as (Hdb & _ & _).
    pose proof (round_scratch_spec done b s (co_ok _ _ C) Hdb) as Hr.
    match goal with |- context [match ?m s with _ => _ end] => change (m s) with (round_scratch done b s) end. set (chunk := Z.min _ _) in *.
    destruct (round_scratch done b s) as [[scratch|] s1]; destruct Hr as [S1 Hr]; [|split; [by apply same_touched|discriminate]].
    destruct (Hr scratch eq_refl) as [Hy Hor]. pose proof (same_touched dev (eq n) _ _ C S1) as T1. pose proof (to_consistent _ _ _ _ T1) as C1.
    assert (carries dev s1 n i) as A1.
    { apply (marks_carries dev _ _ _ _ _ _ (same_vol dev (fun _ => True) _ _ (co_ok _ _ C) S1) (co_ok _ _ C) A). intros c Hc. by apply (ca_blocks _ _ _ _ A). }
    assert (in_place s1 i) as Hp1.
    { intros k c Hk Hc. unfold committed_bit. rewrite (same_committed dev _ _ _ _ S1). by apply (Hp k). }
    set (merged := merge scratch _ _). assert (is_block merged) as Hmb by (apply merge_block; assumption || lia).
    rewrite bind_run. pose proof (round_store_spec ((offset + done) / ADYTUMFS_BLOCK_SIZE) b i merged s1 C1 A1 Hm H1 Hp1 Hmb Hb) as Hst.
    match goal with |- context [match ?m s1 with _ => _ end] => change (m s1) with (round_store ((offset + done) / ADYTUMFS_BLOCK_SIZE) b i merged s1) end.
    destruct (round_store _ _ _ _ s1) as [[i2|] s2]; destruct Hst as [T2 Hst]; pose proof (touched_trans dev _ _ _ _ C T1 T2) as T12; [|split; [exact T12|discriminate]].
    destruct (Hst i2 eq_refl) as (A2 & E2 & Hp2 & c & Hbw). assert (chunk <= Z.of_nat (length buffer) - done) as Hcl by (unfold chunk; lia).
    assert (mode i2 <> 0) as Hm2 by (rewrite E2; exact Hm). specialize (IH (done + chunk) s2 i2 (to_consistent _ _ _ _ T2) A2 Hm2 Hp2 ltac:(lia)).
    destruct (file_write_loop fuel dev n i2 old_blocks offset buffer (done + chunk) s2) as [r s3]. destruct IH as [T3 IH].
    split; [by eapply touched_trans|]. intros i' Hi'. specialize (IH i' Hi'). apply (file_written_same done s s1 i s3 i' S1).
    eapply (written_trans done chunk s1 i s2 i2 s3 i' merged c b scratch); [lia|reflexivity|exact Hb|exact Hy| |reflexivity|exact Hbw|exact E2|exact A1|exact IH].
    rewrite (kept_nowhere_content dev _ _ _ (sw_disk _ _ S1)). exact Hor.
Qed.

End Write.

End Bytes.

End AdytumFile.
