(* ===== verification/AdytumFileTheorems.v ===== *)
(** AdytumFS: what is written to a file is what is read from it, and no other
    file notices. *)

From S2P Require Import Prelude Wire Crc32c AdytumFormat AdytumVolume AdytumDevice AdytumCommit AdytumWindow AdytumAlloc AdytumData AdytumInode AdytumExtents AdytumTable AdytumStep AdytumFiles AdytumRemap AdytumTouch AdytumFile AdytumSample AdytumAtomic.

Module AdytumFileTheorems.
Import Wire AdytumFormat AdytumVolume AdytumDevice AdytumCommit AdytumWindow AdytumAlloc AdytumData AdytumInode AdytumExtents AdytumTable AdytumStep AdytumFiles AdytumRemap AdytumTouch AdytumFile AdytumSample AdytumAtomic.

#[local] Opaque crc32c zero_block.

Section Files.
Context {D : Type} `{FsDeviceLaws D}.
Context (dev : Z).
Implicit Types (s : fs D) (i : adytumfs_inode).

(** ** The inode a write ends with *)

Lemma set_times_fields now i : inode_fields i -> is_u64 now -> inode_fields (set_times now i).
Proof.
  intros [F1 F2 F3 F4 F5] Hn. split; [exact F1|exact F2| |exact F4|exact F5]. rewrite !Forall_cons in F3.
  destruct F3 as (? & ? & ? & ? & ? & ? & ? & ? & _). repeat (apply Forall_cons; split; [assumption|]). constructor.
Qed.

Lemma set_size_fields n i : inode_fields i -> is_u64 n -> inode_fields (set_inode_size n i).
Proof.
  intros [F1 F2 F3 F4 F5] Hn. split; [exact F1|exact F2| |exact F4|exact F5]. rewrite !Forall_cons in F3.
  destruct F3 as (? & ? & ? & ? & ? & ? & ? & ? & _). repeat (apply Forall_cons; split; [assumption|]). constructor.
Qed.

(** An inode with the same extents is carried as well. *)
Lemma carries_ext s n i i' : carries dev s n i -> inode_fields i' -> direct i' = direct i -> blocks i' = blocks i -> carries dev s n i'.
Proof. intros [_ [P1 P2 P3] A] F Ed Eb. split; [exact F|split; rewrite ?Ed, ?Eb; assumption|rewrite Ed; exact A]. Qed.

Lemma file_byte_ext s s' i i' p :
  direct i' = direct i -> (forall b, b ∈ blocks_of (direct i) -> content (disk s') dev b = content (disk s) dev b) -> file_byte dev s' i' p = file_byte dev s i p.
Proof.
  intros Ed Hc. unfold file_byte. rewrite Ed. destruct (_ !! _) as [b|] eqn:Hb; [|done]. by rewrite Hc by (by eapply list_elem_of_lookup_2).
Qed.

(** ** Growing shows zeroes *)

Lemma grown_byte s n i new start i1 s1 p :
  consistent dev s -> carries dev s n i -> grown dev s n i new start i1 s1 -> 0 <= p -> file_byte dev s1 i1 p = file_byte dev s i p.
Proof.
  intros C A G Hp. pose proof (Z.div_pos p ADYTUMFS_BLOCK_SIZE Hp eq_refl) as Hq. unfold file_byte. rewrite (gr_blocks _ _ _ _ _ _ _ _ G).
  destruct (blocks_of (direct i) !! Z.to_nat (p / ADYTUMFS_BLOCK_SIZE)) as [b|] eqn:Hb.
  - rewrite (lookup_app_l_Some _ _ _ _ Hb). destruct (ca_blocks _ _ _ _ A b (list_elem_of_lookup_2 _ _ _ Hb)) as (Hd & Hbit & _).
    rewrite (step_content dev _ _ _ _ (vo_step _ _ _ _ _ _ (gr_step _ _ _ _ _ _ _ _ G)) (co_ok _ _ C) Hd); [reflexivity|].
    intros Hr. pose proof (fr_vacant _ _ _ _ (gr_run _ _ _ _ _ _ _ _ G) b Hr) as Hv. apply vacant_bit in Hv. congruence.
  - apply lookup_ge_None in Hb. rewrite lookup_app_r by done. destruct (seqZ start (new - blocks i) !! _) as [b|] eqn:Hz; [|done].
    apply list_elem_of_lookup_2, elem_of_seqZ in Hz. destruct (gr_zero _ _ _ _ _ _ _ _ G b ltac:(unfold in_run; lia)) as [-> _]. apply at_zero.
Qed.

Lemma grown_sealed s n i new start i1 s1 :
  consistent dev s -> carries dev s n i -> grown dev s n i new start i1 s1 -> all_sealed dev s i -> all_sealed dev s1 i1.
Proof.
  intros C A G Ha b Hb. rewrite (gr_blocks _ _ _ _ _ _ _ _ G), elem_of_app in Hb. destruct Hb as [Hb|Hb%elem_of_seqZ].
  - destruct (ca_blocks _ _ _ _ A b Hb) as (Hd & Hbit & _).
    rewrite (step_sealed dev _ _ _ _ (vo_step _ _ _ _ _ _ (gr_step _ _ _ _ _ _ _ _ G)) (co_ok _ _ C) Hd); [by apply Ha|].
    intros Hr. pose proof (fr_vacant _ _ _ _ (gr_run _ _ _ _ _ _ _ _ G) b Hr) as Hv. apply vacant_bit in Hv. congruence.
  - apply (gr_zero _ _ _ _ _ _ _ _ G b). unfold in_run. lia.
Qed.

(** The new blocks may be written in place. *)
Lemma grown_in_place s n i new start i1 s1 :
  consistent dev s -> carries dev s n i -> grown dev s n i new start i1 s1 -> in_place dev (blocks i) s1 i1.
Proof.
  intros C A G k b Hk Hb. rewrite (gr_blocks _ _ _ _ _ _ _ _ G), lookup_app_r in Hb by (rewrite (sh_blocks _ (ca_shape _ _ _ _ A)) in Hk; lia).
  apply list_elem_of_lookup_2, elem_of_seqZ in Hb. pose proof (gr_run _ _ _ _ _ _ _ _ G) as [Hr Hv _]. specialize (Hv b ltac:(lia)).
  rewrite (step_committed_bit dev _ _ _ _ (vo_step _ _ _ _ _ _ (gr_step _ _ _ _ _ _ _ _ G)) (co_ok _ _ C)).
  - unfold vacant in Hv. by destruct (committed_bit dev s b), (bit dev s b).
  - apply (data_total dev s b (co_ok _ _ C)). unfold data_block. lia.
Qed.

(** ** A whole write *)

Section Write.
Context (s : fs D) (n offset : Z) (buffer : list Z).
Context (C : consistent dev s) (Hn : 0 <= n) (Hbuf : is_bytes buffer) (Ho : is_u64 offset) (Hlen : is_u64 (Z.of_nat (length buffer))).

Local Abbreviation len := (Z.of_nat (length buffer)).

(** The file [n] has the buffer at [offset], and is the same elsewhere. *)
Record wrote s' : Prop := {
  wr_fits : offset + len < 2 ^ 64;
  wr_file : exists i i', inode_at dev s n = Some i /\ inode_at dev s' n = Some i' /\ mode i' = mode i /\ size i' = Z.max (size i) (offset + len) /\
    (forall p, 0 <= p -> file_byte dev s' i' p = if (offset <=? p) && (p <? offset + len) then at_ buffer (p - offset) else file_byte dev s i p) /\
    (all_sealed dev s i -> all_sealed dev s' i') /\ offset + len <= ADYTUMFS_BLOCK_SIZE * blocks i'
}.

(** The last step: the size, the times and the inode. *)
Lemma write_finish s1 i i1 :
  consistent dev s1 -> carries dev s1 n i1 -> inode_at dev s n = Some i -> mode i1 = mode i -> size i1 = size i -> mode i <> 0 -> offset + len < 2 ^ 64 ->
  (forall p, 0 <= p -> file_byte dev s1 i1 p = if (offset <=? p) && (p <? offset + len) then at_ buffer (p - offset) else file_byte dev s i p) ->
  (all_sealed dev s i -> all_sealed dev s1 i1) -> offset + len <= ADYTUMFS_BLOCK_SIZE * blocks i1 ->
  let i2 := if size i1 <? offset + len then set_inode_size (offset + len) i1 else i1 in
  let '(r, s2) := (now ← wall_clock; _ ← adytumfs_inode_write dev n (set_times now i2); mret len) s1 in
  touched dev (eq n) s1 s2 /\ (r = Some len -> wrote s2) /\ (r = None \/ r = Some len).
Proof.
  intros C1 A1 Hi Hmode Hsize Hm He Hby Hse Hcv i2. rewrite bind_run. unfold wall_clock. cbv beta iota. rewrite bind_run.
  destruct (clock_range (disk s1)) as [Hclk _]. set (now := rtc64_wall_clock (disk s1)) in *. set (i3 := set_times now i2).
  assert (direct i3 = direct i1 /\ blocks i3 = blocks i1 /\ mode i3 = mode i1) as (Ed & Eb & Em) by (unfold i3, i2; destruct (size i1 <? offset + len); done).
  assert (size i3 = Z.max (size i) (offset + len)) as Es by (unfold i3, i2; destruct (Z.ltb_spec (size i1) (offset + len)); cbn; lia).
  assert (inode_fields i3) as F3.
  { apply set_times_fields; [|exact Hclk]. unfold i2. destruct (size i1 <? offset + len); [|apply A1]. apply set_size_fields; [apply A1|].
    unfold is_u64 in *. change (2 ^ 64) with 0x10000000000000000 in He. lia. }
  pose proof (inode_write_touched dev s1 n i3 C1 (carries_ext s1 n i1 i3 A1 F3 Ed Eb) Hn) as Hw. destruct (adytumfs_inode_write dev n i3 s1) as [[[]|] s2]; destruct Hw as (T & A2 & V).
  - destruct V as [Hn1 V]. split; [exact T|]. split; [|by right]. intros _. split; [exact He|]. exists i, i3.
    assert (forall b, b ∈ blocks_of (direct i1) -> content (disk s2) dev b = content (disk s1) dev b /\ (sealed dev s1 b -> sealed dev s2 b)) as Hk.
    { intros b Hb. destruct (ca_blocks _ _ _ _ A1 b Hb) as (Hd & _ & _). split; [apply (step_content dev _ _ _ _ (vo_step _ _ _ _ _ _ V) (co_ok _ _ C1) Hd); auto|].
      apply (step_sealed dev _ _ _ _ (vo_step _ _ _ _ _ _ V) (co_ok _ _ C1) Hd). auto. }
    split; [exact Hi|]. split; [rewrite (vo_inode _ _ _ _ _ _ V n Hn1), Z.eqb_refl; reflexivity|]. split; [congruence|]. split; [exact Es|]. split.
    + intros p Hp. rewrite (file_byte_ext s1 s2 i1 i3 p Ed); [by apply Hby|]. intros b Hb. by apply Hk.
    + split; [|by rewrite Eb]. intros Ha b Hb. rewrite Ed in Hb. apply (Hk b Hb). by apply Hse.
  - split; [exact T|]. split; [discriminate|by left].
Qed.

(** What follows the read of the inode. *)
Definition write_body (i : adytumfs_inode) : act D Z :=
  let end' := u64 (offset + len) in
  if end' <? offset then fail else
  let need := u64 (end' + ADYTUMFS_BLOCK_SIZE - 1) / ADYTUMFS_BLOCK_SIZE in
  inode ← (if blocks i <? need then adytumfs_inode_grow dev i need else mret i);
  inode ← file_write_loop (rounds len) dev n inode (blocks i) offset buffer 0;
  let inode := if size inode <? end' then set_inode_size end' inode else inode in
  now ← wall_clock;
  _ ← adytumfs_inode_write dev n (set_times now inode);
  mret len.

Definition write_grow (i : adytumfs_inode) (need : Z) : act D adytumfs_inode :=
  if blocks i <? need then adytumfs_inode_grow dev i need else mret i.

Lemma write_grow_spec i need :
  carries dev s n i ->
  let '(r, s1) := write_grow i need s in
  touched dev (eq n) s s1 /\ forall i1, r = Some i1 ->
    carries dev s1 n i1 /\ mode i1 = mode i /\ size i1 = size i /\ in_place dev (blocks i) s1 i1 /\
    (forall p, 0 <= p -> file_byte dev s1 i1 p = file_byte dev s i p) /\ (all_sealed dev s i -> all_sealed dev s1 i1).
Proof.
  intros A. unfold write_grow. destruct (Z.ltb_spec (blocks i) need) as [Hlt|Hge].
  - pose proof (grow_spec dev s n i need C A Hlt) as Hg. destruct (adytumfs_inode_grow dev i need s) as [[i1|] s1].
    + destruct Hg as [start G]. split; [by eapply grown_touched|]. intros ? [= <-]. pose proof (gr_inode _ _ _ _ _ _ _ _ G) as E.
      split; [apply G|]. split; [by rewrite E|]. split; [by rewrite E|]. split; [by eapply grown_in_place|]. split; [intros p Hp; by eapply grown_byte|by eapply grown_sealed].
    + split; [by apply failed_touched|discriminate].
  - split; [by apply touched_refl|]. intros ? [= <-]. do 3 (split; [done|]). split; [|done]. intros k b Hk Hb. apply lookup_lt_Some in Hb.
    rewrite (sh_blocks _ (ca_shape _ _ _ _ A)) in Hk. lia.
Qed.

Lemma write_body_spec i :
  inode_at dev s n = Some i -> carries dev s n i -> mode i <> 0 -> 0 < len ->
  let '(r, s') := write_body i s in touched dev (eq n) s s' /\ (r = Some len -> wrote s') /\ (r = None \/ r = Some len).
Proof.
  intros Hi A Hm Hpos. unfold write_body. pose proof (touched_refl dev (eq n) s C) as T0. unfold is_u64 in Ho, Hlen.
  destruct (Z.ltb_spec (u64 (offset + len)) offset) as [|Hge]; [split; [exact T0|split; [discriminate|by left]]|].
  assert (offset + len < 2 ^ 64) as He.
  { change (2 ^ 64) with 0x10000000000000000. destruct (decide (offset + len < 0x10000000000000000)) as [|Hw]; [done|]. exfalso. revert Hge. unfold u64.
    rewrite <- (Z.mod_unique (offset + len) 0x10000000000000000 1 (offset + len - 0x10000000000000000)); lia. }
  assert (u64 (offset + len) = offset + len) as -> by (apply u64_small; unfold is_u64; change (2 ^ 64) with 0x10000000000000000 in He; lia).
  rewrite bind_run. set (need := u64 _ / _). fold (write_grow i need). pose proof (write_grow_spec i need A) as Hg.
  destruct (write_grow i need s) as [[i1|] s1]; destruct Hg as [T1 Hg]; [|split; [exact T1|split; [discriminate|by left]]].
  destruct (Hg i1 eq_refl) as (A1 & Em & Es & Hp & Hby & Hse). pose proof (to_consistent _ _ _ _ T1) as C1. rewrite bind_run.
  pose proof (file_loop_write dev n (blocks i) offset buffer Hn Hbuf ltac:(lia) He (rounds len) 0 s1 i1 C1 A1 ltac:(congruence) Hp ltac:(lia)) as Hl.
  destruct (file_write_loop _ _ _ _ _ _ _ _ s1) as [[i2|] s2]; destruct Hl as [T2 Hl]; pose proof (touched_trans dev _ _ _ _ C T1 T2) as T12;
    [|split; [exact T12|split; [discriminate|by left]]].
  destruct (Hl i2 eq_refl) as [A2 E2 Hby2 Hse2 Hcv].
  pose proof (write_finish s2 i i2 (to_consistent _ _ _ _ T2) A2 Hi ltac:(rewrite E2; exact Em) ltac:(rewrite E2; exact Es) Hm He) as Hf.
  match type of Hf with ?P -> ?Q -> _ => assert P as H1; [|assert Q as H2; [|specialize (Hf H1 H2 (Hcv Hpos))]] end.
  - intros p Hp0. rewrite Hby2 by done. rewrite Z.add_0_r. destruct (_ && _); [done|by apply Hby].
  - intros Ha. apply Hse2. by apply Hse.
  - cbv zeta in Hf. destruct ((now ← wall_clock; _) s2) as [r s3]. destruct Hf as (T3 & Hf & Hr). split; [by eapply touched_trans|]. split; assumption.
Qed.

End Write.

Lemma wrote_same s s0 n offset buffer s' : same_window s s0 -> wrote s0 n offset buffer s' -> wrote s n offset buffer s'.
Proof.
  intros S [Hf (i & i' & Hi & Hi' & Hm & Hs & Hb & Ha & Hc)]. split; [exact Hf|]. exists i, i'. rewrite <- Hi.
  split; [unfold inode_at; by rewrite (same_view dev _ _ _ _ S)|]. do 3 (split; [done|]). split; [|split; [|exact Hc]].
  - intros p Hp. by rewrite Hb, (same_byte dev _ _ _ _ S).
  - intros Hall. apply Ha. intros b Hin. apply (sealed_same dev s); [exact S|by apply Hall].
Qed.

Lemma same_inode s s' n : same_window s s' -> inode_at dev s' n = inode_at dev s n.
Proof. intros S. unfold inode_at. by rewrite (same_view dev _ _ _ _ S). Qed.

Lemma same_number s s' n : same_window s s' -> inode_number s n -> inode_number s' n.
Proof. intros S. unfold inode_number. by rewrite (sw_super _ _ S). Qed.

(** The whole of [adytumfs_file_write]. *)
Lemma file_write_spec s n offset buffer :
  consistent dev s -> 0 <= n -> is_bytes buffer -> is_u64 offset -> 0 < Z.of_nat (length buffer) < 2 ^ 64 ->
  let '(r, s') := adytumfs_file_write dev n offset buffer s in
  touched dev (eq n) s s' /\ (r = Some (Z.of_nat (length buffer)) -> wrote s n offset buffer s') /\ (r = None \/ r = Some (Z.of_nat (length buffer))).
Proof.
  intros C Hn Hbuf Ho Hlen. unfold adytumfs_file_write. rewrite bind_run. pose proof (inode_read_spec dev s n (co_ok _ _ C) Hn) as Hr.
  destruct (adytumfs_inode_read dev n s) as [[i|] s0]; destruct Hr as [S Hr]; pose proof (same_touched dev (eq n) _ _ C S) as T0;
    [|split; [exact T0|split; [discriminate|by left]]].
  destruct (Hr i eq_refl) as [Hnum Hi]. destruct (Z.eqb_spec (Z.land (mode i) ADYTUMFS_MODE_REG) 0) as [|Hreg]; [split; [exact T0|split; [discriminate|by left]]|].
  rewrite (proj2 (Z.eqb_neq (Z.of_nat (length buffer)) 0)) by lia.
  assert (mode i <> 0) as Hm by (intros E; apply Hreg; by rewrite E). pose proof (to_consistent _ _ _ _ T0) as C0.
  assert (inode_at dev s0 n = Some i) as Hi0 by (by rewrite (same_inode s)).
  pose proof (write_body_spec s0 n offset buffer C0 Hn Hbuf Ho ltac:(unfold is_u64; change (2 ^ 64) with 0x10000000000000000 in Hlen; lia) i Hi0
    (table_carries dev s0 n i C0 (same_number s s0 n S Hnum) Hi0 Hm) Hm ltac:(lia)) as Hb.
  change (let '(r, s') := write_body n offset buffer i s0 in
    touched dev (eq n) s s' /\ (r = Some (Z.of_nat (length buffer)) -> wrote s n offset buffer s') /\ (r = None \/ r = Some (Z.of_nat (length buffer)))).
  destruct (write_body n offset buffer i s0) as [r s']. destruct Hb as (T & Hw & Hrr). split; [by eapply touched_trans|]. split; [|exact Hrr].
  intros E. apply (wrote_same s s0); auto.
Qed.

End Files.

End AdytumFileTheorems.
