(* ===== verification/AdytumVerify.v ===== *)
(** AdytumFS: the audit of a mount, [src/fs/adytumfs_verify.c].

    The audit reads every inode and every bit.  When it succeeds, the volume is
    [consistent], the bitmap has exactly the blocks of the inodes and the
    counts of the superblock are exact. *)

From S2P Require Import Prelude Wire Crc32c AdytumFormat AdytumVolume AdytumDevice AdytumCommit AdytumSample AdytumAtomic AdytumWindow AdytumAlloc AdytumData AdytumInode AdytumExtents AdytumTable AdytumStep AdytumFiles.

Module AdytumVerify.
Import Wire AdytumFormat AdytumVolume AdytumDevice AdytumCommit AdytumSample AdytumAtomic AdytumWindow AdytumAlloc AdytumData AdytumInode AdytumExtents AdytumTable AdytumStep AdytumFiles.

#[local] Opaque crc32c zero_block.

(** ** Definitions *)

Definition ADYTUMFS_VERIFY_CLAIMS_MAX : Z :=
  ADYTUMFS_INODE_TABLE_BLOCKS_MAX * ADYTUMFS_INODES_PER_BLOCK * ADYTUMFS_DIRECT_EXTENTS.

Record verify_claim := Claim { claim_start : Z; claim_length : Z }.

(** The extents of one inode: the blocks they map, and the ledger with their
    claims. *)
Fixpoint verify_extents (super : adytumfs_superblock) (l : list adytumfs_extent) (terminated : bool) (mapped : Z)
    (claims : list verify_claim) : option (Z * list verify_claim) :=
  match l with
  | [] => Some (mapped, claims)
  | e :: l =>
      let length := ext_length e in
      if length =? 0 then verify_extents super l true mapped claims else
      if terminated then None else
      let start := start_block e in
      if (start <? data_start super) || (data_checksum_region super <=? start) ||
         (u64 (data_checksum_region super - start) <? length) then None else
      if ADYTUMFS_VERIFY_CLAIMS_MAX <=? Z.of_nat (List.length claims) then None else
      verify_extents super l false (u64 (mapped + length)) (claims ++ [Claim start length])
  end.

Definition kind_bits (m : Z) : Z := Z.land m (Z.lor ADYTUMFS_MODE_DIR (Z.lor ADYTUMFS_MODE_REG ADYTUMFS_MODE_LNK)).

Definition overlap (outer inner : verify_claim) : bool :=
  (claim_start outer <? u64 (claim_start inner + claim_length inner)) &&
  (claim_start inner <? u64 (claim_start outer + claim_length outer)).

Fixpoint any_overlap (l : list verify_claim) : bool :=
  match l with
  | [] => false
  | outer :: l => existsb (overlap outer) l || any_overlap l
  end.

Section Code.
Context {D : Type} `{FsDevice D}.

(** A [for] loop that threads the variables of the function. *)
Fixpoint fold_act {A B : Type} (l : list B) (f : B -> A -> act D A) (a : A) : act D A :=
  match l with
  | [] => mret a
  | x :: l => a ← f x a; fold_act l f a
  end.

(** The bitmap window in memory: its number and its bytes. *)
Definition no_window : Z * list Z := (0xFFFFFFFFFFFFFFFF, []).

Definition verify_bit (device block : Z) (cache : Z * list Z) : act D (bool * (Z * list Z)) :=
  super ← the_super;
  let window := block / bits_per_block in
  if block_bitmap_blocks super <=? window then fail else
  cache ← (if window =? fst cache then mret cache
           else bytes ← adytumfs_block_read device (adytumfs_bitmap_block super (u32 window)); mret (window, bytes));
  mret (bit_in (snd cache) (block mod bits_per_block), cache).

(** One inode: the ledger and the count of free inodes. *)
Definition verify_inode (device inode : Z) (a : list verify_claim * Z) : act D (list verify_claim * Z) :=
  super ← the_super;
  i ← adytumfs_inode_read device inode;
  let '(claims, free_inodes) := a in
  if mode i =? 0 then mret (claims, u64 (free_inodes + 1)) else
  let bits := kind_bits (mode i) in
  if negb (bits =? ADYTUMFS_MODE_DIR) && negb (bits =? ADYTUMFS_MODE_REG) && negb (bits =? ADYTUMFS_MODE_LNK) then fail else
  match verify_extents super (direct i) false 0 claims with
  | None => fail
  | Some (mapped, claims) => if negb (blocks i =? mapped) then fail else mret (claims, free_inodes)
  end.

Definition verify_block (device block : Z) (a : Z * (Z * list Z)) : act D (Z * (Z * list Z)) :=
  super ← the_super;
  let '(allocated, cache) := a in
  b ← verify_bit device block cache;
  let '(used, cache) := b in
  if (block <? data_start super) || (data_checksum_region super <=? block)
  then if used : bool then mret (allocated, cache) else fail
  else mret (if used : bool then u64 (allocated + 1) else allocated, cache).

Definition verify_claimed (device : Z) (c : verify_claim) (a : Z * (Z * list Z)) : act D (Z * (Z * list Z)) :=
  let '(claimed, cache) := a in
  cache ← fold_act (seqZ (claim_start c) (claim_length c)) (fun block cache =>
            b ← verify_bit device block cache;
            if fst b : bool then mret (snd b) else fail) cache;
  mret (u64 (claimed + claim_length c), cache).

Definition adytumfs_verify (device : Z) : act D unit :=
  super ← the_super;
  inodes ← fold_act (seqZ 1 (inode_count super - 1)) (verify_inode device) ([], 0);
  let '(claims, free_inodes) := inodes in
  bits ← fold_act (seqZ 0 (total_blocks super)) (verify_block device) (0, no_window);
  let '(allocated, cache) := bits in
  sums ← fold_act claims (verify_claimed device) (0, cache);
  let '(claimed, _) := sums in
  if any_overlap claims then fail else
  if negb (claimed =? allocated) then fail else
  if negb (AdytumFormat.free_inodes super =? free_inodes) then fail else
  if negb (free_blocks super =? u64 (data_checksum_region super - data_start super - allocated)) then fail else
  mret tt.

(** The part of [adytumfs_attach] that decides whether a volume is mounted. *)
Definition attach_volume (device : Z) : act D unit :=
  _ ← adytumfs_window_discard device;
  super ← adytumfs_super_read device;
  if nz (feature_ro_compat super) then fail else
  _ ← set_super super;
  adytumfs_verify device.

End Code.

(** ** Claims *)

Definition claim_of (e : adytumfs_extent) : verify_claim := Claim (start_block e) (ext_length e).

(** The blocks of a claim. *)
Definition crun (c : verify_claim) : list Z := seqZ (claim_start c) (claim_length c).

Definition in_region (super : adytumfs_superblock) (c : verify_claim) : Prop :=
  data_start super <= claim_start c /\ 0 < claim_length c /\ claim_start c + claim_length c <= data_checksum_region super.

Definition live_extents (l : list adytumfs_extent) : list adytumfs_extent := take (extent_count l) l.

Lemma runs_claims l : runs l = concat (map crun (map claim_of l)).
Proof. unfold runs. by rewrite map_map. Qed.

Section Extents.
Context (super : adytumfs_superblock) (L : layout super) (Ht : total_blocks super <= 2 ^ 29).

Lemma verify_extents_spec l terminated mapped claims m claims' :
  Forall extent_fields l -> 0 <= mapped -> mapped + 2 ^ 29 * Z.of_nat (length l) < 2 ^ 64 ->
  verify_extents super l terminated mapped claims = Some (m, claims') ->
  claims' = claims ++ map claim_of (live_extents l) /\ m = mapped + Z.of_nat (length (runs (live_extents l))) /\
  Forall (in_region super) (map claim_of (live_extents l)) /\
  Forall (fun e => ext_length e = 0) (drop (extent_count l) l) /\ (terminated = true -> extent_count l = 0%nat).
Proof.
  pose proof L as [L1 L2 L3 L4 L5 L6 L7 L8 L9 L10]. change (2 ^ 29) with 536870912 in *. change (2 ^ 64) with 0x10000000000000000.
  revert terminated mapped claims. induction l as [|e l IH]; intros terminated mapped claims Hf H0 Hb.
  - intros [= <- <-]. cbn. rewrite app_nil_r. split; [done|]. split; [lia|]. auto.
  - apply Forall_cons in Hf as [[E1 E2 E3] Hf]. unfold is_u64 in E1. unfold is_u32 in E2. cbn [length] in Hb. cbn [verify_extents]. destruct (Z.eqb_spec (ext_length e) 0) as [Hz|Hz].
    + intros Hv. destruct (IH true mapped claims Hf H0 ltac:(lia) Hv) as (-> & -> & _ & Hd & Hc). specialize (Hc eq_refl). unfold live_extents. cbn [extent_count].
      rewrite Hc in *. rewrite (proj2 (Z.eqb_eq _ _) Hz), take_0. cbn. rewrite app_nil_r. split; [done|]. split; [lia|]. split; [constructor|]. split; [|done]. by constructor.
    + destruct terminated; [discriminate|]. destruct (Z.ltb_spec (start_block e) (data_start super)) as [|G1]; [discriminate|].
      destruct (Z.leb_spec (data_checksum_region super) (start_block e)) as [|G2]; [discriminate|]. cbn [orb].
      rewrite (u64_small (_ - _)) by (unfold is_u64; lia). destruct (Z.ltb_spec (data_checksum_region super - start_block e) (ext_length e)) as [|G3]; [discriminate|].
      destruct (_ <=? _); [discriminate|]. rewrite u64_small by (unfold is_u64; lia). intros Hv.
      destruct (IH false (mapped + ext_length e) (claims ++ [Claim (start_block e) (ext_length e)]) Hf ltac:(lia) ltac:(lia) Hv) as (-> & -> & Hr & Hd & _).
      unfold live_extents in *. cbn [extent_count]. rewrite (proj2 (Z.eqb_neq _ _) Hz). cbn [take drop map]. split; [by rewrite <- app_assoc|]. split.
      * unfold runs. cbn [map concat]. rewrite length_app. unfold run_of at 2. rewrite length_seqZ. lia.
      * split; [constructor; [split; cbn; lia|exact Hr]|]. split; [exact Hd|discriminate].
Qed.

(** Extents in order are accepted while the ledger has room. *)
Lemma verify_extents_total l terminated mapped claims :
  Forall extent_fields l -> Forall (in_region super) (map claim_of (live_extents l)) -> Forall (fun e => ext_length e = 0) (drop (extent_count l) l) ->
  (terminated = true -> extent_count l = 0%nat) -> Z.of_nat (length claims + length l) <= ADYTUMFS_VERIFY_CLAIMS_MAX ->
  verify_extents super l terminated mapped claims <> None.
Proof.
  pose proof L as [L1 L2 L3 L4 L5 L6 L7 L8 L9 L10]. change (2 ^ 29) with 536870912 in *. unfold live_extents.
  revert terminated mapped claims. induction l as [|e l IH]; intros terminated mapped claims Hf Hr Hz Ht' Hb; [done|].
  apply Forall_cons in Hf as [[E1 E2 E3] Hf]. unfold is_u64 in E1. unfold is_u32 in E2. cbn [verify_extents]. cbn [extent_count length] in *.
  destruct (Z.eqb_spec (ext_length e) 0) as [He|He].
  - cbn [drop] in Hz. apply Forall_cons in Hz as [_ Hz]. assert (extent_count l = 0%nat) as E by (destruct l as [|e' l']; [done|]; apply Forall_cons in Hz as [Hz' _]; cbn; by rewrite Hz').
    apply IH; rewrite ?E; [exact Hf|constructor|exact Hz|done|lia].
  - destruct terminated; [by specialize (Ht' eq_refl)|]. cbn [take map drop] in Hr, Hz. apply Forall_cons in Hr as [(R1 & R2 & R3) Hr]. cbn in R1, R2, R3.
    rewrite (proj2 (Z.ltb_ge _ _)), (proj2 (Z.leb_gt _ (start_block e))) by lia. cbn [orb]. rewrite (u64_small (_ - _)) by (unfold is_u64; lia).
    rewrite (proj2 (Z.ltb_ge _ _)), (proj2 (Z.leb_gt ADYTUMFS_VERIFY_CLAIMS_MAX _)) by lia.
    apply IH; [exact Hf|exact Hr|exact Hz|discriminate|]. rewrite length_app. cbn [length]. lia.
Qed.

(** Claims that do not overlap have no block twice. *)
Lemma overlap_spec a b : in_region super a -> in_region super b -> overlap a b = false -> forall x, x ∈ crun a -> x ∈ crun b -> False.
Proof.
  pose proof L as [L1 L2 L3 L4 L5 L6 L7 L8 L9 L10]. change (2 ^ 29) with 536870912 in *. intros (A1 & A2 & A3) (B1 & B2 & B3). unfold overlap.
  rewrite !u64_small by (unfold is_u64; lia). rewrite andb_false_iff, !Z.ltb_ge. intros Ho x Ha%elem_of_seqZ Hb%elem_of_seqZ. lia.
Qed.

Lemma overlap_nodup l : Forall (in_region super) l -> any_overlap l = false -> NoDup (concat (map crun l)).
Proof.
  induction l as [|c l IH]; [constructor|]. intros [Hc Hl]%Forall_cons Ho. cbn [any_overlap] in Ho. apply orb_false_iff in Ho as [Ho1 Ho2].
  cbn [map concat]. apply NoDup_app. split; [apply NoDup_seqZ|]. split; [|by apply IH]. intros x Hx Hin.
  apply list_elem_of_In, in_concat in Hin as (r & Hr & Hxr). apply in_map_iff in Hr as (d & <- & Hd).
  rewrite Forall_forall in Hl. apply (overlap_spec c d Hc) with (x := x); [by apply Hl, list_elem_of_In| |exact Hx|by apply list_elem_of_In].
  destruct (overlap c d) eqn:E; [|done]. rewrite <- Ho1. symmetry. apply existsb_exists. by exists d.
Qed.

(** And the other way round. *)
Lemma nodup_overlap l : Forall (in_region super) l -> NoDup (concat (map crun l)) -> any_overlap l = false.
Proof.
  pose proof L as [L1 L2 L3 L4 L5 L6 L7 L8 L9 L10]. change (2 ^ 29) with 536870912 in *.
  induction l as [|c l IH]; [done|]. intros [Hc Hl]%Forall_cons Hn. cbn [map concat] in Hn. apply NoDup_app in Hn as (_ & Hd & Hn). cbn [any_overlap].
  rewrite (IH Hl Hn), orb_false_r. destruct (existsb (overlap c) l) eqn:He; [|done]. exfalso. apply existsb_exists in He as (d & Hin & Ho).
  rewrite Forall_forall in Hl. destruct (Hl d (proj2 (list_elem_of_In _ _) Hin)) as (D1 & D2 & D3). destruct Hc as (C1 & C2 & C3).
  unfold overlap in Ho. rewrite !u64_small in Ho by (unfold is_u64; lia). apply andb_prop in Ho as [H1%Z.ltb_lt H2%Z.ltb_lt].
  apply (Hd (Z.max (claim_start c) (claim_start d))); [apply elem_of_seqZ; lia|]. apply list_elem_of_In, in_concat. exists (crun d). split; [by apply in_map|].
  apply list_elem_of_In, elem_of_seqZ. lia.
Qed.

End Extents.

Lemma nodup_concat_intro {A} (ls : list (list A)) :
  (forall i a, ls !! i = Some a -> NoDup a) -> (forall i j a b x, ls !! i = Some a -> ls !! j = Some b -> x ∈ a -> x ∈ b -> i = j) -> NoDup (concat ls).
Proof.
  induction ls as [|l ls IH]; intros Hn Ha; [constructor|]. cbn [concat]. apply NoDup_app. split; [by apply (Hn 0%nat)|]. split.
  - intros x Hx Hin. apply list_elem_of_In, in_concat in Hin as (r & Hr & Hxr). apply list_elem_of_In, list_elem_of_lookup in Hr as [k Hk]. apply list_elem_of_In in Hxr.
    by pose proof (Ha 0%nat (S k) l r x eq_refl Hk Hx Hxr).
  - apply IH; [intros i a Hi; by apply (Hn (S i))|]. intros i j p q x Hi Hj Hp Hq. pose proof (Ha (S i) (S j) p q x Hi Hj Hp Hq). lia.
Qed.

Lemma nodup_concat_apart {A} (ls : list (list A)) i j a b x :
  NoDup (concat ls) -> ls !! i = Some a -> ls !! j = Some b -> x ∈ a -> x ∈ b -> i = j.
Proof.
  revert i j. induction ls as [|l ls IH]; intros i j Hn Hi Hj Ha Hb; [done|]. cbn [concat] in Hn. apply NoDup_app in Hn as (_ & Hd & Hn).
  assert (forall k c, ls !! k = Some c -> x ∈ c -> x ∈ concat ls) as Hin.
  { intros k c Hk Hx. apply list_elem_of_In, in_concat. exists c. split; apply list_elem_of_In; [by eapply list_elem_of_lookup_2|done]. }
  destruct i as [|i], j as [|j]; cbn in Hi, Hj; simplify_eq.
  - done.
  - exfalso. by apply (Hd x Ha), (Hin j b).
  - exfalso. by apply (Hd x Hb), (Hin i a).
  - f_equal. by apply (IH i j).
Qed.

(** ** The loops of the audit *)

Section Audit.
Context {D : Type} `{FsDeviceLaws D}.
Context (dev : Z) (s : fs D) (W : window_ok dev s).

(** A loop whose rounds read only: [I] is kept for the part that is done. *)
Lemma fold_same {A B} (I : list B -> A -> Prop) (f : B -> A -> act D A) (l done rest : list B) a (s' : fs D) :
  l = done ++ rest -> same_window s s' -> I done a ->
  (forall x pre post a (s' : fs D), l = pre ++ x :: post -> same_window s s' -> I pre a ->
     let '(r, s'') := f x a s' in same_window s s'' /\ forall a', r = Some a' -> I (pre ++ [x]) a') ->
  let '(r, s'') := fold_act rest f a s' in same_window s s'' /\ forall a', r = Some a' -> I l a'.
Proof.
  intros El S Hi Hf. revert done a s' El S Hi. induction rest as [|x rest IH]; intros done a s' El S Hi; cbn [fold_act].
  - split; [exact S|]. intros ? [= <-]. by rewrite El, app_nil_r.
  - rewrite bind_run. pose proof (Hf x done rest a s' El S Hi) as Hr. destruct (f x a s') as [[a'|] s1]; destruct Hr as [S1 Hr]; [|split; [exact S1|discriminate]].
    apply (IH (done ++ [x])); [by rewrite <- app_assoc|exact S1|by apply Hr].
Qed.

(** *** Inodes *)

Record audited (i : adytumfs_inode) : Prop := {
  au_kind : kind_bits (mode i) = ADYTUMFS_MODE_DIR \/ kind_bits (mode i) = ADYTUMFS_MODE_REG \/ kind_bits (mode i) = ADYTUMFS_MODE_LNK;
  au_region : Forall (in_region (super s)) (map claim_of (live_extents (direct i)));
  au_rest : Forall (fun e => ext_length e = 0) (drop (extent_count (direct i)) (direct i));
  au_blocks : blocks i = Z.of_nat (length (runs (live_extents (direct i))))
}.

(** The claims of the inode [n]. *)
Definition ledger (n : Z) : list verify_claim :=
  match inode_at dev s n with
  | Some i => if mode i =? 0 then [] else map claim_of (live_extents (direct i))
  | None => []
  end.

Definition unused (n : Z) : bool := match inode_at dev s n with Some i => mode i =? 0 | None => false end.

Definition inodes_done (done : list Z) (a : list verify_claim * Z) : Prop :=
  fst a = concat (map ledger done) /\ snd a = Z.of_nat (length (List.filter unused done)) /\
  forall n, n ∈ done -> exists i, inode_at dev s n = Some i /\ (mode i <> 0 -> audited i).

Lemma filter_length_le {A} (f : A -> bool) (l : list A) : (length (List.filter f l) <= length l)%nat.
Proof. induction l as [|x l IH]; cbn; [lia|]. destruct (f x); cbn; lia. Qed.

Lemma verify_inode_spec x pre post a (s' : fs D) :
  seqZ 1 (inode_count (super s) - 1) = pre ++ x :: post -> same_window s s' -> inodes_done pre a ->
  let '(r, s'') := verify_inode dev x a s' in same_window s s'' /\ forall a', r = Some a' -> inodes_done (pre ++ [x]) a'.
Proof.
  intros El S (Hc & Hn & Hall). destruct a as [claims free]. cbn [fst snd] in Hc, Hn. pose proof (wo_layout _ _ W) as [L1 L2 L3 L4 L5 L6 L7 L8 L9 L10].
  assert (x ∈ seqZ 1 (inode_count (super s) - 1)) as Hx%elem_of_seqZ by (rewrite El, elem_of_app, elem_of_cons; auto).
  assert (Z.of_nat (length pre) <= 256) as Hlen by (assert (length (seqZ 1 (inode_count (super s) - 1)) = length (pre ++ x :: post)) as E by (by rewrite El); rewrite length_seqZ, length_app in E; cbn [length] in E; lia).
  pose proof (filter_length_le unused pre) as Hfl. pose proof (same_ok dev _ _ S W) as W'.
  unfold verify_inode. rewrite bind_run. unfold the_super. cbv beta iota. rewrite bind_run, (sw_super _ _ S). pose proof (inode_read_spec dev s' x W' ltac:(lia)) as Hr.
  destruct (adytumfs_inode_read dev x s') as [[i|] s1]; destruct Hr as [S1 Hr]; pose proof (same_window_trans _ _ _ S S1) as S2; [|split; [exact S2|discriminate]].
  destruct (Hr i eq_refl) as [_ Hi]. unfold inode_at in Hi. rewrite (same_view dev _ _ _ _ S) in Hi. fold (inode_at dev s x) in Hi.
  pose proof (inode_at_fields dev s x i W Hi) as [F1 F2 F3 F4 F5].
  assert ((mode i <> 0 -> audited i) -> inodes_done (pre ++ [x]) (concat (map ledger pre) ++ ledger x, Z.of_nat (length (List.filter unused (pre ++ [x]))))) as Hfin.
  { intros Ha. split; [cbn; rewrite map_app, concat_app; cbn; by rewrite app_nil_r|]. split; [done|]. intros n [Hin| ->%list_elem_of_singleton]%elem_of_app; [by apply Hall|by exists i]. }
  destruct (Z.eqb_spec (mode i) 0) as [Hm|Hm].
  - split; [exact S2|]. intros ? [= <-]. rewrite Hc, Hn. pose proof (Hfin ltac:(done)) as Hd. unfold ledger in Hd at 2. rewrite Hi, (proj2 (Z.eqb_eq _ _) Hm), app_nil_r in Hd.
    rewrite List.filter_app, length_app in Hd. cbn [List.filter] in Hd. assert (unused x = true) as Hu by (unfold unused; rewrite Hi; by apply Z.eqb_eq). rewrite Hu in Hd. cbn [length] in Hd.
    rewrite u64_small by (unfold is_u64; lia). by replace (Z.of_nat (length (List.filter unused pre)) + 1) with (Z.of_nat (length (List.filter unused pre) + 1)) by lia.
  - destruct (negb (kind_bits (mode i) =? ADYTUMFS_MODE_DIR) && _ && _) eqn:Hk; [split; [exact S2|discriminate]|].
    destruct (verify_extents (super s) (direct i) false 0 claims) as [[mapped claims']|] eqn:Hv; [|split; [exact S2|discriminate]].
    apply (verify_extents_spec (super s) (wo_layout _ _ W) (wo_total _ _ W)) in Hv as (-> & -> & Hreg & Hrest & _); [|exact F5|lia|rewrite F4; lia].
    destruct (Z.eqb_spec (blocks i) (0 + Z.of_nat (length (runs (live_extents (direct i)))))) as [Hb|]; cbn [negb]; (split; [exact S2|]); [|discriminate].
    intros ? [= <-]. assert (audited i) as Ha.
    { split; [|exact Hreg|exact Hrest|lia]. rewrite !andb_false_iff, !negb_false_iff, !Z.eqb_eq in Hk. tauto. }
    pose proof (Hfin (fun _ => Ha)) as Hd. unfold ledger in Hd at 2. rewrite Hi, (proj2 (Z.eqb_neq _ _) Hm) in Hd. rewrite List.filter_app, length_app in Hd. cbn [List.filter] in Hd.
    assert (unused x = false) as Hu by (unfold unused; rewrite Hi; by apply Z.eqb_neq). rewrite Hu in Hd. cbn [length] in Hd. rewrite Nat.add_0_r in Hd. by rewrite Hc, Hn.
Qed.

(** *** Bits *)

(** The window in memory is a block of the committed bitmap, or none. *)
Definition cache_ok (cache : Z * list Z) : Prop := fst cache < 0x100000000 -> snd cache = committed dev s false (fst cache).

Lemma verify_bit_spec block cache (s' : fs D) :
  same_window s s' -> cache_ok cache -> 0 <= block < total_blocks (super s) ->
  let '(r, s'') := verify_bit dev block cache s' in
  same_window s s'' /\ forall a, r = Some a -> fst a = committed_bit dev s block /\ cache_ok (snd a).
Proof.
  intros S Hc Hb. destruct (bitmap_index dev s block W Hb) as [Hi Hi']. unfold verify_bit. rewrite bind_run. unfold the_super. cbv beta iota. rewrite (sw_super _ _ S).
  rewrite (proj2 (Z.leb_gt _ _)) by lia. rewrite bind_run. destruct (Z.eqb_spec (block / bits_per_block) (fst cache)) as [He|_].
  - split; [exact S|]. intros ? [= <-]. cbn [fst snd]. rewrite Hc by lia. unfold committed_bit. by rewrite <- He.
  - rewrite bind_run, u32_small by (unfold is_u32; lia). pose proof (same_ok dev _ _ S W) as W'. pose proof (active_read dev s' false (block / bits_per_block) W') as Hr.
    rewrite (sw_super _ _ S) in Hr. specialize (Hr Hi). change (adytumfs_bitmap_block (super s) (block / bits_per_block)) with (staged_block (super s) (active_slot (super s)) false (block / bits_per_block)).
    destruct (adytumfs_block_read dev _ s') as [[bytes|] s1]; destruct Hr as [S1 Hr]; pose proof (same_window_trans _ _ _ S S1) as S2; [|split; [exact S2|discriminate]].
    split; [exact S2|]. intros ? [= <-]. cbn [fst snd]. rewrite (Hr bytes eq_refl), (same_committed dev _ _ _ _ S). by split.
Qed.

(** The data blocks whose bit is set. *)
Definition taken (b : Z) : bool := (data_start (super s) <=? b) && (b <? data_checksum_region (super s)) && committed_bit dev s b.

Definition bits_done (done : list Z) (a : Z * (Z * list Z)) : Prop :=
  cache_ok (snd a) /\ fst a = Z.of_nat (length (List.filter taken done)) /\
  forall b, b ∈ done -> data_block (super s) b \/ committed_bit dev s b = true.

Lemma verify_block_spec x pre post a (s' : fs D) :
  seqZ 0 (total_blocks (super s)) = pre ++ x :: post -> same_window s s' -> bits_done pre a ->
  let '(r, s'') := verify_block dev x a s' in same_window s s'' /\ forall a', r = Some a' -> bits_done (pre ++ [x]) a'.
Proof.
  intros El S (Hc & Hn & Hall). destruct a as [allocated cache]. cbn [fst snd] in Hc, Hn. pose proof (wo_layout _ _ W) as [L1 L2 L3 L4 L5 L6 L7 L8 L9 L10].
  pose proof (wo_total _ _ W) as Ht. change (2 ^ 29) with 536870912 in Ht.
  assert (x ∈ seqZ 0 (total_blocks (super s))) as Hx%elem_of_seqZ by (rewrite El, elem_of_app, elem_of_cons; auto).
  assert (Z.of_nat (length pre) <= 536870912) as Hlen by (assert (length (seqZ 0 (total_blocks (super s))) = length (pre ++ x :: post)) as E by (by rewrite El); rewrite length_seqZ, length_app in E; cbn [length] in E; lia).
  pose proof (filter_length_le taken pre) as Hfl. unfold verify_block. rewrite bind_run. unfold the_super. cbv beta iota. rewrite bind_run, (sw_super _ _ S).
  pose proof (verify_bit_spec x cache s' S Hc ltac:(lia)) as Hb. destruct (verify_bit dev x cache s') as [[[used cache']|] s1]; destruct Hb as [S1 Hb]; [|split; [exact S1|discriminate]].
  destruct (Hb _ eq_refl) as [Hu Hc']. cbn [fst snd] in Hu, Hc'.
  assert (forall n, n = Z.of_nat (length (List.filter taken (pre ++ [x]))) -> data_block (super s) x \/ committed_bit dev s x = true -> bits_done (pre ++ [x]) (n, cache')) as Hfin.
  { intros n -> Hd. split; [exact Hc'|]. split; [done|]. intros b [Hin| ->%list_elem_of_singleton]%elem_of_app; [by apply Hall|exact Hd]. }
  rewrite List.filter_app, length_app in Hfin. cbn [List.filter] in Hfin. unfold taken in Hfin at 2. rewrite <- Hu in Hfin.
  destruct (Z.ltb_spec x (data_start (super s))) as [Hlo|Hlo], (Z.leb_spec (data_checksum_region (super s)) x) as [Hhi|Hhi]; cbn [orb].
  1-3: destruct used; (split; [exact S1|]); [|discriminate]; intros ? [= <-]; apply Hfin; [|by right];
    rewrite ?(proj2 (Z.leb_gt _ _) Hlo), ?(proj2 (Z.ltb_ge _ _) Hhi), ?andb_false_r; cbn; lia.
  split; [exact S1|]. intros ? [= <-]. rewrite (proj2 (Z.leb_le _ _) Hlo), (proj2 (Z.ltb_lt _ _) Hhi) in Hfin. cbn [andb] in Hfin. apply Hfin; [|left; split; lia].
  destruct used; cbn [length]; [rewrite u64_small by (unfold is_u64; lia)|]; lia.
Qed.

Definition claims_done (done : list verify_claim) (a : Z * (Z * list Z)) : Prop :=
  cache_ok (snd a) /\ fst a = u64 (Z.of_nat (length (concat (map crun done)))) /\
  forall c b, c ∈ done -> b ∈ crun c -> committed_bit dev s b = true.

Lemma verify_claimed_spec claims x pre post a (s' : fs D) :
  Forall (in_region (super s)) claims -> claims = pre ++ x :: post -> same_window s s' -> claims_done pre a ->
  let '(r, s'') := verify_claimed dev x a s' in same_window s s'' /\ forall a', r = Some a' -> claims_done (pre ++ [x]) a'.
Proof.
  intros Hr El S (Hc & Hn & Hall). destruct a as [claimed cache]. cbn [fst snd] in Hc, Hn. pose proof (wo_layout _ _ W) as [L1 L2 L3 L4 L5 L6 L7 L8 L9 L10].
  rewrite El, Forall_app, Forall_cons in Hr. destruct Hr as (_ & (X1 & X2 & X3) & _). unfold verify_claimed. rewrite bind_run.
  pose proof (fold_same (fun done cache => cache_ok cache /\ forall b, b ∈ done -> committed_bit dev s b = true)
    (fun block cache => b ← verify_bit dev block cache; if fst b : bool then mret (snd b) else fail) (crun x) [] (crun x) cache s' eq_refl S) as Hf.
  fold (crun x). match type of Hf with ?P -> ?Q -> _ => assert P as HP; [|assert Q as HQ; [|specialize (Hf HP HQ)]] end.
  - split; [exact Hc|]. intros b Hb. by apply elem_of_nil in Hb.
  - intros y p q c t Ey St [Hct Hp]. assert (y ∈ crun x) as Hy%elem_of_seqZ by (rewrite Ey, elem_of_app, elem_of_cons; auto). rewrite bind_run.
    pose proof (verify_bit_spec y c t St Hct ltac:(lia)) as Hb. destruct (verify_bit dev y c t) as [[[used c']|] t1]; destruct Hb as [St1 Hb]; [|split; [exact St1|discriminate]].
    destruct (Hb _ eq_refl) as [Hu Hc']. cbn [fst snd] in *. destruct used; (split; [exact St1|]); [|discriminate]. intros ? [= <-]. split; [exact Hc'|].
    intros b [Hin| ->%list_elem_of_singleton]%elem_of_app; [by apply Hp|by rewrite <- Hu].
  - destruct (fold_act (crun x) _ cache s') as [[cache'|] s1]; destruct Hf as [S1 Hf]; (split; [exact S1|]); [|discriminate]. intros ? [= <-].
    destruct (Hf cache' eq_refl) as [Hc' Hbits]. split; [exact Hc'|]. split.
    + cbn [fst]. rewrite Hn, map_app, concat_app, length_app. cbn [map concat]. rewrite app_nil_r. unfold crun at 3. rewrite length_seqZ. unfold u64.
      rewrite Zplus_mod_idemp_l. f_equal. lia.
    + intros c b [Hin| ->%list_elem_of_singleton]%elem_of_app Hb; [by eapply Hall|by apply Hbits].
Qed.

(** ** What the audit shows *)

Lemma concat_map_concat {A B} (g : A -> list B) (ls : list (list A)) :
  concat (map g (concat ls)) = concat (map (fun l => concat (map g l)) ls).
Proof. induction ls as [|l ls IH]; [done|]. cbn [concat map]. by rewrite map_app, concat_app, IH. Qed.

(** The blocks that the ledger of an inode names. *)
Definition named (n : Z) : list Z := concat (map crun (ledger n)).

Section Sound.
Context (Hempty : forall e, ~ holds dev s e).

Local Abbreviation numbers := (seqZ 1 (inode_count (super s) - 1)).

Context (free : Z) (Hin : inodes_done numbers (concat (map ledger numbers), free)).
Context (Hno : any_overlap (concat (map ledger numbers)) = false).

Lemma bit_is_committed b : bit dev s b = committed_bit dev s b.
Proof.
  unfold bit, committed_bit, view, committed. destruct (window_image dev s false (b / bits_per_block)) as [img|] eqn:Hw; [|done].
  apply window_image_Some in Hw as (e & He & _). by destruct (Hempty e).
Qed.

Lemma number_in n : inode_number s n <-> n ∈ numbers.
Proof. rewrite elem_of_seqZ. unfold inode_number. lia. Qed.

Lemma number_audited n i : inode_number s n -> inode_at dev s n = Some i -> mode i <> 0 -> audited i /\ blocks_of (direct i) = named n.
Proof.
  intros Hn Hi Hm. destruct Hin as (_ & _ & Hall). destruct (Hall n (proj1 (number_in n) Hn)) as (j & Hj & Ha). rewrite Hi in Hj. injection Hj as <-.
  split; [by apply Ha|]. unfold named, ledger. rewrite Hi, (proj2 (Z.eqb_neq _ _) Hm), <- runs_claims. done.
Qed.

Lemma owns_named n b : owns dev s n b <-> n ∈ numbers /\ b ∈ named n.
Proof.
  split.
  - intros (Hn & i & Hi & Hm & Hb). destruct (number_audited n i Hn Hi Hm) as [_ E]. rewrite E in Hb. split; [by apply number_in|exact Hb].
  - intros [Hn Hb]. unfold named, ledger in Hb. destruct (inode_at dev s n) as [i|] eqn:Hi; [|by apply elem_of_nil in Hb].
    destruct (Z.eqb_spec (mode i) 0) as [|Hm]; [by apply elem_of_nil in Hb|]. rewrite <- runs_claims in Hb. split; [by apply number_in|]. by exists i.
Qed.

Lemma claims_in_region : Forall (in_region (super s)) (concat (map ledger numbers)).
Proof.
  apply Forall_concat, Forall_map, Forall_forall. intros n Hn. unfold ledger. destruct Hin as (_ & _ & Hall). destruct (Hall n Hn) as (i & Hi & Ha).
  rewrite Hi. destruct (Z.eqb_spec (mode i) 0) as [|Hm]; [constructor|]. by apply Ha.
Qed.

Lemma named_nodup : NoDup (concat (map named numbers)).
Proof.
  unfold named. rewrite <- (map_map ledger (fun l => concat (map crun l))), <- concat_map_concat.
  apply (overlap_nodup (super s) (wo_layout _ _ W) (wo_total _ _ W) _ claims_in_region Hno).
Qed.

Lemma named_lookup n : n ∈ numbers -> map named numbers !! Z.to_nat (n - 1) = Some (named n).
Proof. intros Hn%elem_of_seqZ. rewrite list_lookup_fmap, lookup_seqZ_lt by lia. cbn. do 2 f_equal. lia. Qed.

Lemma named_block n b : n ∈ numbers -> b ∈ named n -> data_block (super s) b /\ b ∈ concat (map crun (concat (map ledger numbers))).
Proof.
  intros Hn Hb. pose proof claims_in_region as Hr. rewrite Forall_forall in Hr. unfold named in Hb. apply list_elem_of_In, in_concat in Hb as (r & Hr' & Hb).
  apply in_map_iff in Hr' as (c & <- & Hc). assert (c ∈ concat (map ledger numbers)) as Hcin.
  { apply list_elem_of_In, in_concat. exists (ledger n). split; [apply in_map, list_elem_of_In, Hn|exact Hc]. }
  destruct (Hr c Hcin) as (C1 & C2 & C3). apply list_elem_of_In in Hb. pose proof (proj1 (elem_of_seqZ _ _ _) Hb) as Hb'. split; [split; lia|].
  apply list_elem_of_In, in_concat. exists (crun c). split; [apply in_map, list_elem_of_In, Hcin|by apply list_elem_of_In].
Qed.

Lemma named_one n : n ∈ numbers -> NoDup (named n).
Proof.
  intros Hn. pose proof named_nodup as Hnd. pose proof (list_elem_of_split_length _ _ _ (named_lookup n Hn)) as (p & q & E & _).
  rewrite E, concat_app in Hnd. apply NoDup_app in Hnd as (_ & _ & Hnd). cbn [concat] in Hnd. by apply NoDup_app in Hnd as (Hd & _).
Qed.

Lemma named_short n : n ∈ numbers -> Z.of_nat (length (named n)) < 2 ^ 32.
Proof.
  intros Hn. pose proof (wo_layout _ _ W) as [L1 L2 L3 L4 L5 L6 L7 L8 L9 L10]. pose proof (wo_total _ _ W) as Ht.
  assert (length (named n) <= length (seqZ (data_start (super s)) (data_checksum_region (super s) - data_start (super s))))%nat as Hl.
  { apply NoDup_incl_length; [by apply NoDup_ListNoDup, named_one|]. intros b Hb%list_elem_of_In. apply list_elem_of_In, elem_of_seqZ. destruct (named_block n b Hn Hb) as [[] _]. lia. }
  rewrite length_seqZ in Hl. change (2 ^ 29) with 536870912 in Ht. change (2 ^ 32) with 4294967296. lia.
Qed.

Lemma audited_shape n i : inode_number s n -> inode_at dev s n = Some i -> mode i <> 0 -> inode_shape i.
Proof.
  intros Hn Hi Hm. destruct (number_audited n i Hn Hi Hm) as [[_ A2 A3 A4] E]. pose proof (proj1 (number_in n) Hn) as Hn'.
  pose proof (inode_at_fields dev s n i W Hi) as [_ _ _ F4 _]. pose proof (wo_layout _ _ W) as [L1 L2 L3 L4 L5 L6 L7 L8 L9 L10]. pose proof (wo_total _ _ W) as Ht.
  split; [split| |].
  - exact F4.
  - fold (live_extents (direct i)). rewrite Forall_map in A2. eapply Forall_impl; [exact A2|]. intros e (E1 & E2 & E3). cbn in E1, E2, E3.
    change (2 ^ 29) with 536870912 in Ht. split; [|exact E2]. unfold extent_ok. change (2 ^ 32) with 4294967296. lia.
  - exact A3.
  - rewrite E. by apply named_short.
  - exact A4.
  - rewrite E. by apply named_one.
Qed.

Context (cache : Z * list Z) (claimed : Z) (Hcl : claims_done (concat (map ledger numbers)) (claimed, cache)).

Lemma audited_consistent : consistent dev s.
Proof.
  split; [exact W|exact audited_shape| |].
  - intros n b [Hn Hb]%owns_named. destruct (named_block n b Hn Hb) as [Hd Hc]. split; [exact Hd|]. rewrite bit_is_committed.
    apply list_elem_of_In, in_concat in Hc as (r & Hr & Hx). apply in_map_iff in Hr as (c & <- & Hc). destruct Hcl as (_ & _ & Hall).
    apply (Hall c b); by apply list_elem_of_In.
  - intros n m b [Hn Hb]%owns_named [Hm Hb']%owns_named.
    pose proof (nodup_concat_apart (map named numbers) _ _ _ _ b named_nodup (named_lookup n Hn) (named_lookup m Hm) Hb Hb') as E.
    apply elem_of_seqZ in Hn, Hm. lia.
Qed.

Context (allocated : Z) (cache' : Z * list Z) (Hbits : bits_done (seqZ 0 (total_blocks (super s))) (allocated, cache')).
Context (Hsum : claimed = allocated).

Lemma taken_spec b : taken b = true <-> data_block (super s) b /\ committed_bit dev s b = true.
Proof. unfold taken, data_block. rewrite !andb_true_iff, Z.leb_le, Z.ltb_lt. tauto. Qed.

(** Equal sums make the claims and the set bits the same blocks. *)
Lemma taken_owned b : data_block (super s) b -> committed_bit dev s b = true -> exists n, owns dev s n b.
Proof.
  intros Hd Hb. destruct Hcl as (_ & Hs & Hall). cbn [fst] in Hs. destruct Hbits as (_ & Ha & _). cbn [fst] in Ha.
  pose proof (wo_layout _ _ W) as [L1 L2 L3 L4 L5 L6 L7 L8 L9 L10]. pose proof (wo_total _ _ W) as Ht. change (2 ^ 29) with 536870912 in Ht.
  set (l1 := concat (map crun (concat (map ledger numbers)))) in *. set (l2 := List.filter taken (seqZ 0 (total_blocks (super s)))) in *.
  assert (concat (map named numbers) = l1) as E by (unfold named, l1; by rewrite <- (map_map ledger (fun l => concat (map crun l))), <- concat_map_concat).
  assert (List.NoDup l1) as Hn by (apply NoDup_ListNoDup; rewrite <- E; exact named_nodup).
  assert (incl l1 l2) as Hincl.
  { intros x Hx. pose proof Hx as Hx'. rewrite <- E in Hx. apply in_concat in Hx as (r & Hr & Hx). apply in_map_iff in Hr as (n & <- & Hn'%list_elem_of_In). apply list_elem_of_In in Hx.
    destruct (named_block n x Hn' Hx) as [[D1 D2] _]. apply filter_In. split; [apply list_elem_of_In, elem_of_seqZ; lia|]. apply taken_spec. split; [by split|].
    apply in_concat in Hx' as (r & Hr & Hx'). apply in_map_iff in Hr as (c & <- & Hc). apply (Hall c x); by apply list_elem_of_In. }
  pose proof (NoDup_incl_length Hn Hincl) as Hle. pose proof (filter_length_le taken (seqZ 0 (total_blocks (super s)))) as Hle2. fold l2 in Hle2. rewrite length_seqZ in Hle2.
  rewrite u64_small in Hs by (unfold is_u64; lia).
  assert (In b l2) as Hb2 by (apply filter_In; split; [apply list_elem_of_In, elem_of_seqZ; unfold data_block in Hd; lia|by apply taken_spec]).
  assert (length l2 <= length l1)%nat as Hge by lia. pose proof (NoDup_length_incl Hn Hge Hincl b Hb2) as Hb1. rewrite <- E in Hb1. apply in_concat in Hb1 as (r & Hr & Hx). apply in_map_iff in Hr as (n & <- & Hn').
  exists n. apply owns_named. by split; apply list_elem_of_In.
Qed.

End Sound.

End Audit.

(** ** A volume that passes *)

Section Passed.
Context {D : Type} `{FsDeviceLaws D}.
Context (dev : Z).
Implicit Types (s : fs D).

(** The data blocks that are free, and the inodes. *)
Definition free_count s : Z :=
  Z.of_nat (length (List.filter (fun b => negb (bit dev s b)) (seqZ (data_start (super s)) (data_checksum_region (super s) - data_start (super s))))).

Definition free_inode_count s : Z := Z.of_nat (length (List.filter (unused dev s) (seqZ 1 (inode_count (super s) - 1)))).

(** The three views of the allocation agree. *)
Record exact_volume s : Prop := {
  ex_consistent : consistent dev s;
  ex_bits : forall b, 0 <= b < total_blocks (super s) -> bit dev s b = true <-> ~ data_block (super s) b \/ exists n, owns dev s n b;
  ex_table : forall n, inode_number s n -> is_Some (inode_at dev s n);
  ex_kinds : forall n i, inode_number s n -> inode_at dev s n = Some i -> mode i <> 0 -> audited s i;
  ex_blocks : free_blocks (super s) = free_count s;
  ex_inodes : AdytumFormat.free_inodes (super s) = free_inode_count s
}.

Lemma filter_none {A} (f : A -> bool) (l : list A) : (forall x, In x l -> f x = false) -> List.filter f l = [].
Proof. induction l as [|x l IH]; intros Hf; [done|]. cbn. rewrite (Hf x (or_introl eq_refl)). apply IH. intros y Hy. apply Hf. by right. Qed.

Lemma filter_negb {A} (f : A -> bool) (l : list A) : (length (List.filter f l) + length (List.filter (fun x => negb (f x)) l) = length l)%nat.
Proof. induction l as [|x l IH]; [done|]. cbn. destruct (f x); cbn; lia. Qed.

Lemma taken_count s :
  window_ok dev s -> (forall e, ~ holds dev s e) ->
  Z.of_nat (length (List.filter (taken dev s) (seqZ 0 (total_blocks (super s))))) + free_count s = data_checksum_region (super s) - data_start (super s).
Proof.
  intros W He. pose proof (wo_layout _ _ W) as [L1 L2 L3 L4 L5 L6 L7 L8 L9 L10]. unfold free_count.
  replace (total_blocks (super s)) with (data_start (super s) + ((data_checksum_region (super s) - data_start (super s)) + (total_blocks (super s) - data_checksum_region (super s)))) by lia.
  rewrite !seqZ_app by lia. rewrite !List.filter_app, !length_app, Z.add_0_l.
  rewrite (filter_none (taken dev s) (seqZ 0 _)), (filter_none (taken dev s) (seqZ (data_start (super s) + _) _)).
  - cbn [length]. set (l := seqZ (data_start (super s)) _).
    assert (List.filter (taken dev s) l = List.filter (bit dev s) l) as ->.
    { apply filter_ext_in. intros b Hb%list_elem_of_In%elem_of_seqZ. unfold taken. rewrite (proj2 (Z.leb_le _ _)), (proj2 (Z.ltb_lt _ _)) by lia. cbn [andb]. symmetry. by apply bit_is_committed. }
    pose proof (filter_negb (bit dev s) l) as Hc. assert (length l = Z.to_nat (data_checksum_region (super s) - data_start (super s))) as Hl by apply length_seqZ. lia.
  - intros b Hb%list_elem_of_In%elem_of_seqZ. unfold taken. rewrite (proj2 (Z.ltb_ge _ _)) by lia. by rewrite andb_false_r.
  - intros b Hb%list_elem_of_In%elem_of_seqZ. unfold taken. by rewrite (proj2 (Z.leb_gt _ _)) by lia.
Qed.

Lemma verify_spec s :
  window_ok dev s -> (forall e, ~ holds dev s e) ->
  let '(r, s') := adytumfs_verify dev s in same_window s s' /\ (r = Some tt -> exact_volume s).
Proof.
  intros W He. unfold adytumfs_verify. rewrite bind_run. unfold the_super. cbv beta iota. rewrite bind_run.
  pose proof (fold_same s (inodes_done dev s) (verify_inode dev) _ [] (seqZ 1 (inode_count (super s) - 1)) ([], 0) s eq_refl (same_window_refl s)) as H1.
  specialize (H1 ltac:(split; [done|split; [done|intros n Hn; by apply elem_of_nil in Hn]]) (fun x pre post a s' => verify_inode_spec dev s W x pre post a s')).
  destruct (fold_act _ (verify_inode dev) _ s) as [[[claims free]|] s1]; destruct H1 as [S1 H1]; [|split; [exact S1|discriminate]].
  pose proof (H1 _ eq_refl) as Hin. pose proof Hin as (Ecl & Efree & Hall). cbn [fst snd app] in Ecl, Efree. subst claims. rewrite bind_run.
  pose proof (fold_same s (bits_done dev s) (verify_block dev) _ [] (seqZ 0 (total_blocks (super s))) (0, no_window) s1 eq_refl S1) as H2.
  specialize (H2 ltac:(split; [intros Hlt; cbn in Hlt; lia|split; [done|intros n Hn; by apply elem_of_nil in Hn]]) (fun x pre post a s' => verify_block_spec dev s W x pre post a s')).
  destruct (fold_act _ (verify_block dev) _ s1) as [[[allocated cache]|] s2]; destruct H2 as [S2 H2]; [|split; [exact S2|discriminate]].
  pose proof (H2 _ eq_refl) as Hbits. pose proof Hbits as (Hc2 & Ea & Hmeta). cbn [fst snd app] in Hc2, Ea. rewrite bind_run.
  pose proof (fold_same s (claims_done dev s) (verify_claimed dev) _ [] (concat (map (ledger dev s) (seqZ 1 (inode_count (super s) - 1)))) (0, cache) s2 eq_refl S2) as H3.
  specialize (H3 ltac:(split; [exact Hc2|split; [done|intros c b Hn; by apply elem_of_nil in Hn]])
    (fun x pre post a s' => verify_claimed_spec dev s W _ x pre post a s' (claims_in_region dev s free Hin))).
  destruct (fold_act _ (verify_claimed dev) _ s2) as [[[claimed cache']|] s3]; destruct H3 as [S3 H3]; [|split; [exact S3|discriminate]].
  pose proof (H3 _ eq_refl) as Hcl. destruct (any_overlap _) eqn:Hno; [split; [exact S3|discriminate]|].
  destruct (Z.eqb_spec claimed allocated) as [Hsum|]; cbn [negb]; [|split; [exact S3|discriminate]].
  destruct (Z.eqb_spec (AdytumFormat.free_inodes (super s)) free) as [Hfi|]; cbn [negb]; [|split; [exact S3|discriminate]].
  destruct (Z.eqb_spec (free_blocks (super s)) (u64 (data_checksum_region (super s) - data_start (super s) - allocated))) as [Hfb|]; cbn [negb]; (split; [exact S3|]); [|discriminate].
  intros _. pose proof (taken_count s W He) as Htc. split.
  - exact (audited_consistent dev s W He free Hin Hno cache' claimed Hcl).
  - intros b Hb. rewrite (bit_is_committed dev s He b). split.
    + intros Hbit. destruct (decide (data_start (super s) <= b < data_checksum_region (super s))) as [Hd|Hd]; [right|left; exact Hd].
      exact (taken_owned dev s W free Hin Hno cache' claimed Hcl allocated cache Hbits Hsum b Hd Hbit).
    + intros [Hd|[n Ho]]; [|rewrite <- (bit_is_committed dev s He b); by apply (co_marked _ _ (audited_consistent dev s W He free Hin Hno cache' claimed Hcl) n)].
      destruct (Hmeta b) as [Hd'|Hb']; [apply elem_of_seqZ; lia|by destruct Hd|exact Hb'].
  - intros n Hn%number_in. destruct (Hall n Hn) as (i & Hi & _). by exists i.
  - intros n i Hn Hi Hm. exact (proj1 (number_audited dev s free Hin n i Hn Hi Hm)).
  - rewrite Hfb, Ea. pose proof (wo_total _ _ W) as Ht. pose proof (wo_layout _ _ W) as []. change (2 ^ 29) with 536870912 in Ht.
    assert (0 <= free_count s) by (unfold free_count; lia). rewrite u64_small by (unfold is_u64; lia). lia.
  - by rewrite Hfi, Efree.
Qed.

(** ** Attaching a volume *)

Lemma exact_same s s' : same_window s s' -> exact_volume s -> exact_volume s'.
Proof.
  intros S [C E1 E0 E2 E3 E4]. pose proof (sw_super _ _ S) as Es. assert (forall n, inode_at dev s' n = inode_at dev s n) as Ei by (intros n; unfold inode_at; by rewrite (same_view dev _ _ _ _ S)).
  assert (forall b, bit dev s' b = bit dev s b) as Eb by (intros b; by apply same_bit).
  assert (forall n b, owns dev s' n b <-> owns dev s n b) as Eo by (intros n b; unfold owns, inode_number; by rewrite Es, Ei). split.
  - destruct (failed_consistent dev s s' C (failed_same dev s s' C S)). by split.
  - intros b Hb. rewrite Es in *. rewrite Eb, (E1 b Hb). split; (intros [Hd|[n Hn]]; [by left|right; exists n; by apply Eo]).
  - intros n Hn. rewrite Ei. apply E0. unfold inode_number in *. by rewrite <- Es.
  - intros n i Hn Hi Hm. unfold inode_number in Hn. rewrite Es, Ei in *. destruct (E2 n i Hn Hi Hm) as [A1 A2 A3 A4]. split; [exact A1|by rewrite Es|exact A3|exact A4].
  - unfold free_count. rewrite Es, E3. unfold free_count. do 2 f_equal. apply filter_ext. intros b. by rewrite Eb.
  - unfold free_inode_count. rewrite Es, E4. unfold free_inode_count. do 2 f_equal. apply filter_ext. intros n. unfold unused. by rewrite Ei.
Qed.

Lemma read_copy_fields b blocks s :
  0 <= b < 2 ^ 29 ->
  let '(r, s') := read_copy dev b blocks s in
  staging s' = staging s /\ kept nowhere (disk s) (disk s') /\ r <> None /\ forall copy v, r = Some (Some (copy, v)) -> super_fields copy /\ v = adytumfs_super_valid copy blocks.
Proof.
  intros Hb. unfold read_copy. pose proof (block_read_spec dev b s Hb) as Hr. destruct (adytumfs_block_read dev b s) as [[bytes|] s']; destruct Hr as (A & _ & K & Hc).
  - split; [exact A|]. split; [exact K|]. split; [discriminate|]. intros copy v. destruct (adytumfs_super_unpack bytes) as [c|] eqn:Hu; [|discriminate]. intros [= <- <-]. split; [|done].
    eapply super_unpack_fields; [|exact Hu]. rewrite (Hc bytes eq_refl). apply content_block.
  - split; [exact A|]. split; [exact K|]. split; [discriminate|]. discriminate.
Qed.

Lemma set_slot_fields slot copy : super_fields copy -> super_fields (set_slot slot copy).
Proof. intros [F1 F2 F3]. by split. Qed.

(** What [adytumfs_super_read] answers is typed and in order. *)
Lemma super_read_fields s :
  let '(r, s') := adytumfs_super_read dev s in
  staging s' = staging s /\ kept nowhere (disk s) (disk s') /\ forall super, r = Some super -> layout super /\ total_blocks super <= 2 ^ 29 /\
    exists sectors fl, block_info dev (disk s) = Some (sectors, fl) /\ total_blocks super <= sectors / 8.
Proof.
  unfold adytumfs_super_read. rewrite bind_run. unfold on_disk. destruct (block_info dev (disk s)) as [[sectors fl]|] eqn:Hi; [|split; [done|split; [apply media_kept_refl|discriminate]]].
  pose proof (info_range _ _ _ _ Hi) as Hr. unfold is_u32 in Hr. unfold ADYTUMFS_SECTORS_PER_BLOCK. cbv zeta. set (blocks := sectors / 8).
  assert (0 <= blocks < 2 ^ 29) as Hbl by (unfold blocks; split; [apply Z.div_pos; lia|apply Z.div_lt_upper_bound; lia]). change (2 ^ 29) with 536870912 in *.
  destruct (Z.ltb_spec blocks 1) as [|H1]; [split; [done|split; [apply media_kept_refl|discriminate]]|]. rewrite bind_run.
  pose proof (read_copy_fields 0 blocks (Fs (staging s) (super s) (disk s)) ltac:(lia)) as Hc0. destruct (read_copy dev 0 blocks _) as [[pair0|] s1]; destruct Hc0 as (A1 & K1 & N1 & Hc0); [|done].
  set (backup := match pair0 with Some (copy, true) => u64 (total_blocks copy - 1) | _ => blocks - 1 end).
  assert (0 <= backup < 2 ^ 29) as Hk.
  { change (2 ^ 29) with 536870912. unfold backup. destruct pair0 as [[copy [|]]|]; [|lia|lia]. destruct (Hc0 copy true eq_refl) as [_ Hv]. symmetry in Hv. apply valid_total in Hv. rewrite u64_small by (unfold is_u64; lia). lia. }
  assert (forall copy, super_fields copy -> adytumfs_super_valid copy blocks = true -> layout copy /\ total_blocks copy <= 536870912 /\
    exists n m, Some (sectors, fl) = Some (n, m) /\ total_blocks copy <= n / 8) as Hlay.
  { intros copy F V. destruct (super_valid_layout copy blocks F ltac:(change (2 ^ 32) with 4294967296; lia) V) as [L T]. split; [exact L|]. split; [lia|]. by exists sectors, fl. }
  rewrite bind_run. assert (exists pair1 s2, (if 0 <? backup then read_copy dev backup blocks else mret None) s1 = (Some pair1, s2) /\ staging s2 = staging s /\ kept nowhere (disk s) (disk s2) /\
    forall copy v, pair1 = Some (copy, v) -> super_fields copy /\ v = adytumfs_super_valid copy blocks) as (pair1 & s2 & -> & A2 & K2 & Hc1).
  { destruct (0 <? backup); [|exists None, s1; split; [reflexivity|split; [exact A1|split; [exact K1|discriminate]]]].
    pose proof (read_copy_fields backup blocks s1 Hk) as Hc1. destruct (read_copy dev backup blocks s1) as [[pair1|] s2]; destruct Hc1 as (A2 & K2 & N2 & Hc1); [|done].
    exists pair1, s2. split; [done|]. split; [by rewrite A2|]. split; [exact (media_kept_trans _ _ _ _ K1 K2)|]. intros copy v ->. by apply Hc1. }
  destruct (pick pair0 pair1) as [[copy [|]]|] eqn:Hp; (split; [exact A2|]); (split; [exact K2|]); [|discriminate|discriminate]. intros ? [= <-]. unfold pick in Hp.
  destruct pair1 as [[c1 v1]|].
  - destruct (Hc1 c1 v1 eq_refl) as [F1 V1]. destruct pair0 as [[c0 v0]|]; [destruct (generation c0 <? generation c1)|]; simplify_eq;
      first [by apply Hlay; [apply set_slot_fields|rewrite (same_valid _ c1); [symmetry|by split]]|destruct (Hc0 copy true eq_refl) as [F0 V0]; by apply Hlay].
  - destruct pair0 as [[c0 v0]|]; [|discriminate]. injection Hp as -> ->. destruct (Hc0 copy true eq_refl) as [F0 V0]. by apply Hlay.
Qed.

End Passed.

End AdytumVerify.
