(* ===== verification/AdytumFresh.v ===== *)
(** AdytumFS: a volume that [adytumfs_make] wrote has no files, and its bitmaps,
    its table and its counts agree. *)

From S2P Require Import Prelude Wire Crc32c AdytumFormat AdytumVolume AdytumDevice AdytumCommit AdytumSample AdytumMake AdytumAtomic AdytumWindow AdytumAlloc AdytumData AdytumInode AdytumExtents AdytumTable AdytumStep AdytumFiles AdytumVerify.

Module AdytumFresh.
Import Wire AdytumFormat AdytumVolume AdytumDevice AdytumCommit AdytumSample AdytumMake AdytumAtomic AdytumWindow AdytumAlloc AdytumData AdytumInode AdytumExtents AdytumTable AdytumStep AdytumFiles AdytumVerify.

#[local] Opaque crc32c zero_block.

(** ** Volumes without blocks *)

Section Empty.
Context {D : Type} `{FsDeviceLaws D}.
Context (dev : Z).
Implicit Types (s : fs D).

Definition empty_inode (i : adytumfs_inode) : bool :=
  (blocks i =? 0) && (Z.of_nat (length (direct i)) =? 10) && forallb (fun e => ext_length e =? 0) (direct i).

Lemma empty_extents i : empty_inode i = true -> extent_count (direct i) = 0%nat.
Proof.
  unfold empty_inode. rewrite !andb_true_iff. intros [_ Hf]. rewrite forallb_forall in Hf.
  destruct (direct i) as [|e l]; [done|]. cbn [extent_count]. specialize (Hf e (or_introl eq_refl)). by rewrite Hf.
Qed.

Lemma empty_inode_shape i : empty_inode i = true -> inode_shape i /\ blocks_of (direct i) = [].
Proof.
  intros He. pose proof (empty_extents i He) as Hc. revert He. unfold empty_inode. rewrite !andb_true_iff, !Z.eqb_eq. intros [[Hb Hl] Hf]. rewrite forallb_forall in Hf.
  assert (blocks_of (direct i) = []) as E by (unfold blocks_of; by rewrite Hc). split; [|exact E]. split.
  - split; rewrite ?Hc, ?take_0, ?drop_0, ?E; [lia|constructor| |done]. apply Forall_forall. intros e Hin%list_elem_of_In. by apply Z.eqb_eq, Hf.
  - by rewrite E, Hb.
  - rewrite E. constructor.
Qed.

Lemma empty_carries s n i : inode_fields i -> empty_inode i = true -> carries dev s n i.
Proof. intros F He. destruct (empty_inode_shape i He) as [Hs E]. split; [exact F|exact Hs|]. rewrite E. intros b Hb. by apply elem_of_nil in Hb. Qed.

(** Every inode in use is empty. *)
Definition empty_volume s : Prop := forall n i, inode_number s n -> inode_at dev s n = Some i -> mode i <> 0 -> empty_inode i = true.

Lemma empty_owns s n b : empty_volume s -> ~ owns dev s n b.
Proof. intros He (Hn & i & Hi & Hm & Hb). rewrite (proj2 (empty_inode_shape i (He n i Hn Hi Hm))) in Hb. by apply elem_of_nil in Hb. Qed.

Lemma empty_consistent s : window_ok dev s -> empty_volume s -> consistent dev s.
Proof.
  intros W He. split; [exact W| | |].
  - intros n i Hn Hi Hm. exact (proj1 (empty_inode_shape i (He n i Hn Hi Hm))).
  - intros n b Ho. by destruct (empty_owns s n b He).
  - intros n m b Ho. by destruct (empty_owns s n b He).
Qed.

End Empty.

(** ** The new bitmap *)

Lemma zero_bit offset : 0 <= offset -> bit_in zero_block offset = false.
Proof. intros Ho. rewrite bit_in_testbit, at_zero by lia. apply Z.testbit_0_l. Qed.

(** Every block outside the data is marked. *)
Lemma bitmap_bit total first region k offset :
  0 <= total -> 0 <= k -> 0 <= offset < 32768 ->
  bit_in (fresh_bitmap total first region k) offset =
  (k * 32768 + offset <? total) && ((k * 32768 + offset <? first) || (region <=? k * 32768 + offset)).
Proof.
  intros Ht Hk Ho. unfold fresh_bitmap, bits_per_block, ADYTUMFS_BLOCK_SIZE. change (4096 * 8) with 32768. cbv zeta.
  set (marked := fun used : Z => (used <? first) || (region <=? used)).
  set (body := fun used block => _).
  assert (is_block (for_range 0 total body zero_block) /\
          forall o, 0 <= o < 32768 -> bit_in (for_range 0 total body zero_block) o = (k * 32768 + o <? Z.max 0 total) && marked (k * 32768 + o)) as [_ HP].
  { apply (for_range_ind (fun i block => is_block block /\ forall o, 0 <= o < 32768 -> bit_in block o = (k * 32768 + o <? i) && marked (k * 32768 + o))).
    - split; [apply zero_is_block|]. intros o Hr. rewrite zero_bit, (proj2 (Z.ltb_ge _ _)) by lia. done.
    - intros i block Hi [B IH]. unfold body. fold (marked i).
      destruct (marked i && (k * 32768 <=? i) && (i - k * 32768 <? 32768)) eqn:Hc.
      + rewrite !andb_true_iff, Z.leb_le, Z.ltb_lt in Hc. destruct Hc as [[Hm Hlo] Hhi]. change (u8 (Z.lor (at_ block ((i - k * 32768) / 8)) _)) with (u8 (Z.lor (at_ block ((i - k * 32768) / 8)) (u8 (Z.shiftl 1 ((i - k * 32768) mod 8))))).
        change (<[_ := _]> block) with (set_bit block (i - k * 32768) true). split; [apply set_bit_block; [exact B|lia]|].
        intros o Hr. destruct B as [Bl Bb]. rewrite bit_in_set by (try exact Bb; lia). rewrite IH by lia. destruct (Z.eqb_spec o (i - k * 32768)) as [->|Hne].
        * replace (k * 32768 + (i - k * 32768)) with i by lia. rewrite Hm, (proj2 (Z.ltb_lt _ _)) by lia. done.
        * f_equal. destruct (Z.ltb_spec (k * 32768 + o) i), (Z.ltb_spec (k * 32768 + o) (i + 1)); try done; lia.
      + split; [exact B|]. intros o Hr. rewrite IH by lia. destruct (Z.ltb_spec (k * 32768 + o) i), (Z.ltb_spec (k * 32768 + o) (i + 1)); try done; try lia.
        assert (i = k * 32768 + o) as -> by lia. rewrite (proj2 (Z.leb_le _ _)), (proj2 (Z.ltb_lt _ _)), !andb_true_r in Hc by lia. by rewrite Hc. }
  rewrite HP, Z.max_r by lia. done.
Qed.

(** ** The new table *)

Lemma zero_slot_free : exists i, adytumfs_inode_unpack zero_slot = Some i /\ mode i = 0.
Proof. eexists. split; [lazy; reflexivity|reflexivity]. Qed.

Lemma zero_block_free slot : 0 <= slot <= 3840 -> exists i, adytumfs_inode_unpack (drop (Z.to_nat slot) zero_block) = Some i /\ mode i = 0.
Proof.
  intros Hs. destruct zero_slot_free as (i & Hi & Hm). exists i. split; [|exact Hm]. rewrite <- Hi. pose proof zero_length as Hz. pose proof slot_length as Hl.
  apply inode_unpack_ext; [rewrite length_drop; lia|lia|]. intros j Hj. rewrite at_drop, at_zero by lia.
  unfold at_, byte_at, zero_slot. generalize (Z.to_nat j), (Z.to_nat ADYTUMFS_INODE_SIZE). intros m k. revert m. induction k as [|k IH]; intros [|m]; cbn; auto.
Qed.

Lemma root_dir_fields now : is_u64 now -> inode_fields (root_dir now).
Proof.
  intros Hn. split; [split; vm_compute; split; [discriminate|reflexivity|discriminate|reflexivity]| | |reflexivity|].
  - repeat (apply Forall_cons; split; [vm_compute; split; [discriminate|reflexivity]|]). constructor.
  - repeat (apply Forall_cons; split; [exact Hn || (vm_compute; split; [discriminate|reflexivity])|]). constructor.
  - repeat (apply Forall_cons; split; [repeat split; vm_compute; (discriminate || reflexivity)|]). constructor.
Qed.

(** The root directory is the only inode in use. *)
Lemma table_inode now n :
  is_u64 now -> 0 <= n ->
  let slot := adytumfs_inode_unpack (drop (Z.to_nat (n mod 16 * 256)) (fresh_table now (n / 16))) in
  if n =? 1 then slot = Some (root_dir now) else exists i, slot = Some i /\ mode i = 0.
Proof.
  intros Hnow Hn. cbv zeta. pose proof (Z.mod_pos_bound n 16 ltac:(lia)) as Hm. pose proof (Z.div_mod n 16 ltac:(lia)) as Hd. pose proof zero_length as Hz.
  pose proof (inode_pack_length (root_dir now)) as Hl. unfold fresh_table, ADYTUMFS_ROOT_INODE, ADYTUMFS_INODE_SIZE. change (1 * 256) with 256.
  destruct (Z.eqb_spec n 1) as [->|Hne].
  - change (1 mod 16 * 256) with 256. change (1 / 16 =? 0) with true. cbn match. rewrite slot_read_put by lia. apply inode_unpack_pack, root_dir_fields, Hnow.
  - destruct (Z.eqb_spec (n / 16) 0) as [E|E]; [|apply zero_block_free; lia]. rewrite slot_read_other by lia. apply zero_block_free. lia.
Qed.

(** ** The new volume *)

Lemma filter_every {A} (f : A -> bool) (l : list A) : (forall x, In x l -> f x = true) -> List.filter f l = l.
Proof. induction l as [|x l IH]; intros Hf; cbn; [done|]. rewrite Hf by (by left). f_equal. apply IH. intros y Hy. apply Hf. by right. Qed.

Section Fresh.
Context {D : Type} `{FsDeviceLaws D}.
Context (dev total : Z) (s : fs D).
Context (F : formatted_as dev total (super s) (disk s)) (Hsmall : total <= 256 * 32768) (Hempty : forall e, ~ holds dev s e).

Lemma fresh_ok : window_ok dev s.
Proof.
  pose proof (fo_layout _ _ _ _ F) as L. destruct (fo_total _ _ _ _ F) as [Ft1 Ft2]. split; [exact L|lia|destruct L; lia|].
  split; intros e; intros; by destruct (Hempty e).
Qed.

Lemma fresh_view (tbl : bool) (k : Z) :
  0 <= k < (if tbl then inode_table_blocks (super s) else block_bitmap_blocks (super s)) ->
  exists now : Z, is_u64 now /\ view dev s tbl k = if tbl then fresh_table now k else bitmap_image (super s) k.
Proof.
  intros Hk. pose proof F as [(R & ER & _) [Ft1 Ft2] L _ _ _ (now & Hn & Fb)]. exists now. split; [exact Hn|].
  assert (active_slot (super s) = 0) as Ea by (by rewrite ER). unfold view.
  destruct (window_image dev s tbl k) as [e|] eqn:Hw; [apply window_image_Some in Hw as (e' & He & _); by destruct (Hempty e')|]. cbn [default].
  unfold staged_block, table_slot_base, bitmap_slot_base. rewrite Ea. cbn [nz negb Z.eqb]. change (2 ^ 29) with 536870912 in Ft2.
  pose proof L as [L1 L2 L3 L4 L5 L6 L7 L8 L9 L10]. destruct tbl; rewrite u64_small by (unfold is_u64; lia); rewrite Fb by lia.
  - apply image_table; [exact L|lia].
  - rewrite L1. apply image_bitmap; [exact L|lia].
Qed.

Lemma fresh_bit b : 0 <= b < total -> bit dev s b = (b <? data_start (super s)) || (data_checksum_region (super s) <=? b).
Proof.
  intros Hb. destruct (fo_total _ _ _ _ F) as [Ft1 Ft2]. rewrite <- Ft1 in Hb. destruct (bitmap_index dev s b fresh_ok Hb) as [Hi _].
  destruct (fresh_view false _ Hi) as (now & _ & E). unfold bit. rewrite E. unfold bitmap_image. pose proof (bit_range b ltac:(lia)) as Hr.
  rewrite bitmap_bit by lia. pose proof (Z.div_mod b bits_per_block ltac:(discriminate)) as Hd. unfold bits_per_block, ADYTUMFS_BLOCK_SIZE in *. change (4096 * 8) with 32768 in *.
  replace (b / 32768 * 32768 + b mod 32768) with b by lia. by rewrite (proj2 (Z.ltb_lt _ _)) by lia.
Qed.

Lemma fresh_inodes n : inode_number s n -> if n =? 1 then exists now, is_u64 now /\ inode_at dev s n = Some (root_dir now) else exists i, inode_at dev s n = Some i /\ mode i = 0.
Proof.
  intros Hn. destruct (inode_place dev s n fresh_ok Hn) as (Hi & _ & _). destruct (fresh_view true _ Hi) as (now & Hnow & E). unfold inode_at. rewrite E.
  unfold inode_number in Hn. pose proof (table_inode now n Hnow ltac:(lia)) as Ht. cbv zeta in Ht. destruct (n =? 1); [exists now; by split|exact Ht].
Qed.

Lemma fresh_empty : empty_volume dev s.
Proof.
  intros n i Hn Hi Hm. pose proof (fresh_inodes n Hn) as Hf. destruct (n =? 1).
  - destruct Hf as (now & _ & E). rewrite E in Hi. injection Hi as <-. reflexivity.
  - destruct Hf as (i' & E & Hm'). congruence.
Qed.

Lemma fresh_unused n : inode_number s n -> unused dev s n = negb (n =? 1).
Proof.
  intros Hn. pose proof (fresh_inodes n Hn) as Hf. unfold unused. destruct (n =? 1).
  - destruct Hf as (now & _ & E). by rewrite E.
  - destruct Hf as (i & E & Hm). by rewrite E, Hm.
Qed.

Lemma fresh_counts : free_blocks (super s) = free_count dev s /\ AdytumFormat.free_inodes (super s) = free_inode_count dev s.
Proof.
  pose proof F as [(R & ER & HR & _) [Ft1 Ft2] L _ _ _ _]. pose proof L as [L1 L2 L3 L4 L5 L6 L7 L8 L9 L10]. split.
  - unfold free_count. rewrite filter_every, length_seqZ by (intros b Hb%list_elem_of_In%elem_of_seqZ; rewrite fresh_bit, (proj2 (Z.ltb_ge _ _)), (proj2 (Z.leb_gt _ _)) by lia; done).
    rewrite Z2Nat.id by lia. rewrite ER. unfold made_super. cbn. lia.
  - unfold free_inode_count. rewrite (seqZ_cons 1) by lia. cbn [List.filter]. rewrite fresh_unused by (unfold inode_number; lia). cbn [negb Z.eqb Pos.eqb].
    rewrite filter_every, length_seqZ by (intros n Hn%list_elem_of_In%elem_of_seqZ; rewrite fresh_unused by (unfold inode_number; lia); rewrite (proj2 (Z.eqb_neq _ _)) by lia; done).
    rewrite Z2Nat.id by lia. rewrite ER. unfold made_super, ADYTUMFS_INODES_PER_BLOCK. cbn. lia.
Qed.

Lemma formatted_exact : exact_volume dev s.
Proof.
  pose proof fresh_empty as He. destruct fresh_counts as [Hb Hi]. split; [apply empty_consistent; [exact fresh_ok|exact He]| | | |exact Hb|exact Hi].
  - intros b Hr. rewrite (proj1 (fo_total _ _ _ _ F)) in Hr. rewrite (fresh_bit b Hr). unfold data_block. rewrite orb_true_iff, Z.ltb_lt, Z.leb_le.
    split; [left; lia|]. intros [Hd|[n Ho]]; [lia|]. by destruct (empty_owns dev s n b He).
  - intros n Hn. pose proof (fresh_inodes n Hn) as Hf. destruct (n =? 1); [destruct Hf as (now & _ & ->)|destruct Hf as (i & -> & _)]; by eexists.
  - intros n i Hn Hi' Hm. pose proof (fresh_inodes n Hn) as Hf. destruct (n =? 1); [|destruct Hf as (i' & E & Hm'); congruence].
    destruct Hf as (now & _ & E). rewrite E in Hi'. injection Hi' as <-. split; [left; reflexivity|constructor| |reflexivity].
    repeat (apply Forall_cons; split; [reflexivity|]). constructor.
Qed.

End Fresh.

(** Reads leave the volume as it was. *)
Lemma formatted_kept {D} `{FsDeviceLaws D} dev total sb (d d' : D) :
  kept nowhere d d' -> formatted_as dev total sb d -> formatted_as dev total sb d'.
Proof.
  intros K F. apply (formatted_same dev total sb d d'); [| |exact F]; intros x; rewrite (k_seen _ _ _ K) by (intros []); [done|].
  destruct (k_stored _ _ _ K dev x ltac:(intros [])) as [E|E]; [by rewrite E, (fo_stored _ _ _ _ F)|exact E].
Qed.

(** A mount of the new volume finds its superblock. *)
Lemma formatted_recovered {D} `{FsDeviceLaws D} dev total sb (d : D) :
  formatted_as dev total sb d -> recovered (seen d) dev total = Some sb.
Proof.
  intros F. pose proof (formatted_between dev total sb (Fs (fun _ => Staged None false 0 []) sb d) F eq_refl) as B.
  assert (staging_ok dev (Fs (fun _ => Staged None false 0 []) sb d)) as Hst.
  { assert (forall e, ~ holds dev (Fs (fun _ => Staged None false 0 []) sb d) e) as Hno by (intros e [_ He]; discriminate He). split; intros e; intros; by destruct (Hno e). }
  specialize (B Hst). pose proof F as [(R & ER & _) [Ft1 Ft2] L _ _ _ (now & _ & Fb)].
  assert (forall slot, slot = 0 \/ slot = total - 1 -> block_of (seen d dev) slot = adytumfs_super_pack sb) as Hp.
  { intros slot Hs. rewrite <- (image_super sb now slot) by (rewrite Ft1; exact Hs). apply Fb. destruct L; lia. }
  assert (recovered (seen d) dev total = Some (set_slot 0 sb)) as ->; [|by rewrite ER].
  assert (active_slot sb = 0) as Ea by (by rewrite ER).
  pose proof (recovered_old dev total sb sb _ B (seen d)) as Ho. unfold inactive_slot in Ho. cbn [super] in Ho. rewrite Ea in Ho. cbn [nz negb Z.eqb] in Ho.
  apply Ho; [|left]; unfold superblock_slot; cbn [nz negb Z.eqb]; apply Hp; [by left|right]. rewrite u64_small; [done|]. unfold is_u64. lia.
Qed.

End AdytumFresh.
