(* ===== verification/AdytumRoundTrip.v ===== *)
(** AdytumFS: reads of files, and what they see after a write. *)

From S2P Require Import Prelude Wire Crc32c AdytumFormat AdytumVolume AdytumDevice AdytumCommit AdytumWindow AdytumAlloc AdytumData AdytumInode AdytumExtents AdytumTable AdytumStep AdytumFiles AdytumRemap AdytumTouch AdytumFile AdytumFileTheorems AdytumSample AdytumMake AdytumAtomic AdytumVerify AdytumFresh.

Module AdytumRoundTrip.
Import Wire AdytumFormat AdytumVolume AdytumDevice AdytumCommit AdytumWindow AdytumAlloc AdytumData AdytumInode AdytumExtents AdytumTable AdytumStep AdytumFiles AdytumRemap AdytumTouch AdytumFile AdytumFileTheorems AdytumSample AdytumMake AdytumAtomic AdytumVerify AdytumFresh.

#[local] Opaque crc32c zero_block.

(** ** The rounds of a loop *)

(** The blocks under the bytes from [offset + done] to [offset + want]. *)
Definition spanned (offset want done : Z) : Z :=
  if want <=? done then 0 else (offset + want - 1) / ADYTUMFS_BLOCK_SIZE - (offset + done) / ADYTUMFS_BLOCK_SIZE + 1.

Lemma spanned_rounds offset want : 0 <= offset -> 0 <= want -> spanned offset want 0 < Z.of_nat (rounds want).
Proof.
  intros Ho Hw. unfold spanned, rounds, ADYTUMFS_BLOCK_SIZE. destruct (Z.leb_spec want 0); [pose proof (Z.div_pos want 4096); lia|].
  rewrite Z.add_0_r. Z.to_euclidean_division_equations. lia.
Qed.

(** A round takes a block off. *)
Lemma spanned_round offset want done :
  0 <= offset -> 0 <= done < want ->
  let position := offset + done in
  let chunk := Z.min (ADYTUMFS_BLOCK_SIZE - position mod ADYTUMFS_BLOCK_SIZE) (want - done) in
  0 <= spanned offset want (done + chunk) < spanned offset want done.
Proof.
  intros Ho Hd position chunk. destruct (chunk_range position (want - done) ltac:(lia) ltac:(lia)) as (H1 & H2 & H3 & H4 & H5).
  assert (position = offset + done) as Ep by reflexivity. unfold spanned. unfold ADYTUMFS_BLOCK_SIZE in *.
  rewrite (proj2 (Z.leb_gt want done)) by lia. destruct (Z.leb_spec want (done + chunk)) as [Hle|Hgt]; rewrite <- Ep.
  - pose proof (Z.div_le_mono position (offset + want - 1) 4096 ltac:(lia) ltac:(lia)). lia.
  - unfold chunk in *. Z.to_euclidean_division_equations; lia.
Qed.

Section Files.
Context {D : Type} `{FsDeviceLaws D}.
Context (dev : Z).
Implicit Types (s : fs D) (i : adytumfs_inode).

(** More rounds change nothing: the loop of a write ends by itself. *)
Lemma write_loop_enough fuel extra n i old_blocks offset buffer done s :
  0 <= offset -> offset + Z.of_nat (length buffer) < 2 ^ 64 -> 0 <= done -> spanned offset (Z.of_nat (length buffer)) done < Z.of_nat fuel ->
  file_write_loop (fuel + extra) dev n i old_blocks offset buffer done s = file_write_loop fuel dev n i old_blocks offset buffer done s.
Proof.
  intros Ho He. change (2 ^ 64) with 0x10000000000000000 in He. revert i done s. induction fuel as [|fuel IH]; intros i done s Hd Hf.
  - exfalso. unfold spanned in Hf. destruct (Z.leb_spec (Z.of_nat (length buffer)) done); [lia|].
    pose proof (Z.div_le_mono (offset + done) (offset + Z.of_nat (length buffer) - 1) ADYTUMFS_BLOCK_SIZE eq_refl ltac:(lia)). lia.
  - cbn [file_write_loop Nat.add]. destruct (Z.leb_spec (Z.of_nat (length buffer)) done) as [Hle|Hlt]; [done|].
    rewrite (u64_small (offset + done)) by (unfold is_u64; lia). pose proof (spanned_round offset (Z.of_nat (length buffer)) done Ho ltac:(lia)) as Hs.
    destruct (chunk_range (offset + done) (Z.of_nat (length buffer) - done) ltac:(lia) ltac:(lia)) as (H1 & H2 & H3 & H4 & H5).
    cbv zeta in Hs. set (chunk := Z.min _ _) in *. rewrite !bind_run. destruct (or_fail _ s) as [[b|] s1]; [|done]. rewrite !bind_run.
    match goal with |- match ?m with _ => _ end = _ => destruct m as [[scratch|] s2] end; [|done]. rewrite !bind_run.
    match goal with |- match ?m with _ => _ end = _ => destruct m as [[i3|] s3] end; [|done]. apply IH; lia.
Qed.

(** ** A read is answered *)

Section Serves.
Context (Hs : serves (D:=D) dev).

Lemma data_read_total s b : window_ok dev s -> data_block (super s) b -> sealed dev s b -> fst (adytumfs_data_read dev b s) = Some (content (disk s) dev b).
Proof.
  intros W Hb Hse. pose proof (data_range dev s b W Hb) as [Hr _]. unfold adytumfs_data_read. rewrite bind_run.
  pose proof (Hs b s Hr) as Hn. pose proof (block_read_spec dev b s Hr) as Hrd. destruct (adytumfs_block_read dev b s) as [[bs|] s1]; [|destruct (Hn eq_refl)].
  destruct Hrd as (A & B & K & Hc). rewrite (Hc bs eq_refl). rewrite bind_run. unfold adytumfs_data_check. rewrite bind_run. unfold the_super. cbv beta iota.
  rewrite B, (checksum_entry_data _ (wo_layout _ _ W) (wo_total _ _ W) b Hb), bind_run. destruct (sum_place (super s) (wo_layout _ _ W) b Hb) as [Hp _].
  assert (0 <= sum_block (super s) b < 2 ^ 29) as Hr2 by (pose proof (wo_total _ _ W); pose proof (wo_layout _ _ W) as []; lia).
  pose proof (Hs _ s1 Hr2) as Hn2. pose proof (block_read_spec dev _ s1 Hr2) as Hrd2. destruct (adytumfs_block_read dev (sum_block (super s) b) s1) as [[bs2|] s2]; [|destruct (Hn2 eq_refl)].
  destruct Hrd2 as (_ & _ & _ & Hc2). rewrite (Hc2 bs2 eq_refl), (kept_nowhere_content dev _ _ _ K). fold (checksum dev s b). rewrite (proj2 (Z.eqb_eq _ _) Hse). reflexivity.
Qed.

Lemma inode_read_total s n i : window_ok dev s -> inode_number s n -> inode_at dev s n = Some i -> fst (adytumfs_inode_read dev n s) = Some i.
Proof.
  intros W Hn Hi. unfold adytumfs_inode_read. rewrite bind_run. unfold the_super. cbv beta iota.
  rewrite (proj2 (inode_guard s n ltac:(unfold inode_number in Hn; lia)) Hn). destruct (inode_place dev s n W Hn) as (H1 & H2 & H3). pose proof (Z.mod_pos_bound n 16 ltac:(lia)).
  destruct (inode_words n ltac:(lia) ltac:(lia)) as [E1 E2]. unfold ADYTUMFS_INODES_PER_BLOCK, ADYTUMFS_INODE_SIZE. rewrite E1, E2.
  rewrite bind_run. pose proof (table_read_spec dev s (n / 16) W H1) as Hr.
  assert (fst (adytumfs_table_read dev (n / 16) s) <> None) as Hnn.
  { unfold adytumfs_table_read. rewrite bind_run. unfold the_super. cbv beta iota. rewrite bind_run.
    destruct (find_spec dev s true (n / 16) ltac:(lia)) as ([e|] & -> & _); [discriminate|]. apply Hs. by apply (metadata_range dev s (active_slot (super s)) true (n / 16) W). }
  destruct (adytumfs_table_read dev (n / 16) s) as [[bytes|] s1]; [|destruct (Hnn eq_refl)]. destruct Hr as [_ Hr]. rewrite (Hr bytes eq_refl). fold (inode_at dev s n). rewrite Hi. reflexivity.
Qed.

Lemma read_loop_total fuel i offset want done out s :
  window_ok dev s -> has_data s i -> all_sealed dev s i -> 0 <= offset -> 0 <= done -> offset + want < 2 ^ 64 ->
  offset + want <= ADYTUMFS_BLOCK_SIZE * Z.of_nat (length (blocks_of (direct i))) -> spanned offset want done < Z.of_nat fuel ->
  fst (file_read_loop fuel dev i offset want done out s) <> None.
Proof.
  intros W Hd Ha Ho. revert done out s W Hd Ha. induction fuel as [|fuel IH]; intros done out s W Hda Ha Hd He Hc Hf; change (2 ^ 64) with 0x10000000000000000 in He.
  - exfalso. unfold spanned in Hf. destruct (Z.leb_spec want done); [lia|].
    pose proof (Z.div_le_mono (offset + done) (offset + want - 1) ADYTUMFS_BLOCK_SIZE eq_refl ltac:(lia)). lia.
  - cbn [file_read_loop]. destruct (Z.leb_spec want done) as [Hle|Hlt]; [done|]. rewrite (u64_small (offset + done)) by (unfold is_u64; lia).
    pose proof (spanned_round offset want done Ho ltac:(lia)) as Hsp. destruct (chunk_range (offset + done) (want - done) ltac:(lia) ltac:(lia)) as (H1 & H2 & H3 & H4 & H5).
    cbv zeta in Hsp. set (chunk := Z.min _ _) in *. rewrite bind_run, (inode_map_spec i _ (proj1 Hda)) by exact H1.
    destruct (lookup_lt_is_Some_2 (blocks_of (direct i)) (Z.to_nat ((offset + done) / ADYTUMFS_BLOCK_SIZE))) as [b Hb].
    { unfold ADYTUMFS_BLOCK_SIZE in *. assert ((offset + done) / 4096 < Z.of_nat (length (blocks_of (direct i)))) by (apply Z.div_lt_upper_bound; lia). lia. }
    rewrite Hb. cbn [or_fail]. unfold mret at 1, act_ret at 1. cbv beta iota. rewrite bind_run. pose proof (list_elem_of_lookup_2 _ _ _ Hb) as Hin. destruct Hda as [P Hda].
    pose proof (data_read_total s b W (Hda b Hin) (Ha b Hin)) as Ht. pose proof (data_read_spec dev s b W (Hda b Hin)) as Hsw.
    destruct (adytumfs_data_read dev b s) as [[bytes|] s1]; [|discriminate Ht]. destruct Hsw as [S _].
    apply IH; [by eapply same_ok|by apply (same_has_data s)| |lia|exact He|exact Hc|lia]. intros c Hc'. apply (sealed_same dev s); [exact S|by apply Ha].
Qed.

End Serves.

(** ** A whole read *)

(** The bytes from [offset] on, up to the size of the file. *)
Definition file_bytes s i (offset length : Z) : list Z := map (file_byte dev s i) (seqZ offset (Z.min length (size i - offset))).

Lemma inode_size i : inode_fields i -> 0 <= size i < 2 ^ 64.
Proof. intros [_ _ F _ _]. rewrite !Forall_cons in F. destruct F as (Hs & _). unfold is_u64 in Hs. change (2 ^ 64) with 0x10000000000000000. lia. Qed.

Lemma file_read_spec s n offset length :
  consistent dev s -> 0 <= n -> 0 <= offset -> 0 <= length ->
  let '(r, s') := adytumfs_file_read dev n offset length s in
  same_window s s' /\ forall bytes, r = Some bytes ->
    exists i, inode_at dev s n = Some i /\ Z.land (mode i) ADYTUMFS_MODE_REG <> 0 /\ bytes = file_bytes s i offset length.
Proof.
  intros C Hn Ho Hl. unfold adytumfs_file_read. rewrite bind_run. pose proof (inode_read_spec dev s n (co_ok _ _ C) Hn) as Hr.
  destruct (adytumfs_inode_read dev n s) as [[i|] s0]; destruct Hr as [S Hr]; [|split; [exact S|discriminate]].
  destruct (Hr i eq_refl) as [Hnum Hi]. destruct (Z.eqb_spec (Z.land (mode i) ADYTUMFS_MODE_REG) 0) as [|Hreg]; [split; [exact S|discriminate]|].
  destruct (Z.leb_spec (size i) offset) as [Hle|Hgt].
  - split; [exact S|]. intros ? [= <-]. exists i. split; [exact Hi|]. split; [exact Hreg|]. unfold file_bytes. by rewrite seqZ_nil by lia.
  - assert (mode i <> 0) as Hm by (intros E; apply Hreg; by rewrite E). pose proof (table_carries dev s n i C Hnum Hi Hm) as A.
    pose proof (inode_size i (ca_fields _ _ _ _ A)) as Hsz.
    pose proof (file_loop_read dev (rounds (Z.min length (size i - offset))) i offset (Z.min length (size i - offset)) 0 [] s0 (same_ok dev _ _ S (co_ok _ _ C))
      (same_has_data _ _ _ S (carries_data dev _ _ _ A)) Ho ltac:(lia) ltac:(lia)) as Hrd.
    destruct (file_read_loop _ _ _ _ _ _ _ s0) as [r s']. destruct Hrd as [S' Hb]. split; [by eapply same_window_trans|]. intros bytes Hby.
    exists i. split; [exact Hi|]. split; [exact Hreg|]. rewrite (Hb bytes Hby). cbn [app]. rewrite Z.add_0_r, Z.sub_0_r. unfold file_bytes. apply map_ext.
    intros p. by apply same_byte.
Qed.

(** With sound checksums on a device that answers, the read succeeds. *)
Lemma file_read_total s n i offset length :
  serves (D:=D) dev -> consistent dev s -> inode_number s n -> inode_at dev s n = Some i -> Z.land (mode i) ADYTUMFS_MODE_REG <> 0 -> all_sealed dev s i ->
  0 <= offset -> 0 <= length -> Z.min (offset + length) (size i) <= ADYTUMFS_BLOCK_SIZE * blocks i ->
  fst (adytumfs_file_read dev n offset length s) <> None.
Proof.
  intros Hs C Hnum Hi Hreg Ha Ho Hl Hc. assert (0 <= n) as Hn by (unfold inode_number in Hnum; lia). unfold adytumfs_file_read. rewrite bind_run.
  pose proof (inode_read_spec dev s n (co_ok _ _ C) Hn) as Hr. pose proof (inode_read_total Hs s n i (co_ok _ _ C) Hnum Hi) as Ht.
  destruct (adytumfs_inode_read dev n s) as [r s0]. cbn [fst] in Ht. subst r. destruct Hr as [S _]. rewrite (proj2 (Z.eqb_neq _ _) Hreg).
  destruct (Z.leb_spec (size i) offset) as [Hle|Hgt]; [discriminate|]. assert (mode i <> 0) as Hm by (intros E; apply Hreg; by rewrite E).
  pose proof (table_carries dev s n i C Hnum Hi Hm) as A. pose proof (inode_size i (ca_fields _ _ _ _ A)) as Hsz.
  pose proof (sh_blocks _ (ca_shape _ _ _ _ A)) as Hbl. apply (read_loop_total Hs); [by eapply same_ok; [|apply C]|apply (same_has_data s); [exact S|by eapply carries_data]| |lia|lia|lia| |].
  - intros b Hb. apply (sealed_same dev s); [exact S|by apply Ha].
  - rewrite <- Hbl. lia.
  - apply spanned_rounds; lia.
Qed.

(** ** The other files *)

Lemma touched_file N s s' m i p :
  consistent dev s -> touched dev N s s' -> ~ N m -> inode_number s m -> inode_at dev s m = Some i -> mode i <> 0 ->
  file_byte dev s' i p = file_byte dev s i p /\ (all_sealed dev s i -> all_sealed dev s' i).
Proof.
  intros C [C' (f & g & V & _)] Hn Hm Hi Hmode.
  assert (forall b, b ∈ blocks_of (direct i) -> data_block (super s) b /\ ~ private dev s N b) as Hb.
  { intros b Hb. assert (owns dev s m b) as Ho by (split; [exact Hm|]; by exists i). split; [by apply (co_marked _ _ C m)|]. intros [_ Hp]. by apply (Hp m Hn). }
  split.
  - apply file_byte_ext; [done|]. intros b Hin. destruct (Hb b Hin) as [Hd Hp]. by apply (step_content dev _ _ _ _ (vo_step _ _ _ _ _ _ V) (co_ok _ _ C)).
  - intros Ha b Hin. destruct (Hb b Hin) as [Hd Hp]. apply (step_sealed dev _ _ _ _ (vo_step _ _ _ _ _ _ V) (co_ok _ _ C) Hd Hp). by apply Ha.
Qed.

(** The buffer is read back from the place it was written to. *)
Lemma wrote_bytes s n offset buffer s' i' :
  0 <= offset -> wrote dev s n offset buffer s' -> inode_at dev s' n = Some i' -> file_bytes s' i' offset (Z.of_nat (length buffer)) = buffer.
Proof.
  intros Ho [_ (i & j & _ & Hj & _ & Hs & Hb & _)] Hi'. rewrite Hj in Hi'. injection Hi' as ->. unfold file_bytes. rewrite Z.min_l by lia.
  apply nth_ext with (d := 0) (d' := 0); [rewrite length_map, length_seqZ; lia|]. intros k Hk. rewrite length_map, length_seqZ in Hk.
  rewrite nth_lookup, list_lookup_fmap, lookup_seqZ_lt by lia. cbn [fmap option_fmap option_map default]. unfold id. rewrite Hb by lia.
  rewrite (proj2 (Z.leb_le _ _)), (proj2 (Z.ltb_lt _ _)) by lia. cbn [andb]. unfold at_, byte_at. f_equal. lia.
Qed.

End Files.

(** ** A small volume *)

(** The formatted volume, mounted: five of its blocks are for data. *)
Definition roomy : fs writeback := Fs nothing_staged formatted_super formatted.

Lemma roomy_exact : exact_volume 0 roomy.
Proof. apply (formatted_exact 0 12 roomy formatted_volume ltac:(lia) (nothing_held formatted_super formatted)). Qed.

Lemma roomy_consistent : consistent 0 roomy.
Proof. exact (ex_consistent _ _ roomy_exact). Qed.

(** The inode 2 is a regular file. *)
Definition new_file : adytumfs_inode := fresh_inode (Z.lor ADYTUMFS_MODE_REG 420) 0 1700000000 0.

Definition with_file : fs writeback := snd (adytumfs_inode_write 0 2 new_file roomy).

Lemma new_file_fields : inode_fields new_file.
Proof.
  split; [split; vm_compute; split; [discriminate|reflexivity|discriminate|reflexivity]| | |reflexivity|].
  - repeat (apply Forall_cons; split; [vm_compute; split; [discriminate|reflexivity]|]). constructor.
  - repeat (apply Forall_cons; split; [vm_compute; split; [discriminate|reflexivity]|]). constructor.
  - repeat (apply Forall_cons; split; [repeat split; vm_compute; (discriminate || reflexivity)|]). constructor.
Qed.

Lemma with_file_touched : touched 0 (eq 2) roomy with_file.
Proof.
  pose proof (inode_write_touched 0 roomy 2 new_file roomy_consistent (empty_carries 0 roomy 2 new_file new_file_fields eq_refl) ltac:(lia)) as Hw.
  unfold with_file. destruct (adytumfs_inode_write 0 2 new_file roomy) as [r s']. exact (proj1 Hw).
Qed.

Lemma with_file_consistent : consistent 0 with_file.
Proof. exact (to_consistent _ _ _ _ with_file_touched). Qed.

Lemma with_file_inode : inode_at 0 with_file 2 = Some new_file.
Proof. vm_compute. reflexivity. Qed.

Lemma new_file_sealed (s : fs writeback) : all_sealed 0 s new_file.
Proof. intros b Hb. by apply elem_of_nil in Hb. Qed.

(** C11: A write to a file of AdytumFS.  On a consistent volume
    [adytumfs_file_write] keeps the volume consistent and changes no other
    file, whether it succeeds or fails, and it answers nothing or the whole
    length.  When it succeeds, the file holds the buffer at the offset, has
    kept its other bytes and has grown to the end of the buffer at most. *)
Theorem adytum_file_write {D} `{FsDeviceLaws D} dev (s : fs D) n offset buffer :
  consistent dev s -> 0 <= n -> is_bytes buffer -> is_u64 offset -> 0 < Z.of_nat (length buffer) < 2 ^ 64 ->
  let '(r, s') := adytumfs_file_write dev n offset buffer s in
  consistent dev s' /\
  (forall m, m <> n -> inode_number s m -> inode_at dev s' m = inode_at dev s m /\
     forall i p, inode_at dev s m = Some i -> mode i <> 0 -> file_byte dev s' i p = file_byte dev s i p) /\
  (r = Some (Z.of_nat (length buffer)) -> wrote dev s n offset buffer s') /\
  (r = None \/ r = Some (Z.of_nat (length buffer))).
Proof.
  intros C Hn Hb Ho Hl. pose proof (file_write_spec dev s n offset buffer C Hn Hb Ho Hl) as Hw.
  destruct (adytumfs_file_write dev n offset buffer s) as [r s']. destruct Hw as (T & Hw & Hr).
  split; [exact (to_consistent _ _ _ _ T)|]. split; [|split; [exact Hw|exact Hr]]. intros m Hm Hnum. apply not_eq_sym in Hm.
  split; [exact (touched_inode dev (eq n) s s' m T Hnum Hm)|]. intros i p Hi Hmode. exact (proj1 (touched_file dev (eq n) s s' m i p C T Hm Hnum Hi Hmode)).
Qed.

(** A page. *)
Definition full_page : list Z := replicate 4096 104.

Lemma full_page_bytes : is_bytes full_page.
Proof. apply Forall_replicate. unfold is_u8. lia. Qed.

Lemma full_page_length : Z.of_nat (length full_page) = 4096.
Proof. unfold full_page. by rewrite length_replicate. Qed.

Lemma adytum_file_write_witness :
  let '(r, s') := adytumfs_file_write 0 2 0 full_page with_file in
  r = Some 4096 /\ wrote 0 with_file 2 0 full_page s'.
Proof.
  pose proof (adytum_file_write 0 with_file 2 0 full_page with_file_consistent ltac:(lia) full_page_bytes ltac:(unfold is_u64; lia) ltac:(rewrite full_page_length; lia)) as Hw.
  assert (fst (adytumfs_file_write 0 2 0 full_page with_file) = Some 4096) as Hr by (vm_compute; reflexivity).
  destruct (adytumfs_file_write 0 2 0 full_page with_file) as [r s']. destruct Hw as (_ & _ & Hw & _). split; [exact Hr|exact (Hw Hr)].
Defined.



End AdytumRoundTrip.
