(* ===== verification/AdytumCrash.v ===== *)
(** AdytumFS: crashes in operations on files. *)

From S2P Require Import Prelude Wire Crc32c AdytumFormat AdytumVolume AdytumDevice AdytumCommit AdytumSample AdytumAtomic AdytumWindow AdytumAlloc AdytumData AdytumInode AdytumExtents AdytumTable AdytumStep AdytumFiles AdytumRemap AdytumTouch AdytumFile AdytumFileTheorems AdytumVerify AdytumFresh AdytumMake AdytumRoundTrip.

Module AdytumCrash.
Import Wire AdytumFormat AdytumVolume AdytumDevice AdytumCommit AdytumSample AdytumAtomic AdytumWindow AdytumAlloc AdytumData AdytumInode AdytumExtents AdytumTable AdytumStep AdytumFiles AdytumRemap AdytumTouch AdytumFile AdytumFileTheorems AdytumVerify AdytumFresh AdytumMake AdytumRoundTrip.

#[local] Opaque crc32c zero_block adytumfs_super_pack.

Section Crash.
Context {D : Type} `{FsDeviceLaws D}.
Context (dev blocks : Z) (old other : adytumfs_superblock).
Implicit Types (s : fs D).

(** A step that writes data only leaves the sets and the superblocks. *)
Lemma metadata_off_reach super W b x : layout super -> metadata super b -> in_block b x -> ~ reach dev super W dev x.
Proof.
  intros [L1 L2 L3 L4 L5 L6 L7 L8 L9 L10] Hm Hx (_ & b' & Hb & Hx'). rewrite (in_block_unique _ _ _ Hx Hx') in Hm.
  unfold metadata in Hm. unfold data_block, region_block in Hb. lia.
Qed.

(** The medium has its metadata as in [s]. *)
Definition metadata_kept s (st : media) : Prop := forall b x, metadata (super s) b -> in_block b x -> st dev x = stored (disk s) dev x.

Lemma metadata_survives s st : between dev blocks old other s -> metadata_kept s st -> survives_old dev blocks old s st.
Proof.
  intros B Hk. destruct (slots_range dev blocks old other s B) as (Hact & Hin & _).
  assert (forall b, metadata (super s) b -> block_of (st dev) b = block_of (stored (disk s) dev) b) as Hb by (intros b Hb; apply block_of_ext; intros x Hx; by apply (Hk b)).
  split.
  - apply (recovered_old dev blocks old other s B); [|left].
    + rewrite Hb by (by eapply slot_metadata). exact (be_old _ _ _ _ _ B).
    + rewrite Hb by (by eapply slot_metadata). exact (be_other _ _ _ _ _ B).
  - intros tbl k Hs. cbv zeta. rewrite Hb by (by eapply set_metadata). apply block_of_ext. intros x Hx.
    by apply (be_clean _ _ _ _ _ B (staged_block (super s) (active_slot (super s)) tbl k)); [eapply set_metadata|].
Qed.

(** What a step between two commits leaves for the next one. *)
Lemma step_between W s s' : between dev blocks old other s -> fs_step dev W s s' -> between dev blocks old other s'.
Proof.
  intros B [A (Hf & n & m & E) K _ _]. pose proof (be_layout _ _ _ _ _ B) as L.
  assert (forall b x, metadata (super s) b -> in_block b x -> seen (disk s') dev x = seen (disk s) dev x /\ stored (disk s') dev x = stored (disk s) dev x) as Hk.
  { intros b x Hm Hx. pose proof (metadata_off_reach (super s) W b x L Hm Hx) as Hr. split; [by apply (k_seen _ _ _ K)|].
    destruct (k_stored _ _ _ K dev x Hr) as [->| ->]; [done|]. symmetry. by apply (be_clean _ _ _ _ _ B b). }
  destruct (slots_range dev blocks old other s B) as (Hact & Hin & _).
  assert (forall slot, slot = 0 \/ slot = 1 -> block_of (stored (disk s') dev) (superblock_slot blocks slot) = block_of (stored (disk s) dev) (superblock_slot blocks slot)) as Hb.
  { intros slot Hs. apply block_of_ext. intros x Hx. apply (Hk (superblock_slot blocks slot) x); [|exact Hx]. by eapply slot_metadata. }
  pose proof (wo_layout _ _ A) as L'. pose proof (wo_staging _ _ A) as Sg. assert (inactive_slot s' = inactive_slot s) as Ei by (unfold inactive_slot; by rewrite E).
  destruct B as [B1 B2 B3 B4 [B5 B5'] B6 [[] []] B8 B9 B10 B11 B12 B13]. split; rewrite ?Ei.
  - by rewrite E.
  - exact B2.
  - exact L'.
  - rewrite <- B4. apply same_valid. rewrite E. by split.
  - split; [by apply Hf|exact B5'].
  - by rewrite E.
  - rewrite E. split; split; assumption.
  - by rewrite E.
  - by rewrite E.
  - rewrite E. cbn [active_slot set_free_inodes set_free_blocks]. rewrite (Hb _ Hact). exact B10.
  - rewrite (Hb _ Hin). exact B11.
  - intros b x Hm Hx. rewrite E in Hm. destruct (Hk b x Hm Hx) as [-> ->]. by apply (B12 b).
  - exact Sg.
Qed.

(** What a crash in it leaves. *)
Lemma step_crash W s s' st :
  between dev blocks old other s -> fs_step dev W s s' -> past (disk s') st ->
  past (disk s) st \/ survives_old dev blocks old s st /\
    forall b x, data_block (super s) b -> ~ W b -> in_block b x -> st dev x = stored (disk s) dev x \/ st dev x = seen (disk s) dev x.
Proof.
  intros B [_ _ K _ _] Hp. pose proof (be_layout _ _ _ _ _ B) as L. destruct (k_past _ _ _ K st Hp) as [?|Hst]; [by left|right]. split.
  - apply (metadata_survives s st B). intros b x Hm Hx. destruct (Hst dev x (metadata_off_reach (super s) W b x L Hm Hx)) as [->| ->]; [done|].
    symmetry. by apply (be_clean _ _ _ _ _ B b).
  - intros b x Hd Hn Hx. apply Hst. intros (_ & b' & Hb & Hx'). rewrite (in_block_unique _ _ _ Hx Hx') in *. destruct Hb as [[_ ?]|Hb]; [done|].
    unfold region_block, data_block in *. lia.
Qed.

End Crash.

(** The sample with its file is between two commits. *)
Lemma roomy_between : between 0 12 formatted_super formatted_super roomy.
Proof. apply formatted_between; [exact formatted_volume|reflexivity|exact (wo_staging _ _ (co_ok _ _ roomy_consistent))]. Qed.


Lemma with_file_between : between 0 12 formatted_super formatted_super with_file.
Proof. destruct with_file_touched as [_ (f & g & V & _)]. exact (step_between 0 12 formatted_super formatted_super _ roomy with_file roomy_between (vo_step _ _ _ _ _ _ V)). Qed.


End AdytumCrash.
