(* ===== verification/AdytumAudit.v ===== *)
(** AdytumFS: the audit of a mount decides whether the three views of the
    allocation agree. *)

From S2P Require Import Prelude Wire Crc32c AdytumFormat AdytumVolume AdytumDevice AdytumCommit AdytumSample AdytumMake AdytumAtomic AdytumWindow AdytumAlloc AdytumData AdytumInode AdytumExtents AdytumTable AdytumStep AdytumFiles AdytumTouch AdytumFile AdytumVerify AdytumFresh AdytumRoundTrip.

Module AdytumAudit.
Import Wire AdytumFormat AdytumVolume AdytumDevice AdytumCommit AdytumSample AdytumMake AdytumAtomic AdytumWindow AdytumAlloc AdytumData AdytumInode AdytumExtents AdytumTable AdytumStep AdytumFiles AdytumTouch AdytumFile AdytumVerify AdytumFresh AdytumRoundTrip.

#[local] Opaque crc32c zero_block.

(** ** The audit of an exact volume *)

Section Complete.
Context {D : Type} `{FsDeviceLaws D}.
Context (dev : Z) (s : fs D) (Hs : serves (D:=D) dev) (Hempty : forall e, ~ holds dev s e) (E : exact_volume dev s).

Local Abbreviation numbers := (seqZ 1 (inode_count (super s) - 1)).
Local Abbreviation W := (co_ok _ _ (ex_consistent _ _ E)).

(** A loop whose rounds are answered is answered. *)
Lemma fold_total {A B} (I : list B -> A -> Prop) (f : B -> A -> act D A) (l done rest : list B) a (s' : fs D) :
  l = done ++ rest -> same_window s s' -> I done a ->
  (forall x pre post a (s' : fs D), l = pre ++ x :: post -> same_window s s' -> I pre a ->
     let '(r, s'') := f x a s' in same_window s s'' /\ forall a', r = Some a' -> I (pre ++ [x]) a') ->
  (forall x pre post a (s' : fs D), l = pre ++ x :: post -> same_window s s' -> I pre a -> fst (f x a s') <> None) ->
  fst (fold_act rest f a s') <> None.
Proof.
  intros El S Hi Hf Ht. revert done a s' El S Hi. induction rest as [|x rest IH]; intros done a s' El S Hi; cbn [fold_act]; [discriminate|].
  rewrite bind_run. pose proof (Hf x done rest a s' El S Hi) as Hr. pose proof (Ht x done rest a s' El S Hi) as Hn.
  destruct (f x a s') as [[a'|] s1]; [|destruct (Hn eq_refl)]. destruct Hr as [S1 Hr]. apply (IH (done ++ [x])); [by rewrite <- app_assoc|exact S1|by apply Hr].
Qed.

Lemma verify_bit_total block cache (s' : fs D) :
  same_window s s' -> 0 <= block < total_blocks (super s) -> fst (verify_bit dev block cache s') <> None.
Proof.
  intros S Hb. destruct (bitmap_index dev s block W Hb) as [Hi Hi']. unfold verify_bit. rewrite bind_run. unfold the_super. cbv beta iota. rewrite (sw_super _ _ S).
  rewrite (proj2 (Z.leb_gt _ _)) by lia. rewrite bind_run. destruct (block / bits_per_block =? fst cache); [discriminate|].
  rewrite bind_run, u32_small by (unfold is_u32; lia). change (adytumfs_bitmap_block (super s) (block / bits_per_block)) with (staged_block (super s) (active_slot (super s)) false (block / bits_per_block)).
  pose proof (Hs _ s' (metadata_range dev s (active_slot (super s)) false (block / bits_per_block) W Hi)) as Hn.
  destruct (adytumfs_block_read dev _ s') as [[bytes|] s1]; [discriminate|destruct (Hn eq_refl)].
Qed.

Lemma claims_room pre x post :
  numbers = pre ++ x :: post -> Z.of_nat (length (concat (map (ledger dev s) pre)) + 10) <= ADYTUMFS_VERIFY_CLAIMS_MAX.
Proof.
  intros El. pose proof (wo_layout _ _ W) as [L1 L2 L3 L4 L5 L6 L7 L8 L9 L10].
  assert (forall n, (length (ledger dev s n) <= 10)%nat) as Hl.
  { intros n. unfold ledger. destruct (inode_at dev s n) as [i|] eqn:Hi; [|cbn; lia]. destruct (mode i =? 0); [cbn; lia|].
    pose proof (inode_at_fields dev s n i W Hi) as [_ _ _ F4 _]. unfold live_extents. rewrite length_map, length_take. lia. }
  assert (forall l, (length (concat (map (ledger dev s) l)) <= 10 * length l)%nat) as Hc.
  { intros l. induction l as [|n l IH]; [cbn; lia|]. cbn [map concat length]. rewrite length_app. specialize (Hl n). lia. }
  specialize (Hc pre). assert (length numbers = length (pre ++ x :: post)) as En by (by rewrite El). rewrite length_seqZ, length_app in En. cbn [length] in En.
  change ADYTUMFS_VERIFY_CLAIMS_MAX with 2560. lia.
Qed.

Lemma verify_inode_total x pre post a (s' : fs D) :
  numbers = pre ++ x :: post -> same_window s s' -> inodes_done dev s pre a -> fst (verify_inode dev x a s') <> None.
Proof.
  intros El S (Hc & _ & _). destruct a as [claims free]. cbn [fst] in Hc. subst claims. pose proof (claims_room pre x post El) as Hroom.
  assert (x ∈ numbers) as Hx%(number_in s) by (rewrite El, elem_of_app, elem_of_cons; auto). destruct (ex_table _ _ E x Hx) as [i Hi].
  unfold verify_inode. rewrite bind_run. unfold the_super. cbv beta iota. rewrite bind_run, (sw_super _ _ S).
  assert (inode_at dev s' x = Some i) as Hi' by (unfold inode_at; rewrite (same_view dev _ _ _ _ S); exact Hi).
  assert (inode_number s' x) as Hx' by (unfold inode_number; by rewrite (sw_super _ _ S)).
  pose proof (inode_read_total dev Hs s' x i (same_ok dev _ _ S W) Hx' Hi') as Ht. destruct (adytumfs_inode_read dev x s') as [r s1]. cbn [fst] in Ht. subst r.
  destruct (Z.eqb_spec (mode i) 0) as [|Hm]; [discriminate|]. destruct (ex_kinds _ _ E x i Hx Hi Hm) as [A1 A2 A3 A4].
  assert (negb (kind_bits (mode i) =? ADYTUMFS_MODE_DIR) && negb (kind_bits (mode i) =? ADYTUMFS_MODE_REG) && negb (kind_bits (mode i) =? ADYTUMFS_MODE_LNK) = false) as ->
    by (destruct A1 as [->|[->| ->]]; reflexivity).
  pose proof (inode_at_fields dev s x i W Hi) as [_ _ _ F4 F5].
  destruct (verify_extents (super s) (direct i) false 0 (concat (map (ledger dev s) pre))) as [[m c]|] eqn:Hv.
  - apply (verify_extents_spec (super s) (wo_layout _ _ W) (wo_total _ _ W)) in Hv as (-> & -> & _); [|exact F5|lia|rewrite F4; lia].
    rewrite Z.add_0_l, A4, Z.eqb_refl. discriminate.
  - exfalso. revert Hv. apply (verify_extents_total (super s) (wo_layout _ _ W) (wo_total _ _ W)); [exact F5|exact A2|exact A3|discriminate|]. rewrite F4. exact Hroom.
Qed.

Lemma verify_block_total x pre post a (s' : fs D) :
  seqZ 0 (total_blocks (super s)) = pre ++ x :: post -> same_window s s' -> bits_done dev s pre a -> fst (verify_block dev x a s') <> None.
Proof.
  intros El S (Hc & _ & _). destruct a as [allocated cache]. cbn [snd] in Hc.
  assert (x ∈ seqZ 0 (total_blocks (super s))) as Hx%elem_of_seqZ by (rewrite El, elem_of_app, elem_of_cons; auto). rewrite Z.add_0_l in Hx.
  unfold verify_block. rewrite bind_run. unfold the_super. cbv beta iota. rewrite bind_run, (sw_super _ _ S).
  pose proof (verify_bit_spec dev s W x cache s' S Hc Hx) as Hb. pose proof (verify_bit_total x cache s' S Hx) as Hn.
  destruct (verify_bit dev x cache s') as [[[used cache']|] s1]; [|destruct (Hn eq_refl)]. destruct Hb as [_ Hb]. destruct (Hb _ eq_refl) as [Hu _]. cbn [fst] in Hu.
  destruct (Z.ltb_spec x (data_start (super s))), (Z.leb_spec (data_checksum_region (super s)) x); cbn [orb].
  4: by intros ?.
  all: assert (bit dev s x = true) as Hbit by (apply (ex_bits _ _ E x Hx); left; unfold data_block; lia).
  all: rewrite (bit_is_committed dev s Hempty x), <- Hu in Hbit; rewrite Hbit; by intros ?.
Qed.

Lemma numbers_audited n : inode_number s n -> exists i, inode_at dev s n = Some i /\ (mode i <> 0 -> audited s i).
Proof. intros Hn. destruct (ex_table _ _ E n Hn) as [i Hi]. exists i. split; [exact Hi|]. intros Hm. by apply (ex_kinds _ _ E n). Qed.

Lemma verify_claimed_total claims x pre post a (s' : fs D) :
  Forall (in_region (super s)) claims -> (forall c b, c ∈ claims -> b ∈ crun c -> committed_bit dev s b = true) ->
  claims = pre ++ x :: post -> same_window s s' -> claims_done dev s pre a -> fst (verify_claimed dev x a s') <> None.
Proof.
  intros Hr Hb El S (Hc & _ & _). destruct a as [claimed cache]. cbn [snd] in Hc. pose proof (wo_layout _ _ W) as [L1 L2 L3 L4 L5 L6 L7 L8 L9 L10].
  assert (x ∈ claims) as Hx by (rewrite El, elem_of_app, elem_of_cons; auto). rewrite Forall_forall in Hr. destruct (Hr x Hx) as (X1 & X2 & X3).
  unfold verify_claimed. rewrite bind_run. fold (crun x).
  assert (forall y p q, crun x = p ++ y :: q -> 0 <= y < total_blocks (super s) /\ committed_bit dev s y = true) as Hy.
  { intros y p q Ey. assert (y ∈ crun x) as Hin by (rewrite Ey, elem_of_app, elem_of_cons; auto). split; [apply elem_of_seqZ in Hin; lia|by apply (Hb x)]. }
  pose proof (fold_total (fun _ cache => cache_ok dev s cache)
    (fun block cache => b ← verify_bit dev block cache; if fst b : bool then mret (snd b) else fail) (crun x) [] (crun x) cache s' eq_refl S Hc) as Hf.
  match type of Hf with ?P -> ?Q -> _ => assert P as HP; [|assert Q as HQ; [|specialize (Hf HP HQ)]] end.
  - intros y p q c t Ey St Hct. destruct (Hy y p q Ey) as [Hyr _]. rewrite bind_run. pose proof (verify_bit_spec dev s W y c t St Hct Hyr) as Hv.
    destruct (verify_bit dev y c t) as [[[used c']|] t1]; destruct Hv as [St1 Hv]; [|split; [exact St1|discriminate]]. destruct (Hv _ eq_refl) as [_ Hc'].
    cbn [fst snd]. destruct used; (split; [exact St1|]); [|discriminate]. by intros ? [= <-].
  - intros y p q c t Ey St Hct. destruct (Hy y p q Ey) as [Hyr Hyb]. rewrite bind_run. pose proof (verify_bit_spec dev s W y c t St Hct Hyr) as Hv.
    pose proof (verify_bit_total y c t St Hyr) as Hn. destruct (verify_bit dev y c t) as [[[used c']|] t1]; [|destruct (Hn eq_refl)].
    destruct Hv as [_ Hv]. destruct (Hv _ eq_refl) as [Hu _]. cbn [fst] in Hu. rewrite Hyb in Hu. rewrite Hu. by intros ?.
  - destruct (fold_act (crun x) _ cache s') as [[cache'|] s1]; [by intros ?|destruct (Hf eq_refl)].
Qed.

(** *** The ledger of the volume *)

Local Abbreviation claims := (concat (map (ledger dev s) numbers)).

Lemma exact_done free : free = free_inode_count dev s -> inodes_done dev s numbers (claims, free).
Proof. intros ->. split; [done|]. split; [done|]. intros n Hn%(number_in s). by apply numbers_audited. Qed.

Lemma exact_claimed c b : c ∈ claims -> b ∈ crun c -> data_block (super s) b /\ committed_bit dev s b = true /\ exists n, owns dev s n b.
Proof.
  intros Hc Hb. apply list_elem_of_In, in_concat in Hc as (l & Hl & Hc). apply in_map_iff in Hl as (n & <- & Hn%list_elem_of_In).
  assert (owns dev s n b) as Ho.
  { apply (owns_named dev s _ (exact_done _ eq_refl)). split; [exact Hn|]. apply list_elem_of_In, in_concat. exists (crun c). split; [by apply in_map|by apply list_elem_of_In]. }
  destruct (co_marked _ _ (ex_consistent _ _ E) n b Ho) as [Hd Hbit]. rewrite (bit_is_committed dev s Hempty b) in Hbit. split; [exact Hd|]. split; [exact Hbit|by exists n].
Qed.

Lemma exact_nodup : NoDup (concat (map crun claims)).
Proof.
  rewrite concat_map_concat, map_map. pose proof (exact_done _ eq_refl) as Hin.
  assert (forall i a, map (named dev s) numbers !! i = Some a -> exists n, n ∈ numbers /\ a = named dev s n /\ i = Z.to_nat (n - 1)) as Hlk.
  { intros i a Hi. rewrite list_lookup_fmap in Hi. destruct (numbers !! i) as [n|] eqn:Hn; [|done]. injection Hi as <-. exists n.
    pose proof (list_elem_of_lookup_2 _ _ _ Hn) as Hin'. apply lookup_seqZ in Hn as [-> _]. split; [exact Hin'|]. split; [done|lia]. }
  apply nodup_concat_intro.
  - intros k a Hk. destruct (Hlk k a Hk) as (n & Hn & -> & _). unfold named, ledger. destruct (inode_at dev s n) as [i|] eqn:Hi; [|constructor].
    destruct (Z.eqb_spec (mode i) 0) as [|Hm]; [constructor|]. rewrite <- runs_claims. apply (sh_nodup i). by apply (co_shape _ _ (ex_consistent _ _ E) n i); [apply number_in| |].
  - intros k j a b x Hk Hj Hx Hy. destruct (Hlk k a Hk) as (n & Hn & -> & ->), (Hlk j b Hj) as (m & Hm & -> & ->).
    rewrite (co_apart _ _ (ex_consistent _ _ E) n m x); [done| |]; by apply (owns_named dev s _ Hin).
Qed.

(** The claims cover the blocks whose bit is set. *)
Lemma exact_sum : length (concat (map crun claims)) = length (List.filter (taken dev s) (seqZ 0 (total_blocks (super s)))).
Proof.
  pose proof (wo_layout _ _ W) as [L1 L2 L3 L4 L5 L6 L7 L8 L9 L10].
  assert (forall b, In b (concat (map crun claims)) <-> In b (List.filter (taken dev s) (seqZ 0 (total_blocks (super s))))) as Hiff.
  { intros b. rewrite filter_In, (taken_spec dev s b). split.
    - intros Hb. apply in_concat in Hb as (r & Hr & Hb). apply in_map_iff in Hr as (c & <- & Hc). apply list_elem_of_In in Hc, Hb. destruct (exact_claimed c b Hc Hb) as (Hd & Hbit & _).
      split; [|by split]. apply list_elem_of_In, elem_of_seqZ. unfold data_block in Hd. lia.
    - intros (Hb%list_elem_of_In%elem_of_seqZ & Hd & Hbit). rewrite <- (bit_is_committed dev s Hempty b) in Hbit. apply (ex_bits _ _ E b ltac:(lia)) in Hbit as [?|[n Ho]]; [done|].
      apply (owns_named dev s _ (exact_done _ eq_refl)) in Ho as [Hn Hb']. apply list_elem_of_In. exact (proj2 (named_block dev s _ (exact_done _ eq_refl) n b Hn Hb')). }
  assert (List.NoDup (List.filter (taken dev s) (seqZ 0 (total_blocks (super s))))) as Hn2 by (apply List.NoDup_filter, NoDup_ListNoDup, NoDup_seqZ).
  assert (List.NoDup (concat (map crun claims))) as Hn1 by (apply NoDup_ListNoDup, exact_nodup).
  apply Nat.le_antisymm; apply NoDup_incl_length; auto; intros b; apply Hiff.
Qed.

Lemma verify_total : fst (adytumfs_verify dev s) = Some tt.
Proof.
  unfold adytumfs_verify. rewrite bind_run. unfold the_super. cbv beta iota. rewrite bind_run.
  assert (inodes_done dev s [] ([], 0)) as I1 by (split; [done|split; [done|intros n Hn; by apply elem_of_nil in Hn]]).
  pose proof (fold_same s (inodes_done dev s) (verify_inode dev) numbers [] numbers ([], 0) s eq_refl (same_window_refl s) I1 (fun x pre post a s' => verify_inode_spec dev s W x pre post a s')) as H1.
  pose proof (fold_total (inodes_done dev s) (verify_inode dev) numbers [] numbers ([], 0) s eq_refl (same_window_refl s) I1 (fun x pre post a s' => verify_inode_spec dev s W x pre post a s')
    (fun x pre post a s' => verify_inode_total x pre post a s')) as T1.
  destruct (fold_act _ (verify_inode dev) _ s) as [[[cl free]|] s1]; [|destruct (T1 eq_refl)]. destruct H1 as [S1 H1]. destruct (H1 _ eq_refl) as (Ecl & Efree & _).
  cbn [fst snd] in Ecl, Efree. subst cl. rewrite bind_run. assert (bits_done dev s [] (0, no_window)) as I2.
  { split; [intros Hlt; cbn in Hlt; lia|split; [done|intros n Hn; by apply elem_of_nil in Hn]]. }
  pose proof (fold_same s (bits_done dev s) (verify_block dev) _ [] (seqZ 0 (total_blocks (super s))) (0, no_window) s1 eq_refl S1 I2 (fun x pre post a s' => verify_block_spec dev s W x pre post a s')) as H2.
  pose proof (fold_total (bits_done dev s) (verify_block dev) _ [] (seqZ 0 (total_blocks (super s))) (0, no_window) s1 eq_refl S1 I2 (fun x pre post a s' => verify_block_spec dev s W x pre post a s')
    (fun x pre post a s' => verify_block_total x pre post a s')) as T2.
  destruct (fold_act _ (verify_block dev) _ s1) as [[[allocated cache]|] s2]; [|destruct (T2 eq_refl)]. destruct H2 as [S2 H2]. destruct (H2 _ eq_refl) as (Hc2 & Ea & _).
  cbn [fst snd app] in Hc2, Ea. rewrite bind_run. pose proof (claims_in_region dev s _ (exact_done _ eq_refl)) as Hreg.
  assert (claims_done dev s [] (0, cache)) as I3 by (split; [exact Hc2|split; [done|intros c b Hn; by apply elem_of_nil in Hn]]).
  pose proof (fold_same s (claims_done dev s) (verify_claimed dev) _ [] claims (0, cache) s2 eq_refl S2 I3 (fun x pre post a s' => verify_claimed_spec dev s W _ x pre post a s' Hreg)) as H3.
  pose proof (fold_total (claims_done dev s) (verify_claimed dev) _ [] claims (0, cache) s2 eq_refl S2 I3 (fun x pre post a s' => verify_claimed_spec dev s W _ x pre post a s' Hreg)
    (fun x pre post a s' => verify_claimed_total _ x pre post a s' Hreg (fun c b Hc Hb => proj1 (proj2 (exact_claimed c b Hc Hb))))) as T3.
  destruct (fold_act _ (verify_claimed dev) _ s2) as [[[claimed cache']|] s3]; [|destruct (T3 eq_refl)]. destruct H3 as [S3 H3]. destruct (H3 _ eq_refl) as (_ & Esum & _).
  cbn [fst app] in Esum. rewrite (nodup_overlap (super s) (wo_layout _ _ W) (wo_total _ _ W) _ Hreg exact_nodup).
  pose proof (taken_count dev s W Hempty) as Htc. pose proof (wo_total _ _ W) as Ht. pose proof (wo_layout _ _ W) as []. change (2 ^ 29) with 536870912 in Ht.
  assert (0 <= free_count dev s) as Hf0 by (unfold free_count; lia). rewrite exact_sum, u64_small in Esum by (unfold is_u64; lia).
  rewrite (proj2 (Z.eqb_eq claimed allocated)) by lia. rewrite (proj2 (Z.eqb_eq (free_inodes (super s)) free)) by (rewrite Efree; exact (ex_inodes _ _ E)).
  rewrite u64_small by (unfold is_u64; lia). rewrite (proj2 (Z.eqb_eq (free_blocks (super s)) _)) by (rewrite (ex_blocks _ _ E); lia). reflexivity.
Qed.

End Complete.



(** A new volume is attached. *)
Lemma attach_formatted {D} `{FsDeviceLaws D} dev (s : fs D) sectors fl sb :
  serves (D:=D) dev -> block_info dev (disk s) = Some (sectors, fl) -> 24 <= sectors <= 2 ^ 26 -> formatted_as dev (sectors / 8) sb (disk s) ->
  let '(r, s') := attach_volume dev s in
  r = Some tt /\ exists s3, exact_volume dev s3 /\ formatted_as dev (sectors / 8) (super s3) (disk s3) /\ (forall e, ~ holds dev s3 e) /\ same_window s3 s'.
Proof.
  intros Hs Hi Hn F. unfold attach_volume. rewrite bind_run. pose proof (window_discard_spec dev s) as Hd. destruct (adytumfs_window_discard dev s) as [r1 s1].
  destruct Hd as (-> & Ed & _ & He). rewrite bind_run. pose proof (super_read_fields dev s1) as Hr. pose proof (super_read_spec dev s1 sectors fl Hs) as Hf.
  rewrite Ed in Hr, Hf. rewrite (formatted_recovered dev _ sb _ F) in Hf. specialize (Hf Hi ltac:(lia)).
  destruct (adytumfs_super_read dev s1) as [r2 s2]. cbn [fst] in Hf. subst r2. destruct Hr as (Sg & K & _).
  destruct (fo_size _ _ _ _ F) as (R & ER & _). replace (feature_ro_compat sb) with 0 by (by rewrite ER). cbn [nz negb Z.eqb]. rewrite bind_run. unfold set_super. cbv beta iota.
  set (s3 := Fs (staging s2) sb (disk s2)). assert (forall e, ~ holds dev s3 e) as He3 by (intros e; unfold holds, s3; cbn [staging]; rewrite Sg; apply He).
  pose proof (formatted_kept dev _ sb _ _ K F) as F3.
  assert (exact_volume dev s3) as E3.
  { apply (formatted_exact dev (sectors / 8)); [exact F3| |exact He3]. change (2 ^ 26) with 67108864 in Hn. apply Z.div_le_upper_bound; lia. }
  pose proof (verify_total dev s3 Hs He3 E3) as Hv. pose proof (verify_spec dev s3 (co_ok _ _ (ex_consistent _ _ E3)) He3) as Hw.
  destruct (adytumfs_verify dev s3) as [r s']. cbn [fst] in Hv. split; [exact Hv|]. exists s3. split; [exact E3|]. split; [exact F3|]. split; [exact He3|exact (proj1 Hw)].
Qed.


(** The sample before it is attached. *)
Definition unattached : fs writeback := Fs nothing_staged no_super formatted.

Lemma unattached_info : block_info 0 (disk unattached) = Some (96, 0).
Proof. vm_compute. reflexivity. Qed.

Lemma unattached_size sectors fl : block_info 0 (disk unattached) = Some (sectors, fl) -> sectors <= 2 ^ 26.
Proof. rewrite unattached_info. intros [= <- _]. lia. Qed.


(** C19: A volume that is attached is consistent.  Whatever is on the device,
    of at most 32 GiB, and whatever an earlier user of it left staged: when
    [adytumfs_attach] gets past the audit, the open volume has every property
    the operations on files rely on, and an empty window. *)
Theorem adytum_attach_sound {D} `{FsDeviceLaws D} dev (s : fs D) :
  (forall sectors fl, block_info dev (disk s) = Some (sectors, fl) -> sectors <= 2 ^ 26) ->
  let '(r, s') := attach_volume dev s in
  r = Some tt -> exact_volume dev s' /\ forall e, ~ holds dev s' e.
Proof.
  intros Hsz. unfold attach_volume. rewrite bind_run. pose proof (window_discard_spec dev s) as Hd. destruct (adytumfs_window_discard dev s) as [r1 s1].
  destruct Hd as (-> & Ed & _ & He). rewrite bind_run. pose proof (super_read_fields dev s1) as Hr. rewrite Ed in Hr.
  destruct (adytumfs_super_read dev s1) as [[sb|] s2]; destruct Hr as (Sg & _ & Hr); [|discriminate]. destruct (Hr sb eq_refl) as (L & T & sectors & fl & Hi & Hn).
  destruct (nz (feature_ro_compat sb)); [discriminate|]. rewrite bind_run. unfold set_super. cbv beta iota.
  set (s3 := Fs (staging s2) sb (disk s2)). assert (forall e, ~ holds dev s3 e) as He3 by (intros e; unfold holds, s3; cbn [staging]; rewrite Sg; apply He).
  assert (block_bitmap_blocks sb <= 256) as Hb.
  { specialize (Hsz sectors fl Hi). change (2 ^ 26) with 67108864 in Hsz. pose proof (Z.div_le_mono sectors 67108864 8 ltac:(lia) Hsz) as Hm. change (67108864 / 8) with 8388608 in Hm.
    destruct L. lia. }
  assert (window_ok dev s3) as W by (split; [exact L|exact T|exact Hb|]; split; [intros e Hh|intros e Hh|intros e e' Hh]; by destruct (He3 e)).
  pose proof (verify_spec dev s3 W He3) as Hv. destruct (adytumfs_verify dev s3) as [r s']. destruct Hv as [S Hv]. intros Hok.
  split; [by apply (exact_same dev s3); [|apply Hv]|]. intros e. rewrite (same_holds dev _ _ e S). apply He3.
Qed.

Lemma adytum_attach_sound_witness :
  let '(r, s') := attach_volume 0 unattached in
  r = Some tt /\ exact_volume 0 s' /\ forall e, ~ holds 0 s' e.
Proof.
  pose proof (attach_formatted 0 unattached 96 0 formatted_super (wb_serves 0) unattached_info ltac:(lia) formatted_volume) as Hr.
  pose proof (adytum_attach_sound 0 unattached unattached_size) as Ha.
  destruct (attach_volume 0 unattached) as [r s']. destruct Hr as [-> _]. split; [reflexivity|exact (Ha eq_refl)].
Defined.

(** ** A write that runs out of space *)

(** Succeeds when the operation fails. *)
Definition refused {A} (m : act writeback A) : act writeback unit :=
  fun s => match m s with (None, s) => (Some tt, s) | (Some _, s) => (None, s) end.

(** A new file of one block. *)
Definition create : act writeback Z :=
  n ← adytumfs_inode_alloc 0 (Z.lor ADYTUMFS_MODE_REG 420);
  _ ← adytumfs_file_write 0 n 0 full_page;
  mret n.

(** A write over that block and the four after it, with four blocks free: the
    grow takes all four, and no block is left for the copy of the first. *)
Definition overfull : act writeback unit :=
  n ← create;
  refused (adytumfs_file_write 0 n 0 (replicate (Z.to_nat 20000) 7)).

Definition remount : act writeback unit :=
  _ ← adytumfs_commit 0;
  attach_volume 0.

(** A write that runs out of space makes the volume unmountable.  The
    file with its one block commits and mounts again.  After a write that is
    refused for lack of space, the blocks its grow took stay marked without an
    owner; the commit succeeds, and the audit refuses the next mount. *)
Theorem adytum_failed_write_leaks :
  fst ((_ ← create; remount) roomy) = Some tt /\
  fst ((_ ← overfull; adytumfs_commit 0) roomy) = Some tt /\
  fst ((_ ← overfull; remount) roomy) = None.
Proof. split; [|split]; vm_compute; reflexivity. Qed.

End AdytumAudit.
